(* ===== verification/_CoqProject ===== *)
-Q . S2P
Prelude.v
EventQueue.v
EventQueueTheory.v
EventQueueProperties.v
Heap.v
Double.v
RubySet.v
NetDest.v
NetDestTheory.v
Flit.v
FlitBuffer.v
Consumer.v
Config.v
VirtualChannel.v
OutVcState.v
NetworkLink.v
FlitQueueSpec.v
OutputUnit.v
InputUnit.v
RoutingUnit.v
RoutingTable.v
MeshRouting.v
RouterState.v
SwitchAllocator.v
CrossbarSwitch.v
SwitchTheory.v
SwitchMoved.v
SwitchCorrect.v
RouterCycle.v
SwitchProperties.v
BubblePath.v
MessageBuffer.v
MessageBufferTheory.v
NetStats.v
NetworkInterface.v
Topology.v
GarnetNetwork.v
ShortestPaths.v
TopologyProperties.v
Bubble.v
NetLens.v
NetRouting.v
BubbleInv.v
BubbleMoves.v
BubbleIntra.v
BubbleInit.v
RouterWakeup.v
BubbleInter.v
BubbleCheck.v
Fabric.v
FabricLinks.v
FabricUnits.v
FabricSwitch.v
FabricBubbles.v
BubbleProperties.v
NITheory.v
NIStep.v
FabricNodes.v
FabricCheck.v
FabricProperties.v
FaultDatabase.v
FaultModel.v
FaultProperties.v
AddrRange.v
BaseNetwork.v
PerfectSwitch.v
Throttle.v
SimpleNetwork.v
SimpleTheory.v
SimpleConserve.v
SimpleProperties.v
SyntheticTraffic.v
SyntheticProperties.v
NIProperties.v
Replacement.v
CacheMemory.v
CacheTheory.v
CacheProperties.v
RubyTables.v
Prefetcher.v
