(* ===== verification/Prelude.v ===== *)
(** * Garnet2.0 with Brownian bubbles: a verification library

    ** The program

    The repository is a fork of the gem5 simulator that adds Brownian bubbles (BINDU) to the
    Garnet2.0 network-on-chip model (src/gem5/src/mem/ruby/network/garnet2.0).  Routers are
    joined by links; each input port of a router has virtual channels (VCs), each VC has a
    credit counter upstream.  Network interfaces turn protocol messages into flits and back.
    A bubble is a reserved empty VC that walks through the mesh and exchanges places with
    packets, so that a routing deadlock is broken although routing is unrestricted.

    Parts and how they interact: a [NetworkInterface] takes messages from [MessageBuffer]s,
    injects flits through a [NetworkLink]; an [InputUnit] stores them in a [VirtualChannel]
    and asks the [RoutingUnit] for an output port; the [SwitchAllocator] grants output ports
    and VCs, the [CrossbarSwitch] moves the winners to [OutputUnit]s, whose [OutVcState]s keep
    the credits; credits travel back on credit links.  [GarnetNetwork] owns everything, and
    places and moves the bubbles when a router wakes up.  [Topology] makes the links of a
    network and its routing tables from shortest paths.  [GarnetSyntheticTraffic] generates the
    packets of an experiment.  The simulator's other network (simple/) shares the topology, the
    message buffers and the base class [Network]; its switches split multicast messages and its
    throttles limit the bandwidth of links.  The cache controllers at the nodes, generated from a
    protocol, use the structures of Ruby: a [CacheMemory] with a replacement policy, tables of
    transactions, timers and persistent requests, wires, directories and a prefetcher.

    ** The files

    Prelude, this file, has the outcome type, C++ vectors and loops, 64-bit cycles, tactics and
    hints.  In dependency order, the files are:
    - Heap: the binary heap of std::push_heap and std::pop_heap, with its correctness; Double: binary64 and binary32 numbers, and that rounding keeps them
      between 0 and 1.
    - EventQueue, EventQueueTheory, EventQueueProperties: sim/eventq (the bins of the simulator's
      event queue, serving, checkpoints) and its theory.
    - RubySet, NetDest: node sets (common/Set.hh, NetDest.cc); NetDestTheory: their nodes.
    - Flit, FlitBuffer, Consumer, Config: flit.cc, Credit.cc, flitBuffer.cc, Consumer.cc, the
      configuration read from GarnetNetwork.
    - VirtualChannel, OutVcState, NetworkLink, OutputUnit, InputUnit: the files of these names;
      FlitQueueSpec: the flit buffer as an implementation of an abstract timed queue.
    - RoutingUnit: RoutingUnit.cc; RoutingTable and MeshRouting are its theory.
    - RouterState, SwitchAllocator, CrossbarSwitch: Router.cc, SwitchAllocator.cc,
      CrossbarSwitch.cc; SwitchTheory, SwitchMoved, SwitchCorrect, RouterCycle, SwitchProperties
      are the theory of one cycle of the switch.
    - BubblePath: move_next_router and move_next_router_cbs, with their theory.
    - MessageBuffer, MessageBufferTheory: MessageBuffer.cc and its theory.
    - NetStats, NetworkInterface: the counters of GarnetNetwork.hh and NetworkInterface.cc.
    - GarnetNetwork, Bubble, RouterWakeup: GarnetNetwork.cc with the collation of statistics and the
      average formulas, its links (GarnetLink.hh) and its init, the bubble functions of it, and
      Router::wakeup with the dispatch of every consumer.
    - Topology: Topology.cc over any network that implements the class [NetworkOps], whose instance for
      Garnet is in GarnetNetwork; ShortestPaths, TopologyProperties: the theory of the paths and of
      the routing tables.
    - NetLens: reading and updating the units of a network; NetRouting: route computation in a mesh network.
    - BubbleInv, BubbleMoves, BubbleIntra, BubbleInit, BubbleInter, BubbleCheck,
      BubbleProperties: the theory of bubbles.
    - Fabric: the invariant of routers, links and bubbles together; FabricLinks, FabricUnits,
      FabricSwitch, FabricBubbles: every kind of step keeps it.
    - NITheory: the stages of the network interface; NIStep: its invariant and
      its wakeup; FabricNodes: the interfaces in the fabric; FabricCheck decides the invariants on
      an example; FabricProperties: executions; NIProperties: the interface by itself.
    - AddrRange, BaseNetwork: addr_range.hh, Network.cc, each with its theory.
    - PerfectSwitch, Throttle, SimpleNetwork: the files of these names and Switch.cc (simple/),
      over one store of shared message buffers; SimpleTheory, SimpleConserve, SimpleProperties
      are their theory.
    - SyntheticTraffic, SyntheticProperties: GarnetSyntheticTraffic.cc and its theory.
    - FaultDatabase, FaultModel: fault_model/ (FaultModel.py, FaultModel.cc) and its calls in
      Router.cc and GarnetNetwork.cc; FaultProperties is its theory.
    - Replacement: the replacement policies (structures/, system/WeightedLRUPolicy.cc) as instances
      of the class [ReplacementPolicy], with the laws [PolicyLaws] that a cache needs of them.
    - CacheMemory: CacheMemory.cc, BankedArray.cc, AbstractCacheEntry.cc, over any policy and a heap
      of entries; CacheTheory, CacheProperties: its invariant, the abstract cache and its theory.
    - RubyTables: TBETable, TimerTable, PersistentTable, WireBuffer, PerfectCacheMemory and
      DirectoryMemory (structures/), each with its theory.
    - Prefetcher: structures/Prefetcher.cc and its theory.

    ** How the code is modelled

    A C++ object is a Record with the members' names; a member function is a function from the
    object to its new value in the [result] monad, whose errors say how the simulation stops
    (failed assert, out-of-range access, exception, fatal, panic, division by zero).  Objects
    that C++ reaches through pointers are named by position: links by their index in the
    network's vectors ([m_in_link], [m_credit_link], ...), queues and consumers by [QueueRef]
    and [ConsumerRef] (Consumer).  Wakeups are scheduled by appending to the object's list of
    events, which [consumer_wakeup] hands to the caller.  Integers are [Z]; where the code
    relies on the width, [u32] and [u64] reduce explicitly, and [cyc_sub] fails on a negative
    difference as Cycles does.  A clock period is one tick, so that cycles and ticks agree.
    [with_x v r] is the record [r] with member [x] replaced.  Flits and credits share one
    interface, the class [FlitLike] with its laws, against which [flitBuffer] and the links
    are written.  What lies outside the sources is a parameter: [random ()] is the sequence
    [rand], the generated table of machine types is the class [MachineTypes], the packet of a
    functional access is a function on flits.

    ** What is shown

    - The network (FabricProperties): [fabric_inv] says that every VC of every wire (a network link
      with its credit link) carries at most one token, be it a flit, a credit or a bubble, and
      that both ends agree with it.  Any sequence of wakeups of routers and links returns, keeps
      the invariant and conserves the packets.  [network_inv] adds the interfaces with the
      protocol's buffers and the statistics.  Any sequence of wakeups of interfaces, routers and
      links returns, keeps it, conserves the deliveries (pairs of a payload and a node, in
      messages and in packets), and an interface hands over only what is for its node.
    - Bubbles (BubbleProperties, BubblePath): [net_inv] says that every channel's VC 0 is
      consistent: the credit upstream, the state on both sides, the buffered flits and the
      number of bubbles there agree, up to the flits and credits in transit that the
      function [t] counts.  Placement establishes it; each move within a router or to the
      next one returns, keeps it and conserves flits; so does the whole bubble phase of a
      wakeup.  A bubble's walk visits every router of an even square mesh.  The failures on odd
      meshes and of random placement with too many bubbles are theorems too.
    - Switch (SwitchProperties): from [router_ok] no assertion of a cycle fails, the invariant
      is kept, flits are conserved, the grants are a matching, arbitration is round-robin, and
      no wakeup is lost.
    - Routing (NetRouting, MeshRouting, RoutingTable): in every state of a mesh network, route computation
      of all mesh algorithms is minimal and delivers; XY and west-first have acyclic channel
      dependencies, the random ones do not; the table lookup is optimal.
    - Interfaces (NIProperties): VC allocation, the division of a multicast message into one
      packet per destination, the out link and ejection.
    - Buffers and links (MessageBufferTheory, FlitQueueSpec): capacity, order and stalling of
      message buffers, and how reanalysis overfills one; the flit buffer refines a queue ordered by time, and a link's wakeup
      moves what is due.
    - Topology (TopologyProperties): the shortest-path loop ends and computes the lightest
      walks; the routing tables lead every packet to its node.
    - Simple network (SimpleProperties, SimpleTheory): a switch divides a message's destinations
      among its links; no sequence of wakeups loses or duplicates a delivery; a throttle stays
      within its bandwidth.
    - Addresses (BaseNetwork, AddrRange): interleaved ranges map every address to
      one controller, and the offset within a range determines the address.
    - Traffic (SyntheticProperties): the patterns are permutations of the nodes, the
      bit-reversal loop reverses bits, and the packets of a tester are accounted for.
    - Event queue (EventQueueProperties): the bins refine a queue sorted by time and priority,
      last in first out within a bin; events are served in order; serving ends; a checkpoint
      loses an event.
    - Faults (FaultProperties): the reported probabilities lie between 0 and 1 under all rounding,
      and the static variables break a second fault model.
    - Caches (CacheProperties, Replacement): a cache implements a finite map from line addresses to
      entries with at most [assoc] lines in a set, for every policy that satisfies the laws;
      replacement makes room and loses only the victim; pseudo-LRU never evicts the line touched
      last; a slot that is reused while its tag is indexed confuses two lines.
    - Prefetcher (Prefetcher): any calls return and keep the arrays and indices well formed; what is
      asked for is a line, on a page with a miss of the same type; an ascending sequence of misses
      starts a stream with the lines ahead; a negative stride leads 4 GB too far.
    - Tables (RubyTables): a timer table answers as one that recomputes the earliest deadline at
      every query; unlocking undoes locking in a persistent table; TBE slots are counted right; a
      wire reorders messages although it must not.

    ** Scope of the theorems on executions and bubbles

    [fabric_inv], [network_inv] and [movable] describe square meshes of at least 2x2 routers ([mesh_sk]) whose
    routing algorithm is any but CUSTOM_, which the code leaves to the user: the table, XY,
    random, west-first and the two adaptive algorithms.  Every router has an entry for every destination in its
    table.  When bubbles are enabled, [bubbles_ready] asks that they have been placed, that the scheme is bn,
    that the period between routers is positive (the code divides by it) and that the side of the mesh is
    even (on odd meshes the walk fails, [bubble_walk_odd_mesh]).  Route computation by itself ([grid],
    [mesh_delivery]) is for meshes of any number of rows and columns, for the adaptive algorithms with at least as many
    columns as rows.  The tables of a topology need links of weight 1 to 10000 and reach the nodes less
    than 10000 away.  The cache theorems assume the contract [op_pre] of the protocol.

    ** Bounds and fuel

    Loops with a static bound use it ([for_range], [for_ctl], or structural recursion on the
    number of iterations).  The heap loops get the length of the vector as fuel, which is more
    than the height they need (Heap proves correctness from it).  The loops of a switch and a
    throttle get one unit of fuel per message in the buffer they drain, and a few more;
    [simple_network_conserves] shows that this is enough.  The shortest-path loop lowers the sum
    of the distances in every round, so [shortest_path_correct] needs fuel above the sum of the
    weights.  The only loop without a bound is the [goto] of random placement: [draw_router]
    takes the fuel as an argument, and [placement_correct] assumes that the generator draws
    every router within it.

    ** What is not modelled

    The names of statistics and printing, destructors, and the locks of the simulator's event queue;
    of Ruby, the processor side (sequencers, ports, coalescers), the profilers and the
    bytes of data blocks.  The
    wakeups a consumer asks for are handed to the caller: executions are arbitrary sequences of
    wakeups, not those of one event queue.  The executions with interfaces
    are those of simulation type 1 (no marked flits) with single-flit packets, which is all that
    [num_flits_of] yields (the size of a message is taken to be valid), and without RubySystem's randomization of message delays; the
    protocol behind the interfaces neither enqueues nor dequeues during an execution.  The
    [int] sums of link weights in the shortest-path loop are not reduced to their width. *)

From stdpp Require Export base option list numbers strings gmap.
From Stdlib Require Export ZArith Lia.

#[export] Set Default Goal Selector "!".

Declare Scope garnet_scope.
Delimit Scope garnet_scope with garnet.
Open Scope garnet_scope.
Local Open Scope Z_scope.

(** ** Outcomes of C++ code

    A call either returns or stops the simulation.  [EAssert] is a failed
    [assert], [EIndex] an out-of-range [operator[]] or null pointer (undefined
    behaviour), [EThrow] a C++ exception ([vector::at], [bitset::test],
    [Cycles::operator-]), [EFatal] and [EPanic] gem5's [fatal]/[panic],
    [EDiv] a division by zero, and [EFuel] a loop that did not finish within
    the fuel the model gave it. *)
Inductive err := EAssert | EIndex | EThrow | EFatal | EPanic | EDiv | EFuel.

Inductive result (A : Type) :=
  | Ok (a : A)
  | Err (e : err).
Arguments Ok {A} a.
Arguments Err {A} e.

#[export] Instance err_eq_dec : EqDecision err.
Proof. solve_decision. Defined.

#[export] Instance result_ret : MRet result := fun A a => Ok a.
#[export] Instance result_bind : MBind result := fun A B f r =>
  match r with Ok a => f a | Err e => Err e end.
#[export] Instance result_fmap : FMap result := fun A B f r =>
  match r with Ok a => Ok (f a) | Err e => Err e end.

Definition assert_ (b : bool) : result unit := if b then Ok tt else Err EAssert.

Definition is_ok {A} (r : result A) : bool :=
  match r with Ok _ => true | Err _ => false end.

Lemma Ok_inj {A} (a b : A) : Ok a = Ok b -> a = b.
Proof. by intros [= ->]. Qed.

Lemma bind_Ok {A B} (f : A -> result B) (r : result A) (b : B) :
  (r ≫= f) = Ok b <-> exists a, r = Ok a /\ f a = Ok b.
Proof.
  split.
  - destruct r as [a|e]; cbn; [intros H; eauto | discriminate].
  - intros (a & -> & H); exact H.
Qed.

Lemma bind_Ok_l {A B} (f : A -> result B) (a : A) : (Ok a ≫= f) = f a.
Proof. reflexivity. Qed.

Lemma bind_Err_l {A B} (f : A -> result B) (e : err) : (Err e ≫= f) = Err e.
Proof. reflexivity. Qed.

Lemma bind_assoc {A B C} (r : result A) (f : A -> result B) (g : B -> result C) :
  ((r ≫= f) ≫= g) = (r ≫= (fun a => f a ≫= g)).
Proof. by destruct r. Qed.

Lemma assert_Ok b u : assert_ b = Ok u <-> b = true.
Proof. destruct b, u; cbn; split; congruence. Qed.

(** ** Machine integers *)

Definition u64 (z : Z) : Z := z mod 2 ^ 64.
Definition u32 (z : Z) : Z := z mod 2 ^ 32.
Definition i32 (z : Z) : Z := (z + 2 ^ 31) mod 2 ^ 32 - 2 ^ 31.

Lemma u64_small z : 0 <= z < 2 ^ 64 -> u64 z = z.
Proof. intros H; unfold u64; apply Z.mod_small; exact H. Qed.

Lemma u64_range z : 0 <= u64 z < 2 ^ 64.
Proof. unfold u64; apply Z.mod_pos_bound; lia. Qed.

Lemma u32_small z : 0 <= z < 2 ^ 32 -> u32 z = z.
Proof. intros H; unfold u32; apply Z.mod_small; exact H. Qed.

Lemma i32_small z : - 2 ^ 31 <= z < 2 ^ 31 -> i32 z = z.
Proof. intros H; unfold i32; rewrite Z.mod_small; lia. Qed.

(** [Cycles] of base/types.hh: addition wraps at 64 bits, subtraction throws
    when the right operand is larger. *)
Definition cyc_add (a b : Z) : Z := u64 (a + b).
Definition cyc_sub (a b : Z) : result Z := if b <=? a then Ok (a - b) else Err EThrow.

(** ** Vectors indexed by C++ ints *)

Definition vec_get {A} (l : list A) (i : Z) : result A :=
  if i <? 0 then Err EIndex
  else match l !! Z.to_nat i with Some a => Ok a | None => Err EIndex end.

Definition vec_at {A} (l : list A) (i : Z) : result A :=
  if i <? 0 then Err EThrow
  else match l !! Z.to_nat i with Some a => Ok a | None => Err EThrow end.

Definition vec_set {A} (l : list A) (i : Z) (a : A) : result (list A) :=
  if (0 <=? i) && (i <? Z.of_nat (length l)) then Ok (<[Z.to_nat i := a]> l) else Err EIndex.

Definition vec_modify {A} (l : list A) (i : Z) (f : A -> A) : result (list A) :=
  a ← vec_get l i; vec_set l i (f a).

Definition vec_update {A} (l : list A) (i : Z) (f : A -> result A) : result (list A) :=
  a ← vec_get l i; b ← f a; vec_set l i b.

Definition vsize {A} (l : list A) : Z := Z.of_nat (length l).

Lemma vec_get_Ok {A} (l : list A) i a :
  vec_get l i = Ok a <-> 0 <= i /\ l !! Z.to_nat i = Some a.
Proof.
  unfold vec_get. destruct (Z.ltb_spec i 0).
  - split; [discriminate | lia].
  - destruct (l !! Z.to_nat i); split; intuition congruence.
Qed.

Lemma vec_get_in_range {A} (l : list A) i :
  0 <= i < vsize l -> exists a, vec_get l i = Ok a.
Proof.
  intros [H0 H1]. unfold vsize in H1.
  destruct (lookup_lt_is_Some_2 l (Z.to_nat i)) as [a Ha]; [lia|].
  exists a. apply vec_get_Ok. auto.
Qed.

Lemma vec_get_range {A} (l : list A) i a : vec_get l i = Ok a -> 0 <= i < vsize l.
Proof.
  intros [H0 H1]%vec_get_Ok. apply lookup_lt_Some in H1. unfold vsize. lia.
Qed.

Lemma vec_set_Ok {A} (l : list A) i a l' :
  vec_set l i a = Ok l' <-> 0 <= i < vsize l /\ l' = <[Z.to_nat i := a]> l.
Proof.
  unfold vec_set, vsize. destruct (Z.leb_spec 0 i), (Z.ltb_spec i (Z.of_nat (length l))); cbn;
    split; try discriminate; intuition (try congruence; try lia).
Qed.

Lemma vec_set_in_range {A} (l : list A) i a :
  0 <= i < vsize l -> vec_set l i a = Ok (<[Z.to_nat i := a]> l).
Proof. intros H. apply vec_set_Ok. auto. Qed.

Lemma vsize_insert {A} (l : list A) i a : vsize (<[i := a]> l) = vsize l.
Proof. unfold vsize. by rewrite length_insert. Qed.

Lemma vec_get_insert_eq {A} (l : list A) i a :
  0 <= i < vsize l -> vec_get (<[Z.to_nat i := a]> l) i = Ok a.
Proof.
  intros H. apply vec_get_Ok. split; [lia|]. apply list_lookup_insert_eq. unfold vsize in H. lia.
Qed.

Lemma vec_get_insert_ne {A} (l : list A) i j a :
  0 <= i -> i <> j -> vec_get (<[Z.to_nat i := a]> l) j = vec_get l j.
Proof.
  intros Hi Hne. unfold vec_get. destruct (Z.ltb_spec j 0); [done|].
  rewrite list_lookup_insert_ne; [done | lia].
Qed.

Lemma vsize_nonneg {A} (l : list A) : 0 <= vsize l.
Proof. unfold vsize. lia. Qed.

Lemma vec_update_Ok {A} (l : list A) i (f : A -> result A) a b :
  vec_get l i = Ok a -> f a = Ok b -> vec_update l i f = Ok (<[Z.to_nat i := b]> l).
Proof.
  intros Ha Hb. unfold vec_update. rewrite Ha. cbn. rewrite Hb. cbn.
  apply vec_set_in_range. by eapply vec_get_range.
Qed.

Lemma vec_modify_Ok {A} (l : list A) i (f : A -> A) a :
  vec_get l i = Ok a -> vec_modify l i f = Ok (<[Z.to_nat i := f a]> l).
Proof.
  intros Ha. unfold vec_modify. rewrite Ha. cbn. apply vec_set_in_range. by eapply vec_get_range.
Qed.

Lemma vec_set_Ok_get {A} (l : list A) i a b :
  vec_get l i = Ok a -> vec_set l i b = Ok (<[Z.to_nat i := b]> l).
Proof. intros Ha. apply vec_set_in_range. by eapply vec_get_range. Qed.

Lemma vec_get_insert {A} (l : list A) i a b :
  vec_get l i = Ok a -> vec_get (<[Z.to_nat i := b]> l) i = Ok b.
Proof. intros Ha. apply vec_get_insert_eq. by eapply vec_get_range. Qed.

Lemma Forall_vec_get {A} (P : A -> Prop) (l : list A) i a : Forall P l -> vec_get l i = Ok a -> P a.
Proof. intros Hall [_ Ha]%vec_get_Ok. by eapply (Forall_lookup_1 _ _ _ _ Hall). Qed.

(** Replacing one element of a list, seen through what each element contributes. *)
Lemma concat_map_insert {A B} (g : A -> list B) (l : list A) i x y :
  l !! i = Some x -> g x ++ concat (map g (<[i := y]> l)) ≡ₚ g y ++ concat (map g l).
Proof.
  revert i. induction l as [|a l IH]; intros [|i] Hi; cbn in *; simplify_eq.
  - solve_Permutation.
  - specialize (IH i Hi). rewrite (Permutation_app_swap_app (g x)), IH. solve_Permutation.
Qed.

Lemma concat_map_vec_insert {A B} (g : A -> list B) (l : list A) i x y :
  vec_get l i = Ok x -> g x ++ concat (map g (<[Z.to_nat i := y]> l)) ≡ₚ g y ++ concat (map g l).
Proof. intros [_ Hi]%vec_get_Ok. by apply concat_map_insert. Qed.

(** ** Loops

    [for_range n i body s] is [for (k = i; k < i + n; k++) s = body k s];
    [for_ctl] is the same loop with [break]/[return] ([Brk]). *)
Fixpoint for_range {S} (n : nat) (i : Z) (body : Z -> S -> result S) (s : S) : result S :=
  match n with
  | O => Ok s
  | Datatypes.S n' => s' ← body i s; for_range n' (i + 1) body s'
  end.

Inductive ctl (S R : Type) := Cont (s : S) | Brk (r : R).
Arguments Cont {S R} s.
Arguments Brk {S R} r.

Fixpoint for_ctl {S R} (n : nat) (i : Z) (body : Z -> S -> result (ctl S R)) (s : S)
  : result (ctl S R) :=
  match n with
  | O => Ok (Cont s)
  | Datatypes.S n' =>
      c ← body i s;
      match c with
      | Cont s' => for_ctl n' (i + 1) body s'
      | Brk r => Ok (Brk r)
      end
  end.

(** A loop over the elements of a container. *)
Fixpoint foldM {A S} (f : S -> A -> result S) (l : list A) (s : S) : result S :=
  match l with
  | [] => Ok s
  | a :: l' => s' ← f s a; foldM f l' s'
  end.

(** Total correctness of a counted loop: an invariant that every iteration
    re-establishes without error gives a result that satisfies it. *)
Lemma for_range_total {S} (P : Z -> S -> Prop) (body : Z -> S -> result S) n i s :
  P i s ->
  (forall k s, i <= k < i + Z.of_nat n -> P k s ->
     exists s', body k s = Ok s' /\ P (k + 1) s') ->
  exists s', for_range n i body s = Ok s' /\ P (i + Z.of_nat n) s'.
Proof.
  revert i s. induction n as [|n IH]; intros i s Hs Hstep; cbn [for_range].
  - exists s. split; [done|]. by replace (i + Z.of_nat 0) with i by lia.
  - destruct (Hstep i s) as (s1 & -> & H1); [lia | done|]. cbn.
    destruct (IH (i + 1) s1 H1) as (s2 & H2 & H3).
    + intros k s' Hk. apply Hstep. lia.
    + exists s2. split; [done|]. by replace (i + Z.of_nat (Datatypes.S n)) with (i + 1 + Z.of_nat n) by lia.
Qed.

(** Partial correctness of a counted loop. *)
Lemma for_range_inv {S} (P : Z -> S -> Prop) (body : Z -> S -> result S) n i s s' :
  P i s ->
  (forall k s s', i <= k < i + Z.of_nat n -> P k s -> body k s = Ok s' -> P (k + 1) s') ->
  for_range n i body s = Ok s' ->
  P (i + Z.of_nat n) s'.
Proof.
  revert i s. induction n as [|n IH]; intros i s Hs Hstep; cbn [for_range].
  - intros [= <-]. by replace (i + Z.of_nat 0) with i by lia.
  - intros (s1 & Hb & Hl)%bind_Ok.
    replace (i + Z.of_nat (Datatypes.S n)) with (i + 1 + Z.of_nat n) by lia.
    eapply IH; [|intros k t t' Hk; apply Hstep; lia | exact Hl].
    eapply Hstep; [lia | done | done].
Qed.

(** A loop in two parts. *)
Lemma for_range_app {S} (body : Z -> S -> result S) a b i s :
  for_range (a + b) i body s = (s' ← for_range a i body s; for_range b (i + Z.of_nat a) body s').
Proof.
  revert i s. induction a as [|a IH]; intros i s; cbn [for_range Nat.add].
  - cbn. by rewrite Z.add_0_r.
  - destruct (body i s); cbn; [|done]. rewrite IH. by replace (i + Z.of_nat (Datatypes.S a)) with (i + 1 + Z.of_nat a) by lia.
Qed.

(** A search loop: the first index that satisfies the test, or none. *)
Lemma for_ctl_search {R} (body : Z -> unit -> result (ctl unit R)) (b : Z -> bool) (f : Z -> R) n i :
  (forall k, i <= k < i + Z.of_nat n -> body k tt = Ok (if b k then Brk (f k) else Cont tt)) ->
  (exists k, i <= k < i + Z.of_nat n /\ b k = true /\ (forall j, i <= j < k -> b j = false) /\ for_ctl n i body tt = Ok (Brk (f k))) \/
  ((forall k, i <= k < i + Z.of_nat n -> b k = false) /\ for_ctl n i body tt = Ok (Cont tt)).
Proof.
  revert i. induction n as [|n IH]; intros i Hb; cbn [for_ctl]; [right; split; [lia | done]|].
  rewrite Hb by lia. cbn [mbind result_bind]. destruct (b i) eqn:Ei; [left; exists i; split; [lia|]; split; [done|]; split; [lia | done]|].
  destruct (IH (i + 1)) as [(k & Hk & Hbk & Hno & Hf)|[Hno Hf]]; [intros k Hk; apply Hb; lia | left | right].
  - exists k. split; [lia|]. split; [done|]. split; [|done]. intros j Hj. destruct (decide (j = i)) as [->|]; [done|]. apply Hno. lia.
  - split; [|done]. intros k Hk. destruct (decide (k = i)) as [->|]; [done|]. apply Hno. lia.
Qed.

(** Total correctness of a loop that may be left: [P] holds at the head, [Q] of what it is left with. *)
Lemma for_ctl_total {S R} (P : Z -> S -> Prop) (Q : R -> Prop) (body : Z -> S -> result (ctl S R)) n i s :
  P i s ->
  (forall k s, i <= k < i + Z.of_nat n -> P k s ->
     exists c, body k s = Ok c /\ match c with Cont s' => P (k + 1) s' | Brk r => Q r end) ->
  exists c, for_ctl n i body s = Ok c /\ match c with Cont s' => P (i + Z.of_nat n) s' | Brk r => Q r end.
Proof.
  revert i s. induction n as [|n IH]; intros i s Hs Hstep; cbn [for_ctl].
  - exists (Cont s). split; [done|]. by replace (i + Z.of_nat 0) with i by lia.
  - destruct (Hstep i s) as ([s'|r] & -> & H); [lia | done| |]; cbn [mbind result_bind]; [|by exists (Brk r)].
    destruct (IH (i + 1) s' H) as (c & Hc & HP); [intros k t Hk; apply Hstep; lia|]. exists c. split; [done|].
    by replace (i + Z.of_nat (Datatypes.S n)) with (i + 1 + Z.of_nat n) by lia.
Qed.

(** Writes in range return and keep what holds of all elements. *)
Lemma vec_set_total {A} (l : list A) i a : 0 <= i < vsize l ->
  exists l', vec_set l i a = Ok l' /\ vsize l' = vsize l /\ vec_get l' i = Ok a /\
    forall P : A -> Prop, Forall P l -> P a -> Forall P l'.
Proof.
  intros H. eexists. rewrite vec_set_in_range by done. split_and!; [done | apply vsize_insert | by apply vec_get_insert_eq|].
  intros P Hl Ha. by apply Forall_insert.
Qed.

Lemma vec_modify_total {A} (l : list A) i (f : A -> A) : 0 <= i < vsize l ->
  exists a l', vec_get l i = Ok a /\ vec_modify l i f = Ok l' /\ vsize l' = vsize l /\ vec_get l' i = Ok (f a) /\
    forall P : A -> Prop, Forall P l -> (P a -> P (f a)) -> Forall P l'.
Proof.
  intros H. destruct (vec_get_in_range l i H) as [a Ha]. destruct (vec_set_total l i (f a) H) as (l' & Hl' & Hsize & Hget & Hall).
  exists a, l'. unfold vec_modify. rewrite Ha. split_and!; [done..|]. intros P HP Hf. apply Hall; [done|]. apply Hf.
  by eapply Forall_vec_get.
Qed.

(** ** Automation *)

Create HintDb garnet.
Create Rewrite HintDb garnet.
#[export] Hint Resolve vsize_nonneg u64_range : garnet.
#[export] Hint Rewrite @vsize_insert @bind_Ok_l @bind_Err_l @length_insert : garnet.

(** Splits every [bind] hypothesis that returned [Ok] into its two halves. *)
Ltac inv_ok :=
  repeat match goal with
  | H : Ok _ = Ok _ |- _ => apply Ok_inj in H
  | H : Err _ = Ok _ |- _ => discriminate H
  | H : Ok _ = Err _ |- _ => discriminate H
  | H : mret _ = Ok _ |- _ => unfold mret, result_ret in H
  | H : (_ ≫= _) = Ok _ |- _ => apply bind_Ok in H; destruct H as (? & ? & ?)
  | H : assert_ _ = Ok _ |- _ => apply assert_Ok in H
  | H : (let (_, _) := ?p in _) = Ok _ |- _ => destruct p eqn:?
  end; simplify_eq.

(** Identifies the values of two equations for the same call. *)
Ltac merge_ok :=
  repeat match goal with
  | H1 : ?x = Ok ?a, H2 : ?x = Ok ?b |- _ => rewrite H1 in H2; apply Ok_inj in H2; simplify_eq
  end.

(** ** Matrices

    A [std::vector<std::vector<T>>] used as a matrix: the request and winner matrices of the
    switch allocator, the distances of the topology. *)

Section Matrix.
Local Open Scope Z_scope.

Definition mat_get {A} (m : list (list A)) (i j : Z) : result A := row ← vec_get m i; vec_get row j.
Definition mat_set {A} (m : list (list A)) (i j : Z) (a : A) : result (list (list A)) :=
  vec_update m i (fun row => vec_set row j a).

Definition mat_ok {A} (rows cols : Z) (m : list (list A)) : Prop :=
  vsize m = rows /\ Forall (fun row => vsize row = cols) m.

Lemma mat_row {A} rows cols (m : list (list A)) i :
  mat_ok rows cols m -> 0 <= i < rows -> exists row, vec_get m i = Ok row /\ vsize row = cols.
Proof.
  intros [Hn Hall] Hi. destruct (vec_get_in_range m i) as [row Hrow]; [lia|].
  exists row. split; [done|]. apply vec_get_Ok in Hrow as [_ Hrow]. by eapply (Forall_lookup_1 _ _ _ _ Hall).
Qed.

Lemma mat_get_total {A} rows cols (m : list (list A)) i j :
  mat_ok rows cols m -> 0 <= i < rows -> 0 <= j < cols -> exists a, mat_get m i j = Ok a.
Proof.
  intros Hm Hi Hj. destruct (mat_row _ _ _ _ Hm Hi) as (row & Hrow & Hlen).
  unfold mat_get. rewrite Hrow. cbn. apply vec_get_in_range. lia.
Qed.

Lemma mat_get_range {A} rows cols (m : list (list A)) i j a :
  mat_ok rows cols m -> mat_get m i j = Ok a -> 0 <= i < rows /\ 0 <= j < cols.
Proof.
  intros [Hn Hall] H. unfold mat_get in H. inv_ok.
  rename select (vec_get m i = _) into Hrow. pose proof (vec_get_range _ _ _ Hrow).
  rename select (vec_get _ j = _) into Hcell. pose proof (vec_get_range _ _ _ Hcell).
  apply vec_get_Ok in Hrow as [_ Hrow]. pose proof (Forall_lookup_1 _ _ _ _ Hall Hrow) as Hlen.
  cbn in Hlen. lia.
Qed.

Lemma mat_set_total {A} rows cols (m : list (list A)) i j a :
  mat_ok rows cols m -> 0 <= i < rows -> 0 <= j < cols ->
  exists m', mat_set m i j a = Ok m' /\ mat_ok rows cols m' /\ mat_get m' i j = Ok a /\
    (forall i' j', ~ (i' = i /\ j' = j) -> mat_get m' i' j' = mat_get m i' j').
Proof.
  intros Hm Hi Hj. destruct (mat_row _ _ _ _ Hm Hi) as (row & Hrow & Hlen).
  assert (Hset : vec_set row j a = Ok (<[Z.to_nat j := a]> row)) by (apply vec_set_in_range; lia).
  exists (<[Z.to_nat i := <[Z.to_nat j := a]> row]> m). destruct Hm as [Hn Hall]. split_and!.
  - unfold mat_set. by erewrite vec_update_Ok.
  - split; [by rewrite vsize_insert|]. apply Forall_insert; [done|]. by rewrite vsize_insert.
  - unfold mat_get. rewrite (vec_get_insert _ _ _ _ Hrow). cbn. apply vec_get_insert_eq. lia.
  - intros i' j' Hne. unfold mat_get. destruct (decide (i' = i)) as [->|].
    + rewrite (vec_get_insert _ _ _ _ Hrow), Hrow. cbn. apply vec_get_insert_ne; [lia|].
      intros ->. tauto.
    + rewrite vec_get_insert_ne; [done | lia | done].
Qed.
End Matrix.
