(* ===== verification/EventQueue.v ===== *)
(** * The event queue of the simulator

    sim/eventq.hh, eventq.cc and eventq_impl.hh: events in a list of bins, one bin per time and priority, each bin a
    stack.  Events are objects in a store and the lists are made of their pointers, as in the
    code: the [nextBin] of an event below the top of its bin is stale.  What an event does
    ([process]) is a parameter.  The locks of the multi-threaded mode are left out: a call is
    atomic. *)

From S2P Require Import Prelude.
Local Open Scope Z_scope.

(** ** Flags *)

Definition PublicRead : Z := 0x003f.
Definition PublicWrite : Z := 0x001d.
Definition Squashed : Z := 0x0001.
Definition Scheduled : Z := 0x0002.
Definition Managed : Z := 0x0004.
Definition IsExitEvent : Z := 0x0010.
Definition IsMainQueue : Z := 0x0020.
Definition Initialized : Z := 0x7a40.
Definition InitMask : Z := 0xffc0.

(** [Flags::isSet], [set] and [clear] on 16 bits *)
Definition flag_isSet (mask flags : Z) : bool := negb (Z.land flags mask =? 0).
Definition flag_set (mask flags : Z) : Z := Z.lor flags mask.
Definition flag_clear (mask flags : Z) : Z := Z.ldiff flags mask.

(** ** Events *)

Abbreviation EventId := Z (only parsing).
Abbreviation EventPtr := (option Z) (only parsing).

Record Event := mkEvent {
  nextBin : EventPtr;
  nextInBin : EventPtr;
  _when : Z;
  _priority : Z;
  ev_flags : Z;
  ev_queue : option Z
}.

Definition with_nextBin (v : EventPtr) (e : Event) : Event :=
  mkEvent v (nextInBin e) (_when e) (_priority e) (ev_flags e) (ev_queue e).
Definition with_nextInBin (v : EventPtr) (e : Event) : Event :=
  mkEvent (nextBin e) v (_when e) (_priority e) (ev_flags e) (ev_queue e).
Definition with_ev_flags (v : Z) (e : Event) : Event :=
  mkEvent (nextBin e) (nextInBin e) (_when e) (_priority e) v (ev_queue e).

Definition Event_new (p f : Z) : result Event :=
  assert_ (negb (flag_isSet (Z.lnot PublicWrite) f)) ;;
  Ok (mkEvent None None 0 p (Z.lor Initialized f) None).

Definition setWhen (when q : Z) (e : Event) : Event :=
  mkEvent (nextBin e) (nextInBin e) when (_priority e) (ev_flags e) (Some q).

Definition initialized (e : Event) : bool := Z.land (ev_flags e) InitMask =? Initialized.
Definition scheduled (e : Event) : bool := flag_isSet Scheduled (ev_flags e).
Definition squashed (e : Event) : bool := flag_isSet Squashed (ev_flags e).
Definition isExitEvent (e : Event) : bool := flag_isSet IsExitEvent (ev_flags e).
Definition isManaged (e : Event) : bool := flag_isSet Managed (ev_flags e).
Definition squash (e : Event) : Event := with_ev_flags (flag_set Squashed (ev_flags e)) e.
Definition set_flag (m : Z) (e : Event) : Event := with_ev_flags (flag_set m (ev_flags e)) e.
Definition clear_flag (m : Z) (e : Event) : Event := with_ev_flags (flag_clear m (ev_flags e)) e.

(** [operator<], [<=] and [==] *)
Definition ev_lt (l r : Event) : bool :=
  (_when l <? _when r) || ((_when l =? _when r) && (_priority l <? _priority r)).
Definition ev_le (l r : Event) : bool :=
  (_when l <? _when r) || ((_when l =? _when r) && (_priority l <=? _priority r)).
Definition ev_eq (l r : Event) : bool := (_when l =? _when r) && (_priority l =? _priority r).

(** ** The queue and the store *)

Record EventQueue := mkEventQueue {
  eq_events : gmap EventId Event;
  head : EventPtr;
  _curTick : Z;
  async_queue : list EventId
}.

Definition with_eq_events (v : gmap EventId Event) (q : EventQueue) : EventQueue :=
  mkEventQueue v (head q) (_curTick q) (async_queue q).
Definition with_head (v : EventPtr) (q : EventQueue) : EventQueue :=
  mkEventQueue (eq_events q) v (_curTick q) (async_queue q).
Definition with_async_queue (v : list EventId) (q : EventQueue) : EventQueue :=
  mkEventQueue (eq_events q) (head q) (_curTick q) v.
Definition setCurTick (v : Z) (q : EventQueue) : EventQueue :=
  mkEventQueue (eq_events q) (head q) v (async_queue q).

Definition EventQueue_new (events : gmap EventId Event) : EventQueue := mkEventQueue events None 0 [].
Definition empty (q : EventQueue) : bool := match head q with None => true | Some _ => false end.

(** [*event] *)
Definition deref (id : EventId) (st : gmap EventId Event) : result Event :=
  match st !! id with Some e => Ok e | None => Err EIndex end.
Definition update (id : EventId) (f : Event -> Event) (st : gmap EventId Event) : result (gmap EventId Event) :=
  e ← deref id st; Ok (<[id := f e]> st).
Definition on_event (id : EventId) (f : Event -> Event) (q : EventQueue) : result EventQueue :=
  st ← update id f (eq_events q); Ok (with_eq_events st q).

(** ** Insertion *)

Definition insertBefore (event : EventId) (curr : EventPtr) (st : gmap EventId Event) : result (gmap EventId Event) :=
  match curr with
  | None => update event (fun e => with_nextInBin None (with_nextBin None e)) st
  | Some c =>
      e ← deref event st;
      ce ← deref c st;
      if ev_lt e ce then update event (fun e => with_nextInBin None (with_nextBin (Some c) e)) st
      else update event (fun e => with_nextInBin (Some c) (with_nextBin (nextBin ce) e)) st
  end.

(** [while (curr && *curr < *event)], from a [prev] on *)
Fixpoint find_bin (fuel : nat) (st : gmap EventId Event) (event : Event) (prev : EventId) (curr : EventPtr)
  : result (EventId * EventPtr) :=
  match fuel with
  | O => Err EFuel
  | S fuel =>
      match curr with
      | None => Ok (prev, None)
      | Some c =>
          ce ← deref c st;
          if ev_lt ce event then find_bin fuel st event c (nextBin ce) else Ok (prev, Some c)
      end
  end.

Definition insert (event : EventId) (q : EventQueue) : result EventQueue :=
  let st := eq_events q in
  e ← deref event st;
  match head q with
  | None => st' ← insertBefore event None st; Ok (with_head (Some event) (with_eq_events st' q))
  | Some h =>
      he ← deref h st;
      if ev_le e he then
        st' ← insertBefore event (Some h) st; Ok (with_head (Some event) (with_eq_events st' q))
      else
        '(prev, curr) ← find_bin (S (size st)) st e h (nextBin he);
        st1 ← insertBefore event curr st;
        st2 ← update prev (with_nextBin (Some event)) st1;
        Ok (with_eq_events st2 q)
  end.

(** ** Removal *)

(** [while (event != next)], which looks for [event] below [curr] *)
Fixpoint find_in_bin (fuel : nat) (st : gmap EventId Event) (event curr : EventId) (next : EventPtr) : result EventId :=
  match fuel with
  | O => Err EFuel
  | S fuel =>
      match next with
      | None => Err EPanic
      | Some n => if event =? n then Ok curr else ne ← deref n st; find_in_bin fuel st event n (nextInBin ne)
      end
  end.

Definition removeItem (event top : EventId) (st : gmap EventId Event) : result (EventPtr * gmap EventId Event) :=
  te ← deref top st;
  if event =? top then
    match nextInBin te with
    | None => Ok (nextBin te, st)
    | Some n => st' ← update n (with_nextBin (nextBin te)) st; Ok (Some n, st')
    end
  else
    curr ← find_in_bin (S (size st)) st event top (nextInBin te);
    e ← deref event st;
    st' ← update curr (with_nextInBin (nextInBin e)) st;
    Ok (Some top, st').

Section Queue.
(** The identity of the queue, whether the simulation is parallel and the running thread owns
    the queue. *)
Context (this : Z) (inParallelMode this_is_current : bool).

Definition remove (event : EventId) (q : EventQueue) : result EventQueue :=
  match head q with
  | None => Err EPanic
  | Some h =>
      let st := eq_events q in
      e ← deref event st;
      assert_ (bool_decide (ev_queue e = Some this)) ;;
      he ← deref h st;
      if ev_eq he e then
        '(p, st') ← removeItem event h st; Ok (with_head p (with_eq_events st' q))
      else
        '(prev, curr) ← find_bin (S (size st)) st e h (nextBin he);
        match curr with
        | None => Err EPanic
        | Some c =>
            ce ← deref c st;
            if negb (ev_eq ce e) then Err EPanic
            else
              '(p, st1) ← removeItem event c st;
              st2 ← update prev (with_nextBin p) st1;
              Ok (with_eq_events st2 q)
        end
  end.

(** ** Scheduling *)

Definition asyncInsert (event : EventId) (q : EventQueue) : EventQueue :=
  with_async_queue (async_queue q ++ [event]) q.

(** [release]: a managed event that is not scheduled is deleted, and its destructor asserts that again. *)
Definition release (event : EventId) (q : EventQueue) : result EventQueue :=
  e ← deref event (eq_events q);
  if isManaged e then
    if negb (scheduled e) then Ok (with_eq_events (delete event (eq_events q)) q) else Ok q
  else Ok q.

(** [acquireImpl] does nothing unless it is overridden. *)
Definition schedule (event : EventId) (when : Z) (global : bool) (q : EventQueue) : result EventQueue :=
  assert_ (_curTick q <=? when) ;;
  e ← deref event (eq_events q);
  assert_ (negb (scheduled e)) ;;
  assert_ (initialized e) ;;
  q1 ← on_event event (setWhen when this) q;
  q2 ← (if inParallelMode && (negb this_is_current || global) then Ok (asyncInsert event q1) else insert event q1);
  on_event event (set_flag Scheduled) q2.

Definition deschedule (event : EventId) (q : EventQueue) : result EventQueue :=
  e ← deref event (eq_events q);
  assert_ (scheduled e) ;;
  assert_ (initialized e) ;;
  assert_ (negb inParallelMode || this_is_current) ;;
  q1 ← remove event q;
  q2 ← on_event event (fun e => clear_flag Scheduled (clear_flag Squashed e)) q1;
  release event q2.

Definition reschedule (event : EventId) (when : Z) (always : bool) (q : EventQueue) : result EventQueue :=
  assert_ (_curTick q <=? when) ;;
  e ← deref event (eq_events q);
  assert_ (always || scheduled e) ;;
  assert_ (initialized e) ;;
  assert_ (negb inParallelMode || this_is_current) ;;
  q1 ← (if scheduled e then remove event q else Ok q);
  q2 ← on_event event (setWhen when this) q1;
  q3 ← insert event q2;
  on_event event (fun e => set_flag Scheduled (clear_flag Squashed e)) q3.

Definition checkpointReschedule (event : EventId) (q : EventQueue) : result EventQueue :=
  e ← deref event (eq_events q);
  if scheduled e then insert event q else Ok q.

Definition handleAsyncInsertions (q : EventQueue) : result EventQueue :=
  assert_ this_is_current ;;
  foldM (fun q _ => match async_queue q with
                    | [] => Ok q
                    | e :: _ => q' ← insert e q; Ok (with_async_queue (tail (async_queue q')) q')
                    end) (async_queue q) q.

(** [~EventQueue] *)
Fixpoint EventQueue_delete (fuel : nat) (q : EventQueue) : result EventQueue :=
  match fuel with
  | O => Err EFuel
  | S fuel => match head q with None => Ok q | Some h => q' ← deschedule h q; EventQueue_delete fuel q' end
  end.

Definition replaceHead (s : EventPtr) (q : EventQueue) : EventPtr * EventQueue := (head q, with_head s q).

(** ** Service *)

(** [process] runs an event: it acts on the program's state and on the queue. *)
Context {U : Type} (process : EventId -> U * EventQueue -> result (U * EventQueue)).

(** Takes the head off the list. *)
Definition pop_head (h : EventId) (q : EventQueue) : result EventQueue :=
  q1 ← on_event h (clear_flag Scheduled) q;
  he ← deref h (eq_events q1);
  match nextInBin he with
  | Some n => q2 ← on_event n (with_nextBin (nextBin he)) q1; Ok (with_head (Some n) q2)
  | None => Ok (with_head (nextBin he) q1)
  end.

(** [serviceOne] returns the event if it ends the simulation. *)
Definition serviceOne (s : U * EventQueue) : result (EventPtr * (U * EventQueue)) :=
  match head s.2 with
  | None => Err EIndex
  | Some h =>
      q1 ← pop_head h s.2;
      e ← deref h (eq_events q1);
      if negb (squashed e) then
        '(u, q2) ← process h (s.1, setCurTick (_when e) q1);
        e2 ← deref h (eq_events q2);
        if isExitEvent e2 then
          assert_ (negb (isManaged e2) || negb (flag_isSet IsMainQueue (ev_flags e2))) ;; Ok (Some h, (u, q2))
        else q3 ← release h q2; Ok (None, (u, q3))
      else
        q2 ← on_event h (clear_flag Squashed) q1;
        q3 ← release h q2;
        Ok (None, (s.1, q3))
  end.

(** [serviceEvents(when)]; one unit of fuel per event. *)
Fixpoint service_loop (fuel : nat) (when : Z) (s : U * EventQueue) : result (U * EventQueue) :=
  match fuel with
  | O => Err EFuel
  | S fuel =>
      match head s.2 with
      | None => Ok s
      | Some h =>
          he ← deref h (eq_events s.2);
          if when <? _when he then Ok s
          else '(_, s') ← serviceOne s; service_loop fuel when s'
      end
  end.

Definition serviceEvents (fuel : nat) (when : Z) (s : U * EventQueue) : result (U * EventQueue) :=
  '(u, q) ← service_loop fuel when s; Ok (u, setCurTick when q).
End Queue.

(** ** Checkpoints *)

(** [short _flags = flags], and reading it back into [FlagsType] *)
Definition i16 (z : Z) : Z := (z + 2 ^ 15) mod 2 ^ 16 - 2 ^ 15.
Definition u16 (z : Z) : Z := z mod 2 ^ 16.

(** [serialize] writes time, priority and flags. *)
Definition Event_serialize (e : Event) : Z * Z * Z := (_when e, _priority e, i16 (ev_flags e)).

Definition Event_unserialize (cp : Z * Z * Z) (e : Event) : result Event :=
  let '(when, prio, flags) := cp in
  assert_ (negb (scheduled e)) ;;
  let e1 := mkEvent (nextBin e) (nextInBin e) when prio (ev_flags e) (ev_queue e) in
  assert_ (initialized e1) ;;
  let e2 := set_flag Initialized (with_ev_flags (u16 flags) e1) in
  if scheduled e2 && negb (squashed e2) then Ok (clear_flag (Z.lor Squashed Scheduled) e2) else Ok e2.

(** ** Inspection *)

(** The events below [p] in a bin, in order. *)
Fixpoint bin_events (fuel : nat) (st : gmap EventId Event) (p : EventPtr) : result (list EventId) :=
  match fuel with
  | O => Err EFuel
  | S fuel =>
      match p with
      | None => Ok []
      | Some x => e ← deref x st; l ← bin_events fuel st (nextInBin e); Ok (x :: l)
      end
  end.

(** The events in the order [dump] visits them. *)
Fixpoint queue_events (fuel : nat) (st : gmap EventId Event) (p : EventPtr) : result (list EventId) :=
  match fuel with
  | O => Err EFuel
  | S fuel =>
      match p with
      | None => Ok []
      | Some x => b ← bin_events (S (size st)) st (Some x); e ← deref x st; l ← queue_events fuel st (nextBin e); Ok (b ++ l)
      end
  end.

Definition dump (q : EventQueue) : result (list EventId) := queue_events (S (size (eq_events q))) (eq_events q) (head q).

(** The checks of [debugVerify] on one event: time, priority, and that it was not seen before.  [None] stands for
    [return false], which the code does before it follows a pointer of the offending event. *)
Definition verify_step (e : Event) (x : EventId) (s : Z * Z * list EventId) : option (Z * Z * list EventId) :=
  let '(time, prio, seen) := s in
  if _when e <? time then None
  else if (_when e =? time) && (_priority e <? prio) then None
  else if bool_decide (x ∈ seen) then None
  else Some (_when e, _priority e, x :: seen).

Fixpoint verify_bin (fuel : nat) (st : gmap EventId Event) (nextInBin_ : EventPtr) (s : Z * Z * list EventId)
  : result (option (Z * Z * list EventId)) :=
  match fuel with
  | O => Err EFuel
  | S fuel =>
      match nextInBin_ with
      | None => Ok (Some s)
      | Some x => e ← deref x st; match verify_step e x s with None => Ok None | Some s' => verify_bin fuel st (nextInBin e) s' end
      end
  end.

(** An event is seen once, so there are at most as many rounds as events, and one more. *)
Fixpoint verify_bins (fuel : nat) (st : gmap EventId Event) (nextBin_ : EventPtr) (s : Z * Z * list EventId) : result bool :=
  match fuel with
  | O => Err EFuel
  | S fuel =>
      match nextBin_ with
      | None => Ok true
      | Some x =>
          r ← verify_bin (S (S (size st))) st (Some x) s;
          match r with
          | None => Ok false
          | Some s' => e ← deref x st; verify_bins fuel st (nextBin e) s'
          end
      end
  end.

Definition debugVerify (q : EventQueue) : result bool :=
  verify_bins (S (S (size (eq_events q)))) (eq_events q) (head q) (0, 0, []).
