(* ===== verification/EventQueueTheory.v ===== *)
(** * The event queue implements a sorted list

    [rep st p bs] says that from pointer [p] the store holds the bins [bs].  Insertion and removal
    are shown to act on the bins as a sorted list of stacks, although every bin but its top holds
    stale pointers. *)

From stdpp Require Import sorting.
From S2P Require Import Prelude EventQueue.
Local Open Scope Z_scope.

(** ** Keys *)

Definition key (e : Event) : Z * Z := (_when e, _priority e).
Definition key_lt (a b : Z * Z) : Prop := a.1 < b.1 \/ (a.1 = b.1 /\ a.2 < b.2).

Lemma ev_lt_spec l r : ev_lt l r = true <-> key_lt (key l) (key r).
Proof. unfold ev_lt, key_lt, key. cbn. lia. Qed.
Lemma ev_lt_false l r : ev_lt l r = false <-> ~ key_lt (key l) (key r).
Proof. unfold ev_lt, key_lt, key. cbn. lia. Qed.
Lemma ev_le_spec l r : ev_le l r = true <-> ~ key_lt (key r) (key l).
Proof. unfold ev_le, key_lt, key. cbn. lia. Qed.
Lemma ev_eq_spec l r : ev_eq l r = true <-> key l = key r.
Proof.
  unfold ev_eq, key. split; [|intros [= H1 H2]; lia]. intros H. f_equal; lia.
Qed.
Lemma key_tri a b : key_lt a b \/ a = b \/ key_lt b a.
Proof. destruct a, b. unfold key_lt. cbn. destruct (Z.lt_trichotomy z z1) as [|[->|]]; [lia| |lia].
  destruct (Z.lt_trichotomy z0 z2) as [|[->|]]; [lia | auto | lia]. Qed.
#[export] Instance key_lt_trans : Transitive key_lt.
Proof. intros a b c. unfold key_lt. lia. Qed.
Lemma key_lt_irrefl a : ~ key_lt a a.
Proof. unfold key_lt. lia. Qed.

(** ** Bins *)

(** A bin: its key and its events, top first. *)
Abbreviation bin := ((Z * Z) * list Z)%type (only parsing).
Definition ids (bs : list bin) : list EventId := concat (map snd bs).

Lemma ids_cons b bs : ids (b :: bs) = b.2 ++ ids bs.
Proof. done. Qed.
Lemma ids_app bs1 bs2 : ids (bs1 ++ bs2) = ids bs1 ++ ids bs2.
Proof. unfold ids. by rewrite map_app, concat_app. Qed.

(** The stack of a bin, from pointer [p]. *)
Fixpoint stack (st : gmap EventId Event) (k : Z * Z) (p : EventPtr) (l : list EventId) : Prop :=
  match l with
  | [] => p = None
  | x :: l => p = Some x /\ exists e, st !! x = Some e /\ key e = k /\ stack st k (nextInBin e) l
  end.

(** A segment of the list of bins, from pointer [p] to pointer [q]. *)
Fixpoint seg (st : gmap EventId Event) (p : EventPtr) (bs : list bin) (q : EventPtr) : Prop :=
  match bs with
  | [] => p = q
  | b :: bs => exists x l e, b.2 = x :: l /\ p = Some x /\ st !! x = Some e /\ stack st b.1 p b.2 /\ seg st (nextBin e) bs q
  end.

Record rep (st : gmap EventId Event) (p : EventPtr) (bs : list bin) : Prop := {
  rep_seg : seg st p bs None;
  rep_sorted : StronglySorted key_lt (map fst bs);
  rep_nodup : NoDup (ids bs)
}.

(** Changes that do not concern an event of a stack, or leave its key and its link alone. *)
Definition agree (l : list EventId) (st st' : gmap EventId Event) : Prop :=
  forall x e, x ∈ l -> st !! x = Some e -> exists e', st' !! x = Some e' /\ key e' = key e /\ nextInBin e' = nextInBin e.

Lemma stack_agree st st' k p l : agree l st st' -> stack st k p l -> stack st' k p l.
Proof.
  revert p. induction l as [|x l IH]; intros p Ha; cbn; [done|]. intros (-> & e & He & Hk & Hs). split; [done|].
  destruct (Ha x e) as (e' & He' & Hk' & Hn); [by left | done|]. exists e'. split_and!; [done | congruence |].
  rewrite Hn. apply IH; [|done]. intros y f Hy. apply Ha. by right.
Qed.

(** ... and the pointers between bins are kept too. *)
Definition agree_all (l : list EventId) (st st' : gmap EventId Event) : Prop :=
  forall x e, x ∈ l -> st !! x = Some e -> exists e', st' !! x = Some e' /\ key e' = key e /\
    nextInBin e' = nextInBin e /\ nextBin e' = nextBin e.

Lemma agree_all_agree l st st' : agree_all l st st' -> agree l st st'.
Proof. intros H x e Hx He. destruct (H x e Hx He) as (e' & ? & ? & ? & ?). eauto. Qed.

Lemma agree_all_sub l l' st st' : agree_all l' st st' -> (forall x, x ∈ l -> x ∈ l') -> agree_all l st st'.
Proof. intros H Hs x e Hx. apply H. by apply Hs. Qed.

Lemma agree_all_insert l st x e : x ∉ l -> agree_all l st (<[x := e]> st).
Proof. intros Hx y f Hy Hf. exists f. rewrite lookup_insert_ne by (intros ->; done). done. Qed.

Lemma agree_insert l st x e e' : st !! x = Some e -> key e' = key e -> nextInBin e' = nextInBin e -> agree l st (<[x := e']> st).
Proof.
  intros He Hk Hn y f Hy Hf. destruct (decide (x = y)) as [->|].
  - rewrite He in Hf. apply Some_inj in Hf as <-. exists e'. by rewrite lookup_insert_eq.
  - exists f. by rewrite lookup_insert_ne.
Qed.

Lemma seg_agree st st' p bs q : agree_all (ids bs) st st' -> seg st p bs q -> seg st' p bs q.
Proof.
  revert p. induction bs as [|b bs IH]; intros p Ha; cbn; [done|]. intros (x & l & e & Hb & -> & He & Hst & Hs).
  rewrite ids_cons in Ha. destruct (Ha x e) as (e' & He' & _ & _ & Hn); [rewrite Hb; by left | done|].
  exists x, l, e'. split_and!; try done.
  - eapply stack_agree, Hst. apply agree_all_agree. eapply agree_all_sub; [exact Ha|]. intros y Hy. apply elem_of_app. by left.
  - rewrite Hn. apply IH; [|done]. eapply agree_all_sub; [exact Ha|]. intros y Hy. apply elem_of_app. by right.
Qed.

Lemma seg_app st p bs1 bs2 q : seg st p (bs1 ++ bs2) q <-> exists r, seg st p bs1 r /\ seg st r bs2 q.
Proof.
  revert p. induction bs1 as [|b bs1 IH]; intros p; cbn [app seg].
  - split; [intros H; by exists p | intros (r & -> & H); done].
  - setoid_rewrite IH. split.
    + intros (x & l & e & ? & ? & ? & ? & r & ? & ?). exists r. eauto 10.
    + intros (r & (x & l & e & ? & ? & ? & ? & ?) & ?). exists x, l, e. eauto 10.
Qed.

(** The events of a segment are in the store with their bin's key. *)
Lemma stack_lookup st k p l x : stack st k p l -> x ∈ l -> exists e, st !! x = Some e /\ key e = k.
Proof.
  revert p. induction l as [|y l IH]; intros p; [by intros _ ?%not_elem_of_nil|]. intros (-> & e & He & Hk & Hs).
  intros [->|Hx]%elem_of_cons; [by exists e | by eapply IH].
Qed.

Lemma seg_lookup st p bs q x : seg st p bs q -> x ∈ ids bs -> exists e b, st !! x = Some e /\ b ∈ bs /\ x ∈ b.2 /\ key e = b.1.
Proof.
  revert p. induction bs as [|b bs IH]; intros p; [by intros _ ?%not_elem_of_nil|].
  intros (y & l & e & Hb & -> & He & Hst & Hs). rewrite ids_cons. intros [Hx|Hx]%elem_of_app.
  - destruct (stack_lookup _ _ _ _ _ Hst Hx) as (f & Hf & Hk). exists f, b. split_and!; [done | by left | done | done].
  - destruct (IH _ Hs Hx) as (f & b' & H1 & H2 & H3). exists f, b'. split_and!; [done | by right | apply H3 | apply H3].
Qed.

Lemma stack_size st k p l : NoDup l -> stack st k p l -> (length l <= size st)%nat.
Proof.
  intros Hnd Hs. assert (Hsub : list_to_set l ⊆ (dom st : gset EventId)).
  { intros x Hx%elem_of_list_to_set. destruct (stack_lookup _ _ _ _ _ Hs Hx) as (e & He & _). by apply elem_of_dom_2 in He. }
  apply subseteq_size in Hsub. rewrite size_list_to_set, size_dom in Hsub by done. done.
Qed.

Lemma seg_size st p bs q : NoDup (ids bs) -> seg st p bs q -> (length (ids bs) <= size st)%nat.
Proof.
  intros Hnd Hs. assert (Hsub : list_to_set (ids bs) ⊆ (dom st : gset EventId)).
  { intros x Hx%elem_of_list_to_set. destruct (seg_lookup _ _ _ _ _ Hs Hx) as (e & ? & He & _). by apply elem_of_dom_2 in He. }
  apply subseteq_size in Hsub. rewrite size_list_to_set, size_dom in Hsub by done. done.
Qed.

Lemma seg_bins_nonempty st p bs q : seg st p bs q -> (length bs <= length (ids bs))%nat.
Proof.
  revert p. induction bs as [|b bs IH]; intros p; cbn [seg]; [done|]. intros (x & l & e & Hb & _ & _ & _ & Hs).
  rewrite ids_cons, length_app, Hb. cbn. specialize (IH _ Hs). lia.
Qed.

Lemma seg_length st p bs q : NoDup (ids bs) -> seg st p bs q -> (length bs < S (size st))%nat.
Proof. intros Hnd Hs. apply Nat.lt_succ_r. etrans; [by eapply seg_bins_nonempty | by eapply seg_size]. Qed.

(** ** Metadata *)

(** Linking events changes neither their key nor their flags nor their queue. *)
Definition meta (e : Event) := (key e, ev_flags e, ev_queue e).
Definition same_meta (st st' : gmap EventId Event) : Prop := forall x, meta <$> st' !! x = meta <$> st !! x.

#[export] Instance same_meta_equiv : Equivalence same_meta.
Proof. split; [done | intros ??? x; by symmetry | intros ??? H1 H2 x; by rewrite H2, H1]. Qed.

Lemma same_meta_insert st x e e' : st !! x = Some e -> meta e' = meta e -> same_meta st (<[x := e']> st).
Proof. intros He Hm y. destruct (decide (x = y)) as [->|]; [by rewrite lookup_insert_eq, He; cbn; rewrite Hm | by rewrite lookup_insert_ne]. Qed.

Lemma same_meta_Some st st' x e : same_meta st st' -> st !! x = Some e -> exists e', st' !! x = Some e' /\ meta e' = meta e.
Proof. intros H He. specialize (H x). rewrite He in H. destruct (st' !! x) as [e'|]; [|done]. exists e'. split; [done|]. by apply Some_inj in H. Qed.

Lemma same_meta_size st st' : same_meta st st' -> size st' = size st.
Proof.
  intros H. rewrite <- !(size_dom (D := gset EventId)). f_equal. apply set_eq. intros x. rewrite !elem_of_dom.
  specialize (H x). destruct (st !! x), (st' !! x); cbn in H; try done; split; eauto; intros [? ?]; done.
Qed.

Lemma deref_Some id st e : st !! id = Some e -> deref id st = Ok e.
Proof. unfold deref. by intros ->. Qed.
Lemma update_Some id f st e : st !! id = Some e -> update id f st = Ok (<[id := f e]> st).
Proof. intros H. unfold update. by rewrite (deref_Some _ _ _ H). Qed.

(** ** Insertion *)

(** The sorted list of stacks: a new event goes on top of the bin of its key. *)
Fixpoint bins_insert (k : Z * Z) (x : EventId) (bs : list bin) : list bin :=
  match bs with
  | [] => [(k, [x])]
  | b :: bs' => if decide (b.1 = k) then (k, x :: b.2) :: bs'
                else if (b.1.1 <? k.1) || ((b.1.1 =? k.1) && (b.1.2 <? k.2)) then b :: bins_insert k x bs' else (k, [x]) :: bs
  end.

Lemma key_ltb_spec a k : (a.1 <? k.1) || ((a.1 =? k.1) && (a.2 <? k.2)) = true <-> key_lt a k.
Proof. unfold key_lt. lia. Qed.

Lemma bins_insert_app k x bs1 bs2 : Forall (fun b => key_lt b.1 k) bs1 -> bins_insert k x (bs1 ++ bs2) = bs1 ++ bins_insert k x bs2.
Proof.
  induction 1 as [|b bs Hb _ IH]; cbn [app bins_insert]; [done|]. rewrite decide_False by (intros E; rewrite E in Hb; by apply key_lt_irrefl in Hb).
  rewrite (proj2 (key_ltb_spec _ _) Hb). by rewrite IH.
Qed.

Lemma ids_insert k x bs : ids (bins_insert k x bs) ≡ₚ x :: ids bs.
Proof.
  induction bs as [|b bs IH]; [done|]. cbn [bins_insert]. case_decide; [done|]. destruct (_ || _); [|done].
  rewrite !ids_cons, IH. by rewrite Permutation_middle.
Qed.

Lemma Forall_insert_keys (P : Z * Z -> Prop) k x bs : Forall P (map fst bs) -> P k -> Forall P (map fst (bins_insert k x bs)).
Proof.
  induction bs as [|b bs IH]; intros H Hk; cbn [bins_insert map]; [by repeat constructor|].
  apply Forall_cons in H as [H1 H2]. case_decide; [by constructor|]. destruct (_ || _); cbn; constructor; auto.
Qed.

Lemma sorted_insert k x bs : StronglySorted key_lt (map fst bs) -> StronglySorted key_lt (map fst (bins_insert k x bs)).
Proof.
  induction bs as [|b bs IH]; intros H; cbn [bins_insert map]; [repeat constructor|].
  apply StronglySorted_inv in H as [Hs Hb]. case_decide as Hk; [subst; by constructor|].
  destruct (_ || _) eqn:E; cbn.
  - apply key_ltb_spec in E. constructor; [by apply IH|]. by apply Forall_insert_keys.
  - assert (Hlt : key_lt k b.1).
    { destruct (key_tri k b.1) as [?|[?|Hx]]; [done | congruence |]. apply key_ltb_spec in Hx. congruence. }
    constructor; [by constructor|]. constructor; [done|]. eapply Forall_impl; [exact Hb|]. intros c Hc. by trans b.1.
Qed.

(** Where the loop over the bins stops. *)
Lemma find_bin_spec st e : forall bs fuel b prev l p, b.2 = prev :: l -> seg st (Some prev) (b :: bs) None ->
  (forall pe, st !! prev = Some pe -> nextBin pe = p) -> key_lt b.1 (key e) -> (length bs < fuel)%nat ->
  exists bs1 bs2 c x cl r, b :: bs = (bs1 ++ [c]) ++ bs2 /\ c.2 = x :: cl /\ find_bin fuel st e prev p = Ok (x, r) /\
    seg st (Some prev) (bs1 ++ [c]) r /\ seg st r bs2 None /\ Forall (fun b => key_lt b.1 (key e)) (bs1 ++ [c]) /\
    match bs2 with [] => True | b' :: _ => ~ key_lt b'.1 (key e) end.
Proof.
  induction bs as [|b' bs IH]; intros fuel b prev l p Hb Hs Hp Hlt Hf; destruct fuel as [|fuel]; try (cbn in Hf; lia).
  - destruct Hs as (x & l' & pe & Hb' & Hx & Hpe & Hst & Hs). apply Some_inj in Hx as <-. cbn in Hs. rewrite (Hp _ Hpe) in Hs.
    subst p. exists [], [], b, prev, l, None. split_and!; try done; [|by constructor].
    cbn. exists prev, l, pe. split_and!; try done. by apply Hp.
  - pose proof Hs as (x & l' & pe & Hb' & Hx & Hpe & Hst & Hs'). apply Some_inj in Hx as <-.
    pose proof (Hp _ Hpe) as Hpp.
    pose proof Hs' as (y & l2 & ye & Hb2 & Hy & Hye & Hst2 & Hs2).
    assert (Hky : key ye = b'.1) by (rewrite Hy, Hb2 in Hst2; destruct Hst2 as (_ & f & Hf' & Hk & _); congruence).
    rewrite Hpp in *. cbn [find_bin]. rewrite Hy, (deref_Some _ _ _ Hye). cbn [mbind result_bind].
    destruct (ev_lt ye e) eqn:El.
    + apply ev_lt_spec in El. rewrite Hky in El.
      destruct (IH fuel b' y l2 (nextBin ye)) as (bs1 & bs2 & c & z & cl & r & E & Hc & Hfb & H1 & H2 & H3 & H4);
        [done | by rewrite <- Hy | intros pe' Hpe'; by simplify_eq | done | cbn in Hf; lia |].
      exists (b :: bs1), bs2, c, z, cl, r. rewrite E. split_and!; try done; [|by constructor].
      cbn [app seg]. exists prev, l, pe. split_and!; try done. by rewrite Hpp, Hy.
    + apply ev_lt_false in El. rewrite Hky in El.
      exists [], (b' :: bs), b, prev, l, (Some y). split_and!; try done; [| |by constructor].
      * cbn. exists prev, l, pe. split_and!; try done. by rewrite Hpp.
      * by rewrite <- Hy.
Qed.

(** Redirecting the pointer at the end of a segment. *)
Lemma seg_relink st p bs c x l e r r' : c.2 = x :: l -> st !! x = Some e -> NoDup (ids (bs ++ [c])) ->
  seg st p (bs ++ [c]) r -> seg (<[x := with_nextBin r' e]> st) p (bs ++ [c]) r'.
Proof.
  intros Hc He Hnd (q & H1 & H2)%seg_app. apply seg_app. exists q. rewrite ids_app, ids_cons, Hc in Hnd.
  apply NoDup_app in Hnd as (_ & Hx & _). split.
  - eapply seg_agree, H1. apply agree_all_insert. intros Hin. apply (Hx x Hin). by left.
  - destruct H2 as (y & l' & e' & Hc' & -> & He' & Hst & <-). rewrite Hc in Hc'. injection Hc' as <- <-.
    rewrite He in He'. apply Some_inj in He' as <-.
    exists x, l, (with_nextBin r' e). split_and!; [done | done | by rewrite lookup_insert_eq | | done].
    eapply stack_agree, Hst. by apply (agree_insert _ _ _ e).
Qed.

(** A bin in front of a segment. *)
Lemma seg_cons st k x l e bs q : st !! x = Some e -> key e = k -> stack st k (nextInBin e) l -> seg st (nextBin e) bs q ->
  seg st (Some x) ((k, x :: l) :: bs) q.
Proof. intros He Hk Hst Hs. exists x, l, e. split_and!; try done. cbn. eauto. Qed.

Lemma insertBefore_spec st x e p bs : st !! x = Some e -> x ∉ ids bs -> seg st p bs None ->
  match bs with [] => True | b :: _ => ~ key_lt b.1 (key e) end ->
  exists e', insertBefore x p st = Ok (<[x := e']> st) /\ meta e' = meta e /\
    seg (<[x := e']> st) (Some x) (bins_insert (key e) x bs) None.
Proof.
  intros He Hx Hs Hk. destruct bs as [|b bs].
  - cbn in Hs. subst p. cbn [insertBefore]. rewrite (update_Some _ _ _ _ He). eexists. split_and!; [done | done |].
    by eapply seg_cons; [apply lookup_insert_eq|..].
  - pose proof Hs as (y & l & ye & Hb & -> & Hye & Hst & Hs'). cbn [insertBefore].
    rewrite (deref_Some _ _ _ He), (deref_Some _ _ _ Hye). cbn [mbind result_bind].
    assert (Hky : key ye = b.1) by (rewrite Hb in Hst; destruct Hst as (_ & f & Hf' & Hkf & _); congruence).
    cbn [bins_insert]. destruct (ev_lt e ye) eqn:El; rewrite (update_Some _ _ _ _ He).
    + apply ev_lt_spec in El. rewrite Hky in El. eexists. split_and!; [done | done |].
      rewrite decide_False by (intros E; rewrite E in El; by apply key_lt_irrefl in El).
      destruct (_ || _) eqn:E; [by apply key_ltb_spec in E|].
      eapply seg_cons; [apply lookup_insert_eq | done | done |]. eapply seg_agree, Hs. by apply agree_all_insert.
    + apply ev_lt_false in El. rewrite Hky in El. eexists. split_and!; [done | done |].
      rewrite decide_True by (destruct (key_tri b.1 (key e)) as [?|[?|?]]; done).
      assert (Hbk : b.1 = key e) by (destruct (key_tri b.1 (key e)) as [?|[?|?]]; done).
      rewrite ids_cons in Hx. apply not_elem_of_app in Hx as [Hx1 Hx2].
      eapply seg_cons; [apply lookup_insert_eq | done | |].
      * eapply stack_agree; [|by rewrite <- Hbk]. apply agree_all_agree. by apply agree_all_insert.
      * eapply seg_agree, Hs'. by apply agree_all_insert.
Qed.

Lemma insert_spec q x e bs : eq_events q !! x = Some e -> x ∉ ids bs -> rep (eq_events q) (head q) bs ->
  exists q', insert x q = Ok q' /\ rep (eq_events q') (head q') (bins_insert (key e) x bs) /\
    same_meta (eq_events q) (eq_events q') /\ _curTick q' = _curTick q /\ async_queue q' = async_queue q.
Proof.
  intros He Hx [Hs Hsort Hnd].
  assert (Hrest : StronglySorted key_lt (map fst (bins_insert (key e) x bs)) /\ NoDup (ids (bins_insert (key e) x bs))).
  { split; [by apply sorted_insert|]. rewrite ids_insert. by constructor. }
  unfold insert. rewrite (deref_Some _ _ _ He). cbn [mbind result_bind].
  destruct (head q) as [h|] eqn:Hh.
  2:{ destruct bs; [|by destruct Hs as (?&?&?&?&?&_)].
      destruct (insertBefore_spec _ x e None [] He Hx Hs I) as (e' & -> & Hm & Hseg). cbn [mbind result_bind].
      eexists. split; [done|]. split_and!; [split; [exact Hseg | apply Hrest..] | by apply (same_meta_insert _ _ e) | done..]. }
  destruct bs as [|b bs]; [done|]. pose proof Hs as (y & l & he & Hb & Hy & Hhe & Hst & Hs'). apply Some_inj in Hy as <-.
  rewrite (deref_Some _ _ _ Hhe). cbn [mbind result_bind].
  assert (Hky : key he = b.1) by (rewrite Hb in Hst; destruct Hst as (_ & f & Hf' & Hkf & _); congruence).
  destruct (ev_le e he) eqn:El.
  { apply ev_le_spec in El. rewrite Hky in El.
    destruct (insertBefore_spec _ x e (Some h) (b :: bs) He Hx Hs El) as (e' & -> & Hm & Hseg). cbn [mbind result_bind].
    eexists. split; [done|]. split_and!; [split; [exact Hseg | apply Hrest..] | by apply (same_meta_insert _ _ e) | done..]. }
  assert (Hlt : key_lt b.1 (key e)).
  { rewrite <- Hky. destruct (key_tri (key he) (key e)) as [?|[E|E]]; [done| |]; apply not_true_iff_false in El; exfalso; apply El, ev_le_spec.
    - rewrite E. apply key_lt_irrefl. - intros E'. eapply key_lt_irrefl. by trans (key he). }
  pose proof (seg_length _ _ _ _ Hnd Hs) as Hlen. cbn [length] in Hlen.
  destruct (find_bin_spec (eq_events q) e bs (S (size (eq_events q))) b h l (nextBin he) Hb Hs)
    as (bs1 & bs2 & c & z & cl & r & E & Hc & -> & H1 & H2 & H3 & H4); [intros pe ?; by simplify_eq | done | exact (Nat.lt_succ_l _ _ Hlen) |].
  cbn [mbind result_bind]. rewrite E in Hx, Hnd, Hrest |- *. rewrite ids_app in Hx, Hnd. apply not_elem_of_app in Hx as [Hx1 Hx2].
  apply NoDup_app in Hnd as (Hnd1 & Hdisj & Hnd2).
  destruct (insertBefore_spec _ x e r bs2 He Hx2 H2 H4) as (e' & -> & Hm & Hseg). cbn [mbind result_bind].
  assert (Hz : z ∈ ids (bs1 ++ [c])) by (rewrite ids_app, ids_cons, Hc; apply elem_of_app; right; by left).
  destruct (seg_lookup _ _ _ _ z H1 Hz) as (ze & _ & Hze & _).
  assert (Hxz : x <> z) by (intros ->; done).
  assert (Hze' : <[x := e']> (eq_events q) !! z = Some ze) by (by rewrite lookup_insert_ne).
  rewrite (update_Some _ _ _ _ Hze'). cbn [mbind result_bind]. eexists. split; [done|]. cbn. rewrite Hh.
  split_and!; [split; [|apply Hrest..] | | done | done].
  - rewrite bins_insert_app by done. apply seg_app. exists (Some x). split.
    + apply (seg_relink _ _ _ _ _ cl _ r); [done | done | done |]. eapply seg_agree, H1. by apply agree_all_insert.
    + eapply seg_agree, Hseg. apply agree_all_insert. rewrite ids_insert. apply not_elem_of_cons. split; [done|].
      by apply Hdisj.
  - trans (<[x := e']> (eq_events q)); [by apply (same_meta_insert _ _ e) | by apply (same_meta_insert _ _ ze)].
Qed.

(** ** Removal *)

(** An event leaves its bin; an empty bin disappears. *)
Definition bin_without (x : EventId) (b : bin) : list bin :=
  match filter (.≠ x) b.2 with [] => [] | l => [(b.1, l)] end.
Fixpoint bins_remove (x : EventId) (bs : list bin) : list bin :=
  match bs with
  | [] => []
  | b :: bs' => if decide (x ∈ b.2) then bin_without x b ++ bs' else b :: bins_remove x bs'
  end.

Lemma filter_ne_id (x : Z) (l : list Z) : x ∉ l -> filter (.≠ x) l = l.
Proof.
  induction l as [|y l IH]; intros Hx; [done|]. apply not_elem_of_cons in Hx as [H1 H2].
  rewrite filter_cons_True by congruence. by rewrite IH.
Qed.

Lemma ids_bin_without x b : ids (bin_without x b) = filter (.≠ x) b.2.
Proof. unfold bin_without. destruct (filter _ _); [done|]. unfold ids. cbn. by rewrite app_nil_r. Qed.

Lemma bins_remove_app x bs1 bs2 : x ∉ ids bs1 -> bins_remove x (bs1 ++ bs2) = bs1 ++ bins_remove x bs2.
Proof.
  induction bs1 as [|b bs1 IH]; [done|]. rewrite ids_cons. intros [H1 H2]%not_elem_of_app. cbn [app bins_remove].
  rewrite decide_False by done. by rewrite IH.
Qed.

Lemma ids_remove x bs : NoDup (ids bs) -> ids (bins_remove x bs) = filter (.≠ x) (ids bs).
Proof.
  induction bs as [|b bs IH]; [done|]. rewrite ids_cons. intros (H1 & Hd & H2)%NoDup_app. cbn [bins_remove]. rewrite filter_app. case_decide.
  - rewrite ids_app, ids_bin_without. f_equal. symmetry. apply filter_ne_id. by apply Hd.
  - rewrite ids_cons, IH by done. f_equal. symmetry. by apply filter_ne_id.
Qed.

Lemma keys_remove x bs : sublist (map fst (bins_remove x bs)) (map fst bs).
Proof.
  induction bs as [|b bs IH]; [done|]. cbn [bins_remove]. case_decide; [|by apply sublist_skip].
  unfold bin_without. destruct (filter _ _); cbn; [by apply sublist_cons | done].
Qed.

Lemma sorted_remove x bs : StronglySorted key_lt (map fst bs) -> StronglySorted key_lt (map fst (bins_remove x bs)).
Proof.
  intros H. pose proof (keys_remove x bs) as Hs. revert H. induction Hs as [|y l l' Hs IH|y l l' Hs IH]; intros H; [done| |].
  - apply StronglySorted_inv in H as [H1 H2]. constructor; [by apply IH|]. rewrite Forall_forall in *. intros z Hz.
    apply H2. by eapply elem_of_sublist.
  - apply StronglySorted_inv in H as [H1 H2]. by apply IH.
Qed.

Lemma find_in_bin_spec st k x : forall l fuel c ce, st !! c = Some ce -> stack st k (nextInBin ce) l -> x ∈ l -> (length l <= fuel)%nat ->
  exists l1 y l2, c :: l = l1 ++ y :: x :: l2 /\ find_in_bin fuel st x c (nextInBin ce) = Ok y.
Proof.
  induction l as [|z l IH]; intros fuel c ce Hc Hst Hx Hf; [by apply not_elem_of_nil in Hx|].
  destruct Hst as (Hn & ze & Hze & _ & Hst). rewrite Hn. destruct fuel as [|fuel]; [cbn in Hf; lia|]. cbn [find_in_bin].
  destruct (Z.eqb_spec x z) as [<-|Hne]; [by exists [], c, l|].
  rewrite (deref_Some _ _ _ Hze). cbn [mbind result_bind]. apply elem_of_cons in Hx as [?|Hx]; [done|].
  destruct (IH fuel z ze Hze Hst Hx) as (l1 & y & l2 & -> & Hy); [cbn in Hf; lia|]. by exists (c :: l1), y, l2.
Qed.

Lemma stack_unlink st k l1 y x l2 ye xe p : NoDup (l1 ++ y :: x :: l2) -> st !! y = Some ye -> st !! x = Some xe ->
  stack st k p (l1 ++ y :: x :: l2) -> stack (<[y := with_nextInBin (nextInBin xe) ye]> st) k p (l1 ++ y :: l2).
Proof.
  revert p. induction l1 as [|z l1 IH]; intros p Hnd Hy Hx Hst.
  - destruct Hst as (-> & ye' & Hy' & Hk & _ & xe' & Hx' & Hkx & Hst). simplify_eq.
    cbn [app] in *. apply NoDup_cons in Hnd as [Hnd1 [Hnd2 Hnd3]%NoDup_cons].
    split; [done|]. eexists. rewrite lookup_insert_eq. split_and!; [done | done |].
    eapply stack_agree, Hst. apply agree_all_agree, agree_all_insert. intros Hin. apply Hnd1. by right.
  - destruct Hst as (-> & ze & Hze & Hk & Hst). cbn [app] in Hnd. apply NoDup_cons in Hnd as [Hz Hnd].
    split; [done|]. exists ze. rewrite lookup_insert_ne; [|intros ->; apply Hz, elem_of_app; right; by left].
    split_and!; [done | done |]. by apply IH.
Qed.

(** Taking an event off the bin at the front of a segment. *)
Lemma removeItem_spec st b bs top l te x : b.2 = top :: l -> st !! top = Some te -> x ∈ b.2 -> NoDup (ids (b :: bs)) ->
  seg st (Some top) (b :: bs) None ->
  exists p st', removeItem x top st = Ok (p, st') /\ seg st' p (bin_without x b ++ bs) None /\ same_meta st st' /\
    forall z, z ∉ b.2 -> st' !! z = st !! z.
Proof.
  intros Hb Hte Hx Hnd Hs. rewrite ids_cons in Hnd. apply NoDup_app in Hnd as (Hnd1 & Hd & Hnd2).
  destruct Hs as (top' & l' & te' & Hb' & Ht & Hte' & Hst & Hs). apply Some_inj in Ht as <-.
  rewrite Hte in Hte'. apply Some_inj in Hte' as <-. clear Hb' l'. rewrite Hb in Hnd1, Hst, Hx, Hd. destruct b as [k bl]. cbn in Hb. subst bl. cbn [fst snd] in *.
  pose proof Hst as (_ & te' & Hte' & Hk & Hst'). rewrite Hte in Hte'. apply Some_inj in Hte' as <-.
  pose proof Hnd1 as [Htl Hndl]%NoDup_cons. unfold removeItem. rewrite (deref_Some _ _ _ Hte). cbn [mbind result_bind].
  destruct (Z.eqb_spec x top) as [->|Hne].
  - unfold bin_without. cbn [snd fst]. rewrite filter_cons_False, filter_ne_id by (first [done | intros H; by apply H]).
    destruct l as [|n l]; [rewrite Hst'; by exists (nextBin te), st|].
    destruct Hst' as (Hn & ne & Hne & Hkn & Hst'). rewrite Hn, (update_Some _ _ _ _ Hne). cbn [mbind result_bind].
    eexists _, _. split_and!; [done | | by apply (same_meta_insert _ _ ne) |].
    + apply (seg_cons _ _ _ _ (with_nextBin (nextBin te) ne)); [by rewrite lookup_insert_eq | done | |].
      * eapply stack_agree, Hst'. by apply (agree_insert _ _ _ ne).
      * eapply seg_agree, Hs. apply agree_all_insert. apply Hd. right. by left.
    + intros z Hz. rewrite lookup_insert_ne; [done|]. intros ->. apply Hz. right. by left.
  - apply elem_of_cons in Hx as [?|Hx]; [done|].
    assert (Hf : (length l <= S (size st))%nat) by (pose proof (stack_size _ _ _ _ Hndl Hst'); lia).
    destruct (find_in_bin_spec st k x l (S (size st)) top te Hte Hst' Hx Hf) as (l1 & y & l2 & El & ->). cbn [mbind result_bind].
    rewrite El in Hst, Hnd1, Hd.
    destruct (stack_lookup _ _ _ _ x Hst) as (xe & Hxe & _); [apply elem_of_app; right; right; by left|].
    destruct (stack_lookup _ _ _ _ y Hst) as (ye & Hye & _); [apply elem_of_app; right; by left|].
    rewrite (deref_Some _ _ _ Hxe). cbn [mbind result_bind]. rewrite (update_Some _ _ _ _ Hye). cbn [mbind result_bind].
    eexists _, _. split_and!; [done | | by apply (same_meta_insert _ _ ye) |].
    + assert (Hfl : filter (.≠ x) (l1 ++ y :: x :: l2) = l1 ++ y :: l2).
      { apply NoDup_app in Hnd1 as (_ & H1 & [H2 [H3 _]%NoDup_cons]%NoDup_cons).
        rewrite filter_app, filter_cons_True, filter_cons_False by (first [intros H; by apply H | intros ->; apply H2; by left]).
        rewrite !filter_ne_id; [done | done |]. intros Hin. apply (H1 _ Hin). right. by left. }
      unfold bin_without. cbn [fst snd]. rewrite El, Hfl.
      pose proof (stack_unlink _ _ _ _ _ _ _ _ _ Hnd1 Hye Hxe Hst) as Hst2.
      assert (exists l0, l1 ++ y :: l2 = top :: l0) as [l0 El0].
      { destruct l1 as [|a l1]; injection El as <- _; [by exists l2 | by exists (l1 ++ y :: l2)]. }
      rewrite El0 in *. cbn [app]. destruct Hst2 as (_ & te2 & Hte2 & Hk2 & Hst2).
      apply (seg_cons _ _ _ _ te2); [done | done | done |].
      assert (Hnb : nextBin te2 = nextBin te).
      { destruct (decide (y = top)) as [->|Hyt]; [rewrite lookup_insert_eq in Hte2 | rewrite lookup_insert_ne in Hte2 by done]; by simplify_eq. }
      rewrite Hnb. eapply seg_agree, Hs. apply agree_all_insert. apply Hd, elem_of_app. right. by left.
    + intros z Hz. rewrite lookup_insert_ne; [done|]. intros ->. apply Hz. rewrite El. apply elem_of_app. right. by left.
Qed.

(** In a sorted segment whose first bin is not before the event's key, the event is in that bin. *)
Lemma first_bin st p b bs x e : seg st p (b :: bs) None -> StronglySorted key_lt (map fst (b :: bs)) -> x ∈ ids (b :: bs) ->
  st !! x = Some e -> ~ key_lt b.1 (key e) -> x ∈ b.2 /\ b.1 = key e.
Proof.
  intros Hs Hsort Hx He Hk. destruct (seg_lookup _ _ _ _ _ Hs Hx) as (e' & b' & He' & Hb' & Hx' & Hk'). simplify_eq.
  apply elem_of_cons in Hb' as [->|Hb']; [done|]. apply StronglySorted_inv in Hsort as [_ Hall]. rewrite Forall_forall in Hall.
  exfalso. apply Hk. rewrite Hk'. apply Hall. apply list_elem_of_fmap. by exists b'.
Qed.

Lemma sorted_app_r (bs1 bs2 : list bin) : StronglySorted key_lt (map fst (bs1 ++ bs2)) -> StronglySorted key_lt (map fst bs2).
Proof. rewrite map_app. induction (map fst bs1); [done|]. intros [H _]%StronglySorted_inv. auto. Qed.

Lemma top_key st b bs p x l e q : seg st p (b :: bs) q -> b.2 = x :: l -> st !! x = Some e -> key e = b.1 /\ p = Some x.
Proof.
  intros (y & l' & ye & Hb & -> & Hye & Hst & _) Hb' He. rewrite Hb' in Hb. injection Hb as <- <-. rewrite Hb' in Hst.
  destruct Hst as (_ & f & Hf & Hk & _). split; [congruence | done].
Qed.

Lemma remove_spec this q x e bs : eq_events q !! x = Some e -> ev_queue e = Some this -> x ∈ ids bs -> rep (eq_events q) (head q) bs ->
  exists q', remove this x q = Ok q' /\ rep (eq_events q') (head q') (bins_remove x bs) /\
    same_meta (eq_events q) (eq_events q') /\ _curTick q' = _curTick q /\ async_queue q' = async_queue q.
Proof.
  intros He Hq Hx [Hs Hsort Hnd].
  assert (Hrest : StronglySorted key_lt (map fst (bins_remove x bs)) /\ NoDup (ids (bins_remove x bs))).
  { split; [by apply sorted_remove|]. rewrite ids_remove by done. by apply NoDup_filter. }
  destruct bs as [|b bs]; [by apply not_elem_of_nil in Hx|].
  pose proof Hs as (h & l & he & Hb & Hh & Hhe & _ & Hs'). destruct (top_key _ _ _ _ _ _ _ _ Hs Hb Hhe) as [Hkh _].
  unfold remove. rewrite Hh in *. rewrite (deref_Some _ _ _ He). cbn [mbind result_bind]. rewrite Hq, bool_decide_true by done.
  cbn [assert_ mbind result_bind]. rewrite (deref_Some _ _ _ Hhe). cbn [mbind result_bind].
  destruct (ev_eq he e) eqn:Ek.
  { apply ev_eq_spec in Ek. rewrite Hkh in Ek.
    destruct (first_bin _ _ _ _ _ _ Hs Hsort Hx He) as [Hxb _]; [rewrite Ek; apply key_lt_irrefl|].
    destruct (removeItem_spec _ _ _ _ _ _ _ Hb Hhe Hxb Hnd Hs) as (p & st' & -> & Hseg & Hm & _). cbn [mbind result_bind].
    eexists. split; [done|]. split_and!; [split; [|apply Hrest..] | done..]. cbn [bins_remove]. by rewrite decide_True. }
  assert (Hlt : key_lt b.1 (key e)).
  { destruct (key_tri b.1 (key e)) as [?|[E|E]]; [done| |].
    - rewrite <- Hkh in E. apply ev_eq_spec in E. congruence.
    - destruct (first_bin _ _ _ _ _ _ Hs Hsort Hx He) as [_ E']; [intros H; eapply key_lt_irrefl; by trans (key e)|].
      rewrite E' in E. by apply key_lt_irrefl in E. }
  pose proof (seg_length _ _ _ _ Hnd Hs) as Hlen. cbn [length] in Hlen.
  destruct (find_bin_spec (eq_events q) e bs (S (size (eq_events q))) b h l (nextBin he) Hb Hs)
    as (bs1 & bs2 & c & z & cl & r & E & Hc & -> & H1 & H2 & H3 & H4); [intros pe ?; by simplify_eq | done | lia |].
  cbn [mbind result_bind]. rewrite E in Hx, Hnd, Hsort, Hrest |- *. rewrite ids_app in Hx, Hnd.
  apply NoDup_app in Hnd as (Hnd1 & Hdisj & Hnd2). apply sorted_app_r in Hsort.
  assert (Hx1 : x ∉ ids (bs1 ++ [c])).
  { intros Hin. destruct (seg_lookup _ _ _ _ _ H1 Hin) as (e' & b' & He' & Hb' & _ & Hk'). simplify_eq.
    rewrite Forall_forall in H3. apply H3 in Hb'. rewrite <- Hk' in Hb'. by apply key_lt_irrefl in Hb'. }
  apply elem_of_app in Hx as [?|Hx]; [done|]. destruct bs2 as [|b2 bs2]; [by apply not_elem_of_nil in Hx|].
  destruct (first_bin _ _ _ _ _ _ H2 Hsort Hx He H4) as [Hxb Hkb].
  pose proof H2 as (t & tl & te & Hb2 & -> & Hte & _ & _). destruct (top_key _ _ _ _ _ _ _ _ H2 Hb2 Hte) as [Hkt _].
  rewrite (deref_Some _ _ _ Hte). cbn [mbind result_bind]. rewrite (proj2 (ev_eq_spec te e)) by congruence. cbn [negb].
  destruct (removeItem_spec _ _ _ _ _ _ _ Hb2 Hte Hxb Hnd2 H2) as (p & st' & -> & Hseg & Hm & Hout). cbn [mbind result_bind].
  assert (Hz : z ∈ ids (bs1 ++ [c])) by (rewrite ids_app, ids_cons, Hc; apply elem_of_app; right; by left).
  assert (Hsame : forall y, y ∈ ids (bs1 ++ [c]) -> st' !! y = eq_events q !! y).
  { intros y Hy. apply Hout. intros Hin. apply (Hdisj _ Hy). rewrite ids_cons. apply elem_of_app. by left. }
  destruct (seg_lookup _ _ _ _ z H1 Hz) as (ze & _ & Hze & _). rewrite <- Hsame in Hze by done.
  rewrite (update_Some _ _ _ _ Hze). cbn [mbind result_bind]. eexists. split; [done|]. cbn. rewrite Hh.
  split_and!; [split; [|apply Hrest..] | | done | done].
  - rewrite bins_remove_app by done. cbn [bins_remove]. rewrite decide_True by done. apply seg_app. exists p. split.
    + apply (seg_relink _ _ _ _ _ cl _ (Some t)); [done | done | done |]. eapply seg_agree, H1.
      intros y f Hy Hf. exists f. by rewrite Hsame.
    + eapply seg_agree, Hseg. apply agree_all_insert. intros Hin. apply (Hdisj _ Hz).
      rewrite ids_app, ids_bin_without in Hin. rewrite ids_cons. apply elem_of_app. apply elem_of_app in Hin as [Hin|?]; [left|by right].
      by apply list_elem_of_filter in Hin as [_ ?].
  - trans st'; [done | by apply (same_meta_insert _ _ ze)].
Qed.
