(* ===== verification/EventQueueProperties.v ===== *)
(** * Properties of the event queue

    The queue refines a list sorted by time and priority, in which a new event goes before those
    of its own key; events are serviced in that order and time never runs backwards. *)

From stdpp Require Import sorting.
From S2P Require Import Prelude EventQueue EventQueueTheory.
Local Open Scope Z_scope.

(** ** The abstract queue *)

(** An entry: time and priority, and the event. *)
Abbreviation entry := ((Z * Z) * Z)%type (only parsing).

Definition key_ltb (a b : Z * Z) : bool := (a.1 <? b.1) || ((a.1 =? b.1) && (a.2 <? b.2)).

(** Before the first entry that is not earlier: events of one key are served last in, first out. *)
Fixpoint spec_insert (x : entry) (l : list entry) : list entry :=
  match l with
  | [] => [x]
  | y :: l' => if key_ltb y.1 x.1 then y :: spec_insert x l' else x :: l
  end.
Definition spec_remove (x : Z) (l : list entry) : list entry := filter (fun y => y.2 <> x) l.

Definition items (bs : list bin) : list entry := concat (map (fun b => map (pair b.1) b.2) bs).

Lemma items_cons b bs : items (b :: bs) = map (pair b.1) b.2 ++ items bs.
Proof. done. Qed.

Lemma items_ids bs : map snd (items bs) = ids bs.
Proof.
  induction bs as [|b bs IH]; [done|]. rewrite items_cons, ids_cons, map_app, IH, map_map. f_equal. apply map_id.
Qed.

Lemma items_insert k x bs : Forall (fun b => b.2 <> []) bs -> items (bins_insert k x bs) = spec_insert (k, x) (items bs).
Proof.
  induction 1 as [|[kb lb] bs Hb _ IH]; [done|]. cbn [fst snd] in *. rewrite (items_cons (kb, lb)). cbn [bins_insert fst snd].
  assert (Hpush : key_ltb kb k = true -> forall l, spec_insert (k, x) (map (pair kb) lb ++ l) = map (pair kb) lb ++ spec_insert (k, x) l).
  { intros E l. clear Hb. induction lb as [|y ys IHy]; [done|]. cbn. by rewrite E, IHy. }
  assert (Hstop : key_ltb kb k = false -> forall l, spec_insert (k, x) (map (pair kb) lb ++ l) = (k, x) :: map (pair kb) lb ++ l).
  { intros E l. destruct lb; [done|]. cbn. by rewrite E. }
  case_decide as Hk.
  - rewrite Hstop by (rewrite Hk; apply not_true_is_false; intros ?%key_ltb_spec; by eapply key_lt_irrefl). by rewrite items_cons, <- Hk.
  - fold (key_ltb kb k). destruct (key_ltb kb k) eqn:E; [by rewrite items_cons, IH, Hpush | by rewrite !items_cons, Hstop].
Qed.

Lemma map_filter_ne k x l : filter (fun y : entry => y.2 <> x) (map (pair k) l) = map (pair k) (filter (.≠ x) l).
Proof.
  induction l as [|y l IH]; [done|]. cbn [map]. destruct (decide (y = x)) as [->|].
  - rewrite !filter_cons_False by (intros H; by apply H). done.
  - rewrite !filter_cons_True by done. cbn. by rewrite IH.
Qed.

Lemma spec_remove_id x l : x ∉ map snd l -> spec_remove x l = l.
Proof.
  induction l as [|[k y] l IH]; intros Hx; [done|]. cbn in Hx. apply not_elem_of_cons in Hx as [H1 H2].
  unfold spec_remove. rewrite filter_cons_True by (cbn; congruence). f_equal. by apply IH.
Qed.

Lemma items_remove x bs : NoDup (ids bs) -> items (bins_remove x bs) = spec_remove x (items bs).
Proof.
  induction bs as [|[k l] bs IH]; [done|]. rewrite ids_cons. intros (H1 & Hd & H2)%NoDup_app. cbn [fst snd] in *.
  rewrite items_cons. unfold spec_remove. rewrite filter_app, map_filter_ne. fold (spec_remove x (items bs)). cbn [bins_remove fst snd].
  case_decide as Hx.
  - rewrite spec_remove_id by (rewrite items_ids; by apply Hd). unfold items at 1. rewrite map_app, concat_app. f_equal.
    unfold bin_without. cbn [fst snd]. destruct (filter _ _); cbn; [done | by rewrite app_nil_r].
  - rewrite items_cons, (IH H2). cbn [fst snd]. by rewrite filter_ne_id.
Qed.

Lemma spec_remove_ids x l : map snd (spec_remove x l) = filter (.≠ x) (map snd l).
Proof.
  unfold spec_remove. induction l as [|[k y] l IH]; [done|]. cbn [map snd]. destruct (decide (y = x)) as [->|].
  - rewrite !filter_cons_False by (intros H; by apply H). done.
  - rewrite !filter_cons_True by done. cbn. by rewrite IH.
Qed.

Lemma spec_insert_perm x l : spec_insert x l ≡ₚ x :: l.
Proof. induction l as [|y l IH]; [done|]. cbn. destruct (key_ltb _ _); [|done]. rewrite IH. apply Permutation_swap. Qed.

(** ** The invariant *)

(** The queue [q] holds the entries [l]: the list of bins represents them, exactly the events in it are
    flagged, and none of them lies in the past. *)
(** An initialised event; an exit event is not a managed event of the main queue. *)
Definition sane (e : Event) : bool :=
  initialized e && (negb (isExitEvent e) || (negb (isManaged e) || negb (flag_isSet IsMainQueue (ev_flags e)))).

Record queue_ok (this : Z) (q : EventQueue) (l : list entry) : Prop := {
  q_bins : exists bs, rep (eq_events q) (head q) bs /\ items bs = l;
  q_flags : forall x e, eq_events q !! x = Some e -> sane e = true /\ (scheduled e = true <-> x ∈ map snd l) /\
    (scheduled e = true -> ev_queue e = Some this);
  q_time : Forall (fun y => _curTick q <= y.1.1) l
}.

Lemma seg_nonempty st p bs q : seg st p bs q -> Forall (fun b => b.2 <> []) bs.
Proof. revert p. induction bs as [|b bs IH]; intros p; [done|]. intros (x & l & e & Hb & _ & _ & _ & Hs). constructor; [by rewrite Hb | eauto]. Qed.

(** Changing the flags of an event keeps the structure. *)
Lemma rep_touch st p bs x e e' : st !! x = Some e -> key e' = key e -> nextInBin e' = nextInBin e -> nextBin e' = nextBin e ->
  rep st p bs -> rep (<[x := e']> st) p bs.
Proof.
  intros He Hk Hi Hn [H1 H2 H3]. split; [|done..]. eapply seg_agree, H1. intros y f Hy Hf. destruct (decide (x = y)) as [->|].
  - exists e'. rewrite lookup_insert_eq. rewrite He in Hf. apply Some_inj in Hf as <-. done.
  - exists f. by rewrite lookup_insert_ne.
Qed.

(** Any change to an event outside the queue does. *)
Lemma rep_outside st p bs x e' : x ∉ ids bs -> rep st p bs -> rep (<[x := e']> st) p bs.
Proof. intros Hx [H1 H2 H3]. split; [|done..]. eapply seg_agree, H1. by apply agree_all_insert. Qed.

Lemma rep_delete st p bs x : x ∉ ids bs -> rep st p bs -> rep (delete x st) p bs.
Proof.
  intros Hx [H1 H2 H3]. split; [|done..]. eapply seg_agree, H1. intros y f Hy Hf. exists f.
  rewrite lookup_delete_ne by (intros ->; done). done.
Qed.

(** ** Flags *)

Lemma land_set_other m b f : Z.land m b = 0 -> Z.land (flag_set m f) b = Z.land f b.
Proof. intros H. unfold flag_set. by rewrite Z.land_lor_distr_l, H, Z.lor_0_r. Qed.

Lemma land_clear_other m b f : Z.land m b = 0 -> Z.land (flag_clear m f) b = Z.land f b.
Proof.
  intros H. unfold flag_clear. apply Z.bits_inj'. intros n Hn. rewrite !Z.land_spec, Z.ldiff_spec.
  pose proof (f_equal (fun z => Z.testbit z n) H) as Hb. cbn in Hb. rewrite Z.land_spec, Z.bits_0 in Hb.
  destruct (Z.testbit f n), (Z.testbit m n), (Z.testbit b n); done.
Qed.

Lemma isSet_set_same m f : m <> 0 -> flag_isSet m (flag_set m f) = true.
Proof.
  intros Hm. unfold flag_isSet, flag_set. rewrite Z.land_lor_distr_l, Z.land_diag. apply negb_true_iff, Z.eqb_neq.
  intros [_ ?]%Z.lor_eq_0_iff. done.
Qed.

Lemma isSet_clear_same m f : flag_isSet m (flag_clear m f) = false.
Proof.
  unfold flag_isSet, flag_clear. replace (Z.land (Z.ldiff f m) m) with 0; [done|]. symmetry. apply Z.bits_inj_0. intros n.
  rewrite Z.land_spec, Z.ldiff_spec. destruct (Z.testbit f n), (Z.testbit m n); done.
Qed.

Lemma scheduled_set e : scheduled (set_flag Scheduled e) = true.
Proof. by apply isSet_set_same. Qed.
Lemma scheduled_clear e : scheduled (clear_flag Scheduled e) = false.
Proof. apply isSet_clear_same. Qed.
Lemma scheduled_clear_squashed e : scheduled (clear_flag Squashed e) = scheduled e.
Proof. unfold scheduled, clear_flag, flag_isSet. cbn. by rewrite land_clear_other. Qed.
Lemma squashed_clear_scheduled e : squashed (clear_flag Scheduled e) = squashed e.
Proof. unfold squashed, clear_flag, flag_isSet. cbn. by rewrite land_clear_other. Qed.
Lemma sane_flags f g e e' : ev_flags e = f -> ev_flags e' = g -> Z.land g InitMask = Z.land f InitMask ->
  Z.land g IsExitEvent = Z.land f IsExitEvent -> Z.land g Managed = Z.land f Managed -> Z.land g IsMainQueue = Z.land f IsMainQueue ->
  sane e' = sane e.
Proof. unfold sane, initialized, isExitEvent, isManaged, flag_isSet. intros -> -> -> -> -> ->. done. Qed.
Lemma sane_set e : sane (set_flag Scheduled e) = sane e.
Proof. eapply sane_flags; [done | done | by apply land_set_other ..]. Qed.
Lemma sane_clear_flags m e e' : m = Scheduled \/ m = Squashed -> ev_flags e' = flag_clear m (ev_flags e) -> sane e' = sane e.
Proof. intros [-> | ->] Hf; (eapply sane_flags; [done | exact Hf | by apply land_clear_other ..]). Qed.
Lemma sane_clear m e : m = Scheduled \/ m = Squashed -> sane (clear_flag m e) = sane e.
Proof. intros Hm. by apply (sane_clear_flags m). Qed.
Lemma sane_same e e' : ev_flags e' = ev_flags e -> sane e' = sane e.
Proof. unfold sane, initialized, isExitEvent, isManaged. by intros ->. Qed.
Lemma sane_initialized e : sane e = true -> initialized e = true.
Proof. by intros [? _]%andb_prop. Qed.
#[export] Hint Resolve sane_initialized : garnet.

(** ** Operations *)

Lemma on_event_Some x f q e : eq_events q !! x = Some e -> on_event x f q = Ok (with_eq_events (<[x := f e]> (eq_events q)) q).
Proof. intros He. unfold on_event. by rewrite (update_Some _ _ _ _ He). Qed.

Lemma meta_eq' e' a b c : meta e' = (a, b, c) -> key e' = a /\ ev_flags e' = b /\ ev_queue e' = c.
Proof. unfold meta. intros H. injection H as ? ? ?. done. Qed.

Lemma meta_eq e e' : meta e' = meta e -> key e' = key e /\ ev_flags e' = ev_flags e /\ ev_queue e' = ev_queue e.
Proof. unfold meta. intros [= H1 H2 H3 H4]. split_and!; [|done..]. unfold key. by rewrite H1, H2. Qed.

Section Serial.
Context (this : Z).

(** The invariant while event [x] is out of the queue: its flags may be anything. *)
Record queue_but (x : Z) (q : EventQueue) (l : list entry) : Prop := {
  b_bins : exists bs, rep (eq_events q) (head q) bs /\ items bs = l;
  b_flags : forall y e, y <> x -> eq_events q !! y = Some e -> sane e = true /\ (scheduled e = true <-> y ∈ map snd l) /\
    (scheduled e = true -> ev_queue e = Some this);
  b_time : Forall (fun y => _curTick q <= y.1.1) l;
  b_out : x ∉ map snd l
}.

Lemma queue_but_intro x q l : queue_ok this q l -> x ∉ map snd l -> queue_but x q l.
Proof. intros [H1 H2 H3] Hx. split; auto. Qed.

Lemma queue_but_elim x q l : queue_but x q l ->
  (forall e, eq_events q !! x = Some e -> sane e = true /\ scheduled e = false) -> queue_ok this q l.
Proof.
  intros [H1 H2 H3 H4] Hx. split; [done | | done]. intros y e He. destruct (decide (y = x)) as [->|]; [|by apply H2].
  destruct (Hx e He) as [-> ->]. split_and!; [done | split; [done | intros ?; done] | done].
Qed.

Lemma queue_but_update x f q e l : queue_but x q l -> eq_events q !! x = Some e ->
  queue_but x (with_eq_events (<[x := f e]> (eq_events q)) q) l.
Proof.
  intros [(bs & Hr & Hi) H2 H3 H4] He. split; [|cbn|done|done].
  - exists bs. split; [|done]. apply rep_outside; [|done]. by rewrite <- items_ids, Hi.
  - intros y e' Hy. rewrite lookup_insert_ne by done. by apply H2.
Qed.

(** Whatever an operation on [x] did to the links, the other events keep their flags. *)
Lemma flags_same q q' (l l' : list entry) x : same_meta (eq_events q) (eq_events q') ->
  (forall y, y <> x -> y ∈ map snd l' <-> y ∈ map snd l) ->
  (forall y e, y <> x -> eq_events q !! y = Some e -> sane e = true /\ (scheduled e = true <-> y ∈ map snd l) /\
    (scheduled e = true -> ev_queue e = Some this)) ->
  forall y e, y <> x -> eq_events q' !! y = Some e -> sane e = true /\ (scheduled e = true <-> y ∈ map snd l') /\
    (scheduled e = true -> ev_queue e = Some this).
Proof.
  intros Hm Hl H y e Hy He. specialize (Hm y). rewrite He in Hm. destruct (eq_events q !! y) as [e0|] eqn:He0; [|done].
  apply Some_inj in Hm. apply meta_eq in Hm as (_ & Hf & Hq). destruct (H y e0 Hy He0) as (H1 & H2 & H3).
  rewrite (sane_same e0 e Hf). unfold scheduled in *. rewrite Hf, Hq, Hl by done. done.
Qed.

Lemma remove_but x e q l : queue_ok this q l -> eq_events q !! x = Some e -> x ∈ map snd l ->
  exists q' e', remove this x q = Ok q' /\ queue_but x q' (spec_remove x l) /\ eq_events q' !! x = Some e' /\ meta e' = meta e /\
    _curTick q' = _curTick q.
Proof.
  intros Hok He Hx. destruct (q_flags _ _ _ Hok x e He) as (Hi & Hs & Hq). destruct (q_bins _ _ _ Hok) as (bs & Hrep & Hit).
  destruct (remove_spec this q x e bs He) as (q' & -> & Hrep' & Hm & Hc & _); [by apply Hq, Hs | by rewrite <- items_ids, Hit | done |].
  destruct (same_meta_Some _ _ x e Hm He) as (e' & He' & Hme). exists q', e'. split_and!; try done. split.
  - eexists. split; [done|]. rewrite items_remove, Hit; [done|]. apply Hrep.
  - apply (flags_same q _ l); [done | | intros ? ? _; by apply Hok]. intros y Hy. rewrite spec_remove_ids, list_elem_of_filter. by split; [intros [_ ?] | intros ?; split].
  - rewrite Hc. apply Forall_forall. intros y Hy. apply list_elem_of_filter in Hy as [_ Hy].
    pose proof (q_time _ _ _ Hok) as Ht. rewrite Forall_forall in Ht. by apply Ht.
  - rewrite spec_remove_ids, list_elem_of_filter. intros [? _]. done.
Qed.

(** [setWhen], [insert] and the final change [f] of the flags. *)
Lemma insert_but x e when f q l : queue_but x q l -> eq_events q !! x = Some e -> _curTick q <= when ->
  (forall e, meta (f e) = (key e, ev_flags (f e), ev_queue e) /\ nextBin (f e) = nextBin e /\ nextInBin (f e) = nextInBin e) ->
  (forall e', ev_flags e' = ev_flags e -> sane (f e') = true /\ scheduled (f e') = true) ->
  exists q', (q2 ← on_event x (setWhen when this) q; q3 ← insert x q2; on_event x f q3) = Ok q' /\
    queue_ok this q' (spec_insert ((when, _priority e), x) l) /\ _curTick q' = _curTick q.
Proof.
  intros Hb He Ht Hf1 Hf2. rewrite (on_event_Some _ _ _ _ He). cbn [mbind result_bind].
  pose proof (queue_but_update x (setWhen when this) q e l Hb He) as Hb1. set (q1 := with_eq_events _ q) in *. set (e1 := setWhen when this e) in *.
  destruct Hb1 as [(bs & Hrep & Hit) Hfl Htm Hout].
  destruct (insert_spec q1 x e1 bs) as (q2 & -> & Hrep2 & Hm2 & Hc2 & _);
    [by cbn; rewrite lookup_insert_eq | by rewrite <- items_ids, Hit | done |].
  cbn [mbind result_bind]. destruct (same_meta_Some _ _ x e1 Hm2) as (e2 & He2 & Hm); [by cbn; rewrite lookup_insert_eq|].
  apply meta_eq in Hm as (Hk & Hfl2 & Hqq). rewrite (on_event_Some _ _ _ _ He2). cbn [mbind result_bind].
  destruct (Hf1 e2) as ((Hkf & _ & Hqf)%meta_eq' & Hn1 & Hn2). destruct (Hf2 e2 Hfl2) as [Hi2 Hs2].
  eexists. split; [done|]. split; [|done]. split; cbn [eq_events head with_eq_events _curTick].
  - eexists. split; [by apply (rep_touch _ _ _ _ e2), Hrep2|]. rewrite items_insert, Hit; [done|]. by eapply seg_nonempty, rep_seg.
  - assert (Hmem : forall y, y ∈ map snd (spec_insert (when, _priority e, x) l) <-> y = x \/ y ∈ map snd l).
    { intros y. rewrite spec_insert_perm. cbn. apply elem_of_cons. }
    intros y e' He'. destruct (decide (y = x)) as [->|Hy].
    + rewrite lookup_insert_eq in He'. apply Some_inj in He' as <-. rewrite Hs2, Hmem. split_and!; [done | by split; [left|] | intros _; by rewrite Hqf, Hqq].
    + rewrite lookup_insert_ne in He' by done. apply (flags_same q1 q2 l _ x) with (y := y); try done.
      intros z Hz. rewrite Hmem. by split; [intros [?|?] | intros ?; right].
  - rewrite spec_insert_perm, Hc2. constructor; [done | apply Hb].
Qed.

(** An event that left the queue: its flag is cleared and a managed event is deleted. *)
Lemma release_but x e q l : queue_but x q l -> eq_events q !! x = Some e -> sane e = true -> scheduled e = false ->
  exists q', release x q = Ok q' /\ queue_ok this q' l /\ _curTick q' = _curTick q.
Proof.
  intros Hb He Hi Hs. unfold release. rewrite (deref_Some _ _ _ He). cbn [mbind result_bind]. rewrite Hs. cbn [negb].
  destruct (isManaged e); eexists; (split; [done|]; split; [|done]); apply (queue_but_elim x).
  - destruct Hb as [(bs & Hr & Hit) H2 H3 H4]. split; [| |done|done].
    + exists bs. split; [|done]. apply rep_delete; [|done]. by rewrite <- items_ids, Hit.
    + intros y e' Hy. cbn. rewrite lookup_delete_ne by done. by apply H2.
  - cbn. intros e'. by rewrite lookup_delete_eq.
  - done.
  - intros e' He'. by simplify_eq.
Qed.
End Serial.

(** ** Simulation *)

Inductive queue_op :=
  | OSchedule (x when : Z)
  | ODeschedule (x : Z)
  | OReschedule (x when : Z) (always : bool).

(** Calls in a simulation that is not parallel. *)
Definition run_op (this : Z) (o : queue_op) (q : EventQueue) : result EventQueue :=
  match o with
  | OSchedule x when => schedule this false true x when false q
  | ODeschedule x => deschedule this false true x q
  | OReschedule x when always => reschedule this false true x when always q
  end.

(** What the sorted list asks of a call, and what the call does to it; [st] tells which events exist. *)
Definition legal (st : gmap Z Event) (now : Z) (o : queue_op) (l : list entry) : Prop :=
  match o with
  | OSchedule x when => is_Some (st !! x) /\ (x ∉ map snd l) /\ now <= when
  | ODeschedule x => x ∈ map snd l
  | OReschedule x when always => is_Some (st !! x) /\ (always = true \/ x ∈ map snd l) /\ now <= when
  end.

#[export] Instance legal_dec st now o l : Decision (legal st now o l).
Proof. destruct o; cbn; apply _. Defined.

Definition prio_of (st : gmap Z Event) (x : Z) : Z := from_option _priority 0 (st !! x).

Definition spec_op (st : gmap Z Event) (o : queue_op) (l : list entry) : list entry :=
  match o with
  | OSchedule x when => spec_insert ((when, prio_of st x), x) l
  | ODeschedule x => spec_remove x l
  | OReschedule x when _ => spec_insert ((when, prio_of st x), x) (spec_remove x l)
  end.

Section Simulation.
Context (this : Z) (q : EventQueue) (l : list entry) (Hok : queue_ok this q l).

Lemma queued_event x : x ∈ map snd l -> exists e, eq_events q !! x = Some e /\ scheduled e = true.
Proof.
  intros Hx. destruct (q_bins _ _ _ Hok) as (bs & Hr & Hit). rewrite <- Hit, items_ids in Hx.
  destruct (seg_lookup _ _ _ _ _ (rep_seg _ _ _ Hr) Hx) as (e & _ & He & _). exists e. split; [done|].
  apply (q_flags _ _ _ Hok x e He). by rewrite <- Hit, items_ids.
Qed.

Lemma schedule_sim x e when : eq_events q !! x = Some e -> x ∉ map snd l -> _curTick q <= when ->
  exists q', schedule this false true x when false q = Ok q' /\ queue_ok this q' (spec_insert ((when, _priority e), x) l) /\
    _curTick q' = _curTick q.
Proof.
  intros He Hx Ht. destruct (q_flags _ _ _ Hok x e He) as (Hi & Hs & _).
  assert (Hs0 : scheduled e = false) by (destruct (scheduled e); [exfalso; apply Hx; by apply Hs | done]).
  unfold schedule. rewrite (proj2 (Z.leb_le _ _) Ht). cbn [assert_ mbind result_bind]. rewrite (deref_Some _ _ _ He). cbn [mbind result_bind].
  rewrite Hs0, (sane_initialized _ Hi). cbn [negb assert_ mbind result_bind andb].
  apply insert_but; [by apply queue_but_intro | done | done | done |].
  intros e' Hf. by rewrite sane_set, scheduled_set, (sane_same e).
Qed.

Lemma deschedule_sim x : x ∈ map snd l ->
  exists q', deschedule this false true x q = Ok q' /\ queue_ok this q' (spec_remove x l) /\ _curTick q' = _curTick q.
Proof.
  intros Hx. destruct (queued_event x Hx) as (e & He & Hs). destruct (q_flags _ _ _ Hok x e He) as (Hi & _).
  unfold deschedule. rewrite (deref_Some _ _ _ He). cbn [mbind result_bind]. rewrite Hs, (sane_initialized _ Hi). cbn [negb assert_ mbind result_bind orb].
  destruct (remove_but this x e q l Hok He Hx) as (q1 & e1 & -> & Hb & He1 & Hm & Hc). cbn [mbind result_bind].
  rewrite (on_event_Some _ _ _ _ He1). cbn [mbind result_bind]. apply meta_eq in Hm as (_ & Hf & _).
  destruct (release_but this x (clear_flag Scheduled (clear_flag Squashed e1))
    (with_eq_events (<[x:=clear_flag Scheduled (clear_flag Squashed e1)]> (eq_events q1)) q1) (spec_remove x l)) as (q' & -> & Hok' & Hc').
  - by apply (queue_but_update this x (fun e => clear_flag Scheduled (clear_flag Squashed e))).
  - cbn. by rewrite lookup_insert_eq.
  - rewrite !sane_clear by auto. by rewrite (sane_same e).
  - apply scheduled_clear.
  - exists q'. split_and!; [done | done | by rewrite Hc'].
Qed.

Lemma reschedule_sim x e when always : eq_events q !! x = Some e -> always = true \/ x ∈ map snd l -> _curTick q <= when ->
  exists q', reschedule this false true x when always q = Ok q' /\
    queue_ok this q' (spec_insert ((when, _priority e), x) (spec_remove x l)) /\ _curTick q' = _curTick q.
Proof.
  intros He Ha Ht. destruct (q_flags _ _ _ Hok x e He) as (Hi & Hs & _).
  unfold reschedule. rewrite (proj2 (Z.leb_le _ _) Ht). cbn [assert_ mbind result_bind]. rewrite (deref_Some _ _ _ He). cbn [mbind result_bind].
  replace (always || scheduled e) with true by (destruct Ha as [->|Ha]; [done | rewrite (proj2 Hs Ha); by rewrite orb_true_r]).
  rewrite (sane_initialized _ Hi). cbn [negb assert_ mbind result_bind orb].
  assert (H : exists q1 e1, (if scheduled e then remove this x q else Ok q) = Ok q1 /\ queue_but this x q1 (spec_remove x l) /\
    eq_events q1 !! x = Some e1 /\ meta e1 = meta e /\ _curTick q1 = _curTick q).
  { destruct (scheduled e) eqn:Es; [apply remove_but; [done | done | by apply Hs]|].
    assert (Hx : x ∉ map snd l) by (intros Hx; apply Hs in Hx; done). exists q, e. rewrite spec_remove_id by done.
    split_and!; try done. by apply queue_but_intro. }
  destruct H as (q1 & e1 & -> & Hb & He1 & Hm & Hc). apply meta_eq in Hm as (Hk & Hf & _). cbn [mbind result_bind].
  assert (Hp : _priority e1 = _priority e) by (injection Hk; done). rewrite <- Hp, <- Hc.
  apply insert_but; [done | done | by rewrite Hc | done |].
  intros e' Hf'. rewrite sane_set, sane_clear, scheduled_set by auto. rewrite (sane_same e); [done | congruence].
Qed.
End Simulation.

Lemma run_op_legal this o q l : queue_ok this q l -> legal (eq_events q) (_curTick q) o l -> exists q', run_op this o q = Ok q' /\
  queue_ok this q' (spec_op (eq_events q) o l) /\ _curTick q' = _curTick q.
Proof.
  intros Hok. destruct o as [x when|x|x when always]; cbn [legal run_op spec_op].
  - intros ([e He] & Hx & Ht). unfold prio_of. rewrite He. by apply schedule_sim.
  - by apply deschedule_sim.
  - intros ([e He] & Hx & Ht). unfold prio_of. rewrite He. by apply reschedule_sim.
Qed.

Lemma run_op_illegal this o q l : queue_ok this q l -> ~ legal (eq_events q) (_curTick q) o l -> exists e, run_op this o q = Err e.
Proof.
  intros Hok Hn. destruct o as [x when|x|x when always]; cbn [legal run_op] in *.
  - unfold schedule. destruct (Z.leb_spec (_curTick q) when); cbn [assert_ mbind result_bind]; [|eauto].
    unfold deref. destruct (eq_events q !! x) as [e|] eqn:He; cbn [mbind result_bind]; [|eauto].
    destruct (q_flags _ _ _ Hok x e He) as (_ & Hs & _). destruct (scheduled e); cbn; [eauto|].
    exfalso. apply Hn. split_and!; [done | intros Hx%Hs; done | done].
  - unfold deschedule, deref. destruct (eq_events q !! x) as [e|] eqn:He; cbn [mbind result_bind]; [|eauto].
    destruct (q_flags _ _ _ Hok x e He) as (_ & Hs & _). destruct (scheduled e); cbn; [exfalso; by apply Hn, Hs | eauto].
  - unfold reschedule. destruct (Z.leb_spec (_curTick q) when); cbn [assert_ mbind result_bind]; [|eauto].
    unfold deref. destruct (eq_events q !! x) as [e|] eqn:He; cbn [mbind result_bind]; [|eauto].
    destruct (q_flags _ _ _ Hok x e He) as (_ & Hs & _). destruct always, (scheduled e); cbn; try by eauto.
    all: exfalso; apply Hn; split_and!; first [done | by left | right; by apply Hs].
Qed.

(** C24: The event queue refines a list sorted by time and priority.  In a serial simulation, scheduling, descheduling
    and rescheduling an event succeed exactly when the list allows it: the event exists, the time has not passed, and the event is
    not in the list (to schedule it) or is in it (to deschedule it, or to reschedule it unless told to schedule in any case).  They insert
    the event before the entries of its own key, or take it out; the bins with their stale pointers and the
    flags agree with the list again, and time stands still. *)
Theorem event_queue_refines this o q l : queue_ok this q l ->
  (legal (eq_events q) (_curTick q) o l -> exists q', run_op this o q = Ok q' /\
    queue_ok this q' (spec_op (eq_events q) o l) /\ _curTick q' = _curTick q) /\
  (~ legal (eq_events q) (_curTick q) o l -> exists e, run_op this o q = Err e).
Proof. intros Hok. split; [by apply run_op_legal | by apply (run_op_illegal _ _ _ l)]. Qed.

(** ** Service *)

Lemma sorted_items bs k x l : StronglySorted key_lt (map fst bs) -> Forall (fun b => b.2 <> []) bs -> items bs = (k, x) :: l -> Forall (fun y => k.1 <= y.1.1) l.
Proof.
  intros Hs Hne Hi. destruct bs as [|[kb lb] bs]; [done|]. apply Forall_cons in Hne as [Hne _]. apply StronglySorted_inv in Hs as [Hs Hall].
  assert (Hrest : forall k' l', Forall (key_lt k') (map fst l') -> Forall (fun y : entry => k'.1 <= y.1.1) (items l')).
  { intros k' l' Hf. apply Forall_forall. intros y Hy. unfold items in Hy. apply list_elem_of_In, in_concat in Hy as (ys & Hys & Hy).
    apply in_map_iff in Hys as (b & <- & Hb). apply in_map_iff in Hy as (z & <- & _). rewrite Forall_forall in Hf. cbn.
    specialize (Hf b.1). unfold key_lt in Hf. ospecialize (Hf _); [by apply list_elem_of_In, in_map | lia]. }
  rewrite items_cons in Hi. cbn [fst snd] in Hi, Hne. destruct lb as [|y lb]; [done|]. injection Hi as <- <- <-.
  apply Forall_app. split; [|by apply Hrest]. apply Forall_forall. intros z Hz. apply list_elem_of_fmap in Hz as (w & -> & _). done.
Qed.

Section Service.
Context (this : Z).

(** Taking the head off: the next entry leads the list, and the event is out. *)
Lemma pop_head_ok q k x l : queue_ok this q ((k, x) :: l) ->
  exists q1 e1 e, head q = Some x /\ eq_events q !! x = Some e /\ pop_head x q = Ok q1 /\ queue_but this x q1 l /\
    eq_events q1 !! x = Some e1 /\ ev_flags e1 = flag_clear Scheduled (ev_flags e) /\ key e1 = k /\ _curTick q1 = _curTick q /\
    Forall (fun y => k.1 <= y.1.1) l.
Proof.
  intros Hok. destruct (q_bins _ _ _ Hok) as (bs & Hrep & Hit). pose proof Hrep as [Hs Hsort Hnd]. pose proof (seg_nonempty _ _ _ _ Hs) as Hne.
  pose proof (sorted_items bs k x l Hsort Hne Hit) as Hall.
  destruct bs as [|[kb lb] bs]; [done|]. pose proof Hs as (y & xs & e & Hb & Hh & He & _). cbn in Hb. subst lb.
  rewrite items_cons in Hit. cbn [fst snd map app] in Hit. injection Hit as -> -> Hit.
  assert (Hrep1 : rep (<[x := clear_flag Scheduled e]> (eq_events q)) (head q) ((k, x :: xs) :: bs)) by (by apply (rep_touch _ _ _ _ e)).
  rewrite ids_cons in Hnd. apply NoDup_app in Hnd as ([Hx Hnd1]%NoDup_cons & Hd & Hnd2).
  assert (Hb0 : forall st hd, rep st hd ((k, xs) :: bs) \/ (xs = [] /\ rep st hd bs) -> same_meta (<[x := clear_flag Scheduled e]> (eq_events q)) st ->
    queue_but this x (mkEventQueue st hd (_curTick q) (async_queue q)) l).
  { intros st hd Hr Hm. split; cbn.
    - destruct Hr as [Hr|[-> Hr]]; eexists; (split; [exact Hr|]); [by rewrite items_cons | done].
    - intros z f Hz Hf. pose proof (Hm z) as Hmz. rewrite Hf, lookup_insert_ne in Hmz by done.
      destruct (eq_events q !! z) as [f0|] eqn:Hf0; [|done]. apply Some_inj, meta_eq in Hmz as (_ & E1 & E2).
      destruct (q_flags _ _ _ Hok z f0 Hf0) as (H1 & H2 & H3). cbn in H2. rewrite elem_of_cons in H2.
      rewrite (sane_same f0 f E1). unfold scheduled in *. rewrite E1, E2, H2. split_and!; [done | by split; [intros [?|?] | right] | rewrite <- H2; done].
    - eapply Forall_impl; [exact Hall|]. intros z Hz. pose proof (q_time _ _ _ Hok) as [Ht _]%Forall_cons. cbn in *. lia.
    - rewrite <- Hit, map_app, items_ids, map_map. cbn. rewrite map_id. apply not_elem_of_app. split; [done|]. apply Hd. by left. }
  destruct Hrep1 as [Hs1 Hsort1 _]. pose proof Hs1 as (y & ys & e1 & [= <- <-] & _ & He1 & Hst1 & Hseg1).
  rewrite lookup_insert_eq in He1. apply Some_inj in He1 as <-. destruct Hst1 as (_ & e1 & He1 & Hk1 & Hst1).
  rewrite lookup_insert_eq in He1. apply Some_inj in He1 as <-. cbn [fst snd map] in *.
  unfold pop_head. rewrite (on_event_Some _ _ _ _ He). cbn [mbind result_bind].
  rewrite (deref_Some _ _ (clear_flag Scheduled e)) by apply lookup_insert_eq. cbn [mbind result_bind].
  destruct xs as [|n xs].
  - rewrite Hst1. eexists _, _, e. split_and!; [done | done | done | | apply lookup_insert_eq | done..].
    apply Hb0; [|done]. right. split; [done|]. split; [done | by apply StronglySorted_inv in Hsort1 as [? _] | done].
  - destruct Hst1 as (Hn & ne & Hne1 & Hkn & Hst1). rewrite Hn.
    rewrite (on_event_Some n _ _ ne) by exact Hne1. cbn [mbind result_bind].
    assert (Hxn : n <> x) by (intros ->; apply Hx; by left).
    eexists _, _, e. split_and!; [done | done | done | | cbn [eq_events with_head with_eq_events]; by rewrite lookup_insert_ne, lookup_insert_eq | done..].
    apply Hb0; [|by apply (same_meta_insert _ _ ne)]. left. split.
    + apply (seg_cons _ _ _ _ (with_nextBin (nextBin e) ne)); [apply lookup_insert_eq | done | |].
      * eapply stack_agree, Hst1. by apply (agree_insert _ _ _ ne).
      * eapply seg_agree, Hseg1. apply agree_all_insert. apply Hd. right. by left.
    + done.
    + rewrite ids_cons. cbn [snd]. apply NoDup_app. split_and!; [done | | done]. intros z Hz. apply Hd. by right.
Qed.

Context {U : Type} (process : Z -> U * EventQueue -> result (U * EventQueue)).

(** The contract of what events do: they may use the queue in any way that keeps its invariant, they
    do not move time, and the event itself lives until they return. *)
Class Handler : Prop := handler_ok : forall x u q l, queue_ok this q l -> is_Some (eq_events q !! x) -> x ∉ map snd l ->
  exists u' q' l', process x (u, q) = Ok (u', q') /\ queue_ok this q' l' /\ _curTick q' = _curTick q /\
    is_Some (eq_events q' !! x).

(** [process] with a log of the events it ran and when. *)
Definition logged (x : Z) (s : (U * list (Z * Z)) * EventQueue) : result ((U * list (Z * Z)) * EventQueue) :=
  '(u, q) ← process x (s.1.1, s.2); Ok ((u, s.1.2 ++ [(_curTick s.2, x)]), q).

Lemma queue_ok_tick q l now : queue_ok this q l -> Forall (fun y => now <= y.1.1) l -> queue_ok this (setCurTick now q) l.
Proof. intros [H1 H2 H3] Ht. by split. Qed.

Lemma release_any x q l : queue_ok this q l -> is_Some (eq_events q !! x) ->
  exists q', release x q = Ok q' /\ queue_ok this q' l /\ _curTick q' = _curTick q.
Proof.
  intros Hok [e He]. destruct (q_flags _ _ _ Hok x e He) as (Hi & Hs & _). destruct (scheduled e) eqn:Es.
  - unfold release. rewrite (deref_Some _ _ _ He). cbn [mbind result_bind]. rewrite Es. cbn [negb]. exists q. by destruct (isManaged e).
  - apply (release_but this x e); [|done..]. apply queue_but_intro; [done|]. intros Hx. by apply Hs in Hx.
Qed.

Lemma service_one_ok {H : Handler} u tr q k x l : queue_ok this q ((k, x) :: l) -> exists r u' tr' q' l',
  serviceOne logged ((u, tr), q) = Ok (r, ((u', tr'), q')) /\ queue_ok this q' l' /\
  ((tr' = tr /\ _curTick q' = _curTick q) \/ (tr' = tr ++ [(k.1, x)] /\ _curTick q' = k.1)).
Proof.
  intros Hok. destruct (pop_head_ok q k x l Hok) as (q1 & e1 & e & Hh & He & Hp & Hb & He1 & Hf & Hk & Hc & Hall).
  destruct (q_flags _ _ _ Hok x e He) as (Hi & _). assert (Hi1 : sane e1 = true) by (rewrite (sane_clear_flags Scheduled e); [done | by left | done]).
  assert (Hs1 : scheduled e1 = false) by (unfold scheduled; rewrite Hf; apply isSet_clear_same).
  unfold serviceOne. cbn [snd]. rewrite Hh, Hp. cbn [mbind result_bind]. rewrite (deref_Some _ _ _ He1). cbn [mbind result_bind].
  destruct (squashed e1) eqn:Eq; cbn [negb].
  - rewrite (on_event_Some _ _ _ _ He1). cbn [mbind result_bind].
    destruct (release_but this x (clear_flag Squashed e1) (with_eq_events (<[x:=clear_flag Squashed e1]> (eq_events q1)) q1) l)
      as (q' & -> & Hok' & Hc'); [by apply queue_but_update | by apply lookup_insert_eq | by rewrite sane_clear by auto | by rewrite scheduled_clear_squashed |].
    cbn [mbind result_bind]. eexists _, _, _, _, _. split_and!; [done | done |]. left. by rewrite Hc'.
  - assert (Hok1 : queue_ok this (setCurTick (_when e1) q1) l).
    { apply queue_ok_tick; [|by rewrite <- Hk in Hall]. apply (queue_but_elim this x); [done|]. intros e' He'. by simplify_eq. }
    destruct (handler_ok x u _ l Hok1) as (u' & q2 & l2 & Hpr & Hok2 & Hc2 & e2 & He2); [by exists e1 | apply Hb |].
    destruct (q_flags _ _ _ Hok2 x e2 He2) as ([_ Hex]%andb_prop & _).
    unfold logged at 1. cbn [fst snd]. rewrite Hpr. cbn [mbind result_bind fst snd]. rewrite (deref_Some _ _ _ He2). cbn [mbind result_bind].
    assert (Hw : _when e1 = k.1) by (by rewrite <- Hk). cbn in Hc2. rewrite Hw in *.
    destruct (isExitEvent e2).
    + cbn in Hex. rewrite Hex. cbn [assert_ mbind result_bind]. eexists _, _, _, _, _. split_and!; [done | done |]. right. done.
    + destruct (release_any x q2 l2 Hok2) as (q3 & -> & Hok3 & Hc3); [by exists e2|]. cbn [mbind result_bind].
      eexists _, _, _, _, _. split_and!; [done | done |]. right. by rewrite Hc3.
Qed.

(** The log is in order. *)
Definition in_order (from : Z) (to : Z) (tr : list (Z * Z)) : Prop :=
  StronglySorted Z.le (map fst tr) /\ Forall (fun y => from <= y.1 <= to) tr.

Lemma in_order_snoc from now k x tr : in_order from now tr -> from <= now <= k -> in_order from k (tr ++ [(k, x)]).
Proof.
  intros [Hs Hf] Hk. split.
  - rewrite map_app. cbn. assert (Hb : Forall (fun t => t <= k) (map fst tr)).
    { apply Forall_map. eapply Forall_impl; [exact Hf|]. cbn. lia. }
    clear Hf. induction (map fst tr) as [|t ts IH]; cbn; [repeat constructor|].
    apply StronglySorted_inv in Hs as [Hs Ht]. apply Forall_cons in Hb as [Hb1 Hb2]. constructor; [by apply IH|].
    apply Forall_app. split; [done | by repeat constructor].
  - apply Forall_app. split.
    + eapply Forall_impl; [exact Hf|]. cbn. lia.
    + repeat constructor; cbn; lia.
Qed.

Lemma head_entry q l : queue_ok this q l ->
  match l with
  | [] => head q = None
  | (k, x) :: l' => head q = Some x /\ (exists e, eq_events q !! x = Some e /\ _when e = k.1) /\ Forall (fun y => k.1 <= y.1.1) l'
  end.
Proof.
  intros Hok. destruct (q_bins _ _ _ Hok) as (bs & [Hs Hsort Hnd] & Hit). pose proof (seg_nonempty _ _ _ _ Hs) as Hne.
  destruct l as [|[k x] l].
  - destruct bs as [|b bs]; [done|]. apply Forall_cons in Hne as [Hb _]. rewrite items_cons in Hit. destruct b as [k [|]]; done.
  - pose proof (sorted_items bs k x l Hsort Hne Hit) as Hall. destruct bs as [|[kb lb] bs]; [done|].
    pose proof Hs as (y & xs & e & Hb & Hh & He & _). cbn in Hb. subst lb. rewrite items_cons in Hit. cbn [fst snd map app] in Hit.
    injection Hit as -> -> _. destruct (top_key _ _ _ _ _ _ _ _ Hs eq_refl He) as [Hk _]. split_and!; [done | | done].
    exists e. split; [done|]. cbn in Hk. by rewrite <- Hk.
Qed.

Lemma service_loop_ok {H : Handler} from when fuel u tr q l : queue_ok this q l -> from <= _curTick q <= when ->
  in_order from (_curTick q) tr ->
  match service_loop logged fuel when ((u, tr), q) with
  | Ok ((u', tr'), q') => exists l', queue_ok this q' l' /\ Forall (fun y => when < y.1.1) l' /\
      from <= _curTick q' <= when /\ in_order from (_curTick q') tr'
  | Err e => e = EFuel
  end.
Proof.
  revert u tr q l. induction fuel as [|fuel IH]; intros u tr q l Hok Ht Htr; cbn [service_loop snd]; [done|].
  pose proof (head_entry q l Hok) as Hh. destruct l as [|[k x] l]; [rewrite Hh; exists []; split_and!; [done | constructor | lia | lia | done]|].
  destruct Hh as (Hh & (e & He & Hw) & Hall). rewrite Hh. rewrite (deref_Some _ _ _ He). cbn [mbind result_bind]. rewrite Hw.
  destruct (Z.ltb_spec when k.1).
  { eexists. split_and!; [done | | lia | lia | done]. constructor; [done|]. eapply Forall_impl; [exact Hall|]. cbn. lia. }
  destruct (service_one_ok u tr q k x l Hok) as (r & u' & tr' & q' & l' & -> & Hok' & Hcase). cbn [mbind result_bind].
  pose proof (q_time _ _ _ Hok) as [Hk _]%Forall_cons. cbn in Hk. apply (IH u' tr' q' l'); [done | |].
  - destruct Hcase as [[_ ->] | [_ ->]]; lia.
  - destruct Hcase as [[-> ->] | [-> ->]]; [done|]. eapply in_order_snoc; [done | lia].
Qed.

(** C25: Events are serviced in order.  Whatever the events do, as long as they use the queue within its contract, a
    call of [serviceEvents] up to a time that has not passed fails no assertion: it runs events at times that never decrease, none before the
    current time and none after the limit.  When it returns, every event left is later than the limit, the
    current time is the limit, and the queue satisfies its invariant. *)
Theorem service_in_order {H : Handler} fuel when u q l : queue_ok this q l -> _curTick q <= when ->
  match serviceEvents logged fuel when ((u, []), q) with
  | Ok ((u', tr), q') => StronglySorted Z.le (map fst tr) /\ Forall (fun y => _curTick q <= y.1 <= when) tr /\
      _curTick q' = when /\ exists l', queue_ok this q' l' /\ Forall (fun y => when < y.1.1) l'
  | Err e => e = EFuel
  end.
Proof.
  intros Hok Ht. unfold serviceEvents. pose proof (service_loop_ok (_curTick q) when fuel u [] q l Hok) as Hl.
  destruct (service_loop logged fuel when (u, [], q)) as [[[u' tr] q']|e]; cbn [mbind result_bind].
  - destruct Hl as (l' & Hok' & Hlt & Hc & [Hs Hf]); [lia | by split; constructor |].
    split_and!; [done | | done |].
    + eapply Forall_impl; [exact Hf|]. cbn. lia.
    + exists l'. split; [|done]. apply queue_ok_tick; [done|]. eapply Forall_impl; [exact Hlt|]. cbn. lia.
  - apply Hl; [lia | by split; constructor].
Qed.
End Service.

(** ** Draining the queue *)

Section Drain.
Context (this : Z) {U : Type} (act : Z -> U -> U).

(** Events that do not touch the queue. *)
Definition quiet (x : Z) (s : U * EventQueue) : result (U * EventQueue) := Ok (act x s.1, s.2).

Lemma filter_ext_in {A} (P Q : A -> Prop) `{!forall x, Decision (P x), !forall x, Decision (Q x)} (l : list A) :
  (forall x, x ∈ l -> P x <-> Q x) -> filter P l = filter Q l.
Proof.
  induction l as [|x l IH]; intros Hpq; [done|]. rewrite !filter_cons, IH by (intros y Hy; apply Hpq; by right).
  assert (Hx : P x <-> Q x) by (apply Hpq; by left). repeat case_decide; tauto.
Qed.

(** A flag of an event in the store. *)
Definition flag_at (m : Z) (st : gmap Z Event) (x : Z) : bool := from_option (fun e => flag_isSet m (ev_flags e)) false (st !! x).

Lemma flag_at_insert m st x e e' y : st !! x = Some e -> flag_isSet m (ev_flags e') = flag_isSet m (ev_flags e) ->
  flag_at m (<[x := e']> st) y = flag_at m st y.
Proof.
  intros He Hf. unfold flag_at. destruct (decide (x = y)) as [->|]; [by rewrite lookup_insert_eq, He | by rewrite lookup_insert_ne].
Qed.

Lemma pop_head_flag m x q q1 y : Z.land Scheduled m = 0 -> pop_head x q = Ok q1 -> flag_at m (eq_events q1) y = flag_at m (eq_events q) y.
Proof.
  intros Hm. unfold pop_head, on_event, update, deref. intros H.
  destruct (eq_events q !! x) as [e|] eqn:He; cbn [mbind result_bind] in H; [|done].
  assert (H1 : flag_at m (<[x := clear_flag Scheduled e]> (eq_events q)) y = flag_at m (eq_events q) y).
  { apply (flag_at_insert _ _ _ e); [done|]. unfold flag_isSet. cbn. by rewrite land_clear_other. }
  cbn [eq_events with_eq_events] in H. rewrite lookup_insert_eq in H. cbn [mbind result_bind] in H.
  destruct (nextInBin _) as [n|]; cbn [mbind result_bind] in H; [|apply Ok_inj in H as <-; done].
  destruct (<[x := _]> _ !! n) as [ne|] eqn:Hn; cbn [mbind result_bind] in H; [|done]. apply Ok_inj in H as <-.
  rewrite <- H1. by apply (flag_at_insert _ _ _ ne).
Qed.

Lemma release_flag m x q q' y : release x q = Ok q' -> flag_at m (eq_events q') y = flag_at m (eq_events q) y \/ y = x.
Proof.
  unfold release. intros H. destruct (decide (y = x)); [by right|]. left. inv_ok. destruct (isManaged _); [|by inv_ok].
  destruct (negb _); inv_ok; [|done]. unfold flag_at. cbn. by rewrite lookup_delete_ne.
Qed.

Lemma release_noexit x q q' : release x q = Ok q' -> (forall y, flag_at IsExitEvent (eq_events q) y = false) ->
  forall y, flag_at IsExitEvent (eq_events q') y = false.
Proof.
  unfold release. intros H Hn y. inv_ok. destruct (isManaged _); [|inv_ok; apply Hn]. destruct (negb _); inv_ok; [|apply Hn].
  unfold flag_at. cbn. destruct (decide (x = y)) as [->|]; [by rewrite lookup_delete_eq|]. rewrite lookup_delete_ne by done. apply Hn.
Qed.

Lemma service_quiet u q k x l : queue_ok this q ((k, x) :: l) -> (forall y, flag_at IsExitEvent (eq_events q) y = false) ->
  exists q', serviceOne quiet (u, q) = Ok (None, ((if flag_at Squashed (eq_events q) x then u else act x u), q')) /\
    queue_ok this q' l /\ (_curTick q' = _curTick q \/ _curTick q' = k.1) /\
    (forall y, y ∈ map snd l -> flag_at Squashed (eq_events q') y = flag_at Squashed (eq_events q) y) /\
    (forall y, flag_at IsExitEvent (eq_events q') y = false).
Proof.
  intros Hok Hn. destruct (pop_head_ok this q k x l Hok) as (q1 & e1 & e & Hh & He & Hp & Hb & He1 & Hf & Hk & Hc & Hall).
  destruct (q_flags _ _ _ Hok x e He) as (Hi & _). assert (Hi1 : sane e1 = true) by (rewrite (sane_clear_flags Scheduled e); [done | by left | done]).
  assert (Hs1 : scheduled e1 = false) by (unfold scheduled; rewrite Hf; apply isSet_clear_same).
  assert (Hne : forall y, y ∈ map snd l -> y <> x) by (intros y Hy ->; by apply (b_out _ _ _ _ Hb)).
  assert (Hn1 : forall y, flag_at IsExitEvent (eq_events q1) y = false) by (intros y; by rewrite (pop_head_flag _ x q)).
  assert (Hsq : flag_at Squashed (eq_events q) x = squashed e1).
  { rewrite <- (pop_head_flag Squashed x q q1) by done. unfold flag_at. by rewrite He1. }
  unfold serviceOne. cbn [snd]. rewrite Hh, Hp. cbn [mbind result_bind]. rewrite (deref_Some _ _ _ He1). cbn [mbind result_bind]. rewrite Hsq.
  destruct (squashed e1) eqn:Eq; cbn [negb].
  - rewrite (on_event_Some _ _ _ _ He1). cbn [mbind result_bind]. set (q2 := with_eq_events _ q1).
    destruct (release_but this x (clear_flag Squashed e1) q2 l)
      as (q' & Hr & Hok' & Hc'); [by apply queue_but_update | by apply lookup_insert_eq | by rewrite sane_clear by auto | by rewrite scheduled_clear_squashed |].
    rewrite Hr. cbn [mbind result_bind]. eexists. split_and!; [done | done | left; by rewrite Hc' | |].
    + intros y Hy. destruct (release_flag Squashed x q2 q' y Hr) as [-> | ->]; [|by apply Hne in Hy].
      rewrite <- (pop_head_flag Squashed x q q1) by done. unfold flag_at, q2. cbn. by rewrite lookup_insert_ne by (by apply not_eq_sym, Hne).
    + apply (release_noexit _ _ _ Hr). intros y. rewrite <- (Hn1 y). apply (flag_at_insert _ _ _ e1); [done|].
      unfold flag_isSet. cbn. by rewrite land_clear_other.
  - assert (Hok1 : queue_ok this (setCurTick (_when e1) q1) l).
    { apply queue_ok_tick; [|by rewrite <- Hk in Hall]. apply (queue_but_elim this x); [done|]. intros e' He'. by simplify_eq. }
    unfold quiet at 1. cbn [fst snd mbind result_bind]. rewrite (deref_Some x _ e1) by done. cbn [mbind result_bind].
    assert (Hx : isExitEvent e1 = false) by (specialize (Hn1 x); unfold flag_at in Hn1; by rewrite He1 in Hn1). rewrite Hx.
    destruct (release_any this x _ l Hok1) as (q3 & Hr & Hok3 & Hc3); [by exists e1|]. rewrite Hr. cbn [mbind result_bind].
    eexists. split_and!; [done | done | right; rewrite Hc3; cbn; by rewrite <- Hk | |].
    + intros y Hy. destruct (release_flag Squashed x _ q3 y Hr) as [-> | ->]; [|by apply Hne in Hy].
      by apply (pop_head_flag Squashed x q q1).
    + by apply (release_noexit _ _ _ Hr).
Qed.

Lemma quiet_loop when : forall l fuel u q, queue_ok this q l -> _curTick q <= when -> (length l < fuel)%nat ->
  (forall y, flag_at IsExitEvent (eq_events q) y = false) ->
  exists due later q', l = due ++ later /\ Forall (fun y => y.1.1 <= when) due /\ Forall (fun y => when < y.1.1) later /\
    service_loop quiet fuel when (u, q) =
      Ok (fold_left (fun u y => act y.2 u) (filter (fun y => flag_at Squashed (eq_events q) y.2 = false) due) u, q') /\
    queue_ok this q' later /\ _curTick q' <= when.
Proof.
  induction l as [|[k x] l IH]; intros [|fuel] u q Hok Ht Hf Hn; try (cbn in Hf; lia); cbn [service_loop snd].
  { rewrite (head_entry this q [] Hok). by exists [], [], q. }
  destruct (head_entry this q _ Hok) as (Hh & (e & He & Hw) & Hall). rewrite Hh, (deref_Some _ _ _ He). cbn [mbind result_bind]. rewrite Hw.
  destruct (Z.ltb_spec when k.1).
  { exists [], ((k, x) :: l), q. split_and!; try done. constructor; [done|]. eapply Forall_impl; [exact Hall|]. cbn. lia. }
  destruct (service_quiet u q k x l Hok Hn) as (q1 & -> & Hok1 & Hc1 & Hs1 & Hn1). cbn [mbind result_bind].
  destruct (IH fuel (if flag_at Squashed (eq_events q) x then u else act x u) q1 Hok1) as (due & later & q' & -> & Hd & Hl & Hloop & Hok' & Hc');
    [lia | cbn in Hf; lia | done |].
  exists ((k, x) :: due), later, q'. split_and!; try done; [by constructor|]. rewrite Hloop. f_equal. f_equal.
  assert (Hfl : filter (fun y : entry => flag_at Squashed (eq_events q1) y.2 = false) due =
    filter (fun y : entry => flag_at Squashed (eq_events q) y.2 = false) due).
  { apply filter_ext_in. intros y Hy. rewrite Hs1; [done|]. rewrite map_app. apply elem_of_app. left. by apply list_elem_of_fmap_2. }
  rewrite Hfl. rewrite filter_cons. cbn [snd]. destruct (flag_at Squashed (eq_events q) x); [by rewrite decide_False | by rewrite decide_True].
Qed.

(** C26: Servicing terminates when the events schedule nothing new and none is an exit event: one round per entry is enough, and the
    events that are due and not squashed run exactly once each, in the order of the queue. *)
Theorem service_drains fuel when u q l : queue_ok this q l -> _curTick q <= when -> (length l < fuel)%nat ->
  (forall y, flag_at IsExitEvent (eq_events q) y = false) ->
  exists due later q', l = due ++ later /\ Forall (fun y => y.1.1 <= when) due /\ Forall (fun y => when < y.1.1) later /\
    serviceEvents quiet fuel when (u, q) =
      Ok (fold_left (fun u y => act y.2 u) (filter (fun y => flag_at Squashed (eq_events q) y.2 = false) due) u, q') /\
    queue_ok this q' later /\ _curTick q' = when.
Proof.
  intros Hok Ht Hf Hn. destruct (quiet_loop when l fuel u q Hok Ht Hf Hn) as (due & later & q' & El & Hd & Hl & Hloop & Hok' & Hc).
  exists due, later, (setCurTick when q'). unfold serviceEvents. rewrite Hloop. split_and!; try done.
  apply queue_ok_tick; [done|]. eapply Forall_impl; [exact Hl|]. cbn. lia.
Qed.
End Drain.

(** ** Checkpoints *)

(** C38: An event that was waiting when the checkpoint was taken is not rescheduled after it is restored: [unserialize] clears the
    flag that [checkpointReschedule] tests, so the call leaves the queue as it is.  Time and priority are restored. *)
Theorem checkpoint_loses_event e fresh x q : initialized e = true -> scheduled e = true -> squashed e = false -> 0 <= ev_flags e < 2 ^ 15 ->
  initialized fresh = true -> scheduled fresh = false ->
  exists e', Event_unserialize (Event_serialize e) fresh = Ok e' /\ key e' = key e /\
    (eq_events q !! x = Some e' -> checkpointReschedule x q = Ok q).
Proof.
  intros Hi Hs Hq Hr Hif Hsf. unfold Event_unserialize, Event_serialize. rewrite Hsf. cbn [negb assert_ mbind result_bind].
  change (initialized (mkEvent _ _ _ _ (ev_flags fresh) _)) with (initialized fresh). rewrite Hif. cbn [assert_ mbind result_bind].
  assert (Hf : u16 (i16 (ev_flags e)) = ev_flags e).
  { unfold u16, i16. rewrite (Z.mod_small (_ + _)) by lia. rewrite Z.mod_small; lia. }
  rewrite Hf. set (e1 := with_ev_flags _ _). assert (Hsc : scheduled (set_flag Initialized e1) = true).
  { unfold scheduled, set_flag, flag_isSet. cbn. rewrite land_set_other by done. exact Hs. }
  assert (Hsq : squashed (set_flag Initialized e1) = false).
  { unfold squashed, set_flag, flag_isSet. cbn. rewrite land_set_other by done. exact Hq. }
  rewrite Hsc, Hsq. cbn [andb negb]. eexists. split_and!; [done | done |]. intros Hx. unfold checkpointReschedule.
  rewrite (deref_Some _ _ _ Hx). cbn [mbind result_bind]. replace (scheduled _) with false; [done|]. symmetry.
  unfold scheduled, flag_isSet, clear_flag, flag_clear. cbn [ev_flags with_ev_flags]. apply negb_false_iff, Z.eqb_eq, Z.bits_inj_0.
  intros n. rewrite Z.land_spec, Z.ldiff_spec, Z.lor_spec. destruct (Z.testbit Scheduled n); [|apply andb_false_r].
  by rewrite orb_true_r, andb_false_r.
Qed.

(** ** An example *)

(** No event of a new queue is scheduled. *)
Lemma new_queue_ok this st : (forall x e, st !! x = Some e -> sane e = true /\ scheduled e = false) ->
  queue_ok this (EventQueue_new st) [].
Proof.
  intros H. split.
  - exists []. split; [|done]. split; [done | constructor | constructor].
  - intros x e He. destruct (H x e He) as [-> ->]. cbn. split_and!; [done | | done]. split; [done | by intros ?%not_elem_of_nil].
  - constructor.
Qed.

Definition ex_event (p : Z) : Event := match Event_new p 0 with Ok e => e | Err _ => mkEvent None None 0 0 0 None end.
Definition ex_store : gmap Z Event := list_to_map [(1, ex_event 0); (2, ex_event 0); (3, ex_event (-1)); (4, ex_event 50)].

Lemma ex_store_ok this : queue_ok this (EventQueue_new ex_store) [].
Proof.
  apply new_queue_ok. intros x e He. apply elem_of_list_to_map_2 in He.
  repeat (apply elem_of_cons in He as [[= -> ->]|He]; [by vm_compute|]). by apply not_elem_of_nil in He.
Qed.

(** Four events, two of them of one key, one rescheduled. *)
Definition ex_ops : list queue_op := [OSchedule 1 5; OSchedule 2 5; OSchedule 3 5; OSchedule 4 9; OReschedule 4 2 false].
Definition ex_run (ops : list queue_op) : result EventQueue := foldM (fun q o => run_op 0 o q) ops (EventQueue_new ex_store).
Definition ex_queue : EventQueue := match ex_run ex_ops with Ok q => q | Err _ => EventQueue_new ex_store end.

(** The stack of time 5 is served last in, first out, after the event of lower priority. *)
Example ex_order : dump ex_queue = Ok [4; 3; 2; 1] /\ debugVerify ex_queue = Ok true.
Proof. by vm_compute. Qed.

Lemma run_op_ok this o q q' l : queue_ok this q l -> legal (eq_events q) (_curTick q) o l -> run_op this o q = Ok q' ->
  queue_ok this q' (spec_op (eq_events q) o l).
Proof. intros Hok Hl Hr. destruct (run_op_legal this o q l Hok Hl) as (q2 & H2 & Hok2 & _). rewrite H2 in Hr. by apply Ok_inj in Hr as <-. Qed.

Definition ex_state (n : nat) : EventQueue := match ex_run (take n ex_ops) with Ok q => q | Err _ => EventQueue_new ex_store end.

Lemma ex_next n o l : queue_ok 0 (ex_state n) l -> bool_decide (legal (eq_events (ex_state n)) (_curTick (ex_state n)) o l) = true ->
  run_op 0 o (ex_state n) = Ok (ex_state (S n)) -> queue_ok 0 (ex_state (S n)) (spec_op (eq_events (ex_state n)) o l).
Proof. intros Hok Hl Hr. eapply run_op_ok; [done | by apply bool_decide_eq_true in Hl | done]. Qed.

Lemma ex_queue_ok : queue_ok 0 ex_queue [((2, 50), 4); ((5, -1), 3); ((5, 0), 2); ((5, 0), 1)].
Proof.
  assert (H1 := ex_next 0 (OSchedule 1 5) [] (ex_store_ok 0) eq_refl eq_refl).
  assert (H2 := ex_next 1 (OSchedule 2 5) _ H1 eq_refl eq_refl).
  assert (H3 := ex_next 2 (OSchedule 3 5) _ H2 eq_refl eq_refl).
  assert (H4 := ex_next 3 (OSchedule 4 9) _ H3 eq_refl eq_refl).
  exact (ex_next 4 (OReschedule 4 2 false) _ H4 eq_refl eq_refl).
Qed.

Lemma event_queue_refines_witness : exists q', run_op 0 (ODeschedule 2) ex_queue = Ok q' /\
  queue_ok 0 q' [((2, 50), 4); ((5, -1), 3); ((5, 0), 1)].
Proof.
  destruct (event_queue_refines 0 (ODeschedule 2) ex_queue _ ex_queue_ok) as [H _].
  destruct H as (q' & Hr & Hok & _); [refine (bool_decide_unpack (legal _ _ _ _) _); vm_compute; exact I|]. exists q'. split; [exact Hr | exact Hok].
Defined.

(** A handler that schedules event 1 again, 10 ticks later, when event 2 runs. *)
Definition ex_process (x : Z) (s : Z * EventQueue) : result (Z * EventQueue) :=
  if x =? 2 then match run_op 0 (OReschedule 1 (_curTick s.2 + 10) false) s.2 with Ok q => Ok (s.1 + 1, q) | Err _ => Ok s end
  else Ok s.

(** Rescheduling neither creates nor deletes events. *)
Definition keeps (st st' : gmap Z Event) : Prop := forall x, is_Some (st !! x) -> is_Some (st' !! x).

Lemma update_keeps id f st st' : update id f st = Ok st' -> keeps st st'.
Proof. unfold update. intros H. inv_ok. intros z Hz. by apply lookup_insert_is_Some'; right. Qed.

Ltac keep_steps := repeat match goal with
  | H : update _ _ _ = Ok _ |- _ => apply update_keeps in H
  | H : (match ?c with _ => _ end) = Ok _ |- _ => destruct c; inv_ok
  end; unfold keeps in *; eauto 10.

Lemma insert_keeps x q q' : insert x q = Ok q' -> keeps (eq_events q) (eq_events q').
Proof. unfold insert, insertBefore. intros H. inv_ok. keep_steps. Qed.

Lemma remove_keeps this x q q' : remove this x q = Ok q' -> keeps (eq_events q) (eq_events q').
Proof. unfold remove, removeItem. intros H. inv_ok. keep_steps. Qed.

Lemma on_event_keeps x f q q' : on_event x f q = Ok q' -> keeps (eq_events q) (eq_events q').
Proof. unfold on_event. intros H. inv_ok. by eapply update_keeps. Qed.

Lemma eq_reschedule_keeps this x when always q q' : reschedule this false true x when always q = Ok q' -> keeps (eq_events q) (eq_events q').
Proof.
  unfold reschedule. intros H. inv_ok. repeat match goal with
    | H : on_event _ _ _ = Ok _ |- _ => apply on_event_keeps in H
    | H : insert _ _ = Ok _ |- _ => apply insert_keeps in H end.
  destruct (scheduled _); [rename select (remove _ _ _ = _) into Hr; apply remove_keeps in Hr | inv_ok]; unfold keeps in *; eauto 10.
Qed.

#[export] Instance ex_process_ok : Handler 0 ex_process.
Proof.
  intros x u q l Hok Hx Hl. unfold ex_process. cbn [fst snd]. destruct (x =? 2); [|by eexists _, _, l].
  set (o := OReschedule 1 (_curTick q + 10) false). destruct (decide (legal (eq_events q) (_curTick q) o l)) as [Hleg|Hleg].
  - destruct (run_op_legal 0 o q l Hok Hleg) as (q' & Hr & Hok' & Hc). rewrite Hr. eexists _, _, _. split_and!; [done | done | done |].
    by apply (eq_reschedule_keeps _ _ _ _ _ _ Hr).
  - destruct (run_op_illegal 0 o q l Hok Hleg) as [e ->]. by eexists _, _, l.
Qed.

Lemma service_in_order_witness : exists u q',
  serviceEvents (logged ex_process) 10 20 ((0, []), ex_queue) = Ok ((u, [(2, 4); (5, 3); (5, 2); (15, 1)]), q') /\ _curTick q' = 20.
Proof.
  pose proof (service_in_order 0 ex_process 10 20 0 ex_queue _ ex_queue_ok) as H.
  assert (E : (s ← serviceEvents (logged ex_process) 10 20 ((0, []), ex_queue); Ok s.1.2) = Ok [(2, 4); (5, 3); (5, 2); (15, 1)])
    by (vm_compute; reflexivity).
  destruct (serviceEvents (logged ex_process) 10 20 ((0, []), ex_queue)) as [[[u tr] q']|]; [|discriminate E].
  cbn in E. injection E as ->. exists u, q'. split; [reflexivity|]. apply H. vm_compute. discriminate.
Defined.

Lemma service_drains_witness : exists q', serviceEvents (quiet (fun x (u : list Z) => u ++ [x])) 5 4 ([], ex_queue) = Ok ([4], q') /\
  queue_ok 0 q' [((5, -1), 3); ((5, 0), 2); ((5, 0), 1)] /\ _curTick q' = 4.
Proof.
  destruct (service_drains 0 (fun x (u : list Z) => u ++ [x]) 5 4 [] ex_queue _ ex_queue_ok) as (due & later & q' & El & Hd & Hl & Hs & Hok & Hc);
    [vm_compute; discriminate | cbn; lia | |].
  - intros y. unfold flag_at. destruct (eq_events ex_queue !! y) as [e|] eqn:He; [|reflexivity].
    assert (Hall : Forall (fun p => flag_isSet IsExitEvent (ev_flags p.2) = false) (map_to_list (eq_events ex_queue)))
      by (vm_compute; repeat constructor).
    rewrite Forall_forall in Hall. apply (Hall (y, e)). apply elem_of_map_to_list. exact He.
  - destruct due as [|d1 [|d2 due]]; cbn in El.
    + subst later. apply Forall_inv in Hl. cbn in Hl. lia.
    + injection El as <- <-. exists q'. split_and!; [rewrite Hs; vm_compute; reflexivity | exact Hok | exact Hc].
    + injection El as <- <- _. apply Forall_inv_tail, Forall_inv in Hd. cbn in Hd. lia.
Defined.

Lemma checkpoint_loses_event_witness : exists e', Event_unserialize (Event_serialize (set_flag Scheduled (ex_event 7))) (ex_event 0) = Ok e' /\
  key e' = (0, 7) /\ checkpointReschedule 1 (EventQueue_new {[1 := e']}) = Ok (EventQueue_new {[1 := e']}).
Proof.
  destruct (Event_unserialize (Event_serialize (set_flag Scheduled (ex_event 7))) (ex_event 0)) as [e|] eqn:E; [|vm_compute in E; discriminate E].
  destruct (checkpoint_loses_event (set_flag Scheduled (ex_event 7)) (ex_event 0) 1 (EventQueue_new {[1 := e]}))
    as (e' & He & Hk & Hc); try reflexivity; [vm_compute; split; [discriminate | reflexivity]|].
  rewrite He in E. injection E as <-. exists e'. split_and!; [reflexivity | exact Hk | apply Hc; apply lookup_singleton_eq].
Defined.

(** [debugVerify] starts its comparison at time 0 and priority 0, so it rejects a queue whose first event is at time 0 with a
    negative priority. *)
Example debugVerify_time_zero :
  (q ← ex_run [OSchedule 3 0]; debugVerify q) = Ok false.
Proof. by vm_compute. Qed.
