(* ===== verification/Heap.v ===== *)
(** * The binary heap behind [std::push_heap] and [std::pop_heap]

    [flitBuffer] (flitBuffer.hh) and [MessageBuffer] keep a [std::vector] in heap
    order.  This file models the two library algorithms as libstdc++ implements
    them ([__push_heap] sifts a hole up, [__adjust_heap] first moves the hole to a
    leaf and then sifts up) and proves the contract of the C++ standard: the
    result is again a heap of the same elements, with a minimal element in front.
    [comp] is the comparison the callers pass, here always a "greater". *)

From S2P Require Import Prelude.
Local Open Scope nat_scope.

Section Heap.
Context {A : Type} (comp : A -> A -> bool).

Definition parent (i : nat) : nat := (i - 1) / 2.

Definition at_ (value : A) (l : list A) (i : nat) : A := default value (l !! i).

(** [__push_heap(first, hole, top, value)] *)
Fixpoint sift_up (fuel : nat) (l : list A) (hole top : nat) (value : A) : list A :=
  match fuel with
  | O => <[hole := value]> l
  | S fuel' =>
      if (top <? hole) && comp (at_ value l (parent hole)) value
      then sift_up fuel' (<[hole := at_ value l (parent hole)]> l) (parent hole) top value
      else <[hole := value]> l
  end.

(** [push_heap(begin, end)] after a [push_back]: the last element is sifted up. *)
Definition push_heap (l : list A) : list A :=
  match last l with
  | Some value => sift_up (length l) l (length l - 1) 0 value
  | None => l
  end.

(** The descending loop of [__adjust_heap]; returns the array and the hole. *)
Fixpoint sift_down (fuel : nat) (l : list A) (hole len : nat) (value : A) : list A * nat :=
  match fuel with
  | O => (l, hole)
  | S fuel' =>
      if hole <? (len - 1) / 2 then
        let right := 2 * (hole + 1) in
        let child := if comp (at_ value l right) (at_ value l (right - 1))
                     then right - 1 else right in
        sift_down fuel' (<[hole := at_ value l child]> l) child len value
      else (l, hole)
  end.

Definition adjust_heap (l : list A) (len : nat) (value : A) : list A :=
  let '(l1, hole1) := sift_down len l 0 len value in
  let '(l2, hole2) :=
    if Nat.even len && (hole1 =? (len - 2) / 2)
    then (<[hole1 := at_ value l1 (2 * (hole1 + 1) - 1)]> l1, 2 * (hole1 + 1) - 1)
    else (l1, hole1) in
  sift_up len l2 hole2 0 value.

(** [pop_heap(begin, end)]: the front goes to the back, the rest is a heap. *)
Definition pop_heap (l : list A) : list A :=
  match l with
  | front :: _ :: _ =>
      let len := length l - 1 in
      adjust_heap (take len l) len (at_ front l len) ++ [front]
  | _ => l
  end.

Definition pop_back (l : list A) : list A := take (length l - 1) l.

(** No child is smaller than its parent. *)
Definition is_heap (l : list A) : Prop :=
  forall i p v, 0 < i -> l !! parent i = Some p -> l !! i = Some v -> comp p v = false.

(** The comparison is the strict part of a total preorder. *)
Class StrictWeak : Prop := {
  comp_asym : forall x y, comp x y = true -> comp y x = false;
  comp_negtrans : forall x y z, comp x y = false -> comp y z = false -> comp x z = false
}.

(** ** Permutation *)

Lemma parent_lt i : 0 < i -> parent i < i.
Proof. unfold parent. intros Hi. apply Nat.Div0.div_lt_upper_bound. lia. Qed.

Lemma at_Some value (l : list A) i : i < length l -> l !! i = Some (at_ value l i).
Proof.
  intros Hi. destruct (lookup_lt_is_Some_2 l i Hi) as [x Hx]. unfold at_. by rewrite Hx.
Qed.

Lemma at_insert_ne value (l : list A) i j x :
  i <> j -> at_ value (<[i := x]> l) j = at_ value l j.
Proof. intros H. unfold at_. by rewrite list_lookup_insert_ne. Qed.

Lemma at_insert_eq value (l : list A) i x :
  i < length l -> at_ value (<[i := x]> l) i = x.
Proof. intros H. unfold at_. by rewrite list_lookup_insert_eq. Qed.

(** Moving the hole from [h] to [j] permutes the array with the hole filled. *)
Lemma move_hole_Permutation value (l : list A) h j :
  h < length l -> j < length l ->
  <[j := value]> (<[h := at_ value l j]> l) ≡ₚ <[h := value]> l.
Proof.
  intros Hh Hj. destruct (decide (h = j)) as [->|Hne].
  - by rewrite list_insert_insert_eq.
  - rewrite <- (Permutation_insert_swap (<[h := value]> l) h j value (at_ value l j)).
    + by rewrite list_insert_insert_eq.
    + by apply list_lookup_insert_eq.
    + rewrite list_lookup_insert_ne by done. by apply at_Some.
Qed.

Lemma sift_up_Permutation fuel l hole top value :
  hole < length l -> sift_up fuel l hole top value ≡ₚ <[hole := value]> l.
Proof.
  revert l hole. induction fuel as [|fuel IH]; intros l hole Hh; cbn [sift_up]; [done|].
  destruct (Nat.ltb_spec top hole); cbn [andb]; [|done].
  destruct (comp _ _); [|done].
  pose proof (parent_lt hole ltac:(lia)).
  rewrite IH by (rewrite length_insert; lia).
  apply move_hole_Permutation; lia.
Qed.

Lemma sift_up_length fuel l hole top value :
  length (sift_up fuel l hole top value) = length l.
Proof.
  revert l hole. induction fuel as [|fuel IH]; intros l hole; cbn [sift_up].
  - by rewrite length_insert.
  - destruct (_ && _); [rewrite IH|]; by rewrite length_insert.
Qed.

Lemma push_heap_Permutation l : push_heap l ≡ₚ l.
Proof.
  unfold push_heap. destruct (last l) as [v|] eqn:Hl; [|done].
  assert (length l <> 0) by (destruct l; [done | cbn; lia]).
  rewrite sift_up_Permutation by lia.
  rewrite list_insert_id; [done|].
  rewrite last_lookup in Hl. by replace (length l - 1) with (Init.Nat.pred (length l)) by lia.
Qed.

Lemma children_of_hole hole len :
  hole < (len - 1) / 2 -> 2 * (hole + 1) < len.
Proof.
  intros H. assert (2 * ((len - 1) / 2) <= len - 1) by apply Nat.Div0.mul_div_le. lia.
Qed.

Lemma sift_down_spec fuel l hole len value l' hole' :
  hole < len -> len = length l -> sift_down fuel l hole len value = (l', hole') ->
  hole' < len /\ length l' = len /\ <[hole' := value]> l' ≡ₚ <[hole := value]> l.
Proof.
  revert l hole. induction fuel as [|fuel IH]; intros l hole Hh Hl; cbn [sift_down].
  - intros [= <- <-]. done.
  - destruct (Nat.ltb_spec hole ((len - 1) / 2)) as [Hlt|]; [|intros [= <- <-]; done].
    apply children_of_hole in Hlt.
    set (child := if comp _ _ then _ else _).
    assert (Hc : child < len) by (unfold child; destruct (comp _ _); lia).
    intros Hr. apply IH in Hr; [|done | by rewrite length_insert].
    destruct Hr as (? & ? & Hp). split_and!; [done | done|].
    rewrite Hp. apply move_hole_Permutation; lia.
Qed.

Lemma adjust_heap_Permutation l len value :
  0 < len -> len = length l -> adjust_heap l len value ≡ₚ <[0 := value]> l.
Proof.
  intros H0 Hl. unfold adjust_heap.
  destruct (sift_down len l 0 len value) as [l1 h1] eqn:E.
  apply sift_down_spec in E as (Hh & Hlen & Hp); [|done | done].
  destruct (Nat.even len && (h1 =? (len - 2) / 2)) eqn:Ee.
  - apply andb_true_iff in Ee as [Hev Heq].
    apply Nat.even_spec in Hev as [k ->]. apply Nat.eqb_eq in Heq.
    assert (h1 = k - 1) as -> by (rewrite Heq; replace (2 * k - 2) with ((k - 1) * 2) by lia;
                                  by rewrite Nat.div_mul by lia).
    rewrite sift_up_Permutation by (rewrite length_insert; lia).
    rewrite move_hole_Permutation by lia. done.
  - rewrite sift_up_Permutation by lia. done.
Qed.

Lemma take_at_last value (l : list A) n :
  length l = S n -> l = take n l ++ [at_ value l n].
Proof.
  intros Hl. rewrite <- (take_drop n l) at 1. f_equal.
  rewrite (drop_S l (at_ value l n) n) by (apply at_Some; lia).
  by rewrite drop_ge by lia.
Qed.

Lemma pop_heap_Permutation l : pop_heap l ≡ₚ l.
Proof.
  destruct l as [|front [|x l]]; [done | done |].
  unfold pop_heap. set (len := length (front :: x :: l) - 1).
  rewrite adjust_heap_Permutation; [|cbn; lia | rewrite length_take; cbn; lia].
  rewrite (take_at_last front (front :: x :: l) len) at 3 by (cbn; lia).
  generalize (at_ front (front :: x :: l) len); intros v.
  replace len with (S (length l)) by (cbn; lia). cbn.
  rewrite <- !Permutation_cons_append. apply Permutation_swap.
Qed.

(** What [pop_heap] followed by [pop_back] leaves, with the front, is the
    original content. *)
Lemma pop_back_pop_heap front l :
  front :: pop_back (pop_heap (front :: l)) ≡ₚ front :: l.
Proof.
  rewrite <- (pop_heap_Permutation (front :: l)) at 2.
  destruct l as [|x l]; [done|]. unfold pop_heap, pop_back.
  set (a := adjust_heap _ _ _). rewrite length_app. cbn [length].
  replace (length a + 1 - 1) with (length a) by lia.
  rewrite take_app_length. by rewrite <- Permutation_cons_append.
Qed.

(** ** Heap order *)

Context `{!StrictWeak}.

Lemma comp_irrefl x : comp x x = false.
Proof. destruct (comp x x) eqn:E; [|done]. pose proof (comp_asym _ _ E). congruence. Qed.

Lemma comp_weaken x y z : comp y x = true -> comp y z = false -> comp x z = false.
Proof. intros H1%comp_asym H2. eauto using comp_negtrans. Qed.

(** Every edge is ordered except the one above the hole, and the hole's parent
    is below the hole's children: the invariant of [sift_up]. *)
Definition heap_but (l : list A) (h : nat) : Prop :=
  (forall i p v, 0 < i -> i <> h -> l !! parent i = Some p -> l !! i = Some v -> comp p v = false) /\
  (forall i p v, 0 < i -> 0 < h -> parent i = h ->
     l !! parent h = Some p -> l !! i = Some v -> comp p v = false).

Lemma heap_but_done l h p v :
  heap_but l h -> l !! h = Some v ->
  (0 < h -> l !! parent h = Some p -> comp p v = false) ->
  (0 < h -> l !! parent h = Some p) -> is_heap l.
Proof.
  intros [H1 _] Hv Hp Hpp i q w Hi Hq Hw.
  destruct (decide (i = h)) as [->|]; [|by eauto].
  specialize (Hpp Hi). simplify_eq. auto.
Qed.

Lemma heap_but_step l h pv v :
  0 < h -> h < length l -> l !! parent h = Some pv ->
  heap_but (<[h := v]> l) h -> comp pv v = true ->
  heap_but (<[parent h := v]> (<[h := pv]> l)) (parent h).
Proof.
  intros Hh Hlen Hpv [H1 H2] Hc.
  pose proof (parent_lt h Hh) as Hlt.
  assert (Hup : forall i w, 0 < i -> i <> h -> parent i = parent h -> l !! i = Some w ->
                comp pv w = false).
  { intros i w Hi Hne Hpi Hw.
    apply (H1 i); [done | done | |]; rewrite list_lookup_insert_ne by lia; [by rewrite Hpi | done]. }
  split.
  - intros i p w Hi Hne Hp Hw.
    destruct (decide (parent i = parent h)) as [Hpi|Hpi].
    + rewrite Hpi, list_lookup_insert_eq in Hp by (rewrite length_insert; lia). simplify_eq.
      rewrite list_lookup_insert_ne in Hw by done.
      destruct (decide (i = h)) as [->|Hih].
      * rewrite list_lookup_insert_eq in Hw by done. simplify_eq. by apply comp_asym.
      * rewrite list_lookup_insert_ne in Hw by done. eapply comp_weaken; eauto.
    + rewrite list_lookup_insert_ne in Hp, Hw by done.
      assert (i <> h) by congruence.
      rewrite (list_lookup_insert_ne _ h i) in Hw by done.
      destruct (decide (parent i = h)) as [Hph|Hph].
      * rewrite Hph, list_lookup_insert_eq in Hp by done. simplify_eq.
        apply (H2 i); [done | done | done | |]; rewrite list_lookup_insert_ne by lia; done.
      * rewrite list_lookup_insert_ne in Hp by done.
        apply (H1 i); [done | done | |]; rewrite list_lookup_insert_ne by lia; done.
  - intros i p w Hi Hph Hpi Hp Hw.
    pose proof (parent_lt (parent h) Hph).
    pose proof (parent_lt i Hi).
    rewrite list_lookup_insert_ne in Hp by lia. rewrite list_lookup_insert_ne in Hw by lia.
    rewrite list_lookup_insert_ne in Hp by lia.
    assert (Hppv : comp p pv = false).
    { apply (H1 (parent h)); [done | lia | |]; rewrite list_lookup_insert_ne by lia; done. }
    destruct (decide (i = h)) as [->|Hih].
    + rewrite list_lookup_insert_eq in Hw by done. by simplify_eq.
    + rewrite list_lookup_insert_ne in Hw by done. eauto using comp_negtrans.
Qed.

Lemma sift_up_heap fuel l h v :
  h < length l -> h <= fuel -> heap_but (<[h := v]> l) h ->
  is_heap (sift_up fuel l h 0 v).
Proof.
  revert l h. induction fuel as [|fuel IH]; intros l h Hlen Hf Hb; cbn [sift_up].
  - assert (h = 0) as -> by lia. eapply (heap_but_done _ 0 v v); try lia; [done|].
    by apply list_lookup_insert_eq.
  - destruct (Nat.ltb_spec 0 h) as [Hh|]; cbn [andb].
    + pose proof (parent_lt h Hh).
      assert (Hpv : l !! parent h = Some (at_ v l (parent h))) by (apply at_Some; lia).
      destruct (comp (at_ v l (parent h)) v) eqn:Hc.
      * apply IH; [rewrite length_insert; lia | lia|]. by apply heap_but_step.
      * eapply (heap_but_done _ h (at_ v l (parent h)) v); [done | by apply list_lookup_insert_eq | |].
        { done. }
        { intros _. by rewrite list_lookup_insert_ne by lia. }
    + assert (h = 0) as -> by lia. eapply (heap_but_done _ 0 v v); try lia; [done|].
      by apply list_lookup_insert_eq.
Qed.

(** [push_back] followed by [push_heap] keeps the heap order. *)
Lemma push_heap_is_heap l v : is_heap l -> is_heap (push_heap (l ++ [v])).
Proof.
  intros Hl. unfold push_heap. rewrite last_snoc.
  rewrite length_app. cbn [length]. replace (length l + 1 - 1) with (length l) by lia.
  apply sift_up_heap; [rewrite length_app; cbn; lia | lia|].
  rewrite list_insert_id by (by apply list_lookup_middle).
  split.
  - intros i p w Hi Hne Hp Hw.
    pose proof (lookup_lt_Some _ _ _ Hw) as Hlt. rewrite length_app in Hlt. cbn in Hlt.
    pose proof (parent_lt i Hi).
    rewrite lookup_app_l in Hp, Hw by lia. by apply (Hl i).
  - intros i p w Hi Hh Hpi Hp Hw.
    pose proof (lookup_lt_Some _ _ _ Hw) as Hlt. rewrite length_app in Hlt. cbn in Hlt.
    pose proof (parent_lt i Hi). lia.
Qed.

(** The invariant of [sift_down]: edges away from the hole are ordered, and the
    hole's parent is below the hole's children. *)
Definition heap_hole (l : list A) (h : nat) : Prop :=
  (forall i p v, 0 < i -> i <> h -> parent i <> h ->
     l !! parent i = Some p -> l !! i = Some v -> comp p v = false) /\
  (forall i p v, 0 < i -> 0 < h -> parent i = h ->
     l !! parent h = Some p -> l !! i = Some v -> comp p v = false).

Lemma parent_children i h : 0 < i -> parent i = h -> i = 2 * h + 1 \/ i = 2 * h + 2.
Proof.
  unfold parent. intros Hi <-.
  pose proof (Nat.div_mod_eq (i - 1) 2). pose proof (Nat.mod_upper_bound (i - 1) 2). lia.
Qed.

Lemma parent_of_child h c : c = 2 * h + 1 \/ c = 2 * h + 2 -> parent c = h.
Proof.
  unfold parent. intros [-> | ->].
  - replace (2 * h + 1 - 1) with (h * 2) by lia. by apply Nat.div_mul.
  - replace (2 * h + 2 - 1) with (1 + h * 2) by lia. by rewrite Nat.div_add by lia.
Qed.

(** Filling the hole with its smaller child moves the hole down. *)
Lemma heap_hole_step l h c cv :
  h < length l -> l !! c = Some cv -> 0 < c -> parent c = h ->
  (forall i w, 0 < i -> parent i = h -> l !! i = Some w -> comp cv w = false) ->
  heap_hole l h -> heap_hole (<[h := cv]> l) c.
Proof.
  intros Hlen Hcv Hc Hpc Hmin [H1 H2].
  pose proof (parent_lt c Hc) as Hlt.
  split.
  - intros i p w Hi Hne Hpi Hp Hw.
    destruct (decide (i = h)) as [->|Hih].
    + pose proof (parent_lt h Hi).
      rewrite list_lookup_insert_ne in Hp by lia.
      rewrite list_lookup_insert_eq in Hw by done. simplify_eq.
      by apply (H2 c).
    + rewrite (list_lookup_insert_ne _ h i) in Hw by done.
      destruct (decide (parent i = h)) as [Hph|Hph].
      * rewrite Hph, list_lookup_insert_eq in Hp by done. simplify_eq. by eapply Hmin.
      * rewrite list_lookup_insert_ne in Hp by done. by apply (H1 i).
  - intros i p w Hi _ Hpi Hp Hw.
    rewrite Hpc, list_lookup_insert_eq in Hp by done. simplify_eq.
    pose proof (parent_lt i Hi).
    rewrite list_lookup_insert_ne in Hw by lia.
    apply (H1 i); [done | lia | lia | done | done].
Qed.

Lemma sift_down_heap fuel l h len v l' h' :
  h < len -> len = length l -> len <= fuel + h -> heap_hole l h ->
  sift_down fuel l h len v = (l', h') -> heap_hole l' h' /\ (len - 1) / 2 <= h'.
Proof.
  revert l h. induction fuel as [|fuel IH]; intros l h Hh Hl Hf Hb; cbn [sift_down]; [lia|].
  destruct (Nat.ltb_spec h ((len - 1) / 2)) as [Hlt|]; [|by intros [= <- <-]].
  apply children_of_hole in Hlt.
  set (child := if comp _ _ then _ else _).
  assert (Hch : child = 2 * h + 1 \/ child = 2 * h + 2)
    by (unfold child; destruct (comp _ _); lia).
  apply IH; [lia | by rewrite length_insert | lia|].
  apply heap_hole_step; [lia | apply at_Some; lia | lia | by apply parent_of_child | | done].
  intros i w Hi Hpi Hw. apply (parent_children i h Hi) in Hpi.
  assert (Hw' : w = at_ v l i) by (unfold at_; by rewrite Hw). subst w.
  unfold child. replace (2 * (h + 1) - 1) with (2 * h + 1) by lia.
  replace (2 * (h + 1)) with (2 * h + 2) by lia.
  destruct (comp (at_ v l (2 * h + 2)) (at_ v l (2 * h + 1))) eqn:Ec;
    destruct Hpi as [-> | ->]; auto using comp_irrefl, comp_asym.
Qed.

Lemma heap_hole_leaf l h v :
  h < length l -> (forall i, 0 < i -> parent i = h -> length l <= i) ->
  heap_hole l h -> heap_but (<[h := v]> l) h.
Proof.
  intros Hlen Hleaf [H1 _]. split.
  - intros i p w Hi Hne Hp Hw. rewrite list_lookup_insert_ne in Hw by done.
    assert (parent i <> h).
    { intros Hpi. specialize (Hleaf i Hi Hpi). apply lookup_lt_Some in Hw. lia. }
    rewrite list_lookup_insert_ne in Hp by done. by apply (H1 i).
  - intros i p w Hi _ Hpi _ Hw. specialize (Hleaf i Hi Hpi).
    apply lookup_lt_Some in Hw. rewrite length_insert in Hw. lia.
Qed.

Lemma adjust_heap_is_heap l len v :
  0 < len -> len = length l -> heap_hole l 0 -> is_heap (adjust_heap l len v).
Proof.
  intros H0 Hl Hb. unfold adjust_heap.
  destruct (sift_down len l 0 len v) as [l1 h1] eqn:E.
  pose proof (sift_down_spec _ _ _ _ _ _ _ H0 Hl E) as (Hh & Hlen & _).
  apply sift_down_heap in E as [Hb1 Hge]; [|done | done | lia | done].
  assert (Hhalf : len - 1 < 2 * ((len - 1) / 2) + 2).
  { pose proof (Nat.div_mod_eq (len - 1) 2). pose proof (Nat.mod_upper_bound (len - 1) 2). lia. }
  destruct (Nat.even len && (h1 =? (len - 2) / 2)) eqn:Ee.
  - apply andb_true_iff in Ee as [Hev Heq].
    apply Nat.even_spec in Hev as [k Hk]. apply Nat.eqb_eq in Heq.
    assert (h1 = k - 1) as ->
      by (rewrite Heq, Hk; replace (2 * k - 2) with ((k - 1) * 2) by lia; by rewrite Nat.div_mul).
    set (c := 2 * (k - 1 + 1) - 1).
    apply sift_up_heap; [rewrite length_insert; lia | lia|].
    apply heap_hole_leaf; [rewrite length_insert; lia | |].
    + intros i Hi Hpi. apply parent_children in Hpi; [|done]. rewrite length_insert. lia.
    + apply (heap_hole_step _ (k - 1)); [lia | apply at_Some; lia | lia
        | apply parent_of_child; lia | | done].
      intros i w Hi Hpi Hw. apply parent_children in Hpi; [|done].
      pose proof (lookup_lt_Some _ _ _ Hw).
      assert (i = c) as -> by lia. unfold at_. rewrite Hw. apply comp_irrefl.
  - apply sift_up_heap; [lia | lia|]. apply heap_hole_leaf; [lia | | done].
    intros i Hi Hpi. apply parent_children in Hpi; [|done].
    destruct (decide (2 * h1 + 1 < len)) as [Hlt|]; [|lia]. exfalso.
    assert (Hl2 : len = 2 * h1 + 2) by lia.
    rewrite Hl2 in Ee. apply andb_false_iff in Ee as [Ee | Ee].
    + replace (2 * h1 + 2) with (2 * (h1 + 1)) in Ee by lia. rewrite Nat.even_even in Ee. done.
    + apply Nat.eqb_neq in Ee. apply Ee. replace (2 * h1 + 2 - 2) with (h1 * 2) by lia.
      by rewrite Nat.div_mul.
Qed.

Lemma is_heap_prefix l n : is_heap l -> is_heap (take n l).
Proof.
  intros Hl i p v Hi Hp Hv.
  apply lookup_take_Some in Hp as [Hp _]. apply lookup_take_Some in Hv as [Hv _]. by apply (Hl i).
Qed.

Lemma is_heap_hole0 l : is_heap l -> heap_hole l 0.
Proof. intros Hl. split; [|lia]. intros i p v Hi _ _. by apply Hl. Qed.

Lemma pop_heap_is_heap l : is_heap l -> is_heap (pop_back (pop_heap l)).
Proof.
  intros Hl. destruct l as [|front [|x l]]; [done | intros i ??; by destruct i |].
  unfold pop_heap, pop_back. set (a := adjust_heap _ _ _).
  rewrite length_app. cbn [length]. replace (length a + 1 - 1) with (length a) by lia.
  rewrite take_app_length. apply adjust_heap_is_heap; [cbn; lia | |].
  - rewrite length_take. cbn. lia.
  - by apply is_heap_hole0, is_heap_prefix.
Qed.

Lemma front_is_min l front : is_heap l -> head l = Some front ->
  forall x, x ∈ l -> comp front x = false.
Proof.
  intros Hl Hf x [i Hi]%list_elem_of_lookup.
  assert (H0 : l !! 0 = Some front) by (by destruct l).
  revert x Hi. induction (lt_wf i) as [i _ IH]; intros x Hi.
  destruct (decide (i = 0)) as [->|Hne]; [simplify_eq; apply comp_irrefl|].
  pose proof (parent_lt i ltac:(lia)).
  destruct (lookup_lt_is_Some_2 l (parent i)) as [p Hp].
  { apply lookup_lt_Some in Hi. lia. }
  apply comp_negtrans with p; [by apply (IH (parent i))|]. apply (Hl i); [lia | done | done].
Qed.
End Heap.
