(* ===== verification/Double.v ===== *)
(** * Floating-point numbers

    The C++ types [double] and [float] as IEEE binary64 and binary32, with the operations the
    sources use. *)

From Stdlib Require Import SpecFloat.
From S2P Require Import Prelude.
Local Open Scope Z_scope.

Abbreviation double := spec_float.
Definition double_of_int (z : Z) : double := binary_normalize 53 1024 z 0 false.
Definition double_add : double -> double -> double := SFadd 53 1024.
Definition double_sub : double -> double -> double := SFsub 53 1024.
Definition double_mul : double -> double -> double := SFmul 53 1024.
Definition double_div : double -> double -> double := SFdiv 53 1024.
Definition double_ltb : double -> double -> bool := SFltb.

(** [pow(10.0, p)] for an [int p] *)
Definition pow10 (p : Z) : double :=
  if 0 <=? p then double_of_int (10 ^ p) else double_div (double_of_int 1) (double_of_int (10 ^ (- p))).

(** The conversion [(int) x] truncates; out of the range of [int] it is undefined. *)
Definition int_of_double (x : double) : result Z :=
  match x with
  | S754_zero _ => Ok 0
  | S754_finite s m e =>
      let a := Z.shiftl (Zpos m) e in
      if a <? 2 ^ 31 then Ok (if s : bool then - a else a) else Err EIndex
  | _ => Err EIndex
  end.

(** ** Single precision *)

Abbreviation float := spec_float.
Definition float_of_int (z : Z) : float := binary_normalize 24 128 z 0 false.
Definition float_mul : float -> float -> float := SFmul 24 128.
Definition float_leb : float -> float -> bool := SFleb.

(** The conversions round, and give the result the representation of its type. *)
Definition float_of_double (x : double) : float :=
  match x with S754_finite s m e => binary_round 24 128 s m e | _ => x end.
Definition double_of_float (x : float) : double :=
  match x with S754_finite s m e => binary_round 53 1024 s m e | _ => x end.

(** ** Rounding within the unit interval

    Products, differences from one and conversions of floating-point numbers between 0 and 1
    stay between 0 and 1, whatever the rounding does: 0 and 1 are representable. *)

(** [m * 2 ^ e] is at most 1. *)
Definition unit_scaled (m e : Z) : Prop := 0 <= m /\ e <= 0 /\ m <= 2 ^ (- e).

(** The value of [x] lies between 0 and 1. *)
Definition in_unit (x : spec_float) : Prop :=
  match x with
  | S754_zero _ => True
  | S754_finite false m e => unit_scaled (Zpos m) e
  | _ => False
  end.

Lemma digits2_bound m : 2 ^ (Zpos (digits2_pos m) - 1) <= Zpos m.
Proof.
  induction m as [m IH|m IH|]; [| |done];
    cbn [digits2_pos]; rewrite Pos2Z.inj_succ;
    replace (Z.succ (Zpos (digits2_pos m)) - 1) with (Z.succ (Zpos (digits2_pos m) - 1)) by lia;
    rewrite Z.pow_succ_r by lia; lia.
Qed.

Lemma unit_digits m e : unit_scaled m e -> Zdigits2 m + e <= 1.
Proof.
  intros (H0 & He & Hm). destruct m as [|m|m]; cbn [Zdigits2]; try lia.
  pose proof (digits2_bound m) as Hd.
  assert (Zpos (digits2_pos m) - 1 <= - e); [|lia]. apply (Z.pow_le_mono_r_iff 2); lia.
Qed.

(** ** Shifting right *)

(** [mrs] holds the quotient of [m0] by [2 ^ k] and whether something was shifted out. *)
Definition shifted (m0 k : Z) (mrs : shr_record) : Prop :=
  0 <= shr_m mrs /\ shr_m mrs * 2 ^ k <= m0 /\ (shr_r mrs || shr_s mrs = true -> shr_m mrs * 2 ^ k < m0).

Lemma shr_1_shifted m0 k mrs : 0 <= k -> shifted m0 k mrs -> shifted m0 (k + 1) (shr_1 mrs).
Proof.
  intros Hk (H0 & H1 & H2). unfold shifted. rewrite (Z.pow_add_r 2 k 1), Z.pow_1_r by lia.
  assert (0 < 2 ^ k) by (apply Z.pow_pos_nonneg; lia).
  destruct mrs as [[|[p|p|]|p] [] []]; cbn in *; try lia; split_and!; try lia; intros; try done;
    try (specialize (H2 eq_refl); lia); nia.
Qed.

Lemma iter_pos_shifted m0 p k mrs : 0 <= k -> shifted m0 k mrs -> shifted m0 (k + Zpos p) (SpecFloat.iter_pos shr_1 p mrs).
Proof.
  revert k mrs. induction p as [p IH|p IH|]; intros k mrs Hk H; cbn [SpecFloat.iter_pos].
  - replace (k + Zpos p~1) with (k + 1 + Zpos p + Zpos p) by lia. do 2 (apply IH; [lia|]). by apply shr_1_shifted.
  - replace (k + Zpos p~0) with (k + Zpos p + Zpos p) by lia. by do 2 (apply IH; [lia|]).
  - by apply shr_1_shifted.
Qed.

Section Format.
Context (prec emax : Z) (Hprec : 1 <= prec) (Hemin : emin prec emax <= 0).

Lemma shr_fexp_unit m e : unit_scaled m e ->
  let '(mrs, e') := shr_fexp prec emax m e loc_Exact in
  unit_scaled (shr_m mrs) e' /\ unit_scaled (round_nearest_even (shr_m mrs) (loc_of_shr_record mrs)) e'.
Proof.
  intros H. pose proof (unit_digits m e H) as Hd. unfold shr_fexp, shr.
  destruct (fexp prec emax (Zdigits2 m + e) - e) as [|p|p] eqn:Hn; try by split.
  assert (He : e + Zpos p <= 0) by (unfold fexp in Hn; lia).
  destruct H as (H0 & He0 & Hm).
  destruct (iter_pos_shifted m p 0 (shr_record_of_loc m loc_Exact)) as (Q0 & Q1 & Q2);
    [lia | split_and!; cbn; [lia | lia | done] |].
  set (mrs := SpecFloat.iter_pos _ _ _) in *. rewrite Z.add_0_l in Q1, Q2.
  replace (- e) with (- (e + Zpos p) + Zpos p) in Hm by lia. rewrite Z.pow_add_r in Hm by lia.
  set (top := 2 ^ (- (e + Zpos p))) in *. assert (0 < 2 ^ Zpos p) by (apply Z.pow_pos_nonneg; lia).
  assert (Hle : shr_m mrs <= top) by nia.
  assert (Hlt : shr_r mrs || shr_s mrs = true -> shr_m mrs + 1 <= top) by (intros Hx; specialize (Q2 Hx); nia).
  unfold unit_scaled. fold top. destruct mrs as [q [] []]; cbn in *; try specialize (Hlt eq_refl);
    try destruct (Z.even q); lia.
Qed.

Lemma binary_round_aux_unit m e : emax - prec >= 0 -> unit_scaled m e -> in_unit (binary_round_aux prec emax false m e loc_Exact).
Proof.
  intros Hmax H. unfold binary_round_aux. pose proof (shr_fexp_unit m e H) as H1.
  destruct (shr_fexp prec emax m e loc_Exact) as [mrs e'].
  pose proof (shr_fexp_unit _ _ (proj2 H1)) as H2.
  destruct (shr_fexp _ _ _ e' _) as [mrs' e'']. destruct H2 as [H2 _].
  destruct (shr_m mrs') as [|q|q]; [done| |destruct H2; lia].
  replace (e'' <=? emax - prec) with true by (destruct H2; symmetry; lia). exact H2.
Qed.
End Format.

(** ** Shifting left *)

Lemma iter_xO m d : Zpos (Pos.iter xO m d) = Zpos m * 2 ^ Zpos d.
Proof.
  induction d as [|d IH] using Pos.peano_ind.
  - cbn. lia.
  - rewrite Pos.iter_succ, Pos2Z.inj_xO, IH, Pos2Z.inj_succ, Z.pow_succ_r by lia. lia.
Qed.

Lemma shl_align_unit m e e' mz ez : shl_align m e e' = (mz, ez) -> unit_scaled (Zpos m) e -> unit_scaled (Zpos mz) ez.
Proof.
  unfold shl_align. intros H (_ & He & Hm). destruct (e' - e) as [|d|d] eqn:Hd; injection H as <- <-; try done.
  replace e' with (e - Zpos d) by lia. rewrite iter_xO. split_and!; [lia | lia |].
  replace (- (e - Zpos d)) with (- e + Zpos d) by lia. rewrite Z.pow_add_r by lia. nia.
Qed.

(** Aligning to a smaller exponent keeps the value. *)
Lemma shl_align_value m e e' : e' <= e -> Zpos (fst (shl_align m e e')) = Zpos m * 2 ^ (e - e').
Proof.
  intros He. unfold shl_align. destruct (e' - e) as [|d|d] eqn:Hd; cbn [fst].
  - replace (e - e') with 0 by lia. lia.
  - lia.
  - rewrite iter_xO. by replace (e - e') with (Zpos d) by lia.
Qed.

Section Operations.
Context (prec emax : Z) (Hprec : 1 <= prec) (Hemin : emin prec emax <= 0) (Hmax : emax - prec >= 0).

Lemma binary_round_unit m e : unit_scaled (Zpos m) e -> in_unit (binary_round prec emax false m e).
Proof.
  intros H. unfold binary_round. destruct (shl_align _ _ _) as [mz ez] eqn:Ha.
  apply binary_round_aux_unit; [done..|]. exact (shl_align_unit _ _ _ _ _ Ha H).
Qed.

(** The exact product of two numbers is at most 1. *)
Definition product_unit (x y : spec_float) : Prop :=
  match x, y with
  | S754_finite false m1 e1, S754_finite false m2 e2 => unit_scaled (Zpos m1 * Zpos m2) (e1 + e2)
  | S754_zero _, (S754_zero _ | S754_finite false _ _) | S754_finite false _ _, S754_zero _ => True
  | _, _ => False
  end.

Lemma SFmul_unit x y : product_unit x y -> in_unit (SFmul prec emax x y).
Proof.
  destruct x as [| | |[] m1 e1], y as [| | |[] m2 e2]; cbn [product_unit SFmul in_unit xorb]; try done.
  apply binary_round_aux_unit; done.
Qed.

Lemma one_minus_unit x one : in_unit x -> (exists k, one = S754_finite false k (- Z.log2 (Zpos k)) /\ Zpos k = 2 ^ Z.log2 (Zpos k)) ->
  in_unit (SFsub prec emax one x).
Proof.
  intros Hx (k & -> & Hk). set (l := Z.log2 (Zpos k)) in *. assert (0 <= l) by apply Z.log2_nonneg.
  destruct x as [| | |[] m e]; try done; cbn [SFsub].
  - split_and!; [lia | lia |]. rewrite Z.opp_involutive. lia.
  - destruct Hx as (_ & He & Hm). cbn [cond_Zopp].
    rewrite !shl_align_value by lia. set (ez := Z.min (- l) e). rewrite Hk, <- Z.pow_add_r by lia.
    replace (l + (- l - ez)) with (- ez) by lia.
    assert (Hle : Zpos m * 2 ^ (e - ez) <= 2 ^ (- ez)).
    { replace (- ez) with (- e + (e - ez)) by lia. rewrite Z.pow_add_r by lia.
      apply Z.mul_le_mono_nonneg_r; [apply Z.pow_nonneg; lia | done]. }
    assert (0 < Zpos m * 2 ^ (e - ez)) by (apply Z.mul_pos_pos; [lia | apply Z.pow_pos_nonneg; lia]).
    destruct (2 ^ (- ez) - Zpos m * 2 ^ (e - ez)) as [|d|d] eqn:Hd; cbn [binary_normalize]; [done | | lia].
    apply binary_round_unit. split_and!; lia.
Qed.
End Operations.

Lemma in_unit_product x y : in_unit x -> in_unit y -> product_unit x y.
Proof.
  destruct x as [| | |[] m1 e1], y as [| | |[] m2 e2]; cbn; try done.
  intros (H1 & H2 & H3) (H4 & H5 & H6). split_and!; [lia | lia |].
  rewrite Z.opp_add_distr, Z.pow_add_r by lia. by apply Z.mul_le_mono_nonneg.
Qed.

(** ** The operations of the sources *)

Lemma float_mul_unit x y : product_unit x y -> in_unit (float_mul x y).
Proof. by apply SFmul_unit. Qed.

Lemma double_mul_unit x y : in_unit x -> in_unit y -> in_unit (double_mul x y).
Proof. intros Hx Hy. apply SFmul_unit; [done..|]. by apply in_unit_product. Qed.

Lemma double_one_minus_unit x : in_unit x -> in_unit (double_sub (double_of_int 1) x).
Proof. intros Hx. apply one_minus_unit; [done..|]. by exists 4503599627370496%positive. Qed.

Lemma float_of_double_unit x : in_unit x -> in_unit (float_of_double x).
Proof. destruct x as [| | |[] m e]; try done. by apply binary_round_unit. Qed.

Lemma double_of_float_unit x : in_unit x -> in_unit (double_of_float x).
Proof. destruct x as [| | |[] m e]; try done. by apply binary_round_unit. Qed.
