(* ===== verification/RubySet.v ===== *)
(** * Ruby's [Set] (mem/ruby/common/Set.hh)

    A set of at most 64 node ids kept as a [std::bitset<64>]; the bits are a [Z]
    below [2^64].  [bitset::set]/[reset]/[test] throw past position 63. *)

From S2P Require Import Prelude.
Local Open Scope Z_scope.

Definition NUMBER_BITS_PER_SET : Z := 64.

Record RSet := mkRSet { m_nSize : Z; bits : Z }.

#[export] Instance RSet_eq_dec : EqDecision RSet.
Proof. solve_decision. Defined.

Definition Set_new (sz : Z) : result RSet :=
  if NUMBER_BITS_PER_SET <? sz then Err EFatal else Ok (mkRSet sz 0).

Definition bit_ok (index : Z) : bool := (0 <=? index) && (index <? NUMBER_BITS_PER_SET).

Definition add (index : Z) (s : RSet) : result RSet :=
  if bit_ok index then Ok (mkRSet (m_nSize s) (Z.setbit (bits s) index)) else Err EThrow.

Definition addSet (s obj : RSet) : result RSet :=
  assert_ (m_nSize s =? m_nSize obj) ;;
  Ok (mkRSet (m_nSize s) (Z.lor (bits s) (bits obj))).

Definition remove (index : Z) (s : RSet) : result RSet :=
  if bit_ok index then Ok (mkRSet (m_nSize s) (Z.clearbit (bits s) index)) else Err EThrow.

Definition removeSet (s obj : RSet) : result RSet :=
  assert_ (m_nSize s =? m_nSize obj) ;;
  Ok (mkRSet (m_nSize s) (Z.ldiff (bits s) (bits obj))).

Definition clear (s : RSet) : RSet := mkRSet (m_nSize s) 0.

(** [bits.set()] sets all 64 bits, then the bits from [m_nSize] on are reset. *)
Definition broadcast (s : RSet) : result RSet :=
  b ← for_range (Z.to_nat (NUMBER_BITS_PER_SET - m_nSize s)) (m_nSize s)
        (fun j b => if bit_ok j then Ok (Z.clearbit b j) else Err EThrow)
        (Z.ones NUMBER_BITS_PER_SET);
  Ok (mkRSet (m_nSize s) b).

Definition popcount (b : Z) : Z :=
  Z.of_nat (length (filter (fun i : nat => Z.testbit b (Z.of_nat i)) (seq 0 64))).

Definition count (s : RSet) : Z := popcount (bits s).

Definition isEqual (s obj : RSet) : result bool :=
  assert_ (m_nSize s =? m_nSize obj) ;; Ok (bits s =? bits obj).

Definition OR (s obj : RSet) : result RSet :=
  assert_ (m_nSize s =? m_nSize obj) ;;
  r ← Set_new (m_nSize s);
  Ok (mkRSet (m_nSize r) (Z.lor (bits s) (bits obj))).

Definition AND (s obj : RSet) : result RSet :=
  assert_ (m_nSize s =? m_nSize obj) ;;
  r ← Set_new (m_nSize s);
  Ok (mkRSet (m_nSize r) (Z.land (bits s) (bits obj))).

Definition intersectionIsEmpty (s obj : RSet) : bool := Z.land (bits s) (bits obj) =? 0.

Definition isSuperset (s test : RSet) : result bool :=
  assert_ (m_nSize s =? m_nSize test) ;;
  Ok (Z.lor (bits s) (bits test) =? bits s).

Definition isSubset (s test : RSet) : result bool := isSuperset test s.

Definition isElement (s : RSet) (element : Z) : result bool :=
  if bit_ok element then Ok (Z.testbit (bits s) element) else Err EThrow.

Definition isBroadcast (s : RSet) : bool := count s =? m_nSize s.

Definition isEmpty (s : RSet) : bool := bits s =? 0.

Definition smallestElement (s : RSet) : result Z :=
  c ← for_ctl (Z.to_nat (m_nSize s)) 0
        (fun i (_ : unit) => b ← isElement s i; Ok (if b : bool then Brk i else Cont tt)) tt;
  match c with Brk i => Ok i | Cont _ => Err EPanic end.

Definition elementAt (s : RSet) (index : Z) : result bool :=
  if bit_ok index then Ok (Z.testbit (bits s) index) else Err EIndex.

Definition setSize (sz : Z) (s : RSet) : result RSet :=
  if NUMBER_BITS_PER_SET <? sz then Err EFatal else Ok (mkRSet sz 0).

(** ** The set an object denotes *)

(** Well formed: at most 64 bits in use, no bit set at or above [m_nSize]. *)
Definition wf (s : RSet) : Prop :=
  0 <= m_nSize s <= NUMBER_BITS_PER_SET /\ 0 <= bits s < 2 ^ m_nSize s.

Definition member (s : RSet) (i : Z) : Prop := Z.testbit (bits s) i = true.

Lemma wf_member_range s i : wf s -> member s i -> 0 <= i < m_nSize s.
Proof.
  intros [[Hn _] [Hb0 Hb]] Hm. unfold member in Hm.
  destruct (Z.ltb_spec i 0); [by rewrite Z.testbit_neg_r in Hm by lia|].
  split; [done|]. destruct (Z.ltb_spec i (m_nSize s)); [done|].
  destruct (Z.eqb_spec (bits s) 0) as [Hz|Hne]; [by rewrite Hz, Z.bits_0 in Hm|].
  rewrite Z.bits_above_log2 in Hm; [done | done|].
  apply Z.lt_le_trans with (m_nSize s); [|done]. apply Z.log2_lt_pow2; lia.
Qed.

Lemma wf_intro s :
  0 <= m_nSize s <= NUMBER_BITS_PER_SET -> 0 <= bits s ->
  (forall i, member s i -> i < m_nSize s) -> wf s.
Proof.
  intros Hn Hb Hm. split; [done|]. split; [done|].
  destruct (Z.eqb_spec (bits s) 0) as [->|Hne]; [apply Z.pow_pos_nonneg; lia|].
  apply Z.log2_lt_pow2; [lia|]. apply Hm. unfold member. apply Z.bit_log2. lia.
Qed.

Lemma intersectionIsEmpty_spec s obj :
  intersectionIsEmpty s obj = false <-> exists i, member s i /\ member obj i.
Proof.
  unfold intersectionIsEmpty, member. rewrite Z.eqb_neq. split.
  - intros Hne. destruct (decide (0 <= Z.land (bits s) (bits obj))) as [Hp|Hp].
    + exists (Z.log2 (Z.land (bits s) (bits obj))).
      pose proof (Z.bit_log2 (Z.land (bits s) (bits obj)) ltac:(lia)) as Hb.
      rewrite Z.land_spec in Hb. by apply andb_true_iff in Hb.
    + assert (Hneg : Z.land (bits s) (bits obj) < 0) by lia.
      apply Z.land_neg in Hneg as [H1 H2].
      apply Z.bits_iff_neg_ex in H1 as [k1 H1]. apply Z.bits_iff_neg_ex in H2 as [k2 H2].
      exists (Z.max k1 k2 + 1). split; [apply H1 | apply H2]; lia.
  - intros (i & H1 & H2) H0.
    assert (H : Z.testbit (Z.land (bits s) (bits obj)) i = true) by (by rewrite Z.land_spec, H1, H2).
    by rewrite H0, Z.bits_0 in H.
Qed.

Lemma add_member index s s' i :
  add index s = Ok s' -> member s' i <-> i = index \/ member s i.
Proof.
  unfold add, bit_ok, member. destruct (_ && _) eqn:E; [|done]. intros [= <-]. cbn.
  apply andb_true_iff in E as [E1 E2]. rewrite Z.setbit_eqb by lia.
  destruct (Z.eqb_spec index i); cbn; naive_solver.
Qed.

Lemma removeSet_member s obj s' i :
  removeSet s obj = Ok s' -> member s' i <-> member s i /\ ~ member obj i.
Proof.
  unfold removeSet, member. intros H. inv_ok. cbn. rewrite Z.ldiff_spec.
  destruct (Z.testbit (bits s) i), (Z.testbit (bits obj) i); cbn; naive_solver.
Qed.

Lemma add_wf index s s' : wf s -> index < m_nSize s -> add index s = Ok s' -> wf s'.
Proof.
  intros Hw Hlt Ha. pose proof (add_member index s s' ) as Hm.
  pose proof Hw as [[Hn0 Hn] [Hb _]].
  apply wf_intro.
  - unfold add in Ha. destruct (bit_ok index); [|done]. simplify_eq. done.
  - unfold add in Ha. destruct (bit_ok index) eqn:E; [|done]. simplify_eq. cbn.
    rewrite Z.setbit_spec'. apply Z.lor_nonneg. split; [done|].
    apply Z.pow_nonneg. lia.
  - intros i Hi. assert (Hsz : m_nSize s' = m_nSize s).
    { unfold add in Ha. destruct (bit_ok index); [|done]. by simplify_eq. }
    apply Hm in Hi; [|done]. rewrite Hsz. destruct Hi as [->|Hi]; [done|].
    by apply wf_member_range.
Qed.

Lemma removeSet_wf s obj s' : wf s -> removeSet s obj = Ok s' -> wf s'.
Proof.
  intros Hw Hr. pose proof (fun i => removeSet_member s obj s' i Hr) as Hm.
  pose proof Hw as [[Hn0 Hn] [Hb _]].
  unfold removeSet in Hr. inv_ok.
  apply wf_intro; cbn; [done | apply Z.ldiff_nonneg; by left |].
  intros i Hi%Hm. apply wf_member_range; [done | apply Hi].
Qed.
