(* ===== verification/NetDest.v ===== *)
(** * [NetDest] (mem/ruby/common/NetDest.cc, NetDest.hh)

    A network destination is one [Set] of node numbers per machine type.  The
    machine types and their numbering are generated by SLICC from the protocol, so
    they enter as the class [MachineTypes]; [MachineTypesOk] states how the
    generated numbering behaves (types are consecutive, ids are dense). *)

From S2P Require Import Prelude RubySet.
Local Open Scope Z_scope.

Class MachineTypes := {
  MachineType_NUM : Z;
  MachineType_base_number : Z -> Z;
  MachineType_base_count : Z -> Z;
  MachineType_base_level : Z -> Z;
  MachineType_from_base_level : Z -> Z
}.

Class MachineTypesOk (MT : MachineTypes) : Prop := {
  MachineType_NUM_nonneg : 0 <= MachineType_NUM;
  MachineType_level_id : forall m, MachineType_base_level m = m;
  MachineType_count_range : forall m, 0 <= MachineType_base_count m <= NUMBER_BITS_PER_SET;
  MachineType_base_first : MachineType_base_number 0 = 0;
  MachineType_base_next : forall m, 0 <= m ->
    MachineType_base_number (m + 1) = MachineType_base_number m + MachineType_base_count m
}.

Record MachineID := mkMachineID { mach_type : Z; mach_num : Z }.

Record NetDest := mkNetDest { m_bits : list RSet }.

#[export] Instance NetDest_eq_dec : EqDecision NetDest.
Proof. solve_decision. Defined.

(** Loops over one or two bit vectors. *)
Fixpoint map2M (f : RSet -> RSet -> result RSet) (l1 l2 : list RSet) : result (list RSet) :=
  match l1, l2 with
  | a :: l1', b :: l2' => c ← f a b; r ← map2M f l1' l2'; Ok (c :: r)
  | [], _ => Ok []
  | _, [] => Err EIndex
  end.

(** [for (i...) if (!f(i)) return false; return true;] *)
Fixpoint all2M (f : RSet -> RSet -> result bool) (l1 l2 : list RSet) : result bool :=
  match l1, l2 with
  | a :: l1', b :: l2' => c ← f a b; if c : bool then all2M f l1' l2' else Ok false
  | [], _ => Ok true
  | _, [] => Err EIndex
  end.

Section NetDestOps.
Context {MT : MachineTypes}.

(** Default constructor: [resize()] on an empty vector. *)
Definition resize : result NetDest :=
  assert_ (MachineType_base_level MachineType_NUM =? MachineType_NUM) ;;
  l ← for_range (Z.to_nat (MachineType_base_level MachineType_NUM)) 0
        (fun i l => s ← setSize (MachineType_base_count i) (mkRSet 0 0); Ok (l ++ [s])) [];
  Ok (mkNetDest l).

Definition vecIndex (m : MachineID) (nd : NetDest) : result Z :=
  let vec_index := MachineType_base_level (mach_type m) in
  assert_ (vec_index <? vsize (m_bits nd)) ;; Ok vec_index.

Definition bitIndex (index : Z) : Z := index.

Definition add (newElement : MachineID) (nd : NetDest) : result NetDest :=
  v ← vecIndex newElement nd;
  s ← vec_get (m_bits nd) v;
  assert_ (bitIndex (mach_num newElement) <? m_nSize s) ;;
  s' ← RubySet.add (bitIndex (mach_num newElement)) s;
  l ← vec_set (m_bits nd) v s';
  Ok (mkNetDest l).

Definition addNetDest (nd other : NetDest) : result NetDest :=
  assert_ (vsize (m_bits nd) =? vsize (m_bits other)) ;;
  l ← map2M addSet (m_bits nd) (m_bits other); Ok (mkNetDest l).

Definition setNetDest (machine : Z) (s : RSet) (nd : NetDest) : result NetDest :=
  assert_ (MachineType_base_level (machine + 1) - MachineType_base_level machine =? 1) ;;
  l ← vec_set (m_bits nd) (MachineType_base_level machine) s; Ok (mkNetDest l).

Definition remove (oldElement : MachineID) (nd : NetDest) : result NetDest :=
  v ← vecIndex oldElement nd;
  l ← vec_update (m_bits nd) v (RubySet.remove (bitIndex (mach_num oldElement)));
  Ok (mkNetDest l).

Definition removeNetDest (nd other : NetDest) : result NetDest :=
  assert_ (vsize (m_bits nd) =? vsize (m_bits other)) ;;
  l ← map2M removeSet (m_bits nd) (m_bits other); Ok (mkNetDest l).

Definition clear (nd : NetDest) : NetDest := mkNetDest (RubySet.clear <$> m_bits nd).

Definition broadcast_type (machineType : Z) (nd : NetDest) : result NetDest :=
  for_range (Z.to_nat (MachineType_base_count machineType)) 0
    (fun i nd => add (mkMachineID machineType i) nd) nd.

Definition broadcast (nd : NetDest) : result NetDest :=
  for_range (Z.to_nat MachineType_NUM) 0 (fun machine nd => broadcast_type machine nd) nd.

(** The inner loop of [getAllDest] for machine type [i]. *)
Definition dests_of (i : Z) (s : RSet) : result (list Z) :=
  for_range (Z.to_nat (m_nSize s)) 0
    (fun j dest =>
       b ← isElement s j;
       Ok (if b : bool then dest ++ [u32 (MachineType_base_number i + j)] else dest)) [].

Fixpoint getAllDest_from (i : Z) (l : list RSet) : result (list Z) :=
  match l with
  | [] => Ok []
  | s :: l' => here ← dests_of i s; rest ← getAllDest_from (i + 1) l'; Ok (here ++ rest)
  end.

Definition getAllDest (nd : NetDest) : result (list Z) := getAllDest_from 0 (m_bits nd).

Definition count (nd : NetDest) : Z := foldr (fun s n => RubySet.count s + n) 0 (m_bits nd).

Definition isBroadcast (nd : NetDest) : bool := forallb RubySet.isBroadcast (m_bits nd).

Definition isEmpty (nd : NetDest) : bool := forallb RubySet.isEmpty (m_bits nd).

(** [result.m_bits[i] = ...] for every [i] of [l]. *)
Definition store_prefix (l : list RSet) (r : NetDest) : result NetDest :=
  if vsize l <=? vsize (m_bits r) then Ok (mkNetDest (l ++ drop (length l) (m_bits r)))
  else Err EIndex.

Definition OR (nd other : NetDest) : result NetDest :=
  assert_ (vsize (m_bits nd) =? vsize (m_bits other)) ;;
  r ← resize;
  l ← map2M RubySet.OR (m_bits nd) (m_bits other);
  store_prefix l r.

Definition AND (nd other : NetDest) : result NetDest :=
  assert_ (vsize (m_bits nd) =? vsize (m_bits other)) ;;
  r ← resize;
  l ← map2M RubySet.AND (m_bits nd) (m_bits other);
  store_prefix l r.

Definition intersectionIsNotEmpty (nd other : NetDest) : result bool :=
  assert_ (vsize (m_bits nd) =? vsize (m_bits other)) ;;
  b ← all2M (fun a b => Ok (intersectionIsEmpty a b)) (m_bits nd) (m_bits other);
  Ok (negb b).

Definition isSuperset (nd test : NetDest) : result bool :=
  assert_ (vsize (m_bits nd) =? vsize (m_bits test)) ;;
  all2M RubySet.isSuperset (m_bits nd) (m_bits test).

Definition isElement (nd : NetDest) (element : MachineID) : result bool :=
  v ← vecIndex element nd;
  s ← vec_get (m_bits nd) v;
  RubySet.isElement s (bitIndex (mach_num element)).

Definition isSubset (nd test : NetDest) : result bool := isSuperset test nd.

Definition elementAt (index : MachineID) (nd : NetDest) : result bool :=
  v ← vecIndex index nd;
  s ← vec_get (m_bits nd) v;
  RubySet.elementAt s (bitIndex (mach_num index)).

(** The two nested loops over machine types and nodes. *)
Definition smallest_of (s : RSet) : result (ctl unit Z) :=
  for_ctl (Z.to_nat (m_nSize s)) 0 (fun j _ => b ← RubySet.isElement s j; Ok (if b : bool then Brk j else Cont tt)) tt.

Definition smallestElement (nd : NetDest) : result MachineID :=
  assert_ (0 <? count nd) ;;
  r ← for_ctl (length (m_bits nd)) 0 (fun i _ =>
        s ← vec_get (m_bits nd) i;
        r ← smallest_of s;
        Ok (match r with Brk j => Brk (mkMachineID (MachineType_from_base_level i) j) | Cont _ => Cont tt end)) tt;
  match r with Brk mach => Ok mach | Cont _ => Err EPanic end.

Definition smallestElement_type (machine : Z) (nd : NetDest) : result MachineID :=
  s ← vec_get (m_bits nd) (MachineType_base_level machine);
  r ← smallest_of s;
  match r with Brk j => Ok (mkMachineID machine j) | Cont _ => Err EPanic end.

Definition isEqual (nd n : NetDest) : result bool :=
  assert_ (vsize (m_bits nd) =? vsize (m_bits n)) ;;
  all2M RubySet.isEqual (m_bits nd) (m_bits n).
End NetDestOps.

(** ** The destinations an object denotes *)

Definition wf (nd : NetDest) : Prop := Forall RubySet.wf (m_bits nd).

(** Node [j] of machine type [m] is a destination. *)
Definition nd_member (nd : NetDest) (m j : Z) : Prop :=
  exists s, vec_get (m_bits nd) m = Ok s /\ member s j.

Lemma map2M_lookup f l1 l2 l i a b :
  map2M f l1 l2 = Ok l -> l1 !! i = Some a -> l2 !! i = Some b ->
  exists c, l !! i = Some c /\ f a b = Ok c.
Proof.
  revert l2 l i. induction l1 as [|x l1 IH]; intros [|y l2] l i H Ha Hb; cbn in *; try done.
  inv_ok. destruct i as [|i]; cbn in *; simplify_eq; eauto.
Qed.

Lemma map2M_length f l1 l2 l : map2M f l1 l2 = Ok l -> length l = length l1.
Proof.
  revert l2 l. induction l1 as [|x l1 IH]; intros [|y l2] l H; cbn in *; inv_ok; cbn; eauto.
Qed.

Lemma map2M_total f l1 l2 :
  length l1 = length l2 ->
  (forall i a b, l1 !! i = Some a -> l2 !! i = Some b -> exists c, f a b = Ok c) ->
  exists l, map2M f l1 l2 = Ok l.
Proof.
  revert l2. induction l1 as [|x l1 IH]; intros [|y l2] Hl Hf; cbn in *; try done; [by eexists|].
  destruct (Hf 0%nat x y) as [c Hc]; [done | done|]. rewrite Hc. cbn.
  destruct (IH l2) as [l ->]; [lia | intros i a b; apply (Hf (S i)) | by eexists].
Qed.

Lemma same_vsize {A B} (l1 : list A) (l2 : list B) : (vsize l1 =? vsize l2) = true <-> length l1 = length l2.
Proof. unfold vsize. rewrite Z.eqb_eq. lia. Qed.

Lemma same_length_lookup {A B} (l1 : list A) (l2 : list B) i a :
  length l1 = length l2 -> l1 !! i = Some a -> exists b, l2 !! i = Some b.
Proof. intros Hl Ha. apply lookup_lt_is_Some. rewrite <- Hl. by eapply lookup_lt_Some. Qed.

Lemma removeNetDest_member nd o nd' m j :
  removeNetDest nd o = Ok nd' ->
  nd_member nd' m j <-> nd_member nd m j /\ ~ nd_member o m j.
Proof.
  unfold removeNetDest. intros H. inv_ok. rename select (map2M _ _ _ = _) into H2.
  rename select ((_ =? _) = true) into Hs. apply same_vsize in Hs.
  pose proof (map2M_length _ _ _ _ H2) as Hlen. unfold nd_member. cbn. split.
  - intros (s & [H0 Hs']%vec_get_Ok & Hm).
    destruct (same_length_lookup _ (m_bits nd) _ _ Hlen Hs') as [a Ha].
    destruct (same_length_lookup _ (m_bits o) _ _ Hs Ha) as [b Hb].
    destruct (map2M_lookup _ _ _ _ _ _ _ H2 Ha Hb) as (c & Hc & Hr). simplify_eq.
    rewrite (removeSet_member _ _ _ j Hr) in Hm. destruct Hm as [Hma Hmb]. split.
    + exists a. rewrite vec_get_Ok. done.
    + intros (b' & [_ Hb']%vec_get_Ok & Hm'). simplify_eq. done.
  - intros [(a & [H0 Ha]%vec_get_Ok & Hm) Hn].
    destruct (same_length_lookup _ (m_bits o) _ _ Hs Ha) as [b Hb].
    destruct (map2M_lookup _ _ _ _ _ _ _ H2 Ha Hb) as (c & Hc & Hr).
    exists c. rewrite vec_get_Ok. split; [done|]. rewrite (removeSet_member _ _ _ j Hr).
    split; [done|]. intros Hmb. apply Hn. exists b. rewrite vec_get_Ok. done.
Qed.

Lemma all2M_empty_spec l1 l2 :
  length l1 = length l2 ->
  exists b, all2M (fun a b => Ok (intersectionIsEmpty a b)) l1 l2 = Ok b /\
    (b = false <-> exists i s t, l1 !! i = Some s /\ l2 !! i = Some t /\
                   intersectionIsEmpty s t = false).
Proof.
  revert l2. induction l1 as [|x l1 IH]; intros [|y l2] Hl; cbn in *; try done.
  - exists true. split; [done|]. split; [done|]. intros (i & s & t & H & _). done.
  - destruct (intersectionIsEmpty x y) eqn:E.
    + destruct (IH l2) as (b & Hb & Hspec); [lia|]. exists b. split; [done|]. rewrite Hspec. split.
      * intros (i & s & t & H). by exists (S i), s, t.
      * intros ([|i] & s & t & Hs & Ht & He); cbn in *; [congruence | by exists i, s, t].
    + exists false. split; [done|]. split; [|done]. intros _. by exists 0%nat, x, y.
Qed.

(** [intersectionIsNotEmpty] holds exactly when the two destinations share a node. *)
Lemma intersectionIsNotEmpty_spec nd o :
  length (m_bits nd) = length (m_bits o) ->
  exists b, intersectionIsNotEmpty nd o = Ok b /\
    (b = true <-> exists m j, nd_member nd m j /\ nd_member o m j).
Proof.
  intros Hl. unfold intersectionIsNotEmpty.
  destruct (all2M_empty_spec (m_bits nd) (m_bits o) Hl) as (b & -> & Hb).
  rewrite (proj2 (same_vsize (m_bits nd) (m_bits o)) Hl). cbn. exists (negb b).
  split; [done|]. rewrite negb_true_iff, Hb. unfold nd_member. split.
  - intros (i & s & t & Hs & Ht & (j & H1 & H2)%intersectionIsEmpty_spec).
    exists (Z.of_nat i), j.
    split; [exists s | exists t]; rewrite vec_get_Ok, Nat2Z.id; auto with lia.
  - intros (m & j & (s & [H0 Hs]%vec_get_Ok & H1) & (t & [_ Ht]%vec_get_Ok & H2)).
    exists (Z.to_nat m), s, t. split_and!; [done | done|]. apply intersectionIsEmpty_spec. eauto.
Qed.
