(* ===== verification/NetDestTheory.v ===== *)
(** * The nodes a [NetDest] names

    [getAllDest] lists exactly the nodes of a destination, each once and in increasing order,
    and the destination of a single node is built by clearing and adding it: what the network
    interface uses to divide a multicast message. *)

From stdpp Require Import sorting.
From S2P Require Import Prelude RubySet NetDest.
Local Open Scope Z_scope.

Section Nodes.
Context {MT : MachineTypes} {MTok : MachineTypesOk MT}.

(** A destination as the constructor makes it: one set per machine type, of its size. *)
Definition shaped (nd : NetDest) : Prop :=
  vsize (m_bits nd) = MachineType_NUM /\
  forall m s, vec_get (m_bits nd) m = Ok s -> RubySet.wf s /\ m_nSize s = MachineType_base_count m.

(** Node [d] is a destination. *)
Definition node (nd : NetDest) (d : Z) : Prop :=
  exists m j, nd_member nd m j /\ d = MachineType_base_number m + j.

(** Node numbers fit 32 bits. *)
Definition node_ids_fit : Prop := MachineType_base_number MachineType_NUM <= 2 ^ 32.

Lemma base_mono m n : 0 <= m <= n -> MachineType_base_number m <= MachineType_base_number n.
Proof.
  intros [H0 Hn].
  assert (H : forall k : nat, MachineType_base_number m <= MachineType_base_number (m + Z.of_nat k)).
  { induction k as [|k IH]; [by rewrite Z.add_0_r|].
    pose proof (MachineType_base_next (m + Z.of_nat k) ltac:(lia)) as Hb. pose proof (MachineType_count_range (m + Z.of_nat k)).
    replace (m + Z.of_nat (S k)) with (m + Z.of_nat k + 1) by lia. lia. }
  specialize (H (Z.to_nat (n - m))). by replace (m + Z.of_nat (Z.to_nat (n - m))) with n in H by lia.
Qed.

Lemma base_nonneg m : 0 <= m -> 0 <= MachineType_base_number m.
Proof. intros Hm. pose proof (base_mono 0 m ltac:(lia)). pose proof MachineType_base_first. lia. Qed.

(** A node number determines the machine type and the number within it. *)
Lemma node_coords m j m' j' :
  0 <= m -> 0 <= m' -> 0 <= j < MachineType_base_count m -> 0 <= j' < MachineType_base_count m' ->
  MachineType_base_number m + j = MachineType_base_number m' + j' -> m = m' /\ j = j'.
Proof.
  intros Hm Hm' Hj Hj' E. destruct (Z.lt_trichotomy m m') as [H | [-> | H]]; [| split; lia |].
  - pose proof (base_mono (m + 1) m' ltac:(lia)). pose proof (MachineType_base_next m Hm). lia.
  - pose proof (base_mono (m' + 1) m ltac:(lia)). pose proof (MachineType_base_next m' Hm'). lia.
Qed.

Lemma shaped_member nd m j : shaped nd -> nd_member nd m j -> 0 <= m < MachineType_NUM /\ 0 <= j < MachineType_base_count m.
Proof.
  intros [Hl Hs] (s & Hg & Hm). pose proof (vec_get_range _ _ _ Hg). destruct (Hs m s Hg) as [Hw <-].
  pose proof (wf_member_range s j Hw Hm). lia.
Qed.

Lemma node_member nd m j : shaped nd -> 0 <= m -> 0 <= j < MachineType_base_count m ->
  node nd (MachineType_base_number m + j) <-> nd_member nd m j.
Proof.
  intros Hs Hm Hj. split; [|intros H; by exists m, j].
  intros (m' & j' & Hmem & E). destruct (shaped_member _ _ _ Hs Hmem) as [Hm' Hj'].
  destruct (node_coords m j m' j') as [-> ->]; [lia.. | done | done].
Qed.

(** ** [getAllDest] *)

Lemma dests_of_spec i s : 0 <= i -> RubySet.wf s -> m_nSize s = MachineType_base_count i ->
  MachineType_base_number (i + 1) <= 2 ^ 32 ->
  exists l, dests_of i s = Ok l /\ StronglySorted Z.lt l /\
    forall d, d ∈ l <-> exists j, member s j /\ d = MachineType_base_number i + j.
Proof.
  intros Hi Hw Hn Hfit. pose proof Hw as [[Hn0 Hn1] _]. pose proof (base_nonneg i Hi).
  pose proof (MachineType_base_next i Hi).
  destruct (for_range_total (fun k l => StronglySorted Z.lt l /\
      forall d, d ∈ l <-> exists j, j < k /\ member s j /\ d = MachineType_base_number i + j)
    (fun j dest => b ← RubySet.isElement s j; Ok (if b : bool then dest ++ [u32 (MachineType_base_number i + j)] else dest))
    (Z.to_nat (m_nSize s)) 0 []) as (l & Hl & Hsort & Hin).
  - split; [constructor|]. intros d. split; [by intros ?%elem_of_nil|].
    intros (j & Hj & Hm & _). pose proof (wf_member_range _ _ Hw Hm). lia.
  - intros k l Hk [Hs Hin]. unfold RubySet.isElement, bit_ok.
    rewrite (proj2 (Z.leb_le 0 k)) by lia. rewrite (proj2 (Z.ltb_lt k NUMBER_BITS_PER_SET)) by lia. cbn [andb mbind result_bind].
    destruct (Z.testbit (bits s) k) eqn:Hb; (eexists; split; [done|]).
    + rewrite u32_small by lia. split.
      * apply StronglySorted_app_2; [|done | repeat constructor].
        intros x y (j & Hj & _ & ->)%Hin ->%list_elem_of_singleton. lia.
      * intros d. rewrite elem_of_app, list_elem_of_singleton, Hin. split.
        -- intros [(j & Hj & Hm & ->) | ->]; [exists j | exists k]; (split; [lia | done]).
        -- intros (j & Hj & Hm & ->). destruct (decide (j = k)) as [->|]; [by right | left; exists j; split; [lia | done]].
    + split; [done|]. intros d. rewrite Hin. split.
      * intros (j & Hj & Hm & ->). exists j. split; [lia | done].
      * intros (j & Hj & Hm & ->). exists j. split; [|done]. destruct (decide (j = k)) as [->|]; [unfold member in Hm; congruence | lia].
  - exists l. split; [done|]. split; [done|]. intros d. rewrite Hin. split; [by intros (j & _ & H1); exists j|].
    intros (j & Hm & ->). exists j. pose proof (wf_member_range _ _ Hw Hm). split; [lia | done].
Qed.

Lemma getAllDest_from_spec i l : 0 <= i ->
  (forall k s, l !! k = Some s -> RubySet.wf s /\ m_nSize s = MachineType_base_count (i + Z.of_nat k)) ->
  MachineType_base_number (i + vsize l) <= 2 ^ 32 ->
  exists ds, getAllDest_from i l = Ok ds /\ StronglySorted Z.lt ds /\
    forall d, d ∈ ds <-> exists k s j, l !! k = Some s /\ member s j /\ d = MachineType_base_number (i + Z.of_nat k) + j.
Proof.
  revert i. induction l as [|s l IH]; intros i Hi Hs Hfit; cbn [getAllDest_from].
  - exists []. split; [done|]. split; [constructor|]. intros d. split; [by intros ?%elem_of_nil | by intros (k & s & j & ? & _)].
  - destruct (Hs 0%nat s eq_refl) as [Hw Hn]. rewrite Z.add_0_r in Hn.
    assert (Hb : MachineType_base_number (i + 1) <= 2 ^ 32).
    { etrans; [|exact Hfit]. apply base_mono. unfold vsize. cbn. lia. }
    destruct (dests_of_spec i s Hi Hw Hn Hb) as (here & -> & Hsh & Hh). cbn [mbind result_bind].
    destruct (IH (i + 1)) as (rest & -> & Hsr & Hr); [lia | | |].
    + intros k t Hk. replace (i + 1 + Z.of_nat k) with (i + Z.of_nat (S k)) by lia. by apply Hs.
    + replace (i + 1 + vsize l) with (i + vsize (s :: l)) by (unfold vsize; cbn; lia). done.
    + cbn [mbind result_bind]. exists (here ++ rest). split; [done|]. split.
      * apply StronglySorted_app_2; [|done | done].
        intros x y (j & Hm & ->)%Hh (k & t & j' & Hk & Hm' & ->)%Hr.
        pose proof (wf_member_range _ _ Hw Hm). destruct (Hs (S k) t Hk) as [Hwt _]. pose proof (wf_member_range _ _ Hwt Hm').
        pose proof (base_mono (i + 1) (i + 1 + Z.of_nat k) ltac:(lia)). pose proof (MachineType_base_next i Hi). lia.
      * intros d. rewrite elem_of_app, Hh, Hr. split.
        -- intros [(j & Hm & ->) | (k & t & j & Hk & Hm & ->)].
           ++ exists 0%nat, s, j. split_and!; [done | done | by rewrite Z.add_0_r].
           ++ exists (S k), t, j. split_and!; [done | done | f_equal; f_equal; lia].
        -- intros ([|k] & t & j & Hk & Hm & ->); cbn in Hk.
           ++ simplify_eq. left. exists j. split; [done | by rewrite Z.add_0_r].
           ++ right. exists k, t, j. split_and!; [done | done | f_equal; f_equal; lia].
Qed.

Lemma getAllDest_spec nd : shaped nd -> node_ids_fit ->
  exists ds, getAllDest nd = Ok ds /\ StronglySorted Z.lt ds /\ forall d, d ∈ ds <-> node nd d.
Proof.
  intros [Hl Hs] Hfit. destruct (getAllDest_from_spec 0 (m_bits nd)) as (ds & Hd & Hsort & Hin); [done | | by rewrite Z.add_0_l, Hl |].
  - intros k s Hk. apply Hs. apply vec_get_Ok. split; [lia|]. by rewrite Z.add_0_l, Nat2Z.id.
  - exists ds. split; [done|]. split; [done|]. intros d. rewrite Hin. unfold node, nd_member. split.
    + intros (k & s & j & Hk & Hm & ->). exists (Z.of_nat k), j. split; [|done]. exists s. split; [|done].
      apply vec_get_Ok. split; [lia|]. by rewrite Nat2Z.id.
    + intros (m & j & (s & [H0 Hk]%vec_get_Ok & Hm) & ->). exists (Z.to_nat m), s, j. split_and!; [done | done|].
      rewrite Z2Nat.id by lia. done.
Qed.

Lemma sorted_NoDup (ds : list Z) : StronglySorted Z.lt ds -> NoDup ds.
Proof.
  induction 1 as [|x l Hl IH Hx]; constructor; [|done]. intros H. rewrite Forall_forall in Hx. specialize (Hx x H). lia.
Qed.

(** The nodes as a list. *)
Definition nodes_of (nd : NetDest) : list Z := match getAllDest nd with Ok l => l | Err _ => [] end.

Lemma nodes_of_spec nd : node_ids_fit -> shaped nd -> NoDup (nodes_of nd) /\ forall d, d ∈ nodes_of nd <-> node nd d.
Proof.
  intros Hfit Hs. destruct (getAllDest_spec nd Hs Hfit) as (l & Hl & Hsort & Hin). unfold nodes_of. rewrite Hl. split; [|done].
  by apply sorted_NoDup.
Qed.

(** Decides [shaped]. *)
Definition shaped_b (nd : NetDest) : bool :=
  (vsize (m_bits nd) =? MachineType_NUM) &&
  forallb (fun p => let '(m, s) := p : nat * RSet in
     (0 <=? m_nSize s) && (m_nSize s <=? NUMBER_BITS_PER_SET) && (0 <=? bits s) && (bits s <? 2 ^ m_nSize s) &&
     (m_nSize s =? MachineType_base_count (Z.of_nat m))) (imap pair (m_bits nd)).

Lemma shaped_b_sound nd : shaped_b nd = true -> shaped nd.
Proof.
  unfold shaped_b. rewrite andb_true_iff, Z.eqb_eq. intros [Hl Hall]. split; [done|]. intros m s [H0 Hs]%vec_get_Ok.
  rewrite forallb_forall in Hall. specialize (Hall (Z.to_nat m, s)). cbv beta iota in Hall. rewrite Z2Nat.id in Hall by lia.
  assert (Hin : List.In (Z.to_nat m, s) (imap pair (m_bits nd))).
  { apply list_elem_of_In, list_elem_of_lookup. exists (Z.to_nat m). by rewrite list_lookup_imap, Hs. }
  specialize (Hall Hin). rewrite !andb_true_iff, !Z.leb_le, Z.ltb_lt, Z.eqb_eq in Hall. unfold RubySet.wf. tauto.
Qed.

(** ** Single destinations and their removal *)

Lemma empty_wf n : 0 <= n <= NUMBER_BITS_PER_SET -> RubySet.wf (mkRSet n 0).
Proof. intros Hn. apply wf_intro; [done | done|]. intros i Hi. unfold member in Hi. by rewrite Z.bits_0 in Hi. Qed.

Lemma resize_spec : exists nd, resize = Ok nd /\ shaped nd /\ forall m j, ~ nd_member nd m j.
Proof.
  unfold resize. rewrite MachineType_level_id, Z.eqb_refl. cbn [assert_ mbind result_bind].
  destruct (for_range_total (fun i l => vsize l = i /\ forall m s, vec_get l m = Ok s -> s = mkRSet (MachineType_base_count m) 0)
    (fun i l => s ← setSize (MachineType_base_count i) (mkRSet 0 0); Ok (l ++ [s])) (Z.to_nat MachineType_NUM) 0 []) as (l & -> & Hl & Hs).
  - split; [done|]. intros m s [_ H]%vec_get_Ok. done.
  - intros k l Hk [Hl Hs]. unfold setSize. pose proof (MachineType_count_range k).
    rewrite (proj2 (Z.ltb_ge NUMBER_BITS_PER_SET _)) by lia. cbn [mbind result_bind]. eexists. split; [done|].
    split; [unfold vsize in *; rewrite length_app; cbn; lia|].
    intros m s [H0 Hm]%vec_get_Ok. apply lookup_app_Some in Hm as [Hm | [Hge Hm]].
    + apply Hs. by apply vec_get_Ok.
    + apply list_lookup_singleton_Some in Hm as [Hm <-]. f_equal. f_equal. unfold vsize in Hl. lia.
  - cbn [mbind result_bind]. eexists. split; [done|]. pose proof MachineType_NUM_nonneg. split.
    + split; cbn; [lia|]. intros m s ->%Hs. split; [apply empty_wf, MachineType_count_range | done].
    + intros m j (s & ->%Hs & Hm). unfold member in Hm. by rewrite Z.bits_0 in Hm.
Qed.

Lemma clear_spec nd : shaped nd -> shaped (clear nd) /\ forall m j, ~ nd_member (clear nd) m j.
Proof.
  intros [Hl Hs].
  assert (Hg : forall m s, vec_get (m_bits (clear nd)) m = Ok s -> s = mkRSet (MachineType_base_count m) 0).
  { intros m s [H0 Hm]%vec_get_Ok. cbn in Hm. apply list_lookup_fmap_Some in Hm as (t & -> & Ht).
    destruct (Hs m t) as [_ <-]; [by apply vec_get_Ok | done]. }
  split; [split|].
  - unfold vsize in *. cbn. by rewrite length_fmap.
  - intros m s ->%Hg. split; [apply empty_wf, MachineType_count_range | done].
  - intros m j (s & ->%Hg & Hm). unfold member in Hm. by rewrite Z.bits_0 in Hm.
Qed.

Lemma add_spec nd m j : shaped nd -> 0 <= m < MachineType_NUM -> 0 <= j < MachineType_base_count m ->
  exists nd', add (mkMachineID m j) nd = Ok nd' /\ shaped nd' /\
    forall m' j', nd_member nd' m' j' <-> (m' = m /\ j' = j) \/ nd_member nd m' j'.
Proof.
  intros [Hl Hs] Hm Hj. unfold add, vecIndex. cbn [mach_type mach_num]. rewrite MachineType_level_id, Hl.
  rewrite (proj2 (Z.ltb_lt m _)) by lia. cbn [assert_ mbind result_bind].
  destruct (vec_get_in_range (m_bits nd) m) as [s Hg]; [lia|]. rewrite Hg. cbn [mbind result_bind].
  destruct (Hs m s Hg) as [Hw Hn]. unfold bitIndex. rewrite Hn, (proj2 (Z.ltb_lt j _)) by lia. cbn [assert_ mbind result_bind].
  destruct (RubySet.add j s) as [s'|] eqn:Ha.
  2: { unfold RubySet.add, bit_ok in Ha. pose proof (MachineType_count_range m).
       rewrite (proj2 (Z.leb_le 0 j)), (proj2 (Z.ltb_lt j NUMBER_BITS_PER_SET)) in Ha by lia. done. }
  cbn [mbind result_bind]. rewrite vec_set_in_range by lia. cbn [mbind result_bind]. eexists. split; [done|].
  assert (Hn' : m_nSize s' = m_nSize s) by (unfold RubySet.add in Ha; destruct (bit_ok j); inv_ok; done).
  split; [split|].
  - cbn. by rewrite vsize_insert.
  - cbn. intros k t Hk. destruct (decide (k = m)) as [->|].
    + rewrite vec_get_insert_eq in Hk by lia. apply Ok_inj in Hk as <-. split; [|congruence].
      apply (add_wf j s); [done | lia | done].
    + rewrite vec_get_insert_ne in Hk by lia. by apply Hs.
  - intros k i. unfold nd_member. cbn. destruct (decide (k = m)) as [->|Hne].
    + rewrite vec_get_insert_eq by lia. rewrite Hg. split.
      * intros (t & <-%Ok_inj & [->|Hmem]%(add_member j s s' i Ha)); [by left | right; by exists s].
      * intros [[_ ->] | (t & <-%Ok_inj & Hmem)]; exists s'; (split; [done|]); apply (add_member j s s' _ Ha); tauto.
    + rewrite vec_get_insert_ne by lia. split; [by right | by intros [[] | ?]].
Qed.

Lemma add_single nd m j : shaped nd -> (forall m' j', ~ nd_member nd m' j') ->
  0 <= m < MachineType_NUM -> 0 <= j < MachineType_base_count m ->
  exists nd', add (mkMachineID m j) nd = Ok nd' /\ shaped nd' /\
    forall m' j', nd_member nd' m' j' <-> m' = m /\ j' = j.
Proof.
  intros Hs Hno Hm Hj. destruct (add_spec nd m j Hs Hm Hj) as (nd' & Ha & Hs' & Hmem). exists nd'. split_and!; [done | done|].
  intros m' j'. rewrite Hmem. split; [intros [?|Hx]; [done | by apply Hno in Hx] | by left].
Qed.

Lemma remove_total nd o : shaped nd -> shaped o -> exists nd', removeNetDest nd o = Ok nd' /\ shaped nd'.
Proof.
  intros [Hl Hs] [Hlo Hso]. unfold removeNetDest. rewrite Hl, Hlo, Z.eqb_refl. cbn [assert_ mbind result_bind].
  assert (Hlen : length (m_bits nd) = length (m_bits o)) by (unfold vsize in *; lia).
  assert (Hat : forall (x : NetDest) i s, m_bits x !! i = Some s -> vec_get (m_bits x) (Z.of_nat i) = Ok s)
    by (intros x i s Hi; apply vec_get_Ok; rewrite Nat2Z.id; split; [lia | done]).
  destruct (map2M_total removeSet (m_bits nd) (m_bits o) Hlen) as [l Hr].
  { intros i a b Ha Hb. destruct (Hs _ _ (Hat _ _ _ Ha)) as [_ Hna]. destruct (Hso _ _ (Hat _ _ _ Hb)) as [_ Hnb].
    unfold removeSet. rewrite Hna, Hnb, Z.eqb_refl. by eexists. }
  rewrite Hr. cbn [mbind result_bind]. eexists. split; [done|]. pose proof (map2M_length _ _ _ _ Hr) as Hll.
  split; [unfold vsize in *; cbn; lia|]. cbn. intros m s [H0 Hm]%vec_get_Ok.
  destruct (same_length_lookup _ (m_bits nd) _ _ Hll Hm) as [a Ha].
  destruct (same_length_lookup _ (m_bits o) _ _ Hlen Ha) as [b Hb].
  destruct (map2M_lookup _ _ _ _ _ _ _ Hr Ha Hb) as (s' & Hs' & Hrm). rewrite Hm in Hs'. injection Hs' as <-.
  destruct (Hs _ _ (Hat _ _ _ Ha)) as [Hw Hn]. split; [exact (removeSet_wf _ _ _ Hw Hrm)|].
  unfold removeSet in Hrm. inv_ok. rewrite Z2Nat.id in Hn by lia. done.
Qed.

(** The nodes left after removing one. *)
Lemma remove_node nd o nd' d : shaped nd -> shaped o -> shaped nd' -> removeNetDest nd o = Ok nd' ->
  node nd' d <-> node nd d /\ ~ node o d.
Proof.
  intros Hs Ho Hs' Hr. pose proof (fun m j => removeNetDest_member nd o nd' m j Hr) as Hm. split.
  - intros (m & j & [H1 H2]%Hm & ->). split; [by exists m, j|]. destruct (shaped_member _ _ _ Hs H1).
    rewrite node_member by (done || lia). done.
  - intros [(m & j & H1 & ->) H2]. exists m, j. split; [|done]. apply Hm. split; [done|]. intros H3. apply H2. by exists m, j.
Qed.

(** The nodes two destinations share. *)
Lemma set_and_spec s t : RubySet.wf s -> RubySet.wf t -> m_nSize s = m_nSize t ->
  exists r, RubySet.AND s t = Ok r /\ RubySet.wf r /\ m_nSize r = m_nSize s /\ forall j, member r j <-> member s j /\ member t j.
Proof.
  intros Hs Ht Hn. unfold RubySet.AND, Set_new. rewrite <- Hn, Z.eqb_refl. pose proof (proj1 Hs) as Hr. pose proof (proj1 (proj2 Hs)).
  rewrite (proj2 (Z.ltb_ge NUMBER_BITS_PER_SET _)) by lia. cbn [assert_ mbind result_bind m_nSize]. eexists. split; [done|].
  assert (Hm : forall j, member (mkRSet (m_nSize s) (Z.land (bits s) (bits t))) j <-> member s j /\ member t j)
    by (intros j; unfold member; cbn; by rewrite Z.land_spec, andb_true_iff).
  split; [|done]. apply wf_intro; [done | cbn; apply Z.land_nonneg; lia|]. intros i [Hi _]%Hm. by apply (wf_member_range s i Hs).
Qed.

Lemma and_spec nd o : shaped nd -> shaped o ->
  exists r, NetDest.AND nd o = Ok r /\ shaped r /\ forall m j, nd_member r m j <-> nd_member nd m j /\ nd_member o m j.
Proof.
  intros [Hl Hs] [Hlo Hso]. unfold NetDest.AND. rewrite Hl, Hlo, Z.eqb_refl. cbn [assert_ mbind result_bind].
  destruct resize_spec as (e & -> & [Hle _] & _). cbn [mbind result_bind].
  assert (Hlen : length (m_bits nd) = length (m_bits o)) by (unfold vsize in *; lia).
  assert (Hat : forall (x : NetDest) i s, m_bits x !! i = Some s -> vec_get (m_bits x) (Z.of_nat i) = Ok s)
    by (intros x i s Hi; apply vec_get_Ok; rewrite Nat2Z.id; split; [lia | done]).
  assert (Hand : forall i a b, m_bits nd !! i = Some a -> m_bits o !! i = Some b ->
    exists r, RubySet.AND a b = Ok r /\ RubySet.wf r /\ m_nSize r = MachineType_base_count (Z.of_nat i) /\ forall j, member r j <-> member a j /\ member b j).
  { intros i a b Ha Hb. destruct (Hs _ _ (Hat _ _ _ Ha)) as [Hwa <-]. destruct (Hso _ _ (Hat _ _ _ Hb)) as [Hwb Hnb].
    destruct (Hs _ _ (Hat _ _ _ Ha)) as [_ Hna]. apply set_and_spec; [done | done | congruence]. }
  destruct (map2M_total RubySet.AND (m_bits nd) (m_bits o) Hlen) as [l Hr].
  { intros i a b Ha Hb. destruct (Hand i a b Ha Hb) as (r & -> & _). eauto. }
  rewrite Hr. cbn [mbind result_bind]. pose proof (map2M_length _ _ _ _ Hr) as Hll. unfold store_prefix.
  rewrite (proj2 (Z.leb_le _ _)) by (unfold vsize in *; lia). rewrite drop_ge by (unfold vsize in *; lia). rewrite app_nil_r.
  exists (mkNetDest l). split; [done|].
  assert (Hg : forall m s, vec_get l m = Ok s -> exists a b, vec_get (m_bits nd) m = Ok a /\ vec_get (m_bits o) m = Ok b /\
    RubySet.wf s /\ m_nSize s = MachineType_base_count m /\ forall j, member s j <-> member a j /\ member b j).
  { intros m s [H0 Hm]%vec_get_Ok. destruct (same_length_lookup _ (m_bits nd) _ _ Hll Hm) as [a Ha].
    destruct (same_length_lookup _ (m_bits o) _ _ Hlen Ha) as [b Hb]. destruct (map2M_lookup _ _ _ _ _ _ _ Hr Ha Hb) as (s' & Hs' & Hab).
    rewrite Hm in Hs'. injection Hs' as <-. destruct (Hand _ a b Ha Hb) as (r & Hr' & Hw & Hn & Hj). rewrite Hab in Hr'. apply Ok_inj in Hr' as <-.
    rewrite Z2Nat.id in Hn by lia. exists a, b. rewrite !vec_get_Ok. done. }
  split.
  - split; [unfold vsize in *; cbn; lia|]. intros m s (a & b & _ & _ & ? & ? & _)%Hg. done.
  - intros m j. unfold nd_member. cbn. split.
    + intros (s & (a & b & Ha & Hb & _ & _ & Hj)%Hg & [H1 H2]%Hj). split; eauto.
    + intros [(a & Ha & H1) (b & Hb & H2)]. destruct (vec_get_in_range l m) as [s Hs'].
      { apply vec_get_range in Ha. unfold vsize in *. lia. }
      exists s. split; [done|]. destruct (Hg m s Hs') as (a' & b' & Ha' & Hb' & _ & _ & Hj). merge_ok. by apply Hj.
Qed.

(** [count] is zero exactly for the empty destination. *)
Lemma set_count_zero s : RubySet.wf s -> RubySet.count s = 0 <-> forall j, ~ member s j.
Proof.
  intros Hw. unfold RubySet.count, popcount. split.
  - intros Hc j Hj. pose proof (wf_member_range s j Hw Hj). pose proof (proj1 Hw).
    assert (Hin : Z.to_nat j ∈ filter (fun i : nat => Z.testbit (bits s) (Z.of_nat i)) (seq 0 64)).
    { apply list_elem_of_filter. rewrite Z2Nat.id by lia. split; [by apply Is_true_true|]. apply elem_of_seq. unfold NUMBER_BITS_PER_SET in *. lia. }
    destruct (filter _ _); [by apply elem_of_nil in Hin | cbn in Hc; lia].
  - intros Hno. destruct (filter _ _) as [|i l] eqn:E; [done|]. exfalso. apply (Hno (Z.of_nat i)).
    assert (Hin : i ∈ filter (fun i : nat => Z.testbit (bits s) (Z.of_nat i)) (seq 0 64)) by (rewrite E; by left).
    apply list_elem_of_filter in Hin as [Hi%Is_true_true _]. done.
Qed.

Lemma count_zero nd : shaped nd -> NetDest.count nd = 0 <-> forall m j, ~ nd_member nd m j.
Proof.
  intros [_ Hs].
  assert (Hw : forall s, s ∈ m_bits nd -> RubySet.wf s).
  { intros s (i & Hi)%list_elem_of_lookup. apply (Hs (Z.of_nat i)). apply vec_get_Ok. rewrite Nat2Z.id. split; [lia | done]. }
  assert (Hc : NetDest.count nd = 0 <-> forall s, s ∈ m_bits nd -> RubySet.count s = 0).
  { unfold NetDest.count. clear -nd. assert (Hnn : forall s, 0 <= RubySet.count s) by (intros s; unfold RubySet.count, popcount; lia).
    induction (m_bits nd) as [|s l IH]; cbn.
    - split; [by intros _ s ?%elem_of_nil | done].
    - assert (0 <= foldr (fun s n => RubySet.count s + n) 0 l) by (clear IH; induction l as [|x l IHl]; cbn; [lia | pose proof (Hnn x); lia]).
      pose proof (Hnn s). split.
      + intros E t [->|Ht]%elem_of_cons; [lia|]. apply IH; [lia | done].
      + intros Hall. rewrite (Hall s) by (by left). apply IH. intros t Ht. apply Hall. by right. }
  rewrite Hc. split.
  - intros Hall m j (s & [_ Hg]%vec_get_Ok & Hm). apply (proj1 (set_count_zero s (Hw s (list_elem_of_lookup_2 _ _ _ Hg)))
      (Hall s (list_elem_of_lookup_2 _ _ _ Hg)) j Hm).
  - intros Hno s Hin. apply set_count_zero; [by apply Hw|]. intros j Hj. apply list_elem_of_lookup in Hin as (i & Hi).
    apply (Hno (Z.of_nat i) j). exists s. split; [|done]. apply vec_get_Ok. rewrite Nat2Z.id. split; [lia | done].
Qed.
End Nodes.

(** ** Queries about single machines and inclusion *)

Section Members.
Context {MT : MachineTypes} {MTok : MachineTypesOk MT}.

(** A machine of the system. *)
Definition machine_ok (x : MachineID) : Prop := 0 <= mach_type x < MachineType_NUM /\ 0 <= mach_num x < MachineType_base_count (mach_type x).
Abbreviation has nd x := (nd_member nd (mach_type x) (mach_num x)).

Lemma machine_set nd x : shaped nd -> machine_ok x ->
  exists s, vecIndex x nd = Ok (mach_type x) /\ vec_get (m_bits nd) (mach_type x) = Ok s /\ RubySet.wf s /\
    m_nSize s = MachineType_base_count (mach_type x) /\ bit_ok (mach_num x) = true /\ (has nd x <-> Z.testbit (RubySet.bits s) (mach_num x) = true).
Proof.
  intros [Hl Hs] [Hm Hj]. destruct (vec_get_in_range (m_bits nd) (mach_type x)) as [s Hg]; [lia|]. exists s.
  destruct (Hs _ s Hg) as [Hw Hn]. unfold vecIndex. rewrite MachineType_level_id, Hl, (proj2 (Z.ltb_lt _ _)) by lia.
  pose proof (MachineType_count_range (mach_type x)). split; [done|]. split; [done|]. split; [done|]. split; [done|]. split.
  - unfold bit_ok. by rewrite (proj2 (Z.leb_le 0 _)), (proj2 (Z.ltb_lt _ _)) by lia.
  - split; [intros (t & Ht & Hmem); by rewrite Hg in Ht; apply Ok_inj in Ht as <- | intros Hb; by exists s].
Qed.

Lemma isElement_spec nd x : shaped nd -> machine_ok x -> exists b, NetDest.isElement nd x = Ok b /\ (b = true <-> has nd x).
Proof.
  intros Hs Hx. destruct (machine_set nd x Hs Hx) as (s & Hv & Hg & _ & _ & Hb & Hiff). unfold NetDest.isElement. rewrite Hv. cbn [mbind result_bind].
  rewrite Hg. cbn [mbind result_bind]. unfold RubySet.isElement, bitIndex. rewrite Hb. eexists. split; [done|]. tauto.
Qed.

Lemma nd_remove_spec nd x : shaped nd -> machine_ok x ->
  exists nd', NetDest.remove x nd = Ok nd' /\ shaped nd' /\
    forall m j, nd_member nd' m j <-> nd_member nd m j /\ ~ (m = mach_type x /\ j = mach_num x).
Proof.
  intros Hs Hx. destruct (machine_set nd x Hs Hx) as (s & Hv & Hg & Hw & Hn & Hb & _). destruct Hs as [Hl Hs].
  unfold NetDest.remove. rewrite Hv. cbn [mbind result_bind]. pose proof (vec_get_range _ _ _ Hg) as Hr. set (s' := mkRSet (m_nSize s) (Z.clearbit (RubySet.bits s) (mach_num x))).
  assert (Hrem : RubySet.remove (bitIndex (mach_num x)) s = Ok s') by (unfold RubySet.remove, bitIndex; by rewrite Hb).
  erewrite vec_update_Ok by done. cbn [mbind result_bind]. eexists. split; [done|].
  assert (Hmem : forall j, member s' j <-> member s j /\ j <> mach_num x).
  { intros j. unfold member. subst s'. cbn. destruct Hx as [_ Hj]. rewrite Z.clearbit_eqb, andb_true_iff, negb_true_iff, Z.eqb_neq by lia.
    split; intros [? ?]; split; congruence. }
  split; [split|].
  - cbn. by rewrite vsize_insert.
  - cbn. intros k t Hk. destruct (decide (k = mach_type x)) as [->|]; [|rewrite vec_get_insert_ne in Hk by lia; by apply Hs].
    rewrite (vec_get_insert _ _ _ _ Hg) in Hk. apply Ok_inj in Hk as <-. split; [|done]. apply wf_intro; [apply Hw | |].
    + subst s'. cbn. rewrite Z.clearbit_spec'. apply Z.ldiff_nonneg. left. apply Hw.
    + intros i [Hi _]%Hmem. apply (wf_member_range s i Hw Hi).
  - intros k j. unfold nd_member. cbn. destruct (decide (k = mach_type x)) as [->|Hne].
    + rewrite (vec_get_insert _ _ _ _ Hg), Hg. split.
      * intros (t & <-%Ok_inj & [H1 H2]%Hmem). split; [by exists s | tauto].
      * intros [(t & <-%Ok_inj & H1) H2]. exists s'. split; [done|]. apply Hmem. split; [done|]. intros ->. by apply H2.
    + rewrite vec_get_insert_ne by lia. tauto.
Qed.

Lemma set_superset_spec s t : RubySet.wf s -> RubySet.wf t -> (Z.lor (RubySet.bits s) (RubySet.bits t) =? RubySet.bits s) = true <-> forall j, member t j -> member s j.
Proof.
  intros Hs Ht. rewrite Z.eqb_eq. unfold member. split.
  - intros E j Hj. rewrite <- E, Z.lor_spec, Hj. apply orb_true_r.
  - intros H. apply Z.bits_inj'. intros j _. rewrite Z.lor_spec. specialize (H j).
    destruct (Z.testbit (RubySet.bits s) j), (Z.testbit (RubySet.bits t) j); try done. by specialize (H eq_refl).
Qed.

Lemma isSubset_spec nd o : shaped nd -> shaped o -> exists b, NetDest.isSubset nd o = Ok b /\ (b = true <-> forall m j, nd_member nd m j -> nd_member o m j).
Proof.
  intros [Hl Hs] [Hlo Hso]. unfold NetDest.isSubset, NetDest.isSuperset. rewrite Hl, Hlo, Z.eqb_refl. cbn [assert_ mbind result_bind].
  assert (H : forall l1 l2, length l1 = length l2 ->
    (forall i s t, l1 !! i = Some s -> l2 !! i = Some t -> RubySet.wf s /\ RubySet.wf t /\ m_nSize s = m_nSize t) ->
    exists b, all2M RubySet.isSuperset l1 l2 = Ok b /\ (b = true <-> forall i s t j, l1 !! i = Some s -> l2 !! i = Some t -> member t j -> member s j)).
  { clear. induction l1 as [|s l1 IH]; intros [|t l2] Hlen Hwf; try done; [by exists true|]. cbn [all2M].
    destruct (Hwf O s t eq_refl eq_refl) as (Hw & Hw' & Hn).
    assert (Hsup : RubySet.isSuperset s t = Ok (Z.lor (RubySet.bits s) (RubySet.bits t) =? RubySet.bits s))
      by (unfold RubySet.isSuperset; by rewrite Hn, Z.eqb_refl).
    rewrite Hsup. cbn [mbind result_bind]. clear Hsup. pose proof (set_superset_spec s t Hw Hw') as Hst. destruct (_ =? _).
    - destruct (IH l2) as (b & -> & Hb); [by injection Hlen | intros i; apply (Hwf (S i))|]. exists b. split; [done|]. rewrite Hb. split.
      + intros H [|i] s' t' j Hs' Ht'; [|by apply (H i)]. injection Hs' as <-. injection Ht' as <-. by apply Hst.
      + intros H i. apply (H (S i)).
    - exists false. split; [done|]. split; [done|]. intros H. exfalso. enough (false = true) by done. apply Hst. intros j. by apply (H O). }
  assert (Hat : forall (x : NetDest) i s, m_bits x !! i = Some s <-> vec_get (m_bits x) (Z.of_nat i) = Ok s).
  { intros x i s. rewrite vec_get_Ok, Nat2Z.id. split; [split; [lia | done] | tauto]. }
  destruct (H (m_bits o) (m_bits nd)) as (b & Hb & Hiff); [unfold vsize in *; lia | |].
  { intros i s t Hi Ht. apply Hat in Hi, Ht. destruct (Hso _ _ Hi), (Hs _ _ Ht). split_and!; [done | done | congruence]. }
  exists b. split; [done|]. rewrite Hiff. split.
  - intros Hall m j (t & Ht & Hj). pose proof (vec_get_range _ _ _ Ht) as Hr. destruct (vec_get_in_range (m_bits o) m) as [s Hg]; [lia|].
    exists s. split; [done|]. apply vec_get_Ok in Ht as [_ Ht], Hg as [_ Hg]. by eapply Hall.
  - intros Hall i s t j Hi Ht Hj. apply Hat in Hi, Ht. destruct (Hall (Z.of_nat i) j) as (s' & Hs' & Hj'); [by exists t|]. congruence.
Qed.

Lemma isEmpty_spec nd : shaped nd -> NetDest.isEmpty nd = true <-> forall m j, ~ nd_member nd m j.
Proof.
  intros [Hl Hs]. unfold NetDest.isEmpty. rewrite forallb_forall. split.
  - intros H m j (s & Hg & Hm). pose proof Hg as [_ Hi]%vec_get_Ok. specialize (H s). rewrite <- list_elem_of_In in H.
    specialize (H ltac:(by eapply list_elem_of_lookup_2)). unfold RubySet.isEmpty in H. apply Z.eqb_eq in H. unfold member in Hm. by rewrite H, Z.bits_0 in Hm.
  - intros H s [i Hi]%list_elem_of_In%list_elem_of_lookup. unfold RubySet.isEmpty. apply Z.eqb_eq. apply Z.bits_inj_0. intros j.
    apply not_true_iff_false. intros Hj. apply (H (Z.of_nat i) j). exists s. split; [|done]. apply vec_get_Ok. rewrite Nat2Z.id. split; [lia | done].
Qed.

Lemma isEmpty_false nd : shaped nd -> NetDest.isEmpty nd = false -> exists m j, nd_member nd m j.
Proof.
  intros [Hl Hs] Hemp. destruct (decide (Exists (fun s => RubySet.isEmpty s = false) (m_bits nd))) as [Hex|Hno].
  - apply Exists_exists in Hex as (s & [i Hi]%list_elem_of_lookup & Hne). apply Z.eqb_neq in Hne.
    assert (Hg : vec_get (m_bits nd) (Z.of_nat i) = Ok s) by (apply vec_get_Ok; rewrite Nat2Z.id; split; [lia | done]).
    exists (Z.of_nat i), (Z.log2 (RubySet.bits s)), s. split; [done|]. destruct (Hs _ _ Hg) as [[_ Hb] _]. unfold member. apply Z.bit_log2. lia.
  - exfalso. apply not_true_iff_false in Hemp. apply Hemp. unfold NetDest.isEmpty. apply forallb_forall. intros s Hin%list_elem_of_In.
    apply not_false_iff_true. intros Hne. apply Hno. apply Exists_exists. by exists s.
Qed.
End Members.

(** One machine type with [k] nodes. *)
Definition node_types (k : Z) : MachineTypes :=
  {| MachineType_NUM := 1; MachineType_base_number := fun m => k * m; MachineType_base_count := fun _ => k;
     MachineType_base_level := fun m => m; MachineType_from_base_level := fun m => m |}.
Lemma node_types_ok k : 0 <= k <= NUMBER_BITS_PER_SET -> MachineTypesOk (node_types k).
Proof. intros Hk. split; cbn; intros; lia. Qed.
