(* ===== verification/Flit.v ===== *)
(** * Common types, messages, flits and credits

    CommonTypes.hh (enumerations, [RouteInfo]), the part of Message.hh the network
    uses, flit.hh/flit.cc and Credit.hh/Credit.cc.  A [flit *] that travels from
    buffer to buffer is owned by exactly one of them, so a flit is a value here and
    "mutating the flit" replaces the value where it is stored.  [Credit] derives
    from [flit] but only sets [m_id], [m_vc], [m_time] and [m_is_free_signal]; what
    the buffers and links need of either is the class [FlitLike]. *)

From S2P Require Import Prelude RubySet NetDest.
Local Open Scope Z_scope.

Inductive flit_type := HEAD_ | BODY_ | TAIL_ | HEAD_TAIL_ | NUM_FLIT_TYPE_.
Inductive VC_state_type := IDLE_ | VC_AB_ | ACTIVE_ | NUM_VC_STATE_TYPE_.
Inductive VNET_type := CTRL_VNET_ | DATA_VNET_ | NULL_VNET_ | NUM_VNET_TYPE_.
Inductive flit_stage := I_ | VA_ | SA_ | ST_ | LT_ | NUM_FLIT_STAGE_.
Inductive link_type := EXT_IN_ | EXT_OUT_ | INT_ | NUM_LINK_TYPES_.
Inductive RoutingAlgorithm := TABLE_ | XY_ | RANDOM_ | ADAPT_RAND_ | WestFirst_
  | ADAPT_WestFirst_ | CUSTOM_ | NUM_ROUTING_ALGORITHM_.

#[export] Instance flit_type_eq_dec : EqDecision flit_type.
Proof. solve_decision. Defined.
#[export] Instance VC_state_type_eq_dec : EqDecision VC_state_type.
Proof. solve_decision. Defined.
#[export] Instance VNET_type_eq_dec : EqDecision VNET_type.
Proof. solve_decision. Defined.
#[export] Instance flit_stage_eq_dec : EqDecision flit_stage.
Proof. solve_decision. Defined.
#[export] Instance link_type_eq_dec : EqDecision link_type.
Proof. solve_decision. Defined.

Definition INFINITE_ : Z := 10000.

Definition PortDirection := string.

Record RouteInfo := mkRouteInfo {
  vnet : Z;
  net_dest : NetDest;
  src_ni : Z;
  src_router : Z;
  dest_ni : Z;
  dest_router : Z;
  hops_traversed : Z
}.

#[export] Instance RouteInfo_eq_dec : EqDecision RouteInfo.
Proof. solve_decision. Defined.

Definition with_hops_traversed (v : Z) (r : RouteInfo) : RouteInfo :=
  mkRouteInfo (vnet r) (net_dest r) (src_ni r) (src_router r) (dest_ni r) (dest_router r) v.

(** The enumeration of mem/protocol/RubySlicc_Exports.sm. *)
Inductive MessageSizeType :=
  | MessageSizeType_Control | MessageSizeType_Data | MessageSizeType_Request_Control | MessageSizeType_Reissue_Control
  | MessageSizeType_Response_Data | MessageSizeType_ResponseL2hit_Data | MessageSizeType_ResponseLocal_Data
  | MessageSizeType_Response_Control | MessageSizeType_Writeback_Data | MessageSizeType_Writeback_Control
  | MessageSizeType_Broadcast_Control | MessageSizeType_Multicast_Control | MessageSizeType_Forwarded_Control
  | MessageSizeType_Invalidate_Control | MessageSizeType_Unblock_Control | MessageSizeType_Persistent_Control
  | MessageSizeType_Completion_Control | MessageSizeType_NUM.

#[export] Instance MessageSizeType_eq_dec : EqDecision MessageSizeType.
Proof. solve_decision. Defined.

(** ** Messages

    [Message] is an abstract class whose subclasses are generated per protocol; the
    fields below are those of Message.hh plus what the virtual accessors
    [getDestination] and [getMessageSize] return, and an opaque payload. *)
Record Message := mkMessage {
  msg_time : Z;
  m_LastEnqueueTime : Z;
  m_DelayedTicks : Z;
  m_msg_counter : Z;
  destination : NetDest;
  messageSize : MessageSizeType;
  payload : Z
}.

#[export] Instance Message_eq_dec : EqDecision Message.
Proof. solve_decision. Defined.

Definition with_m_LastEnqueueTime (v : Z) (r : Message) : Message :=
  mkMessage (msg_time r) v (m_DelayedTicks r) (m_msg_counter r) (destination r) (messageSize r) (payload r).
Definition with_m_DelayedTicks (v : Z) (r : Message) : Message :=
  mkMessage (msg_time r) (m_LastEnqueueTime r) v (m_msg_counter r) (destination r) (messageSize r) (payload r).
Definition with_m_msg_counter (v : Z) (r : Message) : Message :=
  mkMessage (msg_time r) (m_LastEnqueueTime r) (m_DelayedTicks r) v (destination r) (messageSize r) (payload r).
Definition with_destination (v : NetDest) (r : Message) : Message :=
  mkMessage (msg_time r) (m_LastEnqueueTime r) (m_DelayedTicks r) (m_msg_counter r) v (messageSize r) (payload r).

(** ** Flits *)
Record flit := mkflit {
  m_id : Z;
  m_vnet : Z;
  m_vc : Z;
  m_route : RouteInfo;
  m_size : Z;
  m_enqueue_time : Z;
  m_dequeue_time : Z;
  m_time : Z;
  m_type : flit_type;
  m_msg_ptr : Message;
  m_outport : Z;
  m_outport_dirn : PortDirection;
  src_delay : Z;
  m_stage : flit_stage * Z;
  m_marked : bool
}.

#[export] Instance flit_eq_dec : EqDecision flit.
Proof. solve_decision. Defined.

Definition with_m_vc (v : Z) (r : flit) : flit :=
  mkflit (m_id r) (m_vnet r) v (m_route r) (m_size r) (m_enqueue_time r) (m_dequeue_time r) (m_time r) (m_type r) (m_msg_ptr r) (m_outport r) (m_outport_dirn r) (src_delay r) (m_stage r) (m_marked r).
Definition with_m_route (v : RouteInfo) (r : flit) : flit :=
  mkflit (m_id r) (m_vnet r) (m_vc r) v (m_size r) (m_enqueue_time r) (m_dequeue_time r) (m_time r) (m_type r) (m_msg_ptr r) (m_outport r) (m_outport_dirn r) (src_delay r) (m_stage r) (m_marked r).
Definition with_m_dequeue_time (v : Z) (r : flit) : flit :=
  mkflit (m_id r) (m_vnet r) (m_vc r) (m_route r) (m_size r) (m_enqueue_time r) v (m_time r) (m_type r) (m_msg_ptr r) (m_outport r) (m_outport_dirn r) (src_delay r) (m_stage r) (m_marked r).
Definition with_m_time (v : Z) (r : flit) : flit :=
  mkflit (m_id r) (m_vnet r) (m_vc r) (m_route r) (m_size r) (m_enqueue_time r) (m_dequeue_time r) v (m_type r) (m_msg_ptr r) (m_outport r) (m_outport_dirn r) (src_delay r) (m_stage r) (m_marked r).
Definition with_m_outport (v : Z) (r : flit) : flit :=
  mkflit (m_id r) (m_vnet r) (m_vc r) (m_route r) (m_size r) (m_enqueue_time r) (m_dequeue_time r) (m_time r) (m_type r) (m_msg_ptr r) v (m_outport_dirn r) (src_delay r) (m_stage r) (m_marked r).
Definition with_m_outport_dirn (v : PortDirection) (r : flit) : flit :=
  mkflit (m_id r) (m_vnet r) (m_vc r) (m_route r) (m_size r) (m_enqueue_time r) (m_dequeue_time r) (m_time r) (m_type r) (m_msg_ptr r) (m_outport r) v (src_delay r) (m_stage r) (m_marked r).
Definition with_src_delay (v : Z) (r : flit) : flit :=
  mkflit (m_id r) (m_vnet r) (m_vc r) (m_route r) (m_size r) (m_enqueue_time r) (m_dequeue_time r) (m_time r) (m_type r) (m_msg_ptr r) (m_outport r) (m_outport_dirn r) v (m_stage r) (m_marked r).
Definition with_m_stage (v : flit_stage * Z) (r : flit) : flit :=
  mkflit (m_id r) (m_vnet r) (m_vc r) (m_route r) (m_size r) (m_enqueue_time r) (m_dequeue_time r) (m_time r) (m_type r) (m_msg_ptr r) (m_outport r) (m_outport_dirn r) (src_delay r) v (m_marked r).

(** The flit constructor: the type follows from the id and the packet size. *)
Definition flit_type_of (id size : Z) : flit_type :=
  if size =? 1 then HEAD_TAIL_
  else if id =? 0 then HEAD_
  else if id =? size - 1 then TAIL_
  else BODY_.

Definition flit_new (id vc vnet : Z) (route : RouteInfo) (size : Z) (msg_ptr : Message)
    (curTime : Z) (marked : bool) : flit :=
  mkflit id vnet vc route size curTime curTime curTime (flit_type_of id size) msg_ptr (-1)
    "Unknown" 0 (I_, curTime) marked.

Definition set_outport (port : Z) (f : flit) : flit := with_m_outport port f.
Definition set_outport_dirn (d : PortDirection) (f : flit) : flit := with_m_outport_dirn d f.
Definition set_time (t : Z) (f : flit) : flit := with_m_time t f.
Definition set_vc (vc : Z) (f : flit) : flit := with_m_vc vc f.
Definition set_src_delay (d : Z) (f : flit) : flit := with_src_delay d f.
Definition set_dequeue_time (t : Z) (f : flit) : flit := with_m_dequeue_time t f.

Definition increment_hops (f : flit) : flit :=
  with_m_route (with_hops_traversed (hops_traversed (m_route f) + 1) (m_route f)) f.

Definition is_stage (stage : flit_stage) (time : Z) (f : flit) : bool :=
  bool_decide (stage = (m_stage f).1) && ((m_stage f).2 <=? time).

Definition advance_stage (t_stage : flit_stage) (newTime : Z) (f : flit) : flit :=
  with_m_stage (t_stage, newTime) f.

Definition is_head (f : flit) : bool :=
  bool_decide (m_type f = HEAD_) || bool_decide (m_type f = HEAD_TAIL_).
Definition is_tail (f : flit) : bool :=
  bool_decide (m_type f = TAIL_) || bool_decide (m_type f = HEAD_TAIL_).

(** ** Credits *)
Record Credit := mkCredit {
  c_id : Z;
  c_vc : Z;
  m_is_free_signal : bool;
  c_time : Z
}.

#[export] Instance Credit_eq_dec : EqDecision Credit.
Proof. solve_decision. Defined.

Definition with_c_time (v : Z) (r : Credit) : Credit :=
  mkCredit (c_id r) (c_vc r) (m_is_free_signal r) v.

Definition Credit_new (vc : Z) (is_free_signal : bool) (curTime : Z) : Credit :=
  mkCredit 0 vc is_free_signal curTime.

(** ** What buffers and links use of a flit or a credit *)
Class FlitLike (F : Type) := {
  get_id : F -> Z;
  get_time : F -> Z;
  get_vc : F -> Z;
  put_time : Z -> F -> F
}.

Class FlitLikeLaws (F : Type) `{FlitLike F} : Prop := {
  get_time_put : forall t f, get_time (put_time t f) = t;
  get_id_put : forall t f, get_id (put_time t f) = get_id f;
  get_vc_put : forall t f, get_vc (put_time t f) = get_vc f
}.

#[export] Instance flit_FlitLike : FlitLike flit :=
  {| get_id := m_id; get_time := m_time; get_vc := m_vc; put_time := set_time |}.
#[export] Instance flit_laws : FlitLikeLaws flit.
Proof. done. Qed.

#[export] Instance Credit_FlitLike : FlitLike Credit :=
  {| get_id := c_id; get_time := c_time; get_vc := c_vc; put_time := with_c_time |}.
#[export] Instance Credit_laws : FlitLikeLaws Credit.
Proof. done. Qed.

(** [flit::greater]: later time first, then larger id. *)
Definition greater `{FlitLike F} (n1 n2 : F) : bool :=
  if get_time n1 =? get_time n2 then get_id n2 <? get_id n1
  else get_time n2 <? get_time n1.

(** The lexicographic order [greater] is the strict part of. *)
Definition not_later `{FlitLike F} (f g : F) : Prop :=
  get_time f < get_time g \/ (get_time f = get_time g /\ get_id f <= get_id g).

Lemma greater_false `{FlitLike F} (f g : F) : greater f g = false <-> not_later f g.
Proof.
  unfold greater, not_later. destruct (Z.eqb_spec (get_time f) (get_time g)).
  - rewrite Z.ltb_ge. lia.
  - rewrite Z.ltb_ge. lia.
Qed.

Lemma flit_type_single id : flit_type_of id 1 = HEAD_TAIL_.
Proof. done. Qed.
