(* ===== verification/FlitBuffer.v ===== *)
(** * [flitBuffer] (flitBuffer.hh, flitBuffer.cc)

    A priority queue of flits (or credits) ordered by arrival time and id, kept in a
    vector with [std::push_heap]/[std::pop_heap].  The theorems state the contract the
    rest of the network relies on: the content is a multiset, the front is never later
    than any other flit, and the heap order survives both operations. *)

From Stdlib Require Import Sorted.
From S2P Require Import Prelude Heap Flit.
Local Open Scope Z_scope.

Record flitBuffer (F : Type) := mkflitBuffer { m_buffer : list F; max_size : Z }.
Arguments mkflitBuffer {F} _ _.
Arguments m_buffer {F} _.
Arguments max_size {F} _.

Section FlitBuffer.
Context `{FlitLike F}.

Definition flitBuffer_new : flitBuffer F := mkflitBuffer [] INFINITE_.
Definition flitBuffer_sized (maximum_size : Z) : flitBuffer F := mkflitBuffer [] maximum_size.

Definition isEmpty (b : flitBuffer F) : bool := vsize (m_buffer b) =? 0.

Definition getSize (b : flitBuffer F) : Z := vsize (m_buffer b).

Definition peekTopFlit (b : flitBuffer F) : result F :=
  match m_buffer b with f :: _ => Ok f | [] => Err EAssert end.

Definition isReady (curTime : Z) (b : flitBuffer F) : bool :=
  match m_buffer b with f :: _ => get_time f <=? curTime | [] => false end.

(** [size_t >= int]: a negative bound compares as a huge unsigned number. *)
Definition isFull (b : flitBuffer F) : bool := u64 (max_size b) <=? vsize (m_buffer b).

Definition setMaxSize (maximum : Z) (b : flitBuffer F) : flitBuffer F :=
  mkflitBuffer (m_buffer b) maximum.

Definition getTopFlit (b : flitBuffer F) : result (F * flitBuffer F) :=
  match m_buffer b with
  | f :: _ => Ok (f, mkflitBuffer (pop_back (pop_heap greater (m_buffer b))) (max_size b))
  | [] => Err EAssert
  end.

Definition insert (flt : F) (b : flitBuffer F) : flitBuffer F :=
  mkflitBuffer (push_heap greater (m_buffer b ++ [flt])) (max_size b).

(** [functionalWrite]: [write] is the virtual [Message::functionalWrite]; the number of
    messages it accepted is returned with the updated content. *)
Definition functionalWrite (write : F -> bool * F) (b : flitBuffer F) : Z * flitBuffer F :=
  (Z.of_nat (length (filter (fun f => (write f).1 = true) (m_buffer b))),
   mkflitBuffer (map (fun f => (write f).2) (m_buffer b)) (max_size b)).

Definition heap_ok (b : flitBuffer F) : Prop := is_heap greater (m_buffer b).

#[export] Instance greater_StrictWeak : StrictWeak (greater (F := F)).
Proof.
  split; unfold greater.
  - intros x y. destruct (Z.eqb_spec (get_time x) (get_time y)), (Z.eqb_spec (get_time y) (get_time x));
      rewrite ?Z.ltb_lt, ?Z.ltb_ge; lia.
  - intros x y z. destruct (Z.eqb_spec (get_time x) (get_time y)), (Z.eqb_spec (get_time y) (get_time z)),
      (Z.eqb_spec (get_time x) (get_time z)); rewrite ?Z.ltb_ge; lia.
Qed.

Lemma heap_ok_new : heap_ok flitBuffer_new.
Proof. intros i p v Hi Hp. cbn in Hp. by rewrite lookup_nil in Hp. Qed.

Lemma insert_Permutation f b : m_buffer (insert f b) ≡ₚ f :: m_buffer b.
Proof. cbn. rewrite push_heap_Permutation. by rewrite Permutation_app_comm. Qed.

Lemma insert_heap_ok f b : heap_ok b -> heap_ok (insert f b).
Proof. apply (push_heap_is_heap greater). Qed.

Lemma getTopFlit_Permutation b f b' :
  getTopFlit b = Ok (f, b') -> m_buffer b ≡ₚ f :: m_buffer b'.
Proof.
  unfold getTopFlit. destruct (m_buffer b) as [|x l] eqn:E; [done|]. intros Hg. inv_ok.
  symmetry. exact (pop_back_pop_heap greater _ _).
Qed.

Lemma getTopFlit_heap_ok b f b' : heap_ok b -> getTopFlit b = Ok (f, b') -> heap_ok b'.
Proof.
  unfold getTopFlit, heap_ok. destruct (m_buffer b) as [|x l] eqn:E; [done|].
  intros Hb Hg. inv_ok. exact (pop_heap_is_heap greater _ Hb).
Qed.

Lemma getTopFlit_peek b f b' : getTopFlit b = Ok (f, b') -> peekTopFlit b = Ok f.
Proof. unfold getTopFlit, peekTopFlit. destruct (m_buffer b); [done|]. by intros [= <- _]. Qed.

Lemma getTopFlit_total b : m_buffer b <> [] -> exists f b', getTopFlit b = Ok (f, b').
Proof. unfold getTopFlit. destruct (m_buffer b); [done | eauto]. Qed.

Lemma peekTopFlit_min b f : heap_ok b -> peekTopFlit b = Ok f ->
  forall g, g ∈ m_buffer b -> not_later f g.
Proof.
  unfold peekTopFlit, heap_ok. intros Hb Hf g Hg. apply greater_false.
  apply (front_is_min greater (m_buffer b)); [done | | done]. destruct (m_buffer b); by inv_ok.
Qed.

Lemma isReady_spec curTime b :
  isReady curTime b = true <-> exists f, peekTopFlit b = Ok f /\ get_time f <= curTime.
Proof.
  unfold isReady, peekTopFlit. destruct (m_buffer b) as [|f l]; split.
  - done.
  - by intros (? & ? & ?).
  - intros Hle%Z.leb_le. eauto.
  - intros (g & [= <-] & Hle). by apply Z.leb_le.
Qed.

(** A heap-ordered buffer is ready iff some flit's time has come. *)
Lemma isReady_iff_exists curTime b : heap_ok b ->
  isReady curTime b = true <-> exists f, f ∈ m_buffer b /\ get_time f <= curTime.
Proof.
  intros Hb. rewrite isReady_spec. split.
  - intros (f & Hf & Hle). exists f. split; [|done].
    unfold peekTopFlit in Hf. destruct (m_buffer b); inv_ok. by left.
  - intros (g & Hg & Hle). unfold peekTopFlit. destruct (m_buffer b) as [|f l] eqn:E.
    + by apply elem_of_nil in Hg.
    + exists f. split; [done|].
      assert (Hp : peekTopFlit b = Ok f) by (unfold peekTopFlit; by rewrite E).
      pose proof (peekTopFlit_min b f Hb Hp g) as Hmin. rewrite E in Hmin.
      specialize (Hmin Hg). unfold not_later in Hmin. lia.
Qed.

Lemma length_insert_flit f b : length (m_buffer (insert f b)) = S (length (m_buffer b)).
Proof. by rewrite insert_Permutation. Qed.

Lemma length_getTopFlit b f b' :
  getTopFlit b = Ok (f, b') -> length (m_buffer b) = S (length (m_buffer b')).
Proof. intros Hg. by rewrite (getTopFlit_Permutation _ _ _ Hg). Qed.

(** Draining: popping until empty lists the content in nondecreasing order. *)
Fixpoint drain (fuel : nat) (b : flitBuffer F) : list F :=
  match fuel with
  | O => []
  | S fuel' => match getTopFlit b with Ok (f, b') => f :: drain fuel' b' | Err _ => [] end
  end.

Lemma drain_Permutation n b : length (m_buffer b) = n -> drain n b ≡ₚ m_buffer b.
Proof.
  revert b. induction n as [|n IH]; intros b Hn; cbn.
  - by destruct (m_buffer b).
  - destruct (getTopFlit_total b) as (f & b' & E); [by destruct (m_buffer b)|]. rewrite E.
    rewrite (getTopFlit_Permutation _ _ _ E), IH; [done|].
    apply length_getTopFlit in E. lia.
Qed.

Lemma drain_sorted n b : heap_ok b -> length (m_buffer b) = n -> Sorted not_later (drain n b).
Proof.
  revert b. induction n as [|n IH]; intros b Hb Hn; cbn; [constructor|].
  destruct (getTopFlit b) as [[f b']|] eqn:E; [|constructor].
  assert (Hn' : length (m_buffer b') = n) by (apply length_getTopFlit in E; lia).
  constructor; [apply IH; [by eapply getTopFlit_heap_ok | done]|].
  pose proof (drain_Permutation n b' Hn') as Hp.
  destruct (drain n b') as [|g l]; constructor.
  eapply (peekTopFlit_min b); [done | by eapply getTopFlit_peek|].
  rewrite (getTopFlit_Permutation _ _ _ E), <- Hp. right. by left.
Qed.
End FlitBuffer.

#[export] Hint Resolve insert_heap_ok heap_ok_new : garnet.
