(* ===== verification/Consumer.v ===== *)
(** * Consumers and their wakeup events (mem/ruby/common/Consumer.hh, Consumer.cc)

    Routers, links and network interfaces are [Consumer]s that ask the event queue to
    call their [wakeup].  All of them share Ruby's clock, so a [Tick] that the code
    computes with [clockEdge(c)] is named by its cycle number here.  Objects that the
    C++ code links by pointer are linked by the references below. *)

From S2P Require Import Prelude.
Local Open Scope Z_scope.

(** Which object is woken: a [Router], [NetworkLink], [CreditLink] or [NetworkInterface] of a
    garnet network, a [PerfectSwitch] (named by its switch) or [Throttle] (named by its switch
    and output port) of a simple network. *)
Inductive ConsumerRef :=
  | CRouter (id : Z) | CNetLink (id : Z) | CCreditLink (id : Z) | CNI (id : Z)
  | CPerfectSwitch (id : Z) | CThrottle (switch port : Z).

(** Which [flitBuffer] a link drains ([setSourceQueue]). *)
Inductive QueueRef :=
  | QOut (router outport : Z)      (* OutputUnit::m_out_buffer *)
  | QCredit (router inport : Z)    (* InputUnit::creditQueue *)
  | QNIOut (ni : Z)                (* NetworkInterface::outFlitQueue *)
  | QNICredit (ni : Z).            (* NetworkInterface::outCreditQueue *)

#[export] Instance ConsumerRef_eq_dec : EqDecision ConsumerRef.
Proof. solve_decision. Defined.
#[export] Instance QueueRef_eq_dec : EqDecision QueueRef.
Proof. solve_decision. Defined.

(** A request "wake this consumer at this cycle". *)
Definition Event : Type := ConsumerRef * Z.

(** The wakeup times a consumer has already been scheduled for. *)
Record Consumer := mkConsumer { m_scheduled_wakeups : gset Z }.

Definition alreadyScheduled (time : Z) (c : Consumer) : bool :=
  bool_decide (time ∈ m_scheduled_wakeups c).

Definition insertScheduledWakeupTime (time : Z) (c : Consumer) : Consumer :=
  mkConsumer ({[time]} ∪ m_scheduled_wakeups c).

(** [scheduleEventAbsolute]: the event (if any) handed to the event queue, and the
    consumer with past wakeup times dropped.  [now] is [em->clockEdge()]. *)
Definition scheduleEventAbsolute (now evt_time : Z) (c : Consumer) : option Z * Consumer :=
  let '(ev, c1) :=
    if alreadyScheduled evt_time c then (None, c)
    else (Some evt_time, insertScheduledWakeupTime evt_time c) in
  (ev, mkConsumer (filter (fun t => now <= t) (m_scheduled_wakeups c1))).

Definition scheduleEvent (now timeDelta : Z) (c : Consumer) : option Z * Consumer :=
  scheduleEventAbsolute now (cyc_add now timeDelta) c.

(** After a call for a time that is not in the past, the consumer is scheduled for it and
    every wakeup still to come is kept; the event queue receives the event exactly when it
    did not have it. *)
Lemma scheduleEventAbsolute_spec now t c :
  now <= t ->
  let '(ev, c') := scheduleEventAbsolute now t c in
  (ev = Some t <-> t ∉ m_scheduled_wakeups c) /\ (ev = None <-> t ∈ m_scheduled_wakeups c) /\
  (forall u, u ∈ m_scheduled_wakeups c' <-> now <= u /\ (u = t \/ u ∈ m_scheduled_wakeups c)).
Proof.
  intros Hle. unfold scheduleEventAbsolute, alreadyScheduled, insertScheduledWakeupTime.
  case_bool_decide as Hin; cbn; (split_and!; [naive_solver | naive_solver |]);
    intros u; rewrite elem_of_filter; set_solver.
Qed.
