(* ===== verification/Config.v ===== *)
(** * Network configuration (GarnetNetwork constructor and [init])

    The parameters of a [GarnetNetwork] that its parts read through the network
    pointer.  [GarnetNetwork_config] follows the constructor; the Python parameter
    object is the argument [p]. *)

From S2P Require Import Prelude Flit.
Local Open Scope Z_scope.

Record GarnetParams := mkGarnetParams {
  p_num_rows : Z;
  p_ni_flit_size : Z;
  p_vcs_per_vnet : Z;
  p_buffers_per_data_vc : Z;
  p_buffers_per_ctrl_vc : Z;
  p_routing_algorithm : Z;
  p_enable_bn : Z;
  p_num_bubble : Z;
  p_intra_period : Z;
  p_inter_period : Z;
  p_warmup_cycles : Z;
  p_marked_flits : Z;
  p_rand_bb : Z;
  p_scheme : string;
  p_sim_type : Z;
  p_virtual_networks : Z;
  p_vnet_type_names : list string;
  p_ordered : list bool
}.


Record Config := mkConfig {
  m_num_rows : Z;
  m_num_cols : Z;
  m_ni_flit_size : Z;
  m_vcs_per_vnet : Z;
  m_buffers_per_data_vc : Z;
  m_buffers_per_ctrl_vc : Z;
  m_routing_algorithm : Z;
  m_enable_bn : Z;
  m_num_bubble : Z;
  m_intra_bubble_period : Z;
  m_inter_bubble_period : Z;
  warmup_cycles : Z;
  marked_flits : Z;
  rand_bb : Z;
  m_scheme : string;
  sim_type : Z;
  m_virtual_networks : Z;
  m_vnet_type : list VNET_type;
  m_ordered : list bool
}.

Definition with_m_num_rows (v : Z) (r : Config) : Config :=
  mkConfig v (m_num_cols r) (m_ni_flit_size r) (m_vcs_per_vnet r) (m_buffers_per_data_vc r) (m_buffers_per_ctrl_vc r) (m_routing_algorithm r) (m_enable_bn r) (m_num_bubble r) (m_intra_bubble_period r) (m_inter_bubble_period r) (warmup_cycles r) (marked_flits r) (rand_bb r) (m_scheme r) (sim_type r) (m_virtual_networks r) (m_vnet_type r) (m_ordered r).
Definition with_m_num_cols (v : Z) (r : Config) : Config :=
  mkConfig (m_num_rows r) v (m_ni_flit_size r) (m_vcs_per_vnet r) (m_buffers_per_data_vc r) (m_buffers_per_ctrl_vc r) (m_routing_algorithm r) (m_enable_bn r) (m_num_bubble r) (m_intra_bubble_period r) (m_inter_bubble_period r) (warmup_cycles r) (marked_flits r) (rand_bb r) (m_scheme r) (sim_type r) (m_virtual_networks r) (m_vnet_type r) (m_ordered r).

(** The vnet types: only the vnet named "response" carries data packets. *)
Definition vnet_type_of_name (name : string) : VNET_type :=
  if String.eqb name "response" then DATA_VNET_ else CTRL_VNET_.

Definition GarnetNetwork_config (p : GarnetParams) : result Config :=
  types ← for_range (Z.to_nat (p_virtual_networks p)) 0
            (fun i l => name ← vec_get (p_vnet_type_names p) i;
                        Ok (l ++ [vnet_type_of_name name])) [];
  Ok (mkConfig (p_num_rows p) (-1) (p_ni_flit_size p) (p_vcs_per_vnet p)
        (p_buffers_per_data_vc p) (p_buffers_per_ctrl_vc p) (p_routing_algorithm p)
        (p_enable_bn p) (p_num_bubble p) (p_intra_period p) (p_inter_period p)
        (p_warmup_cycles p) (p_marked_flits p) (p_rand_bb p) (p_scheme p) (p_sim_type p)
        (p_virtual_networks p) types (p_ordered p)).

(** The topology part of [GarnetNetwork::init]: columns follow from rows. *)
Definition init_dimensions (num_routers : Z) (c : Config) : result Config :=
  if 0 <? m_num_rows c then
    let cols := num_routers `quot` m_num_rows c in
    assert_ (m_num_rows c * cols =? num_routers) ;;
    Ok (with_m_num_cols cols c)
  else Ok (with_m_num_cols (-1) (with_m_num_rows (-1) c)).

Definition isVNetOrdered (vnet : Z) (c : Config) : result bool := vec_get (m_ordered c) vnet.

Definition get_vnet_type (vc : Z) (c : Config) : result VNET_type :=
  if m_vcs_per_vnet c =? 0 then Err EDiv
  else vec_get (m_vnet_type c) (vc `quot` m_vcs_per_vnet c).

(** Mapping of the integer option onto the enumeration ([default:] is the table). *)
Definition routing_algorithm_of (n : Z) : RoutingAlgorithm :=
  if n =? 1 then XY_ else if n =? 2 then RANDOM_ else if n =? 3 then ADAPT_RAND_
  else if n =? 4 then WestFirst_ else if n =? 5 then ADAPT_WestFirst_
  else if n =? 6 then CUSTOM_ else TABLE_.

(** When [init] succeeds on a 2D topology, the mesh has exactly one router per cell. *)
Lemma init_dimensions_mesh n c c' :
  0 < m_num_rows c -> init_dimensions n c = Ok c' ->
  m_num_rows c' = m_num_rows c /\ m_num_rows c' * m_num_cols c' = n.
Proof.
  unfold init_dimensions. intros H0. destruct (Z.ltb_spec 0 (m_num_rows c)); [|lia].
  intros Hi. inv_ok. cbn. split; [done|]. by apply Z.eqb_eq.
Qed.
