(* ===== verification/VirtualChannel.v ===== *)
(** * [VirtualChannel] (VirtualChannel.hh, VirtualChannel.cc)

    One input virtual channel: a flit buffer, the VC state with the cycle it was set,
    and the output port and output VC granted to the packet it holds. *)

From S2P Require Import Prelude Flit FlitBuffer.
Local Open Scope Z_scope.

Record VirtualChannel := mkVirtualChannel {
  m_id : Z;
  m_input_buffer : flitBuffer flit;
  m_vc_state : VC_state_type * Z;
  m_output_port : Z;
  m_enqueue_time : Z;
  m_output_vc : Z
}.

Definition with_m_id (v : Z) (r : VirtualChannel) : VirtualChannel :=
  mkVirtualChannel v (m_input_buffer r) (m_vc_state r) (m_output_port r) (m_enqueue_time r) (m_output_vc r).
Definition with_m_input_buffer (v : flitBuffer flit) (r : VirtualChannel) : VirtualChannel :=
  mkVirtualChannel (m_id r) v (m_vc_state r) (m_output_port r) (m_enqueue_time r) (m_output_vc r).
Definition with_m_vc_state (v : VC_state_type * Z) (r : VirtualChannel) : VirtualChannel :=
  mkVirtualChannel (m_id r) (m_input_buffer r) v (m_output_port r) (m_enqueue_time r) (m_output_vc r).
Definition with_m_output_port (v : Z) (r : VirtualChannel) : VirtualChannel :=
  mkVirtualChannel (m_id r) (m_input_buffer r) (m_vc_state r) v (m_enqueue_time r) (m_output_vc r).
Definition with_m_enqueue_time (v : Z) (r : VirtualChannel) : VirtualChannel :=
  mkVirtualChannel (m_id r) (m_input_buffer r) (m_vc_state r) (m_output_port r) v (m_output_vc r).
Definition with_m_output_vc (v : Z) (r : VirtualChannel) : VirtualChannel :=
  mkVirtualChannel (m_id r) (m_input_buffer r) (m_vc_state r) (m_output_port r) (m_enqueue_time r) v.

Definition VirtualChannel_new (id : Z) : VirtualChannel :=
  mkVirtualChannel id flitBuffer_new (IDLE_, 0) (-1) INFINITE_ (-1).

Definition set_idle (curTime : Z) (vc : VirtualChannel) : VirtualChannel :=
  mkVirtualChannel (m_id vc) (m_input_buffer vc) (IDLE_, curTime) (-1) INFINITE_ (-1).

Definition set_active (curTime : Z) (vc : VirtualChannel) : VirtualChannel :=
  with_m_enqueue_time curTime (with_m_vc_state (ACTIVE_, curTime) vc).

Definition set_outvc (outvc : Z) (vc : VirtualChannel) : VirtualChannel := with_m_output_vc outvc vc.
Definition get_outvc (vc : VirtualChannel) : Z := m_output_vc vc.
Definition set_outport (outport : Z) (vc : VirtualChannel) : VirtualChannel :=
  with_m_output_port outport vc.
Definition get_outport (vc : VirtualChannel) : Z := m_output_port vc.
Definition get_enqueue_time (vc : VirtualChannel) : Z := m_enqueue_time vc.
Definition get_state (vc : VirtualChannel) : VC_state_type := (m_vc_state vc).1.

Definition isReady (curTime : Z) (vc : VirtualChannel) : bool :=
  FlitBuffer.isReady curTime (m_input_buffer vc).

Definition insertFlit (t_flit : flit) (vc : VirtualChannel) : VirtualChannel :=
  with_m_input_buffer (FlitBuffer.insert t_flit (m_input_buffer vc)) vc.

Definition peekTopFlit (vc : VirtualChannel) : result flit :=
  FlitBuffer.peekTopFlit (m_input_buffer vc).

Definition getTopFlit (vc : VirtualChannel) : result (flit * VirtualChannel) :=
  '(f, b) ← FlitBuffer.getTopFlit (m_input_buffer vc);
  Ok (f, with_m_input_buffer b vc).

Definition isEmpty (vc : VirtualChannel) : bool := getSize (m_input_buffer vc) =? 0.

(** A VC with a ready flit must be ACTIVE; then the top flit decides. *)
Definition need_stage (stage : flit_stage) (time : Z) (vc : VirtualChannel) : result bool :=
  if FlitBuffer.isReady time (m_input_buffer vc) then
    assert_ (bool_decide (get_state vc = ACTIVE_) && ((m_vc_state vc).2 <=? time)) ;;
    t_flit ← FlitBuffer.peekTopFlit (m_input_buffer vc);
    Ok (is_stage stage time t_flit)
  else Ok false.

Definition functionalWrite (write : flit -> bool * flit) (vc : VirtualChannel) : Z * VirtualChannel :=
  let '(n, b) := FlitBuffer.functionalWrite write (m_input_buffer vc) in
  (n, with_m_input_buffer b vc).

(** The flits a VC holds. *)
Definition flits (vc : VirtualChannel) : list flit := m_buffer (m_input_buffer vc).

(** A buffer with at most one flit keeps its heap trivially. *)
Lemma heap_ok_short (b : flitBuffer flit) : (length (m_buffer b) <= 1)%nat -> heap_ok b.
Proof.
  intros Hl i p v Hi Hp Hv. apply lookup_lt_Some in Hv. lia.
Qed.

(** A VC that holds flits is ACTIVE, since a cycle that is not in the future. *)
Definition vc_ok (now : Z) (vc : VirtualChannel) : Prop :=
  heap_ok (m_input_buffer vc) /\
  (flits vc <> [] -> get_state vc = ACTIVE_) /\ (m_vc_state vc).2 <= now.

Lemma isEmpty_flits vc : isEmpty vc = true <-> flits vc = [].
Proof.
  unfold isEmpty, getSize, flits, vsize. rewrite Z.eqb_eq.
  destruct (m_buffer (m_input_buffer vc)); cbn; split; (done || lia).
Qed.

(** [need_stage]'s assertion never fails on a well-formed VC, now or later. *)
Lemma need_stage_total stage now time vc :
  vc_ok now vc -> now <= time -> exists b, need_stage stage time vc = Ok b.
Proof.
  intros (Hh & Ha & Ht) Hle. unfold need_stage.
  destruct (FlitBuffer.isReady time (m_input_buffer vc)) eqn:E; [|eauto].
  apply isReady_spec in E as (f & Hf & _).
  rewrite bool_decide_true.
  - rewrite (proj2 (Z.leb_le _ _)) by lia. cbn. rewrite Hf. cbn. eauto.
  - apply Ha. unfold flits. unfold FlitBuffer.peekTopFlit in Hf.
    by destruct (m_buffer (m_input_buffer vc)).
Qed.

Lemma need_stage_true stage time vc :
  need_stage stage time vc = Ok true ->
  exists f, peekTopFlit vc = Ok f /\ is_stage stage time f = true /\
            m_time f <= time /\ get_state vc = ACTIVE_ /\ flits vc <> [].
Proof.
  unfold need_stage, peekTopFlit.
  destruct (FlitBuffer.isReady time (m_input_buffer vc)) eqn:E; [|done].
  apply isReady_spec in E as (f & Hf & Hle). rewrite Hf. intros H. inv_ok.
  rename select (_ && _ = true) into Hs. apply andb_true_iff in Hs as [Hs _].
  apply bool_decide_eq_true in Hs. eexists. split_and!; [reflexivity | done | done | done |].
  unfold flits. unfold FlitBuffer.peekTopFlit in Hf. by destruct (m_buffer (m_input_buffer vc)).
Qed.

Lemma getTopFlit_flits vc f vc' :
  getTopFlit vc = Ok (f, vc') ->
  flits vc ≡ₚ f :: flits vc' /\ peekTopFlit vc = Ok f /\
  vc' = with_m_input_buffer (m_input_buffer vc') vc.
Proof.
  unfold getTopFlit, flits, peekTopFlit. intros H. inv_ok.
  rename select (FlitBuffer.getTopFlit _ = _) into Hg. cbn.
  split_and!; [by apply getTopFlit_Permutation | by eapply getTopFlit_peek | done].
Qed.

Lemma insertFlit_flits f vc : flits (insertFlit f vc) ≡ₚ f :: flits vc.
Proof. apply insert_Permutation. Qed.

Lemma insertFlit_ok now f vc :
  vc_ok now vc -> get_state vc = ACTIVE_ -> vc_ok now (insertFlit f vc).
Proof. intros (Hh & _ & Ht) Ha. split_and!; [by apply insert_heap_ok | done | done]. Qed.

Lemma set_active_ok now vc : vc_ok now vc -> vc_ok now (set_active now vc).
Proof. intros (Hh & _ & _). split_and!; cbn; [done | done | lia]. Qed.

Lemma set_idle_ok now vc : vc_ok now vc -> flits vc = [] -> vc_ok now (set_idle now vc).
Proof. intros (Hh & _ & _) He. split_and!; cbn; [done | done | lia]. Qed.

Lemma getTopFlit_ok now vc f vc' :
  vc_ok now vc -> getTopFlit vc = Ok (f, vc') -> vc_ok now vc'.
Proof.
  intros (Hh & Ha & Ht) Hg. pose proof (getTopFlit_flits _ _ _ Hg) as (Hp & _ & Hvc).
  assert (Hne : flits vc <> []) by (intros E; by rewrite E in Hp; apply Permutation_nil_cons in Hp).
  split_and!.
  - unfold getTopFlit in Hg. inv_ok. cbn. eapply getTopFlit_heap_ok; [exact Hh | done].
  - intros _. rewrite Hvc. cbn. by apply Ha.
  - rewrite Hvc. done.
Qed.

Lemma new_ok id now : 0 <= now -> vc_ok now (VirtualChannel_new id).
Proof. intros H. split_and!; cbn; [apply heap_ok_new | done | done]. Qed.

Lemma vc_ok_later now now' vc : now <= now' -> vc_ok now vc -> vc_ok now' vc.
Proof. intros H (? & ? & ?). split_and!; [done | done | lia]. Qed.
