(* ===== verification/OutVcState.v ===== *)
(** * [OutVcState] (OutVcState.hh, OutVcState.cc)

    The upstream view of one downstream virtual channel: IDLE/ACTIVE and the number of
    free buffer slots (credits).  The two assertions keep the credit count between 0 and
    the buffer depth. *)

From S2P Require Import Prelude Flit Config.
Local Open Scope Z_scope.

Record OutVcState := mkOutVcState {
  m_id : Z;
  m_time : Z;
  m_vc_state : VC_state_type;
  m_credit_count : Z;
  m_max_credit_count : Z
}.

Definition with_m_credit_count (v : Z) (r : OutVcState) : OutVcState :=
  mkOutVcState (m_id r) (m_time r) (m_vc_state r) v (m_max_credit_count r).

Definition OutVcState_new (id : Z) (c : Config) : result OutVcState :=
  t ← get_vnet_type id c;
  let max := if bool_decide (t = DATA_VNET_) then m_buffers_per_data_vc c
             else m_buffers_per_ctrl_vc c in
  assert_ (1 <=? max) ;;
  Ok (mkOutVcState id 0 IDLE_ max max).

Definition has_credit (o : OutVcState) : bool := 0 <? m_credit_count o.
Definition get_credit_count (o : OutVcState) : Z := m_credit_count o.

Definition increment_credit (o : OutVcState) : result OutVcState :=
  let o' := with_m_credit_count (m_credit_count o + 1) o in
  assert_ (m_credit_count o' <=? m_max_credit_count o') ;; Ok o'.

Definition decrement_credit (o : OutVcState) : result OutVcState :=
  let o' := with_m_credit_count (m_credit_count o - 1) o in
  assert_ (0 <=? m_credit_count o') ;; Ok o'.

Definition isInState (state : VC_state_type) (request_time : Z) (o : OutVcState) : bool :=
  bool_decide (m_vc_state o = state) && (m_time o <=? request_time).

Definition setState (state : VC_state_type) (time : Z) (o : OutVcState) : OutVcState :=
  mkOutVcState (m_id o) time state (m_credit_count o) (m_max_credit_count o).

(** The credit bounds. *)
Definition credits_ok (o : OutVcState) : Prop :=
  1 <= m_max_credit_count o /\ 0 <= m_credit_count o <= m_max_credit_count o.

Lemma new_credits_ok id c o : OutVcState_new id c = Ok o ->
  credits_ok o /\ m_vc_state o = IDLE_ /\ m_credit_count o = m_max_credit_count o.
Proof.
  unfold OutVcState_new. intros H. inv_ok. rename select (_ = true) into Hle.
  apply Z.leb_le in Hle. unfold credits_ok. cbn. split_and!; (done || lia).
Qed.

Lemma increment_credit_spec o o' : increment_credit o = Ok o' <->
  m_credit_count o < m_max_credit_count o /\ o' = with_m_credit_count (m_credit_count o + 1) o.
Proof.
  unfold increment_credit. cbn.
  destruct (Z.leb_spec (m_credit_count o + 1) (m_max_credit_count o)); cbn; split.
  - intros [= <-]. split; [lia | done].
  - by intros [_ ->].
  - done.
  - lia.
Qed.

Lemma decrement_credit_spec o o' : decrement_credit o = Ok o' <->
  0 < m_credit_count o /\ o' = with_m_credit_count (m_credit_count o - 1) o.
Proof.
  unfold decrement_credit. cbn. destruct (Z.leb_spec 0 (m_credit_count o - 1)); cbn; split.
  - intros [= <-]. split; [lia | done].
  - by intros [_ ->].
  - done.
  - lia.
Qed.

Lemma credits_ok_step o o' :
  credits_ok o -> increment_credit o = Ok o' \/ decrement_credit o = Ok o' -> credits_ok o'.
Proof.
  unfold credits_ok. rewrite increment_credit_spec, decrement_credit_spec.
  intros ? [[? ->] | [? ->]]; cbn; lia.
Qed.
