(* ===== verification/NetworkLink.v ===== *)
(** * [NetworkLink] and [CreditLink] (NetworkLink.hh, NetworkLink.cc, CreditLink.hh)

    A link moves at most one ready flit (or credit) per wakeup from its source queue
    into its own buffer, stamped with the arrival time, and wakes its consumer then.
    [CreditLink] adds nothing to [NetworkLink]; the model is generic in what is moved. *)

From S2P Require Import Prelude Flit FlitBuffer Consumer.
Local Open Scope Z_scope.

Record NetworkLink (F : Type) := mkNetworkLink {
  m_id : Z;
  m_type : link_type;
  m_latency : Z;
  m_link_src : Z;
  m_link_dest : Z;
  linkBuffer : flitBuffer F;
  link_consumer : option ConsumerRef;
  link_srcQueue : option QueueRef;
  m_link_utilized : Z;
  m_vc_load : list Z
}.
Arguments mkNetworkLink {F}.
Arguments m_id {F} _.
Arguments m_type {F} _.
Arguments m_latency {F} _.
Arguments m_link_src {F} _.
Arguments m_link_dest {F} _.
Arguments linkBuffer {F} _.
Arguments link_consumer {F} _.
Arguments link_srcQueue {F} _.
Arguments m_link_utilized {F} _.
Arguments m_vc_load {F} _.

Definition with_m_id {F : Type} (v : Z) (r : NetworkLink F) : NetworkLink F :=
  mkNetworkLink v (m_type r) (m_latency r) (m_link_src r) (m_link_dest r) (linkBuffer r) (link_consumer r) (link_srcQueue r) (m_link_utilized r) (m_vc_load r).
Definition with_m_type {F : Type} (v : link_type) (r : NetworkLink F) : NetworkLink F :=
  mkNetworkLink (m_id r) v (m_latency r) (m_link_src r) (m_link_dest r) (linkBuffer r) (link_consumer r) (link_srcQueue r) (m_link_utilized r) (m_vc_load r).
Definition with_m_latency {F : Type} (v : Z) (r : NetworkLink F) : NetworkLink F :=
  mkNetworkLink (m_id r) (m_type r) v (m_link_src r) (m_link_dest r) (linkBuffer r) (link_consumer r) (link_srcQueue r) (m_link_utilized r) (m_vc_load r).
Definition with_m_link_src {F : Type} (v : Z) (r : NetworkLink F) : NetworkLink F :=
  mkNetworkLink (m_id r) (m_type r) (m_latency r) v (m_link_dest r) (linkBuffer r) (link_consumer r) (link_srcQueue r) (m_link_utilized r) (m_vc_load r).
Definition with_m_link_dest {F : Type} (v : Z) (r : NetworkLink F) : NetworkLink F :=
  mkNetworkLink (m_id r) (m_type r) (m_latency r) (m_link_src r) v (linkBuffer r) (link_consumer r) (link_srcQueue r) (m_link_utilized r) (m_vc_load r).
Definition with_linkBuffer {F : Type} (v : flitBuffer F) (r : NetworkLink F) : NetworkLink F :=
  mkNetworkLink (m_id r) (m_type r) (m_latency r) (m_link_src r) (m_link_dest r) v (link_consumer r) (link_srcQueue r) (m_link_utilized r) (m_vc_load r).
Definition with_link_consumer {F : Type} (v : option ConsumerRef) (r : NetworkLink F) : NetworkLink F :=
  mkNetworkLink (m_id r) (m_type r) (m_latency r) (m_link_src r) (m_link_dest r) (linkBuffer r) v (link_srcQueue r) (m_link_utilized r) (m_vc_load r).
Definition with_link_srcQueue {F : Type} (v : option QueueRef) (r : NetworkLink F) : NetworkLink F :=
  mkNetworkLink (m_id r) (m_type r) (m_latency r) (m_link_src r) (m_link_dest r) (linkBuffer r) (link_consumer r) v (m_link_utilized r) (m_vc_load r).
Definition with_m_link_utilized {F : Type} (v : Z) (r : NetworkLink F) : NetworkLink F :=
  mkNetworkLink (m_id r) (m_type r) (m_latency r) (m_link_src r) (m_link_dest r) (linkBuffer r) (link_consumer r) (link_srcQueue r) v (m_vc_load r).
Definition with_m_vc_load {F : Type} (v : list Z) (r : NetworkLink F) : NetworkLink F :=
  mkNetworkLink (m_id r) (m_type r) (m_latency r) (m_link_src r) (m_link_dest r) (linkBuffer r) (link_consumer r) (link_srcQueue r) (m_link_utilized r) v.

Section NetworkLink.
Context `{FlitLike F}.

Definition NetworkLink_new (link_id link_latency vcs_per_vnet virt_nets : Z) : NetworkLink F :=
  mkNetworkLink link_id NUM_LINK_TYPES_ link_latency (-1) (-1) flitBuffer_new None None 0
    (replicate (Z.to_nat (vcs_per_vnet * virt_nets)) 0).

Definition setLinkConsumer (c : ConsumerRef) (l : NetworkLink F) : NetworkLink F :=
  with_link_consumer (Some c) l.
Definition setSourceQueue (q : QueueRef) (l : NetworkLink F) : NetworkLink F :=
  with_link_srcQueue (Some q) l.
Definition setType (t : link_type) (l : NetworkLink F) : NetworkLink F := with_m_type t l.
Definition set_link_src_dest (src dest : Z) (l : NetworkLink F) : NetworkLink F :=
  with_m_link_dest dest (with_m_link_src src l).

Definition isReady (curTime : Z) (l : NetworkLink F) : bool :=
  FlitBuffer.isReady curTime (linkBuffer l).
Definition peekLink (l : NetworkLink F) : result F := peekTopFlit (linkBuffer l).
Definition linkEmpty (l : NetworkLink F) : bool := isEmpty (linkBuffer l).
Definition consumeLink (l : NetworkLink F) : result (F * NetworkLink F) :=
  '(f, b) ← getTopFlit (linkBuffer l); Ok (f, with_linkBuffer b l).

(** [wakeup]: [srcQueue] is the buffer [link_srcQueue] points to. *)
Definition wakeup (cur : Z) (srcQueue : flitBuffer F) (l : NetworkLink F)
  : result (flitBuffer F * NetworkLink F * list Event) :=
  if FlitBuffer.isReady cur srcQueue then
    '(t_flit, src') ← getTopFlit srcQueue;
    let t_flit := put_time (cyc_add cur (m_latency l)) t_flit in
    let l1 := with_linkBuffer (insert t_flit (linkBuffer l)) l in
    consumer ← match link_consumer l with Some c => Ok c | None => Err EIndex end;
    let l2 := with_m_link_utilized (u32 (m_link_utilized l + 1)) l1 in
    load ← vec_modify (m_vc_load l) (get_vc t_flit) (fun n => u32 (n + 1));
    Ok (src', with_m_vc_load load l2, [(consumer, cyc_add cur (m_latency l))])
  else Ok (srcQueue, l, []).

Definition resetStats (l : NetworkLink F) : NetworkLink F :=
  with_m_link_utilized 0 (with_m_vc_load (map (fun _ => 0) (m_vc_load l)) l).

Definition functionalWrite (write : F -> bool * F) (l : NetworkLink F) : Z * NetworkLink F :=
  let '(n, b) := FlitBuffer.functionalWrite write (linkBuffer l) in (n, with_linkBuffer b l).

(** The flits on the wire. *)
Definition in_flight (l : NetworkLink F) : list F := m_buffer (linkBuffer l).

Lemma consumeLink_spec l f l' : consumeLink l = Ok (f, l') ->
  in_flight l ≡ₚ f :: in_flight l' /\ m_vc_load l' = m_vc_load l /\
  m_latency l' = m_latency l /\ link_consumer l' = link_consumer l.
Proof.
  unfold consumeLink, in_flight. intros Hc. inv_ok. cbn.
  split_and!; [by apply getTopFlit_Permutation | done | done | done].
Qed.

(** What one link wakeup does: nothing, or one ready flit moves with a new time stamp
    [cur + latency], and the consumer is woken at that cycle. *)
Lemma wakeup_spec `{!FlitLikeLaws F} cur src l src' l' evs :
  wakeup cur src l = Ok (src', l', evs) ->
  (src' = src /\ l' = l /\ evs = [] /\ FlitBuffer.isReady cur src = false) \/
  (exists f, peekTopFlit src = Ok f /\ get_time f <= cur /\
     m_buffer src ≡ₚ f :: m_buffer src' /\
     in_flight l' ≡ₚ put_time (cyc_add cur (m_latency l)) f :: in_flight l /\
     (exists c, link_consumer l = Some c /\ evs = [(c, cyc_add cur (m_latency l))]) /\
     vsize (m_vc_load l') = vsize (m_vc_load l) /\
     link_consumer l' = link_consumer l /\ m_latency l' = m_latency l).
Proof.
  unfold wakeup. destruct (FlitBuffer.isReady cur src) eqn:E.
  - intros Hw. right. apply isReady_spec in E as (f & Hf & Hle). inv_ok.
    rename select (getTopFlit _ = _) into Hg.
    pose proof (getTopFlit_peek _ _ _ Hg) as Hpk. rewrite Hf in Hpk. inv_ok.
    rename select (vec_modify _ _ _ = _) into Hv. unfold vec_modify in Hv. inv_ok.
    rename select (vec_set _ _ _ = _) into Hs. apply vec_set_Ok in Hs as [_ ->].
    destruct (link_consumer l) as [c|] eqn:Ec; inv_ok.
    eexists. unfold in_flight. cbn.
    split_and!; [done | done | by apply getTopFlit_Permutation | apply insert_Permutation
      | eauto | by rewrite vsize_insert | done | done].
  - intros Hw. inv_ok. by left.
Qed.

(** A wakeup cannot fail when the consumer is set and every queued VC has a load slot. *)
Lemma wakeup_total `{!FlitLikeLaws F} cur src l :
  is_Some (link_consumer l) ->
  (forall f, f ∈ m_buffer src -> 0 <= get_vc f < vsize (m_vc_load l)) ->
  exists r, wakeup cur src l = Ok r.
Proof.
  intros [c Hc] Hvc. unfold wakeup. destruct (FlitBuffer.isReady cur src) eqn:E; [|eauto].
  apply isReady_spec in E as (f & Hf & _).
  destruct (getTopFlit_total src) as (g & src' & Hg).
  { unfold peekTopFlit in Hf. by destruct (m_buffer src). }
  rewrite Hg. cbn. rewrite Hc. cbn. rewrite get_vc_put.
  assert (Hin : g ∈ m_buffer src) by (rewrite (getTopFlit_Permutation _ _ _ Hg); by left).
  destruct (vec_get_in_range (m_vc_load l) (get_vc g) (Hvc g Hin)) as [n Hn].
  unfold vec_modify. rewrite Hn. cbn. rewrite vec_set_in_range by auto. cbn. eauto.
Qed.
End NetworkLink.
