(* ===== verification/FlitQueueSpec.v ===== *)
(** * [flitBuffer] implements a timed priority queue

    The abstract queue is a multiset: [Put] adds an element, [Get] removes one that is not
    later than any other.  [flitBuffer] on a heap-ordered vector refines it, for flits and
    for credits alike. *)

From S2P Require Import Prelude Heap Flit FlitBuffer Consumer NetworkLink.
Local Open Scope Z_scope.

Inductive queue_op (F : Type) := Put (f : F) | Get.
Arguments Put {F} f.
Arguments Get {F}.

Section Queue.
Context {F : Type} `{!FlitLike F}.

(** The abstract queue: operations, content before, elements returned, content after. *)
Inductive queue_runs : list (queue_op F) -> list F -> list F -> list F -> Prop :=
  | queue_nil s : queue_runs [] s [] s
  | queue_put f ops s out s' : queue_runs ops (f :: s) out s' -> queue_runs (Put f :: ops) s out s'
  | queue_get f ops s s1 out s' :
      s ≡ₚ f :: s1 -> (forall g, g ∈ s -> not_later f g) -> queue_runs ops s1 out s' ->
      queue_runs (Get :: ops) s (f :: out) s'.

(** The buffer: [insert] and [getTopFlit]. *)
Fixpoint buffer_runs (ops : list (queue_op F)) (b : flitBuffer F) : result (list F * flitBuffer F) :=
  match ops with
  | [] => Ok ([], b)
  | Put f :: ops' => buffer_runs ops' (insert f b)
  | Get :: ops' =>
      '(f, b1) ← getTopFlit b;
      '(out, b2) ← buffer_runs ops' b1;
      Ok (f :: out, b2)
  end.

(** No [Get] meets an empty queue that holds [n] elements at first. *)
Fixpoint never_empty (n : nat) (ops : list (queue_op F)) : bool :=
  match ops with
  | [] => true
  | Put _ :: ops' => never_empty (S n) ops'
  | Get :: ops' => match n with O => false | S n' => never_empty n' ops' end
  end.

(** The abstract queue does not see the order in which its content is listed. *)
#[export] Instance queue_runs_proper ops : Proper ((≡ₚ) ==> eq ==> (≡ₚ) ==> impl) (fun s out s' => 
  exists s1', queue_runs ops s out s1' /\ s1' ≡ₚ s').
Proof.
  intros s t Hst out ? <- s' t' Hst' (s1' & Hr & Hp).
  assert (H : exists t1, queue_runs ops t out t1 /\ t1 ≡ₚ s1').
  { clear Hp Hst' s' t'. revert t Hst. induction Hr as [s | f ops s out s' Hr IH | f ops s s1 out s' Hs Hmin Hr IH]; intros t Hst.
    - exists t. split; [constructor | done].
    - destruct (IH (f :: t)) as (t1 & H1 & H2); [by rewrite Hst|]. exists t1. split; [by constructor | done].
    - destruct (IH s1) as (t1 & H1 & H2); [done|]. exists t1. split; [|done].
      apply queue_get with s1; [by rewrite <- Hst | | done]. intros g Hg. apply Hmin. by rewrite Hst. }
  destruct H as (t1 & H1 & H2). exists t1. split; [done|]. by rewrite H2, Hp.
Qed.

Lemma buffer_refines ops b : heap_ok b -> never_empty (length (m_buffer b)) ops = true ->
  exists out b' s', buffer_runs ops b = Ok (out, b') /\ heap_ok b' /\
    queue_runs ops (m_buffer b) out s' /\ s' ≡ₚ m_buffer b'.
Proof.
  revert b. induction ops as [|[f|] ops IH]; intros b Hb Hne; cbn [buffer_runs never_empty] in *.
  - exists [], b, (m_buffer b). split_and!; [done | done | constructor | done].
  - destruct (IH (insert f b)) as (out & b' & s' & Hr & Hb' & Hq & Hs); [by apply insert_heap_ok | by rewrite length_insert_flit|].
    destruct (queue_runs_proper ops _ _ (insert_Permutation f b) out out eq_refl s' s' (Permutation_refl _)) as (s1 & H1 & H2);
      [by exists s'|].
    exists out, b', s1. split_and!; [done | done | by constructor | by rewrite H2].
  - destruct (m_buffer b) as [|x l] eqn:E; [done|].
    destruct (getTopFlit_total b) as (f & b1 & Hg); [by rewrite E|]. rewrite Hg. cbn [mbind result_bind].
    pose proof (length_getTopFlit _ _ _ Hg) as Hl. rewrite E in Hl. cbn in Hl.
    destruct (IH b1) as (out & b' & s' & -> & Hb' & Hq & Hs);
      [by apply (getTopFlit_heap_ok _ _ _ Hb Hg) | injection Hl as Hl; by rewrite <- Hl|].
    cbn [mbind result_bind]. exists (f :: out), b', s'. split_and!; [done | done | | done].
    rewrite <- E. apply queue_get with (m_buffer b1); [exact (getTopFlit_Permutation _ _ _ Hg) | | done].
    apply (peekTopFlit_min b); [done | exact (getTopFlit_peek _ _ _ Hg)].
Qed.

Lemma buffer_underflow ops b : never_empty (length (m_buffer b)) ops = false -> buffer_runs ops b = Err EAssert.
Proof.
  revert b. induction ops as [|[f|] ops IH]; intros b Hne; cbn [buffer_runs never_empty] in *; [done | |].
  - apply IH. by rewrite length_insert_flit.
  - destruct (m_buffer b) as [|x l] eqn:E.
    + unfold getTopFlit. by rewrite E.
    + destruct (getTopFlit_total b) as (f & b1 & Hg); [by rewrite E|]. rewrite Hg. cbn [mbind result_bind].
      pose proof (length_getTopFlit _ _ _ Hg) as Hl. rewrite E in Hl. injection Hl as Hl.
      rewrite IH; [done | by rewrite <- Hl].
Qed.

(** C19: A flit buffer refines the timed priority queue.  Whatever sequence of insertions and
    removals is run on a new buffer, it returns exactly when no removal meets an empty queue
    (and stops on an assertion otherwise); the elements it returns are those an
    abstract queue returns, every one of them the earliest at that moment, and what it still
    holds is what the abstract queue holds. *)
Theorem flitBuffer_refines_queue ops :
  (never_empty 0 ops = true /\ exists out b s', buffer_runs ops flitBuffer_new = Ok (out, b) /\
     queue_runs ops [] out s' /\ s' ≡ₚ m_buffer b) \/
  (never_empty 0 ops = false /\ buffer_runs ops flitBuffer_new = Err EAssert).
Proof.
  destruct (never_empty 0 ops) eqn:E; [left | right]; (split; [done|]).
  - destruct (buffer_refines ops flitBuffer_new) as (out & b & s' & H1 & _ & H2 & H3); [apply heap_ok_new | done|].
    by exists out, b, s'.
  - by apply buffer_underflow.
Qed.

(** The two buffers at the ends of a link. *)
Context `{!FlitLikeLaws F}.

(** A link is a delay line.  When its ends are set up, a wakeup returns.  If the earliest
    element of the source queue is due, exactly that one moves onto the link, due [latency]
    cycles later, and the receiver is woken then; if nothing is due, nothing changes.  The
    queues at both ends stay in heap order and the per-VC load counters keep their size. *)
Theorem link_wakeup_correct cur (src : flitBuffer F) (l : NetworkLink F) c :
  heap_ok src -> heap_ok (linkBuffer l) -> link_consumer l = Some c ->
  (forall f, f ∈ m_buffer src -> 0 <= get_vc f < vsize (m_vc_load l)) ->
  exists src' l' evs, NetworkLink.wakeup cur src l = Ok (src', l', evs) /\
    ((src' = src /\ l' = l /\ evs = [] /\ forall f, f ∈ m_buffer src -> cur < get_time f) \/
     (exists f, m_buffer src ≡ₚ f :: m_buffer src' /\ get_time f <= cur /\ (forall g, g ∈ m_buffer src -> not_later f g) /\
        in_flight l' ≡ₚ put_time (cyc_add cur (m_latency l)) f :: in_flight l /\
        evs = [(c, cyc_add cur (m_latency l))])) /\
    heap_ok src' /\ heap_ok (linkBuffer l') /\ vsize (m_vc_load l') = vsize (m_vc_load l).
Proof.
  intros Hs Hl Hc Hvc. destruct (wakeup_total cur src l) as [[[src' l'] evs] Hw]; [by rewrite Hc | done|].
  exists src', l', evs. split; [done|].
  destruct (wakeup_spec cur src l src' l' evs Hw) as [(-> & -> & -> & Hr) | (f & Hf & Hle & Hp & Hq & (c' & Hc' & ->) & Hv & _)].
  - split_and!; [|done..]. left. split_and!; [done..|]. intros f Hin. apply Z.nle_gt. intros Hle.
    assert (FlitBuffer.isReady cur src = true) by (apply isReady_iff_exists; eauto). congruence.
  - split_and!; [| | |done].
    + right. exists f. split_and!; [done | done | by apply peekTopFlit_min | done | congruence].
    + unfold NetworkLink.wakeup in Hw. destruct (FlitBuffer.isReady cur src); [|by apply Ok_inj in Hw as [= <- <- _]].
      apply bind_Ok in Hw as ([g b] & Hg & Hw). inv_ok. by apply (getTopFlit_heap_ok _ _ _ Hs Hg).
    + unfold NetworkLink.wakeup in Hw. destruct (FlitBuffer.isReady cur src); [|by apply Ok_inj in Hw as [= <- <- _]].
      apply bind_Ok in Hw as ([g b] & Hg & Hw). inv_ok. cbn. by apply insert_heap_ok.
Qed.
End Queue.

(** Two credits wait for a link of latency 2; the one due in cycle 5 is taken in cycle 6. *)
Definition ex_credit_src : flitBuffer Credit :=
  insert (Credit_new 0 true 5) (insert (Credit_new 1 true 9) flitBuffer_new).
Definition ex_credit_line : NetworkLink Credit := setLinkConsumer (CRouter 3) (NetworkLink_new 2 1 2 1).

Lemma link_wakeup_correct_witness : exists src' l' evs, 
  NetworkLink.wakeup 6 ex_credit_src ex_credit_line = Ok (src', l', evs) /\ heap_ok src' /\ evs <> [].
Proof.
  destruct (link_wakeup_correct 6 ex_credit_src ex_credit_line (CRouter 3)) as (src' & l' & evs & Hw & _ & Hs & _).
  - apply insert_heap_ok, insert_heap_ok, heap_ok_new.
  - apply heap_ok_new.
  - reflexivity.
  - intros f Hf. vm_compute in Hf. apply elem_of_cons in Hf as [-> | ->%list_elem_of_singleton]; vm_compute; split; congruence.
  - exists src', l', evs. split; [exact Hw|]. split; [exact Hs|]. vm_compute in Hw. injection Hw as <- <- <-. discriminate.
Defined.
