(* ===== verification/OutputUnit.v ===== *)
(** * [OutputUnit] (OutputUnit.hh, OutputUnit.cc)

    The sending side of a channel: one [OutVcState] per downstream VC and the queue the
    network link drains.  [wakeup] consumes the credits coming back. *)

From S2P Require Import Prelude Flit FlitBuffer Consumer Config OutVcState NetworkLink.
Local Open Scope Z_scope.

Record OutputUnit := mkOutputUnit {
  m_id : Z;
  m_direction : PortDirection;
  m_num_vcs : Z;
  m_vc_per_vnet : Z;
  m_dest_router : Z;
  m_out_link : Z;
  m_credit_link : Z;
  m_out_buffer : flitBuffer flit;
  m_outvc_state : list OutVcState
}.

Definition with_m_dest_router (v : Z) (r : OutputUnit) : OutputUnit :=
  mkOutputUnit (m_id r) (m_direction r) (m_num_vcs r) (m_vc_per_vnet r) v (m_out_link r) (m_credit_link r) (m_out_buffer r) (m_outvc_state r).
Definition with_m_out_link (v : Z) (r : OutputUnit) : OutputUnit :=
  mkOutputUnit (m_id r) (m_direction r) (m_num_vcs r) (m_vc_per_vnet r) (m_dest_router r) v (m_credit_link r) (m_out_buffer r) (m_outvc_state r).
Definition with_m_credit_link (v : Z) (r : OutputUnit) : OutputUnit :=
  mkOutputUnit (m_id r) (m_direction r) (m_num_vcs r) (m_vc_per_vnet r) (m_dest_router r) (m_out_link r) v (m_out_buffer r) (m_outvc_state r).
Definition with_m_out_buffer (v : flitBuffer flit) (r : OutputUnit) : OutputUnit :=
  mkOutputUnit (m_id r) (m_direction r) (m_num_vcs r) (m_vc_per_vnet r) (m_dest_router r) (m_out_link r) (m_credit_link r) v (m_outvc_state r).
Definition with_m_outvc_state (v : list OutVcState) (r : OutputUnit) : OutputUnit :=
  mkOutputUnit (m_id r) (m_direction r) (m_num_vcs r) (m_vc_per_vnet r) (m_dest_router r) (m_out_link r) (m_credit_link r) (m_out_buffer r) v.

Definition OutputUnit_new (id : Z) (direction : PortDirection) (num_vcs vc_per_vnet : Z) (c : Config)
  : result OutputUnit :=
  st ← for_range (Z.to_nat num_vcs) 0 (fun i l => o ← OutVcState_new i c; Ok (l ++ [o])) [];
  Ok (mkOutputUnit id direction num_vcs vc_per_vnet (-1) (-1) (-1) flitBuffer_new st).

Definition set_out_link (link : Z) (ou : OutputUnit) : OutputUnit := with_m_out_link link ou.
Definition set_credit_link (link : Z) (ou : OutputUnit) : OutputUnit := with_m_credit_link link ou.
Definition set_dest_router (dest : Z) (ou : OutputUnit) : OutputUnit := with_m_dest_router dest ou.
Definition get_dest_router (ou : OutputUnit) : Z := m_dest_router ou.
Definition get_direction (ou : OutputUnit) : PortDirection := m_direction ou.

Definition decrement_credit (out_vc : Z) (ou : OutputUnit) : result OutputUnit :=
  l ← vec_update (m_outvc_state ou) out_vc OutVcState.decrement_credit;
  Ok (with_m_outvc_state l ou).

Definition increment_credit (out_vc : Z) (ou : OutputUnit) : result OutputUnit :=
  l ← vec_update (m_outvc_state ou) out_vc OutVcState.increment_credit;
  Ok (with_m_outvc_state l ou).

Definition has_credit (cur out_vc : Z) (ou : OutputUnit) : result bool :=
  o ← vec_get (m_outvc_state ou) out_vc;
  assert_ (isInState ACTIVE_ cur o) ;;
  Ok (OutVcState.has_credit o).

Definition set_vc_state (state : VC_state_type) (vc curTime : Z) (ou : OutputUnit) : result OutputUnit :=
  l ← vec_modify (m_outvc_state ou) vc (setState state curTime);
  Ok (with_m_outvc_state l ou).

Definition is_vc_idle (vc curTime : Z) (ou : OutputUnit) : result bool :=
  o ← vec_get (m_outvc_state ou) vc; Ok (isInState IDLE_ curTime o).

(** The first idle VC of [n] VCs from [vc] on: the loop [has_free_vc] and
    [select_free_vc] share. *)
Fixpoint first_idle (n : nat) (vc cur : Z) (ou : OutputUnit) : result (option Z) :=
  match n with
  | O => Ok None
  | S n' => idle ← is_vc_idle vc cur ou;
            if idle : bool then Ok (Some vc) else first_idle n' (vc + 1) cur ou
  end.

Definition has_free_vc (cur vnet : Z) (ou : OutputUnit) : result bool :=
  r ← first_idle (Z.to_nat (m_vc_per_vnet ou)) (vnet * m_vc_per_vnet ou) cur ou;
  Ok (match r with Some _ => true | None => false end).

Definition select_free_vc (cur vnet : Z) (ou : OutputUnit) : result (Z * OutputUnit) :=
  r ← first_idle (Z.to_nat (m_vc_per_vnet ou)) (vnet * m_vc_per_vnet ou) cur ou;
  match r with
  | Some vc => ou' ← set_vc_state ACTIVE_ vc cur ou; Ok (vc, ou')
  | None => Ok (-1, ou)
  end.

Definition getNumFreeVCs (cur vnet : Z) (ou : OutputUnit) : result Z :=
  for_range (Z.to_nat (m_vc_per_vnet ou)) (vnet * m_vc_per_vnet ou)
    (fun vc freeVC => idle ← is_vc_idle vc cur ou; Ok (if idle : bool then freeVC + 1 else freeVC)) 0.

(** [insert_flit] also schedules the out link for the next cycle. *)
Definition insert_flit (cur : Z) (t_flit : flit) (ou : OutputUnit) : OutputUnit * list Event :=
  (with_m_out_buffer (insert t_flit (m_out_buffer ou)) ou, [(CNetLink (m_out_link ou), cyc_add cur 1)]).

Definition wakeup (cur : Z) (credit_link : NetworkLink Credit) (ou : OutputUnit)
  : result (NetworkLink Credit * OutputUnit) :=
  if NetworkLink.isReady cur credit_link then
    '(t_credit, link') ← consumeLink credit_link;
    ou1 ← increment_credit (c_vc t_credit) ou;
    ou2 ← (if m_is_free_signal t_credit then set_vc_state IDLE_ (c_vc t_credit) cur ou1 else Ok ou1);
    Ok (link', ou2)
  else Ok (credit_link, ou).

Definition functionalWrite (write : flit -> bool * flit) (ou : OutputUnit) : Z * OutputUnit :=
  let '(n, b) := FlitBuffer.functionalWrite write (m_out_buffer ou) in (n, with_m_out_buffer b ou).

(** ** Properties *)

(** [o] is the state of VC [vc]. *)
Definition outvc (ou : OutputUnit) (vc : Z) (o : OutVcState) : Prop :=
  vec_get (m_outvc_state ou) vc = Ok o.

Lemma first_idle_Some n vc cur ou v :
  first_idle n vc cur ou = Ok (Some v) ->
  vc <= v < vc + Z.of_nat n /\ is_vc_idle v cur ou = Ok true /\
  (forall u, vc <= u < v -> is_vc_idle u cur ou = Ok false).
Proof.
  revert vc. induction n as [|n IH]; intros vc; cbn [first_idle]; [done|]. intros H. inv_ok.
  destruct x; inv_ok.
  - split_and!; [lia | lia | done | lia].
  - destruct (IH (vc + 1)) as (H1 & H2 & H3); [done|]. split_and!; [lia | lia | done|].
    intros u Hu. destruct (decide (u = vc)) as [->|]; [done|]. apply H3. lia.
Qed.

Lemma first_idle_None n vc cur ou :
  first_idle n vc cur ou = Ok None ->
  forall u, vc <= u < vc + Z.of_nat n -> is_vc_idle u cur ou = Ok false.
Proof.
  revert vc. induction n as [|n IH]; intros vc; cbn [first_idle]; [lia|]. intros H. inv_ok.
  destruct x; inv_ok. intros u Hu. destruct (decide (u = vc)) as [->|]; [done|].
  apply (IH (vc + 1)); [done | lia].
Qed.

Lemma first_idle_total n vc cur ou :
  0 <= vc -> vc + Z.of_nat n <= vsize (m_outvc_state ou) -> exists r, first_idle n vc cur ou = Ok r.
Proof.
  revert vc. induction n as [|n IH]; intros vc H0 H1; cbn [first_idle]; [eauto|].
  unfold is_vc_idle. destruct (vec_get_in_range (m_outvc_state ou) vc) as [o ->]; [lia|]. cbn.
  destruct (isInState IDLE_ cur o); [eauto|]. apply IH; lia.
Qed.

(** Allocation succeeds exactly when the check did, and then marks that VC ACTIVE. *)
Lemma select_free_vc_spec cur vnet ou vc ou' :
  select_free_vc cur vnet ou = Ok (vc, ou') ->
  (vc = -1 /\ ou' = ou /\ has_free_vc cur vnet ou = Ok false) \/
  (vnet * m_vc_per_vnet ou <= vc < vnet * m_vc_per_vnet ou + Z.max 0 (m_vc_per_vnet ou) /\
   has_free_vc cur vnet ou = Ok true /\ is_vc_idle vc cur ou = Ok true /\
   set_vc_state ACTIVE_ vc cur ou = Ok ou').
Proof.
  unfold select_free_vc, has_free_vc. intros H. inv_ok.
  rename select (first_idle _ _ _ _ = _) into Hf. rewrite Hf. destruct x as [v|]; inv_ok.
  - right. apply first_idle_Some in Hf as (H1 & H2 & _). split_and!; try done; lia.
  - left. done.
Qed.

Lemma select_free_vc_total cur vnet ou :
  0 <= vnet * m_vc_per_vnet ou -> 0 <= m_vc_per_vnet ou ->
  vnet * m_vc_per_vnet ou + m_vc_per_vnet ou <= vsize (m_outvc_state ou) ->
  exists r, select_free_vc cur vnet ou = Ok r.
Proof.
  intros H0 H1 H2. unfold select_free_vc.
  destruct (first_idle_total (Z.to_nat (m_vc_per_vnet ou)) (vnet * m_vc_per_vnet ou) cur ou)
    as [r Hr]; [lia | lia|].
  rewrite Hr. cbn. destruct r as [v|]; [|eauto].
  apply first_idle_Some in Hr as (Hv & _ & _).
  unfold set_vc_state, vec_modify.
  destruct (vec_get_in_range (m_outvc_state ou) v) as [o Ho]; [lia|]. rewrite Ho. cbn.
  rewrite vec_set_in_range by lia. cbn. eauto.
Qed.
