(* ===== verification/InputUnit.v ===== *)
(** * [InputUnit] (InputUnit.hh, InputUnit.cc)

    The receiving side of a channel: the virtual channels, and the queue of credits that
    go back upstream.  [wakeup] reads one flit from the input link; route computation is a
    call into the router and, for the adaptive algorithms, into neighbouring routers, so
    [wakeup] is parameterised by the world [W] that call reads and changes (none of the
    routing algorithms reads the input unit that calls it). *)

From S2P Require Import Prelude Flit FlitBuffer Consumer VirtualChannel NetworkLink.
Local Open Scope Z_scope.

Record InputUnit := mkInputUnit {
  m_id : Z;
  m_direction : PortDirection;
  m_num_vcs : Z;
  m_vc_per_vnet : Z;
  m_src_router : Z;
  m_in_link : Z;
  m_credit_link : Z;
  creditQueue : flitBuffer Credit;
  m_vcs : list VirtualChannel;
  m_num_buffer_writes : list Z;
  m_num_buffer_reads : list Z
}.

Definition with_m_src_router (v : Z) (r : InputUnit) : InputUnit :=
  mkInputUnit (m_id r) (m_direction r) (m_num_vcs r) (m_vc_per_vnet r) v (m_in_link r) (m_credit_link r) (creditQueue r) (m_vcs r) (m_num_buffer_writes r) (m_num_buffer_reads r).
Definition with_m_in_link (v : Z) (r : InputUnit) : InputUnit :=
  mkInputUnit (m_id r) (m_direction r) (m_num_vcs r) (m_vc_per_vnet r) (m_src_router r) v (m_credit_link r) (creditQueue r) (m_vcs r) (m_num_buffer_writes r) (m_num_buffer_reads r).
Definition with_m_credit_link (v : Z) (r : InputUnit) : InputUnit :=
  mkInputUnit (m_id r) (m_direction r) (m_num_vcs r) (m_vc_per_vnet r) (m_src_router r) (m_in_link r) v (creditQueue r) (m_vcs r) (m_num_buffer_writes r) (m_num_buffer_reads r).
Definition with_creditQueue (v : flitBuffer Credit) (r : InputUnit) : InputUnit :=
  mkInputUnit (m_id r) (m_direction r) (m_num_vcs r) (m_vc_per_vnet r) (m_src_router r) (m_in_link r) (m_credit_link r) v (m_vcs r) (m_num_buffer_writes r) (m_num_buffer_reads r).
Definition with_m_vcs (v : list VirtualChannel) (r : InputUnit) : InputUnit :=
  mkInputUnit (m_id r) (m_direction r) (m_num_vcs r) (m_vc_per_vnet r) (m_src_router r) (m_in_link r) (m_credit_link r) (creditQueue r) v (m_num_buffer_writes r) (m_num_buffer_reads r).
Definition with_m_num_buffer_writes (v : list Z) (r : InputUnit) : InputUnit :=
  mkInputUnit (m_id r) (m_direction r) (m_num_vcs r) (m_vc_per_vnet r) (m_src_router r) (m_in_link r) (m_credit_link r) (creditQueue r) (m_vcs r) v (m_num_buffer_reads r).
Definition with_m_num_buffer_reads (v : list Z) (r : InputUnit) : InputUnit :=
  mkInputUnit (m_id r) (m_direction r) (m_num_vcs r) (m_vc_per_vnet r) (m_src_router r) (m_in_link r) (m_credit_link r) (creditQueue r) (m_vcs r) (m_num_buffer_writes r) v.

Definition InputUnit_new (id : Z) (direction : PortDirection) (num_vcs vc_per_vnet : Z)
  : result InputUnit :=
  if vc_per_vnet =? 0 then Err EDiv else
  let n := Z.to_nat (num_vcs `quot` vc_per_vnet) in
  Ok (mkInputUnit id direction num_vcs vc_per_vnet (-1) (-1) (-1) flitBuffer_new
        (map (fun i => VirtualChannel_new (Z.of_nat i)) (seq 0 (Z.to_nat num_vcs)))
        (replicate n 0) (replicate n 0)).

Definition get_direction (iu : InputUnit) : PortDirection := m_direction iu.
Definition get_id (iu : InputUnit) : Z := m_id iu.
Definition get_src_router (iu : InputUnit) : Z := m_src_router iu.
Definition set_src_router (src : Z) (iu : InputUnit) : InputUnit := with_m_src_router src iu.
Definition set_in_link (link : Z) (iu : InputUnit) : InputUnit := with_m_in_link link iu.
Definition set_credit_link (link : Z) (iu : InputUnit) : InputUnit := with_m_credit_link link iu.

(** Apply [f] to VC [vc]. *)
Definition on_vc (vc : Z) (f : VirtualChannel -> VirtualChannel) (iu : InputUnit) : result InputUnit :=
  l ← vec_modify (m_vcs iu) vc f; Ok (with_m_vcs l iu).

Definition set_vc_idle (vc curTime : Z) : InputUnit -> result InputUnit := on_vc vc (set_idle curTime).
Definition set_vc_active (vc curTime : Z) : InputUnit -> result InputUnit := on_vc vc (set_active curTime).
Definition grant_outport (vc outport : Z) : InputUnit -> result InputUnit :=
  on_vc vc (VirtualChannel.set_outport outport).
Definition grant_outvc (vc outvc : Z) : InputUnit -> result InputUnit := on_vc vc (set_outvc outvc).
Definition insertFlit (vc : Z) (t_flit : flit) : InputUnit -> result InputUnit :=
  on_vc vc (VirtualChannel.insertFlit t_flit).

Definition get_outport (invc : Z) (iu : InputUnit) : result Z :=
  v ← vec_get (m_vcs iu) invc; Ok (VirtualChannel.get_outport v).
Definition get_outvc (invc : Z) (iu : InputUnit) : result Z :=
  v ← vec_get (m_vcs iu) invc; Ok (VirtualChannel.get_outvc v).
Definition get_enqueue_time (invc : Z) (iu : InputUnit) : result Z :=
  v ← vec_get (m_vcs iu) invc; Ok (VirtualChannel.get_enqueue_time v).
Definition peekTopFlit (vc : Z) (iu : InputUnit) : result flit :=
  v ← vec_get (m_vcs iu) vc; VirtualChannel.peekTopFlit v.
Definition getTopFlit (vc : Z) (iu : InputUnit) : result (flit * InputUnit) :=
  v ← vec_get (m_vcs iu) vc;
  '(f, v') ← VirtualChannel.getTopFlit v;
  l ← vec_set (m_vcs iu) vc v';
  Ok (f, with_m_vcs l iu).
Definition need_stage (vc : Z) (stage : flit_stage) (time : Z) (iu : InputUnit) : result bool :=
  v ← vec_get (m_vcs iu) vc; VirtualChannel.need_stage stage time v.
Definition isReady (invc curTime : Z) (iu : InputUnit) : result bool :=
  v ← vec_get (m_vcs iu) invc; Ok (VirtualChannel.isReady curTime v).
Definition vc_isEmpty (vcId : Z) (iu : InputUnit) : result bool :=
  v ← vec_get (m_vcs iu) vcId; Ok (VirtualChannel.isEmpty v).

(** Free VCs of vnet 0 ("since we always use vnet=0"). *)
Definition get_numFreeVC (dirn_ : PortDirection) (iu : InputUnit) : result Z :=
  assert_ (String.eqb dirn_ (m_direction iu)) ;;
  for_range (Z.to_nat (m_vc_per_vnet iu)) 0
    (fun vc_ freeVC => e ← vc_isEmpty vc_ iu; Ok (if e : bool then freeVC + 1 else freeVC)) 0.

(** Send a credit upstream; the credit link is scheduled for the next cycle. *)
Definition increment_credit (in_vc : Z) (free_signal : bool) (curTime : Z) (iu : InputUnit)
  : InputUnit * list Event :=
  (with_creditQueue (insert (Credit_new in_vc free_signal curTime) (creditQueue iu)) iu,
   [(CCreditLink (m_credit_link iu), cyc_add curTime 1)]).

Definition resetStats (iu : InputUnit) : InputUnit :=
  with_m_num_buffer_writes (map (fun _ => 0) (m_num_buffer_writes iu))
    (with_m_num_buffer_reads (map (fun _ => 0) (m_num_buffer_reads iu)) iu).

Definition functionalWrite (write : flit -> bool * flit) (iu : InputUnit) : Z * InputUnit :=
  let rs := map (VirtualChannel.functionalWrite write) (m_vcs iu) in
  (foldr (fun r n => u32 (r.1 + n)) 0 rs, with_m_vcs (map snd rs) iu).

Section Wakeup.
Context {W : Type}.
Context (route_compute : RouteInfo -> Z -> PortDirection -> W -> result (Z * W)).
Context (getOutportDirection : Z -> W -> result PortDirection).
Context (num_outports : W -> Z).
Context (router_id : Z).

(** Route computation for a head flit: the VC becomes ACTIVE and remembers the port,
    and so does the flit. *)
Definition route_head (cur vc : Z) (t_flit : flit) (w : W) (iu : InputUnit)
  : result (flit * W * InputUnit) :=
  v ← vec_get (m_vcs iu) vc;
  assert_ (bool_decide (get_state v = IDLE_)) ;;
  iu1 ← set_vc_active vc cur iu;
  '(outport, w1) ← route_compute (m_route t_flit) (m_id iu) (m_direction iu) w;
  assert_ (u64 outport <? num_outports w1) ;;
  iu2 ← grant_outport vc outport iu1;
  let t1 := Flit.set_outport outport t_flit in
  outport_dirn ← getOutportDirection outport w1;
  Ok (set_outport_dirn outport_dirn t1, w1, iu2).

(** The flit pointer is stamped with its pipeline stage after it was put into the VC; the
    heap order does not read the stage, so the stamped flit is inserted here. *)
Definition wakeup (cur pipe_stages : Z) (w : W) (in_link : NetworkLink flit) (iu : InputUnit)
  : result (W * NetworkLink flit * InputUnit * list Event) :=
  if NetworkLink.isReady cur in_link then
    '(t0, link') ← consumeLink in_link;
    let vc := m_vc t0 in
    let t1 := increment_hops t0 in
    '(t2, w', iu1) ←
      (if is_head t1 then route_head cur vc t1 w iu
       else v ← vec_get (m_vcs iu) vc;
            assert_ (bool_decide (get_state v = ACTIVE_)) ;; Ok (t1, w, iu));
    '(t3, evs) ←
      (if pipe_stages =? 1 then Ok (advance_stage SA_ cur t2, [])
       else assert_ (1 <? pipe_stages) ;;
            wait_time ← cyc_sub pipe_stages 1;
            Ok (advance_stage SA_ (cyc_add cur wait_time) t2,
                [(CRouter router_id, cyc_add cur wait_time)]));
    iu2 ← insertFlit vc t3 iu1;
    (if m_vc_per_vnet iu =? 0 then Err EDiv else
     let vnet := vc `quot` m_vc_per_vnet iu in
     wr ← vec_modify (m_num_buffer_writes iu2) vnet (fun n => n + 1);
     rd ← vec_modify (m_num_buffer_reads iu2) vnet (fun n => n + 1);
     Ok (w', link', with_m_num_buffer_reads rd (with_m_num_buffer_writes wr iu2), evs))
  else Ok (w, in_link, iu, []).
End Wakeup.

(** ** Properties *)

(** All flits buffered in the unit. *)
Definition flits (iu : InputUnit) : list flit := concat (map VirtualChannel.flits (m_vcs iu)).

Definition iu_ok (now : Z) (iu : InputUnit) : Prop :=
  Forall (vc_ok now) (m_vcs iu) /\ vsize (m_vcs iu) = m_num_vcs iu.

Lemma on_vc_spec vc f iu iu' : on_vc vc f iu = Ok iu' <->
  exists v, vec_get (m_vcs iu) vc = Ok v /\ iu' = with_m_vcs (<[Z.to_nat vc := f v]> (m_vcs iu)) iu.
Proof.
  unfold on_vc, vec_modify. split.
  - intros H. inv_ok. rename select (vec_set _ _ _ = _) into Hs. apply vec_set_Ok in Hs as [_ ->].
    eauto.
  - intros (v & Hv & ->). rewrite Hv. cbn. rewrite vec_set_in_range by (by eapply vec_get_range). done.
Qed.

Lemma getTopFlit_spec vc iu f iu' : getTopFlit vc iu = Ok (f, iu') ->
  exists v v', vec_get (m_vcs iu) vc = Ok v /\ VirtualChannel.getTopFlit v = Ok (f, v') /\
    iu' = with_m_vcs (<[Z.to_nat vc := v']> (m_vcs iu)) iu.
Proof.
  unfold getTopFlit. intros H. inv_ok. rename select (vec_set _ _ _ = _) into Hs.
  apply vec_set_Ok in Hs as [_ ->]. eauto 10.
Qed.

Lemma on_vc_iu_ok now vc f iu iu' :
  (forall v, vec_get (m_vcs iu) vc = Ok v -> vc_ok now v -> vc_ok now (f v)) ->
  iu_ok now iu -> on_vc vc f iu = Ok iu' -> iu_ok now iu'.
Proof.
  intros Hf [Hall Hlen] (v & Hv & ->)%on_vc_spec. split; cbn; [|by rewrite vsize_insert].
  apply Forall_insert; [done|]. apply Hf; [done|].
  apply vec_get_Ok in Hv as [_ Hv]. by eapply Forall_lookup_1.
Qed.
