(* ===== verification/RoutingUnit.v ===== *)
(** * [RoutingUnit] (RoutingUnit.hh, RoutingUnit.cc)

    Routing tables filled at topology creation, the direction/index maps of a router's
    ports, and the six routing algorithms.  The algorithms that draw random numbers or
    look at the neighbours' free VCs are parameterised by the world [W] they read. *)

From S2P Require Import Prelude Flit RubySet NetDest.
Local Open Scope Z_scope.

Record RoutingUnit := mkRoutingUnit {
  m_routing_table : list NetDest;
  m_weight_table : list Z;
  m_inports_dirn2idx : gmap string Z;
  m_inports_idx2dirn : gmap Z string;
  m_outports_idx2dirn : gmap Z string;
  m_outports_dirn2idx : gmap string Z
}.

Definition with_m_routing_table (v : list NetDest) (r : RoutingUnit) : RoutingUnit :=
  mkRoutingUnit v (m_weight_table r) (m_inports_dirn2idx r) (m_inports_idx2dirn r) (m_outports_idx2dirn r) (m_outports_dirn2idx r).
Definition with_m_weight_table (v : list Z) (r : RoutingUnit) : RoutingUnit :=
  mkRoutingUnit (m_routing_table r) v (m_inports_dirn2idx r) (m_inports_idx2dirn r) (m_outports_idx2dirn r) (m_outports_dirn2idx r).
Definition with_m_inports_dirn2idx (v : gmap string Z) (r : RoutingUnit) : RoutingUnit :=
  mkRoutingUnit (m_routing_table r) (m_weight_table r) v (m_inports_idx2dirn r) (m_outports_idx2dirn r) (m_outports_dirn2idx r).
Definition with_m_inports_idx2dirn (v : gmap Z string) (r : RoutingUnit) : RoutingUnit :=
  mkRoutingUnit (m_routing_table r) (m_weight_table r) (m_inports_dirn2idx r) v (m_outports_idx2dirn r) (m_outports_dirn2idx r).
Definition with_m_outports_idx2dirn (v : gmap Z string) (r : RoutingUnit) : RoutingUnit :=
  mkRoutingUnit (m_routing_table r) (m_weight_table r) (m_inports_dirn2idx r) (m_inports_idx2dirn r) v (m_outports_dirn2idx r).
Definition with_m_outports_dirn2idx (v : gmap string Z) (r : RoutingUnit) : RoutingUnit :=
  mkRoutingUnit (m_routing_table r) (m_weight_table r) (m_inports_dirn2idx r) (m_inports_idx2dirn r) (m_outports_idx2dirn r) v.

Definition RoutingUnit_new : RoutingUnit := mkRoutingUnit [] [] ∅ ∅ ∅ ∅.

Definition addRoute (routing_table_entry : NetDest) (ru : RoutingUnit) : RoutingUnit :=
  with_m_routing_table (m_routing_table ru ++ [routing_table_entry]) ru.

Definition addWeight (link_weight : Z) (ru : RoutingUnit) : RoutingUnit :=
  with_m_weight_table (m_weight_table ru ++ [link_weight]) ru.

Definition addInDirection (inport_dirn : PortDirection) (inport_idx : Z) (ru : RoutingUnit) : RoutingUnit :=
  with_m_inports_idx2dirn (<[inport_idx := inport_dirn]> (m_inports_idx2dirn ru))
    (with_m_inports_dirn2idx (<[inport_dirn := inport_idx]> (m_inports_dirn2idx ru)) ru).

Definition addOutDirection (outport_dirn : PortDirection) (outport_idx : Z) (ru : RoutingUnit)
  : RoutingUnit :=
  with_m_outports_idx2dirn (<[outport_idx := outport_dirn]> (m_outports_idx2dirn ru))
    (with_m_outports_dirn2idx (<[outport_dirn := outport_idx]> (m_outports_dirn2idx ru)) ru).

(** [std::map::operator[]]: a missing key is inserted with value 0. *)
Definition map_index (k : string) (m : gmap string Z) : Z * gmap string Z :=
  match m !! k with Some v => (v, m) | None => (0, <[k := 0]> m) end.

(** [m_outports_dirn2idx[outport_dirn]] *)
Definition outport_of_dirn (d : PortDirection) (ru : RoutingUnit) : Z * RoutingUnit :=
  let '(v, m) := map_index d (m_outports_dirn2idx ru) in (v, with_m_outports_dirn2idx m ru).

(** ** Table lookup *)

(** The minimum weight over links whose entry intersects the destination. *)
Definition min_candidate_weight (dest : NetDest) (ru : RoutingUnit) : result Z :=
  for_range (length (m_routing_table ru)) 0
    (fun link min_weight =>
       entry ← vec_get (m_routing_table ru) link;
       hit ← intersectionIsNotEmpty dest entry;
       if hit : bool then
         w ← vec_get (m_weight_table ru) link;
         Ok (if w <=? min_weight then w else min_weight)
       else Ok min_weight) INFINITE_.

(** All links of that weight, in order. *)
Definition output_link_candidates (dest : NetDest) (min_weight : Z) (ru : RoutingUnit) : result (list Z) :=
  for_range (length (m_routing_table ru)) 0
    (fun link cands =>
       entry ← vec_get (m_routing_table ru) link;
       hit ← intersectionIsNotEmpty dest entry;
       if hit : bool then
         w ← vec_get (m_weight_table ru) link;
         Ok (if w =? min_weight then cands ++ [link] else cands)
       else Ok cands) [].

(** The candidate whose output unit has most free VCs, the first one on a tie:
    [max]/[candidate] start at -1. *)
Fixpoint best_candidate (free : Z -> result Z) (cands : list Z) (max : Z) (candidate : option Z)
  : result (option Z) :=
  match cands with
  | [] => Ok candidate
  | l :: cands' =>
      n ← free l;
      if max <? n then best_candidate free cands' n (Some l) else best_candidate free cands' max candidate
  end.

(** [free link] is [getNumFreeVCs(vnet)] of output unit [link]. *)
Definition lookupRoutingTable (free : Z -> result Z) (msg_destination : NetDest) (ru : RoutingUnit)
  : result Z :=
  min_weight ← min_candidate_weight msg_destination ru;
  cands ← output_link_candidates msg_destination min_weight ru;
  match cands with
  | [] => Err EFatal
  | _ => c ← best_candidate free cands (-1) None;
         match c with Some l => Ok l | None => Err EThrow end
  end.

(** ** Mesh algorithms *)

(** The position of the destination relative to this router, as every mesh algorithm
    computes it before it chooses. *)
Record Geometry := mkGeometry { x_hops : Z; y_hops : Z; x_dirn : bool; y_dirn : bool }.

Definition mesh_geometry (num_rows num_cols my_id dest_id : Z) : result Geometry :=
  assert_ ((0 <? num_rows) && (0 <? num_cols)) ;;
  let my_x := Z.rem my_id num_cols in
  let my_y := Z.quot my_id num_cols in
  let dest_x := Z.rem dest_id num_cols in
  let dest_y := Z.quot dest_id num_cols in
  let x_hops := Z.abs (dest_x - my_x) in
  let y_hops := Z.abs (dest_y - my_y) in
  assert_ (negb ((x_hops =? 0) && (y_hops =? 0))) ;;
  Ok (mkGeometry x_hops y_hops (my_x <=? dest_x) (my_y <=? dest_y)).

Definition dirn_XY (g : Geometry) : result PortDirection :=
  if 0 <? x_hops g then Ok (if x_dirn g then "East" else "West")%string
  else if 0 <? y_hops g then Ok (if y_dirn g then "North" else "South")%string
  else Err EPanic.

(** [router_<dir>->get_numFreeVC(<opposite of dir>)] is [freeVC dir] below. *)
Section Mesh.
Context {W : Type} (random : W -> Z * W) (freeVC : PortDirection -> W -> result (Z * W)).

Definition random_bit (w : W) : bool * W :=
  let '(n, w') := random w in (negb (Z.rem n 2 =? 0), w').

Definition dirn_Random (g : Geometry) (w : W) : result (PortDirection * W) :=
  if x_hops g =? 0 then Ok ((if y_dirn g then "North" else "South")%string, w)
  else if y_hops g =? 0 then Ok ((if x_dirn g then "East" else "West")%string, w)
  else
    let '(rand, w') := random_bit w in
    Ok ((if x_dirn g && y_dirn g then if rand then "East" else "North"
         else if negb (x_dirn g) && y_dirn g then if rand then "West" else "North"
         else if negb (x_dirn g) && negb (y_dirn g) then if rand then "West" else "South"
         else if rand then "East" else "South")%string, w').

(** Compare two neighbours' free VCs: the larger count wins, a tie goes to [a] when the
    random bit is set and to [b] otherwise. *)
Definition more_free (a b : PortDirection) (rand : bool) (w : W)
  : result (PortDirection * W) :=
  '(fa, w1) ← freeVC a w;
  '(fb, w2) ← freeVC b w1;
  Ok (if fb <? fa then a else if fa <? fb then b else if rand then a else b, w2).

Definition dirn_AdaptRand (g : Geometry) (w : W) : result (PortDirection * W) :=
  if x_hops g =? 0 then Ok ((if y_dirn g then "North" else "South")%string, w)
  else if y_hops g =? 0 then Ok ((if x_dirn g then "East" else "West")%string, w)
  else
    let '(rand, w') := random_bit w in
    if x_dirn g && y_dirn g then more_free "East" "North" rand w'
    else if negb (x_dirn g) && y_dirn g then more_free "West" "North" rand w'
    else if negb (x_dirn g) && negb (y_dirn g) then more_free "West" "South" rand w'
    else more_free "East" "South" rand w'.

Definition dirn_WestFirst (g : Geometry) (w : W) : result (PortDirection * W) :=
  let '(rand, w') := random_bit w in
  Ok ((if (x_hops g =? 0)%Z then if y_dirn g then "North" else "South"
       else if (y_hops g =? 0)%Z then if x_dirn g then "East" else "West"
       else if negb (x_dirn g) then "West"
       else if y_dirn g then if rand then "East" else "North"
       else if rand then "East" else "South")%string, w').

Definition dirn_AdaptWestFirst (g : Geometry) (w : W) : result (PortDirection * W) :=
  let '(rand, w') := random_bit w in
  if x_hops g =? 0 then Ok ((if y_dirn g then "North" else "South")%string, w')
  else if y_hops g =? 0 then Ok ((if x_dirn g then "East" else "West")%string, w')
  else if negb (x_dirn g) then Ok ("West"%string, w')
  else if y_dirn g then more_free "East" "North" rand w'
  else more_free "East" "South" rand w'.

(** The direction a mesh algorithm chooses; [None] for the table algorithms. *)
Definition mesh_dirn (alg : RoutingAlgorithm) (num_rows num_cols my_id dest_id : Z) (w : W)
  : option (result (PortDirection * W)) :=
  let run (f : Geometry -> W -> result (PortDirection * W)) :=
    Some (g ← mesh_geometry num_rows num_cols my_id dest_id; f g w) in
  match alg with
  | XY_ => run (fun g w => d ← dirn_XY g; Ok (d, w))
  | RANDOM_ => run dirn_Random
  | ADAPT_RAND_ => run dirn_AdaptRand
  | WestFirst_ => run dirn_WestFirst
  | ADAPT_WestFirst_ => run dirn_AdaptWestFirst
  | CUSTOM_ => Some (Err EPanic)
  | TABLE_ | NUM_ROUTING_ALGORITHM_ => None
  end.

(** [outportCompute] of router [my_id]: the table when the flit is at its destination
    router (several NIs may hang off it) or the algorithm is the table. *)
Definition outportCompute (alg : RoutingAlgorithm) (num_rows num_cols my_id : Z)
    (free : Z -> W -> result Z) (route : RouteInfo) (ru : RoutingUnit) (w : W)
  : result (Z * RoutingUnit * W) :=
  if dest_router route =? my_id then
    l ← lookupRoutingTable (fun link => free link w) (net_dest route) ru; Ok (l, ru, w)
  else
    '(outport, ru', w') ←
      match mesh_dirn alg num_rows num_cols my_id (dest_router route) w with
      | Some r => '(d, w') ← r; let '(o, ru') := outport_of_dirn d ru in Ok (o, ru', w')
      | None => l ← lookupRoutingTable (fun link => free link w) (net_dest route) ru; Ok (l, ru, w)
      end;
    assert_ (negb (outport =? -1)) ;;
    Ok (outport, ru', w').
End Mesh.
