(* ===== verification/RoutingTable.v ===== *)
(** * The routing table chooses the best link

    Specification of [RoutingUnit::lookupRoutingTable]: among the output links that reach the
    destination it returns one of minimum weight, among those one with most free VCs, and the
    first of those.  It stops with [fatal] when no link reaches the destination. *)

From Stdlib Require Import Sorted.
From S2P Require Import Prelude Flit RubySet NetDest RoutingUnit.
Local Open Scope Z_scope.

(** Link [l] leads to one of the destinations. *)
Definition reaches (dest : NetDest) (ru : RoutingUnit) (l : Z) : Prop :=
  exists e m j, vec_get (m_routing_table ru) l = Ok e /\ nd_member dest m j /\ nd_member e m j.

(** What topology creation establishes: a weight for each entry, none above [INFINITE_], and
    destination vectors of one size. *)
Definition tables_ok (dest : NetDest) (ru : RoutingUnit) : Prop :=
  length (m_weight_table ru) = length (m_routing_table ru) /\
  Forall (fun e => length (m_bits dest) = length (m_bits e)) (m_routing_table ru) /\
  Forall (fun w => w <= INFINITE_) (m_weight_table ru).

Section Lookup.
Context (dest : NetDest) (ru : RoutingUnit) (Hok : tables_ok dest ru).

Abbreviation size := (Z.of_nat (length (m_routing_table ru))).
Abbreviation weight l w := (vec_get (m_weight_table ru) l = Ok w).

(** What one iteration of either loop learns about link [l]. *)
Lemma link_cases l : 0 <= l < size ->
  exists e b w, vec_get (m_routing_table ru) l = Ok e /\ intersectionIsNotEmpty dest e = Ok b /\
    weight l w /\ w <= INFINITE_ /\ (b = true <-> reaches dest ru l).
Proof.
  intros Hl. destruct Hok as (Hlen & Hsz & Hw).
  destruct (vec_get_in_range (m_routing_table ru) l Hl) as [e He].
  destruct (vec_get_in_range (m_weight_table ru) l) as [w Hwl]; [unfold vsize; lia|].
  assert (Hle : length (m_bits dest) = length (m_bits e)).
  { apply vec_get_Ok in He as [_ He]. by apply (Forall_lookup_1 _ _ _ _ Hsz He). }
  destruct (intersectionIsNotEmpty_spec dest e Hle) as (b & Hb & Hiff).
  exists e, b, w. split_and!; [done | done | done | |].
  - apply vec_get_Ok in Hwl as [_ Hwl]. by apply (Forall_lookup_1 _ _ _ _ Hw Hwl).
  - rewrite Hiff. unfold reaches. rewrite He. split.
    + intros (m & j & H1 & H2). by exists e, m, j.
    + intros (e' & m & j & [= <-] & H1 & H2). by exists m, j.
Qed.

Lemma reaches_range l : reaches dest ru l -> 0 <= l < size.
Proof. intros (e & m & j & He & _). by apply vec_get_range in He. Qed.

(** [m] is the least weight of the links below [k] that reach the destination. *)
Definition least (k m : Z) : Prop :=
  (forall l w, l < k -> reaches dest ru l -> weight l w -> m <= w) /\
  ((m = INFINITE_ /\ forall l, l < k -> ~ reaches dest ru l) \/
   exists l, l < k /\ reaches dest ru l /\ weight l m).

Lemma min_candidate_weight_spec : exists m, min_candidate_weight dest ru = Ok m /\ least size m.
Proof.
  unfold min_candidate_weight. apply (for_range_total least).
  - split; [intros l w Hl Hr _ | left; split; [done|]; intros l Hl Hr]; apply reaches_range in Hr; lia.
  - intros k m Hk [Hall Hex]. destruct (link_cases k Hk) as (e & b & w & -> & Hb & Hw & Hle & Hiff).
    cbn. rewrite Hb. cbn. destruct b; cbn.
    + rewrite Hw. cbn. eexists. split; [done|]. assert (Hr : reaches dest ru k) by tauto.
      destruct (Z.leb_spec w m); split.
      * intros l w' Hl Hrl Hwl. destruct (decide (l = k)) as [->|]; [rewrite Hw in Hwl; simplify_eq; lia|].
        specialize (Hall l w' ltac:(lia) Hrl Hwl). lia.
      * right. exists k. auto with lia.
      * intros l w' Hl Hrl Hwl. destruct (decide (l = k)) as [->|]; [rewrite Hw in Hwl; simplify_eq; lia|].
        apply (Hall l w' ltac:(lia) Hrl Hwl).
      * destruct Hex as [[-> _] | (l & Hl & Hr')]; [lia | right; exists l; auto with lia].
    + eexists. split; [done|]. assert (Hr : ~ reaches dest ru k) by (rewrite <- Hiff; done). split.
      * intros l w' Hl Hrl. apply Hall; [|done]. destruct (decide (l = k)) as [->|]; [done | lia].
      * destruct Hex as [[-> Hno] | (l & Hl & Hr')]; [left; split; [done|] | right; exists l; auto with lia].
        intros l Hl. destruct (decide (l = k)) as [->|]; [done | apply Hno; lia].
Qed.

(** The candidates below [k]: exactly the links of weight [m] that reach the destination, in
    increasing order. *)
Definition candidates (m k : Z) (cands : list Z) : Prop :=
  (forall l, l ∈ cands <-> l < k /\ reaches dest ru l /\ weight l m) /\ StronglySorted Z.lt cands.

Lemma StronglySorted_snoc (l : list Z) k :
  StronglySorted Z.lt l -> (forall x, x ∈ l -> x < k) -> StronglySorted Z.lt (l ++ [k]).
Proof.
  induction 1 as [|x l Hs IH Hx]; intros Hk; cbn; constructor.
  - constructor.
  - constructor.
  - apply IH. intros y Hy. apply Hk. by right.
  - apply Forall_app. split; [done|]. constructor; [apply Hk; by left | done].
Qed.

Lemma output_link_candidates_spec m :
  exists cands, output_link_candidates dest m ru = Ok cands /\ candidates m size cands.
Proof.
  unfold output_link_candidates. apply (for_range_total (candidates m)).
  - split; [|constructor]. intros l. split; [by intros ?%elem_of_nil|].
    intros (Hl & Hr & _). apply reaches_range in Hr. lia.
  - intros k cands Hk [Hin Hs]. destruct (link_cases k Hk) as (e & b & w & -> & Hb & Hw & Hle & Hiff).
    cbn. rewrite Hb. cbn.
    assert (Hskip : ~ (reaches dest ru k /\ w = m) -> candidates m (k + 1) cands).
    { intros Hno. split; [|done]. intros l. rewrite Hin. split; [intros (? & ? & ?); auto with lia|].
      intros (Hl & Hr & Hwl). destruct (decide (l = k)) as [->|]; [|auto with lia].
      rewrite Hw in Hwl. simplify_eq. tauto. }
    destruct b; cbn; [rewrite Hw; cbn; destruct (Z.eqb_spec w m) as [->|]|]; eexists;
      (split; [done|]); [|apply Hskip; tauto | apply Hskip; rewrite <- Hiff; by intros [? _]].
    split; [|apply StronglySorted_snoc; [done | intros x Hx; apply Hin in Hx; lia]].
    intros l. rewrite elem_of_app, list_elem_of_singleton, Hin. split.
    + intros [(? & ? & ?) | ->]; split_and!; auto with lia. tauto.
    + intros (Hl & Hr & Hwl). destruct (decide (l = k)); auto with lia.
Qed.
End Lookup.

(** The winner splits the candidates: strictly fewer free VCs before it, no more after it. *)
Lemma best_candidate_spec (free : Z -> result Z) cands max c0 :
  (forall l, l ∈ cands -> exists n, free l = Ok n) ->
  (best_candidate free cands max c0 = Ok c0 /\
     forall l n, l ∈ cands -> free l = Ok n -> n <= max) \/
  (exists l nl c1 c2, best_candidate free cands max c0 = Ok (Some l) /\ cands = c1 ++ l :: c2 /\
     free l = Ok nl /\ max < nl /\
     (forall x n, x ∈ c1 -> free x = Ok n -> n < nl) /\
     (forall x n, x ∈ c2 -> free x = Ok n -> n <= nl)).
Proof.
  revert max c0. induction cands as [|l cands IH]; intros max c0 Hf; cbn [best_candidate].
  - left. split; [done|]. intros l n Hl. by apply elem_of_nil in Hl.
  - destruct (Hf l) as [n Hn]; [by left|]. rewrite Hn. cbn.
    assert (Hf' : forall x, x ∈ cands -> exists n, free x = Ok n) by (intros x Hx; apply Hf; by right).
    destruct (Z.ltb_spec max n).
    + right. destruct (IH n (Some l) Hf') as [[-> Hle] | (x & nx & c1 & c2 & -> & -> & Hx & Hlt & H1 & H2)].
      * exists l, n, [], cands. split_and!; try done. intros x m Hx. by apply elem_of_nil in Hx.
      * exists x, nx, (l :: c1), c2. split_and!; try done; [lia|].
        intros y m [->|Hy]%elem_of_cons Hm; [rewrite Hn in Hm; simplify_eq; lia | eauto].
    + destruct (IH max c0 Hf') as [[-> Hle] | (x & nx & c1 & c2 & -> & -> & Hx & Hlt & H1 & H2)].
      * left. split; [done|]. intros x m [->|Hx]%elem_of_cons Hm; [rewrite Hn in Hm; simplify_eq; lia | eauto].
      * right. exists x, nx, (l :: c1), c2. split_and!; try done.
        intros y m [->|Hy]%elem_of_cons Hm; [rewrite Hn in Hm; simplify_eq; lia | eauto].
Qed.

Lemma StronglySorted_split (c1 c2 : list Z) l k :
  StronglySorted Z.lt (c1 ++ l :: c2) -> k ∈ c1 ++ l :: c2 -> (k < l -> k ∈ c1) /\ (l < k -> k ∈ c2).
Proof.
  induction c1 as [|x c1 IH]; cbn; intros Hs Hk.
  - apply StronglySorted_inv in Hs as [_ Hall]. rewrite Forall_forall in Hall.
    apply elem_of_cons in Hk as [->|Hk]; [split; lia|]. specialize (Hall k Hk). split; [lia | done].
  - apply StronglySorted_inv in Hs as [Hs Hall]. rewrite Forall_forall in Hall.
    apply elem_of_cons in Hk as [->|Hk].
    + split; [intros _; by left|]. specialize (Hall l ltac:(set_solver)). lia.
    + destruct (IH Hs Hk) as [H1 H2]. split; [intros ?; right; auto | auto].
Qed.

(** What the lookup returns; the shared form of the property below. *)
Lemma lookupRoutingTable_spec dest ru free :
  tables_ok dest ru ->
  (forall l, 0 <= l < vsize (m_routing_table ru) -> exists n, free l = Ok n /\ 0 <= n) ->
  (exists l, reaches dest ru l) ->
  exists l w n, lookupRoutingTable free dest ru = Ok l /\ reaches dest ru l /\
    vec_get (m_weight_table ru) l = Ok w /\ free l = Ok n /\
    forall k wk nk, reaches dest ru k -> vec_get (m_weight_table ru) k = Ok wk -> free k = Ok nk ->
      w <= wk /\ (wk = w -> nk <= n /\ (k < l -> nk < n)).
Proof.
  intros Hok Hf (l0 & Hl0). unfold lookupRoutingTable.
  destruct (min_candidate_weight_spec dest ru Hok) as (m & -> & Hall & Hex). cbn.
  destruct (output_link_candidates_spec dest ru Hok m) as (cands & -> & Hin & Hs). cbn.
  assert (Hrange : forall l, l ∈ cands -> 0 <= l < vsize (m_routing_table ru)).
  { intros l Hl. apply Hin in Hl as (_ & Hr & _). by apply reaches_range in Hr. }
  destruct Hex as [[_ Hno] | (c & Hc & Hrc & Hwc)].
  { exfalso. apply (Hno l0); [|done]. apply reaches_range in Hl0. lia. }
  assert (Hcin : c ∈ cands) by (by apply Hin).
  destruct (best_candidate_spec free cands (-1) None) as [[_ Hle] | (l & n & c1 & c2 & Hb & E & Hn & Hlt & H1 & H2)].
  { intros l Hl. destruct (Hf l (Hrange l Hl)) as (n & Hn & _). eauto. }
  { destruct (Hf c (Hrange c Hcin)) as (n & Hn & H0). specialize (Hle c n Hcin Hn). lia. }
  assert (Hl : l ∈ cands) by (rewrite E; set_solver).
  apply Hin in Hl as (Hlr & Hrl & Hwl). exists l, m, n. split_and!; try done.
  - destruct cands; [by apply elem_of_nil in Hcin|]. rewrite Hb. done.
  - intros k wk nk Hrk Hwk Hnk. pose proof (reaches_range dest ru k Hrk) as Hkr.
    split; [by apply (Hall k); [apply Hkr | done | done]|]. intros ->.
    assert (Hk : k ∈ cands) by (apply Hin; split_and!; [lia | done | done]). rewrite E in Hs, Hk.
    destruct (StronglySorted_split c1 c2 l k Hs Hk) as [Hbefore Hafter]. split.
    + destruct (Z.lt_trichotomy k l) as [Hkl | [-> | Hkl]].
      * specialize (H1 k nk (Hbefore Hkl) Hnk). lia.
      * rewrite Hn in Hnk. simplify_eq. lia.
      * apply (H2 k nk (Hafter Hkl) Hnk).
    + intros Hkl. apply (H1 k nk (Hbefore Hkl) Hnk).
Qed.

(** When some output link reaches the destination, the table lookup returns a link that
    reaches it, of minimum weight among all that do, with the most free VCs among those of that
    weight, and the first such link. *)
Theorem lookupRoutingTable_optimal dest ru free :
  tables_ok dest ru ->
  (forall l, 0 <= l < vsize (m_routing_table ru) -> exists n, free l = Ok n /\ 0 <= n) ->
  (exists l, reaches dest ru l) ->
  exists l w n, lookupRoutingTable free dest ru = Ok l /\ reaches dest ru l /\
    vec_get (m_weight_table ru) l = Ok w /\ free l = Ok n /\
    forall k wk nk, reaches dest ru k -> vec_get (m_weight_table ru) k = Ok wk -> free k = Ok nk ->
      w <= wk /\ (wk = w -> nk <= n /\ (k < l -> nk < n)).
Proof. apply lookupRoutingTable_spec. Qed.

(** When no output link reaches the destination, the lookup stops with [fatal]. *)
Theorem lookupRoutingTable_no_route dest ru free :
  tables_ok dest ru -> (forall l, ~ reaches dest ru l) ->
  lookupRoutingTable free dest ru = Err EFatal.
Proof.
  intros Hok Hno. unfold lookupRoutingTable.
  destruct (min_candidate_weight_spec dest ru Hok) as (m & -> & _). cbn.
  destruct (output_link_candidates_spec dest ru Hok m) as (cands & -> & Hin & _). cbn.
  destruct cands as [|c cands]; [done|]. exfalso.
  destruct (proj1 (Hin c)) as (_ & Hr & _); [by left | by apply (Hno c)].
Qed.

(** A router with three links: two reach node 1 with weight 1, one with weight 2. *)
Definition example_table : RoutingUnit :=
  mkRoutingUnit [mkNetDest [mkRSet 4 2]; mkNetDest [mkRSet 4 3]; mkNetDest [mkRSet 4 2]; mkNetDest [mkRSet 4 1]]
    [2; 1; 1; 1] ∅ ∅ ∅ ∅.

Lemma example_table_ok b : tables_ok (mkNetDest [mkRSet 4 b]) example_table.
Proof. split_and!; [done | |]; repeat constructor; done. Qed.

Lemma lookupRoutingTable_optimal_witness :
  exists l, lookupRoutingTable (fun l => Ok (if l =? 1 then 0 else 3)) (mkNetDest [mkRSet 4 2]) example_table = Ok l /\ l = 2.
Proof.
  destruct (lookupRoutingTable_optimal (mkNetDest [mkRSet 4 2]) example_table
    (fun l => Ok (if l =? 1 then 0 else 3))) as (l & w & n & Hl & _).
  - apply example_table_ok.
  - intros l Hl. eexists. split; [reflexivity|]. destruct (l =? 1); lia.
  - exists 0, (mkNetDest [mkRSet 4 2]), 0, 1. split_and!; [done | |];
      (exists (mkRSet 4 2); split; done).
  - exists l. split; [exact Hl|]. vm_compute in Hl. congruence.
Defined.

Lemma lookupRoutingTable_no_route_witness :
  lookupRoutingTable (fun _ => Ok 4) (mkNetDest [mkRSet 4 8]) example_table = Err EFatal.
Proof.
  apply lookupRoutingTable_no_route; [apply example_table_ok|].
  intros l (e & m & j & He & (s & Hs & Hm) & (t & Ht & Hm')).
  apply vec_get_Ok in Hs as [_ Hs]. apply vec_get_Ok in Ht as [_ Ht]. apply vec_get_Ok in He as [_ He].
  destruct (Z.to_nat m) as [|i]; [|by destruct i].
  cbn in Hs. simplify_eq. unfold member in *. cbn in Hm.
  assert (j = 3) as ->.
  { destruct (decide (j = 3)) as [|Hne]; [done|]. change 8 with (2 ^ 3) in Hm.
    rewrite Z.pow2_bits_false in Hm by congruence. done. }
  destruct (Z.to_nat l) as [|[|[|[|i]]]]; cbn in He; simplify_eq; cbn in Ht; simplify_eq; done.
Defined.
