(* ===== verification/MeshRouting.v ===== *)
(** * Mesh routing: minimality and channel dependencies

    Theory of the mesh algorithms of RoutingUnit.v on a [rows x cols] mesh, and
    [GarnetNetwork::get_RouterInDirn], which names the neighbour in a direction.  Routes in a
    network are the subject of NetRouting.v. *)

From S2P Require Import Prelude Flit RubySet NetDest RoutingUnit.
Local Open Scope Z_scope.

(** ** The neighbour in a direction (GarnetNetwork.cc) *)

(** [for (k = from; k < n; k += step) assert(my_id != k);] *)
Fixpoint border_check (fuel : nat) (k step n my_id : Z) : result unit :=
  if k <? n then
    match fuel with
    | O => Err EFuel
    | S fuel' => if my_id =? k then Err EAssert else border_check fuel' (k + step) step n my_id
    end
  else Ok tt.

Definition get_RouterInDirn_id (num_cols num_routers : Z) (outport_dir : PortDirection) (my_id : Z)
  : result Z :=
  let fuel := Z.to_nat num_routers in
  downstream_id ←
    (if String.eqb outport_dir "East" then
       border_check fuel (num_cols - 1) num_cols num_routers my_id ;; Ok (my_id + 1)
     else if String.eqb outport_dir "West" then
       border_check fuel 0 num_cols num_routers my_id ;; Ok (my_id - 1)
     else if String.eqb outport_dir "North" then
       border_check fuel ((num_cols - 1) * num_cols) 1 num_routers my_id ;; Ok (my_id + num_cols)
     else if String.eqb outport_dir "South" then
       border_check (Z.to_nat num_cols) 0 1 num_cols my_id ;; Ok (my_id - num_cols)
     else Err EAssert);
  if (downstream_id <? 0) || (num_routers <=? downstream_id) then Err EAssert
  else Ok downstream_id.

Section Mesh.
Context (rows cols : Z) (Hrows : 0 < rows) (Hcols : 0 < cols).

Definition in_mesh (id : Z) : Prop := 0 <= id < rows * cols.
Definition xof (id : Z) : Z := id mod cols.
Definition yof (id : Z) : Z := id / cols.
Definition dist (a b : Z) : Z := Z.abs (xof b - xof a) + Z.abs (yof b - yof a).

(** The id one hop away in direction [d]. *)
Definition neighbour (d : PortDirection) (id : Z) : Z :=
  if String.eqb d "East" then id + 1
  else if String.eqb d "West" then id - 1
  else if String.eqb d "North" then id + cols
  else if String.eqb d "South" then id - cols
  else id.

Lemma coords id : in_mesh id ->
  id = cols * yof id + xof id /\ 0 <= xof id < cols /\ 0 <= yof id < rows.
Proof.
  unfold in_mesh, xof, yof. intros Hid.
  pose proof (Z.div_mod id cols ltac:(lia)). pose proof (Z.mod_pos_bound id cols Hcols).
  pose proof (Z.div_pos id cols ltac:(lia) Hcols).
  assert (id / cols < rows) by (apply Z.div_lt_upper_bound; lia). lia.
Qed.

Lemma coords_unique id x y : id = cols * y + x -> 0 <= x < cols -> xof id = x /\ yof id = y.
Proof.
  intros -> Hx. unfold xof, yof. split.
  - symmetry. apply Z.mod_unique with y; [by left | lia].
  - symmetry. apply Z.div_unique with x; [by left | lia].
Qed.

Lemma in_mesh_coords id x y :
  id = cols * y + x -> 0 <= x < cols -> 0 <= y < rows -> in_mesh id.
Proof. intros -> Hx Hy. unfold in_mesh. nia. Qed.

(** [d] leads one hop towards [dest]. *)
Definition productive (my dest : Z) (d : PortDirection) : Prop :=
  (d = "East"%string /\ xof my < xof dest) \/ (d = "West"%string /\ xof dest < xof my) \/
  (d = "North"%string /\ yof my < yof dest) \/ (d = "South"%string /\ yof dest < yof my).

Lemma productive_closer my dest d :
  in_mesh my -> in_mesh dest -> productive my dest d ->
  in_mesh (neighbour d my) /\ dist (neighbour d my) dest = dist my dest - 1.
Proof.
  intros Hmy Hdest Hp.
  destruct (coords my Hmy) as (Em & Hxm & Hym).
  destruct (coords dest Hdest) as (Ed & Hxd & Hyd).
  unfold dist, neighbour.
  destruct Hp as [[-> H] | [[-> H] | [[-> H] | [-> H]]]]; cbn.
  - destruct (coords_unique (my + 1) (xof my + 1) (yof my)) as [-> ->]; [lia | lia|].
    split; [|lia]. apply (in_mesh_coords _ (xof my + 1) (yof my)); lia.
  - destruct (coords_unique (my - 1) (xof my - 1) (yof my)) as [-> ->]; [lia | lia|].
    split; [|lia]. apply (in_mesh_coords _ (xof my - 1) (yof my)); lia.
  - destruct (coords_unique (my + cols) (xof my) (yof my + 1)) as [-> ->]; [lia | lia|].
    split; [|lia]. apply (in_mesh_coords _ (xof my) (yof my + 1)); lia.
  - destruct (coords_unique (my - cols) (xof my) (yof my - 1)) as [-> ->]; [lia | lia|].
    split; [|lia]. apply (in_mesh_coords _ (xof my) (yof my - 1)); lia.
Qed.

Lemma mesh_geometry_spec my dest :
  in_mesh my -> in_mesh dest -> my <> dest ->
  mesh_geometry rows cols my dest =
    Ok (mkGeometry (Z.abs (xof dest - xof my)) (Z.abs (yof dest - yof my))
          (xof my <=? xof dest) (yof my <=? yof dest)) /\
  ~ (xof my = xof dest /\ yof my = yof dest).
Proof.
  intros Hmy Hdest Hne.
  destruct (coords my Hmy) as (Em & _ & _). destruct (coords dest Hdest) as (Ed & _ & _).
  assert (Hxy : ~ (xof my = xof dest /\ yof my = yof dest)) by (intros [E1 E2]; rewrite E1, E2 in Em; lia).
  split; [|done].
  unfold mesh_geometry. destruct (Z.ltb_spec 0 rows), (Z.ltb_spec 0 cols); try lia. cbn.
  unfold in_mesh in *.
  rewrite !Z.rem_mod_nonneg, !Z.quot_div_nonneg by lia. fold (xof my) (xof dest) (yof my) (yof dest).
  destruct (Z.eqb_spec (Z.abs (xof dest - xof my)) 0), (Z.eqb_spec (Z.abs (yof dest - yof my)) 0);
    cbn; try done. exfalso. apply Hxy. lia.
Qed.

(** A mesh that does not fit its dimensions stops on the first assertion, and so does a
    flit routed to the router it is at. *)
Lemma mesh_geometry_self my : mesh_geometry rows cols my my = Err EAssert.
Proof.
  unfold mesh_geometry. destruct (Z.ltb_spec 0 rows), (Z.ltb_spec 0 cols); try lia. cbn.
  by rewrite !Z.sub_diag.
Qed.
End Mesh.

(** Case analysis on the geometry of a productive choice. *)
Ltac geometry_cases :=
  repeat match goal with
  | |- context [?a <=? ?b] => destruct (Z.leb_spec a b)
  | |- context [?a =? ?b] => destruct (Z.eqb_spec a b)
  | |- context [?a <? ?b] => destruct (Z.ltb_spec a b)
  | H : context [?a <=? ?b] |- _ => destruct (Z.leb_spec a b)
  | H : context [?a =? ?b] |- _ => destruct (Z.eqb_spec a b)
  | H : context [?a <? ?b] |- _ => destruct (Z.ltb_spec a b)
  end; cbn in *.

Section Algorithms.
Context {W : Type} (random : W -> Z * W) (freeVC : PortDirection -> W -> result (Z * W)).
Context (rows cols : Z) (Hrows : 0 < rows) (Hcols : 0 < cols).

Abbreviation dirn := (mesh_dirn random freeVC).
Abbreviation xof := (xof cols).
Abbreviation yof := (yof cols).
Abbreviation in_mesh := (in_mesh rows cols).

(** [alg] may send a flit for [dest] from [my] in direction [d]. *)
Definition chooses (alg : RoutingAlgorithm) (my dest : Z) (d : PortDirection) : Prop :=
  exists w w', dirn alg rows cols my dest w = Some (Ok (d, w')).

Definition is_mesh_alg (alg : RoutingAlgorithm) : bool :=
  match alg with XY_ | RANDOM_ | ADAPT_RAND_ | WestFirst_ | ADAPT_WestFirst_ => true | _ => false end.

Lemma more_free_either a b rand w d w' :
  more_free freeVC a b rand w = Ok (d, w') -> d = a \/ d = b.
Proof. unfold more_free. intros H. inv_ok. repeat case_match; auto. Qed.

(** West-first algorithms leave West only when no West hop remains. *)
Definition west_first (my dest : Z) (d : PortDirection) : Prop :=
  xof dest < xof my -> d = "West"%string.

(** XY leaves the row only in the destination's column. *)
Definition x_first (my dest : Z) (d : PortDirection) : Prop :=
  xof dest <> xof my -> d = "East"%string \/ d = "West"%string.

Lemma chooses_not_self alg my d : is_mesh_alg alg = true -> ~ chooses alg my my d.
Proof.
  intros Ha (w & w' & H). unfold mesh_dirn in H.
  destruct alg; try done; rewrite mesh_geometry_self in H by done; done.
Qed.

Lemma chooses_spec alg my dest d :
  is_mesh_alg alg = true -> in_mesh my -> in_mesh dest -> chooses alg my dest d ->
  productive cols my dest d /\
  (alg = XY_ -> x_first my dest d) /\
  (alg = WestFirst_ \/ alg = ADAPT_WestFirst_ -> west_first my dest d).
Proof.
  intros Ha Hmy Hdest Hc.
  assert (Hne : my <> dest) by (intros ->; by apply chooses_not_self in Hc).
  destruct Hc as (w & w' & H). unfold mesh_dirn in H.
  destruct (mesh_geometry_spec rows cols Hrows Hcols my dest Hmy Hdest Hne) as [Hg Hxy].
  unfold productive, x_first, west_first.
  destruct alg; try done; rewrite Hg in H; apply (inj Some) in H; cbn in H.
  - unfold dirn_XY in H. cbn in H. geometry_cases; inv_ok; split_and!; naive_solver lia.
  - unfold dirn_Random in H. cbn in H. destruct (random_bit random w) as [rand w1].
    geometry_cases; destruct rand; inv_ok; split_and!; naive_solver lia.
  - unfold dirn_AdaptRand in H. cbn in H. destruct (random_bit random w) as [rand w1].
    geometry_cases; try (apply more_free_either in H as [-> | ->]); inv_ok; split_and!; naive_solver lia.
  - unfold dirn_WestFirst in H. cbn in H. destruct (random_bit random w) as [rand w1].
    geometry_cases; destruct rand; inv_ok; split_and!; naive_solver lia.
  - unfold dirn_AdaptWestFirst in H. cbn in H. destruct (random_bit random w) as [rand w1].
    geometry_cases; try (apply more_free_either in H as [-> | ->]); inv_ok; split_and!; naive_solver lia.
Qed.

(** The algorithms that ask neighbours for their free VCs. *)
Definition adaptive (alg : RoutingAlgorithm) : bool :=
  match alg with ADAPT_RAND_ | ADAPT_WestFirst_ => true | _ => false end.

(** Every algorithm has a choice at every router that is not the destination, if the neighbours it may ask, those in
    productive directions, answer. *)
Section Total.
Context (P : W -> Prop) (alg : RoutingAlgorithm) (my dest : Z).
Context (Ha : is_mesh_alg alg = true) (Hmy : in_mesh my) (Hdest : in_mesh dest) (Hne : my <> dest).
Context (Hrand : forall w, P w -> P (random w).2).
Context (Hfree : adaptive alg = true -> forall d w, P w -> productive cols my dest d ->
  exists n w', freeVC d w = Ok (n, w') /\ P w').

Lemma more_free_total a b rand w : adaptive alg = true -> P w -> productive cols my dest a -> productive cols my dest b ->
  exists d w', more_free freeVC a b rand w = Ok (d, w') /\ P w'.
Proof.
  intros Had Hw Hpa Hpb. unfold more_free. destruct (Hfree Had a w Hw Hpa) as (fa & w1 & -> & H1). cbn.
  destruct (Hfree Had b w1 H1 Hpb) as (fb & w2 & -> & H2). cbn. eauto.
Qed.

Lemma chooses_total w : P w -> exists d w', dirn alg rows cols my dest w = Some (Ok (d, w')) /\ P w'.
Proof.
  intros Hw. assert (Hb : P (random_bit random w).2).
  { unfold random_bit. specialize (Hrand w Hw). by destruct (random w). }
  unfold mesh_dirn. destruct (mesh_geometry_spec rows cols Hrows Hcols my dest Hmy Hdest Hne) as [-> Hxy].
  destruct (random_bit random w) as [rand w1] eqn:Er. cbn in Hb.
  assert (Hm : adaptive alg = true -> forall a b, productive cols my dest a -> productive cols my dest b ->
    exists d w', Some (more_free freeVC a b rand w1) = Some (Ok (d, w')) /\ P w').
  { intros Had a b Hpa Hpb. destruct (more_free_total a b rand w1 Had Hb Hpa Hpb) as (d & w' & -> & H). eauto. }
  unfold productive in Hm. destruct alg; try done; cbn.
  - unfold dirn_XY. cbn. geometry_cases; eauto; exfalso; lia.
  - unfold dirn_Random. cbn. rewrite Er. geometry_cases; eauto.
  - unfold dirn_AdaptRand. cbn. rewrite Er. geometry_cases; eauto; apply Hm; naive_solver lia.
  - unfold dirn_WestFirst. cbn. rewrite Er. geometry_cases; eauto.
  - unfold dirn_AdaptWestFirst. cbn. rewrite Er. geometry_cases; eauto; apply Hm; naive_solver lia.
Qed.
End Total.

Lemma dist_zero a b : in_mesh a -> in_mesh b -> dist cols a b = 0 -> a = b.
Proof.
  intros Ha Hb. unfold dist. intros H0.
  destruct (coords rows cols Hcols a Ha) as (Ea & _ & _).
  destruct (coords rows cols Hcols b Hb) as (Eb & _ & _).
  assert (xof a = xof b /\ yof a = yof b) as [E1 E2] by lia.
  rewrite Ea, Eb, E1, E2. done.
Qed.

(** ** Channel dependencies (Dally and Seitz)

    A channel is an output port [(router, direction)].  [dep c1 c2]: some flit may
    hold channel [c1] while it waits for [c2]. *)
Definition channel : Type := Z * PortDirection.

Definition dep (alg : RoutingAlgorithm) (c1 c2 : channel) : Prop :=
  exists dest, in_mesh c1.1 /\ in_mesh dest /\ chooses alg c1.1 dest c1.2 /\
    c2.1 = neighbour cols c1.2 c1.1 /\ chooses alg c2.1 dest c2.2.

(** Channels of XY in the order a flit can take them. *)
Definition rank_xy (c : channel) : Z :=
  if String.eqb c.2 "East" then xof c.1
  else if String.eqb c.2 "West" then cols - xof c.1
  else if String.eqb c.2 "North" then cols + 1 + yof c.1
  else cols + 1 + rows - yof c.1.

(** Channels of the west-first algorithms: West first, then column by column. *)
Definition rank_wf (c : channel) : Z :=
  if String.eqb c.2 "West" then cols - xof c.1
  else cols + (rows + 2) * xof c.1 +
    (if String.eqb c.2 "North" then 1 + yof c.1
     else if String.eqb c.2 "South" then 1 + rows - yof c.1 else rows + 2).

Lemma neighbour_coords my dest d :
  in_mesh my -> in_mesh dest -> productive cols my dest d ->
  (d = "East"%string /\ xof (neighbour cols d my) = xof my + 1 /\ yof (neighbour cols d my) = yof my) \/
  (d = "West"%string /\ xof (neighbour cols d my) = xof my - 1 /\ yof (neighbour cols d my) = yof my) \/
  (d = "North"%string /\ xof (neighbour cols d my) = xof my /\ yof (neighbour cols d my) = yof my + 1) \/
  (d = "South"%string /\ xof (neighbour cols d my) = xof my /\ yof (neighbour cols d my) = yof my - 1).
Proof.
  intros Hmy Hdest Hp.
  destruct (coords rows cols Hcols my Hmy) as (Em & Hxm & Hym).
  destruct (coords rows cols Hcols dest Hdest) as (Ed & Hxd & Hyd).
  destruct Hp as [[-> H] | [[-> H] | [[-> H] | [-> H]]]].
  - left. split; [done|]. apply (coords_unique cols (my + 1)); lia.
  - right; left. split; [done|]. apply (coords_unique cols (my - 1)); lia.
  - do 2 right; left. split; [done|]. apply (coords_unique cols (my + cols)); lia.
  - do 3 right. split; [done|]. apply (coords_unique cols (my - cols)); lia.
Qed.

(** The two consecutive choices behind a dependency, in coordinates. *)
Lemma dep_inv alg c1 c2 :
  is_mesh_alg alg = true -> dep alg c1 c2 ->
  exists dest, in_mesh c1.1 /\ in_mesh c2.1 /\ in_mesh dest /\
    productive cols c1.1 dest c1.2 /\ productive cols c2.1 dest c2.2 /\
    c2.1 = neighbour cols c1.2 c1.1 /\
    (alg = XY_ -> x_first c1.1 dest c1.2 /\ x_first c2.1 dest c2.2) /\
    (alg = WestFirst_ \/ alg = ADAPT_WestFirst_ ->
       west_first c1.1 dest c1.2 /\ west_first c2.1 dest c2.2).
Proof.
  intros Ha (dest & H1 & Hd & Hc1 & Hn & Hc2).
  destruct (chooses_spec alg _ _ _ Ha H1 Hd Hc1) as (Hp1 & Hx1 & Hw1).
  destruct (productive_closer rows cols Hrows Hcols _ _ _ H1 Hd Hp1) as [H2 _].
  rewrite <- Hn in H2.
  destruct (chooses_spec alg _ _ _ Ha H2 Hd Hc2) as (Hp2 & Hx2 & Hw2).
  exists dest. split_and!; auto.
Qed.
End Algorithms.

(** Rank lemmas: a dependency strictly increases the rank. *)
Section Ranks.
Context {W : Type} (random : W -> Z * W) (freeVC : PortDirection -> W -> result (Z * W)).
Context (rows cols : Z) (Hrows : 0 < rows) (Hcols : 0 < cols).

Ltac rank_cases :=
  match goal with
  | Hp1 : productive cols ?m1 ?dest ?d1, Hp2 : productive cols ?m2 ?dest ?d2,
    Hn : ?m2 = neighbour cols ?d1 ?m1, H1 : in_mesh _ _ ?m1, H2 : in_mesh _ _ ?m2, Hd : in_mesh _ _ ?dest |- _ =>
      pose proof (neighbour_coords rows cols Hcols m1 dest d1 H1 Hd Hp1) as Hnc;
      pose proof (coords rows cols Hcols m1 H1) as (_ & Hx1 & Hy1);
      pose proof (coords rows cols Hcols m2 H2) as (_ & Hx2 & Hy2);
      rewrite <- Hn in Hnc; unfold productive in Hp1, Hp2
  end.

Lemma xy_dep_rank c1 c2 :
  dep random freeVC rows cols XY_ c1 c2 -> rank_xy rows cols c1 < rank_xy rows cols c2.
Proof.
  intros Hdep. apply dep_inv in Hdep as (dest & H1 & H2 & Hd & Hp1 & Hp2 & Hn & Hx & _); [|done..].
  destruct (Hx eq_refl) as [Hf1 Hf2]. unfold x_first in *. rank_cases.
  destruct c1 as [m1 d1], c2 as [m2 d2]. unfold rank_xy. cbn [fst snd] in *.
  destruct Hnc as [(-> & E1 & E2) | [(-> & E1 & E2) | [(-> & E1 & E2) | (-> & E1 & E2)]]];
    destruct Hp2 as [[-> ?] | [[-> ?] | [[-> ?] | [-> ?]]]]; cbn [String.eqb Ascii.eqb Bool.eqb];
    naive_solver lia.
Qed.

Lemma westfirst_dep_rank alg c1 c2 :
  alg = WestFirst_ \/ alg = ADAPT_WestFirst_ ->
  dep random freeVC rows cols alg c1 c2 -> rank_wf rows cols c1 < rank_wf rows cols c2.
Proof.
  intros Halg Hdep.
  apply dep_inv in Hdep as (dest & H1 & H2 & Hd & Hp1 & Hp2 & Hn & _ & Hw); [|done..|by destruct Halg as [-> | ->]].
  destruct (Hw Halg) as [Hf1 Hf2]. unfold west_first in *. rank_cases.
  destruct c1 as [m1 d1], c2 as [m2 d2]. unfold rank_wf. cbn [fst snd] in *.
  assert (0 <= (rows + 2) * xof cols m1) by nia.
  assert (0 <= (rows + 2) * xof cols m2) by nia.
  destruct Hnc as [(-> & E1 & E2) | [(-> & E1 & E2) | [(-> & E1 & E2) | (-> & E1 & E2)]]];
    rewrite E1 in *; destruct Hp2 as [[-> ?] | [[-> ?] | [[-> ?] | [-> ?]]]];
    cbn [String.eqb Ascii.eqb Bool.eqb]; rewrite ?E2; naive_solver nia.
Qed.

(** A relation whose steps increase a rank has no cycle. *)
Lemma rank_acyclic {A} (R : A -> A -> Prop) (rank : A -> Z) :
  (forall a b, R a b -> rank a < rank b) -> forall a, ~ tc R a a.
Proof.
  intros Hr. assert (H : forall a b, tc R a b -> rank a < rank b).
  { induction 1 as [a b Hab | a b c Hab _ IH]; [by apply Hr | specialize (Hr _ _ Hab); lia]. }
  intros a Ha. apply H in Ha. lia.
Qed.
End Ranks.

(** ** [get_RouterInDirn] on a square mesh *)

Lemma border_check_hit fuel k step n my i :
  0 < step -> n <= k + Z.of_nat fuel * step -> 0 <= i -> my = k + i * step -> my < n ->
  border_check fuel k step n my = Err EAssert.
Proof.
  intros Hs. revert k i. induction fuel as [|fuel IH]; intros k i Hf Hi Hmy Hlt; cbn [border_check].
  - destruct (Z.ltb_spec k n); nia.
  - destruct (Z.ltb_spec k n); [|nia]. destruct (Z.eqb_spec my k); [done|].
    apply (IH (k + step) (i - 1)); nia.
Qed.

Lemma border_check_miss fuel k step n my :
  0 < step -> n <= k + Z.of_nat fuel * step ->
  (forall i, 0 <= i -> k + i * step < n -> my <> k + i * step) ->
  border_check fuel k step n my = Ok tt.
Proof.
  intros Hs. revert k. induction fuel as [|fuel IH]; intros k Hf Hm; cbn [border_check].
  - destruct (Z.ltb_spec k n); [lia | done].
  - destruct (Z.ltb_spec k n); [|done]. destruct (Z.eqb_spec my k) as [->|].
    + exfalso. apply (Hm 0); lia.
    + apply IH; [lia|]. intros i Hi Hn Heq. apply (Hm (i + 1)); lia.
Qed.

(** The mesh has a router in direction [d] of [my]. *)
Definition has_neighbour (rows cols : Z) (d : PortDirection) (my : Z) : bool :=
  if String.eqb d "East" then xof cols my <? cols - 1
  else if String.eqb d "West" then 0 <? xof cols my
  else if String.eqb d "North" then yof cols my <? rows - 1
  else if String.eqb d "South" then 0 <? yof cols my
  else false.

(** A productive direction leads to a router, whose port back has the opposite direction. *)
Lemma productive_has_neighbour rows cols my dest d : 0 < cols -> in_mesh rows cols my -> in_mesh rows cols dest ->
  productive cols my dest d -> has_neighbour rows cols d my = true.
Proof.
  intros Hc Hmy Hd Hp. pose proof (coords rows cols Hc my Hmy) as (_ & Hx & Hy).
  pose proof (coords rows cols Hc dest Hd) as (_ & Hx' & Hy'). unfold has_neighbour.
  destruct Hp as [[-> ?] | [[-> ?] | [[-> ?] | [-> ?]]]]; cbn; apply Z.ltb_lt; lia.
Qed.

(** The id after the range check that ends [get_RouterInDirn]. *)
Lemma range_check rows cols id :
  in_mesh rows cols id ->
  (if (id <? 0) || (rows * cols <=? id) then Err EAssert else Ok id) = (Ok id : result Z).
Proof.
  unfold in_mesh. intros Hid. destruct (Z.ltb_spec id 0), (Z.leb_spec (rows * cols) id); cbn; lia || done.
Qed.

(** With at least as many columns as rows every existing neighbour is found. *)
Lemma get_RouterInDirn_id_wide rows cols d my : 0 < rows <= cols -> in_mesh rows cols my -> has_neighbour rows cols d my = true ->
  get_RouterInDirn_id cols (rows * cols) d my = Ok (neighbour cols d my) /\ in_mesh rows cols (neighbour cols d my).
Proof.
  intros [Hr Hle] Hmy. assert (Hlt : 0 <= my < rows * cols) by exact Hmy. assert (Hc : 0 < cols) by lia.
  pose proof (coords rows cols Hc my Hmy) as (E & Hx & Hy).
  assert (Hf : Z.of_nat (Z.to_nat (rows * cols)) = rows * cols) by lia.
  assert (Hf' : Z.of_nat (Z.to_nat cols) = cols) by lia.
  assert (Hrc : rows * cols <= rows * cols * cols) by nia.
  unfold get_RouterInDirn_id, has_neighbour, neighbour.
  destruct (String.eqb d "East"); [|destruct (String.eqb d "West"); [|
    destruct (String.eqb d "North"); [|destruct (String.eqb d "South"); [|done]]]]; intros Hn%Z.ltb_lt.
  - assert (Hm : in_mesh rows cols (my + 1)) by (apply (in_mesh_coords rows cols Hr Hc _ (xof cols my + 1) (yof cols my)); lia).
    rewrite border_check_miss; [cbn; by rewrite range_check | lia | lia | intros i Hi Hlti Hmi].
    assert (cols * (i - yof cols my) = xof cols my + 1 - cols) by lia. destruct (Z.le_gt_cases (yof cols my) i); nia.
  - assert (Hm : in_mesh rows cols (my - 1)) by (apply (in_mesh_coords rows cols Hr Hc _ (xof cols my - 1) (yof cols my)); lia).
    rewrite border_check_miss; [cbn; by rewrite range_check | lia | lia | intros i Hi Hlti Hmi].
    assert (cols * (i - yof cols my) = xof cols my) by lia. destruct (Z.le_gt_cases i (yof cols my)); nia.
  - assert (Hm : in_mesh rows cols (my + cols)) by (apply (in_mesh_coords rows cols Hr Hc _ (xof cols my) (yof cols my + 1)); lia).
    rewrite border_check_miss; [cbn; by rewrite range_check | lia | nia | intros i Hi Hlti Hmi; nia].
  - assert (Hm : in_mesh rows cols (my - cols)) by (apply (in_mesh_coords rows cols Hr Hc _ (xof cols my) (yof cols my - 1)); lia).
    rewrite border_check_miss; [cbn; by rewrite range_check | lia | lia | intros i Hi Hlti Hmi; nia].
Qed.

Section Square.
Context (m : Z) (Hm : 0 < m).

Lemma get_RouterInDirn_id_spec d my :
  in_mesh m m my ->
  get_RouterInDirn_id m (m * m) d my =
    if has_neighbour m m d my then Ok (neighbour m d my) else Err EAssert.
Proof.
  intros Hmy. pose proof (coords m m Hm my Hmy) as (E & Hx & Hy).
  assert (Hlt : 0 <= my < m * m) by exact Hmy.
  assert (Hf : Z.of_nat (Z.to_nat (m * m)) = m * m) by lia.
  assert (Hf' : Z.of_nat (Z.to_nat m) = m) by lia.
  assert (Hmm : m <= m * m) by nia. assert (Hmmm : m * m <= m * m * m) by nia.
  unfold get_RouterInDirn_id, has_neighbour, neighbour.
  destruct (String.eqb d "East"); [|destruct (String.eqb d "West"); [|
    destruct (String.eqb d "North"); [|destruct (String.eqb d "South"); [|done]]]].
  - destruct (Z.ltb_spec (xof m my) (m - 1)) as [Hc | Hc].
    + rewrite border_check_miss; [cbn | lia | lia | intros i Hi Hn Hmi].
      * apply range_check, (in_mesh_coords m m Hm Hm _ (xof m my + 1) (yof m my)); lia.
      * assert (m * (i - yof m my) = xof m my + 1 - m) by lia. destruct (Z.le_gt_cases (yof m my) i); nia.
    + rewrite (border_check_hit _ _ _ _ _ (yof m my)); [done | lia..].
  - destruct (Z.ltb_spec 0 (xof m my)) as [Hc | Hc].
    + rewrite border_check_miss; [cbn | lia | lia | intros i Hi Hn Hmi].
      * apply range_check, (in_mesh_coords m m Hm Hm _ (xof m my - 1) (yof m my)); lia.
      * assert (m * (i - yof m my) = xof m my) by lia. destruct (Z.le_gt_cases i (yof m my)); nia.
    + rewrite (border_check_hit _ _ _ _ _ (yof m my)); [done | lia..].
  - destruct (Z.ltb_spec (yof m my) (m - 1)) as [Hc | Hc].
    + rewrite border_check_miss; [cbn | lia | nia | intros i Hi Hn Hmi; nia].
      apply range_check, (in_mesh_coords m m Hm Hm _ (xof m my) (yof m my + 1)); lia.
    + assert (yof m my = m - 1) as Ey by lia. rewrite Ey in E.
      rewrite (border_check_hit _ _ _ _ _ (xof m my)); [done | lia | nia | lia | lia | lia].
  - destruct (Z.ltb_spec 0 (yof m my)) as [Hc | Hc].
    + rewrite border_check_miss; [cbn | lia | lia | intros i Hi Hn Hmi; nia].
      apply range_check, (in_mesh_coords m m Hm Hm _ (xof m my) (yof m my - 1)); lia.
    + assert (yof m my = 0) as Ey by lia. rewrite Ey in E.
      rewrite (border_check_hit _ _ _ _ _ (xof m my)); [done | lia..].
Qed.
End Square.

(** ** Properties *)

(** C11: XY routing cannot deadlock: its channel dependency graph (a flit that holds one output
    port waits for the next one) has no cycle. *)
Theorem xy_no_dependency_cycle {W : Type} (random : W -> Z * W)
    (freeVC : PortDirection -> W -> result (Z * W)) rows cols c :
  0 < rows -> 0 < cols -> ~ tc (dep random freeVC rows cols XY_) c c.
Proof.
  intros Hrows Hcols. apply (rank_acyclic _ (rank_xy rows cols)). intros a b.
  by apply xy_dep_rank.
Qed.

Lemma xy_no_dependency_cycle_witness :
  ~ tc (dep (fun w : Z => (w, w)) (fun _ w => Ok (1, w)) 3 3 XY_) (4, "East"%string) (4, "East"%string).
Proof. apply xy_no_dependency_cycle; lia. Defined.

(** C12: West-first routing, deterministic or adaptive, cannot deadlock: its channel dependency
    graph has no cycle. *)
Theorem westfirst_no_dependency_cycle {W : Type} (random : W -> Z * W)
    (freeVC : PortDirection -> W -> result (Z * W)) alg rows cols c :
  0 < rows -> 0 < cols -> alg = WestFirst_ \/ alg = ADAPT_WestFirst_ ->
  ~ tc (dep random freeVC rows cols alg) c c.
Proof.
  intros Hrows Hcols Ha. apply (rank_acyclic _ (rank_wf rows cols)). intros a b.
  by apply westfirst_dep_rank.
Qed.

Lemma westfirst_no_dependency_cycle_witness :
  ~ tc (dep (fun w : Z => (w, w)) (fun _ w => Ok (1, w)) 3 3 ADAPT_WestFirst_) (4, "East"%string) (4, "East"%string).
Proof. apply westfirst_no_dependency_cycle; [lia | lia | by right]. Defined.

Section FullyAdaptive.
Context {W : Type} (random : W -> Z * W) (freeVC : PortDirection -> W -> result (Z * W)).
Context (rows cols : Z) (Hrows : 0 < rows) (Hcols : 0 < cols).
Context (Hrandom : forall b, exists w, (random_bit random w).1 = b).
Context (k : Z) (Hfree : forall d w, freeVC d w = Ok (k, w)).

Lemma more_free_tie a b rand w : more_free freeVC a b rand w = Ok (if rand then a else b, w).
Proof. unfold more_free. rewrite Hfree. cbn. rewrite Hfree. cbn. by rewrite Z.ltb_irrefl. Qed.

(** With equal free-VC counts both random algorithms may take any productive direction. *)
Lemma fully_adaptive alg my dest d :
  alg = RANDOM_ \/ alg = ADAPT_RAND_ -> in_mesh rows cols my -> in_mesh rows cols dest ->
  productive cols my dest d -> chooses random freeVC rows cols alg my dest d.
Proof.
  intros Ha Hmy Hdest Hp.
  assert (Hne : my <> dest) by (intros ->; unfold productive in Hp; lia).
  destruct (mesh_geometry_spec rows cols Hrows Hcols my dest Hmy Hdest Hne) as [Hg _].
  pose (horizontal := String.eqb d "East" || String.eqb d "West").
  destruct (Hrandom horizontal) as [w Hw]. destruct (random_bit random w) as [rand w1] eqn:Hr.
  cbn in Hw. exists w. unfold mesh_dirn. rewrite Hg.
  destruct Ha as [-> | ->]; cbn; unfold dirn_Random, dirn_AdaptRand; cbn; rewrite Hr, ?more_free_tie;
    destruct Hp as [[-> Hp] | [[-> Hp] | [[-> Hp] | [-> Hp]]]]; cbn in *; subst rand;
    geometry_cases; try lia; eauto.
Qed.

(** Two productive hops in a row are a dependency. *)
Lemma adaptive_dep alg my d1 d2 dest :
  alg = RANDOM_ \/ alg = ADAPT_RAND_ -> in_mesh rows cols my -> in_mesh rows cols dest ->
  productive cols my dest d1 -> productive cols (neighbour cols d1 my) dest d2 ->
  dep random freeVC rows cols alg (my, d1) (neighbour cols d1 my, d2).
Proof.
  intros Ha Hmy Hdest Hp1 Hp2. exists dest. cbn. split_and!; [done | done | | done |].
  - by apply fully_adaptive.
  - apply fully_adaptive; auto. by apply (productive_closer rows cols Hrows Hcols my dest d1).
Qed.
End FullyAdaptive.

(** C13: The two random algorithms can deadlock, which is what the bubbles are for: on every mesh
    of at least 2x2, when the generator can draw either bit and neighbours report equal free VCs,
    the channel dependency graph has the cycle East, North, West, South around the first square. *)
Theorem random_dependency_cycle {W : Type} (random : W -> Z * W)
    (freeVC : PortDirection -> W -> result (Z * W)) alg rows cols k :
  2 <= rows -> 2 <= cols -> alg = RANDOM_ \/ alg = ADAPT_RAND_ ->
  (forall b, exists w, (random_bit random w).1 = b) ->
  (forall d w, freeVC d w = Ok (k, w)) ->
  tc (dep random freeVC rows cols alg) (0, "East"%string) (0, "East"%string).
Proof.
  intros Hrows Hcols Ha Hb Hf.
  assert (Hc : forall id x y, id = cols * y + x -> 0 <= x < 2 -> 0 <= y < 2 ->
            xof cols id = x /\ yof cols id = y /\ in_mesh rows cols id).
  { intros id x y E Hx Hy. pose proof (coords_unique cols id x y E ltac:(lia)) as [E1 E2].
    split_and!; [done | done|]. apply (in_mesh_coords rows cols ltac:(lia) ltac:(lia) id x y); lia. }
  destruct (Hc 0 0 0 ltac:(lia) ltac:(lia) ltac:(lia)) as (X0 & Y0 & M0).
  destruct (Hc 1 1 0 ltac:(lia) ltac:(lia) ltac:(lia)) as (X1 & Y1 & M1).
  destruct (Hc (1 + cols) 1 1 ltac:(lia) ltac:(lia) ltac:(lia)) as (X3 & Y3 & M3).
  destruct (Hc cols 0 1 ltac:(lia) ltac:(lia) ltac:(lia)) as (X2 & Y2 & M2).
  assert (D : forall my d1 d2 dest next, next = neighbour cols d1 my ->
    in_mesh rows cols my -> in_mesh rows cols dest -> productive cols my dest d1 ->
    productive cols next dest d2 -> dep random freeVC rows cols alg (my, d1) (next, d2)).
  { intros my d1 d2 dest next ->. intros. by eapply (adaptive_dep random freeVC rows cols); eauto; lia. }
  apply (tc_l _ _ (1, "North"%string)); [apply (D 0 _ _ (1 + cols)) |
    apply (tc_l _ _ (1 + cols, "West"%string)); [apply (D 1 _ _ cols) |
    apply (tc_l _ _ (cols, "South"%string)); [apply (D (1 + cols) _ _ 0) |
    apply tc_once, (D cols _ _ 1)]]];
    try done; try (unfold neighbour; cbn; lia); unfold productive; naive_solver lia.
Qed.

Lemma random_dependency_cycle_witness :
  tc (dep (fun w : Z => (w, w)) (fun _ w => Ok (4, w)) 2 2 RANDOM_) (0, "East"%string) (0, "East"%string).
Proof.
  apply (random_dependency_cycle _ _ RANDOM_ 2 2 4); [lia | lia | by left | | done].
  intros [|]; [by exists 1 | by exists 0].
Defined.

(** On a square mesh [get_RouterInDirn] returns the neighbouring router exactly when the mesh
    has one in that direction and stops on an assertion at the border. *)
Theorem get_RouterInDirn_square m d my :
  0 < m -> in_mesh m m my ->
  get_RouterInDirn_id m (m * m) d my =
    if has_neighbour m m d my then Ok (neighbour m d my) else Err EAssert.
Proof. intros Hm. by apply get_RouterInDirn_id_spec. Qed.

Lemma get_RouterInDirn_square_witness :
  get_RouterInDirn_id 4 16 "North" 5 = Ok 9 /\ get_RouterInDirn_id 4 16 "East" 7 = Err EAssert.
Proof.
  split.
  - apply (get_RouterInDirn_square 4 "North" 5); unfold in_mesh; lia.
  - apply (get_RouterInDirn_square 4 "East" 7); unfold in_mesh; lia.
Defined.

(** On a mesh with more rows than columns the same function stops on an assertion for a
    router that does have a northern neighbour: its border test uses the number of columns where
    it needs the number of rows. *)
Theorem get_RouterInDirn_tall_mesh :
  neighbour 2 "North" 2 = 4 /\ in_mesh 4 2 4 /\ get_RouterInDirn_id 2 8 "North" 2 = Err EAssert.
Proof. split_and!; [reflexivity | unfold in_mesh; lia | reflexivity]. Qed.
