(* ===== verification/RouterState.v ===== *)
(** * The state of a router (Router.hh, SwitchAllocator.hh, CrossbarSwitch.hh)

    A [Router] owns its input and output units, the routing unit, the switch allocator and
    the crossbar.  The allocator and the crossbar reach the units through the router, so
    their operations (SwitchAllocator.v, CrossbarSwitch.v) are functions on the router.
    [m_events] collects the wakeups the router has asked the event queue for.  Activity
    counters are doubles in the code and integers here. *)

From S2P Require Import Prelude Flit FlitBuffer NetDest Consumer Config RoutingUnit NetworkLink OutputUnit.
From S2P Require Import InputUnit.
Local Open Scope Z_scope.

Record SwitchAllocator := mkSwitchAllocator {
  m_num_inports : Z;
  m_num_outports : Z;
  sa_num_vcs : Z;
  sa_vc_per_vnet : Z;
  m_input_arbiter_activity : Z;
  m_output_arbiter_activity : Z;
  m_round_robin_invc : list Z;
  m_round_robin_inport : list Z;
  m_port_requests : list (list bool);
  m_vc_winners : list (list Z)
}.

Definition with_m_input_arbiter_activity (v : Z) (r : SwitchAllocator) : SwitchAllocator :=
  mkSwitchAllocator (m_num_inports r) (m_num_outports r) (sa_num_vcs r) (sa_vc_per_vnet r) v (m_output_arbiter_activity r) (m_round_robin_invc r) (m_round_robin_inport r) (m_port_requests r) (m_vc_winners r).
Definition with_m_output_arbiter_activity (v : Z) (r : SwitchAllocator) : SwitchAllocator :=
  mkSwitchAllocator (m_num_inports r) (m_num_outports r) (sa_num_vcs r) (sa_vc_per_vnet r) (m_input_arbiter_activity r) v (m_round_robin_invc r) (m_round_robin_inport r) (m_port_requests r) (m_vc_winners r).
Definition with_m_round_robin_invc (v : list Z) (r : SwitchAllocator) : SwitchAllocator :=
  mkSwitchAllocator (m_num_inports r) (m_num_outports r) (sa_num_vcs r) (sa_vc_per_vnet r) (m_input_arbiter_activity r) (m_output_arbiter_activity r) v (m_round_robin_inport r) (m_port_requests r) (m_vc_winners r).
Definition with_m_round_robin_inport (v : list Z) (r : SwitchAllocator) : SwitchAllocator :=
  mkSwitchAllocator (m_num_inports r) (m_num_outports r) (sa_num_vcs r) (sa_vc_per_vnet r) (m_input_arbiter_activity r) (m_output_arbiter_activity r) (m_round_robin_invc r) v (m_port_requests r) (m_vc_winners r).
Definition with_m_port_requests (v : list (list bool)) (r : SwitchAllocator) : SwitchAllocator :=
  mkSwitchAllocator (m_num_inports r) (m_num_outports r) (sa_num_vcs r) (sa_vc_per_vnet r) (m_input_arbiter_activity r) (m_output_arbiter_activity r) (m_round_robin_invc r) (m_round_robin_inport r) v (m_vc_winners r).
Definition with_m_vc_winners (v : list (list Z)) (r : SwitchAllocator) : SwitchAllocator :=
  mkSwitchAllocator (m_num_inports r) (m_num_outports r) (sa_num_vcs r) (sa_vc_per_vnet r) (m_input_arbiter_activity r) (m_output_arbiter_activity r) (m_round_robin_invc r) (m_round_robin_inport r) (m_port_requests r) v.

Record CrossbarSwitch := mkCrossbarSwitch {
  cs_num_vcs : Z;
  cs_num_inports : Z;
  m_crossbar_activity : Z;
  m_switch_buffer : list (flitBuffer flit)
}.

Definition with_m_crossbar_activity (v : Z) (r : CrossbarSwitch) : CrossbarSwitch :=
  mkCrossbarSwitch (cs_num_vcs r) (cs_num_inports r) v (m_switch_buffer r).
Definition with_m_switch_buffer (v : list (flitBuffer flit)) (r : CrossbarSwitch) : CrossbarSwitch :=
  mkCrossbarSwitch (cs_num_vcs r) (cs_num_inports r) (m_crossbar_activity r) v.

Record Router := mkRouter {
  m_id : Z;
  m_latency : Z;
  m_virtual_networks : Z;
  m_num_vcs : Z;
  m_vc_per_vnet : Z;
  mrkd_flt_ : Z;
  m_input_unit : list InputUnit;
  m_output_unit : list OutputUnit;
  m_routing_unit : RoutingUnit;
  m_sw_alloc : SwitchAllocator;
  m_switch : CrossbarSwitch;
  m_buffer_reads : Z;
  m_buffer_writes : Z;
  m_events : list Event
}.

Definition with_mrkd_flt_ (v : Z) (r : Router) : Router :=
  mkRouter (m_id r) (m_latency r) (m_virtual_networks r) (m_num_vcs r) (m_vc_per_vnet r) v (m_input_unit r) (m_output_unit r) (m_routing_unit r) (m_sw_alloc r) (m_switch r) (m_buffer_reads r) (m_buffer_writes r) (m_events r).
Definition with_m_input_unit (v : list InputUnit) (r : Router) : Router :=
  mkRouter (m_id r) (m_latency r) (m_virtual_networks r) (m_num_vcs r) (m_vc_per_vnet r) (mrkd_flt_ r) v (m_output_unit r) (m_routing_unit r) (m_sw_alloc r) (m_switch r) (m_buffer_reads r) (m_buffer_writes r) (m_events r).
Definition with_m_output_unit (v : list OutputUnit) (r : Router) : Router :=
  mkRouter (m_id r) (m_latency r) (m_virtual_networks r) (m_num_vcs r) (m_vc_per_vnet r) (mrkd_flt_ r) (m_input_unit r) v (m_routing_unit r) (m_sw_alloc r) (m_switch r) (m_buffer_reads r) (m_buffer_writes r) (m_events r).
Definition with_m_routing_unit (v : RoutingUnit) (r : Router) : Router :=
  mkRouter (m_id r) (m_latency r) (m_virtual_networks r) (m_num_vcs r) (m_vc_per_vnet r) (mrkd_flt_ r) (m_input_unit r) (m_output_unit r) v (m_sw_alloc r) (m_switch r) (m_buffer_reads r) (m_buffer_writes r) (m_events r).
Definition with_m_sw_alloc (v : SwitchAllocator) (r : Router) : Router :=
  mkRouter (m_id r) (m_latency r) (m_virtual_networks r) (m_num_vcs r) (m_vc_per_vnet r) (mrkd_flt_ r) (m_input_unit r) (m_output_unit r) (m_routing_unit r) v (m_switch r) (m_buffer_reads r) (m_buffer_writes r) (m_events r).
Definition with_m_switch (v : CrossbarSwitch) (r : Router) : Router :=
  mkRouter (m_id r) (m_latency r) (m_virtual_networks r) (m_num_vcs r) (m_vc_per_vnet r) (mrkd_flt_ r) (m_input_unit r) (m_output_unit r) (m_routing_unit r) (m_sw_alloc r) v (m_buffer_reads r) (m_buffer_writes r) (m_events r).
Definition with_m_buffer_reads (v : Z) (r : Router) : Router :=
  mkRouter (m_id r) (m_latency r) (m_virtual_networks r) (m_num_vcs r) (m_vc_per_vnet r) (mrkd_flt_ r) (m_input_unit r) (m_output_unit r) (m_routing_unit r) (m_sw_alloc r) (m_switch r) v (m_buffer_writes r) (m_events r).
Definition with_m_buffer_writes (v : Z) (r : Router) : Router :=
  mkRouter (m_id r) (m_latency r) (m_virtual_networks r) (m_num_vcs r) (m_vc_per_vnet r) (mrkd_flt_ r) (m_input_unit r) (m_output_unit r) (m_routing_unit r) (m_sw_alloc r) (m_switch r) (m_buffer_reads r) v (m_events r).
Definition with_m_events (v : list Event) (r : Router) : Router :=
  mkRouter (m_id r) (m_latency r) (m_virtual_networks r) (m_num_vcs r) (m_vc_per_vnet r) (mrkd_flt_ r) (m_input_unit r) (m_output_unit r) (m_routing_unit r) (m_sw_alloc r) (m_switch r) (m_buffer_reads r) (m_buffer_writes r) v.

(** ** Construction *)

Definition SwitchAllocator_new (num_vcs vc_per_vnet : Z) : SwitchAllocator :=
  mkSwitchAllocator 0 0 num_vcs vc_per_vnet 0 0 [] [] [] [].

(** [std::vector::resize] on a vector of ints or bools. *)
Definition resize_to {A} (n : Z) (d : A) (l : list A) : list A :=
  take (Z.to_nat n) l ++ replicate (Z.to_nat n - length l) d.

Definition SwitchAllocator_init (num_inports num_outports : Z) (sa : SwitchAllocator) : SwitchAllocator :=
  mkSwitchAllocator num_inports num_outports (sa_num_vcs sa) (sa_vc_per_vnet sa)
    (m_input_arbiter_activity sa) (m_output_arbiter_activity sa)
    (map (fun _ => 0) (resize_to num_inports 0 (m_round_robin_invc sa)))
    (map (fun _ => 0) (resize_to num_outports 0 (m_round_robin_inport sa)))
    (map (fun row => map (fun _ => false) (resize_to num_inports false row))
       (resize_to num_outports [] (m_port_requests sa)))
    (map (resize_to num_inports 0) (resize_to num_outports [] (m_vc_winners sa))).

Definition CrossbarSwitch_new (num_vcs : Z) : CrossbarSwitch := mkCrossbarSwitch num_vcs 0 0 [].

Definition CrossbarSwitch_init (num_inports : Z) (cs : CrossbarSwitch) : CrossbarSwitch :=
  mkCrossbarSwitch (cs_num_vcs cs) num_inports (m_crossbar_activity cs)
    (replicate (Z.to_nat num_inports) flitBuffer_new).

(** The router's Python parameters. *)
Record RouterParams := mkRouterParams {
  p_router_id : Z; p_latency : Z; p_virt_nets : Z; p_vcs_per_vnet : Z; p_marked_flit : Z
}.

Definition Router_new (p : RouterParams) : Router :=
  let num_vcs := p_virt_nets p * p_vcs_per_vnet p in
  mkRouter (p_router_id p) (p_latency p) (p_virt_nets p) num_vcs (p_vcs_per_vnet p) (p_marked_flit p)
    [] [] RoutingUnit_new (SwitchAllocator_new num_vcs (p_vcs_per_vnet p)) (CrossbarSwitch_new num_vcs)
    0 0 [].

Definition Router_init (r : Router) : Router :=
  let ni := vsize (m_input_unit r) in
  with_m_switch (CrossbarSwitch_init ni (m_switch r))
    (with_m_sw_alloc (SwitchAllocator_init ni (vsize (m_output_unit r)) (m_sw_alloc r)) r).

(** [addInPort]: the new input unit, the link that feeds it and the credit link that drains
    its credit queue are tied together.  [in_ref] and [credit_ref] are the addresses of the two
    links, the positions they have in the network's vectors of links. *)
Definition addInPort (inport_dirn : PortDirection) (in_ref credit_ref : Z) (in_link : NetworkLink flit)
    (credit_link : NetworkLink Credit) (r : Router)
  : result (NetworkLink flit * NetworkLink Credit * Router) :=
  let port_num := vsize (m_input_unit r) in
  iu ← InputUnit_new port_num inport_dirn (m_num_vcs r) (m_vc_per_vnet r);
  let iu := InputUnit.set_credit_link credit_ref
              (set_in_link in_ref
                 (set_src_router (m_link_src in_link) iu)) in
  Ok (setLinkConsumer (CRouter (m_id r)) in_link,
      setSourceQueue (QCredit (m_id r) port_num) credit_link,
      with_m_routing_unit (addInDirection inport_dirn port_num (m_routing_unit r))
        (with_m_input_unit (m_input_unit r ++ [iu]) r)).

Definition addOutPort (outport_dirn : PortDirection) (out_ref credit_ref : Z) (out_link : NetworkLink flit)
    (routing_table_entry : NetDest) (link_weight : Z) (credit_link : NetworkLink Credit)
    (c : Config) (r : Router)
  : result (NetworkLink flit * NetworkLink Credit * Router) :=
  let port_num := vsize (m_output_unit r) in
  ou ← OutputUnit_new port_num outport_dirn (m_num_vcs r) (m_vc_per_vnet r) c;
  let ou := OutputUnit.set_credit_link credit_ref
              (set_out_link out_ref
                 (set_dest_router (m_link_dest out_link) ou)) in
  Ok (setSourceQueue (QOut (m_id r) port_num) out_link,
      setLinkConsumer (CRouter (m_id r)) credit_link,
      with_m_routing_unit
        (addOutDirection outport_dirn port_num
           (addWeight link_weight (addRoute routing_table_entry (m_routing_unit r))))
        (with_m_output_unit (m_output_unit r ++ [ou]) r)).

(** ** Access *)

Definition getOutportDirection (outport : Z) (r : Router) : result PortDirection :=
  ou ← vec_get (m_output_unit r) outport; Ok (OutputUnit.get_direction ou).
Definition getInportDirection (inport : Z) (r : Router) : result PortDirection :=
  iu ← vec_get (m_input_unit r) inport; Ok (InputUnit.get_direction iu).

(** Run [f] on one unit of the router and store the unit back. *)
Definition on_iu (inport : Z) (f : InputUnit -> result InputUnit) (r : Router) : result Router :=
  l ← vec_update (m_input_unit r) inport f; Ok (with_m_input_unit l r).
Definition on_ou (outport : Z) (f : OutputUnit -> result OutputUnit) (r : Router) : result Router :=
  l ← vec_update (m_output_unit r) outport f; Ok (with_m_output_unit l r).

Definition schedule (evs : list Event) (r : Router) : Router := with_m_events (m_events r ++ evs) r.

Definition schedule_wakeup (cur time : Z) (r : Router) : Router :=
  schedule [(CRouter (m_id r), cyc_add cur time)] r.

(** Credits go back through input unit [inport]. *)
Definition send_credit (inport in_vc : Z) (free_signal : bool) (cur : Z) (r : Router) : result Router :=
  iu ← vec_get (m_input_unit r) inport;
  let '(iu', evs) := InputUnit.increment_credit in_vc free_signal cur iu in
  l ← vec_set (m_input_unit r) inport iu';
  Ok (schedule evs (with_m_input_unit l r)).

(** [grant_switch] and [update_sw_winner] *)
Definition grant_switch (inport : Z) (t_flit : flit) (r : Router) : result Router :=
  l ← vec_modify (m_switch_buffer (m_switch r)) inport (insert t_flit);
  Ok (with_m_switch (with_m_switch_buffer l (m_switch r)) r).

(** [get_inports_dirn2idx()[dirn_]]: a missing direction is inserted with index 0. *)
Definition get_numFreeVC (dirn_ : PortDirection) (r : Router) : result (Z * Router) :=
  assert_ (negb (String.eqb dirn_ "Local")) ;;
  let '(inport_id, m) := map_index dirn_ (m_inports_dirn2idx (m_routing_unit r)) in
  let r' := with_m_routing_unit (with_m_inports_dirn2idx m (m_routing_unit r)) r in
  iu ← vec_get (m_input_unit r') inport_id;
  n ← InputUnit.get_numFreeVC dirn_ iu;
  Ok (n, r').

(** ** Statistics and functional accesses *)

Definition Router_resetStats (r : Router) : Router :=
  let ius := if 0 <? m_virtual_networks r then map InputUnit.resetStats (m_input_unit r)
             else m_input_unit r in
  let sa := m_sw_alloc r in
  with_m_sw_alloc (with_m_output_arbiter_activity 0 (with_m_input_arbiter_activity 0 sa))
    (with_m_switch (with_m_crossbar_activity 0 (m_switch r)) (with_m_input_unit ius r)).

(** [collateStats]: the buffer counters of every vnet of every input unit are added up.
    The three activity statistics are the counters themselves. *)
Definition Router_collateStats (r : Router) : result Router :=
  for_range (Z.to_nat (m_virtual_networks r)) 0 (fun j r =>
    for_range (length (m_input_unit r)) 0 (fun i r =>
      iu ← vec_get (m_input_unit r) i;
      rd ← vec_get (m_num_buffer_reads iu) j;
      wr ← vec_get (m_num_buffer_writes iu) j;
      Ok (with_m_buffer_writes (m_buffer_writes r + wr) (with_m_buffer_reads (m_buffer_reads r + rd) r))) r) r.

(** A router holds no data that a functional read could use. *)
Definition Router_functionalRead (r : Router) : bool := false.

(** The number of accepted writes is the sum over the crossbar, the input and the output units
    (unsigned 32-bit). *)
Definition Router_functionalWrite (write : flit -> bool * flit) (r : Router) : Z * Router :=
  let bs := map (FlitBuffer.functionalWrite write) (m_switch_buffer (m_switch r)) in
  let is_ := map (InputUnit.functionalWrite write) (m_input_unit r) in
  let os := map (OutputUnit.functionalWrite write) (m_output_unit r) in
  (u32 (foldr (fun x n => u32 (x.1 + n)) 0 bs + foldr (fun x n => u32 (x.1 + n)) 0 is_ +
        foldr (fun x n => u32 (x.1 + n)) 0 os),
   with_m_output_unit (map snd os)
     (with_m_input_unit (map snd is_)
        (with_m_switch (with_m_switch_buffer (map snd bs) (m_switch r)) r))).
