(* ===== verification/SwitchAllocator.v ===== *)
(** * [SwitchAllocator] (SwitchAllocator.cc)

    Two-stage separable switch allocation.  SA-I picks one VC per input port in round-robin
    order and posts a request for its output port; SA-II picks one requesting input port per
    output port, allocates the output VC, moves the flit to the crossbar and sends a credit
    upstream.  The two round-robin searches are the Fixpoints [inport_search] and
    [outport_search] over the number of iterations the [for] loops make. *)

From S2P Require Import Prelude Flit FlitBuffer Consumer Config VirtualChannel OutVcState NetworkLink.
From S2P Require Import OutputUnit InputUnit RoutingUnit RouterState.
Local Open Scope Z_scope.

(** [x + 1], or 0 when that reaches [n]. *)
Definition wrap_next (x n : Z) : Z := if n <=? x + 1 then 0 else x + 1.

Definition on_sa (f : SwitchAllocator -> result SwitchAllocator) (r : Router) : result Router :=
  sa ← f (m_sw_alloc r); Ok (with_m_sw_alloc sa r).

Section SwitchAllocator.
Context (c : Config) (cur : Z).

Definition get_vnet (invc : Z) (r : Router) : result Z :=
  let d := sa_vc_per_vnet (m_sw_alloc r) in
  if d =? 0 then Err EDiv else
  let vnet := invc `quot` d in
  assert_ (vnet <? m_virtual_networks r) ;; Ok vnet.

(** No VC of the vnet holds a flit that arrived earlier and wants the same output port. *)
Fixpoint ordering_check (n : nat) (temp_vc outport t_enqueue_time : Z) (iu : InputUnit) : result bool :=
  match n with
  | O => Ok true
  | S n' =>
      need ← InputUnit.need_stage temp_vc SA_ cur iu;
      if need : bool then
        o ← InputUnit.get_outport temp_vc iu;
        t ← InputUnit.get_enqueue_time temp_vc iu;
        if (o =? outport) && (t <? t_enqueue_time) then Ok false
        else ordering_check n' (temp_vc + 1) outport t_enqueue_time iu
      else ordering_check n' (temp_vc + 1) outport t_enqueue_time iu
  end.

Definition send_allowed (inport invc outport outvc : Z) (r : Router) : result bool :=
  vnet ← get_vnet invc r;
  '(has_outvc, has_credit) ←
    (if outvc =? -1 then
       ou ← vec_get (m_output_unit r) outport;
       free ← has_free_vc cur vnet ou;
       Ok (free, free)
     else
       ou ← vec_get (m_output_unit r) outport;
       hc ← OutputUnit.has_credit cur outvc ou;
       Ok (true, hc));
  if negb has_outvc || negb has_credit then Ok false
  else
    ordered ← isVNetOrdered vnet c;
    if ordered : bool then
      iu ← vec_get (m_input_unit r) inport;
      t_enqueue_time ← InputUnit.get_enqueue_time invc iu;
      ordering_check (Z.to_nat (sa_vc_per_vnet (m_sw_alloc r))) (vnet * sa_vc_per_vnet (m_sw_alloc r))
        outport t_enqueue_time iu
    else Ok true.

(** ** SA-I *)

(** The output port that VC [invc] asks for, when its flit is in the SA stage and may be sent.
    The port is read from the flit; the output VC is taken to be unassigned. *)
Definition vc_request (inport invc : Z) (r : Router) : result (option Z) :=
  iu ← vec_get (m_input_unit r) inport;
  need ← InputUnit.need_stage invc SA_ cur iu;
  if need : bool then
    _ ← InputUnit.get_outport invc iu;
    t_flit ← InputUnit.peekTopFlit invc iu;
    let outport := m_outport t_flit in
    _ ← InputUnit.get_outvc invc iu;
    make_request ← send_allowed inport invc outport (-1) r;
    Ok (if make_request : bool then Some outport else None)
  else Ok None.

Definition post_request (inport invc outport : Z) (sa : SwitchAllocator) : result SwitchAllocator :=
  reqs ← mat_set (m_port_requests sa) outport inport true;
  wins ← mat_set (m_vc_winners sa) outport inport invc;
  rr ← vec_set (m_round_robin_invc sa) inport (wrap_next invc (sa_num_vcs sa));
  Ok (with_m_round_robin_invc rr (with_m_vc_winners wins (with_m_port_requests reqs
        (with_m_input_arbiter_activity (m_input_arbiter_activity sa + 1) sa)))).

Fixpoint inport_search (n : nat) (inport invc : Z) (r : Router) : result Router :=
  match n with
  | O => Ok r
  | S n' =>
      req ← vc_request inport invc r;
      match req with
      | Some outport => on_sa (post_request inport invc outport) r
      | None => inport_search n' inport (wrap_next invc (sa_num_vcs (m_sw_alloc r))) r
      end
  end.

Definition arbitrate_inports (r : Router) : result Router :=
  for_range (Z.to_nat (m_num_inports (m_sw_alloc r))) 0
    (fun inport r =>
       invc ← vec_get (m_round_robin_invc (m_sw_alloc r)) inport;
       inport_search (Z.to_nat (sa_num_vcs (m_sw_alloc r))) inport invc r) r.

(** ** SA-II *)

Definition vc_allocate (outport inport invc : Z) (r : Router) : result (Z * Router) :=
  vnet ← get_vnet invc r;
  ou ← vec_get (m_output_unit r) outport;
  '(outvc, ou') ← select_free_vc cur vnet ou;
  ous ← vec_set (m_output_unit r) outport ou';
  let r1 := with_m_output_unit ous r in
  assert_ (negb (outvc =? -1)) ;;
  r2 ← on_iu inport (grant_outvc invc outvc) r1;
  Ok (outvc, r2).

(** The winning flit leaves its VC with the output port, its direction and the output VC. *)
Definition take_flit (inport invc outport outvc : Z) (r : Router) : result (flit * Router) :=
  iu ← vec_get (m_input_unit r) inport;
  '(t_flit, iu') ← InputUnit.getTopFlit invc iu;
  ius ← vec_set (m_input_unit r) inport iu';
  let r' := with_m_input_unit ius r in
  assert_ (m_outport t_flit =? outport) ;;
  d ← getOutportDirection outport r';
  Ok (advance_stage ST_ cur (Flit.set_vc outvc (set_outport_dirn d (Flit.set_outport outport t_flit))), r').

(** A tail flit frees its VC; the credit tells upstream whether the VC is idle now. *)
Definition release_vc (inport invc : Z) (t_flit : flit) (r : Router) : result Router :=
  if is_tail t_flit then
    iu ← vec_get (m_input_unit r) inport;
    ready ← InputUnit.isReady invc cur iu;
    assert_ (negb ready) ;;
    r1 ← on_iu inport (set_vc_idle invc cur) r;
    send_credit inport invc true cur r1
  else send_credit inport invc false cur r.

Definition close_request (outport inport : Z) (sa : SwitchAllocator) : result SwitchAllocator :=
  reqs ← mat_set (m_port_requests sa) outport inport false;
  rr ← vec_set (m_round_robin_inport sa) outport (wrap_next inport (m_num_inports sa));
  Ok (with_m_round_robin_inport rr (with_m_port_requests reqs sa)).

(** Grant output port [outport] to input port [inport]. *)
Definition grant (outport inport : Z) (r : Router) : result Router :=
  invc ← mat_get (m_vc_winners (m_sw_alloc r)) outport inport;
  iu ← vec_get (m_input_unit r) inport;
  outvc0 ← InputUnit.get_outvc invc iu;
  '(outvc, r1) ← (if outvc0 =? -1 then vc_allocate outport inport invc r else Ok (outvc0, r));
  '(t_flit, r2) ← take_flit inport invc outport outvc r1;
  r3 ← on_ou outport (OutputUnit.decrement_credit outvc) r2;
  r4 ← grant_switch inport t_flit r3;
  r5 ← on_sa (fun sa => Ok (with_m_output_arbiter_activity (m_output_arbiter_activity sa + 1) sa)) r4;
  r6 ← release_vc inport invc t_flit r5;
  on_sa (close_request outport inport) r6.

Fixpoint outport_search (n : nat) (outport inport : Z) (r : Router) : result Router :=
  match n with
  | O => Ok r
  | S n' =>
      req ← mat_get (m_port_requests (m_sw_alloc r)) outport inport;
      if req : bool then grant outport inport r
      else outport_search n' outport (wrap_next inport (m_num_inports (m_sw_alloc r))) r
  end.

Definition arbitrate_outports (r : Router) : result Router :=
  for_range (Z.to_nat (m_num_outports (m_sw_alloc r))) 0
    (fun outport r =>
       inport ← vec_get (m_round_robin_inport (m_sw_alloc r)) outport;
       outport_search (Z.to_nat (m_num_inports (m_sw_alloc r))) outport inport r) r.

(** ** The end of a cycle *)

Definition clear_request_vector (sa : SwitchAllocator) : result SwitchAllocator :=
  reqs ← for_range (Z.to_nat (m_num_outports sa)) 0
           (fun i m => for_range (Z.to_nat (m_num_inports sa)) 0 (fun j m => mat_set m i j false) m)
           (m_port_requests sa);
  Ok (with_m_port_requests reqs sa).

(** Is some flit in the SA stage next cycle? *)
Definition needs_wakeup (r : Router) : result (ctl unit unit) :=
  for_ctl (Z.to_nat (m_num_inports (m_sw_alloc r))) 0 (fun i _ =>
    for_ctl (Z.to_nat (sa_num_vcs (m_sw_alloc r))) 0 (fun j _ =>
      iu ← vec_get (m_input_unit r) i;
      need ← InputUnit.need_stage j SA_ (cyc_add cur 1) iu;
      Ok (if need : bool then Brk tt else Cont tt)) tt) tt.

Definition check_for_wakeup (r : Router) : result Router :=
  b ← needs_wakeup r;
  Ok (match b with Brk _ => schedule_wakeup cur 1 r | Cont _ => r end).

Definition wakeup (r : Router) : result Router :=
  r1 ← arbitrate_inports r;
  r2 ← arbitrate_outports r1;
  r3 ← on_sa clear_request_vector r2;
  check_for_wakeup r3.
End SwitchAllocator.
