(* ===== verification/CrossbarSwitch.v ===== *)
(** * [CrossbarSwitch] (CrossbarSwitch.cc)

    Every input port's winning flit crosses to its output unit, which wakes its link in the
    next cycle.  The code changes the front flit's time stamp while it is still in the heap
    and pops it afterwards; [std::pop_heap] does not compare the front element, so the flit
    is popped first here. *)

From S2P Require Import Prelude Flit FlitBuffer Consumer Config VirtualChannel OutVcState NetworkLink.
From S2P Require Import OutputUnit InputUnit RoutingUnit RouterState.
Local Open Scope Z_scope.

Section CrossbarSwitch.
Context (cur : Z).

(** The flit performs link traversal in the next cycle. *)
Definition cross_flit (t_flit : flit) : flit :=
  Flit.set_time (cyc_add cur 1) (advance_stage LT_ (cyc_add cur 1) t_flit).

(** [m_output_unit[outport]->insert_flit(t_flit)] *)
Definition send_out (outport : Z) (t_flit : flit) (r : Router) : result Router :=
  ou ← vec_get (m_output_unit r) outport;
  let '(ou', evs) := insert_flit cur t_flit ou in
  ous ← vec_set (m_output_unit r) outport ou';
  Ok (schedule evs (with_m_output_unit ous r)).

Definition cross_inport (inport : Z) (r : Router) : result Router :=
  b ← vec_get (m_switch_buffer (m_switch r)) inport;
  if FlitBuffer.isReady cur b then
    t_flit ← FlitBuffer.peekTopFlit b;
    if is_stage ST_ cur t_flit then
      '(_, b') ← FlitBuffer.getTopFlit b;
      r1 ← send_out (m_outport t_flit) (cross_flit t_flit) r;
      bs ← vec_set (m_switch_buffer (m_switch r1)) inport b';
      Ok (with_m_switch (with_m_crossbar_activity (m_crossbar_activity (m_switch r1) + 1)
            (with_m_switch_buffer bs (m_switch r1))) r1)
    else Ok r
  else Ok r.

Definition wakeup (r : Router) : result Router :=
  for_range (Z.to_nat (cs_num_inports (m_switch r))) 0 cross_inport r.
End CrossbarSwitch.
