(* ===== verification/SwitchTheory.v ===== *)
(** * Correctness of switch allocation

    The invariant of a router between wakeups ([router_ok]), the exact effect of one grant
    ([grant_eq]), and the theorems about SA-I and SA-II built on them. *)

From S2P Require Import Prelude Flit FlitBuffer Consumer Config VirtualChannel OutVcState NetworkLink.
From S2P Require Import OutputUnit InputUnit RoutingUnit RouterState SwitchAllocator.
Local Open Scope Z_scope.

(** ** Updating one unit *)

(** ** One grant *)

(** VC, input unit, output VC, output unit and flit after a grant. *)
Definition sent_vc (cur : Z) (v : VirtualChannel) : VirtualChannel :=
  set_idle cur (VirtualChannel.with_m_input_buffer
    (mkflitBuffer [] (max_size (m_input_buffer v))) v).

Definition sent_iu (cur invc : Z) (v : VirtualChannel) (iu : InputUnit) : InputUnit :=
  with_creditQueue (insert (Credit_new invc true cur) (creditQueue iu))
    (with_m_vcs (<[Z.to_nat invc := sent_vc cur v]> (m_vcs iu)) iu).

Definition sent_outvc (cur : Z) (o : OutVcState) : OutVcState :=
  mkOutVcState (OutVcState.m_id o) cur ACTIVE_ (m_credit_count o - 1) (m_max_credit_count o).

Definition sent_ou (cur outvc : Z) (o : OutVcState) (ou : OutputUnit) : OutputUnit :=
  with_m_outvc_state (<[Z.to_nat outvc := sent_outvc cur o]> (m_outvc_state ou)) ou.

Definition sent_flit (cur outport outvc : Z) (d : PortDirection) (f : flit) : flit :=
  advance_stage ST_ cur (Flit.set_vc outvc (set_outport_dirn d (Flit.set_outport outport f))).

Definition sent_switch (inport : Z) (f : flit) (b : flitBuffer flit) (cs : CrossbarSwitch) : CrossbarSwitch :=
  with_m_switch_buffer (<[Z.to_nat inport := insert f b]> (m_switch_buffer cs)) cs.

(** The router after a grant; [sa] is the allocator after it. *)
Definition sent_router (cur outport inport outvc : Z) (f : flit) (iu iu' : InputUnit) (ou' : OutputUnit)
    (b : flitBuffer flit) (sa : SwitchAllocator) (r : Router) : Router :=
  schedule [(CCreditLink (InputUnit.m_credit_link iu), cyc_add cur 1)]
    (with_m_sw_alloc sa
       (with_m_switch (sent_switch inport f b (m_switch r))
          (with_m_output_unit (<[Z.to_nat outport := ou']> (m_output_unit r))
             (with_m_input_unit (<[Z.to_nat inport := iu']> (m_input_unit r)) r)))).

Lemma getTopFlit_single vc f :
  VirtualChannel.flits vc = [f] ->
  VirtualChannel.getTopFlit vc =
    Ok (f, VirtualChannel.with_m_input_buffer (mkflitBuffer [] (max_size (m_input_buffer vc))) vc).
Proof.
  unfold VirtualChannel.flits, VirtualChannel.getTopFlit, FlitBuffer.getTopFlit. intros ->. reflexivity.
Qed.

Section Grant.
Context (c : Config) (cur : Z).

Lemma select_then_decrement vnet ou outvc ou1 o :
  select_free_vc cur vnet ou = Ok (outvc, ou1) -> outvc <> -1 ->
  vec_get (m_outvc_state ou) outvc = Ok o -> 0 < m_credit_count o ->
  OutputUnit.decrement_credit outvc ou1 = Ok (sent_ou cur outvc o ou).
Proof.
  intros Hs Hne Ho Hc.
  apply select_free_vc_spec in Hs as [(-> & _ & _) | (_ & _ & _ & Hset)]; [done|].
  unfold set_vc_state in Hset. rewrite (vec_modify_Ok _ _ _ _ Ho) in Hset. cbn in Hset. inv_ok.
  unfold OutputUnit.decrement_credit. cbn.
  erewrite vec_update_Ok; [| by apply (vec_get_insert _ _ _ _ Ho) |
    apply decrement_credit_spec; split; [exact Hc | reflexivity]].
  cbn. unfold sent_ou. by rewrite list_insert_insert_eq.
Qed.

Lemma is_tail_single f : Flit.m_type f = HEAD_TAIL_ -> is_tail f = true.
Proof. unfold is_tail. by intros ->. Qed.

Lemma select_free_vc_direction vnet ou outvc ou1 :
  select_free_vc cur vnet ou = Ok (outvc, ou1) -> OutputUnit.m_direction ou1 = OutputUnit.m_direction ou.
Proof.
  intros [(_ & -> & _) | (_ & _ & _ & Hset)]%select_free_vc_spec; [done|].
  unfold set_vc_state in Hset. by inv_ok.
Qed.

(** The exact effect of a grant whose request is sound. *)
Lemma grant_eq r outport inport invc iu v f ou outvc ou1 o b vnet sa' :
  mat_get (m_vc_winners (m_sw_alloc r)) outport inport = Ok invc ->
  vec_get (m_input_unit r) inport = Ok iu -> vec_get (m_vcs iu) invc = Ok v ->
  m_output_vc v = -1 -> VirtualChannel.flits v = [f] -> m_outport f = outport -> Flit.m_type f = HEAD_TAIL_ ->
  get_vnet invc r = Ok vnet -> vec_get (m_output_unit r) outport = Ok ou ->
  select_free_vc cur vnet ou = Ok (outvc, ou1) -> outvc <> -1 ->
  vec_get (m_outvc_state ou) outvc = Ok o -> 0 < m_credit_count o ->
  vec_get (m_switch_buffer (m_switch r)) inport = Ok b ->
  close_request outport inport (with_m_output_arbiter_activity
    (m_output_arbiter_activity (m_sw_alloc r) + 1) (m_sw_alloc r)) = Ok sa' ->
  grant cur outport inport r =
    Ok (sent_router cur outport inport outvc
          (sent_flit cur outport outvc (OutputUnit.m_direction ou) f) iu
          (sent_iu cur invc v iu) (sent_ou cur outvc o ou) b sa' r).
Proof.
  intros Hw Hiu Hv Hovc Hf Hport Htype Hvnet Hou Hsel Hne Ho Hcr Hb Hsa.
  unfold grant. rewrite Hw. cbn. rewrite Hiu. cbn.
  unfold InputUnit.get_outvc, VirtualChannel.get_outvc. rewrite Hv. cbn. rewrite Hovc. cbn.
  unfold vc_allocate. rewrite Hvnet. cbn. rewrite Hou. cbn. rewrite Hsel. cbn.
  rewrite (vec_set_Ok_get _ _ _ _ Hou). cbn. rewrite (proj2 (Z.eqb_neq outvc (-1)) Hne). cbn.
  assert (Hg : grant_outvc invc outvc iu = Ok (with_m_vcs (<[Z.to_nat invc := set_outvc outvc v]> (m_vcs iu)) iu)).
  { apply on_vc_spec. eauto. }
  unfold on_iu. cbn. erewrite (vec_update_Ok _ _ (grant_outvc invc outvc)); [|exact Hiu | exact Hg]. cbn.
  unfold take_flit. cbn. rewrite (vec_get_insert _ _ _ _ Hiu). cbn.
  unfold InputUnit.getTopFlit. cbn. rewrite (vec_get_insert _ _ _ _ Hv). cbn.
  rewrite (getTopFlit_single _ f) by exact Hf. cbn.
  rewrite (vec_set_Ok_get _ _ _ _ (vec_get_insert _ _ _ _ Hv)). cbn.
  rewrite (vec_set_Ok_get _ _ _ _ (vec_get_insert _ _ _ _ Hiu)). cbn.
  rewrite Hport, Z.eqb_refl. cbn. unfold getOutportDirection. cbn.
  rewrite (vec_get_insert _ _ _ _ Hou). cbn.
  unfold OutputUnit.get_direction. rewrite (select_free_vc_direction _ _ _ _ Hsel).
  unfold on_ou. cbn.
  erewrite (vec_update_Ok _ _ (OutputUnit.decrement_credit outvc)); [|exact (vec_get_insert _ _ _ _ Hou) |
    exact (select_then_decrement _ _ _ _ _ Hsel Hne Ho Hcr)].
  cbn. unfold grant_switch. cbn. rewrite (vec_modify_Ok _ _ _ _ Hb). cbn.
  unfold release_vc. rewrite (is_tail_single (advance_stage _ _ _)) by exact Htype.
  unfold on_iu. cbn. rewrite !list_insert_insert_eq, (vec_get_insert _ _ _ _ Hiu). cbn.
  unfold InputUnit.isReady. cbn. rewrite (vec_get_insert _ _ _ _ Hv). cbn.
  erewrite (vec_update_Ok _ _ (set_vc_idle invc cur)); [|exact (vec_get_insert _ _ _ _ Hiu) |
    apply on_vc_spec; cbn; eexists; split; [exact (vec_get_insert _ _ _ _ Hv) | reflexivity]].
  cbn. unfold send_credit. cbn. rewrite list_insert_insert_eq, (vec_get_insert _ _ _ _ Hiu). cbn.
  rewrite (vec_set_Ok_get _ _ _ _ (vec_get_insert _ _ _ _ Hiu)). cbn.
  unfold on_sa. cbn. rewrite Hsa. cbn.
  rewrite !list_insert_insert_eq. reflexivity.
Qed.
End Grant.

(** ** Matrices *)

Lemma wrap_next_range x n : 0 <= x < n -> 0 <= wrap_next x n < n.
Proof. unfold wrap_next. destruct (Z.leb_spec n (x + 1)); lia. Qed.

(** ** The router invariant *)

(** [ni] input ports, [no] output ports, [vn] virtual networks of [vp] VCs each. *)
Record Shape := mkShape { ni : Z; no : Z; vn : Z; vp : Z }.

Section Invariant.
Context (c : Config) (sh : Shape).

Abbreviation nv := (vn sh * vp sh).

Record shape_ok : Prop := {
  shape_ni : 0 < ni sh; shape_vn : 0 < vn sh; shape_vp : 0 < vp sh;
  shape_ordered : vn sh <= vsize (m_ordered c)
}.

(** The allocator's and the crossbar's vectors have the router's dimensions, and the
    round-robin pointers are in range. *)
Record sa_ok (sa : SwitchAllocator) : Prop := {
  sa_inports : m_num_inports sa = ni sh;
  sa_outports : m_num_outports sa = no sh;
  sa_vcs : sa_num_vcs sa = nv;
  sa_vpv : sa_vc_per_vnet sa = vp sh;
  sa_rr_invc : vsize (m_round_robin_invc sa) = ni sh /\ Forall (fun x => 0 <= x < nv) (m_round_robin_invc sa);
  sa_rr_inport : vsize (m_round_robin_inport sa) = no sh /\
    Forall (fun x => 0 <= x < ni sh) (m_round_robin_inport sa);
  sa_reqs : mat_ok (no sh) (ni sh) (m_port_requests sa);
  sa_wins : mat_ok (no sh) (ni sh) (m_vc_winners sa)
}.

(** A VC holds at most one flit, a single-flit packet routed to an existing output port, and
    no output VC is assigned to it between wakeups. *)
Definition vc_inv (v : VirtualChannel) : Prop :=
  m_output_vc v = -1 /\
  (VirtualChannel.flits v = [] \/
   exists f, VirtualChannel.flits v = [f] /\ 0 <= m_outport f < no sh /\ Flit.m_type f = HEAD_TAIL_).

Definition iu_inv (now : Z) (iu : InputUnit) : Prop :=
  vsize (m_vcs iu) = nv /\ Forall (vc_ok now) (m_vcs iu) /\ Forall vc_inv (m_vcs iu).

(** An output VC that is idle has a credit. *)
Definition outvc_inv (o : OutVcState) : Prop :=
  credits_ok o /\ (OutVcState.m_vc_state o = IDLE_ -> 0 < m_credit_count o).

Definition ou_inv (ou : OutputUnit) : Prop :=
  vsize (m_outvc_state ou) = nv /\ OutputUnit.m_vc_per_vnet ou = vp sh /\ Forall outvc_inv (m_outvc_state ou).

Record router_ok (now : Z) (r : Router) : Prop := {
  r_shape : shape_ok;
  r_vnets : m_virtual_networks r = vn sh;
  r_sa : sa_ok (m_sw_alloc r);
  r_ni : vsize (m_input_unit r) = ni sh;
  r_no : vsize (m_output_unit r) = no sh;
  r_iu : Forall (iu_inv now) (m_input_unit r);
  r_ou : Forall ou_inv (m_output_unit r);
  r_switch : vsize (m_switch_buffer (m_switch r)) = ni sh;
  r_cs : cs_num_inports (m_switch r) = ni sh
}.

Lemma get_vnet_ok now r invc :
  router_ok now r -> 0 <= invc < nv ->
  get_vnet invc r = Ok (invc `quot` vp sh) /\ 0 <= invc `quot` vp sh < vn sh /\
  (invc `quot` vp sh) * vp sh <= invc < (invc `quot` vp sh) * vp sh + vp sh.
Proof.
  intros Hr Hi. pose proof (shape_vp (r_shape _ _ Hr)) as Hvp.
  unfold get_vnet. rewrite (sa_vpv _ (r_sa _ _ Hr)), (r_vnets _ _ Hr).
  destruct (Z.eqb_spec (vp sh) 0); [lia|].
  rewrite Z.quot_div_nonneg by lia.
  assert (invc / vp sh < vn sh) by (apply Z.div_lt_upper_bound; lia).
  pose proof (Z.div_pos invc (vp sh) ltac:(lia) Hvp).
  pose proof (Z.div_mod invc (vp sh) ltac:(lia)). pose proof (Z.mod_pos_bound invc (vp sh) Hvp).
  rewrite (proj2 (Z.ltb_lt _ _)) by done. cbn. split_and!; (done || lia).
Qed.

Lemma iu_vc now iu invc : iu_inv now iu -> 0 <= invc < nv ->
  exists v, vec_get (m_vcs iu) invc = Ok v /\ vc_ok now v /\ vc_inv v.
Proof.
  intros (Hn & Hok & Hinv) Hi. destruct (vec_get_in_range (m_vcs iu) invc) as [v Hv]; [lia|].
  exists v. split_and!; [done | by eapply Forall_vec_get | by eapply Forall_vec_get].
Qed.

Lemma has_free_vc_total cur vnet ou : ou_inv ou -> 0 <= vnet < vn sh -> 0 < vp sh ->
  exists b, has_free_vc cur vnet ou = Ok b.
Proof.
  intros (Hn & Hp & _) Hv Hvp. unfold has_free_vc.
  destruct (first_idle_total (Z.to_nat (OutputUnit.m_vc_per_vnet ou)) (vnet * OutputUnit.m_vc_per_vnet ou) cur ou)
    as [o Ho]; [nia | rewrite Hp, Hn; nia|].
  rewrite Ho. cbn. eauto.
Qed.

Lemma ordering_check_total cur n temp_vc outport t iu :
  iu_inv cur iu -> 0 <= temp_vc -> temp_vc + Z.of_nat n <= nv ->
  exists b, ordering_check cur n temp_vc outport t iu = Ok b.
Proof.
  intros Hiu. revert temp_vc. induction n as [|n IH]; intros vc H0 H1; cbn [ordering_check]; [eauto|].
  destruct (iu_vc _ _ vc Hiu) as (v & Hv & Hok & _); [lia|].
  unfold InputUnit.need_stage, InputUnit.get_outport, InputUnit.get_enqueue_time. rewrite Hv. cbn.
  destruct (need_stage_total SA_ cur cur v Hok ltac:(lia)) as [[] ->]; cbn; [|apply IH; lia].
  case_match; [eauto | apply IH; lia].
Qed.

Lemma send_allowed_total cur r i invc o :
  router_ok cur r -> 0 <= i < ni sh -> 0 <= invc < nv -> 0 <= o < no sh ->
  exists b, send_allowed c cur i invc o (-1) r = Ok b /\
    (b = true -> exists ou, vec_get (m_output_unit r) o = Ok ou /\
       has_free_vc cur (invc `quot` vp sh) ou = Ok true).
Proof.
  intros Hr Hi Hv Ho. destruct (get_vnet_ok cur r invc Hr Hv) as (Hvn & Hvr & Hvb).
  unfold send_allowed. rewrite Hvn. cbn.
  destruct (vec_get_in_range (m_output_unit r) o) as [ou Hou]; [rewrite (r_no _ _ Hr); lia|].
  rewrite Hou. cbn.
  destruct (has_free_vc_total cur (invc `quot` vp sh) ou) as [free Hfree];
    [by eapply Forall_vec_get, Hou; apply (r_ou _ _ Hr) | lia | apply (shape_vp (r_shape _ _ Hr)) |].
  rewrite Hfree. cbn. destruct free; cbn; [|by eexists; split].
  pose proof (shape_ordered (r_shape _ _ Hr)).
  unfold isVNetOrdered. destruct (vec_get_in_range (m_ordered c) (invc `quot` vp sh)) as [ord ->]; [lia|].
  cbn. destruct ord; [|by eexists; split; eauto].
  destruct (vec_get_in_range (m_input_unit r) i) as [iu Hiu]; [rewrite (r_ni _ _ Hr); lia|].
  rewrite Hiu. cbn. pose proof (Forall_vec_get _ _ _ _ (r_iu _ _ Hr) Hiu) as Hinv.
  destruct (iu_vc _ _ invc Hinv Hv) as (v & Hvc & _).
  unfold InputUnit.get_enqueue_time. rewrite Hvc. cbn.
  rewrite (sa_vpv _ (r_sa _ _ Hr)).
  destruct (ordering_check_total cur (Z.to_nat (vp sh)) (invc `quot` vp sh * vp sh) o
              (VirtualChannel.get_enqueue_time v) iu Hinv) as [b ->]; [nia | nia|].
  exists b. split; [done | eauto].
Qed.

(** ** SA-I *)

(** A request that SA-II can grant: the winning VC holds one flit for that output port, which
    is in the SA stage, and the output port has a free VC of its vnet. *)
Definition sound (cur : Z) (wins : list (list Z)) (ius : list InputUnit) (ous : list OutputUnit) (o i : Z) : Prop :=
  exists invc iu v f ou, mat_get wins o i = Ok invc /\ 0 <= invc < nv /\
    vec_get ius i = Ok iu /\ vec_get (m_vcs iu) invc = Ok v /\
    VirtualChannel.flits v = [f] /\ m_outport f = o /\ is_stage SA_ cur f = true /\ Flit.m_time f <= cur /\
    vec_get ous o = Ok ou /\ has_free_vc cur (invc `quot` vp sh) ou = Ok true.

Lemma vc_request_total cur r i invc :
  router_ok cur r -> 0 <= i < ni sh -> 0 <= invc < nv ->
  exists req, vc_request c cur i invc r = Ok req /\
    forall o, req = Some o -> 0 <= o < no sh /\
      forall wins, mat_get wins o i = Ok invc -> sound cur wins (m_input_unit r) (m_output_unit r) o i.
Proof.
  intros Hr Hi Hinvc. unfold vc_request.
  destruct (vec_get_in_range (m_input_unit r) i) as [iu Hiu]; [rewrite (r_ni _ _ Hr); lia|].
  rewrite Hiu. cbn. pose proof (Forall_vec_get _ _ _ _ (r_iu _ _ Hr) Hiu) as Hinv.
  destruct (iu_vc _ _ invc Hinv Hinvc) as (v & Hv & Hok & Hvc).
  unfold InputUnit.need_stage, InputUnit.get_outport, InputUnit.peekTopFlit, InputUnit.get_outvc. rewrite Hv. cbn.
  destruct (need_stage_total SA_ cur cur v Hok ltac:(lia)) as [need Hneed]. rewrite Hneed. cbn.
  destruct need; [|by eexists; split].
  apply need_stage_true in Hneed as (f & Hpk & Hst & Ht & _ & Hne). rewrite Hpk. cbn.
  destruct Hvc as [_ [Hnil | (f' & Hf & Hport & Htype)]]; [done|].
  assert (f' = f) as ->.
  { unfold VirtualChannel.peekTopFlit, FlitBuffer.peekTopFlit in Hpk. unfold VirtualChannel.flits in Hf.
    rewrite Hf in Hpk. by inv_ok. }
  destruct (send_allowed_total cur r i invc (m_outport f) Hr Hi Hinvc Hport) as (b & -> & Hb). cbn.
  exists (if b then Some (m_outport f) else None). split; [done|]. intros o Ho. destruct b; [|done].
  simplify_eq. destruct (Hb eq_refl) as (ou & Hou & Hfree). split; [done|]. intros wins Hw.
  exists invc, iu, v, f, ou. split_and!; (done || lia).
Qed.
(** [o] is requested by [i]. *)
Definition req (sa : SwitchAllocator) (o i : Z) : Prop := mat_get (m_port_requests sa) o i = Ok true.

(** One input port requests one output port at most. *)
Definition one_request (sa : SwitchAllocator) : Prop :=
  forall o o' i, req sa o i -> req sa o' i -> o = o'.

Lemma post_request_total sa i invc o :
  sa_ok sa -> 0 <= i < ni sh -> 0 <= invc < nv -> 0 <= o < no sh ->
  exists sa', post_request i invc o sa = Ok sa' /\ sa_ok sa' /\
    mat_get (m_vc_winners sa') o i = Ok invc /\
    (forall o' i', ~ (o' = o /\ i' = i) -> mat_get (m_vc_winners sa') o' i' = mat_get (m_vc_winners sa) o' i') /\
    (forall o' i', req sa' o' i' <-> (o' = o /\ i' = i) \/ req sa o' i').
Proof.
  intros Hsa Hi Hv Ho. pose proof (sa_rr_invc _ Hsa) as [Hrl Hrall]. unfold post_request.
  destruct (mat_set_total _ _ _ o i true (sa_reqs _ Hsa) Ho Hi) as (reqs & -> & Hreqs & Hr1 & Hr2).
  destruct (mat_set_total _ _ _ o i invc (sa_wins _ Hsa) Ho Hi) as (wins & -> & Hwins & Hw1 & Hw2).
  cbn. rewrite vec_set_in_range by lia. cbn. eexists. split; [done|]. split_and!; [| done | done |].
  - destruct Hsa. constructor; cbn; try done. split; [by rewrite vsize_insert|].
    apply Forall_insert; [done|]. rewrite sa_vcs0. by apply wrap_next_range.
  - intros o' i'. unfold req. cbn. destruct (decide (o' = o /\ i' = i)) as [[-> ->]|Hne].
    + rewrite Hr1. tauto.
    + rewrite Hr2 by done. tauto.
Qed.

(** After the input ports below [k] are arbitrated. *)
Definition reqs_ok (cur k : Z) (r : Router) : Prop :=
  (forall o i, req (m_sw_alloc r) o i -> i < k /\
     sound cur (m_vc_winners (m_sw_alloc r)) (m_input_unit r) (m_output_unit r) o i) /\
  one_request (m_sw_alloc r).

Lemma sound_wins cur wins wins' ius ous o i :
  mat_get wins' o i = mat_get wins o i -> sound cur wins ius ous o i -> sound cur wins' ius ous o i.
Proof. unfold sound. by intros ->. Qed.

Lemma router_ok_with_sa now sa r : router_ok now r -> sa_ok sa -> router_ok now (with_m_sw_alloc sa r).
Proof. intros [] ?. by constructor. Qed.

Lemma with_sa_id r : with_m_sw_alloc (m_sw_alloc r) r = r.
Proof. by destruct r. Qed.

Lemma post_request_reqs cur r i invc o sa' :
  router_ok cur r -> reqs_ok cur i r -> 0 <= i < ni sh -> 0 <= invc < nv -> 0 <= o < no sh ->
  (forall wins, mat_get wins o i = Ok invc -> sound cur wins (m_input_unit r) (m_output_unit r) o i) ->
  post_request i invc o (m_sw_alloc r) = Ok sa' ->
  sa_ok sa' /\ reqs_ok cur (i + 1) (with_m_sw_alloc sa' r).
Proof.
  intros Hr [Hs Hu] Hi Hv Ho Hnew Hp.
  destruct (post_request_total _ i invc o (r_sa _ _ Hr) Hi Hv Ho) as (sa1 & Hp1 & Hsa & Hw & Hwo & Hreq).
  rewrite Hp in Hp1. simplify_eq. split; [done|]. split; cbn.
  - intros o' i' [[-> ->] | Hold]%Hreq; [split; [lia | by apply Hnew]|].
    destruct (Hs _ _ Hold) as [Hlt Hsound]. split; [lia|].
    eapply sound_wins, Hsound. apply Hwo. intros [_ ->]. lia.
  - intros o1 o2 i' H1%Hreq H2%Hreq.
    destruct H1 as [[-> E1] | H1], H2 as [[-> E2] | H2]; try done.
    + apply Hs in H2 as [? _]. lia.
    + apply Hs in H1 as [? _]. lia.
    + by apply (Hu _ _ i').
Qed.

Lemma inport_search_total cur n i invc r :
  router_ok cur r -> reqs_ok cur i r -> 0 <= i < ni sh -> 0 <= invc < nv ->
  exists sa', inport_search c cur n i invc r = Ok (with_m_sw_alloc sa' r) /\ sa_ok sa' /\
    reqs_ok cur (i + 1) (with_m_sw_alloc sa' r).
Proof.
  intros Hr Hreqs Hi. revert invc. induction n as [|n IH]; intros invc Hv; cbn [inport_search].
  - exists (m_sw_alloc r). rewrite with_sa_id. split_and!; [done | apply (r_sa _ _ Hr) |].
    destruct Hreqs as [Hs Hu]. split; [|done]. intros o j Hoj. destruct (Hs _ _ Hoj). split; [lia | done].
  - destruct (vc_request_total cur r i invc Hr Hi Hv) as (rq & -> & Hrq). cbn.
    destruct rq as [o|].
    + destruct (Hrq o eq_refl) as [Ho Hnew].
      destruct (post_request_total _ i invc o (r_sa _ _ Hr) Hi Hv Ho) as (sa' & Hp & _).
      exists sa'. unfold on_sa. rewrite Hp. cbn. split; [done|].
      by apply (post_request_reqs cur r i invc o).
    + apply IH. rewrite (sa_vcs _ (r_sa _ _ Hr)). by apply wrap_next_range.
Qed.

(** SA-I changes nothing but the allocator and posts sound requests only. *)
Lemma arbitrate_inports_total cur r :
  router_ok cur r -> (forall o i, ~ req (m_sw_alloc r) o i) ->
  exists sa', arbitrate_inports c cur r = Ok (with_m_sw_alloc sa' r) /\ sa_ok sa' /\
    reqs_ok cur (ni sh) (with_m_sw_alloc sa' r).
Proof.
  intros Hr Hclear. unfold arbitrate_inports. rewrite (sa_inports _ (r_sa _ _ Hr)).
  pose proof (shape_ni (r_shape _ _ Hr)) as Hni.
  destruct (for_range_total (fun k s => exists sa', s = with_m_sw_alloc sa' r /\ sa_ok sa' /\ reqs_ok cur k s)
    (fun inport r => invc ← vec_get (m_round_robin_invc (m_sw_alloc r)) inport;
       inport_search c cur (Z.to_nat (sa_num_vcs (m_sw_alloc r))) inport invc r)
    (Z.to_nat (ni sh)) 0 r) as (s' & -> & sa' & -> & Hsa & Hq).
  - exists (m_sw_alloc r). rewrite with_sa_id. split_and!; [done | apply (r_sa _ _ Hr) |].
    split; [intros o i Hoi | intros o o' i Hoi]; by apply Hclear in Hoi.
  - intros k s Hk (sa & -> & Hsa & Hq). cbn.
    destruct (sa_rr_invc _ Hsa) as [Hl Hall].
    destruct (vec_get_in_range (m_round_robin_invc sa) k) as [invc Hinvc]; [lia|]. rewrite Hinvc. cbn.
    destruct (inport_search_total cur (Z.to_nat (sa_num_vcs sa)) k invc (with_m_sw_alloc sa r))
      as (sa2 & H2 & Hsa2 & Hq2); [by apply router_ok_with_sa | done | lia | by apply (Forall_vec_get _ _ _ _ Hall Hinvc) |].
    eexists. split; [exact H2|]. exists sa2. by split_and!.
  - exists sa'. split_and!; [done | done|]. by replace (ni sh) with (0 + Z.of_nat (Z.to_nat (ni sh))) by lia.
Qed.
(** ** SA-II *)

Lemma close_request_total sa o i :
  sa_ok sa -> 0 <= i < ni sh -> 0 <= o < no sh ->
  exists sa', close_request o i sa = Ok sa' /\ sa_ok sa' /\ m_vc_winners sa' = m_vc_winners sa /\
    vec_get (m_round_robin_inport sa') o = Ok (wrap_next i (ni sh)) /\
    (forall o', o' <> o -> vec_get (m_round_robin_inport sa') o' = vec_get (m_round_robin_inport sa) o') /\
    (forall o' i', req sa' o' i' <-> ~ (o' = o /\ i' = i) /\ req sa o' i').
Proof.
  intros Hsa Hi Ho. pose proof (sa_rr_inport _ Hsa) as [Hrl Hrall]. unfold close_request.
  destruct (mat_set_total _ _ _ o i false (sa_reqs _ Hsa) Ho Hi) as (reqs & -> & Hreqs & Hr1 & Hr2).
  cbn. rewrite vec_set_in_range by lia. cbn. eexists. split; [done|]. cbn. split_and!; [| done | | |].
  - destruct Hsa. constructor; cbn; try done. split; [by rewrite vsize_insert|].
    apply Forall_insert; [done|]. rewrite sa_inports0. by apply wrap_next_range.
  - rewrite (sa_inports _ Hsa). apply vec_get_insert_eq. lia.
  - intros o' Hne. apply vec_get_insert_ne; [lia | done].
  - intros o' i'. unfold req. cbn. destruct (decide (o' = o /\ i' = i)) as [[-> ->]|Hne].
    + rewrite Hr1. split; [done|]. intros [Hn _]. tauto.
    + rewrite Hr2 by done. tauto.
Qed.

Lemma sent_vc_ok now v : (VirtualChannel.m_vc_state v).2 <= now -> vc_ok now (sent_vc now v) /\ vc_inv (sent_vc now v).
Proof.
  intros Ht. split.
  - split_and!; cbn; [| done | lia]. intros k p x _ Hp. cbn in Hp. by rewrite lookup_nil in Hp.
  - split; cbn; [done | by left].
Qed.

Lemma sent_iu_inv now invc v iu :
  iu_inv now iu -> vec_get (m_vcs iu) invc = Ok v -> iu_inv now (sent_iu now invc v iu).
Proof.
  intros (Hn & Hok & Hinv) Hv. pose proof (Forall_vec_get _ _ _ _ Hok Hv) as (_ & _ & Ht).
  destruct (sent_vc_ok now v Ht) as [H1 H2]. split_and!; cbn.
  - by rewrite vsize_insert.
  - by apply Forall_insert.
  - by apply Forall_insert.
Qed.

Lemma sent_ou_inv now outvc o ou :
  ou_inv ou -> vec_get (m_outvc_state ou) outvc = Ok o -> 0 < m_credit_count o ->
  ou_inv (sent_ou now outvc o ou).
Proof.
  intros (Hn & Hp & Hall) Ho Hc. pose proof (Forall_vec_get _ _ _ _ Hall Ho) as [Hcr _].
  split_and!; cbn; [by rewrite vsize_insert | done|]. apply Forall_insert; [done|].
  split; [|done]. unfold credits_ok in *. cbn. lia.
Qed.

(** A free VC means that allocation finds one, with a credit. *)
Lemma allocation_total cur vnet ou :
  ou_inv ou -> 0 < vp sh -> 0 <= vnet < vn sh -> has_free_vc cur vnet ou = Ok true ->
  exists outvc ou1 o, select_free_vc cur vnet ou = Ok (outvc, ou1) /\ outvc <> -1 /\
    vnet * vp sh <= outvc < vnet * vp sh + vp sh /\ isInState IDLE_ cur o = true /\
    vec_get (m_outvc_state ou) outvc = Ok o /\ 0 < m_credit_count o.
Proof.
  intros (Hn & Hp & Hall) Hvp Hv Hfree.
  destruct (select_free_vc_total cur vnet ou) as [[outvc ou1] Hsel]; [nia | lia | nia|].
  exists outvc, ou1. pose proof (select_free_vc_spec _ _ _ _ _ Hsel) as [(-> & _ & Hno) | (Hrange & _ & Hidle & _)].
  { rewrite Hfree in Hno. done. }
  rewrite Hp in Hrange. unfold is_vc_idle in Hidle. inv_ok. rename select (vec_get _ _ = _) into Ho.
  exists x. split_and!; try done; try nia.
  destruct (Forall_vec_get _ _ _ _ Hall Ho) as [_ Hidle]. apply Hidle.
  rename select (isInState _ _ _ = true) into Hst. unfold isInState in Hst.
  apply andb_true_iff in Hst as [Hst _]. by apply bool_decide_eq_true in Hst.
Qed.

Lemma grant_total cur r o i :
  router_ok cur r -> 0 <= i < ni sh -> 0 <= o < no sh ->
  sound cur (m_vc_winners (m_sw_alloc r)) (m_input_unit r) (m_output_unit r) o i ->
  exists invc iu v f ou outvc ov b sa',
    mat_get (m_vc_winners (m_sw_alloc r)) o i = Ok invc /\
    vec_get (m_input_unit r) i = Ok iu /\ vec_get (m_vcs iu) invc = Ok v /\
    VirtualChannel.flits v = [f] /\ vec_get (m_output_unit r) o = Ok ou /\
    vec_get (m_outvc_state ou) outvc = Ok ov /\ isInState IDLE_ cur ov = true /\ 0 < m_credit_count ov /\
    vec_get (m_switch_buffer (m_switch r)) i = Ok b /\
    close_request o i (with_m_output_arbiter_activity
      (m_output_arbiter_activity (m_sw_alloc r) + 1) (m_sw_alloc r)) = Ok sa' /\
    grant cur o i r = Ok (sent_router cur o i outvc
      (sent_flit cur o outvc (OutputUnit.m_direction ou) f) iu (sent_iu cur invc v iu) (sent_ou cur outvc ov ou) b sa' r).
Proof.
  intros Hr Hi Ho (invc & iu & v & f & ou & Hw & Hinvc & Hiu & Hv & Hf & Hport & _ & _ & Hou & Hfree).
  destruct (get_vnet_ok cur r invc Hr Hinvc) as (Hvn & Hvr & _).
  pose proof (Forall_vec_get _ _ _ _ (r_ou _ _ Hr) Hou) as Hoinv.
  destruct (allocation_total cur _ ou Hoinv (shape_vp (r_shape _ _ Hr)) Hvr Hfree)
    as (outvc & ou1 & ov & Hsel & Hne & _ & Hidle & Hov & Hcr).
  destruct (vec_get_in_range (m_switch_buffer (m_switch r)) i) as [b Hb]; [rewrite (r_switch _ _ Hr); lia|].
  pose proof (Forall_vec_get _ _ _ _ (r_iu _ _ Hr) Hiu) as (_ & _ & Hvinv).
  destruct (Forall_vec_get _ _ _ _ Hvinv Hv) as [Hovc [Hnil | (f' & Hf' & _ & Htype)]]; [congruence|].
  rewrite Hf in Hf'. simplify_eq.
  destruct (close_request_total (with_m_output_arbiter_activity
    (m_output_arbiter_activity (m_sw_alloc r) + 1) (m_sw_alloc r)) (m_outport f') i) as (sa' & Hsa & _);
    [by destruct (r_sa _ _ Hr) | done | done |].
  exists invc, iu, v, f', ou, outvc, ov, b, sa'. split_and!; try done. by eapply grant_eq.
Qed.
Lemma wrap_next_mod x n : 0 <= x < n -> wrap_next x n = (x + 1) mod n.
Proof.
  intros Hx. unfold wrap_next. destruct (Z.leb_spec n (x + 1)).
  - replace (x + 1) with n by lia. by rewrite Z.mod_same by lia.
  - by rewrite Z.mod_small by lia.
Qed.

(** The search grants to the first requesting port in cyclic order from the pointer. *)
Lemma outport_search_cases cur n o i0 r :
  router_ok cur r -> 0 <= o < no sh -> 0 <= i0 < ni sh ->
  (outport_search cur n o i0 r = Ok r /\
     forall k, 0 <= k < Z.of_nat n -> ~ req (m_sw_alloc r) o ((i0 + k) mod ni sh)) \/
  (exists k, 0 <= k < Z.of_nat n /\ req (m_sw_alloc r) o ((i0 + k) mod ni sh) /\
     (forall j, 0 <= j < k -> ~ req (m_sw_alloc r) o ((i0 + j) mod ni sh)) /\
     outport_search cur n o i0 r = grant cur o ((i0 + k) mod ni sh) r).
Proof.
  intros Hr Ho. revert i0. induction n as [|n IH]; intros i0 Hi; cbn [outport_search]; [left; split; [done | lia]|].
  destruct (mat_get_total _ _ _ o i0 (sa_reqs _ (r_sa _ _ Hr)) Ho Hi) as [b Hb]. rewrite Hb. cbn.
  assert (H0 : (i0 + 0) mod ni sh = i0) by (rewrite Z.add_0_r; by apply Z.mod_small).
  destruct b.
  - right. exists 0. rewrite H0. split_and!; [lia | lia | done | lia | done].
  - rewrite (sa_inports _ (r_sa _ _ Hr)), wrap_next_mod by done.
    assert (Hnext : forall k, ((i0 + 1) mod ni sh + k) mod ni sh = (i0 + (k + 1)) mod ni sh).
    { intros k. rewrite Zplus_mod_idemp_l. f_equal. lia. }
    assert (Hno : ~ req (m_sw_alloc r) o ((i0 + 0) mod ni sh)) by (rewrite H0; unfold req; congruence).
    destruct (IH ((i0 + 1) mod ni sh)) as [[-> Hall] | (k & Hk & Hreq & Hbefore & ->)];
      [apply Z.mod_pos_bound; lia | left | right].
    + split; [done|]. intros k Hk. destruct (decide (k = 0)) as [->|]; [done|].
      replace k with (k - 1 + 1) by lia. rewrite <- Hnext. apply Hall. lia.
    + exists (k + 1). rewrite <- Hnext. split_and!; [lia | lia | done | | done].
      intros j Hj. destruct (decide (j = 0)) as [->|]; [done|].
      replace j with (j - 1 + 1) by lia. rewrite <- Hnext. apply Hbefore. lia.
Qed.
End Invariant.

(** ** Conservation *)

(** A flit up to the fields that switch allocation and link traversal rewrite. *)
Definition ident (f : flit) : flit :=
  Flit.with_m_vc 0 (Flit.with_m_time 0 (Flit.with_m_stage (I_, 0)
    (with_m_outport 0 (with_m_outport_dirn "" f)))).

(** The flits of a router: in its input VCs and in its crossbar. *)
Definition switch_flits (r : Router) : list flit := concat (map m_buffer (m_switch_buffer (m_switch r))).
Definition input_flits (r : Router) : list flit := concat (map InputUnit.flits (m_input_unit r)).

Lemma sent_iu_flits cur invc v f iu :
  vec_get (m_vcs iu) invc = Ok v -> VirtualChannel.flits v = [f] ->
  InputUnit.flits iu ≡ₚ f :: InputUnit.flits (sent_iu cur invc v iu).
Proof.
  intros Hv Hf. unfold InputUnit.flits. cbn.
  pose proof (concat_map_vec_insert VirtualChannel.flits _ _ _ (sent_vc cur v) Hv) as Hp.
  rewrite Hf in Hp. cbn in Hp. symmetry. exact Hp.
Qed.

Lemma ident_sent cur o outvc d f : ident (sent_flit cur o outvc d f) = ident f.
Proof. reflexivity. Qed.
