(* ===== verification/SwitchMoved.v ===== *)
(** * The switch, seen from the slots of the channels

    [switch_moved] relates a router before and after some work of its switch: in each input VC either nothing
    happens or its flit leaves and a credit for it is queued; for each output VC either nothing happens or an
    idle VC becomes active, one credit is taken, and one flit more is on the way out with that VC.  The relation
    is reflexive and transitive, a grant and a crossing satisfy it. *)

From S2P Require Import Prelude Flit FlitBuffer Consumer Config VirtualChannel OutVcState NetworkLink.
From S2P Require Import OutputUnit InputUnit RoutingUnit RouterState SwitchAllocator SwitchTheory CrossbarSwitch.
Local Open Scope Z_scope.

(** ** Counting by VC *)

(** The flits or credits for VC [k]. *)
Definition nvc `{FlitLike F} (k : Z) (l : list F) : Z := vsize (filter (fun f => get_vc f = k) l).

Section Count.
Context `{FlitLike F} (k : Z).

Lemma nvc_nonneg (l : list F) : 0 <= nvc k l.
Proof. apply vsize_nonneg. Qed.
Lemma nvc_nil : nvc k (@nil F) = 0.
Proof. done. Qed.
Lemma nvc_app (l1 l2 : list F) : nvc k (l1 ++ l2) = nvc k l1 + nvc k l2.
Proof. unfold nvc, vsize. rewrite filter_app, length_app. lia. Qed.
Lemma nvc_cons f (l : list F) : nvc k (f :: l) = (if decide (get_vc f = k) then 1 else 0) + nvc k l.
Proof. unfold nvc, vsize. rewrite filter_cons. case_decide; cbn [length]; lia. Qed.
#[export] Instance nvc_Permutation : Proper (Permutation ==> eq) (nvc k : list F -> Z).
Proof. intros l1 l2 E. unfold nvc, vsize. by rewrite E. Qed.
End Count.

(** ** One input port *)

Definition iu_core (iu : InputUnit) : InputUnit := with_m_vcs [] (with_creditQueue flitBuffer_new iu).

Definition in_slot (cur k : Z) (iu iu' : InputUnit) : Prop :=
  exists v v', vec_get (m_vcs iu) k = Ok v /\ vec_get (m_vcs iu') k = Ok v' /\
    ((v' = v /\ nvc k (m_buffer (creditQueue iu')) = nvc k (m_buffer (creditQueue iu))) \/
     (exists f, VirtualChannel.flits v = [f] /\ v' = sent_vc cur v /\
       nvc k (m_buffer (creditQueue iu')) = nvc k (m_buffer (creditQueue iu)) + 1)).

Record in_moved (cur : Z) (iu iu' : InputUnit) : Prop := {
  im_core : iu_core iu' = iu_core iu;
  im_size : vsize (m_vcs iu') = vsize (m_vcs iu);
  im_slot : forall k, 0 <= k < vsize (m_vcs iu) -> in_slot cur k iu iu';
  im_credits : forall c, c ∈ m_buffer (creditQueue iu') -> c ∈ m_buffer (creditQueue iu) \/
    (m_is_free_signal c = true /\ 0 <= c_vc c < vsize (m_vcs iu))
}.

Lemma in_moved_refl cur iu : in_moved cur iu iu.
Proof.
  split; [done | done | | auto]. intros k Hk. destruct (vec_get_in_range (m_vcs iu) k Hk) as [v Hv]. exists v, v. auto.
Qed.

Lemma in_moved_trans cur iu iu1 iu2 : in_moved cur iu iu1 -> in_moved cur iu1 iu2 -> in_moved cur iu iu2.
Proof.
  intros [C1 Z1 S1 K1] [C2 Z2 S2 K2]. split; [congruence | congruence | |].
  - intros k Hk. destruct (S1 k Hk) as (v & v1 & Hv & Hv1 & H1). destruct (S2 k) as (v1' & v2 & Hv1' & Hv2 & H2); [lia|].
    merge_ok. exists v, v2. split_and!; [done | done|].
    destruct H1 as [[-> E1] | (f & Hf & -> & E1)], H2 as [[-> E2] | (f' & Hf' & -> & E2)].
    + left. split; [done | congruence].
    + right. exists f'. split_and!; [done | done | lia].
    + right. exists f. split_and!; [done | done | lia].
    + discriminate Hf'.
  - intros c [Hc | [H1 H2]]%K2; [by apply K1 | right; split; [done | lia]].
Qed.

Lemma elem_of_concat_map {A B} (f : A -> list B) l b : b ∈ concat (map f l) <-> exists a, a ∈ l /\ b ∈ f a.
Proof.
  rewrite list_elem_of_In, in_concat. setoid_rewrite in_map_iff. split.
  - intros (x & (a & <- & Ha) & Hb). exists a. by rewrite !list_elem_of_In.
  - intros (a & Ha%list_elem_of_In & Hb%list_elem_of_In). eauto.
Qed.

Lemma elem_of_vec {A} (l : list A) a : a ∈ l <-> exists i, vec_get l i = Ok a.
Proof.
  split.
  - intros [n Hn]%list_elem_of_lookup. exists (Z.of_nat n). apply vec_get_Ok. rewrite Nat2Z.id. split; [lia | done].
  - intros (i & [_ Hi]%vec_get_Ok). by eapply list_elem_of_lookup_2.
Qed.

(** No flit enters the input VCs. *)
Lemma in_moved_flits cur iu iu' f : in_moved cur iu iu' -> f ∈ InputUnit.flits iu' -> f ∈ InputUnit.flits iu.
Proof.
  intros [_ Hz Hs _] (v' & [k Hv']%elem_of_vec & Hf)%elem_of_concat_map.
  destruct (Hs k) as (v & v1 & Hv & Hv1 & Hc); [rewrite <- Hz; by eapply vec_get_range|]. merge_ok.
  destruct Hc as [[-> _] | (f' & _ & -> & _)]; [|by apply not_elem_of_nil in Hf]. apply elem_of_concat_map. exists v. split; [|done].
  apply elem_of_vec. eauto.
Qed.

(** ** One output port *)

Definition ou_core (ou : OutputUnit) : OutputUnit := with_m_outvc_state [] (with_m_out_buffer flitBuffer_new ou).

(** The flits on their way to output port [o]. *)
Definition pending (o : Z) (r : Router) : list flit :=
  filter (fun f => m_outport f = o) (switch_flits r) ++
  match vec_get (m_output_unit r) o with Ok ou => m_buffer (m_out_buffer ou) | Err _ => [] end.

Definition out_slot (cur o k : Z) (r r' : Router) (ou ou' : OutputUnit) : Prop :=
  exists x x', vec_get (m_outvc_state ou) k = Ok x /\ vec_get (m_outvc_state ou') k = Ok x' /\
    ((x' = x /\ nvc k (pending o r') = nvc k (pending o r)) \/
     (isInState IDLE_ cur x = true /\ x' = sent_outvc cur x /\ nvc k (pending o r') = nvc k (pending o r) + 1)).

Record out_moved (cur o : Z) (r r' : Router) (ou ou' : OutputUnit) : Prop := {
  om_core : ou_core ou' = ou_core ou;
  om_size : vsize (m_outvc_state ou') = vsize (m_outvc_state ou);
  om_slot : forall k, 0 <= k < vsize (m_outvc_state ou) -> out_slot cur o k r r' ou ou';
  om_vcs : forall f, f ∈ pending o r' -> 0 <= Flit.m_vc f < vsize (m_outvc_state ou) \/
    exists f0, f0 ∈ pending o r /\ Flit.m_vc f = Flit.m_vc f0;
  om_from : forall f, f ∈ pending o r' -> exists f0, m_route f = m_route f0 /\
    (f0 ∈ pending o r \/ f0 ∈ input_flits r /\ m_outport f0 = o)
}.

(** ** The router *)

Definition r_core (r : Router) : Router :=
  RouterState.with_m_events [] (with_m_switch (CrossbarSwitch_new 0) (with_m_sw_alloc (SwitchAllocator_new 0 0)
    (with_m_output_unit [] (with_m_input_unit [] r)))).

Record switch_moved (cur : Z) (r r' : Router) : Prop := {
  sm_core : r_core r' = r_core r;
  sm_ni : vsize (m_input_unit r') = vsize (m_input_unit r);
  sm_no : vsize (m_output_unit r') = vsize (m_output_unit r);
  sm_in : forall i iu iu', vec_get (m_input_unit r) i = Ok iu -> vec_get (m_input_unit r') i = Ok iu' -> in_moved cur iu iu';
  sm_out : forall o ou ou', vec_get (m_output_unit r) o = Ok ou -> vec_get (m_output_unit r') o = Ok ou' ->
    out_moved cur o r r' ou ou'
}.

Lemma out_moved_same cur o r r' ou ou' : ou' = ou -> pending o r' = pending o r -> out_moved cur o r r' ou ou'.
Proof.
  intros -> Hp. split; [done | done | | |].
  - intros k Hk. destruct (vec_get_in_range (m_outvc_state ou) k Hk) as [x Hx]. exists x, x. rewrite Hp. auto.
  - intros f. rewrite Hp. eauto.
  - intros f. rewrite Hp. eauto.
Qed.

Lemma switch_moved_refl cur r : switch_moved cur r r.
Proof.
  split; try done.
  - intros i iu iu' H1 H2. merge_ok. apply in_moved_refl.
  - intros o ou ou' H1 H2. merge_ok. by apply out_moved_same.
Qed.

Lemma moved_input_flits cur r r' f : switch_moved cur r r' -> f ∈ input_flits r' -> f ∈ input_flits r.
Proof.
  intros Hm (iu' & [i Hi']%elem_of_vec & Hf)%elem_of_concat_map.
  destruct (vec_get_in_range (m_input_unit r) i) as [iu Hi]; [rewrite <- (sm_ni _ _ _ Hm); by eapply vec_get_range|].
  apply elem_of_concat_map. exists iu. split; [apply elem_of_vec; eauto|]. eapply in_moved_flits; [|exact Hf]. by apply (sm_in _ _ _ Hm i).
Qed.

Lemma out_moved_trans cur o r r1 r2 ou ou1 ou2 : (forall f, f ∈ input_flits r1 -> f ∈ input_flits r) ->
  out_moved cur o r r1 ou ou1 -> out_moved cur o r1 r2 ou1 ou2 -> out_moved cur o r r2 ou ou2.
Proof.
  intros Hin [C1 Z1 S1 V1 F1] [C2 Z2 S2 V2 F2]. split; [congruence | congruence | | |].
  - intros k Hk. destruct (S1 k Hk) as (x & x1 & Hx & Hx1 & H1). destruct (S2 k) as (y & x2 & Hy & Hx2 & H2); [lia|].
    merge_ok. exists x, x2. split_and!; [done | done|].
    destruct H1 as [[-> E1] | (Hi & -> & E1)], H2 as [[-> E2] | (Hi' & -> & E2)].
    + left. split; [done | congruence].
    + right. split_and!; [done | done | lia].
    + right. split_and!; [done | done | lia].
    + discriminate Hi'.
  - intros f Hf. destruct (V2 f Hf) as [Hr | (f0 & Hf0 & ->)]; [rewrite Z1 in Hr; auto | by apply V1].
  - intros f Hf. destruct (F2 f Hf) as (f0 & -> & [Hf0 | [Hf0 Ho]]); [by apply F1 | eauto 10].
Qed.

Lemma switch_moved_trans cur r r1 r2 : switch_moved cur r r1 -> switch_moved cur r1 r2 -> switch_moved cur r r2.
Proof.
  intros H1 H2. split; [by rewrite (sm_core _ _ _ H2), (sm_core _ _ _ H1) | by rewrite (sm_ni _ _ _ H2), (sm_ni _ _ _ H1)
    | by rewrite (sm_no _ _ _ H2), (sm_no _ _ _ H1) | |].
  - intros i iu iu2 Hi Hi2. pose proof (vec_get_range _ _ _ Hi) as Hr. rewrite <- (sm_ni _ _ _ H1) in Hr.
    destruct (vec_get_in_range _ _ Hr) as [iu1 Hi1].
    eapply in_moved_trans; [by apply (sm_in _ _ _ H1 i) | by apply (sm_in _ _ _ H2 i)].
  - intros o ou ou2 Ho Ho2. pose proof (vec_get_range _ _ _ Ho) as Hr. rewrite <- (sm_no _ _ _ H1) in Hr.
    destruct (vec_get_in_range _ _ Hr) as [ou1 Ho1].
    eapply out_moved_trans; [intros f; by apply (moved_input_flits cur) | by apply (sm_out _ _ _ H1 o) | by apply (sm_out _ _ _ H2 o)].
Qed.

(** The allocator and the wakeup requests do not matter. *)
Lemma switch_moved_frame cur r r' r1 : switch_moved cur r r' -> r_core r1 = r_core r' -> m_input_unit r1 = m_input_unit r' ->
  m_output_unit r1 = m_output_unit r' -> m_switch r1 = m_switch r' -> switch_moved cur r r1.
Proof.
  intros H Hc Hi Ho Hs. eapply switch_moved_trans; [exact H|]. split; [done | by rewrite Hi | by rewrite Ho | |].
  - intros i iu iu' H1 H2. rewrite Hi in H2. merge_ok. apply in_moved_refl.
  - intros o ou ou' H1 H2. rewrite Ho in H2. merge_ok. apply out_moved_same; [done|].
    unfold pending, switch_flits. by rewrite Hs, Ho.
Qed.

(** ** A grant *)

Section Sent.
Context (cur o i invc outvc : Z) (d : PortDirection) (r : Router) (iu : InputUnit) (v : VirtualChannel) (f : flit)
  (ou : OutputUnit) (ov : OutVcState) (b : flitBuffer flit) (sa' : SwitchAllocator).
Context (Hiu : vec_get (m_input_unit r) i = Ok iu) (Hv : vec_get (m_vcs iu) invc = Ok v) (Hf : VirtualChannel.flits v = [f]) (Hfo : m_outport f = o).
Context (Hou : vec_get (m_output_unit r) o = Ok ou) (Hov : vec_get (m_outvc_state ou) outvc = Ok ov).
Context (Hidle : isInState IDLE_ cur ov = true) (Hb : vec_get (m_switch_buffer (m_switch r)) i = Ok b).

Definition sent : Router :=
  sent_router cur o i outvc (sent_flit cur o outvc d f) iu (sent_iu cur invc v iu) (sent_ou cur outvc ov ou) b sa' r.

Lemma sent_switch_flits : switch_flits sent ≡ₚ sent_flit cur o outvc d f :: switch_flits r.
Proof.
  unfold switch_flits, sent. cbn. pose proof (concat_map_vec_insert m_buffer _ _ _ (insert (sent_flit cur o outvc d f) b) Hb) as Hp.
  rewrite insert_Permutation in Hp. apply (Permutation_app_inv_l (m_buffer b)). rewrite Hp. solve_Permutation.
Qed.

Lemma sent_pending : pending o sent ≡ₚ sent_flit cur o outvc d f :: pending o r.
Proof.
  unfold pending. rewrite sent_switch_flits, filter_cons_True by done. cbn. rewrite (vec_get_insert _ _ _ _ Hou), Hou. done.
Qed.

Lemma sent_pending_other o' : o' <> o -> pending o' sent ≡ₚ pending o' r.
Proof.
  intros Hne. pose proof (vec_get_range _ _ _ Hou). unfold pending.
  rewrite sent_switch_flits, filter_cons_False by (cbn; congruence). cbn. by rewrite vec_get_insert_ne by lia.
Qed.

Lemma sent_in_moved : in_moved cur iu (sent_iu cur invc v iu).
Proof.
  pose proof (vec_get_range _ _ _ Hv) as Hr. split; [done | cbn; by rewrite vsize_insert | |].
  - intros k Hk. cbn. destruct (decide (k = invc)) as [->|Hne].
    + exists v, (sent_vc cur v). split_and!; [done | by apply (vec_get_insert _ _ _ _ Hv)|]. right. exists f. split_and!; [done | done|].
      unfold sent_iu. cbn [creditQueue with_creditQueue with_m_vcs]. rewrite insert_Permutation, nvc_cons. cbn. rewrite decide_True by done. lia.
    + destruct (vec_get_in_range (m_vcs iu) k Hk) as [v' Hv']. exists v', v'. split_and!; [done | cbn; by rewrite vec_get_insert_ne by lia|]. left.
      split; [done|]. unfold sent_iu. cbn [creditQueue with_creditQueue with_m_vcs]. rewrite insert_Permutation, nvc_cons. cbn.
      rewrite decide_False by congruence. lia.
  - intros c. unfold sent_iu. cbn [creditQueue with_creditQueue with_m_vcs]. rewrite insert_Permutation.
    intros [-> | Hc]%elem_of_cons; [right; cbn; split; [done | lia] | by left].
Qed.

Lemma sent_out_moved : out_moved cur o r sent ou (sent_ou cur outvc ov ou).
Proof.
  pose proof (vec_get_range _ _ _ Hov) as Hr. split; [done | cbn; by rewrite vsize_insert | | |].
  - intros k Hk. assert (E : nvc k (pending o sent) = (if decide (outvc = k) then 1 else 0) + nvc k (pending o r))
      by (by rewrite sent_pending, nvc_cons).
    unfold out_slot. cbn [m_outvc_state sent_ou with_m_outvc_state]. destruct (decide (outvc = k)) as [<-|Hne].
    + exists ov, (sent_outvc cur ov). split_and!; [done | by apply (vec_get_insert _ _ _ _ Hov)|]. right. split_and!; [done | done | lia].
    + destruct (vec_get_in_range (m_outvc_state ou) k Hk) as [x Hx]. exists x, x.
      split_and!; [done | cbn; by rewrite vec_get_insert_ne by lia|]. left. split; [done | lia].
  - intros f'. rewrite sent_pending. intros [-> | Hf']%elem_of_cons; [left; exact Hr | eauto].
  - intros f'. rewrite sent_pending. intros [-> | Hf']%elem_of_cons; [|eauto]. exists f. split; [done|]. right. split; [|done].
    apply elem_of_concat_map. exists iu. split; [apply elem_of_vec; eauto|]. apply elem_of_concat_map. exists v. split; [apply elem_of_vec; eauto|].
    rewrite Hf. by left.
Qed.

Lemma out_moved_other o' ou' r' : pending o' r' ≡ₚ pending o' r -> vec_get (m_output_unit r) o' = Ok ou' -> out_moved cur o' r r' ou' ou'.
Proof.
  intros Hp Ho. split; [done | done | | |].
  - intros k Hk. destruct (vec_get_in_range (m_outvc_state ou') k Hk) as [x Hx]. exists x, x.
    split_and!; [done | done|]. left. by rewrite Hp.
  - intros f'. rewrite Hp. eauto.
  - intros f'. rewrite Hp. eauto.
Qed.

Lemma sent_moved : switch_moved cur r sent.
Proof.
  pose proof (vec_get_range _ _ _ Hiu) as Hri. pose proof (vec_get_range _ _ _ Hou) as Hro.
  split; [done | cbn; by rewrite vsize_insert | cbn; by rewrite vsize_insert | |].
  - intros j ju ju' Hj Hj'. cbn in Hj'. destruct (decide (j = i)) as [->|].
    + rewrite (vec_get_insert _ _ _ _ Hiu) in Hj'. rewrite Hiu in Hj. apply Ok_inj in Hj as <-. apply Ok_inj in Hj' as <-. apply sent_in_moved.
    + rewrite vec_get_insert_ne in Hj' by lia. merge_ok. apply in_moved_refl.
  - intros j ju ju' Hj Hj'. cbn in Hj'. destruct (decide (j = o)) as [->|].
    + rewrite (vec_get_insert _ _ _ _ Hou) in Hj'. rewrite Hou in Hj. apply Ok_inj in Hj as <-. apply Ok_inj in Hj' as <-. apply sent_out_moved.
    + rewrite vec_get_insert_ne in Hj' by lia. merge_ok. apply out_moved_other; [by apply sent_pending_other | done].
Qed.
End Sent.

(** ** A crossing *)

Section Crossed.
Context (cur i : Z) (r : Router) (b b' : flitBuffer flit) (f : flit) (ou : OutputUnit) (evs : list Event) (n : Z).
Context (Hb : vec_get (m_switch_buffer (m_switch r)) i = Ok b) (Hf : m_buffer b ≡ₚ f :: m_buffer b').
Context (Hou : vec_get (m_output_unit r) (m_outport f) = Ok ou).

Definition crossed : Router :=
  let r1 := schedule evs (with_m_output_unit (<[Z.to_nat (m_outport f) :=
    with_m_out_buffer (insert (cross_flit cur f) (m_out_buffer ou)) ou]> (m_output_unit r)) r) in
  with_m_switch (with_m_crossbar_activity n (with_m_switch_buffer (<[Z.to_nat i := b']> (m_switch_buffer (m_switch r1))) (m_switch r1))) r1.

Lemma crossed_switch_flits : switch_flits r ≡ₚ f :: switch_flits crossed.
Proof.
  unfold switch_flits, crossed. cbn. pose proof (concat_map_vec_insert m_buffer _ _ _ b' Hb) as Hp. rewrite Hf in Hp. cbn in Hp.
  apply (Permutation_app_inv_l (m_buffer b')). rewrite <- Hp. solve_Permutation.
Qed.

Lemma crossed_count k : nvc k (pending (m_outport f) crossed) = nvc k (pending (m_outport f) r).
Proof.
  unfold pending. rewrite crossed_switch_flits, filter_cons_True by done. cbn [crossed m_output_unit with_m_switch schedule RouterState.with_m_events with_m_output_unit].
  rewrite (vec_get_insert _ _ _ _ Hou), Hou. cbn [m_out_buffer with_m_out_buffer]. rewrite insert_Permutation.
  cbn [app]. rewrite !nvc_app, !nvc_cons, !nvc_app. cbn. lia.
Qed.

(** What is on its way to the port was before. *)
Lemma crossed_from f' : f' ∈ pending (m_outport f) crossed -> exists f0, f0 ∈ pending (m_outport f) r /\ Flit.m_vc f' = Flit.m_vc f0 /\ m_route f' = m_route f0.
Proof.
  assert (Hsw : forall x, x ∈ f :: switch_flits crossed -> m_outport x = m_outport f -> x ∈ pending (m_outport f) r).
  { intros x Hx Ho. apply elem_of_app. left. apply list_elem_of_filter. split; [done|]. by rewrite crossed_switch_flits. }
  intros Hin. unfold pending in Hin. cbn [crossed m_output_unit with_m_switch schedule RouterState.with_m_events with_m_output_unit] in Hin.
  rewrite (vec_get_insert _ _ _ _ Hou) in Hin. cbn [m_out_buffer with_m_out_buffer] in Hin. rewrite insert_Permutation in Hin.
  apply elem_of_app in Hin as [[Ho Hin]%list_elem_of_filter | [-> | Hin]%elem_of_cons].
  - exists f'. split; [|done]. apply Hsw; [by right | done].
  - exists f. split; [|done]. apply Hsw; [by left | done].
  - exists f'. split; [|done]. apply elem_of_app. right. by rewrite Hou.
Qed.

Lemma crossed_moved : switch_moved cur r crossed.
Proof.
  pose proof (vec_get_range _ _ _ Hou) as Hro. split; [done | done | cbn; by rewrite vsize_insert | |].
  - intros j ju ju' Hj Hj'. cbn in Hj'. merge_ok. apply in_moved_refl.
  - intros j ju ju' Hj Hj'. cbn in Hj'. destruct (decide (j = m_outport f)) as [->|Hne].
    + rewrite (vec_get_insert _ _ _ _ Hou) in Hj'. rewrite Hou in Hj. apply Ok_inj in Hj as <-. apply Ok_inj in Hj' as <-. split; [done | done | | |].
      * intros k Hk. destruct (vec_get_in_range (m_outvc_state ou) k Hk) as [x Hx]. exists x, x. split_and!; [done | done|]. left.
        split; [done | apply crossed_count].
      * intros f' (f0 & H1 & H2 & _)%crossed_from. eauto.
      * intros f' (f0 & H1 & _ & H2)%crossed_from. eauto.
    + rewrite vec_get_insert_ne in Hj' by lia. merge_ok. apply out_moved_other; [|done].
      unfold pending. rewrite crossed_switch_flits, filter_cons_False by congruence. cbn. by rewrite vec_get_insert_ne by lia.
Qed.
End Crossed.
