(* ===== verification/SwitchCorrect.v ===== *)
(** * One cycle of switch allocation

    SA-II as a sequence of grants, and the theorems about a whole [SwitchAllocator::wakeup]:
    it always returns, keeps the router invariant, loses and duplicates no flit, grants each
    input and each output port at most once, leaves no requested output port idle, and serves
    requesters in round-robin order. *)

From S2P Require Import Prelude Flit FlitBuffer Consumer Config VirtualChannel OutVcState NetworkLink.
From S2P Require Import OutputUnit InputUnit RoutingUnit RouterState SwitchAllocator SwitchTheory SwitchMoved.
Local Open Scope Z_scope.

(** Flits the crossbar can forward in this cycle. *)
Definition at_switch (sh : Shape) (cur : Z) (f : flit) : Prop :=
  Flit.m_time f <= cur /\ is_stage ST_ cur f = true /\ 0 <= m_outport f < no sh.

(** Every crossbar buffer holds at most one flit, ready to cross. *)
Definition xbar_ok (sh : Shape) (cur : Z) (r : Router) : Prop :=
  Forall (fun b => m_buffer b = [] \/ exists f, m_buffer b = [f] /\ at_switch sh cur f)
    (m_switch_buffer (m_switch r)).

Definition xbar_empty_at (r : Router) (i : Z) : Prop :=
  exists b, vec_get (m_switch_buffer (m_switch r)) i = Ok b /\ m_buffer b = [].

Section Cycle.
Context (c : Config) (sh : Shape) (cur : Z).

(** What one grant changes and what it leaves alone. *)
Record grant_effect (o i : Z) (r r' : Router) : Prop := {
  ge_ok : router_ok c sh cur r';
  ge_wins : m_vc_winners (m_sw_alloc r') = m_vc_winners (m_sw_alloc r);
  ge_req : forall o' i', req (m_sw_alloc r') o' i' <-> ~ (o' = o /\ i' = i) /\ req (m_sw_alloc r) o' i';
  ge_ius : forall i', i' <> i -> vec_get (m_input_unit r') i' = vec_get (m_input_unit r) i';
  ge_ous : forall o', o' <> o -> vec_get (m_output_unit r') o' = vec_get (m_output_unit r) o';
  ge_xbar : forall i', i' <> i ->
    vec_get (m_switch_buffer (m_switch r')) i' = vec_get (m_switch_buffer (m_switch r)) i';
  ge_xok : xbar_ok sh cur r -> xbar_empty_at r i -> xbar_ok sh cur r';
  ge_flit : exists f f', ident f' = ident f /\ input_flits r ≡ₚ f :: input_flits r' /\
    switch_flits r' ≡ₚ f' :: switch_flits r;
  ge_rr : vec_get (m_round_robin_inport (m_sw_alloc r')) o = Ok (wrap_next i (ni sh));
  ge_rr_other : forall o', o' <> o ->
    vec_get (m_round_robin_inport (m_sw_alloc r')) o' = vec_get (m_round_robin_inport (m_sw_alloc r)) o';
  ge_out : map m_out_buffer (m_output_unit r') = map m_out_buffer (m_output_unit r);
  ge_moved : switch_moved cur r r'
}.

Lemma map_vec_insert {A B} (g : A -> B) (l : list A) i x y :
  vec_get l i = Ok x -> g y = g x -> map g (<[Z.to_nat i := y]> l) = map g l.
Proof.
  intros [_ Hi]%vec_get_Ok E. change (map g (<[Z.to_nat i := y]> l)) with (g <$> <[Z.to_nat i := y]> l).
  rewrite list_fmap_insert, E. apply list_insert_id. by rewrite list_lookup_fmap, Hi.
Qed.

Lemma sound_ready wins ius ous o i :
  sound sh cur wins ius ous o i ->
  forall invc iu v f, mat_get wins o i = Ok invc -> vec_get ius i = Ok iu -> vec_get (m_vcs iu) invc = Ok v ->
    VirtualChannel.flits v = [f] -> m_outport f = o /\ Flit.m_time f <= cur.
Proof.
  intros (invc & iu & v & f & ou & Hw & _ & Hiu & Hv & Hf & Hp & _ & Ht & _).
  intros invc' iu' v' f' Hw' Hiu' Hv' Hf'. merge_ok. rewrite Hf in Hf'. by simplify_eq.
Qed.

Lemma grant_spec r o i :
  router_ok c sh cur r -> req (m_sw_alloc r) o i ->
  sound sh cur (m_vc_winners (m_sw_alloc r)) (m_input_unit r) (m_output_unit r) o i ->
  exists r', grant cur o i r = Ok r' /\ grant_effect o i r r'.
Proof.
  intros Hr Hq Hs. pose proof (mat_get_range _ _ _ _ _ _ (sa_reqs _ _ (r_sa _ _ _ _ Hr)) Hq) as [Ho Hi].
  destruct (grant_total c sh cur r o i Hr Hi Ho Hs)
    as (invc & iu & v & f & ou & outvc & ov & b & sa' & Hw & Hiu & Hv & Hf & Hou & Hov & Hidle & Hcr & Hb & Hsa & Hg).
  destruct (sound_ready _ _ _ _ _ Hs _ _ _ _ Hw Hiu Hv Hf) as [Hport Ht].
  pose proof (Forall_vec_get _ _ _ _ (r_iu _ _ _ _ Hr) Hiu) as Hiinv.
  pose proof (Forall_vec_get _ _ _ _ (r_ou _ _ _ _ Hr) Hou) as Hoinv.
  destruct (close_request_total sh (with_m_output_arbiter_activity
    (m_output_arbiter_activity (m_sw_alloc r) + 1) (m_sw_alloc r)) o i)
    as (sa1 & Hsa1 & Hok & Hwins & Hrr & Hrro & Hreq); [by destruct (r_sa _ _ _ _ Hr) | done | done |].
  merge_ok. eexists. split; [exact Hg|]. constructor; cbn.
  - constructor; cbn; try apply Hr; [done | by rewrite vsize_insert, (r_ni _ _ _ _ Hr)
      | by rewrite vsize_insert, (r_no _ _ _ _ Hr) | | | by rewrite vsize_insert, (r_switch _ _ _ _ Hr)].
    + apply Forall_insert; [apply (r_iu _ _ _ _ Hr) | by apply sent_iu_inv].
    + apply Forall_insert; [apply (r_ou _ _ _ _ Hr) | by apply sent_ou_inv].
  - done.
  - done.
  - intros i' Hne. apply vec_get_insert_ne; [lia | done].
  - intros o' Hne. apply vec_get_insert_ne; [lia | done].
  - intros i' Hne. apply vec_get_insert_ne; [lia | done].
  - intros Hx (b' & Hb' & Hnil). merge_ok. apply Forall_insert; [done|]. right.
    eexists. split; [cbn; rewrite Hnil; reflexivity|].
    split_and!; cbn; [done | | lia | lia].
    unfold is_stage. cbn. by rewrite Z.leb_refl.
  - exists f, (sent_flit cur (m_outport f) outvc (OutputUnit.m_direction ou) f).
    split_and!; [done | |]; unfold input_flits, switch_flits; cbn.
    + pose proof (concat_map_vec_insert InputUnit.flits _ _ _ (sent_iu cur invc v iu) Hiu) as Hp.
      rewrite (sent_iu_flits cur invc v f iu Hv Hf) in Hp. cbn in Hp.
      apply (Permutation_app_inv_l (InputUnit.flits (sent_iu cur invc v iu))).
      rewrite <- Hp. solve_Permutation.
    + pose proof (concat_map_vec_insert m_buffer _ _ _
        (insert (sent_flit cur (m_outport f) outvc (OutputUnit.m_direction ou) f) b) Hb) as Hp.
      rewrite insert_Permutation in Hp. apply (Permutation_app_inv_l (m_buffer b)). rewrite Hp. solve_Permutation.
  - done.
  - done.
  - by apply (map_vec_insert _ _ _ _ _ Hou).
  - by apply sent_moved.
Qed.
(** ** SA-II as a sequence of grants *)

Inductive granted : list (Z * Z) -> Router -> Router -> Prop :=
  | granted_nil r : granted [] r r
  | granted_snoc gs r r1 r2 o i : granted gs r r1 -> req (m_sw_alloc r1) o i -> grant cur o i r1 = Ok r2 ->
      granted (gs ++ [(o, i)]) r r2.

(** Port [i] is the first requester of [o] from the round-robin pointer on. *)
Definition first_requester (sa : SwitchAllocator) (o i : Z) : Prop :=
  exists p, vec_get (m_round_robin_inport sa) o = Ok p /\ req sa o i /\
    forall j, req sa o j -> (i - p) mod ni sh <= (j - p) mod ni sh.

(** The state after output ports below [k]; [r1] is the state after SA-I. *)
Record sa2_inv (r1 : Router) (k : Z) (gs : list (Z * Z)) (r : Router) : Prop := {
  s2_ok : router_ok c sh cur r;
  s2_trace : granted gs r1 r;
  s2_one : one_request (m_sw_alloc r);
  s2_sound : forall o i, k <= o -> req (m_sw_alloc r) o i ->
    sound sh cur (m_vc_winners (m_sw_alloc r)) (m_input_unit r) (m_output_unit r) o i /\ xbar_empty_at r i;
  s2_same : forall o i, k <= o -> req (m_sw_alloc r) o i <-> req (m_sw_alloc r1) o i;
  s2_sub : forall o i, req (m_sw_alloc r) o i -> req (m_sw_alloc r1) o i;
  s2_xbar : xbar_ok sh cur r;
  s2_lt : forall o i, (o, i) ∈ gs -> 0 <= o < k;
  s2_done : forall o i o', (o, i) ∈ gs -> k <= o' -> ~ req (m_sw_alloc r) o' i;
  s2_nodup : NoDup gs.*1 /\ NoDup gs.*2;
  s2_first : forall o i, (o, i) ∈ gs -> first_requester (m_sw_alloc r1) o i /\
    vec_get (m_round_robin_inport (m_sw_alloc r)) o = Ok (wrap_next i (ni sh));
  s2_served : forall o i, o < k -> req (m_sw_alloc r1) o i -> exists i', (o, i') ∈ gs;
  s2_rr : forall o, (forall i, (o, i) ∉ gs) ->
    vec_get (m_round_robin_inport (m_sw_alloc r)) o = vec_get (m_round_robin_inport (m_sw_alloc r1)) o;
  s2_flits : map ident (input_flits r) ++ map ident (switch_flits r) ≡ₚ
             map ident (input_flits r1) ++ map ident (switch_flits r1);
  s2_out : map m_out_buffer (m_output_unit r) = map m_out_buffer (m_output_unit r1);
  s2_moved : switch_moved cur r1 r
}.

Lemma sound_frame wins ius ous ius' ous' o i :
  vec_get ius' i = vec_get ius i -> vec_get ous' o = vec_get ous o ->
  sound sh cur wins ius ous o i -> sound sh cur wins ius' ous' o i.
Proof. unfold sound. by intros -> ->. Qed.

Lemma mod_offset p k n : 0 <= k < n -> ((p + k) mod n - p) mod n = k.
Proof.
  intros Hk. rewrite Zminus_mod_idemp_l. replace (p + k - p) with k by lia. by apply Z.mod_small.
Qed.

Lemma req_range r o i : router_ok c sh cur r -> req (m_sw_alloc r) o i -> 0 <= o < no sh /\ 0 <= i < ni sh.
Proof. intros Hr Hq. exact (mat_get_range _ _ _ _ _ _ (sa_reqs _ _ (r_sa _ _ _ _ Hr)) Hq). Qed.

(** The searched position of a requester. *)
Lemma requester_offset r o j p : router_ok c sh cur r -> req (m_sw_alloc r) o j ->
  exists k, 0 <= k < ni sh /\ j = (p + k) mod ni sh /\ (j - p) mod ni sh = k.
Proof.
  intros Hr Hq. destruct (req_range r o j Hr Hq) as [_ Hj]. exists ((j - p) mod ni sh).
  split_and!; [apply Z.mod_pos_bound; lia | apply Z.mod_pos_bound; lia | | done].
  rewrite Zplus_mod_idemp_r. replace (p + (j - p)) with j by lia. symmetry. by apply Z.mod_small.
Qed.

Lemma grant_flits o i r r' : grant_effect o i r r' ->
  map ident (input_flits r') ++ map ident (switch_flits r') ≡ₚ
  map ident (input_flits r) ++ map ident (switch_flits r).
Proof.
  intros Hg. destruct (ge_flit _ _ _ _ Hg) as (f & f' & E & -> & ->). cbn. rewrite E. solve_Permutation.
Qed.

(** One output port of SA-II. *)
Lemma sa2_skip r1 k gs r :
  sa2_inv r1 k gs r -> (forall j, ~ req (m_sw_alloc r) k j) -> sa2_inv r1 (k + 1) gs r.
Proof.
  intros [] Hno. constructor; try done.
  - intros o i Ho. apply s2_sound0. lia.
  - intros o i Ho. apply s2_same0. lia.
  - intros o i Hin. specialize (s2_lt0 o i Hin). lia.
  - intros o i o' Hin Ho. apply (s2_done0 o i o' Hin). lia.
  - intros o i Ho Hq. destruct (decide (o = k)) as [->|]; [|apply (s2_served0 o i); [lia | done]].
    apply s2_same0 in Hq; [|lia]. by apply Hno in Hq.
Qed.

Lemma sa2_grant r1 k gs r i r' :
  sa2_inv r1 k gs r -> 0 <= k -> first_requester (m_sw_alloc r) k i -> grant cur k i r = Ok r' ->
  grant_effect k i r r' -> sa2_inv r1 (k + 1) (gs ++ [(k, i)]) r'.
Proof.
  intros Hinv Hk0 Hfirst Hg Hge.
  assert (Hq : req (m_sw_alloc r) k i) by (by destruct Hfirst as (p & _ & ? & _)).
  destruct Hinv. destruct Hge. assert (Hfresh : forall o, (o, i) ∉ gs).
  { intros o Hin. by apply (s2_done0 o i k Hin). }
  assert (Hother : forall o j, k + 1 <= o -> req (m_sw_alloc r') o j -> j <> i /\ o <> k /\ req (m_sw_alloc r) o j).
  { intros o j Ho Hoj. apply ge_req0 in Hoj as [_ Hoj]. split_and!; [|lia | done].
    intros ->. specialize (s2_one0 _ _ _ Hq Hoj). lia. }
  constructor; try done.
  - by econstructor.
  - intros o o' j H1 H2. apply ge_req0 in H1 as [_ H1]. apply ge_req0 in H2 as [_ H2]. by apply (s2_one0 o o' j).
  - intros o j Ho Hoj. destruct (Hother o j Ho Hoj) as (Hji & Hok & Hold).
    destruct (s2_sound0 o j ltac:(lia) Hold) as [Hs (b & Hb & Hnil)]. split.
    + rewrite ge_wins0. eapply sound_frame; [by apply ge_ius0 | by apply ge_ous0 | done].
    + exists b. split; [by rewrite ge_xbar0 | done].
  - intros o j Ho. rewrite ge_req0, <- s2_same0 by lia. split; [tauto|]. intros Hoj. split; [lia | done].
  - intros o j Hoj. apply ge_req0 in Hoj as [_ Hoj]. auto.
  - apply ge_xok0; [done|]. by destruct (s2_sound0 k i ltac:(lia) Hq).
  - intros o j [Hin | [= -> ->]%list_elem_of_singleton]%elem_of_app; [specialize (s2_lt0 o j Hin); lia | lia].
  - intros o j o' [Hin | [= -> ->]%list_elem_of_singleton]%elem_of_app Ho' Hoj.
    + apply ge_req0 in Hoj as [_ Hoj]. by apply (s2_done0 o j o' Hin ltac:(lia)).
    + by destruct (Hother o' i Ho' Hoj) as (? & _).
  - destruct s2_nodup0 as [Hn1 Hn2]. rewrite !fmap_app. cbn. split; apply NoDup_app; split_and!; try done;
      try apply NoDup_singleton.
    + intros o ([o' j] & -> & Hin)%list_elem_of_fmap Hin2%list_elem_of_singleton. cbn in *. subst.
      specialize (s2_lt0 k j Hin). lia.
    + intros j ([o' j'] & -> & Hin)%list_elem_of_fmap Hin2%list_elem_of_singleton. cbn in *. subst.
      by apply (Hfresh o').
  - intros o j [Hin | [= -> ->]%list_elem_of_singleton]%elem_of_app.
    + destruct (s2_first0 o j Hin) as [Hf Hrr]. split; [done|]. rewrite ge_rr_other0; [done|].
      specialize (s2_lt0 o j Hin). lia.
    + split; [|done]. destruct Hfirst as (p & Hp & _ & Hmin). exists p. split_and!.
      * rewrite <- s2_rr0; [done|]. intros j Hin. specialize (s2_lt0 k j Hin). lia.
      * by apply s2_sub0.
      * intros j Hj. apply Hmin. apply s2_same0; [lia | done].
  - intros o j Ho Hoj. destruct (decide (o = k)) as [->|]; [exists i; set_solver|].
    destruct (s2_served0 o j ltac:(lia) Hoj) as [j' Hin]. exists j'. set_solver.
  - intros o Ho. rewrite ge_rr_other0, s2_rr0; [done | |].
    + intros j Hin. apply (Ho j). set_solver.
    + intros ->. apply (Ho i). set_solver.
  - rewrite (grant_flits k i r r'); [done|]. by constructor.
  - by rewrite ge_out0.
  - by eapply switch_moved_trans.
Qed.

Lemma sa2_step r1 k gs r :
  sa2_inv r1 k gs r -> 0 <= k < no sh ->
  exists r' gs', (inport ← vec_get (m_round_robin_inport (m_sw_alloc r)) k;
     outport_search cur (Z.to_nat (m_num_inports (m_sw_alloc r))) k inport r) = Ok r' /\
    sa2_inv r1 (k + 1) gs' r'.
Proof.
  intros Hinv Hk. pose proof (s2_ok _ _ _ _ Hinv) as Hr. pose proof (r_sa _ _ _ _ Hr) as Hsa.
  destruct (sa_rr_inport _ _ Hsa) as [Hl Hall].
  destruct (vec_get_in_range (m_round_robin_inport (m_sw_alloc r)) k) as [p Hp]; [lia|]. rewrite Hp. cbn.
  pose proof (Forall_vec_get _ _ _ _ Hall Hp) as Hpr. cbn in Hpr. rewrite (sa_inports _ _ Hsa).
  destruct (outport_search_cases c sh cur (Z.to_nat (ni sh)) k p r Hr Hk Hpr)
    as [[-> Hno] | (d & Hd & Hq & Hbefore & ->)].
  - exists r, gs. split; [done|]. apply sa2_skip; [done|]. intros j Hj.
    destruct (requester_offset r k j p Hr Hj) as (d & Hd & -> & _). apply (Hno d); [lia | done].
  - destruct (s2_sound _ _ _ _ Hinv k _ ltac:(lia) Hq) as [Hs _].
    destruct (grant_spec r k _ Hr Hq Hs) as (r' & Hg & Hge). exists r', (gs ++ [(k, (p + d) mod ni sh)]).
    split; [done|]. eapply sa2_grant; try done; [lia|]. exists p. split_and!; [done | done|].
    intros j Hj. rewrite mod_offset by lia.
    destruct (requester_offset r k j p Hr Hj) as (d' & Hd' & -> & ->).
    destruct (Z.le_gt_cases d d') as [|Hlt]; [done|]. exfalso. apply (Hbefore d'); [lia | done].
Qed.

Lemma sa2_init r1 :
  router_ok c sh cur r1 -> reqs_ok sh cur (ni sh) r1 ->
  (forall i, 0 <= i < ni sh -> xbar_empty_at r1 i) -> sa2_inv r1 0 [] r1.
Proof.
  intros Hr [Hs Hu] Hx. constructor; try done.
  - constructor.
  - intros o i _ Hq. destruct (Hs o i Hq) as [_ Hsound]. split; [done|].
    apply Hx. by destruct (req_range _ _ _ Hr Hq).
  - apply Forall_lookup. intros j b Hb. left.
    destruct (Hx (Z.of_nat j)) as (b' & Hb' & Hnil).
    { apply lookup_lt_Some in Hb. rewrite <- (r_switch _ _ _ _ Hr). unfold vsize. lia. }
    apply vec_get_Ok in Hb' as [_ Hb']. rewrite Nat2Z.id in Hb'. congruence.
  - by intros o i ?%elem_of_nil.
  - by intros o i o' ?%elem_of_nil.
  - split; constructor.
  - by intros o i ?%elem_of_nil.
  - intros o i Ho Hq. destruct (req_range _ _ _ Hr Hq). lia.
  - apply switch_moved_refl.
Qed.

Lemma arbitrate_outports_total r1 :
  router_ok c sh cur r1 -> reqs_ok sh cur (ni sh) r1 ->
  (forall i, 0 <= i < ni sh -> xbar_empty_at r1 i) ->
  exists r2 gs, arbitrate_outports cur r1 = Ok r2 /\ sa2_inv r1 (no sh) gs r2.
Proof.
  intros Hr Hq Hx. unfold arbitrate_outports. rewrite (sa_outports _ _ (r_sa _ _ _ _ Hr)).
  assert (Hno : 0 <= no sh) by (rewrite <- (r_no _ _ _ _ Hr); apply vsize_nonneg).
  destruct (for_range_total (fun k s => exists gs, sa2_inv r1 k gs s)
    (fun outport r => inport ← vec_get (m_round_robin_inport (m_sw_alloc r)) outport;
       outport_search cur (Z.to_nat (m_num_inports (m_sw_alloc r))) outport inport r)
    (Z.to_nat (no sh)) 0 r1) as (r2 & -> & gs & Hinv).
  - exists []. by apply sa2_init.
  - intros k s Hk (gs & Hinv). destruct (sa2_step r1 k gs s Hinv) as (s' & gs' & H1 & H2); [lia|]. eauto.
  - exists r2, gs. split; [done|]. by replace (no sh) with (0 + Z.of_nat (Z.to_nat (no sh))) by lia.
Qed.
End Cycle.
