(* ===== verification/RouterCycle.v ===== *)
(** * The switch pipeline of a router: allocation, then traversal

    Theorems about one [SwitchAllocator::wakeup] followed by one [CrossbarSwitch::wakeup], the
    second half of [Router::wakeup]. *)

From S2P Require Import Prelude Flit FlitBuffer Consumer Config VirtualChannel OutVcState NetworkLink.
From S2P Require Import OutputUnit InputUnit RoutingUnit RouterState SwitchAllocator SwitchTheory.
From S2P Require Import SwitchMoved SwitchCorrect CrossbarSwitch.
Local Open Scope Z_scope.

(** ** Loops that stop early *)

Lemma for_ctl_exists (body : Z -> unit -> result (ctl unit unit)) (b : Z -> bool) n i :
  (forall k, i <= k < i + Z.of_nat n -> body k tt = Ok (if b k then Brk tt else Cont tt)) ->
  for_ctl n i body tt = Ok (if existsb b (seqZ i (Z.of_nat n)) then Brk tt else Cont tt).
Proof.
  revert i. induction n as [|n IH]; intros i Hb; cbn [for_ctl]; [done|].
  rewrite Hb by lia. cbn. rewrite (seqZ_cons i (Z.of_nat (S n))) by lia. cbn.
  destruct (b i); [done|]. rewrite IH by (intros k Hk; apply Hb; lia).
  by replace (Z.pred (Z.of_nat (S n))) with (Z.of_nat n) by lia.
Qed.

Section EndOfCycle.
Context (c : Config) (sh : Shape) (cur : Z).

Abbreviation nv := (vn sh * vp sh).

Lemma clear_request_vector_total sa :
  sa_ok sh sa -> exists sa', clear_request_vector sa = Ok sa' /\ sa_ok sh sa' /\
    (forall o i, ~ req sa' o i) /\ m_round_robin_inport sa' = m_round_robin_inport sa /\
    m_round_robin_invc sa' = m_round_robin_invc sa.
Proof.
  intros Hsa. unfold clear_request_vector. rewrite (sa_outports _ _ Hsa), (sa_inports _ _ Hsa).
  pose (P (n k : Z) (m : list (list bool)) := mat_ok (no sh) (ni sh) m /\
    forall o j, o < n \/ (o = n /\ j < k) -> mat_get m o j <> Ok true).
  destruct (for_range_total (fun i m => P i 0 m)
    (fun i m => for_range (Z.to_nat (ni sh)) 0 (fun j m => mat_set m i j false) m)
    (Z.to_nat (no sh)) 0 (m_port_requests sa)) as (m' & -> & Hm & Hcl).
  - split; [apply (sa_reqs _ _ Hsa)|]. intros o j Hlt Hg.
    apply (mat_get_range _ _ _ _ _ _ (sa_reqs _ _ Hsa)) in Hg. lia.
  - intros i m Hi HP.
    destruct (for_range_total (P i) (fun j m => mat_set m i j false) (Z.to_nat (ni sh)) 0 m HP)
      as (m' & Hm' & Hok & Hcl).
    + intros j m1 Hj [Hok Hcl].
      destruct (mat_set_total _ _ _ i j false Hok ltac:(lia) ltac:(lia)) as (m2 & -> & Hok2 & Hg & Hother).
      exists m2. split; [done|]. split; [done|]. intros o j' Hlt.
      destruct (decide (o = i /\ j' = j)) as [[-> ->]|Hne]; [by rewrite Hg|].
      rewrite Hother by done. apply Hcl. lia.
    + exists m'. split; [done|]. split; [done|]. intros o j Hlt Hg.
      pose proof (mat_get_range _ _ _ _ _ _ Hok Hg). apply (Hcl o j); [lia | done].
  - cbn. eexists. split; [done|]. split_and!; [by destruct Hsa; constructor | | done | done].
    intros o i Hq. unfold req in Hq. cbn in Hq. pose proof (mat_get_range _ _ _ _ _ _ Hm Hq).
    apply (Hcl o i); [lia | done].
Qed.

(** A flit of VC [j] of input port [i] will be in the SA stage at [t]. *)
Definition in_SA (t : Z) (r : Router) (i j : Z) : bool :=
  match vec_get (m_input_unit r) i with
  | Ok iu => match InputUnit.need_stage j SA_ t iu with Ok b => b | Err _ => false end
  | Err _ => false
  end.

Lemma needs_wakeup_spec r :
  router_ok c sh cur r -> 0 <= cur < 2 ^ 64 - 1 ->
  needs_wakeup cur r =
    Ok (if existsb (fun i => existsb (in_SA (cur + 1) r i) (seqZ 0 nv)) (seqZ 0 (ni sh))
        then Brk tt else Cont tt).
Proof.
  intros Hr Hcur. unfold needs_wakeup. pose proof (r_sa _ _ _ _ Hr) as Hsa.
  rewrite (sa_inports _ _ Hsa), (sa_vcs _ _ Hsa).
  pose proof (r_shape _ _ _ _ Hr) as [Hni Hvn Hvp _].
  assert (Ht : cyc_add cur 1 = cur + 1) by (apply u64_small; lia).
  rewrite (for_ctl_exists _ (fun i => existsb (in_SA (cur + 1) r i) (seqZ 0 nv))).
  - by rewrite Z2Nat.id by lia.
  - intros i Hi. rewrite (for_ctl_exists _ (in_SA (cur + 1) r i)); [by rewrite Z2Nat.id by lia|].
    intros j Hj. unfold in_SA.
    destruct (vec_get_in_range (m_input_unit r) i) as [iu Hiu]; [rewrite (r_ni _ _ _ _ Hr); lia|].
    rewrite Hiu, Ht. cbn. unfold InputUnit.need_stage.
    destruct (iu_vc sh cur iu j) as (v & -> & Hok & _); [by apply (Forall_vec_get _ _ _ _ (r_iu _ _ _ _ Hr) Hiu) | lia|].
    cbn. destruct (need_stage_total SA_ cur (cur + 1) v Hok ltac:(lia)) as [b ->]. by destruct b.
Qed.

Lemma router_ok_schedule now evs r : router_ok c sh now r -> router_ok c sh now (schedule evs r).
Proof. intros []. by constructor. Qed.
End EndOfCycle.

(** A router at the start of switch allocation: no request is pending and the crossbar is empty. *)
Definition sa_ready (c : Config) (sh : Shape) (cur : Z) (r : Router) : Prop :=
  router_ok c sh cur r /\ (forall o i, ~ req (m_sw_alloc r) o i) /\
  (forall i, 0 <= i < ni sh -> xbar_empty_at r i) /\ 0 <= cur < 2 ^ 64 - 1.

Section Wakeup.
Context (c : Config) (sh : Shape) (cur : Z).

(** The two stages and what is left after them, shared by the theorems below. *)
Lemma sa_wakeup_stages r :
  sa_ready c sh cur r ->
  exists r1 r2 r' gs, arbitrate_inports c cur r = Ok r1 /\ r1 = with_m_sw_alloc (m_sw_alloc r1) r /\
    router_ok c sh cur r1 /\ reqs_ok sh cur (ni sh) r1 /\
    arbitrate_outports cur r1 = Ok r2 /\ sa2_inv c sh cur r1 (no sh) gs r2 /\
    SwitchAllocator.wakeup c cur r = Ok r' /\ router_ok c sh cur r' /\
    (forall o i, ~ req (m_sw_alloc r') o i) /\
    m_input_unit r' = m_input_unit r2 /\ m_output_unit r' = m_output_unit r2 /\ m_switch r' = m_switch r2 /\
    m_round_robin_inport (m_sw_alloc r') = m_round_robin_inport (m_sw_alloc r2) /\
    m_events r' = m_events r2 ++
      (if existsb (fun i => existsb (in_SA (cur + 1) r' i) (seqZ 0 (vn sh * vp sh))) (seqZ 0 (ni sh))
       then [(CRouter (m_id r'), cyc_add cur 1)] else []) /\ r_core r' = r_core r2.
Proof.
  intros (Hr & Hq & Hx & Hcur).
  destruct (arbitrate_inports_total c sh cur r Hr Hq) as (sa1 & H1 & Hsa1 & Hreqs).
  pose proof (router_ok_with_sa c sh cur sa1 r Hr Hsa1) as Hr1.
  destruct (arbitrate_outports_total c sh cur _ Hr1 Hreqs Hx) as (r2 & gs & H2 & Hinv).
  pose proof (s2_ok _ _ _ _ _ _ _ Hinv) as Hr2.
  destruct (clear_request_vector_total sh (m_sw_alloc r2) (r_sa _ _ _ _ Hr2)) as (sa3 & H3 & Hsa3 & Hno & Hrr & _).
  pose proof (router_ok_with_sa c sh cur sa3 r2 Hr2 Hsa3) as Hr3.
  pose proof (needs_wakeup_spec c sh cur _ Hr3 Hcur) as Hn.
  assert (Hw : SwitchAllocator.wakeup c cur r = check_for_wakeup cur (with_m_sw_alloc sa3 r2)).
  { unfold SwitchAllocator.wakeup. rewrite H1. cbn. rewrite H2. cbn. unfold on_sa. by rewrite H3. }
  unfold check_for_wakeup in Hw. rewrite Hn in Hw. cbn in Hw.
  destruct (existsb _ (seqZ 0 (ni sh))) eqn:Eb.
  - exists (with_m_sw_alloc sa1 r), r2, (schedule_wakeup cur 1 (with_m_sw_alloc sa3 r2)), gs.
    split_and!; try done; [by apply router_ok_schedule|]. cbn. f_equal.
    change (in_SA (cur + 1) (schedule_wakeup cur 1 (with_m_sw_alloc sa3 r2)))
      with (in_SA (cur + 1) (with_m_sw_alloc sa3 r2)). by rewrite Eb.
  - exists (with_m_sw_alloc sa1 r), r2, (with_m_sw_alloc sa3 r2), gs.
    split_and!; try done. rewrite Eb, app_nil_r. done.
Qed.
(** ** Traversal *)

(** After the input ports below [k] have crossed. *)
Record cross_inv (r0 : Router) (k : Z) (r : Router) : Prop := {
  ci_ok : router_ok c sh cur r;
  ci_xok : xbar_ok sh cur r;
  ci_empty : forall i, 0 <= i < k -> xbar_empty_at r i;
  ci_ius : m_input_unit r = m_input_unit r0;
  ci_sa : m_sw_alloc r = m_sw_alloc r0;
  ci_vcs : map m_outvc_state (m_output_unit r) = map m_outvc_state (m_output_unit r0);
  ci_flits : map ident (switch_flits r) ++ map ident (concat (map (fun ou => m_buffer (m_out_buffer ou)) (m_output_unit r)))
    ≡ₚ map ident (switch_flits r0) ++ map ident (concat (map (fun ou => m_buffer (m_out_buffer ou)) (m_output_unit r0)));
  ci_moved : switch_moved cur r0 r
}.

Lemma ident_cross f : ident (cross_flit cur f) = ident f.
Proof. reflexivity. Qed.

Lemma cross_step r0 k r :
  cross_inv r0 k r -> 0 <= k < ni sh -> exists r', cross_inport cur k r = Ok r' /\ cross_inv r0 (k + 1) r'.
Proof.
  intros [] Hk. unfold cross_inport.
  destruct (vec_get_in_range (m_switch_buffer (m_switch r)) k) as [b Hb];
    [rewrite (r_switch _ _ _ _ ci_ok0); lia|].
  rewrite Hb. cbn. pose proof (Forall_vec_get _ _ _ _ ci_xok0 Hb) as Hbk. cbn in Hbk.
  destruct Hbk as [Hnil | (f & Hf & Ht & Hst & Hport)].
  - unfold FlitBuffer.isReady. rewrite Hnil. exists r. split; [done|]. constructor; try done.
    intros i Hi. destruct (decide (i = k)) as [->|]; [by exists b | apply ci_empty0; lia].
  - unfold FlitBuffer.isReady, FlitBuffer.peekTopFlit, FlitBuffer.getTopFlit. rewrite Hf. cbn.
    rewrite (proj2 (Z.leb_le _ _) Ht). cbn. rewrite Hst. cbn. unfold send_out.
    destruct (vec_get_in_range (m_output_unit r) (m_outport f)) as [ou Hou];
      [rewrite (r_no _ _ _ _ ci_ok0); lia|].
    rewrite Hou. cbn. rewrite (vec_set_Ok_get _ _ _ _ Hou). cbn. rewrite (vec_set_Ok_get _ _ _ _ Hb). cbn.
    eexists. split; [done|]. pose proof (Forall_vec_get _ _ _ _ (r_ou _ _ _ _ ci_ok0) Hou) as Hoi.
    constructor; cbn; try done.
    + constructor; cbn; try apply ci_ok0; [by rewrite vsize_insert, (r_no _ _ _ _ ci_ok0) | |
        by rewrite vsize_insert, (r_switch _ _ _ _ ci_ok0)].
      apply Forall_insert; [apply (r_ou _ _ _ _ ci_ok0) | done].
    + apply Forall_insert; [done | by left].
    + intros i Hi. unfold xbar_empty_at. cbn. destruct (decide (i = k)) as [->|].
      * eexists. split; [by apply (vec_get_insert _ _ _ _ Hb) | done].
      * rewrite vec_get_insert_ne by lia. apply ci_empty0. lia.
    + by rewrite (map_vec_insert _ _ _ _ _ Hou).
    + rewrite <- ci_flits0. unfold switch_flits. cbn.
      pose proof (concat_map_vec_insert m_buffer _ _ _ (mkflitBuffer [] (max_size b)) Hb) as H1.
      rewrite Hf in H1. cbn in H1.
      pose proof (concat_map_vec_insert (fun ou => m_buffer (m_out_buffer ou)) _ _ _
        (with_m_out_buffer (FlitBuffer.insert (cross_flit cur f) (m_out_buffer ou)) ou) Hou) as H2.
      cbn [m_out_buffer with_m_out_buffer] in H2. rewrite insert_Permutation in H2. cbn in H2.
      assert (H3 : concat (map (fun ou => m_buffer (m_out_buffer ou)) (<[Z.to_nat (m_outport f) :=
          with_m_out_buffer (FlitBuffer.insert (cross_flit cur f) (m_out_buffer ou)) ou]> (m_output_unit r)))
        ≡ₚ cross_flit cur f :: concat (map (fun ou => m_buffer (m_out_buffer ou)) (m_output_unit r))).
      { apply (Permutation_app_inv_l (m_buffer (m_out_buffer ou))). rewrite H2. solve_Permutation. }
      rewrite H3, <- H1. cbn. rewrite ident_cross. solve_Permutation.
    + eapply switch_moved_trans; [done|]. apply (crossed_moved cur k r b); [done | by rewrite Hf | done].
Qed.

Lemma cross_wakeup_total r :
  router_ok c sh cur r -> xbar_ok sh cur r ->
  exists r', CrossbarSwitch.wakeup cur r = Ok r' /\ cross_inv r (ni sh) r'.
Proof.
  intros Hr Hx. unfold CrossbarSwitch.wakeup. rewrite (r_cs _ _ _ _ Hr).
  pose proof (shape_ni _ _ (r_shape _ _ _ _ Hr)) as Hni.
  destruct (for_range_total (cross_inv r) (cross_inport cur) (Z.to_nat (ni sh)) 0 r) as (r' & -> & Hc).
  - constructor; try done; [intros i Hi; lia | apply switch_moved_refl].
  - intros k s Hk Hs. apply cross_step; [done | lia].
  - exists r'. split; [done|]. by replace (ni sh) with (0 + Z.of_nat (Z.to_nat (ni sh))) by lia.
Qed.
End Wakeup.

(** ** The whole cycle *)

Lemma xbar_empty_flits c sh cur r :
  router_ok c sh cur r -> (forall i, 0 <= i < ni sh -> xbar_empty_at r i) -> switch_flits r = [].
Proof.
  intros Hr He. unfold switch_flits. apply concat_nil_Forall. apply Forall_fmap, Forall_lookup.
  intros j b Hb. destruct (He (Z.of_nat j)) as (b' & Hb' & Hn).
  { apply lookup_lt_Some in Hb. rewrite <- (r_switch _ _ _ _ Hr). unfold vsize. lia. }
  apply vec_get_Ok in Hb' as [_ Hb']. rewrite Nat2Z.id in Hb'. cbn. congruence.
Qed.

(** Allocation and traversal return, keep the invariant, conserve the flits and move them slot by slot. *)
Lemma switch_cycle_total c sh cur r :
  sa_ready c sh cur r ->
  exists r1 r', SwitchAllocator.wakeup c cur r = Ok r1 /\ CrossbarSwitch.wakeup cur r1 = Ok r' /\
    sa_ready c sh cur r' /\
    map ident (input_flits r') ++ map ident (concat (map (fun ou => m_buffer (m_out_buffer ou)) (m_output_unit r'))) ≡ₚ
    map ident (input_flits r) ++ map ident (concat (map (fun ou => m_buffer (m_out_buffer ou)) (m_output_unit r))) /\
    switch_moved cur r r'.
Proof.
  intros Hr. pose proof Hr as (Hr0 & _ & Hx0 & Hcur).
  destruct (sa_wakeup_stages c sh cur r Hr)
    as (r1 & r2 & r3 & gs & _ & E1 & _ & _ & _ & Hinv & Hw & Hok & Hno & Hius & Hous & Hsw & _ & _ & Hcore).
  assert (Hx : xbar_ok sh cur r3) by (unfold xbar_ok; rewrite Hsw; apply (s2_xbar _ _ _ _ _ _ _ Hinv)).
  destruct (cross_wakeup_total c sh cur r3 Hok Hx) as (r4 & H4 & Hc).
  pose proof (ci_empty _ _ _ _ _ _ Hc) as He. pose proof (ci_ok _ _ _ _ _ _ Hc) as Hok4.
  exists r3, r4. split_and!; [done | done | | |].
  - split; [done|]. split; [by rewrite (ci_sa _ _ _ _ _ _ Hc)|]. split; done.
  - pose proof (ci_flits _ _ _ _ _ _ Hc) as Hf. rewrite (xbar_empty_flits c sh cur r4 Hok4 He) in Hf. cbn in Hf. rewrite Hf.
    pose proof (s2_flits _ _ _ _ _ _ _ Hinv) as Hf2. rewrite E1 in Hf2.
    change (switch_flits (with_m_sw_alloc (m_sw_alloc r1) r)) with (switch_flits r) in Hf2.
    change (input_flits (with_m_sw_alloc (m_sw_alloc r1) r)) with (input_flits r) in Hf2.
    rewrite (xbar_empty_flits c sh cur r Hr0 Hx0), app_nil_r in Hf2. rewrite <- Hf2.
    unfold input_flits. rewrite (ci_ius _ _ _ _ _ _ Hc), Hius.
    unfold switch_flits. rewrite Hsw, Hous.
    pose proof (s2_out _ _ _ _ _ _ _ Hinv) as Ho. rewrite E1 in Ho. cbn in Ho.
    assert (Hmap : map (fun ou => m_buffer (m_out_buffer ou)) (m_output_unit r2) =
                   map (fun ou => m_buffer (m_out_buffer ou)) (m_output_unit r)).
    { rewrite <- !(map_map m_out_buffer m_buffer). by rewrite Ho. }
    rewrite Hmap. rewrite app_assoc. done.
  - pose proof (s2_moved _ _ _ _ _ _ _ Hinv) as Hm. pose proof (ci_moved _ _ _ _ _ _ Hc) as Hm4.
    assert (H01 : switch_moved cur r r1) by (rewrite E1; by eapply switch_moved_frame; [apply switch_moved_refl|..]).
    eapply switch_moved_trans; [exact H01|]. eapply switch_moved_trans; [|exact Hm4].
    by apply (switch_moved_frame cur r1 r2).
Qed.
