(* ===== verification/SwitchProperties.v ===== *)
(** * Properties of the switch pipeline, with an example router *)

From S2P Require Import Prelude Heap Flit FlitBuffer RubySet NetDest Consumer Config VirtualChannel.
From S2P Require Import OutVcState NetworkLink OutputUnit InputUnit RoutingUnit RouterState SwitchAllocator.
From S2P Require Import SwitchTheory SwitchCorrect CrossbarSwitch RouterCycle.
Local Open Scope Z_scope.

(** ** An example: two input and two output ports, one vnet of two VCs *)

Definition ex_config : Config :=
  mkConfig 2 2 16 2 1 1 1 1 1 4 4 0 0 0 "bn" 0 1 [CTRL_VNET_] [true].

Definition ex_dest : NetDest := mkNetDest [mkRSet 4 2].
Definition ex_flit (id outport : Z) : flit :=
  with_m_stage (SA_, 5) (with_m_outport outport
    (flit_new id 0 0 (mkRouteInfo 0 ex_dest 0 0 1 1 0) 1 (mkMessage 0 0 0 0 ex_dest MessageSizeType_Control id) 5 false)).

Definition ex_link (id : Z) : NetworkLink flit := NetworkLink_new id 1 2 1.
Definition ex_credit_link (id : Z) : NetworkLink Credit := NetworkLink_new id 1 2 1.

(** A router built by the constructor, [addInPort], [addOutPort] and [init]. *)
Definition ex_fresh : result Router :=
  '(_, _, r1) ← addInPort "Local" 0 0 (ex_link 0) (ex_credit_link 0) (Router_new (mkRouterParams 0 1 1 2 0));
  '(_, _, r2) ← addInPort "East" 1 1 (ex_link 1) (ex_credit_link 1) r1;
  '(_, _, r3) ← addOutPort "Local" 2 2 (ex_link 2) ex_dest 1 (ex_credit_link 2) ex_config r2;
  '(_, _, r4) ← addOutPort "East" 3 3 (ex_link 3) ex_dest 1 (ex_credit_link 3) ex_config r3;
  Ok (Router_init r4).

(** The same router with flits for output port 1 in VC 0 of both input ports. *)
Definition ex_loaded : result Router :=
  r ← ex_fresh;
  let load id := fun iu => iu1 ← set_vc_active 0 5 iu; InputUnit.insertFlit 0 (ex_flit id 1) iu1 in
  r1 ← on_iu 0 (load 10) r;
  on_iu 1 (load 11) r1.

Definition ex_shape : Shape := mkShape 2 2 1 2.

Definition ex_router : Router := Eval vm_compute in
  match ex_loaded with Ok r => r | Err _ => Router_new (mkRouterParams 0 0 0 0 0) end.

Lemma ex_router_built : ex_loaded = Ok ex_router.
Proof. vm_compute. reflexivity. Qed.

Ltac concrete :=
  repeat match goal with
  | |- Forall _ _ => constructor
  | |- _ /\ _ => split
  | |- heap_ok _ => apply heap_ok_short; vm_compute; lia
  | |- vc_ok _ _ => unfold vc_ok
  | |- vc_inv _ _ => unfold vc_inv
  | |- iu_inv _ _ _ => unfold iu_inv
  | |- ou_inv _ _ => unfold ou_inv
  | |- outvc_inv _ => unfold outvc_inv, credits_ok
  | |- mat_ok _ _ _ => unfold mat_ok
  | |- vsize _ = _ => reflexivity
  | |- (_ <= _)%Z => vm_compute; congruence
  | |- (_ < _)%Z => reflexivity
  | |- _ -> _ => intros ?
  | |- VirtualChannel.flits _ = [] \/ _ => first [left; reflexivity | right; eexists; split; [reflexivity|]]
  | |- _ = _ => first [reflexivity | done]
  end.

Lemma ex_router_ready : sa_ready ex_config ex_shape 5 ex_router.
Proof.
  split_and!; [| | | lia | reflexivity].
  - constructor; [constructor; cbn; concrete | reflexivity | constructor; concrete | concrete..].
  - intros o i Hq. unfold req, mat_get in Hq. inv_ok.
    repeat match goal with H : vec_get _ _ = Ok _ |- _ => apply vec_get_Ok in H as [_ H] end.
    destruct (Z.to_nat o) as [|[|]]; cbn in *; simplify_eq;
      destruct (Z.to_nat i) as [|[|]]; cbn in *; simplify_eq.
  - intros i Hi. cbn in Hi. assert (i = 0 \/ i = 1) as [-> | ->] by lia; eexists; split; reflexivity.
Qed.

(** A cycle of switch allocation cannot fail: from a router that satisfies the invariant, with
    no pending request and an empty crossbar, no assertion, index or credit check of
    [SwitchAllocator::wakeup] fails, the invariant holds again afterwards, all requests are
    cleared, and each crossbar buffer holds at most one flit, ready to traverse. *)
Theorem sa_wakeup_safe c sh cur r :
  sa_ready c sh cur r ->
  exists r', SwitchAllocator.wakeup c cur r = Ok r' /\ router_ok c sh cur r' /\
    (forall o i, ~ req (m_sw_alloc r') o i) /\ xbar_ok sh cur r'.
Proof.
  intros Hr. destruct (sa_wakeup_stages c sh cur r Hr)
    as (r1 & r2 & r' & gs & _ & _ & _ & _ & _ & Hinv & Hw & Hok & Hno & _ & _ & Hsw & _).
  exists r'. split_and!; try done. unfold xbar_ok. rewrite Hsw. apply (s2_xbar _ _ _ _ _ _ _ Hinv).
Qed.

Lemma sa_wakeup_safe_witness :
  exists r', SwitchAllocator.wakeup ex_config 5 ex_router = Ok r' /\ xbar_ok ex_shape 5 r'.
Proof.
  destruct (sa_wakeup_safe ex_config ex_shape 5 ex_router ex_router_ready) as (r' & Hw & _ & _ & Hx). eauto.
Defined.

(** C6: Conservation: switch allocation followed by switch traversal returns, empties the
    crossbar, keeps the invariant, and neither loses nor duplicates a flit: up to the fields it
    rewrites, the flits in the input VCs and output buffers are the same before and after. *)
Theorem switch_pipeline_conserves c sh cur r :
  sa_ready c sh cur r ->
  exists r1 r', SwitchAllocator.wakeup c cur r = Ok r1 /\ CrossbarSwitch.wakeup cur r1 = Ok r' /\
    sa_ready c sh cur r' /\
    map ident (input_flits r') ++ map ident (concat (map (fun ou => m_buffer (m_out_buffer ou)) (m_output_unit r'))) ≡ₚ
    map ident (input_flits r) ++ map ident (concat (map (fun ou => m_buffer (m_out_buffer ou)) (m_output_unit r))).
Proof.
  intros Hr. destruct (switch_cycle_total c sh cur r Hr) as (r1 & r' & H1 & H2 & H3 & H4 & _). by exists r1, r'.
Qed.

Lemma switch_pipeline_conserves_witness :
  exists r1 r', SwitchAllocator.wakeup ex_config 5 ex_router = Ok r1 /\ CrossbarSwitch.wakeup 5 r1 = Ok r'.
Proof.
  destruct (switch_pipeline_conserves ex_config ex_shape 5 ex_router ex_router_ready) as (r1 & r' & H1 & H2 & _).
  eauto.
Defined.

(** C7: Matching: what switch allocation does is a sequence of grants in which no output port and
    no input port appears twice, every grant answers a request posted by the first stage, and
    every output port that was requested is granted (no output idles while it is wanted). *)
Theorem sa_grants_matching c sh cur r :
  sa_ready c sh cur r ->
  exists r1 r2 gs, arbitrate_inports c cur r = Ok r1 /\ arbitrate_outports cur r1 = Ok r2 /\
    granted cur gs r1 r2 /\ NoDup gs.*1 /\ NoDup gs.*2 /\
    (forall o i, (o, i) ∈ gs -> req (m_sw_alloc r1) o i) /\
    (forall o i, req (m_sw_alloc r1) o i -> exists i', (o, i') ∈ gs).
Proof.
  intros Hr. destruct (sa_wakeup_stages c sh cur r Hr)
    as (r1 & r2 & r3 & gs & H1 & _ & Hok1 & _ & H2 & Hinv & _).
  exists r1, r2, gs. destruct (s2_nodup _ _ _ _ _ _ _ Hinv) as [Hn1 Hn2].
  split_and!; try done; [apply (s2_trace _ _ _ _ _ _ _ Hinv) | |].
  - intros o i Hin. by destruct (s2_first _ _ _ _ _ _ _ Hinv o i Hin) as [(p & _ & Hq & _) _].
  - intros o i Hq. apply (s2_served _ _ _ _ _ _ _ Hinv o i); [|done].
    destruct (req_range c sh cur r1 o i Hok1 Hq) as [Ho _]. lia.
Qed.

Lemma sa_grants_matching_witness :
  exists r1 r2 gs, arbitrate_inports ex_config 5 ex_router = Ok r1 /\ arbitrate_outports 5 r1 = Ok r2 /\
    granted 5 gs r1 r2 /\ NoDup gs.*1.
Proof.
  destruct (sa_grants_matching ex_config ex_shape 5 ex_router ex_router_ready)
    as (r1 & r2 & gs & H1 & H2 & H3 & H4 & _). eauto 10.
Defined.

(** How long input port [j] still waits for output port [o]: its distance from the round-robin
    pointer. *)
Definition rr_wait (sh : Shape) (sa : SwitchAllocator) (o j : Z) : Z :=
  match vec_get (m_round_robin_inport sa) o with Ok p => (j - p) mod ni sh | Err _ => 0 end.

Lemma rr_advance p i j n :
  0 <= i < n -> 0 <= j < n -> i <> j -> (i - p) mod n <= (j - p) mod n ->
  (j - wrap_next i n) mod n < (j - p) mod n.
Proof.
  intros Hi Hj Hne Hle. rewrite wrap_next_mod by done. rewrite Zminus_mod_idemp_r.
  assert (Hlt : (i - p) mod n < (j - p) mod n).
  { apply Z.le_neq. split; [done|]. intros E. apply Hne.
    assert (Hm : (i - p + p) mod n = (j - p + p) mod n) by (rewrite <- Zplus_mod_idemp_l, E, Zplus_mod_idemp_l; done).
    replace (i - p + p) with i in Hm by lia. replace (j - p + p) with j in Hm by lia.
    rewrite !Z.mod_small in Hm by lia. done. }
  assert (E : (j - (i + 1)) mod n = (j - p) mod n - (i - p) mod n - 1).
  { replace (j - (i + 1)) with ((j - p) - (i - p) - 1) by lia.
    rewrite <- (Zminus_mod_idemp_l (j - p - (i - p))), (Zminus_mod (j - p)), Zminus_mod_idemp_l.
    apply Z.mod_small. pose proof (Z.mod_pos_bound (j - p) n). pose proof (Z.mod_pos_bound (i - p) n). lia. }
  pose proof (Z.mod_pos_bound (i - p) n). lia.
Qed.

(** C8: Round-robin fairness: if input port [j] requests output port [o] in a cycle, then either
    [j] is granted, or [o] goes to a port that comes earlier in the rotation and the wait of [j]
    gets strictly shorter; the wait is less than the number of input ports, so a port that keeps
    requesting is granted after at most that many cycles. *)
Theorem sa_round_robin c sh cur r :
  sa_ready c sh cur r ->
  exists r1 r2 gs, arbitrate_inports c cur r = Ok r1 /\ arbitrate_outports cur r1 = Ok r2 /\ granted cur gs r1 r2 /\
    forall o j, req (m_sw_alloc r1) o j ->
      0 <= rr_wait sh (m_sw_alloc r1) o j < ni sh /\
      ((o, j) ∈ gs \/
       exists i, i <> j /\ (o, i) ∈ gs /\
         rr_wait sh (m_sw_alloc r1) o i <= rr_wait sh (m_sw_alloc r1) o j /\
         rr_wait sh (m_sw_alloc r2) o j < rr_wait sh (m_sw_alloc r1) o j).
Proof.
  intros Hr. destruct (sa_wakeup_stages c sh cur r Hr)
    as (r1 & r2 & r3 & gs & H1 & _ & Hok1 & _ & H2 & Hinv & _).
  exists r1, r2, gs. split_and!; [done | done | apply (s2_trace _ _ _ _ _ _ _ Hinv) |]. intros o j Hq.
  destruct (req_range c sh cur r1 o j Hok1 Hq) as [Ho Hj].
  destruct (s2_served _ _ _ _ _ _ _ Hinv o j (proj2 Ho) Hq) as [i Hi].
  destruct (s2_first _ _ _ _ _ _ _ Hinv o i Hi) as [(p & Hp & Hqi & Hmin) Hrr].
  destruct (req_range c sh cur r1 o i Hok1 Hqi) as [_ Hir].
  unfold rr_wait. rewrite Hp, Hrr. split; [apply Z.mod_pos_bound; lia|].
  destruct (decide (i = j)) as [->|Hne]; [by left | right]. exists i.
  split_and!; [done | done | by apply Hmin | by apply rr_advance, Hmin].
Qed.

Lemma sa_round_robin_witness :
  exists r1 r2 gs, arbitrate_inports ex_config 5 ex_router = Ok r1 /\ arbitrate_outports 5 r1 = Ok r2 /\ granted 5 gs r1 r2.
Proof.
  destruct (sa_round_robin ex_config ex_shape 5 ex_router ex_router_ready) as (r1 & r2 & gs & H1 & H2 & H3 & _).
  eauto 10.
Defined.

(** No lost wakeup: after switch allocation the router has scheduled itself for the next
    cycle exactly when some flit left in an input VC will then be in the SA stage. *)
Theorem sa_reschedules_iff c sh cur r :
  sa_ready c sh cur r ->
  exists r2 r', SwitchAllocator.wakeup c cur r = Ok r' /\
    m_events r' = m_events r2 ++
      (if existsb (fun i => existsb (in_SA (cur + 1) r' i) (seqZ 0 (vn sh * vp sh))) (seqZ 0 (ni sh))
       then [(CRouter (m_id r'), cyc_add cur 1)] else []) /\
    (exists r1, arbitrate_inports c cur r = Ok r1 /\ arbitrate_outports cur r1 = Ok r2).
Proof.
  intros Hr. destruct (sa_wakeup_stages c sh cur r Hr)
    as (r1 & r2 & r' & gs & H1 & _ & _ & _ & H2 & _ & Hw & _ & _ & _ & _ & _ & _ & He & _).
  exists r2, r'. eauto.
Qed.

(** In the example both ports want output 1 and only one is served, so the router asks to be
    woken in cycle 6. *)
Lemma sa_reschedules_iff_witness :
  exists r', SwitchAllocator.wakeup ex_config 5 ex_router = Ok r' /\ (CRouter 0, 6) ∈ m_events r'.
Proof.
  destruct (sa_reschedules_iff ex_config ex_shape 5 ex_router ex_router_ready) as (r2 & r' & Hw & He & _).
  exists r'. split; [exact Hw|]. rewrite He. apply elem_of_app. right.
  vm_compute in Hw. injection Hw as <-. vm_compute. left.
Defined.
