(* ===== verification/BubblePath.v ===== *)
(** * The paths bubbles take ([GarnetNetwork::move_next_router], [move_next_router_cbs])

    Under scheme "bn" a bubble walks up and down a snake through the mesh; under "cbs" it
    circulates in its column or row.  [mesh_row] is [m_num_rows], [num_routers] is
    [m_routers.size()]. *)

From S2P Require Import Prelude Flit MeshRouting.
Local Open Scope Z_scope.

(** The sense of movement is turned at the two ends before the step. *)
Definition turn (mesh_row curr_router_id : Z) (sense_inc : bool) : bool :=
  if curr_router_id =? 0 then true
  else if curr_router_id =? mesh_row * mesh_row - mesh_row then false
  else sense_inc.

(** The unchecked id of the next router; -1 when no branch applies. *)
Definition snake_step (mesh_row curr_router_id : Z) (sense_inc : bool) : Z :=
  let parity := Z.rem (Z.quot curr_router_id mesh_row) 2 in
  let col := Z.rem curr_router_id mesh_row in
  if sense_inc then
    if parity =? 0 then
      if col =? mesh_row - 1 then curr_router_id + mesh_row else curr_router_id + 1
    else if parity =? 1 then
      if col =? 0 then curr_router_id + mesh_row else curr_router_id - 1
    else -1
  else
    if parity =? 0 then
      if col =? 0 then curr_router_id - mesh_row else curr_router_id - 1
    else if parity =? 1 then
      if col =? mesh_row - 1 then curr_router_id - mesh_row else curr_router_id + 1
    else -1.

(** Returns the next router and the bubble's new [sense_inc]. *)
Definition move_next_router (mesh_row num_routers curr_router_id : Z) (sense_inc : bool)
  : result (Z * bool) :=
  let sense := turn mesh_row curr_router_id sense_inc in
  if mesh_row =? 0 then Err EDiv else
  let next_router_id := snake_step mesh_row curr_router_id sense in
  assert_ (0 <=? next_router_id) ;;
  assert_ (next_router_id <? num_routers) ;;
  Ok (next_router_id, sense).

Definition move_next_router_cbs (mesh_row num_routers curr_router_id bubble_id : Z) : result Z :=
  next_router_id ←
    (if (0 <=? bubble_id) && (bubble_id <=? 2 * mesh_row - 1) then
       if mesh_row =? 0 then Err EDiv
       else if Z.quot curr_router_id mesh_row =? mesh_row - 1 then Ok (Z.rem curr_router_id mesh_row)
       else Ok (curr_router_id + mesh_row)
     else if (2 * mesh_row <=? bubble_id) && (bubble_id <=? 4 * mesh_row - 1) then
       if mesh_row =? 0 then Err EDiv
       else if Z.rem curr_router_id mesh_row =? mesh_row - 1 then Ok (curr_router_id - mesh_row + 1)
       else Ok (curr_router_id + 1)
     else Ok (-1));
  assert_ (0 <=? next_router_id) ;;
  assert_ (next_router_id <? num_routers) ;;
  Ok next_router_id.

(** ** Positions on the snake *)

Section Snake.
Context (m : Z) (Hm : 2 <= m).

Abbreviation xof := (xof m).
Abbreviation yof := (yof m).
Abbreviation in_mesh := (in_mesh m m).

(** Position of a router on the snake: rows alternate direction. *)
Definition pos (id : Z) : Z := m * yof id + (if yof id mod 2 =? 0 then xof id else m - 1 - xof id).

Lemma parity_cases y : y mod 2 = 0 \/ y mod 2 = 1.
Proof. pose proof (Z.mod_pos_bound y 2 ltac:(lia)). lia. Qed.

Lemma parity_succ y : (y + 1) mod 2 = 1 - y mod 2.
Proof.
  pose proof (Z.mod_pos_bound y 2 ltac:(lia)). pose proof (Z.div_mod y 2 ltac:(lia)).
  destruct (parity_cases y) as [E | E]; rewrite E in *.
  - symmetry. apply Z.mod_unique with (y / 2); [by left; lia | lia].
  - symmetry. apply Z.mod_unique with (y / 2 + 1); [by left; lia | lia].
Qed.

Lemma parity_pred y : (y - 1) mod 2 = 1 - y mod 2.
Proof. pose proof (parity_succ (y - 1)) as H. replace (y - 1 + 1) with y in H by lia. lia. Qed.

Lemma pos_coords id x y : id = m * y + x -> 0 <= x < m ->
  pos id = m * y + (if y mod 2 =? 0 then x else m - 1 - x).
Proof. intros E Hx. destruct (coords_unique m id x y E Hx) as [Ex Ey]. unfold pos. by rewrite Ex, Ey. Qed.

Lemma pos_range id : in_mesh id -> 0 <= pos id < m * m.
Proof.
  intros Hid. destruct (coords m m ltac:(lia) id Hid) as (_ & Hx & Hy). unfold pos.
  destruct (yof id mod 2 =? 0); nia.
Qed.

Lemma pos_inj a b : in_mesh a -> in_mesh b -> pos a = pos b -> a = b.
Proof.
  intros Ha Hb. destruct (coords m m ltac:(lia) a Ha) as (Ea & Hxa & Hya).
  destruct (coords m m ltac:(lia) b Hb) as (Eb & Hxb & Hyb). unfold pos.
  intros E. assert (Ey : yof a = yof b).
  { destruct (yof a mod 2 =? 0), (yof b mod 2 =? 0); nia. }
  rewrite Ey in E. destruct (yof b mod 2 =? 0); lia.
Qed.

Ltac parity_bool S :=
  try change (1 - 0 =? 0) with false in S; try change (1 - 1 =? 0) with true in S;
  try change (0 =? 0) with true in S; try change (1 =? 0) with false in S; cbv iota in S.

(** The unchecked step moves one position along the snake, to a neighbour, as long as that
    position exists. *)
Lemma snake_step_spec id (s : bool) : in_mesh id ->
  0 <= pos id + (if s then 1 else -1) < m * m ->
  let n := snake_step m id s in
  in_mesh n /\ pos n = pos id + (if s then 1 else -1) /\ dist m id n = 1.
Proof.
  intros Hid. destruct (coords m m ltac:(lia) id Hid) as (E & Hx & Hy).
  unfold snake_step. pose proof Hid as [H0 _].
  rewrite Z.rem_mod_nonneg, (Z.rem_mod_nonneg id), Z.quot_div_nonneg by (lia || (apply Z.quot_pos; lia)).
  fold (yof id) (xof id). rewrite (pos_coords id _ _ E Hx).
  assert (step : forall n x y, n = m * y + x -> 0 <= x < m -> 0 <= y < m ->
    Z.abs (x - xof id) + Z.abs (y - yof id) = 1 ->
    in_mesh n /\ pos n = m * y + (if y mod 2 =? 0 then x else m - 1 - x) /\ dist m id n = 1).
  { intros n x y En Hnx Hny Hd. split_and!.
    - by apply (in_mesh_coords m m ltac:(lia) ltac:(lia) n x y).
    - by apply pos_coords.
    - unfold dist. destruct (coords_unique m n x y En Hnx) as [-> ->]. done. }
  destruct (parity_cases (yof id)) as [P | P]; rewrite P; cbn [Z.eqb Pos.eqb]; destruct s; intros Hr.
  - destruct (Z.eqb_spec (xof id) (m - 1)).
    + destruct (step (id + m) (xof id) (yof id + 1)) as (S1 & S2 & S3); [lia | lia | nia | lia|].
      rewrite parity_succ, P in S2. parity_bool S2. split_and!; [done | lia | done].
    + destruct (step (id + 1) (xof id + 1) (yof id)) as (S1 & S2 & S3); [lia | lia | lia | lia|].
      rewrite P in S2. parity_bool S2. split_and!; [done | lia | done].
  - destruct (Z.eqb_spec (xof id) 0).
    + destruct (step (id - m) (xof id) (yof id - 1)) as (S1 & S2 & S3); [lia | lia | nia | lia|].
      rewrite parity_pred, P in S2. parity_bool S2. split_and!; [done | lia | done].
    + destruct (step (id - 1) (xof id - 1) (yof id)) as (S1 & S2 & S3); [lia | lia | lia | lia|].
      rewrite P in S2. parity_bool S2. split_and!; [done | lia | done].
  - destruct (Z.eqb_spec (xof id) 0).
    + destruct (step (id + m) (xof id) (yof id + 1)) as (S1 & S2 & S3); [lia | lia | nia | lia|].
      rewrite parity_succ, P in S2. parity_bool S2. split_and!; [done | lia | done].
    + destruct (step (id - 1) (xof id - 1) (yof id)) as (S1 & S2 & S3); [lia | lia | lia | lia|].
      rewrite P in S2. parity_bool S2. split_and!; [done | lia | done].
  - destruct (Z.eqb_spec (xof id) (m - 1)).
    + destruct (step (id - m) (xof id) (yof id - 1)) as (S1 & S2 & S3); [lia | lia | nia | lia|].
      rewrite parity_pred, P in S2. parity_bool S2. split_and!; [done | lia | done].
    + destruct (step (id + 1) (xof id + 1) (yof id)) as (S1 & S2 & S3); [lia | lia | lia | lia|].
      rewrite P in S2. parity_bool S2. split_and!; [done | lia | done].
Qed.
End Snake.

(** ** Walks *)

(** [k] moves of a bubble from router [id]. *)
Fixpoint walk (m num_routers : Z) (k : nat) (id : Z) (s : bool) : result (Z * bool) :=
  match k with
  | O => Ok (id, s)
  | S k' => '(n, s') ← move_next_router m num_routers id s; walk m num_routers k' n s'
  end.

Section EvenMesh.
Context (m : Z) (Hm : 2 <= m) (Heven : m mod 2 = 0).

Abbreviation N := (m * m).

Lemma snake_end_pos : pos m (N - m) = N - 1.
Proof.
  rewrite (pos_coords m (N - m) 0 (m - 1)) by lia.
  rewrite parity_pred, Heven. cbn [Z.sub Z.opp Z.add Z.eqb]. change (1 - 0 =? 0) with false. cbv iota. lia.
Qed.

Lemma snake_start_pos : pos m 0 = 0.
Proof. rewrite (pos_coords m 0 0 0) by lia. change (0 mod 2 =? 0) with true. cbv iota. lia. Qed.

(** After turning, the next position exists. *)
Lemma turn_room id s : in_mesh m m id ->
  0 <= pos m id + (if turn m id s then 1 else -1) < N.
Proof.
  intros Hid. pose proof (pos_range m Hm id Hid) as Hp. unfold turn.
  destruct (Z.eqb_spec id 0) as [->|H0]; [rewrite snake_start_pos; nia|].
  assert (pos m id <> 0).
  { intros E. apply H0, (pos_inj m Hm id 0 Hid); [unfold in_mesh; nia|]. by rewrite snake_start_pos. }
  destruct (Z.eqb_spec id (N - m)) as [->|H1]; [rewrite snake_end_pos; nia|].
  assert (pos m id <> N - 1).
  { intros E. apply H1, (pos_inj m Hm id (N - m) Hid); [unfold in_mesh; nia|]. by rewrite snake_end_pos. }
  destruct s; lia.
Qed.

Lemma move_next_even id s : in_mesh m m id ->
  exists n, move_next_router m N id s = Ok (n, turn m id s) /\ in_mesh m m n /\ dist m id n = 1 /\
    pos m n = pos m id + (if turn m id s then 1 else -1).
Proof.
  intros Hid. destruct (snake_step_spec m Hm id (turn m id s) Hid (turn_room id s Hid)) as (H1 & H2 & H3).
  exists (snake_step m id (turn m id s)). unfold move_next_router.
  destruct (Z.eqb_spec m 0); [lia|]. unfold in_mesh in H1.
  rewrite (proj2 (Z.leb_le _ _)), (proj2 (Z.ltb_lt _ _)) by lia. done.
Qed.

(** Where in the up-and-down tour a bubble is. *)
Definition phase (id : Z) (s : bool) : Z :=
  if turn m id s then pos m id else 2 * (N - 1) - pos m id.

Lemma phase_range id s : in_mesh m m id -> 0 <= phase id s < 2 * (N - 1).
Proof.
  intros Hid. pose proof (pos_range m Hm id Hid) as Hp. pose proof (turn_room id s Hid) as Ht.
  unfold phase. destruct (turn m id s); nia.
Qed.

Lemma phase_step id s n : in_mesh m m id -> move_next_router m N id s = Ok (n, turn m id s) ->
  in_mesh m m n /\ phase n (turn m id s) = (phase id s + 1) mod (2 * (N - 1)).
Proof.
  intros Hid Hmv. destruct (move_next_even id s Hid) as (n' & Hmv' & Hn & _ & Hpos). merge_ok.
  split; [done|]. pose proof (phase_range n' (turn m id s) Hn) as Hr. pose proof (turn_room n' (turn m id s) Hn) as Hroom.
  pose proof (pos_range m Hm n' Hn). pose proof (pos_range m Hm id Hid).
  assert (E0 : pos m n' = 0 -> n' = 0).
  { intros E. apply (pos_inj m Hm); [done | unfold in_mesh; nia | by rewrite snake_start_pos]. }
  assert (E1 : pos m n' = N - 1 -> n' = N - m).
  { intros E. apply (pos_inj m Hm); [done | unfold in_mesh; nia | by rewrite snake_end_pos]. }
  unfold phase in *. destruct (turn m id s); unfold turn in *.
  - destruct (Z.eqb_spec n' 0) as [->|]; [rewrite snake_start_pos in *; lia|].
    destruct (Z.eqb_spec n' (N - m)) as [->|].
    + rewrite snake_end_pos in *. rewrite Z.mod_small by nia. nia.
    + rewrite Z.mod_small by nia. nia.
  - destruct (Z.eqb_spec n' 0) as [->|].
    + rewrite snake_start_pos in *. replace (2 * (N - 1) - pos m id + 1) with (2 * (N - 1)) by lia.
      by rewrite Z.mod_same by nia.
    + destruct (Z.eqb_spec n' (N - m)) as [->|]; rewrite Z.mod_small by nia; nia.
Qed.

Lemma walk_phase k id s : in_mesh m m id ->
  exists id' s', walk m N k id s = Ok (id', s') /\ in_mesh m m id' /\
    phase id' s' = (phase id s + Z.of_nat k) mod (2 * (N - 1)).
Proof.
  revert id s. induction k as [|k IH]; intros id s Hid; cbn [walk].
  - exists id, s. split_and!; [done | done|]. rewrite Z.add_0_r. symmetry.
    apply Z.mod_small. by apply phase_range.
  - destruct (move_next_even id s Hid) as (n & Hmv & _). destruct (phase_step id s n Hid Hmv) as [Hn Hph].
    rewrite Hmv. cbn. destruct (IH n (turn m id s) Hn) as (id' & s' & Hw & Hid' & Hph').
    exists id', s'. split_and!; [done | done|]. rewrite Hph', Hph, Zplus_mod_idemp_l. f_equal. lia.
Qed.

Lemma phase_pos id s p : in_mesh m m id -> 0 <= p < N -> phase id s = p -> pos m id = p.
Proof.
  intros Hid Hp Hph. pose proof (pos_range m Hm id Hid). unfold phase in Hph.
  destruct (turn m id s); lia.
Qed.
End EvenMesh.

(** The "bn" walk on a square mesh with an even number of rows is total and local: from every
    router the next router exists, is one hop away, and the two assertions hold. *)
Theorem bubble_step_is_hop m id s :
  2 <= m -> m mod 2 = 0 -> in_mesh m m id ->
  exists n s', move_next_router m (m * m) id s = Ok (n, s') /\ in_mesh m m n /\ dist m id n = 1.
Proof.
  intros Hm He Hid. destruct (move_next_even m Hm He id s Hid) as (n & H1 & H2 & H3 & _). eauto.
Qed.

Lemma bubble_step_is_hop_witness :
  exists n s', move_next_router 4 16 12 true = Ok (n, s') /\ dist 4 12 n = 1.
Proof.
  destruct (bubble_step_is_hop 4 12 true) as (n & s' & H1 & _ & H2);
    [lia | reflexivity | unfold in_mesh; lia | eauto].
Defined.

(** C9: On a square mesh with an even number of rows a bubble visits every router: from any
    router and either sense, any target is reached in fewer than 2*(m*m-1) moves. *)
Theorem bubble_visits_every_router m id s target :
  2 <= m -> m mod 2 = 0 -> in_mesh m m id -> in_mesh m m target ->
  exists k s', Z.of_nat k < 2 * (m * m - 1) /\ walk m (m * m) k id s = Ok (target, s').
Proof.
  intros Hm He Hid Ht. pose proof (pos_range m Hm target Ht) as Hp.
  set (P := 2 * (m * m - 1)). assert (HP : 0 < P) by (subst P; nia).
  pose (k := (pos m target - phase m id s) mod P).
  assert (Hk : 0 <= k < P) by (apply Z.mod_pos_bound; lia).
  destruct (walk_phase m Hm He (Z.to_nat k) id s Hid) as (id' & s' & Hw & Hid' & Hph).
  exists (Z.to_nat k), s'. split; [lia|]. fold P in Hph. rewrite Z2Nat.id in Hph by lia.
  unfold k in Hph. rewrite Zplus_mod_idemp_r in Hph.
  replace (phase m id s + (pos m target - phase m id s)) with (pos m target) in Hph by lia.
  rewrite Z.mod_small in Hph by (subst P; nia).
  rewrite (pos_inj m Hm id' target Hid' Ht) in Hw; [done|].
  by apply (phase_pos m Hm id' s').
Qed.

Lemma bubble_visits_every_router_witness :
  exists k s', Z.of_nat k < 30 /\ walk 4 16 k 5 false = Ok (15, s').
Proof.
  destruct (bubble_visits_every_router 4 5 false 15) as (k & s' & H1 & H2);
    [lia | reflexivity | unfold in_mesh; lia | unfold in_mesh; lia | eauto].
Defined.

(** ** Odd meshes: the walk turns too early *)

Section OddMesh.
Context (m : Z) (Hm : 3 <= m) (Hodd : m mod 2 = 1).

(** The turning router is the first of the last row, which is not the end of the snake. *)
Lemma odd_turn_pos : pos m (m * m - m) = m * m - m.
Proof.
  rewrite (pos_coords m (m * m - m) 0 (m - 1)) by lia.
  rewrite parity_pred, Hodd. change (1 - 1 =? 0) with true. cbv iota. lia.
Qed.

Lemma odd_step id s n s' : in_mesh m m id -> pos m id <= m * m - m ->
  move_next_router m (m * m) id s = Ok (n, s') -> in_mesh m m n /\ pos m n <= m * m - m.
Proof.
  intros Hid Hp Hmv. pose proof (pos_range m ltac:(lia) id Hid) as Hr.
  assert (E0 : pos m id = 0 -> id = 0).
  { intros E. apply (pos_inj m ltac:(lia)); [done | unfold in_mesh; nia |]. by rewrite snake_start_pos by lia. }
  assert (E1 : pos m id = m * m - m -> id = m * m - m).
  { intros E. apply (pos_inj m ltac:(lia)); [done | unfold in_mesh; nia | by rewrite odd_turn_pos]. }
  assert (Hroom : 0 <= pos m id + (if turn m id s then 1 else -1) <= m * m - m).
  { unfold turn. destruct (Z.eqb_spec id 0) as [->|]; [rewrite snake_start_pos by lia; nia|].
    destruct (Z.eqb_spec id (m * m - m)) as [->|]; [rewrite odd_turn_pos; nia|].
    assert (pos m id <> 0) by auto. assert (pos m id <> m * m - m) by auto. destruct s; lia. }
  destruct (snake_step_spec m ltac:(lia) id (turn m id s) Hid) as (H1 & H2 & _); [lia|].
  unfold move_next_router in Hmv. destruct (m =? 0); [done|]. inv_ok. split; [done | lia].
Qed.

Lemma odd_walk k id s id' s' : in_mesh m m id -> pos m id <= m * m - m ->
  walk m (m * m) k id s = Ok (id', s') -> in_mesh m m id' /\ pos m id' <= m * m - m.
Proof.
  revert id s. induction k as [|k IH]; intros id s Hid Hp Hw; cbn [walk] in Hw; [by inv_ok|].
  inv_ok. rename select (move_next_router _ _ _ _ = _) into Hmv.
  destruct (odd_step _ _ _ _ Hid Hp Hmv) as [H1 H2]. by eapply IH.
Qed.

Lemma odd_last_pos : in_mesh m m (m * m - 1) /\ pos m (m * m - 1) = m * m - 1.
Proof.
  split; [unfold in_mesh; nia|]. rewrite (pos_coords m (m * m - 1) (m - 1) (m - 1)) by lia.
  rewrite parity_pred, Hodd. change (1 - 1 =? 0) with true. cbv iota. lia.
Qed.
End OddMesh.

(** C39: On a square mesh with an odd number of rows the walk is wrong: a bubble that starts at
    router 0 never visits the last router (it turns at the first router of the last row), and a
    bubble that is at the last router moving up stops the simulation on an assertion. *)
Theorem bubble_walk_odd_mesh m :
  3 <= m -> m mod 2 = 1 ->
  (forall k s, walk m (m * m) k 0 true <> Ok (m * m - 1, s)) /\
  move_next_router m (m * m) (m * m - 1) true = Err EAssert.
Proof.
  intros Hm Hodd. destruct (odd_last_pos m Hm Hodd) as [Hl Hlp]. split.
  - intros k s Hw. apply (odd_walk m Hm Hodd) in Hw as [_ Hp]; [lia | unfold in_mesh; nia |].
    rewrite snake_start_pos by lia. nia.
  - destruct (coords_unique m (m * m - 1) (m - 1) (m - 1)) as [Ex Ey]; [lia | lia|].
    unfold move_next_router, turn, snake_step. destruct (Z.eqb_spec m 0); [lia|].
    destruct (Z.eqb_spec (m * m - 1) 0); [nia|]. destruct (Z.eqb_spec (m * m - 1) (m * m - m)); [lia|].
    rewrite (Z.rem_mod_nonneg (m * m - 1)), (Z.quot_div_nonneg (m * m - 1)) by nia.
    unfold MeshRouting.xof, MeshRouting.yof in Ex, Ey. rewrite Ex, Ey.
    rewrite Z.rem_mod_nonneg, parity_pred, Hodd by lia. change (1 - 1 =? 0) with true. cbv iota.
    rewrite Z.eqb_refl. rewrite (proj2 (Z.leb_le _ _)) by nia. cbn.
    rewrite (proj2 (Z.ltb_ge _ _)) by nia. done.
Qed.

Lemma bubble_walk_odd_mesh_witness : move_next_router 3 9 8 true = Err EAssert.
Proof. destruct (bubble_walk_odd_mesh 3) as [_ H]; [lia | reflexivity | exact H]. Defined.

(** ** Circulation under "cbs" *)

Fixpoint walk_cbs (m num_routers bubble_id : Z) (k : nat) (id : Z) : result Z :=
  match k with
  | O => Ok id
  | S k' => n ← move_next_router_cbs m num_routers id bubble_id; walk_cbs m num_routers bubble_id k' n
  end.

Section Circulation.
Context (m : Z) (Hm : 1 <= m).

Lemma cbs_column_step id b : in_mesh m m id -> 0 <= b < 2 * m ->
  exists n, move_next_router_cbs m (m * m) id b = Ok n /\ in_mesh m m n /\
    xof m n = xof m id /\ yof m n = (yof m id + 1) mod m.
Proof.
  intros Hid Hb. destruct (coords m m ltac:(lia) id Hid) as (E & Hx & Hy). unfold move_next_router_cbs.
  rewrite (proj2 (Z.leb_le _ _)), (proj2 (Z.leb_le _ _)) by lia. cbn [andb].
  destruct (Z.eqb_spec m 0) as [|_]; [lia|]. pose proof Hid as [H0 _].
  rewrite Z.quot_div_nonneg, Z.rem_mod_nonneg by lia. fold (xof m id) (yof m id).
  assert (Hnext : forall n y, n = m * y + xof m id -> 0 <= y < m -> y = (yof m id + 1) mod m ->
    exists n', (assert_ (0 <=? n) ;; assert_ (n <? m * m) ;; Ok n) = Ok n' /\ in_mesh m m n' /\
      xof m n' = xof m id /\ yof m n' = (yof m id + 1) mod m).
  { intros n y En Hny Ey. exists n. pose proof (in_mesh_coords m m ltac:(lia) ltac:(lia) n (xof m id) y En Hx Hny) as Hn.
    pose proof Hn as [Hn0 Hn1]. rewrite (proj2 (Z.leb_le _ _)), (proj2 (Z.ltb_lt _ _)) by lia.
    destruct (coords_unique m n _ _ En Hx) as [-> ->]. done. }
  destruct (Z.eqb_spec (yof m id) (m - 1)) as [Ey|].
  - apply (Hnext _ 0); [lia | lia|]. rewrite Ey. replace (m - 1 + 1) with m by lia. by rewrite Z.mod_same by lia.
  - apply (Hnext _ (yof m id + 1)); [lia | lia|]. symmetry. apply Z.mod_small. lia.
Qed.

Lemma cbs_row_step id b : in_mesh m m id -> 2 * m <= b < 4 * m ->
  exists n, move_next_router_cbs m (m * m) id b = Ok n /\ in_mesh m m n /\
    yof m n = yof m id /\ xof m n = (xof m id + 1) mod m.
Proof.
  intros Hid Hb. destruct (coords m m ltac:(lia) id Hid) as (E & Hx & Hy). unfold move_next_router_cbs.
  rewrite (proj2 (Z.leb_gt b (2 * m - 1))) by lia. rewrite andb_false_r.
  rewrite (proj2 (Z.leb_le _ _)), (proj2 (Z.leb_le _ _)) by lia. cbn [andb].
  destruct (Z.eqb_spec m 0) as [|_]; [lia|]. pose proof Hid as [H0 _].
  rewrite Z.rem_mod_nonneg by lia. fold (xof m id).
  assert (Hnext : forall n x, n = m * yof m id + x -> 0 <= x < m -> x = (xof m id + 1) mod m ->
    exists n', (assert_ (0 <=? n) ;; assert_ (n <? m * m) ;; Ok n) = Ok n' /\ in_mesh m m n' /\
      yof m n' = yof m id /\ xof m n' = (xof m id + 1) mod m).
  { intros n x En Hnx Ex. exists n. pose proof (in_mesh_coords m m ltac:(lia) ltac:(lia) n x (yof m id) En Hnx Hy) as Hn.
    pose proof Hn as [Hn0 Hn1]. rewrite (proj2 (Z.leb_le _ _)), (proj2 (Z.ltb_lt _ _)) by lia.
    destruct (coords_unique m n _ _ En Hnx) as [-> ->]. done. }
  destruct (Z.eqb_spec (xof m id) (m - 1)) as [Ex|].
  - apply (Hnext _ 0); [lia | lia|]. rewrite Ex. replace (m - 1 + 1) with m by lia. by rewrite Z.mod_same by lia.
  - apply (Hnext _ (xof m id + 1)); [lia | lia|]. symmetry. apply Z.mod_small. lia.
Qed.

Lemma cbs_column_walk b k id : in_mesh m m id -> 0 <= b < 2 * m ->
  exists n, walk_cbs m (m * m) b k id = Ok n /\ in_mesh m m n /\
    xof m n = xof m id /\ yof m n = (yof m id + Z.of_nat k) mod m.
Proof.
  intros Hid Hb. revert id Hid. induction k as [|k IH]; intros id Hid; cbn [walk_cbs].
  - exists id. split_and!; [done | done | done|]. destruct (coords m m ltac:(lia) id Hid) as (_ & _ & Hy).
    rewrite Z.add_0_r. symmetry. by apply Z.mod_small.
  - destruct (cbs_column_step id b Hid Hb) as (n & -> & Hn & Ex & Ey). cbn.
    destruct (IH n Hn) as (n' & -> & Hn' & Ex' & Ey'). exists n'. split_and!; [done | done | congruence|].
    rewrite Ey', Ey, Zplus_mod_idemp_l. f_equal. lia.
Qed.

Lemma cbs_row_walk b k id : in_mesh m m id -> 2 * m <= b < 4 * m ->
  exists n, walk_cbs m (m * m) b k id = Ok n /\ in_mesh m m n /\
    yof m n = yof m id /\ xof m n = (xof m id + Z.of_nat k) mod m.
Proof.
  intros Hid Hb. revert id Hid. induction k as [|k IH]; intros id Hid; cbn [walk_cbs].
  - exists id. split_and!; [done | done | done|]. destruct (coords m m ltac:(lia) id Hid) as (_ & Hx & _).
    rewrite Z.add_0_r. symmetry. by apply Z.mod_small.
  - destruct (cbs_row_step id b Hid Hb) as (n & -> & Hn & Ex & Ey). cbn.
    destruct (IH n Hn) as (n' & -> & Hn' & Ex' & Ey'). exists n'. split_and!; [done | done | congruence|].
    rewrite Ey', Ey, Zplus_mod_idemp_l. f_equal. lia.
Qed.
End Circulation.

(** Under "cbs" every bubble circulates: bubbles 0..2m-1 stay in their column, bubbles
    2m..4m-1 in their row, after k moves they are k places further (modulo m), no assertion
    fails, and after m moves they are back. *)
Theorem cbs_circulates m b id k :
  1 <= m -> 0 <= b < 4 * m -> in_mesh m m id ->
  exists n, walk_cbs m (m * m) b k id = Ok n /\ in_mesh m m n /\
    (if b <? 2 * m then xof m n = xof m id /\ yof m n = (yof m id + Z.of_nat k) mod m
     else yof m n = yof m id /\ xof m n = (xof m id + Z.of_nat k) mod m) /\
    (Z.of_nat k = m -> n = id).
Proof.
  intros Hm Hb Hid.
  assert (Hback : forall z, 0 <= z < m -> Z.of_nat k = m -> (z + Z.of_nat k) mod m = z).
  { intros z Hz ->. rewrite <- (Z.mul_1_l m) at 1. rewrite Z.mod_add by lia. by apply Z.mod_small. }
  destruct (coords m m ltac:(lia) id Hid) as (E & Hx & Hy). destruct (Z.ltb_spec b (2 * m)).
  - destruct (cbs_column_walk m Hm b k id Hid ltac:(lia)) as (n & Hw & Hn & Ex & Ey). exists n. split_and!; try done.
    intros Ek. destruct (coords m m ltac:(lia) n Hn) as (En & _). rewrite Hback in Ey by done. congruence.
  - destruct (cbs_row_walk m Hm b k id Hid ltac:(lia)) as (n & Hw & Hn & Ey & Ex). exists n. split_and!; try done.
    intros Ek. destruct (coords m m ltac:(lia) n Hn) as (En & _). rewrite Hback in Ex by done. congruence.
Qed.

Lemma cbs_circulates_witness : exists n, walk_cbs 4 16 9 4 7 = Ok n /\ n = 7.
Proof.
  destruct (cbs_circulates 4 9 7 4) as (n & H1 & _ & _ & H2); [lia | lia | unfold in_mesh; lia |].
  exists n. split; [exact H1 | apply H2; reflexivity].
Defined.
