(* ===== verification/MessageBuffer.v ===== *)
(** * [MessageBuffer] (mem/ruby/network/MessageBuffer.hh, MessageBuffer.cc)

    The queues between the protocol controllers and the network interfaces: a heap of
    messages ordered by arrival time and sequence number, with a visible size in which
    enqueues count at once and pops only from the next cycle on, and a map of stalled
    messages.  [RubySystem]'s two flags and the delay that [random_time()] draws are
    arguments.  A registered dequeue callback is the consumer it wakes. *)

From S2P Require Import Prelude Heap RubySet NetDest Flit Consumer.
Local Open Scope Z_scope.

Record MessageBuffer := mkMessageBuffer {
  m_consumer : option ConsumerRef;
  m_prio_heap : list Message;
  m_dequeue_callback : option ConsumerRef;
  m_stall_msg_map : list (Z * list Message);
  m_stall_map_size : Z;
  m_max_size : Z;
  m_time_last_time_size_checked : Z;
  m_size_last_time_size_checked : Z;
  m_time_last_time_enqueue : Z;
  m_time_last_time_pop : Z;
  m_last_arrival_time : Z;
  m_size_at_cycle_start : Z;
  m_msgs_this_cycle : Z;
  m_not_avail_count : Z;
  m_msg_counter : Z;
  m_strict_fifo : bool;
  m_randomization : bool;
  m_buf_msgs : Z;
  m_stall_time : Z;
  m_stall_count : Z;
  m_input_link_id : Z;
  m_vnet_id : Z
}.

Definition with_m_consumer (v : option ConsumerRef) (r : MessageBuffer) : MessageBuffer :=
  mkMessageBuffer v (m_prio_heap r) (m_dequeue_callback r) (m_stall_msg_map r) (m_stall_map_size r) (m_max_size r) (m_time_last_time_size_checked r) (m_size_last_time_size_checked r) (m_time_last_time_enqueue r) (m_time_last_time_pop r) (m_last_arrival_time r) (m_size_at_cycle_start r) (m_msgs_this_cycle r) (m_not_avail_count r) (m_msg_counter r) (m_strict_fifo r) (m_randomization r) (m_buf_msgs r) (m_stall_time r) (m_stall_count r) (m_input_link_id r) (m_vnet_id r).
Definition with_m_prio_heap (v : list Message) (r : MessageBuffer) : MessageBuffer :=
  mkMessageBuffer (m_consumer r) v (m_dequeue_callback r) (m_stall_msg_map r) (m_stall_map_size r) (m_max_size r) (m_time_last_time_size_checked r) (m_size_last_time_size_checked r) (m_time_last_time_enqueue r) (m_time_last_time_pop r) (m_last_arrival_time r) (m_size_at_cycle_start r) (m_msgs_this_cycle r) (m_not_avail_count r) (m_msg_counter r) (m_strict_fifo r) (m_randomization r) (m_buf_msgs r) (m_stall_time r) (m_stall_count r) (m_input_link_id r) (m_vnet_id r).
Definition with_m_dequeue_callback (v : option ConsumerRef) (r : MessageBuffer) : MessageBuffer :=
  mkMessageBuffer (m_consumer r) (m_prio_heap r) v (m_stall_msg_map r) (m_stall_map_size r) (m_max_size r) (m_time_last_time_size_checked r) (m_size_last_time_size_checked r) (m_time_last_time_enqueue r) (m_time_last_time_pop r) (m_last_arrival_time r) (m_size_at_cycle_start r) (m_msgs_this_cycle r) (m_not_avail_count r) (m_msg_counter r) (m_strict_fifo r) (m_randomization r) (m_buf_msgs r) (m_stall_time r) (m_stall_count r) (m_input_link_id r) (m_vnet_id r).
Definition with_m_stall_msg_map (v : list (Z * list Message)) (r : MessageBuffer) : MessageBuffer :=
  mkMessageBuffer (m_consumer r) (m_prio_heap r) (m_dequeue_callback r) v (m_stall_map_size r) (m_max_size r) (m_time_last_time_size_checked r) (m_size_last_time_size_checked r) (m_time_last_time_enqueue r) (m_time_last_time_pop r) (m_last_arrival_time r) (m_size_at_cycle_start r) (m_msgs_this_cycle r) (m_not_avail_count r) (m_msg_counter r) (m_strict_fifo r) (m_randomization r) (m_buf_msgs r) (m_stall_time r) (m_stall_count r) (m_input_link_id r) (m_vnet_id r).
Definition with_m_stall_map_size (v : Z) (r : MessageBuffer) : MessageBuffer :=
  mkMessageBuffer (m_consumer r) (m_prio_heap r) (m_dequeue_callback r) (m_stall_msg_map r) v (m_max_size r) (m_time_last_time_size_checked r) (m_size_last_time_size_checked r) (m_time_last_time_enqueue r) (m_time_last_time_pop r) (m_last_arrival_time r) (m_size_at_cycle_start r) (m_msgs_this_cycle r) (m_not_avail_count r) (m_msg_counter r) (m_strict_fifo r) (m_randomization r) (m_buf_msgs r) (m_stall_time r) (m_stall_count r) (m_input_link_id r) (m_vnet_id r).
Definition with_m_time_last_time_size_checked (v : Z) (r : MessageBuffer) : MessageBuffer :=
  mkMessageBuffer (m_consumer r) (m_prio_heap r) (m_dequeue_callback r) (m_stall_msg_map r) (m_stall_map_size r) (m_max_size r) v (m_size_last_time_size_checked r) (m_time_last_time_enqueue r) (m_time_last_time_pop r) (m_last_arrival_time r) (m_size_at_cycle_start r) (m_msgs_this_cycle r) (m_not_avail_count r) (m_msg_counter r) (m_strict_fifo r) (m_randomization r) (m_buf_msgs r) (m_stall_time r) (m_stall_count r) (m_input_link_id r) (m_vnet_id r).
Definition with_m_size_last_time_size_checked (v : Z) (r : MessageBuffer) : MessageBuffer :=
  mkMessageBuffer (m_consumer r) (m_prio_heap r) (m_dequeue_callback r) (m_stall_msg_map r) (m_stall_map_size r) (m_max_size r) (m_time_last_time_size_checked r) v (m_time_last_time_enqueue r) (m_time_last_time_pop r) (m_last_arrival_time r) (m_size_at_cycle_start r) (m_msgs_this_cycle r) (m_not_avail_count r) (m_msg_counter r) (m_strict_fifo r) (m_randomization r) (m_buf_msgs r) (m_stall_time r) (m_stall_count r) (m_input_link_id r) (m_vnet_id r).
Definition with_m_time_last_time_enqueue (v : Z) (r : MessageBuffer) : MessageBuffer :=
  mkMessageBuffer (m_consumer r) (m_prio_heap r) (m_dequeue_callback r) (m_stall_msg_map r) (m_stall_map_size r) (m_max_size r) (m_time_last_time_size_checked r) (m_size_last_time_size_checked r) v (m_time_last_time_pop r) (m_last_arrival_time r) (m_size_at_cycle_start r) (m_msgs_this_cycle r) (m_not_avail_count r) (m_msg_counter r) (m_strict_fifo r) (m_randomization r) (m_buf_msgs r) (m_stall_time r) (m_stall_count r) (m_input_link_id r) (m_vnet_id r).
Definition with_m_time_last_time_pop (v : Z) (r : MessageBuffer) : MessageBuffer :=
  mkMessageBuffer (m_consumer r) (m_prio_heap r) (m_dequeue_callback r) (m_stall_msg_map r) (m_stall_map_size r) (m_max_size r) (m_time_last_time_size_checked r) (m_size_last_time_size_checked r) (m_time_last_time_enqueue r) v (m_last_arrival_time r) (m_size_at_cycle_start r) (m_msgs_this_cycle r) (m_not_avail_count r) (m_msg_counter r) (m_strict_fifo r) (m_randomization r) (m_buf_msgs r) (m_stall_time r) (m_stall_count r) (m_input_link_id r) (m_vnet_id r).
Definition with_m_last_arrival_time (v : Z) (r : MessageBuffer) : MessageBuffer :=
  mkMessageBuffer (m_consumer r) (m_prio_heap r) (m_dequeue_callback r) (m_stall_msg_map r) (m_stall_map_size r) (m_max_size r) (m_time_last_time_size_checked r) (m_size_last_time_size_checked r) (m_time_last_time_enqueue r) (m_time_last_time_pop r) v (m_size_at_cycle_start r) (m_msgs_this_cycle r) (m_not_avail_count r) (m_msg_counter r) (m_strict_fifo r) (m_randomization r) (m_buf_msgs r) (m_stall_time r) (m_stall_count r) (m_input_link_id r) (m_vnet_id r).
Definition with_m_size_at_cycle_start (v : Z) (r : MessageBuffer) : MessageBuffer :=
  mkMessageBuffer (m_consumer r) (m_prio_heap r) (m_dequeue_callback r) (m_stall_msg_map r) (m_stall_map_size r) (m_max_size r) (m_time_last_time_size_checked r) (m_size_last_time_size_checked r) (m_time_last_time_enqueue r) (m_time_last_time_pop r) (m_last_arrival_time r) v (m_msgs_this_cycle r) (m_not_avail_count r) (m_msg_counter r) (m_strict_fifo r) (m_randomization r) (m_buf_msgs r) (m_stall_time r) (m_stall_count r) (m_input_link_id r) (m_vnet_id r).
Definition with_m_msgs_this_cycle (v : Z) (r : MessageBuffer) : MessageBuffer :=
  mkMessageBuffer (m_consumer r) (m_prio_heap r) (m_dequeue_callback r) (m_stall_msg_map r) (m_stall_map_size r) (m_max_size r) (m_time_last_time_size_checked r) (m_size_last_time_size_checked r) (m_time_last_time_enqueue r) (m_time_last_time_pop r) (m_last_arrival_time r) (m_size_at_cycle_start r) v (m_not_avail_count r) (m_msg_counter r) (m_strict_fifo r) (m_randomization r) (m_buf_msgs r) (m_stall_time r) (m_stall_count r) (m_input_link_id r) (m_vnet_id r).
Definition with_m_not_avail_count (v : Z) (r : MessageBuffer) : MessageBuffer :=
  mkMessageBuffer (m_consumer r) (m_prio_heap r) (m_dequeue_callback r) (m_stall_msg_map r) (m_stall_map_size r) (m_max_size r) (m_time_last_time_size_checked r) (m_size_last_time_size_checked r) (m_time_last_time_enqueue r) (m_time_last_time_pop r) (m_last_arrival_time r) (m_size_at_cycle_start r) (m_msgs_this_cycle r) v (m_msg_counter r) (m_strict_fifo r) (m_randomization r) (m_buf_msgs r) (m_stall_time r) (m_stall_count r) (m_input_link_id r) (m_vnet_id r).
Definition with_m_msg_counter (v : Z) (r : MessageBuffer) : MessageBuffer :=
  mkMessageBuffer (m_consumer r) (m_prio_heap r) (m_dequeue_callback r) (m_stall_msg_map r) (m_stall_map_size r) (m_max_size r) (m_time_last_time_size_checked r) (m_size_last_time_size_checked r) (m_time_last_time_enqueue r) (m_time_last_time_pop r) (m_last_arrival_time r) (m_size_at_cycle_start r) (m_msgs_this_cycle r) (m_not_avail_count r) v (m_strict_fifo r) (m_randomization r) (m_buf_msgs r) (m_stall_time r) (m_stall_count r) (m_input_link_id r) (m_vnet_id r).
Definition with_m_buf_msgs (v : Z) (r : MessageBuffer) : MessageBuffer :=
  mkMessageBuffer (m_consumer r) (m_prio_heap r) (m_dequeue_callback r) (m_stall_msg_map r) (m_stall_map_size r) (m_max_size r) (m_time_last_time_size_checked r) (m_size_last_time_size_checked r) (m_time_last_time_enqueue r) (m_time_last_time_pop r) (m_last_arrival_time r) (m_size_at_cycle_start r) (m_msgs_this_cycle r) (m_not_avail_count r) (m_msg_counter r) (m_strict_fifo r) (m_randomization r) v (m_stall_time r) (m_stall_count r) (m_input_link_id r) (m_vnet_id r).
Definition with_m_stall_time (v : Z) (r : MessageBuffer) : MessageBuffer :=
  mkMessageBuffer (m_consumer r) (m_prio_heap r) (m_dequeue_callback r) (m_stall_msg_map r) (m_stall_map_size r) (m_max_size r) (m_time_last_time_size_checked r) (m_size_last_time_size_checked r) (m_time_last_time_enqueue r) (m_time_last_time_pop r) (m_last_arrival_time r) (m_size_at_cycle_start r) (m_msgs_this_cycle r) (m_not_avail_count r) (m_msg_counter r) (m_strict_fifo r) (m_randomization r) (m_buf_msgs r) v (m_stall_count r) (m_input_link_id r) (m_vnet_id r).
Definition with_m_stall_count (v : Z) (r : MessageBuffer) : MessageBuffer :=
  mkMessageBuffer (m_consumer r) (m_prio_heap r) (m_dequeue_callback r) (m_stall_msg_map r) (m_stall_map_size r) (m_max_size r) (m_time_last_time_size_checked r) (m_size_last_time_size_checked r) (m_time_last_time_enqueue r) (m_time_last_time_pop r) (m_last_arrival_time r) (m_size_at_cycle_start r) (m_msgs_this_cycle r) (m_not_avail_count r) (m_msg_counter r) (m_strict_fifo r) (m_randomization r) (m_buf_msgs r) (m_stall_time r) v (m_input_link_id r) (m_vnet_id r).
Definition with_m_input_link_id (v : Z) (r : MessageBuffer) : MessageBuffer :=
  mkMessageBuffer (m_consumer r) (m_prio_heap r) (m_dequeue_callback r) (m_stall_msg_map r) (m_stall_map_size r) (m_max_size r) (m_time_last_time_size_checked r) (m_size_last_time_size_checked r) (m_time_last_time_enqueue r) (m_time_last_time_pop r) (m_last_arrival_time r) (m_size_at_cycle_start r) (m_msgs_this_cycle r) (m_not_avail_count r) (m_msg_counter r) (m_strict_fifo r) (m_randomization r) (m_buf_msgs r) (m_stall_time r) (m_stall_count r) v (m_vnet_id r).
Definition with_m_vnet_id (v : Z) (r : MessageBuffer) : MessageBuffer :=
  mkMessageBuffer (m_consumer r) (m_prio_heap r) (m_dequeue_callback r) (m_stall_msg_map r) (m_stall_map_size r) (m_max_size r) (m_time_last_time_size_checked r) (m_size_last_time_size_checked r) (m_time_last_time_enqueue r) (m_time_last_time_pop r) (m_last_arrival_time r) (m_size_at_cycle_start r) (m_msgs_this_cycle r) (m_not_avail_count r) (m_msg_counter r) (m_strict_fifo r) (m_randomization r) (m_buf_msgs r) (m_stall_time r) (m_stall_count r) (m_input_link_id r) v.

Definition MessageBuffer_new (buffer_size : Z) (ordered randomization : bool) : MessageBuffer :=
  mkMessageBuffer None [] None [] 0 buffer_size 0 0 0 0 0 0 0 0 0 ordered randomization 0 0 0 0 0.

(** [operator>] on messages (Message.hh): later arrival first, then larger sequence number. *)
Definition msg_greater (lhs rhs : Message) : bool :=
  if m_LastEnqueueTime lhs =? m_LastEnqueueTime rhs then Flit.m_msg_counter rhs <? Flit.m_msg_counter lhs
  else m_LastEnqueueTime rhs <? m_LastEnqueueTime lhs.

(** [Message::updateDelayedTicks] *)
Definition updateDelayedTicks (curTime : Z) (m : Message) : result Message :=
  assert_ (m_LastEnqueueTime m <=? curTime) ;;
  Ok (with_m_DelayedTicks (u64 (m_DelayedTicks m + (curTime - m_LastEnqueueTime m))) m).

Definition size (b : MessageBuffer) : Z := vsize (m_prio_heap b).

Definition getSize (curTime : Z) (b : MessageBuffer) : Z * MessageBuffer :=
  let b1 := if m_time_last_time_size_checked b =? curTime then b
            else with_m_size_last_time_size_checked (u32 (size b)) (with_m_time_last_time_size_checked curTime b) in
  (m_size_last_time_size_checked b1, b1).

(** The size the network sees in this cycle. *)
Definition visible_size (current_time : Z) (b : MessageBuffer) : Z :=
  if m_time_last_time_pop b <? current_time then u32 (size b)
  else if m_time_last_time_enqueue b <? current_time then m_size_at_cycle_start b
  else u32 (m_size_at_cycle_start b + m_msgs_this_cycle b).

Definition areNSlotsAvailable (n current_time : Z) (b : MessageBuffer) : bool * MessageBuffer :=
  if m_max_size b =? 0 then (true, b)
  else if u32 (visible_size current_time b + m_stall_map_size b + n) <=? m_max_size b then (true, b)
  else (false, with_m_not_avail_count (m_not_avail_count b + 1) b).

Definition isReady (current_time : Z) (b : MessageBuffer) : bool :=
  match m_prio_heap b with m :: _ => m_LastEnqueueTime m <=? current_time | [] => false end.

Definition isEmpty (b : MessageBuffer) : bool := size b =? 0.

(** [front()] of an empty vector is undefined behaviour. *)
Definition peekMsgPtr (b : MessageBuffer) : result Message :=
  match m_prio_heap b with m :: _ => Ok m | [] => Err EIndex end.

(** Replace the message the front pointer refers to (messages are shared by pointer). *)
Definition set_front (m : Message) (b : MessageBuffer) : MessageBuffer :=
  with_m_prio_heap (match m_prio_heap b with _ :: l => m :: l | [] => [] end) b.

Definition setConsumer (c : ConsumerRef) (b : MessageBuffer) : result MessageBuffer :=
  match m_consumer b with Some _ => Err EFatal | None => Ok (with_m_consumer (Some c) b) end.

Definition setIncomingLink (link_id : Z) (b : MessageBuffer) : MessageBuffer := with_m_input_link_id link_id b.
Definition setVnet (net : Z) (b : MessageBuffer) : MessageBuffer := with_m_vnet_id net b.

Definition registerDequeueCallback (c : ConsumerRef) (b : MessageBuffer) : MessageBuffer :=
  with_m_dequeue_callback (Some c) b.
Definition unregisterDequeueCallback (b : MessageBuffer) : MessageBuffer := with_m_dequeue_callback None b.

(** The delay [random_time()] computes from its draws in [0,3], [0,7] and [1,15]. *)
Definition random_time (d1 d2 d3 : Z) : Z := 1 + d1 + (if d2 =? 0 then 100 + d3 else 0).

(** The first cycle the message can be dequeued, and the buffer with the updated
    [m_last_arrival_time]; [rnd] is what [random_time()] returns. *)
Definition arrival (ruby_randomization : bool) (rnd current_time delta : Z) (b : MessageBuffer)
  : Z * MessageBuffer :=
  if negb ruby_randomization && negb (m_randomization b) then (u64 (current_time + delta), b)
  else if m_strict_fifo b then
    let b1 := if m_last_arrival_time b <? current_time then with_m_last_arrival_time current_time b else b in
    (u64 (m_last_arrival_time b1 + rnd), b1)
  else (u64 (current_time + rnd), b).

Definition heap_insert (m : Message) (b : MessageBuffer) : MessageBuffer :=
  with_m_prio_heap (push_heap msg_greater (m_prio_heap b ++ [m])) b.

Definition enqueue (ruby_randomization warmup_enabled : bool) (rnd : Z) (message : Message)
    (current_time delta : Z) (b : MessageBuffer) : result (MessageBuffer * list Event) :=
  let b1 := if m_time_last_time_enqueue b <? current_time
            then with_m_time_last_time_enqueue current_time (with_m_msgs_this_cycle 0 b) else b in
  let b2 := with_m_msgs_this_cycle (u32 (m_msgs_this_cycle b1 + 1))
              (with_m_msg_counter (u64 (m_msg_counter b1 + 1)) b1) in
  assert_ (0 <? delta) ;;
  let '(arrival_time, b3) := arrival ruby_randomization rnd current_time delta b2 in
  assert_ (current_time <? arrival_time) ;;
  (if m_strict_fifo b3 && (arrival_time <? m_last_arrival_time b3) then Err EPanic else Ok tt) ;;
  let b4 := if warmup_enabled then b3 else with_m_last_arrival_time arrival_time b3 in
  assert_ (m_LastEnqueueTime message <=? current_time) ;;
  m1 ← updateDelayedTicks current_time message;
  let m2 := Flit.with_m_msg_counter (m_msg_counter b4) (with_m_LastEnqueueTime arrival_time m1) in
  let b5 := with_m_buf_msgs (m_buf_msgs b4 + 1) (heap_insert m2 b4) in
  consumer ← match m_consumer b5 with Some c => Ok c | None => Err EAssert end;
  Ok (b5, [(consumer, arrival_time)]).

(** [dequeue]: the delay, the buffer without its front, the wakeup of a dequeue callback.
    [curTick] feeds a statistic only. *)
Definition dequeue (curTick current_time : Z) (decrement_messages : bool) (b : MessageBuffer)
  : result (Z * MessageBuffer * list Event) :=
  assert_ (isReady current_time b) ;;
  m ← peekMsgPtr b;
  message ← updateDelayedTicks current_time m;
  let delay := m_DelayedTicks message in
  let b1 := with_m_stall_time (u64 (curTick - msg_time message)) b in
  let b2 := if m_time_last_time_pop b1 <? current_time
            then with_m_time_last_time_pop current_time (with_m_size_at_cycle_start (u32 (size b1)) b1) else b1 in
  let b3 := with_m_prio_heap (pop_back (pop_heap msg_greater (m_prio_heap b2))) b2 in
  let b4 := if decrement_messages then with_m_buf_msgs (m_buf_msgs b3 - 1) b3 else b3 in
  Ok (delay, b4, match m_dequeue_callback b4 with Some c => [(c, cyc_add current_time 1)] | None => [] end).

Definition clear (b : MessageBuffer) : MessageBuffer :=
  with_m_msgs_this_cycle 0 (with_m_size_at_cycle_start 0 (with_m_time_last_time_pop 0
    (with_m_time_last_time_enqueue 0 (with_m_msg_counter 0 (with_m_prio_heap [] b))))).

(** [v.back() = x] *)
Definition set_back {A} (x : A) (l : list A) : list A := take (length l - 1) l ++ [x].

Definition recycle (current_time recycle_latency : Z) (b : MessageBuffer) : result (MessageBuffer * list Event) :=
  assert_ (isReady current_time b) ;;
  node ← peekMsgPtr b;
  let future_time := u64 (current_time + recycle_latency) in
  let node' := with_m_LastEnqueueTime future_time node in
  let l := push_heap msg_greater (set_back node' (pop_heap msg_greater (m_prio_heap b))) in
  consumer ← match m_consumer b with Some c => Ok c | None => Err EIndex end;
  Ok (with_m_prio_heap l b, [(consumer, future_time)]).

Definition delayHead (ruby_randomization warmup_enabled : bool) (rnd current_time delta : Z) (b : MessageBuffer)
  : result (MessageBuffer * list Event) :=
  m ← peekMsgPtr b;
  enqueue ruby_randomization warmup_enabled rnd m current_time delta
    (with_m_prio_heap (pop_back (pop_heap msg_greater (m_prio_heap b))) b).

(** ** Stalled messages: a [std::map] from addresses, kept in key order *)

Fixpoint stall_find (addr : Z) (l : list (Z * list Message)) : option (list Message) :=
  match l with
  | [] => None
  | (a, ms) :: l' => if a =? addr then Some ms else stall_find addr l'
  end.

Fixpoint stall_push (addr : Z) (m : Message) (l : list (Z * list Message)) : list (Z * list Message) :=
  match l with
  | [] => [(addr, [m])]
  | (a, ms) :: l' =>
      if addr <? a then (addr, [m]) :: l
      else if a =? addr then (a, ms ++ [m]) :: l'
      else (a, ms) :: stall_push addr m l'
  end.

Definition stall_erase (addr : Z) (l : list (Z * list Message)) : list (Z * list Message) :=
  filter (fun p => p.1 <> addr) l.

(** [bitSelect] (common/Address.cc) *)
Definition bitSelect (addr small big : Z) : result Z :=
  assert_ (small <=? big) ;;
  if 63 <=? big then Ok (Z.shiftr addr small) else Ok (Z.shiftr (Z.land addr (Z.ones (big + 1))) small).

Definition getOffset (block_size_bits addr : Z) : result Z := bitSelect addr 0 (u32 (block_size_bits - 1)).

Definition stallMessage (block_size_bits curTick addr current_time : Z) (b : MessageBuffer)
  : result (MessageBuffer * list Event) :=
  assert_ (isReady current_time b) ;;
  off ← getOffset block_size_bits addr;
  assert_ (off =? 0) ;;
  m ← peekMsgPtr b;
  message ← updateDelayedTicks current_time m;
  '(_, b1, evs) ← dequeue curTick current_time false b;
  Ok (with_m_stall_count (m_stall_count b1 + 1) (with_m_stall_map_size (m_stall_map_size b1 + 1)
        (with_m_stall_msg_map (stall_push addr message (m_stall_msg_map b1)) b1)), evs).

Fixpoint reanalyzeList (lt : list Message) (schdTick : Z) (b : MessageBuffer) : result (MessageBuffer * list Event) :=
  match lt with
  | [] => Ok (b, [])
  | m :: lt' =>
      let b1 := with_m_msg_counter (u64 (m_msg_counter b + 1)) b in
      let m' := Flit.with_m_msg_counter (m_msg_counter b1) (with_m_LastEnqueueTime schdTick m) in
      consumer ← match m_consumer b1 with Some c => Ok c | None => Err EIndex end;
      '(b2, evs) ← reanalyzeList lt' schdTick (heap_insert m' b1);
      Ok (b2, (consumer, schdTick) :: evs)
  end.

Definition reanalyzeMessages (addr current_time : Z) (b : MessageBuffer) : result (MessageBuffer * list Event) :=
  match stall_find addr (m_stall_msg_map b) with
  | None => Err EAssert
  | Some ms =>
      let b1 := with_m_stall_map_size (m_stall_map_size b - vsize ms) b in
      assert_ (0 <=? m_stall_map_size b1) ;;
      '(b2, evs) ← reanalyzeList ms current_time b1;
      Ok (with_m_stall_msg_map (stall_erase addr (m_stall_msg_map b2)) b2, evs)
  end.

Fixpoint reanalyze_from (l : list (Z * list Message)) (current_time : Z) (b : MessageBuffer)
  : result (MessageBuffer * list Event) :=
  match l with
  | [] => Ok (b, [])
  | (_, ms) :: l' =>
      let b1 := with_m_stall_map_size (m_stall_map_size b - vsize ms) b in
      assert_ (0 <=? m_stall_map_size b1) ;;
      '(b2, e1) ← reanalyzeList ms current_time b1;
      '(b3, e2) ← reanalyze_from l' current_time b2;
      Ok (b3, e1 ++ e2)
  end.

Definition reanalyzeAllMessages (current_time : Z) (b : MessageBuffer) : result (MessageBuffer * list Event) :=
  '(b1, evs) ← reanalyze_from (m_stall_msg_map b) current_time b;
  Ok (with_m_stall_msg_map [] b1, evs).

Definition functionalWrite (write : Message -> bool * Message) (b : MessageBuffer) : Z * MessageBuffer :=
  let n l := Z.of_nat (length (filter (fun m => (write m).1 = true) l)) in
  (u32 (n (m_prio_heap b) + n (concat (map snd (m_stall_msg_map b)))),
   with_m_stall_msg_map (map (fun p => (p.1, map (fun m => (write m).2) p.2)) (m_stall_msg_map b))
     (with_m_prio_heap (map (fun m => (write m).2) (m_prio_heap b)) b)).

Definition clearStats (b : MessageBuffer) : MessageBuffer :=
  with_m_msg_counter 0 (with_m_not_avail_count 0 b).
