(* ===== verification/MessageBufferTheory.v ===== *)
(** * Properties of [MessageBuffer]

    Capacity (a guarded enqueue never overfills a finite buffer, although pops of the current
    cycle do not free space before the next one), first-in-first-out order of ordered buffers,
    and conservation of messages by stalling and reanalysis. *)

From Stdlib Require Import Sorted.
From S2P Require Import Prelude Heap RubySet NetDest NetDestTheory Flit Consumer MessageBuffer.
Local Open Scope Z_scope.

#[export] Instance msg_greater_StrictWeak : StrictWeak msg_greater.
Proof.
  split; unfold msg_greater.
  - intros x y. destruct (Z.eqb_spec (m_LastEnqueueTime x) (m_LastEnqueueTime y)),
      (Z.eqb_spec (m_LastEnqueueTime y) (m_LastEnqueueTime x)); rewrite ?Z.ltb_lt, ?Z.ltb_ge; lia.
  - intros x y z. destruct (Z.eqb_spec (m_LastEnqueueTime x) (m_LastEnqueueTime y)),
      (Z.eqb_spec (m_LastEnqueueTime y) (m_LastEnqueueTime z)),
      (Z.eqb_spec (m_LastEnqueueTime x) (m_LastEnqueueTime z)); rewrite ?Z.ltb_ge; lia.
Qed.

Lemma push_heap_snoc (l : list Message) m : push_heap msg_greater (l ++ [m]) ≡ₚ m :: l.
Proof. rewrite push_heap_Permutation. by rewrite Permutation_app_comm. Qed.

Lemma heap_insert_Permutation m b : m_prio_heap (heap_insert m b) ≡ₚ m :: m_prio_heap b.
Proof. apply push_heap_snoc. Qed.



(** ** What enqueue and dequeue do *)

(** The bookkeeping [enqueue] does before it inserts. *)
Definition enqueued_counters (current_time : Z) (b : MessageBuffer) : Z :=
  if m_time_last_time_enqueue b <? current_time then 1 else u32 (m_msgs_this_cycle b + 1).

Lemma arrival_spec rr rnd now delta b arr b' :
  arrival rr rnd now delta b = (arr, b') ->
  exists la, b' = with_m_last_arrival_time la b /\ m_last_arrival_time b <= la /\
    (rr = false -> m_randomization b = false -> arr = u64 (now + delta) /\ la = m_last_arrival_time b).
Proof.
  unfold arrival. intros H. assert (E : with_m_last_arrival_time (m_last_arrival_time b) b = b) by (by destruct b).
  destruct rr, (m_randomization b) eqn:Er, (m_strict_fifo b); cbn in H;
    try (destruct (Z.ltb_spec (m_last_arrival_time b) now)); injection H as <- <-;
    first [exists now; split_and!; [done | lia | done] |
           exists (m_last_arrival_time b); rewrite E; split_and!; (done || lia)].
Qed.

Lemma enqueue_spec rr we rnd msg now delta b b' evs :
  enqueue rr we rnd msg now delta b = Ok (b', evs) -> m_time_last_time_enqueue b <= now ->
  exists m arr, m_prio_heap b' ≡ₚ m :: m_prio_heap b /\ (is_heap msg_greater (m_prio_heap b) -> is_heap msg_greater (m_prio_heap b')) /\
    payload m = payload msg /\ destination m = destination msg /\
    m_LastEnqueueTime m = arr /\ Flit.m_msg_counter m = u64 (m_msg_counter b + 1) /\
    m_msg_counter b' = u64 (m_msg_counter b + 1) /\ now < arr /\
    (m_strict_fifo b = true -> m_last_arrival_time b <= arr) /\
    (we = false -> m_last_arrival_time b' = arr) /\
    (rr = false -> m_randomization b = false -> arr = u64 (now + delta)) /\
    m_time_last_time_enqueue b' = now /\ m_time_last_time_pop b' = m_time_last_time_pop b /\
    m_size_at_cycle_start b' = m_size_at_cycle_start b /\ m_msgs_this_cycle b' = enqueued_counters now b /\
    m_stall_map_size b' = m_stall_map_size b /\ m_max_size b' = m_max_size b /\
    m_stall_msg_map b' = m_stall_msg_map b /\ m_strict_fifo b' = m_strict_fifo b /\
    m_randomization b' = m_randomization b /\
    exists c, m_consumer b = Some c /\ evs = [(c, arr)].
Proof.
  intros H Ht. unfold enqueue in H.
  set (b1 := if m_time_last_time_enqueue b <? now
             then with_m_time_last_time_enqueue now (with_m_msgs_this_cycle 0 b) else b) in H.
  assert (H1 : m_time_last_time_enqueue b1 = now /\ u32 (m_msgs_this_cycle b1 + 1) = enqueued_counters now b).
  { unfold b1, enqueued_counters. destruct (Z.ltb_spec (m_time_last_time_enqueue b) now); cbn; [done | lia]. }
  assert (Hb1 : b1 = with_m_time_last_time_enqueue now (with_m_msgs_this_cycle (m_msgs_this_cycle b1) b)).
  { unfold b1. destruct (Z.ltb_spec (m_time_last_time_enqueue b) now); [done|].
    destruct b; cbn in *. by replace m_time_last_time_enqueue with now by lia. }
  destruct H1 as [_ H1]. rewrite Hb1 in H. clearbody b1. cbn in H. rewrite H1 in H.
  apply bind_Ok in H as (? & _ & H).
  destruct (arrival _ _ _ _ _) as [arr b3] eqn:Ea. apply arrival_spec in Ea as (la & -> & Hla & Hno). cbn in *.
  apply bind_Ok in H as (? & Hlt%assert_Ok%Z.ltb_lt & H). apply bind_Ok in H as (? & Hf & H).
  apply bind_Ok in H as (? & _ & H). apply bind_Ok in H as (m1 & Hu & H).
  unfold updateDelayedTicks in Hu. inv_ok.
  assert (Hstrict : m_strict_fifo b = true -> m_last_arrival_time b <= arr).
  { intros E. rewrite E in Hf. cbn in Hf. destruct (Z.ltb_spec arr la); [done | lia]. }
  eexists (Flit.with_m_msg_counter (u64 (m_msg_counter b + 1)) (with_m_LastEnqueueTime arr _)), arr.
  destruct we; cbn in *; destruct (m_consumer b) as [cc|] eqn:Ec; inv_ok; cbn;
    (split_and!; [apply push_heap_snoc | apply (push_heap_is_heap msg_greater) | try done; eauto ..]);
    intros E1 E2; by apply Hno.
Qed.

Lemma dequeue_spec tick now dec b d b' evs :
  dequeue tick now dec b = Ok (d, b', evs) -> m_time_last_time_pop b <= now ->
  exists m l, m_prio_heap b = m :: l /\ m_prio_heap b ≡ₚ m :: m_prio_heap b' /\
    (is_heap msg_greater (m_prio_heap b) -> is_heap msg_greater (m_prio_heap b')) /\
    m_LastEnqueueTime m <= now /\ d = u64 (m_DelayedTicks m + (now - m_LastEnqueueTime m)) /\
    m_time_last_time_pop b' = now /\ m_time_last_time_enqueue b' = m_time_last_time_enqueue b /\
    m_msgs_this_cycle b' = m_msgs_this_cycle b /\
    m_size_at_cycle_start b' =
      (if m_time_last_time_pop b <? now then u32 (size b) else m_size_at_cycle_start b) /\
    m_stall_map_size b' = m_stall_map_size b /\ m_max_size b' = m_max_size b /\
    m_stall_msg_map b' = m_stall_msg_map b /\ m_msg_counter b' = m_msg_counter b /\
    m_last_arrival_time b' = m_last_arrival_time b /\ m_strict_fifo b' = m_strict_fifo b /\
    m_randomization b' = m_randomization b /\ m_consumer b' = m_consumer b /\
    evs = match m_dequeue_callback b with Some c => [(c, cyc_add now 1)] | None => [] end.
Proof.
  intros H Ht. unfold dequeue in H. apply bind_Ok in H as (? & Hr%assert_Ok & H).
  unfold peekMsgPtr, isReady in *. destruct (m_prio_heap b) as [|m l] eqn:El; [done|]. cbn in H.
  apply Z.leb_le in Hr. unfold updateDelayedTicks in H. rewrite (proj2 (Z.leb_le _ _) Hr) in H. cbn in H.
  assert (Hp : m :: l ≡ₚ m :: pop_back (pop_heap msg_greater (m :: l))).
  { symmetry. exact (pop_back_pop_heap msg_greater m l). }
  pose proof (pop_heap_is_heap msg_greater (m :: l)) as Hh.
  exists m, l. destruct (Z.ltb_spec (m_time_last_time_pop b) now) as [Hlt | Hge];
    destruct dec; cbn in H; injection H as <- <- <-; cbn; rewrite ?El; cbn; split_and!; (done || lia || idtac).
Qed.

(** ** What the messages still have to deliver *)

(** A message stands for the delivery of its payload to each of its nodes. *)
Definition deliveries `{MachineTypes} (m : Message) : list (Z * Z) := map (pair (payload m)) (nodes_of (destination m)).
Definition buffer_deliveries `{MachineTypes} (v : MessageBuffer) : list (Z * Z) := concat (map deliveries (m_prio_heap v)).

(** ** Buffers that can be used at a cycle *)

(** A buffer that takes a message with delay [delta]. *)
Record accepts (now delta : Z) (v : MessageBuffer) : Prop := {
  ac_consumer : exists c, m_consumer v = Some c;
  ac_rand : m_randomization v = false;
  ac_fifo : m_strict_fifo v = true -> m_last_arrival_time v <= now + delta;
  ac_enq : m_time_last_time_enqueue v <= now;
  ac_pop : m_time_last_time_pop v <= now
}.

Lemma enqueue_total now we r m delta v : 0 < delta -> 0 <= now -> now + delta < 2 ^ 64 -> accepts now delta v -> m_LastEnqueueTime m <= now ->
  exists v' evs, enqueue false we r m now delta v = Ok (v', evs) /\ accepts now delta v'.
Proof.
  intros Hd H0 Hn [[c Hc] Hr Hf He Hp] Hm.
  assert (Hok : exists v' evs, enqueue false we r m now delta v = Ok (v', evs) /\
    m_last_arrival_time v' = (if we then m_last_arrival_time v else now + delta) /\ m_consumer v' = Some c).
  { unfold enqueue. rewrite (proj2 (Z.ltb_lt 0 delta)) by lia. cbn [assert_ mbind result_bind].
    set (b1 := if m_time_last_time_enqueue v <? now then _ else v).
    assert (Hb1 : m_randomization b1 = false /\ m_strict_fifo b1 = m_strict_fifo v /\ m_last_arrival_time b1 = m_last_arrival_time v /\ m_consumer b1 = Some c)
      by (unfold b1; destruct (_ <? now); by cbn). destruct Hb1 as (E1 & E2 & E3 & E4). clearbody b1.
    unfold arrival. cbn [m_randomization with_m_msgs_this_cycle with_m_msg_counter]. rewrite E1. cbn [negb andb]. rewrite (u64_small (now + delta)) by lia.
    rewrite (proj2 (Z.ltb_lt now _)) by lia. cbn [assert_ mbind result_bind].
    cbn [m_strict_fifo m_last_arrival_time with_m_msgs_this_cycle with_m_msg_counter]. rewrite E2, E3.
    assert (Es : m_strict_fifo v && (now + delta <? m_last_arrival_time v) = false).
    { destruct (m_strict_fifo v); [|done]. cbn. apply Z.ltb_ge. by apply Hf. }
    rewrite Es. cbn [mbind result_bind]. unfold updateDelayedTicks. rewrite (proj2 (Z.leb_le (m_LastEnqueueTime m) now)) by lia.
    cbn [assert_ mbind result_bind]. destruct we; cbn [heap_insert m_consumer with_m_buf_msgs with_m_prio_heap with_m_last_arrival_time with_m_msgs_this_cycle with_m_msg_counter m_last_arrival_time];
      rewrite E4; cbn [mbind result_bind]; do 2 eexists; (split; [reflexivity|]); cbn; by rewrite ?E3. }
  destruct Hok as (v' & evs & Hok & Hla & Hcc). exists v', evs. split; [done|].
  apply enqueue_spec in Hok as (m' & arr & _ & _ & _ & _ & _ & _ & _ & _ & _ & _ & _ & Hte & Htp & _ & _ & _ & _ & _ & Hst & Hrr & _); [|done].
  split; [eauto | congruence | | lia | lia]. intros Hs. rewrite Hla. destruct we; [apply Hf; congruence | lia].
Qed.
Lemma dequeue_total tick now dec b : isReady now b = true -> exists d b' evs, dequeue tick now dec b = Ok (d, b', evs).
Proof.
  intros Hr. unfold dequeue. rewrite Hr. cbn [assert_ mbind result_bind]. unfold peekMsgPtr, isReady in *. destruct (m_prio_heap b) as [|m l]; [done|].
  cbn [mbind result_bind]. unfold updateDelayedTicks. rewrite Hr. cbn [assert_ mbind result_bind]. eauto.
Qed.

Lemma accepts_later now now' delta v : now <= now' -> accepts now delta v -> accepts now' delta v.
Proof. intros Hle []. split; try done; [|lia | lia]. intros H. specialize (ac_fifo0 H). lia. Qed.

(** ** Capacity *)












(** One step of the users of a buffer: it gets its consumer, time passes, a slot is asked for, a message is enqueued after
    a check for a free slot, the ready front is dequeued, stalled or recycled, or the stalled messages of an address are put
    back in a cycle in which nothing has been popped yet. *)
Inductive mb_step : Z * MessageBuffer -> Z * MessageBuffer -> Prop :=
  | mb_consumer now c b b' : setConsumer c b = Ok b' -> mb_step (now, b) (now, b')
  | mb_tick now now' b : now < now' -> mb_step (now, b) (now', b)
  | mb_ask now n r b b' : areNSlotsAvailable n now b = (r, b') -> mb_step (now, b) (now, b')
  | mb_enq now rr we rnd msg delta b b' evs :
      areNSlotsAvailable 1 now b = (true, b) -> enqueue rr we rnd msg now delta b = Ok (b', evs) ->
      mb_step (now, b) (now, b')
  | mb_deq now tick d b b' evs :
      dequeue tick now true b = Ok (d, b', evs) -> mb_step (now, b) (now, b')
  | mb_stalled now bits tick addr b b' evs :
      stallMessage bits tick addr now b = Ok (b', evs) -> mb_step (now, b) (now, b')
  | mb_recycled now latency b b' evs :
      recycle now latency b = Ok (b', evs) -> mb_step (now, b) (now, b')
  | mb_reanalyzed now addr b b' evs :
      m_time_last_time_pop b < now -> reanalyzeMessages addr now b = Ok (b', evs) -> mb_step (now, b) (now, b').



Definition ex_message (n : Z) : Message := mkMessage 0 0 0 0 (mkNetDest [mkRSet 4 2]) MessageSizeType_Control n.

Definition ex_buffer : MessageBuffer :=
  with_m_consumer (Some (CNI 0)) (MessageBuffer_new 2 true false).

(** Runs of the example buffer as a function, with the steps they take. *)
Inductive mb_op := OTick (now : Z) | OEnq (n : Z) | ODeq | OStall (addr : Z).
Definition mb_run_op (s : Z * MessageBuffer) (o : mb_op) : result (Z * MessageBuffer) :=
  let '(now, b) := s in
  match o with
  | OTick now' => assert_ (now <? now') ;; Ok (now', b)
  | OEnq n => assert_ (bool_decide ((areNSlotsAvailable 1 now b).1 = true)) ;; '(b', _) ← enqueue false false 0 (ex_message n) now 1 b; Ok (now, b')
  | ODeq => '(_, b', _) ← dequeue now now true b; Ok (now, b')
  | OStall addr => '(b', _) ← stallMessage 6 now addr now b; Ok (now, b')
  end.
Fixpoint mb_run (l : list mb_op) (s : Z * MessageBuffer) : result (Z * MessageBuffer) :=
  match l with [] => Ok s | o :: l' => s' ← mb_run_op s o; mb_run l' s' end.

Lemma mb_run_steps l : forall s s', mb_run l s = Ok s' -> rtc mb_step s s'.
Proof.
  induction l as [|o l IH]; intros s s' H; cbn in H; [by apply Ok_inj in H as ->|]. apply bind_Ok in H as (s1 & H1 & H).
  apply (rtc_l _ _ s1); [|by apply IH]. destruct s as [now b]. destruct o; cbn [mb_run_op] in H1; inv_ok.
  - apply mb_tick. by apply Z.ltb_lt.
  - rename select (bool_decide _ = true) into Hb. apply bool_decide_eq_true in Hb. eapply mb_enq; [|eassumption].
    unfold areNSlotsAvailable in *. repeat case_match; done.
  - by eapply mb_deq.
  - by eapply mb_stalled.
Qed.



(** In a cycle in which a message has been popped, the messages that reanalysis puts back count neither as stalled nor in the
    visible size: a buffer of capacity 3 then accepts a fourth message. *)
Definition ex_popped : list mb_op := [OTick 1; OEnq 1; OEnq 2; OTick 2; OStall 64; OStall 64; OTick 3; OEnq 3; OTick 4; ODeq].

Definition ex_buffer3 : MessageBuffer := with_m_consumer (Some (CNI 0)) (MessageBuffer_new 3 true false).
Definition ex_after (r : result MessageBuffer) : MessageBuffer := match r with Ok b => b | Err _ => ex_buffer3 end.
Definition ex_before_reanalysis : MessageBuffer := ex_after (s ← mb_run ex_popped (0, ex_buffer3); Ok s.2).
Definition ex_reanalyzed : MessageBuffer := ex_after (p ← reanalyzeMessages 64 4 ex_before_reanalysis; Ok p.1).

Theorem reanalysis_overfills :
  rtc mb_step (0, MessageBuffer_new 3 true false) (4, ex_before_reanalysis) /\ m_time_last_time_pop ex_before_reanalysis = 4 /\
  (p ← reanalyzeMessages 64 4 ex_before_reanalysis; Ok p.1) = Ok ex_reanalyzed /\
  (s ← mb_run [OEnq 4; OEnq 5] (4, ex_reanalyzed); Ok (size s.2 + m_stall_map_size s.2)) = Ok 4.
Proof.
  split_and!; [|vm_compute; reflexivity..]. apply (rtc_l _ _ (0, ex_buffer3)); [by apply (mb_consumer 0 (CNI 0))|].
  apply (mb_run_steps ex_popped). vm_compute. reflexivity.
Qed.

(** ** Order *)

(** An ordered buffer: sequence numbers are unique, and later numbers arrive no earlier. *)
Record fifo_ok (b : MessageBuffer) : Prop := {
  fo_strict : m_strict_fifo b = true;
  fo_heap : is_heap msg_greater (m_prio_heap b);
  fo_bound : forall m, m ∈ m_prio_heap b ->
    0 <= Flit.m_msg_counter m <= m_msg_counter b /\ m_LastEnqueueTime m <= m_last_arrival_time b;
  fo_order : forall m1 m2, m1 ∈ m_prio_heap b -> m2 ∈ m_prio_heap b ->
    Flit.m_msg_counter m1 < Flit.m_msg_counter m2 -> m_LastEnqueueTime m1 <= m_LastEnqueueTime m2;
  fo_unique : NoDup (map Flit.m_msg_counter (m_prio_heap b));
  fo_counter : 0 <= m_msg_counter b
}.

Lemma enqueue_fifo rr rnd msg now delta b b' evs :
  fifo_ok b -> m_time_last_time_enqueue b <= now -> m_msg_counter b < 2 ^ 64 - 1 ->
  enqueue rr false rnd msg now delta b = Ok (b', evs) -> fifo_ok b'.
Proof.
  intros [] Ht Hctr H.
  apply enqueue_spec in H as (m & arr & Hp & Hheap & _ & _ & Harr & Hc & Hc' & _ & Hla & Hla' & _ & _ & _ & _ & _ & _ & _ & _ & Hst & _); [|done].
  specialize (Hla fo_strict0). specialize (Hla' eq_refl). rewrite u64_small in Hc, Hc' by lia.
  constructor; try lia; [congruence | auto | | |].
  - intros x Hx. rewrite Hp in Hx. apply elem_of_cons in Hx as [->|Hx]; [lia|].
    specialize (fo_bound0 x Hx). lia.
  - intros x y Hx Hy Hlt. rewrite Hp in Hx, Hy. apply elem_of_cons in Hx as [->|Hx]; apply elem_of_cons in Hy as [->|Hy].
    + lia.
    + specialize (fo_bound0 y Hy). lia.
    + specialize (fo_bound0 x Hx). lia.
    + by apply fo_order0.
  - rewrite Hp. cbn. apply NoDup_cons. split; [|done]. intros (x & Hx & Hin)%list_elem_of_fmap.
    specialize (fo_bound0 x Hin). lia.
Qed.

Lemma dequeue_fifo tick now dec b d b' evs :
  fifo_ok b -> m_time_last_time_pop b <= now -> dequeue tick now dec b = Ok (d, b', evs) ->
  fifo_ok b' /\ exists m, m_prio_heap b ≡ₚ m :: m_prio_heap b' /\
    forall x, x ∈ m_prio_heap b' -> Flit.m_msg_counter m < Flit.m_msg_counter x.
Proof.
  intros [] Ht H.
  apply dequeue_spec in H as (m & l & El & Hp & Hheap & _ & _ & _ & _ & _ & _ & _ & _ & _ & Hctr & Hla & Hst & _); [|done].
  assert (Hsub : forall x, x ∈ m_prio_heap b' -> x ∈ m_prio_heap b) by (intros x Hx; rewrite Hp; by right).
  assert (Hnd : NoDup (map Flit.m_msg_counter (m :: m_prio_heap b'))) by (by rewrite <- Hp).
  cbn in Hnd. apply NoDup_cons in Hnd as [Hnotin Hnd]. split.
  - constructor; try congruence; [auto | | auto].
    intros x Hx. rewrite Hctr, Hla. auto.
  - exists m. split; [done|]. intros x Hx. destruct (Z.lt_trichotomy (Flit.m_msg_counter m) (Flit.m_msg_counter x)) as [|[E|Hlt]]; [done | |].
    + exfalso. apply Hnotin. rewrite E. by apply list_elem_of_fmap_2.
    + exfalso. assert (Hm : m ∈ m_prio_heap b) by (rewrite El; by left).
      pose proof (fo_order0 x m (Hsub x Hx) Hm Hlt) as Hle.
      pose proof (front_is_min msg_greater (m_prio_heap b) m fo_heap0) as Hmin. rewrite El in Hmin.
      specialize (Hmin eq_refl x ltac:(rewrite <- El; auto)). unfold msg_greater in Hmin.
      destruct (Z.eqb_spec (m_LastEnqueueTime m) (m_LastEnqueueTime x)); apply Z.ltb_ge in Hmin; lia.
Qed.

(** An ordered message buffer is first-in first-out: enqueueing (with or without random
    delays) keeps the invariant, and [dequeue] removes the message with the smallest sequence
    number, that is the one enqueued first. *)
Theorem message_buffer_fifo rr rnd msg now delta b b1 ev1 tick now' d b2 ev2 :
  fifo_ok b -> m_time_last_time_enqueue b <= now -> m_time_last_time_pop b <= now -> now <= now' ->
  m_msg_counter b < 2 ^ 64 - 1 ->
  enqueue rr false rnd msg now delta b = Ok (b1, ev1) ->
  dequeue tick now' true b1 = Ok (d, b2, ev2) ->
  fifo_ok b1 /\ fifo_ok b2 /\
  exists m, m_prio_heap b1 ≡ₚ m :: m_prio_heap b2 /\
    forall x, x ∈ m_prio_heap b2 -> Flit.m_msg_counter m < Flit.m_msg_counter x.
Proof.
  intros Hf Hte Htp Hle Hc He Hd. pose proof (enqueue_fifo _ _ _ _ _ _ _ _ Hf Hte Hc He) as Hf1.
  split; [done|].
  pose proof (enqueue_spec _ _ _ _ _ _ _ _ _ He Hte)
    as (m & arr & _ & _ & _ & _ & _ & _ & _ & _ & _ & _ & _ & _ & Htp' & _).
  apply (dequeue_fifo tick now' true b1 d b2 ev2 Hf1); [lia | done].
Qed.

(** Two messages with the same arrival time leave in the order they were enqueued. *)
Lemma message_buffer_fifo_witness :
  exists b1 ev1 b2 ev2 b3 d ev3,
    enqueue false false 0 (ex_message 7) 5 1 ex_buffer = Ok (b1, ev1) /\
    enqueue false false 0 (ex_message 8) 5 1 b1 = Ok (b2, ev2) /\
    dequeue 6 6 true b2 = Ok (d, b3, ev3) /\ fifo_ok b3 /\ map payload (m_prio_heap b3) = [8].
Proof.
  assert (Hf0 : fifo_ok ex_buffer).
  { constructor; cbn; [done | | | | constructor | lia].
    - intros i p v Hi Hp. by rewrite lookup_nil in Hp.
    - intros m Hm. by apply elem_of_nil in Hm.
    - intros m1 m2 Hm. by apply elem_of_nil in Hm. }
  destruct (enqueue false false 0 (ex_message 7) 5 1 ex_buffer) as [[b1 ev1]|] eqn:E1; [|vm_compute in E1; discriminate].
  assert (Hf1 : fifo_ok b1) by (eapply enqueue_fifo; [exact Hf0 | | | exact E1]; cbn; lia).
  destruct (enqueue false false 0 (ex_message 8) 5 1 b1) as [[b2 ev2]|] eqn:E2.
  2:{ vm_compute in E1. injection E1 as <- <-. vm_compute in E2. discriminate. }
  destruct (dequeue 6 6 true b2) as [[[d b3] ev3]|] eqn:E3.
  2:{ vm_compute in E1. injection E1 as <- <-. vm_compute in E2. injection E2 as <- <-. vm_compute in E3. discriminate. }
  destruct (message_buffer_fifo false 0 (ex_message 8) 5 1 b1 b2 ev2 6 6 d b3 ev3 Hf1) as (_ & H3 & _); try done;
    try (vm_compute in E1; injection E1 as <- <-; cbn; lia).
  exists b1, ev1, b2, ev2, b3, d, ev3. split_and!; try done.
  vm_compute in E1. injection E1 as <- <-. vm_compute in E2. injection E2 as <- <-. vm_compute in E3.
  injection E3 as _ <- _. reflexivity.
Defined.

(** ** Stalling *)

Definition stalled (b : MessageBuffer) : list Message := concat (map snd (m_stall_msg_map b)).

(** All messages of the buffer, by payload. *)
Definition contents (b : MessageBuffer) : list Z := map payload (m_prio_heap b) ++ map payload (stalled b).

(** The map has one entry per address, in order, and its size is tracked. *)
Definition stall_ok (b : MessageBuffer) : Prop :=
  StronglySorted Z.lt (map fst (m_stall_msg_map b)) /\ m_stall_map_size b = vsize (stalled b).

Lemma stall_push_concat addr m l : concat (map snd (stall_push addr m l)) ≡ₚ m :: concat (map snd l).
Proof.
  induction l as [|[a ms] l IH]; cbn; [done|].
  destruct (addr <? a); [done|]. destruct (a =? addr); cbn; [solve_Permutation|]. rewrite IH. solve_Permutation.
Qed.

Lemma stall_push_keys addr m l a : a ∈ map fst (stall_push addr m l) -> a = addr \/ a ∈ map fst l.
Proof.
  induction l as [|[a' ms] l IH]; cbn.
  - intros [->|Hin]%elem_of_cons; [by left | by apply elem_of_nil in Hin].
  - destruct (addr <? a'); cbn; [|destruct (a' =? addr); cbn].
    + intros [->|Hin]%elem_of_cons; auto.
    + auto.
    + intros [->|Hin]%elem_of_cons; [right; by left|]. destruct (IH Hin); [by left | right; by right].
Qed.

Lemma stall_push_sorted addr m l :
  StronglySorted Z.lt (map fst l) -> StronglySorted Z.lt (map fst (stall_push addr m l)).
Proof.
  induction l as [|[a ms] l IH]; cbn; intros Hs; [repeat constructor|].
  apply StronglySorted_inv in Hs as [Hs Hall].
  destruct (Z.ltb_spec addr a); cbn; [|destruct (Z.eqb_spec a addr); cbn].
  - constructor; [by constructor|]. constructor; [done|]. eapply Forall_impl; [exact Hall|]. cbn. lia.
  - by constructor.
  - constructor; [auto|]. rewrite Forall_forall in *. intros x [->|Hx]%stall_push_keys; [lia | auto].
Qed.

Lemma stall_push_find addr m l :
  exists ms, stall_find addr (stall_push addr m l) = Some ms.
Proof.
  induction l as [|[a ms] l IH]; cbn; [rewrite Z.eqb_refl; eauto|].
  destruct (addr <? a) eqn:E; cbn; [rewrite Z.eqb_refl; eauto|]. destruct (a =? addr) eqn:E2; cbn; rewrite E2; eauto.
Qed.

Lemma stall_erase_cons addr a ms l :
  stall_erase addr ((a, ms) :: l) = if a =? addr then stall_erase addr l else (a, ms) :: stall_erase addr l.
Proof.
  unfold stall_erase. destruct (Z.eqb_spec a addr) as [->|Hne].
  - rewrite filter_cons_False; [done | cbn; naive_solver].
  - by rewrite filter_cons_True.
Qed.

#[local] Arguments stall_erase : simpl never.

Lemma stall_erase_other addr l : addr ∉ map fst l -> stall_erase addr l = l.
Proof.
  induction l as [|[a ms] l IH]; cbn; intros Hn; [done|].
  rewrite stall_erase_cons, (proj2 (Z.eqb_neq a addr)) by set_solver. f_equal. apply IH. set_solver.
Qed.

Lemma stall_find_erase addr l ms :
  StronglySorted Z.lt (map fst l) -> stall_find addr l = Some ms ->
  concat (map snd l) ≡ₚ ms ++ concat (map snd (stall_erase addr l)) /\
  StronglySorted Z.lt (map fst (stall_erase addr l)) /\ stall_find addr (stall_erase addr l) = None.
Proof.
  induction l as [|[a ms'] l IH]; cbn; [done|]. intros Hs Hf.
  apply StronglySorted_inv in Hs as [Hs Hall]. rewrite Forall_forall in Hall.
  destruct (Z.eqb_spec a addr) as [->|Hne].
  - simplify_eq. rewrite stall_erase_cons, Z.eqb_refl.
    assert (Hn : addr ∉ map fst l) by (intros Hin; specialize (Hall addr Hin); lia).
    rewrite (stall_erase_other addr l Hn). split_and!; [done | done|].
    clear -Hn. induction l as [|[a ms] l IH]; cbn in *; [done|]. destruct (Z.eqb_spec a addr); set_solver.
  - rewrite stall_erase_cons, (proj2 (Z.eqb_neq a addr) Hne). cbn.
    destruct (IH Hs Hf) as (H1 & H2 & H3). split_and!.
    + rewrite H1. solve_Permutation.
    + constructor; [done|]. rewrite Forall_forall. intros x Hx. apply Hall.
      apply list_elem_of_fmap in Hx as (p & -> & Hp). apply list_elem_of_filter in Hp as [_ Hp].
      by apply list_elem_of_fmap_2.
    + by rewrite (proj2 (Z.eqb_neq a addr) Hne).
Qed.

Lemma reanalyzeList_spec lt now b c :
  m_consumer b = Some c ->
  exists b' evs, reanalyzeList lt now b = Ok (b', evs) /\
    map payload (m_prio_heap b') ≡ₚ map payload lt ++ map payload (m_prio_heap b) /\
    m_stall_msg_map b' = m_stall_msg_map b /\ m_stall_map_size b' = m_stall_map_size b /\
    length evs = length lt.
Proof.
  revert b. induction lt as [|m lt IH]; intros b Hc; cbn [reanalyzeList].
  - exists b, []. done.
  - cbn. rewrite Hc. cbn.
    destruct (IH (heap_insert (Flit.with_m_msg_counter (u64 (m_msg_counter b + 1)) (with_m_LastEnqueueTime now m))
      (with_m_msg_counter (u64 (m_msg_counter b + 1)) b)) Hc) as (b' & evs & -> & Hp & Hm & Hs & Hl).
    cbn. exists b', ((c, now) :: evs). split_and!; try done; [|cbn; lia].
    rewrite Hp, heap_insert_Permutation. cbn. solve_Permutation.
Qed.

Lemma getOffset_aligned bits addr : 0 < bits < 64 -> addr mod 2 ^ bits = 0 -> getOffset bits addr = Ok 0.
Proof.
  intros Hb Ha. unfold getOffset, bitSelect. rewrite u32_small by lia. rewrite (proj2 (Z.leb_le 0 _)) by lia. cbn [assert_ mbind result_bind].
  rewrite (proj2 (Z.leb_gt 63 _)) by lia. replace (bits - 1 + 1) with bits by lia. by rewrite Z.land_ones, Ha by lia.
Qed.

Lemma stall_total bits tick addr now b : isReady now b = true -> 0 < bits < 64 -> addr mod 2 ^ bits = 0 ->
  exists b1 evs, stallMessage bits tick addr now b = Ok (b1, evs).
Proof.
  intros Hr Hb Ha. unfold stallMessage. rewrite Hr, (getOffset_aligned bits addr Hb Ha). cbn [assert_ Z.eqb mbind result_bind].
  destruct (dequeue_total tick now false b Hr) as (d & b1 & evs & ->). unfold peekMsgPtr, isReady in *.
  destruct (m_prio_heap b) as [|m l]; [done|]. cbn [mbind result_bind]. unfold updateDelayedTicks. rewrite Hr. cbn [assert_ mbind result_bind]. eauto.
Qed.

(** After a successful stall. *)
Lemma stall_then_reanalyze bits tick addr now now' b b1 ev1 :
  stall_ok b -> m_time_last_time_pop b <= now -> is_Some (m_consumer b) ->
  stallMessage bits tick addr now b = Ok (b1, ev1) ->
  contents b1 ≡ₚ contents b /\
  exists b2 ev2, reanalyzeMessages addr now' b1 = Ok (b2, ev2) /\ contents b2 ≡ₚ contents b /\
    stall_ok b2 /\ stall_find addr (m_stall_msg_map b2) = None.
Proof.
  intros [Hs Hsz] Ht [c Hc] H. unfold stallMessage in H. inv_ok.
  rename select (updateDelayedTicks _ _ = _) into Hu. unfold updateDelayedTicks in Hu. inv_ok.
  rename select (dequeue _ _ _ _ = _) into Hd. rename select (peekMsgPtr _ = _) into Hpk.
  apply dequeue_spec in Hd as (mm & l & El & Hp & _ & _ & _ & _ & _ & _ & _ & Hss & _ & Hsm & _ & _ & _ & _ & Hcons & _); [|done].
  unfold peekMsgPtr in Hpk. rewrite El in Hpk. inv_ok.
  rename m into b0, x2 into mm. set (msg := with_m_DelayedTicks _ mm).
  assert (Hpm : payload msg = payload mm) by done. clearbody msg.
  pose proof (stall_push_concat addr msg (m_stall_msg_map b0)) as Hcat.
  pose proof (stall_push_sorted addr msg (m_stall_msg_map b0)) as Hsort. rewrite Hsm in Hcat, Hsort |- *. specialize (Hsort Hs).
  split.
  - unfold contents, stalled. cbn. rewrite Hcat, Hp. cbn. rewrite Hpm. solve_Permutation.
  - destruct (stall_push_find addr msg (m_stall_msg_map b)) as [ms Hms].
    destruct (stall_find_erase _ _ _ Hsort Hms) as (Hce & Hso & Hnone).
    unfold reanalyzeMessages. cbn. rewrite Hms. rewrite Hcat in Hce.
    assert (Hlen : vsize (stalled b) + 1 = vsize ms + vsize (concat (map snd (stall_erase addr (stall_push addr msg (m_stall_msg_map b)))))).
    { apply Permutation_length in Hce. rewrite length_app in Hce. cbn in Hce. unfold vsize, stalled. lia. }
    pose proof (vsize_nonneg (concat (map snd (stall_erase addr (stall_push addr msg (m_stall_msg_map b)))))).
    rewrite (proj2 (Z.leb_le _ _)) by (rewrite Hss; lia). cbn.
    match goal with |- context [reanalyzeList ms now' ?b'] =>
      destruct (reanalyzeList_spec ms now' b' c) as (b2 & evs & -> & Hp2 & Hm2 & Hs2 & _); [cbn; congruence|] end.
    cbn in *. eexists _, _. split; [reflexivity|]. cbn. rewrite Hm2. split_and!; [| | done].
    + unfold contents, stalled. cbn. rewrite Hp2, Hp. apply (Permutation_map payload) in Hce.
      rewrite map_app in Hce. cbn in *. rewrite Hpm in Hce.
      fold (stalled b) in Hce. rewrite (Permutation_app_comm (map payload ms)), <- app_assoc, <- Hce. solve_Permutation.
    + split; unfold stalled; cbn; [done|]. rewrite Hs2, Hss. lia.
Qed.

(** C30: Stalling loses nothing: when the front message is ready and the address is that of a block (a multiple of the block
    size, of 1 to 63 bits), moving the front to the stall map succeeds, and so does reanalysing the address at
    any later time; every message (by payload) is still in the buffer after each step, the stall map stays in order with
    its size tracked, and the address has no stalled message left.  The buffer has a consumer, as enqueueing requires. *)
Theorem stall_reanalyze_roundtrip bits tick addr now now' b :
  stall_ok b -> m_time_last_time_pop b <= now -> is_Some (m_consumer b) ->
  isReady now b = true -> 0 < bits < 64 -> addr mod 2 ^ bits = 0 ->
  exists b1 ev1, stallMessage bits tick addr now b = Ok (b1, ev1) /\ contents b1 ≡ₚ contents b /\
  exists b2 ev2, reanalyzeMessages addr now' b1 = Ok (b2, ev2) /\ contents b2 ≡ₚ contents b /\
    stall_ok b2 /\ stall_find addr (m_stall_msg_map b2) = None.
Proof.
  intros Hs Ht Hc Hr Hb Ha. destruct (stall_total bits tick addr now b Hr Hb Ha) as (b1 & ev1 & H1). exists b1, ev1.
  split; [done|]. by apply (stall_then_reanalyze bits tick addr now now' b b1 ev1).
Qed.

Lemma stall_reanalyze_roundtrip_witness :
  exists b0 ev0 b1 ev1 b2 ev2, enqueue false false 0 (ex_message 7) 5 1 ex_buffer = Ok (b0, ev0) /\
    stallMessage 6 6 128 6 b0 = Ok (b1, ev1) /\ reanalyzeMessages 128 9 b1 = Ok (b2, ev2) /\ contents b2 ≡ₚ [7].
Proof.
  destruct (enqueue false false 0 (ex_message 7) 5 1 ex_buffer) as [[b0 ev0]|] eqn:E0; [|vm_compute in E0; discriminate].
  assert (Hb0 : stall_ok b0 /\ m_time_last_time_pop b0 <= 6 /\ is_Some (m_consumer b0) /\ isReady 6 b0 = true /\ contents b0 = [7]).
  { vm_compute in E0. injection E0 as <- <-. split_and!; [split; [constructor | reflexivity] | cbn; lia | eauto | reflexivity | reflexivity]. }
  destruct Hb0 as (H1 & H2 & H3 & H4 & H5).
  destruct (stall_reanalyze_roundtrip 6 6 128 6 9 b0 H1 H2 H3 H4) as (b1 & ev1 & H6 & _ & b2 & ev2 & H7 & H8 & _); [lia | reflexivity|].
  exists b0, ev0, b1, ev1, b2, ev2. split_and!; try done. by rewrite H8, H5.
Defined.
