(* ===== verification/NetStats.v ===== *)
(** * Network statistics and the marked-flit bookkeeping (GarnetNetwork.hh)

    The counters that routers and network interfaces update through the network pointer.
    Statistics are doubles in the code and integers here; a histogram is the list of its
    samples; [m_exits] records the calls of [exitSimLoop].  [mrkd] below is the list of the
    routers' [mrkd_flt_] budgets. *)

From S2P Require Import Prelude Flit.
Local Open Scope Z_scope.

Inductive exit_reason := AllMarkedReceived | LatencyExceeded | CycleQuotaExceeded.

Record NetStats := mkNetStats {
  m_packets_injected : list Z;
  m_packets_received : list Z;
  m_marked_pkt_injected : list Z;
  m_marked_pkt_received : list Z;
  m_flits_injected : list Z;
  m_flits_received : list Z;
  m_marked_flt_injected : list Z;
  m_marked_flt_received : list Z;
  m_packet_network_latency : list Z;
  m_packet_queueing_latency : list Z;
  m_marked_pkt_network_latency : list Z;
  m_marked_pkt_queueing_latency : list Z;
  m_flit_network_latency : list Z;
  m_flit_queueing_latency : list Z;
  m_marked_flt_network_latency : list Z;
  m_marked_flt_queueing_latency : list Z;
  m_flt_dist : list Z;
  m_marked_flt_dist : list Z;
  m_total_hops : Z;
  m_marked_total_hops : Z;
  marked_flt_injected : Z;
  marked_flt_received : Z;
  total_marked_flit_latency : Z;
  total_marked_flit_received : Z;
  flit_latency : Z;
  flit_network_latency : Z;
  flit_queueing_latency : Z;
  marked_flit_latency : Z;
  marked_flit_network_latency : Z;
  marked_flit_queueing_latency : Z;
  m_max_latencies : list Z;
  m_flt_latency_hist : list Z;
  m_flt_network_latency_hist : list Z;
  m_flt_queueing_latency_hist : list Z;
  m_marked_flt_latency_hist : list Z;
  m_marked_flt_network_latency_hist : list Z;
  m_marked_flt_queueing_latency_hist : list Z;
  m_pre_mature_exit : Z;
  m_num_inter_swap : Z;
  m_num_intra_swap : Z;
  m_inter_swap_bubble : Z;
  m_intra_swap_bubble : Z;
  m_intra_swap_pkt : Z;
  m_inter_swap_pkt : Z;
  m_exits : list exit_reason
}.

Definition with_m_packets_injected (v : list Z) (r : NetStats) : NetStats :=
  mkNetStats v (m_packets_received r) (m_marked_pkt_injected r) (m_marked_pkt_received r) (m_flits_injected r) (m_flits_received r) (m_marked_flt_injected r) (m_marked_flt_received r) (m_packet_network_latency r) (m_packet_queueing_latency r) (m_marked_pkt_network_latency r) (m_marked_pkt_queueing_latency r) (m_flit_network_latency r) (m_flit_queueing_latency r) (m_marked_flt_network_latency r) (m_marked_flt_queueing_latency r) (m_flt_dist r) (m_marked_flt_dist r) (m_total_hops r) (m_marked_total_hops r) (marked_flt_injected r) (marked_flt_received r) (total_marked_flit_latency r) (total_marked_flit_received r) (flit_latency r) (flit_network_latency r) (flit_queueing_latency r) (marked_flit_latency r) (marked_flit_network_latency r) (marked_flit_queueing_latency r) (m_max_latencies r) (m_flt_latency_hist r) (m_flt_network_latency_hist r) (m_flt_queueing_latency_hist r) (m_marked_flt_latency_hist r) (m_marked_flt_network_latency_hist r) (m_marked_flt_queueing_latency_hist r) (m_pre_mature_exit r) (m_num_inter_swap r) (m_num_intra_swap r) (m_inter_swap_bubble r) (m_intra_swap_bubble r) (m_intra_swap_pkt r) (m_inter_swap_pkt r) (m_exits r).
Definition with_m_packets_received (v : list Z) (r : NetStats) : NetStats :=
  mkNetStats (m_packets_injected r) v (m_marked_pkt_injected r) (m_marked_pkt_received r) (m_flits_injected r) (m_flits_received r) (m_marked_flt_injected r) (m_marked_flt_received r) (m_packet_network_latency r) (m_packet_queueing_latency r) (m_marked_pkt_network_latency r) (m_marked_pkt_queueing_latency r) (m_flit_network_latency r) (m_flit_queueing_latency r) (m_marked_flt_network_latency r) (m_marked_flt_queueing_latency r) (m_flt_dist r) (m_marked_flt_dist r) (m_total_hops r) (m_marked_total_hops r) (marked_flt_injected r) (marked_flt_received r) (total_marked_flit_latency r) (total_marked_flit_received r) (flit_latency r) (flit_network_latency r) (flit_queueing_latency r) (marked_flit_latency r) (marked_flit_network_latency r) (marked_flit_queueing_latency r) (m_max_latencies r) (m_flt_latency_hist r) (m_flt_network_latency_hist r) (m_flt_queueing_latency_hist r) (m_marked_flt_latency_hist r) (m_marked_flt_network_latency_hist r) (m_marked_flt_queueing_latency_hist r) (m_pre_mature_exit r) (m_num_inter_swap r) (m_num_intra_swap r) (m_inter_swap_bubble r) (m_intra_swap_bubble r) (m_intra_swap_pkt r) (m_inter_swap_pkt r) (m_exits r).
Definition with_m_marked_pkt_injected (v : list Z) (r : NetStats) : NetStats :=
  mkNetStats (m_packets_injected r) (m_packets_received r) v (m_marked_pkt_received r) (m_flits_injected r) (m_flits_received r) (m_marked_flt_injected r) (m_marked_flt_received r) (m_packet_network_latency r) (m_packet_queueing_latency r) (m_marked_pkt_network_latency r) (m_marked_pkt_queueing_latency r) (m_flit_network_latency r) (m_flit_queueing_latency r) (m_marked_flt_network_latency r) (m_marked_flt_queueing_latency r) (m_flt_dist r) (m_marked_flt_dist r) (m_total_hops r) (m_marked_total_hops r) (marked_flt_injected r) (marked_flt_received r) (total_marked_flit_latency r) (total_marked_flit_received r) (flit_latency r) (flit_network_latency r) (flit_queueing_latency r) (marked_flit_latency r) (marked_flit_network_latency r) (marked_flit_queueing_latency r) (m_max_latencies r) (m_flt_latency_hist r) (m_flt_network_latency_hist r) (m_flt_queueing_latency_hist r) (m_marked_flt_latency_hist r) (m_marked_flt_network_latency_hist r) (m_marked_flt_queueing_latency_hist r) (m_pre_mature_exit r) (m_num_inter_swap r) (m_num_intra_swap r) (m_inter_swap_bubble r) (m_intra_swap_bubble r) (m_intra_swap_pkt r) (m_inter_swap_pkt r) (m_exits r).
Definition with_m_marked_pkt_received (v : list Z) (r : NetStats) : NetStats :=
  mkNetStats (m_packets_injected r) (m_packets_received r) (m_marked_pkt_injected r) v (m_flits_injected r) (m_flits_received r) (m_marked_flt_injected r) (m_marked_flt_received r) (m_packet_network_latency r) (m_packet_queueing_latency r) (m_marked_pkt_network_latency r) (m_marked_pkt_queueing_latency r) (m_flit_network_latency r) (m_flit_queueing_latency r) (m_marked_flt_network_latency r) (m_marked_flt_queueing_latency r) (m_flt_dist r) (m_marked_flt_dist r) (m_total_hops r) (m_marked_total_hops r) (marked_flt_injected r) (marked_flt_received r) (total_marked_flit_latency r) (total_marked_flit_received r) (flit_latency r) (flit_network_latency r) (flit_queueing_latency r) (marked_flit_latency r) (marked_flit_network_latency r) (marked_flit_queueing_latency r) (m_max_latencies r) (m_flt_latency_hist r) (m_flt_network_latency_hist r) (m_flt_queueing_latency_hist r) (m_marked_flt_latency_hist r) (m_marked_flt_network_latency_hist r) (m_marked_flt_queueing_latency_hist r) (m_pre_mature_exit r) (m_num_inter_swap r) (m_num_intra_swap r) (m_inter_swap_bubble r) (m_intra_swap_bubble r) (m_intra_swap_pkt r) (m_inter_swap_pkt r) (m_exits r).
Definition with_m_flits_injected (v : list Z) (r : NetStats) : NetStats :=
  mkNetStats (m_packets_injected r) (m_packets_received r) (m_marked_pkt_injected r) (m_marked_pkt_received r) v (m_flits_received r) (m_marked_flt_injected r) (m_marked_flt_received r) (m_packet_network_latency r) (m_packet_queueing_latency r) (m_marked_pkt_network_latency r) (m_marked_pkt_queueing_latency r) (m_flit_network_latency r) (m_flit_queueing_latency r) (m_marked_flt_network_latency r) (m_marked_flt_queueing_latency r) (m_flt_dist r) (m_marked_flt_dist r) (m_total_hops r) (m_marked_total_hops r) (marked_flt_injected r) (marked_flt_received r) (total_marked_flit_latency r) (total_marked_flit_received r) (flit_latency r) (flit_network_latency r) (flit_queueing_latency r) (marked_flit_latency r) (marked_flit_network_latency r) (marked_flit_queueing_latency r) (m_max_latencies r) (m_flt_latency_hist r) (m_flt_network_latency_hist r) (m_flt_queueing_latency_hist r) (m_marked_flt_latency_hist r) (m_marked_flt_network_latency_hist r) (m_marked_flt_queueing_latency_hist r) (m_pre_mature_exit r) (m_num_inter_swap r) (m_num_intra_swap r) (m_inter_swap_bubble r) (m_intra_swap_bubble r) (m_intra_swap_pkt r) (m_inter_swap_pkt r) (m_exits r).
Definition with_m_flits_received (v : list Z) (r : NetStats) : NetStats :=
  mkNetStats (m_packets_injected r) (m_packets_received r) (m_marked_pkt_injected r) (m_marked_pkt_received r) (m_flits_injected r) v (m_marked_flt_injected r) (m_marked_flt_received r) (m_packet_network_latency r) (m_packet_queueing_latency r) (m_marked_pkt_network_latency r) (m_marked_pkt_queueing_latency r) (m_flit_network_latency r) (m_flit_queueing_latency r) (m_marked_flt_network_latency r) (m_marked_flt_queueing_latency r) (m_flt_dist r) (m_marked_flt_dist r) (m_total_hops r) (m_marked_total_hops r) (marked_flt_injected r) (marked_flt_received r) (total_marked_flit_latency r) (total_marked_flit_received r) (flit_latency r) (flit_network_latency r) (flit_queueing_latency r) (marked_flit_latency r) (marked_flit_network_latency r) (marked_flit_queueing_latency r) (m_max_latencies r) (m_flt_latency_hist r) (m_flt_network_latency_hist r) (m_flt_queueing_latency_hist r) (m_marked_flt_latency_hist r) (m_marked_flt_network_latency_hist r) (m_marked_flt_queueing_latency_hist r) (m_pre_mature_exit r) (m_num_inter_swap r) (m_num_intra_swap r) (m_inter_swap_bubble r) (m_intra_swap_bubble r) (m_intra_swap_pkt r) (m_inter_swap_pkt r) (m_exits r).
Definition with_m_marked_flt_injected (v : list Z) (r : NetStats) : NetStats :=
  mkNetStats (m_packets_injected r) (m_packets_received r) (m_marked_pkt_injected r) (m_marked_pkt_received r) (m_flits_injected r) (m_flits_received r) v (m_marked_flt_received r) (m_packet_network_latency r) (m_packet_queueing_latency r) (m_marked_pkt_network_latency r) (m_marked_pkt_queueing_latency r) (m_flit_network_latency r) (m_flit_queueing_latency r) (m_marked_flt_network_latency r) (m_marked_flt_queueing_latency r) (m_flt_dist r) (m_marked_flt_dist r) (m_total_hops r) (m_marked_total_hops r) (marked_flt_injected r) (marked_flt_received r) (total_marked_flit_latency r) (total_marked_flit_received r) (flit_latency r) (flit_network_latency r) (flit_queueing_latency r) (marked_flit_latency r) (marked_flit_network_latency r) (marked_flit_queueing_latency r) (m_max_latencies r) (m_flt_latency_hist r) (m_flt_network_latency_hist r) (m_flt_queueing_latency_hist r) (m_marked_flt_latency_hist r) (m_marked_flt_network_latency_hist r) (m_marked_flt_queueing_latency_hist r) (m_pre_mature_exit r) (m_num_inter_swap r) (m_num_intra_swap r) (m_inter_swap_bubble r) (m_intra_swap_bubble r) (m_intra_swap_pkt r) (m_inter_swap_pkt r) (m_exits r).
Definition with_m_marked_flt_received (v : list Z) (r : NetStats) : NetStats :=
  mkNetStats (m_packets_injected r) (m_packets_received r) (m_marked_pkt_injected r) (m_marked_pkt_received r) (m_flits_injected r) (m_flits_received r) (m_marked_flt_injected r) v (m_packet_network_latency r) (m_packet_queueing_latency r) (m_marked_pkt_network_latency r) (m_marked_pkt_queueing_latency r) (m_flit_network_latency r) (m_flit_queueing_latency r) (m_marked_flt_network_latency r) (m_marked_flt_queueing_latency r) (m_flt_dist r) (m_marked_flt_dist r) (m_total_hops r) (m_marked_total_hops r) (marked_flt_injected r) (marked_flt_received r) (total_marked_flit_latency r) (total_marked_flit_received r) (flit_latency r) (flit_network_latency r) (flit_queueing_latency r) (marked_flit_latency r) (marked_flit_network_latency r) (marked_flit_queueing_latency r) (m_max_latencies r) (m_flt_latency_hist r) (m_flt_network_latency_hist r) (m_flt_queueing_latency_hist r) (m_marked_flt_latency_hist r) (m_marked_flt_network_latency_hist r) (m_marked_flt_queueing_latency_hist r) (m_pre_mature_exit r) (m_num_inter_swap r) (m_num_intra_swap r) (m_inter_swap_bubble r) (m_intra_swap_bubble r) (m_intra_swap_pkt r) (m_inter_swap_pkt r) (m_exits r).
Definition with_m_packet_network_latency (v : list Z) (r : NetStats) : NetStats :=
  mkNetStats (m_packets_injected r) (m_packets_received r) (m_marked_pkt_injected r) (m_marked_pkt_received r) (m_flits_injected r) (m_flits_received r) (m_marked_flt_injected r) (m_marked_flt_received r) v (m_packet_queueing_latency r) (m_marked_pkt_network_latency r) (m_marked_pkt_queueing_latency r) (m_flit_network_latency r) (m_flit_queueing_latency r) (m_marked_flt_network_latency r) (m_marked_flt_queueing_latency r) (m_flt_dist r) (m_marked_flt_dist r) (m_total_hops r) (m_marked_total_hops r) (marked_flt_injected r) (marked_flt_received r) (total_marked_flit_latency r) (total_marked_flit_received r) (flit_latency r) (flit_network_latency r) (flit_queueing_latency r) (marked_flit_latency r) (marked_flit_network_latency r) (marked_flit_queueing_latency r) (m_max_latencies r) (m_flt_latency_hist r) (m_flt_network_latency_hist r) (m_flt_queueing_latency_hist r) (m_marked_flt_latency_hist r) (m_marked_flt_network_latency_hist r) (m_marked_flt_queueing_latency_hist r) (m_pre_mature_exit r) (m_num_inter_swap r) (m_num_intra_swap r) (m_inter_swap_bubble r) (m_intra_swap_bubble r) (m_intra_swap_pkt r) (m_inter_swap_pkt r) (m_exits r).
Definition with_m_packet_queueing_latency (v : list Z) (r : NetStats) : NetStats :=
  mkNetStats (m_packets_injected r) (m_packets_received r) (m_marked_pkt_injected r) (m_marked_pkt_received r) (m_flits_injected r) (m_flits_received r) (m_marked_flt_injected r) (m_marked_flt_received r) (m_packet_network_latency r) v (m_marked_pkt_network_latency r) (m_marked_pkt_queueing_latency r) (m_flit_network_latency r) (m_flit_queueing_latency r) (m_marked_flt_network_latency r) (m_marked_flt_queueing_latency r) (m_flt_dist r) (m_marked_flt_dist r) (m_total_hops r) (m_marked_total_hops r) (marked_flt_injected r) (marked_flt_received r) (total_marked_flit_latency r) (total_marked_flit_received r) (flit_latency r) (flit_network_latency r) (flit_queueing_latency r) (marked_flit_latency r) (marked_flit_network_latency r) (marked_flit_queueing_latency r) (m_max_latencies r) (m_flt_latency_hist r) (m_flt_network_latency_hist r) (m_flt_queueing_latency_hist r) (m_marked_flt_latency_hist r) (m_marked_flt_network_latency_hist r) (m_marked_flt_queueing_latency_hist r) (m_pre_mature_exit r) (m_num_inter_swap r) (m_num_intra_swap r) (m_inter_swap_bubble r) (m_intra_swap_bubble r) (m_intra_swap_pkt r) (m_inter_swap_pkt r) (m_exits r).
Definition with_m_marked_pkt_network_latency (v : list Z) (r : NetStats) : NetStats :=
  mkNetStats (m_packets_injected r) (m_packets_received r) (m_marked_pkt_injected r) (m_marked_pkt_received r) (m_flits_injected r) (m_flits_received r) (m_marked_flt_injected r) (m_marked_flt_received r) (m_packet_network_latency r) (m_packet_queueing_latency r) v (m_marked_pkt_queueing_latency r) (m_flit_network_latency r) (m_flit_queueing_latency r) (m_marked_flt_network_latency r) (m_marked_flt_queueing_latency r) (m_flt_dist r) (m_marked_flt_dist r) (m_total_hops r) (m_marked_total_hops r) (marked_flt_injected r) (marked_flt_received r) (total_marked_flit_latency r) (total_marked_flit_received r) (flit_latency r) (flit_network_latency r) (flit_queueing_latency r) (marked_flit_latency r) (marked_flit_network_latency r) (marked_flit_queueing_latency r) (m_max_latencies r) (m_flt_latency_hist r) (m_flt_network_latency_hist r) (m_flt_queueing_latency_hist r) (m_marked_flt_latency_hist r) (m_marked_flt_network_latency_hist r) (m_marked_flt_queueing_latency_hist r) (m_pre_mature_exit r) (m_num_inter_swap r) (m_num_intra_swap r) (m_inter_swap_bubble r) (m_intra_swap_bubble r) (m_intra_swap_pkt r) (m_inter_swap_pkt r) (m_exits r).
Definition with_m_marked_pkt_queueing_latency (v : list Z) (r : NetStats) : NetStats :=
  mkNetStats (m_packets_injected r) (m_packets_received r) (m_marked_pkt_injected r) (m_marked_pkt_received r) (m_flits_injected r) (m_flits_received r) (m_marked_flt_injected r) (m_marked_flt_received r) (m_packet_network_latency r) (m_packet_queueing_latency r) (m_marked_pkt_network_latency r) v (m_flit_network_latency r) (m_flit_queueing_latency r) (m_marked_flt_network_latency r) (m_marked_flt_queueing_latency r) (m_flt_dist r) (m_marked_flt_dist r) (m_total_hops r) (m_marked_total_hops r) (marked_flt_injected r) (marked_flt_received r) (total_marked_flit_latency r) (total_marked_flit_received r) (flit_latency r) (flit_network_latency r) (flit_queueing_latency r) (marked_flit_latency r) (marked_flit_network_latency r) (marked_flit_queueing_latency r) (m_max_latencies r) (m_flt_latency_hist r) (m_flt_network_latency_hist r) (m_flt_queueing_latency_hist r) (m_marked_flt_latency_hist r) (m_marked_flt_network_latency_hist r) (m_marked_flt_queueing_latency_hist r) (m_pre_mature_exit r) (m_num_inter_swap r) (m_num_intra_swap r) (m_inter_swap_bubble r) (m_intra_swap_bubble r) (m_intra_swap_pkt r) (m_inter_swap_pkt r) (m_exits r).
Definition with_m_flit_network_latency (v : list Z) (r : NetStats) : NetStats :=
  mkNetStats (m_packets_injected r) (m_packets_received r) (m_marked_pkt_injected r) (m_marked_pkt_received r) (m_flits_injected r) (m_flits_received r) (m_marked_flt_injected r) (m_marked_flt_received r) (m_packet_network_latency r) (m_packet_queueing_latency r) (m_marked_pkt_network_latency r) (m_marked_pkt_queueing_latency r) v (m_flit_queueing_latency r) (m_marked_flt_network_latency r) (m_marked_flt_queueing_latency r) (m_flt_dist r) (m_marked_flt_dist r) (m_total_hops r) (m_marked_total_hops r) (marked_flt_injected r) (marked_flt_received r) (total_marked_flit_latency r) (total_marked_flit_received r) (flit_latency r) (flit_network_latency r) (flit_queueing_latency r) (marked_flit_latency r) (marked_flit_network_latency r) (marked_flit_queueing_latency r) (m_max_latencies r) (m_flt_latency_hist r) (m_flt_network_latency_hist r) (m_flt_queueing_latency_hist r) (m_marked_flt_latency_hist r) (m_marked_flt_network_latency_hist r) (m_marked_flt_queueing_latency_hist r) (m_pre_mature_exit r) (m_num_inter_swap r) (m_num_intra_swap r) (m_inter_swap_bubble r) (m_intra_swap_bubble r) (m_intra_swap_pkt r) (m_inter_swap_pkt r) (m_exits r).
Definition with_m_flit_queueing_latency (v : list Z) (r : NetStats) : NetStats :=
  mkNetStats (m_packets_injected r) (m_packets_received r) (m_marked_pkt_injected r) (m_marked_pkt_received r) (m_flits_injected r) (m_flits_received r) (m_marked_flt_injected r) (m_marked_flt_received r) (m_packet_network_latency r) (m_packet_queueing_latency r) (m_marked_pkt_network_latency r) (m_marked_pkt_queueing_latency r) (m_flit_network_latency r) v (m_marked_flt_network_latency r) (m_marked_flt_queueing_latency r) (m_flt_dist r) (m_marked_flt_dist r) (m_total_hops r) (m_marked_total_hops r) (marked_flt_injected r) (marked_flt_received r) (total_marked_flit_latency r) (total_marked_flit_received r) (flit_latency r) (flit_network_latency r) (flit_queueing_latency r) (marked_flit_latency r) (marked_flit_network_latency r) (marked_flit_queueing_latency r) (m_max_latencies r) (m_flt_latency_hist r) (m_flt_network_latency_hist r) (m_flt_queueing_latency_hist r) (m_marked_flt_latency_hist r) (m_marked_flt_network_latency_hist r) (m_marked_flt_queueing_latency_hist r) (m_pre_mature_exit r) (m_num_inter_swap r) (m_num_intra_swap r) (m_inter_swap_bubble r) (m_intra_swap_bubble r) (m_intra_swap_pkt r) (m_inter_swap_pkt r) (m_exits r).
Definition with_m_marked_flt_network_latency (v : list Z) (r : NetStats) : NetStats :=
  mkNetStats (m_packets_injected r) (m_packets_received r) (m_marked_pkt_injected r) (m_marked_pkt_received r) (m_flits_injected r) (m_flits_received r) (m_marked_flt_injected r) (m_marked_flt_received r) (m_packet_network_latency r) (m_packet_queueing_latency r) (m_marked_pkt_network_latency r) (m_marked_pkt_queueing_latency r) (m_flit_network_latency r) (m_flit_queueing_latency r) v (m_marked_flt_queueing_latency r) (m_flt_dist r) (m_marked_flt_dist r) (m_total_hops r) (m_marked_total_hops r) (marked_flt_injected r) (marked_flt_received r) (total_marked_flit_latency r) (total_marked_flit_received r) (flit_latency r) (flit_network_latency r) (flit_queueing_latency r) (marked_flit_latency r) (marked_flit_network_latency r) (marked_flit_queueing_latency r) (m_max_latencies r) (m_flt_latency_hist r) (m_flt_network_latency_hist r) (m_flt_queueing_latency_hist r) (m_marked_flt_latency_hist r) (m_marked_flt_network_latency_hist r) (m_marked_flt_queueing_latency_hist r) (m_pre_mature_exit r) (m_num_inter_swap r) (m_num_intra_swap r) (m_inter_swap_bubble r) (m_intra_swap_bubble r) (m_intra_swap_pkt r) (m_inter_swap_pkt r) (m_exits r).
Definition with_m_marked_flt_queueing_latency (v : list Z) (r : NetStats) : NetStats :=
  mkNetStats (m_packets_injected r) (m_packets_received r) (m_marked_pkt_injected r) (m_marked_pkt_received r) (m_flits_injected r) (m_flits_received r) (m_marked_flt_injected r) (m_marked_flt_received r) (m_packet_network_latency r) (m_packet_queueing_latency r) (m_marked_pkt_network_latency r) (m_marked_pkt_queueing_latency r) (m_flit_network_latency r) (m_flit_queueing_latency r) (m_marked_flt_network_latency r) v (m_flt_dist r) (m_marked_flt_dist r) (m_total_hops r) (m_marked_total_hops r) (marked_flt_injected r) (marked_flt_received r) (total_marked_flit_latency r) (total_marked_flit_received r) (flit_latency r) (flit_network_latency r) (flit_queueing_latency r) (marked_flit_latency r) (marked_flit_network_latency r) (marked_flit_queueing_latency r) (m_max_latencies r) (m_flt_latency_hist r) (m_flt_network_latency_hist r) (m_flt_queueing_latency_hist r) (m_marked_flt_latency_hist r) (m_marked_flt_network_latency_hist r) (m_marked_flt_queueing_latency_hist r) (m_pre_mature_exit r) (m_num_inter_swap r) (m_num_intra_swap r) (m_inter_swap_bubble r) (m_intra_swap_bubble r) (m_intra_swap_pkt r) (m_inter_swap_pkt r) (m_exits r).
Definition with_m_flt_dist (v : list Z) (r : NetStats) : NetStats :=
  mkNetStats (m_packets_injected r) (m_packets_received r) (m_marked_pkt_injected r) (m_marked_pkt_received r) (m_flits_injected r) (m_flits_received r) (m_marked_flt_injected r) (m_marked_flt_received r) (m_packet_network_latency r) (m_packet_queueing_latency r) (m_marked_pkt_network_latency r) (m_marked_pkt_queueing_latency r) (m_flit_network_latency r) (m_flit_queueing_latency r) (m_marked_flt_network_latency r) (m_marked_flt_queueing_latency r) v (m_marked_flt_dist r) (m_total_hops r) (m_marked_total_hops r) (marked_flt_injected r) (marked_flt_received r) (total_marked_flit_latency r) (total_marked_flit_received r) (flit_latency r) (flit_network_latency r) (flit_queueing_latency r) (marked_flit_latency r) (marked_flit_network_latency r) (marked_flit_queueing_latency r) (m_max_latencies r) (m_flt_latency_hist r) (m_flt_network_latency_hist r) (m_flt_queueing_latency_hist r) (m_marked_flt_latency_hist r) (m_marked_flt_network_latency_hist r) (m_marked_flt_queueing_latency_hist r) (m_pre_mature_exit r) (m_num_inter_swap r) (m_num_intra_swap r) (m_inter_swap_bubble r) (m_intra_swap_bubble r) (m_intra_swap_pkt r) (m_inter_swap_pkt r) (m_exits r).
Definition with_m_marked_flt_dist (v : list Z) (r : NetStats) : NetStats :=
  mkNetStats (m_packets_injected r) (m_packets_received r) (m_marked_pkt_injected r) (m_marked_pkt_received r) (m_flits_injected r) (m_flits_received r) (m_marked_flt_injected r) (m_marked_flt_received r) (m_packet_network_latency r) (m_packet_queueing_latency r) (m_marked_pkt_network_latency r) (m_marked_pkt_queueing_latency r) (m_flit_network_latency r) (m_flit_queueing_latency r) (m_marked_flt_network_latency r) (m_marked_flt_queueing_latency r) (m_flt_dist r) v (m_total_hops r) (m_marked_total_hops r) (marked_flt_injected r) (marked_flt_received r) (total_marked_flit_latency r) (total_marked_flit_received r) (flit_latency r) (flit_network_latency r) (flit_queueing_latency r) (marked_flit_latency r) (marked_flit_network_latency r) (marked_flit_queueing_latency r) (m_max_latencies r) (m_flt_latency_hist r) (m_flt_network_latency_hist r) (m_flt_queueing_latency_hist r) (m_marked_flt_latency_hist r) (m_marked_flt_network_latency_hist r) (m_marked_flt_queueing_latency_hist r) (m_pre_mature_exit r) (m_num_inter_swap r) (m_num_intra_swap r) (m_inter_swap_bubble r) (m_intra_swap_bubble r) (m_intra_swap_pkt r) (m_inter_swap_pkt r) (m_exits r).
Definition with_m_total_hops (v : Z) (r : NetStats) : NetStats :=
  mkNetStats (m_packets_injected r) (m_packets_received r) (m_marked_pkt_injected r) (m_marked_pkt_received r) (m_flits_injected r) (m_flits_received r) (m_marked_flt_injected r) (m_marked_flt_received r) (m_packet_network_latency r) (m_packet_queueing_latency r) (m_marked_pkt_network_latency r) (m_marked_pkt_queueing_latency r) (m_flit_network_latency r) (m_flit_queueing_latency r) (m_marked_flt_network_latency r) (m_marked_flt_queueing_latency r) (m_flt_dist r) (m_marked_flt_dist r) v (m_marked_total_hops r) (marked_flt_injected r) (marked_flt_received r) (total_marked_flit_latency r) (total_marked_flit_received r) (flit_latency r) (flit_network_latency r) (flit_queueing_latency r) (marked_flit_latency r) (marked_flit_network_latency r) (marked_flit_queueing_latency r) (m_max_latencies r) (m_flt_latency_hist r) (m_flt_network_latency_hist r) (m_flt_queueing_latency_hist r) (m_marked_flt_latency_hist r) (m_marked_flt_network_latency_hist r) (m_marked_flt_queueing_latency_hist r) (m_pre_mature_exit r) (m_num_inter_swap r) (m_num_intra_swap r) (m_inter_swap_bubble r) (m_intra_swap_bubble r) (m_intra_swap_pkt r) (m_inter_swap_pkt r) (m_exits r).
Definition with_m_marked_total_hops (v : Z) (r : NetStats) : NetStats :=
  mkNetStats (m_packets_injected r) (m_packets_received r) (m_marked_pkt_injected r) (m_marked_pkt_received r) (m_flits_injected r) (m_flits_received r) (m_marked_flt_injected r) (m_marked_flt_received r) (m_packet_network_latency r) (m_packet_queueing_latency r) (m_marked_pkt_network_latency r) (m_marked_pkt_queueing_latency r) (m_flit_network_latency r) (m_flit_queueing_latency r) (m_marked_flt_network_latency r) (m_marked_flt_queueing_latency r) (m_flt_dist r) (m_marked_flt_dist r) (m_total_hops r) v (marked_flt_injected r) (marked_flt_received r) (total_marked_flit_latency r) (total_marked_flit_received r) (flit_latency r) (flit_network_latency r) (flit_queueing_latency r) (marked_flit_latency r) (marked_flit_network_latency r) (marked_flit_queueing_latency r) (m_max_latencies r) (m_flt_latency_hist r) (m_flt_network_latency_hist r) (m_flt_queueing_latency_hist r) (m_marked_flt_latency_hist r) (m_marked_flt_network_latency_hist r) (m_marked_flt_queueing_latency_hist r) (m_pre_mature_exit r) (m_num_inter_swap r) (m_num_intra_swap r) (m_inter_swap_bubble r) (m_intra_swap_bubble r) (m_intra_swap_pkt r) (m_inter_swap_pkt r) (m_exits r).
Definition with_marked_flt_injected (v : Z) (r : NetStats) : NetStats :=
  mkNetStats (m_packets_injected r) (m_packets_received r) (m_marked_pkt_injected r) (m_marked_pkt_received r) (m_flits_injected r) (m_flits_received r) (m_marked_flt_injected r) (m_marked_flt_received r) (m_packet_network_latency r) (m_packet_queueing_latency r) (m_marked_pkt_network_latency r) (m_marked_pkt_queueing_latency r) (m_flit_network_latency r) (m_flit_queueing_latency r) (m_marked_flt_network_latency r) (m_marked_flt_queueing_latency r) (m_flt_dist r) (m_marked_flt_dist r) (m_total_hops r) (m_marked_total_hops r) v (marked_flt_received r) (total_marked_flit_latency r) (total_marked_flit_received r) (flit_latency r) (flit_network_latency r) (flit_queueing_latency r) (marked_flit_latency r) (marked_flit_network_latency r) (marked_flit_queueing_latency r) (m_max_latencies r) (m_flt_latency_hist r) (m_flt_network_latency_hist r) (m_flt_queueing_latency_hist r) (m_marked_flt_latency_hist r) (m_marked_flt_network_latency_hist r) (m_marked_flt_queueing_latency_hist r) (m_pre_mature_exit r) (m_num_inter_swap r) (m_num_intra_swap r) (m_inter_swap_bubble r) (m_intra_swap_bubble r) (m_intra_swap_pkt r) (m_inter_swap_pkt r) (m_exits r).
Definition with_marked_flt_received (v : Z) (r : NetStats) : NetStats :=
  mkNetStats (m_packets_injected r) (m_packets_received r) (m_marked_pkt_injected r) (m_marked_pkt_received r) (m_flits_injected r) (m_flits_received r) (m_marked_flt_injected r) (m_marked_flt_received r) (m_packet_network_latency r) (m_packet_queueing_latency r) (m_marked_pkt_network_latency r) (m_marked_pkt_queueing_latency r) (m_flit_network_latency r) (m_flit_queueing_latency r) (m_marked_flt_network_latency r) (m_marked_flt_queueing_latency r) (m_flt_dist r) (m_marked_flt_dist r) (m_total_hops r) (m_marked_total_hops r) (marked_flt_injected r) v (total_marked_flit_latency r) (total_marked_flit_received r) (flit_latency r) (flit_network_latency r) (flit_queueing_latency r) (marked_flit_latency r) (marked_flit_network_latency r) (marked_flit_queueing_latency r) (m_max_latencies r) (m_flt_latency_hist r) (m_flt_network_latency_hist r) (m_flt_queueing_latency_hist r) (m_marked_flt_latency_hist r) (m_marked_flt_network_latency_hist r) (m_marked_flt_queueing_latency_hist r) (m_pre_mature_exit r) (m_num_inter_swap r) (m_num_intra_swap r) (m_inter_swap_bubble r) (m_intra_swap_bubble r) (m_intra_swap_pkt r) (m_inter_swap_pkt r) (m_exits r).
Definition with_total_marked_flit_latency (v : Z) (r : NetStats) : NetStats :=
  mkNetStats (m_packets_injected r) (m_packets_received r) (m_marked_pkt_injected r) (m_marked_pkt_received r) (m_flits_injected r) (m_flits_received r) (m_marked_flt_injected r) (m_marked_flt_received r) (m_packet_network_latency r) (m_packet_queueing_latency r) (m_marked_pkt_network_latency r) (m_marked_pkt_queueing_latency r) (m_flit_network_latency r) (m_flit_queueing_latency r) (m_marked_flt_network_latency r) (m_marked_flt_queueing_latency r) (m_flt_dist r) (m_marked_flt_dist r) (m_total_hops r) (m_marked_total_hops r) (marked_flt_injected r) (marked_flt_received r) v (total_marked_flit_received r) (flit_latency r) (flit_network_latency r) (flit_queueing_latency r) (marked_flit_latency r) (marked_flit_network_latency r) (marked_flit_queueing_latency r) (m_max_latencies r) (m_flt_latency_hist r) (m_flt_network_latency_hist r) (m_flt_queueing_latency_hist r) (m_marked_flt_latency_hist r) (m_marked_flt_network_latency_hist r) (m_marked_flt_queueing_latency_hist r) (m_pre_mature_exit r) (m_num_inter_swap r) (m_num_intra_swap r) (m_inter_swap_bubble r) (m_intra_swap_bubble r) (m_intra_swap_pkt r) (m_inter_swap_pkt r) (m_exits r).
Definition with_total_marked_flit_received (v : Z) (r : NetStats) : NetStats :=
  mkNetStats (m_packets_injected r) (m_packets_received r) (m_marked_pkt_injected r) (m_marked_pkt_received r) (m_flits_injected r) (m_flits_received r) (m_marked_flt_injected r) (m_marked_flt_received r) (m_packet_network_latency r) (m_packet_queueing_latency r) (m_marked_pkt_network_latency r) (m_marked_pkt_queueing_latency r) (m_flit_network_latency r) (m_flit_queueing_latency r) (m_marked_flt_network_latency r) (m_marked_flt_queueing_latency r) (m_flt_dist r) (m_marked_flt_dist r) (m_total_hops r) (m_marked_total_hops r) (marked_flt_injected r) (marked_flt_received r) (total_marked_flit_latency r) v (flit_latency r) (flit_network_latency r) (flit_queueing_latency r) (marked_flit_latency r) (marked_flit_network_latency r) (marked_flit_queueing_latency r) (m_max_latencies r) (m_flt_latency_hist r) (m_flt_network_latency_hist r) (m_flt_queueing_latency_hist r) (m_marked_flt_latency_hist r) (m_marked_flt_network_latency_hist r) (m_marked_flt_queueing_latency_hist r) (m_pre_mature_exit r) (m_num_inter_swap r) (m_num_intra_swap r) (m_inter_swap_bubble r) (m_intra_swap_bubble r) (m_intra_swap_pkt r) (m_inter_swap_pkt r) (m_exits r).
Definition with_flit_latency (v : Z) (r : NetStats) : NetStats :=
  mkNetStats (m_packets_injected r) (m_packets_received r) (m_marked_pkt_injected r) (m_marked_pkt_received r) (m_flits_injected r) (m_flits_received r) (m_marked_flt_injected r) (m_marked_flt_received r) (m_packet_network_latency r) (m_packet_queueing_latency r) (m_marked_pkt_network_latency r) (m_marked_pkt_queueing_latency r) (m_flit_network_latency r) (m_flit_queueing_latency r) (m_marked_flt_network_latency r) (m_marked_flt_queueing_latency r) (m_flt_dist r) (m_marked_flt_dist r) (m_total_hops r) (m_marked_total_hops r) (marked_flt_injected r) (marked_flt_received r) (total_marked_flit_latency r) (total_marked_flit_received r) v (flit_network_latency r) (flit_queueing_latency r) (marked_flit_latency r) (marked_flit_network_latency r) (marked_flit_queueing_latency r) (m_max_latencies r) (m_flt_latency_hist r) (m_flt_network_latency_hist r) (m_flt_queueing_latency_hist r) (m_marked_flt_latency_hist r) (m_marked_flt_network_latency_hist r) (m_marked_flt_queueing_latency_hist r) (m_pre_mature_exit r) (m_num_inter_swap r) (m_num_intra_swap r) (m_inter_swap_bubble r) (m_intra_swap_bubble r) (m_intra_swap_pkt r) (m_inter_swap_pkt r) (m_exits r).
Definition with_flit_network_latency (v : Z) (r : NetStats) : NetStats :=
  mkNetStats (m_packets_injected r) (m_packets_received r) (m_marked_pkt_injected r) (m_marked_pkt_received r) (m_flits_injected r) (m_flits_received r) (m_marked_flt_injected r) (m_marked_flt_received r) (m_packet_network_latency r) (m_packet_queueing_latency r) (m_marked_pkt_network_latency r) (m_marked_pkt_queueing_latency r) (m_flit_network_latency r) (m_flit_queueing_latency r) (m_marked_flt_network_latency r) (m_marked_flt_queueing_latency r) (m_flt_dist r) (m_marked_flt_dist r) (m_total_hops r) (m_marked_total_hops r) (marked_flt_injected r) (marked_flt_received r) (total_marked_flit_latency r) (total_marked_flit_received r) (flit_latency r) v (flit_queueing_latency r) (marked_flit_latency r) (marked_flit_network_latency r) (marked_flit_queueing_latency r) (m_max_latencies r) (m_flt_latency_hist r) (m_flt_network_latency_hist r) (m_flt_queueing_latency_hist r) (m_marked_flt_latency_hist r) (m_marked_flt_network_latency_hist r) (m_marked_flt_queueing_latency_hist r) (m_pre_mature_exit r) (m_num_inter_swap r) (m_num_intra_swap r) (m_inter_swap_bubble r) (m_intra_swap_bubble r) (m_intra_swap_pkt r) (m_inter_swap_pkt r) (m_exits r).
Definition with_flit_queueing_latency (v : Z) (r : NetStats) : NetStats :=
  mkNetStats (m_packets_injected r) (m_packets_received r) (m_marked_pkt_injected r) (m_marked_pkt_received r) (m_flits_injected r) (m_flits_received r) (m_marked_flt_injected r) (m_marked_flt_received r) (m_packet_network_latency r) (m_packet_queueing_latency r) (m_marked_pkt_network_latency r) (m_marked_pkt_queueing_latency r) (m_flit_network_latency r) (m_flit_queueing_latency r) (m_marked_flt_network_latency r) (m_marked_flt_queueing_latency r) (m_flt_dist r) (m_marked_flt_dist r) (m_total_hops r) (m_marked_total_hops r) (marked_flt_injected r) (marked_flt_received r) (total_marked_flit_latency r) (total_marked_flit_received r) (flit_latency r) (flit_network_latency r) v (marked_flit_latency r) (marked_flit_network_latency r) (marked_flit_queueing_latency r) (m_max_latencies r) (m_flt_latency_hist r) (m_flt_network_latency_hist r) (m_flt_queueing_latency_hist r) (m_marked_flt_latency_hist r) (m_marked_flt_network_latency_hist r) (m_marked_flt_queueing_latency_hist r) (m_pre_mature_exit r) (m_num_inter_swap r) (m_num_intra_swap r) (m_inter_swap_bubble r) (m_intra_swap_bubble r) (m_intra_swap_pkt r) (m_inter_swap_pkt r) (m_exits r).
Definition with_marked_flit_latency (v : Z) (r : NetStats) : NetStats :=
  mkNetStats (m_packets_injected r) (m_packets_received r) (m_marked_pkt_injected r) (m_marked_pkt_received r) (m_flits_injected r) (m_flits_received r) (m_marked_flt_injected r) (m_marked_flt_received r) (m_packet_network_latency r) (m_packet_queueing_latency r) (m_marked_pkt_network_latency r) (m_marked_pkt_queueing_latency r) (m_flit_network_latency r) (m_flit_queueing_latency r) (m_marked_flt_network_latency r) (m_marked_flt_queueing_latency r) (m_flt_dist r) (m_marked_flt_dist r) (m_total_hops r) (m_marked_total_hops r) (marked_flt_injected r) (marked_flt_received r) (total_marked_flit_latency r) (total_marked_flit_received r) (flit_latency r) (flit_network_latency r) (flit_queueing_latency r) v (marked_flit_network_latency r) (marked_flit_queueing_latency r) (m_max_latencies r) (m_flt_latency_hist r) (m_flt_network_latency_hist r) (m_flt_queueing_latency_hist r) (m_marked_flt_latency_hist r) (m_marked_flt_network_latency_hist r) (m_marked_flt_queueing_latency_hist r) (m_pre_mature_exit r) (m_num_inter_swap r) (m_num_intra_swap r) (m_inter_swap_bubble r) (m_intra_swap_bubble r) (m_intra_swap_pkt r) (m_inter_swap_pkt r) (m_exits r).
Definition with_marked_flit_network_latency (v : Z) (r : NetStats) : NetStats :=
  mkNetStats (m_packets_injected r) (m_packets_received r) (m_marked_pkt_injected r) (m_marked_pkt_received r) (m_flits_injected r) (m_flits_received r) (m_marked_flt_injected r) (m_marked_flt_received r) (m_packet_network_latency r) (m_packet_queueing_latency r) (m_marked_pkt_network_latency r) (m_marked_pkt_queueing_latency r) (m_flit_network_latency r) (m_flit_queueing_latency r) (m_marked_flt_network_latency r) (m_marked_flt_queueing_latency r) (m_flt_dist r) (m_marked_flt_dist r) (m_total_hops r) (m_marked_total_hops r) (marked_flt_injected r) (marked_flt_received r) (total_marked_flit_latency r) (total_marked_flit_received r) (flit_latency r) (flit_network_latency r) (flit_queueing_latency r) (marked_flit_latency r) v (marked_flit_queueing_latency r) (m_max_latencies r) (m_flt_latency_hist r) (m_flt_network_latency_hist r) (m_flt_queueing_latency_hist r) (m_marked_flt_latency_hist r) (m_marked_flt_network_latency_hist r) (m_marked_flt_queueing_latency_hist r) (m_pre_mature_exit r) (m_num_inter_swap r) (m_num_intra_swap r) (m_inter_swap_bubble r) (m_intra_swap_bubble r) (m_intra_swap_pkt r) (m_inter_swap_pkt r) (m_exits r).
Definition with_marked_flit_queueing_latency (v : Z) (r : NetStats) : NetStats :=
  mkNetStats (m_packets_injected r) (m_packets_received r) (m_marked_pkt_injected r) (m_marked_pkt_received r) (m_flits_injected r) (m_flits_received r) (m_marked_flt_injected r) (m_marked_flt_received r) (m_packet_network_latency r) (m_packet_queueing_latency r) (m_marked_pkt_network_latency r) (m_marked_pkt_queueing_latency r) (m_flit_network_latency r) (m_flit_queueing_latency r) (m_marked_flt_network_latency r) (m_marked_flt_queueing_latency r) (m_flt_dist r) (m_marked_flt_dist r) (m_total_hops r) (m_marked_total_hops r) (marked_flt_injected r) (marked_flt_received r) (total_marked_flit_latency r) (total_marked_flit_received r) (flit_latency r) (flit_network_latency r) (flit_queueing_latency r) (marked_flit_latency r) (marked_flit_network_latency r) v (m_max_latencies r) (m_flt_latency_hist r) (m_flt_network_latency_hist r) (m_flt_queueing_latency_hist r) (m_marked_flt_latency_hist r) (m_marked_flt_network_latency_hist r) (m_marked_flt_queueing_latency_hist r) (m_pre_mature_exit r) (m_num_inter_swap r) (m_num_intra_swap r) (m_inter_swap_bubble r) (m_intra_swap_bubble r) (m_intra_swap_pkt r) (m_inter_swap_pkt r) (m_exits r).
Definition with_m_max_latencies (v : list Z) (r : NetStats) : NetStats :=
  mkNetStats (m_packets_injected r) (m_packets_received r) (m_marked_pkt_injected r) (m_marked_pkt_received r) (m_flits_injected r) (m_flits_received r) (m_marked_flt_injected r) (m_marked_flt_received r) (m_packet_network_latency r) (m_packet_queueing_latency r) (m_marked_pkt_network_latency r) (m_marked_pkt_queueing_latency r) (m_flit_network_latency r) (m_flit_queueing_latency r) (m_marked_flt_network_latency r) (m_marked_flt_queueing_latency r) (m_flt_dist r) (m_marked_flt_dist r) (m_total_hops r) (m_marked_total_hops r) (marked_flt_injected r) (marked_flt_received r) (total_marked_flit_latency r) (total_marked_flit_received r) (flit_latency r) (flit_network_latency r) (flit_queueing_latency r) (marked_flit_latency r) (marked_flit_network_latency r) (marked_flit_queueing_latency r) v (m_flt_latency_hist r) (m_flt_network_latency_hist r) (m_flt_queueing_latency_hist r) (m_marked_flt_latency_hist r) (m_marked_flt_network_latency_hist r) (m_marked_flt_queueing_latency_hist r) (m_pre_mature_exit r) (m_num_inter_swap r) (m_num_intra_swap r) (m_inter_swap_bubble r) (m_intra_swap_bubble r) (m_intra_swap_pkt r) (m_inter_swap_pkt r) (m_exits r).
Definition with_m_flt_latency_hist (v : list Z) (r : NetStats) : NetStats :=
  mkNetStats (m_packets_injected r) (m_packets_received r) (m_marked_pkt_injected r) (m_marked_pkt_received r) (m_flits_injected r) (m_flits_received r) (m_marked_flt_injected r) (m_marked_flt_received r) (m_packet_network_latency r) (m_packet_queueing_latency r) (m_marked_pkt_network_latency r) (m_marked_pkt_queueing_latency r) (m_flit_network_latency r) (m_flit_queueing_latency r) (m_marked_flt_network_latency r) (m_marked_flt_queueing_latency r) (m_flt_dist r) (m_marked_flt_dist r) (m_total_hops r) (m_marked_total_hops r) (marked_flt_injected r) (marked_flt_received r) (total_marked_flit_latency r) (total_marked_flit_received r) (flit_latency r) (flit_network_latency r) (flit_queueing_latency r) (marked_flit_latency r) (marked_flit_network_latency r) (marked_flit_queueing_latency r) (m_max_latencies r) v (m_flt_network_latency_hist r) (m_flt_queueing_latency_hist r) (m_marked_flt_latency_hist r) (m_marked_flt_network_latency_hist r) (m_marked_flt_queueing_latency_hist r) (m_pre_mature_exit r) (m_num_inter_swap r) (m_num_intra_swap r) (m_inter_swap_bubble r) (m_intra_swap_bubble r) (m_intra_swap_pkt r) (m_inter_swap_pkt r) (m_exits r).
Definition with_m_flt_network_latency_hist (v : list Z) (r : NetStats) : NetStats :=
  mkNetStats (m_packets_injected r) (m_packets_received r) (m_marked_pkt_injected r) (m_marked_pkt_received r) (m_flits_injected r) (m_flits_received r) (m_marked_flt_injected r) (m_marked_flt_received r) (m_packet_network_latency r) (m_packet_queueing_latency r) (m_marked_pkt_network_latency r) (m_marked_pkt_queueing_latency r) (m_flit_network_latency r) (m_flit_queueing_latency r) (m_marked_flt_network_latency r) (m_marked_flt_queueing_latency r) (m_flt_dist r) (m_marked_flt_dist r) (m_total_hops r) (m_marked_total_hops r) (marked_flt_injected r) (marked_flt_received r) (total_marked_flit_latency r) (total_marked_flit_received r) (flit_latency r) (flit_network_latency r) (flit_queueing_latency r) (marked_flit_latency r) (marked_flit_network_latency r) (marked_flit_queueing_latency r) (m_max_latencies r) (m_flt_latency_hist r) v (m_flt_queueing_latency_hist r) (m_marked_flt_latency_hist r) (m_marked_flt_network_latency_hist r) (m_marked_flt_queueing_latency_hist r) (m_pre_mature_exit r) (m_num_inter_swap r) (m_num_intra_swap r) (m_inter_swap_bubble r) (m_intra_swap_bubble r) (m_intra_swap_pkt r) (m_inter_swap_pkt r) (m_exits r).
Definition with_m_flt_queueing_latency_hist (v : list Z) (r : NetStats) : NetStats :=
  mkNetStats (m_packets_injected r) (m_packets_received r) (m_marked_pkt_injected r) (m_marked_pkt_received r) (m_flits_injected r) (m_flits_received r) (m_marked_flt_injected r) (m_marked_flt_received r) (m_packet_network_latency r) (m_packet_queueing_latency r) (m_marked_pkt_network_latency r) (m_marked_pkt_queueing_latency r) (m_flit_network_latency r) (m_flit_queueing_latency r) (m_marked_flt_network_latency r) (m_marked_flt_queueing_latency r) (m_flt_dist r) (m_marked_flt_dist r) (m_total_hops r) (m_marked_total_hops r) (marked_flt_injected r) (marked_flt_received r) (total_marked_flit_latency r) (total_marked_flit_received r) (flit_latency r) (flit_network_latency r) (flit_queueing_latency r) (marked_flit_latency r) (marked_flit_network_latency r) (marked_flit_queueing_latency r) (m_max_latencies r) (m_flt_latency_hist r) (m_flt_network_latency_hist r) v (m_marked_flt_latency_hist r) (m_marked_flt_network_latency_hist r) (m_marked_flt_queueing_latency_hist r) (m_pre_mature_exit r) (m_num_inter_swap r) (m_num_intra_swap r) (m_inter_swap_bubble r) (m_intra_swap_bubble r) (m_intra_swap_pkt r) (m_inter_swap_pkt r) (m_exits r).
Definition with_m_marked_flt_latency_hist (v : list Z) (r : NetStats) : NetStats :=
  mkNetStats (m_packets_injected r) (m_packets_received r) (m_marked_pkt_injected r) (m_marked_pkt_received r) (m_flits_injected r) (m_flits_received r) (m_marked_flt_injected r) (m_marked_flt_received r) (m_packet_network_latency r) (m_packet_queueing_latency r) (m_marked_pkt_network_latency r) (m_marked_pkt_queueing_latency r) (m_flit_network_latency r) (m_flit_queueing_latency r) (m_marked_flt_network_latency r) (m_marked_flt_queueing_latency r) (m_flt_dist r) (m_marked_flt_dist r) (m_total_hops r) (m_marked_total_hops r) (marked_flt_injected r) (marked_flt_received r) (total_marked_flit_latency r) (total_marked_flit_received r) (flit_latency r) (flit_network_latency r) (flit_queueing_latency r) (marked_flit_latency r) (marked_flit_network_latency r) (marked_flit_queueing_latency r) (m_max_latencies r) (m_flt_latency_hist r) (m_flt_network_latency_hist r) (m_flt_queueing_latency_hist r) v (m_marked_flt_network_latency_hist r) (m_marked_flt_queueing_latency_hist r) (m_pre_mature_exit r) (m_num_inter_swap r) (m_num_intra_swap r) (m_inter_swap_bubble r) (m_intra_swap_bubble r) (m_intra_swap_pkt r) (m_inter_swap_pkt r) (m_exits r).
Definition with_m_marked_flt_network_latency_hist (v : list Z) (r : NetStats) : NetStats :=
  mkNetStats (m_packets_injected r) (m_packets_received r) (m_marked_pkt_injected r) (m_marked_pkt_received r) (m_flits_injected r) (m_flits_received r) (m_marked_flt_injected r) (m_marked_flt_received r) (m_packet_network_latency r) (m_packet_queueing_latency r) (m_marked_pkt_network_latency r) (m_marked_pkt_queueing_latency r) (m_flit_network_latency r) (m_flit_queueing_latency r) (m_marked_flt_network_latency r) (m_marked_flt_queueing_latency r) (m_flt_dist r) (m_marked_flt_dist r) (m_total_hops r) (m_marked_total_hops r) (marked_flt_injected r) (marked_flt_received r) (total_marked_flit_latency r) (total_marked_flit_received r) (flit_latency r) (flit_network_latency r) (flit_queueing_latency r) (marked_flit_latency r) (marked_flit_network_latency r) (marked_flit_queueing_latency r) (m_max_latencies r) (m_flt_latency_hist r) (m_flt_network_latency_hist r) (m_flt_queueing_latency_hist r) (m_marked_flt_latency_hist r) v (m_marked_flt_queueing_latency_hist r) (m_pre_mature_exit r) (m_num_inter_swap r) (m_num_intra_swap r) (m_inter_swap_bubble r) (m_intra_swap_bubble r) (m_intra_swap_pkt r) (m_inter_swap_pkt r) (m_exits r).
Definition with_m_marked_flt_queueing_latency_hist (v : list Z) (r : NetStats) : NetStats :=
  mkNetStats (m_packets_injected r) (m_packets_received r) (m_marked_pkt_injected r) (m_marked_pkt_received r) (m_flits_injected r) (m_flits_received r) (m_marked_flt_injected r) (m_marked_flt_received r) (m_packet_network_latency r) (m_packet_queueing_latency r) (m_marked_pkt_network_latency r) (m_marked_pkt_queueing_latency r) (m_flit_network_latency r) (m_flit_queueing_latency r) (m_marked_flt_network_latency r) (m_marked_flt_queueing_latency r) (m_flt_dist r) (m_marked_flt_dist r) (m_total_hops r) (m_marked_total_hops r) (marked_flt_injected r) (marked_flt_received r) (total_marked_flit_latency r) (total_marked_flit_received r) (flit_latency r) (flit_network_latency r) (flit_queueing_latency r) (marked_flit_latency r) (marked_flit_network_latency r) (marked_flit_queueing_latency r) (m_max_latencies r) (m_flt_latency_hist r) (m_flt_network_latency_hist r) (m_flt_queueing_latency_hist r) (m_marked_flt_latency_hist r) (m_marked_flt_network_latency_hist r) v (m_pre_mature_exit r) (m_num_inter_swap r) (m_num_intra_swap r) (m_inter_swap_bubble r) (m_intra_swap_bubble r) (m_intra_swap_pkt r) (m_inter_swap_pkt r) (m_exits r).
Definition with_m_pre_mature_exit (v : Z) (r : NetStats) : NetStats :=
  mkNetStats (m_packets_injected r) (m_packets_received r) (m_marked_pkt_injected r) (m_marked_pkt_received r) (m_flits_injected r) (m_flits_received r) (m_marked_flt_injected r) (m_marked_flt_received r) (m_packet_network_latency r) (m_packet_queueing_latency r) (m_marked_pkt_network_latency r) (m_marked_pkt_queueing_latency r) (m_flit_network_latency r) (m_flit_queueing_latency r) (m_marked_flt_network_latency r) (m_marked_flt_queueing_latency r) (m_flt_dist r) (m_marked_flt_dist r) (m_total_hops r) (m_marked_total_hops r) (marked_flt_injected r) (marked_flt_received r) (total_marked_flit_latency r) (total_marked_flit_received r) (flit_latency r) (flit_network_latency r) (flit_queueing_latency r) (marked_flit_latency r) (marked_flit_network_latency r) (marked_flit_queueing_latency r) (m_max_latencies r) (m_flt_latency_hist r) (m_flt_network_latency_hist r) (m_flt_queueing_latency_hist r) (m_marked_flt_latency_hist r) (m_marked_flt_network_latency_hist r) (m_marked_flt_queueing_latency_hist r) v (m_num_inter_swap r) (m_num_intra_swap r) (m_inter_swap_bubble r) (m_intra_swap_bubble r) (m_intra_swap_pkt r) (m_inter_swap_pkt r) (m_exits r).
Definition with_m_num_inter_swap (v : Z) (r : NetStats) : NetStats :=
  mkNetStats (m_packets_injected r) (m_packets_received r) (m_marked_pkt_injected r) (m_marked_pkt_received r) (m_flits_injected r) (m_flits_received r) (m_marked_flt_injected r) (m_marked_flt_received r) (m_packet_network_latency r) (m_packet_queueing_latency r) (m_marked_pkt_network_latency r) (m_marked_pkt_queueing_latency r) (m_flit_network_latency r) (m_flit_queueing_latency r) (m_marked_flt_network_latency r) (m_marked_flt_queueing_latency r) (m_flt_dist r) (m_marked_flt_dist r) (m_total_hops r) (m_marked_total_hops r) (marked_flt_injected r) (marked_flt_received r) (total_marked_flit_latency r) (total_marked_flit_received r) (flit_latency r) (flit_network_latency r) (flit_queueing_latency r) (marked_flit_latency r) (marked_flit_network_latency r) (marked_flit_queueing_latency r) (m_max_latencies r) (m_flt_latency_hist r) (m_flt_network_latency_hist r) (m_flt_queueing_latency_hist r) (m_marked_flt_latency_hist r) (m_marked_flt_network_latency_hist r) (m_marked_flt_queueing_latency_hist r) (m_pre_mature_exit r) v (m_num_intra_swap r) (m_inter_swap_bubble r) (m_intra_swap_bubble r) (m_intra_swap_pkt r) (m_inter_swap_pkt r) (m_exits r).
Definition with_m_num_intra_swap (v : Z) (r : NetStats) : NetStats :=
  mkNetStats (m_packets_injected r) (m_packets_received r) (m_marked_pkt_injected r) (m_marked_pkt_received r) (m_flits_injected r) (m_flits_received r) (m_marked_flt_injected r) (m_marked_flt_received r) (m_packet_network_latency r) (m_packet_queueing_latency r) (m_marked_pkt_network_latency r) (m_marked_pkt_queueing_latency r) (m_flit_network_latency r) (m_flit_queueing_latency r) (m_marked_flt_network_latency r) (m_marked_flt_queueing_latency r) (m_flt_dist r) (m_marked_flt_dist r) (m_total_hops r) (m_marked_total_hops r) (marked_flt_injected r) (marked_flt_received r) (total_marked_flit_latency r) (total_marked_flit_received r) (flit_latency r) (flit_network_latency r) (flit_queueing_latency r) (marked_flit_latency r) (marked_flit_network_latency r) (marked_flit_queueing_latency r) (m_max_latencies r) (m_flt_latency_hist r) (m_flt_network_latency_hist r) (m_flt_queueing_latency_hist r) (m_marked_flt_latency_hist r) (m_marked_flt_network_latency_hist r) (m_marked_flt_queueing_latency_hist r) (m_pre_mature_exit r) (m_num_inter_swap r) v (m_inter_swap_bubble r) (m_intra_swap_bubble r) (m_intra_swap_pkt r) (m_inter_swap_pkt r) (m_exits r).
Definition with_m_inter_swap_bubble (v : Z) (r : NetStats) : NetStats :=
  mkNetStats (m_packets_injected r) (m_packets_received r) (m_marked_pkt_injected r) (m_marked_pkt_received r) (m_flits_injected r) (m_flits_received r) (m_marked_flt_injected r) (m_marked_flt_received r) (m_packet_network_latency r) (m_packet_queueing_latency r) (m_marked_pkt_network_latency r) (m_marked_pkt_queueing_latency r) (m_flit_network_latency r) (m_flit_queueing_latency r) (m_marked_flt_network_latency r) (m_marked_flt_queueing_latency r) (m_flt_dist r) (m_marked_flt_dist r) (m_total_hops r) (m_marked_total_hops r) (marked_flt_injected r) (marked_flt_received r) (total_marked_flit_latency r) (total_marked_flit_received r) (flit_latency r) (flit_network_latency r) (flit_queueing_latency r) (marked_flit_latency r) (marked_flit_network_latency r) (marked_flit_queueing_latency r) (m_max_latencies r) (m_flt_latency_hist r) (m_flt_network_latency_hist r) (m_flt_queueing_latency_hist r) (m_marked_flt_latency_hist r) (m_marked_flt_network_latency_hist r) (m_marked_flt_queueing_latency_hist r) (m_pre_mature_exit r) (m_num_inter_swap r) (m_num_intra_swap r) v (m_intra_swap_bubble r) (m_intra_swap_pkt r) (m_inter_swap_pkt r) (m_exits r).
Definition with_m_intra_swap_bubble (v : Z) (r : NetStats) : NetStats :=
  mkNetStats (m_packets_injected r) (m_packets_received r) (m_marked_pkt_injected r) (m_marked_pkt_received r) (m_flits_injected r) (m_flits_received r) (m_marked_flt_injected r) (m_marked_flt_received r) (m_packet_network_latency r) (m_packet_queueing_latency r) (m_marked_pkt_network_latency r) (m_marked_pkt_queueing_latency r) (m_flit_network_latency r) (m_flit_queueing_latency r) (m_marked_flt_network_latency r) (m_marked_flt_queueing_latency r) (m_flt_dist r) (m_marked_flt_dist r) (m_total_hops r) (m_marked_total_hops r) (marked_flt_injected r) (marked_flt_received r) (total_marked_flit_latency r) (total_marked_flit_received r) (flit_latency r) (flit_network_latency r) (flit_queueing_latency r) (marked_flit_latency r) (marked_flit_network_latency r) (marked_flit_queueing_latency r) (m_max_latencies r) (m_flt_latency_hist r) (m_flt_network_latency_hist r) (m_flt_queueing_latency_hist r) (m_marked_flt_latency_hist r) (m_marked_flt_network_latency_hist r) (m_marked_flt_queueing_latency_hist r) (m_pre_mature_exit r) (m_num_inter_swap r) (m_num_intra_swap r) (m_inter_swap_bubble r) v (m_intra_swap_pkt r) (m_inter_swap_pkt r) (m_exits r).
Definition with_m_intra_swap_pkt (v : Z) (r : NetStats) : NetStats :=
  mkNetStats (m_packets_injected r) (m_packets_received r) (m_marked_pkt_injected r) (m_marked_pkt_received r) (m_flits_injected r) (m_flits_received r) (m_marked_flt_injected r) (m_marked_flt_received r) (m_packet_network_latency r) (m_packet_queueing_latency r) (m_marked_pkt_network_latency r) (m_marked_pkt_queueing_latency r) (m_flit_network_latency r) (m_flit_queueing_latency r) (m_marked_flt_network_latency r) (m_marked_flt_queueing_latency r) (m_flt_dist r) (m_marked_flt_dist r) (m_total_hops r) (m_marked_total_hops r) (marked_flt_injected r) (marked_flt_received r) (total_marked_flit_latency r) (total_marked_flit_received r) (flit_latency r) (flit_network_latency r) (flit_queueing_latency r) (marked_flit_latency r) (marked_flit_network_latency r) (marked_flit_queueing_latency r) (m_max_latencies r) (m_flt_latency_hist r) (m_flt_network_latency_hist r) (m_flt_queueing_latency_hist r) (m_marked_flt_latency_hist r) (m_marked_flt_network_latency_hist r) (m_marked_flt_queueing_latency_hist r) (m_pre_mature_exit r) (m_num_inter_swap r) (m_num_intra_swap r) (m_inter_swap_bubble r) (m_intra_swap_bubble r) v (m_inter_swap_pkt r) (m_exits r).
Definition with_m_inter_swap_pkt (v : Z) (r : NetStats) : NetStats :=
  mkNetStats (m_packets_injected r) (m_packets_received r) (m_marked_pkt_injected r) (m_marked_pkt_received r) (m_flits_injected r) (m_flits_received r) (m_marked_flt_injected r) (m_marked_flt_received r) (m_packet_network_latency r) (m_packet_queueing_latency r) (m_marked_pkt_network_latency r) (m_marked_pkt_queueing_latency r) (m_flit_network_latency r) (m_flit_queueing_latency r) (m_marked_flt_network_latency r) (m_marked_flt_queueing_latency r) (m_flt_dist r) (m_marked_flt_dist r) (m_total_hops r) (m_marked_total_hops r) (marked_flt_injected r) (marked_flt_received r) (total_marked_flit_latency r) (total_marked_flit_received r) (flit_latency r) (flit_network_latency r) (flit_queueing_latency r) (marked_flit_latency r) (marked_flit_network_latency r) (marked_flit_queueing_latency r) (m_max_latencies r) (m_flt_latency_hist r) (m_flt_network_latency_hist r) (m_flt_queueing_latency_hist r) (m_marked_flt_latency_hist r) (m_marked_flt_network_latency_hist r) (m_marked_flt_queueing_latency_hist r) (m_pre_mature_exit r) (m_num_inter_swap r) (m_num_intra_swap r) (m_inter_swap_bubble r) (m_intra_swap_bubble r) (m_intra_swap_pkt r) v (m_exits r).
Definition with_m_exits (v : list exit_reason) (r : NetStats) : NetStats :=
  mkNetStats (m_packets_injected r) (m_packets_received r) (m_marked_pkt_injected r) (m_marked_pkt_received r) (m_flits_injected r) (m_flits_received r) (m_marked_flt_injected r) (m_marked_flt_received r) (m_packet_network_latency r) (m_packet_queueing_latency r) (m_marked_pkt_network_latency r) (m_marked_pkt_queueing_latency r) (m_flit_network_latency r) (m_flit_queueing_latency r) (m_marked_flt_network_latency r) (m_marked_flt_queueing_latency r) (m_flt_dist r) (m_marked_flt_dist r) (m_total_hops r) (m_marked_total_hops r) (marked_flt_injected r) (marked_flt_received r) (total_marked_flit_latency r) (total_marked_flit_received r) (flit_latency r) (flit_network_latency r) (flit_queueing_latency r) (marked_flit_latency r) (marked_flit_network_latency r) (marked_flit_queueing_latency r) (m_max_latencies r) (m_flt_latency_hist r) (m_flt_network_latency_hist r) (m_flt_queueing_latency_hist r) (m_marked_flt_latency_hist r) (m_marked_flt_network_latency_hist r) (m_marked_flt_queueing_latency_hist r) (m_pre_mature_exit r) (m_num_inter_swap r) (m_num_intra_swap r) (m_inter_swap_bubble r) (m_intra_swap_bubble r) (m_intra_swap_pkt r) (m_inter_swap_pkt r) v.

Definition NetStats_new (vnets routers : Z) : NetStats :=
  let v := replicate (Z.to_nat vnets) 0 in
  let r := replicate (Z.to_nat routers) 0 in
  mkNetStats v v v v v v v v v v v v v v v v r r 0 0 0 0 0 0 0 0 0 0 0 0 [0; 0; 0; 0; 0; 0]
    [] [] [] [] [] [] 0 0 0 0 0 0 0 [].

(** [v[i] += n] *)
Definition bump (i n : Z) (v : list Z) : result (list Z) := vec_modify v i (fun x => x + n).

Definition update_flit_latency_histogram (latency : Z) (marked : bool) (s : NetStats) : NetStats :=
  if marked then
    let s1 := with_m_marked_flt_latency_hist (m_marked_flt_latency_hist s ++ [latency]) s in
    if marked_flit_latency s <? latency then with_marked_flit_latency latency s1 else s1
  else
    let s1 := with_m_flt_latency_hist (m_flt_latency_hist s ++ [latency]) s in
    if flit_latency s <? latency then with_flit_latency latency s1 else s1.

Definition update_flit_network_latency_histogram (latency : Z) (marked : bool) (s : NetStats) : NetStats :=
  if marked then
    let s1 := with_m_marked_flt_network_latency_hist (m_marked_flt_network_latency_hist s ++ [latency]) s in
    if marked_flit_network_latency s <? latency then with_marked_flit_network_latency latency s1 else s1
  else
    let s1 := with_m_flt_network_latency_hist (m_flt_network_latency_hist s ++ [latency]) s in
    if flit_network_latency s <? latency then with_flit_network_latency latency s1 else s1.

Definition update_flit_queueing_latency_histogram (latency : Z) (marked : bool) (s : NetStats) : NetStats :=
  if marked then
    let s1 := with_m_marked_flt_queueing_latency_hist (m_marked_flt_queueing_latency_hist s ++ [latency]) s in
    if marked_flit_queueing_latency s <? latency then with_marked_flit_queueing_latency latency s1 else s1
  else
    let s1 := with_m_flt_queueing_latency_hist (m_flt_queueing_latency_hist s ++ [latency]) s in
    if flit_queueing_latency s <? latency then with_flit_queueing_latency latency s1 else s1.

Definition increment_injected_packets (vnet : Z) (marked : bool) (s : NetStats) : result NetStats :=
  s1 ← (if marked then v ← bump vnet 1 (m_marked_pkt_injected s); Ok (with_m_marked_pkt_injected v s) else Ok s);
  v ← bump vnet 1 (m_packets_injected s1); Ok (with_m_packets_injected v s1).

Definition increment_received_packets (vnet : Z) (marked : bool) (s : NetStats) : result NetStats :=
  s1 ← (if marked then v ← bump vnet 1 (m_marked_pkt_received s); Ok (with_m_marked_pkt_received v s) else Ok s);
  v ← bump vnet 1 (m_packets_received s1); Ok (with_m_packets_received v s1).

Definition increment_packet_network_latency (latency vnet : Z) (marked : bool) (s : NetStats) : result NetStats :=
  v ← bump vnet latency (m_packet_network_latency s);
  let s1 := with_m_packet_network_latency v s in
  if marked then v ← bump vnet latency (m_marked_pkt_network_latency s1); Ok (with_m_marked_pkt_network_latency v s1)
  else Ok s1.

Definition increment_packet_queueing_latency (latency vnet : Z) (marked : bool) (s : NetStats) : result NetStats :=
  v ← bump vnet latency (m_packet_queueing_latency s);
  let s1 := with_m_packet_queueing_latency v s in
  if marked then v ← bump vnet latency (m_marked_pkt_queueing_latency s1); Ok (with_m_marked_pkt_queueing_latency v s1)
  else Ok s1.

Definition increment_injected_flits (vnet : Z) (marked : bool) (m_router_id : Z) (s : NetStats) : result NetStats :=
  v ← bump vnet 1 (m_flits_injected s);
  d ← bump m_router_id 1 (m_flt_dist s);
  let s1 := with_m_flt_dist d (with_m_flits_injected v s) in
  if marked then
    v ← bump vnet 1 (m_marked_flt_injected s1);
    d ← bump m_router_id 1 (m_marked_flt_dist s1);
    Ok (with_marked_flt_injected (u64 (marked_flt_injected s1 + 1))
          (with_m_marked_flt_dist d (with_m_marked_flt_injected v s1)))
  else Ok s1.

(** All marked flits have been injected and received. *)
Definition check_mrkd_flt (mrkd : list Z) (s : NetStats) : bool :=
  if existsb (fun n => 0 <? n) mrkd then false
  else negb (marked_flt_received s <? marked_flt_injected s).

Definition increment_received_flits (mrkd : list Z) (vnet : Z) (marked : bool) (s : NetStats) : result NetStats :=
  v ← bump vnet 1 (m_flits_received s);
  let s1 := with_m_flits_received v s in
  if marked then
    v ← bump vnet 1 (m_marked_flt_received s1);
    let s2 := with_total_marked_flit_received (u64 (total_marked_flit_received s1 + 1))
                (with_marked_flt_received (u64 (marked_flt_received s1 + 1)) (with_m_marked_flt_received v s1)) in
    if check_mrkd_flt mrkd s2 then
      assert_ (marked_flt_injected s2 =? marked_flt_received s2) ;;
      Ok (with_m_exits (m_exits s2 ++ [AllMarkedReceived])
            (with_m_max_latencies [flit_latency s2; flit_network_latency s2; flit_queueing_latency s2;
               marked_flit_latency s2; marked_flit_network_latency s2; marked_flit_queueing_latency s2] s2))
    else Ok s2
  else Ok s1.

Definition increment_flit_network_latency (latency vnet : Z) (marked : bool) (s : NetStats) : result NetStats :=
  v ← bump vnet latency (m_flit_network_latency s);
  let s1 := with_m_flit_network_latency v s in
  if marked then
    v ← bump vnet latency (m_marked_flt_network_latency s1);
    Ok (with_total_marked_flit_latency (u64 (total_marked_flit_latency s1 + latency))
          (with_m_marked_flt_network_latency v s1))
  else Ok s1.

Definition increment_flit_queueing_latency (latency vnet : Z) (marked : bool) (s : NetStats) : result NetStats :=
  v ← bump vnet latency (m_flit_queueing_latency s);
  let s1 := with_m_flit_queueing_latency v s in
  if marked then
    v ← bump vnet latency (m_marked_flt_queueing_latency s1);
    Ok (with_total_marked_flit_latency (u64 (total_marked_flit_latency s1 + latency))
          (with_m_marked_flt_queueing_latency v s1))
  else Ok s1.

Definition increment_total_hops (hops : Z) (marked : bool) (s : NetStats) : NetStats :=
  let s1 := with_m_total_hops (m_total_hops s + hops) s in
  if marked then with_m_marked_total_hops (m_marked_total_hops s1 + hops) s1 else s1.

(** The average latency is compared as a fraction: [latency / received > 1000]. *)
Definition check_network_saturation (cur : Z) (s : NetStats) : NetStats :=
  let s1 := if (0 <? total_marked_flit_received s) &&
               (1000 * total_marked_flit_received s <? total_marked_flit_latency s)
            then with_m_exits (m_exits s ++ [LatencyExceeded]) s else s in
  if 10000000 <? cur then
    with_m_exits (m_exits s1 ++ [CycleQuotaExceeded]) (with_m_pre_mature_exit (m_pre_mature_exit s1 + 1) s1)
  else s1.

(** The counters that are vectors, of which an index can be out of range. *)
Definition stat_vectors (s : NetStats) : list (list Z) :=
  [m_packets_injected s; m_packets_received s; m_marked_pkt_injected s; m_marked_pkt_received s;
   m_flits_injected s; m_flits_received s; m_marked_flt_injected s; m_marked_flt_received s;
   m_packet_network_latency s; m_packet_queueing_latency s; m_marked_pkt_network_latency s; m_marked_pkt_queueing_latency s;
   m_flit_network_latency s; m_flit_queueing_latency s; m_marked_flt_network_latency s; m_marked_flt_queueing_latency s;
   m_flt_dist s; m_marked_flt_dist s].
