(* ===== verification/NetworkInterface.v ===== *)
(** * [NetworkInterface] (NetworkInterface.hh, NetworkInterface.cc)

    An NI takes messages from the protocol's buffers, turns each destination into one
    single-flit packet, sends flits on its out link as credits allow, and ejects arriving
    flits into the protocol's buffers, stalling those that find no room.  The NI keeps the
    protocol buffers it points to; the statistics and the routers' marked-flit budgets are
    the world [NIWorld] it updates through the network pointer. *)

From S2P Require Import Prelude RubySet NetDest Flit FlitBuffer Consumer Config OutVcState NetworkLink.
From S2P Require Import MessageBuffer NetStats.
Local Open Scope Z_scope.

Record NetworkInterface := mkNetworkInterface {
  m_id : Z;
  m_virtual_networks : Z;
  m_vc_per_vnet : Z;
  m_num_vcs : Z;
  m_deadlock_threshold : Z;
  m_router_id : Z;
  m_out_vc_state : list OutVcState;
  m_vc_allocator : list Z;
  m_vc_round_robin : Z;
  outFlitQueue : flitBuffer flit;
  outCreditQueue : flitBuffer Credit;
  inNetLink : Z;
  outNetLink : Z;
  inCreditLink : Z;
  outCreditLink : Z;
  m_stall_queue : list flit;
  m_stall_count : list Z;
  m_ni_out_vcs : list (flitBuffer flit);
  m_ni_out_vcs_enqueue_time : list Z;
  inNode_ptr : list (option MessageBuffer);
  outNode_ptr : list (option MessageBuffer);
  vc_busy_counter : list Z;
  m_events : list Event
}.

Definition with_m_router_id (v : Z) (r : NetworkInterface) : NetworkInterface :=
  mkNetworkInterface (m_id r) (m_virtual_networks r) (m_vc_per_vnet r) (m_num_vcs r) (m_deadlock_threshold r) v (m_out_vc_state r) (m_vc_allocator r) (m_vc_round_robin r) (outFlitQueue r) (outCreditQueue r) (inNetLink r) (outNetLink r) (inCreditLink r) (outCreditLink r) (m_stall_queue r) (m_stall_count r) (m_ni_out_vcs r) (m_ni_out_vcs_enqueue_time r) (inNode_ptr r) (outNode_ptr r) (vc_busy_counter r) (m_events r).
Definition with_m_out_vc_state (v : list OutVcState) (r : NetworkInterface) : NetworkInterface :=
  mkNetworkInterface (m_id r) (m_virtual_networks r) (m_vc_per_vnet r) (m_num_vcs r) (m_deadlock_threshold r) (m_router_id r) v (m_vc_allocator r) (m_vc_round_robin r) (outFlitQueue r) (outCreditQueue r) (inNetLink r) (outNetLink r) (inCreditLink r) (outCreditLink r) (m_stall_queue r) (m_stall_count r) (m_ni_out_vcs r) (m_ni_out_vcs_enqueue_time r) (inNode_ptr r) (outNode_ptr r) (vc_busy_counter r) (m_events r).
Definition with_m_vc_allocator (v : list Z) (r : NetworkInterface) : NetworkInterface :=
  mkNetworkInterface (m_id r) (m_virtual_networks r) (m_vc_per_vnet r) (m_num_vcs r) (m_deadlock_threshold r) (m_router_id r) (m_out_vc_state r) v (m_vc_round_robin r) (outFlitQueue r) (outCreditQueue r) (inNetLink r) (outNetLink r) (inCreditLink r) (outCreditLink r) (m_stall_queue r) (m_stall_count r) (m_ni_out_vcs r) (m_ni_out_vcs_enqueue_time r) (inNode_ptr r) (outNode_ptr r) (vc_busy_counter r) (m_events r).
Definition with_m_vc_round_robin (v : Z) (r : NetworkInterface) : NetworkInterface :=
  mkNetworkInterface (m_id r) (m_virtual_networks r) (m_vc_per_vnet r) (m_num_vcs r) (m_deadlock_threshold r) (m_router_id r) (m_out_vc_state r) (m_vc_allocator r) v (outFlitQueue r) (outCreditQueue r) (inNetLink r) (outNetLink r) (inCreditLink r) (outCreditLink r) (m_stall_queue r) (m_stall_count r) (m_ni_out_vcs r) (m_ni_out_vcs_enqueue_time r) (inNode_ptr r) (outNode_ptr r) (vc_busy_counter r) (m_events r).
Definition with_outFlitQueue (v : flitBuffer flit) (r : NetworkInterface) : NetworkInterface :=
  mkNetworkInterface (m_id r) (m_virtual_networks r) (m_vc_per_vnet r) (m_num_vcs r) (m_deadlock_threshold r) (m_router_id r) (m_out_vc_state r) (m_vc_allocator r) (m_vc_round_robin r) v (outCreditQueue r) (inNetLink r) (outNetLink r) (inCreditLink r) (outCreditLink r) (m_stall_queue r) (m_stall_count r) (m_ni_out_vcs r) (m_ni_out_vcs_enqueue_time r) (inNode_ptr r) (outNode_ptr r) (vc_busy_counter r) (m_events r).
Definition with_outCreditQueue (v : flitBuffer Credit) (r : NetworkInterface) : NetworkInterface :=
  mkNetworkInterface (m_id r) (m_virtual_networks r) (m_vc_per_vnet r) (m_num_vcs r) (m_deadlock_threshold r) (m_router_id r) (m_out_vc_state r) (m_vc_allocator r) (m_vc_round_robin r) (outFlitQueue r) v (inNetLink r) (outNetLink r) (inCreditLink r) (outCreditLink r) (m_stall_queue r) (m_stall_count r) (m_ni_out_vcs r) (m_ni_out_vcs_enqueue_time r) (inNode_ptr r) (outNode_ptr r) (vc_busy_counter r) (m_events r).
Definition with_inNetLink (v : Z) (r : NetworkInterface) : NetworkInterface :=
  mkNetworkInterface (m_id r) (m_virtual_networks r) (m_vc_per_vnet r) (m_num_vcs r) (m_deadlock_threshold r) (m_router_id r) (m_out_vc_state r) (m_vc_allocator r) (m_vc_round_robin r) (outFlitQueue r) (outCreditQueue r) v (outNetLink r) (inCreditLink r) (outCreditLink r) (m_stall_queue r) (m_stall_count r) (m_ni_out_vcs r) (m_ni_out_vcs_enqueue_time r) (inNode_ptr r) (outNode_ptr r) (vc_busy_counter r) (m_events r).
Definition with_outNetLink (v : Z) (r : NetworkInterface) : NetworkInterface :=
  mkNetworkInterface (m_id r) (m_virtual_networks r) (m_vc_per_vnet r) (m_num_vcs r) (m_deadlock_threshold r) (m_router_id r) (m_out_vc_state r) (m_vc_allocator r) (m_vc_round_robin r) (outFlitQueue r) (outCreditQueue r) (inNetLink r) v (inCreditLink r) (outCreditLink r) (m_stall_queue r) (m_stall_count r) (m_ni_out_vcs r) (m_ni_out_vcs_enqueue_time r) (inNode_ptr r) (outNode_ptr r) (vc_busy_counter r) (m_events r).
Definition with_inCreditLink (v : Z) (r : NetworkInterface) : NetworkInterface :=
  mkNetworkInterface (m_id r) (m_virtual_networks r) (m_vc_per_vnet r) (m_num_vcs r) (m_deadlock_threshold r) (m_router_id r) (m_out_vc_state r) (m_vc_allocator r) (m_vc_round_robin r) (outFlitQueue r) (outCreditQueue r) (inNetLink r) (outNetLink r) v (outCreditLink r) (m_stall_queue r) (m_stall_count r) (m_ni_out_vcs r) (m_ni_out_vcs_enqueue_time r) (inNode_ptr r) (outNode_ptr r) (vc_busy_counter r) (m_events r).
Definition with_outCreditLink (v : Z) (r : NetworkInterface) : NetworkInterface :=
  mkNetworkInterface (m_id r) (m_virtual_networks r) (m_vc_per_vnet r) (m_num_vcs r) (m_deadlock_threshold r) (m_router_id r) (m_out_vc_state r) (m_vc_allocator r) (m_vc_round_robin r) (outFlitQueue r) (outCreditQueue r) (inNetLink r) (outNetLink r) (inCreditLink r) v (m_stall_queue r) (m_stall_count r) (m_ni_out_vcs r) (m_ni_out_vcs_enqueue_time r) (inNode_ptr r) (outNode_ptr r) (vc_busy_counter r) (m_events r).
Definition with_m_stall_queue (v : list flit) (r : NetworkInterface) : NetworkInterface :=
  mkNetworkInterface (m_id r) (m_virtual_networks r) (m_vc_per_vnet r) (m_num_vcs r) (m_deadlock_threshold r) (m_router_id r) (m_out_vc_state r) (m_vc_allocator r) (m_vc_round_robin r) (outFlitQueue r) (outCreditQueue r) (inNetLink r) (outNetLink r) (inCreditLink r) (outCreditLink r) v (m_stall_count r) (m_ni_out_vcs r) (m_ni_out_vcs_enqueue_time r) (inNode_ptr r) (outNode_ptr r) (vc_busy_counter r) (m_events r).
Definition with_m_stall_count (v : list Z) (r : NetworkInterface) : NetworkInterface :=
  mkNetworkInterface (m_id r) (m_virtual_networks r) (m_vc_per_vnet r) (m_num_vcs r) (m_deadlock_threshold r) (m_router_id r) (m_out_vc_state r) (m_vc_allocator r) (m_vc_round_robin r) (outFlitQueue r) (outCreditQueue r) (inNetLink r) (outNetLink r) (inCreditLink r) (outCreditLink r) (m_stall_queue r) v (m_ni_out_vcs r) (m_ni_out_vcs_enqueue_time r) (inNode_ptr r) (outNode_ptr r) (vc_busy_counter r) (m_events r).
Definition with_m_ni_out_vcs (v : list (flitBuffer flit)) (r : NetworkInterface) : NetworkInterface :=
  mkNetworkInterface (m_id r) (m_virtual_networks r) (m_vc_per_vnet r) (m_num_vcs r) (m_deadlock_threshold r) (m_router_id r) (m_out_vc_state r) (m_vc_allocator r) (m_vc_round_robin r) (outFlitQueue r) (outCreditQueue r) (inNetLink r) (outNetLink r) (inCreditLink r) (outCreditLink r) (m_stall_queue r) (m_stall_count r) v (m_ni_out_vcs_enqueue_time r) (inNode_ptr r) (outNode_ptr r) (vc_busy_counter r) (m_events r).
Definition with_m_ni_out_vcs_enqueue_time (v : list Z) (r : NetworkInterface) : NetworkInterface :=
  mkNetworkInterface (m_id r) (m_virtual_networks r) (m_vc_per_vnet r) (m_num_vcs r) (m_deadlock_threshold r) (m_router_id r) (m_out_vc_state r) (m_vc_allocator r) (m_vc_round_robin r) (outFlitQueue r) (outCreditQueue r) (inNetLink r) (outNetLink r) (inCreditLink r) (outCreditLink r) (m_stall_queue r) (m_stall_count r) (m_ni_out_vcs r) v (inNode_ptr r) (outNode_ptr r) (vc_busy_counter r) (m_events r).
Definition with_inNode_ptr (v : list (option MessageBuffer)) (r : NetworkInterface) : NetworkInterface :=
  mkNetworkInterface (m_id r) (m_virtual_networks r) (m_vc_per_vnet r) (m_num_vcs r) (m_deadlock_threshold r) (m_router_id r) (m_out_vc_state r) (m_vc_allocator r) (m_vc_round_robin r) (outFlitQueue r) (outCreditQueue r) (inNetLink r) (outNetLink r) (inCreditLink r) (outCreditLink r) (m_stall_queue r) (m_stall_count r) (m_ni_out_vcs r) (m_ni_out_vcs_enqueue_time r) v (outNode_ptr r) (vc_busy_counter r) (m_events r).
Definition with_outNode_ptr (v : list (option MessageBuffer)) (r : NetworkInterface) : NetworkInterface :=
  mkNetworkInterface (m_id r) (m_virtual_networks r) (m_vc_per_vnet r) (m_num_vcs r) (m_deadlock_threshold r) (m_router_id r) (m_out_vc_state r) (m_vc_allocator r) (m_vc_round_robin r) (outFlitQueue r) (outCreditQueue r) (inNetLink r) (outNetLink r) (inCreditLink r) (outCreditLink r) (m_stall_queue r) (m_stall_count r) (m_ni_out_vcs r) (m_ni_out_vcs_enqueue_time r) (inNode_ptr r) v (vc_busy_counter r) (m_events r).
Definition with_vc_busy_counter (v : list Z) (r : NetworkInterface) : NetworkInterface :=
  mkNetworkInterface (m_id r) (m_virtual_networks r) (m_vc_per_vnet r) (m_num_vcs r) (m_deadlock_threshold r) (m_router_id r) (m_out_vc_state r) (m_vc_allocator r) (m_vc_round_robin r) (outFlitQueue r) (outCreditQueue r) (inNetLink r) (outNetLink r) (inCreditLink r) (outCreditLink r) (m_stall_queue r) (m_stall_count r) (m_ni_out_vcs r) (m_ni_out_vcs_enqueue_time r) (inNode_ptr r) (outNode_ptr r) v (m_events r).
Definition with_m_events (v : list Event) (r : NetworkInterface) : NetworkInterface :=
  mkNetworkInterface (m_id r) (m_virtual_networks r) (m_vc_per_vnet r) (m_num_vcs r) (m_deadlock_threshold r) (m_router_id r) (m_out_vc_state r) (m_vc_allocator r) (m_vc_round_robin r) (outFlitQueue r) (outCreditQueue r) (inNetLink r) (outNetLink r) (inCreditLink r) (outCreditLink r) (m_stall_queue r) (m_stall_count r) (m_ni_out_vcs r) (m_ni_out_vcs_enqueue_time r) (inNode_ptr r) (outNode_ptr r) (vc_busy_counter r) v.

Record NIWorld := mkNIWorld { w_stats : NetStats; w_mrkd : list Z }.

(** ** Construction *)

Definition NetworkInterface_new (id virt_nets vcs_per_vnet deadlock_threshold : Z) : NetworkInterface :=
  let num_vcs := vcs_per_vnet * virt_nets in
  mkNetworkInterface id virt_nets vcs_per_vnet num_vcs deadlock_threshold (-1) []
    (replicate (Z.to_nat virt_nets) 0) 0 flitBuffer_new flitBuffer_new (-1) (-1) (-1) (-1)
    [] (replicate (Z.to_nat virt_nets) 0) (replicate (Z.to_nat num_vcs) flitBuffer_new)
    (replicate (Z.to_nat num_vcs) INFINITE_) [] [] (replicate (Z.to_nat virt_nets) 0) [].

Definition NetworkInterface_init (c : Config) (ni : NetworkInterface) : result NetworkInterface :=
  st ← for_range (Z.to_nat (m_num_vcs ni)) 0 (fun i l => o ← OutVcState_new i c; Ok (l ++ [o])) (m_out_vc_state ni);
  Ok (with_m_out_vc_state st ni).

Definition NI_addInPort (in_ref credit_ref : Z) (in_link : NetworkLink flit) (credit_link : NetworkLink Credit) (ni : NetworkInterface)
  : NetworkLink flit * NetworkLink Credit * NetworkInterface :=
  (setLinkConsumer (CNI (m_id ni)) in_link, setSourceQueue (QNICredit (m_id ni)) credit_link,
   with_outCreditLink credit_ref (with_inNetLink in_ref ni)).

Definition NI_addOutPort (out_ref credit_ref : Z) (out_link : NetworkLink flit) (credit_link : NetworkLink Credit) (router_id : Z)
    (ni : NetworkInterface) : NetworkLink flit * NetworkLink Credit * NetworkInterface :=
  (setSourceQueue (QNIOut (m_id ni)) out_link, setLinkConsumer (CNI (m_id ni)) credit_link,
   with_m_router_id router_id
     (with_outFlitQueue flitBuffer_new
        (with_outNetLink out_ref (with_inCreditLink credit_ref ni)))).

(** [setConsumer] on every protocol buffer of a list that is not null. *)
Fixpoint set_consumers (c : ConsumerRef) (l : list (option MessageBuffer)) : result (list (option MessageBuffer)) :=
  match l with
  | [] => Ok []
  | None :: l' => r ← set_consumers c l'; Ok (None :: r)
  | Some b :: l' => b' ← setConsumer c b; r ← set_consumers c l'; Ok (Some b' :: r)
  end.

Definition addNode (in_ out : list (option MessageBuffer)) (ni : NetworkInterface) : result NetworkInterface :=
  in' ← set_consumers (CNI (m_id ni)) in_;
  Ok (with_outNode_ptr out (with_inNode_ptr in' ni)).

Definition NI_schedule (evs : list Event) (ni : NetworkInterface) : NetworkInterface :=
  with_m_events (m_events ni ++ evs) ni.

(** The event a dequeue callback requests: wake the NI in the next cycle. *)
Definition dequeueCallback (cur : Z) (ni : NetworkInterface) : NetworkInterface :=
  NI_schedule [(CNI (m_id ni), cyc_add cur 1)] ni.

Definition NI_get_vnet (vc : Z) (ni : NetworkInterface) : result Z :=
  r ← for_ctl (Z.to_nat (m_virtual_networks ni)) 0
        (fun i (_ : unit) =>
           Ok (if (i * m_vc_per_vnet ni <=? vc) && (vc <? (i + 1) * m_vc_per_vnet ni) then Brk i else Cont tt)) tt;
  match r with Brk i => Ok i | Cont _ => Err EFatal end.

Section NetworkInterface.
Context {MT : MachineTypes}.
Context (c : Config) (cur : Z).
(** [GarnetNetwork::get_router_id]: the router of a network interface. *)
Context (get_router_id : Z -> result Z).
(** The flags of [RubySystem] and the random delay of an enqueue by this NI in this cycle. *)
Context (ruby_randomization warmup_enabled : bool) (rnd : Z).

(** ** Injection *)

(** Round-robin search for an idle output VC of the vnet, -1 if there is none. *)
Fixpoint calculateVC_loop (n : nat) (vnet : Z) (ni : NetworkInterface) : result (Z * NetworkInterface) :=
  match n with
  | O => busy ← vec_modify (vc_busy_counter ni) vnet (fun x => x + 1); Ok (-1, with_vc_busy_counter busy ni)
  | S n' =>
      delta ← vec_get (m_vc_allocator ni) vnet;
      alloc ← vec_set (m_vc_allocator ni) vnet (if delta + 1 =? m_vc_per_vnet ni then 0 else delta + 1);
      let ni1 := with_m_vc_allocator alloc ni in
      let vc := vnet * m_vc_per_vnet ni + delta in
      o ← vec_get (m_out_vc_state ni1) vc;
      if isInState IDLE_ cur o then
        busy ← vec_set (vc_busy_counter ni1) vnet 0; Ok (vc, with_vc_busy_counter busy ni1)
      else calculateVC_loop n' vnet ni1
  end.

Definition calculateVC (vnet : Z) (ni : NetworkInterface) : result (Z * NetworkInterface) :=
  calculateVC_loop (Z.to_nat (m_vc_per_vnet ni)) vnet ni.

(** The single destination of [destID] among the machine types ([None] when no type has it). *)
Definition personal_dest_of (destID : Z) (personal_dest : NetDest) : result (option NetDest) :=
  r ← for_ctl (Z.to_nat MachineType_NUM) 0
        (fun m (_ : unit) =>
           if (MachineType_base_number m <=? destID) && (destID <? MachineType_base_number (m + 1)) then
             d ← NetDest.add (mkMachineID m (destID - MachineType_base_number m)) (NetDest.clear personal_dest);
             Ok (Brk d)
           else Ok (Cont tt)) tt;
  Ok (match r with Brk d => Some d | Cont _ => None end).

(** Multicast: the message for one destination, and the original message without it. *)
Definition split_message (multicast : bool) (destID : Z) (msg : Message) : result (Message * Message) :=
  if multicast then
    empty ← NetDest.resize;
    p ← personal_dest_of destID empty;
    let '(personal_dest, new_msg) :=
      match p with Some d => (d, with_destination d msg) | None => (empty, msg) end in
    rest ← removeNetDest (destination msg) personal_dest;
    Ok (new_msg, with_destination rest msg)
  else Ok (msg, msg).

(** Is the next flit marked?  Then the router's budget goes down by one. *)
Definition take_mark (ni : NetworkInterface) (w : NIWorld) : result (bool * NIWorld) :=
  if sim_type c =? 2 then
    if warmup_cycles c <? cur then
      n ← vec_at (w_mrkd w) (m_router_id ni);
      if 0 <? n then
        l ← vec_set (w_mrkd w) (m_router_id ni) (n - 1); Ok (true, mkNIWorld (w_stats w) l)
      else Ok (false, w)
    else Ok (false, w)
  else Ok (false, w).

(** One flit of a packet into output VC [vc]. *)
Definition inject_flit (i vc vnet num_flits : Z) (route : RouteInfo) (new_msg : Message) (msg_time : Z)
    (ni : NetworkInterface) (w : NIWorld) : result (NetworkInterface * NIWorld) :=
  '(marked, w1) ← take_mark ni w;
  let fl := flit_new i vc vnet route num_flits new_msg cur marked in
  s1 ← increment_injected_flits vnet marked (m_router_id ni) (w_stats w1);
  delay ← cyc_sub cur msg_time;
  let fl := Flit.set_src_delay delay fl in
  vcs ← vec_modify (m_ni_out_vcs ni) vc (insert fl);
  s2 ← (if is_tail fl then increment_injected_packets vnet marked s1 else Ok s1);
  Ok (with_m_ni_out_vcs vcs ni, mkNIWorld s2 (w_mrkd w1)).

(** [num_flits] is computed from the message size and then forced to 1 by the code.  The size type is one of the 17 sizes, for
    which the computation returns; [MessageSizeType_NUM], on which it would panic, is not the size of a message. *)
Definition num_flits_of (msg : Message) : Z := 1.

(** One destination of the message, in output VC [vc]. *)
Definition send_to (vc vnet destID : Z) (multicast : bool) (msg : Message) (ni : NetworkInterface) (w : NIWorld)
  : result (Message * NetworkInterface * NIWorld) :=
  '(new_msg, msg') ← split_message multicast destID msg;
  dest_router ← get_router_id destID;
  let route := mkRouteInfo vnet (destination new_msg) (m_id ni) (m_router_id ni) destID dest_router (-1) in
  '(ni2, w2) ← for_range (Z.to_nat (num_flits_of msg)) 0
                 (fun i '(ni, w) => inject_flit i vc vnet (num_flits_of msg) route new_msg (msg_time msg) ni w) (ni, w);
  times ← vec_set (m_ni_out_vcs_enqueue_time ni2) vc cur;
  st ← vec_modify (m_out_vc_state ni2) vc (setState ACTIVE_ cur);
  Ok (msg', with_m_out_vc_state st (with_m_ni_out_vcs_enqueue_time times ni2), w2).

(** The loop over destinations: [false] when it runs out of output VCs. *)
Fixpoint flitisize_loop (dests : list Z) (multicast : bool) (vnet : Z) (msg : Message) (ni : NetworkInterface) (w : NIWorld)
  : result (bool * Message * NetworkInterface * NIWorld) :=
  match dests with
  | [] => Ok (true, msg, ni, w)
  | destID :: dests' =>
      '(vc, ni1) ← calculateVC vnet ni;
      if vc =? -1 then Ok (false, msg, ni1, w)
      else
        '(msg', ni2, w') ← send_to vc vnet destID multicast msg ni1 w;
        flitisize_loop dests' multicast vnet msg' ni2 w'
  end.

Definition flitisizeMessage (msg : Message) (vnet : Z) (ni : NetworkInterface) (w : NIWorld)
  : result (bool * Message * NetworkInterface * NIWorld) :=
  dest_nodes ← getAllDest (destination msg);
  flitisize_loop dest_nodes (1 <? vsize dest_nodes) vnet msg ni w.

(** ** The out link *)

(** In an ordered vnet no VC with a ready flit was filled earlier. *)
Fixpoint oldest_in_vnet (n : nat) (t_vc vc : Z) (ni : NetworkInterface) : result bool :=
  match n with
  | O => Ok true
  | S n' =>
      b ← vec_get (m_ni_out_vcs ni) t_vc;
      if FlitBuffer.isReady cur b then
        t1 ← vec_get (m_ni_out_vcs_enqueue_time ni) t_vc;
        t2 ← vec_get (m_ni_out_vcs_enqueue_time ni) vc;
        if t1 <? t2 then Ok false else oldest_in_vnet n' (t_vc + 1) vc ni
      else oldest_in_vnet n' (t_vc + 1) vc ni
  end.

Definition is_candidate_vc (vc : Z) (ni : NetworkInterface) : result bool :=
  t_vnet ← NI_get_vnet vc ni;
  ordered ← isVNetOrdered t_vnet c;
  if ordered : bool then
    oldest_in_vnet (Z.to_nat (m_vc_per_vnet ni)) (t_vnet * m_vc_per_vnet ni) vc ni
  else Ok true.

(** The flit of [vc] goes to the out link. *)
Definition send_flit (vc : Z) (ni : NetworkInterface) : result NetworkInterface :=
  let ni1 := with_m_vc_round_robin vc ni in
  st ← vec_update (m_out_vc_state ni1) vc OutVcState.decrement_credit;
  b ← vec_get (m_ni_out_vcs ni1) vc;
  '(t_flit, b') ← FlitBuffer.getTopFlit b;
  vcs ← vec_set (m_ni_out_vcs ni1) vc b';
  let t_flit := Flit.set_time (cyc_add cur 1) t_flit in
  let ni2 := NI_schedule [(CNetLink (outNetLink ni1), cyc_add cur 1)]
               (with_outFlitQueue (insert t_flit (outFlitQueue ni1))
                  (with_m_ni_out_vcs vcs (with_m_out_vc_state st ni1))) in
  if is_tail t_flit then
    times ← vec_set (m_ni_out_vcs_enqueue_time ni2) vc INFINITE_; Ok (with_m_ni_out_vcs_enqueue_time times ni2)
  else Ok ni2.

Fixpoint output_link_search (n : nat) (vc : Z) (ni : NetworkInterface) : result NetworkInterface :=
  match n with
  | O => Ok ni
  | S n' =>
      let vc := if vc + 1 =? m_num_vcs ni then 0 else vc + 1 in
      b ← vec_get (m_ni_out_vcs ni) vc;
      ready ← (if FlitBuffer.isReady cur b then
                 o ← vec_get (m_out_vc_state ni) vc;
                 if OutVcState.has_credit o then is_candidate_vc vc ni else Ok false
               else Ok false);
      if ready : bool then send_flit vc ni else output_link_search n' vc ni
  end.

Definition scheduleOutputLink (ni : NetworkInterface) : result NetworkInterface :=
  output_link_search (Z.to_nat (m_num_vcs ni)) (m_vc_round_robin ni) ni.

(** Wake up again when a message or a flit waits. *)
Definition checkReschedule (ni : NetworkInterface) : NetworkInterface :=
  let waiting_msg := existsb (fun o => match o with Some b => MessageBuffer.isReady cur b | None => false end) (inNode_ptr ni) in
  let waiting_flit := existsb (FlitBuffer.isReady (cyc_add cur 1)) (m_ni_out_vcs ni) in
  if waiting_msg || waiting_flit then NI_schedule [(CNI (m_id ni), cyc_add cur 1)] ni else ni.

(** ** Ejection *)

Definition sendCredit (t_flit : flit) (is_free : bool) (ni : NetworkInterface) : NetworkInterface :=
  with_outCreditQueue (insert (Credit_new (Flit.m_vc t_flit) is_free cur) (outCreditQueue ni)) ni.

Definition incrementStats (t_flit : flit) (w : NIWorld) : result NIWorld :=
  let vnet := Flit.m_vnet t_flit in
  let marked := m_marked t_flit in
  assert_ ((sim_type c =? 2) || (sim_type c =? 1)) ;;
  s1 ← increment_received_flits (w_mrkd w) vnet marked (w_stats w);
  d ← cyc_sub (m_dequeue_time t_flit) (Flit.m_enqueue_time t_flit);
  network_delay ← cyc_sub d 1;
  dest_queueing_delay ← cyc_sub cur (m_dequeue_time t_flit);
  let queueing_delay := cyc_add (src_delay t_flit) dest_queueing_delay in
  let total_delay := cyc_add queueing_delay network_delay in
  s2 ← increment_flit_network_latency network_delay vnet marked s1;
  s3 ← increment_flit_queueing_latency queueing_delay vnet marked s2;
  let s4 := update_flit_queueing_latency_histogram queueing_delay marked
              (update_flit_network_latency_histogram network_delay marked
                 (update_flit_latency_histogram total_delay marked s3)) in
  let s5 := if (sim_type c =? 2) && (warmup_cycles c <? cur) then check_network_saturation cur s4 else s4 in
  s6 ← (if is_tail t_flit then
          a ← increment_received_packets vnet marked s5;
          b ← increment_packet_network_latency network_delay vnet marked a;
          increment_packet_queueing_latency queueing_delay vnet marked b
        else Ok s5);
  Ok (mkNIWorld (increment_total_hops (hops_traversed (m_route t_flit)) marked s6) (w_mrkd w)).

(** The protocol buffer of a vnet; dereferencing a null or missing pointer is undefined. *)
Definition out_node (vnet : Z) (ni : NetworkInterface) : result MessageBuffer :=
  o ← vec_get (outNode_ptr ni) vnet;
  match o with Some b => Ok b | None => Err EIndex end.

Definition set_out_node (vnet : Z) (b : MessageBuffer) (ni : NetworkInterface) : result NetworkInterface :=
  l ← vec_set (outNode_ptr ni) vnet (Some b); Ok (with_outNode_ptr l ni).

(** Room for one message of the flit's vnet; the check itself counts refusals. *)
Definition has_room (vnet : Z) (ni : NetworkInterface) : result (bool * NetworkInterface) :=
  b ← out_node vnet ni;
  let '(ok, b') := areNSlotsAvailable 1 cur b in
  ni' ← set_out_node vnet b' ni;
  Ok (ok, ni').

(** Enqueue the message, return the credit, update the statistics. *)
Definition eject (t_flit : flit) (ni : NetworkInterface) (w : NIWorld) : result (NetworkInterface * NIWorld) :=
  let vnet := Flit.m_vnet t_flit in
  b ← out_node vnet ni;
  '(b', evs) ← enqueue ruby_randomization warmup_enabled rnd (m_msg_ptr t_flit) cur 1 b;
  ni1 ← set_out_node vnet b' ni;
  w' ← incrementStats t_flit w;
  Ok (sendCredit t_flit true (NI_schedule evs ni1), w').

(** The first stalled flit whose buffer has room is ejected; at most one per cycle.
    [done_] are the flits already skipped. *)
Fixpoint stall_search (done_ todo : list flit) (ni : NetworkInterface) (w : NIWorld)
  : result (bool * NetworkInterface * NIWorld) :=
  match todo with
  | [] => Ok (false, ni, w)
  | stallFlit :: rest =>
      let vnet := Flit.m_vnet stallFlit in
      '(ok, ni1) ← has_room vnet ni;
      if ok : bool then
        '(ni2, w') ← eject stallFlit ni1 w;
        counts ← vec_modify (m_stall_count ni2) vnet (fun n => n - 1);
        let ni3 := with_m_stall_count counts (with_m_stall_queue (done_ ++ rest) ni2) in
        n ← vec_get counts vnet;
        ni4 ← (if n =? 0 then b ← out_node vnet ni3; set_out_node vnet (unregisterDequeueCallback b) ni3 else Ok ni3);
        Ok (true, ni4, w')
      else stall_search (done_ ++ [stallFlit]) rest ni1 w
  end.

Definition checkStallQueue (ni : NetworkInterface) (w : NIWorld) : result (bool * NetworkInterface * NIWorld) :=
  stall_search [] (m_stall_queue ni) ni w.

(** A flit that finds no room waits, and asks to be told when its buffer drains. *)
Definition stall (t_flit : flit) (ni : NetworkInterface) : result NetworkInterface :=
  let vnet := Flit.m_vnet t_flit in
  counts ← vec_modify (m_stall_count ni) vnet (fun n => n + 1);
  let ni1 := with_m_stall_count counts (with_m_stall_queue (m_stall_queue ni ++ [t_flit]) ni) in
  b ← out_node vnet ni1;
  set_out_node vnet (registerDequeueCallback (CNI (m_id ni)) b) ni1.

Definition receive_flit (messageEnqueuedThisCycle : bool) (in_link : NetworkLink flit) (ni : NetworkInterface) (w : NIWorld)
  : result (NetworkLink flit * NetworkInterface * NIWorld) :=
  if NetworkLink.isReady cur in_link then
    '(t0, link') ← consumeLink in_link;
    let t_flit := Flit.set_dequeue_time cur t0 in
    if is_tail t_flit then
      '(ok, ni1) ← (if messageEnqueuedThisCycle then Ok (false, ni) else has_room (Flit.m_vnet t_flit) ni);
      if ok : bool then '(ni2, w') ← eject t_flit ni1 w; Ok (link', ni2, w')
      else ni2 ← stall t_flit ni1; Ok (link', ni2, w)
    else
      w' ← incrementStats t_flit w; Ok (link', sendCredit t_flit false ni, w')
  else Ok (in_link, ni, w).

Definition receive_credit (credit_link : NetworkLink Credit) (ni : NetworkInterface)
  : result (NetworkLink Credit * NetworkInterface) :=
  if NetworkLink.isReady cur credit_link then
    '(t_credit, link') ← consumeLink credit_link;
    st ← vec_update (m_out_vc_state ni) (c_vc t_credit)
           (fun o => o1 ← OutVcState.increment_credit o;
                     Ok (if m_is_free_signal t_credit then setState IDLE_ cur o1 else o1));
    Ok (link', with_m_out_vc_state st ni)
  else Ok (credit_link, ni).

(** ** Wakeup *)

(** One message per vnet is picked up; the front message keeps the destinations that could
    not be sent. *)
Definition pick_up (vnet : Z) (ni : NetworkInterface) (w : NIWorld) : result (NetworkInterface * NIWorld) :=
  o ← vec_get (inNode_ptr ni) vnet;
  match o with
  | None => Ok (ni, w)
  | Some b =>
      if MessageBuffer.isReady cur b then
        msg ← peekMsgPtr b;
        '(done_, msg', ni1, w') ← flitisizeMessage msg vnet ni w;
        let b1 := set_front msg' b in
        '(b2, evs) ← (if done_ : bool then '(_, b2, evs) ← dequeue cur cur true b1; Ok (b2, evs) else Ok (b1, []));
        l ← vec_set (inNode_ptr ni1) vnet (Some b2);
        Ok (NI_schedule evs (with_inNode_ptr l ni1), w')
      else Ok (ni, w)
  end.

Definition wakeup (in_link : NetworkLink flit) (credit_link : NetworkLink Credit) (ni : NetworkInterface) (w : NIWorld)
  : result (NetworkLink flit * NetworkLink Credit * NetworkInterface * NIWorld) :=
  '(ni1, w1) ← for_range (length (inNode_ptr ni)) 0 (fun vnet '(ni, w) => pick_up vnet ni w) (ni, w);
  ni2 ← scheduleOutputLink ni1;
  let ni3 := checkReschedule ni2 in
  '(enqueued, ni4, w4) ← checkStallQueue ni3 w1;
  '(in_link', ni5, w5) ← receive_flit enqueued in_link ni4 w4;
  '(credit_link', ni6) ← receive_credit credit_link ni5;
  let ni7 := if 0 <? FlitBuffer.getSize (outCreditQueue ni6)
             then NI_schedule [(CCreditLink (outCreditLink ni6), cyc_add cur 1)] ni6 else ni6 in
  Ok (in_link', credit_link', ni7, w5).
End NetworkInterface.

Definition NI_functionalWrite (write : flit -> bool * flit) (ni : NetworkInterface) : Z * NetworkInterface :=
  let rs := map (FlitBuffer.functionalWrite write) (m_ni_out_vcs ni) in
  let '(n, q) := FlitBuffer.functionalWrite write (outFlitQueue ni) in
  (u32 (foldr (fun r k => u32 (r.1 + k)) 0 rs + n),
   with_outFlitQueue q (with_m_ni_out_vcs (map snd rs) ni)).
