(* ===== verification/Topology.v ===== *)
(** * [Topology] (mem/ruby/network/Topology.hh, Topology.cc)

    The links of the configuration are collected in a map from pairs of switch ids.  Switch ids
    0..n-1 stand for the injection side of the n nodes, n..2n-1 for their ejection side, and
    router r is 2n+r.  [createLinks] computes all-pairs shortest paths over the link weights and
    makes the network's links, each with the set of nodes it leads to on a shortest path: the
    routing tables. *)

From S2P Require Import Prelude NetDest Flit.
Local Open Scope Z_scope.

Definition INFINITE_LATENCY : Z := 10000.

Abbreviation IntMatrix := (list (list Z)).

(** ** Links and networks

    A link of the configuration has a latency and a weight, and what the kind of network adds
    to it, of type [L].  [NetworkOps] is the part of the abstract class [Network] that the
    topology calls to make the links of a network of type [N]. *)
Record BasicLink (L : Type) := mkBasicLink { bl_latency : Z; bl_weight : Z; bl_link : L }.
Arguments mkBasicLink {L}.
Arguments bl_latency {L}.
Arguments bl_weight {L}.
Arguments bl_link {L}.

Class NetworkOps (L N : Type) := {
  net_makeExtInLink : Z -> Z -> BasicLink L -> NetDest -> N -> result N;
  net_makeExtOutLink : Z -> Z -> BasicLink L -> NetDest -> N -> result N;
  net_makeInternalLink : Z -> Z -> BasicLink L -> NetDest -> PortDirection -> PortDirection -> N -> result N
}.

Section Kind.
Context {L : Type}.

Record LinkEntry := mkLinkEntry {
  link : BasicLink L;
  src_outport_dirn : PortDirection;
  dst_inport_dirn : PortDirection
}.

Record Topology := mkTopology {
  t_nodes : Z;
  m_number_of_switches : Z;
  m_link_map : gmap (Z * Z) LinkEntry
}.

(** ** Construction *)

Definition addLink (src dest : Z) (l : BasicLink L) (src_outport dst_inport : PortDirection) (t : Topology)
  : result Topology :=
  assert_ (src <=? u32 (m_number_of_switches t + t_nodes t + t_nodes t)) ;;
  assert_ (dest <=? u32 (m_number_of_switches t + t_nodes t + t_nodes t)) ;;
  Ok (mkTopology (t_nodes t) (m_number_of_switches t) (<[(src, dest) := mkLinkEntry l src_outport dst_inport]> (m_link_map t))).

(** The parameters of an external link (machine type and version of its controller, router) and
    of an internal one (routers and ports). *)
Record ExtLinkParams := mkExtLinkParams { ext_type : Z; ext_version : Z; int_node : Z; ext_link : BasicLink L }.
Record IntLinkParams := mkIntLinkParams {
  src_node : Z; dst_node : Z; src_outport : PortDirection; dst_inport : PortDirection; int_link : BasicLink L
}.

Section Build.
Context {MT : MachineTypes}.

Definition add_ext_link (t : Topology) (p : ExtLinkParams) : result Topology :=
  let ext_idx1 := MachineType_base_number (ext_type p) + ext_version p in
  let ext_idx2 := u32 (ext_idx1 + t_nodes t) in
  let int_idx := u32 (int_node p + 2 * t_nodes t) in
  t1 ← addLink (u32 ext_idx1) int_idx (ext_link p) "" "" t;
  addLink int_idx ext_idx2 (ext_link p) "" "" t1.

Definition add_int_link (t : Topology) (p : IntLinkParams) : result Topology :=
  addLink (u32 (src_node p + 2 * t_nodes t)) (u32 (dst_node p + 2 * t_nodes t)) (int_link p)
    (src_outport p) (dst_inport p) t.

Definition Topology_new (num_routers : Z) (ext_links : list ExtLinkParams) (int_links : list IntLinkParams)
  : result Topology :=
  let m_nodes := u32 (MachineType_base_number MachineType_NUM) in
  assert_ (1 <? m_nodes) ;;
  t1 ← foldM add_ext_link ext_links (mkTopology m_nodes num_routers ∅);
  foldM add_int_link int_links t1.
End Build.
End Kind.
Arguments LinkEntry : clear implicits.
Arguments Topology : clear implicits.
Arguments ExtLinkParams : clear implicits.
Arguments IntLinkParams : clear implicits.

(** ** All-pairs shortest paths *)

Record Paths := mkPaths { dist : IntMatrix; latencies : IntMatrix; inter_switches : IntMatrix }.

(** The loop over intermediate switches for one pair: the minimum so far, the switch it goes
    through (-1 for none) and the counts of intermediate switches. *)
Definition relax_through (i j : Z) (d : IntMatrix) (k : Z) (s : Z * Z * IntMatrix) : result (Z * Z * IntMatrix) :=
  let '(minimum, intermediate_switch, inter) := s in
  dik ← mat_get d i k;
  dkj ← mat_get d k j;
  let minimum' := Z.min minimum (dik + dkj) in
  if minimum =? minimum' then Ok (minimum', intermediate_switch, inter)
  else
    iik ← mat_get inter i k;
    ikj ← mat_get inter k j;
    inter' ← mat_set inter i j (iik + ikj + 1);
    Ok (minimum', k, inter').

Definition relax_pair (nodes i j : Z) (s : Paths * bool) : result (Paths * bool) :=
  let '(p, change) := s in
  dij ← mat_get (dist p) i j;
  '(minimum, k, inter) ← for_range (Z.to_nat nodes) 0 (relax_through i j (dist p)) (dij, -1, inter_switches p);
  if dij =? minimum then Ok (mkPaths (dist p) (latencies p) inter, change)
  else
    d' ← mat_set (dist p) i j minimum;
    assert_ (0 <=? k) ;;
    row ← vec_get (latencies p) i;
    assert_ (k <? vsize row) ;;
    lik ← mat_get (latencies p) i k;
    lkj ← mat_get (latencies p) k j;
    l' ← mat_set (latencies p) i j (lik + lkj);
    Ok (mkPaths d' l' inter, true).

(** One iteration of [while (change)]. *)
Definition relax_all (p : Paths) : result (Paths * bool) :=
  let nodes := vsize (dist p) in
  for_range (Z.to_nat nodes) 0 (fun i s => for_range (Z.to_nat nodes) 0 (fun j s => relax_pair nodes i j s) s) (p, false).

Fixpoint extend_shortest_path (fuel : nat) (p : Paths) : result Paths :=
  match fuel with
  | O => Err EFuel
  | S fuel' => '(p', change) ← relax_all p; if change : bool then extend_shortest_path fuel' p' else Ok p'
  end.

Definition shortest_path (fuel : nat) (weights latencies inter : IntMatrix) : result Paths :=
  extend_shortest_path fuel (mkPaths weights latencies inter).

Definition link_is_shortest_path_to_node (src next final : Z) (weights dist : IntMatrix) : result bool :=
  w ← mat_get weights src next;
  d1 ← mat_get dist next final;
  d2 ← mat_get dist src final;
  Ok (w + d1 =? d2).

Section Tables.
Context {MT : MachineTypes}.

(** The loop over the nodes of machine type [m]; the second component counts all nodes. *)
Definition add_nodes_of (src next : Z) (weights dist : IntMatrix) (m : Z) (s : NetDest * Z) : result (NetDest * Z) :=
  for_range (Z.to_nat (MachineType_base_count m)) 0
    (fun i '(nd, d) =>
       b ← link_is_shortest_path_to_node src next (d + MachineType_base_number MachineType_NUM) weights dist;
       nd' ← (if b : bool then NetDest.add (mkMachineID m i) nd else Ok nd);
       Ok (nd', d + 1)) s.

Definition shortest_path_to_node (src next : Z) (weights dist : IntMatrix) : result NetDest :=
  nd0 ← NetDest.resize;
  '(nd, _) ← for_range (Z.to_nat MachineType_NUM) 0 (add_nodes_of src next weights dist) (nd0, 0);
  Ok nd.

(** ** The links *)

Context {L N : Type} {NO : NetworkOps L N}.

(** A switch pair without an entry has a null link. *)
Definition entry (t : Topology L) (src dest : Z) : result (LinkEntry L) :=
  match m_link_map t !! (src, dest) with Some e => Ok e | None => Err EIndex end.

Definition makeLink (t : Topology L) (src dest : Z) (routing_table_entry : NetDest) (net : N)
  : result N :=
  let n := t_nodes t in
  assert_ ((2 * n <=? src) || (2 * n <=? dest)) ;;
  if src <? n then
    e ← entry t src dest;
    net_makeExtInLink src (dest - 2 * n) (link e) routing_table_entry net
  else if dest <? 2 * n then
    assert_ (n <=? dest) ;;
    e ← entry t src dest;
    net_makeExtOutLink (src - 2 * n) (dest - n) (link e) routing_table_entry net
  else
    assert_ ((2 * n <=? src) && (2 * n <=? dest)) ;;
    e ← entry t src dest;
    net_makeInternalLink (src - 2 * n) (dest - 2 * n) (link e) routing_table_entry (src_outport_dirn e) (dst_inport_dirn e) net.

Definition max_switch_id (t : Topology L) : Z :=
  foldr (fun '((s, d), _) m => Z.max (Z.max m s) d) 0 (map_to_list (m_link_map t)).

Definition const_matrix (n x : Z) : IntMatrix := replicate (Z.to_nat n) (replicate (Z.to_nat n) x).

(** The weight and latency matrices: identity weights zero, then one entry per link. *)
Definition fill_matrices (t : Topology L) (num_switches : Z) : result (IntMatrix * IntMatrix) :=
  w0 ← for_range (Z.to_nat num_switches) 0 (fun i m => mat_set m i i 0) (const_matrix num_switches INFINITE_LATENCY);
  foldM (fun '(w, l) '((src, dst), e) =>
    l' ← mat_set l src dst (bl_latency (link e));
    w' ← mat_set w src dst (bl_weight (link e));
    Ok (w', l')) (map_to_list (m_link_map t)) (w0, const_matrix num_switches (-1)).

(** The network link of switch pair (i, j), if there is one. *)
Definition hook_up (t : Topology L) (weights dist : IntMatrix) (i j : Z) (net : N) : result N :=
  weight ← mat_get weights i j;
  if (0 <? weight) && negb (weight =? INFINITE_LATENCY) then
    destination_set ← shortest_path_to_node i j weights dist;
    makeLink t i j destination_set net
  else Ok net.

(** [fuel] bounds the iterations of [while (change)]. *)
Definition createLinks (fuel : nat) (t : Topology L) (net : N) : result N :=
  let num_switches := max_switch_id t + 1 in
  '(weights, lats) ← fill_matrices t num_switches;
  p ← shortest_path fuel weights lats (const_matrix num_switches 0);
  for_range (Z.to_nat num_switches) 0 (fun i net =>
    for_range (Z.to_nat num_switches) 0 (fun j net => hook_up t weights (dist p) i j net) net) net.
End Tables.
