(* ===== verification/GarnetNetwork.v ===== *)
(** * [GarnetNetwork] (GarnetNetwork.hh, GarnetNetwork.cc)

    The network owns the routers, the links, the credit links, the network interfaces, the
    bubbles and the statistics.  Construction ties the ports of routers and interfaces to
    links; a link is named by its position in [m_networklinks] or [m_creditlinks].  Routers
    reach each other through the network (adaptive routing reads a neighbour's free VCs), so
    route computation is a function on the network.  [random ()] of the C library is the
    parameter [rand], the sequence of numbers it returns; [m_rand] counts the draws.
    The last part makes it a network whose links the topology makes (GarnetLink.hh) and sets it up. *)

From S2P Require Import Topology.
From S2P Require Import Prelude Flit FlitBuffer NetDest Consumer Config RoutingUnit MeshRouting NetworkLink.
From S2P Require Import OutputUnit InputUnit RouterState MessageBuffer NetStats NetworkInterface Double.
Local Open Scope Z_scope.

Record brownian_bubble := mkbrownian_bubble {
  bubble_id : Z;
  router_id : Z;
  inport_id : Z;
  last_inport_id : Z;
  inport_dirn : PortDirection;
  last_inport_dirn : PortDirection;
  last_intra_movement_cycle : Z;
  last_inter_movement_cycle : Z;
  sense_inc : bool
}.

Definition with_bubble_id (v : Z) (r : brownian_bubble) : brownian_bubble :=
  mkbrownian_bubble v (router_id r) (inport_id r) (last_inport_id r) (inport_dirn r) (last_inport_dirn r) (last_intra_movement_cycle r) (last_inter_movement_cycle r) (sense_inc r).
Definition with_router_id (v : Z) (r : brownian_bubble) : brownian_bubble :=
  mkbrownian_bubble (bubble_id r) v (inport_id r) (last_inport_id r) (inport_dirn r) (last_inport_dirn r) (last_intra_movement_cycle r) (last_inter_movement_cycle r) (sense_inc r).
Definition with_inport_id (v : Z) (r : brownian_bubble) : brownian_bubble :=
  mkbrownian_bubble (bubble_id r) (router_id r) v (last_inport_id r) (inport_dirn r) (last_inport_dirn r) (last_intra_movement_cycle r) (last_inter_movement_cycle r) (sense_inc r).
Definition with_last_inport_id (v : Z) (r : brownian_bubble) : brownian_bubble :=
  mkbrownian_bubble (bubble_id r) (router_id r) (inport_id r) v (inport_dirn r) (last_inport_dirn r) (last_intra_movement_cycle r) (last_inter_movement_cycle r) (sense_inc r).
Definition with_inport_dirn (v : PortDirection) (r : brownian_bubble) : brownian_bubble :=
  mkbrownian_bubble (bubble_id r) (router_id r) (inport_id r) (last_inport_id r) v (last_inport_dirn r) (last_intra_movement_cycle r) (last_inter_movement_cycle r) (sense_inc r).
Definition with_last_inport_dirn (v : PortDirection) (r : brownian_bubble) : brownian_bubble :=
  mkbrownian_bubble (bubble_id r) (router_id r) (inport_id r) (last_inport_id r) (inport_dirn r) v (last_intra_movement_cycle r) (last_inter_movement_cycle r) (sense_inc r).
Definition with_last_intra_movement_cycle (v : Z) (r : brownian_bubble) : brownian_bubble :=
  mkbrownian_bubble (bubble_id r) (router_id r) (inport_id r) (last_inport_id r) (inport_dirn r) (last_inport_dirn r) v (last_inter_movement_cycle r) (sense_inc r).
Definition with_last_inter_movement_cycle (v : Z) (r : brownian_bubble) : brownian_bubble :=
  mkbrownian_bubble (bubble_id r) (router_id r) (inport_id r) (last_inport_id r) (inport_dirn r) (last_inport_dirn r) (last_intra_movement_cycle r) v (sense_inc r).
Definition with_sense_inc (v : bool) (r : brownian_bubble) : brownian_bubble :=
  mkbrownian_bubble (bubble_id r) (router_id r) (inport_id r) (last_inport_id r) (inport_dirn r) (last_inport_dirn r) (last_intra_movement_cycle r) (last_inter_movement_cycle r) v.


(** What [bubble.resize(m_num_bubble)] fills the vector with. *)
Definition brownian_bubble_new : brownian_bubble := mkbrownian_bubble 0 0 0 0 "" "" 0 0 false.

Record GarnetNetwork := mkGarnetNetwork {
  g_config : Config;
  m_nodes : Z;
  m_routers : list Router;
  m_networklinks : list (NetworkLink flit);
  m_creditlinks : list (NetworkLink Credit);
  m_nis : list NetworkInterface;
  bubble : list brownian_bubble;
  m_bubble_init : bool;
  last_inter_bubble_movement : Z;
  last_intra_bubble_movement : Z;
  g_stats : NetStats;
  m_rand : nat
}.

Definition with_g_config (v : Config) (r : GarnetNetwork) : GarnetNetwork :=
  mkGarnetNetwork v (m_nodes r) (m_routers r) (m_networklinks r) (m_creditlinks r) (m_nis r) (bubble r) (m_bubble_init r) (last_inter_bubble_movement r) (last_intra_bubble_movement r) (g_stats r) (m_rand r).
Definition with_m_nodes (v : Z) (r : GarnetNetwork) : GarnetNetwork :=
  mkGarnetNetwork (g_config r) v (m_routers r) (m_networklinks r) (m_creditlinks r) (m_nis r) (bubble r) (m_bubble_init r) (last_inter_bubble_movement r) (last_intra_bubble_movement r) (g_stats r) (m_rand r).
Definition with_m_routers (v : list Router) (r : GarnetNetwork) : GarnetNetwork :=
  mkGarnetNetwork (g_config r) (m_nodes r) v (m_networklinks r) (m_creditlinks r) (m_nis r) (bubble r) (m_bubble_init r) (last_inter_bubble_movement r) (last_intra_bubble_movement r) (g_stats r) (m_rand r).
Definition with_m_networklinks (v : list (NetworkLink flit)) (r : GarnetNetwork) : GarnetNetwork :=
  mkGarnetNetwork (g_config r) (m_nodes r) (m_routers r) v (m_creditlinks r) (m_nis r) (bubble r) (m_bubble_init r) (last_inter_bubble_movement r) (last_intra_bubble_movement r) (g_stats r) (m_rand r).
Definition with_m_creditlinks (v : list (NetworkLink Credit)) (r : GarnetNetwork) : GarnetNetwork :=
  mkGarnetNetwork (g_config r) (m_nodes r) (m_routers r) (m_networklinks r) v (m_nis r) (bubble r) (m_bubble_init r) (last_inter_bubble_movement r) (last_intra_bubble_movement r) (g_stats r) (m_rand r).
Definition with_m_nis (v : list NetworkInterface) (r : GarnetNetwork) : GarnetNetwork :=
  mkGarnetNetwork (g_config r) (m_nodes r) (m_routers r) (m_networklinks r) (m_creditlinks r) v (bubble r) (m_bubble_init r) (last_inter_bubble_movement r) (last_intra_bubble_movement r) (g_stats r) (m_rand r).
Definition with_bubble (v : list brownian_bubble) (r : GarnetNetwork) : GarnetNetwork :=
  mkGarnetNetwork (g_config r) (m_nodes r) (m_routers r) (m_networklinks r) (m_creditlinks r) (m_nis r) v (m_bubble_init r) (last_inter_bubble_movement r) (last_intra_bubble_movement r) (g_stats r) (m_rand r).
Definition with_m_bubble_init (v : bool) (r : GarnetNetwork) : GarnetNetwork :=
  mkGarnetNetwork (g_config r) (m_nodes r) (m_routers r) (m_networklinks r) (m_creditlinks r) (m_nis r) (bubble r) v (last_inter_bubble_movement r) (last_intra_bubble_movement r) (g_stats r) (m_rand r).
Definition with_last_inter_bubble_movement (v : Z) (r : GarnetNetwork) : GarnetNetwork :=
  mkGarnetNetwork (g_config r) (m_nodes r) (m_routers r) (m_networklinks r) (m_creditlinks r) (m_nis r) (bubble r) (m_bubble_init r) v (last_intra_bubble_movement r) (g_stats r) (m_rand r).
Definition with_last_intra_bubble_movement (v : Z) (r : GarnetNetwork) : GarnetNetwork :=
  mkGarnetNetwork (g_config r) (m_nodes r) (m_routers r) (m_networklinks r) (m_creditlinks r) (m_nis r) (bubble r) (m_bubble_init r) (last_inter_bubble_movement r) v (g_stats r) (m_rand r).
Definition with_g_stats (v : NetStats) (r : GarnetNetwork) : GarnetNetwork :=
  mkGarnetNetwork (g_config r) (m_nodes r) (m_routers r) (m_networklinks r) (m_creditlinks r) (m_nis r) (bubble r) (m_bubble_init r) (last_inter_bubble_movement r) (last_intra_bubble_movement r) v (m_rand r).
Definition with_m_rand (v : nat) (r : GarnetNetwork) : GarnetNetwork :=
  mkGarnetNetwork (g_config r) (m_nodes r) (m_routers r) (m_networklinks r) (m_creditlinks r) (m_nis r) (bubble r) (m_bubble_init r) (last_inter_bubble_movement r) (last_intra_bubble_movement r) (g_stats r) v.


(** ** Construction *)

(** [nodes] is the number of protocol controllers ([Network::m_nodes]). *)
Definition GarnetNetwork_new (p : GarnetParams) (nodes : Z) (routers : list Router) (nis : list NetworkInterface)
  : result GarnetNetwork :=
  c ← GarnetNetwork_config p;
  Ok (mkGarnetNetwork c nodes routers [] [] nis
        (replicate (Z.to_nat (m_num_bubble c)) brownian_bubble_new) false 0 0
        (NetStats_new (Config.m_virtual_networks c) (vsize routers)) 0).

Definition on_router (id : Z) (f : Router -> result Router) (g : GarnetNetwork) : result GarnetNetwork :=
  l ← vec_update (m_routers g) id f; Ok (with_m_routers l g).

(** Both links of a connection join the network's vectors once their ends are set. *)
Definition push_links (net_link : NetworkLink flit) (credit_link : NetworkLink Credit) (g : GarnetNetwork)
  : GarnetNetwork :=
  with_m_networklinks (m_networklinks g ++ [net_link])
    (with_m_creditlinks (m_creditlinks g ++ [credit_link]) g).

(** A link from a network interface into router [dest]. *)
Definition makeExtInLink (src dest : Z) (net_link : NetworkLink flit) (credit_link : NetworkLink Credit)
    (g : GarnetNetwork) : result GarnetNetwork :=
  assert_ (src <? m_nodes g) ;;
  let net_link := setType EXT_IN_ net_link in
  let nref := vsize (m_networklinks g) in
  let cref := vsize (m_creditlinks g) in
  r ← vec_get (m_routers g) dest;
  '(nl1, cl1, r') ← addInPort "Local" nref cref net_link credit_link r;
  routers ← vec_set (m_routers g) dest r';
  ni ← vec_get (m_nis g) src;
  let '(nl2, cl2, ni') := NI_addOutPort nref cref nl1 cl1 dest ni in
  nis ← vec_set (m_nis g) src ni';
  Ok (push_links nl2 cl2 (with_m_nis nis (with_m_routers routers g))).

(** A link from router [src] to a network interface. *)
Definition makeExtOutLink (src dest : Z) (net_link : NetworkLink flit) (credit_link : NetworkLink Credit)
    (link_weight : Z) (routing_table_entry : NetDest) (g : GarnetNetwork) : result GarnetNetwork :=
  assert_ (dest <? m_nodes g) ;;
  assert_ (src <? vsize (m_routers g)) ;;
  let net_link := setType EXT_OUT_ net_link in
  let nref := vsize (m_networklinks g) in
  let cref := vsize (m_creditlinks g) in
  r ← vec_get (m_routers g) src;
  '(nl1, cl1, r') ← addOutPort "Local" nref cref net_link routing_table_entry link_weight credit_link (g_config g) r;
  routers ← vec_set (m_routers g) src r';
  ni ← vec_get (m_nis g) dest;
  let '(nl2, cl2, ni') := NI_addInPort nref cref nl1 cl1 ni in
  nis ← vec_set (m_nis g) dest ni';
  Ok (push_links nl2 cl2 (with_m_nis nis (with_m_routers routers g))).

(** A unidirectional link between two routers, with its credit link the other way. *)
Definition makeInternalLink (src dest : Z) (net_link : NetworkLink flit) (credit_link : NetworkLink Credit)
    (link_weight : Z) (routing_table_entry : NetDest) (src_outport_dirn dst_inport_dirn : PortDirection)
    (g : GarnetNetwork) : result GarnetNetwork :=
  let net_link := set_link_src_dest src dest (setType INT_ net_link) in
  let nref := vsize (m_networklinks g) in
  let cref := vsize (m_creditlinks g) in
  rd ← vec_get (m_routers g) dest;
  '(nl1, cl1, rd') ← addInPort dst_inport_dirn nref cref net_link credit_link rd;
  routers1 ← vec_set (m_routers g) dest rd';
  rs ← vec_get routers1 src;
  '(nl2, cl2, rs') ← addOutPort src_outport_dirn nref cref nl1 routing_table_entry link_weight cl1 (g_config g) rs;
  routers2 ← vec_set routers1 src rs';
  Ok (push_links nl2 cl2 (with_m_routers routers2 g)).

(** The end of [init], once the topology has created the links. *)
Definition init_topology (g : GarnetNetwork) : result GarnetNetwork :=
  c ← init_dimensions (vsize (m_routers g)) (g_config g); Ok (with_g_config c g).

(** ** Access *)

Definition getNumRouters (g : GarnetNetwork) : Z := vsize (m_routers g).

Definition get_router_id (ni : Z) (g : GarnetNetwork) : result Z :=
  n ← vec_get (m_nis g) ni; Ok (m_router_id n).

Definition get_RouterInDirn (outport_dir : PortDirection) (my_id : Z) (g : GarnetNetwork) : result Z :=
  get_RouterInDirn_id (m_num_cols (g_config g)) (vsize (m_routers g)) outport_dir my_id.

Section Random.
Context (rand : nat -> Z) (cur : Z).

(** One call of [random ()]. *)
Definition random (g : GarnetNetwork) : Z * GarnetNetwork := (rand (m_rand g), with_m_rand (S (m_rand g)) g).

(** The opposite port: a router's East output feeds its neighbour's West input. *)
Definition opposite (d : PortDirection) : PortDirection :=
  (if String.eqb d "East" then "West" else if String.eqb d "West" then "East"
   else if String.eqb d "North" then "South" else "North")%string.

(** [get_RouterInDirn(d, my_id)->get_numFreeVC(opposite d)] *)
Definition neighbour_freeVC (my_id : Z) (d : PortDirection) (g : GarnetNetwork) : result (Z * GarnetNetwork) :=
  n ← get_RouterInDirn d my_id g;
  r ← vec_get (m_routers g) n;
  '(free, r') ← RouterState.get_numFreeVC (opposite d) r;
  l ← vec_set (m_routers g) n r';
  Ok (free, with_m_routers l g).

(** [getNumFreeVCs(vnet)] of output unit [link] of router [rid]. *)
Definition output_freeVCs (rid vnet link : Z) (g : GarnetNetwork) : result Z :=
  r ← vec_get (m_routers g) rid;
  ou ← vec_get (m_output_unit r) link;
  getNumFreeVCs cur vnet ou.

(** [Router::route_compute] of router [rid]. *)
Definition route_compute (rid : Z) (route : RouteInfo) (inport : Z) (inport_dirn : PortDirection)
    (g : GarnetNetwork) : result (Z * GarnetNetwork) :=
  r ← vec_get (m_routers g) rid;
  '(outport, ru, g1) ←
    outportCompute random (neighbour_freeVC (RouterState.m_id r))
      (routing_algorithm_of (m_routing_algorithm (g_config g)))
      (m_num_rows (g_config g)) (m_num_cols (g_config g)) (RouterState.m_id r)
      (output_freeVCs rid (vnet route)) route (m_routing_unit r) g;
  g2 ← on_router rid (fun r => Ok (with_m_routing_unit ru r)) g1;
  Ok (outport, g2).
End Random.

(** ** The links of a topology

    The casts of a link to its kind stop the simulation when they fail. *)

(** [GarnetExtLink] carries links in both directions, [GarnetIntLink] in one. *)
Inductive garnet_link :=
  | GarnetExtLink (net_in net_out : NetworkLink flit) (credit_in credit_out : NetworkLink Credit)
  | GarnetIntLink (net : NetworkLink flit) (credit : NetworkLink Credit).

#[export] Instance GarnetNetwork_ops : NetworkOps garnet_link GarnetNetwork := {|
  net_makeExtInLink src dest l _ g :=
    match bl_link l with
    | GarnetExtLink net_in _ credit_in _ => makeExtInLink src dest net_in credit_in g
    | GarnetIntLink _ _ => Err EAssert
    end;
  net_makeExtOutLink src dest l entry g :=
    match bl_link l with
    | GarnetExtLink _ net_out _ credit_out => makeExtOutLink src dest net_out credit_out (bl_weight l) entry g
    | GarnetIntLink _ _ => Err EAssert
    end;
  net_makeInternalLink src dest l entry src_outport dst_inport g :=
    match bl_link l with
    | GarnetIntLink nl cl => makeInternalLink src dest nl cl (bl_weight l) entry src_outport dst_inport g
    | GarnetExtLink _ _ _ _ => Err EAssert
    end
|}.

(** *** Initialisation *)

(** Every interface gets the protocol's buffers of its node. *)
Definition add_nodes (toNetQueues fromNetQueues : list (list (option MessageBuffer))) (g : GarnetNetwork) : result GarnetNetwork :=
  for_range (Z.to_nat (m_nodes g)) 0 (fun i g =>
    ni ← vec_get (m_nis g) i;
    to ← vec_get toNetQueues i;
    from ← vec_get fromNetQueues i;
    ni' ← addNode to from ni;
    nis ← vec_set (m_nis g) i ni';
    Ok (with_m_nis nis g)) g.

(** [GarnetNetwork::init], without a fault model. *)
Definition GarnetNetwork_init {MT : MachineTypes} (fuel : nat) (toNetQueues fromNetQueues : list (list (option MessageBuffer)))
    (t : Topology garnet_link) (g : GarnetNetwork) : result GarnetNetwork :=
  g1 ← add_nodes toNetQueues fromNetQueues g;
  g2 ← createLinks fuel t g1;
  init_topology g2.

(** ** Statistics and functional accesses *)

(** The statistics that only [collateStats] writes. *)
Record CollatedStats := mkCollatedStats {
  m_total_ext_in_link_utilization : Z;
  m_total_ext_out_link_utilization : Z;
  m_total_int_link_utilization : Z;
  m_average_link_utilization : double;
  m_average_vc_load : list double
}.

Definition CollatedStats_new (vcs : Z) : CollatedStats :=
  mkCollatedStats 0 0 0 (double_of_int 0) (replicate (Z.to_nat vcs) (double_of_int 0)).

(** The totals of external links into and out of the network and of internal links. *)
Definition count_activity (type : link_type) (activity : Z) (totals : Z * Z * Z) : Z * Z * Z :=
  let '(ext_in, ext_out, int) := totals in
  match type with
  | EXT_IN_ => (ext_in + activity, ext_out, int)
  | EXT_OUT_ => (ext_in, ext_out + activity, int)
  | INT_ => (ext_in, ext_out, int + activity)
  | NUM_LINK_TYPES_ => totals
  end.

Definition add_vc_load (time_delta : double) (vc_load : list Z) (loads : list double) : result (list double) :=
  for_range (length vc_load) 0 (fun j loads =>
    n ← vec_get vc_load j;
    vec_modify loads j (fun x => double_add x (double_div (double_of_int n) time_delta))) loads.

Definition collate_link (time_delta : double) (s : CollatedStats) (l : NetworkLink flit) : result CollatedStats :=
  let activity := i32 (m_link_utilized l) in
  let '(ext_in, ext_out, int) := count_activity (m_type l) activity
    (m_total_ext_in_link_utilization s, m_total_ext_out_link_utilization s, m_total_int_link_utilization s) in
  loads ← add_vc_load time_delta (m_vc_load l) (m_average_vc_load s);
  Ok (mkCollatedStats ext_in ext_out int
        (double_add (m_average_link_utilization s) (double_div (double_of_int activity) time_delta)) loads).

(** [start] is the cycle at which RubySystem began to count. *)
Definition collateStats (cur start : Z) (s : CollatedStats) (g : GarnetNetwork) : result (CollatedStats * GarnetNetwork) :=
  delta ← cyc_sub cur start;
  s' ← foldM (collate_link (double_of_int delta)) (m_networklinks g) s;
  routers ← mapM Router_collateStats (m_routers g);
  Ok (s', with_m_routers routers g).

Definition functionalRead (g : GarnetNetwork) : bool := existsb Router_functionalRead (m_routers g).

Definition functionalWrite (write : flit -> bool * flit) (g : GarnetNetwork) : Z * GarnetNetwork :=
  let rs := map (Router_functionalWrite write) (m_routers g) in
  let ns := map (NI_functionalWrite write) (m_nis g) in
  let ls := map (NetworkLink.functionalWrite write) (m_networklinks g) in
  let sum {A} (l : list (Z * A)) := foldr (fun x n => x.1 + n) 0 l in
  (u32 (sum rs + sum ns + sum ls),
   with_m_networklinks (map snd ls) (with_m_nis (map snd ns) (with_m_routers (map snd rs) g))).

(** ** The averages of [regStats]

    A formula of the statistics package is a tree; its value is a vector, of one element for a
    scalar (BinaryNode and SumNode of base/statistics.hh). *)
Inductive StatNode :=
  | VectorStat (v : list Z)
  | ScalarStat (z : Z)
  | SumNode (n : StatNode)
  | DivNode (a b : StatNode)
  | AddNode (a b : StatNode).

(** Element by element, a single element being used for all; nothing for lengths that differ. *)
Definition binary_result (op : double -> double -> double) (l r : list double) : result (list double) :=
  assert_ (negb (vsize l =? 0) && negb (vsize r =? 0)) ;;
  Ok (match l, r with
      | [x], _ => map (op x) r
      | _, [y] => map (fun x => op x y) l
      | _, _ => if vsize l =? vsize r then zip_with op l r else []
      end).

Fixpoint node_result (n : StatNode) : result (list double) :=
  match n with
  | VectorStat v => Ok (map double_of_int v)
  | ScalarStat z => Ok [double_of_int z]
  | SumNode n =>
      v ← node_result n;
      assert_ (negb (vsize v =? 0)) ;;
      Ok [foldl double_add (double_of_int 0) v]
  | DivNode a b => l ← node_result a; r ← node_result b; binary_result double_div l r
  | AddNode a b => l ← node_result a; r ← node_result b; binary_result double_add l r
  end.

Section Formulas.
Context (s : NetStats).

Definition m_avg_packet_vnet_latency : StatNode :=
  DivNode (VectorStat (m_packet_network_latency s)) (VectorStat (m_packets_received s)).
Definition m_avg_packet_vqueue_latency : StatNode :=
  DivNode (VectorStat (m_packet_queueing_latency s)) (VectorStat (m_packets_received s)).
Definition m_avg_packet_network_latency : StatNode :=
  DivNode (SumNode (VectorStat (m_packet_network_latency s))) (SumNode (VectorStat (m_packets_received s))).
Definition m_avg_packet_queueing_latency : StatNode :=
  DivNode (SumNode (VectorStat (m_packet_queueing_latency s))) (SumNode (VectorStat (m_packets_received s))).
Definition m_avg_packet_latency : StatNode := AddNode m_avg_packet_network_latency m_avg_packet_queueing_latency.
Definition m_avg_marked_pkt_network_latency : StatNode :=
  DivNode (SumNode (VectorStat (m_marked_pkt_network_latency s))) (SumNode (VectorStat (m_marked_pkt_received s))).
Definition m_avg_marked_pkt_queueing_latency : StatNode :=
  DivNode (SumNode (VectorStat (m_marked_pkt_queueing_latency s))) (SumNode (VectorStat (m_marked_pkt_received s))).
Definition m_avg_marked_pkt_latency : StatNode :=
  AddNode m_avg_marked_pkt_network_latency m_avg_marked_pkt_queueing_latency.
Definition m_avg_flit_vnet_latency : StatNode :=
  DivNode (VectorStat (m_flit_network_latency s)) (VectorStat (m_flits_received s)).
Definition m_avg_flit_vqueue_latency : StatNode :=
  DivNode (VectorStat (m_flit_queueing_latency s)) (VectorStat (m_flits_received s)).
Definition m_avg_flit_network_latency : StatNode :=
  DivNode (SumNode (VectorStat (m_flit_network_latency s))) (SumNode (VectorStat (m_flits_received s))).
Definition m_avg_flit_queueing_latency : StatNode :=
  DivNode (SumNode (VectorStat (m_flit_queueing_latency s))) (SumNode (VectorStat (m_flits_received s))).
Definition m_avg_flit_latency : StatNode := AddNode m_avg_flit_network_latency m_avg_flit_queueing_latency.
Definition m_avg_marked_flt_network_latency : StatNode :=
  DivNode (SumNode (VectorStat (m_marked_flt_network_latency s))) (SumNode (VectorStat (m_marked_flt_received s))).
Definition m_avg_marked_flt_queueing_latency : StatNode :=
  DivNode (SumNode (VectorStat (m_marked_flt_queueing_latency s))) (SumNode (VectorStat (m_marked_flt_received s))).
Definition m_avg_marked_flt_latency : StatNode :=
  AddNode m_avg_marked_flt_network_latency m_avg_marked_flt_queueing_latency.
Definition m_avg_hops : StatNode := DivNode (ScalarStat (m_total_hops s)) (SumNode (VectorStat (m_flits_received s))).
Definition m_marked_avg_hops : StatNode :=
  DivNode (ScalarStat (m_marked_total_hops s)) (SumNode (VectorStat (m_marked_flt_received s))).
End Formulas.

(** *** What the reports add up *)

(** The links of one type. *)
Definition activity_of (type : link_type) (ls : list (NetworkLink flit)) : Z :=
  foldr (fun l n => (if decide (m_type l = type) then m_link_utilized l else 0) + n) 0 ls.

Definition counters_small (l : NetworkLink flit) (loads : Z) : Prop :=
  0 <= m_link_utilized l < 2 ^ 31 /\ vsize (m_vc_load l) <= loads.

Lemma add_vc_load_ok delta vc_load loads : vsize vc_load <= vsize loads ->
  exists loads', add_vc_load delta vc_load loads = Ok loads' /\ vsize loads' = vsize loads.
Proof.
  intros H. unfold add_vc_load.
  apply (for_range_total (fun _ loads' => vsize loads' = vsize loads)); [done|]. intros k l Hk Hl.
  destruct (vec_get_in_range vc_load k) as [n ->]; [unfold vsize in *; lia|]. cbn [mbind result_bind].
  destruct (vec_get_in_range l k) as [x Hx]; [unfold vsize in *; lia|].
  erewrite vec_modify_Ok by done. eexists. split; [done|]. by rewrite vsize_insert.
Qed.

(** Collating returns, and adds to each total the activity of the links of its type. *)
Lemma collate_links_ok delta ls s : Forall (fun l => counters_small l (vsize (m_average_vc_load s))) ls ->
  exists s', foldM (collate_link delta) ls s = Ok s' /\ vsize (m_average_vc_load s') = vsize (m_average_vc_load s) /\
    m_total_ext_in_link_utilization s' = m_total_ext_in_link_utilization s + activity_of EXT_IN_ ls /\
    m_total_ext_out_link_utilization s' = m_total_ext_out_link_utilization s + activity_of EXT_OUT_ ls /\
    m_total_int_link_utilization s' = m_total_int_link_utilization s + activity_of INT_ ls.
Proof.
  revert s. induction ls as [|l ls IH]; intros s Hall; cbn [foldM].
  { exists s. unfold activity_of. cbn [foldr]. rewrite !Z.add_0_r. done. }
  apply Forall_cons in Hall as [[Hu Hv] Hall].
  destruct (add_vc_load_ok delta (m_vc_load l) (m_average_vc_load s) Hv) as (loads & Hloads & Hsize).
  assert (Ha : i32 (m_link_utilized l) = m_link_utilized l) by (unfold i32; rewrite Z.mod_small; lia).
  assert (exists s1, collate_link delta s l = Ok s1 /\ m_average_vc_load s1 = loads /\
    m_total_ext_in_link_utilization s1 = m_total_ext_in_link_utilization s + (if decide (m_type l = EXT_IN_) then m_link_utilized l else 0) /\
    m_total_ext_out_link_utilization s1 = m_total_ext_out_link_utilization s + (if decide (m_type l = EXT_OUT_) then m_link_utilized l else 0) /\
    m_total_int_link_utilization s1 = m_total_int_link_utilization s + (if decide (m_type l = INT_) then m_link_utilized l else 0))
    as (s1 & -> & Hl1 & H1 & H2 & H3).
  { unfold collate_link. rewrite Ha, Hloads. cbn [mbind result_bind].
    destruct (m_type l); (eexists; split_and!; [done..| | |]; cbn; repeat case_decide; try done; lia). }
  cbn [mbind result_bind]. destruct (IH s1) as (s' & -> & Hs & E1 & E2 & E3).
  { by rewrite Hl1, Hsize. }
  exists s'. unfold activity_of in *. cbn [foldr]. split_and!; [done | by rewrite Hs, Hl1 | lia..].
Qed.

(** The averages over all virtual networks have a value as soon as there is one network. *)
Lemma average_result v w : v <> [] -> w <> [] ->
  node_result (DivNode (SumNode (VectorStat v)) (SumNode (VectorStat w))) =
  Ok [double_div (foldl double_add (double_of_int 0) (map double_of_int v))
        (foldl double_add (double_of_int 0) (map double_of_int w))].
Proof. intros Hv Hw. destruct v, w; done. Qed.
