(* ===== verification/ShortestPaths.v ===== *)
(** * The theory of the topology: shortest paths and the routing tables made from them *)

From S2P Require Import Prelude RubySet NetDest NetDestTheory Flit Consumer Config NetworkLink GarnetNetwork.
From S2P Require Import Topology.
Local Open Scope Z_scope.

(** ** All-pairs shortest paths ([Topology::extend_shortest_path])

    The loop relaxes the distance matrix in place until nothing changes.  It ends because every
    iteration with a change lowers the sum of all distances; the matrix it ends with holds the
    weight of a shortest walk for every pair, and the latency and number of intermediate
    switches of such a walk. *)

(** The value of a cell. *)
Definition cell (m : IntMatrix) (i j : Z) : Z := match mat_get m i j with Ok x => x | Err _ => 0 end.

Lemma cell_get n m i j : mat_ok n n m -> 0 <= i < n -> 0 <= j < n -> mat_get m i j = Ok (cell m i j).
Proof. intros Hm Hi Hj. unfold cell. by destruct (mat_get_total _ _ _ i j Hm Hi Hj) as [a ->]. Qed.

Lemma cell_set n m i j a : mat_ok n n m -> 0 <= i < n -> 0 <= j < n ->
  exists m', mat_set m i j a = Ok m' /\ mat_ok n n m' /\ cell m' i j = a /\
    forall i' j', ~ (i' = i /\ j' = j) -> cell m' i' j' = cell m i' j'.
Proof.
  intros Hm Hi Hj. destruct (mat_set_total n n m i j a Hm Hi Hj) as (m' & -> & Hm' & Hget & Hne).
  exists m'. split_and!; [done | done | unfold cell; by rewrite Hget|]. intros i' j' Hd. unfold cell. by rewrite Hne.
Qed.

(** *** The sum of all cells *)

Definition row_total (l : list Z) : Z := foldr Z.add 0 l.
Definition total (m : IntMatrix) : Z := foldr (fun row s => row_total row + s) 0 m.

Lemma row_total_insert l i a b : l !! i = Some a -> row_total (<[i := b]> l) = row_total l - a + b.
Proof.
  revert i. induction l as [|x l IH]; intros [|i] Hi; [done | done | cbn in *; simplify_eq; lia|].
  change (x + row_total (<[i := b]> l) = x + row_total l - a + b). rewrite (IH i Hi). lia.
Qed.

Lemma total_insert m i r r' : m !! i = Some r -> total (<[i := r']> m) = total m - row_total r + row_total r'.
Proof.
  revert i. induction m as [|x m IH]; intros [|i] Hi; [done | done | cbn in *; simplify_eq; lia|].
  change (row_total x + total (<[i := r']> m) = row_total x + total m - row_total r + row_total r'). rewrite (IH i Hi). lia.
Qed.

Lemma total_set m i j a b m' : mat_get m i j = Ok a -> mat_set m i j b = Ok m' -> total m' = total m - a + b.
Proof.
  unfold mat_get, mat_set, vec_update. intros (row & Hrow & Ha)%bind_Ok Hs. rewrite Hrow in Hs. cbn [mbind result_bind] in Hs.
  apply bind_Ok in Hs as (row' & [_ ->]%vec_set_Ok & [_ ->]%vec_set_Ok).
  apply vec_get_Ok in Hrow as [_ Hrow]. apply vec_get_Ok in Ha as [_ Ha].
  rewrite (total_insert _ _ _ _ Hrow), (row_total_insert _ _ _ _ Ha). lia.
Qed.

Lemma cells_Forall n (m : IntMatrix) (P : Z -> Prop) :
  mat_ok n n m -> (forall i j, 0 <= i < n -> 0 <= j < n -> P (cell m i j)) -> Forall (Forall P) m.
Proof.
  intros [Hn Hrows] Hc. apply Forall_lookup. intros i row Hi. apply Forall_lookup. intros j x Hj.
  pose proof (Forall_lookup_1 _ _ _ _ Hrows Hi) as Hl. cbn in Hl.
  pose proof (lookup_lt_Some _ _ _ Hi). pose proof (lookup_lt_Some _ _ _ Hj). unfold vsize in *.
  specialize (Hc (Z.of_nat i) (Z.of_nat j) ltac:(lia) ltac:(lia)). unfold cell, mat_get in Hc.
  rewrite (proj2 (vec_get_Ok m (Z.of_nat i) row)) in Hc by (rewrite Nat2Z.id; split; [lia | done]). cbn in Hc.
  by rewrite (proj2 (vec_get_Ok row (Z.of_nat j) x)) in Hc by (rewrite Nat2Z.id; split; [lia | done]).
Qed.

Lemma total_nonneg n m : mat_ok n n m -> (forall i j, 0 <= i < n -> 0 <= j < n -> 0 <= cell m i j) -> 0 <= total m.
Proof.
  intros Hm Hc. pose proof (cells_Forall n m (fun x => 0 <= x) Hm Hc) as Hr.
  clear -Hr. induction Hr as [|row m Hrow _ IH]; cbn; [lia|]. fold (total m) in *.
  assert (0 <= row_total row); [|lia]. clear -Hrow. induction Hrow as [|x row Hx _ IHr]; cbn; [lia|]. fold (row_total row). lia.
Qed.

Lemma const_matrix_ok n x : 0 <= n -> mat_ok n n (const_matrix n x).
Proof.
  intros Hn. unfold const_matrix. split; [unfold vsize; rewrite length_replicate; lia|].
  apply Forall_replicate. unfold vsize. rewrite length_replicate. lia.
Qed.

Lemma const_matrix_cell n x i j : 0 <= i < n -> 0 <= j < n -> cell (const_matrix n x) i j = x.
Proof.
  intros Hi Hj. unfold cell, mat_get, const_matrix.
  rewrite (proj2 (vec_get_Ok _ i (replicate (Z.to_nat n) x))) by (rewrite lookup_replicate; split; [lia | split; [done | lia]]).
  cbn [mbind result_bind]. by rewrite (proj2 (vec_get_Ok _ j x)) by (rewrite lookup_replicate; split; [lia | split; [done | lia]]).
Qed.

Section ShortestPaths.
Context (n : Z) (W L : IntMatrix).

(** A walk over the given weights and latencies: ends, weight, latency, number of hops. *)
Inductive walk : Z -> Z -> Z -> Z -> Z -> Prop :=
  | walk_hop i j : 0 <= i < n -> 0 <= j < n -> walk i j (cell W i j) (cell L i j) 1
  | walk_app i k j w1 l1 h1 w2 l2 h2 : walk i k w1 l1 h1 -> walk k j w2 l2 h2 -> walk i j (w1 + w2) (l1 + l2) (h1 + h2).

Record paths_ok (p : Paths) : Prop := {
  po_dist : mat_ok n n (dist p);
  po_lat : mat_ok n n (latencies p);
  po_inter : mat_ok n n (inter_switches p);
  po_nonneg : forall i j, 0 <= i < n -> 0 <= j < n -> 0 <= cell (dist p) i j <= cell W i j;
  po_walk : forall i j, 0 <= i < n -> 0 <= j < n ->
    walk i j (cell (dist p) i j) (cell (latencies p) i j) (cell (inter_switches p) i j + 1)
}.

Definition triangle (p : Paths) (i j : Z) : Prop :=
  forall k, 0 <= k < n -> cell (dist p) i j <= cell (dist p) i k + cell (dist p) k j.

(** *** One pair *)

Lemma relax_through_spec p i j : paths_ok p -> 0 <= i < n -> 0 <= j < n ->
  exists minimum k inter,
    for_range (Z.to_nat n) 0 (relax_through i j (dist p)) (cell (dist p) i j, -1, inter_switches p) = Ok (minimum, k, inter) /\
    (forall k', 0 <= k' < n -> minimum <= cell (dist p) i k' + cell (dist p) k' j) /\
    ((minimum = cell (dist p) i j /\ inter = inter_switches p) \/
     (0 <= k < n /\ minimum = cell (dist p) i k + cell (dist p) k j /\ minimum < cell (dist p) i j /\ mat_ok n n inter /\
      cell inter i j = cell (inter_switches p) i k + cell (inter_switches p) k j + 1 /\
      forall i' j', ~ (i' = i /\ j' = j) -> cell inter i' j' = cell (inter_switches p) i' j')).
Proof.
  intros Hp Hi Hj. pose proof (po_nonneg _ Hp) as Hnn. set (D := cell (dist p)) in *. set (I0 := cell (inter_switches p)) in *.
  destruct (for_range_total (fun x '(minimum, k, inter) => minimum <= D i j /\
      (forall k', 0 <= k' < x -> minimum <= D i k' + D k' j) /\ mat_ok n n inter /\
      (forall i' j', ~ (i' = i /\ j' = j) -> cell inter i' j' = I0 i' j') /\
      ((minimum = D i j /\ inter = inter_switches p) \/
       (0 <= k < n /\ minimum = D i k + D k j /\ minimum < D i j /\ cell inter i j = I0 i k + I0 k j + 1)))
    (relax_through i j (dist p)) (Z.to_nat n) 0 (D i j, -1, inter_switches p)) as ([[minimum k] inter] & Hr & Hle & Hall & Hmat & Hother & Hcase).
  - split_and!; [done | lia | apply Hp | done | by left].
  - intros x [[minimum k] inter] Hx (Hle & Hall & Hmat & Hother & Hcase). assert (Hxr : 0 <= x < n) by lia.
    unfold relax_through. rewrite (cell_get n _ i x (po_dist _ Hp) Hi Hxr), (cell_get n _ x j (po_dist _ Hp) Hxr Hj).
    cbn [mbind result_bind]. fold D. destruct (Z.eqb_spec minimum (Z.min minimum (D i x + D x j))) as [E|Hne].
    + eexists. split; [done|]. split_and!; [lia | | done | done | rewrite <- E; done].
      intros k' Hk'. destruct (decide (k' = x)) as [->|]; [lia | rewrite <- E; apply Hall; lia].
    + assert (Hix : x <> j) by (intros ->; pose proof (Hnn j j Hj Hj); lia).
      assert (Hxi : x <> i) by (intros ->; pose proof (Hnn i i Hi Hi); lia).
      rewrite (cell_get n _ i x Hmat Hi Hxr), (cell_get n _ x j Hmat Hxr Hj). cbn [mbind result_bind].
      destruct (cell_set n inter i j (cell inter i x + cell inter x j + 1) Hmat Hi Hj) as (inter' & -> & Hmat' & Hc & Hc').
      cbn [mbind result_bind]. eexists. split; [done|]. cbn beta iota. split_and!; [lia | | done | |].
      * intros k' Hk'. destruct (decide (k' = x)) as [->|]; [lia|]. specialize (Hall k' ltac:(lia)). lia.
      * intros i' j' Hd. by rewrite Hc', Hother.
      * right. split_and!; [lia.. | rewrite Hc, !Hother by (intros []; lia); done].
  - exists minimum, k, inter. split; [done|]. split; [intros k' Hk'; apply Hall; lia|].
    destruct Hcase as [[-> ->] | (Hk & Hm & Hlt & Hc)]; [by left | right].
    exact (conj Hk (conj Hm (conj Hlt (conj Hmat (conj Hc Hother))))).
Qed.

Lemma relax_pair_spec p ch i j : paths_ok p -> 0 <= i < n -> 0 <= j < n ->
  exists p' ch', relax_pair n i j (p, ch) = Ok (p', ch') /\ paths_ok p' /\
    ((p' = p /\ ch' = ch /\ triangle p i j) \/ (ch' = true /\ total (dist p') < total (dist p))).
Proof.
  intros Hp Hi Hj. unfold relax_pair. rewrite (cell_get n _ i j (po_dist _ Hp) Hi Hj). cbn [mbind result_bind].
  destruct (relax_through_spec p i j Hp Hi Hj) as (minimum & k & inter & -> & Hall & Hcase). cbn [mbind result_bind].
  destruct Hcase as [[-> ->] | (Hk & Hmin & Hlt & Hmat & Hc & Hother)].
  - rewrite Z.eqb_refl. exists p, ch. split; [by destruct p|]. split; [done|]. left. by split_and!.
  - rewrite (proj2 (Z.eqb_neq _ minimum)) by lia. destruct Hp as [Hd Hl Hin Hnn Hw].
    destruct (cell_set n (dist p) i j minimum Hd Hi Hj) as (d' & Hset & Hd' & Hdc & Hdo). rewrite Hset. cbn [mbind result_bind].
    rewrite (proj2 (Z.leb_le 0 k)) by lia. cbn [assert_ mbind result_bind].
    destruct (mat_row n n (latencies p) i Hl Hi) as (row & -> & Hrow). cbn [mbind result_bind].
    rewrite Hrow, (proj2 (Z.ltb_lt k n)) by lia. cbn [assert_ mbind result_bind].
    rewrite (cell_get n _ i k Hl Hi Hk), (cell_get n _ k j Hl Hk Hj). cbn [mbind result_bind].
    destruct (cell_set n (latencies p) i j (cell (latencies p) i k + cell (latencies p) k j) Hl Hi Hj) as (l' & -> & Hl' & Hlc & Hlo).
    cbn [mbind result_bind]. eexists _, true. split; [done|]. split.
    + split; cbn [dist latencies inter_switches]; [done | done | done | |].
      * intros i' j' Hi' Hj'. destruct (decide (i' = i /\ j' = j)) as [[-> ->]|Hne]; [|rewrite Hdo by done; by apply Hnn].
        rewrite Hdc. pose proof (Hnn i k Hi Hk). pose proof (Hnn k j Hk Hj). pose proof (Hnn i j Hi Hj). lia.
      * intros i' j' Hi' Hj'. destruct (decide (i' = i /\ j' = j)) as [[-> ->]|Hne].
        -- rewrite Hdc, Hlc, Hc, Hmin. pose proof (walk_app _ _ _ _ _ _ _ _ _ (Hw i k Hi Hk) (Hw k j Hk Hj)) as Hwk.
           by replace (cell (inter_switches p) i k + cell (inter_switches p) k j + 1 + 1)
             with (cell (inter_switches p) i k + 1 + (cell (inter_switches p) k j + 1)) by lia.
        -- rewrite Hdo, Hlo, Hother by done. by apply Hw.
    + right. split; [done|]. cbn [dist].
      rewrite (total_set _ _ _ _ _ _ (cell_get n _ i j Hd Hi Hj) Hset). lia.
Qed.

(** *** One iteration and the whole loop *)

(** What has been achieved since [p0], up to pair (i, j) in row order. *)
Definition progress (p0 : Paths) (i j : Z) (s : Paths * bool) : Prop :=
  paths_ok s.1 /\
  if s.2 then total (dist s.1) < total (dist p0)
  else s.1 = p0 /\ forall i' j', 0 <= i' < n -> 0 <= j' < n -> (i' < i \/ (i' = i /\ j' < j)) -> triangle p0 i' j'.

Lemma relax_all_spec p : paths_ok p -> exists p' ch, relax_all p = Ok (p', ch) /\ progress p n 0 (p', ch).
Proof.
  intros Hp. unfold relax_all. destruct (po_dist _ Hp) as [-> _].
  destruct (for_range_total (fun i s => progress p i 0 s)
    (fun i s => for_range (Z.to_nat n) 0 (fun j s => relax_pair n i j s) s) (Z.to_nat n) 0 (p, false)) as ([p' ch] & Hr & Hpr).
  - split; [done|]. split; [done|]. intros. lia.
  - intros i s Hi Hs. destruct (for_range_total (fun j s => progress p i j s) (fun j s => relax_pair n i j s) (Z.to_nat n) 0 s Hs)
      as (s' & Hr & Hok' & Hs').
    + intros j [q ch] Hj [Hq Hst]. cbn in Hq, Hst.
      destruct (relax_pair_spec q ch i j Hq ltac:(lia) ltac:(lia)) as (q' & ch' & Hr & Hq' & Hcase).
      exists (q', ch'). split; [done|]. split; [done|]. cbn [fst snd].
      destruct Hcase as [(-> & -> & Ht) | [-> Hlt]].
      * destruct ch; [done|]. destruct Hst as [-> Htri]. split; [done|]. intros i' j' Hi' Hj' Hlt.
        destruct (decide (i' = i /\ j' = j)) as [[-> ->]|]; [done|]. apply Htri; [done | done | lia].
      * destruct ch; [lia|]. destruct Hst as [-> _]. done.
    + exists s'. split; [done|]. split; [done|]. destruct (s'.2); [done|]. destruct Hs' as [-> Htri]. split; [done|].
      intros i' j' Hi' Hj' Hlt. apply Htri; [done | done | lia].
  - exists p', ch. split; [done|]. destruct Hpr as [H1 H2]. split; [done|]. destruct ((p', ch).2) eqn:E; [done|].
    destruct H2 as [H2 H3]. split; [done|]. intros i' j' Hi' Hj' Hlt. apply H3; [done | done | lia].
Qed.

Lemma extend_shortest_path_spec fuel p : paths_ok p -> total (dist p) < Z.of_nat fuel ->
  exists p', extend_shortest_path fuel p = Ok p' /\ paths_ok p' /\ forall i j, 0 <= i < n -> 0 <= j < n -> triangle p' i j.
Proof.
  revert p. induction fuel as [|fuel IH]; intros p Hp Hf.
  - pose proof (total_nonneg n (dist p) (po_dist _ Hp) (fun i j Hi Hj => proj1 (po_nonneg _ Hp i j Hi Hj))). lia.
  - cbn [extend_shortest_path]. destruct (relax_all_spec p Hp) as (p' & ch & -> & Hok & Hpr). cbn [fst snd] in *.
    cbn [mbind result_bind]. destruct ch.
    + apply IH; [done | lia].
    + destruct Hpr as [-> Ht]. exists p. split_and!; [done | done|]. intros i j Hi Hj. apply Ht; [done | done | lia].
Qed.

Lemma walk_ends i j w l h : walk i j w l h -> 0 <= i < n /\ 0 <= j < n.
Proof. induction 1; tauto. Qed.

Lemma triangle_optimal p : paths_ok p -> (forall i j, 0 <= i < n -> 0 <= j < n -> triangle p i j) ->
  forall i j w l h, walk i j w l h -> cell (dist p) i j <= w.
Proof.
  intros Hp Ht i j w l h Hw. induction Hw as [i j Hi Hj | i k j w1 l1 h1 w2 l2 h2 Hw1 IH1 Hw2 IH2].
  - by apply Hp.
  - destruct (walk_ends _ _ _ _ _ Hw1), (walk_ends _ _ _ _ _ Hw2). specialize (Ht i j ltac:(done) ltac:(done) k ltac:(done)). lia.
Qed.

Lemma shortest_path_spec fuel : mat_ok n n W -> mat_ok n n L -> (forall i j, 0 <= i < n -> 0 <= j < n -> 0 <= cell W i j) ->
  total W < Z.of_nat fuel ->
  exists p, shortest_path fuel W L (const_matrix n 0) = Ok p /\ paths_ok p /\
    forall i j w l h, walk i j w l h -> cell (dist p) i j <= w.
Proof.
  intros HW HL Hnn Hf. destruct (decide (0 <= n)) as [Hn|Hn]; [|destruct HW as [H _]; unfold vsize in H; lia].
  destruct (extend_shortest_path_spec fuel (mkPaths W L (const_matrix n 0))) as (p & Hp & Hok & Htri); [|done|].
  - split; cbn [dist latencies inter_switches];
      [done | done | by apply const_matrix_ok | intros i j Hi Hj; split; [by apply Hnn | done]|].
    intros i j Hi Hj. rewrite const_matrix_cell by done. by apply walk_hop.
  - exists p. split_and!; [done | done|]. by apply triangle_optimal.
Qed.
End ShortestPaths.

(** ** The routing tables made by [Topology]

    The table entry of a link names exactly the nodes that the link leads to on a shortest path.
    Following entries for a node, every hop comes closer by the weight of the link, so that the
    node is reached whatever links are chosen. *)

Section Tables.
Context {MT : MachineTypes} {MTok : MachineTypesOk MT}.

Abbreviation num_nodes := (MachineType_base_number MachineType_NUM).

(** *** Table entries *)

Section Entry.
Context (n : Z) (W D : IntMatrix) (src next : Z).
Context (HW : mat_ok n n W) (HD : mat_ok n n D) (Hn : 2 * num_nodes <= n) (Hsrc : 0 <= src < n) (Hnext : 0 <= next < n).

(** The link from [src] to [next] is on a shortest path to node [d]. *)
Definition leads_to (d : Z) : Prop :=
  0 <= d < num_nodes /\ cell W src next + cell D next (d + num_nodes) = cell D src (d + num_nodes).

Definition entry_so_far (bound : Z) (s : NetDest * Z) : Prop :=
  s.2 = bound /\ shaped s.1 /\ forall x, node s.1 x <-> x < bound /\ leads_to x.

Lemma shortest_link_total d : 0 <= d < num_nodes ->
  exists b, link_is_shortest_path_to_node src next (d + num_nodes) W D = Ok b /\ (b = true <-> leads_to d).
Proof.
  intros Hd. unfold link_is_shortest_path_to_node. assert (Hf : 0 <= d + num_nodes < n) by lia.
  rewrite (cell_get n W src next HW Hsrc Hnext). cbn [mbind result_bind].
  rewrite (cell_get n D next _ HD Hnext Hf). cbn [mbind result_bind].
  rewrite (cell_get n D src _ HD Hsrc Hf). cbn [mbind result_bind]. eexists. split; [done|].
  rewrite Z.eqb_eq. unfold leads_to. tauto.
Qed.

Lemma add_nodes_of_spec m s : 0 <= m < MachineType_NUM -> entry_so_far (MachineType_base_number m) s ->
  exists s', add_nodes_of src next W D m s = Ok s' /\ entry_so_far (MachineType_base_number (m + 1)) s'.
Proof.
  intros Hm Hs. unfold add_nodes_of. pose proof (MachineType_count_range m) as [Hc _].
  pose proof (MachineType_base_next m ltac:(lia)) as Hb. pose proof (base_nonneg m ltac:(lia)) as H0.
  assert (Hle : MachineType_base_number (m + 1) <= num_nodes) by (apply base_mono; lia).
  destruct (for_range_total (fun i s => entry_so_far (MachineType_base_number m + i) s) 
    (fun i '(nd, d) => b ← link_is_shortest_path_to_node src next (d + num_nodes) W D;
       nd' ← (if b : bool then NetDest.add (mkMachineID m i) nd else Ok nd); Ok (nd', d + 1))
    (Z.to_nat (MachineType_base_count m)) 0 s) as (s' & -> & Hs').
  - by rewrite Z.add_0_r.
  - intros i [nd d] Hi (Hd & Hsh & Hnode). cbn in Hd, Hsh, Hnode. subst d.
    destruct (shortest_link_total (MachineType_base_number m + i)) as (b & -> & Hiff); [lia|]. cbn [mbind result_bind].
    assert (Hstep : forall nd', shaped nd' ->
      (forall x, node nd' x <-> (x = MachineType_base_number m + i /\ b = true) \/ node nd x) ->
      entry_so_far (MachineType_base_number m + (i + 1)) (nd', MachineType_base_number m + i + 1)).
    { intros nd' Hsh' Hnode'. split_and!; [cbn; lia | done|]. cbn. intros x. rewrite Hnode', Hnode, Hiff. split.
      - intros [[-> Hl] | [Hx Hl]]; split; (done || lia).
      - intros [Hx Hl]. destruct (decide (x = MachineType_base_number m + i)) as [->|]; [by left | right; split; [lia | done]]. }
    destruct b.
    + destruct (add_spec nd m i Hsh Hm ltac:(lia)) as (nd' & -> & Hsh' & Hmem). cbn [mbind result_bind]. eexists. split; [done|].
      apply Hstep; [done|]. intros x. unfold node. split.
      * intros (m' & j' & [[-> ->] | Hx]%Hmem & ->); [by left | right; by exists m', j'].
      * intros [[-> _] | (m' & j' & Hx & ->)]; [exists m, i | exists m', j']; (split; [apply Hmem; tauto | done]).
    + cbn [mbind result_bind]. eexists. split; [done|]. apply Hstep; [done|]. intros x. split; [by right | by intros [[]|?]].
  - exists s'. split; [done|]. rewrite Hb. replace (MachineType_base_count m) with (0 + Z.of_nat (Z.to_nat (MachineType_base_count m))) by lia.
    done.
Qed.

Lemma shortest_path_to_node_spec :
  exists nd, shortest_path_to_node src next W D = Ok nd /\ shaped nd /\ forall x, node nd x <-> leads_to x.
Proof.
  unfold shortest_path_to_node. destruct resize_spec as (nd0 & -> & Hsh & Hno). cbn [mbind result_bind].
  pose proof MachineType_NUM_nonneg as HN.
  destruct (for_range_total (fun m s => entry_so_far (MachineType_base_number m) s) (add_nodes_of src next W D)
    (Z.to_nat MachineType_NUM) 0 (nd0, 0)) as ([nd d] & -> & Hd & Hsh' & Hnode).
  - split_and!; [cbn; by rewrite MachineType_base_first | done|]. cbn. intros x. rewrite MachineType_base_first. split.
    + intros (m & j & Hx & _). by apply Hno in Hx.
    + intros [Hx [? _]]. lia.
  - intros m s Hm Hs. apply add_nodes_of_spec; [lia | done].
  - cbn [mbind result_bind]. exists nd. split_and!; [done | done|]. intros x. cbn in Hnode. rewrite Hnode.
    rewrite Z.add_0_l, Z2Nat.id by lia. split; [by intros [] | intros Hx; split; [apply Hx | done]].
Qed.
End Entry.

(** *** Routes along table entries *)

Section Routes.
Context (n : Z) (W L : IntMatrix) (p : Paths).
Context (HW : mat_ok n n W) (Hp : paths_ok n W L p) (Hn : 2 * num_nodes <= n).
Context (Hopt : forall i j w l h, walk n W L i j w l h -> cell (dist p) i j <= w).
Context (Hdiag : forall i, 0 <= i < n -> cell W i i = 0) (Hpos : forall i j, 0 <= i < n -> 0 <= j < n -> i <> j -> 0 < cell W i j).

(** The switch that stands for node [d], and a hop the tables offer to it. *)
Definition sink (d : Z) : Z := d + num_nodes.
Definition table_hop (d i j : Z) : Prop :=
  0 <= i < n /\ 0 <= j < n /\ 0 < cell W i j /\ cell W i j <> INFINITE_LATENCY /\
  exists nd, shortest_path_to_node i j W (dist p) = Ok nd /\ node nd d.

Inductive table_route (d : Z) : nat -> Z -> Z -> Prop :=
  | table_route_nil i : table_route d 0 i i
  | table_route_cons k i j x : table_hop d i j -> table_route d k j x -> table_route d (S k) i x.

Lemma dist_triangle i k j : 0 <= i < n -> 0 <= k < n -> 0 <= j < n -> cell (dist p) i j <= cell (dist p) i k + cell (dist p) k j.
Proof.
  intros Hi Hk Hj. eapply Hopt. eapply walk_app; [by apply (po_walk _ _ _ _ Hp) | by apply (po_walk _ _ _ _ Hp)].
Qed.

Lemma first_link i j w l h : walk n W L i j w l h -> i <> j ->
  exists k, 0 <= k < n /\ k <> i /\ cell W i k + cell (dist p) k j <= w.
Proof.
  induction 1 as [i j Hi Hj | i k j w1 l1 h1 w2 l2 h2 Hw1 IH1 Hw2 IH2]; intros Hne.
  - exists j. split_and!; [lia | lia | done|]. pose proof (po_nonneg _ _ _ _ Hp j j Hj Hj). rewrite (Hdiag j Hj) in *. lia.
  - destruct (walk_ends _ _ _ _ _ _ _ _ Hw1) as [Hi Hk]. destruct (walk_ends _ _ _ _ _ _ _ _ Hw2) as [_ Hj].
    assert (0 <= w1) by (pose proof (Hopt _ _ _ _ _ Hw1); pose proof (po_nonneg _ _ _ _ Hp i k Hi Hk); lia).
    destruct (decide (i = k)) as [->|Hik].
    + destruct (IH2 Hne) as (x & Hx & Hxk & Hle). exists x. split_and!; [lia | lia | done | lia].
    + destruct (IH1 Hik) as (x & Hx & Hxi & Hle). exists x. split_and!; [lia | lia | done|].
      pose proof (dist_triangle x k j Hx Hk Hj). pose proof (Hopt _ _ _ _ _ Hw2). lia.
Qed.

Lemma table_hop_closer d i j : 0 <= d < num_nodes -> table_hop d i j ->
  cell W i j + cell (dist p) j (sink d) = cell (dist p) i (sink d) /\ 0 < cell W i j.
Proof.
  intros Hd (Hi & Hj & Hw & _ & nd & Hnd & Hnode).
  destruct (shortest_path_to_node_spec n W (dist p) i j HW (po_dist _ _ _ _ Hp) Hn Hi Hj) as (nd' & Hnd' & _ & Hiff).
  rewrite Hnd in Hnd'. apply Ok_inj in Hnd' as <-. apply Hiff in Hnode as [_ E]. split; [exact E | done].
Qed.

Lemma table_hop_exists d i : 0 <= d < num_nodes -> 0 <= i < n -> i <> sink d -> cell (dist p) i (sink d) < INFINITE_LATENCY ->
  exists j, table_hop d i j.
Proof.
  intros Hd Hi Hne Hreach. assert (Hs : 0 <= sink d < n) by (unfold sink; lia).
  destruct (first_link _ _ _ _ _ (po_walk _ _ _ _ Hp i (sink d) Hi Hs) Hne) as (k & Hk & Hki & Hle).
  assert (E : cell W i k + cell (dist p) k (sink d) = cell (dist p) i (sink d)).
  { pose proof (dist_triangle i k (sink d) Hi Hk Hs). pose proof (po_nonneg _ _ _ _ Hp i k Hi Hk). lia. }
  destruct (shortest_path_to_node_spec n W (dist p) i k HW (po_dist _ _ _ _ Hp) Hn Hi Hk) as (nd & Hnd & _ & Hiff).
  pose proof (po_nonneg _ _ _ _ Hp k (sink d) Hk Hs). exists k. split; [done|]. split; [done|].
  split; [by apply Hpos|]. split; [lia|]. exists nd. split; [done|]. apply Hiff. split; [done | exact E].
Qed.

Lemma table_route_dist d k i x : 0 <= d < num_nodes -> 0 <= i < n -> table_route d k i x ->
  0 <= x < n /\ cell (dist p) x (sink d) + Z.of_nat k <= cell (dist p) i (sink d).
Proof.
  intros Hd Hi Hr. revert Hi. induction Hr as [i | k i j x Hh Hr IH]; intros Hi; [lia|].
  destruct (table_hop_closer d i j Hd Hh) as [E Hw]. destruct Hh as (_ & Hj & _). specialize (IH Hj). lia.
Qed.

Lemma table_route_exists d i : 0 <= d < num_nodes -> 0 <= i < n -> cell (dist p) i (sink d) < INFINITE_LATENCY ->
  exists k, table_route d k i (sink d).
Proof.
  intros Hd. remember (Z.to_nat (cell (dist p) i (sink d))) as b eqn:Hb. assert (Hle : (Z.to_nat (cell (dist p) i (sink d)) <= b)%nat) by lia.
  clear Hb. revert i Hle. induction b as [b IH] using lt_wf_ind; intros i Hle Hi Hreach.
  destruct (decide (i = sink d)) as [->|Hne]; [exists 0%nat; constructor|].
  destruct (table_hop_exists d i Hd Hi Hne Hreach) as [j Hh]. destruct (table_hop_closer d i j Hd Hh) as [E Hw].
  pose proof Hh as (_ & Hj & _). assert (Hs : 0 <= sink d < n) by (unfold sink; lia). pose proof (po_nonneg _ _ _ _ Hp j (sink d) Hj Hs).
  destruct (IH (Z.to_nat (cell (dist p) j (sink d))) ltac:(lia) j ltac:(lia) Hj ltac:(lia)) as [k Hk].
  exists (S k). by apply table_route_cons with j.
Qed.
End Routes.
End Tables.
