(* ===== verification/TopologyProperties.v ===== *)
(** * Properties of topology creation, with an example *)

From S2P Require Import Prelude RubySet NetDest NetDestTheory Flit Consumer Config NetworkLink GarnetNetwork.
From S2P Require Import Topology ShortestPaths.
Local Open Scope Z_scope.

(** ** The matrices of a topology *)

Section Theory.
Context {L : Type}.
Implicit Type t : Topology L.

(** Links join different switches and have a weight that counts. *)
Definition links_ok (t : Topology L) : Prop :=
  forall s d e, m_link_map t !! (s, d) = Some e -> 0 <= s /\ 0 <= d /\ s <> d /\ 0 < bl_weight (link e) <= INFINITE_LATENCY.

Lemma max_switch_id_bound t : 0 <= max_switch_id t /\
  forall s d e, m_link_map t !! (s, d) = Some e -> s <= max_switch_id t /\ d <= max_switch_id t.
Proof.
  unfold max_switch_id.
  assert (H : forall l : list (Z * Z * LinkEntry L), 0 <= foldr (fun '((s, d), _) m => Z.max (Z.max m s) d) 0 l /\
    forall s d e, ((s, d), e) ∈ l -> s <= foldr (fun '((s, d), _) m => Z.max (Z.max m s) d) 0 l /\
                                    d <= foldr (fun '((s, d), _) m => Z.max (Z.max m s) d) 0 l).
  { induction l as [|[[s0 d0] e0] l [IH0 IH]]; cbn; (split; [lia|]).
    - intros s d e He. by apply elem_of_nil in He.
    - intros s d e [He | He]%elem_of_cons; [simplify_eq; lia|]. specialize (IH s d e He). lia. }
  destruct (H (map_to_list (m_link_map t))) as [H0 Hall]. split; [done|]. intros s d e He.
  apply (Hall s d e). by apply elem_of_map_to_list.
Qed.

Lemma zero_diagonal n w : 0 <= n -> mat_ok n n w ->
  exists w', for_range (Z.to_nat n) 0 (fun i m => mat_set m i i 0) w = Ok w' /\ mat_ok n n w' /\
    forall i j, 0 <= i < n -> 0 <= j < n -> cell w' i j = if decide (i = j) then 0 else cell w i j.
Proof.
  intros Hn Hw. destruct (for_range_total (fun k m => mat_ok n n m /\ forall i j, 0 <= i < n -> 0 <= j < n ->
      cell m i j = if decide (i = j /\ i < k) then 0 else cell w i j)
    (fun i m => mat_set m i i 0) (Z.to_nat n) 0 w) as (w' & -> & Hw' & Hc).
  - split; [done|]. intros i j Hi Hj. rewrite decide_False by lia. done.
  - intros k m Hk [Hm Hc]. destruct (cell_set n m k k 0 Hm ltac:(lia) ltac:(lia)) as (m' & -> & Hm' & Hkk & Hne).
    exists m'. split; [done|]. split; [done|]. intros i j Hi Hj. destruct (decide (i = k /\ j = k)) as [[-> ->]|Hd].
    + rewrite Hkk, decide_True by lia. done.
    + rewrite Hne, Hc by done. destruct (decide (i = j /\ i < k)), (decide (i = j /\ i < k + 1)); (done || lia).
  - exists w'. split; [done|]. split; [done|]. intros i j Hi Hj. rewrite Hc by done.
    destruct (decide (i = j /\ i < 0 + Z.of_nat (Z.to_nat n))), (decide (i = j)); (done || lia).
Qed.

Lemma fill_links n (l : list (Z * Z * LinkEntry L)) w0 l0 : mat_ok n n w0 -> mat_ok n n l0 -> NoDup l.*1 ->
  (forall s d e, ((s, d), e) ∈ l -> 0 <= s < n /\ 0 <= d < n) ->
  exists w la, foldM (fun '(w, l) '((src, dst), e) =>
      l' ← mat_set l src dst (bl_latency (link e)); w' ← mat_set w src dst (bl_weight (link e)); Ok (w', l')) l (w0, l0) = Ok (w, la) /\
    mat_ok n n w /\ mat_ok n n la /\
    forall i j, 0 <= i < n -> 0 <= j < n -> (forall e, ((i, j), e) ∈ l -> cell w i j = bl_weight (link e)) /\
      ((i, j) ∉ l.*1 -> cell w i j = cell w0 i j).
Proof.
  revert w0 l0. induction l as [|[[s d] e] l IH]; intros w0 l0 Hw Hl Hnd Hr; cbn [foldM].
  - exists w0, l0. split_and!; [done | done | done|]. intros i j Hi Hj. split; [by intros e ?%elem_of_nil | done].
  - destruct (Hr s d e) as [Hs Hd]; [by left|]. cbn in Hnd. apply NoDup_cons in Hnd as [Hnew Hnd].
    destruct (cell_set n l0 s d (bl_latency (link e)) Hl Hs Hd) as (l1 & -> & Hl1 & _). cbn [mbind result_bind].
    destruct (cell_set n w0 s d (bl_weight (link e)) Hw Hs Hd) as (w1 & -> & Hw1 & Hc & Hne). cbn [mbind result_bind].
    destruct (IH w1 l1 Hw1 Hl1 Hnd) as (w & la & Hf & Hw' & Hl' & Hcell); [intros s' d' e' He; apply (Hr s' d' e'); by right|].
    exists w, la. split; [exact Hf|]. split; [done|]. split; [done|]. intros i j Hi Hj. destruct (Hcell i j Hi Hj) as [H1 H2]. split.
    + intros e' [He | He]%elem_of_cons; [|by apply H1]. simplify_eq. rewrite H2 by done. done.
    + cbn. intros [Hij Hin]%not_elem_of_cons. rewrite H2 by done. apply Hne. intros [-> ->]. done.
Qed.

(** The weight matrix of a topology. *)
Definition weight_of (t : Topology L) (i j : Z) : Z :=
  match m_link_map t !! (i, j) with
  | Some e => bl_weight (link e)
  | None => if decide (i = j) then 0 else INFINITE_LATENCY
  end.

Lemma fill_matrices_spec t n : links_ok t -> n = max_switch_id t + 1 ->
  exists w la, fill_matrices t n = Ok (w, la) /\ mat_ok n n w /\ mat_ok n n la /\
    forall i j, 0 <= i < n -> 0 <= j < n -> cell w i j = weight_of t i j.
Proof.
  intros Hlinks ->. destruct (max_switch_id_bound t) as [H0 Hmax]. set (n := max_switch_id t + 1) in *. assert (Hn : 0 <= n) by lia.
  unfold fill_matrices. destruct (zero_diagonal n (const_matrix n INFINITE_LATENCY) Hn (const_matrix_ok n _ Hn)) as (w0 & -> & Hw0 & Hc0).
  cbn [mbind result_bind].
  destruct (fill_links n (map_to_list (m_link_map t)) w0 (const_matrix n (-1)) Hw0 (const_matrix_ok n _ Hn)) as (w & la & Hf & Hw & Hl & Hc).
  { apply NoDup_fst_map_to_list. }
  { intros s d e He%elem_of_map_to_list. destruct (Hlinks s d e He) as (? & ? & _). destruct (Hmax s d e He). lia. }
  exists w, la. split; [exact Hf|]. split; [done|]. split; [done|]. intros i j Hi Hj. unfold weight_of.
  destruct (Hc i j Hi Hj) as [H1 H2]. destruct (m_link_map t !! (i, j)) as [e|] eqn:E.
  - apply H1. by apply elem_of_map_to_list.
  - assert (Hout : (i, j) ∉ (map_to_list (m_link_map t)).*1).
    { intros ([k e] & Hk & He%elem_of_map_to_list)%list_elem_of_fmap. cbn in Hk. subst k. congruence. }
    rewrite (H2 Hout), Hc0 by done. by rewrite const_matrix_cell.
Qed.

Lemma row_total_bound B l : Forall (fun x => x <= B) l -> row_total l <= vsize l * B.
Proof.
  unfold vsize. induction 1 as [|x l Hx _ IH]; [done|]. change (row_total (x :: l)) with (x + row_total l). cbn [length]. lia.
Qed.

Lemma total_bound n B m : mat_ok n n m -> 0 <= n -> (forall i j, 0 <= i < n -> 0 <= j < n -> cell m i j <= B) -> total m <= n * (n * B).
Proof.
  intros Hm H0 Hc. pose proof (cells_Forall n m (fun x => x <= B) Hm Hc) as Hall. destruct Hm as [Hn Hrows].
  assert (Hr : Forall (fun row => row_total row <= n * B) m).
  { apply Forall_lookup. intros i row Hi. rewrite <- (Forall_lookup_1 _ _ _ _ Hrows Hi) at 1.
    apply row_total_bound. exact (Forall_lookup_1 _ _ _ _ Hall Hi). }
  rewrite <- Hn at 1. clear -Hr. unfold vsize. induction Hr as [|row m Hrow _ IH]; [done|].
  change (total (row :: m)) with (row_total row + total m). cbn [length]. lia.
Qed.

(** ** The theorems *)

(** C18: The shortest-path loop terminates and is correct.  On any square matrix of nonnegative
    weights, with fuel above the sum of the weights, it ends without a failed assertion; the
    distance of every pair is the weight of an actual walk, no walk is lighter, and the latency
    and the number of intermediate switches it reports are those of that same walk. *)
Theorem shortest_path_correct n weights lats fuel :
  mat_ok n n weights -> mat_ok n n lats -> (forall i j, 0 <= i < n -> 0 <= j < n -> 0 <= cell weights i j) ->
  total weights < Z.of_nat fuel ->
  exists p, shortest_path fuel weights lats (const_matrix n 0) = Ok p /\
    forall i j, 0 <= i < n -> 0 <= j < n ->
      walk n weights lats i j (cell (dist p) i j) (cell (latencies p) i j) (cell (inter_switches p) i j + 1) /\
      forall w l h, walk n weights lats i j w l h -> cell (dist p) i j <= w.
Proof.
  intros HW HL Hnn Hf. destruct (shortest_path_spec n weights lats fuel HW HL Hnn Hf) as (p & Hp & Hok & Hopt).
  exists p. split; [done|]. intros i j Hi Hj. split; [by apply (po_walk _ _ _ _ Hok) | intros w l h; apply Hopt].
Qed.

Lemma topology_paths {MT : MachineTypes} t fuel : links_ok t ->
  (max_switch_id t + 1) * ((max_switch_id t + 1) * INFINITE_LATENCY) < Z.of_nat fuel ->
  exists w la p, fill_matrices t (max_switch_id t + 1) = Ok (w, la) /\
    shortest_path fuel w la (const_matrix (max_switch_id t + 1) 0) = Ok p /\
    mat_ok (max_switch_id t + 1) (max_switch_id t + 1) w /\ paths_ok (max_switch_id t + 1) w la p /\
    (forall i j w' l h, walk (max_switch_id t + 1) w la i j w' l h -> cell (dist p) i j <= w') /\
    forall i j, 0 <= i < max_switch_id t + 1 -> 0 <= j < max_switch_id t + 1 -> cell w i j = weight_of t i j.
Proof.
  intros Hlinks Hf. destruct (fill_matrices_spec t _ Hlinks eq_refl) as (w & la & Hfill & Hw & Hl & Hc).
  destruct (max_switch_id_bound t) as [H0 _]. set (n := max_switch_id t + 1) in *.
  assert (Hrange : forall i j, 0 <= i < n -> 0 <= j < n -> 0 <= cell w i j <= INFINITE_LATENCY).
  { intros i j Hi Hj. rewrite Hc by done. unfold weight_of. destruct (m_link_map t !! (i, j)) as [e|] eqn:E.
    - pose proof (Hlinks i j e E). lia.
    - unfold INFINITE_LATENCY. destruct (decide (i = j)); lia. }
  assert (Ht : total w < Z.of_nat fuel).
  { eapply Z.le_lt_trans; [|exact Hf]. apply total_bound; [done | lia|]. intros i j Hi Hj. by apply Hrange. }
  destruct (shortest_path_spec n w la fuel Hw Hl (fun i j Hi Hj => proj1 (Hrange i j Hi Hj)) Ht) as (p & Hp & Hok & Hopt).
  exists w, la, p. by split_and!.
Qed.

(** A path along links of the topology, with its total weight. *)
Inductive link_path (t : Topology L) : Z -> Z -> Z -> Prop :=
  | path_here i : link_path t i i 0
  | path_link i j k e x : m_link_map t !! (i, j) = Some e -> link_path t j k x -> link_path t i k (bl_weight (link e) + x).

(** It is a walk over the weights of the links. *)
Lemma link_path_walk t w la i k x : (forall i j, 0 <= i < max_switch_id t + 1 -> 0 <= j < max_switch_id t + 1 -> cell w i j = weight_of t i j) ->
  links_ok t -> link_path t i k x -> 0 <= i < max_switch_id t + 1 -> exists l h, walk (max_switch_id t + 1) w la i k x l h.
Proof.
  intros Hc Hlinks Hp. induction Hp as [i | i j k e x He Hp IH]; intros Hi.
  - assert (E0 : cell w i i = 0).
    { rewrite Hc by done. unfold weight_of. destruct (m_link_map t !! (i, i)) as [e|] eqn:E; [|by rewrite decide_True].
      by destruct (Hlinks i i e E) as (_ & _ & [] & _). }
    exists (cell la i i), 1. rewrite <- E0 at 1. by constructor.
  - destruct (Hlinks i j e He) as (_ & Hj0 & _). pose proof (proj2 (max_switch_id_bound t) i j e He) as [_ Hj].
    destruct IH as (l & h & Hw); [lia|]. assert (E : cell w i j = bl_weight (link e)) by (rewrite Hc by lia; unfold weight_of; by rewrite He).
    exists (cell la i j + l), (1 + h). rewrite <- E. apply (walk_app _ _ _ i j k); [constructor; lia | done].
Qed.

(** C17: Routing tables deliver.  For a topology whose links join different switches with weights from 1 to 10000
    ([INFINITE_LATENCY], the distance the code takes for none) and whose switch numbers cover the two ends of every node, the matrices are filled and the paths computed without error,
    and the table entries route every packet: from a switch with a path of links of total weight below 10000 to node [d], some
    sequence of links whose entries contain [d] leads to it, and whatever such links are followed, the node is
    never more hops away than the weight of the path and never without a next link before it is
    reached.  (Nodes that are farther than 10000 are not in the tables.) *)
Theorem routing_tables_deliver {MT : MachineTypes} {MTok : MachineTypesOk MT} t fuel :
  links_ok t -> 2 * MachineType_base_number MachineType_NUM <= max_switch_id t + 1 ->
  (max_switch_id t + 1) * ((max_switch_id t + 1) * INFINITE_LATENCY) < Z.of_nat fuel ->
  exists w la p, fill_matrices t (max_switch_id t + 1) = Ok (w, la) /\
    shortest_path fuel w la (const_matrix (max_switch_id t + 1) 0) = Ok p /\
    forall d i x, 0 <= d < MachineType_base_number MachineType_NUM -> 0 <= i < max_switch_id t + 1 ->
      link_path t i (sink d) x -> x < INFINITE_LATENCY ->
      (exists k, table_route (max_switch_id t + 1) w p d k i (sink d)) /\
      forall k y, table_route (max_switch_id t + 1) w p d k i y ->
        Z.of_nat k <= x /\ (y <> sink d -> exists z, table_hop (max_switch_id t + 1) w p d y z).
Proof.
  intros Hlinks Hn Hf. destruct (topology_paths t fuel Hlinks Hf) as (w & la & p & Hfill & Hp & Hw & Hok & Hopt & Hc).
  set (n := max_switch_id t + 1) in *.
  assert (Hdiag : forall i, 0 <= i < n -> cell w i i = 0).
  { intros i Hi. rewrite Hc by done. unfold weight_of. destruct (m_link_map t !! (i, i)) as [e|] eqn:E; [|by rewrite decide_True].
    by destruct (Hlinks i i e E) as (_ & _ & [] & _). }
  assert (Hpos : forall i j, 0 <= i < n -> 0 <= j < n -> i <> j -> 0 < cell w i j).
  { intros i j Hi Hj Hne. rewrite Hc by done. unfold weight_of. destruct (m_link_map t !! (i, j)) as [e|] eqn:E.
    - by destruct (Hlinks i j e E) as (_ & _ & _ & ? & _).
    - by rewrite decide_False. }
  exists w, la, p. split_and!; [done | done|]. intros d i x Hd Hi Hpath Hlt.
  destruct (link_path_walk t w la i (sink d) x Hc Hlinks Hpath Hi) as (l & h & Hwalk).
  pose proof (Hopt _ _ _ _ _ Hwalk) as Hreach. split.
  - apply (table_route_exists n w la p); (done || lia).
  - intros k y Hr. destruct (table_route_dist n w la p Hw Hok Hn d k i y Hd Hi Hr) as [Hx Hle].
    assert (Hs : 0 <= sink d < n) by (unfold sink; lia). pose proof (po_nonneg _ _ _ _ Hok y (sink d) Hx Hs).
    split; [lia|]. intros Hne. apply (table_hop_exists n w la p); (done || lia).
Qed.

End Theory.

(** ** An example: two routers with one node each *)

(** Node [k] at router [k], and a link between two routers. *)
Definition ex_ext (k : Z) : ExtLinkParams garnet_link :=
  mkExtLinkParams 0 k k (mkBasicLink 1 1 (GarnetExtLink (NetworkLink_new k 1 2 1) (NetworkLink_new k 1 2 1) (NetworkLink_new k 1 2 1) (NetworkLink_new k 1 2 1))).
Definition ex_int (s d : Z) (so di : PortDirection) : IntLinkParams garnet_link :=
  mkIntLinkParams s d so di (mkBasicLink 1 1 (GarnetIntLink (NetworkLink_new s 1 2 1) (NetworkLink_new s 1 2 1))).
Definition pair_topology : result (Topology garnet_link) :=
  Topology_new (MT := node_types 2) 2 [ex_ext 0; ex_ext 1] [ex_int 0 1 "East" "West"; ex_int 1 0 "West" "East"].

Definition ex_topology : Topology garnet_link := match pair_topology with Ok t => t | Err _ => mkTopology 0 0 ∅ end.

Lemma ex_topology_links : links_ok ex_topology.
Proof.
  intros s d e He. apply elem_of_map_to_list in He.
  assert (Hall : Forall (fun '((s, d), e) => 0 <= s /\ 0 <= d /\ s <> d /\ 0 < bl_weight (link e) <= INFINITE_LATENCY) (map_to_list (m_link_map ex_topology))).
  { vm_compute. repeat constructor; vm_compute; congruence. }
  rewrite Forall_forall in Hall. exact (Hall _ He).
Qed.

Lemma shortest_path_correct_witness : exists p,
  shortest_path 40 [[0; 5; 9]; [5; 0; 2]; [9; 2; 0]] [[1; 1; 1]; [1; 1; 1]; [1; 1; 1]] (const_matrix 3 0) = Ok p /\ cell (dist p) 0 2 = 7.
Proof.
  destruct (shortest_path_correct 3 [[0; 5; 9]; [5; 0; 2]; [9; 2; 0]] [[1; 1; 1]; [1; 1; 1]; [1; 1; 1]] 40) as (p & Hp & _).
  - split; [reflexivity | repeat constructor].
  - split; [reflexivity | repeat constructor].
  - intros i j Hi Hj. assert (Hi' : i = 0 \/ i = 1 \/ i = 2) by lia. assert (Hj' : j = 0 \/ j = 1 \/ j = 2) by lia.
    destruct Hi' as [-> | [-> | ->]], Hj' as [-> | [-> | ->]]; vm_compute; discriminate.
  - vm_compute. reflexivity.
  - exists p. vm_compute in Hp. apply Ok_inj in Hp as <-. split; vm_compute; reflexivity.
Defined.

Lemma ex_hop i j k x : match m_link_map ex_topology !! (i, j) with Some e => bl_weight (link e) =? 1 | None => false end = true ->
  link_path ex_topology j k x -> link_path ex_topology i k (1 + x).
Proof. destruct (m_link_map ex_topology !! (i, j)) as [e|] eqn:E; [|done]. intros <-%Z.eqb_eq Hp. by apply path_link with j. Qed.

(** From node 0 through routers 4 and 5 to node 1. *)
Lemma ex_path : link_path ex_topology 0 3 3.
Proof.
  apply (ex_hop 0 4 3 2); [vm_compute; reflexivity|]. apply (ex_hop 4 5 3 1); [vm_compute; reflexivity|].
  apply (ex_hop 5 3 3 0); [vm_compute; reflexivity | constructor].
Qed.

Lemma routing_tables_deliver_witness : exists w la p,
  fill_matrices ex_topology 6 = Ok (w, la) /\ shortest_path (Z.to_nat 400000) w la (const_matrix 6 0) = Ok p /\
  exists k, @table_route (node_types 2) 6 w p 1 k 0 3.
Proof.
  destruct (@routing_tables_deliver _ (node_types 2) (node_types_ok 2 ltac:(unfold NUMBER_BITS_PER_SET; lia)) ex_topology (Z.to_nat 400000)) as (w & la & p & Hf & Hp & Hroute).
  - exact ex_topology_links.
  - vm_compute. discriminate.
  - rewrite Z2Nat.id by lia. vm_compute. reflexivity.
  - change (max_switch_id ex_topology + 1) with 6 in *. exists w, la, p. split; [exact Hf|]. split; [exact Hp|].
    destruct (Hroute 1 0 3) as [Hex _]; [vm_compute; split; congruence | lia | | reflexivity | exact Hex]. exact ex_path.
Defined.
