(* ===== verification/Bubble.v ===== *)
(** * Brownian bubbles (GarnetNetwork.cc)

    A bubble is an empty virtual channel: VC 0 of a non-local input port that holds no flit,
    is ACTIVE, and for which the upstream output unit has given up its credit, so that nobody
    can send to it.  Bubbles are placed at the first router wakeup, move between the input
    ports of their router ([move_intra_bubble]) and walk from router to router
    ([move_inter_bubble]); a move exchanges the bubble with a free VC or with a packet, which
    travels backwards. *)

From S2P Require Import Prelude Flit FlitBuffer NetDest Consumer Config RoutingUnit MeshRouting NetworkLink.
From S2P Require Import VirtualChannel OutVcState OutputUnit InputUnit RouterState BubblePath MessageBuffer.
From S2P Require Import NetStats NetworkInterface GarnetNetwork.
Local Open Scope Z_scope.

(** ** Units of a router, by position *)

Definition get_iu (rid inport : Z) (g : GarnetNetwork) : result InputUnit :=
  r ← vec_get (m_routers g) rid; vec_get (m_input_unit r) inport.
Definition get_ou (rid outport : Z) (g : GarnetNetwork) : result OutputUnit :=
  r ← vec_get (m_routers g) rid; vec_get (m_output_unit r) outport.
Definition on_net_iu (rid inport : Z) (f : InputUnit -> result InputUnit) : GarnetNetwork -> result GarnetNetwork :=
  on_router rid (on_iu inport f).
Definition on_net_ou (rid outport : Z) (f : OutputUnit -> result OutputUnit) : GarnetNetwork -> result GarnetNetwork :=
  on_router rid (on_ou outport f).
Definition net_schedule_wakeup (rid cur time : Z) : GarnetNetwork -> result GarnetNetwork :=
  on_router rid (fun r => Ok (schedule_wakeup cur time r)).

Definition on_bubble (k : Z) (f : brownian_bubble -> brownian_bubble) (g : GarnetNetwork) : result GarnetNetwork :=
  l ← vec_modify (bubble g) k f; Ok (with_bubble l g).

(** The search for the upstream output unit that leads to [router_id].  The loop bound is
    [ii <= size()], so a search without a hit reads past the end of the vector. *)
Fixpoint find_outport (ii router_id : Z) (ous : list OutputUnit) : result Z :=
  match ous with
  | [] => Err EIndex
  | ou :: ous' => if get_dest_router ou =? router_id then Ok ii else find_outport (ii + 1) router_id ous'
  end.

(** The router upstream of an input unit of [router_id], and its output unit. *)
Definition upstream_op (router_id : Z) (inpUnit : InputUnit) (g : GarnetNetwork) : result (Z * Z) :=
  upstream_router ← vec_get (m_routers g) (get_src_router inpUnit);
  ii ← find_outport 0 router_id (m_output_unit upstream_router);
  Ok (get_src_router inpUnit, ii).

Section Bubble.
Context (rand : nat -> Z) (cur : Z).

(** The credit management of the VC the bubble takes: upstream loses the credit and sees the
    VC as ACTIVE, and so does the input unit. *)
Definition occupy (up : Z * Z) (rid inport : Z) (g : GarnetNetwork) : result GarnetNetwork :=
  g1 ← on_net_ou up.1 up.2 (OutputUnit.decrement_credit 0) g;
  g2 ← on_net_ou up.1 up.2 (OutputUnit.set_vc_state ACTIVE_ 0 cur) g1;
  on_net_iu rid inport (set_vc_active 0 cur) g2.

(** The credit management of the VC the bubble leaves. *)
Definition vacate (up : Z * Z) (rid inport : Z) (g : GarnetNetwork) : result GarnetNetwork :=
  g1 ← on_net_ou up.1 up.2 (OutputUnit.increment_credit 0) g;
  g2 ← on_net_ou up.1 up.2 (OutputUnit.set_vc_state IDLE_ 0 cur) g1;
  on_net_iu rid inport (set_vc_idle 0 cur) g2.

(** ** Placement *)

(** [random () % n] with an unsigned [n]. *)
Definition random_mod (n : Z) (g : GarnetNetwork) : result (Z * GarnetNetwork) :=
  let '(x, g') := random rand g in
  if n =? 0 then Err EDiv else Ok (u64 x mod n, g').

(** The [goto try_again] loop: draw until no earlier bubble sits in the router drawn. *)
Fixpoint draw_router (fuel : nat) (k : Z) (g : GarnetNetwork) : result (Z * GarnetNetwork) :=
  match fuel with
  | O => Err EFuel
  | S fuel' =>
      '(x, g1) ← random_mod (vsize (m_routers g)) g;
      if existsb (fun b => router_id b =? u32 x) (take (Z.to_nat k) (bubble g1)) then draw_router fuel' k g1
      else Ok (u32 x, g1)
  end.

(** The bubble's entry at input unit [inpUnit], the credit management and the check of the
    direction map. *)
Definition place_at (k rid inp_ : Z) (g : GarnetNetwork) : result GarnetNetwork :=
  inpUnit ← get_iu rid inp_ g;
  g1 ← on_bubble k (fun b => with_last_inport_id (u32 (-1)) (with_inport_id (InputUnit.get_id inpUnit)
         (with_last_inport_dirn "Unknown" (with_inport_dirn (InputUnit.get_direction inpUnit) b)))) g;
  let inputPort := InputUnit.get_id inpUnit in
  inpUnit2 ← get_iu rid inputPort g1;
  up ← upstream_op rid inpUnit2 g1;
  g2 ← occupy up rid inputPort g1;
  r ← vec_get (m_routers g2) rid;
  idx ← match m_inports_dirn2idx (m_routing_unit r) !! InputUnit.get_direction inpUnit with
        | Some i => Ok i | None => Err EThrow end;
  assert_ (inputPort =? idx) ;;
  on_bubble k (fun b => with_last_inter_movement_cycle cur (with_last_intra_movement_cycle cur b)) g2.

(** The first input unit from [inp_] on whose direction satisfies [p] takes the bubble; none
    does when no direction fits. *)
Fixpoint place_first (p : PortDirection -> bool) (n : nat) (k rid inp_ : Z) (g : GarnetNetwork)
  : result GarnetNetwork :=
  match n with
  | O => Ok g
  | S n' =>
      iu ← get_iu rid inp_ g;
      if p (InputUnit.get_direction iu) then place_at k rid inp_ g
      else place_first p n' k rid (inp_ + 1) g
  end.

Definition place_in_router (p : PortDirection -> bool) (k rid : Z) (g : GarnetNetwork) : result GarnetNetwork :=
  r ← vec_get (m_routers g) rid;
  place_first p (length (m_input_unit r)) k rid 0 g.

Definition init_bubble (fuel : nat) (k : Z) (g : GarnetNetwork) : result GarnetNetwork :=
  g0 ← on_bubble k (with_bubble_id k) g;
  '(rid, g1) ← (if rand_bb (g_config g) =? 1 then draw_router fuel k g0
                else let n := vsize (m_routers g0) in
                     if n =? 0 then Err EDiv else Ok (u32 (k mod n), g0));
  g2 ← on_bubble k (fun b => with_sense_inc true (with_router_id rid b)) g1;
  place_in_router (fun d => negb (String.eqb d "Local")) k rid g2.

(** [fuel] bounds the draws made for one bubble. *)
Definition init_brownian_bubbles (fuel : nat) (g : GarnetNetwork) : result GarnetNetwork :=
  g1 ← for_range (Z.to_nat (m_num_bubble (g_config g))) 0 (init_bubble fuel) g;
  Ok (with_m_bubble_init true g1).

Definition set_bubble_inport (k : Z) (dirn_ : PortDirection) (g : GarnetNetwork) : result GarnetNetwork :=
  b ← vec_get (bubble g) k;
  place_in_router (fun d => String.eqb d dirn_) k (router_id b) g.

(** Router and input direction of bubble [k] under scheme "cbs": one bubble per column and
    vertical direction, one per row and horizontal direction. *)
Definition cbs_home (m_num_rows k : Z) : option (Z * PortDirection) :=
  if (0 <=? k) && (k <=? m_num_rows - 1) then Some (k, "South"%string)
   else if (m_num_rows <=? k) && (k <=? 2 * m_num_rows - 1) then Some (k - m_num_rows, "North"%string)
   else if (2 * m_num_rows <=? k) && (k <=? 3 * m_num_rows - 1)
     then Some (Z.rem k m_num_rows * m_num_rows, "West"%string)
   else if (3 * m_num_rows <=? k) && (k <=? 4 * m_num_rows - 1)
     then Some (Z.rem k m_num_rows * m_num_rows, "East"%string)
   else None.

Definition init_brownian_bubbles_cbs (g : GarnetNetwork) : result GarnetNetwork :=
  let rows := m_num_rows (g_config g) in
  assert_ (m_num_bubble (g_config g) =? u32 (4 * rows)) ;;
  g1 ← for_range (Z.to_nat (m_num_bubble (g_config g))) 0
         (fun k g =>
            g0 ← on_bubble k (with_bubble_id k) g;
            match cbs_home rows k with
            | Some (rid, d) => g1 ← on_bubble k (with_router_id rid) g0; set_bubble_inport k d g1
            | None => Ok g0
            end) g;
  Ok (with_m_bubble_init true g1).

(** ** Movement *)

(** The bubble's record after it moved to [inpUnit]. *)
Definition move_entry (inpUnit : InputUnit) (b : brownian_bubble) : brownian_bubble :=
  with_inport_dirn (InputUnit.get_direction inpUnit)
    (with_inport_id (InputUnit.get_id inpUnit)
       (with_last_inport_dirn (inport_dirn b) (with_last_inport_id (inport_id b) b))).

(** Another bubble sits at this input port of the router. *)
Definition other_bubble (id rid inport : Z) (g : GarnetNetwork) : bool :=
  existsb (fun b => negb (id =? bubble_id b) && ((router_id b =? rid) && (inport_id b =? inport))) (bubble g).

Definition count_intra (pkt : bool) (s : NetStats) : NetStats :=
  let s1 := with_m_num_intra_swap (m_num_intra_swap s + 1) s in
  if pkt then with_m_intra_swap_pkt (m_intra_swap_pkt s + 1) s1
  else with_m_intra_swap_bubble (m_intra_swap_bubble s + 1) s1.
Definition count_inter (pkt : bool) (s : NetStats) : NetStats :=
  let s1 := with_m_num_inter_swap (m_num_inter_swap s + 1) s in
  if pkt then with_m_inter_swap_pkt (m_inter_swap_pkt s + 1) s1
  else with_m_inter_swap_bubble (m_inter_swap_bubble s + 1) s1.

(** What both kinds of move look at: the candidate input unit, its upstream output unit, and
    the same for the VC the bubble occupies now. *)
Record Candidate := mkCandidate {
  inpUnit : InputUnit; cand_up : Z * Z; orig_inport : Z; orig_up : Z * Z;
  cand_empty : bool; cand_idle : bool
}.

Definition look_at (b : brownian_bubble) (rid inputPort : Z) (g : GarnetNetwork) : result Candidate :=
  iu ← get_iu rid inputPort g;
  up ← upstream_op rid iu g;
  orig ← get_iu (router_id b) (inport_id b) g;
  oup ← upstream_op (router_id b) orig g;
  e ← vc_isEmpty 0 iu;
  ou ← get_ou up.1 up.2 g;
  i ← is_vc_idle 0 cur ou;
  Ok (mkCandidate iu up (inport_id b) oup e i).

(** *** Within a router *)

Definition intra_with_free (id rid inputPort : Z) (cd : Candidate) (g : GarnetNetwork) : result GarnetNetwork :=
  g1 ← occupy (cand_up cd) rid inputPort g;
  g2 ← vacate (orig_up cd) rid (orig_inport cd) g1;
  g3 ← on_bubble id (move_entry (inpUnit cd)) g2;
  assert_ (negb (String.eqb (InputUnit.get_direction (inpUnit cd)) "Local")) ;;
  g4 ← on_bubble id (with_last_intra_movement_cycle cur) g3;
  let g5 := with_g_stats (count_intra false (g_stats g4)) g4 in
  let period := m_inter_bubble_period (g_config g5) in
  if period <? cur then
    (if period =? 0 then Err EDiv else
     d ← cyc_sub period (cur mod period);
     net_schedule_wakeup rid cur d g5)
  else Ok g5.

Definition intra_with_packet (id rid inputPort : Z) (cd : Candidate) (g : GarnetNetwork) : result GarnetNetwork :=
  '(t_flit, iu') ← InputUnit.getTopFlit 0 (inpUnit cd);
  g1 ← on_net_iu rid inputPort (fun _ => Ok iu') g;
  g2 ← on_net_iu rid (orig_inport cd) (InputUnit.insertFlit 0 t_flit) g1;
  g3 ← on_bubble id (move_entry (inpUnit cd)) g2;
  assert_ (negb (String.eqb (InputUnit.get_direction (inpUnit cd)) "Local")) ;;
  g4 ← on_bubble id (with_last_intra_movement_cycle cur) g3;
  Ok (with_g_stats (count_intra true (g_stats g4)) g4).

(** One iteration of the search: [Some g'] when the bubble moved. *)
Definition try_intra (id : Z) (g : GarnetNetwork) : result (bool * GarnetNetwork) :=
  b ← vec_get (bubble g) id;
  let rid := router_id b in
  r ← vec_get (m_routers g) rid;
  '(inputPort, g0) ← random_mod (vsize (m_input_unit r)) g;
  iu ← get_iu rid inputPort g0;
  if String.eqb (InputUnit.get_direction iu) "Local" then Ok (false, g0)
  else if other_bubble id rid (InputUnit.get_id iu) g0 then Ok (false, g0)
  else
    cd ← look_at b rid inputPort g0;
    match cand_empty cd, cand_idle cd with
    | true, false => Ok (false, g0)
    | true, true => g1 ← intra_with_free id rid inputPort cd g0; Ok (true, g1)
    | false, false => g1 ← intra_with_packet id rid inputPort cd g0; Ok (true, g1)
    | false, true => Err EAssert
    end.

(** Repeat [try_] at most [n] times, until it moved the bubble. *)
Fixpoint search (try_ : GarnetNetwork -> result (bool * GarnetNetwork)) (n : nat) (g : GarnetNetwork)
  : result (bool * GarnetNetwork) :=
  match n with
  | O => Ok (false, g)
  | S n' => '(moved, g') ← try_ g; if moved : bool then Ok (true, g') else search try_ n' g'
  end.

Definition move_intra_bubble (id : Z) (g : GarnetNetwork) : result (bool * GarnetNetwork) :=
  b ← vec_get (bubble g) id;
  assert_ (last_intra_movement_cycle b <=? cur) ;;
  d ← cyc_sub cur (last_intra_movement_cycle b);
  if m_intra_bubble_period (g_config g) <=? d then
    r ← vec_get (m_routers g) (router_id b);
    search (try_intra id) (length (m_input_unit r)) g
  else Ok (false, g).

(** *** To the next router *)

Definition inter_entry (nxt : Z) (iu : InputUnit) (b : brownian_bubble) : brownian_bubble :=
  with_last_inter_movement_cycle cur (with_router_id nxt (move_entry iu b)).

(** Both routers are woken two cycles from now. *)
Definition wake_both (orig nxt : Z) (g : GarnetNetwork) : result GarnetNetwork :=
  g1 ← net_schedule_wakeup orig cur 2 g; net_schedule_wakeup nxt cur 2 g1.

Definition inter_with_free (id orig nxt inputPort : Z) (cd : Candidate) (g : GarnetNetwork) : result GarnetNetwork :=
  g1 ← occupy (cand_up cd) nxt inputPort g;
  g2 ← vacate (orig_up cd) orig (orig_inport cd) g1;
  g3 ← wake_both orig nxt g2;
  g4 ← on_bubble id (inter_entry nxt (inpUnit cd)) g3;
  assert_ (negb (String.eqb (InputUnit.get_direction (inpUnit cd)) "Local")) ;;
  Ok (with_g_stats (count_inter false (g_stats g4)) g4).

(** The packet goes to the bubble's old place, where its route is computed anew. *)
Definition inter_with_packet (id orig nxt inputPort : Z) (cd : Candidate) (g : GarnetNetwork) : result GarnetNetwork :=
  '(t_flit, iu') ← InputUnit.getTopFlit 0 (inpUnit cd);
  g1 ← on_net_iu nxt inputPort (fun _ => Ok iu') g;
  orig_iu ← get_iu orig (orig_inport cd) g1;
  '(outport, g2) ← route_compute rand cur orig (m_route t_flit) (InputUnit.get_id orig_iu)
                     (InputUnit.get_direction orig_iu) g1;
  orig_router ← vec_get (m_routers g2) orig;
  out_dirn ← getOutportDirection outport orig_router;
  let t_flit' := Flit.set_time (cyc_add cur 2) (set_outport_dirn out_dirn (Flit.set_outport outport t_flit)) in
  g3 ← on_net_iu orig (orig_inport cd) (InputUnit.insertFlit 0 t_flit') g2;
  g4 ← wake_both orig nxt g3;
  g5 ← on_bubble id (inter_entry nxt (inpUnit cd)) g4;
  assert_ (negb (String.eqb (InputUnit.get_direction (inpUnit cd)) "Local")) ;;
  Ok (with_g_stats (count_inter true (g_stats g5)) g5).

(** The case distinction both inter-router moves make at input port [inputPort] of the next
    router; a packet that is about to leave the network is left alone. *)
Definition exchange_inter (id nxt inputPort : Z) (b : brownian_bubble) (g : GarnetNetwork)
  : result (bool * GarnetNetwork) :=
  cd ← look_at b nxt inputPort g;
  match cand_empty cd, cand_idle cd with
  | true, true => g1 ← inter_with_free id (router_id b) nxt inputPort cd g; Ok (true, g1)
  | true, false => Ok (false, g)
  | false, false =>
      t_flit ← InputUnit.peekTopFlit 0 (inpUnit cd);
      if String.eqb (m_outport_dirn t_flit) "Local" then Ok (false, g)
      else g1 ← inter_with_packet id (router_id b) nxt inputPort cd g; Ok (true, g1)
  | false, true => Ok (false, g)
  end.

Definition try_inter (id nxt : Z) (g : GarnetNetwork) : result (bool * GarnetNetwork) :=
  nxt_router ← vec_get (m_routers g) nxt;
  '(inputPort, g0) ← random_mod (vsize (m_input_unit nxt_router)) g;
  iu ← get_iu nxt inputPort g0;
  if String.eqb (InputUnit.get_direction iu) "Local" then Ok (false, g0)
  else b ← vec_get (bubble g0) id; exchange_inter id nxt inputPort b g0.

Definition move_inter_bubble (id : Z) (g : GarnetNetwork) : result (bool * GarnetNetwork) :=
  b ← vec_get (bubble g) id;
  assert_ (last_inter_movement_cycle b <=? cur) ;;
  d ← cyc_sub cur (last_inter_movement_cycle b);
  if m_inter_bubble_period (g_config g) <=? d then
    '(nxt, sense) ← move_next_router (m_num_rows (g_config g)) (vsize (m_routers g)) (router_id b) (sense_inc b);
    g1 ← on_bubble id (with_sense_inc sense) g;
    nxt_router ← vec_get (m_routers g1) nxt;
    search (try_inter id nxt) (length (m_input_unit nxt_router)) g1
  else Ok (false, g).

(** Under "cbs" the bubble only enters input ports of its own direction; when the router has
    none, the scan ends at the last port. *)
Definition cbs_dirn (mesh_row bubble_id : Z) (d : PortDirection) : bool :=
  if (0 <=? bubble_id) && (bubble_id <=? mesh_row - 1) then String.eqb d "South"
  else if (mesh_row <=? bubble_id) && (bubble_id <=? 2 * mesh_row - 1) then String.eqb d "North"
  else if (2 * mesh_row <=? bubble_id) && (bubble_id <=? 3 * mesh_row - 1) then String.eqb d "East"
  else if (3 * mesh_row <=? bubble_id) && (bubble_id <=? 4 * mesh_row - 1) then String.eqb d "West"
  else false.

Fixpoint cbs_inport (mesh_row id inport_ : Z) (ius : list InputUnit) : option Z :=
  match ius with
  | [] => None
  | iu :: [] => Some inport_
  | iu :: ius' => if cbs_dirn mesh_row id (InputUnit.get_direction iu) then Some inport_
                  else cbs_inport mesh_row id (inport_ + 1) ius'
  end.

Definition try_inter_cbs (id nxt : Z) (g : GarnetNetwork) : result (bool * GarnetNetwork) :=
  nxt_router ← vec_get (m_routers g) nxt;
  match cbs_inport (m_num_rows (g_config g)) id 0 (m_input_unit nxt_router) with
  | None => Err EAssert
  | Some inputPort => b ← vec_get (bubble g) id; exchange_inter id nxt inputPort b g
  end.

Definition move_inter_bubble_cbs (id : Z) (g : GarnetNetwork) : result (bool * GarnetNetwork) :=
  b ← vec_get (bubble g) id;
  assert_ (last_inter_movement_cycle b <=? cur) ;;
  d ← cyc_sub cur (last_inter_movement_cycle b);
  if m_inter_bubble_period (g_config g) <=? d then
    nxt ← move_next_router_cbs (m_num_rows (g_config g)) (vsize (m_routers g)) (router_id b) id;
    nxt_router ← vec_get (m_routers g) nxt;
    search (try_inter_cbs id nxt) (length (m_input_unit nxt_router)) g
  else Ok (false, g).
End Bubble.
