(* ===== verification/NetLens.v ===== *)
(** * Reading and updating the units of a network

    [put_iu] and [put_ou] replace one unit; the lemmas say what every reader sees afterwards.
    The skeleton of a network (identities, directions and wiring of the ports, routing units) is what bubble
    movement never changes, and it alone determines which output unit feeds an input port. *)

From S2P Require Import Prelude Flit FlitBuffer Consumer Config RoutingUnit RoutingTable MeshRouting NetworkLink.
From S2P Require Import VirtualChannel OutVcState OutputUnit InputUnit RouterState SwitchTheory.
From S2P Require Import MessageBuffer NetStats NetworkInterface GarnetNetwork Bubble.
Local Open Scope Z_scope.

Definition put_iu (rid i : Z) (iu : InputUnit) (g : GarnetNetwork) : GarnetNetwork :=
  with_m_routers (alter (fun r => with_m_input_unit (<[Z.to_nat i := iu]> (m_input_unit r)) r)
                    (Z.to_nat rid) (m_routers g)) g.
Definition put_ou (rid o : Z) (ou : OutputUnit) (g : GarnetNetwork) : GarnetNetwork :=
  with_m_routers (alter (fun r => with_m_output_unit (<[Z.to_nat o := ou]> (m_output_unit r)) r)
                    (Z.to_nat rid) (m_routers g)) g.

Lemma vec_get_alter {A} (f : A -> A) (l : list A) i j : 0 <= i ->
  vec_get (alter f (Z.to_nat i) l) j = (a ← vec_get l j; Ok (if decide (j = i) then f a else a)).
Proof.
  intros Hi. unfold vec_get. destruct (Z.ltb_spec j 0); [done|]. destruct (decide (j = i)) as [->|].
  - rewrite list_lookup_alter_eq. by destruct (l !! Z.to_nat i).
  - rewrite list_lookup_alter_ne by lia. by destruct (l !! Z.to_nat j).
Qed.

Lemma vsize_alter {A} (f : A -> A) (l : list A) i : vsize (alter f i l) = vsize l.
Proof. unfold vsize. by rewrite length_alter. Qed.

Lemma alter_vec_set {A} (f : A -> A) (l : list A) i a :
  vec_get l i = Ok a -> <[Z.to_nat i := f a]> l = alter f (Z.to_nat i) l.
Proof.
  intros [_ Ha]%vec_get_Ok. apply list_eq. intros j. destruct (decide (j = Z.to_nat i)) as [->|].
  - rewrite list_lookup_alter_eq, Ha. cbn. apply list_lookup_insert_eq. by eapply lookup_lt_Some.
  - by rewrite list_lookup_alter_ne, list_lookup_insert_ne by done.
Qed.

(** ** Readers *)

Lemma get_iu_Ok rid i g iu : get_iu rid i g = Ok iu <->
  exists r, vec_get (m_routers g) rid = Ok r /\ vec_get (m_input_unit r) i = Ok iu.
Proof. apply bind_Ok. Qed.

Lemma get_ou_Ok rid o g ou : get_ou rid o g = Ok ou <->
  exists r, vec_get (m_routers g) rid = Ok r /\ vec_get (m_output_unit r) o = Ok ou.
Proof. apply bind_Ok. Qed.

Section Lens.
Context (g : GarnetNetwork) (rid i : Z).

Lemma on_router_Ok f r r' : vec_get (m_routers g) rid = Ok r -> f r = Ok r' ->
  on_router rid f g = Ok (with_m_routers (<[Z.to_nat rid := r']> (m_routers g)) g).
Proof. intros Hr Hf. unfold on_router. by rewrite (vec_update_Ok _ _ _ _ _ Hr Hf). Qed.

Lemma on_net_iu_Ok f iu iu' : get_iu rid i g = Ok iu -> f iu = Ok iu' ->
  on_net_iu rid i f g = Ok (put_iu rid i iu' g).
Proof.
  intros (r & Hr & Hi)%get_iu_Ok Hf. unfold on_net_iu, put_iu.
  erewrite on_router_Ok; [|exact Hr | unfold on_iu; by rewrite (vec_update_Ok _ _ _ _ _ Hi Hf)].
  by rewrite <- (alter_vec_set _ _ _ _ Hr).
Qed.

Lemma on_net_ou_Ok f ou ou' : get_ou rid i g = Ok ou -> f ou = Ok ou' ->
  on_net_ou rid i f g = Ok (put_ou rid i ou' g).
Proof.
  intros (r & Hr & Hi)%get_ou_Ok Hf. unfold on_net_ou, put_ou.
  erewrite on_router_Ok; [|exact Hr | unfold on_ou; by rewrite (vec_update_Ok _ _ _ _ _ Hi Hf)].
  by rewrite <- (alter_vec_set _ _ _ _ Hr).
Qed.

Lemma vec_update_inv {A} (l : list A) k (f : A -> result A) l' : vec_update l k f = Ok l' ->
  exists a b, vec_get l k = Ok a /\ f a = Ok b /\ l' = <[Z.to_nat k := b]> l.
Proof. unfold vec_update. intros H. inv_ok. rename select (vec_set _ _ _ = _) into Hs. apply vec_set_Ok in Hs as [_ ->]. eauto 10. Qed.

Lemma on_router_inv f g' : on_router rid f g = Ok g' ->
  exists r r', vec_get (m_routers g) rid = Ok r /\ f r = Ok r' /\
    g' = with_m_routers (<[Z.to_nat rid := r']> (m_routers g)) g.
Proof. unfold on_router. intros H. inv_ok. rename select (vec_update _ _ _ = _) into Hu. apply vec_update_inv in Hu as (?&?&?&?&->). eauto 10. Qed.

Lemma on_net_iu_inv f g' : on_net_iu rid i f g = Ok g' ->
  exists iu iu', get_iu rid i g = Ok iu /\ f iu = Ok iu' /\ g' = put_iu rid i iu' g.
Proof.
  intros (r & r' & Hr & Hf & ->)%on_router_inv. unfold on_iu in Hf. inv_ok.
  rename select (vec_update _ _ _ = _) into Hu. apply vec_update_inv in Hu as (iu & iu' & Hi & Hfi & ->).
  exists iu, iu'. split_and!; [apply get_iu_Ok; eauto | done |].
  unfold put_iu. by rewrite <- (alter_vec_set _ _ _ _ Hr).
Qed.

Lemma on_net_ou_inv f g' : on_net_ou rid i f g = Ok g' ->
  exists ou ou', get_ou rid i g = Ok ou /\ f ou = Ok ou' /\ g' = put_ou rid i ou' g.
Proof.
  intros (r & r' & Hr & Hf & ->)%on_router_inv. unfold on_ou in Hf. inv_ok.
  rename select (vec_update _ _ _ = _) into Hu. apply vec_update_inv in Hu as (ou & ou' & Hi & Hfi & ->).
  exists ou, ou'. split_and!; [apply get_ou_Ok; eauto | done |].
  unfold put_ou. by rewrite <- (alter_vec_set _ _ _ _ Hr).
Qed.

(** What a reader sees after a unit was replaced. *)
Lemma get_iu_put_iu iu old rid' i' : get_iu rid i g = Ok old ->
  get_iu rid' i' (put_iu rid i iu g) = if decide (rid' = rid /\ i' = i) then Ok iu else get_iu rid' i' g.
Proof.
  intros (r & Hr & Hi)%get_iu_Ok. unfold get_iu, put_iu. cbn.
  pose proof (vec_get_range _ _ _ Hr). pose proof (vec_get_range _ _ _ Hi).
  rewrite vec_get_alter by lia. destruct (decide (rid' = rid)) as [->|].
  - rewrite Hr. cbn. destruct (decide (i' = i)) as [->|].
    + rewrite decide_True by done. by apply (vec_get_insert _ _ _ _ Hi).
    + rewrite decide_False by tauto. apply vec_get_insert_ne; [lia | done].
  - rewrite (decide_False (P := _ /\ _)) by tauto. by destruct (vec_get (m_routers g) rid').
Qed.

Lemma get_ou_put_ou ou old rid' o' : get_ou rid i g = Ok old ->
  get_ou rid' o' (put_ou rid i ou g) = if decide (rid' = rid /\ o' = i) then Ok ou else get_ou rid' o' g.
Proof.
  intros (r & Hr & Hi)%get_ou_Ok. unfold get_ou, put_ou. cbn.
  pose proof (vec_get_range _ _ _ Hr). pose proof (vec_get_range _ _ _ Hi).
  rewrite vec_get_alter by lia. destruct (decide (rid' = rid)) as [->|].
  - rewrite Hr. cbn. destruct (decide (o' = i)) as [->|].
    + rewrite decide_True by done. by apply (vec_get_insert _ _ _ _ Hi).
    + rewrite decide_False by tauto. apply vec_get_insert_ne; [lia | done].
  - rewrite (decide_False (P := _ /\ _)) by tauto. by destruct (vec_get (m_routers g) rid').
Qed.

Lemma get_ou_put_iu iu rid' o' : 0 <= rid -> get_ou rid' o' (put_iu rid i iu g) = get_ou rid' o' g.
Proof.
  intros H0. unfold get_ou, put_iu. cbn. rewrite vec_get_alter by done.
  destruct (vec_get (m_routers g) rid'); cbn; [|done]. by case_decide.
Qed.

Lemma get_iu_put_ou ou rid' i' : 0 <= rid -> get_iu rid' i' (put_ou rid i ou g) = get_iu rid' i' g.
Proof.
  intros H0. unfold get_iu, put_ou. cbn. rewrite vec_get_alter by done.
  destruct (vec_get (m_routers g) rid'); cbn; [|done]. by case_decide.
Qed.
End Lens.

Lemma get_iu_range rid i g iu : get_iu rid i g = Ok iu -> 0 <= rid < vsize (m_routers g) /\ 0 <= i.
Proof. intros (r & Hr & Hi)%get_iu_Ok. apply vec_get_range in Hr, Hi. lia. Qed.
Lemma get_ou_range rid o g ou : get_ou rid o g = Ok ou -> 0 <= rid < vsize (m_routers g) /\ 0 <= o.
Proof. intros (r & Hr & Hi)%get_ou_Ok. apply vec_get_range in Hr, Hi. lia. Qed.

(** ** The skeleton *)

(** Identity, direction and upstream router of an input port. *)
Definition iu_sk (iu : InputUnit) : Z * PortDirection * Z :=
  (InputUnit.m_id iu, InputUnit.m_direction iu, m_src_router iu).

(** Destination router, direction and dimensions of an output port. *)
Record OutSk := mkOutSk { os_dest : Z; os_dirn : PortDirection; os_vp : Z; os_nv : Z }.

Record RouterSk := mkRouterSk {
  sk_id : Z; sk_in : list (Z * PortDirection * Z); sk_out : list OutSk; sk_routing : RoutingUnit
}.

Definition ou_sk (ou : OutputUnit) : OutSk :=
  mkOutSk (m_dest_router ou) (OutputUnit.m_direction ou) (OutputUnit.m_vc_per_vnet ou) (vsize (m_outvc_state ou)).

Definition r_sk (r : Router) : RouterSk :=
  mkRouterSk (RouterState.m_id r) (map iu_sk (m_input_unit r)) (map ou_sk (m_output_unit r)) (m_routing_unit r).
Definition skel (g : GarnetNetwork) : list RouterSk := map r_sk (m_routers g).

(** Output port [o] exists and, if it leads to a node, it leads to one the route is for. *)
Definition leads (row : RouterSk) (route : RouteInfo) (o : Z) : Prop :=
  0 <= o < vsize (sk_out row) /\
  forall d, vec_get (sk_out row) o = Ok d -> os_dirn d = "Local"%string -> reaches (net_dest route) (sk_routing row) o.

Lemma vec_get_map {A B} (f : A -> B) (l : list A) i :
  vec_get (map f l) i = (a ← vec_get l i; Ok (f a)).
Proof.
  unfold vec_get. destruct (i <? 0); [done|]. change (map f l) with (f <$> l).
  rewrite list_lookup_fmap. by destruct (l !! Z.to_nat i).
Qed.

Lemma map_eq_get {A B} (f : A -> B) (l l' : list A) i a' : map f l' = map f l -> vec_get l' i = Ok a' ->
  exists a, vec_get l i = Ok a /\ f a' = f a.
Proof.
  intros E Ha. assert (H : vec_get (map f l') i = Ok (f a')) by (by rewrite vec_get_map, Ha). rewrite E, vec_get_map in H.
  destruct (vec_get l i) as [a|]; [|done]. cbn in H. injection H as H. eauto.
Qed.

Lemma vsize_map {A B} (f : A -> B) (l : list A) : vsize (map f l) = vsize l.
Proof. unfold vsize. by rewrite length_map. Qed.

Lemma map_alter_id {A B} (h : A -> B) (f : A -> A) (l : list A) k :
  (forall a, l !! k = Some a -> h (f a) = h a) -> map h (alter f k l) = map h l.
Proof.
  intros H. apply list_eq. intros j. change (map h ?x) with (h <$> x).
  rewrite !list_lookup_fmap. destruct (decide (j = k)) as [->|].
  - rewrite list_lookup_alter_eq. specialize (H). destruct (l !! k) eqn:E; cbn; [by rewrite H | done].
  - by rewrite list_lookup_alter_ne by done.
Qed.

Lemma map_insert_id {A B} (h : A -> B) (l : list A) k a b :
  l !! k = Some a -> h b = h a -> map h (<[k := b]> l) = map h l.
Proof.
  intros Ha Hb. change (map h ?x) with (h <$> x). rewrite list_fmap_insert, Hb.
  apply list_insert_id. by rewrite list_lookup_fmap, Ha.
Qed.

Lemma skel_put_iu rid i iu old g : get_iu rid i g = Ok old -> iu_sk iu = iu_sk old ->
  skel (put_iu rid i iu g) = skel g.
Proof.
  intros (r & [_ Hr]%vec_get_Ok & [_ Hi]%vec_get_Ok)%get_iu_Ok Hs. unfold skel, put_iu. cbn.
  apply map_alter_id. intros r' Hr'. rewrite Hr in Hr'. injection Hr' as <-. unfold r_sk. cbn. by rewrite (map_insert_id iu_sk _ _ _ _ Hi Hs).
Qed.

Lemma skel_put_ou rid o ou old g : get_ou rid o g = Ok old -> ou_sk ou = ou_sk old ->
  skel (put_ou rid o ou g) = skel g.
Proof.
  intros (r & [_ Hr]%vec_get_Ok & [_ Hi]%vec_get_Ok)%get_ou_Ok Hs. unfold skel, put_ou. cbn.
  apply map_alter_id. intros r' Hr'. rewrite Hr in Hr'. injection Hr' as <-. unfold r_sk. cbn.
  by rewrite (map_insert_id ou_sk _ _ _ _ Hi Hs).
Qed.

(** The upstream output unit, from the skeleton. *)
Fixpoint find_dest (ii router_id : Z) (ds : list OutSk) : result Z :=
  match ds with
  | [] => Err EIndex
  | d :: ds' => if os_dest d =? router_id then Ok ii else find_dest (ii + 1) router_id ds'
  end.

Definition up_of (sk : list RouterSk) (rid src : Z) : result (Z * Z) :=
  row ← vec_get sk src; ii ← find_dest 0 rid (sk_out row); Ok (src, ii).

Lemma find_outport_dest ii rid ous : find_outport ii rid ous = find_dest ii rid (map ou_sk ous).
Proof. revert ii. induction ous as [|ou ous IH]; intros ii; cbn; [done|]. unfold get_dest_router. by rewrite IH. Qed.

Lemma upstream_op_sk rid iu g : upstream_op rid iu g = up_of (skel g) rid (m_src_router iu).
Proof.
  unfold upstream_op, up_of, skel, get_src_router. rewrite vec_get_map.
  destruct (vec_get (m_routers g) (m_src_router iu)); cbn; [|done]. by rewrite find_outport_dest.
Qed.

Lemma find_dest_range ii rid ds o : find_dest ii rid ds = Ok o ->
  ii <= o < ii + vsize ds /\ exists d, vec_get ds (o - ii) = Ok d /\ os_dest d = rid.
Proof.
  revert ii. induction ds as [|d ds IH]; intros ii; cbn [find_dest]; [done|].
  destruct (Z.eqb_spec (os_dest d) rid) as [E|].
  - intros [= <-]. split; [unfold vsize; cbn; lia|]. replace (ii - ii) with 0 by lia. by exists d.
  - intros Hf. destruct (IH _ Hf) as [Hr (d' & Hd & Hdd)]. split; [unfold vsize in *; cbn; lia|]. exists d'.
    split; [|done]. apply vec_get_Ok in Hd as [Hd0 Hd]. apply vec_get_Ok. split; [lia|].
    replace (Z.to_nat (o - ii)) with (S (Z.to_nat (o - (ii + 1)))) by lia. done.
Qed.

Lemma up_of_inv sk rid src p : up_of sk rid src = Ok p ->
  p.1 = src /\ exists row d, vec_get sk src = Ok row /\ vec_get (sk_out row) p.2 = Ok d /\ os_dest d = rid.
Proof.
  unfold up_of. intros H. inv_ok. cbn. split; [done|]. rename select (find_dest _ _ _ = _) into Hf.
  apply find_dest_range in Hf as [_ (d & Hf & Hd)]. eexists _, d. split_and!; [done| |done].
  by rewrite Z.sub_0_r in Hf.
Qed.
