(* ===== verification/NetRouting.v ===== *)
(** * Route computation in a mesh network

    [grid] is what the creation of a mesh establishes for routing; it depends on the configuration and on the
    skeleton only.  In every state of such a network [Router::route_compute] returns: the mesh algorithms
    choose a port to a router one hop closer, the adaptive ones after they asked the neighbours for
    their free VCs ([neighbour_freeVC]), and the routing table is used at the destination and by the table algorithm. *)

From S2P Require Import Topology TopologyProperties.
From S2P Require Import Prelude Flit FlitBuffer RubySet NetDest NetDestTheory Consumer Config RoutingUnit RoutingTable MeshRouting NetworkLink.
From S2P Require Import VirtualChannel OutVcState OutputUnit InputUnit RouterState SwitchTheory.
From S2P Require Import MessageBuffer NetStats NetworkInterface GarnetNetwork Bubble NetLens.
Local Open Scope Z_scope.

Abbreviation alg_of c := (routing_algorithm_of (m_routing_algorithm c)).

(** Every router has, for each neighbour, an output port that leads to it and an input port from it, under the names
    its routing unit knows.  The adaptive algorithms find neighbours with [get_RouterInDirn], which is wrong on
    meshes with more rows than columns, and the custom algorithm is left to the user (it panics). *)
Record grid (rows cols : Z) (c : Config) (sk : list RouterSk) : Prop := {
  gd_pos : 0 < rows /\ 0 < cols;
  gd_rows : m_num_rows c = rows;
  gd_cols : m_num_cols c = cols;
  gd_size : vsize sk = rows * cols;
  gd_alg : alg_of c <> CUSTOM_;
  gd_wide : adaptive (alg_of c) = true -> rows <= cols;
  gd_id : forall rid row, vec_get sk rid = Ok row -> sk_id row = rid;
  gd_out : forall rid row d, vec_get sk rid = Ok row -> has_neighbour rows cols d rid = true ->
    exists o os, m_outports_dirn2idx (sk_routing row) !! d = Some o /\ vec_get (sk_out row) o = Ok os /\
      os_dirn os = d /\ os_dest os = neighbour cols d rid;
  gd_in : forall rid row d, vec_get sk rid = Ok row -> has_neighbour rows cols d rid = true ->
    exists i e, m_inports_dirn2idx (sk_routing row) !! d = Some i /\ vec_get (sk_in row) i = Ok e /\ e.1.2 = d;
  gd_table : forall rid row, vec_get sk rid = Ok row ->
    vsize (m_routing_table (sk_routing row)) = vsize (sk_out row)
}.

(** Every input unit has the VCs of virtual network 0. *)
Definition vcs_ok (g : GarnetNetwork) : Prop :=
  forall rid i iu, get_iu rid i g = Ok iu -> InputUnit.m_vc_per_vnet iu <= vsize (m_vcs iu).

(** The route's destination router exists, the table of every router has a link to the destination, and the vnet is one
    the output units know. *)
Record route_ok (m : Z) (sk : list RouterSk) (route : RouteInfo) : Prop := {
  ro_dest : in_mesh m m (dest_router route);
  ro_table : forall rid row, vec_get sk rid = Ok row ->
    tables_ok (net_dest route) (sk_routing row) /\ (exists l, reaches (net_dest route) (sk_routing row) l) /\
    Forall (fun os => 0 <= vnet route * os_vp os /\ 0 <= os_vp os /\ (vnet route + 1) * os_vp os <= os_nv os)
      (sk_out row)
}.

Lemma getNumFreeVCs_total cur vnet ou :
  0 <= vnet * OutputUnit.m_vc_per_vnet ou -> 0 <= OutputUnit.m_vc_per_vnet ou ->
  (vnet + 1) * OutputUnit.m_vc_per_vnet ou <= vsize (m_outvc_state ou) ->
  exists n, getNumFreeVCs cur vnet ou = Ok n /\ 0 <= n.
Proof.
  intros H0 H1 H2. unfold getNumFreeVCs. apply (for_range_total (fun _ n => 0 <= n)); [lia|].
  intros k n Hk Hn. unfold is_vc_idle. destruct (vec_get_in_range (m_outvc_state ou) k) as [o ->]; [lia|].
  cbn. eexists. split; [done|]. destruct (isInState IDLE_ cur o); lia.
Qed.

Lemma get_numFreeVC_total d iu : InputUnit.m_direction iu = d -> InputUnit.m_vc_per_vnet iu <= vsize (m_vcs iu) ->
  exists n, InputUnit.get_numFreeVC d iu = Ok n.
Proof.
  intros <- Hle. unfold InputUnit.get_numFreeVC. rewrite String.eqb_refl. cbn [assert_ mbind result_bind].
  destruct (for_range_total (fun _ _ => True) (fun vc_ freeVC => e ← vc_isEmpty vc_ iu; Ok (if e : bool then freeVC + 1 else freeVC))
    (Z.to_nat (InputUnit.m_vc_per_vnet iu)) 0 0) as (n & H & _); [done | | by exists n].
  intros k n Hk _. unfold vc_isEmpty. destruct (vec_get_in_range (m_vcs iu) k) as [v ->]; [lia|]. cbn. eauto.
Qed.

Lemma with_rand_id g : with_m_rand (m_rand g) g = g.
Proof. by destruct g. Qed.

(** The neighbour in direction [d] has this router as its neighbour in the opposite direction. *)
Lemma neighbour_opposite rows cols d my : 0 < rows -> 0 < cols -> in_mesh rows cols my -> has_neighbour rows cols d my = true ->
  has_neighbour rows cols (opposite d) (neighbour cols d my) = true /\ opposite d <> "Local"%string.
Proof.
  intros Hr Hc Hmy. pose proof (coords rows cols Hc my Hmy) as (E & Hx & Hy). unfold has_neighbour, opposite, neighbour.
  destruct (String.eqb d "East"); [|destruct (String.eqb d "West"); [|
    destruct (String.eqb d "North"); [|destruct (String.eqb d "South"); [|done]]]]; intros Hn%Z.ltb_lt; cbn; (split; [|done]); apply Z.ltb_lt.
  - destruct (coords_unique cols (my + 1) (xof cols my + 1) (yof cols my)) as [-> _]; lia.
  - destruct (coords_unique cols (my - 1) (xof cols my - 1) (yof cols my)) as [-> _]; lia.
  - destruct (coords_unique cols (my + cols) (xof cols my) (yof cols my + 1)) as [_ ->]; lia.
  - destruct (coords_unique cols (my - cols) (xof cols my) (yof cols my - 1)) as [_ ->]; lia.
Qed.

Lemma skel_row g rid r : vec_get (m_routers g) rid = Ok r -> vec_get (skel g) rid = Ok (r_sk r).
Proof. intros Hr. unfold skel. by rewrite vec_get_map, Hr. Qed.

(** The routing unit that is written back is the one that was read. *)
Lemma routing_unit_id g rid r n : vec_get (m_routers g) rid = Ok r ->
  on_router rid (fun r0 => Ok (with_m_routing_unit (m_routing_unit r) r0)) (with_m_rand n g) = Ok (with_m_rand n g).
Proof.
  intros Hr. erewrite (on_router_Ok (with_m_rand n g)); [|exact Hr | done].
  assert (E : with_m_routing_unit (m_routing_unit r) r = r) by (by destruct r). rewrite E.
  apply vec_get_Ok in Hr as [_ Hr]. unfold with_m_routers. cbn. rewrite list_insert_id by done. by destruct g.
Qed.

Section Grid.
Context (rand : nat -> Z) (cur rows cols : Z) (g : GarnetNetwork).
Context (Hg : grid rows cols (g_config g) (skel g)) (Hv : vcs_ok g).

Abbreviation alg := (alg_of (g_config g)).

Lemma grid_router rid : in_mesh rows cols rid -> exists r, vec_get (m_routers g) rid = Ok r.
Proof. intros H. apply vec_get_in_range. rewrite <- (vsize_map r_sk). change (map r_sk (m_routers g)) with (skel g). by rewrite (gd_size _ _ _ _ Hg). Qed.

Lemma grid_mesh rid r : vec_get (m_routers g) rid = Ok r -> in_mesh rows cols rid.
Proof. intros Hr%skel_row%vec_get_range. by rewrite (gd_size _ _ _ _ Hg) in Hr. Qed.

(** A neighbour answers, and asking changes nothing. *)
Lemma neighbour_freeVC_total my d n : rows <= cols -> in_mesh rows cols my -> has_neighbour rows cols d my = true ->
  exists free, neighbour_freeVC my d (with_m_rand n g) = Ok (free, with_m_rand n g).
Proof.
  intros Hle Hmy Hn. destruct (gd_pos _ _ _ _ Hg) as [Hr0 Hc0].
  destruct (get_RouterInDirn_id_wide rows cols d my ltac:(lia) Hmy Hn) as [Hid Hnm].
  destruct (neighbour_opposite rows cols d my Hr0 Hc0 Hmy Hn) as [Ho Hl].
  destruct (grid_router _ Hnm) as [r Hr]. destruct (gd_in _ _ _ _ Hg _ _ _ (skel_row _ _ _ Hr) Ho) as (i & e & Hi & He & Hd).
  cbn in Hi, He. rewrite vec_get_map in He. apply bind_Ok in He as (iu & Hiu & E). apply Ok_inj in E as <-. cbn in Hd.
  assert (Hsz : vsize (m_routers g) = rows * cols) by (rewrite <- (gd_size _ _ _ _ Hg); unfold skel; by rewrite vsize_map).
  unfold neighbour_freeVC, get_RouterInDirn. cbn [g_config m_routers with_m_rand]. rewrite (gd_cols _ _ _ _ Hg), Hsz, Hid.
  cbn [mbind result_bind]. rewrite Hr. cbn [mbind result_bind]. unfold RouterState.get_numFreeVC.
  rewrite (proj2 (String.eqb_neq _ _) Hl). cbn [negb assert_ mbind result_bind].
  unfold map_index. unfold PortDirection in *. rewrite Hi. set (r' := with_m_routing_unit _ r).
  assert (Eu : forall u, with_m_inports_dirn2idx (m_inports_dirn2idx u) u = u) by (by intros []).
  assert (Er : r' = r) by (unfold r'; rewrite Eu; by destruct r). rewrite Er.
  destruct (get_numFreeVC_total (opposite d) iu Hd) as [free Hf]; [apply (Hv (neighbour cols d my) i), get_iu_Ok; eauto|].
  rewrite Hiu. cbn [mbind result_bind]. rewrite Hf. cbn [mbind result_bind]. rewrite (vec_set_Ok_get _ _ _ _ Hr). cbn [mbind result_bind].
  exists free. apply vec_get_Ok in Hr as [_ Hr]. rewrite list_insert_id by done. by destruct g.
Qed.
(** The choice of a mesh algorithm draws a random number at most. *)
Lemma grid_dirn my dest : is_mesh_alg alg = true -> in_mesh rows cols my -> in_mesh rows cols dest -> my <> dest ->
  exists d n, mesh_dirn (random rand) (neighbour_freeVC my) alg rows cols my dest g = Some (Ok (d, with_m_rand n g)) /\
    productive cols my dest d.
Proof.
  intros Ha Hmy Hd Hne. destruct (gd_pos _ _ _ _ Hg) as [Hr0 Hc0].
  destruct (chooses_total (random rand) (neighbour_freeVC my) rows cols Hr0 Hc0 (fun w => exists n, w = with_m_rand n g) alg my dest
    Ha Hmy Hd Hne) with (w := g) as (d & w' & Hc & n & ->).
  - intros w [n ->]. by exists (S n).
  - intros Had d w [n ->] Hp. destruct (neighbour_freeVC_total my d n) as [free Hf]; [by apply (gd_wide _ _ _ _ Hg) | done | |].
    + by apply (productive_has_neighbour rows cols my dest).
    + exists free, (with_m_rand n g). split; [done | by exists n].
  - exists (m_rand g). by rewrite with_rand_id.
  - exists d, n. split; [done|].
    by apply (chooses_spec (random rand) (neighbour_freeVC my) rows cols Hr0 Hc0 alg my dest d Ha Hmy Hd); eexists _, _.
Qed.

(** Away from the destination a mesh algorithm finds the port to a router one hop closer. *)
Lemma mesh_hop_total rid route inport dirn r : is_mesh_alg alg = true -> vec_get (m_routers g) rid = Ok r ->
  in_mesh rows cols (dest_router route) -> dest_router route <> rid ->
  exists o n ou, route_compute rand cur rid route inport dirn g = Ok (o, with_m_rand n g) /\ vec_get (m_output_unit r) o = Ok ou /\
    productive cols rid (dest_router route) (OutputUnit.m_direction ou) /\ m_dest_router ou = neighbour cols (OutputUnit.m_direction ou) rid.
Proof.
  intros Ha Hr Hd Hne. destruct (gd_pos _ _ _ _ Hg) as [Hr0 Hc0]. pose proof (grid_mesh _ _ Hr) as Hmy.
  assert (Hid : RouterState.m_id r = rid) by (apply (gd_id _ _ _ _ Hg _ _ (skel_row _ _ _ Hr))).
  destruct (grid_dirn rid (dest_router route) Ha Hmy Hd ltac:(done)) as (d & n & Hdir & Hp).
  pose proof (productive_has_neighbour rows cols rid _ d Hc0 Hmy Hd Hp) as Hn.
  destruct (gd_out _ _ _ _ Hg _ _ _ (skel_row _ _ _ Hr) Hn) as (o & os & Ho & Hos & Hdo & Hdest).
  cbn in Ho, Hos. rewrite vec_get_map in Hos. apply bind_Ok in Hos as (ou & Hou & E). apply Ok_inj in E as <-. cbn in Hdo, Hdest.
  unfold route_compute, outportCompute. rewrite Hr. cbn [mbind result_bind]. rewrite Hid.
  rewrite (proj2 (Z.eqb_neq _ _) Hne), (gd_rows _ _ _ _ Hg), (gd_cols _ _ _ _ Hg), Hdir. cbn [mbind result_bind].
  assert (Eru : outport_of_dirn d (m_routing_unit r) = (o, m_routing_unit r)).
  { unfold outport_of_dirn, map_index. unfold PortDirection in Ho. rewrite Ho. by destruct (m_routing_unit r). }
  rewrite Eru. cbn [mbind result_bind]. pose proof (vec_get_range _ _ _ Hou). rewrite (proj2 (Z.eqb_neq o (-1))) by lia.
  cbn [negb assert_ mbind result_bind]. rewrite (routing_unit_id _ _ _ n Hr). cbn [mbind result_bind].
  exists o, n, ou. by rewrite Hdo.
Qed.

(** The table lookup. *)
Lemma lookup_total m route rid r : route_ok m (skel g) route -> vec_get (m_routers g) rid = Ok r ->
  exists l, lookupRoutingTable (fun link => output_freeVCs cur rid (vnet route) link g) (net_dest route) (m_routing_unit r) = Ok l /\
    leads (r_sk r) route l.
Proof.
  intros Hro Hr. destruct (ro_table _ _ _ Hro _ _ (skel_row _ _ _ Hr)) as (Ht & Hreach & Hdim).
  pose proof (gd_table _ _ _ _ Hg _ _ (skel_row _ _ _ Hr)) as Hsz. cbn in Ht, Hreach, Hdim, Hsz. rewrite vsize_map in Hsz.
  destruct (lookupRoutingTable_spec (net_dest route) (m_routing_unit r)
    (fun link => output_freeVCs cur rid (vnet route) link g) Ht) as (l & w & n & Hl & Hr' & _).
  - intros l Hl. unfold output_freeVCs. rewrite Hr. cbn [mbind result_bind].
    destruct (vec_get_in_range (m_output_unit r) l) as [ou Hou]; [lia|]. rewrite Hou. cbn [mbind result_bind].
    assert (Hos : vec_get (map ou_sk (m_output_unit r)) l = Ok (ou_sk ou)) by (by rewrite vec_get_map, Hou).
    destruct (Forall_vec_get _ _ _ _ Hdim Hos) as (? & ? & ?). by apply getNumFreeVCs_total.
  - done.
  - exists l. split; [done|]. pose proof (reaches_range _ _ _ Hr'). split; [cbn; rewrite vsize_map; unfold vsize in *; lia | done].
Qed.

Lemma route_table_total m route rid inport dirn r : route_ok m (skel g) route -> vec_get (m_routers g) rid = Ok r ->
  dest_router route = rid \/ is_mesh_alg alg = false ->
  exists o, route_compute rand cur rid route inport dirn g = Ok (o, g) /\ leads (r_sk r) route o.
Proof.
  intros Hro Hr Htab. destruct (lookup_total m route rid r Hro Hr) as (l & Hl & Hlead). exists l. split; [|done].
  assert (Hid : RouterState.m_id r = rid) by (apply (gd_id _ _ _ _ Hg _ _ (skel_row _ _ _ Hr))).
  pose proof (routing_unit_id _ _ r (m_rand g) Hr) as Hru. rewrite with_rand_id in Hru.
  unfold route_compute, outportCompute. rewrite Hr. cbn [mbind result_bind]. rewrite Hid, Hl. cbn [mbind result_bind].
  destruct (Z.eqb_spec (dest_router route) rid) as [|Hne]; [cbn [mbind result_bind]; by rewrite Hru|]. destruct Htab as [|Ha]; [done|].
  assert (Em : mesh_dirn (random rand) (neighbour_freeVC rid) alg (m_num_rows (g_config g)) (m_num_cols (g_config g)) rid (dest_router route) g = None).
  { pose proof (gd_alg _ _ _ _ Hg). by destruct alg. }
  rewrite Em. cbn [mbind result_bind]. destruct Hlead as [Hrange _]. rewrite (proj2 (Z.eqb_neq l (-1))) by lia.
  cbn [negb assert_ mbind result_bind]. by rewrite Hru.
Qed.

(** Route computation returns in every router. *)
Lemma route_compute_grid m route rid inport dirn r : rows = m -> cols = m -> route_ok m (skel g) route -> vec_get (m_routers g) rid = Ok r ->
  exists o n, route_compute rand cur rid route inport dirn g = Ok (o, with_m_rand n g) /\ leads (r_sk r) route o.
Proof.
  intros Er Ec Hro Hr. destruct (is_mesh_alg alg) eqn:Ha; [destruct (decide (dest_router route = rid)) as [|Hne]|].
  - destruct (route_table_total m route rid inport dirn r Hro Hr) as (o & H & Hl); [by left|]. exists o, (m_rand g). by rewrite with_rand_id.
  - destruct (mesh_hop_total rid route inport dirn r Ha Hr) as (o & n & ou & H & Hou & Hp & _); [rewrite Er, Ec; apply Hro | done|].
    exists o, n. split; [done|]. split; [cbn; rewrite vsize_map; by eapply vec_get_range|]. intros os Hos El. cbn in Hos.
    rewrite vec_get_map, Hou in Hos. apply Ok_inj in Hos as <-. cbn in El. exfalso. rewrite El in Hp.
    by destruct Hp as [[? ?] | [[? ?] | [[? ?] | [? ?]]]].
  - destruct (route_table_total m route rid inport dirn r Hro Hr) as (o & H & Hl); [by right|]. exists o, (m_rand g). by rewrite with_rand_id.
Qed.
End Grid.

(** ** Routes

    A flit is routed hop by hop, and the network changes in between: a hop is one that some state of the network computes. *)

Section Routes.
Context (rows cols : Z) (alg : RoutingAlgorithm) (dest : Z).

(** A state of a mesh that routes with [alg]. *)
Definition grid_state (g : GarnetNetwork) : Prop :=
  grid rows cols (g_config g) (skel g) /\ vcs_ok g /\ alg_of (g_config g) = alg.

(** [route_compute] of router [my] sends a flit for router [dest] to an output port that leads to router [next]. *)
Definition net_hop (my next : Z) : Prop :=
  exists rand cur g route inport dirn r o g' ou, grid_state g /\ dest_router route = dest /\ vec_get (m_routers g) my = Ok r /\
    route_compute rand cur my route inport dirn g = Ok (o, g') /\ vec_get (m_output_unit r) o = Ok ou /\ m_dest_router ou = next.

Inductive net_route : nat -> Z -> Z -> Prop :=
  | net_route_here my : net_route 0 my my
  | net_route_hop n my next last : my <> dest -> net_hop my next -> net_route n next last -> net_route (S n) my last.

Context (Ha : is_mesh_alg alg = true) (Hdest : in_mesh rows cols dest).

Lemma net_hop_total rand cur g route inport dirn my : grid_state g -> dest_router route = dest -> in_mesh rows cols my -> my <> dest ->
  exists r o n ou, vec_get (m_routers g) my = Ok r /\ route_compute rand cur my route inport dirn g = Ok (o, with_m_rand n g) /\
    vec_get (m_output_unit r) o = Ok ou /\ in_mesh rows cols (m_dest_router ou) /\
    dist cols (m_dest_router ou) dest = dist cols my dest - 1.
Proof.
  intros (Hg & Hv & Hal) <- Hmy Hne. destruct (gd_pos _ _ _ _ Hg) as [Hr0 Hc0]. destruct (grid_router _ _ _ Hg my Hmy) as [r Hr].
  destruct (mesh_hop_total rand cur rows cols g Hg Hv my route inport dirn r) as (o & n & ou & H & Hou & Hp & Hn); [by rewrite Hal | done | done | done|].
  destruct (productive_closer rows cols Hr0 Hc0 my (dest_router route) _ Hmy Hdest Hp) as [H1 H2].
  exists r, o, n, ou. rewrite Hn. by split_and!; [..| exact H1 |].
Qed.

Lemma net_hop_closer my next : in_mesh rows cols my -> my <> dest -> net_hop my next ->
  in_mesh rows cols next /\ dist cols next dest = dist cols my dest - 1.
Proof.
  intros Hmy Hne (rand & cur & g & route & inport & dirn & r & o & g' & ou & Hg & Hd & Hr & H & Hou & <-).
  destruct (net_hop_total rand cur g route inport dirn my Hg Hd Hmy Hne) as (r1 & o1 & n & ou1 & Hr1 & H1 & Hou1 & Hm & Hdist).
  rewrite Hr in Hr1. apply Ok_inj in Hr1 as <-. rewrite H in H1. apply Ok_inj in H1 as [= <- _]. rewrite Hou in Hou1. by apply Ok_inj in Hou1 as <-.
Qed.

Lemma net_route_dist n my last : in_mesh rows cols my -> net_route n my last ->
  in_mesh rows cols last /\ dist cols last dest = dist cols my dest - Z.of_nat n.
Proof.
  intros Hmy Hr. induction Hr as [my | n my next last Hne Hh Hr IH]; [split; [done | lia]|].
  destruct (net_hop_closer my next Hmy Hne Hh) as [Hn Hd]. destruct (IH Hn) as [Hl Hd2]. split; [done | lia].
Qed.

Lemma net_route_exists g : grid_state g -> forall n my, in_mesh rows cols my -> dist cols my dest = Z.of_nat n -> net_route n my dest.
Proof.
  intros Hg. destruct (gd_pos _ _ _ _ (proj1 Hg)) as [Hr0 Hc0]. induction n as [|n IH]; intros my Hmy Hd.
  - rewrite (dist_zero rows cols Hc0 my dest Hmy Hdest Hd). constructor.
  - assert (Hne : my <> dest) by (intros ->; unfold dist in Hd; lia).
    pose (route := mkRouteInfo 0 (mkNetDest []) 0 0 0 dest 0).
    destruct (net_hop_total (fun _ => 0) 0 g route 0 "Local"%string my Hg eq_refl Hmy Hne) as (r & o & k & ou & Hr & H & Hou & Hm & Hdist).
    apply (net_route_hop _ _ (m_dest_router ou)); [done | | apply IH; [done | lia]].
    by exists (fun _ => 0), 0, g, route, 0, "Local"%string, r, o, (with_m_rand k g), ou.
Qed.
End Routes.

(** ** An executable check *)

Definition vforall {A} (l : list A) (p : Z -> A -> bool) : bool :=
  forallb (fun x => p x.1 x.2) (zip (seqZ 0 (vsize l)) l).

Lemma vforall_sound {A} (l : list A) p i a : vforall l p = true -> vec_get l i = Ok a -> p i a = true.
Proof.
  intros Hp [H0 Ha]%vec_get_Ok. unfold vforall in Hp. rewrite forallb_forall in Hp.
  apply (Hp (i, a)). apply list_elem_of_In, (list_elem_of_lookup_2 _ (Z.to_nat i)).
  apply lookup_zip_Some. split; [|done]. apply lookup_lt_Some in Ha.
  apply lookup_seqZ. unfold vsize. lia.
Qed.

Definition grid_b (rows cols : Z) (c : Config) (sk : list RouterSk) : bool :=
  bool_decide (0 < rows /\ 0 < cols /\ m_num_rows c = rows /\ m_num_cols c = cols /\ vsize sk = rows * cols) &&
  match alg_of c with CUSTOM_ => false | a => negb (adaptive a) || (rows <=? cols) end &&
  vforall sk (fun rid row => (sk_id row =? rid) && (vsize (m_routing_table (sk_routing row)) =? vsize (sk_out row)) &&
    forallb (fun d => negb (has_neighbour rows cols d rid) ||
      (match m_outports_dirn2idx (sk_routing row) !! d with
       | Some o => match vec_get (sk_out row) o with
                   | Ok os => String.eqb (os_dirn os) d && (os_dest os =? neighbour cols d rid)
                   | Err _ => false
                   end
       | None => false
       end &&
       match m_inports_dirn2idx (sk_routing row) !! d with
       | Some i => match vec_get (sk_in row) i with Ok e => String.eqb e.1.2 d | Err _ => false end
       | None => false
       end)) ["East"; "West"; "North"; "South"]%string).

Lemma has_neighbour_dirs rows cols d rid : has_neighbour rows cols d rid = true -> In d ["East"; "West"; "North"; "South"]%string.
Proof.
  unfold has_neighbour. destruct (String.eqb_spec d "East") as [->|]; [by left|].
  destruct (String.eqb_spec d "West") as [->|]; [by right; left|].
  destruct (String.eqb_spec d "North") as [->|]; [by do 2 right; left|].
  destruct (String.eqb_spec d "South") as [->|]; [by do 3 right; left | done].
Qed.

Lemma grid_b_sound rows cols c sk : grid_b rows cols c sk = true -> grid rows cols c sk.
Proof.
  unfold grid_b. intros [[(H1 & H2 & H3 & H4 & H5)%bool_decide_eq_true Ha]%andb_true_iff Hv]%andb_true_iff.
  assert (Hrow : forall rid row d, vec_get sk rid = Ok row -> has_neighbour rows cols d rid = true ->
    (exists o os, m_outports_dirn2idx (sk_routing row) !! d = Some o /\ vec_get (sk_out row) o = Ok os /\ os_dirn os = d /\ os_dest os = neighbour cols d rid) /\
    exists i e, m_inports_dirn2idx (sk_routing row) !! d = Some i /\ vec_get (sk_in row) i = Ok e /\ e.1.2 = d).
  { intros rid row d Hr Hn. apply (vforall_sound _ _ _ _ Hv), andb_true_iff in Hr as [_ Hr]. rewrite forallb_forall in Hr.
    specialize (Hr d (has_neighbour_dirs _ _ _ _ Hn)). cbn beta in Hr. rewrite Hn in Hr. cbn [negb orb] in Hr. apply andb_true_iff in Hr as [Ho Hi].
    unfold PortDirection in *. split.
    - destruct (m_outports_dirn2idx (sk_routing row) !! d) as [o|]; [|done]. destruct (vec_get (sk_out row) o) as [os|] eqn:Hos; [|done].
      apply andb_true_iff in Ho as [Ho%String.eqb_eq Hd%Z.eqb_eq]. by exists o, os.
    - destruct (m_inports_dirn2idx (sk_routing row) !! d) as [i|]; [|done].
      case_match eqn:He; [|done]. eexists i, _. split_and!; [done | exact He | by apply String.eqb_eq]. }
  split; try done.
  - intros E. by rewrite E in Ha.
  - intros Had. apply Z.leb_le. by destruct (alg_of c).
  - intros rid row Hr. apply (vforall_sound _ _ _ _ Hv), andb_true_iff in Hr as [Hr _]. by apply andb_true_iff in Hr as [Hr%Z.eqb_eq _].
  - intros rid row d Hr Hn. exact (proj1 (Hrow rid row d Hr Hn)).
  - intros rid row d Hr Hn. exact (proj2 (Hrow rid row d Hr Hn)).
  - intros rid row Hr. apply (vforall_sound _ _ _ _ Hv), andb_true_iff in Hr as [Hr _]. by apply andb_true_iff in Hr as [_ Hr%Z.eqb_eq].
Qed.

Definition vcs_b (g : GarnetNetwork) : bool :=
  vforall (m_routers g) (fun _ r => vforall (m_input_unit r) (fun _ iu => InputUnit.m_vc_per_vnet iu <=? vsize (m_vcs iu))).

Lemma vcs_b_sound g : vcs_b g = true -> vcs_ok g.
Proof.
  intros H rid i iu (r & Hr & Hi)%get_iu_Ok. apply (vforall_sound _ _ _ _ H) in Hr. apply (vforall_sound _ _ _ _ Hr) in Hi. by apply Z.leb_le.
Qed.

(** ** Delivery *)

(** C10: Delivery and minimality of the mesh algorithms (XY, random, adaptive random, west-first, adaptive west-first) on a mesh of
    any number of rows and columns, for the adaptive ones at least as many columns as rows (on taller meshes
    [get_RouterInDirn] asserts).  The network is the real one: route computation asks the neighbouring routers for
    their free VCs.  In every state of the mesh, whatever the random numbers, the time and the contents of the VCs, [route_compute]
    of a router that is not the flit's destination returns, changes nothing but the state of the random generator, and names
    an output port whose router is in the mesh and one hop closer.  So every route, over network states that change arbitrarily between its
    hops, has used exactly one unit of the Manhattan distance per hop and is at the destination exactly after that many hops;
    and there is such a route. *)
Theorem mesh_delivery rows cols alg dest my g0 :
  is_mesh_alg alg = true -> in_mesh rows cols my -> in_mesh rows cols dest -> grid_state rows cols alg g0 ->
  (forall rand cur g route inport dirn last, grid_state rows cols alg g -> dest_router route = dest -> in_mesh rows cols last -> last <> dest ->
     exists r o n ou, vec_get (m_routers g) last = Ok r /\ route_compute rand cur last route inport dirn g = Ok (o, with_m_rand n g) /\
       vec_get (m_output_unit r) o = Ok ou /\ in_mesh rows cols (m_dest_router ou) /\
       dist cols (m_dest_router ou) dest = dist cols last dest - 1) /\
  (forall n last, net_route rows cols alg dest n my last ->
     in_mesh rows cols last /\ Z.of_nat n + dist cols last dest = dist cols my dest /\ (last = dest <-> Z.of_nat n = dist cols my dest)) /\
  net_route rows cols alg dest (Z.to_nat (dist cols my dest)) my dest.
Proof.
  intros Ha Hmy Hdest Hg0. destruct (gd_pos _ _ _ _ (proj1 Hg0)) as [Hr0 Hc0]. split_and!.
  - intros. by apply net_hop_total with (alg := alg).
  - intros n last Hr. destruct (net_route_dist rows cols alg dest Ha Hdest n my last Hmy Hr) as [Hl Hd]. split_and!; [done | lia|].
    split; [intros ->; unfold dist in *; lia|]. intros Hn. apply (dist_zero rows cols Hc0 last dest Hl Hdest). lia.
  - apply (net_route_exists rows cols alg dest Ha Hdest g0 Hg0); [done|]. rewrite Z2Nat.id; [done | unfold dist; lia].
Qed.

(** An example: a 2x2 mesh with one interface per router. *)
Definition mesh_params (rows alg num_bubble rand_bb : Z) : GarnetParams :=
  mkGarnetParams rows 16 2 4 1 alg 1 num_bubble 4 16 0 0 rand_bb "bn" 0 1 ["request"]%string [false].

(** Four routers with one node each, joined as a 2x2 mesh. *)
Definition mesh_topology : result (Topology garnet_link) :=
  Topology_new (MT := node_types 4) 4 (map ex_ext [0; 1; 2; 3])
    [ex_int 0 1 "East" "West"; ex_int 2 3 "East" "West"; ex_int 1 0 "West" "East"; ex_int 3 2 "West" "East";
     ex_int 0 2 "North" "South"; ex_int 1 3 "North" "South"; ex_int 2 0 "South" "North"; ex_int 3 1 "South" "North"].

(** Routing algorithm [alg]; [num_bubble] bubbles, placed at random if [rand_bb]. *)
Definition mesh_net (alg num_bubble rand_bb : Z) : result GarnetNetwork :=
  g0 ← GarnetNetwork_new (mesh_params 2 alg num_bubble rand_bb) 4
         (map (fun k => Router_new (mkRouterParams k 1 1 2 0)) [0; 1; 2; 3])
         (map (fun k => NetworkInterface_new k 1 2 50000) [0; 1; 2; 3]);
  t ← mesh_topology;
  g1 ← createLinks (MT := node_types 4) 10 t g0;
  g2 ← init_topology g1;
  Ok (with_m_routers (map Router_init (m_routers g2)) g2).

Definition ex_default : GarnetNetwork :=
  mkGarnetNetwork (mkConfig 0 0 0 0 0 0 0 0 0 0 0 0 0 0 "" 0 0 [] []) 0 [] [] [] [] [] false 0 0 (NetStats_new 0 0) 0.
Definition adaptive_net : GarnetNetwork := match mesh_net 3 0 0 with Ok g => g | Err _ => ex_default end.

Lemma mesh_delivery_witness : net_route 2 2 ADAPT_RAND_ 3 2 0 3.
Proof.
  destruct (mesh_delivery 2 2 ADAPT_RAND_ 3 0 adaptive_net) as (_ & _ & Hr);
    [reflexivity | unfold in_mesh; lia | unfold in_mesh; lia | | exact Hr].
  split; [apply grid_b_sound; vm_compute; reflexivity | split; [apply vcs_b_sound; vm_compute; reflexivity | vm_compute; reflexivity]].
Defined.
