(* ===== verification/BubbleInv.v ===== *)
(** * The invariant of channels and bubbles

    A channel is a non-local input port together with the output unit that feeds it.  VC 0 of
    a channel carries at most one token: a flit (waiting, on the wire or buffered), a credit on
    its way back, or a bubble.  [chan_inv] ties the token to the two ends of the channel; the
    tokens in transit are the parameter [t], which bubble movement does not touch.  The lemmas
    describe the four elementary exchanges a move is made of. *)

From S2P Require Import Prelude Flit FlitBuffer Consumer Config RoutingUnit MeshRouting NetworkLink.
From S2P Require Import VirtualChannel OutVcState OutputUnit InputUnit RouterState SwitchTheory.
From S2P Require Import MessageBuffer NetStats NetworkInterface GarnetNetwork Bubble NetLens.
Local Open Scope Z_scope.

(** ** Wiring *)

(** Every port knows its index; a non-local input port has an upstream output unit, which is not local, and
    two input ports of a router have different upstream routers. *)
Record wired (sk : list RouterSk) : Prop := {
  w_id : forall rid row, vec_get sk rid = Ok row -> sk_id row = rid;
  w_in : forall rid row i e, vec_get sk rid = Ok row -> vec_get (sk_in row) i = Ok e -> e.1.1 = i;
  w_up : forall rid row i e, vec_get sk rid = Ok row -> vec_get (sk_in row) i = Ok e ->
    e.1.2 <> "Local"%string -> exists p, up_of sk rid e.2 = Ok p;
  w_updir : forall rid row i e p prow d, vec_get sk rid = Ok row -> vec_get (sk_in row) i = Ok e ->
    e.1.2 <> "Local"%string -> up_of sk rid e.2 = Ok p -> vec_get sk p.1 = Ok prow ->
    vec_get (sk_out prow) p.2 = Ok d -> os_dirn d <> "Local"%string;
  w_src : forall rid row i j e e', vec_get sk rid = Ok row -> vec_get (sk_in row) i = Ok e ->
    vec_get (sk_in row) j = Ok e' -> e.1.2 <> "Local"%string -> e'.1.2 <> "Local"%string -> e.2 = e'.2 -> i = j
}.

(** ** Channels *)

(** The two ends of VC 0 of input port [i] of router [rid]. *)
Record chan_at (g : GarnetNetwork) (rid i : Z) (iu : InputUnit) (p : Z * Z) (v : VirtualChannel)
    (ou : OutputUnit) (o : OutVcState) : Prop := {
  ca_iu : get_iu rid i g = Ok iu;
  ca_dir : InputUnit.m_direction iu <> "Local"%string;
  ca_up : upstream_op rid iu g = Ok p;
  ca_v : vec_get (m_vcs iu) 0 = Ok v;
  ca_ou : get_ou p.1 p.2 g = Ok ou;
  ca_o : vec_get (m_outvc_state ou) 0 = Ok o
}.

Definition chan (g : GarnetNetwork) (rid i : Z) (v : VirtualChannel) (o : OutVcState) : Prop :=
  exists iu p ou, chan_at g rid i iu p v ou o.

(** Bubbles at an input port. *)
Definition at_port (rid i : Z) (b : brownian_bubble) : Prop := router_id b = rid /\ inport_id b = i.
#[export] Instance at_port_dec rid i b : Decision (at_port rid i b).
Proof. unfold at_port. apply _. Defined.

Definition nbub (bs : list brownian_bubble) (rid i : Z) : Z := vsize (filter (at_port rid i) bs).

(** The token of VC 0 as both ends see it: [t] tokens in transit, [nb] bubbles. *)
Definition tokens (t nb : Z) (v : VirtualChannel) : Z := t + vsize (VirtualChannel.flits v) + nb.

Definition chan_inv (cur t nb : Z) (v : VirtualChannel) (o : OutVcState) : Prop :=
  0 <= t /\ 0 <= nb /\ tokens t nb v <= 1 /\ 1 <= m_max_credit_count o /\
  m_credit_count o = m_max_credit_count o - tokens t nb v /\
  OutVcState.m_vc_state o = (if tokens t nb v =? 0 then IDLE_ else ACTIVE_) /\
  OutVcState.m_time o <= cur /\
  get_state v = (if vsize (VirtualChannel.flits v) + nb =? 0 then IDLE_ else ACTIVE_) /\
  (VirtualChannel.m_vc_state v).2 <= cur.

Definition bubble_ok (cur : Z) (g : GarnetNetwork) (k : Z) (b : brownian_bubble) : Prop :=
  bubble_id b = k /\ last_intra_movement_cycle b <= cur /\ last_inter_movement_cycle b <= cur /\
  exists iu, get_iu (router_id b) (inport_id b) g = Ok iu /\ inport_dirn b = InputUnit.m_direction iu /\
    InputUnit.m_direction iu <> "Local"%string.

Record net_inv (cur : Z) (t : Z -> Z -> Z) (g : GarnetNetwork) : Prop := {
  ni_wired : wired (skel g);
  ni_chan : forall rid i iu, get_iu rid i g = Ok iu -> InputUnit.m_direction iu <> "Local"%string ->
    exists v o, chan g rid i v o /\ chan_inv cur (t rid i) (nbub (bubble g) rid i) v o;
  ni_bubble : forall k b, vec_get (bubble g) k = Ok b -> bubble_ok cur g k b
}.

(** The flits buffered in the input VCs of all routers. *)
Definition all_flits (g : GarnetNetwork) : list flit := concat (map input_flits (m_routers g)).

(** ** Networks with the same units

    Wakeup requests, statistics and the random numbers drawn are not part of a channel.  [rest] is
    what moving bubbles leaves alone: everything but VC 0 of the ports between routers. *)
Definition iu_rest (iu : InputUnit) :=
  (with_m_vcs [] iu, vsize (m_vcs iu),
   if String.eqb (InputUnit.m_direction iu) "Local" then m_vcs iu else drop 1 (m_vcs iu)).
Definition ou_rest (ou : OutputUnit) :=
  (with_m_outvc_state [] ou, vsize (m_outvc_state ou),
   if String.eqb (OutputUnit.m_direction ou) "Local" then m_outvc_state ou else drop 1 (m_outvc_state ou)).
Definition r_rest (r : Router) :=
  (RouterState.with_m_events [] (with_m_output_unit [] (with_m_input_unit [] r)),
   map iu_rest (m_input_unit r), map ou_rest (m_output_unit r)).
Definition rest (g : GarnetNetwork) :=
  (m_networklinks g, m_creditlinks g, m_nis g, m_bubble_init g, last_inter_bubble_movement g, last_intra_bubble_movement g,
   map r_rest (m_routers g), stat_vectors (g_stats g)).

Record same_units (g g' : GarnetNetwork) : Prop := {
  su_iu : forall rid i, get_iu rid i g' = get_iu rid i g;
  su_ou : forall rid o, get_ou rid o g' = get_ou rid o g;
  su_sk : skel g' = skel g;
  su_flits : all_flits g' = all_flits g;
  su_config : g_config g' = g_config g;
  su_size : vsize (m_routers g') = vsize (m_routers g);
  su_rest : rest g' = rest g
}.

#[export] Instance same_units_equiv : Equivalence same_units.
Proof.
  split.
  - intros g. by split.
  - intros g g' []. by split; intros; symmetry.
  - intros g g' g'' [] []. split; intros; congruence.
Qed.

(** Replacing a router by one with the same units. *)
Lemma same_units_router rid (f : Router -> Router) g : 0 <= rid ->
  (forall r, m_input_unit (f r) = m_input_unit r /\ m_output_unit (f r) = m_output_unit r /\
             RouterState.m_id (f r) = RouterState.m_id r /\ m_routing_unit (f r) = m_routing_unit r /\
             r_rest (f r) = r_rest r) ->
  same_units g (with_m_routers (alter f (Z.to_nat rid) (m_routers g)) g).
Proof.
  intros H0 Hf. split; cbn.
  - intros. unfold get_iu. cbn. rewrite vec_get_alter by done.
    destruct (vec_get (m_routers g) rid0); cbn; [|done]. case_decide; [|done]. by rewrite (proj1 (Hf a)).
  - intros. unfold get_ou. cbn. rewrite vec_get_alter by done.
    destruct (vec_get (m_routers g) rid0); cbn; [|done]. case_decide; [|done]. destruct (Hf a) as (_ & -> & _). done.
  - unfold skel. cbn. apply map_alter_id. intros r _. unfold r_sk. destruct (Hf r) as (-> & -> & -> & -> & _). done.
  - unfold all_flits. cbn. f_equal. apply map_alter_id. intros r _. unfold input_flits. by rewrite (proj1 (Hf r)).
  - done.
  - apply vsize_alter.
  - unfold rest. cbn. f_equal. f_equal. apply map_alter_id. intros r _. apply Hf.
Qed.

Lemma on_router_same rid (f : Router -> Router) g g' :
  (forall r, m_input_unit (f r) = m_input_unit r /\ m_output_unit (f r) = m_output_unit r /\
             RouterState.m_id (f r) = RouterState.m_id r /\ m_routing_unit (f r) = m_routing_unit r /\
             r_rest (f r) = r_rest r) ->
  on_router rid (fun r => Ok (f r)) g = Ok g' ->
  same_units g g' /\ bubble g' = bubble g /\ g_stats g' = g_stats g.
Proof.
  intros Hf (r & r' & Hr & [= <-] & ->)%on_router_inv. rewrite (alter_vec_set f _ _ _ Hr).
  pose proof (vec_get_range _ _ _ Hr). split; [apply same_units_router; [lia | done] | done].
Qed.

Lemma schedule_same rid cur d g g' : net_schedule_wakeup rid cur d g = Ok g' ->
  same_units g g' /\ bubble g' = bubble g /\ g_stats g' = g_stats g.
Proof. apply (on_router_same rid (schedule_wakeup cur d)). done. Qed.

Lemma schedule_total rid cur d g : 0 <= rid < vsize (m_routers g) -> exists g', net_schedule_wakeup rid cur d g = Ok g'.
Proof.
  intros H. destruct (vec_get_in_range (m_routers g) rid H) as [r Hr].
  eexists. by eapply (on_router_Ok _ _ (fun r => Ok (schedule_wakeup cur d r))).
Qed.

Section Same.
Context (g g' : GarnetNetwork) (Hs : same_units g g').

Lemma chan_at_same rid i iu p v ou o : chan_at g rid i iu p v ou o -> chan_at g' rid i iu p v ou o.
Proof.
  intros [? ? Hup ? ? ?]. split; [by rewrite (su_iu _ _ Hs) | done | | done | by rewrite (su_ou _ _ Hs) | done].
  by rewrite upstream_op_sk, (su_sk _ _ Hs), <- upstream_op_sk.
Qed.

Lemma net_inv_same cur t : bubble g' = bubble g -> net_inv cur t g -> net_inv cur t g'.
Proof.
  intros Hb [Hw Hc Hbb]. split.
  - by rewrite (su_sk _ _ Hs).
  - intros rid i iu. rewrite (su_iu _ _ Hs), Hb. intros Hi Hd.
    destruct (Hc rid i iu Hi Hd) as (v & o & (iu1 & p & ou & Hch) & Hinv). exists v, o. split; [|done].
    exists iu1, p, ou. by apply chan_at_same.
  - intros k b. rewrite Hb. intros (? & ? & ? & iu & ?)%Hbb. split_and!; [done..|]. exists iu.
    by rewrite (su_iu _ _ Hs).
Qed.
End Same.

(** ** Updating one channel *)

Definition set_vc0 (v : VirtualChannel) (iu : InputUnit) : InputUnit := with_m_vcs (<[Z.to_nat 0 := v]> (m_vcs iu)) iu.
Definition set_outvc0 (o : OutVcState) (ou : OutputUnit) : OutputUnit :=
  with_m_outvc_state (<[Z.to_nat 0 := o]> (m_outvc_state ou)) ou.

(** The input port of a channel determines the channel, and channels do not share an output unit. *)
Lemma chan_at_fun g rid i iu p v ou o iu' p' v' ou' o' :
  chan_at g rid i iu p v ou o -> chan_at g rid i iu' p' v' ou' o' ->
  iu' = iu /\ p' = p /\ v' = v /\ ou' = ou /\ o' = o.
Proof. intros [? ? ? ? ? ?] [? ? ? ? ? ?]. merge_ok. done. Qed.

Lemma get_iu_sk g rid i iu : get_iu rid i g = Ok iu ->
  exists row, vec_get (skel g) rid = Ok row /\ vec_get (sk_in row) i = Ok (iu_sk iu).
Proof.
  intros (r & Hr & Hi)%get_iu_Ok. exists (r_sk r). unfold skel. rewrite !vec_get_map, Hr. cbn.
  split; [done|]. by rewrite vec_get_map, Hi.
Qed.

Lemma chan_out_inj g rid i iu p v ou o rid' i' iu' v' ou' o' : wired (skel g) ->
  chan_at g rid i iu p v ou o -> chan_at g rid' i' iu' p v' ou' o' -> rid' = rid /\ i' = i.
Proof.
  intros Hw [Hi Hd Hu _ _ _] [Hi' Hd' Hu' _ _ _]. rewrite upstream_op_sk in Hu, Hu'.
  apply up_of_inv in Hu as (Hp & row & d & Hrow & Ho & Ed). apply up_of_inv in Hu' as (Hp' & row' & d' & Hrow' & Ho' & Ed').
  assert (Hsrc : m_src_router iu' = m_src_router iu) by congruence. rewrite Hsrc in Hrow'. merge_ok.
  split; [done|]. apply get_iu_sk in Hi as (rw & Hrw & He). apply get_iu_sk in Hi' as (rw' & Hrw' & He').
  assert (rw' = rw) as -> by congruence.
  exact (w_src _ Hw _ _ _ _ _ _ Hrw He' He Hd' Hd Hsrc).
Qed.

Section Update.
Context (g : GarnetNetwork) (rid i : Z) (iu : InputUnit) (p : Z * Z) (v : VirtualChannel) (ou : OutputUnit) (o : OutVcState).
Context (Hw : wired (skel g)) (Hch : chan_at g rid i iu p v ou o).
Context (v' : VirtualChannel) (o' : OutVcState).

Definition upd_in : GarnetNetwork := put_iu rid i (set_vc0 v' iu) g.
Definition upd_both : GarnetNetwork := put_iu rid i (set_vc0 v' iu) (put_ou p.1 p.2 (set_outvc0 o' ou) g).

Lemma upd_in_skel : skel upd_in = skel g.
Proof. by apply (skel_put_iu _ _ _ _ _ (ca_iu _ _ _ _ _ _ _ _ Hch)). Qed.

Lemma upd_ranges : 0 <= rid < vsize (m_routers g) /\ 0 <= p.1.
Proof.
  pose proof (get_iu_range _ _ _ _ (ca_iu _ _ _ _ _ _ _ _ Hch)).
  pose proof (get_ou_range _ _ _ _ (ca_ou _ _ _ _ _ _ _ _ Hch)). lia.
Qed.

Lemma mid_iu : get_iu rid i (put_ou p.1 p.2 (set_outvc0 o' ou) g) = Ok iu.
Proof. rewrite get_iu_put_ou by apply upd_ranges. apply Hch. Qed.

Lemma upd_both_skel : skel upd_both = skel g.
Proof.
  unfold upd_both. rewrite (skel_put_iu _ _ _ _ _ mid_iu) by done.
  apply (skel_put_ou _ _ _ _ _ (ca_ou _ _ _ _ _ _ _ _ Hch)).
  unfold ou_sk. cbn. by rewrite vsize_insert.
Qed.

Lemma upd_both_get_iu rid1 i1 :
  get_iu rid1 i1 upd_both = if decide (rid1 = rid /\ i1 = i) then Ok (set_vc0 v' iu) else get_iu rid1 i1 g.
Proof.
  unfold upd_both. rewrite (get_iu_put_iu _ _ _ _ _ _ _ mid_iu). by rewrite get_iu_put_ou by apply upd_ranges.
Qed.

Lemma upd_both_get_ou rid1 o1 :
  get_ou rid1 o1 upd_both = if decide (rid1 = p.1 /\ o1 = p.2) then Ok (set_outvc0 o' ou) else get_ou rid1 o1 g.
Proof.
  unfold upd_both. rewrite get_ou_put_iu by apply upd_ranges.
  by rewrite (get_ou_put_ou _ _ _ _ _ _ _ (ca_ou _ _ _ _ _ _ _ _ Hch)).
Qed.

Lemma vc0_range : 0 <= 0 < vsize (m_vcs iu).
Proof. apply (vec_get_range _ _ _ (ca_v _ _ _ _ _ _ _ _ Hch)). Qed.
Lemma outvc0_range : 0 <= 0 < vsize (m_outvc_state ou).
Proof. apply (vec_get_range _ _ _ (ca_o _ _ _ _ _ _ _ _ Hch)). Qed.

Lemma upd_both_here : chan_at upd_both rid i (set_vc0 v' iu) p v' (set_outvc0 o' ou) o'.
Proof.
  split.
  - rewrite upd_both_get_iu. by rewrite decide_True.
  - apply Hch.
  - rewrite upstream_op_sk, upd_both_skel, <- (ca_up _ _ _ _ _ _ _ _ Hch), upstream_op_sk. done.
  - apply (vec_get_insert_eq (m_vcs iu)), vc0_range.
  - rewrite upd_both_get_ou. by rewrite decide_True.
  - apply (vec_get_insert_eq (m_outvc_state ou)), outvc0_range.
Qed.

Lemma upd_both_other rid1 i1 iu1 p1 v1 ou1 o1 : ~ (rid1 = rid /\ i1 = i) ->
  chan_at g rid1 i1 iu1 p1 v1 ou1 o1 -> chan_at upd_both rid1 i1 iu1 p1 v1 ou1 o1.
Proof.
  intros Hne Hc. split.
  - rewrite upd_both_get_iu. rewrite decide_False by done. apply Hc.
  - apply Hc.
  - rewrite upstream_op_sk, upd_both_skel, <- (ca_up _ _ _ _ _ _ _ _ Hc), upstream_op_sk. done.
  - apply Hc.
  - rewrite upd_both_get_ou. rewrite decide_False; [apply Hc|]. intros [E1 E2]. apply Hne.
    assert (p1 = p) as -> by (destruct p1, p; cbn in *; congruence).
    by apply (chan_out_inj _ _ _ _ _ _ _ _ _ _ _ _ _ _ Hw Hch Hc).
  - apply Hc.
Qed.

Lemma upd_in_get_iu rid1 i1 :
  get_iu rid1 i1 upd_in = if decide (rid1 = rid /\ i1 = i) then Ok (set_vc0 v' iu) else get_iu rid1 i1 g.
Proof. apply (get_iu_put_iu _ _ _ _ _ _ _ (ca_iu _ _ _ _ _ _ _ _ Hch)). Qed.

Lemma upd_in_here : chan_at upd_in rid i (set_vc0 v' iu) p v' ou o.
Proof.
  split.
  - rewrite upd_in_get_iu. by rewrite decide_True.
  - apply Hch.
  - rewrite upstream_op_sk, upd_in_skel, <- (ca_up _ _ _ _ _ _ _ _ Hch), upstream_op_sk. done.
  - apply (vec_get_insert_eq (m_vcs iu)), vc0_range.
  - unfold upd_in. rewrite get_ou_put_iu by apply upd_ranges. apply Hch.
  - apply Hch.
Qed.

Lemma upd_in_other rid1 i1 iu1 p1 v1 ou1 o1 : ~ (rid1 = rid /\ i1 = i) ->
  chan_at g rid1 i1 iu1 p1 v1 ou1 o1 -> chan_at upd_in rid1 i1 iu1 p1 v1 ou1 o1.
Proof.
  intros Hne Hc. split.
  - rewrite upd_in_get_iu. rewrite decide_False by done. apply Hc.
  - apply Hc.
  - rewrite upstream_op_sk, upd_in_skel, <- (ca_up _ _ _ _ _ _ _ _ Hc), upstream_op_sk. done.
  - apply Hc.
  - unfold upd_in. rewrite get_ou_put_iu by apply upd_ranges. apply Hc.
  - apply Hc.
Qed.

(** The rest of the network is untouched. *)
Lemma iu_rest_vc0 : InputUnit.m_direction iu <> "Local"%string -> iu_rest (set_vc0 v' iu) = iu_rest iu.
Proof.
  intros Hd. unfold iu_rest. cbn. rewrite (proj2 (String.eqb_neq _ _) Hd), vsize_insert. by destruct (m_vcs iu).
Qed.

Lemma ou_rest_outvc0 : OutputUnit.m_direction ou <> "Local"%string -> ou_rest (set_outvc0 o' ou) = ou_rest ou.
Proof.
  intros Hd. unfold ou_rest. cbn. rewrite (proj2 (String.eqb_neq _ _) Hd), vsize_insert. by destruct (m_outvc_state ou).
Qed.

Lemma rest_put_iu g1 : get_iu rid i g1 = Ok iu -> rest (put_iu rid i (set_vc0 v' iu) g1) = rest g1.
Proof.
  intros (r & [_ Hr]%vec_get_Ok & [_ Hi]%vec_get_Ok)%get_iu_Ok. unfold rest, put_iu. cbn. f_equal. f_equal.
  apply map_alter_id. intros r' Hr'. rewrite Hr in Hr'. apply Some_inj in Hr' as <-. unfold r_rest. cbn.
  by rewrite (map_insert_id iu_rest _ _ _ _ Hi (iu_rest_vc0 (ca_dir _ _ _ _ _ _ _ _ Hch))).
Qed.

Lemma chan_up_dirn : OutputUnit.m_direction ou <> "Local"%string.
Proof.
  destruct (get_iu_sk _ _ _ _ (ca_iu _ _ _ _ _ _ _ _ Hch)) as (row & Hrow & He).
  pose proof (ca_up _ _ _ _ _ _ _ _ Hch) as Hu. rewrite upstream_op_sk in Hu.
  destruct (proj1 (get_ou_Ok _ _ _ _) (ca_ou _ _ _ _ _ _ _ _ Hch)) as (r & Hr & Ho).
  apply (w_updir _ Hw rid row i (iu_sk iu) p (r_sk r) (ou_sk ou) Hrow He); [apply Hch | done | |].
  - unfold skel. by rewrite vec_get_map, Hr.
  - cbn. by rewrite vec_get_map, Ho.
Qed.

Lemma rest_upd_in : rest upd_in = rest g.
Proof. apply rest_put_iu, Hch. Qed.

Lemma rest_upd_both : rest upd_both = rest g.
Proof.
  unfold upd_both. rewrite rest_put_iu by apply mid_iu.
  destruct (proj1 (get_ou_Ok _ _ _ _) (ca_ou _ _ _ _ _ _ _ _ Hch)) as (r & [_ Hr]%vec_get_Ok & [_ Ho]%vec_get_Ok).
  unfold rest, put_ou. cbn. f_equal. f_equal.
  apply map_alter_id. intros r' Hr'. rewrite Hr in Hr'. apply Some_inj in Hr' as <-. unfold r_rest. cbn.
  by rewrite (map_insert_id ou_rest _ _ _ _ Ho (ou_rest_outvc0 chan_up_dirn)).
Qed.
End Update.
