(* ===== verification/BubbleMoves.v ===== *)
(** * Bubble movement keeps the network's invariant

    Every move of a bubble is two of four elementary exchanges: a VC becomes a bubble
    ([occupy]), a bubble becomes a free VC ([vacate]), a packet leaves its VC to the bubble,
    a packet enters the bubble's VC. *)

From S2P Require Import Prelude Flit FlitBuffer Consumer Config RoutingUnit MeshRouting NetworkLink.
From S2P Require Import VirtualChannel OutVcState OutputUnit InputUnit RouterState SwitchTheory BubblePath.
From S2P Require Import MessageBuffer NetStats NetworkInterface GarnetNetwork Bubble NetLens BubbleInv.
Local Open Scope Z_scope.

(** ** The exchanges at one channel *)

Definition taken (cur : Z) (o : OutVcState) : OutVcState :=
  setState ACTIVE_ cur (with_m_credit_count (m_credit_count o - 1) o).
Definition freed (cur : Z) (o : OutVcState) : OutVcState :=
  setState IDLE_ cur (with_m_credit_count (m_credit_count o + 1) o).

Lemma put_ou_twice rid o x y g : put_ou rid o x (put_ou rid o y g) = put_ou rid o x g.
Proof.
  unfold put_ou, with_m_routers. cbn. f_equal. apply list_eq. intros j.
  destruct (decide (j = Z.to_nat rid)) as [->|]; [|by rewrite !list_lookup_alter_ne].
  rewrite !list_lookup_alter_eq. destruct (m_routers g !! Z.to_nat rid) as [r|]; cbn; [|done].
  unfold with_m_output_unit. cbn. by rewrite list_insert_insert_eq.
Qed.

Section Exchange.
Context (cur : Z) (g : GarnetNetwork) (rid i : Z) (iu : InputUnit) (p : Z * Z) (v : VirtualChannel) (ou : OutputUnit)
  (o : OutVcState) (Hch : chan_at g rid i iu p v ou o).

(** Two updates of the upstream VC state followed by one of the input VC. *)
Lemma exchange_eq (f1 f2 : OutputUnit -> result OutputUnit) (f3 : InputUnit -> result InputUnit) o1 o2 v' :
  f1 ou = Ok (set_outvc0 o1 ou) -> f2 (set_outvc0 o1 ou) = Ok (set_outvc0 o2 ou) -> f3 iu = Ok (set_vc0 v' iu) ->
  (g1 ← on_net_ou p.1 p.2 f1 g; g2 ← on_net_ou p.1 p.2 f2 g1; on_net_iu rid i f3 g2)
  = Ok (upd_both g rid i iu p ou v' o2).
Proof.
  intros H1 H2 H3. rewrite (on_net_ou_Ok _ _ _ _ _ _ (ca_ou _ _ _ _ _ _ _ _ Hch) H1). cbn.
  assert (Hmid : get_ou p.1 p.2 (put_ou p.1 p.2 (set_outvc0 o1 ou) g) = Ok (set_outvc0 o1 ou)).
  { rewrite (get_ou_put_ou _ _ _ _ _ _ _ (ca_ou _ _ _ _ _ _ _ _ Hch)). by rewrite decide_True. }
  rewrite (on_net_ou_Ok _ _ _ _ _ _ Hmid H2). cbn. rewrite put_ou_twice.
  by rewrite (on_net_iu_Ok _ _ _ _ _ _ (mid_iu _ _ _ _ _ _ _ _ Hch o2) H3).
Qed.

Lemma set_state_outvc0 st x o1 : vec_get (m_outvc_state x) 0 = Ok o1 ->
  OutputUnit.set_vc_state st 0 cur x = Ok (set_outvc0 (setState st cur o1) x).
Proof. intros Hx. unfold OutputUnit.set_vc_state. by rewrite (vec_modify_Ok _ _ _ _ Hx). Qed.

Lemma set_outvc0_twice a b x : set_outvc0 a (set_outvc0 b x) = set_outvc0 a x.
Proof. unfold set_outvc0, with_m_outvc_state. cbn. by rewrite list_insert_insert_eq. Qed.

Lemma get_outvc0 o1 : vec_get (m_outvc_state (set_outvc0 o1 ou)) 0 = Ok o1.
Proof. apply (vec_get_insert_eq (m_outvc_state ou)), (vec_get_range _ _ _ (ca_o _ _ _ _ _ _ _ _ Hch)). Qed.

Lemma occupy_eq : 0 < m_credit_count o ->
  occupy cur p rid i g = Ok (upd_both g rid i iu p ou (set_active cur v) (taken cur o)).
Proof.
  intros Hc. apply (exchange_eq _ _ _ (with_m_credit_count (m_credit_count o - 1) o)).
  - unfold OutputUnit.decrement_credit.
    rewrite (vec_update_Ok _ _ _ _ (with_m_credit_count (m_credit_count o - 1) o) (ca_o _ _ _ _ _ _ _ _ Hch)); [done|].
    by apply decrement_credit_spec.
  - rewrite (set_state_outvc0 _ _ _ (get_outvc0 _)). by rewrite set_outvc0_twice.
  - apply on_vc_spec. exists v. split; [apply Hch | done].
Qed.

Lemma vacate_eq : m_credit_count o < m_max_credit_count o ->
  vacate cur p rid i g = Ok (upd_both g rid i iu p ou (set_idle cur v) (freed cur o)).
Proof.
  intros Hc. apply (exchange_eq _ _ _ (with_m_credit_count (m_credit_count o + 1) o)).
  - unfold OutputUnit.increment_credit.
    rewrite (vec_update_Ok _ _ _ _ (with_m_credit_count (m_credit_count o + 1) o) (ca_o _ _ _ _ _ _ _ _ Hch)); [done|].
    by apply increment_credit_spec.
  - rewrite (set_state_outvc0 _ _ _ (get_outvc0 _)). by rewrite set_outvc0_twice.
  - apply on_vc_spec. exists v. split; [apply Hch | done].
Qed.
End Exchange.

(** What each exchange does to the token. *)
Section Tokens.
Context (cur t : Z) (v : VirtualChannel) (o : OutVcState).

Lemma occupied_inv : chan_inv cur t 0 v o -> VirtualChannel.flits v = [] -> OutVcState.m_vc_state o = IDLE_ ->
  0 < m_credit_count o /\ chan_inv cur t 1 (set_active cur v) (taken cur o).
Proof.
  intros (Ht & _ & Htok & Hmax & Hcr & Hst & Htm & Hv & Hvt) Hf Hidle.
  unfold chan_inv, tokens in *. cbn. rewrite Hf in *. cbn in *. unfold VirtualChannel.flits in *. cbn in *.
  rewrite Hf in *. change (vsize (@nil flit)) with 0 in *. rewrite Hidle in Hst.
  destruct (Z.eqb_spec (t + 0 + 0) 0); [|done].
  destruct (Z.eqb_spec (t + 0 + 1) 0); [lia|]. split_and!; (lia || done).
Qed.

Lemma vacated_inv : chan_inv cur t 1 v o ->
  m_credit_count o < m_max_credit_count o /\ chan_inv cur t 0 (set_idle cur v) (freed cur o).
Proof.
  intros (Ht & _ & Htok & Hmax & Hcr & Hst & Htm & Hv & Hvt).
  unfold chan_inv, tokens in *. unfold VirtualChannel.flits in *. cbn.
  pose proof (vsize_nonneg (m_buffer (m_input_buffer v))).
  replace (vsize (m_buffer (m_input_buffer v))) with 0 in * by lia. replace t with 0 in * by lia.
  split_and!; (lia || done).
Qed.

Lemma packet_left_inv f v' : chan_inv cur t 0 v o -> VirtualChannel.getTopFlit v = Ok (f, v') ->
  VirtualChannel.flits v = [f] /\ VirtualChannel.flits v' = [] /\ chan_inv cur t 1 v' o.
Proof.
  intros (Ht & _ & Htok & Hmax & Hcr & Hst & Htm & Hv & Hvt) Hg.
  pose proof (getTopFlit_flits _ _ _ Hg) as (Hp & _ & Hvc). unfold tokens in *.
  assert (Hl := Permutation_length Hp). unfold vsize in *. cbn in Hl.
  assert (E' : VirtualChannel.flits v' = []) by (apply nil_length_inv; lia).
  assert (E : VirtualChannel.flits v = [f]) by (rewrite E' in Hp; by apply Permutation_singleton_r in Hp).
  split_and!; [done | done|]. unfold chan_inv, tokens, vsize. rewrite E' . rewrite E in *. cbn in *.
  split_and!; [lia..| | | |].
  - rewrite Hst. by replace (t + Z.of_nat 0 + 1) with (t + Z.of_nat 1 + 0) by lia.
  - lia.
  - rewrite Hvc. exact Hv.
  - by rewrite Hvc.
Qed.

Lemma packet_entered_inv f : chan_inv cur t 1 v o -> chan_inv cur t 0 (VirtualChannel.insertFlit f v) o.
Proof.
  intros (Ht & _ & Htok & Hmax & Hcr & Hst & Htm & Hv & Hvt).
  assert (Hl : length (VirtualChannel.flits (VirtualChannel.insertFlit f v)) = S (length (VirtualChannel.flits v)))
    by (by rewrite (insertFlit_flits f v)).
  unfold chan_inv, tokens, vsize in *.
  rewrite Hl. split_and!; [lia..| | | |].
  - rewrite Hst. by replace (t + Z.of_nat (S (length (VirtualChannel.flits v))) + 0)
      with (t + Z.of_nat (length (VirtualChannel.flits v)) + 1) by lia.
  - done.
  - change (get_state (VirtualChannel.insertFlit f v)) with (get_state v). rewrite Hv.
    destruct (Z.eqb_spec (Z.of_nat (length (VirtualChannel.flits v)) + 1) 0); [lia|].
    destruct (Z.eqb_spec (Z.of_nat (S (length (VirtualChannel.flits v))) + 0) 0); [lia | done].
  - done.
Qed.
End Tokens.

(** ** Counting bubbles *)

Lemma nbub_insert bs k b b' rid i : vec_get bs k = Ok b ->
  nbub (<[Z.to_nat k := b']> bs) rid i =
  nbub bs rid i - (if decide (at_port rid i b) then 1 else 0) + (if decide (at_port rid i b') then 1 else 0).
Proof.
  intros [_ Hb]%vec_get_Ok. revert Hb. generalize (Z.to_nat k). unfold nbub.
  induction bs as [|a bs IH]; intros [|n] Hb; cbn in Hb; simplify_eq.
  - change (<[0%nat := b']> (b :: bs)) with (b' :: bs). rewrite !filter_cons. unfold vsize. do 2 case_decide; cbn [length]; lia.
  - change (<[S n := b']> (a :: bs)) with (a :: <[n := b']> bs). rewrite !filter_cons. specialize (IH n Hb). unfold vsize in *.
    destruct (decide (at_port rid i a)); cbn [length]; lia.
Qed.

Lemma nbub_pos bs k b : vec_get bs k = Ok b -> 0 < nbub bs (router_id b) (inport_id b).
Proof.
  intros [_ Hb]%vec_get_Ok. unfold nbub, vsize.
  assert (Hin : b ∈ filter (at_port (router_id b) (inport_id b)) bs).
  { apply list_elem_of_filter. split; [done|]. by eapply list_elem_of_lookup_2. }
  destruct (filter _ bs); [by apply elem_of_nil in Hin | cbn; lia].
Qed.

(** ** Flits under an update *)

Lemma all_flits_put_iu rid i iu old g : get_iu rid i g = Ok old ->
  InputUnit.flits old ++ all_flits (put_iu rid i iu g) ≡ₚ InputUnit.flits iu ++ all_flits g.
Proof.
  intros (r & Hr & Hi)%get_iu_Ok. unfold all_flits, put_iu. cbn. rewrite <- (alter_vec_set _ _ _ _ Hr).
  pose proof (concat_map_vec_insert input_flits _ _ _
    (with_m_input_unit (<[Z.to_nat i := iu]> (m_input_unit r)) r) Hr) as H1.
  pose proof (concat_map_vec_insert InputUnit.flits _ _ _ iu Hi) as H2.
  change (concat (map InputUnit.flits (<[Z.to_nat i := iu]> (m_input_unit r))))
    with (input_flits (with_m_input_unit (<[Z.to_nat i := iu]> (m_input_unit r)) r)) in H2.
  change (concat (map InputUnit.flits (m_input_unit r))) with (input_flits r) in H2.
  apply (Permutation_app_inv_l (input_flits r)).
  rewrite (Permutation_app_swap_app (input_flits r)), H1, app_assoc, H2, <- app_assoc.
  by rewrite (Permutation_app_swap_app (input_flits r)).
Qed.

Lemma all_flits_put_ou rid o ou g : all_flits (put_ou rid o ou g) = all_flits g.
Proof. unfold all_flits, put_ou. cbn. f_equal. by apply map_alter_id. Qed.

Section Flits.
Context (g : GarnetNetwork) (rid i : Z) (iu : InputUnit) (p : Z * Z) (v : VirtualChannel) (ou : OutputUnit)
  (o : OutVcState) (Hch : chan_at g rid i iu p v ou o).

Lemma set_vc0_flits v' :
  VirtualChannel.flits v ++ InputUnit.flits (set_vc0 v' iu) ≡ₚ VirtualChannel.flits v' ++ InputUnit.flits iu.
Proof. apply (concat_map_vec_insert VirtualChannel.flits). apply Hch. Qed.

Lemma put_vc0_flits v' g1 : get_iu rid i g1 = Ok iu ->
  VirtualChannel.flits v ++ all_flits (put_iu rid i (set_vc0 v' iu) g1) ≡ₚ VirtualChannel.flits v' ++ all_flits g1.
Proof.
  intros Hi. pose proof (all_flits_put_iu _ _ (set_vc0 v' iu) _ _ Hi) as H1. pose proof (set_vc0_flits v') as H2.
  apply (Permutation_app_inv_l (InputUnit.flits iu)).
  rewrite (Permutation_app_swap_app (InputUnit.flits iu)), H1, app_assoc, H2, <- app_assoc.
  by rewrite (Permutation_app_swap_app (InputUnit.flits iu)).
Qed.

Lemma upd_in_flits v' :
  VirtualChannel.flits v ++ all_flits (upd_in g rid i iu v') ≡ₚ VirtualChannel.flits v' ++ all_flits g.
Proof. apply put_vc0_flits, Hch. Qed.

Lemma upd_both_flits v' o' : VirtualChannel.flits v' = VirtualChannel.flits v ->
  all_flits (upd_both g rid i iu p ou v' o') ≡ₚ all_flits g.
Proof.
  intros E. pose proof (put_vc0_flits v' _ (mid_iu _ _ _ _ _ _ _ _ Hch o')) as H.
  rewrite E, all_flits_put_ou in H. by apply Permutation_app_inv_l in H.
Qed.
End Flits.

(** ** A move, seen from the channels *)

Lemma get_iu_of_sk g g' rid i iu : skel g' = skel g -> get_iu rid i g = Ok iu ->
  exists iu', get_iu rid i g' = Ok iu' /\ iu_sk iu' = iu_sk iu.
Proof.
  intros Hs (row & Hrow & He)%get_iu_sk. rewrite <- Hs in Hrow. unfold skel in Hrow.
  rewrite vec_get_map in Hrow. inv_ok. cbn in He. rewrite vec_get_map in He.
  rename select (vec_get _ rid = Ok _) into Hr.
  destruct (vec_get (m_input_unit x) i) as [iu'|] eqn:Hi; [|done]. cbn in He.
  exists iu'. split; [apply get_iu_Ok; eauto | by apply Ok_inj in He].
Qed.

(** [g'] differs from [g] at the channels [(rid1, i1)] and [(rid2, i2)] only. *)
Record swapped (g g' : GarnetNetwork) (rid1 i1 rid2 i2 : Z) (v1 : VirtualChannel) (o1 : OutVcState)
    (v2 : VirtualChannel) (o2 : OutVcState) : Prop := {
  sw_skel : skel g' = skel g;
  sw_bubble : bubble g' = bubble g;
  sw_config : g_config g' = g_config g;
  sw_rest : rest g' = rest g;
  sw_one : chan g' rid1 i1 v1 o1;
  sw_two : chan g' rid2 i2 v2 o2;
  sw_other : forall rid i v o, ~ (rid = rid1 /\ i = i1) -> ~ (rid = rid2 /\ i = i2) ->
    chan g rid i v o -> chan g' rid i v o
}.

Lemma swapped_same g g' g'' rid1 i1 rid2 i2 v1 o1 v2 o2 :
  swapped g g' rid1 i1 rid2 i2 v1 o1 v2 o2 -> same_units g' g'' -> bubble g'' = bubble g' ->
  swapped g g'' rid1 i1 rid2 i2 v1 o1 v2 o2.
Proof.
  intros [Hs Hb Hc Hr H1 H2 Ho] Hu Hb'.
  assert (Hch : forall rid i v o, chan g' rid i v o -> chan g'' rid i v o).
  { intros rid i v o (iu & p & ou & H). exists iu, p, ou. by apply (chan_at_same g'). }
  split; [by rewrite (su_sk _ _ Hu) | congruence | by rewrite (su_config _ _ Hu) | by rewrite (su_rest _ _ Hu) | auto..].
Qed.

(** ** What a VC holds

    The flits of a channel's VC 0 ask for output ports that lead to where they go, and no output VC is assigned to them. *)
Definition vc_held (row : RouterSk) (v : VirtualChannel) : Prop :=
  m_output_vc v = -1 /\ Forall (fun f => leads row (m_route f) (m_outport f)) (VirtualChannel.flits v).

Definition held (g : GarnetNetwork) : Prop := forall rid i v o row,
  chan g rid i v o -> vec_get (skel g) rid = Ok row -> vc_held row v.

Lemma held_same g g' : same_units g g' -> held g -> held g'.
Proof.
  intros Hs Hh rid i v o row (iu & p & ou & Hc) Hr. rewrite (su_sk _ _ Hs) in Hr. apply (Hh rid i v o row); [|done].
  exists iu, p, ou. by apply (chan_at_same g' g (symmetry Hs)).
Qed.

Lemma chan_fun g rid i v o v' o' : chan g rid i v o -> chan g rid i v' o' -> v' = v /\ o' = o.
Proof. intros (iu & p & ou & H) (iu' & p' & ou' & H'). by destruct (chan_at_fun _ _ _ _ _ _ _ _ _ _ _ _ _ H H') as (_ & _ & ? & _ & ?). Qed.

Lemma swapped_held cur t g g' rid1 i1 rid2 i2 v1 o1 v2 o2 : net_inv cur t g ->
  swapped g g' rid1 i1 rid2 i2 v1 o1 v2 o2 -> held g ->
  (forall row, vec_get (skel g) rid1 = Ok row -> vc_held row v1) ->
  (forall row, vec_get (skel g) rid2 = Ok row -> vc_held row v2) -> held g'.
Proof.
  intros Hg Hsw Hh H1 H2 rid i v o row Hc Hrow. rewrite (sw_skel _ _ _ _ _ _ _ _ _ _ Hsw) in Hrow.
  destruct (decide (rid = rid1 /\ i = i1)) as [[-> ->]|N1].
  { destruct (chan_fun _ _ _ _ _ _ _ (sw_one _ _ _ _ _ _ _ _ _ _ Hsw) Hc) as [-> _]. by apply H1. }
  destruct (decide (rid = rid2 /\ i = i2)) as [[-> ->]|N2].
  { destruct (chan_fun _ _ _ _ _ _ _ (sw_two _ _ _ _ _ _ _ _ _ _ Hsw) Hc) as [-> _]. by apply H2. }
  destruct Hc as (iu & p & ou & Hc).
  destruct (get_iu_of_sk g' g rid i iu (eq_sym (sw_skel _ _ _ _ _ _ _ _ _ _ Hsw)) (ca_iu _ _ _ _ _ _ _ _ Hc)) as (iu0 & Hi0 & Hs0).
  destruct (ni_chan _ _ _ Hg rid i iu0 Hi0) as (v0 & o0 & Hc0 & _);
    [injection Hs0 as _ Hd _; rewrite Hd; apply Hc|].
  assert (Hc' : chan g' rid i v o) by (by exists iu, p, ou).
  destruct (chan_fun _ _ _ _ _ _ _ (sw_other _ _ _ _ _ _ _ _ _ _ Hsw _ _ _ _ N1 N2 Hc0) Hc') as [-> _]. by apply (Hh rid i v0 o0).
Qed.

Section Move.
Context (cur : Z) (t : Z -> Z -> Z) (g g' : GarnetNetwork) (k : Z) (b b' : brownian_bubble) (rid1 i1 : Z) (iu1 : InputUnit).
Context (Hg : net_inv cur t g) (Hb : vec_get (bubble g) k = Ok b).
Context (v1 v2 : VirtualChannel) (o1 o2 : OutVcState).

(** The bubble's record after the move, at input port [i1] of router [rid1]. *)
Definition moved_to : Prop :=
  router_id b' = rid1 /\ inport_id b' = i1 /\ inport_dirn b' = InputUnit.m_direction iu1 /\
  bubble_id b' = bubble_id b /\ last_intra_movement_cycle b' <= cur /\ last_inter_movement_cycle b' <= cur.

Lemma move_inv : swapped g g' rid1 i1 (router_id b) (inport_id b) v1 o1 v2 o2 -> moved_to ->
  get_iu rid1 i1 g = Ok iu1 -> InputUnit.m_direction iu1 <> "Local"%string ->
  ~ at_port rid1 i1 b ->
  nbub (bubble g) rid1 i1 = 0 -> nbub (bubble g) (router_id b) (inport_id b) = 1 ->
  chan_inv cur (t rid1 i1) 1 v1 o1 -> chan_inv cur (t (router_id b) (inport_id b)) 0 v2 o2 ->
  net_inv cur t (with_bubble (<[Z.to_nat k := b']> (bubble g')) g').
Proof.
  intros Hsw (Hr' & Hi' & Hd' & Hid' & Ht1 & Ht2) Hiu1 Hloc Hne Hn1 Hn2 Hc1 Hc2.
  set (gb := with_bubble _ g').
  assert (Hsk : skel gb = skel g) by apply Hsw.
  assert (Hsu : same_units g' gb) by (by split).
  assert (Hch : forall rid i v o, chan g' rid i v o -> chan gb rid i v o).
  { intros rid i v o (iu & p & ou & H). exists iu, p, ou. by apply (chan_at_same g'). }
  assert (Hnb : forall rid i, nbub (bubble gb) rid i = nbub (bubble g) rid i
    - (if decide (at_port rid i b) then 1 else 0) + (if decide (at_port rid i b') then 1 else 0)).
  { intros rid i. cbn. rewrite (sw_bubble _ _ _ _ _ _ _ _ _ _ Hsw). by apply nbub_insert. }
  split.
  - rewrite Hsk. apply Hg.
  - intros rid i iu Hi Hd. rewrite Hnb. destruct (decide (rid = rid1 /\ i = i1)) as [[-> ->]|N1].
    { exists v1, o1. split; [apply Hch, Hsw|]. rewrite decide_False by done. rewrite decide_True by done. by rewrite Hn1. }
    destruct (decide (rid = router_id b /\ i = inport_id b)) as [[-> ->]|N2].
    { exists v2, o2. split; [apply Hch, Hsw|]. rewrite decide_True by done.
      rewrite decide_False by (intros [? ?]; apply N1; lia). by rewrite Hn2. }
    destruct (get_iu_of_sk gb g rid i iu (eq_sym Hsk) Hi) as (iu0 & Hi0 & Hs0).
    destruct (ni_chan _ _ _ Hg rid i iu0 Hi0) as (v & o & Hv & Hinv); [injection Hs0; congruence|].
    exists v, o. split; [by apply Hch, Hsw|].
    rewrite (decide_False (P := at_port rid i b)) by (intros [? ?]; apply N2; split; congruence).
    rewrite (decide_False (P := at_port rid i b')) by (intros [? ?]; apply N1; split; congruence). by rewrite Z.sub_0_r, Z.add_0_r.
  - intros k' b1 Hb1. cbn in Hb1. rewrite (sw_bubble _ _ _ _ _ _ _ _ _ _ Hsw) in Hb1.
    destruct (decide (k' = k)) as [->|Hk].
    + rewrite (vec_get_insert _ _ _ _ Hb) in Hb1. apply Ok_inj in Hb1 as <-.
      destruct (ni_bubble _ _ _ Hg _ _ Hb) as (Hk & _). split_and!; [congruence | done | done|].
      destruct (get_iu_of_sk g gb rid1 i1 iu1 Hsk Hiu1) as (iu & Hi & Hs). injection Hs as _ Hdir _.
      exists iu. rewrite Hr', Hi', Hd'. split_and!; congruence.
    + rewrite vec_get_insert_ne in Hb1; [|apply (vec_get_range _ _ _ Hb)|congruence].
      destruct (ni_bubble _ _ _ Hg _ _ Hb1) as (Hk1 & Ha & Hb2 & iu & Hi & Hd & Hl). split_and!; [done..|].
      destruct (get_iu_of_sk g gb _ _ _ Hsk Hi) as (iu' & Hi2 & Hs). injection Hs as _ Hdir _.
      exists iu'. split_and!; congruence.
Qed.
End Move.
