(* ===== verification/BubbleIntra.v ===== *)
(** * Moves within a router *)

From S2P Require Import Prelude Flit FlitBuffer Consumer Config RoutingUnit MeshRouting NetworkLink.
From S2P Require Import VirtualChannel OutVcState OutputUnit InputUnit RouterState SwitchTheory BubblePath.
From S2P Require Import MessageBuffer NetStats NetworkInterface GarnetNetwork Bubble NetLens BubbleInv.
From S2P Require Import BubbleMoves.
Local Open Scope Z_scope.

(** ** What a move looks at *)

Section LookAt.
Context (cur : Z) (t : Z -> Z -> Z) (g : GarnetNetwork) (k : Z) (b : brownian_bubble) (rid1 i1 : Z) (iu1 : InputUnit).

(** The candidate channel and the bubble's own channel. *)
Record pair_at (p1 : Z * Z) (v1 : VirtualChannel) (ou1 : OutputUnit) (o1 : OutVcState) (iu2 : InputUnit)
    (p2 : Z * Z) (v2 : VirtualChannel) (ou2 : OutputUnit) (o2 : OutVcState) : Prop := {
  pa_one : chan_at g rid1 i1 iu1 p1 v1 ou1 o1;
  pa_two : chan_at g (router_id b) (inport_id b) iu2 p2 v2 ou2 o2;
  pa_inv1 : chan_inv cur (t rid1 i1) (nbub (bubble g) rid1 i1) v1 o1;
  pa_inv2 : chan_inv cur (t (router_id b) (inport_id b)) 1 v2 o2;
  pa_nb2 : nbub (bubble g) (router_id b) (inport_id b) = 1;
  pa_empty2 : VirtualChannel.flits v2 = []
}.

Lemma look_at_spec : net_inv cur t g -> vec_get (bubble g) k = Ok b ->
  get_iu rid1 i1 g = Ok iu1 -> InputUnit.m_direction iu1 <> "Local"%string ->
  exists p1 v1 ou1 o1 iu2 p2 v2 ou2 o2, pair_at p1 v1 ou1 o1 iu2 p2 v2 ou2 o2 /\
    look_at cur b rid1 i1 g =
      Ok (mkCandidate iu1 p1 (inport_id b) p2 (VirtualChannel.isEmpty v1) (isInState IDLE_ cur o1)).
Proof.
  intros Hg Hb Hi1 Hd1.
  destruct (ni_chan _ _ _ Hg _ _ _ Hi1 Hd1) as (v1 & o1 & (iu & p1 & ou1 & H1) & Hinv1).
  assert (iu = iu1) as -> by (pose proof (ca_iu _ _ _ _ _ _ _ _ H1); congruence).
  destruct (ni_bubble _ _ _ Hg _ _ Hb) as (_ & _ & _ & iu2 & Hi2 & _ & Hd2).
  destruct (ni_chan _ _ _ Hg _ _ _ Hi2 Hd2) as (v2 & o2 & (iu & p2 & ou2 & H2) & Hinv2).
  assert (iu = iu2) as -> by (pose proof (ca_iu _ _ _ _ _ _ _ _ H2); congruence).
  pose proof (nbub_pos _ _ _ Hb) as Hpos.
  assert (Hn : nbub (bubble g) (router_id b) (inport_id b) = 1 /\ VirtualChannel.flits v2 = []).
  { destruct Hinv2 as (? & _ & Htok & _). unfold tokens in Htok. pose proof (vsize_nonneg (VirtualChannel.flits v2)).
    split; [lia|]. apply nil_length_inv. unfold vsize in *. lia. }
  destruct Hn as [Hn He]. rewrite Hn in Hinv2.
  exists p1, v1, ou1, o1, iu2, p2, v2, ou2, o2. split; [by split|].
  unfold look_at. rewrite Hi1. cbn [mbind result_bind]. rewrite (ca_up _ _ _ _ _ _ _ _ H1). cbn [mbind result_bind]. rewrite Hi2. cbn [mbind result_bind].
  rewrite (ca_up _ _ _ _ _ _ _ _ H2). cbn [mbind result_bind]. unfold vc_isEmpty. rewrite (ca_v _ _ _ _ _ _ _ _ H1). cbn [mbind result_bind].
  rewrite (ca_ou _ _ _ _ _ _ _ _ H1). cbn [mbind result_bind]. unfold is_vc_idle. by rewrite (ca_o _ _ _ _ _ _ _ _ H1).
Qed.
End LookAt.

(** ** The exchange of a bubble and a free VC *)

Lemma upd_both_frame g rid i iu p ou v' o' : let g' := upd_both g rid i iu p ou v' o' in
  bubble g' = bubble g /\ g_config g' = g_config g /\ g_stats g' = g_stats g /\
  vsize (m_routers g') = vsize (m_routers g) /\ m_rand g' = m_rand g.
Proof. cbn. by rewrite !vsize_alter. Qed.

Lemma upd_in_frame g rid i iu v' : let g' := upd_in g rid i iu v' in
  bubble g' = bubble g /\ g_config g' = g_config g /\ g_stats g' = g_stats g /\
  vsize (m_routers g') = vsize (m_routers g) /\ m_rand g' = m_rand g.
Proof. cbn. by rewrite !vsize_alter. Qed.

Section Swap.
Context (cur : Z) (t : Z -> Z -> Z) (g : GarnetNetwork) (b : brownian_bubble) (rid1 i1 : Z) (iu1 : InputUnit)
  (p1 : Z * Z) (v1 : VirtualChannel) (ou1 : OutputUnit) (o1 : OutVcState) (iu2 : InputUnit)
  (p2 : Z * Z) (v2 : VirtualChannel) (ou2 : OutputUnit) (o2 : OutVcState).
Context (Hw : wired (skel g)) (Hpa : pair_at cur t g b rid1 i1 iu1 p1 v1 ou1 o1 iu2 p2 v2 ou2 o2).

Lemma free_swap : VirtualChannel.isEmpty v1 = true -> isInState IDLE_ cur o1 = true ->
  exists g1 g2, occupy cur p1 rid1 i1 g = Ok g1 /\ vacate cur p2 (router_id b) (inport_id b) g1 = Ok g2 /\
    swapped g g2 rid1 i1 (router_id b) (inport_id b) (set_active cur v1) (taken cur o1) (set_idle cur v2) (freed cur o2) /\
    all_flits g2 ≡ₚ all_flits g /\ vsize (m_routers g2) = vsize (m_routers g) /\
    ~ at_port rid1 i1 b /\ nbub (bubble g) rid1 i1 = 0 /\
    chan_inv cur (t rid1 i1) 1 (set_active cur v1) (taken cur o1) /\
    chan_inv cur (t (router_id b) (inport_id b)) 0 (set_idle cur v2) (freed cur o2).
Proof.
  intros Hemp Hidle. destruct Hpa as [H1 H2 Hi1 Hi2 Hn2 He2].
  apply isEmpty_flits in Hemp. unfold isInState in Hidle. apply andb_true_iff in Hidle as [Hidle _].
  apply bool_decide_eq_true in Hidle.
  assert (Hn1 : nbub (bubble g) rid1 i1 = 0).
  { destruct Hi1 as (Ht0 & _ & _ & _ & _ & Hst & _). rewrite Hidle in Hst. unfold tokens in Hst.
    pose proof (vsize_nonneg (filter (at_port rid1 i1) (bubble g))). unfold nbub in *.
    pose proof (vsize_nonneg (VirtualChannel.flits v1)).
    destruct (Z.eqb_spec (t rid1 i1 + vsize (VirtualChannel.flits v1) + vsize (filter (at_port rid1 i1) (bubble g))) 0); [lia | done]. }
  assert (Hne : ~ at_port rid1 i1 b) by (intros [E1 E2]; rewrite E1, E2 in Hn2; lia).
  rewrite Hn1 in Hi1. destruct (occupied_inv _ _ _ _ Hi1 Hemp Hidle) as [Hcr Hc1].
  destruct (vacated_inv _ _ _ _ Hi2) as [Hcr2 Hc2].
  set (g1 := upd_both g rid1 i1 iu1 p1 ou1 (set_active cur v1) (taken cur o1)).
  assert (Hne' : ~ (router_id b = rid1 /\ inport_id b = i1)) by done.
  assert (H2' : chan_at g1 (router_id b) (inport_id b) iu2 p2 v2 ou2 o2)
    by (by apply (upd_both_other g rid1 i1 iu1 p1 v1 ou1 o1 Hw H1)).
  assert (Hsk1 : skel g1 = skel g) by (by eapply upd_both_skel).
  assert (Hw1 : wired (skel g1)) by (by rewrite Hsk1).
  set (g2 := upd_both g1 (router_id b) (inport_id b) iu2 p2 ou2 (set_idle cur v2) (freed cur o2)).
  exists g1, g2. split_and!; [by apply occupy_eq | by apply vacate_eq | | | | done..].
  - split.
    + rewrite <- Hsk1. by eapply upd_both_skel.
    + done.
    + done.
    + transitivity (rest g1); [by apply (rest_upd_both _ _ _ _ _ _ _ _ Hw1 H2') | by apply (rest_upd_both _ _ _ _ _ _ _ _ Hw H1)].
    + exists (set_vc0 (set_active cur v1) iu1), p1, (set_outvc0 (taken cur o1) ou1).
      apply (upd_both_other g1 _ _ _ _ _ _ _ Hw1 H2'); [intros [? ?]; by apply Hne'|].
      by eapply upd_both_here.
    + exists (set_vc0 (set_idle cur v2) iu2), p2, (set_outvc0 (freed cur o2) ou2). by eapply upd_both_here.
    + intros rid i v o N1 N2 (iu & p & ou & H). exists iu, p, ou.
      apply (upd_both_other g1 _ _ _ _ _ _ _ Hw1 H2'); [done|].
      by apply (upd_both_other g _ _ _ _ _ _ _ Hw H1).
  - unfold g2. rewrite (upd_both_flits _ _ _ _ _ _ _ _ H2') by done.
    by apply (upd_both_flits _ _ _ _ _ _ _ _ H1).
  - unfold g2, g1. cbn. by rewrite !vsize_alter.
Qed.

(** ** The exchange of a bubble and a packet *)

(** The packet leaves the candidate's VC. *)
Lemma packet_out : VirtualChannel.isEmpty v1 = false ->
  exists f v1', InputUnit.getTopFlit 0 iu1 = Ok (f, set_vc0 v1' iu1) /\
    VirtualChannel.flits v1 = [f] /\ VirtualChannel.flits v1' = [] /\
    ~ at_port rid1 i1 b /\ nbub (bubble g) rid1 i1 = 0 /\
    chan_inv cur (t rid1 i1) 1 v1' o1 /\
    all_flits g ≡ₚ f :: all_flits (upd_in g rid1 i1 iu1 v1').
Proof.
  intros Hne. destruct Hpa as [H1 H2 Hi1 Hi2 Hn2 He2].
  assert (Hf : VirtualChannel.flits v1 <> []) by (intros E; apply isEmpty_flits in E; congruence).
  assert (Hn1 : nbub (bubble g) rid1 i1 = 0).
  { destruct Hi1 as (Ht & _ & Htok & _). unfold tokens in Htok. unfold nbub in *.
    pose proof (vsize_nonneg (filter (at_port rid1 i1) (bubble g))). unfold vsize in *.
    destruct (VirtualChannel.flits v1); [done | cbn in Htok; lia]. }
  assert (Hnp : ~ at_port rid1 i1 b) by (intros [E1 E2]; rewrite E1, E2 in Hn2; lia).
  destruct (FlitBuffer.getTopFlit_total (m_input_buffer v1)) as (f & b' & Hg'); [exact Hf|].
  assert (Hg : VirtualChannel.getTopFlit v1 = Ok (f, VirtualChannel.with_m_input_buffer b' v1))
    by (unfold VirtualChannel.getTopFlit; by rewrite Hg').
  rewrite Hn1 in Hi1. destruct (packet_left_inv _ _ _ _ _ _ Hi1 Hg) as (E & E' & Hc).
  exists f, (VirtualChannel.with_m_input_buffer b' v1). split_and!; [|done..|].
  - unfold InputUnit.getTopFlit. rewrite (ca_v _ _ _ _ _ _ _ _ H1). cbn [mbind result_bind].
    rewrite Hg. cbn [mbind result_bind].
    by rewrite (vec_set_Ok_get _ _ _ _ (ca_v _ _ _ _ _ _ _ _ H1)).
  - pose proof (upd_in_flits _ _ _ _ _ _ _ _ H1 (VirtualChannel.with_m_input_buffer b' v1)) as Hp.
    rewrite E, E' in Hp. symmetry. exact Hp.
Qed.

(** It enters the bubble's VC in a network [g2] with the units of the network it left. *)
Lemma packet_in v1' f' g2 : ~ at_port rid1 i1 b ->
  same_units (upd_in g rid1 i1 iu1 v1') g2 -> bubble g2 = bubble g ->
  exists g3, on_net_iu (router_id b) (inport_id b) (InputUnit.insertFlit 0 f') g2 = Ok g3 /\
    swapped g g3 rid1 i1 (router_id b) (inport_id b) v1' o1 (VirtualChannel.insertFlit f' v2) o2 /\
    all_flits g3 ≡ₚ f' :: all_flits (upd_in g rid1 i1 iu1 v1') /\
    vsize (m_routers g3) = vsize (m_routers g) /\ g_stats g3 = g_stats g2 /\
    chan_inv cur (t (router_id b) (inport_id b)) 0 (VirtualChannel.insertFlit f' v2) o2.
Proof.
  intros Hne Hsu Hbb. destruct Hpa as [H1 H2 Hi1 Hi2 Hn2 He2].
  set (g1 := upd_in g rid1 i1 iu1 v1').
  assert (Hsk1 : skel g1 = skel g) by (by eapply upd_in_skel).
  assert (Hsk2 : skel g2 = skel g) by (rewrite (su_sk _ _ Hsu); done).
  assert (H2' : chan_at g2 (router_id b) (inport_id b) iu2 p2 v2 ou2 o2).
  { apply (chan_at_same g1 g2 Hsu). apply (upd_in_other g rid1 i1 iu1 p1 v1 ou1 o1 H1); done. }
  set (g3 := upd_in g2 (router_id b) (inport_id b) iu2 (VirtualChannel.insertFlit f' v2)).
  exists g3. split_and!.
  - apply (on_net_iu_Ok _ _ _ _ _ _ (ca_iu _ _ _ _ _ _ _ _ H2')). apply on_vc_spec. exists v2. split; [apply H2 | done].
  - split.
    + rewrite <- Hsk2. by eapply upd_in_skel.
    + done.
    + cbn. by rewrite (su_config _ _ Hsu).
    + unfold g3. rewrite (rest_upd_in _ _ _ _ _ _ _ _ H2'), (su_rest _ _ Hsu). by apply (rest_upd_in _ _ _ _ _ _ _ _ H1).
    + exists (set_vc0 v1' iu1), p1, ou1.
      apply (upd_in_other g2 _ _ _ _ _ _ _ H2'); [intros [? ?]; by apply Hne|].
      apply (chan_at_same g1 g2 Hsu). by eapply upd_in_here.
    + exists (set_vc0 (VirtualChannel.insertFlit f' v2) iu2), p2, ou2. by eapply upd_in_here.
    + intros rid i v o N1 N2 (iu & p & ou & H). exists iu, p, ou.
      apply (upd_in_other g2 _ _ _ _ _ _ _ H2'); [done|]. apply (chan_at_same g1 g2 Hsu).
      by apply (upd_in_other g _ _ _ _ _ _ _ H1).
  - pose proof (upd_in_flits _ _ _ _ _ _ _ _ H2' (VirtualChannel.insertFlit f' v2)) as Hp.
    rewrite He2, insertFlit_flits, He2 in Hp. cbn in Hp. unfold g3. rewrite Hp, (su_flits _ _ Hsu). done.
  - unfold g3. cbn. rewrite vsize_alter, (su_size _ _ Hsu). unfold g1. cbn. by rewrite vsize_alter.
  - done.
  - by apply packet_entered_inv.
Qed.

(** What the VCs hold after the exchanges. *)
Lemma held_candidate : held g -> forall row, vec_get (skel g) rid1 = Ok row -> vc_held row (set_active cur v1).
Proof.
  intros Hh row Hrow. apply (Hh rid1 i1 v1 o1 row); [|done]. exists iu1, p1, ou1. apply Hpa.
Qed.

Lemma held_freed row : vc_held row (set_idle cur v2).
Proof.
  split; [done|]. change (VirtualChannel.flits (set_idle cur v2)) with (VirtualChannel.flits v2).
  rewrite (pa_empty2 _ _ _ _ _ _ _ _ _ _ _ _ _ _ _ _ Hpa). constructor.
Qed.

(** The packet that leaves asks for an output port of its router. *)
Lemma held_packet : held g -> forall row, vec_get (skel g) rid1 = Ok row -> forall f v1',
  InputUnit.getTopFlit 0 iu1 = Ok (f, set_vc0 v1' iu1) -> VirtualChannel.flits v1 = [f] -> VirtualChannel.flits v1' = [] ->
  vc_held row v1' /\ leads row (m_route f) (m_outport f).
Proof.
  intros Hh row Hrow f v1' Htop Hf Hf'. destruct Hpa as [H1 _ _ _ _ _].
  destruct (Hh rid1 i1 v1 o1 row) as [Ho Hall]; [by exists iu1, p1, ou1 | done|]. rewrite Hf in Hall. apply Forall_inv in Hall.
  split; [|done]. split; [|rewrite Hf'; constructor].
  apply getTopFlit_spec in Htop as (v & v' & Hv & Ht & Hset). rewrite (ca_v _ _ _ _ _ _ _ _ H1) in Hv. apply Ok_inj in Hv as <-.
  apply getTopFlit_flits in Ht as (_ & _ & Hv'). destruct (vc0_range _ _ _ _ _ _ _ _ H1) as [_ Hlen].
  assert (v' = v1') as <-.
  { assert (E : vec_get (m_vcs (set_vc0 v1' iu1)) 0 = Ok v1') by (apply (vec_get_insert_eq (m_vcs iu1)); lia).
    rewrite Hset in E. assert (E' : vec_get (m_vcs (with_m_vcs (<[Z.to_nat 0 := v']> (m_vcs iu1)) iu1)) 0 = Ok v')
      by (apply (vec_get_insert_eq (m_vcs iu1)); lia). rewrite E' in E. by apply Ok_inj in E. }
  by rewrite Hv'.
Qed.

Lemma held_entered f : held g -> forall row, vec_get (skel g) (router_id b) = Ok row -> leads row (m_route f) (m_outport f) ->
  vc_held row (VirtualChannel.insertFlit f v2).
Proof.
  intros Hh row Hrow Hf. destruct Hpa as [_ H2 _ _ _ He2].
  destruct (Hh (router_id b) (inport_id b) v2 o2 row) as [Ho _]; [by exists iu2, p2, ou2 | done|].
  split; [done|]. rewrite insertFlit_flits, He2. by constructor.
Qed.
End Swap.

(** ** Random choice and bubble records *)

Lemma random_mod_spec rand n g : 0 < n -> exists x, 0 <= x < n /\
  random_mod rand n g = Ok (x, with_m_rand (S (m_rand g)) g).
Proof.
  intros Hn. unfold random_mod, random. destruct (Z.eqb_spec n 0); [lia|].
  eexists. split; [|done]. apply Z.mod_pos_bound. lia.
Qed.

Lemma same_units_rand n g : same_units g (with_m_rand n g).
Proof. by split. Qed.
Lemma same_units_stats s g : stat_vectors s = stat_vectors (g_stats g) -> same_units g (with_g_stats s g).
Proof. intros E. split; try done. unfold rest. cbn [g_stats with_g_stats]. by rewrite E. Qed.
Lemma same_units_bubble bs g : same_units g (with_bubble bs g).
Proof. by split. Qed.
#[export] Hint Resolve same_units_rand same_units_stats same_units_bubble : garnet.

Lemma on_bubble_Ok k f b g : vec_get (bubble g) k = Ok b ->
  on_bubble k f g = Ok (with_bubble (<[Z.to_nat k := f b]> (bubble g)) g).
Proof. intros Hb. unfold on_bubble. by rewrite (vec_modify_Ok _ _ _ _ Hb). Qed.

(** Two updates of a bubble's record are one. *)
Lemma on_bubble_twice {A} k f1 f2 b g (h : GarnetNetwork -> result A) u (e : result unit) :
  vec_get (bubble g) k = Ok b -> e = Ok u ->
  (g1 ← on_bubble k f1 g; (e ;; (g2 ← on_bubble k f2 g1; h g2)))
  = h (with_bubble (<[Z.to_nat k := f2 (f1 b)]> (bubble g)) g).
Proof.
  intros Hb ->. rewrite (on_bubble_Ok _ _ _ _ Hb). cbn [mbind result_bind].
  rewrite (on_bubble_Ok _ _ (f1 b)) by (apply (vec_get_insert _ _ _ _ Hb)). cbn [mbind result_bind].
  f_equal. unfold with_bubble. cbn. by rewrite list_insert_insert_eq.
Qed.

(** ** One attempt within a router *)

Section Intra.
Context (rand : nat -> Z) (cur : Z) (t : Z -> Z -> Z) (id : Z).

(** What an attempt leaves behind: the invariant, the flits and everything the bubble does not
    own; when it succeeded, the bubble sits at another port of the same router. *)
Record intra_post (b : brownian_bubble) (g : GarnetNetwork) (m : bool) (g' : GarnetNetwork) : Prop := {
  ip_inv : net_inv cur t g';
  ip_flits : all_flits g' ≡ₚ all_flits g;
  ip_skel : skel g' = skel g;
  ip_config : g_config g' = g_config g;
  ip_size : vsize (m_routers g') = vsize (m_routers g);
  ip_rest : rest g' = rest g;
  ip_held : held g -> held g';
  ip_bubble : if m then exists b', bubble g' = <[Z.to_nat id := b']> (bubble g) /\ router_id b' = router_id b /\
      inport_id b' <> inport_id b /\ last_intra_movement_cycle b' = cur /\ last_inter_movement_cycle b' = last_inter_movement_cycle b
    else bubble g' = bubble g
}.

Lemma intra_post_same b g m g' g'' : intra_post b g m g' -> same_units g' g'' -> bubble g'' = bubble g' ->
  intra_post b g m g''.
Proof.
  intros [] Hs Hb. split.
  - by apply (net_inv_same g').
  - by rewrite (su_flits _ _ Hs).
  - by rewrite (su_sk _ _ Hs).
  - by rewrite (su_config _ _ Hs).
  - by rewrite (su_size _ _ Hs).
  - by rewrite (su_rest _ _ Hs).
  - intros Hh. by apply (held_same g'), ip_held0.
  - by rewrite Hb.
Qed.

(** The bubble's record after a move within its router. *)
Definition intra_entry (iu : InputUnit) (b : brownian_bubble) : brownian_bubble :=
  with_last_intra_movement_cycle cur (move_entry iu b).

Section Attempt.
Context (g : GarnetNetwork) (b : brownian_bubble) (i1 : Z) (iu1 : InputUnit).
Context (Hg : net_inv cur t g) (Hb : vec_get (bubble g) id = Ok b).
Context (Hi1 : get_iu (router_id b) i1 g = Ok iu1) (Hd1 : InputUnit.m_direction iu1 <> "Local"%string).

Lemma iu_id : InputUnit.m_id iu1 = i1.
Proof.
  destruct (get_iu_sk _ _ _ _ Hi1) as (row & Hrow & He). exact (w_in _ (ni_wired _ _ _ Hg) _ _ _ _ Hrow He).
Qed.

Lemma intra_moved_to : moved_to cur b (intra_entry iu1 b) (router_id b) i1 iu1.
Proof.
  destruct (ni_bubble _ _ _ Hg _ _ Hb) as (_ & _ & Ht & _).
  unfold moved_to, intra_entry, move_entry. cbn. rewrite <- iu_id. split_and!; (done || lia).
Qed.

(** The records after the exchange of channels [g2] are those of a moved bubble. *)
Lemma intra_post_intro g2 v1 o1 v2 o2 :
  swapped g g2 (router_id b) i1 (router_id b) (inport_id b) v1 o1 v2 o2 ->
  ~ at_port (router_id b) i1 b ->
  nbub (bubble g) (router_id b) i1 = 0 -> nbub (bubble g) (router_id b) (inport_id b) = 1 ->
  chan_inv cur (t (router_id b) i1) 1 v1 o1 -> chan_inv cur (t (router_id b) (inport_id b)) 0 v2 o2 ->
  all_flits g2 ≡ₚ all_flits g -> vsize (m_routers g2) = vsize (m_routers g) ->
  (held g -> forall row, vec_get (skel g) (router_id b) = Ok row -> vc_held row v1 /\ vc_held row v2) ->
  intra_post b g true (with_bubble (<[Z.to_nat id := intra_entry iu1 b]> (bubble g2)) g2).
Proof.
  intros Hsw Hne Hn1 Hn2 Hc1 Hc2 Hfl Hsz Hheld. split.
  - by eapply move_inv; [exact Hg | exact Hb | exact Hsw | apply intra_moved_to | ..].
  - done.
  - apply Hsw.
  - apply Hsw.
  - done.
  - apply Hsw.
  - intros Hh. apply (held_same g2); [apply same_units_bubble|].
    apply (swapped_held cur t g _ _ _ _ _ _ _ _ _ Hg Hsw Hh); intros row Hrow; by apply Hheld.
  - exists (intra_entry iu1 b). cbn. rewrite (sw_bubble _ _ _ _ _ _ _ _ _ _ Hsw).
    split_and!; [done | done | | done | done].
    intros E. apply Hne. split; [done|]. pose proof iu_id. unfold InputUnit.get_id in E. congruence.
Qed.

Lemma not_local : negb (String.eqb (InputUnit.get_direction iu1) "Local") = true.
Proof. apply negb_true_iff, String.eqb_neq. exact Hd1. Qed.

Section Cases.
Context (p1 : Z * Z) (v1 : VirtualChannel) (ou1 : OutputUnit) (o1 : OutVcState) (iu2 : InputUnit)
  (p2 : Z * Z) (v2 : VirtualChannel) (ou2 : OutputUnit) (o2 : OutVcState).
Context (Hpa : pair_at cur t g b (router_id b) i1 iu1 p1 v1 ou1 o1 iu2 p2 v2 ou2 o2).

Lemma intra_with_free_spec e i : VirtualChannel.isEmpty v1 = true -> isInState IDLE_ cur o1 = true ->
  0 < m_inter_bubble_period (g_config g) ->
  exists g', intra_with_free cur id (router_id b) i1 (mkCandidate iu1 p1 (inport_id b) p2 e i) g = Ok g' /\
    intra_post b g true g'.
Proof.
  intros He Hi Hper. destruct (free_swap _ _ _ _ _ _ _ _ _ _ _ _ _ _ _ _ (ni_wired _ _ _ Hg) Hpa He Hi)
    as (g1 & g2 & Ho & Hv & Hsw & Hfl & Hsz & Hne & Hn1 & Hc1 & Hc2).
  pose proof (intra_post_intro g2 _ _ _ _ Hsw Hne Hn1 (pa_nb2 _ _ _ _ _ _ _ _ _ _ _ _ _ _ _ _ Hpa) Hc1 Hc2 Hfl Hsz
    (fun Hh row Hrow => conj (held_candidate _ _ _ _ _ _ _ _ _ _ _ _ _ _ _ _ Hpa Hh row Hrow)
      (held_freed _ _ _ _ _ _ _ _ _ _ _ _ _ _ _ _ Hpa row))) as Hpost.
  unfold intra_with_free. cbn [cand_up orig_up orig_inport inpUnit]. rewrite Ho. cbn [mbind result_bind].
  rewrite Hv. cbn [mbind result_bind].
  rewrite (on_bubble_twice id (move_entry iu1) _ b _ _ tt); [|by rewrite (sw_bubble _ _ _ _ _ _ _ _ _ _ Hsw) | by apply assert_Ok, not_local].
  set (g4 := with_bubble _ g2). set (g5 := with_g_stats _ g4).
  assert (Hp5 : intra_post b g true g5) by (apply (intra_post_same b g true g4); [done | by apply same_units_stats | done]).
  assert (Hcfg : g_config g5 = g_config g) by apply Hp5. rewrite Hcfg.
  destruct (Z.ltb_spec (m_inter_bubble_period (g_config g)) cur); [|eauto].
  destruct (Z.eqb_spec (m_inter_bubble_period (g_config g)) 0); [lia|].
  unfold cyc_sub. pose proof (Z.mod_pos_bound cur _ Hper).
  rewrite (proj2 (Z.leb_le _ _)) by lia. cbn [mbind result_bind].
  destruct (schedule_total (router_id b) cur (m_inter_bubble_period (g_config g) - cur mod m_inter_bubble_period (g_config g)) g5)
    as [g6 Hg6]; [rewrite (ip_size _ _ _ _ Hp5); apply (get_iu_range _ _ _ _ Hi1)|].
  exists g6. split; [done|]. apply schedule_same in Hg6 as (Hsu & Hbb & _).
  by apply (intra_post_same b g true g5).
Qed.

Lemma intra_with_packet_spec e i : VirtualChannel.isEmpty v1 = false ->
  exists g', intra_with_packet cur id (router_id b) i1 (mkCandidate iu1 p1 (inport_id b) p2 e i) g = Ok g' /\
    intra_post b g true g'.
Proof.
  intros He. destruct (packet_out _ _ _ _ _ _ _ _ _ _ _ _ _ _ _ _ Hpa He)
    as (f & v1' & Htop & Hf1 & Hf1' & Hne & Hn1 & Hc1 & Hfl1).
  destruct (packet_in _ _ _ _ _ _ _ _ _ _ _ _ _ _ _ _ Hpa v1' f (upd_in g (router_id b) i1 iu1 v1') Hne)
    as (g3 & Hin & Hsw & Hfl & Hsz & Hst & Hc2); [reflexivity | done|].
  assert (Hfl' : all_flits g3 ≡ₚ all_flits g) by (by rewrite Hfl, <- Hfl1).
  assert (Hheld : held g -> forall row, vec_get (skel g) (router_id b) = Ok row ->
    vc_held row v1' /\ vc_held row (VirtualChannel.insertFlit f v2)).
  { intros Hh row Hrow. destruct (held_packet _ _ _ _ _ _ _ _ _ _ _ _ _ _ _ _ Hpa Hh row Hrow f v1' Htop Hf1 Hf1') as [Hv1 Hf].
    split; [done|]. by apply (held_entered _ _ _ _ _ _ _ _ _ _ _ _ _ _ _ _ Hpa f Hh). }
  pose proof (intra_post_intro g3 _ _ _ _ Hsw Hne Hn1 (pa_nb2 _ _ _ _ _ _ _ _ _ _ _ _ _ _ _ _ Hpa) Hc1 Hc2 Hfl' Hsz Hheld) as Hpost.
  unfold intra_with_packet. cbn [cand_up orig_up orig_inport inpUnit]. rewrite Htop. cbn [mbind result_bind].
  rewrite (on_net_iu_Ok _ _ _ _ _ (set_vc0 v1' iu1) Hi1 eq_refl). cbn [mbind result_bind].
  change (put_iu (router_id b) i1 (set_vc0 v1' iu1) g) with (upd_in g (router_id b) i1 iu1 v1').
  rewrite Hin. cbn [mbind result_bind].
  rewrite (on_bubble_twice id (move_entry iu1) _ b _ _ tt); [|by rewrite (sw_bubble _ _ _ _ _ _ _ _ _ _ Hsw) | by apply assert_Ok, not_local].
  eexists. split; [done|]. eapply intra_post_same; [exact Hpost | auto with garnet | done].
Qed.
End Cases.
End Attempt.

Lemma intra_post_refl b g m : net_inv cur t g -> m = false -> intra_post b g m g.
Proof. intros Hg ->. by split. Qed.

Lemma intra_post_rand b g m n g' : intra_post b (with_m_rand n g) m g' -> intra_post b g m g'.
Proof. intros []. split; try done. intros Hh. by apply ip_held0, (held_same g); [apply same_units_rand|]. Qed.

Lemma try_intra_spec g b : net_inv cur t g -> vec_get (bubble g) id = Ok b ->
  0 < m_inter_bubble_period (g_config g) ->
  exists m g', try_intra rand cur id g = Ok (m, g') /\ intra_post b g m g'.
Proof.
  intros Hg Hb Hper. unfold try_intra. rewrite Hb. cbn [mbind result_bind].
  destruct (ni_bubble _ _ _ Hg _ _ Hb) as (Hid & _ & _ & iub & Hib & _).
  destruct (proj1 (get_iu_Ok _ _ _ _) Hib) as (r & Hr & Hir). rewrite Hr. cbn [mbind result_bind].
  destruct (random_mod_spec rand (vsize (m_input_unit r)) g) as (x & Hx & ->); [apply vec_get_range in Hir; lia|].
  cbn [mbind result_bind]. set (g0 := with_m_rand _ g).
  assert (Hg0 : net_inv cur t g0) by (apply (net_inv_same g); [apply same_units_rand | done | done]).
  destruct (vec_get_in_range (m_input_unit r) x Hx) as [iu Hiu].
  assert (Hi : get_iu (router_id b) x g0 = Ok iu) by (apply get_iu_Ok; by exists r).
  rewrite Hi. cbn [mbind result_bind].
  destruct (String.eqb_spec (InputUnit.get_direction iu) "Local") as [|Hd].
  { eexists _, _. split; [done|]. apply (intra_post_rand b g _ (S (m_rand g))). by apply intra_post_refl. }
  destruct (other_bubble id (router_id b) (InputUnit.get_id iu) g0).
  { eexists _, _. split; [done|]. apply (intra_post_rand b g _ (S (m_rand g))). by apply intra_post_refl. }
  destruct (look_at_spec cur t g0 id b (router_id b) x iu Hg0 Hb Hi Hd)
    as (p1 & v1 & ou1 & o1 & iu2 & p2 & v2 & ou2 & o2 & Hpa & ->).
  cbn [mbind result_bind cand_empty cand_idle].
  destruct (VirtualChannel.isEmpty v1) eqn:He, (isInState IDLE_ cur o1) eqn:Ei.
  - destruct (intra_with_free_spec g0 b x iu Hg0 Hb Hi Hd _ _ _ _ _ _ _ _ _ Hpa true true He Ei Hper) as (g' & -> & Hp).
    eexists _, _. split; [done|]. by apply (intra_post_rand _ _ _ (S (m_rand g))).
  - eexists _, _. split; [done|]. apply (intra_post_rand b g _ (S (m_rand g))). by apply intra_post_refl.
  - exfalso. pose proof (pa_inv1 _ _ _ _ _ _ _ _ _ _ _ _ _ _ _ _ Hpa) as (Ht & Hnb & _ & _ & _ & Hst & _).
    unfold isInState in Ei. apply andb_true_iff in Ei as [Ei _]. apply bool_decide_eq_true in Ei. rewrite Ei in Hst.
    unfold tokens in Hst.
    assert (0 < vsize (VirtualChannel.flits v1)).
    { unfold vsize. destruct (VirtualChannel.flits v1) eqn:E; [apply isEmpty_flits in E; congruence | cbn; lia]. }
    destruct (Z.eqb_spec (t (router_id b) x + vsize (VirtualChannel.flits v1) + nbub (bubble g0) (router_id b) x) 0); [lia | done].
  - destruct (intra_with_packet_spec g0 b x iu Hg0 Hb Hi Hd _ _ _ _ _ _ _ _ _ Hpa false false He) as (g' & -> & Hp).
    eexists _, _. split; [done|]. by apply (intra_post_rand _ _ _ (S (m_rand g))).
Qed.

Lemma intra_post_trans b g g1 m g' : intra_post b g false g1 -> intra_post b g1 m g' -> intra_post b g m g'.
Proof.
  intros [_ Hf1 Hs1 Hc1 Hz1 Hr1 Hh1 Hb1] [Hi Hf Hs Hc Hz Hr Hh Hb]. split; [done | by rewrite Hf | congruence.. | auto |].
  by rewrite <- Hb1.
Qed.

Lemma search_intra_spec n g b : net_inv cur t g -> vec_get (bubble g) id = Ok b ->
  0 < m_inter_bubble_period (g_config g) ->
  exists m g', search (try_intra rand cur id) n g = Ok (m, g') /\ intra_post b g m g'.
Proof.
  revert g. induction n as [|n IH]; intros g Hg Hb Hper; cbn [search].
  - eexists _, _. split; [done|]. by apply intra_post_refl.
  - destruct (try_intra_spec g b Hg Hb Hper) as (m & g1 & -> & Hp). cbn [mbind result_bind].
    destruct m; [eauto|].
    destruct (IH g1) as (m & g' & -> & Hp').
    + apply Hp.
    + by rewrite (ip_bubble _ _ _ _ Hp).
    + by rewrite (ip_config _ _ _ _ Hp).
    + eexists _, _. split; [done|]. by eapply intra_post_trans.
Qed.

Lemma move_intra_spec g b : net_inv cur t g -> vec_get (bubble g) id = Ok b ->
  0 < m_inter_bubble_period (g_config g) ->
  exists m g', move_intra_bubble rand cur id g = Ok (m, g') /\ intra_post b g m g' /\
    (cur - last_intra_movement_cycle b < m_intra_bubble_period (g_config g) -> m = false /\ g' = g).
Proof.
  intros Hg Hb Hper. unfold move_intra_bubble. rewrite Hb. cbn [mbind result_bind].
  destruct (ni_bubble _ _ _ Hg _ _ Hb) as (Hid & Hle & _ & iub & Hib & _).
  unfold cyc_sub. rewrite (proj2 (Z.leb_le _ _)) by lia. cbn [assert_ mbind result_bind].
  destruct (proj1 (get_iu_Ok _ _ _ _) Hib) as (r & Hr & _).
  destruct (Z.leb_spec (m_intra_bubble_period (g_config g)) (cur - last_intra_movement_cycle b)).
  - rewrite Hr. cbn [mbind result_bind].
    destruct (search_intra_spec (length (m_input_unit r)) g b Hg Hb Hper) as (m & g' & Hs & Hp).
    exists m, g'. split_and!; [done | done | lia].
  - eexists _, _. split_and!; [done | by apply intra_post_refl | done].
Qed.
End Intra.
