(* ===== verification/BubbleInit.v ===== *)
(** * Placement of the bubbles *)

From S2P Require Import Prelude Flit FlitBuffer Consumer Config RoutingUnit MeshRouting NetworkLink.
From S2P Require Import VirtualChannel OutVcState OutputUnit InputUnit RouterState SwitchTheory BubblePath.
From S2P Require Import MessageBuffer NetStats NetworkInterface GarnetNetwork Bubble NetLens BubbleInv.
From S2P Require Import BubbleMoves BubbleIntra.
Local Open Scope Z_scope.

(** The ports of a network that bubbles are placed in: each router has a non-local input port,
    and its direction map knows where every port is. *)
Definition placeable (sk : list RouterSk) : Prop :=
  forall rid row, vec_get sk rid = Ok row ->
    (exists i e, vec_get (sk_in row) i = Ok e /\ e.1.2 <> "Local"%string) /\
    (forall i e, vec_get (sk_in row) i = Ok e -> m_inports_dirn2idx (sk_routing row) !! e.1.2 = Some i).

(** Bubbles [0..k-1] have been placed, all in different routers; otherwise every channel is idle. *)
Record placed (cur k : Z) (g0 g : GarnetNetwork) : Prop := {
  pl_skel : skel g = skel g0;
  pl_config : g_config g = g_config g0;
  pl_flits : all_flits g ≡ₚ all_flits g0;
  pl_size : vsize (m_routers g) = vsize (m_routers g0);
  pl_len : length (bubble g) = length (bubble g0);
  pl_chan : forall rid i iu, get_iu rid i g = Ok iu -> InputUnit.m_direction iu <> "Local"%string ->
    exists v o, chan g rid i v o /\ chan_inv cur 0 (nbub (take (Z.to_nat k) (bubble g)) rid i) v o /\
      VirtualChannel.flits v = [];
  pl_bubble : forall j b, j < k -> vec_get (bubble g) j = Ok b -> bubble_ok cur g j b /\ sense_inc b = true;
  pl_distinct : forall i j b b', i < k -> j < k -> vec_get (bubble g) i = Ok b -> vec_get (bubble g) j = Ok b' ->
    router_id b = router_id b' -> i = j
}.

Lemma placed_done cur g0 g k : wired (skel g0) -> vsize (bubble g) = k -> placed cur k g0 g -> net_inv cur (fun _ _ => 0) g.
Proof.
  intros Hw Hk [Hs _ _ _ _ Hc Hb _]. split.
  - by rewrite Hs.
  - intros rid i iu Hi Hd. destruct (Hc rid i iu Hi Hd) as (v & o & Hch & Hinv & _). exists v, o. split; [done|].
    rewrite take_ge in Hinv; [done | unfold vsize in Hk; lia].
  - intros j b Hj. apply (Hb j b); [apply vec_get_range in Hj; lia | done].
Qed.

Lemma nbub_app bs bs' rid i : nbub (bs ++ bs') rid i = nbub bs rid i + nbub bs' rid i.
Proof. unfold nbub, vsize. rewrite filter_app, length_app. lia. Qed.

(** The bubbles up to and including the one just placed. *)
Lemma nbub_take_succ bs k b rid i : vec_get bs k = Ok b ->
  nbub (take (Z.to_nat (k + 1)) bs) rid i =
  nbub (take (Z.to_nat k) bs) rid i + (if decide (at_port rid i b) then 1 else 0).
Proof.
  intros [H0 Hb]%vec_get_Ok. replace (Z.to_nat (k + 1)) with (S (Z.to_nat k)) by lia.
  rewrite (take_S_r _ _ _ Hb), nbub_app. f_equal. unfold nbub, vsize. rewrite filter_cons, filter_nil.
  by case_decide.
Qed.

Lemma nbub_take_none cur k g0 g rid i : placed cur k g0 g ->
  (forall j b, j < k -> vec_get (bubble g) j = Ok b -> router_id b <> rid) ->
  nbub (take (Z.to_nat k) (bubble g)) rid i = 0.
Proof.
  intros Hp Hno. unfold nbub, vsize.
  destruct (filter (at_port rid i) (take (Z.to_nat k) (bubble g))) as [|b l] eqn:E; [done|]. exfalso.
  assert (Hin : b ∈ filter (at_port rid i) (take (Z.to_nat k) (bubble g))) by (rewrite E; by left).
  apply list_elem_of_filter in Hin as [[Hr _] Hin]. apply list_elem_of_lookup in Hin as [j Hj].
  apply lookup_take_Some in Hj as [Hj Hlt].
  apply (Hno (Z.of_nat j) b); [lia | apply vec_get_Ok; split; [lia|]; by rewrite Nat2Z.id | done].
Qed.

Section Place.
Context (cur k rid : Z) (g0 g : GarnetNetwork).
Context (Hw : wired (skel g0)) (Hpl : placeable (skel g0)) (Hp : placed cur k g0 g).
Context (Hk : 0 <= k < vsize (bubble g)) (Hrid : 0 <= rid < vsize (m_routers g)).
Context (Hfree : forall j b, j < k -> vec_get (bubble g) j = Ok b -> router_id b <> rid).
Context (b0 : brownian_bubble) (Hb0 : vec_get (bubble g) k = Ok b0) (Hid0 : bubble_id b0 = k)
  (Hr0 : router_id b0 = rid) (Hs0 : sense_inc b0 = true).

(** Bubble [k] is in router [rid] now; the other records are as before. *)
Definition in_router (g' : GarnetNetwork) : Prop :=
  exists b', bubble g' = <[Z.to_nat k := b']> (bubble g) /\ router_id b' = rid.

Lemma place_at_ok i iu : get_iu rid i g = Ok iu -> InputUnit.m_direction iu <> "Local"%string ->
  exists g', place_at cur k rid i g = Ok g' /\ placed cur (k + 1) g0 g' /\ in_router g'.
Proof.
  intros Hi Hd. destruct (pl_chan _ _ _ _ Hp rid i iu Hi Hd) as (v & o & (iu' & p & ou & Hch) & Hinv & He).
  assert (iu' = iu) as -> by (pose proof (ca_iu _ _ _ _ _ _ _ _ Hch); congruence).
  rewrite (nbub_take_none _ _ _ _ _ _ Hp Hfree) in Hinv.
  assert (Hsk : skel g = skel g0) by apply Hp.
  destruct (get_iu_sk _ _ _ _ Hi) as (row & Hrow & Hent).
  assert (Hidi : InputUnit.m_id iu = i) by (rewrite Hsk in Hrow; exact (w_in _ Hw _ _ _ _ Hrow Hent)).
  assert (Hidle : OutVcState.m_vc_state o = IDLE_).
  { destruct Hinv as (_ & _ & _ & _ & _ & Hst & _). unfold tokens, vsize in Hst. by rewrite He in Hst. }
  destruct (occupied_inv _ _ _ _ Hinv He Hidle) as [Hcr Hc1].
  unfold place_at. rewrite Hi. cbn [mbind result_bind]. rewrite (on_bubble_Ok _ _ _ _ Hb0). cbn [mbind result_bind].
  set (b1 := with_last_inport_id _ _). set (g1 := with_bubble _ g).
  assert (Hch1 : chan_at g1 rid i iu p v ou o) by (apply (chan_at_same g); [apply same_units_bubble | done]).
  unfold InputUnit.get_id. rewrite Hidi, (ca_iu _ _ _ _ _ _ _ _ Hch1). cbn [mbind result_bind].
  rewrite (ca_up _ _ _ _ _ _ _ _ Hch1). cbn [mbind result_bind].
  rewrite (occupy_eq _ _ _ _ _ _ _ _ _ Hch1 Hcr). cbn [mbind result_bind].
  set (g2 := upd_both g1 rid i iu p ou (set_active cur v) (taken cur o)).
  assert (Hw1 : wired (skel g1)) by (change (skel g1) with (skel g); by rewrite Hsk).
  assert (Hsk2 : skel g2 = skel g) by (exact (upd_both_skel _ _ _ _ _ _ _ _ Hch1 _ _)).
  assert (Hrow2 : vec_get (skel g2) rid = Ok row) by (by rewrite Hsk2).
  unfold skel in Hrow2. rewrite vec_get_map in Hrow2. apply bind_Ok in Hrow2 as (r2 & Hr2 & Er2). apply Ok_inj in Er2.
  rewrite Hr2. cbn [mbind result_bind].
  assert (Hmap : m_inports_dirn2idx (m_routing_unit r2) !! InputUnit.get_direction iu = Some i).
  { rewrite Hsk in Hrow. destruct (Hpl rid row Hrow) as [_ Hm]. rewrite <- Er2 in Hm, Hent. exact (Hm _ _ Hent). }
  rewrite Hmap. cbn [mbind result_bind]. rewrite Z.eqb_refl. cbn [assert_ mbind result_bind].
  assert (Hb2 : vec_get (bubble g2) k = Ok b1) by (apply (vec_get_insert _ _ _ _ Hb0)).
  rewrite (on_bubble_Ok _ _ _ _ Hb2). eexists. split; [done|].
  set (b2 := with_last_inter_movement_cycle _ _). set (g3 := with_bubble _ g2).
  assert (Hbb : bubble g3 = <[Z.to_nat k := b2]> (bubble g)) by (cbn; by rewrite list_insert_insert_eq).
  assert (Hat : at_port rid i b2) by (split; [exact Hr0 | exact Hidi]).
  assert (Hg3 : forall rid1 i1 v1 o1, chan g2 rid1 i1 v1 o1 -> chan g3 rid1 i1 v1 o1).
  { intros rid1 i1 v1 o1 (x & y & z & H). exists x, y, z. by apply (chan_at_same g2); [apply same_units_bubble|]. }
  assert (Hold : forall j b, j < k -> vec_get (bubble g3) j = Ok b -> vec_get (bubble g) j = Ok b).
  { intros j b Hj. rewrite Hbb, vec_get_insert_ne by lia. done. }
  assert (Hnew : vec_get (bubble g3) k = Ok b2) by (rewrite Hbb; by apply (vec_get_insert _ _ _ b2 Hb0)).
  split; [|by exists b2; split; [|apply Hat]]. split.
  - change (skel g3) with (skel g2). congruence.
  - apply Hp.
  - change (all_flits g3) with (all_flits g2). unfold g2. rewrite (upd_both_flits _ _ _ _ _ _ _ _ Hch1) by done. apply Hp.
  - cbn. rewrite !vsize_alter. apply Hp.
  - rewrite Hbb, length_insert. apply Hp.
  - intros rid1 i1 iu1 Hi1 Hd1. rewrite (nbub_take_succ _ _ b2) by done.
    rewrite Hbb, take_insert_ge by lia.
    destruct (decide (rid1 = rid /\ i1 = i)) as [[-> ->]|Hne].
    + exists (set_active cur v), (taken cur o). rewrite decide_True by done. rewrite (nbub_take_none _ _ _ _ _ _ Hp Hfree).
      split_and!; [|done | done]. apply Hg3. do 3 eexists. exact (upd_both_here _ _ _ _ _ _ _ _ Hch1 _ _).
    + rewrite decide_False by (intros [E1 E2]; apply Hne; destruct Hat; split; congruence).
      destruct (get_iu_of_sk g3 g rid1 i1 iu1) as (iug & Hig & Hsg); [by symmetry | done|].
      destruct (pl_chan _ _ _ _ Hp rid1 i1 iug Hig) as (v1 & o1 & (x & y & z & Hc) & Hinv1 & He1); [injection Hsg; congruence|].
      exists v1, o1. rewrite Z.add_0_r. split_and!; [|done | done]. apply Hg3. exists x, y, z.
      apply (upd_both_other _ _ _ _ _ _ _ _ Hw1 Hch1); [done|]. by apply (chan_at_same g); [apply same_units_bubble|].
  - intros j b Hj Hbj. destruct (decide (j = k)) as [->|].
    + rewrite Hnew in Hbj. apply Ok_inj in Hbj as <-. split; [|done]. split_and!; [done | cbn; lia | cbn; lia|].
      destruct (get_iu_of_sk g g3 rid i iu) as (iug & Hig & Hsg); [done | done|]. injection Hsg as _ Hdir _.
      exists iug. destruct Hat as [-> ->].
      change (inport_dirn b2) with (InputUnit.m_direction iu). split_and!; congruence.
    + destruct (pl_bubble _ _ _ _ Hp j b ltac:(lia) (Hold j b ltac:(lia) Hbj)) as [(? & ? & ? & iuj & Hij & Hdj & Hlj) Hsj].
      split; [|done]. split_and!; [done..|].
      destruct (get_iu_of_sk g g3 (router_id b) (inport_id b) iuj) as (iug & Hig & Hsg); [done | exact Hij|]. injection Hsg as _ Hdir _.
      exists iug. split_and!; congruence.
  - intros j1 j2 b b' Hj1 Hj2 H1 H2 Heq.
    destruct (decide (j1 = k)) as [->|N1], (decide (j2 = k)) as [->|N2]; [done | exfalso | exfalso |].
    + rewrite Hnew in H1. apply Ok_inj in H1 as <-. apply (Hfree j2 b'); [lia | by apply Hold; [lia|] | destruct Hat; congruence].
    + rewrite Hnew in H2. apply Ok_inj in H2 as <-. apply (Hfree j1 b); [lia | by apply Hold; [lia|] | destruct Hat; congruence].
    + apply (pl_distinct _ _ _ _ Hp j1 j2 b b'); [lia | lia | by apply Hold; [lia|] | by apply Hold; [lia|] | done].
Qed.

(** The scan for the first non-local port. *)
Lemma place_first_ok n inp_ : (exists i iu, inp_ <= i < inp_ + Z.of_nat n /\ get_iu rid i g = Ok iu /\
    InputUnit.m_direction iu <> "Local"%string) -> 0 <= inp_ ->
  exists g', place_first cur (fun d => negb (String.eqb d "Local")) n k rid inp_ g = Ok g' /\
    placed cur (k + 1) g0 g' /\ in_router g'.
Proof.
  revert inp_. induction n as [|n IH]; intros inp_ (i & iu & Hi & Hiu & Hd) H0; [lia|]. cbn [place_first].
  assert (Hex : exists iu0, get_iu rid inp_ g = Ok iu0).
  { apply get_iu_Ok in Hiu as (r & Hr & Hir). apply vec_get_range in Hir.
    destruct (vec_get_in_range (m_input_unit r) inp_) as [x Hx]; [lia|]. exists x. apply get_iu_Ok. eauto. }
  destruct Hex as [iu0 Hiu0]. rewrite Hiu0. cbn [mbind result_bind].
  destruct (String.eqb_spec (InputUnit.get_direction iu0) "Local") as [El|Hl]; cbn [negb].
  - apply IH; [|lia]. exists i, iu. split_and!; [|lia | done | done].
    destruct (decide (i = inp_)) as [->|]; [|lia]. unfold InputUnit.get_direction in El. congruence.
  - by apply (place_at_ok inp_ iu0).
Qed.

Lemma place_in_router_ok :
  exists g', place_in_router cur (fun d => negb (String.eqb d "Local")) k rid g = Ok g' /\
    placed cur (k + 1) g0 g' /\ in_router g'.
Proof.
  unfold place_in_router. destruct (vec_get_in_range (m_routers g) rid Hrid) as [r Hr]. rewrite Hr. cbn [mbind result_bind].
  assert (Hrow : vec_get (skel g0) rid = Ok (r_sk r)) by (rewrite <- (pl_skel _ _ _ _ Hp); unfold skel; by rewrite vec_get_map, Hr).
  destruct (Hpl _ _ Hrow) as [(i & e & He & Hd) _]. cbn in He. rewrite vec_get_map in He.
  destruct (vec_get (m_input_unit r) i) as [iu|] eqn:Hi; [|done]. cbn in He. apply Ok_inj in He as <-.
  apply place_first_ok; [|lia]. exists i, iu. split_and!; [| |apply get_iu_Ok; eauto | exact Hd].
  - apply vec_get_range in Hi. lia.
  - apply vec_get_range in Hi. unfold vsize in Hi. lia.
Qed.
End Place.

(** ** The placement loop *)

(** A network before the first router wakeup: every channel is idle and no bubble is placed. *)
Record idle_net (cur : Z) (g : GarnetNetwork) : Prop := {
  in_wired : wired (skel g);
  in_place : placeable (skel g);
  in_chan : forall rid i iu, get_iu rid i g = Ok iu -> InputUnit.m_direction iu <> "Local"%string ->
    exists v o, chan g rid i v o /\ chan_inv cur 0 0 v o /\ VirtualChannel.flits v = [];
  in_len : vsize (bubble g) = m_num_bubble (g_config g);
  in_size : 0 < vsize (m_routers g) < 2 ^ 32
}.

Lemma placed_start cur g : idle_net cur g -> placed cur 0 g g.
Proof.
  intros [Hw Hpl Hc Hl Hs]. split; try done.
  - intros j b Hj Hb. apply vec_get_range in Hb. lia.
  - intros i j b b' Hi Hj Hb. apply vec_get_range in Hb. lia.
Qed.

(** The record of a bubble that is not placed yet does not matter, nor do random draws. *)
Lemma placed_record cur k g0 g f n : placed cur k g0 g -> 0 <= k ->
  placed cur k g0 (with_m_rand n (with_bubble (<[Z.to_nat k := f]> (bubble g)) g)).
Proof.
  intros [Hs Hc Hf Hz Hl Hch Hb Hd] Hk. set (g' := with_m_rand n _).
  assert (Hsu : same_units g g') by (by split).
  assert (Hold : forall j b, j < k -> vec_get (bubble g') j = Ok b -> vec_get (bubble g) j = Ok b).
  { intros j b Hj. cbn. rewrite vec_get_insert_ne by lia. done. }
  split; try done.
  - cbn. by rewrite length_insert.
  - intros rid i iu Hi Hdir. cbn. rewrite take_insert_ge by lia.
    destruct (Hch rid i iu Hi Hdir) as (v & o & (x & y & z & H) & Hinv & He). exists v, o. split_and!; [|done..].
    exists x, y, z. by apply (chan_at_same g).
  - intros j b Hj Hbj. exact (Hb j b Hj (Hold j b Hj Hbj)).
  - intros i j b b' Hi Hj H1 H2. exact (Hd i j b b' Hi Hj (Hold i b Hi H1) (Hold j b' Hj H2)).
Qed.

(** Routers that the first [k] bubbles occupy. *)
Definition occupied (k : Z) (g : GarnetNetwork) : list Z := map router_id (take (Z.to_nat k) (bubble g)).

Lemma occupied_spec k g x : x ∈ occupied k g <-> exists j b, j < k /\ vec_get (bubble g) j = Ok b /\ router_id b = x.
Proof.
  unfold occupied. change (map router_id ?l) with (router_id <$> l). rewrite list_elem_of_fmap. split.
  - intros (b & -> & Hin). apply list_elem_of_lookup in Hin as [j Hj]. apply lookup_take_Some in Hj as [Hj Hlt].
    exists (Z.of_nat j), b. split_and!; [lia | | done]. apply vec_get_Ok. split; [lia|]. by rewrite Nat2Z.id.
  - intros (j & b & Hj & [H0 Hb]%vec_get_Ok & <-). exists b. split; [done|].
    apply (list_elem_of_lookup_2 _ (Z.to_nat j)). apply lookup_take_Some. split; [done | lia].
Qed.

Lemma occupied_existsb k g x : existsb (fun b => router_id b =? x) (take (Z.to_nat k) (bubble g)) = true <-> x ∈ occupied k g.
Proof.
  rewrite existsb_exists. unfold occupied. change (map router_id ?l) with (router_id <$> l). rewrite list_elem_of_fmap.
  setoid_rewrite <- list_elem_of_In. setoid_rewrite Z.eqb_eq. naive_solver.
Qed.

Section Draw.
Context (rand : nat -> Z).

(** A draw ends with a router that is not occupied, or runs out of fuel. *)
Lemma draw_router_cases fuel k g : 0 < vsize (m_routers g) < 2 ^ 32 ->
  (exists x n, draw_router rand fuel k g = Ok (x, with_m_rand n g) /\ 0 <= x < vsize (m_routers g) /\ x ∉ occupied k g) \/
  draw_router rand fuel k g = Err EFuel.
Proof.
  revert g. induction fuel as [|fuel IH]; intros g Hn; cbn [draw_router]; [by right|].
  destruct (random_mod_spec rand (vsize (m_routers g)) g) as (x & Hx & ->); [lia|]. cbn [mbind result_bind].
  rewrite u32_small by lia. destruct (existsb _ _) eqn:E.
  - destruct (IH (with_m_rand (S (m_rand g)) g) Hn) as [(y & n & -> & Hy & Hno) | ->]; [left | by right].
    exists y, n. split; [done|]. split; [exact Hy | exact Hno].
  - left. exists x, (S (m_rand g)). split_and!; [done | lia | lia|]. rewrite <- occupied_existsb.
    change (bubble (with_m_rand (S (m_rand g)) g)) with (bubble g) in E. congruence.
Qed.

(** When all routers are occupied the loop never ends. *)
Lemma draw_router_full fuel k g : 0 < vsize (m_routers g) < 2 ^ 32 ->
  (forall x, 0 <= x < vsize (m_routers g) -> x ∈ occupied k g) -> draw_router rand fuel k g = Err EFuel.
Proof.
  intros Hn Hall. destruct (draw_router_cases fuel k g Hn) as [(x & n & _ & Hx & Hno) | ?]; [|done].
  by destruct Hno; apply Hall.
Qed.

(** A stream that draws every residue within [fuel] draws finds a free router. *)
Definition covers (fuel : nat) (n : Z) : Prop :=
  forall start r, 0 <= r < n -> exists j, (j < fuel)%nat /\ u64 (rand (start + j)) mod n = r.

Lemma draw_router_free fuel k g x j : 0 < vsize (m_routers g) < 2 ^ 32 -> x ∉ occupied k g ->
  (j < fuel)%nat -> u64 (rand (m_rand g + j)%nat) mod vsize (m_routers g) = x ->
  draw_router rand fuel k g <> Err EFuel.
Proof.
  revert g j. induction fuel as [|fuel IH]; intros g j Hn Hno Hj Hx; [lia|]. cbn [draw_router].
  unfold random_mod, random. destruct (Z.eqb_spec (vsize (m_routers g)) 0); [lia|]. cbn [mbind result_bind].
  pose proof (Z.mod_pos_bound (u64 (rand (m_rand g))) (vsize (m_routers g)) ltac:(lia)).
  destruct (existsb _ _) eqn:E; [|done]. destruct j as [|j].
  - exfalso. apply Hno. rewrite Nat.add_0_r in Hx. rewrite u32_small, Hx in E by lia. by apply occupied_existsb in E.
  - apply (IH (with_m_rand (S (m_rand g)) g) j); [exact Hn | exact Hno | lia|].
    change (m_routers (with_m_rand (S (m_rand g)) g)) with (m_routers g). cbn [m_rand with_m_rand].
    by rewrite Nat.add_succ_comm.
Qed.
End Draw.

(** Fewer bubbles than routers leave a router free; as many leave none. *)
Lemma free_router k g : 0 <= k -> k < vsize (m_routers g) -> exists x, 0 <= x < vsize (m_routers g) /\ x ∉ occupied k g.
Proof.
  intros H0 Hk. destruct (decide (Forall (fun x => x ∈ occupied k g) (seqZ 0 (vsize (m_routers g))))) as [Hall|Hno].
  - exfalso. rewrite Forall_forall in Hall.
    assert (Hsub : seqZ 0 (vsize (m_routers g)) ⊆+ occupied k g) by (apply NoDup_submseteq; [apply NoDup_seqZ | done]).
    apply submseteq_length in Hsub. rewrite length_seqZ in Hsub. unfold occupied in Hsub. rewrite length_map, length_take in Hsub. lia.
  - apply not_Forall_Exists in Hno; [|apply _]. apply Exists_exists in Hno as (x & Hx & Hnot).
    apply elem_of_seqZ in Hx. exists x. split; [lia | done].
Qed.

Lemma no_free_router cur g0 g : placed cur (vsize (m_routers g)) g0 g -> vsize (m_routers g) <= vsize (bubble g) ->
  forall x, 0 <= x < vsize (m_routers g) -> x ∈ occupied (vsize (m_routers g)) g.
Proof.
  intros Hp Hlen x Hx. set (n := vsize (m_routers g)) in *.
  assert (Hnd : NoDup (occupied n g)).
  { unfold occupied. apply NoDup_alt. intros i j y Hi Hj. change (map router_id ?l) with (router_id <$> l) in *.
    rewrite list_lookup_fmap in Hi, Hj.
    destruct (take (Z.to_nat n) (bubble g) !! i) as [b|] eqn:Eb; [|done].
    destruct (take (Z.to_nat n) (bubble g) !! j) as [b'|] eqn:Eb'; [|done]. cbn in *.
    apply lookup_take_Some in Eb as [Eb Li]. apply lookup_take_Some in Eb' as [Eb' Lj].
    assert (Z.of_nat i = Z.of_nat j); [|lia].
    apply (pl_distinct _ _ _ _ Hp _ _ b b'); [lia | lia | | |congruence];
      (apply vec_get_Ok; split; [lia|]; by rewrite Nat2Z.id). }
  assert (Hsub : occupied n g ⊆+ seqZ 0 n).
  { apply NoDup_submseteq; [done|]. intros y Hy. apply occupied_spec in Hy as (j & b & Hj & Hb & <-).
    destruct (pl_bubble _ _ _ _ Hp j b Hj Hb) as [(_ & _ & _ & iu & Hi & _) _]. apply get_iu_range in Hi as [Hr _].
    apply elem_of_seqZ. lia. }
  assert (Hperm : occupied n g ≡ₚ seqZ 0 n).
  { apply submseteq_length_Permutation; [done|]. rewrite length_seqZ. unfold occupied. rewrite length_map, length_take.
    unfold vsize in *. lia. }
  rewrite Hperm. apply elem_of_seqZ. lia.
Qed.

(** ** One bubble, all bubbles *)

Section Init.
Context (rand : nat -> Z) (cur : Z) (fuel : nat) (g0 : GarnetNetwork) (Hidle : idle_net cur g0).

Lemma placed_rand k g n : placed cur k g0 g -> placed cur k g0 (with_m_rand n g).
Proof.
  intros [Hs Hc Hf Hz Hl Hch Hb Hd]. assert (Hsu : same_units g (with_m_rand n g)) by (by split).
  split; try done. intros rid i iu Hi Hdir.
  destruct (Hch rid i iu Hi Hdir) as (v & o & (x & y & z & H) & Hinv & He). exists v, o. split_and!; [|done..].
  exists x, y, z. by apply (chan_at_same g).
Qed.

(** Placing bubble [k] in a router that is not occupied. *)
Lemma place_step k g x n b : placed cur k g0 g -> vec_get (bubble g) k = Ok b -> bubble_id b = k ->
  0 <= x < vsize (m_routers g0) -> x ∉ occupied k g ->
  exists g', (g2 ← on_bubble k (fun b => with_sense_inc true (with_router_id x b)) (with_m_rand n g);
              place_in_router cur (fun d => negb (String.eqb d "Local")) k x g2) = Ok g' /\
    placed cur (k + 1) g0 g' /\ in_router k x g g'.
Proof.
  intros Hp Hb Hid Hx Hno. pose proof (vec_get_range _ _ _ Hb) as Hk.
  rewrite (on_bubble_Ok _ _ b) by exact Hb. cbn [mbind result_bind].
  set (b1 := with_sense_inc true (with_router_id x b)). set (g2 := with_bubble _ _).
  assert (Hp2 : placed cur k g0 g2) by (exact (placed_record cur k g0 g b1 n Hp ltac:(lia))).
  destruct (place_in_router_ok cur k x g0 g2 (in_wired _ _ Hidle) (in_place _ _ Hidle) Hp2) with (b0 := b1)
    as (g' & He & Hp' & b' & Hbb & Hr).
  - cbn. rewrite vsize_insert. lia.
  - rewrite (pl_size _ _ _ _ Hp2). lia.
  - intros j b' Hj Hb' Heq. apply Hno. apply occupied_spec. exists j, b'. split_and!; [done | | done].
    cbn in Hb'. rewrite vec_get_insert_ne in Hb' by lia. done.
  - apply (vec_get_insert _ _ _ b1 Hb).
  - done.
  - done.
  - done.
  - exists g'. split_and!; [done | done|]. exists b'. split; [|done]. rewrite Hbb. cbn. by rewrite list_insert_insert_eq.
Qed.

(** Without random placement bubble [j] goes to router [j]. *)
Definition in_order (k : Z) (g : GarnetNetwork) : Prop :=
  forall j b, j < k -> vec_get (bubble g) j = Ok b -> router_id b = j.

Abbreviation N := (vsize (m_routers g0)).
Abbreviation random_mode := (rand_bb (g_config g0) = 1).

(** What the loop keeps after [k] bubbles. *)
Definition loop_inv (k : Z) (g : GarnetNetwork) : Prop := placed cur k g0 g /\ (~ random_mode -> in_order k g).

Lemma init_bubble_step k g : loop_inv k g -> 0 <= k < m_num_bubble (g_config g0) -> (~ random_mode -> k < N) ->
  (exists g', init_bubble rand cur fuel k g = Ok g' /\ loop_inv (k + 1) g') \/
  (random_mode /\ init_bubble rand cur fuel k g = Err EFuel /\ (covers rand fuel N -> N <= k)).
Proof.
  intros [Hp Hord] Hk Hlt. pose proof (in_size _ _ Hidle) as HN.
  assert (Hlen : vsize (bubble g) = m_num_bubble (g_config g0))
    by (rewrite <- (in_len _ _ Hidle); unfold vsize; by rewrite (pl_len _ _ _ _ Hp)).
  destruct (vec_get_in_range (bubble g) k) as [b Hb]; [lia|].
  unfold init_bubble. rewrite (on_bubble_Ok _ _ _ _ Hb). cbn [mbind result_bind]. set (g1 := with_bubble _ g).
  assert (Hp1 : placed cur k g0 g1).
  { pose proof (placed_record cur k g0 g (with_bubble_id k b) (m_rand g) Hp ltac:(lia)) as H. by destruct g. }
  assert (Hb1 : vec_get (bubble g1) k = Ok (with_bubble_id k b)) by (apply (vec_get_insert _ _ _ _ Hb)).
  assert (Hsz : vsize (m_routers g1) = N) by apply Hp1.
  assert (Hsame : forall j b, j < k -> vec_get (bubble g1) j = Ok b -> vec_get (bubble g) j = Ok b).
  { intros j b' Hj. cbn. by rewrite vec_get_insert_ne by lia. }
  rewrite (pl_config _ _ _ _ Hp). destruct (Z.eqb_spec (rand_bb (g_config g0)) 1) as [Hr|Hr].
  - destruct (draw_router_cases rand fuel k g1 ltac:(rewrite Hsz; lia)) as [(x & n & -> & Hx & Hno) | Hfuel]; [left | right].
    2: { split; [done|]. rewrite Hfuel. split; [done|]. intros Hcov. destruct (Z.le_gt_cases N k) as [|Hlt']; [done|].
         destruct (free_router k g1 ltac:(lia) ltac:(rewrite Hsz; lia)) as (x & Hx & Hno). rewrite Hsz in Hx.
         destruct (Hcov (m_rand g1) x Hx) as (j & Hj & Hm). exfalso. rewrite <- Hsz in Hm.
         by apply (draw_router_free rand fuel k g1 x j ltac:(rewrite Hsz; lia) Hno Hj Hm). }
    cbn [mbind result_bind]. rewrite Hsz in Hx.
    destruct (place_step k g1 x n (with_bubble_id k b) Hp1 Hb1 eq_refl Hx Hno) as (g' & -> & Hp' & _).
    exists g'. split; [done|]. split; [done|]. intros Hn. by destruct Hn.
  - left. rewrite Hsz. destruct (Z.eqb_spec N 0); [lia|]. cbn [mbind result_bind]. specialize (Hlt Hr). specialize (Hord Hr).
    rewrite Z.mod_small by lia. rewrite u32_small by lia.
    assert (Hno : k ∉ occupied k g1).
    { intros (j & b' & Hj & Hbj & Hrj)%occupied_spec. rewrite (Hord j b' Hj (Hsame j b' Hj Hbj)) in Hrj. lia. }
    destruct (place_step k g1 k (m_rand g1) (with_bubble_id k b) Hp1 Hb1 eq_refl ltac:(lia) Hno) as (g' & He & Hp' & b' & Hbb & Hrb).
    assert (E : with_m_rand (m_rand g1) g1 = g1) by (by destruct g1). rewrite E in He. rewrite He.
    exists g'. split; [done|]. split; [done|]. intros _ j bj Hj Hbj. rewrite Hbb in Hbj.
    destruct (decide (j = k)) as [->|].
    + rewrite (vec_get_insert _ _ _ _ Hb1) in Hbj. apply Ok_inj in Hbj as <-. done.
    + rewrite vec_get_insert_ne in Hbj by lia. apply (Hord j bj); [lia|]. apply Hsame; [lia | done].
Qed.

Lemma init_loop n : Z.of_nat n <= m_num_bubble (g_config g0) -> (~ random_mode -> Z.of_nat n <= N) ->
  (exists g, for_range n 0 (init_bubble rand cur fuel) g0 = Ok g /\ loop_inv (Z.of_nat n) g) \/
  (random_mode /\ for_range n 0 (init_bubble rand cur fuel) g0 = Err EFuel /\ (covers rand fuel N -> N < Z.of_nat n)).
Proof.
  induction n as [|n IH]; intros Hn Hlt.
  - left. exists g0. split; [done|]. split; [by apply placed_start|]. intros _ j b Hj Hb. apply vec_get_range in Hb. lia.
  - replace (S n) with (n + 1)%nat by lia. rewrite for_range_app.
    destruct IH as [(g & -> & Hg) | (Hr & -> & Hc)]; [lia | intros Hr; specialize (Hlt Hr); lia | |
      right; split_and!; [done | done | intros H; specialize (Hc H); lia]].
    cbn [mbind result_bind for_range].
    destruct (init_bubble_step (0 + Z.of_nat n) g) as [(g' & -> & Hg') | (Hr & -> & Hc)];
      [done | lia | intros Hr; specialize (Hlt Hr); lia | | right; split_and!; [done | done | intros H; specialize (Hc H); lia]].
    left. exists g'. split; [done|]. by replace (Z.of_nat (n + 1)) with (0 + Z.of_nat n + 1) by lia.
Qed.

Lemma init_flag b g : placed cur (m_num_bubble (g_config g0)) g0 g -> net_inv cur (fun _ _ => 0) (with_m_bubble_init b g).
Proof.
  intros Hp. assert (Hi : net_inv cur (fun _ _ => 0) g).
  { apply (placed_done cur g0 g (m_num_bubble (g_config g0)) (in_wired _ _ Hidle)); [|done].
    rewrite <- (in_len _ _ Hidle). unfold vsize. by rewrite (pl_len _ _ _ _ Hp). }
  destruct Hi as [Hw Hc Hb]. split; [done | | done].
  intros rid i iu H1 H2. destruct (Hc rid i iu H1 H2) as (v & o & (x & y & z & []) & Hinv). exists v, o. split; [|done].
  by exists x, y, z.
Qed.
End Init.
