(* ===== verification/RouterWakeup.v ===== *)
(** * Wakeups (Router.cc, and the dispatch of every consumer)

    [Router_wakeup] is [Router::wakeup]: the first router to wake up places the bubbles, one
    router per period moves them, then the router's input units, output units, switch
    allocator and crossbar run.  [consumer_wakeup] calls the wakeup of any consumer and hands
    back the wakeups it requested. *)

From S2P Require Import Prelude Flit FlitBuffer NetDest Consumer Config RoutingUnit MeshRouting NetworkLink.
From S2P Require Import VirtualChannel OutVcState OutputUnit InputUnit RouterState SwitchAllocator.
From S2P Require Import CrossbarSwitch BubblePath MessageBuffer NetStats NetworkInterface GarnetNetwork.
From S2P Require Import Bubble.
Local Open Scope Z_scope.

Section Wakeup.
Context (rand : nat -> Z) (fuel : nat) (cur : Z).

(** ** Bubbles *)

Definition init_bubbles (g : GarnetNetwork) : result GarnetNetwork :=
  if (m_enable_bn (g_config g) =? 1) && negb (m_bubble_init g) then
    if String.eqb (m_scheme (g_config g)) "bn" then init_brownian_bubbles rand cur fuel g
    else if String.eqb (m_scheme (g_config g)) "cbs" then init_brownian_bubbles_cbs cur g
    else Err EAssert
  else Ok g.

(** [assert(bubble[id].inport_dirn != "Local")] after a move. *)
Definition check_dirn (id : Z) (g : GarnetNetwork) : result GarnetNetwork :=
  b ← vec_get (bubble g) id; assert_ (negb (String.eqb (inport_dirn b) "Local")) ;; Ok g.

Definition move_all_intra (g : GarnetNetwork) : result GarnetNetwork :=
  if (m_enable_bn (g_config g) =? 1) && (last_intra_bubble_movement g <? cur) then
    g1 ← for_range (length (bubble g)) 0
           (fun id g => if String.eqb (m_scheme (g_config g)) "bn" then
                          '(_, g') ← move_intra_bubble rand cur id g; check_dirn id g'
                        else Ok g) g;
    Ok (with_last_intra_bubble_movement (cyc_add cur (m_intra_bubble_period (g_config g1))) g1)
  else Ok g.

Definition move_all_inter (g : GarnetNetwork) : result GarnetNetwork :=
  if (m_enable_bn (g_config g) =? 1) && (last_inter_bubble_movement g <? cur) then
    g1 ← for_range (length (bubble g)) 0
           (fun id g => if String.eqb (m_scheme (g_config g)) "bn" then
                          '(_, g') ← move_inter_bubble rand cur id g; check_dirn id g'
                        else if String.eqb (m_scheme (g_config g)) "cbs" then
                          '(_, g') ← move_inter_bubble_cbs rand cur id g; check_dirn id g'
                        else Ok g) g;
    Ok (with_last_inter_bubble_movement (cyc_add cur (m_inter_bubble_period (g_config g1))) g1)
  else Ok g.

(** ** The units of a router *)

(** [m_input_unit[inport]->wakeup()] *)
Definition input_wakeup (rid inport : Z) (g : GarnetNetwork) : result GarnetNetwork :=
  r ← vec_get (m_routers g) rid;
  iu ← vec_get (m_input_unit r) inport;
  in_link ← vec_get (m_networklinks g) (m_in_link iu);
  '(g1, link', iu', evs) ←
    InputUnit.wakeup (route_compute rand cur rid)
      (fun outport g => r ← vec_get (m_routers g) rid; getOutportDirection outport r)
      (fun g => match vec_get (m_routers g) rid with Ok r => vsize (m_output_unit r) | Err _ => 0 end)
      (RouterState.m_id r) cur (RouterState.m_latency r) g in_link iu;
  links ← vec_set (m_networklinks g1) (m_in_link iu) link';
  on_router rid (fun r => r' ← on_iu inport (fun _ => Ok iu') r; Ok (schedule evs r'))
    (with_m_networklinks links g1).

(** [m_output_unit[outport]->wakeup()] *)
Definition output_wakeup (rid outport : Z) (g : GarnetNetwork) : result GarnetNetwork :=
  r ← vec_get (m_routers g) rid;
  ou ← vec_get (m_output_unit r) outport;
  credit_link ← vec_get (m_creditlinks g) (OutputUnit.m_credit_link ou);
  '(link', ou') ← OutputUnit.wakeup cur credit_link ou;
  links ← vec_set (m_creditlinks g) (OutputUnit.m_credit_link ou) link';
  on_router rid (on_ou outport (fun _ => Ok ou')) (with_m_creditlinks links g).

Definition Router_wakeup (rid : Z) (g : GarnetNetwork) : result GarnetNetwork :=
  g0 ← init_bubbles g;
  g1 ← move_all_intra g0;
  g2 ← move_all_inter g1;
  r ← vec_get (m_routers g2) rid;
  g3 ← for_range (length (m_input_unit r)) 0 (input_wakeup rid) g2;
  g4 ← for_range (length (m_output_unit r)) 0 (output_wakeup rid) g3;
  on_router rid (fun r => r1 ← SwitchAllocator.wakeup (g_config g4) cur r; CrossbarSwitch.wakeup cur r1) g4.

(** ** Links *)

(** The flit queue a network link drains, and the credit queue a credit link drains. *)
Definition flit_queue (q : QueueRef) (g : GarnetNetwork) : result (flitBuffer flit) :=
  match q with
  | QOut rid outport => ou ← get_ou rid outport g; Ok (m_out_buffer ou)
  | QNIOut n => ni ← vec_get (m_nis g) n; Ok (outFlitQueue ni)
  | _ => Err EIndex
  end.
Definition set_flit_queue (q : QueueRef) (b : flitBuffer flit) (g : GarnetNetwork) : result GarnetNetwork :=
  match q with
  | QOut rid outport => on_net_ou rid outport (fun ou => Ok (with_m_out_buffer b ou)) g
  | QNIOut n => l ← vec_modify (m_nis g) n (with_outFlitQueue b); Ok (with_m_nis l g)
  | _ => Err EIndex
  end.
Definition credit_queue (q : QueueRef) (g : GarnetNetwork) : result (flitBuffer Credit) :=
  match q with
  | QCredit rid inport => iu ← get_iu rid inport g; Ok (creditQueue iu)
  | QNICredit n => ni ← vec_get (m_nis g) n; Ok (outCreditQueue ni)
  | _ => Err EIndex
  end.
Definition set_credit_queue (q : QueueRef) (b : flitBuffer Credit) (g : GarnetNetwork) : result GarnetNetwork :=
  match q with
  | QCredit rid inport => on_net_iu rid inport (fun iu => Ok (with_creditQueue b iu)) g
  | QNICredit n => l ← vec_modify (m_nis g) n (with_outCreditQueue b); Ok (with_m_nis l g)
  | _ => Err EIndex
  end.

Definition null_queue (q : option QueueRef) : result QueueRef :=
  match q with Some q => Ok q | None => Err EIndex end.

Definition net_link_wakeup (k : Z) (g : GarnetNetwork) : result (GarnetNetwork * list Event) :=
  l ← vec_get (m_networklinks g) k;
  q ← null_queue (link_srcQueue l);
  src ← flit_queue q g;
  '(src', l', evs) ← NetworkLink.wakeup cur src l;
  g1 ← set_flit_queue q src' g;
  ls ← vec_set (m_networklinks g1) k l';
  Ok (with_m_networklinks ls g1, evs).

Definition credit_link_wakeup (k : Z) (g : GarnetNetwork) : result (GarnetNetwork * list Event) :=
  l ← vec_get (m_creditlinks g) k;
  q ← null_queue (link_srcQueue l);
  src ← credit_queue q g;
  '(src', l', evs) ← NetworkLink.wakeup cur src l;
  g1 ← set_credit_queue q src' g;
  ls ← vec_set (m_creditlinks g1) k l';
  Ok (with_m_creditlinks ls g1, evs).

(** ** Network interfaces *)

Context {MT : MachineTypes} (ruby_randomization warmup_enabled : bool) (rnd : Z).

(** The marked-flit budgets the interface decremented go back to the routers. *)
Definition put_marks (marks : list Z) (rs : list Router) : list Router :=
  zip_with (fun m r => with_mrkd_flt_ m r) marks rs.

Definition ni_wakeup (n : Z) (g : GarnetNetwork) : result GarnetNetwork :=
  ni ← vec_get (m_nis g) n;
  in_link ← vec_get (m_networklinks g) (inNetLink ni);
  credit_link ← vec_get (m_creditlinks g) (inCreditLink ni);
  '(in_link', credit_link', ni', w) ←
    NetworkInterface.wakeup (g_config g) cur (fun d => get_router_id d g) ruby_randomization warmup_enabled rnd
      in_link credit_link ni (mkNIWorld (g_stats g) (map mrkd_flt_ (m_routers g)));
  ls ← vec_set (m_networklinks g) (inNetLink ni) in_link';
  cs ← vec_set (m_creditlinks g) (inCreditLink ni) credit_link';
  nis ← vec_set (m_nis g) n ni';
  Ok (with_g_stats (w_stats w) (with_m_routers (put_marks (w_mrkd w) (m_routers g))
        (with_m_nis nis (with_m_creditlinks cs (with_m_networklinks ls g))))).

(** ** Dispatch *)

(** Wakeups requested through routers are collected from their outboxes. *)
Definition collect (g : GarnetNetwork) : GarnetNetwork * list Event :=
  (with_m_nis (map (NetworkInterface.with_m_events []) (m_nis g))
     (with_m_routers (map (RouterState.with_m_events []) (m_routers g)) g),
   concat (map RouterState.m_events (m_routers g)) ++ concat (map NetworkInterface.m_events (m_nis g))).

Definition consumer_wakeup (c : ConsumerRef) (g : GarnetNetwork) : result (GarnetNetwork * list Event) :=
  match c with
  | CRouter rid => g' ← Router_wakeup rid g; Ok (collect g')
  | CNetLink k => net_link_wakeup k g
  | CCreditLink k => credit_link_wakeup k g
  | CNI n => g' ← ni_wakeup n g; Ok (collect g')
  | CPerfectSwitch _ | CThrottle _ _ => Err EIndex (* consumers of the other network *)
  end.
End Wakeup.
