(* ===== verification/BubbleInter.v ===== *)
(** * Bubbles that move to the next router, and the whole movement phase *)

From S2P Require Import Prelude NetDest Flit FlitBuffer Consumer Config VirtualChannel OutVcState NetworkLink.
From S2P Require Import OutputUnit InputUnit RoutingUnit RoutingTable MeshRouting RouterState SwitchTheory.
From S2P Require Import BubblePath MessageBuffer NetStats NetworkInterface GarnetNetwork Bubble NetLens NetRouting.
From S2P Require Import BubbleInv BubbleMoves BubbleIntra BubbleInit RouterWakeup.
Local Open Scope Z_scope.

(** ** Square meshes

    Bubbles walk over square meshes; route computation on them is that of NetRouting.v, with any algorithm but
    the custom one. *)

Record mesh_sk (m : Z) (c : Config) (sk : list RouterSk) : Prop := {
  ms_m : 2 <= m;
  ms_grid : grid m m c sk
}.

Lemma ms_rows m c sk : mesh_sk m c sk -> m_num_rows c = m.
Proof. intros []. by eapply gd_rows. Qed.
Lemma ms_size m c sk : mesh_sk m c sk -> vsize sk = m * m.
Proof. intros []. by eapply gd_size. Qed.

(** [Router::route_compute] returns an existing output port and changes nothing but the state of the random generator. *)
Lemma route_compute_total rand cur m g route rid inport d r :
  mesh_sk m (g_config g) (skel g) -> vcs_ok g -> route_ok m (skel g) route -> vec_get (m_routers g) rid = Ok r ->
  exists o n, route_compute rand cur rid route inport d g = Ok (o, with_m_rand n g) /\ leads (r_sk r) route o.
Proof. intros [_ Hg] Hv Hro Hr. by apply (route_compute_grid rand cur m m g Hg Hv m). Qed.

(** The VCs of an input unit are counted in what a move leaves alone. *)
Lemma vcs_ok_routers g g' : map r_rest (m_routers g') = map r_rest (m_routers g) -> vcs_ok g -> vcs_ok g'.
Proof.
  intros E Hv rid i iu' (r' & Hr' & Hi')%get_iu_Ok. destruct (map_eq_get r_rest _ _ _ _ E Hr') as (r & Hr & Er).
  apply (f_equal (fun x => x.1.2)) in Er as Ei. cbn in Ei. destruct (map_eq_get iu_rest _ _ _ _ Ei Hi') as (iu & Hi & Eu).
  assert (Hle : InputUnit.m_vc_per_vnet iu <= vsize (m_vcs iu)) by (apply (Hv rid i), get_iu_Ok; eauto).
  pose proof (f_equal (fun x => InputUnit.m_vc_per_vnet x.1.1) Eu) as Ev. pose proof (f_equal (fun x => x.1.2) Eu) as Es.
  cbn in Ev, Es. congruence.
Qed.

Lemma vcs_ok_rest g g' : rest g' = rest g -> vcs_ok g -> vcs_ok g'.
Proof. intros E. apply vcs_ok_routers. exact (f_equal (fun '(_, _, _, _, _, _, e, _) => e) E). Qed.

(** ** Moves to the next router *)

(** Every buffered flit has a route the mesh can serve. *)
Definition routes_ok (m : Z) (g : GarnetNetwork) : Prop :=
  Forall (fun f => route_ok m (skel g) (m_route f)) (all_flits g).

Section Inter.
Context (rand : nat -> Z) (cur m : Z) (t : Z -> Z -> Z) (id : Z).

(** A network in which bubbles can be moved. *)
Record movable (g : GarnetNetwork) : Prop := {
  mv_inv : net_inv cur t g;
  mv_mesh : mesh_sk m (g_config g) (skel g);
  mv_vcs : vcs_ok g;
  mv_routes : routes_ok m g
}.

(** What an attempt leaves behind: the invariant and the flits, up to the fields a new route
    computation sets; when it succeeded, the bubble sits in router [nxt]. *)
Record inter_post (nxt : Z) (b : brownian_bubble) (g : GarnetNetwork) (moved : bool) (g' : GarnetNetwork) : Prop := {
  xp_mv : movable g';
  xp_flits : map ident (all_flits g') ≡ₚ map ident (all_flits g);
  xp_skel : skel g' = skel g;
  xp_config : g_config g' = g_config g;
  xp_size : vsize (m_routers g') = vsize (m_routers g);
  xp_rest : rest g' = rest g;
  xp_held : held g -> held g';
  xp_bubble : if moved then exists b', bubble g' = <[Z.to_nat id := b']> (bubble g) /\ router_id b' = nxt /\
      last_inter_movement_cycle b' = cur /\ last_intra_movement_cycle b' = last_intra_movement_cycle b /\
      sense_inc b' = sense_inc b
    else bubble g' = bubble g
}.

Lemma movable_same g g' : same_units g g' -> bubble g' = bubble g -> movable g -> movable g'.
Proof.
  intros Hs Hb [H1 H2 H3 H4]. split.
  - by apply (net_inv_same g).
  - by rewrite (su_config _ _ Hs), (su_sk _ _ Hs).
  - by apply (vcs_ok_rest g); [apply Hs|].
  - unfold routes_ok. by rewrite (su_sk _ _ Hs), (su_flits _ _ Hs).
Qed.

Lemma inter_post_same nxt b g mv g' g'' : inter_post nxt b g mv g' -> same_units g' g'' -> bubble g'' = bubble g' ->
  inter_post nxt b g mv g''.
Proof.
  intros [] Hs Hb. split.
  - by apply (movable_same g').
  - by rewrite (su_flits _ _ Hs).
  - by rewrite (su_sk _ _ Hs).
  - by rewrite (su_config _ _ Hs).
  - by rewrite (su_size _ _ Hs).
  - by rewrite (su_rest _ _ Hs).
  - intros Hh. by apply (held_same g'), xp_held0.
  - by rewrite Hb.
Qed.

Lemma inter_post_refl nxt b g : movable g -> inter_post nxt b g false g.
Proof. intros Hg. by split. Qed.

Lemma inter_post_trans nxt b g g1 mv g' : inter_post nxt b g false g1 -> inter_post nxt b g1 mv g' -> inter_post nxt b g mv g'.
Proof.
  intros [_ Hf1 Hs1 Hc1 Hz1 Hr1 Hh1 Hb1] [Hi Hf Hs Hc Hz Hr Hh Hb]. split; [done | by rewrite Hf | congruence.. | auto |].
  by rewrite <- Hb1.
Qed.

Section Attempt.
Context (g : GarnetNetwork) (b : brownian_bubble) (nxt i1 : Z) (iu1 : InputUnit).
Context (Hg : movable g) (Hb : vec_get (bubble g) id = Ok b).
Context (Hi1 : get_iu nxt i1 g = Ok iu1) (Hd1 : InputUnit.m_direction iu1 <> "Local"%string).

Lemma inter_iu_id : InputUnit.m_id iu1 = i1.
Proof.
  destruct (get_iu_sk _ _ _ _ Hi1) as (row & Hrow & He).
  exact (w_in _ (ni_wired _ _ _ (mv_inv _ Hg)) _ _ _ _ Hrow He).
Qed.

Lemma inter_moved_to : moved_to cur b (inter_entry cur nxt iu1 b) nxt i1 iu1.
Proof.
  destruct (ni_bubble _ _ _ (mv_inv _ Hg) _ _ Hb) as (_ & Ht & _ & _).
  unfold moved_to, inter_entry, move_entry. cbn. rewrite <- inter_iu_id. split_and!; (done || lia).
Qed.

(** The exchange of channels gave [g2]; the flits of [g2] are those of [g] with new routing fields. *)
Lemma inter_post_intro g2 v1 o1 v2 o2 :
  swapped g g2 nxt i1 (router_id b) (inport_id b) v1 o1 v2 o2 ->
  ~ at_port nxt i1 b ->
  nbub (bubble g) nxt i1 = 0 -> nbub (bubble g) (router_id b) (inport_id b) = 1 ->
  chan_inv cur (t nxt i1) 1 v1 o1 -> chan_inv cur (t (router_id b) (inport_id b)) 0 v2 o2 ->
  map ident (all_flits g2) ≡ₚ map ident (all_flits g) ->
  Forall (fun f => route_ok m (skel g) (m_route f)) (all_flits g2) ->
  vsize (m_routers g2) = vsize (m_routers g) ->
  (held g -> forall row, vec_get (skel g) nxt = Ok row -> vc_held row v1) ->
  (held g -> forall row, vec_get (skel g) (router_id b) = Ok row -> vc_held row v2) ->
  inter_post nxt b g true (with_bubble (<[Z.to_nat id := inter_entry cur nxt iu1 b]> (bubble g2)) g2).
Proof.
  intros Hsw Hne Hn1 Hn2 Hc1 Hc2 Hfl Hro Hsz Hh1 Hh2. set (gb := with_bubble _ g2).
  assert (Hsk : skel gb = skel g) by apply Hsw.
  assert (Hcfg : g_config gb = g_config g) by apply Hsw. split.
  - split.
    + by eapply move_inv; [apply Hg | exact Hb | exact Hsw | apply inter_moved_to | ..].
    + rewrite Hsk, Hcfg. apply Hg.
    + apply (vcs_ok_rest g); [apply Hsw | apply Hg].
    + unfold routes_ok. by rewrite Hsk.
  - done.
  - apply Hsw.
  - apply Hsw.
  - done.
  - apply Hsw.
  - intros Hh. apply (held_same g2); [apply same_units_bubble|].
    by apply (swapped_held cur t g _ _ _ _ _ _ _ _ _ (mv_inv _ Hg) Hsw Hh); [apply Hh1 | apply Hh2].
  - exists (inter_entry cur nxt iu1 b). cbn. by rewrite (sw_bubble _ _ _ _ _ _ _ _ _ _ Hsw).
Qed.

Lemma inter_not_local : negb (String.eqb (InputUnit.get_direction iu1) "Local") = true.
Proof. apply negb_true_iff, String.eqb_neq. exact Hd1. Qed.

Lemma wake_both_spec g2 : vsize (m_routers g2) = vsize (m_routers g) ->
  exists g3, wake_both cur (router_id b) nxt g2 = Ok g3 /\ same_units g2 g3 /\ bubble g3 = bubble g2.
Proof.
  intros Hsz. destruct (ni_bubble _ _ _ (mv_inv _ Hg) _ _ Hb) as (_ & _ & _ & iub & Hib & _).
  apply get_iu_range in Hib as [Hr _]. pose proof (get_iu_range _ _ _ _ Hi1) as [Hn _]. unfold wake_both.
  destruct (schedule_total (router_id b) cur 2 g2) as [ga Ha]; [lia|]. rewrite Ha. cbn [mbind result_bind].
  apply schedule_same in Ha as (Hsa & Hba & _).
  destruct (schedule_total nxt cur 2 ga) as [gb Hgb]; [rewrite (su_size _ _ Hsa); lia|]. exists gb.
  split; [done|]. apply schedule_same in Hgb as (Hsb & Hbb & _). split; [by transitivity ga | congruence].
Qed.

Section Cases.
Context (p1 : Z * Z) (v1 : VirtualChannel) (ou1 : OutputUnit) (o1 : OutVcState) (iu2 : InputUnit)
  (p2 : Z * Z) (v2 : VirtualChannel) (ou2 : OutputUnit) (o2 : OutVcState).
Context (Hpa : pair_at cur t g b nxt i1 iu1 p1 v1 ou1 o1 iu2 p2 v2 ou2 o2).

Lemma inter_with_free_spec e i : VirtualChannel.isEmpty v1 = true -> isInState IDLE_ cur o1 = true ->
  exists g', inter_with_free cur id (router_id b) nxt i1 (mkCandidate iu1 p1 (inport_id b) p2 e i) g = Ok g' /\
    inter_post nxt b g true g'.
Proof.
  intros He Hi. destruct (free_swap _ _ _ _ _ _ _ _ _ _ _ _ _ _ _ _ (ni_wired _ _ _ (mv_inv _ Hg)) Hpa He Hi)
    as (g1 & g2 & Ho & Hv & Hsw & Hfl & Hsz & Hne & Hn1 & Hc1 & Hc2).
  unfold inter_with_free. cbn [cand_up orig_up orig_inport inpUnit]. rewrite Ho. cbn [mbind result_bind].
  rewrite Hv. cbn [mbind result_bind]. destruct (wake_both_spec g2 Hsz) as (g3 & -> & Hsu & Hbb).
  cbn [mbind result_bind]. pose proof (swapped_same _ _ _ _ _ _ _ _ _ _ _ Hsw Hsu Hbb) as Hsw3.
  rewrite (on_bubble_Ok _ _ b) by (by rewrite (sw_bubble _ _ _ _ _ _ _ _ _ _ Hsw3)). cbn [mbind result_bind].
  rewrite inter_not_local. cbn [assert_ mbind result_bind]. eexists. split; [done|].
  eapply inter_post_same; [|by apply same_units_stats | done].
  apply (inter_post_intro g3 _ _ _ _ Hsw3 Hne Hn1 (pa_nb2 _ _ _ _ _ _ _ _ _ _ _ _ _ _ _ _ Hpa) Hc1 Hc2).
  - by rewrite (su_flits _ _ Hsu), Hfl.
  - rewrite (su_flits _ _ Hsu), Hfl. apply Hg.
  - by rewrite (su_size _ _ Hsu).
  - by apply (held_candidate _ _ _ _ _ _ _ _ _ _ _ _ _ _ _ _ Hpa).
  - intros _ row _. by apply (held_freed _ _ _ _ _ _ _ _ _ _ _ _ _ _ _ _ Hpa).
Qed.

Lemma inter_with_packet_spec e i : VirtualChannel.isEmpty v1 = false ->
  exists g', inter_with_packet rand cur id (router_id b) nxt i1 (mkCandidate iu1 p1 (inport_id b) p2 e i) g = Ok g' /\
    inter_post nxt b g true g'.
Proof.
  intros He. destruct (packet_out _ _ _ _ _ _ _ _ _ _ _ _ _ _ _ _ Hpa He)
    as (f & v1' & Htop & Hf1 & Hf1' & Hne & Hn1 & Hc1 & Hfl1).
  set (g1 := upd_in g nxt i1 iu1 v1') in *.
  assert (Hsk1 : skel g1 = skel g) by (eapply upd_in_skel, Hpa).
  assert (H2' : chan_at g1 (router_id b) (inport_id b) iu2 p2 v2 ou2 o2)
    by (apply (upd_in_other g _ _ _ _ _ _ _ (pa_one _ _ _ _ _ _ _ _ _ _ _ _ _ _ _ _ Hpa)); [done | apply Hpa]).
  pose proof (mv_routes _ Hg) as Hro. unfold routes_ok in Hro. rewrite Hfl1 in Hro.
  apply Forall_cons in Hro as [Hrf Hrest].
  destruct (proj1 (get_iu_Ok _ _ _ _) (ca_iu _ _ _ _ _ _ _ _ H2')) as (r2 & Hr2 & _).
  assert (Hv1 : vcs_ok g1) by (apply (vcs_ok_rest g); [eapply rest_upd_in, Hpa | apply Hg]).
  destruct (route_compute_total rand cur m g1 (m_route f) (router_id b) (InputUnit.get_id iu2) (InputUnit.get_direction iu2) r2
    ltac:(rewrite Hsk1; apply Hg) Hv1 ltac:(by rewrite Hsk1) Hr2) as (o & n & Hrc & Hor).
  unfold inter_with_packet. cbn [cand_up orig_up orig_inport inpUnit]. rewrite Htop. cbn [mbind result_bind].
  rewrite (on_net_iu_Ok _ _ _ _ _ (set_vc0 v1' iu1) Hi1 eq_refl). cbn [mbind result_bind].
  change (put_iu nxt i1 (set_vc0 v1' iu1) g) with g1. rewrite (ca_iu _ _ _ _ _ _ _ _ H2'). cbn [mbind result_bind].
  rewrite Hrc. cbn [mbind result_bind]. change (m_routers (with_m_rand n g1)) with (m_routers g1). rewrite Hr2.
  cbn [mbind result_bind]. unfold getOutportDirection.
  destruct (vec_get_in_range (m_output_unit r2) o) as [ou Hou]; [rewrite <- (vsize_map ou_sk); apply Hor|]. rewrite Hou. cbn [mbind result_bind].
  set (f' := Flit.set_time _ _).
  destruct (packet_in _ _ _ _ _ _ _ _ _ _ _ _ _ _ _ _ Hpa v1' f' (with_m_rand n g1) Hne (same_units_rand _ _) eq_refl)
    as (g3 & -> & Hsw & Hfl & Hsz & _ & Hc2). cbn [mbind result_bind].
  destruct (wake_both_spec g3 Hsz) as (g4 & -> & Hsu & Hbb).
  cbn [mbind result_bind]. pose proof (swapped_same _ _ _ _ _ _ _ _ _ _ _ Hsw Hsu Hbb) as Hsw4.
  rewrite (on_bubble_Ok _ _ b) by (by rewrite (sw_bubble _ _ _ _ _ _ _ _ _ _ Hsw4)). cbn [mbind result_bind].
  rewrite inter_not_local. cbn [assert_ mbind result_bind]. eexists. split; [done|].
  eapply inter_post_same; [|by apply same_units_stats | done].
  apply (inter_post_intro g4 _ _ _ _ Hsw4 Hne Hn1 (pa_nb2 _ _ _ _ _ _ _ _ _ _ _ _ _ _ _ _ Hpa) Hc1 Hc2).
  - by rewrite (su_flits _ _ Hsu), Hfl, Hfl1.
  - rewrite (su_flits _ _ Hsu), Hfl. by constructor.
  - by rewrite (su_size _ _ Hsu).
  - intros Hh row Hrow. by apply (held_packet _ _ _ _ _ _ _ _ _ _ _ _ _ _ _ _ Hpa Hh row Hrow f).
  - intros Hh row Hrow. apply (held_entered _ _ _ _ _ _ _ _ _ _ _ _ _ _ _ _ Hpa _ Hh row Hrow).
    rewrite <- Hsk1 in Hrow. unfold skel in Hrow. rewrite vec_get_map, Hr2 in Hrow. apply Ok_inj in Hrow as <-. exact Hor.
Qed.
End Cases.

Lemma exchange_inter_spec :
  exists mv g', exchange_inter rand cur id nxt i1 b g = Ok (mv, g') /\ inter_post nxt b g mv g'.
Proof.
  destruct (look_at_spec cur t g id b nxt i1 iu1 (mv_inv _ Hg) Hb Hi1 Hd1)
    as (p1 & v1 & ou1 & o1 & iu2 & p2 & v2 & ou2 & o2 & Hpa & Hl).
  unfold exchange_inter. rewrite Hl. cbn [mbind result_bind cand_empty cand_idle inpUnit].
  destruct (VirtualChannel.isEmpty v1) eqn:He, (isInState IDLE_ cur o1) eqn:Ei.
  - destruct (inter_with_free_spec _ _ _ _ _ _ _ _ _ Hpa true true He Ei) as (g' & -> & Hp).
    eexists _, _. by split.
  - eexists _, _. split; [done|]. by apply inter_post_refl.
  - eexists _, _. split; [done|]. by apply inter_post_refl.
  - assert (Hpk : exists f, InputUnit.peekTopFlit 0 iu1 = Ok f).
    { destruct (packet_out _ _ _ _ _ _ _ _ _ _ _ _ _ _ _ _ Hpa He) as (f & v1' & Htop & _).
      apply getTopFlit_spec in Htop as (v & v' & Hv & Ht & _). exists f. unfold InputUnit.peekTopFlit. rewrite Hv.
      by apply getTopFlit_flits in Ht as (_ & Ht & _). }
    destruct Hpk as [f Hpk]. rewrite Hpk. cbn [mbind result_bind].
    destruct (String.eqb (m_outport_dirn f) "Local").
    { eexists _, _. split; [done|]. by apply inter_post_refl. }
    destruct (inter_with_packet_spec _ _ _ _ _ _ _ _ _ Hpa false false He) as (g' & -> & Hp).
    eexists _, _. by split.
Qed.
End Attempt.

Lemma inter_post_rand nxt b g mv n g' : inter_post nxt b (with_m_rand n g) mv g' -> inter_post nxt b g mv g'.
Proof. intros []. split; try done. intros Hh. by apply xp_held0, (held_same g); [apply same_units_rand|]. Qed.

(** *** The search in the next router *)

Lemma try_inter_spec nxt g b r : movable g -> vec_get (bubble g) id = Ok b ->
  vec_get (m_routers g) nxt = Ok r -> m_input_unit r <> [] ->
  exists mv g', try_inter rand cur id nxt g = Ok (mv, g') /\ inter_post nxt b g mv g'.
Proof.
  intros Hg Hb Hr Hne. unfold try_inter. rewrite Hr. cbn [mbind result_bind].
  destruct (random_mod_spec rand (vsize (m_input_unit r)) g) as (x & Hx & ->);
    [unfold vsize; destruct (m_input_unit r); [done | cbn; lia]|].
  cbn [mbind result_bind]. set (g0 := with_m_rand _ g).
  assert (Hg0 : movable g0) by (apply (movable_same g); [apply same_units_rand | done | done]).
  destruct (vec_get_in_range (m_input_unit r) x Hx) as [iu Hiu].
  assert (Hi : get_iu nxt x g0 = Ok iu) by (apply get_iu_Ok; by exists r).
  rewrite Hi. cbn [mbind result_bind].
  destruct (String.eqb_spec (InputUnit.get_direction iu) "Local") as [|Hd].
  { eexists _, _. split; [done|]. apply (inter_post_rand nxt b g _ (S (m_rand g))). by apply inter_post_refl. }
  change (bubble g0) with (bubble g). rewrite Hb. cbn [mbind result_bind].
  destruct (exchange_inter_spec g0 b nxt x iu Hg0 Hb Hi Hd) as (mv & g' & -> & Hp).
  eexists _, _. split; [done|]. by apply (inter_post_rand nxt b g _ (S (m_rand g))).
Qed.

Lemma router_of_sk g g' nxt r : skel g' = skel g -> vec_get (m_routers g) nxt = Ok r ->
  exists r', vec_get (m_routers g') nxt = Ok r' /\ r_sk r' = r_sk r.
Proof.
  intros Hs Hr. assert (Hk : vec_get (skel g') nxt = Ok (r_sk r)) by (rewrite Hs; unfold skel; by rewrite vec_get_map, Hr).
  unfold skel in Hk. rewrite vec_get_map in Hk.
  apply bind_Ok in Hk as (r' & Hr' & E). apply Ok_inj in E. eauto.
Qed.

Lemma search_inter_spec nxt n g b r : movable g -> vec_get (bubble g) id = Ok b ->
  vec_get (m_routers g) nxt = Ok r -> m_input_unit r <> [] ->
  exists mv g', search (try_inter rand cur id nxt) n g = Ok (mv, g') /\ inter_post nxt b g mv g'.
Proof.
  revert g r. induction n as [|n IH]; intros g r Hg Hb Hr Hne; cbn [search].
  - eexists _, _. split; [done|]. by apply inter_post_refl.
  - destruct (try_inter_spec nxt g b r Hg Hb Hr Hne) as (mv & g1 & -> & Hp). cbn [mbind result_bind].
    destruct mv; [eauto|].
    destruct (router_of_sk g g1 nxt r (xp_skel _ _ _ _ _ Hp) Hr) as (r1 & Hr1 & Hs1).
    destruct (IH g1 r1) as (mv & g' & -> & Hp').
    + apply Hp.
    + by rewrite (xp_bubble _ _ _ _ _ Hp).
    + done.
    + intros E. apply Hne. injection Hs1 as _ Hin _ _. rewrite E in Hin. by destruct (m_input_unit r).
    + eexists _, _. split; [done|]. by eapply inter_post_trans.
Qed.

Lemma net_inv_sense g s b : net_inv cur t g -> vec_get (bubble g) id = Ok b ->
  net_inv cur t (with_bubble (<[Z.to_nat id := with_sense_inc s b]> (bubble g)) g).
Proof.
  intros [Hw Hc Hbb] Hb. split; [done| |].
  - intros rid i iu Hi Hd. cbn. destruct (Hc rid i iu Hi Hd) as (v & o & (iu1 & p & ou & Hch) & Hinv).
    exists v, o. split; [exists iu1, p, ou; by apply (chan_at_same g); [apply same_units_bubble|]|].
    rewrite (nbub_insert _ _ _ _ _ _ Hb). change (at_port rid i (with_sense_inc s b)) with (at_port rid i b).
    by rewrite Z.sub_add.
  - intros k b1 Hb1. cbn in Hb1. destruct (decide (k = id)) as [->|].
    + rewrite (vec_get_insert _ _ _ _ Hb) in Hb1. apply Ok_inj in Hb1 as <-. exact (Hbb _ _ Hb).
    + rewrite vec_get_insert_ne in Hb1; [by apply Hbb | apply (vec_get_range _ _ _ Hb) | done].
Qed.

(** The new sense of movement and the move itself. *)
Lemma move_inter_spec g b : movable g -> vec_get (bubble g) id = Ok b -> m mod 2 = 0 ->
  (forall rid r, vec_get (m_routers g) rid = Ok r -> m_input_unit r <> []) ->
  exists mv g' nxt s, move_inter_bubble rand cur id g = Ok (mv, g') /\ movable g' /\
    map ident (all_flits g') ≡ₚ map ident (all_flits g) /\ g_config g' = g_config g /\ skel g' = skel g /\ rest g' = rest g /\ (held g -> held g') /\
    move_next_router m (m * m) (router_id b) (sense_inc b) = Ok (nxt, s) /\ dist m (router_id b) nxt = 1 /\
    exists b', bubble g' = <[Z.to_nat id := b']> (bubble g) /\
      router_id b' = (if mv then nxt else router_id b) /\
      (mv = true -> last_inter_movement_cycle b' = cur) /\
      (cur - last_inter_movement_cycle b < m_inter_bubble_period (g_config g) -> mv = false /\ g' = g).
Proof.
  intros Hg Hb Hev Hin. pose proof (mv_mesh _ Hg) as Hm. pose proof (ms_m _ _ _ Hm) as H2.
  destruct (ni_bubble _ _ _ (mv_inv _ Hg) _ _ Hb) as (_ & _ & Hle & iub & Hib & _).
  assert (Hsz : vsize (m_routers g) = m * m) by (rewrite <- (ms_size _ _ _ Hm); unfold skel; by rewrite vsize_map).
  assert (Hmesh : in_mesh m m (router_id b)) by (unfold in_mesh; apply get_iu_range in Hib; lia).
  destruct (move_next_even m H2 Hev (router_id b) (sense_inc b) Hmesh) as (nxt & Hn & Hnm & Hdist & _).
  unfold move_inter_bubble. rewrite Hb. cbn [mbind result_bind].
  unfold cyc_sub. rewrite (proj2 (Z.leb_le _ _)) by lia. cbn [assert_ mbind result_bind].
  destruct (Z.leb_spec (m_inter_bubble_period (g_config g)) (cur - last_inter_movement_cycle b)) as [Hle'|Hlt].
  - rewrite (ms_rows _ _ _ Hm), Hsz, Hn. cbn [mbind result_bind].
    rewrite (on_bubble_Ok _ _ _ _ Hb). cbn [mbind result_bind]. set (g1 := with_bubble _ g).
    assert (Hg1 : movable g1).
    { split; [by apply net_inv_sense, Hb; apply Hg | apply Hg | exact (mv_vcs _ Hg) | apply Hg]. }
    destruct (vec_get_in_range (m_routers g1) nxt) as [r Hr]; [change (m_routers g1) with (m_routers g); unfold in_mesh in Hnm; lia|].
    rewrite Hr. cbn [mbind result_bind].
    destruct (search_inter_spec nxt (length (m_input_unit r)) g1 (with_sense_inc (turn m (router_id b) (sense_inc b)) b) r Hg1)
      as (mv & g' & -> & Hp); [apply (vec_get_insert _ _ _ _ Hb) | done | by apply (Hin nxt)|].
    exists mv, g', nxt, (turn m (router_id b) (sense_inc b)). split_and!; [done | apply Hp | apply Hp | apply Hp | apply Hp | apply Hp | | done | done|].
    { intros Hh. apply (xp_held _ _ _ _ _ Hp). by apply (held_same g); [apply same_units_bubble|]. }
    pose proof (xp_bubble _ _ _ _ _ Hp) as Hxb. destruct mv.
    + destruct Hxb as (b' & Hbb & Hr' & Ht' & _). exists b'. split_and!; [|done | done | lia].
      rewrite Hbb. unfold g1. cbn. by rewrite list_insert_insert_eq.
    + eexists. split_and!; [exact Hxb | done | done | lia].
  - exists false, g, nxt, (turn m (router_id b) (sense_inc b)). split_and!; [done..|]. exists b. split_and!; [|done..].
    symmetry. apply vec_get_Ok in Hb as [_ Hb]. by apply list_insert_id.
Qed.
End Inter.

(** ** The movement phase of a router wakeup

    Every bubble takes a turn within its router and a turn to its next router; [phase_inv] is what all turns
    maintain, and [bubble_phase_total] says that the whole phase returns. *)

Section Phase.
Context (rand : nat -> Z) (cur m : Z) (t : Z -> Z -> Z).

(** What the phase never changes. *)
Definition fixed (g : GarnetNetwork) :=
  (m_networklinks g, m_creditlinks g, m_nis g, m_bubble_init g, map r_rest (m_routers g), stat_vectors (g_stats g)).

Lemma fixed_rest g g' : rest g' = rest g -> fixed g' = fixed g.
Proof. intros E. exact (f_equal (fun '(a, b, c, d, _, _, e, h) => (a, b, c, d, e, h)) E). Qed.

(** What every bubble's turn maintains, starting from network [g0]. *)
Record phase_inv (g0 g : GarnetNetwork) : Prop := {
  ph_mv : movable cur m t g;
  ph_flits : map ident (all_flits g) ≡ₚ map ident (all_flits g0);
  ph_config : g_config g = g_config g0;
  ph_skel : skel g = skel g0;
  ph_bubbles : length (bubble g) = length (bubble g0);
  ph_rest : fixed g = fixed g0;
  ph_held : held g0 -> held g
}.

Context (g0 : GarnetNetwork) (Hbn : m_scheme (g_config g0) = "bn"%string) (Hper : 0 < m_inter_bubble_period (g_config g0)).
Context (Hev : m mod 2 = 0) (Hports : forall rid r, vec_get (m_routers g0) rid = Ok r -> m_input_unit r <> []).

Lemma check_dirn_ok id g : net_inv cur t g -> 0 <= id < vsize (bubble g) -> check_dirn id g = Ok g.
Proof.
  intros Hg Hid. destruct (vec_get_in_range (bubble g) id Hid) as [b Hb].
  destruct (ni_bubble _ _ _ Hg _ _ Hb) as (_ & _ & _ & iu & _ & Hd & Hl).
  unfold check_dirn. rewrite Hb. cbn [mbind result_bind]. rewrite Hd.
  by rewrite (proj2 (String.eqb_neq _ _) Hl).
Qed.

Lemma ports_of_skel g : skel g = skel g0 -> forall rid r, vec_get (m_routers g) rid = Ok r -> m_input_unit r <> [].
Proof.
  intros Hs rid r Hr. destruct (router_of_sk g g0 rid r (eq_sym Hs) Hr) as (r0 & Hr0 & Hsk).
  injection Hsk as _ Hin _ _. intros E. apply (Hports rid r0 Hr0). rewrite E in Hin. by destruct (m_input_unit r0).
Qed.

Lemma intra_turn id g : phase_inv g0 g -> 0 <= id < vsize (bubble g0) ->
  exists g', ('(_, g') ← move_intra_bubble rand cur id g; check_dirn id g') = Ok g' /\ phase_inv g0 g'.
Proof.
  intros [[Hi Hm Hvc Hro] Hf Hc Hs Hl Hr Hh] Hid. assert (Hid' : 0 <= id < vsize (bubble g)) by (unfold vsize in *; lia).
  destruct (vec_get_in_range (bubble g) id Hid') as [b Hb].
  destruct (move_intra_spec rand cur t id g b Hi Hb ltac:(by rewrite Hc)) as (mv & g' & -> & [Hi' Hf' Hs' Hc' _ Hr'%fixed_rest Hh' Hb'] & _).
  cbn [mbind result_bind]. assert (Hlen : length (bubble g') = length (bubble g)).
  { destruct mv; [destruct Hb' as (b' & -> & _); apply length_insert | by rewrite Hb']. }
  exists g'. split; [apply check_dirn_ok; [done | unfold vsize in *; lia]|].
  split; [split | | | | | |]; try first [done | congruence | auto].
  - apply (vcs_ok_routers g); [exact (f_equal (fun '(_, _, _, _, e, _) => e) Hr') | done].
  - unfold routes_ok. by rewrite Hs', Hf'.
  - by rewrite Hf'.
Qed.

Lemma inter_turn id g : phase_inv g0 g -> 0 <= id < vsize (bubble g0) ->
  exists g', ('(_, g') ← move_inter_bubble rand cur id g; check_dirn id g') = Ok g' /\ phase_inv g0 g'.
Proof.
  intros [Hmv Hf Hc Hs Hl Hr Hh] Hid. assert (Hid' : 0 <= id < vsize (bubble g)) by (unfold vsize in *; lia).
  destruct (vec_get_in_range (bubble g) id Hid') as [b Hb].
  destruct (move_inter_spec rand cur m t id g b Hmv Hb Hev (ports_of_skel g Hs))
    as (mv & g' & nxt & s & -> & Hmv' & Hf' & Hc' & Hs' & Hr'%fixed_rest & Hh' & _ & _ & b' & Hbb & _).
  cbn [mbind result_bind]. assert (Hlen : length (bubble g') = length (bubble g)) by (rewrite Hbb; apply length_insert).
  exists g'. split; [apply check_dirn_ok; [apply Hmv' | unfold vsize in *; lia]|].
  split; try first [done | congruence | auto]. by rewrite Hf'.
Qed.

(** Both loops of a wakeup. *)
Lemma loop_turns (turn_ : Z -> GarnetNetwork -> result GarnetNetwork) g :
  (forall id g, phase_inv g0 g -> 0 <= id < vsize (bubble g0) -> exists g', turn_ id g = Ok g' /\ phase_inv g0 g') ->
  phase_inv g0 g -> exists g', for_range (length (bubble g)) 0 turn_ g = Ok g' /\ phase_inv g0 g'.
Proof.
  intros Hturn Hg. rewrite (ph_bubbles _ _ Hg).
  destruct (for_range_total (fun _ g => phase_inv g0 g) turn_ (length (bubble g0)) 0 g Hg) as (g' & He & Hp); [|eauto].
  intros id g1 Hid H1. apply Hturn; [done | unfold vsize; lia].
Qed.
End Phase.

(** Bumping the movement clocks changes nothing the invariant reads. *)
Lemma movable_clock cur m t g f : (forall g, skel (f g) = skel g /\ m_routers (f g) = m_routers g /\
    bubble (f g) = bubble g /\ g_config (f g) = g_config g) -> movable cur m t g -> movable cur m t (f g).
Proof.
  intros Hf [Hi Hm Hv Hr]. destruct (Hf g) as (Hs & Hro & Hb & Hc).
  assert (Hiu : forall rid i, get_iu rid i (f g) = get_iu rid i g) by (intros; unfold get_iu; by rewrite Hro).
  assert (Hou : forall rid i, get_ou rid i (f g) = get_ou rid i g) by (intros; unfold get_ou; by rewrite Hro).
  split.
  - destruct Hi as [Hw Hch Hbb]. split; [by rewrite Hs| |].
    + intros rid i iu. rewrite Hiu, Hb. intros Hi Hd. destruct (Hch rid i iu Hi Hd) as (v & o & (iu1 & p & ou & []) & Hinv).
      exists v, o. split; [|done]. exists iu1, p, ou. split; [by rewrite Hiu | done | | done | by rewrite Hou | done].
      by rewrite upstream_op_sk, Hs, <- upstream_op_sk.
    + intros k b. rewrite Hb. intros (? & ? & ? & iu & ?)%Hbb. split_and!; [done..|]. exists iu. by rewrite Hiu.
  - by rewrite Hs, Hc.
  - intros rid i iu. rewrite Hiu. apply Hv.
  - unfold routes_ok, all_flits in *. by rewrite Hs, Hro.
Qed.

(** One of the two loops, then the clock. *)
Lemma phase_clock cur m t g0 g f : (forall g, skel (f g) = skel g /\ m_routers (f g) = m_routers g /\
    bubble (f g) = bubble g /\ g_config (f g) = g_config g /\ fixed (f g) = fixed g) -> phase_inv cur m t g0 g -> phase_inv cur m t g0 (f g).
Proof.
  intros Hf [Hm Hfl Hc Hs Hl Hr Hh]. destruct (Hf g) as (Es & Er & Eb & Ec & Ef). split.
  - apply movable_clock; [|done]. intros g1. by destruct (Hf g1) as (? & ? & ? & ? & _).
  - unfold all_flits. by rewrite Er.
  - congruence.
  - congruence.
  - by rewrite Eb.
  - congruence.
  - intros H rid i v o row (iu & p & ou & Hch) Hrow. rewrite Es in Hrow. apply (Hh H rid i v o row); [|done]. exists iu, p, ou.
    destruct Hch as [H1 H2 H3 H4 H5 H6]. unfold get_iu in H1. unfold get_ou in H5. rewrite Er in H1, H5.
    split; try done. by rewrite upstream_op_sk, <- Es, <- upstream_op_sk.
Qed.

Lemma phase_trans cur m t g0 g1 g2 : phase_inv cur m t g0 g1 -> phase_inv cur m t g1 g2 -> phase_inv cur m t g0 g2.
Proof. intros [_ F1 C1 S1 L1 R1 H1] [M2 F2 C2 S2 L2 R2 H2]. split; [done | by rewrite F2 | congruence.. | auto]. Qed.

(** The whole phase returns and maintains the invariant. *)
Lemma bubble_phase_total rand cur m t g :
  movable cur m t g -> m mod 2 = 0 -> m_scheme (g_config g) = "bn"%string ->
  0 < m_inter_bubble_period (g_config g) ->
  (forall rid r, vec_get (m_routers g) rid = Ok r -> m_input_unit r <> []) ->
  exists g1 g2, move_all_intra rand cur g = Ok g1 /\ move_all_inter rand cur g1 = Ok g2 /\ phase_inv cur m t g g2.
Proof.
  intros Hg Hev Hbn Hper Hports. assert (Hstart : phase_inv cur m t g g) by (by split).
  assert (H1 : exists g1, move_all_intra rand cur g = Ok g1 /\ phase_inv cur m t g g1).
  { unfold move_all_intra. destruct (_ && _); [|eauto].
    match goal with |- context [for_range _ 0 ?f g] => destruct (loop_turns cur m t g f g) as (g1 & Hl & Hp) end; [|done|].
    { intros id g1 Hp Hid. rewrite (ph_config _ _ _ _ _ Hp), Hbn. by apply (intra_turn rand cur m t g Hper). }
    rewrite Hl. cbn [mbind result_bind]. eexists. split; [done|]. by apply (phase_clock _ _ _ g g1 (with_last_intra_bubble_movement _)). }
  destruct H1 as (g1 & H1 & Hp1). exists g1. pose proof (ph_config _ _ _ _ _ Hp1) as Hc1. pose proof (ph_skel _ _ _ _ _ Hp1) as Hs1.
  assert (H2 : exists g2, move_all_inter rand cur g1 = Ok g2 /\ phase_inv cur m t g1 g2).
  { unfold move_all_inter. assert (Hstart1 : phase_inv cur m t g1 g1) by (split; try done; apply Hp1).
    destruct (_ && _); [|eauto].
    match goal with |- context [for_range _ 0 ?f g1] => destruct (loop_turns cur m t g1 f g1) as (g2 & Hl & Hp) end; [|done|].
    { intros id g2 Hp Hid. rewrite (ph_config _ _ _ _ _ Hp), Hc1, Hbn.
      by apply (inter_turn rand cur m t g1 Hev (ports_of_skel g Hports g1 Hs1)). }
    rewrite Hl. cbn [mbind result_bind]. eexists. split; [done|]. by apply (phase_clock _ _ _ g1 g2 (with_last_inter_bubble_movement _)). }
  destruct H2 as (g2 & H2 & Hp2). exists g2. split_and!; [done | done|]. by eapply phase_trans.
Qed.
