(* ===== verification/BubbleCheck.v ===== *)
(** * An executable check of the network invariant

    [movable_b] evaluates every clause of [movable] on a concrete network; [movable_b_sound] is
    what the examples use. *)

From S2P Require Import Prelude Flit FlitBuffer NetDest Consumer Config RoutingUnit RoutingTable MeshRouting.
From S2P Require Import NetworkLink VirtualChannel OutVcState OutputUnit InputUnit RouterState SwitchTheory.
From S2P Require Import BubblePath MessageBuffer NetStats NetworkInterface GarnetNetwork Bubble NetLens NetRouting.
From S2P Require Import BubbleInv BubbleMoves BubbleIntra BubbleInit BubbleInter.
Local Open Scope Z_scope.

Definition local (d : PortDirection) : bool := String.eqb d "Local".

Lemma local_false d : d <> "Local"%string -> local d = false.
Proof. apply String.eqb_neq. Qed.

(** The upstream output unit exists and is not local. *)
Definition up_not_local (sk : list RouterSk) (up : result (Z * Z)) : bool :=
  match (p ← up; prow ← vec_get sk p.1; vec_get (sk_out prow) p.2) with Ok d => negb (local (os_dirn d)) | Err _ => false end.

Lemma up_not_local_spec sk up : up_not_local sk up = true -> exists p, up = Ok p /\
  forall prow d, vec_get sk p.1 = Ok prow -> vec_get (sk_out prow) p.2 = Ok d -> os_dirn d <> "Local"%string.
Proof.
  unfold up_not_local. destruct up as [p|]; [|done]. cbn. intros H. exists p. split; [done|]. intros prow d Hp Hd.
  rewrite Hp in H. cbn in H. rewrite Hd in H. by apply negb_true_iff, String.eqb_neq in H.
Qed.

Definition wired_b (sk : list RouterSk) : bool :=
  vforall sk (fun rid row => (sk_id row =? rid) &&
    vforall (sk_in row) (fun i e => (e.1.1 =? i) &&
      (local e.1.2 || (up_not_local sk (up_of sk rid e.2) &&
        vforall (sk_in row) (fun j e' => local e'.1.2 || negb (e.2 =? e'.2) || (i =? j)))))).

Lemma wired_b_sound sk : wired_b sk = true -> wired sk.
Proof.
  intros H.
  assert (Hrow : forall rid row, vec_get sk rid = Ok row -> sk_id row = rid /\
    forall i e, vec_get (sk_in row) i = Ok e -> e.1.1 = i /\ (e.1.2 <> "Local"%string ->
      (exists p, up_of sk rid e.2 = Ok p /\
        forall prow d, vec_get sk p.1 = Ok prow -> vec_get (sk_out prow) p.2 = Ok d -> os_dirn d <> "Local"%string) /\
      forall j e', vec_get (sk_in row) j = Ok e' -> e'.1.2 <> "Local"%string -> e.2 = e'.2 -> i = j)).
  { intros rid row Hr. apply (vforall_sound _ _ _ _ H) in Hr. apply andb_true_iff in Hr as [Hid Hin].
    split; [by apply Z.eqb_eq|]. intros i e He. apply (vforall_sound _ _ _ _ Hin) in He.
    apply andb_true_iff in He as [He1 He2]. split; [by apply Z.eqb_eq|]. intros Hl.
    rewrite (local_false _ Hl) in He2. cbn in He2. apply andb_true_iff in He2 as [Hu Hj]. split.
    - by apply up_not_local_spec.
    - intros j e' He' Hl' Heq. apply (vforall_sound _ _ _ _ Hj) in He'. rewrite (local_false _ Hl'), Heq, Z.eqb_refl in He'.
      cbn in He'. by apply Z.eqb_eq. }
  split.
  - intros rid row Hr. by apply Hrow.
  - intros rid row i e Hr He. by apply (Hrow rid row Hr).
  - intros rid row i e Hr He Hl. destruct (Hrow rid row Hr) as [_ Hin]. destruct (Hin i e He) as [_ Hc].
    destruct (Hc Hl) as [(p & Hp & _) _]. eauto.
  - intros rid row i e p prow d Hr He Hl Hp Hprow Hd. destruct (Hrow rid row Hr) as [_ Hin].
    destruct (Hin i e He) as [_ Hc]. destruct (Hc Hl) as [(p' & Hp' & Hdir) _]. merge_ok. by apply (Hdir prow).
  - intros rid row i j e e' Hr He He' Hl Hl' Heq. destruct (Hrow rid row Hr) as [_ Hin].
    destruct (Hin i e He) as [_ Hc]. destruct (Hc Hl) as [_ Hj]. by apply (Hj j e').
Qed.

#[export] Instance chan_inv_dec cur t nb v o : Decision (chan_inv cur t nb v o).
Proof. unfold chan_inv. apply _. Defined.

Definition chan_view (g : GarnetNetwork) (rid : Z) (iu : InputUnit) : result (VirtualChannel * OutVcState) :=
  p ← upstream_op rid iu g;
  v ← vec_get (m_vcs iu) 0;
  ou ← get_ou p.1 p.2 g;
  o ← vec_get (m_outvc_state ou) 0;
  Ok (v, o).

Definition bubble_b (cur : Z) (g : GarnetNetwork) (k : Z) (b : brownian_bubble) : bool :=
  (bubble_id b =? k) && (last_intra_movement_cycle b <=? cur) && (last_inter_movement_cycle b <=? cur) &&
  match get_iu (router_id b) (inport_id b) g with
  | Ok iu => String.eqb (inport_dirn b) (InputUnit.m_direction iu) && negb (local (InputUnit.m_direction iu))
  | Err _ => false
  end.

Lemma bubble_b_sound cur g k b : bubble_b cur g k b = true -> bubble_ok cur g k b.
Proof.
  intros Hbk. apply andb_true_iff in Hbk as [Hbk H4]. apply andb_true_iff in Hbk as [Hbk H3]. apply andb_true_iff in Hbk as [H1 H2].
  apply Z.eqb_eq in H1. apply Z.leb_le in H2, H3. destruct (get_iu _ _ g) as [iu|] eqn:Ei; [|done]. apply andb_true_iff in H4 as [Hdir Hl].
  apply String.eqb_eq in Hdir. apply negb_true_iff, String.eqb_neq in Hl. split_and!; [done..|]. eauto.
Qed.

Definition net_inv_b (cur : Z) (t : Z -> Z -> Z) (g : GarnetNetwork) : bool :=
  wired_b (skel g) &&
  vforall (m_routers g) (fun rid r => vforall (m_input_unit r) (fun i iu =>
    local (InputUnit.m_direction iu) ||
    match chan_view g rid iu with
    | Ok (v, o) => bool_decide (chan_inv cur (t rid i) (nbub (bubble g) rid i) v o)
    | Err _ => false
    end)) &&
  vforall (bubble g) (bubble_b cur g).

Lemma net_inv_b_sound cur t g : net_inv_b cur t g = true -> net_inv cur t g.
Proof.
  unfold net_inv_b. intros H. apply andb_true_iff in H as [H Hb]. apply andb_true_iff in H as [Hw Hc]. split.
  - by apply wired_b_sound.
  - intros rid i iu Hi Hd. destruct (proj1 (get_iu_Ok _ _ _ _) Hi) as (r & Hr & Hir).
    apply (vforall_sound _ _ _ _ Hc) in Hr. apply (vforall_sound _ _ _ _ Hr) in Hir.
    rewrite (local_false _ Hd) in Hir. cbn in Hir.
    destruct (chan_view g rid iu) as [[v o]|] eqn:Ev; [|done]. apply bool_decide_eq_true in Hir.
    exists v, o. split; [|done]. unfold chan_view in Ev. inv_ok. by do 3 eexists.
  - intros k b Hbk. by apply bubble_b_sound, (vforall_sound _ _ _ _ Hb).
Qed.

Definition mesh_sk_b (m : Z) (c : Config) (sk : list RouterSk) : bool := (2 <=? m) && grid_b m m c sk.

Lemma mesh_sk_b_sound m c sk : mesh_sk_b m c sk = true -> mesh_sk m c sk.
Proof. intros [H1%Z.leb_le H2%grid_b_sound]%andb_true_iff. by split. Qed.

Definition route_ok_b (m : Z) (sk : list RouterSk) (route : RouteInfo) : bool :=
  (0 <=? dest_router route) && (dest_router route <? m * m) &&
  vforall sk (fun _ row =>
    let ru := sk_routing row in
    bool_decide (length (m_weight_table ru) = length (m_routing_table ru)) &&
    forallb (fun e => bool_decide (length (m_bits (net_dest route)) = length (m_bits e))) (m_routing_table ru) &&
    forallb (fun w => w <=? INFINITE_) (m_weight_table ru) &&
    existsb (fun l => match vec_get (m_routing_table ru) l with
                      | Ok e => match intersectionIsNotEmpty (net_dest route) e with Ok b => b | Err _ => false end
                      | Err _ => false end) (seqZ 0 (vsize (m_routing_table ru))) &&
    forallb (fun os => (0 <=? vnet route * os_vp os) && (0 <=? os_vp os) &&
                       ((vnet route + 1) * os_vp os <=? os_nv os)) (sk_out row)).

Lemma forallb_Forall {A} (p : A -> bool) (P : A -> Prop) l : (forall a, p a = true -> P a) -> forallb p l = true -> Forall P l.
Proof. intros Hp H. rewrite forallb_forall in H. apply Forall_forall. intros a Ha. by apply Hp, H, list_elem_of_In. Qed.

Lemma route_ok_b_sound m sk route : route_ok_b m sk route = true -> route_ok m sk route.
Proof.
  unfold route_ok_b. intros H. apply andb_true_iff in H as [H Ht]. apply andb_true_iff in H as [H1 H2].
  apply Z.leb_le in H1. apply Z.ltb_lt in H2. split; [unfold in_mesh; lia|]. intros rid row Hr.
  apply (vforall_sound _ _ _ _ Ht) in Hr. clear Ht. rename Hr into Ht. cbn beta zeta in Ht.
  repeat (apply andb_true_iff in Ht as [Ht ?]).
  assert (Hok : tables_ok (net_dest route) (sk_routing row)).
  { split_and!; [by apply bool_decide_eq_true in Ht | |].
    - by eapply forallb_Forall; [|eassumption]; intros a ?%bool_decide_eq_true.
    - by eapply forallb_Forall; [|eassumption]; intros a ?%Z.leb_le. }
  split_and!; [done| |].
  - rename select (existsb _ _ = true) into He. apply existsb_exists in He as (l & Hl & He).
    apply list_elem_of_In, elem_of_seqZ in Hl.
    destruct (link_cases _ _ Hok l Hl) as (e & b & w & Hv & Hi & _ & _ & Hiff). rewrite Hv, Hi in He.
    exists l. by apply Hiff.
  - eapply forallb_Forall; [|eassumption]. intros os Hos. apply andb_true_iff in Hos as [Hos Hc].
    apply andb_true_iff in Hos as [Ha Hb]. apply Z.leb_le in Ha, Hb, Hc. lia.
Qed.

Definition movable_b (cur m : Z) (t : Z -> Z -> Z) (g : GarnetNetwork) : bool :=
  net_inv_b cur t g && mesh_sk_b m (g_config g) (skel g) && vcs_b g &&
  forallb (fun f => route_ok_b m (skel g) (m_route f)) (all_flits g).

Lemma movable_b_sound cur m t g : movable_b cur m t g = true -> movable cur m t g.
Proof.
  unfold movable_b. intros H. apply andb_true_iff in H as [H H4]. apply andb_true_iff in H as [H H3].
  apply andb_true_iff in H as [H1 H2]. split.
  - by apply net_inv_b_sound.
  - by apply mesh_sk_b_sound.
  - by apply vcs_b_sound.
  - eapply forallb_Forall; [|exact H4]. intros f. apply route_ok_b_sound.
Qed.

Definition placeable_b (sk : list RouterSk) : bool :=
  vforall sk (fun _ row => existsb (fun e => negb (local e.1.2)) (sk_in row) &&
    vforall (sk_in row) (fun i e => bool_decide (m_inports_dirn2idx (sk_routing row) !! e.1.2 = Some i))).

Lemma placeable_b_sound sk : placeable_b sk = true -> placeable sk.
Proof.
  intros H rid row Hr. apply (vforall_sound _ _ _ _ H) in Hr. apply andb_true_iff in Hr as [He Hm]. split.
  - apply existsb_exists in He as (e & He & Hl). apply list_elem_of_In, list_elem_of_lookup in He as [i Hi].
    exists (Z.of_nat i), e. split; [apply vec_get_Ok; split; [lia|]; by rewrite Nat2Z.id|].
    by apply negb_true_iff, String.eqb_neq in Hl.
  - intros i e Hi. apply (vforall_sound _ _ _ _ Hm) in Hi. by apply bool_decide_eq_true in Hi.
Qed.

Definition idle_b (cur : Z) (g : GarnetNetwork) : bool :=
  wired_b (skel g) && placeable_b (skel g) &&
  vforall (m_routers g) (fun rid r => vforall (m_input_unit r) (fun i iu =>
    local (InputUnit.m_direction iu) ||
    match chan_view g rid iu with
    | Ok (v, o) => bool_decide (chan_inv cur 0 0 v o) && VirtualChannel.isEmpty v
    | Err _ => false
    end)) &&
  (vsize (bubble g) =? m_num_bubble (g_config g)) && (0 <? vsize (m_routers g)) && (vsize (m_routers g) <? 2 ^ 32).

Lemma idle_b_sound cur g : idle_b cur g = true -> idle_net cur g.
Proof.
  unfold idle_b. intros H. apply andb_true_iff in H as [H H6%Z.ltb_lt]. apply andb_true_iff in H as [H H5%Z.ltb_lt].
  apply andb_true_iff in H as [H H4%Z.eqb_eq]. apply andb_true_iff in H as [H H3]. apply andb_true_iff in H as [H1 H2]. split.
  - by apply wired_b_sound.
  - by apply placeable_b_sound.
  - intros rid i iu Hi Hd. destruct (proj1 (get_iu_Ok _ _ _ _) Hi) as (r & Hr & Hir).
    apply (vforall_sound _ _ _ _ H3) in Hr. apply (vforall_sound _ _ _ _ Hr) in Hir.
    rewrite (local_false _ Hd) in Hir. cbn in Hir.
    destruct (chan_view g rid iu) as [[v o]|] eqn:Ev; [|done].
    apply andb_true_iff in Hir as [Hir%bool_decide_eq_true He%isEmpty_flits].
    exists v, o. split_and!; [|done | done]. unfold chan_view in Ev. inv_ok. by do 3 eexists.
  - done.
  - done.
Qed.
