(* ===== verification/Fabric.v ===== *)
(** * The fabric: routers, links and bubbles together

    A wire is a network link with the credit link that runs back beside it, from a source (an output port of a
    router or an interface) to a destination (an input port or an interface).  VC [k] of a wire carries at most one
    token: a flit that waits for the link, travels on it or is buffered at the destination, a credit on its
    way back, or a bubble.  [fabric_inv] says so for all wires, ties the tokens to the credits and states that the
    two ends keep, and says that all routers are between two wakeups.  It is the invariant of the executions of the
    network. *)

From S2P Require Import Prelude Flit FlitBuffer NetDest Consumer Config RoutingUnit RoutingTable.
From S2P Require Import MeshRouting NetworkLink VirtualChannel OutVcState OutputUnit InputUnit RouterState SwitchAllocator.
From S2P Require Import SwitchTheory SwitchMoved SwitchCorrect RouterCycle BubblePath MessageBuffer NetStats NetworkInterface.
From S2P Require Import GarnetNetwork Bubble NetLens NetRouting BubbleInv BubbleMoves BubbleInter RouterWakeup.
Local Open Scope Z_scope.

(** ** Wires *)

Inductive End := EPort (rid port : Z) | ENode (n : Z).
#[export] Instance End_eq_dec : EqDecision End.
Proof. solve_decision. Defined.

Record Wire := mkWire { w_net : Z; w_credit : Z; w_src : End; w_dst : End }.
#[export] Instance Wire_eq_dec : EqDecision Wire.
Proof. solve_decision. Defined.

(** The queues a wire's links drain. *)
Definition src_queue (e : End) : QueueRef := match e with EPort rid o => QOut rid o | ENode n => QNIOut n end.
Definition dst_queue (e : End) : QueueRef := match e with EPort rid i => QCredit rid i | ENode n => QNICredit n end.

(** What the ends of a wire hold: the queue and, at a router, the unit. *)
Definition src_read (e : End) (g : GarnetNetwork) : result (flitBuffer flit * option OutputUnit) :=
  match e with
  | EPort rid o => ou ← get_ou rid o g; Ok (m_out_buffer ou, Some ou)
  | ENode n => ni ← vec_get (m_nis g) n; Ok (outFlitQueue ni, None)
  end.
Definition dst_read (e : End) (g : GarnetNetwork) : result (flitBuffer Credit * option InputUnit) :=
  match e with
  | EPort rid i => iu ← get_iu rid i g; Ok (creditQueue iu, Some iu)
  | ENode n => ni ← vec_get (m_nis g) n; Ok (outCreditQueue ni, None)
  end.

Record View := mkView {
  wv_queue : flitBuffer flit; wv_out : option OutputUnit; wv_net : NetworkLink flit;
  wv_credits : flitBuffer Credit; wv_in : option InputUnit; wv_credit : NetworkLink Credit
}.

Definition view (w : Wire) (g : GarnetNetwork) : result View :=
  '(q, out) ← src_read (w_src w) g;
  nl ← vec_get (m_networklinks g) (w_net w);
  '(c, inp) ← dst_read (w_dst w) g;
  cl ← vec_get (m_creditlinks g) (w_credit w);
  Ok (mkView q out nl c inp cl).

Lemma view_Ok w g V : view w g = Ok V <->
  src_read (w_src w) g = Ok (wv_queue V, wv_out V) /\ vec_get (m_networklinks g) (w_net w) = Ok (wv_net V) /\
  dst_read (w_dst w) g = Ok (wv_credits V, wv_in V) /\ vec_get (m_creditlinks g) (w_credit w) = Ok (wv_credit V).
Proof.
  unfold view. split.
  - intros H. inv_ok. done.
  - intros (-> & H2 & H3 & H4). cbn [mbind result_bind]. rewrite H2. cbn [mbind result_bind]. rewrite H3. cbn [mbind result_bind]. rewrite H4.
    by destruct V.
Qed.

(** ** Tokens *)

Definition transit (k : Z) (V : View) : Z :=
  nvc k (m_buffer (wv_queue V)) + nvc k (in_flight (wv_net V)) +
  nvc k (m_buffer (wv_credits V)) + nvc k (in_flight (wv_credit V)).

Definition vc_flits (k : Z) (iu : InputUnit) : list flit :=
  match vec_get (m_vcs iu) k with Ok v => VirtualChannel.flits v | Err _ => [] end.
Definition buffered (k : Z) (V : View) : Z := match wv_in V with Some iu => vsize (vc_flits k iu) | None => 0 end.

Lemma transit_nonneg k V : 0 <= transit k V.
Proof.
  unfold transit. pose proof (nvc_nonneg k (m_buffer (wv_queue V))). pose proof (nvc_nonneg k (in_flight (wv_net V))).
  pose proof (nvc_nonneg k (m_buffer (wv_credits V))). pose proof (nvc_nonneg k (in_flight (wv_credit V))). lia.
Qed.
Lemma buffered_nonneg k V : 0 <= buffered k V.
Proof. unfold buffered. destruct (wv_in V) as [iu|]; [apply vsize_nonneg | done]. Qed.

(** The sender's view of a VC with [T] tokens, and the receiver's of a VC with [n] flits and bubbles. *)
Definition sender_ok (cur T : Z) (o : OutVcState) : Prop :=
  1 <= m_max_credit_count o /\ m_credit_count o = m_max_credit_count o - T /\
  OutVcState.m_vc_state o = (if T =? 0 then IDLE_ else ACTIVE_) /\ OutVcState.m_time o <= cur.
Definition receiver_ok (cur n : Z) (v : VirtualChannel) : Prop :=
  get_state v = (if n =? 0 then IDLE_ else ACTIVE_) /\ (VirtualChannel.m_vc_state v).2 <= cur.

(** VC [k] of a wire; [x] are the tokens that are neither flits nor credits of the wire, [y] are the tokens an
    interface at the source has issued and not got back. *)
Definition slot_inv (cur k x y : Z) (V : View) : Prop :=
  0 <= x /\ transit k V + buffered k V + x <= 1 /\
  match wv_out V with
  | Some ou => match vec_get (m_outvc_state ou) k with Ok o => sender_ok cur (transit k V + buffered k V + x) o | Err _ => False end
  | None => transit k V + buffered k V + x = y
  end /\
  match wv_in V with
  | Some iu => match vec_get (m_vcs iu) k with Ok v => receiver_ok cur (buffered k V + x) v | Err _ => False end
  | None => True
  end.

(** ** The flits of the network *)

Definition output_flits (r : Router) : list flit := concat (map (fun ou => m_buffer (m_out_buffer ou)) (m_output_unit r)).
Definition router_flits (r : Router) : list flit := input_flits r ++ output_flits r.

(** In the routers, on the links, and waiting to enter the network. *)
Definition net_flits (g : GarnetNetwork) : list flit :=
  concat (map router_flits (m_routers g)) ++ concat (map in_flight (m_networklinks g)) ++
  concat (map (fun ni => m_buffer (outFlitQueue ni)) (m_nis g)).

(** A flit up to the fields that travelling rewrites. *)
Definition packet_of (f : flit) : flit := with_m_route (with_hops_traversed 0 (m_route f)) (ident f).
Definition packets (g : GarnetNetwork) : list flit := map packet_of (net_flits g).

(** What the interfaces account for: [taken n k] flits of VC [k] of the wire into interface [n] are with the
    interface; [issued n k] tokens of VC [k] of the wire out of it are on the wire or in the router behind it. *)
Record Tally := mkTally { taken : Z -> Z -> Z; issued : Z -> Z -> Z }.

(** A flit that was injected before [cur]. *)
Definition aged (cur : Z) (f : flit) : Prop := Flit.m_enqueue_time f < cur.

Section Fabric.
(** [m] x [m] routers, [vn] virtual networks of [vp] VCs. *)
Context (m vn vp : Z) (W : list Wire) (T : Tally).

Abbreviation nv := (vn * vp).

(** Unmarked single-flit packets for one node, with a message that has arrived, whose routes the mesh can serve. *)
Record packet_ok (sk : list RouterSk) (f : flit) : Prop := {
  po_type : Flit.m_type f = HEAD_TAIL_;
  po_vnet : 0 <= Flit.m_vnet f < vn;
  po_marked : m_marked f = false;
  po_msg : m_LastEnqueueTime (m_msg_ptr f) <= Flit.m_enqueue_time f;
  po_route : route_ok m sk (m_route f);
  po_dest : net_dest (m_route f) = destination (m_msg_ptr f);
  po_single : exists x y, forall x' y', nd_member (net_dest (m_route f)) x' y' <-> x' = x /\ y' = y
}.

(** Waiting for a link, on a link, in a VC. *)
Definition queued_ok (cur : Z) (sk : list RouterSk) (e : End) (f : flit) : Prop :=
  packet_ok sk f /\ 0 <= Flit.m_vc f < nv /\ (aged cur f \/ match e with ENode _ => aged (Flit.m_time f) f | EPort _ _ => False end).
Definition flying_ok (cur : Z) (sk : list RouterSk) (f : flit) : Prop := packet_ok sk f /\ 0 <= Flit.m_vc f < nv /\ aged cur f.
(** A flit in the router at an end asks for an output port that leads to where it goes. *)
Definition leads_at (sk : list RouterSk) (e : End) (f : flit) : Prop :=
  match e with EPort rid _ => forall row, vec_get sk rid = Ok row -> leads row (m_route f) (m_outport f) | ENode _ => False end.
Definition waiting_ok (cur : Z) (sk : list RouterSk) (e : End) (v : VirtualChannel) : Prop :=
  m_output_vc v = -1 /\ Forall (fun f => packet_ok sk f /\ aged cur f /\ leads_at sk e f) (VirtualChannel.flits v).
(** A flit on a wire into an interface goes to a node behind that port. *)
Definition home_ok (sk : list RouterSk) (w : Wire) (f : flit) : Prop :=
  match w_src w, w_dst w with
  | EPort rid o, ENode _ => forall row, vec_get sk rid = Ok row -> reaches (net_dest (m_route f)) (sk_routing row) o
  | _, _ => True
  end.
Definition credit_ok (c : Credit) : Prop := m_is_free_signal c = true /\ 0 <= c_vc c < nv.

(** Bubbles at an input port, or what the interface keeps. *)
Definition extra (bs : list brownian_bubble) (e : End) (k : Z) : Z :=
  match e with EPort rid i => if k =? 0 then nbub bs rid i else 0 | ENode n => taken T n k end.
Definition issued_at (e : End) (k : Z) : Z := match e with EPort _ _ => 0 | ENode n => issued T n k end.

Record wire_inv (cur : Z) (sk : list RouterSk) (bs : list brownian_bubble) (w : Wire) (V : View) : Prop := {
  wi_netq : link_srcQueue (wv_net V) = Some (src_queue (w_src w));
  wi_netc : link_consumer (wv_net V) <> None;
  wi_netl : vsize (m_vc_load (wv_net V)) = nv;
  wi_credq : link_srcQueue (wv_credit V) = Some (dst_queue (w_dst w));
  wi_credc : link_consumer (wv_credit V) <> None;
  wi_credl : vsize (m_vc_load (wv_credit V)) = nv;
  wi_outl : match wv_out V with Some ou => OutputUnit.m_credit_link ou = w_credit w | None => True end;
  wi_inl : match wv_in V with Some iu => m_in_link iu = w_net w | None => True end;
  wi_queue : Forall (queued_ok cur sk (w_src w)) (m_buffer (wv_queue V));
  wi_fly : Forall (flying_ok cur sk) (in_flight (wv_net V));
  wi_cred : Forall credit_ok (m_buffer (wv_credits V) ++ in_flight (wv_credit V));
  wi_wait : match wv_in V with Some iu => Forall (waiting_ok cur sk (w_dst w)) (m_vcs iu) | None => True end;
  wi_home : Forall (home_ok sk w) (m_buffer (wv_queue V) ++ in_flight (wv_net V));
  wi_slot : forall k, 0 <= k < nv -> slot_inv cur k (extra bs (w_dst w) k) (issued_at (w_src w) k) V
}.

(** ** Routers between wakeups *)

Definition iu_dim (iu : InputUnit) : Prop :=
  vsize (m_vcs iu) = nv /\ InputUnit.m_vc_per_vnet iu = vp /\ vsize (m_num_buffer_writes iu) = vn /\ vsize (m_num_buffer_reads iu) = vn.
Definition ou_dim (ou : OutputUnit) : Prop := vsize (m_outvc_state ou) = nv /\ OutputUnit.m_vc_per_vnet ou = vp.
Definition shape_of (r : Router) : Shape := mkShape (vsize (m_input_unit r)) (vsize (m_output_unit r)) vn vp.

Record router_fixed (c : Config) (r : Router) : Prop := {
  rf_latency : 1 <= RouterState.m_latency r;
  rf_shape : shape_ok c (shape_of r);
  rf_vnets : RouterState.m_virtual_networks r = vn;
  rf_sa : sa_ok (shape_of r) (m_sw_alloc r);
  rf_switch : vsize (m_switch_buffer (m_switch r)) = vsize (m_input_unit r);
  rf_cs : cs_num_inports (m_switch r) = vsize (m_input_unit r);
  rf_req : forall o i, ~ req (m_sw_alloc r) o i;
  rf_xbar : Forall (fun b => m_buffer b = []) (m_switch_buffer (m_switch r));
  rf_ius : Forall iu_dim (m_input_unit r);
  rf_ous : Forall ou_dim (m_output_unit r)
}.

(** ** The wiring *)

Record wiring (sk : list RouterSk) (nets creds : Z) : Prop := {
  wr_net : NoDup (map w_net W);
  wr_credit : NoDup (map w_credit W);
  wr_src : NoDup (map w_src W);
  wr_dst : NoDup (map w_dst W);
  wr_nets : forall k, 0 <= k < nets -> exists w, w ∈ W /\ w_net w = k;
  wr_creds : forall k, 0 <= k < creds -> exists w, w ∈ W /\ w_credit w = k;
  wr_outs : forall rid row o, vec_get sk rid = Ok row -> 0 <= o < vsize (sk_out row) -> exists w, w ∈ W /\ w_src w = EPort rid o;
  wr_ins : forall rid row i, vec_get sk rid = Ok row -> 0 <= i < vsize (sk_in row) -> exists w, w ∈ W /\ w_dst w = EPort rid i;
  wr_up : forall w rid i row e, w ∈ W -> w_dst w = EPort rid i -> vec_get sk rid = Ok row -> vec_get (sk_in row) i = Ok e ->
    e.1.2 <> "Local"%string -> exists p, up_of sk rid e.2 = Ok p /\ w_src w = EPort p.1 p.2;
  wr_down : forall w rid o row d, w ∈ W -> w_src w = EPort rid o -> vec_get sk rid = Ok row -> vec_get (sk_out row) o = Ok d ->
    os_dirn d <> "Local"%string -> exists rid' i row' e, w_dst w = EPort rid' i /\ vec_get sk rid' = Ok row' /\
      vec_get (sk_in row') i = Ok e /\ e.1.2 <> "Local"%string
}.

(** ** The invariant *)

Record fabric_inv (cur : Z) (g : GarnetNetwork) : Prop := {
  fb_wired : wired (skel g);
  fb_mesh : mesh_sk m (g_config g) (skel g);
  fb_wiring : wiring (skel g) (vsize (m_networklinks g)) (vsize (m_creditlinks g));
  fb_bubbles : forall k b, vec_get (bubble g) k = Ok b -> bubble_ok cur g k b;
  fb_routers : forall rid r, vec_get (m_routers g) rid = Ok r -> router_fixed (g_config g) r;
  fb_wires : forall w, w ∈ W -> exists V, view w g = Ok V /\ wire_inv cur (skel g) (bubble g) w V
}.
End Fabric.

(** ** Steps that touch one wire *)

Section Theory.
Context (m vn vp : Z) (W : list Wire) (T : Tally).

Abbreviation nv := (vn * vp).
Abbreviation fabric_inv := (fabric_inv m vn vp W T).
Abbreviation wire_inv := (wire_inv m vn vp T).
Abbreviation router_fixed := (router_fixed vn vp).

(** ** Networks that differ in one wire *)

(** An interface up to the queues its links drain. *)
Definition ni_rest (ni : NetworkInterface) : NetworkInterface :=
  NetworkInterface.with_m_events [] (with_outFlitQueue flitBuffer_new (with_outCreditQueue flitBuffer_new ni)).

Record frame (g g' : GarnetNetwork) : Prop := {
  fr_skel : skel g' = skel g;
  fr_config : g_config g' = g_config g;
  fr_bubble : bubble g' = bubble g;
  fr_init : m_bubble_init g' = m_bubble_init g;
  fr_nets : vsize (m_networklinks g') = vsize (m_networklinks g);
  fr_creds : vsize (m_creditlinks g') = vsize (m_creditlinks g);
  fr_nis : map ni_rest (m_nis g') = map ni_rest (m_nis g);
  fr_stats : stat_vectors (g_stats g') = stat_vectors (g_stats g);
  fr_router : forall rid r', vec_get (m_routers g') rid = Ok r' -> exists r, vec_get (m_routers g) rid = Ok r /\
    (router_fixed (g_config g) r -> router_fixed (g_config g) r')
}.

Record touched (w : Wire) (V' : View) (g g' : GarnetNetwork) : Prop := {
  to_src : forall e, src_read e g' = if decide (e = w_src w) then Ok (wv_queue V', wv_out V') else src_read e g;
  to_dst : forall e, dst_read e g' = if decide (e = w_dst w) then Ok (wv_credits V', wv_in V') else dst_read e g;
  to_net : forall k, vec_get (m_networklinks g') k = if decide (k = w_net w) then Ok (wv_net V') else vec_get (m_networklinks g) k;
  to_credit : forall k, vec_get (m_creditlinks g') k = if decide (k = w_credit w) then Ok (wv_credit V') else vec_get (m_creditlinks g) k
}.

Lemma bubble_ok_sk cur g g' k b : skel g' = skel g -> bubble_ok cur g k b -> bubble_ok cur g' k b.
Proof.
  intros Hs (H1 & H2 & H3 & iu & Hi & Hd & Hl). split_and!; [done..|].
  destruct (get_iu_of_sk g g' _ _ _ Hs Hi) as (iu' & Hi' & E). injection E as _ Ed _. exists iu'. rewrite Ed. done.
Qed.

Lemma NoDup_wire {A} (f : Wire -> A) w w' : NoDup (map f W) -> w ∈ W -> w' ∈ W -> f w = f w' -> w = w'.
Proof.
  intros Hn Hw Hw' E. apply list_elem_of_lookup in Hw as [i Hi]. apply list_elem_of_lookup in Hw' as [j Hj].
  assert (i = j) as ->; [|congruence]. eapply NoDup_lookup; [exact Hn | |].
  - change (map f W) with (f <$> W). rewrite list_lookup_fmap, Hi. reflexivity.
  - change (map f W) with (f <$> W). rewrite list_lookup_fmap, Hj. cbn. by rewrite E.
Qed.

Lemma wiring_wire sk nets creds w w' : wiring W sk nets creds -> w ∈ W -> w' ∈ W -> w' <> w ->
  w_src w' <> w_src w /\ w_dst w' <> w_dst w /\ w_net w' <> w_net w /\ w_credit w' <> w_credit w.
Proof.
  intros Hw H1 H2 Hne. split_and!; intros E; apply Hne.
  - by apply (NoDup_wire w_src); [apply Hw|..].
  - by apply (NoDup_wire w_dst); [apply Hw|..].
  - by apply (NoDup_wire w_net); [apply Hw|..].
  - by apply (NoDup_wire w_credit); [apply Hw|..].
Qed.

Lemma fabric_touch cur g g' w V' : fabric_inv cur g -> w ∈ W -> frame g g' -> touched w V' g g' ->
  wire_inv cur (skel g) (bubble g) w V' -> fabric_inv cur g'.
Proof.
  intros [F1 F2 F3 F4 F5 F6] Hw [E1 E2 E3 _ E4 E5 _ _ E6] Ht HV. split.
  - by rewrite E1.
  - by rewrite E1, E2.
  - by rewrite E1, E4, E5.
  - rewrite E3. intros k b Hb. eapply bubble_ok_sk; [exact E1 | by apply F4].
  - rewrite E2. intros rid r' Hr'. destruct (E6 _ _ Hr') as (r & Hr & Hi). by apply Hi, (F5 rid).
  - rewrite E1, E3. intros w' Hw'. destruct (decide (w' = w)) as [->|Hne].
    + exists V'. split; [|done]. apply view_Ok. rewrite (to_src _ _ _ _ Ht), (to_dst _ _ _ _ Ht), (to_net _ _ _ _ Ht), (to_credit _ _ _ _ Ht).
      by rewrite !decide_True.
    + destruct (F6 w' Hw') as (V & HVw & HV2). exists V. split; [|done]. apply view_Ok in HVw as (V1 & V2 & V3 & V4). apply view_Ok.
      destruct (wiring_wire _ _ _ _ _ F3 Hw Hw' Hne) as (N1 & N2 & N3 & N4).
      rewrite (to_src _ _ _ _ Ht), (to_dst _ _ _ _ Ht), (to_net _ _ _ _ Ht), (to_credit _ _ _ _ Ht). by rewrite !decide_False.
Qed.

(** ** Later *)

Lemma slot_inv_later cur cur' k x y V : cur <= cur' -> slot_inv cur k x y V -> slot_inv cur' k x y V.
Proof.
  intros Hle (H1 & H2 & H3 & H4). split_and!; [done | done | |].
  - destruct (wv_out V); [|done]. destruct (vec_get _ k); [|done]. destruct H3 as (?&?&?&?). split_and!; (done || lia).
  - destruct (wv_in V); [|done]. destruct (vec_get _ k); [|done]. destruct H4 as (?&?). split; (done || lia).
Qed.

Lemma aged_later cur cur' f : cur <= cur' -> aged cur f -> aged cur' f.
Proof. unfold aged. lia. Qed.
Lemma queued_later cur cur' sk e f : cur <= cur' -> queued_ok m vn vp cur sk e f -> queued_ok m vn vp cur' sk e f.
Proof. intros Hle (H1 & H2 & H3). split; [done|]. split; [done|]. destruct H3; [left; by eapply aged_later | by right]. Qed.
Lemma flying_later cur cur' sk f : cur <= cur' -> flying_ok m vn vp cur sk f -> flying_ok m vn vp cur' sk f.
Proof. intros Hle (H1 & H2 & H3). split; [done|]. split; [done|]. by eapply aged_later. Qed.
Lemma waiting_later cur cur' sk e v : cur <= cur' -> waiting_ok m vn cur sk e v -> waiting_ok m vn cur' sk e v.
Proof.
  intros Hle (H1 & H2). split; [done|]. eapply Forall_impl; [done|]. intros f (?&?&?). split; [done|]. split; [by eapply aged_later | done].
Qed.

Lemma fabric_later cur cur' g : cur <= cur' -> fabric_inv cur g -> fabric_inv cur' g.
Proof.
  intros Hle [F1 F2 F3 F4 F5 F6]. split; try done.
  - intros k b Hb. destruct (F4 k b Hb) as (?&?&?&?). split_and!; (done || lia).
  - intros w Hw. destruct (F6 w Hw) as (V & HV & []). exists V. split; [done|]. split; try done.
    + eapply Forall_impl; [done|]. by intros f; apply queued_later.
    + eapply Forall_impl; [done|]. by intros f; apply flying_later.
    + destruct (wv_in V); [|done]. eapply Forall_impl; [done|]. by intros v; apply waiting_later.
    + intros k Hk. eapply slot_inv_later; [exact Hle | auto].
Qed.

(** ** The units of a router *)

Section Inv.
Context (cur : Z) (g : GarnetNetwork) (Hg : fabric_inv cur g).

Lemma in_wire rid i iu : get_iu rid i g = Ok iu -> exists w V, w ∈ W /\ w_dst w = EPort rid i /\ view w g = Ok V /\
  wv_in V = Some iu /\ wv_credits V = creditQueue iu /\ wire_inv cur (skel g) (bubble g) w V.
Proof.
  intros Hi. destruct (get_iu_sk _ _ _ _ Hi) as (row & Hrow & He). apply vec_get_range in He.
  destruct (wr_ins _ _ _ _ (fb_wiring _ _ _ _ _ _ _ Hg) rid row i Hrow He) as (w & Hw & Ed).
  destruct (fb_wires _ _ _ _ _ _ _ Hg w Hw) as (V & HV & Hinv). exists w, V.
  pose proof (proj1 (view_Ok _ _ _) HV) as (_ & _ & Hd & _). rewrite Ed in Hd. cbn in Hd. rewrite Hi in Hd.
  cbn [mbind result_bind] in Hd. apply Ok_inj in Hd. injection Hd as H1 H2. by split_and!.
Qed.

Lemma out_wire rid o ou : get_ou rid o g = Ok ou -> exists w V, w ∈ W /\ w_src w = EPort rid o /\ view w g = Ok V /\
  wv_out V = Some ou /\ wv_queue V = m_out_buffer ou /\ wire_inv cur (skel g) (bubble g) w V.
Proof.
  intros Ho. destruct (proj1 (get_ou_Ok _ _ _ _) Ho) as (r & Hr & Hor). pose proof (skel_row g rid r Hr) as Hrow.
  apply vec_get_range in Hor.
  destruct (wr_outs _ _ _ _ (fb_wiring _ _ _ _ _ _ _ Hg) rid (r_sk r) o Hrow) as (w & Hw & Ed); [cbn; by rewrite vsize_map|].
  destruct (fb_wires _ _ _ _ _ _ _ Hg w Hw) as (V & HV & Hinv). exists w, V.
  pose proof (proj1 (view_Ok _ _ _) HV) as (Hd & _). rewrite Ed in Hd. cbn in Hd. rewrite Ho in Hd.
  cbn [mbind result_bind] in Hd. apply Ok_inj in Hd. injection Hd as H1 H2. by split_and!.
Qed.

(** A VC at an input port. *)
Lemma in_vc rid r i iu k v : vec_get (m_routers g) rid = Ok r -> vec_get (m_input_unit r) i = Ok iu -> vec_get (m_vcs iu) k = Ok v ->
  0 <= k < nv /\ vc_ok cur v /\ vc_inv (shape_of vn vp r) v.
Proof.
  intros Hr Hi Hv. assert (Hk : 0 <= k < nv).
  { pose proof (rf_ius _ _ _ _ (fb_routers _ _ _ _ _ _ _ Hg _ _ Hr)) as Hall.
    destruct (Forall_vec_get _ _ _ _ Hall Hi) as (E & _). apply vec_get_range in Hv. lia. }
  split; [done|]. destruct (in_wire rid i iu) as (w & V & Hw & Ed & HV & Ein & Ec & Hinv); [apply get_iu_Ok; eauto|].
  pose proof (wi_wait _ _ _ _ _ _ _ _ _ Hinv) as Hwait. rewrite Ein in Hwait.
  destruct (Forall_vec_get _ _ _ _ Hwait Hv) as [Hovc Hfl].
  destruct (wi_slot _ _ _ _ _ _ _ _ _ Hinv k Hk) as (Hx & Htok & _ & Hrec). rewrite Ein, Hv in Hrec.
  unfold buffered in *. rewrite Ein in *. unfold vc_flits in *. rewrite Hv in *.
  pose proof (transit_nonneg k V).
  assert (Hlen : (length (VirtualChannel.flits v) <= 1)%nat) by (unfold vsize in *; lia).
  destruct Hrec as [Hst Htm]. split.
  - split_and!; [by apply heap_ok_short | | done]. intros Hne. rewrite Hst.
    destruct (Z.eqb_spec (vsize (VirtualChannel.flits v) + extra T (bubble g) (w_dst w) k) 0) as [E|]; [|done].
    exfalso. apply Hne, nil_length_inv. unfold vsize in *. lia.
  - split; [done|]. destruct (VirtualChannel.flits v) as [|f [|f' l]] eqn:Ef; [by left | right | cbn in Hlen; lia].
    exists f. apply Forall_inv in Hfl as (Hp & _ & Ho). rewrite Ed in Ho. destruct (Ho _ (skel_row g rid r Hr)) as [Hrange _].
    cbn in Hrange. rewrite vsize_map in Hrange. split_and!; [done | apply Hrange | apply Hrange | apply Hp].
Qed.

(** A VC at an output port. *)
Lemma out_vc rid r o ou k x : vec_get (m_routers g) rid = Ok r -> vec_get (m_output_unit r) o = Ok ou -> vec_get (m_outvc_state ou) k = Ok x ->
  outvc_inv x.
Proof.
  intros Hr Ho Hx. assert (Hk : 0 <= k < nv).
  { pose proof (rf_ous _ _ _ _ (fb_routers _ _ _ _ _ _ _ Hg _ _ Hr)) as Hall.
    destruct (Forall_vec_get _ _ _ _ Hall Ho) as (E & _). apply vec_get_range in Hx. lia. }
  destruct (out_wire rid o ou) as (w & V & Hw & Ed & HV & Eout & Eq & Hinv); [apply get_ou_Ok; eauto|].
  destruct (wi_slot _ _ _ _ _ _ _ _ _ Hinv k Hk) as (Hxx & Htok & Hsnd & _). rewrite Eout, Hx in Hsnd.
  destruct Hsnd as (Hmax & Hcr & Hst & _). unfold outvc_inv, credits_ok.
  pose proof (transit_nonneg k V). pose proof (buffered_nonneg k V).
  split; [lia|]. intros Hid. rewrite Hid in Hst. destruct (Z.eqb_spec (transit k V + buffered k V + extra T (bubble g) (w_dst w) k) 0); [lia | done].
Qed.

Lemma router_sa_ready rid r : vec_get (m_routers g) rid = Ok r -> 0 <= cur < 2 ^ 64 - 1 -> sa_ready (g_config g) (shape_of vn vp r) cur r.
Proof.
  intros Hr Hcur. pose proof (fb_routers _ _ _ _ _ _ _ Hg _ _ Hr) as [H1 H2 H3 H4 H5 H6 H7 H8 H9 H10]. split_and!; try done; try lia.
  - split; try done.
    + apply Forall_lookup. intros n iu Hn. assert (Hi : vec_get (m_input_unit r) (Z.of_nat n) = Ok iu)
        by (apply vec_get_Ok; split; [lia | by rewrite Nat2Z.id]).
      rewrite Forall_lookup in H9. destruct (H9 n iu Hn) as (E & _). split_and!; [done | |].
      * apply Forall_lookup. intros j v Hj. apply (in_vc rid r (Z.of_nat n) iu (Z.of_nat j) v Hr Hi). apply vec_get_Ok. split; [lia | by rewrite Nat2Z.id].
      * apply Forall_lookup. intros j v Hj. apply (in_vc rid r (Z.of_nat n) iu (Z.of_nat j) v Hr Hi). apply vec_get_Ok. split; [lia | by rewrite Nat2Z.id].
    + apply Forall_lookup. intros n ou Hn. assert (Ho : vec_get (m_output_unit r) (Z.of_nat n) = Ok ou)
        by (apply vec_get_Ok; split; [lia | by rewrite Nat2Z.id]).
      rewrite Forall_lookup in H10. destruct (H10 n ou Hn) as (E & E2). split_and!; [done | done|].
      apply Forall_lookup. intros j x Hj. apply (out_vc rid r (Z.of_nat n) ou (Z.of_nat j) x Hr Ho). apply vec_get_Ok. split; [lia | by rewrite Nat2Z.id].
  - intros i Hi. cbn in Hi. destruct (vec_get_in_range (m_switch_buffer (m_switch r)) i) as [b Hb]; [lia|]. exists b.
    split; [done|]. exact (Forall_vec_get _ _ _ _ H8 Hb).
Qed.
End Inv.
End Theory.
