(* ===== verification/FabricLinks.v ===== *)
(** * Link wakeups keep the fabric's invariant *)

From S2P Require Import Prelude Flit FlitBuffer NetDest Consumer Config RoutingUnit RoutingTable.
From S2P Require Import MeshRouting NetworkLink VirtualChannel OutVcState OutputUnit InputUnit RouterState SwitchAllocator.
From S2P Require Import SwitchTheory SwitchMoved SwitchCorrect RouterCycle BubblePath MessageBuffer NetStats NetworkInterface.
From S2P Require Import GarnetNetwork Bubble NetLens NetRouting BubbleInv BubbleMoves BubbleInter RouterWakeup Fabric.
Local Open Scope Z_scope.

(** ** Flits under an update *)

Lemma net_flits_router rid r r' g : vec_get (m_routers g) rid = Ok r ->
  router_flits r ++ net_flits (with_m_routers (<[Z.to_nat rid := r']> (m_routers g)) g) ≡ₚ router_flits r' ++ net_flits g.
Proof.
  intros Hr. unfold net_flits. cbn. pose proof (concat_map_vec_insert router_flits _ _ _ r' Hr) as Hp.
  rewrite app_assoc, Hp. by rewrite <- app_assoc.
Qed.

Lemma net_flits_put_iu rid i iu old g : get_iu rid i g = Ok old ->
  InputUnit.flits old ++ net_flits (put_iu rid i iu g) ≡ₚ InputUnit.flits iu ++ net_flits g.
Proof.
  intros (r & Hr & Hi)%get_iu_Ok. unfold put_iu. rewrite <- (alter_vec_set _ _ _ _ Hr).
  pose proof (net_flits_router rid r (with_m_input_unit (<[Z.to_nat i := iu]> (m_input_unit r)) r) g Hr) as H1.
  pose proof (concat_map_vec_insert InputUnit.flits _ _ _ iu Hi) as H2. unfold router_flits in H1. rewrite <- !app_assoc in H1.
  change (input_flits (with_m_input_unit ?l r)) with (concat (map InputUnit.flits l)) in H1.
  change (output_flits (with_m_input_unit ?l r)) with (output_flits r) in H1.
  apply (Permutation_app_inv_l (input_flits r ++ output_flits r)). rewrite (Permutation_app_swap_app _ (InputUnit.flits old)).
  rewrite <- app_assoc, H1, !app_assoc. rewrite H2. fold (input_flits r). solve_Permutation.
Qed.

Lemma net_flits_put_ou rid o ou old g : get_ou rid o g = Ok old ->
  m_buffer (m_out_buffer old) ++ net_flits (put_ou rid o ou g) ≡ₚ m_buffer (m_out_buffer ou) ++ net_flits g.
Proof.
  intros (r & Hr & Hi)%get_ou_Ok. unfold put_ou. rewrite <- (alter_vec_set _ _ _ _ Hr).
  pose proof (net_flits_router rid r (with_m_output_unit (<[Z.to_nat o := ou]> (m_output_unit r)) r) g Hr) as H1.
  pose proof (concat_map_vec_insert (fun ou => m_buffer (m_out_buffer ou)) _ _ _ ou Hi) as H2. unfold router_flits in H1.
  change (input_flits (with_m_output_unit ?l r)) with (input_flits r) in H1.
  change (output_flits (with_m_output_unit ?l r)) with (concat (map (fun ou => m_buffer (m_out_buffer ou)) l)) in H1.
  rewrite <- !app_assoc in H1. apply Permutation_app_inv_l in H1.
  apply (Permutation_app_inv_l (output_flits r)). rewrite (Permutation_app_swap_app _ (m_buffer (m_out_buffer old))).
  rewrite H1, !app_assoc, H2. fold (output_flits r). solve_Permutation.
Qed.

Lemma net_flits_link k l old g : vec_get (m_networklinks g) k = Ok old ->
  in_flight old ++ net_flits (with_m_networklinks (<[Z.to_nat k := l]> (m_networklinks g)) g) ≡ₚ in_flight l ++ net_flits g.
Proof.
  intros Hl. unfold net_flits. cbn. pose proof (concat_map_vec_insert in_flight _ _ _ l Hl) as Hp.
  rewrite (Permutation_app_swap_app (in_flight old)), (app_assoc (in_flight old)), Hp, <- app_assoc. by rewrite Permutation_app_swap_app.
Qed.

Lemma net_flits_ni n b ni g : vec_get (m_nis g) n = Ok ni ->
  m_buffer (outFlitQueue ni) ++ net_flits (with_m_nis (<[Z.to_nat n := with_outFlitQueue b ni]> (m_nis g)) g) ≡ₚ m_buffer b ++ net_flits g.
Proof.
  intros Hn. unfold net_flits. cbn. pose proof (concat_map_vec_insert (fun ni => m_buffer (outFlitQueue ni)) _ _ _ (with_outFlitQueue b ni) Hn) as Hp.
  cbn [outFlitQueue with_outFlitQueue] in Hp.
  rewrite (Permutation_app_swap_app (m_buffer (outFlitQueue ni))), (Permutation_app_swap_app (m_buffer (outFlitQueue ni))), Hp.
  solve_Permutation.
Qed.

Section Links.
Context (m vn vp : Z) (W : list Wire) (T : Tally).

Abbreviation nv := (vn * vp).
Abbreviation fabric_inv := (fabric_inv m vn vp W T).
Abbreviation wire_inv := (wire_inv m vn vp T).
Abbreviation router_fixed := (router_fixed vn vp).
Abbreviation frame := (frame vn vp).

(** ** Frames *)

Lemma frame_refl g : frame g g.
Proof. split; try done. eauto. Qed.

Lemma frame_trans g g1 g2 : frame g g1 -> frame g1 g2 -> frame g g2.
Proof.
  intros [] []. split; try congruence. intros rid r2 H2. destruct (fr_router0 rid r2 H2) as (r1 & H1 & I1).
  destruct (fr_router rid r1 H1) as (r & H & I). exists r. split; [done|]. intros Hr. rewrite <- fr_config. apply I1. rewrite fr_config. auto.
Qed.

(** A router whose units changed within their dimensions. *)
Lemma router_fixed_units c r r' : router_fixed c r -> RouterState.m_latency r' = RouterState.m_latency r ->
  RouterState.m_virtual_networks r' = RouterState.m_virtual_networks r -> m_sw_alloc r' = m_sw_alloc r -> m_switch r' = m_switch r ->
  vsize (m_input_unit r') = vsize (m_input_unit r) -> vsize (m_output_unit r') = vsize (m_output_unit r) ->
  Forall (iu_dim vn vp) (m_input_unit r') -> Forall (ou_dim vn vp) (m_output_unit r') -> router_fixed c r'.
Proof.
  intros [] E1 E2 E3 E4 E5 E6 H1 H2. assert (Es : shape_of vn vp r' = shape_of vn vp r) by (unfold shape_of; by rewrite E5, E6).
  split; rewrite ?Es, ?E1, ?E2, ?E3, ?E4, ?E5; done.
Qed.

Lemma frame_put_ou rid o ou old g : get_ou rid o g = Ok old -> ou_sk ou = ou_sk old -> (ou_dim vn vp old -> ou_dim vn vp ou) ->
  frame g (put_ou rid o ou g).
Proof.
  intros Ho Hs Hd. pose proof (skel_put_ou _ _ _ _ _ Ho Hs) as Hsk. pose proof (get_ou_range _ _ _ _ Ho) as [Hrid _].
  destruct (proj1 (get_ou_Ok _ _ _ _) Ho) as (r & Hr & Hor). split; try done. intros rid1 r' Hr'. unfold put_ou in Hr'. cbn in Hr'.
  rewrite vec_get_alter in Hr' by lia. destruct (vec_get (m_routers g) rid1) as [r1|] eqn:E1; [|done]. cbn in Hr'. apply Ok_inj in Hr'.
  exists r1. split; [done|]. intros Hf. case_decide as Hc; [|by subst]. subst rid1. merge_ok.
  apply (router_fixed_units _ r1); try done; cbn.
  - by rewrite vsize_insert.
  - apply Hf.
  - apply Forall_insert; [apply Hf|]. apply Hd. exact (Forall_vec_get _ _ _ _ (rf_ous _ _ _ _ Hf) Hor).
Qed.

Lemma frame_put_iu rid i iu old g : get_iu rid i g = Ok old -> iu_sk iu = iu_sk old -> (iu_dim vn vp old -> iu_dim vn vp iu) ->
  frame g (put_iu rid i iu g).
Proof.
  intros Ho Hs Hd. pose proof (skel_put_iu _ _ _ _ _ Ho Hs) as Hsk. pose proof (get_iu_range _ _ _ _ Ho) as [Hrid _].
  destruct (proj1 (get_iu_Ok _ _ _ _) Ho) as (r & Hr & Hor). split; try done. intros rid1 r' Hr'. unfold put_iu in Hr'. cbn in Hr'.
  rewrite vec_get_alter in Hr' by lia. destruct (vec_get (m_routers g) rid1) as [r1|] eqn:E1; [|done]. cbn in Hr'. apply Ok_inj in Hr'.
  exists r1. split; [done|]. intros Hf. case_decide as Hc; [|by subst]. subst rid1. merge_ok.
  apply (router_fixed_units _ r1); try done; cbn.
  - by rewrite vsize_insert.
  - apply Forall_insert; [apply Hf|]. apply Hd. exact (Forall_vec_get _ _ _ _ (rf_ius _ _ _ _ Hf) Hor).
  - apply Hf.
Qed.

(** ** Replacing a queue *)

Lemma flit_queue_read e g b out : src_read e g = Ok (b, out) -> flit_queue (src_queue e) g = Ok b.
Proof. destruct e; cbn; intros H; inv_ok; rename select (_ = Ok _) into Hx; by rewrite Hx. Qed.
Lemma credit_queue_read e g b inp : dst_read e g = Ok (b, inp) -> credit_queue (dst_queue e) g = Ok b.
Proof. destruct e; cbn; intros H; inv_ok; rename select (_ = Ok _) into Hx; by rewrite Hx. Qed.

Lemma set_flit_queue_ok e b b' out g : src_read e g = Ok (b, out) ->
  exists g1, set_flit_queue (src_queue e) b' g = Ok g1 /\ frame g g1 /\
    (forall e', src_read e' g1 = if decide (e' = e) then Ok (b', with_m_out_buffer b' <$> out) else src_read e' g) /\
    (forall e', dst_read e' g1 = dst_read e' g) /\ m_networklinks g1 = m_networklinks g /\ m_creditlinks g1 = m_creditlinks g /\
    m_buffer b ++ net_flits g1 ≡ₚ m_buffer b' ++ net_flits g.
Proof.
  destruct e as [rid o | n]; cbn [src_read src_queue set_flit_queue]; intros H; inv_ok; rename select (_ = Ok x) into Hx.
  - pose proof (get_ou_range _ _ _ _ Hx) as [Hrid _]. exists (put_ou rid o (with_m_out_buffer b' x) g). split_and!; try done.
    + by apply (on_net_ou_Ok _ _ _ _ _ _ Hx).
    + by apply (frame_put_ou _ _ _ x).
    + intros [rid' o' | n']; cbn [src_read]; [|done]. rewrite (get_ou_put_ou _ _ _ _ _ _ _ Hx).
      do 2 case_decide; simplify_eq; (done || (exfalso; intuition congruence)).
    + intros [rid' i' | n']; cbn [dst_read]; [|done]. by rewrite get_iu_put_ou by lia.
    + by apply (net_flits_put_ou _ _ (with_m_out_buffer b' x) x).
  - pose proof (vec_get_range _ _ _ Hx) as Hr. rewrite (vec_modify_Ok _ _ _ _ Hx). cbn [mbind result_bind]. eexists. split_and!; try done.
    + split; try done; [|eauto]. apply vec_get_Ok in Hx as [_ Hx]. by apply (map_insert_id _ _ _ _ _ Hx).
    + intros [rid' o' | n']; cbn [src_read]; [done|]. cbn [m_nis with_m_nis]. case_decide as Hc.
      * injection Hc as ->. by rewrite (vec_get_insert _ _ _ _ Hx).
      * rewrite vec_get_insert_ne by (lia || congruence). done.
    + intros [rid' i' | n']; cbn [dst_read]; [done|]. cbn [m_nis with_m_nis]. destruct (decide (n' = n)) as [->|].
      * by rewrite (vec_get_insert _ _ _ _ Hx), Hx.
      * rewrite vec_get_insert_ne by (lia || congruence). done.
    + by apply net_flits_ni.
Qed.

Lemma set_credit_queue_ok e b b' inp g : dst_read e g = Ok (b, inp) ->
  exists g1, set_credit_queue (dst_queue e) b' g = Ok g1 /\ frame g g1 /\
    (forall e', dst_read e' g1 = if decide (e' = e) then Ok (b', with_creditQueue b' <$> inp) else dst_read e' g) /\
    (forall e', src_read e' g1 = src_read e' g) /\ m_networklinks g1 = m_networklinks g /\ m_creditlinks g1 = m_creditlinks g /\
    net_flits g1 ≡ₚ net_flits g.
Proof.
  destruct e as [rid i | n]; cbn [dst_read dst_queue set_credit_queue]; intros H; inv_ok; rename select (_ = Ok x) into Hx.
  - pose proof (get_iu_range _ _ _ _ Hx) as [Hrid _]. exists (put_iu rid i (with_creditQueue b' x) g). split_and!; try done.
    + by apply (on_net_iu_Ok _ _ _ _ _ _ Hx).
    + by apply (frame_put_iu _ _ _ x).
    + intros [rid' o' | n']; cbn [dst_read]; [|done]. rewrite (get_iu_put_iu _ _ _ _ _ _ _ Hx).
      do 2 case_decide; simplify_eq; (done || (exfalso; intuition congruence)).
    + intros [rid' i' | n']; cbn [src_read]; [|done]. by rewrite get_ou_put_iu by lia.
    + pose proof (net_flits_put_iu _ _ (with_creditQueue b' x) _ _ Hx) as Hp. by apply Permutation_app_inv_l in Hp.
  - pose proof (vec_get_range _ _ _ Hx) as Hr. rewrite (vec_modify_Ok _ _ _ _ Hx). cbn [mbind result_bind]. eexists. split_and!; try done.
    + split; try done; [|eauto]. apply vec_get_Ok in Hx as [_ Hx]. by apply (map_insert_id _ _ _ _ _ Hx).
    + intros [rid' o' | n']; cbn [dst_read]; [done|]. cbn [m_nis with_m_nis]. case_decide as Hc.
      * injection Hc as ->. by rewrite (vec_get_insert _ _ _ _ Hx).
      * rewrite vec_get_insert_ne by (lia || congruence). done.
    + intros [rid' i' | n']; cbn [src_read]; [done|]. cbn [m_nis with_m_nis]. destruct (decide (n' = n)) as [->|].
      * by rewrite (vec_get_insert _ _ _ _ Hx), Hx.
      * rewrite vec_get_insert_ne by (lia || congruence). done.
    + unfold net_flits. cbn. apply vec_get_Ok in Hx as [_ Hx]. by rewrite (map_insert_id _ _ _ _ (with_outCreditQueue b' x) Hx).
Qed.

(** ** Tokens that move along a wire *)

Definition link_data {F} (l : NetworkLink F) := (link_srcQueue l, link_consumer l, vsize (m_vc_load l)).
Definition out_data (ou : OutputUnit) := (OutputUnit.m_credit_link ou, m_outvc_state ou).
Definition in_data (iu : InputUnit) := (m_in_link iu, m_vcs iu).

Lemma wire_inv_transit cur sk bs w V V' : wire_inv cur sk bs w V ->
  link_data (wv_net V') = link_data (wv_net V) -> link_data (wv_credit V') = link_data (wv_credit V) ->
  out_data <$> wv_out V' = out_data <$> wv_out V -> in_data <$> wv_in V' = in_data <$> wv_in V ->
  (forall k, transit k V' = transit k V) ->
  Forall (queued_ok m vn vp cur sk (w_src w)) (m_buffer (wv_queue V')) -> Forall (flying_ok m vn vp cur sk) (in_flight (wv_net V')) ->
  Forall (credit_ok vn vp) (m_buffer (wv_credits V') ++ in_flight (wv_credit V')) ->
  Forall (home_ok sk w) (m_buffer (wv_queue V') ++ in_flight (wv_net V')) -> wire_inv cur sk bs w V'.
Proof.
  intros [] [= E1 E2 E3] [= E4 E5 E6] Eo Ei Ht Hq Hf Hc Hh.
  assert (Eb : forall k, buffered k V' = buffered k V).
  { intros k. unfold buffered, vc_flits. destruct (wv_in V'), (wv_in V); cbn in Ei; try done. injection Ei as _ ->. done. }
  split; try done; try congruence.
  - destruct (wv_out V'), (wv_out V); cbn in Eo; try done. injection Eo as -> _. done.
  - destruct (wv_in V'), (wv_in V); cbn in Ei; try done. injection Ei as -> _. done.
  - destruct (wv_in V'), (wv_in V); cbn in Ei; try done. injection Ei as _ ->. done.
  - intros k Hk. destruct (wi_slot k Hk) as (H1 & H2 & H3 & H4). unfold slot_inv. rewrite Ht, Eb. split_and!; try done.
    + destruct (wv_out V'), (wv_out V); cbn in Eo; try done. injection Eo as _ ->. done.
    + destruct (wv_in V'), (wv_in V); cbn in Ei; try done. injection Ei as _ ->. done.
Qed.

(** What a link's wakeup does to its queue and its buffer, counted by VC. *)
Lemma link_step `{FlitLikeLaws F} cur (src : flitBuffer F) l src' l' evs (P Q : F -> Prop) : NetworkLink.wakeup cur src l = Ok (src', l', evs) ->
  (forall t f, P f -> get_time f <= cur -> Q (put_time t f)) -> Forall P (m_buffer src) -> Forall Q (in_flight l) ->
  link_data l' = link_data l /\ Forall P (m_buffer src') /\ Forall Q (in_flight l') /\
  forall k, nvc k (m_buffer src') + nvc k (in_flight l') = nvc k (m_buffer src) + nvc k (in_flight l).
Proof.
  intros Hw HP Ha Hb. assert (Hq : link_srcQueue l' = link_srcQueue l).
  { unfold NetworkLink.wakeup in Hw. destruct (FlitBuffer.isReady cur src); inv_ok; done. }
  destruct (wakeup_spec _ _ _ _ _ _ Hw) as [(-> & -> & _) | (f & _ & Ht & Hp & Hp' & _ & Hv & Hc & _)]; [done|].
  rewrite Hp in Ha. apply Forall_cons in Ha as [Hf Ha]. split_and!.
  - unfold link_data. by rewrite Hq, Hc, Hv.
  - done.
  - rewrite Hp'. constructor; [by apply HP | done].
  - intros k. rewrite Hp, Hp', !nvc_cons, get_vc_put. lia.
Qed.

Lemma queued_flying cur sk e t f : queued_ok m vn vp cur sk e f -> get_time f <= cur -> flying_ok m vn vp cur sk (put_time t f).
Proof.
  intros ([] & Hv & Ha) Ht. split; [by split|]. split; [done|]. unfold aged in *. cbn in *. destruct e, Ha; (lia || done).
Qed.

Lemma with_out_buffer_data b (out : option OutputUnit) : out_data <$> (with_m_out_buffer b <$> out) = out_data <$> out.
Proof. by destruct out. Qed.
Lemma with_credit_queue_data b (inp : option InputUnit) : in_data <$> (with_creditQueue b <$> inp) = in_data <$> inp.
Proof. by destruct inp. Qed.

(** ** Wakeups *)

(** The same wire with a moved flit. *)
Lemma net_link_ok cur g k : fabric_inv cur g -> 0 <= k < vsize (m_networklinks g) ->
  exists g' evs, net_link_wakeup cur k g = Ok (g', evs) /\ fabric_inv cur g' /\ frame g g' /\ packets g' ≡ₚ packets g.
Proof.
  intros Hg Hk. destruct (wr_nets _ _ _ _ (fb_wiring _ _ _ _ _ _ _ Hg) k Hk) as (w & Hw & <-).
  destruct (fb_wires _ _ _ _ _ _ _ Hg w Hw) as (V & HV & Hinv). pose proof (proj1 (view_Ok _ _ _) HV) as (V1 & V2 & V3 & V4).
  pose proof (wi_fly _ _ _ _ _ _ _ _ _ Hinv) as Hfly. pose proof (wi_queue _ _ _ _ _ _ _ _ _ Hinv) as Hque.
  destruct (wakeup_total cur (wv_queue V) (wv_net V)) as ([[src' l'] evs] & Hwk).
  { destruct (link_consumer (wv_net V)) eqn:E; [eauto|]. by destruct (wi_netc _ _ _ _ _ _ _ _ _ Hinv). }
  { intros f Hf. rewrite (wi_netl _ _ _ _ _ _ _ _ _ Hinv). 
    rewrite Forall_forall in Hque. by destruct (Hque f Hf) as (_ & ? & _). }
  destruct (link_step _ _ _ _ _ _ (queued_ok m vn vp cur (skel g) (w_src w)) (flying_ok m vn vp cur (skel g)) Hwk) as (Hd & Hq' & Hf' & Hn);
    [apply queued_flying | done | done|].
  pose proof (wi_home _ _ _ _ _ _ _ _ _ Hinv) as [Hh1 Hh2]%Forall_app.
  destruct (link_step _ _ _ _ _ _ (home_ok (skel g) w) (home_ok (skel g) w) Hwk) as (_ & Hh1' & Hh2' & _); [by intros | done | done|].
  destruct (set_flit_queue_ok (w_src w) (wv_queue V) src' (wv_out V) g V1) as (g1 & Hs & Hfr & R1 & R2 & E1 & E2 & Hfl).
  unfold net_link_wakeup. rewrite V2. cbn [mbind result_bind]. rewrite (wi_netq _ _ _ _ _ _ _ _ _ Hinv). cbn [null_queue mbind result_bind].
  rewrite (flit_queue_read _ _ _ _ V1). cbn [mbind result_bind]. rewrite Hwk. cbn [mbind result_bind]. rewrite Hs. cbn [mbind result_bind].
  rewrite E1, (vec_set_Ok_get _ _ _ _ V2). cbn [mbind result_bind]. eexists _, _. split; [done|].
  set (g' := with_m_networklinks _ g1).
  set (V' := mkView src' (with_m_out_buffer src' <$> wv_out V) l' (wv_credits V) (wv_in V) (wv_credit V)).
  assert (Hfr' : frame g g').
  { eapply frame_trans; [exact Hfr|]. split; try done; [cbn; by rewrite vsize_insert, E1 | eauto]. }
  split_and!; [|done|].
  - apply (fabric_touch m vn vp W T cur g g' w V' Hg Hw Hfr').
    + split.
      * intros e. exact (R1 e).
      * intros e. change (dst_read e g') with (dst_read e g1). rewrite R2. case_decide; [by subst|done].
      * intros j. cbn. case_decide as Hj; [subst; by apply (vec_get_insert _ _ _ _ V2)|]. apply vec_get_insert_ne; [lia|congruence].
      * intros j. cbn. rewrite E2. case_decide; [by subst|done].
    + apply (wire_inv_transit _ _ _ _ V); try done; [apply with_out_buffer_data | | apply Hinv | by apply Forall_app].
      intros j. unfold transit. cbn. specialize (Hn j). lia.
  - assert (Hl1 : vec_get (m_networklinks g1) (w_net w) = Ok (wv_net V)) by (by rewrite E1).
    pose proof (net_flits_link (w_net w) l' _ g1 Hl1) as H2. rewrite E1 in H2. fold g' in H2. unfold packets.
    destruct (wakeup_spec _ _ _ _ _ _ Hwk) as [(-> & -> & _) | (f & _ & _ & Hp & Hp' & _)].
    + apply Permutation_app_inv_l in H2. apply Permutation_app_inv_l in Hfl. by rewrite H2, Hfl.
    + rewrite Hp' in H2. rewrite Hp in Hfl. cbn in Hfl.
      assert (E : f :: net_flits g1 ≡ₚ net_flits g) by (apply (Permutation_app_inv_l (m_buffer src')); rewrite <- Hfl; solve_Permutation).
      assert (E' : net_flits g' ≡ₚ put_time (cyc_add cur (NetworkLink.m_latency (wv_net V))) f :: net_flits g1)
        by (apply (Permutation_app_inv_l (in_flight (wv_net V))); rewrite H2; solve_Permutation).
      rewrite E', <- E. done.
Qed.

(** The same wire with a moved credit. *)
Lemma credit_link_ok cur g k : fabric_inv cur g -> 0 <= k < vsize (m_creditlinks g) ->
  exists g' evs, credit_link_wakeup cur k g = Ok (g', evs) /\ fabric_inv cur g' /\ frame g g' /\ packets g' ≡ₚ packets g.
Proof.
  intros Hg Hk. destruct (wr_creds _ _ _ _ (fb_wiring _ _ _ _ _ _ _ Hg) k Hk) as (w & Hw & <-).
  destruct (fb_wires _ _ _ _ _ _ _ Hg w Hw) as (V & HV & Hinv). pose proof (proj1 (view_Ok _ _ _) HV) as (V1 & V2 & V3 & V4).
  pose proof (wi_cred _ _ _ _ _ _ _ _ _ Hinv) as Hcr. apply Forall_app in Hcr as [Hcr Hcl].
  destruct (wakeup_total cur (wv_credits V) (wv_credit V)) as ([[src' l'] evs] & Hwk).
  { destruct (link_consumer (wv_credit V)) eqn:E; [eauto|]. by destruct (wi_credc _ _ _ _ _ _ _ _ _ Hinv). }
  { intros c Hc. rewrite (wi_credl _ _ _ _ _ _ _ _ _ Hinv). rewrite Forall_forall in Hcr. by destruct (Hcr c Hc) as [_ ?]. }
  destruct (link_step _ _ _ _ _ _ (credit_ok vn vp) (credit_ok vn vp) Hwk) as (Hd & Hq' & Hc' & Hn); [done | done | done|].
  destruct (set_credit_queue_ok (w_dst w) (wv_credits V) src' (wv_in V) g V3) as (g1 & Hs & Hfr & R1 & R2 & E1 & E2 & Hfl).
  unfold credit_link_wakeup. rewrite V4. cbn [mbind result_bind]. rewrite (wi_credq _ _ _ _ _ _ _ _ _ Hinv). cbn [null_queue mbind result_bind].
  rewrite (credit_queue_read _ _ _ _ V3). cbn [mbind result_bind]. rewrite Hwk. cbn [mbind result_bind]. rewrite Hs. cbn [mbind result_bind].
  rewrite E2, (vec_set_Ok_get _ _ _ _ V4). cbn [mbind result_bind]. eexists _, _. split; [done|].
  set (g' := with_m_creditlinks _ g1).
  set (V' := mkView (wv_queue V) (wv_out V) (wv_net V) src' (with_creditQueue src' <$> wv_in V) l').
  assert (Hfr' : frame g g').
  { eapply frame_trans; [exact Hfr|]. split; try done; [cbn; by rewrite vsize_insert, E2 | eauto]. }
  split_and!; [|done|].
  - apply (fabric_touch m vn vp W T cur g g' w V' Hg Hw Hfr').
    + split.
      * intros e. change (src_read e g') with (src_read e g1). rewrite R2. case_decide; [by subst|done].
      * intros e. exact (R1 e).
      * intros j. cbn. rewrite E1. case_decide; [by subst|done].
      * intros j. cbn. case_decide as Hj; [subst; by apply (vec_get_insert _ _ _ _ V4)|]. apply vec_get_insert_ne; [lia|congruence].
    + apply (wire_inv_transit _ _ _ _ V); try done; [apply with_credit_queue_data | | apply Hinv | apply Hinv | by apply Forall_app | apply Hinv].
      intros j. unfold transit. cbn. specialize (Hn j). lia.
  - unfold packets. change (net_flits g') with (net_flits g1). by rewrite Hfl.
Qed.
End Links.
