(* ===== verification/FabricUnits.v ===== *)
(** * The wakeups of input and output units keep the fabric's invariant *)

From S2P Require Import Prelude Flit FlitBuffer NetDest Consumer Config RoutingUnit RoutingTable.
From S2P Require Import MeshRouting NetworkLink VirtualChannel OutVcState OutputUnit InputUnit RouterState SwitchAllocator.
From S2P Require Import SwitchTheory SwitchMoved SwitchCorrect RouterCycle BubblePath MessageBuffer NetStats NetworkInterface.
From S2P Require Import GarnetNetwork Bubble NetLens NetRouting BubbleInv BubbleMoves BubbleInter RouterWakeup Fabric.
From S2P Require Import FabricLinks.
Local Open Scope Z_scope.

Lemma consume_ready `{FlitLikeLaws F} cur (l : NetworkLink F) : NetworkLink.isReady cur l = true ->
  exists f l', consumeLink l = Ok (f, l') /\ in_flight l ≡ₚ f :: in_flight l' /\ link_data l' = link_data l.
Proof.
  intros Hr. unfold NetworkLink.isReady in Hr. apply isReady_spec in Hr as (f & Hf & _).
  destruct (getTopFlit_total (linkBuffer l)) as (f' & b & Hg); [unfold FlitBuffer.peekTopFlit in Hf; by destruct (m_buffer (linkBuffer l))|].
  exists f', (with_linkBuffer b l). split_and!; [unfold consumeLink; by rewrite Hg | | done]. by apply getTopFlit_Permutation.
Qed.

(** A token count that is positive is one. *)
Lemma nvc_pos `{FlitLike F} (l l' : list F) f k : l ≡ₚ f :: l' -> get_vc f = k -> nvc k l = nvc k l' + 1.
Proof. intros -> E. rewrite nvc_cons, decide_True by done. lia. Qed.
Lemma nvc_other `{FlitLike F} (l l' : list F) f k : l ≡ₚ f :: l' -> get_vc f <> k -> nvc k l = nvc k l'.
Proof. intros -> E. rewrite nvc_cons, decide_False by done. lia. Qed.

Lemma on_vc_Ok vc f iu v : vec_get (m_vcs iu) vc = Ok v -> on_vc vc f iu = Ok (with_m_vcs (<[Z.to_nat vc := f v]> (m_vcs iu)) iu).
Proof. intros Hv. apply on_vc_spec. eauto. Qed.

Section Units.
Context (m vn vp : Z) (W : list Wire) (T : Tally).

Abbreviation nv := (vn * vp).
Abbreviation fabric_inv := (fabric_inv m vn vp W T).
Abbreviation wire_inv := (wire_inv m vn vp T).
Abbreviation router_fixed := (router_fixed vn vp).
Abbreviation frame := (frame vn vp).

(** ** An output unit takes a credit *)

(** The output unit with VC [k] freed. *)
Definition credited (cur k : Z) (o : OutVcState) (ou : OutputUnit) : OutputUnit :=
  with_m_outvc_state (<[Z.to_nat k := freed cur o]> (m_outvc_state ou)) ou.

Lemma output_unit_wakeup cur (cl : NetworkLink Credit) ou c cl' o :
  NetworkLink.isReady cur cl = true -> consumeLink cl = Ok (c, cl') -> m_is_free_signal c = true ->
  vec_get (m_outvc_state ou) (c_vc c) = Ok o -> m_credit_count o < m_max_credit_count o ->
  OutputUnit.wakeup cur cl ou = Ok (cl', credited cur (c_vc c) o ou).
Proof.
  intros Hr Hc Hf Ho Hlt. unfold OutputUnit.wakeup. rewrite Hr, Hc. cbn [mbind result_bind]. unfold OutputUnit.increment_credit.
  rewrite (vec_update_Ok _ _ _ _ (with_m_credit_count (m_credit_count o + 1) o) Ho) by (by apply increment_credit_spec). cbn [mbind result_bind].
  rewrite Hf. unfold OutputUnit.set_vc_state. cbn [m_outvc_state with_m_outvc_state].
  rewrite (vec_modify_Ok _ _ _ _ (vec_get_insert _ _ _ _ Ho)). cbn [mbind result_bind]. unfold credited, with_m_outvc_state. cbn.
  by rewrite list_insert_insert_eq.
Qed.

(** The wire after the credit was T. *)
Lemma wire_credited cur sk bs w V ou c cl' x : wire_inv cur sk bs w V -> wv_out V = Some ou ->
  in_flight (wv_credit V) ≡ₚ c :: in_flight cl' -> link_data cl' = link_data (wv_credit V) ->
  vec_get (m_outvc_state ou) (c_vc c) = Ok x ->
  m_credit_count x < m_max_credit_count x /\ m_is_free_signal c = true /\
  wire_inv cur sk bs w (mkView (wv_queue V) (Some (credited cur (c_vc c) x ou)) (wv_net V) (wv_credits V) (wv_in V) cl').
Proof.
  intros Hinv Eout Hp Hd Ex. destruct Hinv. rewrite Hp in wi_cred. apply Forall_app in wi_cred as [Hcr1 Hcr2].
  apply Forall_cons in Hcr2 as [[Hfree Hk] Hcr2]. injection Hd as Eq Ec El. set (V' := mkView _ _ _ _ _ _).
  assert (Et : forall k, transit k V' = transit k V - (if decide (c_vc c = k) then 1 else 0)).
  { intros k. unfold transit. cbn. rewrite Hp, nvc_cons. cbn. case_decide; lia. }
  pose proof (transit_nonneg (c_vc c) V') as Hnn. rewrite Et, decide_True in Hnn by done. pose proof (buffered_nonneg (c_vc c) V).
  destruct (wi_slot (c_vc c) Hk) as (Hx & Htok & Hsnd & _). rewrite Eout, Ex in Hsnd. destruct Hsnd as (Hmax & Hcc & _).
  split_and!; [lia | done|]. split; try done; cbn [V' wv_out wv_in wv_queue wv_net wv_credits wv_credit].
  - by rewrite Eq.
  - by rewrite Ec.
  - by rewrite El.
  - by rewrite Eout in wi_outl.
  - by apply Forall_app.
  - intros k Hk'. destruct (wi_slot k Hk') as (S1 & S2 & S3 & S4). unfold slot_inv. rewrite Et. cbn [V' wv_out wv_in].
    change (buffered k V') with (buffered k V). rewrite Eout in S3. cbn [credited m_outvc_state with_m_outvc_state]. case_decide as Hc.
    + subst k. rewrite (vec_get_insert _ _ _ _ Ex). split_and!; [done | lia | | done]. unfold sender_ok, freed. cbn.
      rewrite (proj2 (Z.eqb_eq _ _)) by lia. split_and!; (done || lia).
    + rewrite Z.sub_0_r, vec_get_insert_ne by (lia || done). done.
Qed.

Lemma put_ou_id rid o ou g : get_ou rid o g = Ok ou -> put_ou rid o ou g = g.
Proof.
  intros (r & Hr & Ho)%get_ou_Ok. unfold put_ou. rewrite <- (alter_vec_set _ _ _ _ Hr). apply vec_get_Ok in Hr as [_ Hr].
  apply vec_get_Ok in Ho as [_ Ho]. rewrite (list_insert_id (m_output_unit r)) by done.
  assert (with_m_output_unit (m_output_unit r) r = r) as -> by (by destruct r). rewrite list_insert_id by done. by destruct g.
Qed.

(** Readers after the update of an output unit and its credit link. *)
Lemma touched_out g rid o ou ou' w V cl' : get_ou rid o g = Ok ou -> m_out_buffer ou' = m_out_buffer ou -> view w g = Ok V ->
  w_src w = EPort rid o -> wv_queue V = m_out_buffer ou ->
  touched w (mkView (wv_queue V) (Some ou') (wv_net V) (wv_credits V) (wv_in V) cl') g
    (put_ou rid o ou' (with_m_creditlinks (<[Z.to_nat (w_credit w) := cl']> (m_creditlinks g)) g)).
Proof.
  intros Ho Eb HV Es Eq. pose proof (proj1 (view_Ok _ _ _) HV) as (V1 & V2 & V3 & V4). pose proof (get_ou_range _ _ _ _ Ho) as [Hrid _].
  set (g1 := with_m_creditlinks _ g). assert (Ho1 : get_ou rid o g1 = Ok ou) by exact Ho. split.
  - intros [rid' o' | n']; cbn [src_read]; [|by rewrite decide_False by congruence].
    rewrite (get_ou_put_ou _ _ _ _ _ _ _ Ho1), Es. cbn [wv_queue wv_out]. rewrite Eq.
    do 2 case_decide; simplify_eq; (done || (exfalso; intuition congruence) || (cbn; by rewrite Eb)).
  - intros e. assert (Hde : dst_read e (put_ou rid o ou' g1) = dst_read e g).
    { destruct e; cbn [dst_read]; [|done]. by rewrite get_iu_put_ou by lia. }
    rewrite Hde. case_decide; [by subst | done].
  - intros j. cbn. case_decide; [by subst | done].
  - intros j. cbn. case_decide as Hj; [subst; by apply (vec_get_insert _ _ _ _ V4)|]. pose proof (vec_get_range _ _ _ V4).
    apply vec_get_insert_ne; [lia | congruence].
Qed.

Lemma output_wakeup_ok cur g rid o ou : fabric_inv cur g -> get_ou rid o g = Ok ou ->
  exists g', output_wakeup cur rid o g = Ok g' /\ fabric_inv cur g' /\ frame g g' /\ packets g' ≡ₚ packets g.
Proof.
  intros Hg Ho. destruct (out_wire _ _ _ _ _ _ _ Hg _ _ _ Ho) as (w & V & Hw & Es & HV & Eout & Eq & Hinv).
  pose proof (proj1 (view_Ok _ _ _) HV) as (V1 & V2 & V3 & V4). destruct (proj1 (get_ou_Ok _ _ _ _) Ho) as (r & Hr & Hor).
  pose proof (wi_outl _ _ _ _ _ _ _ _ _ Hinv) as Hl. rewrite Eout in Hl.
  unfold output_wakeup. rewrite Hr. cbn [mbind result_bind]. rewrite Hor. cbn [mbind result_bind]. rewrite Hl, V4. cbn [mbind result_bind].
  destruct (NetworkLink.isReady cur (wv_credit V)) eqn:Er.
  - destruct (consume_ready cur (wv_credit V) Er) as (c & cl' & Hc & Hp & Hd).
    assert (Hx : exists x, vec_get (m_outvc_state ou) (c_vc c) = Ok x).
    { apply vec_get_in_range. destruct (Forall_vec_get _ _ _ _ (rf_ous _ _ _ _ (fb_routers _ _ _ _ _ _ _ Hg _ _ Hr)) Hor) as [-> _].
      pose proof (wi_cred _ _ _ _ _ _ _ _ _ Hinv) as Hcr. rewrite Hp in Hcr. apply Forall_app in Hcr as [_ Hcr].
      by apply Forall_cons in Hcr as [[_ ?] _]. }
    destruct Hx as [x Ex]. destruct (wire_credited _ _ _ _ _ _ _ _ _ Hinv Eout Hp Hd Ex) as (Hlt & Hfree & Hinv').
    rewrite (output_unit_wakeup cur _ _ _ _ _ Er Hc Hfree Ex Hlt). cbn [mbind result_bind].
    rewrite (vec_set_Ok_get _ _ _ _ V4). cbn [mbind result_bind]. set (g1 := with_m_creditlinks _ g).
    set (ou' := credited cur (c_vc c) x ou) in *. assert (Ho1 : get_ou rid o g1 = Ok ou) by exact Ho.
    change (on_router rid (on_ou o (fun _ => Ok ou')) g1) with (on_net_ou rid o (fun _ => Ok ou') g1).
    rewrite (on_net_ou_Ok g1 rid o (fun _ => Ok ou') ou ou' Ho1 eq_refl). eexists. split; [done|].
    assert (Hfr : frame g (put_ou rid o ou' g1)).
    { eapply frame_trans; [|apply (frame_put_ou vn vp _ _ _ ou); [exact Ho1 | unfold ou_sk; cbn; by rewrite vsize_insert |
        unfold ou_dim; cbn; by rewrite vsize_insert]]. split; try done; [cbn; by rewrite vsize_insert | eauto]. }
    split_and!; [eapply (fabric_touch m vn vp W T cur g _ w _ Hg Hw Hfr); [by apply touched_out with (ou := ou) | done] | done|].
    unfold packets. pose proof (net_flits_put_ou rid o ou' ou g1 Ho1) as Hfl. apply Permutation_app_inv_l in Hfl. by rewrite Hfl.
  - unfold OutputUnit.wakeup. rewrite Er. cbn [mbind result_bind]. rewrite (vec_set_Ok_get _ _ _ _ V4). cbn [mbind result_bind].
    assert (E1 : with_m_creditlinks (<[Z.to_nat (w_credit w) := wv_credit V]> (m_creditlinks g)) g = g).
    { apply vec_get_Ok in V4 as [_ V4]. rewrite list_insert_id by done. by destruct g. }
    rewrite E1. change (on_router rid (on_ou o (fun _ => Ok ou)) g) with (on_net_ou rid o (fun _ => Ok ou) g).
    rewrite (on_net_ou_Ok g rid o (fun _ => Ok ou) ou ou Ho eq_refl), put_ou_id by done.
    exists g. split_and!; [done | done | apply frame_refl | done].
Qed.

(** ** An input unit takes a flit *)

(** The VC after the flit [t] arrived. *)
Definition arrived (cur outport : Z) (t : flit) (v : VirtualChannel) : VirtualChannel :=
  VirtualChannel.insertFlit t (VirtualChannel.set_outport outport (set_active cur v)).

Lemma route_ok_hops sk n route : route_ok m sk route -> route_ok m sk (with_hops_traversed n route).
Proof. by intros []. Qed.

Lemma fabric_vcs cur g : fabric_inv cur g -> vcs_ok g.
Proof.
  intros Hg rid i iu (r & Hr & Hi)%get_iu_Ok. pose proof (fb_routers _ _ _ _ _ _ _ Hg _ _ Hr) as Hf.
  destruct (Forall_vec_get _ _ _ _ (rf_ius _ _ _ _ Hf) Hi) as (E1 & E2 & _). rewrite E1, E2.
  destruct (rf_shape _ _ _ _ Hf) as [_ H1 H2 _]. cbn in H1, H2. nia.
Qed.

(** What a wakeup of the unit leaves alone, and the new VC. *)
Record unit_arrival (cur : Z) (sk : list RouterSk) (e : End) (t0 : flit) (v : VirtualChannel) (iu iu' : InputUnit) : Prop := {
  ar_vc : exists outport t, m_vcs iu' = <[Z.to_nat (Flit.m_vc t0) := arrived cur outport t v]> (m_vcs iu) /\
    packet_of t = packet_of t0 /\ packet_ok m vn sk t /\ leads_at sk e t;
  ar_credits : creditQueue iu' = creditQueue iu;
  ar_link : m_in_link iu' = m_in_link iu;
  ar_sk : iu_sk iu' = iu_sk iu;
  ar_dim : iu_dim vn vp iu -> iu_dim vn vp iu'
}.

Section Arrive.
Context (rand : nat -> Z) (cur : Z) (g : GarnetNetwork) (Hg : fabric_inv cur g) (rid : Z) (r : Router) (Hr : vec_get (m_routers g) rid = Ok r).

Lemma route_head_ok iu v t0 : vec_get (m_vcs iu) (Flit.m_vc t0) = Ok v -> get_state v = IDLE_ -> packet_ok m vn (skel g) t0 ->
  exists n outport t, route_head (route_compute rand cur rid)
      (fun outport g => r ← vec_get (m_routers g) rid; getOutportDirection outport r)
      (fun g => match vec_get (m_routers g) rid with Ok r => vsize (m_output_unit r) | Err _ => 0 end)
      cur (Flit.m_vc t0) (increment_hops t0) g iu =
    Ok (t, with_m_rand n g, with_m_vcs (<[Z.to_nat (Flit.m_vc t0) := VirtualChannel.set_outport outport (set_active cur v)]> (m_vcs iu)) iu) /\
    leads (r_sk r) (m_route t) outport /\ m_outport t = outport /\ packet_of t = packet_of t0 /\ packet_ok m vn (skel g) t.
Proof.
  intros Hv Hidle Hpk. pose proof (po_route _ _ _ _ Hpk) as Hro. destruct (route_compute_total rand cur m g (m_route (increment_hops t0)) rid (InputUnit.m_id iu)
    (InputUnit.m_direction iu) r (fb_mesh _ _ _ _ _ _ _ Hg) (fabric_vcs cur g Hg) (route_ok_hops _ _ _ Hro) Hr) as (outport & n & Hrc & Hlead).
  assert (Hrange : 0 <= outport < vsize (m_output_unit r)) by (destruct Hlead as [Hrange _]; cbn in Hrange; by rewrite vsize_map in Hrange).
  destruct (vec_get_in_range (m_output_unit r) outport Hrange) as [ou Hou].
  exists n, outport, (set_outport_dirn (OutputUnit.get_direction ou) (Flit.set_outport outport (increment_hops t0))).
  split; [|split; [exact Hlead | split_and!; [reflexivity | reflexivity | destruct Hpk; split; try done; by apply route_ok_hops]]].
  unfold route_head. rewrite Hv. cbn [mbind result_bind]. rewrite Hidle. cbn [mbind result_bind bool_decide decide assert_].
  unfold set_vc_active. rewrite (on_vc_Ok _ (set_active cur) iu v Hv). cbn [mbind result_bind].
  rewrite Hrc. cbn [mbind result_bind]. change (m_routers (with_m_rand n g)) with (m_routers g). rewrite Hr.
  pose proof (Z.mod_le outport (2 ^ 64) ltac:(lia) ltac:(lia)). rewrite (proj2 (Z.ltb_lt _ _)) by (unfold u64; lia).
  cbn [assert_ mbind result_bind]. unfold grant_outport.
  rewrite (on_vc_Ok _ (VirtualChannel.set_outport outport) _ (set_active cur v)) by (exact (vec_get_insert (m_vcs iu) _ _ _ Hv)). cbn [mbind result_bind].
  unfold getOutportDirection. rewrite Hou. cbn [mbind result_bind]. unfold with_m_vcs. cbn. by rewrite list_insert_insert_eq.
Qed.

Lemma input_unit_wakeup iu v t0 link link' : NetworkLink.isReady cur link = true -> consumeLink link = Ok (t0, link') ->
  0 <= Flit.m_vc t0 < nv -> vec_get (m_vcs iu) (Flit.m_vc t0) = Ok v -> get_state v = IDLE_ -> packet_ok m vn (skel g) t0 -> iu_dim vn vp iu ->
  0 < vn -> 0 < vp -> 1 <= RouterState.m_latency r ->
  exists n iu' evs, InputUnit.wakeup (route_compute rand cur rid)
      (fun outport g => r ← vec_get (m_routers g) rid; getOutportDirection outport r)
      (fun g => match vec_get (m_routers g) rid with Ok r => vsize (m_output_unit r) | Err _ => 0 end)
      (RouterState.m_id r) cur (RouterState.m_latency r) g link iu = Ok (with_m_rand n g, link', iu', evs) /\
    forall i, unit_arrival cur (skel g) (EPort rid i) t0 v iu iu'.
Proof.
  intros Hrdy Hc Hk Hv Hidle Hp (D1 & D2 & D3 & D4) Hvn Hvp Hlat.
  destruct (route_head_ok iu v t0 Hv Hidle Hp) as (n & outport & t & Hh & Hlead & Eo & Ep & Hpt).
  unfold InputUnit.wakeup. rewrite Hrdy, Hc. cbn [mbind result_bind].
  assert (Hhead : is_head (increment_hops t0) = true) by (unfold is_head; cbn; by rewrite (po_type _ _ _ _ Hp)). rewrite Hhead, Hh. cbn [mbind result_bind].
  set (iu1 := with_m_vcs _ iu).
  assert (Hst : exists t3 evs, (if RouterState.m_latency r =? 1 then Ok (advance_stage SA_ cur t, [])
      else assert_ (1 <? RouterState.m_latency r) ;; wait_time ← cyc_sub (RouterState.m_latency r) 1;
        Ok (advance_stage SA_ (cyc_add cur wait_time) t, [(CRouter (RouterState.m_id r), cyc_add cur wait_time)])) = Ok (t3, evs) /\
      exists s, t3 = advance_stage SA_ s t).
  { destruct (Z.eqb_spec (RouterState.m_latency r) 1); [eauto 10|]. rewrite (proj2 (Z.ltb_lt _ _)) by lia.
    unfold cyc_sub. rewrite (proj2 (Z.leb_le _ _)) by lia. cbn [assert_ mbind result_bind]. eauto 10. }
  destruct Hst as (t3 & evs & -> & s & ->). cbn [mbind result_bind]. unfold InputUnit.insertFlit.
  rewrite (on_vc_Ok _ (VirtualChannel.insertFlit _) iu1 (VirtualChannel.set_outport outport (set_active cur v)))
    by (exact (vec_get_insert (m_vcs iu) _ _ _ Hv)). cbn [mbind result_bind].
  destruct (Z.eqb_spec (InputUnit.m_vc_per_vnet iu) 0); [lia|]. rewrite D2.
  assert (Hvnet : 0 <= Flit.m_vc t0 `quot` vp < vn).
  { rewrite Z.quot_div_nonneg by lia. split; [apply Z.div_pos; lia | apply Z.div_lt_upper_bound; lia]. }
  destruct (vec_get_in_range (m_num_buffer_writes iu) (Flit.m_vc t0 `quot` vp)) as [nw Hnw]; [lia|].
  destruct (vec_get_in_range (m_num_buffer_reads iu) (Flit.m_vc t0 `quot` vp)) as [nr Hnr]; [lia|].
  cbn [m_num_buffer_writes m_num_buffer_reads with_m_vcs iu1]. rewrite (vec_modify_Ok _ _ _ _ Hnw). cbn [mbind result_bind].
  rewrite (vec_modify_Ok _ _ _ _ Hnr). cbn [mbind result_bind]. eexists n, _, evs. split; [done|]. intros i. split; try done.
  - exists outport, (advance_stage SA_ s t). split_and!; [cbn; by rewrite list_insert_insert_eq | done | destruct Hpt; by split |].
    intros row Hrow. rewrite (skel_row _ _ _ Hr) in Hrow. apply Ok_inj in Hrow as <-. cbn. by rewrite Eo.
  - intros _. unfold iu_dim. cbn. by rewrite !vsize_insert.
Qed.
End Arrive.

(** The wire after the flit arrived. *)
Lemma wire_arrived cur sk bs w V iu t0 nl' v : wire_inv cur sk bs w V -> wv_in V = Some iu ->
  in_flight (wv_net V) ≡ₚ t0 :: in_flight nl' -> link_data nl' = link_data (wv_net V) -> vec_get (m_vcs iu) (Flit.m_vc t0) = Ok v ->
  get_state v = IDLE_ /\ VirtualChannel.flits v = [] /\ flying_ok m vn vp cur sk t0 /\
  forall iu', unit_arrival cur sk (w_dst w) t0 v iu iu' ->
    wire_inv cur sk bs w (mkView (wv_queue V) (wv_out V) nl' (wv_credits V) (Some iu') (wv_credit V)).
Proof.
  intros Hinv Ein Hp Hd Hv. destruct Hinv. rewrite Hp in wi_fly.
  apply Forall_cons in wi_fly as [(Hpk & Hk & Hage) Hf2]. injection Hd as Eq Ec El. rewrite Ein in wi_inl, wi_wait.
  assert (Hn : 1 <= transit (Flit.m_vc t0) V).
  { unfold transit. rewrite Hp, nvc_cons, decide_True by done. pose proof (nvc_nonneg (Flit.m_vc t0) (in_flight nl')).
    pose proof (nvc_nonneg (Flit.m_vc t0) (m_buffer (wv_queue V))). pose proof (nvc_nonneg (Flit.m_vc t0) (m_buffer (wv_credits V))).
    pose proof (nvc_nonneg (Flit.m_vc t0) (in_flight (wv_credit V))). lia. }
  destruct (wi_slot _ Hk) as (Hx & Htok & _ & Hrec). rewrite Ein, Hv in Hrec. pose proof (buffered_nonneg (Flit.m_vc t0) V).
  assert (Hb0 : vsize (VirtualChannel.flits v) = 0) by (unfold buffered, vc_flits in *; rewrite Ein, Hv in *; lia).
  assert (Hfl : VirtualChannel.flits v = []) by (apply nil_length_inv; unfold vsize in *; lia).
  destruct Hrec as [Hst Htm]. rewrite (proj2 (Z.eqb_eq _ _)) in Hst by lia. split_and!; [done | done | done|].
  intros iu' [(outport & t & Evcs & Ep & Hpt & Hor) Ecr Elk _ _]. set (V' := mkView _ _ _ _ _ _).
  assert (Et : forall k, transit k V' = transit k V - (if decide (Flit.m_vc t0 = k) then 1 else 0)).
  { intros k. unfold transit. cbn. rewrite Hp, nvc_cons. cbn. case_decide; lia. }
  assert (Efl : VirtualChannel.flits (arrived cur outport t v) ≡ₚ [t]).
  { change (VirtualChannel.flits (arrived cur outport t v)) with (m_buffer (insert t (m_input_buffer v))).
    rewrite insert_Permutation. change (m_buffer (m_input_buffer v)) with (VirtualChannel.flits v). by rewrite Hfl. }
  assert (Eb : forall k, buffered k V' = buffered k V + (if decide (Flit.m_vc t0 = k) then 1 else 0)).
  { intros k. unfold buffered, vc_flits. cbn [V' wv_in]. rewrite Ein, Evcs. case_decide as Hc.
    - subst k. rewrite (vec_get_insert _ _ _ _ Hv), Hv, Hfl. unfold vsize. by rewrite Efl.
    - rewrite vec_get_insert_ne by (lia || done). lia. }
  split; try done; cbn [V' wv_out wv_in wv_queue wv_net wv_credits wv_credit].
  - by rewrite Eq.
  - by rewrite Ec.
  - by rewrite El.
  - by rewrite Elk.
  - rewrite Evcs. apply Forall_insert; [done|]. pose proof (Forall_vec_get _ _ _ _ wi_wait Hv) as [Ho _]. split; [done|]. rewrite Efl.
    constructor; [|done]. split; [done|]. split; [|done]. apply (f_equal Flit.m_enqueue_time) in Ep. cbn in Ep. unfold aged. by rewrite Ep.
  - rewrite Hp in wi_home. apply Forall_app in wi_home as [Hh1 [_ Hh2]%Forall_cons]. by apply Forall_app.
  - intros k Hk'. destruct (wi_slot k Hk') as (S1 & S2 & S3 & S4). unfold slot_inv. cbn [V' wv_out wv_in]. rewrite Et, Eb.
    replace (transit k V - (if decide (Flit.m_vc t0 = k) then 1 else 0) + (buffered k V + (if decide (Flit.m_vc t0 = k) then 1 else 0)))
      with (transit k V + buffered k V) by lia.
    split_and!; [done | done | done|]. rewrite Ein in S4. rewrite Evcs. case_decide as Hc.
    + subst k. rewrite (vec_get_insert _ _ _ _ Hv). unfold receiver_ok, arrived. cbn. rewrite (proj2 (Z.eqb_neq _ _)) by lia. split; [done | lia].
    + rewrite vec_get_insert_ne by (lia || done). by rewrite Z.add_0_r.
Qed.

(** ** Wakeup requests *)

Definition sched (rid : Z) (evs : list Event) (g : GarnetNetwork) : GarnetNetwork :=
  with_m_routers (alter (schedule evs) (Z.to_nat rid) (m_routers g)) g.

Lemma sched_units rid evs g : 0 <= rid -> same_units g (sched rid evs g).
Proof. intros H. by apply same_units_router. Qed.

Lemma frame_sched rid evs g : 0 <= rid -> frame g (sched rid evs g).
Proof.
  intros H0. split; try done; [apply (sched_units rid evs g H0)|]. intros rid1 r' Hr'. cbn in Hr'. rewrite vec_get_alter in Hr' by done.
  destruct (vec_get (m_routers g) rid1) as [r1|] eqn:E; [|done]. cbn in Hr'. apply Ok_inj in Hr' as <-. exists r1. split; [done|].
  intros Hf. case_decide; [|done]. by apply (router_fixed_units vn vp _ r1); try done; apply Hf.
Qed.

Lemma sched_flits rid evs g : net_flits (sched rid evs g) = net_flits g.
Proof. unfold net_flits, sched. cbn. f_equal. f_equal. by apply map_alter_id. Qed.

Lemma on_router_sched rid i iu iu' evs g : get_iu rid i g = Ok iu ->
  on_router rid (fun r => r' ← on_iu i (fun _ => Ok iu') r; Ok (schedule evs r')) g = Ok (sched rid evs (put_iu rid i iu' g)).
Proof.
  intros (r & Hr & Hi)%get_iu_Ok. erewrite on_router_Ok; [|exact Hr | unfold on_iu; by rewrite (vec_update_Ok _ _ _ _ iu' Hi eq_refl)].
  unfold sched, put_iu. cbn [m_routers with_m_routers]. rewrite <- (alter_vec_set _ _ _ _ Hr). f_equal.
  rewrite <- (alter_vec_set (schedule evs) _ _ _ (vec_get_insert _ _ _ _ Hr)). by rewrite list_insert_insert_eq.
Qed.

Lemma touched_in g rid i iu iu' n evs w V nl' : get_iu rid i g = Ok iu -> creditQueue iu' = creditQueue iu -> view w g = Ok V ->
  w_dst w = EPort rid i -> wv_credits V = creditQueue iu ->
  touched w (mkView (wv_queue V) (wv_out V) nl' (wv_credits V) (Some iu') (wv_credit V)) g
    (sched rid evs (put_iu rid i iu' (with_m_networklinks (<[Z.to_nat (w_net w) := nl']> (m_networklinks g)) (with_m_rand n g)))).
Proof.
  intros Hi Eb HV Es Eq. pose proof (proj1 (view_Ok _ _ _) HV) as (V1 & V2 & V3 & V4). pose proof (get_iu_range _ _ _ _ Hi) as [Hrid _].
  set (g1 := with_m_networklinks _ _). assert (Hi1 : get_iu rid i g1 = Ok iu) by exact Hi.
  pose proof (sched_units rid evs (put_iu rid i iu' g1) ltac:(lia)) as Hsu. split.
  - intros e. assert (Hde : src_read e (sched rid evs (put_iu rid i iu' g1)) = src_read e g).
    { destruct e; cbn [src_read]; [|done]. rewrite (su_ou _ _ Hsu). by rewrite get_ou_put_iu by lia. }
    rewrite Hde. case_decide; [by subst | done].
  - intros [rid' o' | n']; cbn [dst_read]; [|by rewrite decide_False by congruence].
    rewrite (su_iu _ _ Hsu), (get_iu_put_iu _ _ _ _ _ _ _ Hi1), Es. cbn [wv_credits wv_in]. rewrite Eq.
    do 2 case_decide; simplify_eq; (done || (exfalso; intuition congruence) || (cbn; by rewrite Eb)).
  - intros j. cbn. case_decide as Hj; [subst; by apply (vec_get_insert _ _ _ _ V2)|]. pose proof (vec_get_range _ _ _ V2).
    apply vec_get_insert_ne; [lia | congruence].
  - intros j. cbn. case_decide; [by subst | done].
Qed.

Lemma put_iu_id rid i iu g : get_iu rid i g = Ok iu -> put_iu rid i iu g = g.
Proof.
  intros (r & Hr & Ho)%get_iu_Ok. unfold put_iu. rewrite <- (alter_vec_set _ _ _ _ Hr). apply vec_get_Ok in Hr as [_ Hr].
  apply vec_get_Ok in Ho as [_ Ho]. rewrite (list_insert_id (m_input_unit r)) by done.
  assert (with_m_input_unit (m_input_unit r) r = r) as -> by (by destruct r). rewrite list_insert_id by done. by destruct g.
Qed.

(** The flits after a flit left the link [nl] for a VC of the unit. *)
Lemma arrival_packets cur g rid i iu iu' n evs k nl nl' t0 v e : get_iu rid i g = Ok iu -> vec_get (m_networklinks g) k = Ok nl ->
  in_flight nl ≡ₚ t0 :: in_flight nl' -> vec_get (m_vcs iu) (Flit.m_vc t0) = Ok v -> unit_arrival cur (skel g) e t0 v iu iu' ->
  packets (sched rid evs (put_iu rid i iu' (with_m_networklinks (<[Z.to_nat k := nl']> (m_networklinks g)) (with_m_rand n g)))) ≡ₚ packets g.
Proof.
  intros Hi Hl Hp Hv [(outport & t & Evcs & Ep & _) _ _ _ _]. unfold packets. rewrite sched_flits. set (g1 := with_m_networklinks _ _).
  pose proof (net_flits_put_iu rid i iu' iu g1 Hi) as H1. pose proof (net_flits_link k nl' nl (with_m_rand n g) Hl) as H2. fold g1 in H2.
  change (net_flits (with_m_rand n g)) with (net_flits g) in H2. rewrite Hp in H2.
  assert (H3 : InputUnit.flits iu' ≡ₚ t :: InputUnit.flits iu).
  { unfold InputUnit.flits. rewrite Evcs. pose proof (concat_map_vec_insert VirtualChannel.flits _ _ _ (arrived cur outport t v) Hv) as H4.
    change (VirtualChannel.flits (arrived cur outport t v)) with (m_buffer (insert t (m_input_buffer v))) in H4.
    rewrite insert_Permutation in H4. change (m_buffer (m_input_buffer v)) with (VirtualChannel.flits v) in H4.
    apply (Permutation_app_inv_l (VirtualChannel.flits v)). rewrite H4. solve_Permutation. }
  rewrite H3 in H1. assert (E1 : net_flits (put_iu rid i iu' g1) ≡ₚ t :: net_flits g1)
    by (apply (Permutation_app_inv_l (InputUnit.flits iu)); rewrite H1; solve_Permutation).
  assert (E2 : t0 :: net_flits g1 ≡ₚ net_flits g) by (apply (Permutation_app_inv_l (in_flight nl')); rewrite <- H2; solve_Permutation).
  rewrite E1, <- E2. cbn. by rewrite Ep.
Qed.

Lemma input_wakeup_ok rand cur g rid i iu : fabric_inv cur g -> get_iu rid i g = Ok iu ->
  exists g', input_wakeup rand cur rid i g = Ok g' /\ fabric_inv cur g' /\ frame g g' /\ packets g' ≡ₚ packets g.
Proof.
  intros Hg Hi. destruct (in_wire _ _ _ _ _ _ _ Hg _ _ _ Hi) as (w & V & Hw & Es & HV & Ein & Eq & Hinv).
  pose proof (proj1 (view_Ok _ _ _) HV) as (V1 & V2 & V3 & V4). destruct (proj1 (get_iu_Ok _ _ _ _) Hi) as (r & Hr & Hir).
  pose proof (get_iu_range _ _ _ _ Hi) as [Hrid _]. pose proof (fb_routers _ _ _ _ _ _ _ Hg _ _ Hr) as Hrf.
  pose proof (wi_inl _ _ _ _ _ _ _ _ _ Hinv) as Hl. rewrite Ein in Hl.
  unfold input_wakeup. rewrite Hr. cbn [mbind result_bind]. rewrite Hir. cbn [mbind result_bind]. rewrite Hl, V2. cbn [mbind result_bind].
  destruct (NetworkLink.isReady cur (wv_net V)) eqn:Er.
  - destruct (consume_ready cur (wv_net V) Er) as (t0 & nl' & Hc & Hp & Hd).
    pose proof (Forall_vec_get _ _ _ _ (rf_ius _ _ _ _ Hrf) Hir) as Hdim.
    assert (Hx : exists v, vec_get (m_vcs iu) (Flit.m_vc t0) = Ok v).
    { apply vec_get_in_range. destruct Hdim as [-> _]. pose proof (wi_fly _ _ _ _ _ _ _ _ _ Hinv) as Hf. rewrite Hp in Hf.
      by apply Forall_cons in Hf as [(_ & ? & _) _]. }
    destruct Hx as [v Hv]. destruct (wire_arrived _ _ _ _ _ _ _ _ _ Hinv Ein Hp Hd Hv) as (Hidle & _ & (Hpk & Hk & _) & Hnew).
    destruct (input_unit_wakeup rand cur g Hg rid r Hr iu v t0 (wv_net V) nl' Er Hc Hk Hv Hidle Hpk Hdim
      (shape_vn _ _ (rf_shape _ _ _ _ Hrf)) (shape_vp _ _ (rf_shape _ _ _ _ Hrf)) (rf_latency _ _ _ _ Hrf)) as (n & iu' & evs & -> & Har).
    cbn [mbind result_bind]. change (m_networklinks (with_m_rand n g)) with (m_networklinks g). rewrite (vec_set_Ok_get _ _ _ _ V2). cbn [mbind result_bind].
    set (g1 := with_m_networklinks _ _). assert (Hi1 : get_iu rid i g1 = Ok iu) by exact Hi. rewrite (on_router_sched _ _ iu) by done.
    eexists. split; [done|]. assert (Hfr : frame g (sched rid evs (put_iu rid i iu' g1))).
    { eapply frame_trans; [|apply frame_sched; lia]. eapply frame_trans; [|apply (frame_put_iu vn vp _ _ _ iu); [exact Hi1 | apply (Har i) | apply (Har i)]].
      split; try done; [cbn; by rewrite vsize_insert | eauto]. }
    split_and!; [| done | by eapply arrival_packets, (Har i)].
    eapply (fabric_touch m vn vp W T cur g _ w _ Hg Hw Hfr); [apply touched_in with (iu := iu); try done; apply (Har i)|]. apply Hnew. by rewrite Es.
  - unfold InputUnit.wakeup. rewrite Er. cbn [mbind result_bind]. rewrite (vec_set_Ok_get _ _ _ _ V2). cbn [mbind result_bind].
    assert (E1 : with_m_networklinks (<[Z.to_nat (w_net w) := wv_net V]> (m_networklinks g)) g = g).
    { apply vec_get_Ok in V2 as [_ V2]. rewrite list_insert_id by done. by destruct g. }
    rewrite E1, (on_router_sched _ _ iu), put_iu_id by done.
    assert (E2 : sched rid [] g = g).
    { unfold sched. rewrite <- (alter_vec_set _ _ _ _ Hr). assert (schedule [] r = r) as -> by (unfold schedule; rewrite app_nil_r; by destruct r).
      apply vec_get_Ok in Hr as [_ Hr]. rewrite list_insert_id by done. by destruct g. }
    rewrite E2. exists g. split_and!; [done | done | apply frame_refl | done].
Qed.
End Units.
