(* ===== verification/FabricSwitch.v ===== *)
(** * The switch keeps the fabric's invariant

    Switch allocation and traversal move flits from the VCs of a router to its output queues and credits to its
    credit queues; all wires at the router change at once.  [switch_ok] is the step of the fabric. *)

From S2P Require Import Prelude Flit FlitBuffer NetDest Consumer Config RoutingUnit RoutingTable.
From S2P Require Import MeshRouting NetworkLink VirtualChannel OutVcState OutputUnit InputUnit RouterState SwitchAllocator.
From S2P Require Import CrossbarSwitch SwitchTheory SwitchMoved SwitchCorrect RouterCycle BubblePath MessageBuffer NetStats.
From S2P Require Import NetworkInterface GarnetNetwork Bubble NetLens NetRouting BubbleInv BubbleMoves BubbleInter.
From S2P Require Import RouterWakeup Fabric FabricLinks.
Local Open Scope Z_scope.

Lemma map_vec_eq {A B} (f : A -> B) (l l' : list A) : vsize l' = vsize l ->
  (forall i a a', vec_get l i = Ok a -> vec_get l' i = Ok a' -> f a' = f a) -> map f l' = map f l.
Proof.
  intros Hs Hf. change (map f ?x) with (f <$> x). apply list_eq. intros j. rewrite !list_lookup_fmap.
  destruct (l !! j) as [a|] eqn:Ha, (l' !! j) as [a'|] eqn:Ha'; cbn; try done.
  - f_equal. apply (Hf (Z.of_nat j)); apply vec_get_Ok; (split; [lia | by rewrite Nat2Z.id]).
  - apply lookup_lt_Some in Ha. apply lookup_ge_None in Ha'. unfold vsize in Hs. lia.
  - apply lookup_lt_Some in Ha'. apply lookup_ge_None in Ha. unfold vsize in Hs. lia.
Qed.

Lemma ident_packet m vn cur sk f f0 : ident f = ident f0 -> packet_ok m vn sk f0 /\ aged cur f0 -> packet_ok m vn sk f /\ aged cur f.
Proof.
  intros E [[] Ha]. apply (f_equal (fun f => (Flit.m_type f, Flit.m_vnet f, m_marked f, m_msg_ptr f, Flit.m_enqueue_time f, m_route f))) in E.
  cbn in E. injection E as E1 E2 E3 E4 E5 E6. split; [|unfold aged in *; lia]. split; [congruence.. | by rewrite E6].
Qed.

Lemma ident_packets l l0 : map ident l ≡ₚ map ident l0 -> map packet_of l ≡ₚ map packet_of l0.
Proof.
  intros H. assert (E : forall l, map packet_of l = map (fun f => with_m_route (with_hops_traversed 0 (m_route f)) f) (map ident l)).
  { intros l1. rewrite map_map. done. }
  by rewrite !E, H.
Qed.

Section Switch.
Context (m vn vp : Z) (W : list Wire) (T : Tally).

Abbreviation nv := (vn * vp).
Abbreviation fabric_inv := (fabric_inv m vn vp W T).
Abbreviation wire_inv := (wire_inv m vn vp T).
Abbreviation router_fixed := (router_fixed vn vp).
Abbreviation frame := (frame vn vp).

(** ** The ends of a wire *)

(** The sender took an idle VC and queued a flit for it, or did nothing, VC by VC. *)
Record src_moved (cur : Z) (sk : list RouterSk) (w : Wire) (q q' : flitBuffer flit) (out out' : option OutputUnit) : Prop := {
  sv_link : OutputUnit.m_credit_link <$> out' = OutputUnit.m_credit_link <$> out;
  sv_slot : forall k, 0 <= k < nv ->
    (nvc k (m_buffer q') = nvc k (m_buffer q) /\
     (fun ou => vec_get (m_outvc_state ou) k) <$> out' = (fun ou => vec_get (m_outvc_state ou) k) <$> out) \/
    (exists ou ou' x, out = Some ou /\ out' = Some ou' /\ vec_get (m_outvc_state ou) k = Ok x /\ isInState IDLE_ cur x = true /\
      vec_get (m_outvc_state ou') k = Ok (sent_outvc cur x) /\ nvc k (m_buffer q') = nvc k (m_buffer q) + 1);
  sv_fly : forall e, Forall (queued_ok m vn vp cur sk e) (m_buffer q) -> Forall (queued_ok m vn vp cur sk e) (m_buffer q');
  sv_home : Forall (home_ok sk w) (m_buffer q) -> Forall (home_ok sk w) (m_buffer q')
}.

(** The receiver let the flit of a VC go and queued a credit for it, or did nothing, VC by VC. *)
Record dst_moved (cur : Z) (sk : list RouterSk) (e : End) (c c' : flitBuffer Credit) (inp inp' : option InputUnit) : Prop := {
  dv_link : m_in_link <$> inp' = m_in_link <$> inp;
  dv_slot : forall k, 0 <= k < nv ->
    (nvc k (m_buffer c') = nvc k (m_buffer c) /\
     (fun iu => vec_get (m_vcs iu) k) <$> inp' = (fun iu => vec_get (m_vcs iu) k) <$> inp) \/
    (exists iu iu' v f, inp = Some iu /\ inp' = Some iu' /\ vec_get (m_vcs iu) k = Ok v /\ VirtualChannel.flits v = [f] /\
      vec_get (m_vcs iu') k = Ok (sent_vc cur v) /\ nvc k (m_buffer c') = nvc k (m_buffer c) + 1);
  dv_wait : match inp with Some iu => Forall (waiting_ok m vn cur sk e) (m_vcs iu) | None => True end ->
    match inp' with Some iu => Forall (waiting_ok m vn cur sk e) (m_vcs iu) | None => True end;
  dv_cred : Forall (credit_ok vn vp) (m_buffer c) -> Forall (credit_ok vn vp) (m_buffer c')
}.

Lemma src_moved_refl cur sk w q out : src_moved cur sk w q q out out.
Proof. split; auto. Qed.
Lemma dst_moved_refl cur sk e c inp : dst_moved cur sk e c c inp inp.
Proof. split; auto. Qed.

(** Both ends of VC [k] at once. *)
Lemma slot_moved cur sk w e k x y V q' out' c' inp' : 0 <= k < nv -> slot_inv cur k x y V ->
  src_moved cur sk w (wv_queue V) q' (wv_out V) out' -> dst_moved cur sk e (wv_credits V) c' (wv_in V) inp' ->
  slot_inv cur k x y (mkView q' out' (wv_net V) c' inp' (wv_credit V)).
Proof.
  intros Hk (Hx & Ht & Hs & Hr) Hsm Hdm. set (V' := mkView _ _ _ _ _ _).
  assert (Hd : exists d, buffered k V' = buffered k V - d /\ nvc k (m_buffer c') = nvc k (m_buffer (wv_credits V)) + d /\
    match inp' with Some iu => match vec_get (m_vcs iu) k with Ok v => receiver_ok cur (buffered k V - d + x) v | Err _ => False end | None => True end).
  { unfold buffered, vc_flits in *. cbn [wv_in V']. destruct (dv_slot _ _ _ _ _ _ _ Hdm k Hk) as [[Ec Ev] | (iu & iu' & v & f & E1 & -> & Hv & Hf & Hv' & Ec)].
    - exists 0. destruct (wv_in V) as [iu|], inp' as [iu'|]; cbn in Ev; try discriminate Ev; [|split_and!; (done || lia)].
      injection Ev as ->. split_and!; [lia | lia|]. by rewrite Z.sub_0_r.
    - exists 1. rewrite E1 in *. rewrite Hv in *. rewrite Hv'. rewrite Hf in *. pose proof (transit_nonneg k V).
      change (vsize [f]) with 1 in *. split_and!; [done | done|]. split; [|cbn; lia]. cbn. rewrite (proj2 (Z.eqb_eq _ _)) by lia. done. }
  destruct Hd as (d & Eb & Ec & Hrec). pose proof (buffered_nonneg k V). pose proof (buffered_nonneg k V'). pose proof (transit_nonneg k V).
  assert (Et : transit k V' = transit k V + (nvc k (m_buffer q') - nvc k (m_buffer (wv_queue V))) + d).
  { unfold transit. cbn. lia. }
  unfold slot_inv. cbn [wv_out wv_in V']. rewrite Eb, Et.
  destruct (sv_slot _ _ _ _ _ _ _ Hsm k Hk) as [[Eq Ev] | (ou & ou' & o & E1 & -> & Hy & Hid & Hy' & Eq)].
  - split_and!; [done | lia | | done]. destruct (wv_out V) as [ou|], out' as [ou'|]; cbn in Ev; try done; [|lia]. injection Ev as ->.
    destruct (vec_get _ k); [|done]. rewrite Eq. by replace (transit k V + (_ - _) + d + (buffered k V - d) + x) with (transit k V + buffered k V + x) by lia.
  - rewrite E1, Hy in Hs. destruct Hs as (S1 & S2 & S3 & S4). unfold isInState in Hid. apply andb_true_iff in Hid as [Hid%bool_decide_eq_true _].
    rewrite Hid in S3. destruct (Z.eqb_spec (transit k V + buffered k V + x) 0) as [E0|]; [|done]. rewrite Hy'.
    split_and!; [done | lia | | done]. rewrite Eq. split_and!; cbn; [lia | lia | | lia]. by rewrite (proj2 (Z.eqb_neq _ _)) by lia.
Qed.

Lemma wire_moved cur sk bs w V q' out' c' inp' : wire_inv cur sk bs w V ->
  src_moved cur sk w (wv_queue V) q' (wv_out V) out' -> dst_moved cur sk (w_dst w) (wv_credits V) c' (wv_in V) inp' ->
  wire_inv cur sk bs w (mkView q' out' (wv_net V) c' inp' (wv_credit V)).
Proof.
  intros [] Hsm Hdm. split; try done; cbn [wv_out wv_in wv_queue wv_net wv_credits wv_credit].
  - pose proof (sv_link _ _ _ _ _ _ _ Hsm) as E. destruct out', (wv_out V); cbn in E; try done. injection E as ->. done.
  - pose proof (dv_link _ _ _ _ _ _ _ Hdm) as E. destruct inp', (wv_in V); cbn in E; try done. injection E as ->. done.
  - by apply (sv_fly _ _ _ _ _ _ _ Hsm).
  - apply Forall_app in wi_cred as [H1 H2]. apply Forall_app. split; [by apply (dv_cred _ _ _ _ _ _ _ Hdm) | done].
  - by apply (dv_wait _ _ _ _ _ _ _ Hdm).
  - apply Forall_app in wi_home as [H1 H2]. apply Forall_app. split; [by apply (sv_home _ _ _ _ _ _ _ Hsm) | done].
  - intros k Hk. eapply slot_moved; eauto.
Qed.

(** ** The flits of a router *)

Lemma iu_packet cur sk e iu f : Forall (waiting_ok m vn cur sk e) (m_vcs iu) -> f ∈ InputUnit.flits iu -> packet_ok m vn sk f /\ aged cur f /\ leads_at sk e f.
Proof.
  intros Hw (v & Hv & Hf)%elem_of_concat_map. rewrite Forall_forall in Hw. destruct (Hw v Hv) as [_ Hall]. rewrite Forall_forall in Hall.
  by apply Hall.
Qed.

(** The flits in the VCs of a router ask for ports that lead to where they go. *)
Lemma router_leads cur g rid r f : fabric_inv cur g -> vec_get (m_routers g) rid = Ok r -> f ∈ input_flits r -> leads (r_sk r) (m_route f) (m_outport f).
Proof.
  intros Hg Hr (u & [i Hi]%elem_of_vec & Hf)%elem_of_concat_map.
  destruct (in_wire _ _ _ _ _ _ _ Hg rid i u) as (w & V & _ & Ed & _ & Ein & _ & Hinv); [apply get_iu_Ok; eauto|].
  pose proof (wi_wait _ _ _ _ _ _ _ _ _ Hinv) as Hw. rewrite Ein, Ed in Hw. destruct (iu_packet _ _ _ _ _ Hw Hf) as (_ & _ & Hl).
  by apply Hl, skel_row.
Qed.

Lemma router_packets cur g rid r f : fabric_inv cur g -> vec_get (m_routers g) rid = Ok r -> f ∈ router_flits r ->
  packet_ok m vn (skel g) f /\ aged cur f.
Proof.
  intros Hg Hr [Hf | Hf]%elem_of_app; apply elem_of_concat_map in Hf as (u & Hu & Hf); apply list_elem_of_lookup in Hu as [n Hn];
    assert (Hi : vec_get _ (Z.of_nat n) = Ok u) by (apply vec_get_Ok; split; [lia | rewrite Nat2Z.id; exact Hn]).
  - destruct (in_wire _ _ _ _ _ _ _ Hg rid (Z.of_nat n) u) as (w & V & _ & _ & _ & Ein & _ & Hinv); [apply get_iu_Ok; eauto|].
    pose proof (wi_wait _ _ _ _ _ _ _ _ _ Hinv) as Hw. rewrite Ein in Hw. by destruct (iu_packet _ _ _ _ _ Hw Hf) as (? & ? & _).
  - destruct (out_wire _ _ _ _ _ _ _ Hg rid (Z.of_nat n) u) as (w & V & _ & Es & _ & _ & Eq & Hinv); [apply get_ou_Ok; eauto|].
    pose proof (wi_queue _ _ _ _ _ _ _ _ _ Hinv) as Hw. rewrite Eq, Es in Hw. rewrite Forall_forall in Hw.
    destruct (Hw f Hf) as (? & _ & [?|[]]). done.
Qed.

(** ** From a router's units to the ends of wires *)

Lemma pending_empty o r ou : switch_flits r = [] -> vec_get (m_output_unit r) o = Ok ou -> pending o r = m_buffer (m_out_buffer ou).
Proof. intros Hs Ho. unfold pending. by rewrite Hs, Ho. Qed.

Lemma out_moved_src cur sk w o r r' ou ou' : out_moved cur o r r' ou ou' -> switch_flits r = [] -> switch_flits r' = [] ->
  vec_get (m_output_unit r) o = Ok ou -> vec_get (m_output_unit r') o = Ok ou' -> vsize (m_outvc_state ou) = nv ->
  (forall f, f ∈ m_buffer (m_out_buffer ou') -> packet_ok m vn sk f /\ aged cur f) ->
  (forall f f0, m_route f = m_route f0 -> f0 ∈ input_flits r -> m_outport f0 = o -> home_ok sk w f) ->
  src_moved cur sk w (m_out_buffer ou) (m_out_buffer ou') (Some ou) (Some ou').
Proof.
  intros [Hc Hz Hs Hv Hfr] E1 E2 Ho Ho' Hn Hp Hhome. pose proof (pending_empty o r ou E1 Ho) as P1. pose proof (pending_empty o r' ou' E2 Ho') as P2. split.
  - by apply (f_equal OutputUnit.m_credit_link) in Hc as Hc'; cbn in *; rewrite Hc'.
  - intros k Hk. destruct (Hs k) as (x & x' & Hx & Hx' & Hcase); [lia|]. rewrite P1, P2 in Hcase. destruct Hcase as [[-> E] | (Hi & -> & E)].
    + left. split; [done|]. cbn. by rewrite Hx, Hx'.
    + right. eauto 10.
  - intros e Hfly. apply Forall_forall. intros f Hf. destruct (Hp f Hf) as [Hpk Hage]. split; [done|]. split; [|by left].
    rewrite P1, P2 in Hv. destruct (Hv f Hf) as [? | (f0 & Hf0 & ->)]; [lia|]. rewrite Forall_forall in Hfly. by destruct (Hfly f0 Hf0) as (_ & ? & _).
  - intros Hh. apply Forall_forall. intros f Hf. rewrite P1, P2 in Hfr. destruct (Hfr f Hf) as (f0 & Er & [Hf0 | [Hf0 Eo]]); [|by eapply Hhome].
    rewrite Forall_forall in Hh. specialize (Hh f0 Hf0). unfold home_ok in *. by rewrite Er.
Qed.

Lemma in_moved_dst cur sk e iu iu' : in_moved cur iu iu' -> vsize (m_vcs iu) = nv ->
  dst_moved cur sk e (creditQueue iu) (creditQueue iu') (Some iu) (Some iu').
Proof.
  intros [Hc Hz Hs Hk] Hn. split.
  - by apply (f_equal m_in_link) in Hc as Hc'; cbn in *; rewrite Hc'.
  - intros k Hk'. destruct (Hs k) as (v & v' & Hv & Hv' & [[-> E] | (f & Hf & -> & E)]); [lia | |].
    + left. split; [done|]. cbn. by rewrite Hv, Hv'.
    + right. eauto 10.
  - intros Hw. apply Forall_lookup. intros n v' Hn'. assert (Hv' : vec_get (m_vcs iu') (Z.of_nat n) = Ok v')
      by (apply vec_get_Ok; split; [lia | by rewrite Nat2Z.id]).
    destruct (Hs (Z.of_nat n)) as (v & v1 & Hv & Hv1 & Hcase); [apply vec_get_range in Hv'; lia|].
    rewrite Hv' in Hv1. apply Ok_inj in Hv1 as <-. pose proof (Forall_vec_get _ _ _ _ Hw Hv) as Hwv.
    destruct Hcase as [[-> _] | (f & _ & -> & _)]; [done|]. split; [done | constructor].
  - intros Hw. apply Forall_forall. intros c [Hin | [H1 H2]]%Hk; [rewrite Forall_forall in Hw; by apply Hw | split; [done | lia]].
Qed.

Lemma moved_skel cur r r' : switch_moved cur r r' -> r_sk r' = r_sk r.
Proof.
  intros [Hc Hni Hno Hin Hout]. unfold r_sk. f_equal.
  - by apply (f_equal RouterState.m_id) in Hc.
  - apply map_vec_eq; [done|]. intros i iu iu' H1 H2. pose proof (im_core _ _ _ (Hin _ _ _ H1 H2)) as E.
    unfold iu_sk. apply (f_equal iu_sk) in E. exact E.
  - apply map_vec_eq; [done|]. intros o ou ou' H1 H2. destruct (Hout _ _ _ H1 H2) as [E1 E2 _ _ _].
    apply (f_equal (fun u => (m_dest_router u, OutputUnit.m_direction u, OutputUnit.m_vc_per_vnet u))) in E1. injection E1 as F1 F2 F3.
    unfold ou_sk. by rewrite E2, F1, F2, F3.
  - by apply (f_equal m_routing_unit) in Hc.
Qed.

Lemma moved_fixed c cur r r' : router_fixed c r -> switch_moved cur r r' -> sa_ready c (shape_of vn vp r) cur r' -> router_fixed c r'.
Proof.
  intros Hf [Hc Hni Hno Hin Hout] ([] & Hq & Hx & _). assert (Es : shape_of vn vp r' = shape_of vn vp r) by (unfold shape_of; by rewrite Hni, Hno).
  destruct Hf. split; rewrite ?Es, ?Hni; try done.
  - apply (f_equal RouterState.m_latency) in Hc. cbn in Hc. by rewrite Hc.
  - apply Forall_lookup. intros n b Hn. destruct (Hx (Z.of_nat n)) as (b' & Hb' & E).
    { apply lookup_lt_Some in Hn. rewrite <- r_switch. unfold vsize. lia. }
    apply vec_get_Ok in Hb' as [_ Hb']. rewrite Nat2Z.id in Hb'. congruence.
  - apply Forall_lookup. intros n iu' Hn. assert (Hi' : vec_get (m_input_unit r') (Z.of_nat n) = Ok iu') by (apply vec_get_Ok; split; [lia | by rewrite Nat2Z.id]).
    destruct (vec_get_in_range (m_input_unit r) (Z.of_nat n)) as [iu Hi]; [apply vec_get_range in Hi'; lia|].
    destruct (Hin _ _ _ Hi Hi') as [E1 E2 _ _]. destruct (Forall_vec_get _ _ _ _ rf_ius Hi) as (D1 & D2 & D3 & D4).
    apply (f_equal (fun u => (InputUnit.m_vc_per_vnet u, m_num_buffer_writes u, m_num_buffer_reads u))) in E1. injection E1 as F1 F2 F3.
    unfold iu_dim. by rewrite E2, F1, F2, F3.
  - apply Forall_lookup. intros n ou' Hn. assert (Hi' : vec_get (m_output_unit r') (Z.of_nat n) = Ok ou') by (apply vec_get_Ok; split; [lia | by rewrite Nat2Z.id]).
    destruct (vec_get_in_range (m_output_unit r) (Z.of_nat n)) as [ou Hi]; [apply vec_get_range in Hi'; lia|].
    destruct (Hout _ _ _ Hi Hi') as [E1 E2 _ _ _]. destruct (Forall_vec_get _ _ _ _ rf_ous Hi) as (D1 & D2).
    apply (f_equal OutputUnit.m_vc_per_vnet) in E1. cbn in E1. unfold ou_dim. by rewrite E2, E1.
Qed.

(** ** The step *)

Section Step.
Context (cur : Z) (g : GarnetNetwork) (Hg : fabric_inv cur g) (rid : Z) (r r' : Router) (Hr : vec_get (m_routers g) rid = Ok r).
Context (Hm : switch_moved cur r r') (Hx : switch_flits r = []) (Hx' : switch_flits r' = []).
Context (Hfl : map ident (router_flits r') ≡ₚ map ident (router_flits r)).

Abbreviation g' := (with_m_routers (<[Z.to_nat rid := r']> (m_routers g)) g).

Lemma moved_packet f : f ∈ router_flits r' -> packet_ok m vn (skel g) f /\ aged cur f.
Proof.
  intros Hf. assert (Hi : ident f ∈ map ident (router_flits r)) by (rewrite <- Hfl; change (map ?h ?x) with (h <$> x); apply list_elem_of_fmap; eauto).
  change (map ?h ?x) with (h <$> x) in Hi. apply list_elem_of_fmap in Hi as (f0 & E & Hf0). apply (ident_packet _ _ _ _ _ _ E).
  by apply (router_packets _ _ _ _ _ Hg Hr).
Qed.

Lemma routers_step rid1 : vec_get (m_routers g') rid1 = if decide (rid1 = rid) then Ok r' else vec_get (m_routers g) rid1.
Proof.
  pose proof (vec_get_range _ _ _ Hr). cbn. case_decide as Hd; [subst; by apply (vec_get_insert _ _ _ _ Hr)|].
  apply vec_get_insert_ne; [lia | congruence].
Qed.

(** A port with an interface behind it is local. *)
Lemma moved_home w o f f0 : w ∈ W -> w_src w = EPort rid o -> m_route f = m_route f0 -> f0 ∈ input_flits r -> m_outport f0 = o -> home_ok (skel g) w f.
Proof.
  intros Hw Es Er Hf Ho. unfold home_ok. rewrite Es. destruct (w_dst w) as [|n] eqn:Ed; [done|]. rewrite (skel_row _ _ _ Hr). intros row [= <-]%Ok_inj.
  destruct (router_leads _ _ _ _ _ Hg Hr Hf) as [Hrange Hloc]. rewrite Ho in *. destruct (vec_get_in_range _ _ Hrange) as [d Hd].
  rewrite Er. apply (Hloc d Hd). destruct (decide (os_dirn d = "Local"%string)) as [|Hl]; [done|]. exfalso.
  destruct (wr_down _ _ _ _ (fb_wiring _ _ _ _ _ _ _ Hg) w rid o (r_sk r) d Hw Es (skel_row _ _ _ Hr) Hd Hl) as (? & ? & ? & ? & E & _). congruence.
Qed.

Lemma src_step w q out : w ∈ W -> src_read (w_src w) g = Ok (q, out) ->
  exists q' out', src_read (w_src w) g' = Ok (q', out') /\ src_moved cur (skel g) w q q' out out'.
Proof.
  intros Hw. destruct (w_src w) as [rid1 o | n] eqn:Es; cbn [src_read]; [|intros H; exists q, out; split; [done | apply src_moved_refl]].
  unfold get_ou. rewrite routers_step. case_decide as Hd; [|intros H; exists q, out; split; [done | apply src_moved_refl]].
  subst rid1. rewrite Hr. cbn [mbind result_bind]. intros H. inv_ok. rename select (_ = Ok x) into Ho.
  destruct (vec_get_in_range (m_output_unit r') o) as [ou' Ho']; [rewrite (sm_no _ _ _ Hm); by apply vec_get_range in Ho|].
  rewrite Ho'. eexists _, _. split; [done|]. eapply (out_moved_src cur (skel g) w o r r'); try done.
  - by apply (sm_out _ _ _ Hm o).
  - by destruct (Forall_vec_get _ _ _ _ (rf_ous _ _ _ _ (fb_routers _ _ _ _ _ _ _ Hg _ _ Hr)) Ho).
  - intros f Hf. apply moved_packet, elem_of_app. right. apply elem_of_concat_map. apply vec_get_Ok in Ho' as [_ Ho'].
    exists ou'. split; [by eapply list_elem_of_lookup_2 | done].
  - intros f f0. by apply (moved_home w o).
Qed.

Lemma dst_step e c inp : dst_read e g = Ok (c, inp) -> exists c' inp', dst_read e g' = Ok (c', inp') /\ dst_moved cur (skel g) e c c' inp inp'.
Proof.
  destruct e as [rid1 i | n]; cbn [dst_read]; [|intros H; exists c, inp; split; [done | apply dst_moved_refl]].
  unfold get_iu. rewrite routers_step. case_decide as Hd; [|intros H; exists c, inp; split; [done | apply dst_moved_refl]].
  subst rid1. rewrite Hr. cbn [mbind result_bind]. intros H. inv_ok. rename select (_ = Ok x) into Ho.
  destruct (vec_get_in_range (m_input_unit r') i) as [iu' Ho']; [rewrite (sm_ni _ _ _ Hm); by apply vec_get_range in Ho|].
  rewrite Ho'. eexists _, _. split; [done|]. apply in_moved_dst; [by apply (sm_in _ _ _ Hm i)|].
  by destruct (Forall_vec_get _ _ _ _ (rf_ius _ _ _ _ (fb_routers _ _ _ _ _ _ _ Hg _ _ Hr)) Ho).
Qed.

Lemma skel_step : skel g' = skel g.
Proof. unfold skel. cbn. apply vec_get_Ok in Hr as [_ Hr0]. apply (map_insert_id _ _ _ _ _ Hr0). by apply (moved_skel cur). Qed.

Lemma fabric_step : router_fixed (g_config g) r' -> fabric_inv cur g' /\ frame g g'.
Proof.
  intros Hfix. assert (Hrt : forall rid1 r1', vec_get (m_routers g') rid1 = Ok r1' -> router_fixed (g_config g) r1').
  { intros rid1 r1'. rewrite routers_step. case_decide; [by intros [= <-]|]. apply (fb_routers _ _ _ _ _ _ _ Hg). }
  split.
  - pose proof Hg as [F1 F2 F3 F4 F5 F6]. split; try (rewrite skel_step); try done.
    + intros k b Hb. eapply bubble_ok_sk; [apply skel_step | by apply F4].
    + intros w Hw. destruct (F6 w Hw) as (V & (V1 & V2 & V3 & V4)%view_Ok & Hinv).
      destruct (src_step _ _ _ Hw V1) as (q' & out' & S1 & S2). destruct (dst_step _ _ _ V3) as (c' & inp' & D1 & D2).
      exists (mkView q' out' (wv_net V) c' inp' (wv_credit V)). split; [by apply view_Ok|]. by apply wire_moved.
  - split; try done; [apply skel_step|]. intros rid1 r1' H1. pose proof (Hrt _ _ H1) as Hf1.
    destruct (vec_get_in_range (m_routers g) rid1) as [r1 Hr1]; [apply vec_get_range in H1; cbn in H1; by rewrite vsize_insert in H1|]. eauto.
Qed.

Lemma packets_step : packets g' ≡ₚ packets g.
Proof.
  unfold packets. pose proof (net_flits_router rid r r' g Hr) as H.
  apply (Permutation_map packet_of) in H. rewrite !map_app in H. rewrite (ident_packets _ _ Hfl) in H. by apply Permutation_app_inv_l in H.
Qed.
End Step.

Lemma switch_ok cur g rid : fabric_inv cur g -> 0 <= cur < 2 ^ 64 - 1 -> 0 <= rid < vsize (m_routers g) ->
  exists g', on_router rid (fun r => r1 ← SwitchAllocator.wakeup (g_config g) cur r; CrossbarSwitch.wakeup cur r1) g = Ok g' /\
    fabric_inv cur g' /\ frame g g' /\ packets g' ≡ₚ packets g.
Proof.
  intros Hg Hcur Hrid. destruct (vec_get_in_range _ _ Hrid) as [r Hr]. pose proof (router_sa_ready _ _ _ _ _ _ _ Hg rid r Hr Hcur) as Hsr.
  destruct (switch_cycle_total _ _ _ _ Hsr) as (r1 & r' & H1 & H2 & Hsr' & Hfl & Hm).
  pose proof Hsr as (Hok & _ & Hx & _). pose proof Hsr' as (Hok' & _ & Hx' & _).
  pose proof (xbar_empty_flits _ _ _ _ Hok Hx) as E. pose proof (xbar_empty_flits _ _ _ _ Hok' Hx') as E'. rewrite <- !map_app in Hfl.
  erewrite (on_router_Ok g rid _ r r') by (try done; rewrite H1; done). eexists. split; [done|].
  destruct (fabric_step cur g Hg rid r r' Hr Hm E E' Hfl) as [F1 F2];
    [eapply moved_fixed; [apply (fb_routers _ _ _ _ _ _ _ Hg _ _ Hr) | done | done]|].
  split_and!; [done | done|]. by apply packets_step with (r := r).
Qed.
End Switch.
