(* ===== verification/FabricBubbles.v ===== *)
(** * Bubble movement keeps the fabric's invariant *)

From S2P Require Import Prelude Flit FlitBuffer NetDest Consumer Config RoutingUnit RoutingTable.
From S2P Require Import MeshRouting NetworkLink VirtualChannel OutVcState OutputUnit InputUnit RouterState SwitchAllocator.
From S2P Require Import SwitchTheory SwitchMoved SwitchCorrect RouterCycle BubblePath MessageBuffer NetStats NetworkInterface.
From S2P Require Import GarnetNetwork Bubble NetLens NetRouting BubbleInv BubbleMoves BubbleIntra BubbleInit BubbleInter.
From S2P Require Import RouterWakeup Fabric FabricLinks FabricUnits FabricSwitch.
Local Open Scope Z_scope.

(** What [r_rest] says of units: all but VC 0 of a port between routers is the same. *)
Lemma iu_rest_vc iu iu' k : iu_rest iu' = iu_rest iu -> InputUnit.m_direction iu = "Local"%string \/ k <> 0 ->
  vec_get (m_vcs iu') k = vec_get (m_vcs iu) k.
Proof.
  intros E Hk. pose proof (f_equal (fun x => InputUnit.m_direction x.1.1) E) as Ed. apply (f_equal snd) in E. unfold iu_rest, ou_rest in *. cbn [fst snd] in E, Ed.
  cbn in Ed. rewrite Ed in E. destruct (String.eqb_spec (InputUnit.m_direction iu) "Local") as [|Hl]; [by rewrite E|]. destruct Hk as [|Hk]; [done|].
  unfold vec_get. destruct (Z.ltb_spec k 0); [done|]. replace (Z.to_nat k) with (1 + Z.to_nat (k - 1))%nat by lia.
  by rewrite <- !lookup_drop, E.
Qed.

Lemma ou_rest_vc ou ou' k : ou_rest ou' = ou_rest ou -> OutputUnit.m_direction ou = "Local"%string \/ k <> 0 ->
  vec_get (m_outvc_state ou') k = vec_get (m_outvc_state ou) k.
Proof.
  intros E Hk. pose proof (f_equal (fun x => OutputUnit.m_direction x.1.1) E) as Ed. apply (f_equal snd) in E. unfold iu_rest, ou_rest in *. cbn [fst snd] in E, Ed.
  cbn in Ed. rewrite Ed in E. destruct (String.eqb_spec (OutputUnit.m_direction ou) "Local") as [|Hl]; [by rewrite E|]. destruct Hk as [|Hk]; [done|].
  unfold vec_get. destruct (Z.ltb_spec k 0); [done|]. replace (Z.to_nat k) with (1 + Z.to_nat (k - 1))%nat by lia.
  by rewrite <- !lookup_drop, E.
Qed.

Section Bubbles.
Context (m vn vp : Z) (W : list Wire) (T : Tally).

Abbreviation nv := (vn * vp).
Abbreviation fabric_inv := (fabric_inv m vn vp W T).
Abbreviation wire_inv := (wire_inv m vn vp T).
Abbreviation router_fixed := (router_fixed vn vp).

Section From.
Context (cur : Z) (g : GarnetNetwork) (Hg : fabric_inv cur g).

(** The tokens of VC 0 on the wire into an input port. *)
Definition inbound (rid i : Z) : Z :=
  match list_find (fun w => w_dst w = EPort rid i) W with
  | Some (_, w) => match view w g with Ok V => transit 0 V | Err _ => 0 end
  | None => 0
  end.

Lemma inbound_transit rid i w V : w ∈ W -> w_dst w = EPort rid i -> view w g = Ok V -> inbound rid i = transit 0 V.
Proof.
  intros Hw Hd HV. unfold inbound. destruct (list_find (fun w => w_dst w = EPort rid i) W) as [[n w']|] eqn:E.
  - apply list_find_Some in E as (Hn & Hd' & _). assert (w' = w) as ->; [|by rewrite HV].
    apply (NoDup_wire W w_dst); [apply (fb_wiring _ _ _ _ _ _ _ Hg) | by eapply list_elem_of_lookup_2 | done | congruence].
  - apply list_find_None in E. rewrite Forall_forall in E. by destruct (E w Hw).
Qed.

Lemma nv_pos rid r : vec_get (m_routers g) rid = Ok r -> 0 < nv.
Proof.
  intros Hr. pose proof (rf_shape _ _ _ _ (fb_routers _ _ _ _ _ _ _ Hg _ _ Hr)) as [_ H1 H2 _]. cbn in H1, H2. nia.
Qed.

(** The channel of a wire between routers. *)
Lemma wire_chan rid i iu : get_iu rid i g = Ok iu -> InputUnit.m_direction iu <> "Local"%string ->
  exists w V p ou v o, w ∈ W /\ w_dst w = EPort rid i /\ view w g = Ok V /\ wv_in V = Some iu /\ wv_out V = Some ou /\
    w_src w = EPort p.1 p.2 /\ chan_at g rid i iu p v ou o /\ wire_inv cur (skel g) (bubble g) w V.
Proof.
  intros Hi Hd. destruct (in_wire _ _ _ _ _ _ _ Hg rid i iu Hi) as (w & V & Hw & Ed & HV & Ein & Ec & Hinv).
  destruct (get_iu_sk _ _ _ _ Hi) as (row & Hrow & He).
  destruct (wr_up _ _ _ _ (fb_wiring _ _ _ _ _ _ _ Hg) w rid i row _ Hw Ed Hrow He Hd) as (p & Hp & Es).
  pose proof (proj1 (view_Ok _ _ _) HV) as (Hsrc & _). rewrite Es in Hsrc. cbn in Hsrc. inv_ok. rename select (get_ou _ _ _ = Ok _) into Ho.
  rename select (Some _ = wv_out V) into Eo. destruct (proj1 (get_iu_Ok _ _ _ _) Hi) as (r & Hr & _). pose proof (nv_pos _ _ Hr) as Hnv.
  destruct (wi_slot _ _ _ _ _ _ _ _ _ Hinv 0 ltac:(lia)) as (_ & _ & Hs & Hrc). rewrite <- Eo in Hs. rewrite Ein in Hrc.
  destruct (vec_get (m_outvc_state x) 0) as [o|] eqn:E1; [|done]. destruct (vec_get (m_vcs iu) 0) as [v|] eqn:E2; [|done].
  exists w, V, p, x, v, o. split_and!; try done. split; try done. by rewrite upstream_op_sk.
Qed.

Lemma slot_chan rid i iu V v o x y ou : wv_in V = Some iu -> wv_out V = Some ou -> vec_get (m_vcs iu) 0 = Ok v -> vec_get (m_outvc_state ou) 0 = Ok o ->
  inbound rid i = transit 0 V -> slot_inv cur 0 x y V <-> chan_inv cur (inbound rid i) x v o.
Proof.
  intros E1 E2 Hv Ho ->. unfold slot_inv, chan_inv, sender_ok, receiver_ok, tokens, buffered, vc_flits. rewrite E1, E2, Hv, Ho.
  pose proof (transit_nonneg 0 V). tauto.
Qed.

Lemma all_flits_router f : f ∈ all_flits g -> exists rid r, vec_get (m_routers g) rid = Ok r /\ f ∈ input_flits r.
Proof.
  intros (r & Hr & Hf)%elem_of_concat_map. apply list_elem_of_lookup in Hr as [n Hn]. exists (Z.of_nat n), r. split; [|done].
  apply vec_get_Ok. split; [lia | by rewrite Nat2Z.id].
Qed.

Lemma fabric_packet f : f ∈ all_flits g -> packet_ok m vn (skel g) f /\ aged cur f.
Proof.
  intros (rid & r & Hr & Hf)%all_flits_router. apply (router_packets _ _ _ _ _ _ _ _ _ _ Hg Hr). apply elem_of_app. by left.
Qed.

Lemma fabric_movable : movable cur m inbound g.
Proof.
  split; [split | apply Hg | by eapply fabric_vcs |].
  - apply Hg.
  - intros rid i iu Hi Hd. destruct (wire_chan rid i iu Hi Hd) as (w & V & p & ou & v & o & Hw & Ed & HV & E1 & E2 & _ & Hc & Hinv).
    exists v, o. split; [by exists iu, p, ou|]. destruct (proj1 (get_iu_Ok _ _ _ _) Hi) as (r & Hr & _). pose proof (nv_pos _ _ Hr).
    eapply slot_chan; [exact E1 | exact E2 | apply Hc | apply Hc | by eapply inbound_transit|].
    pose proof (wi_slot _ _ _ _ _ _ _ _ _ Hinv 0 ltac:(lia)) as Hs. by rewrite Ed in Hs.
  - apply Hg.
  - apply Forall_forall. intros f Hf. by destruct (fabric_packet f Hf) as [[] _].
Qed.

Lemma fabric_held : held g.
Proof.
  intros rid i v o row (iu & p & ou & Hc) Hrow. destruct (in_wire _ _ _ _ _ _ _ Hg rid i iu (ca_iu _ _ _ _ _ _ _ _ Hc)) as (w & V & _ & Ed & _ & Ein & _ & Hinv).
  pose proof (wi_wait _ _ _ _ _ _ _ _ _ Hinv) as Hw. rewrite Ein in Hw.
  destruct (Forall_vec_get _ _ _ _ Hw (ca_v _ _ _ _ _ _ _ _ Hc)) as [H1 H2]. rewrite Ed in H2.
  split; [done|]. eapply Forall_impl; [exact H2|]. intros f (_ & _ & Hl). by apply Hl.
Qed.
End From.

(** ** After the phase *)

Lemma nbub_local cur g rid i iu : (forall k b, vec_get (bubble g) k = Ok b -> bubble_ok cur g k b) -> get_iu rid i g = Ok iu ->
  InputUnit.m_direction iu = "Local"%string -> nbub (bubble g) rid i = 0.
Proof.
  intros Hb Hi Hd. unfold nbub. destruct (filter (at_port rid i) (bubble g)) as [|b l] eqn:E; [done|]. exfalso.
  assert (Hin : b ∈ filter (at_port rid i) (bubble g)) by (rewrite E; by left). apply list_elem_of_filter in Hin as [[H1 H2] Hin].
  apply list_elem_of_lookup in Hin as [n Hn]. destruct (Hb (Z.of_nat n) b) as (_ & _ & _ & iu1 & Hi1 & _ & Hl).
  { apply vec_get_Ok. split; [lia | by rewrite Nat2Z.id]. }
  rewrite H1, H2, Hi in Hi1. apply Ok_inj in Hi1 as <-. done.
Qed.

Lemma slot_same cur k x y V V' : slot_inv cur k x y V -> transit k V' = transit k V ->
  (fun iu => vec_get (m_vcs iu) k) <$> wv_in V' = (fun iu => vec_get (m_vcs iu) k) <$> wv_in V ->
  (fun ou => vec_get (m_outvc_state ou) k) <$> wv_out V' = (fun ou => vec_get (m_outvc_state ou) k) <$> wv_out V -> slot_inv cur k x y V'.
Proof.
  intros (H1 & H2 & H3 & H4) Et Ei Eo. assert (Eb : buffered k V' = buffered k V).
  { unfold buffered, vc_flits. destruct (wv_in V'), (wv_in V); cbn in Ei; try done. by injection Ei as ->. }
  unfold slot_inv. rewrite Et, Eb. split_and!; [done | done | |].
  - destruct (wv_out V'), (wv_out V); cbn in Eo; try done. by injection Eo as ->.
  - destruct (wv_in V'), (wv_in V); cbn in Ei; try done. by injection Ei as ->.
Qed.

Section After.
Context (cur : Z) (g g2 : GarnetNetwork) (Hg : fabric_inv cur g) (Hp : phase_inv cur m (inbound g) g g2).

Lemma after_links : m_networklinks g2 = m_networklinks g /\ m_creditlinks g2 = m_creditlinks g /\ m_nis g2 = m_nis g /\
  m_bubble_init g2 = m_bubble_init g /\ map r_rest (m_routers g2) = map r_rest (m_routers g).
Proof. pose proof (ph_rest _ _ _ _ _ Hp) as E. by injection E as E1 E2 E3 E4 E5. Qed.

Lemma after_stats : stat_vectors (g_stats g2) = stat_vectors (g_stats g).
Proof. exact (f_equal snd (ph_rest _ _ _ _ _ Hp)). Qed.

Lemma after_iu rid i iu : get_iu rid i g = Ok iu -> exists iu2, get_iu rid i g2 = Ok iu2 /\ iu_rest iu2 = iu_rest iu.
Proof.
  intros (r & Hr & Hi)%get_iu_Ok. destruct after_links as (_ & _ & _ & _ & E).
  destruct (map_eq_get _ _ _ _ _ (eq_sym E) Hr) as (r2 & Hr2 & E2). apply (f_equal (fun x => x.1.2)) in E2. cbn in E2.
  destruct (map_eq_get _ _ _ _ _ E2 Hi) as (iu2 & Hi2 & E3). exists iu2. split; [apply get_iu_Ok; eauto | done].
Qed.

Lemma after_ou rid o ou : get_ou rid o g = Ok ou -> exists ou2, get_ou rid o g2 = Ok ou2 /\ ou_rest ou2 = ou_rest ou.
Proof.
  intros (r & Hr & Hi)%get_ou_Ok. destruct after_links as (_ & _ & _ & _ & E).
  destruct (map_eq_get _ _ _ _ _ (eq_sym E) Hr) as (r2 & Hr2 & E2). apply (f_equal snd) in E2. cbn in E2.
  destruct (map_eq_get _ _ _ _ _ E2 Hi) as (ou2 & Hi2 & E3). exists ou2. split; [apply get_ou_Ok; eauto | done].
Qed.

Lemma src_after e q out : src_read e g = Ok (q, out) -> exists out2, src_read e g2 = Ok (q, out2) /\ ou_rest <$> out2 = ou_rest <$> out.
Proof.
  destruct e as [rid o | n]; cbn [src_read]; intros H; inv_ok; rename select (_ = Ok x) into Hx.
  - destruct (after_ou _ _ _ Hx) as (ou2 & -> & E). exists (Some ou2). cbn. split; [|by rewrite E].
    apply (f_equal (fun u => m_out_buffer u.1.1)) in E. cbn in E. by rewrite E.
  - destruct after_links as (_ & _ & -> & _). rewrite Hx. by exists None.
Qed.

Lemma dst_after e c inp : dst_read e g = Ok (c, inp) -> exists inp2, dst_read e g2 = Ok (c, inp2) /\ iu_rest <$> inp2 = iu_rest <$> inp.
Proof.
  destruct e as [rid o | n]; cbn [dst_read]; intros H; inv_ok; rename select (_ = Ok x) into Hx.
  - destruct (after_iu _ _ _ Hx) as (iu2 & -> & E). exists (Some iu2). cbn. split; [|by rewrite E].
    apply (f_equal (fun u => creditQueue u.1.1)) in E. cbn in E. by rewrite E.
  - destruct after_links as (_ & _ & -> & _). rewrite Hx. by exists None.
Qed.

Lemma packet_after f : f ∈ all_flits g2 -> packet_ok m vn (skel g) f /\ aged cur f.
Proof.
  intros Hf. assert (Hi : ident f ∈ ident <$> all_flits g).
  { change (ident <$> all_flits g) with (map ident (all_flits g)). rewrite <- (ph_flits _ _ _ _ _ Hp).
    change (map ident (all_flits g2)) with (ident <$> all_flits g2). apply list_elem_of_fmap. eauto. }
  apply list_elem_of_fmap in Hi as (f0 & E & Hf0). apply (ident_packet _ _ _ _ _ _ E). by apply fabric_packet.
Qed.

Lemma iu_flits_all rid i iu v k f : get_iu rid i g2 = Ok iu -> vec_get (m_vcs iu) k = Ok v -> f ∈ VirtualChannel.flits v -> f ∈ all_flits g2.
Proof.
  intros (r & [_ Hr]%vec_get_Ok & [_ Hi]%vec_get_Ok)%get_iu_Ok [_ Hv]%vec_get_Ok Hf. apply elem_of_concat_map. exists r.
  split; [by eapply list_elem_of_lookup_2|]. apply elem_of_concat_map. exists iu. split; [by eapply list_elem_of_lookup_2|].
  apply elem_of_concat_map. exists v. split; [by eapply list_elem_of_lookup_2 | done].
Qed.

Lemma waiting_after rid i iu iu2 : get_iu rid i g = Ok iu -> get_iu rid i g2 = Ok iu2 -> iu_rest iu2 = iu_rest iu ->
  Forall (waiting_ok m vn cur (skel g) (EPort rid i)) (m_vcs iu) -> Forall (waiting_ok m vn cur (skel g) (EPort rid i)) (m_vcs iu2).
Proof.
  intros Hi Hi2 E Hall. apply Forall_lookup. intros n v Hn. assert (Hv : vec_get (m_vcs iu2) (Z.of_nat n) = Ok v)
    by (apply vec_get_Ok; split; [lia | by rewrite Nat2Z.id]).
  pose proof (f_equal (fun x => InputUnit.m_direction x.1.1) E) as Ed. cbn in Ed.
  destruct (decide (InputUnit.m_direction iu = "Local"%string \/ Z.of_nat n <> 0)) as [Hc|Hc].
  { rewrite (iu_rest_vc _ _ _ E Hc) in Hv. by apply (Forall_vec_get _ _ _ _ Hall Hv). }
  assert (Hd : InputUnit.m_direction iu2 <> "Local"%string) by (rewrite Ed; tauto). assert (Hz : Z.of_nat n = 0) by lia. rewrite Hz in Hv.
  destruct (ni_chan _ _ _ (mv_inv _ _ _ _ (ph_mv _ _ _ _ _ Hp)) rid i iu2 Hi2 Hd) as (v' & o & (iu3 & p & ou & Hc2) & _).
  pose proof (ca_iu _ _ _ _ _ _ _ _ Hc2) as Hi3. rewrite Hi2 in Hi3. apply Ok_inj in Hi3 as <-.
  pose proof (ca_v _ _ _ _ _ _ _ _ Hc2) as Hv3. rewrite Hv in Hv3. apply Ok_inj in Hv3 as <-.
  destruct (get_iu_sk _ _ _ _ Hi) as (row & Hrow & _).
  destruct (ph_held _ _ _ _ _ Hp (fabric_held _ _ Hg) rid i v o row) as [H1 H2]; [by exists iu2, p, ou | by rewrite (ph_skel _ _ _ _ _ Hp)|].
  split; [done|]. apply Forall_forall. intros f Hf. destruct (packet_after f (iu_flits_all rid i iu2 v 0 f Hi2 Hv Hf)) as [Hpk Ha].
  split; [done|]. split; [done|]. intros row' Hrow'. rewrite Hrow in Hrow'. apply Ok_inj in Hrow' as <-.
  rewrite Forall_forall in H2. by apply H2.
Qed.

(** A wire that ends at an interface has no VC that bubbles move through. *)
Lemma out_after w q out out2 k : w ∈ W -> src_read (w_src w) g = Ok (q, out) -> ou_rest <$> out2 = ou_rest <$> out ->
  (forall rid i row e, w_dst w = EPort rid i -> vec_get (skel g) rid = Ok row -> vec_get (sk_in row) i = Ok e -> e.1.2 = "Local"%string) \/ k <> 0 ->
  (fun ou => vec_get (m_outvc_state ou) k) <$> out2 = (fun ou => vec_get (m_outvc_state ou) k) <$> out.
Proof.
  intros Hw Hs E Hk. destruct out as [ou|], out2 as [ou2|]; cbn in E; try done. apply Some_inj in E. cbn. f_equal. apply ou_rest_vc; [done|].
  destruct Hk as [Hk|]; [left | by right]. clear E. destruct (w_src w) as [rid o | n] eqn:Es; cbn [src_read] in Hs; inv_ok. rename select (get_ou _ _ _ = _) into Ho.
  apply get_ou_Ok in Ho as (r & Hr & Ho).
  destruct (decide (OutputUnit.m_direction ou = "Local"%string)) as [|Hd]; [done|]. exfalso.
  destruct (wr_down _ _ _ _ (fb_wiring _ _ _ _ _ _ _ Hg) w rid o (r_sk r) (ou_sk ou) Hw Es) as (rid' & i & row' & e & H1 & H2 & H3 & H4).
  - by apply skel_row.
  - cbn. by rewrite vec_get_map, Ho.
  - done.
  - by apply H4, (Hk rid' i row' e).
Qed.

Lemma inner_slot_after w V out2 rid i iu iu2 : w ∈ W -> view w g = Ok V -> w_dst w = EPort rid i ->
  src_read (w_src w) g2 = Ok (wv_queue V, out2) -> get_iu rid i g = Ok iu -> get_iu rid i g2 = Ok iu2 -> iu_rest iu2 = iu_rest iu ->
  InputUnit.m_direction iu <> "Local"%string ->
  forall y, slot_inv cur 0 (nbub (bubble g2) rid i) y (mkView (wv_queue V) out2 (wv_net V) (wv_credits V) (Some iu2) (wv_credit V)).
Proof.
  intros Hw HV Ed Hs Hi Hi2 E Hd y. destruct (wire_chan _ _ Hg rid i iu Hi Hd) as (w' & V' & p & ou & v & o & Hw' & Ed' & HV' & _ & _ & Es & Hc & _).
  assert (w' = w) as -> by (apply (NoDup_wire W w_dst); [apply (fb_wiring _ _ _ _ _ _ _ Hg) | done | done | congruence]).
  pose proof (f_equal (fun x => InputUnit.m_direction x.1.1) E) as Edir. cbn in Edir. pose proof (f_equal (fun x => m_src_router x.1.1) E) as Esrc. cbn in Esrc.
  destruct (ni_chan _ _ _ (mv_inv _ _ _ _ (ph_mv _ _ _ _ _ Hp)) rid i iu2 Hi2) as (v2 & o2 & (iu3 & p2 & ou2 & Hc2) & Hinv); [by rewrite Edir|].
  pose proof (ca_iu _ _ _ _ _ _ _ _ Hc2) as Hi3. rewrite Hi2 in Hi3. apply Ok_inj in Hi3 as <-.
  assert (p2 = p) as ->.
  { pose proof (ca_up _ _ _ _ _ _ _ _ Hc2) as H1. pose proof (ca_up _ _ _ _ _ _ _ _ Hc) as H2. rewrite upstream_op_sk in H1, H2.
    rewrite (ph_skel _ _ _ _ _ Hp), Esrc, H2 in H1. by apply Ok_inj in H1. }
  rewrite Es in Hs. cbn in Hs. rewrite (ca_ou _ _ _ _ _ _ _ _ Hc2) in Hs. cbn in Hs. apply Ok_inj in Hs. injection Hs as _ <-.
  eapply (slot_chan cur g rid i iu2 _ v2 o2 _ y ou2); [done | done | apply Hc2 | apply Hc2 | | done].
  by apply (inbound_transit cur g Hg rid i w V).
Qed.

Lemma slot_after w V out2 inp2 k : w ∈ W -> view w g = Ok V -> wire_inv cur (skel g) (bubble g) w V ->
  src_read (w_src w) g2 = Ok (wv_queue V, out2) -> ou_rest <$> out2 = ou_rest <$> wv_out V ->
  dst_read (w_dst w) g2 = Ok (wv_credits V, inp2) -> iu_rest <$> inp2 = iu_rest <$> wv_in V -> 0 <= k < nv ->
  slot_inv cur k (extra T (bubble g2) (w_dst w) k) (issued_at T (w_src w) k) (mkView (wv_queue V) out2 (wv_net V) (wv_credits V) inp2 (wv_credit V)).
Proof.
  intros Hw HV Hinv Hs Eo Hd Ei Hk. pose proof (wi_slot _ _ _ _ _ _ _ _ _ Hinv k Hk) as Hslot.
  pose proof (proj1 (view_Ok _ _ _) HV) as (V1 & _ & V3 & _).
  destruct (w_dst w) as [rid i | n] eqn:Ed; cbn [dst_read extra] in *.
  - inv_ok. rename select (get_iu _ _ g2 = _) into Hi2. rename select (get_iu _ _ g = _) into Hi. rename select (Some _ = wv_in V) into E1.
    rewrite <- E1 in Ei. cbn in Ei. apply Some_inj in Ei. rename x into iu, x0 into iu2. destruct (Z.eqb_spec k 0) as [->|Hk0].
    + destruct (decide (InputUnit.m_direction iu = "Local"%string)) as [Hl|Hl].
      * rewrite (nbub_local cur g _ _ _ (fb_bubbles _ _ _ _ _ _ _ Hg) Hi Hl) in Hslot.
        pose proof (f_equal (fun x => InputUnit.m_direction x.1.1) Ei) as Edir. cbn in Edir.
        rewrite (nbub_local cur g2 _ _ _ (ni_bubble _ _ _ (mv_inv _ _ _ _ (ph_mv _ _ _ _ _ Hp))) Hi2) by (by rewrite Edir).
        apply (slot_same _ _ _ _ _ _ Hslot); [done | |].
        -- cbn [wv_in]. rewrite <- E1. cbn [fmap option_fmap option_map]. by rewrite (iu_rest_vc _ _ 0 Ei) by auto.
        -- apply (out_after w _ _ _ _ Hw V1 Eo). left. rewrite Ed. intros rid' i' row e [= <- <-] Hrow He.
           destruct (get_iu_sk _ _ _ _ Hi) as (row' & Hrow' & He'). rewrite Hrow in Hrow'. apply Ok_inj in Hrow' as <-.
           rewrite He in He'. by apply Ok_inj in He' as ->.
      * by apply (inner_slot_after w V out2 rid i iu iu2).
    + apply (slot_same _ _ _ _ _ _ Hslot); [done | |].
      * cbn [wv_in]. rewrite <- E1. cbn [fmap option_fmap option_map]. by rewrite (iu_rest_vc _ _ k Ei) by auto.
      * apply (out_after w _ _ _ _ Hw V1 Eo). by right.
  - inv_ok. rename select (None = wv_in V) into E1. apply (slot_same _ _ _ _ _ _ Hslot); [done | by cbn [wv_in]; rewrite <- E1 |].
    apply (out_after w _ _ _ _ Hw V1 Eo). left. by rewrite Ed.
Qed.

Lemma wire_after w V : w ∈ W -> view w g = Ok V -> wire_inv cur (skel g) (bubble g) w V ->
  exists V2, view w g2 = Ok V2 /\ wire_inv cur (skel g) (bubble g2) w V2.
Proof.
  intros Hw HV Hinv. pose proof (proj1 (view_Ok _ _ _) HV) as (V1 & V2 & V3 & V4).
  destruct (src_after _ _ _ V1) as (out2 & S1 & S2). destruct (dst_after _ _ _ V3) as (inp2 & D1 & D2).
  destruct after_links as (L1 & L2 & _). exists (mkView (wv_queue V) out2 (wv_net V) (wv_credits V) inp2 (wv_credit V)).
  split; [apply view_Ok; cbn; by rewrite L1, L2|].
  pose proof (fun k => slot_after w V out2 inp2 k Hw HV Hinv S1 S2 D1 D2) as Hslot. destruct Hinv.
  split; try done; cbn [wv_out wv_in wv_queue wv_net wv_credits wv_credit].
  - destruct out2 as [ou2|], (wv_out V) as [ou|]; cbn in S2; try done. apply Some_inj, (f_equal (fun u => OutputUnit.m_credit_link u.1.1)) in S2.
    cbn in S2. by rewrite S2.
  - destruct inp2 as [iu2|], (wv_in V) as [iu|]; cbn in D2; try done. apply Some_inj, (f_equal (fun u => m_in_link u.1.1)) in D2.
    cbn in D2. by rewrite D2.
  - destruct (w_dst w) as [rid i | n] eqn:Ed; cbn [dst_read] in D1, V3.
    + apply bind_Ok in D1 as (iu2 & Hi2 & [= _ <-]%Ok_inj). apply bind_Ok in V3 as (iu & Hi & [= _ Ei]%Ok_inj). rewrite <- Ei in wi_wait, D2.
      cbn in D2. apply Some_inj in D2. by apply (waiting_after rid i iu iu2).
    + by apply bind_Ok in D1 as (ni & _ & [= _ <-]%Ok_inj).
Qed.

Lemma router_after rid r2 : vec_get (m_routers g2) rid = Ok r2 -> router_fixed (g_config g) r2.
Proof.
  intros Hr2. destruct after_links as (_ & _ & _ & _ & E). destruct (map_eq_get _ _ _ _ _ E Hr2) as (r & Hr & Er).
  pose proof (fb_routers _ _ _ _ _ _ _ Hg _ _ Hr) as Hf. pose proof (f_equal (fun x => x.1.1) Er) as E1. pose proof (f_equal (fun x => x.1.2) Er) as E2.
  pose proof (f_equal snd Er) as E3. cbn in E2, E3.
  apply (router_fixed_units vn vp _ r); try done.
  - by apply (f_equal RouterState.m_latency) in E1.
  - by apply (f_equal RouterState.m_virtual_networks) in E1.
  - by apply (f_equal m_sw_alloc) in E1.
  - by apply (f_equal m_switch) in E1.
  - by rewrite <- !(vsize_map iu_rest), E2.
  - by rewrite <- !(vsize_map ou_rest), E3.
  - apply Forall_lookup. intros n iu2 Hn. destruct (map_eq_get _ _ _ (Z.of_nat n) iu2 E2) as (iu & Hi & Eu).
    { apply vec_get_Ok. split; [lia | by rewrite Nat2Z.id]. }
    pose proof (Forall_vec_get _ _ _ _ (rf_ius _ _ _ _ Hf) Hi) as D.
    apply (f_equal (fun x => (InputUnit.m_vc_per_vnet x.1.1, m_num_buffer_writes x.1.1, m_num_buffer_reads x.1.1, x.1.2))) in Eu.
    cbn in Eu. injection Eu as F1 F2 F3 F4. unfold iu_dim. by rewrite F1, F2, F3, F4.
  - apply Forall_lookup. intros n ou2 Hn. destruct (map_eq_get _ _ _ (Z.of_nat n) ou2 E3) as (ou & Hi & Eu).
    { apply vec_get_Ok. split; [lia | by rewrite Nat2Z.id]. }
    pose proof (Forall_vec_get _ _ _ _ (rf_ous _ _ _ _ Hf) Hi) as D.
    apply (f_equal (fun x => (OutputUnit.m_vc_per_vnet x.1.1, x.1.2))) in Eu. cbn in Eu. injection Eu as F1 F2. unfold ou_dim. by rewrite F1, F2.
Qed.

Lemma fabric_after : fabric_inv cur g2.
Proof.
  destruct Hp as [[Hi Hms _] _ Hc Hs _ _ _]. destruct after_links as (L1 & L2 & _). split.
  - apply Hi.
  - done.
  - rewrite Hs, L1, L2. apply Hg.
  - apply Hi.
  - rewrite Hc. apply router_after.
  - rewrite Hs. intros w Hw. destruct (fb_wires _ _ _ _ _ _ _ Hg w Hw) as (V & HV & Hinv). by apply (wire_after w V).
Qed.

Lemma routers_flits (rs : list Router) : concat (map router_flits rs) ≡ₚ concat (map input_flits rs) ++ concat (map output_flits rs).
Proof. induction rs as [|r rs IH]; [done|]. cbn. rewrite IH. unfold router_flits. solve_Permutation. Qed.

Lemma packets_after : packets g2 ≡ₚ packets g.
Proof.
  unfold packets, net_flits. destruct after_links as (-> & _ & -> & _ & E). rewrite !map_app. f_equiv. rewrite !routers_flits, !map_app. f_equiv.
  - apply ident_packets, (ph_flits _ _ _ _ _ Hp).
  - assert (Ho : map output_flits (m_routers g2) = map output_flits (m_routers g)); [|by rewrite Ho].
    assert (Hf : forall r, output_flits r = concat (map (fun x => m_buffer (m_out_buffer x.1.1)) (r_rest r).2)) by (intros r; unfold output_flits; cbn; by rewrite map_map).
    apply map_vec_eq; [by rewrite <- !(vsize_map r_rest), E|]. intros rid r r2 Hr Hr2.
    destruct (map_eq_get _ _ _ _ _ E Hr2) as (r1 & Hr1 & Er). rewrite Hr in Hr1. apply Ok_inj in Hr1 as <-. by rewrite !Hf, Er.
Qed.
End After.

(** ** The phase *)

(** What no wakeup changes. *)
Record steady (g g' : GarnetNetwork) : Prop := {
  st_skel : skel g' = skel g;
  st_config : g_config g' = g_config g;
  st_init : m_bubble_init g' = m_bubble_init g;
  st_nets : vsize (m_networklinks g') = vsize (m_networklinks g);
  st_creds : vsize (m_creditlinks g') = vsize (m_creditlinks g);
  st_nis : map ni_rest (m_nis g') = map ni_rest (m_nis g);
  st_stats : stat_vectors (g_stats g') = stat_vectors (g_stats g)
}.

#[export] Instance steady_preorder : PreOrder steady.
Proof. split; [intros g; by split | intros g g1 g2 [] []; split; congruence]. Qed.

Lemma frame_steady g g' : frame vn vp g g' -> steady g g'.
Proof. intros []. by split. Qed.

(** The bubbles have been placed, and the scheme moves them at a positive period on an even mesh. *)
Definition bubbles_ready (g : GarnetNetwork) : Prop :=
  m_enable_bn (g_config g) = 1 -> m_bubble_init g = true /\ m_scheme (g_config g) = "bn"%string /\
    0 < m_inter_bubble_period (g_config g) /\ m mod 2 = 0.

Lemma bubbles_ready_steady g g' : steady g g' -> bubbles_ready g -> bubbles_ready g'.
Proof. intros [_ E1 E2 _ _ _ _]. unfold bubbles_ready. by rewrite E1, E2. Qed.

Lemma phase_ok rand fuel cur g : fabric_inv cur g -> bubbles_ready g ->
  exists g1 g2, init_bubbles rand fuel cur g = Ok g /\ move_all_intra rand cur g = Ok g1 /\ move_all_inter rand cur g1 = Ok g2 /\
    fabric_inv cur g2 /\ steady g g2 /\ packets g2 ≡ₚ packets g.
Proof.
  intros Hg Hb. unfold bubbles_ready in Hb. unfold init_bubbles. destruct (Z.eqb_spec (m_enable_bn (g_config g)) 1) as [E|E].
  - destruct (Hb E) as (Hi & Hs & Hper & Hev). rewrite Hi. cbn [andb negb].
    destruct (bubble_phase_total rand cur m (inbound g) g) as (g1 & g2 & H1 & H2 & Hp); try done.
    + by apply fabric_movable.
    + intros rid r Hr En. pose proof (shape_ni _ _ (rf_shape _ _ _ _ (fb_routers _ _ _ _ _ _ _ Hg _ _ Hr))) as H. cbn in H.
      rewrite En in H. unfold vsize in H. cbn in H. lia.
    + exists g1, g2. split_and!; [done | done | done | by apply (fabric_after cur g) | | by apply (packets_after cur)].
      destruct (after_links cur g g2 Hp) as (L1 & L2 & L4 & L3 & _).
      split; [apply Hp | apply Hp | done | by rewrite L1 | by rewrite L2 | by rewrite L4 | by apply (after_stats cur)].
  - exists g, g. unfold move_all_intra, move_all_inter. rewrite (proj2 (Z.eqb_neq _ _) E). by split_and!.
Qed.
End Bubbles.
