(* ===== verification/BubbleProperties.v ===== *)
(** * Properties of bubble movement, with an example network *)

From S2P Require Import Topology TopologyProperties.
From S2P Require Import Prelude Flit FlitBuffer RubySet NetDest NetDestTheory Consumer Config RoutingUnit RoutingTable.
From S2P Require Import MeshRouting NetworkLink VirtualChannel OutVcState OutputUnit InputUnit RouterState.
From S2P Require Import SwitchTheory BubblePath MessageBuffer NetStats NetworkInterface GarnetNetwork Bubble.
From S2P Require Import NetLens NetRouting BubbleInv BubbleMoves BubbleIntra BubbleInit BubbleInter.
From S2P Require Import BubbleCheck RouterWakeup.
Local Open Scope Z_scope.

(** ** An example: a 2x2 mesh with one interface per router *)

Definition node_dest (n : Z) : NetDest := mkNetDest [mkRSet 4 (2 ^ n)].
Definition no_random (n : nat) : Z := Z.of_nat n.

(** A packet for interface 0 in VC 0 of input port [inport] of router [rid], with the credit it holds. *)
Definition add_packet (rid inport outport : Z) (dirn : PortDirection) (g : GarnetNetwork) : result GarnetNetwork :=
  iu ← get_iu rid inport g;
  up ← upstream_op rid iu g;
  g1 ← occupy 5 up rid inport g;
  let f := advance_stage SA_ 5 (set_outport_dirn dirn (Flit.set_outport outport (flit_new 0 0 0 (mkRouteInfo 0 (node_dest 0) 3 3 0 0 0) 1
             (mkMessage 0 0 0 0 (node_dest 0) MessageSizeType_Control 0) 5 false))) in
  on_net_iu rid inport (InputUnit.insertFlit 0 f) g1.

(** One bubble in router 0; a packet in router 0 and one in router 1. *)
Definition ex_network : result GarnetNetwork :=
  g0 ← mesh_net 3 1 0;
  g1 ← init_brownian_bubbles no_random 5 0 g0;
  g2 ← add_packet 0 2 0 "Local" g1;
  add_packet 1 1 1 "West" g2.

Definition ex_net : GarnetNetwork := match ex_network with Ok g => g | Err _ => ex_default end.

Lemma ex_movable : movable 25 2 (fun _ _ => 0) ex_net.
Proof. apply movable_b_sound. vm_compute. reflexivity. Qed.

(** ** One move *)

(** C4: A move of a bubble within its router succeeds in every network that satisfies the channel
    invariant and has a positive inter-router period (the code divides by it): no assertion fails and no index is out of range.
    The invariant holds again, the flits buffered in the network are the same, a bubble that moved sits at another input port of
    the same router, and nothing happens before the period is over. *)
Theorem intra_move_correct rand cur t id g b :
  net_inv cur t g -> vec_get (bubble g) id = Ok b -> 0 < m_inter_bubble_period (g_config g) ->
  exists moved g', move_intra_bubble rand cur id g = Ok (moved, g') /\ net_inv cur t g' /\
    all_flits g' ≡ₚ all_flits g /\
    (if moved then exists b', bubble g' = <[Z.to_nat id := b']> (bubble g) /\ router_id b' = router_id b /\
       inport_id b' <> inport_id b
     else bubble g' = bubble g) /\
    (cur - last_intra_movement_cycle b < m_intra_bubble_period (g_config g) -> g' = g).
Proof.
  intros Hg Hb Hp. destruct (move_intra_spec rand cur t id g b Hg Hb Hp) as (mv & g' & He & [Hi Hf _ _ _ _ _ Hbb] & Hn).
  exists mv, g'. split_and!; [done | done | done | | intros; by apply Hn].
  destruct mv; [|done]. destruct Hbb as (b' & ? & ? & ? & _). eauto.
Qed.

Lemma intra_move_correct_witness : exists moved g', move_intra_bubble no_random 25 0 ex_net = Ok (moved, g') /\
  net_inv 25 (fun _ _ => 0) g' /\ moved = true.
Proof.
  destruct (intra_move_correct no_random 25 (fun _ _ => 0) 0 ex_net (nth 0 (bubble ex_net) brownian_bubble_new))
    as (mv & g' & He & Hi & _); [exact (mv_inv _ _ _ _ ex_movable) | vm_compute; reflexivity | vm_compute; reflexivity|].
  exists mv, g'. split_and!; [exact He | exact Hi|].
  assert (H : (p ← move_intra_bubble no_random 25 0 ex_net; Ok p.1) = Ok true) by (vm_compute; reflexivity).
  rewrite He in H. cbn in H. congruence.
Defined.

(** C3: A move of a bubble to the next router of its walk succeeds on every square mesh of even side, with any routing algorithm but
    the custom one (table, XY, random, west-first and both adaptive ones), that satisfies the channel invariant, whose
    routers have input ports, ports to their neighbours and tables with an entry for the destination of every flit.  All of that
    holds again; the flits are the same up to the output port and time stamp of a packet that changed places with the
    bubble, whose route is computed anew; the bubble is in the next router of the snake, one hop away, or where it was. *)
Theorem inter_move_correct rand cur m t id g b :
  movable cur m t g -> vec_get (bubble g) id = Ok b -> m mod 2 = 0 ->
  (forall rid r, vec_get (m_routers g) rid = Ok r -> m_input_unit r <> []) ->
  exists moved g' nxt s b', move_inter_bubble rand cur id g = Ok (moved, g') /\ movable cur m t g' /\
    map ident (all_flits g') ≡ₚ map ident (all_flits g) /\
    move_next_router m (m * m) (router_id b) (sense_inc b) = Ok (nxt, s) /\ dist m (router_id b) nxt = 1 /\
    bubble g' = <[Z.to_nat id := b']> (bubble g) /\ router_id b' = (if moved then nxt else router_id b) /\
    (cur - last_inter_movement_cycle b < m_inter_bubble_period (g_config g) -> moved = false /\ g' = g).
Proof.
  intros Hg Hb Hev Hin. destruct (move_inter_spec rand cur m t id g b Hg Hb Hev Hin)
    as (mv & g' & nxt & s & He & Hm & Hf & _ & _ & _ & _ & Hn & Hd & b' & Hbb & Hr & _ & Hper).
  exists mv, g', nxt, s, b'. split_and!; (done || apply Hper).
Qed.

Lemma ex_ports rid r : vec_get (m_routers ex_net) rid = Ok r -> m_input_unit r <> [].
Proof.
  intros Hr. assert (H : vforall (m_routers ex_net) (fun _ r => 0 <? vsize (m_input_unit r)) = true) by (vm_compute; reflexivity).
  apply (vforall_sound _ _ _ _ H) in Hr. cbn beta in Hr. intros E. rewrite E in Hr. exact (Bool.diff_false_true Hr).
Qed.

Lemma inter_move_correct_witness : exists moved g', move_inter_bubble no_random 25 0 ex_net = Ok (moved, g') /\
  movable 25 2 (fun _ _ => 0) g' /\ moved = true.
Proof.
  destruct (inter_move_correct no_random 25 2 (fun _ _ => 0) 0 ex_net (nth 0 (bubble ex_net) brownian_bubble_new))
    as (mv & g' & nxt & s & b' & He & Hi & _); [exact ex_movable | vm_compute; reflexivity | reflexivity | exact ex_ports|].
  exists mv, g'. split_and!; [exact He | exact Hi|].
  assert (H : (p ← move_inter_bubble no_random 25 0 ex_net; Ok p.1) = Ok true) by (vm_compute; reflexivity).
  rewrite He in H. cbn in H. congruence.
Defined.

(** ** The movement phase of a router wakeup *)

(** The bubble phase of a router wakeup is safe: on an even square mesh that satisfies the
    channel invariant, moving every bubble within its router and then to its next router, as far
    as their periods allow, returns; every assertion holds.  The invariant holds again, no flit
    is lost or duplicated, no bubble disappears, and the links and interfaces are untouched. *)
Theorem bubble_phase_safe rand cur m t g :
  movable cur m t g -> m mod 2 = 0 -> m_scheme (g_config g) = "bn"%string ->
  0 < m_inter_bubble_period (g_config g) ->
  (forall rid r, vec_get (m_routers g) rid = Ok r -> m_input_unit r <> []) ->
  exists g1 g2, move_all_intra rand cur g = Ok g1 /\ move_all_inter rand cur g1 = Ok g2 /\ movable cur m t g2 /\
    map ident (all_flits g2) ≡ₚ map ident (all_flits g) /\ length (bubble g2) = length (bubble g) /\
    m_networklinks g2 = m_networklinks g /\ m_creditlinks g2 = m_creditlinks g /\ m_nis g2 = m_nis g.
Proof.
  intros Hg Hev Hbn Hper Hports. destruct (bubble_phase_total rand cur m t g Hg Hev Hbn Hper Hports) as (g1 & g2 & H1 & H2 & Hp).
  exists g1, g2. destruct Hp as [Hm Hf _ _ Hl Hr _]. injection Hr as En Ec Ei _ _. by split_and!.
Qed.

Lemma bubble_phase_safe_witness : exists g1 g2, move_all_intra no_random 25 ex_net = Ok g1 /\
  move_all_inter no_random 25 g1 = Ok g2 /\ movable 25 2 (fun _ _ => 0) g2.
Proof.
  destruct (bubble_phase_safe no_random 25 2 (fun _ _ => 0) ex_net) as (g1 & g2 & H1 & H2 & H3 & _);
    [exact ex_movable | reflexivity | vm_compute; reflexivity | vm_compute; reflexivity | exact ex_ports|].
  exists g1, g2. split_and!; [exact H1 | exact H2 | exact H3].
Defined.

(** ** Placement *)

(** C5: Placing the bubbles succeeds in an idle network with at least as many routers as bubbles:
    in order, or at random when [random] draws every router within [fuel] draws.  The bubbles
    end in different routers, every one of them in a VC that holds the channel invariant, and
    no flit is touched. *)
Theorem placement_correct rand cur fuel g :
  idle_net cur g -> 0 <= m_num_bubble (g_config g) <= vsize (m_routers g) ->
  (rand_bb (g_config g) = 1 -> covers rand fuel (vsize (m_routers g))) ->
  exists g', init_brownian_bubbles rand cur fuel g = Ok g' /\ m_bubble_init g' = true /\
    net_inv cur (fun _ _ => 0) g' /\ all_flits g' ≡ₚ all_flits g /\
    (forall i j b b', vec_get (bubble g') i = Ok b -> vec_get (bubble g') j = Ok b' -> router_id b = router_id b' -> i = j) /\
    (rand_bb (g_config g) <> 1 -> forall k b, vec_get (bubble g') k = Ok b -> router_id b = k).
Proof.
  intros Hidle Hn Hcov. unfold init_brownian_bubbles.
  destruct (init_loop rand cur fuel g Hidle (Z.to_nat (m_num_bubble (g_config g)))) as [(g' & -> & Hp & Hord) | (Hr & _ & Hc)];
    [lia | lia | | specialize (Hc (Hcov Hr)); lia].
  cbn [mbind result_bind]. rewrite Z2Nat.id in Hp, Hord by lia. eexists. split; [done|].
  assert (Hlen : vsize (bubble g') = m_num_bubble (g_config g))
    by (rewrite <- (in_len _ _ Hidle); unfold vsize; by rewrite (pl_len _ _ _ _ Hp)).
  split_and!; [done | by apply (init_flag cur g Hidle) | apply Hp | |].
  - intros i j b b' Hi Hj. apply (pl_distinct _ _ _ _ Hp); [apply vec_get_range in Hi | apply vec_get_range in Hj | done..];
      cbn in *; lia.
  - intros Hr k b Hk. apply (Hord Hr); [apply vec_get_range in Hk; cbn in *; lia | done].
Qed.

(** C40: With random placement and more bubbles than routers the placement never ends: whatever
    [random] returns, no amount of fuel is enough. *)
Theorem random_placement_diverges rand cur fuel g :
  idle_net cur g -> rand_bb (g_config g) = 1 -> vsize (m_routers g) < m_num_bubble (g_config g) ->
  init_brownian_bubbles rand cur fuel g = Err EFuel.
Proof.
  intros Hidle Hr Hlt. unfold init_brownian_bubbles. pose proof (in_size _ _ Hidle) as HN.
  replace (Z.to_nat (m_num_bubble (g_config g)))
    with (Z.to_nat (vsize (m_routers g)) + (1 + Z.to_nat (m_num_bubble (g_config g) - vsize (m_routers g) - 1)))%nat by lia.
  rewrite for_range_app.
  destruct (init_loop rand cur fuel g Hidle (Z.to_nat (vsize (m_routers g)))) as [(g' & -> & Hp & _) | (_ & -> & _)];
    [lia | lia | | done].
  cbn [mbind result_bind for_range Nat.add]. rewrite Z2Nat.id in * by lia. rewrite Z.add_0_l.
  assert (Hlen : vsize (bubble g') = m_num_bubble (g_config g))
    by (rewrite <- (in_len _ _ Hidle); unfold vsize; by rewrite (pl_len _ _ _ _ Hp)).
  assert (Hsz : vsize (m_routers g') = vsize (m_routers g)) by apply Hp.
  unfold init_bubble. destruct (vec_get_in_range (bubble g') (vsize (m_routers g))) as [b Hb]; [lia|].
  rewrite (on_bubble_Ok _ _ _ _ Hb). cbn [mbind result_bind].
  rewrite (pl_config _ _ _ _ Hp), Hr. cbn [Z.eqb Pos.eqb]. rewrite draw_router_full; [done | by cbn; rewrite Hsz|].
  change (m_routers (with_bubble ?l g')) with (m_routers g'). rewrite Hsz. intros x Hx.
  pose proof (no_free_router cur g g') as Hfull. rewrite Hsz in Hfull. specialize (Hfull Hp ltac:(lia) x Hx).
  unfold occupied in *. cbn. by rewrite take_insert_ge.
Qed.

(** The example mesh before its first wakeup, with random placement of [n] bubbles. *)
Definition ex_idle (n : Z) : GarnetNetwork := match mesh_net 3 n 1 with Ok g => g | Err _ => ex_default end.

Lemma ex_idle_2 : idle_net 5 (ex_idle 2).
Proof. apply idle_b_sound. vm_compute. reflexivity. Qed.
Lemma ex_idle_5 : idle_net 5 (ex_idle 5).
Proof. apply idle_b_sound. vm_compute. reflexivity. Qed.

Lemma no_random_covers : covers no_random 4 4.
Proof.
  intros start r Hr. pose proof (Z.mod_pos_bound (r - Z.of_nat start) 4 ltac:(lia)).
  exists (Z.to_nat ((r - Z.of_nat start) mod 4)). split; [lia|]. unfold no_random, u64.
  rewrite Nat2Z.inj_add, Z2Nat.id by lia. rewrite Z.mod_mod_divide by (by exists (2 ^ 62)).
  rewrite Zplus_mod_idemp_r. replace (Z.of_nat start + (r - Z.of_nat start)) with r by lia. apply Z.mod_small. lia.
Qed.

Lemma placement_correct_witness : exists g', init_brownian_bubbles no_random 5 4 (ex_idle 2) = Ok g' /\
  net_inv 5 (fun _ _ => 0) g'.
Proof.
  destruct (placement_correct no_random 5 4 (ex_idle 2)) as (g' & H1 & _ & H2 & _);
    [exact ex_idle_2 | vm_compute; split; discriminate | intros _; exact no_random_covers|].
  exists g'. split; [exact H1 | exact H2].
Defined.

Lemma random_placement_diverges_witness : init_brownian_bubbles no_random 5 1000 (ex_idle 5) = Err EFuel.
Proof. apply random_placement_diverges; [exact ex_idle_5 | vm_compute; reflexivity | vm_compute; reflexivity]. Defined.
