(* ===== verification/NITheory.v ===== *)
(** * The stages of the network interface

    VC allocation and the out link; the division of a message into packets; ejection into the
    protocol's buffers. *)

From stdpp Require Import sorting.
From S2P Require Import Prelude Heap RubySet NetDest NetDestTheory Flit FlitBuffer Consumer Config OutVcState.
From S2P Require Import NetworkLink SwitchTheory MessageBuffer MessageBufferTheory NetStats NetworkInterface.
Local Open Scope Z_scope.

(** ** Properties of the network interface: injection and the out link *)

Section NI.
Context (c : Config) (cur : Z).

(** The dimensions of an interface after construction and [init]. *)
Record ni_ok (ni : NetworkInterface) : Prop := {
  no_vpv : 0 < m_vc_per_vnet ni;
  no_vnets : 0 < m_virtual_networks ni <= vsize (m_ordered c);
  no_num : m_num_vcs ni = m_virtual_networks ni * m_vc_per_vnet ni;
  no_states : vsize (m_out_vc_state ni) = m_num_vcs ni;
  no_vcs : vsize (m_ni_out_vcs ni) = m_num_vcs ni;
  no_times : vsize (m_ni_out_vcs_enqueue_time ni) = m_num_vcs ni;
  no_alloc : vsize (m_vc_allocator ni) = m_virtual_networks ni;
  no_alloc_range : Forall (fun d => 0 <= d < m_vc_per_vnet ni) (m_vc_allocator ni);
  no_busy : vsize (vc_busy_counter ni) = m_virtual_networks ni;
  no_rr : 0 <= m_vc_round_robin ni < m_num_vcs ni
}.

(** *** Allocation of an output VC *)

Definition vc_idle (ni : NetworkInterface) (vc : Z) : Prop :=
  exists o, vec_get (m_out_vc_state ni) vc = Ok o /\ isInState IDLE_ cur o = true.

(** The allocator's next offset. *)
Definition next_offset (ni : NetworkInterface) (d : Z) : Z := if d + 1 =? m_vc_per_vnet ni then 0 else d + 1.

Lemma next_offset_mod ni d : 0 <= d < m_vc_per_vnet ni -> next_offset ni d = (d + 1) mod m_vc_per_vnet ni.
Proof.
  intros Hd. unfold next_offset. destruct (Z.eqb_spec (d + 1) (m_vc_per_vnet ni)) as [->|].
  - by rewrite Z.mod_same by lia.
  - by rewrite Z.mod_small by lia.
Qed.

(** The interface with only the allocator pointer and the busy counter of [vnet] changed. *)
Definition same_but_alloc (ni ni' : NetworkInterface) : Prop :=
  exists a b, ni' = with_vc_busy_counter b (with_m_vc_allocator a ni) /\
    vsize a = vsize (m_vc_allocator ni) /\ vsize b = vsize (vc_busy_counter ni) /\
    (Forall (fun d => 0 <= d < m_vc_per_vnet ni) (m_vc_allocator ni) -> Forall (fun d => 0 <= d < m_vc_per_vnet ni) a).

Lemma same_but_alloc_ok ni ni' : same_but_alloc ni ni' -> ni_ok ni -> ni_ok ni'.
Proof. intros (a & b & -> & Ha & Hb & Hf) []. split; cbn; try done; [congruence | auto | congruence]. Qed.

Lemma calculateVC_loop_spec n vnet ni d :
  ni_ok ni -> 0 <= vnet < m_virtual_networks ni -> vec_get (m_vc_allocator ni) vnet = Ok d ->
  exists vc ni', calculateVC_loop cur n vnet ni = Ok (vc, ni') /\ same_but_alloc ni ni' /\
    ((vc = -1 /\ forall k, 0 <= k < Z.of_nat n -> ~ vc_idle ni (vnet * m_vc_per_vnet ni + (d + k) mod m_vc_per_vnet ni)) \/
     (exists k, 0 <= k < Z.of_nat n /\ vc = vnet * m_vc_per_vnet ni + (d + k) mod m_vc_per_vnet ni /\ vc_idle ni vc /\
        (forall j, 0 <= j < k -> ~ vc_idle ni (vnet * m_vc_per_vnet ni + (d + j) mod m_vc_per_vnet ni)) /\
        vec_get (m_vc_allocator ni') vnet = Ok ((d + k + 1) mod m_vc_per_vnet ni) /\
        vec_get (vc_busy_counter ni') vnet = Ok 0)).
Proof.
  revert ni d. induction n as [|n IH]; intros ni d Hok Hv Hd; cbn [calculateVC_loop].
  - destruct (vec_get_in_range (vc_busy_counter ni) vnet) as [x Hx]; [rewrite (no_busy _ Hok); lia|].
    rewrite (vec_modify_Ok _ _ _ _ Hx). cbn [mbind result_bind]. eexists _, _. split; [done|]. split.
    + exists (m_vc_allocator ni), (<[Z.to_nat vnet := x + 1]> (vc_busy_counter ni)). split_and!;
        [by destruct ni | done | apply vsize_insert | done].
    + left. split; [done | lia].
  - pose proof (Forall_vec_get _ _ _ _ (no_alloc_range _ Hok) Hd) as Hdr. cbn beta in Hdr.
    rewrite Hd. cbn [mbind result_bind]. change (if d + 1 =? m_vc_per_vnet ni then 0 else d + 1) with (next_offset ni d).
    rewrite (vec_set_Ok_get _ _ _ _ Hd). cbn [mbind result_bind]. rewrite (next_offset_mod _ _ Hdr).
    set (d' := (d + 1) mod m_vc_per_vnet ni). set (ni1 := with_m_vc_allocator _ ni).
    assert (Hd' : 0 <= d' < m_vc_per_vnet ni) by (apply Z.mod_pos_bound; lia).
    assert (Hd1 : vec_get (m_vc_allocator ni1) vnet = Ok d') by (apply (vec_get_insert _ _ _ _ Hd)).
    destruct (vec_get_in_range (m_out_vc_state ni) (vnet * m_vc_per_vnet ni + d)) as [o Ho].
    { rewrite (no_states _ Hok), (no_num _ Hok). nia. }
    change (m_out_vc_state ni1) with (m_out_vc_state ni). rewrite Ho. cbn [mbind result_bind].
    assert (Hmod : (d + 0) mod m_vc_per_vnet ni = d) by (rewrite Z.add_0_r; by apply Z.mod_small).
    assert (Hall : Forall (fun x => 0 <= x < m_vc_per_vnet ni) (m_vc_allocator ni1))
      by (apply Forall_insert; [apply Hok | done]).
    destruct (isInState IDLE_ cur o) eqn:Ei.
    + destruct (vec_get_in_range (vc_busy_counter ni) vnet) as [x Hx]; [rewrite (no_busy _ Hok); lia|].
      change (vc_busy_counter ni1) with (vc_busy_counter ni).
      rewrite (vec_set_Ok_get _ _ _ _ Hx). cbn [mbind result_bind]. eexists _, _. split; [done|]. split.
      * exists (m_vc_allocator ni1), (<[Z.to_nat vnet := 0]> (vc_busy_counter ni)). split_and!;
          [done | apply vsize_insert | apply vsize_insert | done].
      * right. exists 0. rewrite Hmod. split_and!; [lia | lia | done | by exists o | lia | by rewrite Z.add_0_r |].
        apply (vec_get_insert _ _ _ _ Hx).
    + assert (Hok1 : ni_ok ni1).
      { apply (same_but_alloc_ok ni); [|done]. exists (m_vc_allocator ni1), (vc_busy_counter ni).
        split_and!; [by destruct ni | apply vsize_insert | done | done]. }
      assert (Hno : ~ vc_idle ni (vnet * m_vc_per_vnet ni + d)) by (intros (o' & Ho' & Hi'); rewrite Ho in Ho'; congruence).
      destruct (IH ni1 d' Hok1 Hv Hd1) as (vc & ni' & -> & (a & b & -> & Ha & Hb & Hf) & Hcases).
      assert (Hsh : forall k, (d' + k) mod m_vc_per_vnet ni = (d + (k + 1)) mod m_vc_per_vnet ni).
      { intros k. unfold d'. rewrite Zplus_mod_idemp_l. f_equal. lia. }
      assert (Hbefore : forall j, 0 <= j -> (1 <= j -> ~ vc_idle ni (vnet * m_vc_per_vnet ni + (d' + (j - 1)) mod m_vc_per_vnet ni)) ->
        ~ vc_idle ni (vnet * m_vc_per_vnet ni + (d + j) mod m_vc_per_vnet ni)).
      { intros j Hj Hprev. destruct (decide (j = 0)) as [->|]; [by rewrite Hmod|].
        specialize (Hprev ltac:(lia)). rewrite Hsh in Hprev. by replace (j - 1 + 1) with j in Hprev by lia. }
      eexists _, _. split; [done|]. split.
      { exists a, b. split_and!; [done | rewrite Ha; apply vsize_insert | done | auto]. }
      destruct Hcases as [[-> Hn] | (k & Hk & -> & Hi & Hbf & Hal & Hbu)].
      * left. split; [done|]. intros k Hk. apply Hbefore; [lia|]. intros H1. apply (Hn (k - 1)). lia.
      * right. exists (k + 1). split_and!; [lia | lia | by rewrite <- Hsh | exact Hi | | |done].
        -- intros j Hj. apply Hbefore; [lia|]. intros H1. apply (Hbf (j - 1)). lia.
        -- rewrite Hal. f_equal. change (m_vc_per_vnet ni1) with (m_vc_per_vnet ni).
           rewrite <- (Z.add_assoc d'), Hsh. f_equal. lia.
Qed.

(** *** The out link *)

Lemma get_vnet_loop (f : Z -> bool) n i v : 0 <= v - i < Z.of_nat n -> f v = true -> (forall k, i <= k < v -> f k = false) ->
  for_ctl n i (fun i (_ : unit) => Ok (if f i then Brk i else Cont tt)) tt = Ok (Brk v).
Proof.
  revert i. induction n as [|n IH]; intros i Hv Hf Hno; [lia|]. cbn [for_ctl mbind result_bind].
  destruct (decide (i = v)) as [->|]; [by rewrite Hf|]. rewrite (Hno i) by lia. apply IH; [lia | done|].
  intros k Hk. apply Hno. lia.
Qed.

Lemma NI_get_vnet_spec ni vc : ni_ok ni -> 0 <= vc < m_num_vcs ni ->
  NI_get_vnet vc ni = Ok (vc / m_vc_per_vnet ni) /\ 0 <= vc / m_vc_per_vnet ni < m_virtual_networks ni.
Proof.
  intros Hok Hvc. pose proof (no_vpv _ Hok) as Hp. pose proof (Z.div_mod vc (m_vc_per_vnet ni) ltac:(lia)) as Hdm.
  pose proof (Z.mod_pos_bound vc (m_vc_per_vnet ni) Hp). rewrite (no_num _ Hok) in Hvc.
  assert (Hr : 0 <= vc / m_vc_per_vnet ni < m_virtual_networks ni) by nia. split; [|done].
  unfold NI_get_vnet. rewrite (get_vnet_loop _ _ _ (vc / m_vc_per_vnet ni)); [done | lia | |].
  - rewrite (proj2 (Z.leb_le _ _)), (proj2 (Z.ltb_lt _ _)) by nia. done.
  - intros k Hk. rewrite (proj2 (Z.ltb_ge vc _)) by nia. apply andb_false_r.
Qed.

(** [vc] has waited longest among the VCs [t..t+n-1] with a ready flit. *)
Definition oldest (ni : NetworkInterface) (t n vc : Z) : Prop :=
  forall t_vc b t1 t2, t <= t_vc < t + n -> vec_get (m_ni_out_vcs ni) t_vc = Ok b -> FlitBuffer.isReady cur b = true ->
    vec_get (m_ni_out_vcs_enqueue_time ni) t_vc = Ok t1 -> vec_get (m_ni_out_vcs_enqueue_time ni) vc = Ok t2 -> t2 <= t1.

Lemma oldest_spec n t vc ni : ni_ok ni -> 0 <= t -> t + Z.of_nat n <= m_num_vcs ni -> 0 <= vc < m_num_vcs ni ->
  exists r, oldest_in_vnet cur n t vc ni = Ok r /\ (r = true <-> oldest ni t (Z.of_nat n) vc).
Proof.
  intros Hok. revert t. induction n as [|n IH]; intros t H0 H1 Hvc; cbn [oldest_in_vnet].
  - exists true. split; [done|]. split; [|done]. intros _ t_vc b t1 t2 Hr. lia.
  - destruct (vec_get_in_range (m_ni_out_vcs ni) t) as [b Hb]; [rewrite (no_vcs _ Hok); lia|]. rewrite Hb. cbn [mbind result_bind].
    destruct (vec_get_in_range (m_ni_out_vcs_enqueue_time ni) t) as [t1 Ht1]; [rewrite (no_times _ Hok); lia|].
    destruct (vec_get_in_range (m_ni_out_vcs_enqueue_time ni) vc) as [t2 Ht2]; [rewrite (no_times _ Hok); lia|].
    destruct (IH (t + 1) ltac:(lia) ltac:(lia) Hvc) as (r & Hr & Hiff).
    assert (Hskip : (FlitBuffer.isReady cur b = true -> t2 <= t1) ->
      (oldest ni (t + 1) (Z.of_nat n) vc <-> oldest ni t (Z.of_nat (S n)) vc)).
    { intros Hle. split; intros Ho t_vc b' u1 u2 Ht Hb' Hrd Hu1 Hu2.
      - destruct (decide (t_vc = t)) as [->|]; [merge_ok; auto|]. apply (Ho t_vc b' u1 u2); [lia | done..].
      - apply (Ho t_vc b' u1 u2); [lia | done..]. }
    destruct (FlitBuffer.isReady cur b) eqn:Er.
    + rewrite Ht1. cbn [mbind result_bind]. rewrite Ht2. cbn [mbind result_bind]. destruct (Z.ltb_spec t1 t2).
      * exists false. split; [done|]. split; [done|]. intros Ho. specialize (Ho t b t1 t2 ltac:(lia) Hb Er Ht1 Ht2). lia.
      * exists r. split; [done|]. rewrite Hiff. apply Hskip. lia.
    + exists r. split; [done|]. rewrite Hiff. by apply Hskip.
Qed.

(** VC [vc] may use the out link: a ready flit, a credit, and in an ordered vnet no older VC. *)
Definition sendable (ni : NetworkInterface) (vc : Z) : Prop :=
  exists b o, vec_get (m_ni_out_vcs ni) vc = Ok b /\ FlitBuffer.isReady cur b = true /\
    vec_get (m_out_vc_state ni) vc = Ok o /\ 0 < m_credit_count o /\
    (vec_get (m_ordered c) (vc / m_vc_per_vnet ni) = Ok true ->
     oldest ni (vc / m_vc_per_vnet ni * m_vc_per_vnet ni) (m_vc_per_vnet ni) vc).

Lemma is_candidate_spec ni vc : ni_ok ni -> 0 <= vc < m_num_vcs ni ->
  exists r, is_candidate_vc c cur vc ni = Ok r /\
    (r = true <-> (vec_get (m_ordered c) (vc / m_vc_per_vnet ni) = Ok true ->
       oldest ni (vc / m_vc_per_vnet ni * m_vc_per_vnet ni) (m_vc_per_vnet ni) vc)).
Proof.
  intros Hok Hvc. destruct (NI_get_vnet_spec ni vc Hok Hvc) as [Hv Hr]. pose proof (no_vpv _ Hok) as Hp.
  unfold is_candidate_vc, isVNetOrdered. rewrite Hv. cbn [mbind result_bind].
  pose proof (no_vnets _ Hok). destruct (vec_get_in_range (m_ordered c) (vc / m_vc_per_vnet ni)) as [b Hb]; [lia|].
  rewrite Hb. cbn [mbind result_bind]. destruct b.
  - destruct (oldest_spec (Z.to_nat (m_vc_per_vnet ni)) (vc / m_vc_per_vnet ni * m_vc_per_vnet ni) vc ni Hok)
      as (r & Hr' & Hiff); [nia | rewrite (no_num _ Hok), Z2Nat.id by lia; nia | done|].
    exists r. split; [done|]. rewrite Hiff, Z2Nat.id by lia. split; [auto | intros H1; by apply H1].
  - exists true. split; [done|]. split; [done | done].
Qed.

(** The check the search makes at one VC. *)
Lemma ready_spec ni vc : ni_ok ni -> 0 <= vc < m_num_vcs ni ->
  exists r, (b ← vec_get (m_ni_out_vcs ni) vc;
             if FlitBuffer.isReady cur b then
               o ← vec_get (m_out_vc_state ni) vc;
               if OutVcState.has_credit o then is_candidate_vc c cur vc ni else Ok false
             else Ok false) = Ok r /\ (r = true <-> sendable ni vc).
Proof.
  intros Hok Hvc. destruct (vec_get_in_range (m_ni_out_vcs ni) vc) as [b Hb]; [rewrite (no_vcs _ Hok); lia|].
  destruct (vec_get_in_range (m_out_vc_state ni) vc) as [o Ho]; [rewrite (no_states _ Hok); lia|].
  rewrite Hb. cbn [mbind result_bind]. unfold sendable.
  destruct (FlitBuffer.isReady cur b) eqn:Er.
  - rewrite Ho. cbn [mbind result_bind]. unfold OutVcState.has_credit. destruct (Z.ltb_spec 0 (m_credit_count o)).
    + destruct (is_candidate_spec ni vc Hok Hvc) as (r & Hr & Hiff). exists r. split; [done|]. rewrite Hiff. split.
      * intros Hord. exists b, o. by split_and!.
      * by intros (b' & o' & _ & _ & _ & _ & Hord).
    + exists false. split; [done|]. split; [done|]. intros (b' & o' & _ & _ & Ho' & Hc & _).
      apply Ok_inj in Ho' as <-. lia.
  - exists false. split; [done|]. split; [done|]. intros (b' & o' & Hb' & Hr & _).
    rewrite Hb in Hb'. apply Ok_inj in Hb' as <-. congruence.
Qed.

Definition waiting_flits (ni : NetworkInterface) : list flit := concat (map m_buffer (m_ni_out_vcs ni)).

(** An interface without what sending a flit changes. *)
Definition send_rest (ni : NetworkInterface) : NetworkInterface :=
  with_m_events [] (with_outFlitQueue flitBuffer_new (with_m_vc_round_robin 0
    (with_m_out_vc_state [] (with_m_ni_out_vcs [] (with_m_ni_out_vcs_enqueue_time [] ni))))).

(** What sending the flit of [vc] does. *)
Record sent (ni : NetworkInterface) (vc : Z) (ni' : NetworkInterface) : Prop := {
  se_ok : ni_ok ni';
  se_rr : m_vc_round_robin ni' = vc;
  se_rest : send_rest ni' = send_rest ni;
  se_flit : exists f b b', vec_get (m_ni_out_vcs ni) vc = Ok b /\ FlitBuffer.getTopFlit b = Ok (f, b') /\
    m_ni_out_vcs ni' = <[Z.to_nat vc := b']> (m_ni_out_vcs ni) /\
    waiting_flits ni ≡ₚ f :: waiting_flits ni' /\
    m_buffer (outFlitQueue ni') ≡ₚ Flit.set_time (cyc_add cur 1) f :: m_buffer (outFlitQueue ni);
  se_credit : exists o, vec_get (m_out_vc_state ni) vc = Ok o /\
    m_out_vc_state ni' = <[Z.to_nat vc := OutVcState.with_m_credit_count (m_credit_count o - 1) o]> (m_out_vc_state ni);
  se_event : m_events ni' = m_events ni ++ [(CNetLink (outNetLink ni), cyc_add cur 1)]
}.

Lemma send_flit_spec ni vc : ni_ok ni -> 0 <= vc < m_num_vcs ni -> sendable ni vc ->
  exists ni', send_flit cur vc ni = Ok ni' /\ sent ni vc ni'.
Proof.
  intros Hok Hvc (b & o & Hb & Hrd & Ho & Hcr & _). unfold send_flit.
  set (ni1 := with_m_vc_round_robin vc ni). change (m_out_vc_state ni1) with (m_out_vc_state ni).
  rewrite (vec_update_Ok _ _ _ _ (OutVcState.with_m_credit_count (m_credit_count o - 1) o) Ho) by (by apply decrement_credit_spec).
  cbn [mbind result_bind]. change (m_ni_out_vcs ni1) with (m_ni_out_vcs ni). rewrite Hb. cbn [mbind result_bind].
  apply isReady_spec in Hrd as (f & Hf & Hle).
  destruct (getTopFlit_total b) as (f' & b' & Hg); [unfold FlitBuffer.peekTopFlit in Hf; by destruct (m_buffer b)|].
  assert (f' = f) as -> by (apply getTopFlit_peek in Hg; congruence).
  rewrite Hg. cbn [mbind result_bind]. rewrite (vec_set_Ok_get _ _ _ _ Hb). cbn [mbind result_bind].
  set (ni2 := NI_schedule _ _).
  assert (Hs2 : forall times, vsize times = vsize (m_ni_out_vcs_enqueue_time ni) -> sent ni vc (with_m_ni_out_vcs_enqueue_time times ni2)).
  { intros times Ht. split.
    - destruct Hok. split; cbn; try done; [by rewrite vsize_insert | by rewrite vsize_insert | congruence].
    - done.
    - done.
    - exists f, b, b'. split_and!; [done | done | done | | apply insert_Permutation].
      unfold waiting_flits. cbn. pose proof (concat_map_vec_insert m_buffer _ _ _ b' Hb) as Hp.
      rewrite (getTopFlit_Permutation _ _ _ Hg) in Hp. cbn in Hp. rewrite Permutation_middle in Hp.
      apply (Permutation_app_inv_l (m_buffer b')). by rewrite <- Hp.
    - exists o. done.
    - done. }
  destruct (is_tail _).
  - destruct (vec_get_in_range (m_ni_out_vcs_enqueue_time ni) vc) as [x Hx]; [rewrite (no_times _ Hok); lia|].
    change (m_ni_out_vcs_enqueue_time ni2) with (m_ni_out_vcs_enqueue_time ni).
    rewrite (vec_set_Ok_get _ _ _ _ Hx). eexists. split; [done|]. apply Hs2, vsize_insert.
  - exists ni2. split; [done|]. specialize (Hs2 (m_ni_out_vcs_enqueue_time ni) eq_refl). by destruct ni.
Qed.

Definition rr_next (ni : NetworkInterface) (vc : Z) : Z := if vc + 1 =? m_num_vcs ni then 0 else vc + 1.

Lemma rr_next_mod ni vc : 0 <= vc < m_num_vcs ni -> rr_next ni vc = (vc + 1) mod m_num_vcs ni.
Proof.
  intros Hd. unfold rr_next. destruct (Z.eqb_spec (vc + 1) (m_num_vcs ni)) as [->|].
  - by rewrite Z.mod_same by lia.
  - by rewrite Z.mod_small by lia.
Qed.

Lemma output_link_search_spec n vc ni : ni_ok ni -> 0 <= vc < m_num_vcs ni ->
  exists ni', output_link_search c cur n vc ni = Ok ni' /\
    ((ni' = ni /\ forall k, 0 < k <= Z.of_nat n -> ~ sendable ni ((vc + k) mod m_num_vcs ni)) \/
     (exists k, 0 < k <= Z.of_nat n /\ sendable ni ((vc + k) mod m_num_vcs ni) /\
        (forall j, 0 < j < k -> ~ sendable ni ((vc + j) mod m_num_vcs ni)) /\
        sent ni ((vc + k) mod m_num_vcs ni) ni')).
Proof.
  intros Hok. revert vc. induction n as [|n IH]; intros vc Hvc; cbn [output_link_search].
  - exists ni. split; [done|]. left. split; [done | lia].
  - fold (rr_next ni vc). rewrite (rr_next_mod _ _ Hvc). set (vc' := (vc + 1) mod m_num_vcs ni).
    assert (Hvc' : 0 <= vc' < m_num_vcs ni) by (apply Z.mod_pos_bound; lia).
    destruct (ready_spec ni vc' Hok Hvc') as (r & Hr & Hiff). apply bind_Ok in Hr as (b & Hb & Hr).
    rewrite Hb. cbn [mbind result_bind]. rewrite Hr. cbn [mbind result_bind].
    assert (Hsh : forall k, (vc' + k) mod m_num_vcs ni = (vc + (k + 1)) mod m_num_vcs ni).
    { intros k. unfold vc'. rewrite Zplus_mod_idemp_l. f_equal. lia. }
    destruct r.
    + destruct (send_flit_spec ni vc' Hok Hvc') as (ni' & Hs & Hsent); [by apply Hiff|]. exists ni'. split; [done|].
      right. exists 1. split_and!; [lia | lia | by apply Hiff | lia | done].
    + assert (Hno : ~ sendable ni vc') by (intros Hx; apply Hiff in Hx; done).
      assert (Hbefore : forall j, 0 < j -> (1 < j -> ~ sendable ni ((vc' + (j - 1)) mod m_num_vcs ni)) ->
        ~ sendable ni ((vc + j) mod m_num_vcs ni)).
      { intros j Hj Hp. destruct (decide (j = 1)) as [->|]; [done|]. specialize (Hp ltac:(lia)). rewrite Hsh in Hp.
        by replace (j - 1 + 1) with j in Hp by lia. }
      destruct (IH vc' Hvc') as (ni' & -> & Hcases). exists ni'. split; [done|].
      destruct Hcases as [[-> Hn] | (k & Hk & Hs & Hbf & Hsent)].
      * left. split; [done|]. intros k Hk. apply Hbefore; [lia|]. intros H1. apply Hn. lia.
      * right. exists (k + 1). rewrite <- Hsh. split_and!; [lia | lia | done | | done].
        intros j Hj. apply Hbefore; [lia|]. intros H1. apply Hbf. lia.
Qed.
End NI.

(** ** Division of a message into packets

    [flitisizeMessage] gives every destination of a message a packet of its own, in an idle
    output VC, until it runs out of VCs; the message keeps the destinations that are left. *)

Lemma for_ctl_find {R} (body : Z -> unit -> result (ctl unit R)) n i v r :
  0 <= v - i < Z.of_nat n -> body v tt = Ok (Brk r) -> (forall k, i <= k < v -> body k tt = Ok (Cont tt)) ->
  for_ctl n i body tt = Ok (Brk r).
Proof.
  revert i. induction n as [|n IH]; intros i Hv Hb Hno; [lia|]. cbn [for_ctl].
  destruct (decide (i = v)) as [->|]; [by rewrite Hb|]. rewrite (Hno i) by lia. cbn [mbind result_bind].
  apply IH; [lia | done|]. intros k Hk. apply Hno. lia.
Qed.

Section Inject.
Context {MT : MachineTypes} {MTok : MachineTypesOk MT}.
Context (c : Config) (cur : Z) (get_router_id : Z -> result Z).

(** *** One destination *)

Lemma personal_dest_of_spec nd m j : shaped nd -> 0 <= m < MachineType_NUM -> 0 <= j < MachineType_base_count m ->
  exists p, personal_dest_of (MachineType_base_number m + j) nd = Ok (Some p) /\ shaped p /\
    forall x, node p x <-> x = MachineType_base_number m + j.
Proof.
  intros Hs Hm Hj. destruct (clear_spec nd Hs) as [Hsc Hno].
  destruct (add_single (NetDest.clear nd) m j Hsc Hno Hm Hj) as (p & Hp & Hsp & Hmem).
  exists p. unfold personal_dest_of. pose proof (MachineType_base_next m ltac:(lia)) as Hnext.
  rewrite (for_ctl_find _ _ _ m p); [split; [done|]; split; [done|] | lia | |].
  - intros x. split; [intros (m' & j' & [-> ->]%Hmem & ->); done | intros ->; exists m, j; split; [by apply Hmem | done]].
  - rewrite (proj2 (Z.leb_le _ _)), (proj2 (Z.ltb_lt _ _)) by lia. cbn [andb].
    replace (MachineType_base_number m + j - MachineType_base_number m) with j by lia. by rewrite Hp.
  - intros k Hk. pose proof (base_mono (k + 1) m ltac:(lia)). rewrite (proj2 (Z.ltb_ge _ (MachineType_base_number (k + 1)))) by lia.
    by rewrite andb_false_r.
Qed.

Lemma split_multicast msg d : shaped (destination msg) -> node (destination msg) d ->
  exists p rest, split_message true d msg = Ok (with_destination p msg, with_destination rest msg) /\
    shaped p /\ shaped rest /\ (forall x, node p x <-> x = d) /\
    forall x, node rest x <-> node (destination msg) x /\ x <> d.
Proof.
  intros Hs (m & j & Hmem & ->). destruct (shaped_member _ _ _ Hs Hmem) as [Hm Hj].
  destruct resize_spec as (e & He & Hse & _). destruct (personal_dest_of_spec e m j Hse Hm Hj) as (p & Hp & Hsp & Hnode).
  destruct (remove_total (destination msg) p Hs Hsp) as (rest & Hr & Hsr).
  exists p, rest. unfold split_message. rewrite He. cbn [mbind result_bind]. rewrite Hp. cbn [mbind result_bind].
  rewrite Hr. cbn [mbind result_bind]. split_and!; [done..|].
  intros x. rewrite (remove_node _ _ _ x Hs Hsp Hsr Hr), Hnode. done.
Qed.

(** *** Counters *)

(** The injection counters have a slot for every vnet and for router [rid]. *)
Record inj_ok (vnets rid : Z) (s : NetStats) : Prop := {
  io_flits : vnets <= vsize (m_flits_injected s);
  io_pkts : vnets <= vsize (m_packets_injected s);
  io_mflits : vnets <= vsize (m_marked_flt_injected s);
  io_mpkts : vnets <= vsize (m_marked_pkt_injected s);
  io_dist : rid < vsize (m_flt_dist s);
  io_mdist : rid < vsize (m_marked_flt_dist s)
}.

Definition world_ok (ni : NetworkInterface) (w : NIWorld) : Prop :=
  0 <= m_router_id ni < vsize (w_mrkd w) /\ inj_ok (m_virtual_networks ni) (m_router_id ni) (w_stats w).

(** Packets injected so far in [vnet]. *)
Definition injected (vnet : Z) (w : NIWorld) : Z :=
  match vec_get (m_packets_injected (w_stats w)) vnet with Ok n => n | Err _ => 0 end.

Lemma bump_spec i n v : 0 <= i < vsize v -> exists x, vec_get v i = Ok x /\ bump i n v = Ok (<[Z.to_nat i := x + n]> v).
Proof.
  intros Hi. destruct (vec_get_in_range v i Hi) as [x Hx]. exists x. split; [done|].
  unfold bump. by rewrite (vec_modify_Ok _ _ _ _ Hx).
Qed.

Lemma take_mark_spec ni w : world_ok ni w ->
  exists b w', take_mark c cur ni w = Ok (b, w') /\ world_ok ni w' /\ w_stats w' = w_stats w.
Proof.
  intros Hw. unfold take_mark. destruct (sim_type c =? 2); [|by exists false, w]. destruct (warmup_cycles c <? cur); [|by exists false, w].
  pose proof Hw as [Hm Hs]. destruct (vec_get_in_range (w_mrkd w) (m_router_id ni) Hm) as [n Hn].
  assert (Hat : vec_at (w_mrkd w) (m_router_id ni) = Ok n).
  { apply vec_get_Ok in Hn as [H0 Hn]. unfold vec_at. rewrite (proj2 (Z.ltb_ge _ 0)) by lia. by rewrite Hn. }
  rewrite Hat. cbn [mbind result_bind]. destruct (0 <? n); [|by exists false, w].
  rewrite (vec_set_Ok_get _ _ _ _ Hn). cbn [mbind result_bind]. eexists _, _. split; [done|]. split; [|done].
  split; cbn [w_mrkd w_stats]; [by rewrite vsize_insert | done].
Qed.

Local Ltac counter_sizes :=
  split; cbn [m_flits_injected m_packets_injected m_marked_flt_injected m_marked_pkt_injected m_flt_dist m_marked_flt_dist
    with_marked_flt_injected with_m_marked_flt_dist with_m_marked_flt_injected with_m_flt_dist with_m_flits_injected
    with_m_packets_injected with_m_marked_pkt_injected]; rewrite ?vsize_insert; assumption.

Lemma count_flit vnets rid vnet (b : bool) s : inj_ok vnets rid s -> 0 <= vnet < vnets -> 0 <= rid ->
  exists s1, increment_injected_flits vnet b rid s = Ok s1 /\ inj_ok vnets rid s1 /\ m_packets_injected s1 = m_packets_injected s.
Proof.
  intros [] Hv Hr. unfold increment_injected_flits.
  destruct (bump_spec vnet 1 (m_flits_injected s)) as (x1 & _ & ->); [lia|]. cbn [mbind result_bind].
  destruct (bump_spec rid 1 (m_flt_dist s)) as (x2 & _ & ->); [lia|]. cbn [mbind result_bind].
  set (s1 := with_m_flt_dist _ _). destruct b.
  - destruct (bump_spec vnet 1 (m_marked_flt_injected s)) as (x3 & _ & Hb); [lia|].
    destruct (bump_spec rid 1 (m_marked_flt_dist s)) as (x4 & _ & Hb4); [lia|].
    change (m_marked_flt_injected s1) with (m_marked_flt_injected s). rewrite Hb. cbn [mbind result_bind].
    change (m_marked_flt_dist s1) with (m_marked_flt_dist s). rewrite Hb4. cbn [mbind result_bind].
    eexists. split; [reflexivity|]. subst s1. split; [counter_sizes | reflexivity].
  - exists s1. split; [reflexivity|]. subst s1. split; [counter_sizes | reflexivity].
Qed.

Lemma count_packet vnets rid vnet (b : bool) s : inj_ok vnets rid s -> 0 <= vnet < vnets ->
  exists s1 n, increment_injected_packets vnet b s = Ok s1 /\ inj_ok vnets rid s1 /\
    vec_get (m_packets_injected s) vnet = Ok n /\ vec_get (m_packets_injected s1) vnet = Ok (n + 1).
Proof.
  intros [] Hv. unfold increment_injected_packets.
  destruct (bump_spec vnet 1 (m_packets_injected s)) as (n & Hn & Hb); [lia|]. destruct b.
  - destruct (bump_spec vnet 1 (m_marked_pkt_injected s)) as (x & _ & ->); [lia|]. cbn [mbind result_bind].
    change (m_packets_injected (with_m_marked_pkt_injected _ s)) with (m_packets_injected s). rewrite Hb. cbn [mbind result_bind].
    eexists _, n. split; [reflexivity|]. split; [counter_sizes|]. split; [done|].
    cbn [m_packets_injected with_m_packets_injected]. apply vec_get_insert_eq. lia.
  - cbn [mbind result_bind]. rewrite Hb. cbn [mbind result_bind]. eexists _, n. split; [reflexivity|].
    split; [counter_sizes|]. split; [done|]. cbn [m_packets_injected with_m_packets_injected]. apply vec_get_insert_eq. lia.
Qed.

(** *** One packet *)

Lemma inject_flit_spec vc vnet route new t ni w :
  ni_ok c ni -> world_ok ni w -> 0 <= vc < m_num_vcs ni -> 0 <= vnet < m_virtual_networks ni -> t <= cur ->
  exists b marked w', vec_get (m_ni_out_vcs ni) vc = Ok b /\
    inject_flit c cur 0 vc vnet 1 route new t ni w =
      Ok (with_m_ni_out_vcs (<[Z.to_nat vc := insert (Flit.set_src_delay (cur - t) (flit_new 0 vc vnet route 1 new cur marked)) b]>
            (m_ni_out_vcs ni)) ni, w') /\
    world_ok ni w' /\ injected vnet w' = injected vnet w + 1.
Proof.
  intros Hok Hw Hvc Hv Ht. unfold inject_flit.
  destruct (vec_get_in_range (m_ni_out_vcs ni) vc) as [b Hb]; [rewrite (no_vcs _ _ Hok); lia|].
  destruct (take_mark_spec ni w Hw) as (marked & w1 & -> & [Hm1 Hs1] & Hst1). cbn [mbind result_bind].
  destruct (count_flit _ _ vnet marked _ Hs1 Hv ltac:(lia)) as (s1 & -> & Hi1 & Hp1). cbn [mbind result_bind].
  unfold cyc_sub. rewrite (proj2 (Z.leb_le t cur)) by lia. cbn [mbind result_bind].
  rewrite (vec_modify_Ok _ _ _ _ Hb). cbn [mbind result_bind].
  destruct (count_packet _ _ vnet marked _ Hi1 Hv) as (s2 & n & Hinc & Hi2 & Hn & Hn').
  change (is_tail _) with true. cbn iota. rewrite Hinc. cbn [mbind result_bind].
  exists b, marked, (mkNIWorld s2 (w_mrkd w1)). split; [done|]. split; [reflexivity|]. split; [by split|].
  unfold injected. cbn [w_stats]. rewrite Hn', <- Hst1, <- Hp1, Hn. done.
Qed.

(** A packet of one flit for destination [d]. *)
Record packet (ni : NetworkInterface) (vnet d : Z) (msg : Message) (f : flit) : Prop := {
  pk_type : Flit.m_type f = HEAD_TAIL_;
  pk_vnet : Flit.m_vnet f = vnet;
  pk_dest : dest_ni (m_route f) = d;
  pk_router : get_router_id d = Ok (dest_router (m_route f));
  pk_src : src_ni (m_route f) = m_id ni /\ src_router (m_route f) = m_router_id ni;
  pk_net_dest : net_dest (m_route f) = destination (m_msg_ptr f);
  pk_payload : payload (m_msg_ptr f) = payload msg
}.

Definition same_dims (ni ni' : NetworkInterface) : Prop :=
  m_id ni' = m_id ni /\ m_router_id ni' = m_router_id ni /\ m_virtual_networks ni' = m_virtual_networks ni /\
  m_vc_per_vnet ni' = m_vc_per_vnet ni /\ m_num_vcs ni' = m_num_vcs ni.

(** What is left of the message once [ds] have been served, and what a packet for [d] carries. *)
Definition left_over (multicast : bool) (ds : list Z) (msg msg' : Message) : Prop :=
  payload msg' = payload msg /\ msg_time msg' = msg_time msg /\
  if multicast then shaped (destination msg') /\ forall x, node (destination msg') x <-> node (destination msg) x /\ x ∉ ds
  else msg' = msg.
Definition carries (multicast : bool) (msg : Message) (f : flit) : Prop :=
  if multicast then forall x, node (destination (m_msg_ptr f)) x <-> x = dest_ni (m_route f)
  else destination (m_msg_ptr f) = destination msg.

Lemma active_not_idle vc ni st : vec_modify (m_out_vc_state ni) vc (setState ACTIVE_ cur) = Ok st -> 
  forall ni', m_out_vc_state ni' = st -> forall v, vc_idle cur ni' v <-> vc_idle cur ni v /\ v <> vc.
Proof.
  unfold vec_modify. intros (o & Ho & [Hr ->]%vec_set_Ok)%bind_Ok ni' Hst v. unfold vc_idle. rewrite Hst.
  destruct (decide (v = vc)) as [->|Hne].
  - rewrite vec_get_insert_eq by done. split; [intros (x & <-%Ok_inj & Hi); done | by intros [_ []]].
  - rewrite vec_get_insert_ne by lia. split; [done | by intros []].
Qed.

Lemma send_to_spec vc vnet d mc msg ni w r :
  ni_ok c ni -> world_ok ni w -> 0 <= vc < m_num_vcs ni -> 0 <= vnet < m_virtual_networks ni ->
  msg_time msg <= cur -> get_router_id d = Ok r -> (mc = true -> shaped (destination msg) /\ node (destination msg) d) ->
  exists f msg' ni' w', send_to c cur get_router_id vc vnet d mc msg ni w = Ok (msg', ni', w') /\
    packet ni vnet d msg f /\ carries mc msg f /\ left_over mc [d] msg msg' /\ Flit.m_vc f = vc /\
    waiting_flits ni' ≡ₚ f :: waiting_flits ni /\ ni_ok c ni' /\ world_ok ni' w' /\ same_dims ni ni' /\
    injected vnet w' = injected vnet w + 1 /\ forall v, vc_idle cur ni' v <-> vc_idle cur ni v /\ v <> vc.
Proof.
  intros Hok Hw Hvc Hv Ht Hr Hmc. unfold send_to.
  assert (Hsplit : exists new msg', split_message mc d msg = Ok (new, msg') /\ payload new = payload msg /\ left_over mc [d] msg msg' /\
    (if mc then forall x, node (destination new) x <-> x = d else destination new = destination msg)).
  { destruct mc.
    - destruct (Hmc eq_refl) as [Hs Hd]. destruct (split_multicast msg d Hs Hd) as (p & rest & Hsp & _ & Hsr & Hp & Hrest).
      exists (with_destination p msg), (with_destination rest msg). split_and!; [done | done | | done]. split_and!; [done.. | ].
      intros x. rewrite Hrest. by rewrite list_elem_of_singleton.
    - exists msg, msg. by split_and!. }
  destruct Hsplit as (new & msg' & -> & Hpay & Hleft & Hnew). cbn [mbind result_bind]. rewrite Hr. cbn [mbind result_bind].
  set (route := mkRouteInfo _ _ _ _ _ _ _). change (Z.to_nat (num_flits_of msg)) with 1%nat. cbn [for_range].
  change (num_flits_of msg) with 1.
  destruct (inject_flit_spec vc vnet route new (msg_time msg) ni w Hok Hw Hvc Hv Ht) as (b & marked & w' & Hb & -> & Hw' & Hinj).
  cbn [mbind result_bind]. set (f := Flit.set_src_delay _ _). set (ni1 := with_m_ni_out_vcs _ ni).
  change (m_ni_out_vcs_enqueue_time ni1) with (m_ni_out_vcs_enqueue_time ni).
  destruct (vec_get_in_range (m_ni_out_vcs_enqueue_time ni) vc) as [tm Htm]; [rewrite (no_times _ _ Hok); lia|].
  rewrite (vec_set_Ok_get _ _ _ _ Htm). cbn [mbind result_bind]. change (m_out_vc_state ni1) with (m_out_vc_state ni).
  destruct (vec_get_in_range (m_out_vc_state ni) vc) as [o Ho]; [rewrite (no_states _ _ Hok); lia|].
  pose proof (vec_modify_Ok _ _ (setState ACTIVE_ cur) _ Ho) as Hst. rewrite Hst. cbn [mbind result_bind].
  eexists f, msg', _, w'. split; [done|]. split_and!; [by split | by destruct mc | done | done | | | done | done | done |].
  - unfold waiting_flits. cbn. pose proof (concat_map_vec_insert m_buffer _ _ _ (insert f b) Hb) as Hp.
    rewrite (insert_Permutation f b) in Hp. apply (Permutation_app_inv_l (m_buffer b)).
    rewrite Hp. cbn. by rewrite Permutation_middle.
  - destruct Hok. split; cbn; rewrite ?vsize_insert; done.
  - by apply (active_not_idle vc ni _ Hst).
Qed.

(** *** The loop over destinations *)

Definition in_vnet (ni : NetworkInterface) (vnet v : Z) : Prop :=
  vnet * m_vc_per_vnet ni <= v < (vnet + 1) * m_vc_per_vnet ni.

(** Packets [ps] were made for the destinations [ds] of [msg]. *)
Record flitised (mc : bool) (vnet : Z) (ds : list Z) (msg : Message) (ni : NetworkInterface) (w : NIWorld)
    (msg' : Message) (ni' : NetworkInterface) (w' : NIWorld) (ps : list flit) : Prop := {
  fl_dests : map (fun f => dest_ni (m_route f)) ps = ds;
  fl_packets : Forall (fun f => packet ni vnet (dest_ni (m_route f)) msg f /\ carries mc msg f) ps;
  fl_vcs : Forall (fun f => vc_idle cur ni (Flit.m_vc f) /\ ~ vc_idle cur ni' (Flit.m_vc f) /\ in_vnet ni vnet (Flit.m_vc f)) ps;
  fl_vcs_once : NoDup (map Flit.m_vc ps);
  fl_left : left_over mc ds msg msg';
  fl_waiting : waiting_flits ni' ≡ₚ ps ++ waiting_flits ni;
  fl_ok : ni_ok c ni' /\ world_ok ni' w' /\ same_dims ni ni';
  fl_count : injected vnet w' = injected vnet w + vsize ps;
  fl_idle : forall v, vc_idle cur ni' v -> vc_idle cur ni v
}.

Lemma calculateVC_frame vnet ni d : ni_ok c ni -> 0 <= vnet < m_virtual_networks ni -> vec_get (m_vc_allocator ni) vnet = Ok d ->
  exists vc ni1, calculateVC cur vnet ni = Ok (vc, ni1) /\ ni_ok c ni1 /\ same_dims ni ni1 /\
    waiting_flits ni1 = waiting_flits ni /\ (forall v, vc_idle cur ni1 v <-> vc_idle cur ni v) /\
    ((vc = -1 /\ forall v, in_vnet ni vnet v -> ~ vc_idle cur ni v) \/ (vc_idle cur ni vc /\ in_vnet ni vnet vc)).
Proof.
  intros Hok Hv Hd. pose proof (no_vpv _ _ Hok) as Hp. unfold calculateVC.
  destruct (calculateVC_loop_spec c cur (Z.to_nat (m_vc_per_vnet ni)) vnet ni d Hok Hv Hd) as (vc & ni1 & -> & Hs & Hcase).
  pose proof (same_but_alloc_ok c ni ni1 Hs Hok) as Hok1. destruct Hs as (a & b & -> & _).
  eexists vc, _. split_and!; [done | done | done | done | done|]. rewrite Z2Nat.id in Hcase by lia.
  destruct Hcase as [[-> Hno] | (k & Hk & -> & Hi & _)]; [left; split; [done|] | right; split; [done|]].
  - intros v Hvr Hidle. unfold in_vnet in Hvr.
    apply (Hno ((v - vnet * m_vc_per_vnet ni - d) mod m_vc_per_vnet ni)); [by apply Z.mod_pos_bound|].
    rewrite Zplus_mod_idemp_r. replace (d + (v - vnet * m_vc_per_vnet ni - d)) with (v - vnet * m_vc_per_vnet ni) by lia.
    rewrite Z.mod_small by lia. by replace (vnet * m_vc_per_vnet ni + (v - vnet * m_vc_per_vnet ni)) with v by lia.
  - unfold in_vnet. pose proof (Z.mod_pos_bound (d + k) (m_vc_per_vnet ni) Hp). lia.
Qed.

Lemma flitised_nil mc vnet msg ni w ni1 : ni_ok c ni1 -> world_ok ni w -> same_dims ni ni1 -> waiting_flits ni1 = waiting_flits ni ->
  (forall v, vc_idle cur ni1 v <-> vc_idle cur ni v) -> (mc = true -> shaped (destination msg)) ->
  flitised mc vnet [] msg ni w msg ni1 w [].
Proof.
  intros Hok [Hm Hs] Hd Hwt Hi Hsh. pose proof Hd as (_ & Hr & Hn & _). split; try done.
  - constructor.
  - split_and!; [done | done|]. destruct mc; [|done]. split; [by apply Hsh|]. intros x. split; [|by intros []].
    intros H. split; [done | apply not_elem_of_nil].
  - by rewrite Hwt.
  - split_and!; [done | split; by rewrite Hr, ?Hn | done].
  - unfold vsize. cbn. lia.
  - intros v. by rewrite Hi.
Qed.

Lemma flitised_cons mc vnet d ds msg ni w f msg1 ni0 ni1 w1 msg' ni' w' ps :
  same_dims ni ni0 -> (forall v, vc_idle cur ni0 v <-> vc_idle cur ni v) -> waiting_flits ni0 = waiting_flits ni ->
  packet ni0 vnet d msg f -> carries mc msg f -> left_over mc [d] msg msg1 -> waiting_flits ni1 ≡ₚ f :: waiting_flits ni0 ->
  same_dims ni0 ni1 -> injected vnet w1 = injected vnet w + 1 ->
  (forall v, vc_idle cur ni1 v <-> vc_idle cur ni0 v /\ v <> Flit.m_vc f) ->
  vc_idle cur ni (Flit.m_vc f) -> in_vnet ni vnet (Flit.m_vc f) ->
  flitised mc vnet ds msg1 ni1 w1 msg' ni' w' ps -> flitised mc vnet (d :: ds) msg ni w msg' ni' w' (f :: ps).
Proof.
  intros (D1 & D2 & D3 & D4 & D5) Hi0 Hw0 [] Hcar (Hpay & Htime & Hl) Hwt (E1 & E2 & E3 & E4 & E5) Hinj Hi1 Hidle Hin [].
  assert (Hnot : ~ vc_idle cur ni' (Flit.m_vc f)) by (intros [_ []]%fl_idle0%Hi1; done).
  destruct fl_ok0 as (Hok' & Hw' & (F1 & F2 & F3 & F4 & F5)). split.
  - cbn. by rewrite fl_dests0, pk_dest0.
  - constructor.
    + rewrite pk_dest0. split; [|done]. by split; rewrite <- ?D1, <- ?D2.
    + eapply Forall_impl; [exact fl_packets0|]. cbn. intros g [[] Hg]. split.
      * split; try done; [by rewrite <- D1, <- D2, <- E1, <- E2 | congruence].
      * destruct mc; [done|]. cbn in Hl, Hg |- *. by subst msg1.
  - constructor; [done|]. eapply Forall_impl; [exact fl_vcs0|]. cbn. intros g (H1 & H2 & H3).
    split_and!; [by apply Hi0; apply Hi1 in H1 as [H1 _] | done | unfold in_vnet in *; by rewrite <- D4, <- E4].
  - cbn. constructor; [|done]. intros (g & Hg & Hgin)%list_elem_of_fmap.
    rewrite Forall_forall in fl_vcs0. destruct (fl_vcs0 g Hgin) as (H1 & _). apply Hi1 in H1 as [_ []]. done.
  - destruct fl_left0 as (P1 & P2 & P3). split_and!; [congruence | congruence|]. destruct mc; cbn in *; [|congruence].
    destruct Hl as [_ Hl], P3 as [Hs P3]. split; [done|]. intros x. rewrite P3, Hl, list_elem_of_singleton, not_elem_of_cons. tauto.
  - rewrite fl_waiting0, Hwt, Hw0. cbn. by rewrite Permutation_middle.
  - split_and!; [done | done|]. unfold same_dims. split_and!; congruence.
  - rewrite fl_count0, Hinj. unfold vsize. cbn. lia.
  - intros v Hx. apply fl_idle0, Hi1 in Hx as [Hx _]. by apply Hi0.
Qed.

Lemma flitisize_loop_spec mc vnet ds msg ni w :
  ni_ok c ni -> world_ok ni w -> 0 <= vnet < m_virtual_networks ni -> msg_time msg <= cur -> NoDup ds ->
  (forall d, d ∈ ds -> exists r, get_router_id d = Ok r) ->
  (mc = true -> shaped (destination msg) /\ forall d, d ∈ ds -> node (destination msg) d) ->
  exists ok msg' ni' w' ps ds1 ds2, flitisize_loop c cur get_router_id ds mc vnet msg ni w = Ok (ok, msg', ni', w') /\
    ds = ds1 ++ ds2 /\ flitised mc vnet ds1 msg ni w msg' ni' w' ps /\
    if ok : bool then ds2 = [] else ds2 <> [] /\ forall v, in_vnet ni vnet v -> ~ vc_idle cur ni' v.
Proof.
  revert msg ni w. induction ds as [|d ds IH]; intros msg ni w Hok Hw Hv Ht Hnd Hr Hmc; cbn [flitisize_loop].
  - exists true, msg, ni, w, [], [], []. split_and!; [done | done | | done].
    apply flitised_nil; try done. intros E. by apply Hmc.
  - destruct (vec_get_in_range (m_vc_allocator ni) vnet) as [d0 Hd0]; [by rewrite (no_alloc _ _ Hok)|].
    destruct (calculateVC_frame vnet ni d0 Hok Hv Hd0) as (vc & ni0 & -> & Hok0 & Hdim & Hwt & Hidle & Hcase). cbn [mbind result_bind].
    pose proof Hdim as (_ & D2 & D3 & D4 & D5). apply NoDup_cons in Hnd as [Hnd0 Hnd].
    destruct Hcase as [[-> Hno] | [Hi Hin]].
    + change (-1 =? -1) with true. cbn iota. exists false, msg, ni0, w, [], [], (d :: ds). split_and!; [done | done | | done|].
      * apply flitised_nil; try done. intros E. by apply Hmc.
      * intros v Hv'. rewrite Hidle. by apply Hno.
    + assert (Hvc : 0 <= vc < m_num_vcs ni0).
      { pose proof (no_num _ _ Hok). pose proof (no_vpv _ _ Hok). unfold in_vnet in Hin. rewrite D5. nia. }
      rewrite (proj2 (Z.eqb_neq vc (-1))) by lia. destruct (Hr d) as [r Hd]; [by left|].
      destruct (send_to_spec vc vnet d mc msg ni0 w r Hok0) as
        (f & msg1 & ni1 & w1 & -> & Hpk & Hcar & Hl & Hfvc & Hwt1 & Hok1 & Hw1 & Hdim1 & Hinj & Hidle1);
        [by unfold world_ok; rewrite D2, D3 | done | lia | done | done | intros E; split; [by apply Hmc | apply Hmc; [done | by left]]|].
      cbn [mbind result_bind]. subst vc. pose proof Hl as (_ & Htime & Hl').
      pose proof Hdim1 as (_ & _ & E3 & E4 & _).
      destruct (IH msg1 ni1 w1) as (ok & msg' & ni' & w' & ps & ds1 & ds2 & -> & -> & Hfl & Hend);
        [done | done | lia | lia | done | intros x Hx; apply Hr; by right | |].
      { intros ->. destruct (Hmc eq_refl) as [Hs Hn]. destruct Hl' as [Hs1 Hl']. split; [done|].
        intros x Hx. apply Hl'. split; [apply Hn; by right|]. intros ->%list_elem_of_singleton. done. }
      exists ok, msg', ni', w', (f :: ps), (d :: ds1), ds2. split_and!; [done | done | |].
      * by apply (flitised_cons mc vnet d ds1 msg ni w f msg1 ni0 ni1 w1).
      * destruct ok; [done|]. destruct Hend as [He Hend]. split; [done|]. intros v Hv'. apply Hend. unfold in_vnet in *.
        by rewrite E4, D4.
Qed.
End Inject.

(** ** Ejection at the network interface

    A flit that arrives is delivered to its protocol buffer, with one credit back, or it waits
    in the stall queue. *)

Section Eject.
Context (c : Config) (cur : Z) (rr we : bool) (rnd : Z).

(** The messages in the protocol buffers, by payload. *)
Definition node_payloads (o : option MessageBuffer) : list Z :=
  match o with Some b => map payload (m_prio_heap b) | None => [] end.
Definition out_messages (ni : NetworkInterface) : list Z := concat (map node_payloads (outNode_ptr ni)).

(** No protocol buffer has been written in the future. *)
Definition node_ok (o : option MessageBuffer) : Prop :=
  match o with Some b => m_time_last_time_enqueue b <= cur | None => True end.

Definition vnet_count (vnet : Z) (fs : list flit) : Z := vsize (filter (fun f => Flit.m_vnet f = vnet) fs).

(** The stall counters count the stalled flits of each vnet. *)
Record eject_ok (ni : NetworkInterface) : Prop := {
  ej_nodes : Forall node_ok (outNode_ptr ni);
  ej_counts : forall vnet n, vec_get (m_stall_count ni) vnet = Ok n -> n = vnet_count vnet (m_stall_queue ni)
}.

Definition credit_of (f : flit) : Credit := Credit_new (Flit.m_vc f) true cur.

(** [fs] were delivered between [ni] and [ni']. *)
Record delivered (fs : list flit) (ni ni' : NetworkInterface) : Prop := {
  de_messages : out_messages ni' ≡ₚ map (fun f => payload (m_msg_ptr f)) fs ++ out_messages ni;
  de_credits : m_buffer (outCreditQueue ni') ≡ₚ map credit_of fs ++ m_buffer (outCreditQueue ni)
}.

(** The protocol buffer of one vnet is replaced. *)
Lemma set_node_spec vnet b b' ni ni' : out_node vnet ni = Ok b -> set_out_node vnet b' ni = Ok ni' ->
  node_ok (Some b') -> Forall node_ok (outNode_ptr ni) ->
  ni' = with_outNode_ptr (<[Z.to_nat vnet := Some b']> (outNode_ptr ni)) ni /\
  map payload (m_prio_heap b) ++ out_messages ni' ≡ₚ map payload (m_prio_heap b') ++ out_messages ni /\
  Forall node_ok (outNode_ptr ni').
Proof.
  unfold out_node, set_out_node. intros Hb Hs Hn Hall.
  apply bind_Ok in Hb as (o & Ho & Hb). destruct o as [b0|]; [|done]. apply Ok_inj in Hb as ->.
  apply bind_Ok in Hs as (l & Hl & E). apply Ok_inj in E as <-. apply vec_set_Ok in Hl as [_ ->].
  split_and!; [done | | by apply Forall_insert]. unfold out_messages. cbn.
  apply (concat_map_vec_insert node_payloads _ _ _ (Some b') Ho).
Qed.

Lemma out_node_ok vnet b ni : Forall node_ok (outNode_ptr ni) -> out_node vnet ni = Ok b -> m_time_last_time_enqueue b <= cur.
Proof.
  unfold out_node. intros Hall Hb. apply bind_Ok in Hb as (o & Ho & Hb). destruct o as [b0|]; [|done].
  apply Ok_inj in Hb as ->. exact (Forall_vec_get _ _ _ _ Hall Ho).
Qed.

(** Replacing a buffer by one with the same messages. *)
Lemma set_node_same vnet b b' ni ni' : out_node vnet ni = Ok b -> set_out_node vnet b' ni = Ok ni' ->
  m_prio_heap b' = m_prio_heap b -> m_time_last_time_enqueue b' = m_time_last_time_enqueue b -> eject_ok ni ->
  eject_ok ni' /\ delivered [] ni ni' /\ m_stall_queue ni' = m_stall_queue ni.
Proof.
  intros Hb Hs Hh Ht [Hn Hc].
  destruct (set_node_spec vnet b b' ni ni' Hb Hs) as (-> & Hm & Hn'); [cbn; rewrite Ht; by eapply out_node_ok | done|].
  rewrite Hh in Hm. apply Permutation_app_inv_l in Hm. by split_and!.
Qed.

Lemma has_room_spec vnet ni ok ni' : has_room cur vnet ni = Ok (ok, ni') -> eject_ok ni ->
  eject_ok ni' /\ delivered [] ni ni' /\ m_stall_queue ni' = m_stall_queue ni.
Proof.
  unfold has_room. intros H Hok. apply bind_Ok in H as (b & Hb & H).
  destruct (areNSlotsAvailable 1 cur b) as [k b'] eqn:Ea.
  apply bind_Ok in H as (ni1 & Hs & E). apply Ok_inj in E. injection E as <- <-.
  assert (Hsame : m_prio_heap b' = m_prio_heap b /\ m_time_last_time_enqueue b' = m_time_last_time_enqueue b).
  { unfold areNSlotsAvailable in Ea. repeat case_match; injection Ea as <- <-; done. }
  destruct Hsame. by eapply set_node_same.
Qed.

Lemma delivered_trans fs1 fs2 ni ni1 ni2 : delivered fs1 ni ni1 -> delivered fs2 ni1 ni2 -> delivered (fs2 ++ fs1) ni ni2.
Proof.
  intros [H1 H2] [H3 H4]. split; rewrite map_app, <- app_assoc; [by rewrite H3, H1 | by rewrite H4, H2].
Qed.

Lemma eject_spec f ni w ni' w' : eject c cur rr we rnd f ni w = Ok (ni', w') -> eject_ok ni ->
  eject_ok ni' /\ delivered [f] ni ni' /\ m_stall_queue ni' = m_stall_queue ni /\ m_stall_count ni' = m_stall_count ni.
Proof.
  unfold eject. intros H [Hn Hc]. apply bind_Ok in H as (b & Hb & H). apply bind_Ok in H as ([b' evs] & He & H).
  apply bind_Ok in H as (ni1 & Hs & H). apply bind_Ok in H as (w1 & _ & E). apply Ok_inj in E. injection E as <- <-.
  pose proof (out_node_ok _ _ _ Hn Hb) as Ht.
  pose proof (enqueue_spec _ _ _ _ _ _ _ _ _ He Ht)
    as (m & arr & Hp & _ & Hpl & _ & _ & _ & _ & _ & _ & _ & _ & Hte & _).
  destruct (set_node_spec _ b b' ni ni1 Hb Hs) as (-> & Hm & Hn'); [cbn; lia | done|].
  split_and!; [by split | | done | done]. split.
  - change (out_messages (sendCredit _ _ _ (NI_schedule evs ?x))) with (out_messages x).
    rewrite Hp in Hm. cbn in Hm. rewrite Hpl, Permutation_middle in Hm.
    apply (Permutation_app_inv_l (map payload (m_prio_heap b))). exact Hm.
  - cbn. apply insert_Permutation.
Qed.

Lemma vnet_count_app vnet l1 l2 : vnet_count vnet (l1 ++ l2) = vnet_count vnet l1 + vnet_count vnet l2.
Proof. unfold vnet_count, vsize. rewrite filter_app, length_app. lia. Qed.

Lemma vnet_count_one vnet f : vnet_count vnet [f] = if decide (Flit.m_vnet f = vnet) then 1 else 0.
Proof. unfold vnet_count, vsize. rewrite filter_cons, filter_nil. by case_decide. Qed.

(** The counter of one vnet is changed along with the queue. *)
Lemma counts_modify vnet d cs cs' fs fs' : vec_modify cs vnet (fun n => n + d) = Ok cs' ->
  (forall v n, vec_get cs v = Ok n -> n = vnet_count v fs) ->
  (forall v, vnet_count v fs' = vnet_count v fs + if decide (v = vnet) then d else 0) ->
  forall v n, vec_get cs' v = Ok n -> n = vnet_count v fs'.
Proof.
  unfold vec_modify. intros Hm Hc Hf v n Hv. apply bind_Ok in Hm as (x & Hx & Hs). apply vec_set_Ok in Hs as [Hr ->].
  rewrite Hf. destruct (decide (v = vnet)) as [->|Hne].
  - rewrite vec_get_insert_eq in Hv by done. apply Ok_inj in Hv as <-. by rewrite (Hc _ _ Hx).
  - rewrite vec_get_insert_ne in Hv by (lia || done). rewrite (Hc _ _ Hv). lia.
Qed.

Lemma stall_spec f ni ni' : stall f ni = Ok ni' -> eject_ok ni ->
  eject_ok ni' /\ delivered [] ni ni' /\ m_stall_queue ni' = m_stall_queue ni ++ [f].
Proof.
  unfold stall. intros H [Hn Hc]. apply bind_Ok in H as (cs & Hm & H). apply bind_Ok in H as (b & Hb & Hs).
  set (ni1 := with_m_stall_count _ _) in *.
  assert (Hok1 : eject_ok ni1).
  { split; [done|]. apply (counts_modify _ 1 _ _ (m_stall_queue ni) _ Hm Hc). intros v.
    change (m_stall_queue ni1) with (m_stall_queue ni ++ [f]). rewrite vnet_count_app, vnet_count_one. f_equal. by case_decide; case_decide. }
  destruct (set_node_same _ b _ ni1 ni' Hb Hs) as (Hok & Hd & Hq); [done | done | done|].
  split_and!; [done | by destruct Hd; split | exact Hq].
Qed.

(** The stalled flits [done_ ++ todo] of [ni]: at most one of [todo] leaves. *)
Lemma stall_search_spec done_ todo ni w r ni' w' : stall_search c cur rr we rnd done_ todo ni w = Ok (r, ni', w') ->
  eject_ok ni -> m_stall_queue ni = done_ ++ todo ->
  eject_ok ni' /\ exists fs, length fs = (if r then 1 else 0)%nat /\ delivered fs ni ni' /\
    done_ ++ todo ≡ₚ fs ++ m_stall_queue ni'.
Proof.
  revert done_ ni. induction todo as [|f todo IH]; intros done_ ni H Hok Hq; cbn [stall_search] in H.
  - apply Ok_inj in H. injection H as <- <- <-. split; [done|]. exists []. split_and!; [done | by split | by rewrite Hq].
  - apply bind_Ok in H as ([ok ni1] & Hroom & H). destruct (has_room_spec _ _ _ _ Hroom Hok) as (Hok1 & Hd1 & Hq1).
    destruct ok.
    + apply bind_Ok in H as ([ni2 w2] & He & H). destruct (eject_spec _ _ _ _ _ He Hok1) as ([Hn2 Hc2] & Hd2 & Hq2 & Hcn2).
      apply bind_Ok in H as (cs & Hm & H). set (ni3 := with_m_stall_count _ _) in H.
      assert (Hok3 : eject_ok ni3).
      { split; [done|]. apply (counts_modify (Flit.m_vnet f) (-1) (m_stall_count ni2) cs (m_stall_queue ni2)); [exact Hm | done|].
        intros v. rewrite Hq2, Hq1, Hq. change (m_stall_queue ni3) with (done_ ++ todo). change (f :: todo) with ([f] ++ todo).
        rewrite !vnet_count_app, vnet_count_one. case_decide; case_decide; (lia || congruence). }
      assert (Hd3 : delivered [f] ni ni3).
      { change [f] with ([f] ++ []). apply (delivered_trans [] [f] ni ni1); [done|]. destruct Hd2 as [Ha Hb]. split; [exact Ha | exact Hb]. }
      assert (Hperm : done_ ++ f :: todo ≡ₚ [f] ++ m_stall_queue ni3).
      { cbn. symmetry. apply Permutation_middle. }
      apply bind_Ok in H as (n & _ & H). apply bind_Ok in H as (ni4 & H4 & E). apply Ok_inj in E. injection E as <- <- <-.
      destruct (n =? 0).
      * apply bind_Ok in H4 as (b & Hb & Hs).
        destruct (set_node_same _ b _ ni3 ni4 Hb Hs) as (Hok4 & Hd4 & Hq4); [done | done | done|].
        split; [done|]. exists [f]. split_and!; [done | | by rewrite Hq4].
        change [f] with ([] ++ [f]). by apply (delivered_trans [f] [] ni ni3).
      * apply Ok_inj in H4 as <-. split; [done|]. exists [f]. by split_and!.
    + destruct (IH (done_ ++ [f]) ni1 H Hok1) as (Hok' & fs & Hl & Hd & Hp); [by rewrite Hq1, Hq, <- app_assoc|].
      split; [done|]. exists fs. split_and!; [done | | by rewrite <- Hp, <- app_assoc].
      rewrite <- (app_nil_r fs). by apply (delivered_trans [] fs ni ni1).
Qed.

Lemma receive_flit_spec enq link ni w link' ni' w' : receive_flit c cur rr we rnd enq link ni w = Ok (link', ni', w') ->
  eject_ok ni -> (forall f, f ∈ in_flight link -> is_tail f = true) ->
  eject_ok ni' /\ exists fs arrived, (length fs <= (if enq then 0 else 1))%nat /\ delivered fs ni ni' /\
    in_flight link ≡ₚ arrived ++ in_flight link' /\
    m_stall_queue ni ++ map (Flit.set_dequeue_time cur) arrived ≡ₚ fs ++ m_stall_queue ni'.
Proof.
  unfold receive_flit. intros H Hok Htail. destruct (NetworkLink.isReady cur link).
  - apply bind_Ok in H as ([f l1] & Hc & H). apply consumeLink_spec in Hc as (Hp & _).
    assert (Ht : is_tail (Flit.set_dequeue_time cur f) = true) by (apply (Htail f); rewrite Hp; by left).
    rewrite Ht in H. apply bind_Ok in H as ([ok ni1] & Hr & H).
    assert (Hroom : eject_ok ni1 /\ delivered [] ni ni1 /\ m_stall_queue ni1 = m_stall_queue ni /\ (enq = true -> ok = false)).
    { destruct enq; [|destruct (has_room_spec _ _ _ _ Hr Hok) as (?&?&?); by split_and!].
      apply Ok_inj in Hr. injection Hr as <- <-. by split_and!. }
    destruct Hroom as (Hok1 & Hd1 & Hq1 & Henq). destruct ok.
    + apply bind_Ok in H as ([ni2 w2] & He & E). apply Ok_inj in E. injection E as <- <- <-.
      destruct (eject_spec _ _ _ _ _ He Hok1) as (Hok2 & Hd2 & Hq2 & _). split; [done|].
      exists [Flit.set_dequeue_time cur f], [f]. split_and!; [| | done |].
      * destruct enq; [by specialize (Henq eq_refl) | done].
      * exact (delivered_trans [] [_] ni ni1 ni2 Hd1 Hd2).
      * rewrite Hq2, Hq1. cbn. by rewrite Permutation_app_comm.
    + apply bind_Ok in H as (ni2 & Hs & E). apply Ok_inj in E. injection E as <- <- <-.
      destruct (stall_spec _ _ _ Hs Hok1) as (Hok2 & Hd2 & Hq2). split; [done|].
      exists [], [f]. split_and!; [cbn; lia | exact (delivered_trans [] [] ni ni1 ni2 Hd1 Hd2) | done | by rewrite Hq2, Hq1].
  - apply Ok_inj in H. injection H as <- <- <-. split; [done|]. exists [], []. split_and!; [cbn; lia | by split | done|].
    cbn. by rewrite app_nil_r.
Qed.
End Eject.
