(* ===== verification/NIStep.v ===== *)
(** * A network interface within the fabric

    [ni_inv] is the invariant of an interface: each of its output VCs holds at most one token, a flit that waits for
    the out link or one it has issued, and the VC's state and credits say so; what it has stalled has come off its
    in link; the protocol's buffers can be written and hold messages that can be sent.  Every stage of the
    interface's wakeup returns, keeps the invariant and accounts for the tokens and the payloads. *)

From stdpp Require Import sorting.
From S2P Require Import Prelude Heap RubySet NetDest NetDestTheory Flit FlitBuffer Consumer Config RoutingUnit RoutingTable.
From S2P Require Import MeshRouting NetworkLink VirtualChannel OutVcState OutputUnit InputUnit RouterState SwitchAllocator.
From S2P Require Import SwitchTheory SwitchMoved MessageBuffer MessageBufferTheory NetStats NetworkInterface GarnetNetwork Bubble NetLens NetRouting.
From S2P Require Import BubbleInv BubbleMoves BubbleInter NITheory Fabric FabricLinks FabricUnits FabricSwitch.
Local Open Scope Z_scope.

(** ** Statistics *)

(** Every counter of a vnet or of a router exists. *)
Definition stats_ok (vn nr : Z) (s : NetStats) : Prop :=
  Forall (Z.le vn) (take 16 (map vsize (stat_vectors s))) /\ Forall (Z.le nr) (drop 16 (map vsize (stat_vectors s))).

Lemma stats_ok_sizes vn nr s s' : map vsize (stat_vectors s') = map vsize (stat_vectors s) -> stats_ok vn nr s -> stats_ok vn nr s'.
Proof. unfold stats_ok. by intros ->. Qed.

(** A bumped vector, and the chain of bumps of one update. *)
Lemma bump_ok i n v : 0 <= i < vsize v -> exists v', bump i n v = Ok v' /\ vsize v' = vsize v.
Proof. intros Hi. destruct (bump_spec i n v Hi) as (x & _ & ->). eexists. split; [done | apply vsize_insert]. Qed.

Ltac bump_step v' E := match goal with |- context [bump ?i ?n ?v] =>
  destruct (bump_ok i n v) as (v' & -> & E); [cbn; lia|]; cbn [mbind result_bind] end.

Lemma stats_fields vn nr s : stats_ok vn nr s -> vn <= vsize (m_flits_injected s) /\ vn <= vsize (m_packets_injected s) /\
  nr <= vsize (m_flt_dist s) /\ vn <= vsize (m_flits_received s) /\ vn <= vsize (m_flit_network_latency s) /\
  vn <= vsize (m_flit_queueing_latency s) /\ vn <= vsize (m_packets_received s) /\ vn <= vsize (m_packet_network_latency s) /\
  vn <= vsize (m_packet_queueing_latency s).
Proof. intros [H1 H2]. cbn in H1, H2. rewrite !Forall_cons in H1. rewrite !Forall_cons in H2. tauto. Qed.

(** An unmarked packet of one flit is counted on its way in. *)
Lemma injected_ok vn nr s vnet rid : stats_ok vn nr s -> 0 <= vnet < vn -> 0 <= rid < nr ->
  exists s1 s2, increment_injected_flits vnet false rid s = Ok s1 /\ increment_injected_packets vnet false s1 = Ok s2 /\ stats_ok vn nr s2.
Proof.
  intros Hs Hv Hr. pose proof (stats_fields _ _ _ Hs) as (F1 & F2 & F3 & _). unfold increment_injected_flits, increment_injected_packets.
  bump_step v1 E1. bump_step v2 E2. eexists. cut (forall s1, s1 = with_m_flt_dist v1 (with_m_flits_injected v2 s) ->
    exists s2, (v ← bump vnet 1 (m_packets_injected s1); Ok (with_m_packets_injected v s1)) = Ok s2 /\ stats_ok vn nr s2).
  - intros H. destruct (H _ eq_refl) as (s2 & H1 & H2). exists s2. split; [reflexivity|]. split; [exact H1 | exact H2].
  - intros s1 ->. bump_step v3 E3. eexists. split; [reflexivity|]. eapply stats_ok_sizes; [|exact Hs]. cbn in *. by rewrite E1, E2, E3.
Qed.

(** An unmarked packet of one flit is counted on its way out: as a flit, then as a packet. *)
Lemma received_packet_ok vn nr s vnet d1 d2 : stats_ok vn nr s -> 0 <= vnet < vn ->
  exists s', (a ← increment_received_packets vnet false s; b ← increment_packet_network_latency d1 vnet false a;
    increment_packet_queueing_latency d2 vnet false b) = Ok s' /\ stats_ok vn nr s'.
Proof.
  intros Hs Hv. pose proof (stats_fields _ _ _ Hs) as (_ & _ & _ & _ & _ & _ & F4 & F5 & F6).
  unfold increment_received_packets, increment_packet_network_latency, increment_packet_queueing_latency.
  cbn [mbind result_bind]. bump_step v1 E1. bump_step v2 E2. bump_step v3 E3. eexists. split; [reflexivity|]. eapply stats_ok_sizes; [|exact Hs].
  cbn in *. by rewrite E1, E2, E3.
Qed.

Lemma received_ok vn nr s vnet c cur f mrkd : stats_ok vn nr s -> 0 <= vnet < vn ->
  sim_type c = 1 -> m_marked f = false -> Flit.m_type f = HEAD_TAIL_ -> Flit.m_vnet f = vnet ->
  aged (m_dequeue_time f) f -> m_dequeue_time f <= cur ->
  exists s', incrementStats c cur f (mkNIWorld s mrkd) = Ok (mkNIWorld s' mrkd) /\ stats_ok vn nr s'.
Proof.
  intros Hs Hv Hsim Hm Ht Ev Ha Hd. pose proof (stats_fields _ _ _ Hs) as (_ & _ & _ & F1 & F2 & F3 & _). unfold incrementStats. rewrite Hsim, Ev, Hm.
  cbn [Z.eqb Pos.eqb orb andb assert_ mbind result_bind]. unfold increment_received_flits. cbn [w_stats w_mrkd]. bump_step v1 E1.
  unfold aged, cyc_sub in *. rewrite (proj2 (Z.leb_le _ _)) by lia. cbn [mbind result_bind]. rewrite (proj2 (Z.leb_le _ _)) by lia.
  cbn [mbind result_bind]. rewrite (proj2 (Z.leb_le _ _)) by lia. cbn [mbind result_bind].
  unfold increment_flit_network_latency, increment_flit_queueing_latency. bump_step v2 E2. bump_step v3 E3.
  assert (Htail : is_tail f = true) by (unfold is_tail; by rewrite Ht). rewrite Htail.
  set (s4 := update_flit_queueing_latency_histogram _ _ _).
  assert (Es4 : stat_vectors s4 = stat_vectors (with_m_flit_queueing_latency v3 (with_m_flit_network_latency v2 (with_m_flits_received v1 s)))).
  { unfold s4, update_flit_queueing_latency_histogram, update_flit_network_latency_histogram, update_flit_latency_histogram.
    repeat case_match; reflexivity. }
  clearbody s4. cbn in E1, E2, E3.
  destruct (received_packet_ok vn nr s4 vnet (m_dequeue_time f - Flit.m_enqueue_time f - 1)
    (cyc_add (src_delay f) (cur - m_dequeue_time f))) as (s5 & H5 & Hs5); [|done|].
  { eapply stats_ok_sizes; [|exact Hs]. rewrite Es4. cbn. by rewrite E1, E2, E3. }
  rewrite H5. cbn [mbind result_bind]. eexists. split; [reflexivity|]. eapply stats_ok_sizes; [|exact Hs5]. reflexivity.
Qed.

(** ** What the interfaces and flits still have to deliver *)

Section Deliveries.
Context {MT : MachineTypes} {MTok : MachineTypesOk MT}.

Definition flits_deliveries (fs : list flit) : list (Z * Z) := concat (map (fun f => deliveries (m_msg_ptr f)) fs).
Definition node_deliveries (o : option MessageBuffer) : list (Z * Z) := match o with Some b => buffer_deliveries b | None => [] end.
Definition in_deliveries (ni : NetworkInterface) : list (Z * Z) := concat (map node_deliveries (inNode_ptr ni)).
Definition out_deliveries (ni : NetworkInterface) : list (Z * Z) := concat (map node_deliveries (outNode_ptr ni)).

Lemma concat_map_perm {A B} (f : A -> list B) l l' : l ≡ₚ l' -> concat (map f l) ≡ₚ concat (map f l').
Proof. intros H. rewrite <- !flat_map_concat_map. by apply Permutation_flat_map. Qed.

#[export] Instance flits_deliveries_perm : Proper (Permutation ==> Permutation) flits_deliveries.
Proof. intros l l'. apply concat_map_perm. Qed.

Lemma flits_deliveries_app l l' : flits_deliveries (l ++ l') = flits_deliveries l ++ flits_deliveries l'.
Proof. unfold flits_deliveries. by rewrite map_app, concat_app. Qed.

Lemma deliveries_same msg msg' : destination msg' = destination msg -> payload msg' = payload msg -> deliveries msg' = deliveries msg.
Proof. unfold deliveries. by intros -> ->. Qed.

Lemma flits_deliveries_map (h : flit -> flit) l : (forall f, m_msg_ptr (h f) = m_msg_ptr f) -> flits_deliveries (map h l) = flits_deliveries l.
Proof. intros H. unfold flits_deliveries. rewrite map_map. f_equal. apply map_ext. intros f. by rewrite H. Qed.

(** The deliveries of a message whose destinations are known. *)
Lemma deliveries_nodes msg ds : node_ids_fit -> shaped (destination msg) -> NoDup ds -> (forall x, node (destination msg) x <-> x ∈ ds) ->
  deliveries msg ≡ₚ map (pair (payload msg)) ds.
Proof.
  intros Hfit Hs Hnd Hin. destruct (nodes_of_spec _ Hfit Hs) as [Hnd' Hin'].
  apply Permutation_map, NoDup_Permutation; [done | done|]. intros x. by rewrite Hin', Hin.
Qed.
End Deliveries.

(** ** The invariant *)

Section Inv.
Context {MT : MachineTypes} {MTok : MachineTypesOk MT}.
(** The mesh, its routers and the routers of the nodes. *)
Context (c : Config) (m vn vp : Z) (sk : list RouterSk) (ids : list Z).

(** Node [d] can be reached in virtual network [v]: the table of every router has an entry for it. *)
Definition deliverable (v d : Z) : Prop := exists r, vec_get ids d = Ok r /\ in_mesh m m r /\
  forall rid row, vec_get sk rid = Ok row -> let ru := sk_routing row in
    length (m_weight_table ru) = length (m_routing_table ru) /\ Forall (fun w => w <= INFINITE_) (m_weight_table ru) /\
    Forall shaped (m_routing_table ru) /\ (exists l e, vec_get (m_routing_table ru) l = Ok e /\ node e d) /\
    Forall (fun os => 0 <= v * os_vp os /\ 0 <= os_vp os /\ (v + 1) * os_vp os <= os_nv os) (sk_out row).

Definition msg_ok (v : Z) (msg : Message) : Prop :=
  shaped (destination msg) /\ msg_time msg <= m_LastEnqueueTime msg /\ forall d, node (destination msg) d -> deliverable v d.

(** Output VC [k] with [n] tokens issued. *)
Record slot_ok (cur n k : Z) (b : flitBuffer flit) (o : OutVcState) : Prop := {
  sl_pos : 0 <= n;
  sl_one : vsize (m_buffer b) + n <= 1;
  sl_max : 1 <= m_max_credit_count o;
  sl_credit : m_credit_count o = m_max_credit_count o - n;
  sl_state : OutVcState.m_vc_state o = if vsize (m_buffer b) + n =? 0 then IDLE_ else ACTIVE_;
  sl_time : OutVcState.m_time o <= cur;
  sl_flits : Forall (fun f => packet_ok m vn sk f /\ Flit.m_vc f = k /\ Flit.m_enqueue_time f <= cur) (m_buffer b)
}.

(** The sending side, with [ts k] tokens of VC [k] issued. *)
Record src_inv (cur : Z) (ts : Z -> Z) (ni : NetworkInterface) : Prop := {
  si_ok : ni_ok c ni;
  si_dims : m_virtual_networks ni = vn /\ m_vc_per_vnet ni = vp;
  si_router : 0 <= m_router_id ni < vsize sk;
  si_slots : forall k b o, vec_get (m_ni_out_vcs ni) k = Ok b -> vec_get (m_out_vc_state ni) k = Ok o -> slot_ok cur (ts k) k b o;
  si_in : vsize (inNode_ptr ni) <= vn;
  si_msgs : forall v b, vec_get (inNode_ptr ni) v = Ok (Some b) -> m_time_last_time_pop b <= cur /\ Forall (msg_ok v) (m_prio_heap b)
}.

Definition stalled_ok (cur : Z) (f : flit) : Prop :=
  packet_ok m vn sk f /\ 0 <= Flit.m_vc f < vn * vp /\ aged (m_dequeue_time f) f /\ m_dequeue_time f <= cur.

(** The receiving side of interface [me]: what it keeps and what it hands over is for its node alone. *)
Context (me : Z).
Definition addressed (msg : Message) : Prop := forall x, node (destination msg) x <-> x = me.

Record dst_inv (cur : Z) (ni : NetworkInterface) : Prop := {
  di_home : Forall (fun f => addressed (m_msg_ptr f)) (m_stall_queue ni);
  di_stall : Forall (stalled_ok cur) (m_stall_queue ni);
  di_count : vsize (NetworkInterface.m_stall_count ni) = vn;
  di_out : forall v, 0 <= v < vn -> exists b, vec_get (outNode_ptr ni) v = Ok (Some b) /\ accepts cur 1 b;
  di_msgs : forall v b, vec_get (outNode_ptr ni) v = Ok (Some b) -> Forall addressed (m_prio_heap b)
}.

(** An interface without what its injection, its sending side and its receiving side change. *)
Definition inj_rest (ni : NetworkInterface) : NetworkInterface :=
  with_m_out_vc_state [] (with_m_vc_allocator [] (with_vc_busy_counter [] (with_m_ni_out_vcs [] (with_m_ni_out_vcs_enqueue_time [] ni)))).
Definition src_rest (ni : NetworkInterface) : NetworkInterface :=
  NetworkInterface.with_m_events [] (with_inNode_ptr [] (with_outFlitQueue flitBuffer_new (with_m_vc_round_robin 0 (inj_rest ni)))).
Definition dst_rest (ni : NetworkInterface) : NetworkInterface :=
  NetworkInterface.with_m_events [] (with_outNode_ptr [] (with_outCreditQueue flitBuffer_new
    (NetworkInterface.with_m_stall_count [] (with_m_stall_queue [] ni)))).

Lemma src_rest_dst cur ni ni' : src_rest ni' = src_rest ni -> dst_inv cur ni -> dst_inv cur ni'.
Proof.
  intros E []. pose proof (f_equal m_stall_queue E) as E1. pose proof (f_equal NetworkInterface.m_stall_count E) as E2.
  pose proof (f_equal outNode_ptr E) as E3. cbn in E1, E2, E3. split; [by rewrite E1 | by rewrite E1 | by rewrite E2 | by rewrite E3 | by rewrite E3].
Qed.

Lemma dst_rest_src cur ts ni ni' : dst_rest ni' = dst_rest ni -> src_inv cur ts ni -> src_inv cur ts ni'.
Proof.
  intros E H. assert (E' : src_inv cur ts (dst_rest ni)) by (destruct H as [[] ? ? ? ? ?]; split; done).
  rewrite <- E in E'. destruct E' as [[] ? ? ? ? ?]. split; done.
Qed.

(** ** Later *)

Lemma src_inv_later cur cur' ts ni : cur <= cur' -> src_inv cur ts ni -> src_inv cur' ts ni.
Proof.
  intros Hle [H1 H2 H3 H4 H5 H6]. split; try done.
  - intros k b o Hb Ho. destruct (H4 k b o Hb Ho) as [S1 S2 S3 S4 S5 S6 S7]. split; try done; [lia|].
    eapply Forall_impl; [exact S7|]. intros f (?&?&?). split_and!; (done || lia).
  - intros v b Hb. destruct (H6 v b Hb). split; [lia | done].
Qed.

Lemma dst_inv_later cur cur' ni : cur <= cur' -> dst_inv cur ni -> dst_inv cur' ni.
Proof.
  intros Hle [H0 H1 H2 H3 H4]. split; [done | |done | |done].
  - eapply Forall_impl; [exact H1|]. intros f (?&?&?&?). split; [done|]. split; [done|]. split; [done | lia].
  - intros v Hv. destruct (H3 v Hv) as (b & Hb & Ha). exists b. split; [done | by eapply accepts_later].
Qed.

(** At most one token of a VC is issued. *)
Lemma src_inv_one cur ts ni k : src_inv cur ts ni -> 0 <= k < vn * vp -> ts k <= 1.
Proof.
  intros [Hok [Hd1 Hd2] _ Hsl _ _] Hk. assert (Hnum : vn * vp = m_num_vcs ni) by (by rewrite (no_num _ _ Hok), Hd1, Hd2).
  destruct (vec_get_in_range (m_out_vc_state ni) k) as [o Ho]; [rewrite (no_states _ _ Hok); lia|].
  destruct (vec_get_in_range (m_ni_out_vcs ni) k) as [b Hb]; [rewrite (no_vcs _ _ Hok); lia|].
  destruct (Hsl k b o Hb Ho) as [_ S2 _ _ _ _ _]. pose proof (vsize_nonneg (m_buffer b)). lia.
Qed.

(** A route to a node that can be reached. *)
Lemma deliverable_route v d route r : deliverable v d -> vec_get ids d = Ok r -> Flit.vnet route = v -> dest_router route = r ->
  shaped (net_dest route) -> node (net_dest route) d -> route_ok m sk route.
Proof.
  intros (r' & Hr' & Hmesh & Hrow) Hr <- <- Hs (m1 & j1 & H1 & ->). rewrite Hr in Hr'. apply Ok_inj in Hr' as <-. split; [done|].
  intros rid row Hg. destruct (Hrow rid row Hg) as (Hlen & Hw & Hsh & (l & e & He & m2 & j2 & H2 & E) & Hos). split; [split_and!; [done | | done] | split; [|done]].
  - eapply Forall_impl; [exact Hsh|]. intros x [Hx _]. destruct Hs as [Hn _]. unfold vsize in *. lia.
  - exists l, e, m1, j1. split_and!; [done | done|]. destruct (shaped_member _ _ _ Hs H1) as [R1 R2].
    destruct (shaped_member e m2 j2) as [R3 R4]; [|done|]; [exact (Forall_vec_get _ _ _ _ Hsh He)|].
    by destruct (node_coords m1 j1 m2 j2) as [-> ->]; [lia..|].
Qed.

(** A destination of one node is one member. *)
Lemma one_member nd d : shaped nd -> (forall x, node nd x <-> x = d) -> exists x y, forall x' y', nd_member nd x' y' <-> x' = x /\ y' = y.
Proof.
  intros Hs Hd. destruct (proj2 (Hd d) eq_refl) as (x & y & Hxy & E). exists x, y. intros x' y'. split; [|by intros [-> ->]].
  intros H'. assert (Ed : MachineType_base_number x' + y' = MachineType_base_number x + y) by (rewrite <- E; apply Hd; by exists x', y').
  destruct (shaped_member _ _ _ Hs Hxy), (shaped_member _ _ _ Hs H'). by apply node_coords; [lia..|].
Qed.

(** ** Injection *)

Context (Hsim : sim_type c = 1) (Hfit : node_ids_fit) (gr : Z -> result Z) (Hgr : forall d, gr d = vec_get ids d).
Abbreviation nr := (vsize sk).

(** An unmarked packet for one node in an idle VC. *)
Definition new_flit (cur vc v : Z) (route : RouteInfo) (new : Message) (t : Z) : flit :=
  Flit.set_src_delay (cur - t) (flit_new 0 vc v route 1 new cur false).

Lemma inject_ok cur vc v route new t ni s mk b : 0 <= v < vn -> 0 <= m_router_id ni < nr -> stats_ok vn nr s ->
  vec_get (m_ni_out_vcs ni) vc = Ok b -> t <= cur ->
  exists s', inject_flit c cur 0 vc v 1 route new t ni (mkNIWorld s mk) =
    Ok (with_m_ni_out_vcs (<[Z.to_nat vc := insert (new_flit cur vc v route new t) b]> (m_ni_out_vcs ni)) ni, mkNIWorld s' mk) /\ stats_ok vn nr s'.
Proof.
  intros Hv Hr Hs Hb Ht. destruct (injected_ok vn nr s v (m_router_id ni) Hs Hv Hr) as (s1 & s2 & E1 & E2 & Hs2).
  unfold inject_flit, take_mark. rewrite Hsim. cbn [Z.eqb Pos.eqb mbind result_bind w_stats w_mrkd]. rewrite E1. cbn [mbind result_bind].
  unfold cyc_sub. rewrite (proj2 (Z.leb_le t cur)) by lia. cbn [mbind result_bind]. rewrite (vec_modify_Ok _ _ _ _ Hb). cbn [mbind result_bind].
  change (is_tail _) with true. cbn iota. rewrite E2. cbn [mbind result_bind]. by exists s2.
Qed.

(** The state of one VC changes, and that of no other. *)
Lemma slots_update cur ts ts' ni ni' vc b o b' o' : 
  vec_get (m_ni_out_vcs ni) vc = Ok b -> vec_get (m_out_vc_state ni) vc = Ok o ->
  m_ni_out_vcs ni' = <[Z.to_nat vc := b']> (m_ni_out_vcs ni) -> m_out_vc_state ni' = <[Z.to_nat vc := o']> (m_out_vc_state ni) ->
  (forall k, k <> vc -> ts' k = ts k) -> slot_ok cur (ts' vc) vc b' o' ->
  (forall k b o, vec_get (m_ni_out_vcs ni) k = Ok b -> vec_get (m_out_vc_state ni) k = Ok o -> slot_ok cur (ts k) k b o) ->
  forall k b o, vec_get (m_ni_out_vcs ni') k = Ok b -> vec_get (m_out_vc_state ni') k = Ok o -> slot_ok cur (ts' k) k b o.
Proof.
  intros Hb Ho Eb Eo Ht Hs Hall k b1 o1 Hb1 Ho1. rewrite Eb in Hb1. rewrite Eo in Ho1. destruct (decide (k = vc)) as [->|Hne].
  - rewrite (vec_get_insert _ _ _ _ Hb) in Hb1. rewrite (vec_get_insert _ _ _ _ Ho) in Ho1. apply Ok_inj in Hb1 as <-. by apply Ok_inj in Ho1 as <-.
  - apply vec_get_range in Hb. rewrite vec_get_insert_ne in Hb1 by (lia || done). rewrite vec_get_insert_ne in Ho1 by (lia || done). rewrite Ht by done. auto.
Qed.

Lemma send_to_ok cur ts vc v d mc msg new msg' ni s mk o :
  src_inv cur ts ni -> stats_ok vn nr s -> 0 <= v < vn -> vec_get (m_out_vc_state ni) vc = Ok o -> isInState IDLE_ cur o = true ->
  split_message mc d msg = Ok (new, msg') -> msg_time msg <= cur -> m_LastEnqueueTime new <= cur ->
  shaped (destination new) -> (forall x, node (destination new) x <-> x = d) -> deliverable v d ->
  exists f ni' s', send_to c cur gr vc v d mc msg ni (mkNIWorld s mk) = Ok (msg', ni', mkNIWorld s' mk) /\ m_msg_ptr f = new /\
    waiting_flits ni' ≡ₚ f :: waiting_flits ni /\ src_inv cur ts ni' /\ inj_rest ni' = inj_rest ni /\ stats_ok vn nr s'.
Proof.
  intros [Hok Hd Hr Hsl Hin Hms] Hs Hv Ho Hidle Hsplit Ht Hle Hsh Hnode Hdel. unfold send_to. rewrite Hsplit. cbn [mbind result_bind].
  pose proof Hdel as (r & Hrd & _). rewrite Hgr, Hrd. cbn [mbind result_bind]. set (route := mkRouteInfo _ _ _ _ _ _ _).
  change (Z.to_nat (num_flits_of msg)) with 1%nat. cbn [for_range]. change (num_flits_of msg) with 1.
  pose proof (vec_get_range _ _ _ Ho) as Hvc. rewrite (no_states _ _ Hok) in Hvc.
  destruct (vec_get_in_range (m_ni_out_vcs ni) vc) as [b Hb]; [by rewrite (no_vcs _ _ Hok)|].
  destruct (inject_ok cur vc v route new (msg_time msg) ni s mk b Hv Hr Hs Hb Ht) as (s' & -> & Hs').
  cbn [mbind result_bind]. set (f := new_flit _ _ _ _ _ _). set (ni1 := with_m_ni_out_vcs _ ni).
  change (m_ni_out_vcs_enqueue_time ni1) with (m_ni_out_vcs_enqueue_time ni).
  destruct (vec_get_in_range (m_ni_out_vcs_enqueue_time ni) vc) as [tm Htm]; [by rewrite (no_times _ _ Hok)|].
  rewrite (vec_set_Ok_get _ _ _ _ Htm). cbn [mbind result_bind]. change (m_out_vc_state ni1) with (m_out_vc_state ni).
  rewrite (vec_modify_Ok _ _ _ _ Ho). cbn [mbind result_bind]. eexists f, _, s'. split; [reflexivity|]. split_and!; [done | | | done | done].
  - unfold waiting_flits. cbn. pose proof (concat_map_vec_insert m_buffer _ _ _ (insert f b) Hb) as Hp.
    rewrite (insert_Permutation f b) in Hp. apply (Permutation_app_inv_l (m_buffer b)). rewrite Hp. cbn. by rewrite Permutation_middle.
  - split; [destruct Hok; split; cbn; rewrite ?vsize_insert; done | done | done | | done | done].
    eapply (slots_update cur ts ts ni _ vc b o); [done | done | reflexivity | reflexivity | done | | done].
    destruct (Hsl vc b o Hb Ho). unfold isInState in Hidle. apply andb_true_iff in Hidle as [Hst _].
    apply bool_decide_eq_true in Hst. pose proof (vsize_nonneg (m_buffer b)).
    destruct (Z.eqb_spec (vsize (m_buffer b) + ts vc) 0) as [E0|]; [|congruence]. assert (Eb : m_buffer b = []).
    { apply nil_length_inv. unfold vsize in *. lia. }
    assert (Ei : m_buffer (insert f b) = [f]). { apply Permutation_singleton_r. rewrite insert_Permutation, Eb. done. }
    split; rewrite ?Ei; cbn; [lia | unfold vsize; cbn; lia | done | done | | lia |].
    + unfold vsize. cbn. by rewrite (proj2 (Z.eqb_neq _ 0)) by lia.
    + constructor; [|done]. split_and!; [|done | done]. split; try done; [apply (deliverable_route v d route r); try done; by apply Hnode | by eapply one_member].
Qed.

Lemma calculateVC_ok cur ts v ni : src_inv cur ts ni -> 0 <= v < vn ->
  exists vc ni1, calculateVC cur v ni = Ok (vc, ni1) /\ src_inv cur ts ni1 /\ inj_rest ni1 = inj_rest ni /\ waiting_flits ni1 = waiting_flits ni /\
    (vc = -1 \/ 0 <= vc /\ exists o, vec_get (m_out_vc_state ni1) vc = Ok o /\ isInState IDLE_ cur o = true).
Proof.
  intros [Hok [Hd1 Hd2] Hr Hsl Hin Hms] Hv. destruct (vec_get_in_range (m_vc_allocator ni) v) as [d0 Hd0]; [by rewrite (no_alloc _ _ Hok), Hd1|].
  unfold calculateVC. destruct (calculateVC_loop_spec c cur (Z.to_nat (m_vc_per_vnet ni)) v ni d0 Hok ltac:(lia) Hd0) as (vc & ni1 & -> & Hsb & Hcase).
  exists vc, ni1. split; [done|]. pose proof (same_but_alloc_ok _ _ _ Hsb Hok) as Hok1. destruct Hsb as (a & b & -> & _).
  split_and!; [by split | done | done|]. destruct Hcase as [[-> _] | (k & _ & _ & (o & Ho & Hi) & _)]; [by left|]. right.
  pose proof (vec_get_range _ _ _ Ho). split; [lia|]. by exists o.
Qed.

(** The packets [ps] serve the destinations [ds] of [msg]; [msg'] is what is left. *)
Record served (mc : bool) (v : Z) (ds : list Z) (msg msg' : Message) (ps : list flit) : Prop := {
  sv_cargo : flits_deliveries ps ≡ₚ map (pair (payload msg)) ds;
  sv_payload : payload msg' = payload msg;
  sv_time : m_LastEnqueueTime msg' = m_LastEnqueueTime msg;
  sv_ok : msg_ok v msg';
  sv_left : if mc then forall x, node (destination msg') x <-> node (destination msg) x /\ x ∉ ds else msg' = msg
}.

Lemma split_ok mc v d msg : msg_ok v msg -> node (destination msg) d -> (mc = false -> forall x, node (destination msg) x -> x = d) ->
  exists new msg', split_message mc d msg = Ok (new, msg') /\ m_LastEnqueueTime new = m_LastEnqueueTime msg /\ shaped (destination new) /\
    (forall x, node (destination new) x <-> x = d) /\ deliveries new ≡ₚ [(payload msg, d)] /\ forall f, m_msg_ptr f = new -> served mc v [d] msg msg' [f].
Proof.
  intros (Hs & Ht & Hdel) Hd Hmc. destruct mc.
  - destruct (split_multicast msg d Hs Hd) as (p & rest & Hsp & Hshp & Hsr & Hp & Hrest). eexists _, _. split; [exact Hsp|].
    assert (Hcar : deliveries (with_destination p msg) ≡ₚ [(payload msg, d)]).
    { apply (deliveries_nodes (with_destination p msg) [d]); [done | done | apply NoDup_singleton|]. intros x. cbn. by rewrite Hp, list_elem_of_singleton. }
    split_and!; [done | done | exact Hp | done|]. intros f Hf. split; [|done | done | |].
    + unfold flits_deliveries. cbn. by rewrite app_nil_r, Hf.
    + split_and!; [done | done|]. intros x [Hx _]%Hrest. auto.
    + intros x. cbn. by rewrite Hrest, list_elem_of_singleton.
  - exists msg, msg. assert (Hcar : deliveries msg ≡ₚ [(payload msg, d)]).
    { apply (deliveries_nodes _ [d]); [done | done | apply NoDup_singleton|]. intros x. rewrite list_elem_of_singleton.
      split; [by apply Hmc | by intros ->]. }
    split_and!; [done | done | done | intros x; split; [by apply Hmc | by intros ->] | done|].
    intros f Hf. split; try done. unfold flits_deliveries. cbn. by rewrite app_nil_r, Hf.
Qed.

Lemma served_nil mc v msg : msg_ok v msg -> served mc v [] msg msg [].
Proof.
  intros Hm. split; try done. destruct mc; [|done]. intros x. split; [|tauto]. intros H. split; [done | apply not_elem_of_nil].
Qed.

Lemma served_cons mc v d ds msg msg1 msg' f ps : (mc = false -> ds = []) ->
  served mc v [d] msg msg1 [f] -> served mc v ds msg1 msg' ps -> served mc v (d :: ds) msg msg' (f :: ps).
Proof.
  intros Hmc [A1 A2 A3 A4 A5] [B1 B2 B3 B4 B5]. split; [| congruence | congruence | done |].
  - change (f :: ps) with ([f] ++ ps). rewrite flits_deliveries_app, A1, B1, A2. done.
  - destruct mc; [|congruence]. intros x. rewrite B5, A5, list_elem_of_singleton, not_elem_of_cons. tauto.
Qed.

Lemma flitisize_loop_ok cur ts mc v mk ds : forall msg ni s,
  src_inv cur ts ni -> stats_ok vn nr s -> 0 <= v < vn -> m_LastEnqueueTime msg <= cur -> msg_ok v msg -> NoDup ds ->
  (forall d, d ∈ ds -> node (destination msg) d) -> (mc = false -> forall d x, d ∈ ds -> node (destination msg) x -> x = d) ->
  exists ok msg' ni' s' ps ds1 ds2, flitisize_loop c cur gr ds mc v msg ni (mkNIWorld s mk) = Ok (ok, msg', ni', mkNIWorld s' mk) /\
    ds = ds1 ++ ds2 /\ (if ok : bool then ds2 = [] else ds2 <> []) /\ served mc v ds1 msg msg' ps /\
    waiting_flits ni' ≡ₚ ps ++ waiting_flits ni /\ src_inv cur ts ni' /\ inj_rest ni' = inj_rest ni /\ stats_ok vn nr s'.
Proof.
  induction ds as [|d ds IH]; intros msg ni s Hni Hs Hv Hle Hmsg Hnd Hin Hmc; cbn [flitisize_loop].
  - apply (served_nil mc) in Hmsg. by exists true, msg, ni, s, [], [], [].
  - pose proof (served_nil mc v msg Hmsg) as Hsv. destruct (calculateVC_ok cur ts v ni Hni Hv) as (vc & ni0 & -> & Hni0 & E0 & Hw0 & Hcase). cbn [mbind result_bind].
    destruct Hcase as [-> | [Hvc (o & Ho & Hidle)]].
    { change (-1 =? -1) with true. cbn iota. exists false, msg, ni0, s, [], [], (d :: ds). split_and!; try done. by rewrite Hw0. }
    rewrite (proj2 (Z.eqb_neq vc (-1))) by lia. apply NoDup_cons in Hnd as [Hnd0 Hnd].
    assert (Hd : node (destination msg) d) by (apply Hin; by left).
    destruct (split_ok mc v d msg Hmsg Hd) as (new & msg1 & Hsplit & Hlast & Hsh & Hnode & Hcar & Hserved).
    { intros E x. apply (Hmc E). by left. }
    destruct (send_to_ok cur ts vc v d mc msg new msg1 ni0 s mk o) as (f & ni1 & s1 & -> & Hf & Hw1 & Hni1 & E1 & Hs1);
      [done | done | done | done | done | done | destruct Hmsg as (_ & ? & _); lia | lia | done | done | by apply Hmsg |].
    cbn [mbind result_bind]. specialize (Hserved f Hf). pose proof Hserved as [_ S2 S3 S4 S5].
    destruct (IH msg1 ni1 s1) as (ok & msg' & ni' & s' & ps & ds1 & ds2 & -> & -> & Hend & Hsv' & Hw' & Hni' & E' & Hs');
      [done | done | done | lia | done | done | | |].
    { intros x Hx. destruct mc; [|subst msg1; apply Hin; by right]. apply S5. split; [apply Hin; by right|]. intros ->%list_elem_of_singleton. done. }
    { intros -> x y Hx Hy. subst msg1. apply (Hmc eq_refl); [by right | done]. }
    exists ok, msg', ni', s', (f :: ps), (d :: ds1), ds2. split_and!; [done | done | done | | | done | congruence | done].
    + apply (served_cons mc v d ds1 msg msg1); [|done | done]. intros E. destruct ds1 as [|x ds1]; [done|]. exfalso.
      assert (x = d) as ->; [|apply Hnd0; by left]. symmetry. apply (Hmc E x d); [right; by left | done].
    + rewrite Hw', Hw1, Hw0. cbn. by rewrite Permutation_middle.
Qed.

Lemma flitisizeMessage_ok cur ts v mk msg ni s : src_inv cur ts ni -> stats_ok vn nr s -> 0 <= v < vn -> m_LastEnqueueTime msg <= cur -> msg_ok v msg ->
  exists ok msg' ni' s' ps, flitisizeMessage c cur gr msg v ni (mkNIWorld s mk) = Ok (ok, msg', ni', mkNIWorld s' mk) /\
    deliveries msg ≡ₚ flits_deliveries ps ++ (if ok : bool then [] else deliveries msg') /\ m_LastEnqueueTime msg' = m_LastEnqueueTime msg /\
    msg_ok v msg' /\ waiting_flits ni' ≡ₚ ps ++ waiting_flits ni /\ src_inv cur ts ni' /\ inj_rest ni' = inj_rest ni /\ stats_ok vn nr s'.
Proof.
  intros Hni Hs Hv Hle Hmsg. unfold flitisizeMessage. pose proof (proj1 Hmsg) as Hsh.
  destruct (getAllDest_spec _ Hsh Hfit) as (ds & -> & Hsort%sorted_NoDup & Hin). cbn [mbind result_bind].
  destruct (flitisize_loop_ok cur ts (1 <? vsize ds) v mk ds msg ni s) as
    (ok & msg' & ni' & s' & ps & ds1 & ds2 & -> & Eds & Hend & [C1 C2 C3 C4 C5] & Hw & Hni' & E' & Hs'); [done.. | | |].
  { intros d. apply Hin. }
  { intros Hone d x Hd Hx. apply Z.ltb_ge in Hone. apply Hin in Hx. destruct ds as [|y [|z ds]]; [by apply elem_of_nil in Hd | | unfold vsize in Hone; cbn in Hone; lia].
    apply list_elem_of_singleton in Hd, Hx. congruence. }
  exists ok, msg', ni', s', ps. split_and!; try done. rewrite C1, (deliveries_nodes msg ds) by (done || intros x; symmetry; apply Hin).
  destruct ok; [subst ds2; by rewrite Eds, !app_nil_r|]. destruct (Z.ltb_spec 1 (vsize ds)) as [Hmc|Hmc].
  - rewrite (deliveries_nodes msg' ds2), C2; [by rewrite Eds, map_app | done | apply C4 | |].
    + rewrite Eds in Hsort. by apply NoDup_app in Hsort as (_ & _ & ?).
    + intros x. rewrite C5, <- Hin, Eds, elem_of_app. rewrite Eds in Hsort. apply NoDup_app in Hsort as (_ & Hdis & _).
      split; [tauto|]. intros Hx. split; [tauto|]. intros Hx1. by apply (Hdis x).
  - subst msg'. assert (ds1 = []) as ->. { rewrite Eds in Hmc. unfold vsize in Hmc. rewrite length_app in Hmc. destruct ds1, ds2; cbn in *; (done || lia). }
    cbn. symmetry. apply deliveries_nodes; [done | done | done|]. intros x. symmetry. apply Hin.
Qed.

(** An interface without what picking up messages changes. *)
Definition pick_rest (ni : NetworkInterface) : NetworkInterface := NetworkInterface.with_m_events [] (with_inNode_ptr [] (inj_rest ni)).

Record picked (cur : Z) (ts : Z -> Z) (ni : NetworkInterface) (s : NetStats) (ni' : NetworkInterface) (s' : NetStats) : Prop := {
  pu_inv : src_inv cur ts ni';
  pu_rest : pick_rest ni' = pick_rest ni;
  pu_size : vsize (inNode_ptr ni') = vsize (inNode_ptr ni);
  pu_cargo : in_deliveries ni' ++ flits_deliveries (waiting_flits ni') ≡ₚ in_deliveries ni ++ flits_deliveries (waiting_flits ni);
  pu_stats : stats_ok vn nr s'
}.

(** The front of one buffer was served. *)
Lemma pick_up_one cur ts v ni s b msg l b' ps ni1 s1 : src_inv cur ts ni1 -> inj_rest ni1 = inj_rest ni -> stats_ok vn nr s1 ->
  vec_get (inNode_ptr ni) v = Ok (Some b) -> m_prio_heap b = msg :: l -> waiting_flits ni1 ≡ₚ ps ++ waiting_flits ni ->
  m_time_last_time_pop b' <= cur -> Forall (msg_ok v) (m_prio_heap b') ->
  deliveries msg ++ concat (map deliveries l) ≡ₚ flits_deliveries ps ++ buffer_deliveries b' ->
  forall evs, picked cur ts ni s (NI_schedule evs (with_inNode_ptr (<[Z.to_nat v := Some b']> (inNode_ptr ni)) ni1)) s1.
Proof.
  intros [Hok Hd Hr Hsl Hin Hms] E Hs1 Hb Hheap Hw Hpop Hall Hcar evs. pose proof (f_equal inNode_ptr E) as Ein. cbn in Ein. split.
  - split; try done; cbn; [destruct Hok; by split | rewrite vsize_insert; by rewrite <- Ein|]. rewrite Ein in Hms. intros k b1 Hb1.
    destruct (decide (k = v)) as [->|Hne].
    + rewrite (vec_get_insert _ _ _ _ Hb) in Hb1. apply Ok_inj in Hb1. by injection Hb1 as <-.
    + pose proof (vec_get_range _ _ _ Hb). rewrite vec_get_insert_ne in Hb1 by (lia || done). auto.
  - by apply (f_equal (fun x => NetworkInterface.with_m_events [] (with_inNode_ptr [] x))) in E.
  - cbn. apply vsize_insert.
  - change (waiting_flits (NI_schedule _ _)) with (waiting_flits ni1). rewrite Hw, flits_deliveries_app. unfold in_deliveries. cbn [inNode_ptr NI_schedule NetworkInterface.with_m_events with_inNode_ptr].
    pose proof (concat_map_vec_insert node_deliveries _ _ _ (Some b') Hb) as Hp. cbn [node_deliveries] in Hp. unfold buffer_deliveries in Hp, Hcar. rewrite Hheap in Hp. cbn [map concat] in Hp.
    apply (Permutation_app_inv_l (deliveries msg ++ concat (map deliveries l))). rewrite app_assoc, Hp, Hcar. solve_Permutation.
  - done.
Qed.

Lemma pick_up_ok cur ts v ni s mk : src_inv cur ts ni -> stats_ok vn nr s -> 0 <= v < vsize (inNode_ptr ni) ->
  exists ni' s', pick_up c cur gr v ni (mkNIWorld s mk) = Ok (ni', mkNIWorld s' mk) /\ picked cur ts ni s ni' s'.
Proof.
  intros Hni Hs Hv. destruct (vec_get_in_range _ _ Hv) as [o Ho]. unfold pick_up. rewrite Ho. cbn [mbind result_bind].
  destruct o as [b|]; [|by exists ni, s]. destruct (MessageBuffer.isReady cur b) eqn:Hrd; [|by exists ni, s].
  pose proof (si_in _ _ _ Hni). destruct (si_msgs _ _ _ Hni v b Ho) as [Hpop Hall].
  unfold MessageBuffer.isReady in Hrd. unfold peekMsgPtr. destruct (m_prio_heap b) as [|msg l] eqn:Hheap; [done|]. cbn [mbind result_bind].
  apply Z.leb_le in Hrd. apply Forall_cons in Hall as [Hmsg Hall].
  destruct (flitisizeMessage_ok cur ts v mk msg ni s Hni Hs ltac:(lia) Hrd Hmsg) as (ok & msg' & ni1 & s1 & ps & -> & Hcar & Hlast & Hmsg' & Hw & Hni1 & E1 & Hs1).
  cbn [mbind result_bind]. pose proof (f_equal inNode_ptr E1) as Ein. cbn in Ein.
  assert (Hh : m_prio_heap (set_front msg' b) = msg' :: l) by (unfold set_front; by rewrite Hheap). destruct ok.
  - destruct (dequeue_total cur cur true (set_front msg' b)) as (d & b2 & evs & Hdq); [unfold MessageBuffer.isReady; rewrite Hh; apply Z.leb_le; lia|].
    rewrite Hdq. cbn [mbind result_bind]. rewrite Ein, (vec_set_Ok_get _ _ _ _ Ho). cbn [mbind result_bind]. eexists _, s1. split; [done|].
    apply dequeue_spec in Hdq as (m0 & l0 & E0 & Hp & _ & _ & _ & Hpop' & _); [|done]. rewrite Hh in E0, Hp. injection E0 as <- <-.
    apply Permutation_cons_inv in Hp. apply (pick_up_one cur ts v ni s b msg l b2 ps); try done; [lia | by rewrite <- Hp|].
    rewrite Hcar, app_nil_r. f_equiv. by apply concat_map_perm.
  - cbn [mbind result_bind]. rewrite Ein, (vec_set_Ok_get _ _ _ _ Ho). cbn [mbind result_bind]. eexists _, s1. split; [done|].
    apply (pick_up_one cur ts v ni s b msg l _ ps); try done; unfold buffer_deliveries; rewrite Hh; [by constructor|]. cbn. by rewrite Hcar, <- app_assoc.
Qed.

Lemma pick_all_ok cur ts ni s mk : src_inv cur ts ni -> stats_ok vn nr s ->
  exists ni' s', for_range (length (inNode_ptr ni)) 0 (fun v '(ni, w) => pick_up c cur gr v ni w) (ni, mkNIWorld s mk) = Ok (ni', mkNIWorld s' mk) /\
    picked cur ts ni s ni' s'.
Proof.
  intros Hni Hs.
  destruct (for_range_total (fun _ (p : NetworkInterface * NIWorld) => exists s', p.2 = mkNIWorld s' mk /\ picked cur ts ni s p.1 s')
    (fun v '(ni, w) => pick_up c cur gr v ni w) (length (inNode_ptr ni)) 0 (ni, mkNIWorld s mk)) as ([ni' w'] & -> & s' & E & Hp).
  - by exists s.
  - intros k [ni1 w1] Hk (s1 & E1 & [P1 P2 P3 P4 P5]). cbn [fst snd] in *. subst w1.
    destruct (pick_up_ok cur ts k ni1 s1 mk P1 P5) as (ni2 & s2 & -> & [Q1 Q2 Q3 Q4 Q5]); [unfold vsize in *; lia|].
    exists (ni2, mkNIWorld s2 mk). split; [done|]. exists s2. split; [done|]. cbn [fst snd]. split; [done | congruence | congruence | by rewrite Q4 | done].
  - cbn [fst snd] in *. subst w'. by exists ni', s'.
Qed.

(** ** The out link *)

Lemma schedule_ok cur ts ni : 0 <= cur < 2 ^ 64 - 1 -> src_inv cur ts ni -> exists ni' fs, scheduleOutputLink c cur ni = Ok ni' /\
  src_inv cur (fun k => ts k + nvc k fs) ni' /\ Forall (fun f => forall n, queued_ok m vn vp cur sk (ENode n) f) fs /\
  m_buffer (outFlitQueue ni') ≡ₚ fs ++ m_buffer (outFlitQueue ni) /\ flits_deliveries (waiting_flits ni) ≡ₚ flits_deliveries fs ++ flits_deliveries (waiting_flits ni') /\
  send_rest ni' = send_rest ni.
Proof.
  intros Hcur Hni. pose proof (si_ok _ _ _ Hni) as Hok. pose proof (no_rr _ _ Hok) as Hrr. unfold scheduleOutputLink.
  destruct (output_link_search_spec c cur (Z.to_nat (m_num_vcs ni)) (m_vc_round_robin ni) ni Hok Hrr) as (ni' & -> & Hcase).
  destruct Hcase as [[-> _] | (k & _ & _ & _ & [Hok' _ Hrest (f & b & b' & Hb & Hg & Evcs & Hw & Hq) (o & Ho & Est) _])].
  { exists ni, []. split_and!; try done. destruct Hni as [? ? ? Hsl ? ?]. split; try done. intros k b o Hb Ho. rewrite nvc_nil, Z.add_0_r. auto. }
  set (vc := (m_vc_round_robin ni + k) mod m_num_vcs ni) in *. apply getTopFlit_Permutation in Hg.
  destruct Hni as [_ Hd Hr Hsl Hin Hms]. pose proof (Hsl vc b o Hb Ho) as [S1 S2 S3 S4 S5 S6 S7].
  assert (Eb' : m_buffer b' = [] /\ ts vc = 0). { unfold vsize in S2. rewrite Hg in S2. cbn in S2. split; [apply nil_length_inv|]; lia. }
  destruct Eb' as [Eb' E0]. rewrite Hg, Forall_cons in S7. destruct S7 as [(Hp & Evc & Hen) _].
  assert (Hlen : vsize (m_buffer b) = 1) by (unfold vsize; rewrite Hg, Eb'; done).
  exists ni', [Flit.set_time (cyc_add cur 1) f]. split_and!; [done | | | done | | done].
  - pose proof (f_equal m_virtual_networks Hrest) as R1. pose proof (f_equal NetworkInterface.m_vc_per_vnet Hrest) as R2. pose proof (f_equal m_router_id Hrest) as R3.
    pose proof (f_equal inNode_ptr Hrest) as R4. cbn in R1, R2, R3, R4. split; rewrite ?R1, ?R2, ?R3, ?R4; try done.
    apply (slots_update cur ts _ ni ni' vc b o b' _ Hb Ho Evcs Est); [| |done].
    + intros j Hj. rewrite nvc_cons. rewrite decide_False; [rewrite nvc_nil; lia|]. intros E. apply Hj. rewrite <- E. exact Evc.
    + rewrite nvc_cons, decide_True by exact Evc. rewrite nvc_nil, E0. split; rewrite ?Eb'; unfold vsize; cbn; [lia | lia | done | lia | | done | done].
      rewrite S5, Hlen, E0. done.
  - constructor; [|done]. intros n. split; [destruct Hp; by split|]. split; [|right; unfold aged, cyc_add; cbn; rewrite u64_small; lia].
    cbn. rewrite Evc. apply vec_get_range in Hb. rewrite (no_vcs _ _ Hok), (no_num _ _ Hok) in Hb. destruct Hd as [Hd1 Hd2]. by rewrite Hd1, Hd2 in Hb.
  - rewrite Hw. unfold flits_deliveries. cbn. by rewrite app_nil_r.
Qed.

(** ** Ejection *)

Lemma out_node_Ok ni v b : vec_get (outNode_ptr ni) v = Ok (Some b) ->
  out_node v ni = Ok b /\ forall b', set_out_node v b' ni = Ok (with_outNode_ptr (<[Z.to_nat v := Some b']> (outNode_ptr ni)) ni).
Proof. intros Hb. unfold out_node, set_out_node. rewrite Hb. split; [done|]. intros b'. by rewrite (vec_set_Ok_get _ _ _ _ Hb). Qed.

(** The buffer of one vnet changes. *)
Lemma di_msgs_update ni ni' v b b' : (forall v b, vec_get (outNode_ptr ni) v = Ok (Some b) -> Forall addressed (m_prio_heap b)) ->
  vec_get (outNode_ptr ni) v = Ok (Some b) -> (Forall addressed (m_prio_heap b) -> Forall addressed (m_prio_heap b')) ->
  outNode_ptr ni' = <[Z.to_nat v := Some b']> (outNode_ptr ni) -> forall v b, vec_get (outNode_ptr ni') v = Ok (Some b) -> Forall addressed (m_prio_heap b).
Proof.
  intros Hall Hb Ha -> k b1 Hb1. destruct (decide (k = v)) as [->|Hne].
  - rewrite (vec_get_insert _ _ _ _ Hb) in Hb1. apply Ok_inj in Hb1. injection Hb1 as <-. eauto.
  - pose proof (vec_get_range _ _ _ Hb). rewrite vec_get_insert_ne in Hb1 by (lia || done). eauto.
Qed.

Lemma di_out_update cur ni ni' v b b' : (forall v, 0 <= v < vn -> exists b, vec_get (outNode_ptr ni) v = Ok (Some b) /\ accepts cur 1 b) ->
  vec_get (outNode_ptr ni) v = Ok (Some b) -> accepts cur 1 b' -> outNode_ptr ni' = <[Z.to_nat v := Some b']> (outNode_ptr ni) ->
  forall v, 0 <= v < vn -> exists b, vec_get (outNode_ptr ni') v = Ok (Some b) /\ accepts cur 1 b.
Proof.
  intros Hall Hb Ha -> k Hk. destruct (decide (k = v)) as [->|Hne].
  - exists b'. split; [by apply (vec_get_insert _ _ _ _ Hb) | done].
  - pose proof (vec_get_range _ _ _ Hb). rewrite vec_get_insert_ne by (lia || done). auto.
Qed.

Lemma out_deliveries_update ni ni' v b b' gone new : vec_get (outNode_ptr ni) v = Ok (Some b) -> outNode_ptr ni' = <[Z.to_nat v := Some b']> (outNode_ptr ni) ->
  gone ++ buffer_deliveries b' ≡ₚ new ++ buffer_deliveries b ->
  gone ++ out_deliveries ni' ≡ₚ new ++ out_deliveries ni.
Proof.
  intros Hb E Hp. unfold out_deliveries. rewrite E. pose proof (concat_map_vec_insert node_deliveries _ _ _ (Some b') Hb) as Hc. cbn [node_deliveries] in Hc.
  apply (Permutation_app_inv_l (buffer_deliveries b)). rewrite (Permutation_app_swap_app _ gone), Hc.
  rewrite (app_assoc gone), Hp. solve_Permutation.
Qed.

(** Between two states of the receiving side: [fs] were delivered, [todo] were stalled before. *)
Record ejected (cur : Z) (todo : list flit) (fs : list flit) (ni ni' : NetworkInterface) : Prop := {
  ed_inv : dst_inv cur ni';
  ed_rest : dst_rest ni' = dst_rest ni;
  ed_credits : m_buffer (outCreditQueue ni') ≡ₚ map (credit_of cur) fs ++ m_buffer (outCreditQueue ni);
  ed_cargo : out_deliveries ni' ≡ₚ flits_deliveries fs ++ out_deliveries ni;
  ed_stall : todo ≡ₚ fs ++ m_stall_queue ni'
}.

Lemma has_room_ok cur v ni : 0 <= v < vn -> dst_inv cur ni ->
  exists ok ni', has_room cur v ni = Ok (ok, ni') /\ ejected cur (m_stall_queue ni) [] ni ni' /\ m_stall_queue ni' = m_stall_queue ni.
Proof.
  intros Hv [D0 D1 D2 D3 D4]. destruct (D3 v Hv) as (b & Hb & Hacc). destruct (out_node_Ok ni v b Hb) as [Ho Hset].
  unfold has_room. rewrite Ho. cbn [mbind result_bind]. destruct (areNSlotsAvailable 1 cur b) as [ok b'] eqn:Ea. rewrite Hset. cbn [mbind result_bind].
  assert (E : m_prio_heap b' = m_prio_heap b /\ accepts cur 1 b').
  { destruct Hacc. unfold areNSlotsAvailable in Ea. repeat case_match; injection Ea as <- <-; (split; [done | by split]). }
  destruct E as [Eh Hacc']. eexists ok, _. split; [done|]. split; [|done]. split; try done.
  - split; [done | done | done | by eapply (di_out_update cur ni) | eapply (di_msgs_update ni); [done | done | | done]; by rewrite Eh].
  - apply (out_deliveries_update ni _ v b b' [] []); [done | done | unfold buffer_deliveries; by rewrite Eh].
Qed.

Lemma ejected_trans cur t1 fs1 ni ni1 t2 fs2 ni2 t : ejected cur t1 fs1 ni ni1 -> ejected cur t2 fs2 ni1 ni2 -> t ≡ₚ fs1 ++ t2 ->
  ejected cur t (fs1 ++ fs2) ni ni2.
Proof.
  intros [A1 A2 A3 A4 A5] [B1 B2 B3 B4 B5] Ht. split; [done | congruence | | |].
  - rewrite B3, A3, map_app. solve_Permutation.
  - rewrite B4, A4, flits_deliveries_app. solve_Permutation.
  - by rewrite Ht, B5, app_assoc.
Qed.

Context (we : bool) (rnd : Z).

Lemma eject_safe cur f ni s mk : 0 <= cur < 2 ^ 64 - 1 -> stalled_ok cur f -> addressed (m_msg_ptr f) -> dst_inv cur ni -> stats_ok vn nr s ->
  exists ni' s', eject c cur false we rnd f ni (mkNIWorld s mk) = Ok (ni', mkNIWorld s' mk) /\ stats_ok vn nr s' /\
    ejected cur (f :: m_stall_queue ni) [f] ni ni' /\ m_stall_queue ni' = m_stall_queue ni.
Proof.
  intros Hcur (Hp & Hvc & Hage & Hdeq) Hme [D0 D1 D2 D3 D4] Hs. pose proof Hp as [P1 P2 P3 P4 _ _ _]. destruct (D3 _ P2) as (b & Hb & Hacc).
  destruct (out_node_Ok ni _ b Hb) as [Ho Hset]. unfold eject. rewrite Ho. cbn [mbind result_bind].
  destruct (enqueue_total cur we rnd (m_msg_ptr f) 1 b) as (b' & evs & He & Hacc'); [lia | lia | lia | done | unfold aged in *; lia|].
  rewrite He. cbn [mbind result_bind]. rewrite Hset. cbn [mbind result_bind].
  destruct (received_ok vn nr s (Flit.m_vnet f) c cur f mk) as (s' & -> & Hs'); [done..|]. cbn [mbind result_bind]. eexists _, s'. split; [done|].
  split; [done|]. split; [|done]. apply enqueue_spec in He as (x & arr & Hpm & _ & E1 & E2 & _); [|apply Hacc]. split; try done.
  - split; [done | done | done | by eapply (di_out_update cur ni) | eapply (di_msgs_update ni); [done | done | | done]].
    intros Hall. rewrite Hpm. constructor; [|done]. unfold addressed. by rewrite E2.
  - cbn. apply insert_Permutation.
  - apply (out_deliveries_update ni _ (Flit.m_vnet f) b b' [] (flits_deliveries [f])); [done | done|]. cbn [app]. unfold buffer_deliveries. rewrite (concat_map_perm _ _ _ Hpm).
    unfold flits_deliveries. cbn. rewrite app_nil_r. by rewrite (deliveries_same _ _ E2 E1).
Qed.

(** The counter of a vnet, the queue and the callback of its buffer change. *)
Lemma callback_ok cur v q cs ni h : 0 <= v < vn -> dst_inv cur ni -> Forall (stalled_ok cur) q -> Forall (fun f => addressed (m_msg_ptr f)) q -> vsize cs = vn ->
  (forall b, m_prio_heap (h b) = m_prio_heap b /\ (accepts cur 1 b -> accepts cur 1 (h b))) ->
  let ni1 := NetworkInterface.with_m_stall_count cs (with_m_stall_queue q ni) in
  exists ni', (b ← out_node v ni1; set_out_node v (h b) ni1) = Ok ni' /\ ejected cur q [] ni ni' /\ m_stall_queue ni' = q.
Proof.
  intros Hv [D0 D1 D2 D3 D4] Hq Hqa Hcs Hh ni1. destruct (D3 v Hv) as (b & Hb & Hacc). destruct (Hh b) as [Eh Ha].
  destruct (out_node_Ok ni1 v b Hb) as [Ho Hset]. rewrite Ho. cbn [mbind result_bind]. rewrite Hset. eexists. split; [done|]. split; [|done].
  split; try done.
  - split; [done | done | done | apply (di_out_update cur ni _ v b (h b)); [done | done | by apply Ha | done] |].
    apply (di_msgs_update ni _ v b (h b)); [done | done | by rewrite Eh | done].
  - apply (out_deliveries_update ni _ v b (h b) [] []); [done | done | unfold buffer_deliveries; by rewrite Eh].
Qed.

Lemma with_callback_ok cur x b : accepts cur 1 b -> accepts cur 1 (with_m_dequeue_callback x b).
Proof. by intros []. Qed.

Lemma stall_safe cur f ni : stalled_ok cur f -> addressed (m_msg_ptr f) -> dst_inv cur ni -> exists ni', stall f ni = Ok ni' /\ ejected cur (m_stall_queue ni ++ [f]) [] ni ni'.
Proof.
  intros Hf Hme Hni. pose proof (po_vnet _ _ _ _ (proj1 Hf)) as Hv. destruct (vec_modify_total (NetworkInterface.m_stall_count ni) (Flit.m_vnet f) (fun n => n + 1))
    as (? & cs & _ & Hm & Hcs & _); [by rewrite (di_count _ _ Hni)|]. unfold stall. rewrite Hm. cbn [mbind result_bind].
  destruct (callback_ok cur (Flit.m_vnet f) (m_stall_queue ni ++ [f]) cs ni (registerDequeueCallback (CNI (NetworkInterface.m_id ni)))) as (ni' & -> & He & _);
    [done | done | apply Forall_app; split; [apply Hni | by constructor] | apply Forall_app; split; [apply Hni | by constructor] | rewrite Hcs; apply Hni | |].
  - intros b. split; [done | apply with_callback_ok].
  - by exists ni'.
Qed.

Lemma stall_search_safe cur mk todo : 0 <= cur < 2 ^ 64 - 1 -> forall done_ ni s, dst_inv cur ni -> m_stall_queue ni = done_ ++ todo -> stats_ok vn nr s ->
  exists r ni' s' fs, stall_search c cur false we rnd done_ todo ni (mkNIWorld s mk) = Ok (r, ni', mkNIWorld s' mk) /\ stats_ok vn nr s' /\
    ejected cur (m_stall_queue ni) fs ni ni'.
Proof.
  intros Hcur. induction todo as [|f todo IH]; intros done_ ni s Hni Hq Hs; cbn [stall_search]; [by exists false, ni, s, []|].
  pose proof (di_stall _ _ Hni) as Hall. rewrite Hq in Hall. apply Forall_app in Hall as [Hdone [Hf Htodo]%Forall_cons].
  pose proof (di_home _ _ Hni) as Hhome. rewrite Hq in Hhome. apply Forall_app in Hhome as [Hhd [Hme Hht]%Forall_cons].
  pose proof (po_vnet _ _ _ _ (proj1 Hf)) as Hv. destruct (has_room_ok cur (Flit.m_vnet f) ni Hv Hni) as (ok & ni1 & -> & He1 & Hq1). cbn [mbind result_bind].
  pose proof (ed_inv _ _ _ _ _ He1) as Hni1. destruct ok.
  - destruct (eject_safe cur f ni1 s mk Hcur Hf Hme Hni1 Hs) as (ni2 & s2 & -> & Hs2 & He2 & Hq2). cbn [mbind result_bind].
    pose proof (ed_inv _ _ _ _ _ He2) as Hni2. destruct (vec_modify_total (NetworkInterface.m_stall_count ni2) (Flit.m_vnet f) (fun n => n - 1))
      as (c0 & cs & _ & -> & Hcs & Hx & _); [by rewrite (di_count _ _ Hni2)|]. revert Hx. generalize (c0 - 1). intros x Hx. cbn [mbind result_bind]. rewrite Hx. cbn [mbind result_bind].
    set (ni3 := NetworkInterface.with_m_stall_count _ _).
    assert (H4 : exists ni4, (if x =? 0 then b ← out_node (Flit.m_vnet f) ni3; set_out_node (Flit.m_vnet f) (unregisterDequeueCallback b) ni3 else Ok ni3) = Ok ni4 /\
      ejected cur (done_ ++ todo) [] ni2 ni4).
    { assert (Hdt : Forall (stalled_ok cur) (done_ ++ todo)) by (by apply Forall_app).
      assert (Hda : Forall (fun f => addressed (m_msg_ptr f)) (done_ ++ todo)) by (by apply Forall_app). pose proof (di_count _ _ Hni2). destruct (x =? 0).
      - destruct (callback_ok cur (Flit.m_vnet f) (done_ ++ todo) cs ni2 unregisterDequeueCallback) as (ni4 & E4 & He4 & _); [done | done | done | done | lia | |by exists ni4].
        intros b. split; [done | apply with_callback_ok].
      - exists ni3. split; [done|]. split; try done. destruct Hni2. split; [done | done | cbn; lia | done | done]. }
    destruct H4 as (ni4 & -> & He4). cbn [mbind result_bind]. exists true, ni4, s2, ([] ++ [f] ++ []). split; [done|]. split; [done|].
    eapply ejected_trans; [exact He1 | eapply ejected_trans; [exact He2 | exact He4 | reflexivity]|]. rewrite Hq. cbn. by rewrite Permutation_middle.
  - destruct (IH (done_ ++ [f]) ni1 s Hni1) as (r & ni' & s' & fs & -> & Hs' & He'); [by rewrite Hq1, Hq, <- app_assoc | done|].
    exists r, ni', s', ([] ++ fs). split; [done|]. split; [done|]. eapply ejected_trans; [exact He1 | exact He' | by rewrite Hq1].
Qed.

Lemma ejected_refl cur ni : dst_inv cur ni -> ejected cur (m_stall_queue ni) [] ni ni.
Proof. intros H. by split. Qed.

Lemma receive_flit_safe cur enq link ni s mk : 0 <= cur < 2 ^ 64 - 1 -> Forall (flying_ok m vn vp cur sk) (in_flight link) ->
  Forall (fun f => addressed (m_msg_ptr f)) (in_flight link) -> dst_inv cur ni -> stats_ok vn nr s ->
  exists link' ni' s' arrived fs, receive_flit c cur false we rnd enq link ni (mkNIWorld s mk) = Ok (link', ni', mkNIWorld s' mk) /\ stats_ok vn nr s' /\
    in_flight link ≡ₚ arrived ++ in_flight link' /\ link_data link' = link_data link /\
    ejected cur (m_stall_queue ni ++ map (Flit.set_dequeue_time cur) arrived) fs ni ni'.
Proof.
  intros Hcur Hfly Hhome Hni Hs. unfold receive_flit. destruct (NetworkLink.isReady cur link) eqn:Hr.
  2:{ exists link, ni, s, [], []. split_and!; try done. cbn [map]. rewrite app_nil_r. by apply ejected_refl. }
  destruct (consume_ready cur link Hr) as (t0 & link' & -> & Hp & Hd). cbn [mbind result_bind]. rewrite Hp in Hfly, Hhome.
  apply Forall_cons in Hfly as [(Hpk & Hvc & Hage) _]. apply Forall_cons in Hhome as [Hme _].
  set (f := Flit.set_dequeue_time cur t0). assert (Hf : stalled_ok cur f) by (split; [destruct Hpk; by split|]; split_and!; [apply Hvc | apply Hvc | done | cbn; lia]).
  assert (Ht : is_tail f = true) by (unfold is_tail, f; cbn; by rewrite (po_type _ _ _ _ Hpk)). rewrite Ht.
  assert (Hroom : exists ok ni1, (if enq then Ok (false, ni) else has_room cur (Flit.m_vnet f) ni) = Ok (ok, ni1) /\ ejected cur (m_stall_queue ni) [] ni ni1 /\
    m_stall_queue ni1 = m_stall_queue ni).
  { destruct enq; [exists false, ni; split_and!; try done; by apply ejected_refl|]. apply has_room_ok; [apply Hf | done]. }
  destruct Hroom as (ok & ni1 & -> & He1 & Hq1). cbn [mbind result_bind]. pose proof (ed_inv _ _ _ _ _ He1) as Hni1. destruct ok.
  - destruct (eject_safe cur f ni1 s mk Hcur Hf Hme Hni1 Hs) as (ni2 & s2 & -> & Hs2 & He2 & _). cbn [mbind result_bind].
    exists link', ni2, s2, [t0], ([] ++ [f]). split_and!; try done. eapply ejected_trans; [exact He1 | exact He2|]. rewrite Hq1. cbn. by rewrite Permutation_app_comm.
  - destruct (stall_safe cur f ni1 Hf Hme Hni1) as (ni2 & -> & He2). cbn [mbind result_bind].
    exists link', ni2, s, [t0], ([] ++ []). split_and!; try done. eapply ejected_trans; [exact He1 | exact He2|]. by rewrite Hq1.
Qed.

(** ** Credits *)

Lemma receive_credit_safe cur ts link ni : Forall (credit_ok vn vp) (in_flight link) -> (forall k, 0 <= k < vn * vp -> nvc k (in_flight link) <= ts k) -> src_inv cur ts ni ->
  exists link' ni' cs, receive_credit cur link ni = Ok (link', ni') /\ in_flight link ≡ₚ cs ++ in_flight link' /\ link_data link' = link_data link /\
    src_inv cur (fun k => ts k - nvc k cs) ni' /\ with_m_out_vc_state [] ni' = with_m_out_vc_state [] ni.
Proof.
  intros Hcr Hle Hni. unfold receive_credit. destruct (NetworkLink.isReady cur link) eqn:Hr.
  2:{ exists link, ni, []. split_and!; try done. destruct Hni as [? ? ? Hsl ? ?]. split; try done. intros k b o Hb Ho. rewrite nvc_nil, Z.sub_0_r. auto. }
  destruct (consume_ready cur link Hr) as (t & link' & -> & Hp & Hd). cbn [mbind result_bind]. rewrite Hp in Hcr. apply Forall_cons in Hcr as [[Hfree Hvc] _].
  destruct Hni as [Hok [Hd1 Hd2] Hrt Hsl Hin Hms]. assert (Hnum : vn * vp = m_num_vcs ni) by (by rewrite (no_num _ _ Hok), Hd1, Hd2).
  destruct (vec_get_in_range (m_out_vc_state ni) (c_vc t)) as [o Ho]; [rewrite (no_states _ _ Hok); lia|].
  destruct (vec_get_in_range (m_ni_out_vcs ni) (c_vc t)) as [b Hb]; [rewrite (no_vcs _ _ Hok); lia|].
  destruct (Hsl _ _ _ Hb Ho) as [S1 S2 S3 S4 S5 S6 S7]. specialize (Hle (c_vc t) Hvc). rewrite Hp, nvc_cons, decide_True in Hle by done.
  pose proof (nvc_nonneg (c_vc t) (in_flight link')). pose proof (vsize_nonneg (m_buffer b)). assert (Ets : ts (c_vc t) = 1) by lia.
  assert (Eb : m_buffer b = []) by (apply nil_length_inv; unfold vsize in *; lia).
  rewrite (vec_update_Ok _ _ _ _ (freed cur o) Ho).
  2:{ assert (Hi : OutVcState.increment_credit o = Ok (OutVcState.with_m_credit_count (m_credit_count o + 1) o)) by (apply increment_credit_spec; split; [lia | done]).
      rewrite Hi. cbn [mbind result_bind]. by rewrite Hfree. }
  cbn [mbind result_bind]. eexists link', _, [t]. split; [done|]. split_and!; [done | done | | done].
  split; try done; [destruct Hok; split; cbn; rewrite ?vsize_insert; done|]. assert (Eself : <[Z.to_nat (c_vc t) := b]> (m_ni_out_vcs ni) = m_ni_out_vcs ni).
  { apply list_insert_id. by apply vec_get_Ok in Hb as [_ Hb]. }
  apply (slots_update cur ts _ ni _ (c_vc t) b o b (freed cur o) Hb Ho); [by rewrite Eself | done | | | done].
  - intros k Hk. rewrite nvc_cons, decide_False, nvc_nil by (intros E; by apply Hk). lia.
  - rewrite nvc_cons, decide_True, nvc_nil, Ets by done. split; rewrite ?Eb; unfold vsize; cbn; (done || lia).
Qed.

(** ** The wakeup *)

(** What a wakeup does: [sent] flits go to the out link, [arrived] come off the in link, the messages of [fs] are delivered, [cs] credits are back. *)
Record woken (cur : Z) (ts : Z -> Z) (in_ : NetworkLink flit) (cr : NetworkLink Credit) (ni : NetworkInterface)
    (in' : NetworkLink flit) (cr' : NetworkLink Credit) (ni' : NetworkInterface) : Prop := {
  wo_fixed : inNetLink ni' = inNetLink ni /\ inCreditLink ni' = inCreditLink ni /\ m_router_id ni' = m_router_id ni;
  wo_dst : dst_inv cur ni';
  wo_data : link_data in' = link_data in_ /\ link_data cr' = link_data cr;
  wo_src : exists fs cs, src_inv cur (fun k => ts k + nvc k fs - nvc k cs) ni' /\ in_flight cr ≡ₚ cs ++ in_flight cr' /\
    m_buffer (outFlitQueue ni') ≡ₚ fs ++ m_buffer (outFlitQueue ni) /\ Forall (fun f => forall n, queued_ok m vn vp cur sk (ENode n) f) fs /\
    in_deliveries ni ++ flits_deliveries (waiting_flits ni) ≡ₚ flits_deliveries fs ++ in_deliveries ni' ++ flits_deliveries (waiting_flits ni');
  wo_eject : exists fs arrived, in_flight in_ ≡ₚ arrived ++ in_flight in' /\
    m_stall_queue ni ++ map (Flit.set_dequeue_time cur) arrived ≡ₚ fs ++ m_stall_queue ni' /\
    m_buffer (outCreditQueue ni') ≡ₚ map (credit_of cur) fs ++ m_buffer (outCreditQueue ni) /\ out_deliveries ni' ≡ₚ flits_deliveries fs ++ out_deliveries ni
}.

Lemma checkReschedule_events cur ni : exists evs, checkReschedule cur ni = NI_schedule evs ni.
Proof. unfold checkReschedule. case_match; [by eexists|]. exists []. unfold NI_schedule. rewrite app_nil_r. by destruct ni. Qed.

Lemma src_inv_rest cur ts ni ni' : ni_rest ni' = ni_rest ni -> src_inv cur ts ni -> src_inv cur ts ni'.
Proof.
  intros E H. assert (E' : src_inv cur ts (ni_rest ni)) by (destruct H as [[] ? ? ? ? ?]; split; done).
  rewrite <- E in E'. destruct E' as [[] ? ? ? ? ?]. split; done.
Qed.
Lemma dst_inv_rest cur ni ni' : ni_rest ni' = ni_rest ni -> dst_inv cur ni -> dst_inv cur ni'.
Proof.
  intros E []. pose proof (f_equal m_stall_queue E) as E1. pose proof (f_equal NetworkInterface.m_stall_count E) as E2.
  pose proof (f_equal outNode_ptr E) as E3. cbn in E1, E2, E3. split; [by rewrite E1 | by rewrite E1 | by rewrite E2 | by rewrite E3 | by rewrite E3].
Qed.

(** The fields of the two sides. *)
Definition src_part (ni : NetworkInterface) := (inNode_ptr ni, m_ni_out_vcs ni, (inNetLink ni, inCreditLink ni, m_router_id ni)).
Definition src_side (ni : NetworkInterface) := (inNode_ptr ni, m_ni_out_vcs ni, outFlitQueue ni, inNetLink ni, inCreditLink ni, m_router_id ni).
Definition dst_side (ni : NetworkInterface) := (outNode_ptr ni, outCreditQueue ni, m_stall_queue ni).
Ltac field p E := let H := fresh in pose proof (f_equal p E) as H; cbn in H.

(** The sending half: messages are picked up and a flit goes to the out link. *)
Lemma sending_ok cur ts ni s mk : 0 <= cur < 2 ^ 64 - 1 -> src_inv cur ts ni -> stats_ok vn nr s ->
  exists ni1 s1 ni2 fs, for_range (length (inNode_ptr ni)) 0 (fun v '(ni, w) => pick_up c cur gr v ni w) (ni, mkNIWorld s mk) = Ok (ni1, mkNIWorld s1 mk) /\
    scheduleOutputLink c cur ni1 = Ok ni2 /\ stats_ok vn nr s1 /\ src_rest ni2 = src_rest ni /\ src_inv cur (fun k => ts k + nvc k fs) ni2 /\
    m_buffer (outFlitQueue ni2) ≡ₚ fs ++ m_buffer (outFlitQueue ni) /\ Forall (fun f => forall n, queued_ok m vn vp cur sk (ENode n) f) fs /\
    in_deliveries ni ++ flits_deliveries (waiting_flits ni) ≡ₚ flits_deliveries fs ++ in_deliveries ni2 ++ flits_deliveries (waiting_flits ni2).
Proof.
  intros Hcur Hni Hs. destruct (pick_all_ok cur ts ni s mk Hni Hs) as (ni1 & s1 & Hpick & [P1 P2 P3 P4 P5]).
  destruct (schedule_ok cur ts ni1 Hcur P1) as (ni2 & fs & Hsched & Q1 & Q2 & Q3 & Q4 & Q5). exists ni1, s1, ni2, fs.
  pose proof (f_equal outFlitQueue P2) as Eq. cbn in Eq. pose proof (f_equal inNode_ptr Q5) as Ein. cbn in Ein. split_and!; try done.
  - transitivity (src_rest ni1); [exact (f_equal src_rest Q5) | exact (f_equal src_rest P2)].
  - by rewrite Q3, Eq.
  - rewrite <- P4, Q4. unfold in_deliveries. rewrite Ein. solve_Permutation.
Qed.

Lemma wakeup_safe cur ts in_ cr ni s mk : 0 <= cur < 2 ^ 64 - 1 -> src_inv cur ts ni -> dst_inv cur ni -> stats_ok vn nr s ->
  Forall (flying_ok m vn vp cur sk) (in_flight in_) -> Forall (fun f => addressed (m_msg_ptr f)) (in_flight in_) -> Forall (credit_ok vn vp) (in_flight cr) -> (forall k, 0 <= k < vn * vp -> nvc k (in_flight cr) <= ts k) ->
  exists in' cr' ni' s', wakeup c cur gr false we rnd in_ cr ni (mkNIWorld s mk) = Ok (in', cr', ni', mkNIWorld s' mk) /\ stats_ok vn nr s' /\
    woken cur ts in_ cr ni in' cr' ni'.
Proof.
  intros Hcur Hsrc Hdst Hs Hfly Hhome Hcr Hts. destruct (sending_ok cur ts ni s mk Hcur Hsrc Hs) as (ni1 & s1 & ni2 & fs & E1 & E2 & Hs1 & Er2 & Hsrc2 & Hq2 & Hf2 & Hc2).
  unfold wakeup. rewrite E1. cbn [mbind result_bind]. rewrite E2. cbn [mbind result_bind]. clear E1 E2.
  destruct (checkReschedule_events cur ni2) as [evs ->]. set (ni3 := NI_schedule evs ni2). assert (E3 : ni_rest ni3 = ni_rest ni2) by done.
  assert (Hdst3 : dst_inv cur ni3) by (apply (dst_inv_rest _ ni2); [done|]; by apply (src_rest_dst cur ni)).
  destruct (stall_search_safe cur mk (m_stall_queue ni3) Hcur [] ni3 s1 Hdst3 eq_refl Hs1) as (r & ni4 & s4 & fs1 & E4 & Hs4 & He4).
  unfold checkStallQueue. rewrite E4. cbn [mbind result_bind]. clear E4.
  destruct (receive_flit_safe cur r in_ ni4 s4 mk Hcur Hfly Hhome (ed_inv _ _ _ _ _ He4) Hs4) as (in' & ni5 & s5 & arrived & fs2 & -> & Hs5 & Hp5 & Hd5 & He5).
  cbn [mbind result_bind]. assert (He : ejected cur (m_stall_queue ni3 ++ map (Flit.set_dequeue_time cur) arrived) (fs1 ++ fs2) ni3 ni5).
  { eapply ejected_trans; [exact He4 | exact He5|]. by rewrite (ed_stall _ _ _ _ _ He4), app_assoc. }
  destruct (receive_credit_safe cur (fun k => ts k + nvc k fs) cr ni5 Hcr) as (cr' & ni6 & cs & -> & Hp6 & Hd6 & Hsrc6 & E6).
  { intros k Hk. pose proof (nvc_nonneg k fs). specialize (Hts k Hk). lia. }
  { apply (dst_rest_src _ _ ni3); [apply He|]. by apply (src_inv_rest _ _ ni2). }
  cbn [mbind result_bind]. set (ni7 := if 0 <? _ then _ else ni6). assert (E7 : ni_rest ni7 = ni_rest ni6 /\ outCreditQueue ni7 = outCreditQueue ni6 /\ outFlitQueue ni7 = outFlitQueue ni6).
  { unfold ni7. by case_match. }
  clearbody ni7. destruct E7 as (E7 & Ecq & Efq). exists in', cr', ni7, s5. split; [done|]. split; [done|].
  assert (Es : dst_side ni7 = dst_side ni5) by (field outNode_ptr E7; field m_stall_queue E7; field outNode_ptr E6; field m_stall_queue E6;
    field outCreditQueue E6; unfold dst_side; congruence).
  assert (Eo : src_side ni7 = src_side ni2) by (field outFlitQueue E6; apply (f_equal src_part) in E7, E6; pose proof (f_equal src_part (ed_rest _ _ _ _ _ He));
    field outFlitQueue (ed_rest _ _ _ _ _ He); unfold src_side, src_part in *; cbn in *; congruence).
  assert (Ed : dst_side ni3 = dst_side ni) by (field outNode_ptr Er2; field m_stall_queue Er2; field outCreditQueue Er2; unfold dst_side; cbn; congruence).
  injection Es as G1 G2 G3. injection Eo as G4 G5 G6 G7 G8 G9. injection Ed as G10 G11 G12. change (m_stall_queue ni2) with (m_stall_queue ni3) in G12.
  change (outCreditQueue ni2) with (outCreditQueue ni3) in G11. change (outNode_ptr ni2) with (outNode_ptr ni3) in G10. destruct He as [H1 _ H3 H4 H5]. rewrite G12 in H5. rewrite G11 in H3.
  unfold out_deliveries in H4. rewrite G10 in H4. split.
  - field inNetLink Er2. field inCreditLink Er2. field m_router_id Er2. split_and!; congruence.
  - apply (dst_inv_rest _ ni6); [done|]. apply (src_rest_dst _ ni5); [exact (f_equal src_rest E6) | done].
  - done.
  - exists fs, cs. split_and!; [by apply (src_inv_rest _ _ ni6) | done | by rewrite G6 | done|]. unfold in_deliveries, waiting_flits. rewrite G4, G5. exact Hc2.
  - exists (fs1 ++ fs2), arrived. unfold out_deliveries. rewrite G1, G2, G3. done.
Qed.
End Inv.
