(* ===== verification/FabricNodes.v ===== *)
(** * The interfaces in the fabric

    [network_inv] adds to the fabric's invariant that every interface keeps its own (NIStep), that the two agree on the
    tokens between them, and that the statistics have a counter for everything.  A wakeup of an interface
    returns, keeps it and neither loses nor duplicates what is to be delivered. *)

From S2P Require Import Prelude Heap RubySet NetDest NetDestTheory Flit FlitBuffer Consumer Config RoutingUnit RoutingTable.
From S2P Require Import MeshRouting NetworkLink VirtualChannel OutVcState OutputUnit InputUnit RouterState SwitchAllocator.
From S2P Require Import SwitchTheory SwitchMoved MessageBuffer MessageBufferTheory NetStats NetworkInterface GarnetNetwork Bubble NetLens NetRouting.
From S2P Require Import BubbleInv BubbleMoves BubbleInter RouterWakeup NITheory.
From S2P Require Import Fabric FabricLinks FabricUnits FabricSwitch FabricBubbles NIStep.
Local Open Scope Z_scope.

Definition router_ids (g : GarnetNetwork) : list Z := map m_router_id (m_nis g).

Lemma get_router_id_ids g d : get_router_id d g = vec_get (router_ids g) d.
Proof. unfold get_router_id, router_ids. by rewrite vec_get_map. Qed.

(** Networks of the same dimensions. *)
Record same_shape (g g' : GarnetNetwork) : Prop := {
  ss_skel : skel g' = skel g;
  ss_config : g_config g' = g_config g;
  ss_init : m_bubble_init g' = m_bubble_init g;
  ss_nets : vsize (m_networklinks g') = vsize (m_networklinks g);
  ss_creds : vsize (m_creditlinks g') = vsize (m_creditlinks g);
  ss_nis : vsize (m_nis g') = vsize (m_nis g)
}.

#[export] Instance same_shape_preorder : PreOrder same_shape.
Proof. split; [intros g; by split | intros g g1 g2 [] []; split; congruence]. Qed.

Lemma steady_shape g g' : steady g g' -> same_shape g g'.
Proof. intros [E1 E2 E3 E4 E5 E6 _]. split; try done. by rewrite <- (vsize_map ni_rest), E6, vsize_map. Qed.

(** ** All that is to be delivered *)

Section Deliveries.
Context {MT : MachineTypes}.

Definition ni_deliveries (ni : NetworkInterface) : list (Z * Z) :=
  in_deliveries ni ++ flits_deliveries (waiting_flits ni) ++ flits_deliveries (m_stall_queue ni) ++ out_deliveries ni.
(** In the protocol's buffers, at the interfaces and in the fabric. *)
Definition net_deliveries (g : GarnetNetwork) : list (Z * Z) := flits_deliveries (net_flits g) ++ concat (map ni_deliveries (m_nis g)).

Lemma flits_deliveries_packets g : flits_deliveries (packets g) = flits_deliveries (net_flits g).
Proof. unfold packets. by apply flits_deliveries_map. Qed.

Lemma net_deliveries_rest g g' : packets g' ≡ₚ packets g -> map ni_rest (m_nis g') = map ni_rest (m_nis g) -> net_deliveries g' ≡ₚ net_deliveries g.
Proof.
  intros Hp Hn. unfold net_deliveries. rewrite <- !flits_deliveries_packets, Hp. f_equiv.
  assert (E : forall l, map ni_deliveries l = map ni_deliveries (map ni_rest l)) by (intros l; by rewrite map_map).
  by rewrite E, Hn, <- E.
Qed.
End Deliveries.

(** ** The invariant of the network *)

Section Nodes.
Context {MT : MachineTypes} {MTok : MachineTypesOk MT} (m vn vp : Z) (W : list Wire).

Abbreviation nv := (vn * vp).

(** Output port [o] of a router leads to node [n] and no other. *)
Definition leads_home (sk : list RouterSk) (rid o n : Z) : Prop :=
  exists row, vec_get sk rid = Ok row /\ forall e x, vec_get (m_routing_table (sk_routing row)) o = Ok e -> node e x -> x = n.

(** Interface [n], with a wire out and a wire in. *)
Record node_inv (cur : Z) (T : Tally) (g : GarnetNetwork) (n : Z) (ni : NetworkInterface) : Prop := {
  nd_src : src_inv (g_config g) m vn vp (skel g) (router_ids g) cur (issued T n) ni;
  nd_dst : dst_inv m vn vp (skel g) n cur ni;
  nd_taken : forall k, taken T n k = nvc k (m_stall_queue ni);
  nd_out : exists w rid i, w ∈ W /\ w_src w = ENode n /\ w_credit w = inCreditLink ni /\ w_dst w = EPort rid i;
  nd_in : exists w rid o, w ∈ W /\ w_dst w = ENode n /\ w_net w = inNetLink ni /\ w_src w = EPort rid o /\ leads_home (skel g) rid o n
}.

Record tallied (T : Tally) (cur : Z) (g : GarnetNetwork) : Prop := {
  nt_fabric : fabric_inv m vn vp W T cur g;
  nt_sim : sim_type (g_config g) = 1;
  nt_stats : stats_ok vn (vsize (skel g)) (g_stats g);
  nt_nodes : forall n ni, vec_get (m_nis g) n = Ok ni -> node_inv cur T g n ni
}.

Definition network_inv (cur : Z) (g : GarnetNetwork) : Prop := exists T, tallied T cur g.

Lemma network_later cur cur' g : cur <= cur' -> network_inv cur g -> network_inv cur' g.
Proof.
  intros Hle [T [H1 H2 H3 H4]]. exists T. split; [by apply (fabric_later m vn vp W T cur) | done | done|].
  intros n ni Hn. destruct (H4 n ni Hn) as [N1 N2 N3 N4 N5]. split; try done; [by eapply src_inv_later | by eapply dst_inv_later].
Qed.

(** What comes off the wire into interface [n] is for its node. *)
Lemma home_addressed sk w rid o n f : home_ok sk w f -> w_src w = EPort rid o -> w_dst w = ENode n -> leads_home sk rid o n -> packet_ok m vn sk f ->
  addressed n (m_msg_ptr f).
Proof.
  unfold home_ok. intros Hh Es Ed (row & Hrow & Hhome) [_ _ _ _ _ Hd (x & y & Hxy)]. rewrite Es, Ed, Hrow in Hh.
  destruct (Hh row eq_refl) as (e & x1 & y1 & He & H1 & H2). apply Hxy in H1 as H1'. destruct H1' as [-> ->].
  assert (En : MachineType_base_number x + y = n) by (apply (Hhome e); [done | by exists x, y]).
  intros z. unfold node. rewrite <- Hd. split; [|intros ->; by exists x, y]. intros (x2 & y2 & [-> ->]%Hxy & ->). exact En.
Qed.

(** A step of the fabric: the interfaces only lose from the queues their links drain. *)
Lemma tallied_steady T cur g g' : tallied T cur g -> fabric_inv m vn vp W T cur g' -> steady g g' -> tallied T cur g'.
Proof.
  intros [_ H2 H3 H4] Hfab [E1 E2 _ _ _ E6 E7]. split; [done | by rewrite E2 | rewrite E1; eapply stats_ok_sizes; [|exact H3]; by rewrite E7|].
  assert (Eids : router_ids g' = router_ids g).
  { assert (E : forall l, map m_router_id l = map m_router_id (map ni_rest l)) by (intros l; by rewrite map_map). unfold router_ids. by rewrite E, E6, <- E. }
  intros n ni' Hn'. destruct (map_eq_get ni_rest _ _ _ _ E6 Hn') as (ni & Hn & E). destruct (H4 n ni Hn) as [N1 N2 N3 N4 N5].
  assert (E' : ni_rest ni' = ni_rest ni) by congruence. pose proof (f_equal m_stall_queue E') as Q1. pose proof (f_equal inCreditLink E') as Q2.
  pose proof (f_equal inNetLink E') as Q3. cbn in Q1, Q2, Q3. split; rewrite ?E1, ?E2, ?Eids, ?Q1, ?Q2, ?Q3; try done.
  - by eapply src_inv_rest.
  - by eapply dst_inv_rest.
Qed.

(** ** Tokens between an interface and its wires *)

Lemma nvc_map `{FlitLike F, FlitLike G} (h : F -> G) k (l : list F) : (forall x, get_vc (h x) = get_vc x) -> nvc k (map h l) = nvc k l.
Proof. intros Hh. induction l as [|x l IH]; [done|]. cbn [map]. by rewrite !nvc_cons, IH, Hh. Qed.

(** A wire of which both ends account for the same tokens. *)
Lemma wire_inv_tally cur sk bs w V T T' : (forall k, extra T' bs (w_dst w) k = extra T bs (w_dst w) k) ->
  (forall k, issued_at T' (w_src w) k = issued_at T (w_src w) k) -> wire_inv m vn vp T cur sk bs w V -> wire_inv m vn vp T' cur sk bs w V.
Proof. intros E1 E2 []. split; try done. intros k Hk. rewrite E1, E2. auto. Qed.

(** The wire out of an interface that has sent [fs] and taken back [cs]. *)
Lemma wire_out cur sk bs w V T T' n q cr fs cs : wire_inv m vn vp T cur sk bs w V -> w_src w = ENode n -> wv_out V = None ->
  (forall k, extra T' bs (w_dst w) k = extra T bs (w_dst w) k) -> (forall k, issued T' n k = issued T n k + nvc k fs - nvc k cs) ->
  (forall k, 0 <= k < nv -> issued T' n k <= 1) -> m_buffer q ≡ₚ fs ++ m_buffer (wv_queue V) -> Forall (queued_ok m vn vp cur sk (ENode n)) fs ->
  in_flight (wv_credit V) ≡ₚ cs ++ in_flight cr -> link_data cr = link_data (wv_credit V) ->
  wire_inv m vn vp T' cur sk bs w (mkView q None (wv_net V) (wv_credits V) (wv_in V) cr).
Proof.
  intros [] Hs Hout E1 E2 Hone Hq Hfs Hcr [= D1 D2 D3]. set (V' := mkView _ _ _ _ _ _).
  split; cbn [V' wv_queue wv_out wv_net wv_credits wv_in wv_credit]; rewrite ?D1, ?D2, ?D3; try done.
  - rewrite Hq, Forall_app, Hs in *. done.
  - rewrite Hcr, !Forall_app in wi_cred. apply Forall_app. tauto.
  - unfold home_ok. rewrite Hs. by apply Forall_forall.
  - intros k Hk. destruct (wi_slot k Hk) as (S1 & S2 & S3 & S4). rewrite Hout, Hs in S3. cbn [issued_at] in S3. rewrite E1, Hs. cbn [issued_at].
    assert (Et : transit k V' = transit k V + nvc k fs - nvc k cs).
    { unfold transit, V'. cbn [wv_queue wv_net wv_credits wv_credit]. rewrite Hq, Hcr, !nvc_app. lia. }
    specialize (Hone k Hk). unfold slot_inv. rewrite Et. change (buffered k V') with (buffered k V). cbn [V' wv_out wv_in]. rewrite E2 in *.
    split_and!; [done | lia | lia | done].
Qed.

(** The wire into an interface: [arrived] came off the link, the VCs of [fs] were freed. *)
Lemma wire_in cur sk bs w V T T' n nl q st st' arrived fs : wire_inv m vn vp T cur sk bs w V -> w_dst w = ENode n -> wv_in V = None ->
  (forall k, issued_at T' (w_src w) k = issued_at T (w_src w) k) -> (forall k, taken T n k = nvc k st) -> (forall k, taken T' n k = nvc k st') ->
  Forall (fun f => 0 <= Flit.m_vc f < nv) st ->
  in_flight (wv_net V) ≡ₚ arrived ++ in_flight nl -> link_data nl = link_data (wv_net V) ->
  st ++ map (Flit.set_dequeue_time cur) arrived ≡ₚ fs ++ st' -> m_buffer q ≡ₚ map (credit_of cur) fs ++ m_buffer (wv_credits V) ->
  wire_inv m vn vp T' cur sk bs w (mkView (wv_queue V) (wv_out V) nl q None (wv_credit V)).
Proof.
  intros [] Hd Hin E1 E2 E3 Hst Hnl [= D1 D2 D3] Hbal Hq. set (V' := mkView _ _ _ _ _ _).
  split; cbn [V' wv_queue wv_out wv_net wv_credits wv_in wv_credit]; rewrite ?D1, ?D2, ?D3; try done.
  - rewrite Hnl, Forall_app in wi_fly. tauto.
  - rewrite Hq, <- app_assoc. apply Forall_app. split; [|done]. apply Forall_map.
    assert (Hall : Forall (fun f => 0 <= Flit.m_vc f < nv) (fs ++ st')).
    { rewrite <- Hbal. apply Forall_app. split; [done|]. apply Forall_map. rewrite Hnl, Forall_app in wi_fly. destruct wi_fly as [Ha _].
      eapply Forall_impl; [exact Ha|]. intros f (_ & Hv & _). exact Hv. }
    apply Forall_app in Hall as [Hall _]. eapply Forall_impl; [exact Hall|]. intros f Hf. split; [done | exact Hf].
  - rewrite Hnl, !Forall_app in wi_home. apply Forall_app. tauto.
  - intros k Hk. destruct (wi_slot k Hk) as (S1 & S2 & S3 & S4). rewrite Hd in *. cbn [extra] in *. rewrite E1, E3. rewrite E2 in *.
    assert (Et : transit k V' + nvc k st' = transit k V + nvc k st).
    { unfold transit, V'. cbn [wv_queue wv_net wv_credits wv_credit]. rewrite Hq, Hnl, !nvc_app, (nvc_map (credit_of cur)) by done.
      assert (Hb : nvc k (st ++ map (Flit.set_dequeue_time cur) arrived) = nvc k (fs ++ st')) by (by rewrite Hbal).
      rewrite !nvc_app, nvc_map in Hb by done. lia. }
    unfold slot_inv. unfold buffered in *. rewrite Hin in *. cbn [V' wv_out wv_in].
    assert (Es : transit k V' + 0 + nvc k st' = transit k V + 0 + nvc k st) by lia. rewrite Es. split_and!; [apply nvc_nonneg | lia | done | done].
Qed.

(** ** A network in which one interface and its incoming links change *)

Record rewired (n : Z) (ni' : NetworkInterface) (a : Z) (nl : NetworkLink flit) (b : Z) (cr : NetworkLink Credit) (g g' : GarnetNetwork) : Prop := {
  re_routers : m_routers g' = m_routers g;
  re_config : g_config g' = g_config g;
  re_bubble : bubble g' = bubble g;
  re_init : m_bubble_init g' = m_bubble_init g;
  re_nis : m_nis g' = <[Z.to_nat n := ni']> (m_nis g);
  re_nets : m_networklinks g' = <[Z.to_nat a := nl]> (m_networklinks g);
  re_creds : m_creditlinks g' = <[Z.to_nat b := cr]> (m_creditlinks g)
}.

Section Step.
Context (n : Z) (ni ni' : NetworkInterface) (in_ in' : NetworkLink flit) (cr cr' : NetworkLink Credit) (g g' : GarnetNetwork).
Context (Hni : vec_get (m_nis g) n = Ok ni) (Hin : vec_get (m_networklinks g) (inNetLink ni) = Ok in_)
  (Hcr : vec_get (m_creditlinks g) (inCreditLink ni) = Ok cr) (Hre : rewired n ni' (inNetLink ni) in' (inCreditLink ni) cr' g g').

Lemma rewired_src e : src_read e g' = if decide (e = ENode n) then Ok (outFlitQueue ni', None) else src_read e g.
Proof.
  pose proof (vec_get_range _ _ _ Hni). destruct Hre as [E1 _ _ _ E4 _ _]. destruct e as [rid o | n']; cbn [src_read].
  - rewrite decide_False by done. unfold get_ou. by rewrite E1.
  - rewrite E4. case_decide as Hd; [injection Hd as ->; by rewrite (vec_get_insert _ _ _ _ Hni)|]. by rewrite vec_get_insert_ne by (lia || congruence).
Qed.
Lemma rewired_dst e : dst_read e g' = if decide (e = ENode n) then Ok (outCreditQueue ni', None) else dst_read e g.
Proof.
  pose proof (vec_get_range _ _ _ Hni). destruct Hre as [E1 _ _ _ E4 _ _]. destruct e as [rid o | n']; cbn [dst_read].
  - rewrite decide_False by done. unfold get_iu. by rewrite E1.
  - rewrite E4. case_decide as Hd; [injection Hd as ->; by rewrite (vec_get_insert _ _ _ _ Hni)|]. by rewrite vec_get_insert_ne by (lia || congruence).
Qed.
Lemma rewired_net k : vec_get (m_networklinks g') k = if decide (k = inNetLink ni) then Ok in' else vec_get (m_networklinks g) k.
Proof.
  pose proof (vec_get_range _ _ _ Hin). rewrite (re_nets _ _ _ _ _ _ _ _ Hre). case_decide as Hd; [subst; by rewrite (vec_get_insert _ _ _ _ Hin)|].
  by rewrite vec_get_insert_ne by (lia || congruence).
Qed.
Lemma rewired_credit k : vec_get (m_creditlinks g') k = if decide (k = inCreditLink ni) then Ok cr' else vec_get (m_creditlinks g) k.
Proof.
  pose proof (vec_get_range _ _ _ Hcr). rewrite (re_creds _ _ _ _ _ _ _ _ Hre). case_decide as Hd; [subst; by rewrite (vec_get_insert _ _ _ _ Hcr)|].
  by rewrite vec_get_insert_ne by (lia || congruence).
Qed.

Lemma rewired_skel : skel g' = skel g.
Proof. unfold skel. by rewrite (re_routers _ _ _ _ _ _ _ _ Hre). Qed.

Lemma rewired_ids : m_router_id ni' = m_router_id ni -> router_ids g' = router_ids g.
Proof.
  intros E. unfold router_ids. rewrite (re_nis _ _ _ _ _ _ _ _ Hre). apply vec_get_Ok in Hni as [_ Hn]. by apply (map_insert_id _ _ _ _ _ Hn).
Qed.

(** The flits of the fabric. *)
Lemma rewired_flits : in_flight in_ ++ m_buffer (outFlitQueue ni) ++ net_flits g' ≡ₚ in_flight in' ++ m_buffer (outFlitQueue ni') ++ net_flits g.
Proof.
  unfold net_flits. destruct Hre as [E1 _ _ _ E4 E5 _]. rewrite E1, E4, E5.
  pose proof (concat_map_vec_insert in_flight _ _ _ in' Hin) as H1.
  pose proof (concat_map_vec_insert (fun ni => m_buffer (outFlitQueue ni)) _ _ _ ni' Hni) as H2. cbn beta in H2.
  set (A := concat (map router_flits (m_routers g))).
  transitivity (A ++ (in_flight in_ ++ concat (map in_flight (<[Z.to_nat (inNetLink ni) := in']> (m_networklinks g)))) ++
    (m_buffer (outFlitQueue ni) ++ concat (map (fun ni => m_buffer (outFlitQueue ni)) (<[Z.to_nat n := ni']> (m_nis g))))); [solve_Permutation|].
  rewrite H1, H2. solve_Permutation.
Qed.

Lemma rewired_deliveries : ni_deliveries ni ++ concat (map ni_deliveries (m_nis g')) ≡ₚ ni_deliveries ni' ++ concat (map ni_deliveries (m_nis g)).
Proof. rewrite (re_nis _ _ _ _ _ _ _ _ Hre). apply (concat_map_vec_insert ni_deliveries _ _ _ ni' Hni). Qed.

(** The tally of the interface that woke up. *)
Definition retally (T : Tally) (iss : Z -> Z) : Tally :=
  mkTally (fun n' => if decide (n' = n) then (fun k => nvc k (m_stall_queue ni')) else taken T n')
    (fun n' => if decide (n' = n) then iss else issued T n').

Lemma retally_taken T iss n' : n' <> n -> taken (retally T iss) n' = taken T n' /\ issued (retally T iss) n' = issued T n'.
Proof. intros Hne. cbn. by rewrite !decide_False. Qed.

Context (T : Tally) (cur : Z) (Hg : tallied T cur g) (Hw : woken (g_config g) m vn vp (skel g) (router_ids g) n cur (issued T n) in_ cr ni in' cr' ni').

(** The wires of the interface, before and after. *)
Lemma rewired_wires : exists iss, src_inv (g_config g) m vn vp (skel g) (router_ids g) cur iss ni' /\
  forall w, w ∈ W -> exists V, view w g' = Ok V /\ wire_inv m vn vp (retally T iss) cur (skel g) (bubble g) w V.
Proof.
  destruct Hg as [Hfab _ _ Hnodes]. pose proof (Hnodes n ni Hni) as [Hsrc Hdst Htaken (wo & ro & io & Hwo & Eso & Eco & Edo) (wi & ri & oi & Hwi & Edi & Eni & Esi & Hhome)].
  destruct Hw as [_ _ [Dn Dc] (fs & cs & Hsrc' & Hcs & Hq & Hfs & _) (es & arrived & Harr & Hbal & Hcq & _)].
  exists (fun k => issued T n k + nvc k fs - nvc k cs). split; [done|]. set (T' := retally T _).
  pose proof (fb_wiring _ _ _ _ _ _ _ Hfab) as Hwir. assert (Hne : wo <> wi) by (intros ->; congruence).
  destruct (wiring_wire W _ _ _ wo wi Hwir Hwo Hwi) as (_ & _ & Nn & Nc); [congruence|].
  intros w Hww. destruct (fb_wires _ _ _ _ _ _ _ Hfab w Hww) as (V & HV & Hinv). pose proof (proj1 (view_Ok _ _ _) HV) as (V1 & V2 & V3 & V4).
  destruct (decide (w = wo)) as [->|Hwo'].
  - rewrite Eso in V1. cbn [src_read] in V1. rewrite Hni in V1. cbn [mbind result_bind] in V1. apply Ok_inj in V1. injection V1 as V1 V1'.
    rewrite Eco, Hcr in V4. apply Ok_inj in V4. exists (mkView (outFlitQueue ni') None (wv_net V) (wv_credits V) (wv_in V) cr'). split.
    + apply view_Ok. rewrite rewired_src, rewired_net, rewired_dst, rewired_credit, Eso, Eco, Edo. rewrite Edo in V3.
      split_and!; [by rewrite decide_True | by rewrite decide_False by congruence | by rewrite decide_False | by rewrite decide_True].
    + apply (wire_out cur (skel g) (bubble g) wo V T T' n (outFlitQueue ni') cr' fs cs Hinv Eso); try done.
      * intros k. by rewrite Edo.
      * intros k. cbn. by rewrite decide_True.
      * intros k Hk. cbn. rewrite decide_True by done. by apply (src_inv_one _ _ _ _ _ _ _ _ _ k Hsrc').
      * by rewrite <- V1.
      * eapply Forall_impl; [exact Hfs|]. intros f Hf. apply Hf.
      * by rewrite <- V4.
      * by rewrite <- V4.
  - destruct (wiring_wire W _ _ _ wo w Hwir Hwo Hww Hwo') as (Ns & _ & _ & Nc'). destruct (decide (w = wi)) as [->|Hwi'].
    + rewrite Edi in V3. cbn [dst_read] in V3. rewrite Hni in V3. cbn [mbind result_bind] in V3. apply Ok_inj in V3. injection V3 as V3 V3'.
      rewrite Eni, Hin in V2. apply Ok_inj in V2. exists (mkView (wv_queue V) (wv_out V) in' (outCreditQueue ni') None (wv_credit V)). split.
      * apply view_Ok. rewrite rewired_src, rewired_net, rewired_dst, rewired_credit, Edi, Eni, Esi. rewrite Esi in V1.
        split_and!; [by rewrite decide_False | by rewrite decide_True | by rewrite decide_True | by rewrite decide_False by congruence].
      * apply (wire_in cur (skel g) (bubble g) wi V T T' n in' (outCreditQueue ni') (m_stall_queue ni) (m_stall_queue ni') arrived es Hinv Edi); try done.
        -- intros k. by rewrite Esi.
        -- intros k. cbn. by rewrite decide_True.
        -- eapply Forall_impl; [exact (di_stall _ _ _ _ _ _ _ Hdst)|]. intros f (_ & Hv & _). exact Hv.
        -- by rewrite <- V2.
        -- by rewrite <- V2.
        -- by rewrite <- V3.
    + destruct (wiring_wire W _ _ _ wi w Hwir Hwi Hww Hwi') as (_ & Nd & Nn' & _). rewrite Eso in Ns. rewrite Edi in Nd. exists V. split.
      * apply view_Ok. rewrite rewired_src, rewired_net, rewired_dst, rewired_credit. by rewrite !decide_False by congruence.
      * apply (wire_inv_tally _ _ _ _ _ T); [| |done]; intros k.
        -- destruct (w_dst w) as [|n'] eqn:E; [done|]. cbn. by rewrite decide_False by congruence.
        -- destruct (w_src w) as [|n'] eqn:E; [done|]. cbn. by rewrite decide_False by congruence.
Qed.

Lemma rewired_tallied : stats_ok vn (vsize (skel g)) (g_stats g') -> network_inv cur g'.
Proof.
  intros Hst. destruct rewired_wires as (iss & Hsrc' & Hwires). exists (retally T iss). pose proof rewired_skel as Esk. pose proof Hre as [E1 E2 E3 _ E4 E5 E6].
  destruct Hg as [[F1 F2 F3 F4 F5 F6] Hsim _ Hnodes]. destruct Hw as [(K1 & K2 & K3) Hdst' _ _ _]. pose proof (rewired_ids K3) as Eids. split.
  - split; rewrite ?Esk, ?E2, ?E3; try done.
    + by rewrite E5, E6, !vsize_insert.
    + intros k b Hb. eapply bubble_ok_sk; [exact Esk | by apply F4].
    + by rewrite E1.
  - by rewrite E2.
  - by rewrite Esk.
  - rewrite E4. pose proof (vec_get_range _ _ _ Hni). intros n' x Hx. destruct (decide (n' = n)) as [->|Hne].
    + rewrite (vec_get_insert _ _ _ _ Hni) in Hx. apply Ok_inj in Hx as <-. destruct (Hnodes n ni Hni) as [_ _ _ N4 N5].
      split; rewrite ?E2, ?Esk, ?Eids, ?K1, ?K2; cbn; rewrite ?decide_True by done; done.
    + rewrite vec_get_insert_ne in Hx by (lia || done). destruct (Hnodes n' x Hx) as [N1 N2 N3 N4 N5].
      destruct (retally_taken T iss n' Hne) as [R1 R2]. split; rewrite ?E2, ?Esk, ?Eids, ?R1, ?R2; done.
Qed.

Lemma rewired_conserves : net_deliveries g' ≡ₚ net_deliveries g.
Proof.
  destruct Hw as [_ _ _ (fs & cs & _ & _ & Hq & _ & Hd1) (es & arrived & Harr & Hbal & _ & Hd2)].
  pose proof rewired_flits as Hfl. rewrite Harr, Hq in Hfl. assert (Hf : arrived ++ net_flits g' ≡ₚ fs ++ net_flits g).
  { apply (Permutation_app_inv_l (in_flight in' ++ m_buffer (outFlitQueue ni))). transitivity ((arrived ++ in_flight in') ++ m_buffer (outFlitQueue ni) ++ net_flits g');
      [solve_Permutation|]. rewrite Hfl. solve_Permutation. }
  assert (Hb : flits_deliveries (m_stall_queue ni) ++ flits_deliveries arrived ≡ₚ flits_deliveries es ++ flits_deliveries (m_stall_queue ni')).
  { rewrite <- !flits_deliveries_app, <- Hbal, !flits_deliveries_app. by rewrite (flits_deliveries_map (Flit.set_dequeue_time cur)). }
  assert (Hf' : flits_deliveries arrived ++ flits_deliveries (net_flits g') ≡ₚ flits_deliveries fs ++ flits_deliveries (net_flits g))
    by (by rewrite <- !flits_deliveries_app, Hf).
  pose proof rewired_deliveries as Hn. unfold net_deliveries.
  apply (Permutation_app_inv_l (ni_deliveries ni ++ flits_deliveries arrived)).
  transitivity ((flits_deliveries arrived ++ flits_deliveries (net_flits g')) ++ ni_deliveries ni ++ concat (map ni_deliveries (m_nis g'))); [solve_Permutation|].
  rewrite Hf', Hn. unfold ni_deliveries at 1 3. rewrite Hd2. rewrite (app_assoc (in_deliveries ni)), Hd1.
  transitivity (flits_deliveries fs ++ flits_deliveries (net_flits g) ++ concat (map ni_deliveries (m_nis g)) ++ in_deliveries ni' ++
    flits_deliveries (waiting_flits ni') ++ (flits_deliveries es ++ flits_deliveries (m_stall_queue ni')) ++ out_deliveries ni); [solve_Permutation|].
  rewrite <- Hb. solve_Permutation.
Qed.
End Step.

(** ** The wakeup *)

Lemma put_marks_id rs : put_marks (map mrkd_flt_ rs) rs = rs.
Proof. induction rs as [|r rs IH]; [done|]. cbn. unfold put_marks in IH. rewrite IH. by destruct r. Qed.

Lemma ni_wakeup_ok we rnd cur g n : node_ids_fit -> network_inv cur g -> 0 <= cur < 2 ^ 64 - 1 -> 0 <= n < vsize (m_nis g) ->
  exists g', ni_wakeup cur false we rnd n g = Ok g' /\ network_inv cur g' /\ same_shape g g' /\ net_deliveries g' ≡ₚ net_deliveries g.
Proof.
  intros Hfit [T Hg] Hcur Hn. destruct (vec_get_in_range _ _ Hn) as [ni Hni]. pose proof Hg as [Hfab Hsim Hst Hnodes].
  pose proof (Hnodes n ni Hni) as [Hsrc Hdst Htaken (wo & ro & io & Hwo & Eso & Eco & Edo) (wi & ri & oi & Hwi & Edi & Eni & Esi & Hhome)].
  destruct (fb_wires _ _ _ _ _ _ _ Hfab wo Hwo) as (Vo & HVo & Io). destruct (fb_wires _ _ _ _ _ _ _ Hfab wi Hwi) as (Vi & HVi & Ii).
  apply view_Ok in HVo as (Vo1 & _ & _ & Hcr). apply view_Ok in HVi as (_ & Hin & _ & _). rewrite Eco in Hcr. rewrite Eni in Hin.
  rewrite Eso in Vo1. cbn [src_read] in Vo1. rewrite Hni in Vo1. cbn [mbind result_bind] in Vo1. apply Ok_inj in Vo1. injection Vo1 as Vo1 Vo2.
  destruct (wakeup_safe (g_config g) m vn vp (skel g) (router_ids g) n Hsim Hfit (fun d => get_router_id d g) (get_router_id_ids g) we rnd cur (issued T n)
    (wv_net Vi) (wv_credit Vo) ni (g_stats g) (map mrkd_flt_ (m_routers g)) Hcur Hsrc Hdst Hst) as (in' & cr' & ni' & s' & Hwk & Hst' & Hw).
  { apply Ii. }
  { pose proof (wi_home _ _ _ _ _ _ _ _ _ Ii) as [_ Hh]%Forall_app. pose proof (wi_fly _ _ _ _ _ _ _ _ _ Ii) as Hfl. rewrite Forall_forall in Hh, Hfl.
    apply Forall_forall. intros f Hf. eapply (home_addressed (skel g) wi ri oi n f); try done; [by apply Hh | apply Hfl, Hf]. }
  { pose proof (wi_cred _ _ _ _ _ _ _ _ _ Io) as H. by apply Forall_app in H as [_ ?]. }
  { intros k Hk. destruct (wi_slot _ _ _ _ _ _ _ _ _ Io k Hk) as (S1 & _ & S3 & _). rewrite <- Vo2, Eso in S3. cbn [issued_at] in S3.
    pose proof (buffered_nonneg k Vo). pose proof (nvc_nonneg k (m_buffer (wv_queue Vo))). pose proof (nvc_nonneg k (in_flight (wv_net Vo))).
    pose proof (nvc_nonneg k (m_buffer (wv_credits Vo))). unfold transit in S3. lia. }
  unfold ni_wakeup. rewrite Hni. cbn [mbind result_bind]. rewrite Hin. cbn [mbind result_bind]. rewrite Hcr. cbn [mbind result_bind].
  rewrite Hwk. cbn [mbind result_bind]. rewrite (vec_set_Ok_get _ _ _ _ Hin). cbn [mbind result_bind]. rewrite (vec_set_Ok_get _ _ _ _ Hcr). cbn [mbind result_bind].
  rewrite (vec_set_Ok_get _ _ _ _ Hni). cbn [mbind result_bind w_mrkd w_stats]. rewrite put_marks_id. eexists. split; [done|]. set (g' := with_g_stats _ _).
  assert (Hre : rewired n ni' (inNetLink ni) in' (inCreditLink ni) cr' g g') by (by split).
  split_and!; [by eapply (rewired_tallied n ni) | | by eapply (rewired_conserves n ni)].
  split; [by apply (rewired_skel n ni ni' in' cr') | done | done | cbn; by rewrite vsize_insert..].
Qed.
End Nodes.
