(* ===== verification/FabricCheck.v ===== *)
(** * An executable check of the fabric's invariant

    [wires_of] reads the wires off the links a topology made; [fabric_b] evaluates every clause of [fabric_inv], and
    [network_b] those of [network_inv]. *)

From S2P Require Import Prelude RubySet NetDestTheory Flit FlitBuffer NetDest Consumer Config RoutingUnit RoutingTable.
From S2P Require Import MeshRouting NetworkLink VirtualChannel OutVcState OutputUnit InputUnit RouterState SwitchAllocator.
From S2P Require Import SwitchTheory SwitchMoved SwitchCorrect RouterCycle BubblePath MessageBuffer NetStats NetworkInterface.
From S2P Require Import GarnetNetwork Bubble NetLens NetRouting BubbleInv BubbleMoves BubbleIntra BubbleInit BubbleInter.
From S2P Require Import BubbleCheck RouterWakeup Fabric MessageBufferTheory NITheory NIStep FabricNodes.
Local Open Scope Z_scope.

(** A link and the credit link beside it join the network's vectors together. *)
Definition end_of (q : option QueueRef) : list End :=
  match q with
  | Some (QOut rid o) => [EPort rid o]
  | Some (QCredit rid i) => [EPort rid i]
  | Some (QNIOut n) | Some (QNICredit n) => [ENode n]
  | None => []
  end.
Definition wires_of (g : GarnetNetwork) : list Wire :=
  concat (zip_with (fun k '(nl, cl) =>
      s ← end_of (link_srcQueue nl); d ← end_of (link_srcQueue cl); [mkWire k k s d])
    (seqZ 0 (vsize (m_networklinks g))) (zip (m_networklinks g) (m_creditlinks g))).

Section Check.
Context (m vn vp : Z) (W : list Wire) (T : Tally).

Abbreviation nv := (vn * vp).

(** ** Destinations *)

(** One bit of one set. *)
Definition single_b (nd : NetDest) : bool :=
  match filter (fun p => RubySet.bits p.2 <> 0) (zip (seqZ 0 (vsize (m_bits nd))) (m_bits nd)) with
  | [(_, s)] => RubySet.bits s =? 2 ^ Z.log2 (RubySet.bits s)
  | _ => false
  end.

Lemma single_b_sound nd : single_b nd = true -> exists x y, forall x' y', nd_member nd x' y' <-> x' = x /\ y' = y.
Proof.
  unfold single_b. set (l := filter _ _). assert (Hl : forall x s, (x, s) ∈ l <-> vec_get (m_bits nd) x = Ok s /\ RubySet.bits s <> 0).
  { intros x s. unfold l. rewrite list_elem_of_filter. cbn [snd]. rewrite vec_get_Ok, list_elem_of_lookup. split.
    - intros [Hs [i Hi]]. apply lookup_zip_Some in Hi as [Hx Hi]. apply lookup_seqZ in Hx as [-> _]. rewrite Z.add_0_l, Nat2Z.id. split_and!; [lia | done | done].
    - intros [[H0 Hx] Hs]. split; [done|]. exists (Z.to_nat x). apply lookup_zip_Some. split; [|done]. apply lookup_lt_Some in Hx.
      apply lookup_seqZ. unfold vsize. lia. }
  destruct l as [|[x s] [|]]; [done | |done]. intros E%Z.eqb_eq. destruct (proj1 (Hl x s)) as [Hx Hs]; [by left|].
  exists x, (Z.log2 (RubySet.bits s)). intros x' y'. unfold nd_member, RubySet.member. split.
  - intros (s' & Hx' & Hb). assert (Hin : (x', s') ∈ [(x, s)]) by (apply Hl; split; [done|]; intros E0; by rewrite E0, Z.testbit_0_l in Hb).
    apply list_elem_of_singleton in Hin as [= -> ->]. split; [done|]. rewrite E in Hb. rewrite Z.pow2_bits_eqb in Hb by apply Z.log2_nonneg.
    by apply Z.eqb_eq in Hb.
  - intros [-> ->]. exists s. split; [done|]. rewrite E at 1. rewrite Z.pow2_bits_eqb by apply Z.log2_nonneg. apply Z.eqb_refl.
Qed.

Definition reaches_b (dest : NetDest) (ru : RoutingUnit) (o : Z) : bool :=
  match vec_get (m_routing_table ru) o with
  | Ok e => existsb (fun p => 0 <? Z.land (RubySet.bits p.1) (RubySet.bits p.2)) (zip (m_bits dest) (m_bits e))
  | Err _ => false
  end.

Lemma reaches_b_sound dest ru o : reaches_b dest ru o = true -> reaches dest ru o.
Proof.
  unfold reaches_b. destruct (vec_get (m_routing_table ru) o) as [e|] eqn:He; [|done]. intros ([s s'] & Hin & Hb%Z.ltb_lt)%existsb_exists.
  apply list_elem_of_In, list_elem_of_lookup in Hin as [i (H1 & H2)%lookup_zip_Some]. cbn [fst snd] in *.
  pose proof (Z.bit_log2 _ Hb) as Ht. rewrite Z.land_spec in Ht. apply andb_true_iff in Ht as [T1 T2].
  exists e, (Z.of_nat i), (Z.log2 (Z.land (RubySet.bits s) (RubySet.bits s'))).
  split_and!; [done | exists s | exists s']; (split; [apply vec_get_Ok; rewrite Nat2Z.id; split; [lia | done] | done]).
Qed.

Definition leads_b (row : RouterSk) (route : RouteInfo) (o : Z) : bool :=
  match vec_get (sk_out row) o with Ok d => negb (local (os_dirn d)) || reaches_b (net_dest route) (sk_routing row) o | Err _ => false end.

Lemma leads_b_sound row route o : leads_b row route o = true -> leads row route o.
Proof.
  unfold leads_b. destruct (vec_get (sk_out row) o) as [d|] eqn:Hd; [|done]. intros H. split; [by eapply vec_get_range|].
  intros d' Hd' Hl. rewrite Hd in Hd'. apply Ok_inj in Hd' as <-. unfold local in H. rewrite Hl in H. by apply reaches_b_sound.
Qed.

(** ** Wires *)

Definition packet_b (sk : list RouterSk) (f : flit) : bool :=
  bool_decide (Flit.m_type f = HEAD_TAIL_ /\ 0 <= Flit.m_vnet f < vn /\ m_marked f = false /\
    m_LastEnqueueTime (m_msg_ptr f) <= Flit.m_enqueue_time f /\ net_dest (m_route f) = destination (m_msg_ptr f)) &&
  route_ok_b m sk (m_route f) && single_b (net_dest (m_route f)).
#[export] Instance aged_dec cur f : Decision (aged cur f).
Proof. unfold aged. apply _. Defined.
Definition queued_b (cur : Z) (sk : list RouterSk) (e : End) (f : flit) : bool :=
  packet_b sk f && bool_decide (0 <= Flit.m_vc f < nv) &&
  (bool_decide (aged cur f) || match e with ENode _ => bool_decide (aged (Flit.m_time f) f) | EPort _ _ => false end).
Definition flying_b (cur : Z) (sk : list RouterSk) (f : flit) : bool := packet_b sk f && bool_decide (0 <= Flit.m_vc f < nv /\ aged cur f).
Definition leads_at_b (sk : list RouterSk) (e : End) (f : flit) : bool :=
  match e with
  | EPort rid _ => match vec_get sk rid with Ok row => leads_b row (m_route f) (m_outport f) | Err _ => true end
  | ENode _ => false
  end.
Definition waiting_b (cur : Z) (sk : list RouterSk) (e : End) (v : VirtualChannel) : bool :=
  bool_decide (m_output_vc v = -1) && forallb (fun f => packet_b sk f && bool_decide (aged cur f) && leads_at_b sk e f) (VirtualChannel.flits v).
Definition home_b (sk : list RouterSk) (w : Wire) (f : flit) : bool :=
  match w_src w, w_dst w with
  | EPort rid o, ENode _ => match vec_get sk rid with Ok row => reaches_b (net_dest (m_route f)) (sk_routing row) o | Err _ => true end
  | _, _ => true
  end.

Lemma packet_b_sound sk f : packet_b sk f = true -> packet_ok m vn sk f.
Proof.
  intros [[H1%bool_decide_eq_true H2%route_ok_b_sound]%andb_true_iff H3%single_b_sound]%andb_true_iff. destruct H1 as (?&?&?&?&?). by split.
Qed.
Lemma queued_b_sound cur sk e f : queued_b cur sk e f = true -> queued_ok m vn vp cur sk e f.
Proof.
  intros [[H1%packet_b_sound H2%bool_decide_eq_true]%andb_true_iff H3]%andb_true_iff. split; [done|]. split; [done|].
  apply orb_true_iff in H3 as [H3%bool_decide_eq_true | H3]; [by left | right]. by destruct e; [|apply bool_decide_eq_true in H3].
Qed.
Lemma flying_b_sound cur sk f : flying_b cur sk f = true -> flying_ok m vn vp cur sk f.
Proof. intros [H1%packet_b_sound H2%bool_decide_eq_true]%andb_true_iff. by split. Qed.
Lemma leads_at_b_sound sk e f : leads_at_b sk e f = true -> leads_at sk e f.
Proof. destruct e as [rid|]; [|done]. cbn. intros H row Hrow. rewrite Hrow in H. by apply leads_b_sound. Qed.
Lemma home_b_sound sk w f : home_b sk w f = true -> home_ok sk w f.
Proof.
  unfold home_b, home_ok. destruct (w_src w) as [rid o|]; [|done]. destruct (w_dst w); [done|]. intros H row Hrow. rewrite Hrow in H.
  by apply reaches_b_sound.
Qed.
Lemma waiting_b_sound cur sk e v : waiting_b cur sk e v = true -> waiting_ok m vn cur sk e v.
Proof.
  intros [H1%bool_decide_eq_true H2]%andb_true_iff. split; [done|]. eapply forallb_Forall; [|exact H2].
  intros f [[H3%packet_b_sound H4%bool_decide_eq_true]%andb_true_iff H5%leads_at_b_sound]%andb_true_iff. done.
Qed.

#[local] Instance slot_inv_dec cur k x y V : Decision (slot_inv cur k x y V).
Proof.
  unfold slot_inv, sender_ok, receiver_ok. destruct (wv_out V) as [ou|]; [destruct (vec_get (m_outvc_state ou) k)|];
    (destruct (wv_in V) as [iu|]; [destruct (vec_get (m_vcs iu) k)|]); apply _.
Defined.
#[local] Instance credit_ok_dec c : Decision (credit_ok vn vp c).
Proof. unfold credit_ok. apply _. Defined.

Definition wire_b (cur : Z) (sk : list RouterSk) (bs : list brownian_bubble) (w : Wire) (V : View) : bool :=
  bool_decide (link_srcQueue (wv_net V) = Some (src_queue (w_src w)) /\ link_consumer (wv_net V) <> None /\ vsize (m_vc_load (wv_net V)) = nv /\
    link_srcQueue (wv_credit V) = Some (dst_queue (w_dst w)) /\ link_consumer (wv_credit V) <> None /\ vsize (m_vc_load (wv_credit V)) = nv) &&
  match wv_out V with Some ou => OutputUnit.m_credit_link ou =? w_credit w | None => true end &&
  match wv_in V with Some iu => (m_in_link iu =? w_net w) && forallb (waiting_b cur sk (w_dst w)) (m_vcs iu) | None => true end &&
  (forallb (queued_b cur sk (w_src w)) (m_buffer (wv_queue V)) && forallb (flying_b cur sk) (in_flight (wv_net V))) &&
  forallb (home_b sk w) (m_buffer (wv_queue V) ++ in_flight (wv_net V)) &&
  forallb (fun c => bool_decide (credit_ok vn vp c)) (m_buffer (wv_credits V) ++ in_flight (wv_credit V)) &&
  forallb (fun k => bool_decide (slot_inv cur k (extra T bs (w_dst w) k) (issued_at T (w_src w) k) V)) (seqZ 0 nv).

Lemma wire_b_sound cur sk bs w V : wire_b cur sk bs w V = true -> wire_inv m vn vp T cur sk bs w V.
Proof.
  unfold wire_b. intros [[[[[[H1 H2]%andb_true_iff H3]%andb_true_iff H4]%andb_true_iff H7]%andb_true_iff H5]%andb_true_iff H6]%andb_true_iff.
  apply bool_decide_eq_true in H1 as (?&?&?&?&?&?). split; try done.
  - destruct (wv_out V); [by apply Z.eqb_eq | done].
  - destruct (wv_in V); [|done]. apply andb_true_iff in H3 as [H3 _]. by apply Z.eqb_eq.
  - apply andb_true_iff in H4 as [H4 _]. eapply forallb_Forall; [apply queued_b_sound | done].
  - apply andb_true_iff in H4 as [_ H4]. eapply forallb_Forall; [apply flying_b_sound | done].
  - eapply forallb_Forall; [|exact H5]. intros c. apply bool_decide_eq_true.
  - destruct (wv_in V); [|done]. apply andb_true_iff in H3 as [_ H3]. eapply forallb_Forall; [apply waiting_b_sound | done].
  - eapply forallb_Forall; [apply home_b_sound | done].
  - intros k Hk. rewrite forallb_forall in H6. specialize (H6 k). apply bool_decide_eq_true in H6; [done|].
    apply list_elem_of_In, elem_of_seqZ. lia.
Qed.

(** ** Routers *)

#[local] Instance mat_ok_dec {A} r c (x : list (list A)) : Decision (mat_ok r c x).
Proof. unfold mat_ok. apply _. Defined.
#[local] Instance iu_dim_dec iu : Decision (iu_dim vn vp iu).
Proof. unfold iu_dim. apply _. Defined.
#[local] Instance ou_dim_dec ou : Decision (ou_dim vn vp ou).
Proof. unfold ou_dim. apply _. Defined.

Definition router_b (c : Config) (r : Router) : bool :=
  let sh := shape_of vn vp r in let sa := m_sw_alloc r in
  bool_decide (1 <= RouterState.m_latency r /\ (0 < ni sh /\ 0 < vn /\ 0 < vp /\ vn <= vsize (m_ordered c)) /\ RouterState.m_virtual_networks r = vn) &&
  bool_decide (m_num_inports sa = ni sh /\ m_num_outports sa = no sh /\ sa_num_vcs sa = nv /\ sa_vc_per_vnet sa = vp) &&
  bool_decide (vsize (m_round_robin_invc sa) = ni sh /\ Forall (fun x => 0 <= x < nv) (m_round_robin_invc sa)) &&
  bool_decide (vsize (m_round_robin_inport sa) = no sh /\ Forall (fun x => 0 <= x < ni sh) (m_round_robin_inport sa)) &&
  bool_decide (mat_ok (no sh) (ni sh) (m_port_requests sa) /\ mat_ok (no sh) (ni sh) (m_vc_winners sa)) &&
  bool_decide (vsize (m_switch_buffer (m_switch r)) = ni sh /\ cs_num_inports (m_switch r) = ni sh) &&
  forallb (forallb negb) (m_port_requests sa) && forallb (fun b => bool_decide (length (m_buffer b) = 0%nat)) (m_switch_buffer (m_switch r)) &&
  bool_decide (Forall (iu_dim vn vp) (m_input_unit r)) && bool_decide (Forall (ou_dim vn vp) (m_output_unit r)).

Lemma router_b_sound c r : router_b c r = true -> router_fixed vn vp c r.
Proof.
  unfold router_b. intros H. repeat (apply andb_true_iff in H as [H ?]).
  repeat match goal with H : bool_decide _ = true |- _ => apply bool_decide_eq_true in H end. destruct_and?. split; try done.
  - intros o i Hq. unfold req, mat_get in Hq. apply bind_Ok in Hq as (row & [_ Hrow]%vec_get_Ok & [_ Hi]%vec_get_Ok).
    rename select (forallb (forallb negb) _ = true) into Hn. rewrite forallb_forall in Hn.
    specialize (Hn row (proj1 (list_elem_of_In _ _) (list_elem_of_lookup_2 _ _ _ Hrow))). rewrite forallb_forall in Hn.
    by specialize (Hn true (proj1 (list_elem_of_In _ _) (list_elem_of_lookup_2 _ _ _ Hi))).
  - eapply forallb_Forall; [|eassumption]. intros b Hb%bool_decide_eq_true. by apply nil_length_inv.
Qed.

(** ** The wiring *)

Definition has (p : Wire -> bool) : bool := existsb p W.
Lemma has_sound p : has p = true -> exists w, w ∈ W /\ p w = true.
Proof. intros (w & Hw & Hp)%existsb_exists. exists w. by rewrite list_elem_of_In. Qed.

Definition inner (sk : list RouterSk) (e : End) : bool :=
  match e with
  | EPort rid i => match (row ← vec_get sk rid; vec_get (sk_in row) i) with Ok x => negb (local x.1.2) | Err _ => false end
  | ENode _ => false
  end.

Definition wire_ends_b (sk : list RouterSk) (w : Wire) : bool :=
  (negb (inner sk (w_dst w)) ||
   match w_dst w with
   | EPort rid i => match (row ← vec_get sk rid; x ← vec_get (sk_in row) i; up_of sk rid x.2) with
                    | Ok p => bool_decide (w_src w = EPort p.1 p.2) | Err _ => false end
   | ENode _ => false
   end) &&
  match w_src w with
  | EPort rid o => match (row ← vec_get sk rid; vec_get (sk_out row) o) with
                   | Ok d => local (os_dirn d) || inner sk (w_dst w) | Err _ => true end
  | ENode _ => true
  end.

Definition wiring_b (sk : list RouterSk) (nets creds : Z) : bool :=
  bool_decide (NoDup (map w_net W)) && bool_decide (NoDup (map w_credit W)) && bool_decide (NoDup (map w_src W)) && bool_decide (NoDup (map w_dst W)) &&
  forallb (fun k => has (fun w => w_net w =? k)) (seqZ 0 nets) && forallb (fun k => has (fun w => w_credit w =? k)) (seqZ 0 creds) &&
  vforall sk (fun rid row =>
    vforall (sk_out row) (fun o _ => has (fun w => bool_decide (w_src w = EPort rid o))) &&
    vforall (sk_in row) (fun i _ => has (fun w => bool_decide (w_dst w = EPort rid i)))) &&
  forallb (wire_ends_b sk) W.

Lemma range_b (p : Z -> bool) n k : forallb p (seqZ 0 n) = true -> 0 <= k < n -> p k = true.
Proof. intros H Hk. rewrite forallb_forall in H. apply H, list_elem_of_In, elem_of_seqZ. lia. Qed.

Lemma wire_ends_b_sound sk w rid i row e : wire_ends_b sk w = true -> w_dst w = EPort rid i -> vec_get sk rid = Ok row -> vec_get (sk_in row) i = Ok e ->
  e.1.2 <> "Local"%string -> exists p, up_of sk rid e.2 = Ok p /\ w_src w = EPort p.1 p.2.
Proof.
  intros [H _]%andb_true_iff Hd Hr He Hl. unfold inner in H. rewrite Hd, Hr in H. cbn [mbind result_bind] in H. rewrite He in H.
  cbn [mbind result_bind] in H. rewrite (local_false _ Hl) in H. cbn [negb orb] in H. destruct (up_of sk rid e.2) as [p|]; [|done].
  apply bool_decide_eq_true in H. eauto.
Qed.

Lemma inner_sound sk e : inner sk e = true -> exists rid' i row' x, e = EPort rid' i /\ vec_get sk rid' = Ok row' /\
  vec_get (sk_in row') i = Ok x /\ x.1.2 <> "Local"%string.
Proof.
  destruct e as [rid i | n]; [|done]. cbn [inner]. destruct (vec_get sk rid) as [row|] eqn:Hr; [|done]. cbn [mbind result_bind].
  destruct (vec_get (sk_in row) i) as [x|] eqn:Hx; [|done]. intros Hl%negb_true_iff%String.eqb_neq. eauto 10.
Qed.

Lemma wiring_b_sound sk nets creds : wiring_b sk nets creds = true -> wiring W sk nets creds.
Proof.
  unfold wiring_b. intros H. apply andb_true_iff in H as [H H8]. apply andb_true_iff in H as [H H7]. apply andb_true_iff in H as [H H6].
  apply andb_true_iff in H as [H H5]. apply andb_true_iff in H as [H H4%bool_decide_eq_true]. apply andb_true_iff in H as [H H3%bool_decide_eq_true].
  apply andb_true_iff in H as [H1%bool_decide_eq_true H2%bool_decide_eq_true]. split; try done.
  - intros k Hk. apply (range_b _ _ _ H5), has_sound in Hk as (w & Hw & E%Z.eqb_eq). eauto.
  - intros k Hk. apply (range_b _ _ _ H6), has_sound in Hk as (w & Hw & E%Z.eqb_eq). eauto.
  - intros rid row o Hr Ho. apply (vforall_sound _ _ _ _ H7), andb_true_iff in Hr as [Hr _]. destruct (vec_get_in_range _ _ Ho) as [x Hx].
    apply (vforall_sound _ _ _ _ Hr), has_sound in Hx as (w & Hw & E%bool_decide_eq_true). eauto.
  - intros rid row i Hr Hi. apply (vforall_sound _ _ _ _ H7), andb_true_iff in Hr as [_ Hr]. destruct (vec_get_in_range _ _ Hi) as [x Hx].
    apply (vforall_sound _ _ _ _ Hr), has_sound in Hx as (w & Hw & E%bool_decide_eq_true). eauto.
  - rewrite forallb_forall in H8. intros w rid i row e Hw. apply wire_ends_b_sound, H8. by apply list_elem_of_In.
  - rewrite forallb_forall in H8. intros w rid o row d Hw Hs Hr Ho Hl. specialize (H8 w (proj1 (list_elem_of_In _ _) Hw)).
    apply andb_true_iff in H8 as [_ H8]. rewrite Hs, Hr in H8. cbn [mbind result_bind] in H8. rewrite Ho, (local_false _ Hl) in H8. by apply inner_sound.
Qed.

(** ** The network *)

Definition fabric_b (cur : Z) (g : GarnetNetwork) : bool :=
  wired_b (skel g) && mesh_sk_b m (g_config g) (skel g) && wiring_b (skel g) (vsize (m_networklinks g)) (vsize (m_creditlinks g)) &&
  vforall (bubble g) (bubble_b cur g) && vforall (m_routers g) (fun _ => router_b (g_config g)) &&
  forallb (fun w => match view w g with Ok V => wire_b cur (skel g) (bubble g) w V | Err _ => false end) W.

Lemma fabric_b_sound cur g : fabric_b cur g = true -> fabric_inv m vn vp W T cur g.
Proof.
  unfold fabric_b. intros H. apply andb_true_iff in H as [H H6]. apply andb_true_iff in H as [H H5]. apply andb_true_iff in H as [H H4].
  apply andb_true_iff in H as [H H3]. apply andb_true_iff in H as [H1 H2]. split.
  - by apply wired_b_sound.
  - by apply mesh_sk_b_sound.
  - by apply wiring_b_sound.
  - intros k b Hb. by apply bubble_b_sound, (vforall_sound _ _ _ _ H4).
  - intros rid r Hr. by apply router_b_sound, (vforall_sound _ _ _ _ H5 Hr).
  - intros w Hw. rewrite forallb_forall in H6. specialize (H6 w (proj1 (list_elem_of_In _ _) Hw)).
    destruct (view w g) as [V|] eqn:HV; [|done]. exists V. split; [done | by apply wire_b_sound].
Qed.
End Check.

(** ** The interfaces *)

Section NodeCheck.
Context {MT : MachineTypes} {MTok : MachineTypesOk MT} (Hfit : node_ids_fit) (m vn vp : Z) (W : list Wire) (T : Tally).
Context (c : Config) (sk : list RouterSk) (ids : list Z).

Abbreviation nv := (vn * vp).

Definition deliverable_b (v d : Z) : bool :=
  match vec_get ids d with
  | Ok r => bool_decide (0 <= r < m * m) &&
      vforall sk (fun _ row => let ru := sk_routing row in
        bool_decide (length (m_weight_table ru) = length (m_routing_table ru) /\ Forall (fun w => w <= INFINITE_) (m_weight_table ru)) &&
        forallb shaped_b (m_routing_table ru) && existsb (fun e => bool_decide (d ∈ nodes_of e)) (m_routing_table ru) &&
        bool_decide (Forall (fun os => 0 <= v * os_vp os /\ 0 <= os_vp os /\ (v + 1) * os_vp os <= os_nv os) (sk_out row)))
  | Err _ => false
  end.

Lemma deliverable_b_sound v d : deliverable_b v d = true -> deliverable m sk ids v d.
Proof.
  unfold deliverable_b. destruct (vec_get ids d) as [r|] eqn:Hr; [|done]. intros [H1%bool_decide_eq_true H2]%andb_true_iff.
  exists r. split_and!; [done | exact H1..|]. intros rid row Hrow. apply (vforall_sound _ _ _ _ H2) in Hrow. clear H2. rename Hrow into H2. cbn zeta in *. apply andb_true_iff in H2 as [H2 H6%bool_decide_eq_true].
  apply andb_true_iff in H2 as [H2 H5]. apply andb_true_iff in H2 as [[H2 H3]%bool_decide_eq_true H4].
  assert (Hsh : Forall shaped (m_routing_table (sk_routing row))) by (eapply forallb_Forall; [apply shaped_b_sound | done]).
  split_and!; [done | done | done | | done]. apply existsb_exists in H5 as (e & He & Hd%bool_decide_eq_true).
  apply list_elem_of_In, list_elem_of_lookup in He as [l Hl]. exists (Z.of_nat l), e.
  assert (Hle : vec_get (m_routing_table (sk_routing row)) (Z.of_nat l) = Ok e) by (apply vec_get_Ok; rewrite Nat2Z.id; split; [lia | done]).
  split; [done|]. destruct (nodes_of_spec e Hfit (Forall_vec_get _ _ _ _ Hsh Hle)) as [_ Hin]. by apply Hin.
Qed.

Definition msg_b (v : Z) (msg : Message) : bool :=
  shaped_b (destination msg) && (msg_time msg <=? m_LastEnqueueTime msg) && forallb (deliverable_b v) (nodes_of (destination msg)).

Lemma msg_b_sound v msg : msg_b v msg = true -> msg_ok m sk ids v msg.
Proof.
  intros [[H1%shaped_b_sound H2%Z.leb_le]%andb_true_iff H3]%andb_true_iff. split_and!; [done | done|]. intros d Hd.
  destruct (nodes_of_spec _ Hfit H1) as [_ Hin]. apply deliverable_b_sound. rewrite forallb_forall in H3. by apply H3, list_elem_of_In, Hin.
Qed.

Definition slot_b (cur n k : Z) (b : flitBuffer flit) (o : OutVcState) : bool :=
  bool_decide (0 <= n /\ vsize (m_buffer b) + n <= 1 /\ 1 <= m_max_credit_count o /\ m_credit_count o = m_max_credit_count o - n /\
    OutVcState.m_vc_state o = (if vsize (m_buffer b) + n =? 0 then IDLE_ else ACTIVE_) /\ OutVcState.m_time o <= cur) &&
  forallb (fun f => packet_b m vn sk f && bool_decide (Flit.m_vc f = k /\ Flit.m_enqueue_time f <= cur)) (m_buffer b).

Lemma slot_b_sound cur n k b o : slot_b cur n k b o = true -> slot_ok m vn sk cur n k b o.
Proof.
  intros [H1%bool_decide_eq_true H2]%andb_true_iff. destruct H1 as (?&?&?&?&?&?). split; try done. eapply forallb_Forall; [|exact H2].
  intros f [Hp%packet_b_sound Hf%bool_decide_eq_true]%andb_true_iff. done.
Qed.

Definition ni_b (ni : NetworkInterface) : bool :=
  bool_decide (0 < m_vc_per_vnet ni /\ 0 < m_virtual_networks ni <= vsize (m_ordered c) /\ m_num_vcs ni = m_virtual_networks ni * m_vc_per_vnet ni) &&
  bool_decide (vsize (m_out_vc_state ni) = m_num_vcs ni /\ vsize (m_ni_out_vcs ni) = m_num_vcs ni /\ vsize (m_ni_out_vcs_enqueue_time ni) = m_num_vcs ni) &&
  bool_decide (vsize (m_vc_allocator ni) = m_virtual_networks ni /\ Forall (fun d => 0 <= d < m_vc_per_vnet ni) (m_vc_allocator ni) /\
    vsize (vc_busy_counter ni) = m_virtual_networks ni /\ 0 <= m_vc_round_robin ni < m_num_vcs ni).

Lemma ni_b_sound ni : ni_b ni = true -> ni_ok c ni.
Proof. intros [[(?&?&?)%bool_decide_eq_true (?&?&?)%bool_decide_eq_true]%andb_true_iff (?&?&?&?)%bool_decide_eq_true]%andb_true_iff. by split. Qed.

Definition src_b (cur : Z) (ts : Z -> Z) (ni : NetworkInterface) : bool :=
  ni_b ni && bool_decide (m_virtual_networks ni = vn /\ m_vc_per_vnet ni = vp /\ 0 <= m_router_id ni < vsize sk /\ vsize (inNode_ptr ni) <= vn) &&
  vforall (m_ni_out_vcs ni) (fun k b => match vec_get (m_out_vc_state ni) k with Ok o => slot_b cur (ts k) k b o | Err _ => true end) &&
  vforall (inNode_ptr ni) (fun v x => match x with Some b => (m_time_last_time_pop b <=? cur) && forallb (msg_b v) (m_prio_heap b) | None => true end).

Lemma src_b_sound cur ts ni : src_b cur ts ni = true -> src_inv c m vn vp sk ids cur ts ni.
Proof.
  unfold src_b. intros H. apply andb_true_iff in H as [H H4]. apply andb_true_iff in H as [H H3].
  apply andb_true_iff in H as [H1%ni_b_sound (?&?&?&?)%bool_decide_eq_true]. split; try done.
  - intros k b o Hb Ho. apply (vforall_sound _ _ _ _ H3) in Hb. rewrite Ho in Hb. by apply slot_b_sound.
  - intros v b Hb. apply (vforall_sound _ _ _ _ H4) in Hb. apply andb_true_iff in Hb as [Hp%Z.leb_le Hm]. split; [done|].
    eapply forallb_Forall; [apply msg_b_sound | done].
Qed.

Definition accepts_b (now delta : Z) (b : MessageBuffer) : bool :=
  bool_decide (m_consumer b <> None) && negb (m_randomization b) && (negb (m_strict_fifo b) || (m_last_arrival_time b <=? now + delta)) &&
  (m_time_last_time_enqueue b <=? now) && (m_time_last_time_pop b <=? now).

Lemma accepts_b_sound now delta b : accepts_b now delta b = true -> accepts now delta b.
Proof.
  unfold accepts_b. rewrite !andb_true_iff, !Z.leb_le, orb_true_iff, Z.leb_le, !negb_true_iff, bool_decide_eq_true.
  intros [[[[H1 H2] H3] H4] H5]. split; try done; [by destruct (m_consumer b); eauto | intros E; destruct H3; [congruence | done]].
Qed.

Definition addressed_b (n : Z) (msg : Message) : bool := shaped_b (destination msg) && bool_decide (nodes_of (destination msg) = [n]).

Lemma addressed_b_sound n msg : addressed_b n msg = true -> addressed n msg.
Proof.
  intros [H1%shaped_b_sound H2%bool_decide_eq_true]%andb_true_iff x. destruct (nodes_of_spec _ Hfit H1) as [_ Hin].
  by rewrite <- Hin, H2, list_elem_of_singleton.
Qed.

Definition dst_b (cur n : Z) (ni : NetworkInterface) : bool :=
  forallb (fun f => addressed_b n (m_msg_ptr f)) (m_stall_queue ni) &&
  vforall (outNode_ptr ni) (fun _ x => match x with Some b => forallb (addressed_b n) (m_prio_heap b) | None => true end) &&
  forallb (fun f => packet_b m vn sk f && bool_decide (0 <= Flit.m_vc f < nv /\ aged (m_dequeue_time f) f /\ m_dequeue_time f <= cur)) (m_stall_queue ni) &&
  (vsize (NetworkInterface.m_stall_count ni) =? vn) &&
  forallb (fun v => match vec_get (outNode_ptr ni) v with Ok (Some b) => accepts_b cur 1 b | _ => false end) (seqZ 0 vn).

Lemma dst_b_sound cur n ni : dst_b cur n ni = true -> dst_inv m vn vp sk n cur ni.
Proof.
  intros [[[[H6 H7]%andb_true_iff H1]%andb_true_iff H2%Z.eqb_eq]%andb_true_iff H3]%andb_true_iff.
  split; [by eapply forallb_Forall; [|exact H6]; intros f; apply addressed_b_sound | |done | |].
  - eapply forallb_Forall; [|exact H1]. intros f [H4%packet_b_sound H5%bool_decide_eq_true]%andb_true_iff. done.
  - intros v Hv. apply (range_b _ _ _ H3) in Hv. destruct (vec_get (outNode_ptr ni) v) as [[b|]|]; [|done..].
    exists b. split; [done | by apply accepts_b_sound].
  - intros v b Hb. apply (vforall_sound _ _ _ _ H7) in Hb. eapply forallb_Forall; [apply addressed_b_sound | exact Hb].
Qed.

Definition leads_home_b (rid o n : Z) : bool :=
  match vec_get sk rid with
  | Ok row => match vec_get (m_routing_table (sk_routing row)) o with
              | Ok e => shaped_b e && forallb (fun x => x =? n) (nodes_of e)
              | Err _ => true end
  | Err _ => false
  end.

Lemma leads_home_b_sound rid o n : leads_home_b rid o n = true -> leads_home sk rid o n.
Proof.
  unfold leads_home_b. destruct (vec_get sk rid) as [row|] eqn:Hr; [|done]. intros H. exists row. split; [done|]. intros e x He Hx.
  rewrite He in H. apply andb_true_iff in H as [H1%shaped_b_sound H2]. destruct (nodes_of_spec e Hfit H1) as [_ Hin].
  rewrite forallb_forall in H2. apply Z.eqb_eq, H2, list_elem_of_In, Hin, Hx.
Qed.

Definition node_b (cur n : Z) (ni : NetworkInterface) : bool :=
  src_b cur (issued T n) ni && dst_b cur n ni &&
  has W (fun w => bool_decide (w_src w = ENode n /\ w_credit w = inCreditLink ni) && match w_dst w with EPort _ _ => true | ENode _ => false end) &&
  has W (fun w => bool_decide (w_dst w = ENode n /\ w_net w = inNetLink ni) && match w_src w with EPort rid o => leads_home_b rid o n | ENode _ => false end).
End NodeCheck.

Section NetworkCheck.
Context {MT : MachineTypes} {MTok : MachineTypesOk MT} (Hfit : node_ids_fit) (m vn vp : Z) (W : list Wire) (ts : Z -> Z -> Z).

(** The tally that the stall queues give. *)
Definition tally_of (g : GarnetNetwork) : Tally :=
  mkTally (fun n k => match vec_get (m_nis g) n with Ok ni => nvc k (m_stall_queue ni) | Err _ => 0 end) ts.

Definition network_b (cur : Z) (g : GarnetNetwork) : bool :=
  fabric_b m vn vp W (tally_of g) cur g && (sim_type (g_config g) =? 1) &&
  bool_decide (Forall (Z.le vn) (take 16 (map vsize (stat_vectors (g_stats g)))) /\
    Forall (Z.le (vsize (skel g))) (drop 16 (map vsize (stat_vectors (g_stats g))))) &&
  vforall (m_nis g) (node_b m vn vp W (tally_of g) (g_config g) (skel g) (router_ids g) cur).

Lemma network_b_sound cur g : network_b cur g = true -> network_inv m vn vp W cur g.
Proof.
  unfold network_b. intros H. apply andb_true_iff in H as [H H4]. apply andb_true_iff in H as [H H3%bool_decide_eq_true].
  apply andb_true_iff in H as [H1%fabric_b_sound H2%Z.eqb_eq]. exists (tally_of g). split; [done | done | done|].
  intros n ni Hn. pose proof (vforall_sound _ _ _ _ H4 Hn) as Hb. apply andb_true_iff in Hb as [Hb (wi & Hwi & Ei)%has_sound].
  apply andb_true_iff in Hb as [Hb (wo & Hwo & Eo)%has_sound]. apply andb_true_iff in Hb as [Hs%(src_b_sound Hfit) Hd%(dst_b_sound Hfit)].
  apply andb_true_iff in Ei as [[Ei1 Ei2]%bool_decide_eq_true Ei3]. apply andb_true_iff in Eo as [[Eo1 Eo2]%bool_decide_eq_true Eo3]. split; try done.
  - intros k. cbn. by rewrite Hn.
  - destruct (w_dst wo) as [rid i|] eqn:E; [|done]. by exists wo, rid, i.
  - destruct (w_src wi) as [rid o|] eqn:E; [|done]. apply (leads_home_b_sound Hfit) in Ei3. by exists wi, rid, o.
Qed.
End NetworkCheck.
