(* ===== verification/FabricProperties.v ===== *)
(** * Executions of the fabric

    [Router_wakeup] from a state of the invariant returns and keeps it; so does any sequence of wakeups of routers
    and links, in any order the event queue may run them.  An example follows. *)

From S2P Require Import Topology TopologyProperties.
From S2P Require Import Prelude Flit FlitBuffer RubySet NetDest Consumer Config RoutingUnit RoutingTable.
From S2P Require Import MeshRouting NetworkLink VirtualChannel OutVcState OutputUnit InputUnit RouterState SwitchAllocator.
From S2P Require Import SwitchTheory SwitchMoved SwitchCorrect RouterCycle BubblePath MessageBuffer NetStats NetworkInterface.
From S2P Require Import GarnetNetwork Bubble NetLens NetRouting BubbleInv BubbleMoves BubbleIntra BubbleInit BubbleInter.
From S2P Require Import BubbleCheck RouterWakeup Fabric FabricCheck FabricLinks FabricUnits FabricSwitch.
From S2P Require Import NetDestTheory NITheory NIStep FabricBubbles BubbleProperties FabricNodes.
Local Open Scope Z_scope.

(** A sequence of wakeups, each at its time; the wakeups they request are left to the event queue. *)
Fixpoint run_wakeups (rand : nat -> Z) (fuel : nat) `{MT : MachineTypes} (rr we : bool) (rnd : Z) (l : list (Z * ConsumerRef)) (g : GarnetNetwork) :
  result GarnetNetwork :=
  match l with
  | [] => Ok g
  | (t, c) :: l' => '(g', _) ← consumer_wakeup rand fuel t rr we rnd c g; run_wakeups rand fuel rr we rnd l' g'
  end.

(** The times never decrease, and the clock does not wrap. *)
Fixpoint in_time (cur : Z) (l : list (Z * ConsumerRef)) : Prop :=
  match l with [] => True | (t, _) :: l' => cur <= t < 2 ^ 64 - 1 /\ in_time t l' end.

(** The router or link of a wakeup exists. *)
Definition in_fabric (g : GarnetNetwork) (c : ConsumerRef) : Prop :=
  match c with
  | CRouter rid => 0 <= rid < vsize (m_routers g)
  | CNetLink k => 0 <= k < vsize (m_networklinks g)
  | CCreditLink k => 0 <= k < vsize (m_creditlinks g)
  | _ => False
  end.

#[export] Instance in_fabric_dec g c : Decision (in_fabric g c).
Proof. destruct c; cbn; apply _. Defined.

Lemma steady_routers g g' : steady g g' -> vsize (m_routers g') = vsize (m_routers g).
Proof. intros [E _ _ _ _ _ _]. rewrite <- !(vsize_map r_sk). unfold skel in E. by rewrite E. Qed.

Lemma in_fabric_steady g g' c : steady g g' -> in_fabric g c -> in_fabric g' c.
Proof. intros Hs. pose proof (steady_routers _ _ Hs). destruct Hs as [_ _ _ E1 E2 _ _]. destruct c; cbn; lia. Qed.

Section Run.
Context (m vn vp : Z) (W : list Wire) (T : Tally).

Abbreviation fabric_inv := (fabric_inv m vn vp W T).
Abbreviation router_fixed := (router_fixed vn vp).

(** A step of the fabric from [g]. *)
Definition kept (cur : Z) (g g' : GarnetNetwork) : Prop := fabric_inv cur g' /\ steady g g' /\ packets g' ≡ₚ packets g.

Lemma kept_trans cur g g1 g2 : steady g g1 -> packets g1 ≡ₚ packets g -> kept cur g1 g2 -> kept cur g g2.
Proof. intros Hs Hp (H1 & H2 & H3). split_and!; [done | by etransitivity | by rewrite H3]. Qed.

(** A loop over ports. *)
Lemma for_ports cur n (body : Z -> GarnetNetwork -> result GarnetNetwork) g : fabric_inv cur g ->
  (forall i g1, 0 <= i < Z.of_nat n -> kept cur g g1 -> exists g2, body i g1 = Ok g2 /\ kept cur g1 g2) ->
  exists g', for_range n 0 body g = Ok g' /\ kept cur g g'.
Proof.
  intros Hg Hb. destruct (for_range_total (fun _ g1 => kept cur g g1) body n 0 g) as (g' & H & Hk); [by split_and! | | eauto].
  intros i g1 Hi H1. destruct (Hb i g1 ltac:(lia) H1) as (g2 & H2 & Hk). exists g2. split; [done|].
  destruct H1 as (_ & Hs & Hp). by eapply kept_trans.
Qed.

Lemma unit_of_skel g g1 rid r : steady g g1 -> vec_get (m_routers g) rid = Ok r -> exists r1, vec_get (m_routers g1) rid = Ok r1 /\
  vsize (m_input_unit r1) = vsize (m_input_unit r) /\ vsize (m_output_unit r1) = vsize (m_output_unit r).
Proof.
  intros [Hs _ _ _ _ _ _] Hr. destruct (map_eq_get r_sk _ _ _ _ (eq_sym Hs) Hr) as (r1 & Hr1 & [= _ E1 E2 _]). exists r1. split; [done|].
  rewrite <- !(vsize_map iu_sk (m_input_unit _)), <- !(vsize_map ou_sk (m_output_unit _)), E1, E2. done.
Qed.

Lemma Router_wakeup_ok rand fuel cur g rid : fabric_inv cur g -> bubbles_ready m g -> 0 <= cur < 2 ^ 64 - 1 -> 0 <= rid < vsize (m_routers g) ->
  exists g', Router_wakeup rand fuel cur rid g = Ok g' /\ kept cur g g'.
Proof.
  intros Hg Hb Hcur Hrid. destruct (phase_ok _ _ _ _ _ rand fuel cur g Hg Hb) as (g1 & g2 & H0 & H1 & H2 & Hg2 & Hs2 & Hp2).
  unfold Router_wakeup. rewrite H0. cbn [mbind result_bind]. rewrite H1. cbn [mbind result_bind]. rewrite H2. cbn [mbind result_bind].
  destruct (vec_get_in_range (m_routers g2) rid) as [r Hr]; [by rewrite (steady_routers _ _ Hs2)|]. rewrite Hr. cbn [mbind result_bind].
  destruct (for_ports cur (length (m_input_unit r)) (input_wakeup rand cur rid) g2 Hg2) as (g3 & -> & Hg3 & Hs3 & Hp3).
  { intros i h Hi (Hh & Hs & _). destruct (unit_of_skel _ _ _ _ Hs Hr) as (r1 & Hr1 & E1 & _).
    destruct (vec_get_in_range (m_input_unit r1) i) as [iu Hiu]; [unfold vsize in *; lia|].
    destruct (input_wakeup_ok m vn vp W T rand cur h rid i iu Hh) as (h' & E & F1 & F2%frame_steady & F3); [apply get_iu_Ok; eauto|]. by exists h'. }
  cbn [mbind result_bind].
  destruct (for_ports cur (length (m_output_unit r)) (output_wakeup cur rid) g3 Hg3) as (g4 & -> & Hg4 & Hs4 & Hp4).
  { intros o h Hi (Hh & Hs & _). destruct (unit_of_skel g2 h rid r) as (r1 & Hr1 & _ & E1); [by etransitivity | done|].
    destruct (vec_get_in_range (m_output_unit r1) o) as [ou Hou]; [unfold vsize in *; lia|].
    destruct (output_wakeup_ok m vn vp W T cur h rid o ou Hh) as (h' & E & F1 & F2%frame_steady & F3); [apply get_ou_Ok; eauto|]. by exists h'. }
  cbn [mbind result_bind]. assert (Hs : steady g g4) by (etransitivity; [exact Hs2 | by etransitivity]).
  destruct (switch_ok m vn vp W T cur g4 rid Hg4 Hcur) as (g5 & -> & Hg5 & Hs5%frame_steady & Hp5); [by rewrite (steady_routers _ _ Hs)|].
  exists g5. split; [done|]. split_and!; [done | by etransitivity | by rewrite Hp5, Hp4, Hp3].
Qed.

(** Emptying the outboxes. *)
Lemma collect_ok cur g g' evs : collect g = (g', evs) -> fabric_inv cur g -> kept cur g g'.
Proof.
  intros [= <- _] Hg. set (g' := with_m_nis _ _). assert (Hsk : skel g' = skel g) by (unfold skel; cbn; by rewrite map_map).
  assert (Hiu : forall rid i, get_iu rid i g' = get_iu rid i g) by (intros; unfold get_iu; cbn; rewrite vec_get_map; by destruct (vec_get (m_routers g) rid)).
  assert (Hou : forall rid i, get_ou rid i g' = get_ou rid i g) by (intros; unfold get_ou; cbn; rewrite vec_get_map; by destruct (vec_get (m_routers g) rid)).
  assert (Hs : forall e, src_read e g' = src_read e g) by (intros [rid o | n]; cbn; [by rewrite Hou | rewrite vec_get_map; by destruct (vec_get (m_nis g) n)]).
  assert (Hd : forall e, dst_read e g' = dst_read e g) by (intros [rid o | n]; cbn; [by rewrite Hiu | rewrite vec_get_map; by destruct (vec_get (m_nis g) n)]).
  split_and!; [| split; try done; cbn; by rewrite map_map | unfold packets, net_flits; cbn; by rewrite !map_map].
  destruct Hg as [F1 F2 F3 F4 F5 F6]. split; rewrite ?Hsk; try done.
  - intros k b Hb. eapply bubble_ok_sk; [exact Hsk | by apply F4].
  - intros rid r' Hr'. cbn in Hr'. rewrite vec_get_map in Hr'. destruct (vec_get (m_routers g) rid) as [r|] eqn:Hr; [|done]. cbn in Hr'.
    apply Ok_inj in Hr' as <-. specialize (F5 _ _ Hr). by apply (router_fixed_units vn vp _ r); try done; apply F5.
  - intros w Hw. destruct (F6 w Hw) as (V & (V1 & V2 & V3 & V4)%view_Ok & Hinv). exists V. split; [|done]. apply view_Ok. by rewrite Hs, Hd.
Qed.

Lemma consumer_ok rand fuel `{MachineTypes} rr we rnd cur g c : fabric_inv cur g -> bubbles_ready m g -> 0 <= cur < 2 ^ 64 - 1 -> in_fabric g c ->
  exists g' evs, consumer_wakeup rand fuel cur rr we rnd c g = Ok (g', evs) /\ kept cur g g'.
Proof.
  intros Hg Hb Hcur Hc. destruct c; cbn in Hc; try done; cbn [consumer_wakeup].
  - destruct (Router_wakeup_ok rand fuel cur g _ Hg Hb Hcur Hc) as (g1 & -> & Hg1 & Hs1 & Hp1). cbn [mbind result_bind].
    destruct (collect g1) as [g2 evs] eqn:E. exists g2, evs. split; [done|]. eapply kept_trans; [done | done|]. by eapply collect_ok.
  - destruct (net_link_ok m vn vp W T cur g _ Hg Hc) as (g' & evs & E & F1 & F2%frame_steady & F3). by exists g', evs.
  - destruct (credit_link_ok m vn vp W T cur g _ Hg Hc) as (g' & evs & E & F1 & F2%frame_steady & F3). by exists g', evs.
Qed.

Lemma wakeups_ok rand fuel `{MachineTypes} rr we rnd l : forall cur g, fabric_inv cur g -> bubbles_ready m g -> 0 <= cur -> in_time cur l ->
  Forall (fun e => in_fabric g e.2) l ->
  exists g', run_wakeups rand fuel rr we rnd l g = Ok g' /\ fabric_inv (default cur (last (map fst l))) g' /\ steady g g' /\ packets g' ≡ₚ packets g.
Proof.
  induction l as [|[t c] l IH]; intros cur g Hg Hb Hcur Ht Hl; [by exists g|].
  destruct Ht as [Ht Hin]. apply Forall_cons in Hl as [Hc Hl]. cbn [snd] in Hc.
  destruct (consumer_ok rand fuel rr we rnd t g c) as (g1 & evs & E & Hg1 & Hs1 & Hp1); [by apply (fabric_later m vn vp W T cur); [lia|] | done | lia | done|].
  cbn [run_wakeups]. rewrite E. cbn [mbind result_bind].
  destruct (IH t g1) as (g' & E' & Hg' & Hs' & Hp'); [done | by eapply bubbles_ready_steady | lia | done | |].
  { eapply Forall_impl; [exact Hl|]. intros e. by apply in_fabric_steady. }
  exists g'. split_and!; [done | | by etransitivity | by rewrite Hp']. cbn [map fst].
  rewrite last_cons. by destruct (last (map fst l)).
Qed.
End Run.


(** ** With the interfaces *)

(** The router, link or interface of a wakeup exists. *)
Definition in_network (g : GarnetNetwork) (c : ConsumerRef) : Prop :=
  match c with
  | CRouter rid => 0 <= rid < vsize (m_routers g)
  | CNetLink k => 0 <= k < vsize (m_networklinks g)
  | CCreditLink k => 0 <= k < vsize (m_creditlinks g)
  | CNI n => 0 <= n < vsize (m_nis g)
  | _ => False
  end.

#[export] Instance in_network_dec g c : Decision (in_network g c).
Proof. destruct c; cbn; apply _. Defined.

Lemma in_network_shape g g' c : same_shape g g' -> in_network g c -> in_network g' c.
Proof.
  intros [E1 _ _ E4 E5 E6]. assert (E : vsize (m_routers g') = vsize (m_routers g)) by (rewrite <- !(vsize_map r_sk); unfold skel in E1; by rewrite E1).
  destruct c; cbn; lia.
Qed.

Lemma bubbles_ready_shape m g g' : same_shape g g' -> bubbles_ready m g -> bubbles_ready m g'.
Proof. intros [_ E2 E3 _ _ _]. unfold bubbles_ready. by rewrite E2, E3. Qed.

Section Network.
Context {MT : MachineTypes} {MTok : MachineTypesOk MT} (Hfit : node_ids_fit) (m vn vp : Z) (W : list Wire).

Abbreviation network_inv := (network_inv m vn vp W).

(** What has been handed over. *)
Lemma network_handed cur g n ni v b msg : network_inv cur g -> vec_get (m_nis g) n = Ok ni -> vec_get (outNode_ptr ni) v = Ok (Some b) ->
  msg ∈ m_prio_heap b -> addressed n msg.
Proof.
  intros [T Hg] Hn Hb Hm. pose proof (di_msgs _ _ _ _ _ _ _ (nd_dst _ _ _ _ _ _ _ _ _ (nt_nodes _ _ _ _ _ _ _ Hg n ni Hn)) v b Hb) as Hall.
  rewrite Forall_forall in Hall. by apply Hall.
Qed.

(** A step of the network from [g]. *)
Definition conserved (cur : Z) (g g' : GarnetNetwork) : Prop := network_inv cur g' /\ same_shape g g' /\ net_deliveries g' ≡ₚ net_deliveries g.

Lemma conserved_trans cur g g1 g2 : conserved cur g g1 -> conserved cur g1 g2 -> conserved cur g g2.
Proof. intros (_ & S1 & D1) (H2 & S2 & D2). split_and!; [done | by etransitivity | by rewrite D2]. Qed.

Lemma kept_conserved T cur g g' : tallied m vn vp W T cur g -> kept m vn vp W T cur g g' -> conserved cur g g'.
Proof.
  intros Hg (H1 & H2 & H3). split_and!; [exists T; by eapply tallied_steady | by apply steady_shape |].
  apply net_deliveries_rest; [done | apply H2].
Qed.

Lemma consumer_conserved rand fuel we rnd cur g c : network_inv cur g -> bubbles_ready m g -> 0 <= cur < 2 ^ 64 - 1 -> in_network g c ->
  exists g' evs, consumer_wakeup rand fuel cur false we rnd c g = Ok (g', evs) /\ conserved cur g g'.
Proof.
  intros Hg Hb Hcur Hc. destruct (decide (in_fabric g c)) as [Hf|Hf].
  - destruct Hg as [T Hg]. destruct (consumer_ok m vn vp W T rand fuel false we rnd cur g c (nt_fabric _ _ _ _ _ _ _ Hg) Hb Hcur Hf) as (g' & evs & E & Hk).
    exists g', evs. split; [done | by eapply kept_conserved].
  - destruct c; try done. cbn [consumer_wakeup]. destruct (ni_wakeup_ok m vn vp W we rnd cur g _ Hfit Hg Hcur Hc) as (g1 & -> & [T Hg1] & S1 & D1).
    cbn [mbind result_bind]. destruct (collect g1) as [g2 evs] eqn:E. exists g2, evs. split; [done|].
    apply (conserved_trans _ g g1); [split_and!; [by exists T | done | done]|]. eapply kept_conserved; [exact Hg1|].
    eapply collect_ok; [exact E | apply Hg1].
Qed.

Lemma run_conserved rand fuel we rnd l : forall cur g, network_inv cur g -> bubbles_ready m g -> 0 <= cur -> in_time cur l -> Forall (fun e => in_network g e.2) l ->
  exists g', run_wakeups rand fuel false we rnd l g = Ok g' /\ conserved (default cur (last (map fst l))) g g'.
Proof.
  induction l as [|[t c] l IH]; intros cur g Hg Hb Hcur Ht Hl; [by exists g|].
  destruct Ht as [Ht Hin]. apply Forall_cons in Hl as [Hc Hl]. cbn [snd] in Hc.
  destruct (consumer_conserved rand fuel we rnd t g c) as (g1 & evs & E & Hg1 & Hs1 & Hd1); [by apply (network_later m vn vp W cur); [lia|] | done | lia | done|].
  cbn [run_wakeups]. rewrite E. cbn [mbind result_bind].
  destruct (IH t g1) as (g' & E' & Hg' & Hs' & Hd'); [done | by eapply bubbles_ready_shape | lia | done | |].
  { eapply Forall_impl; [exact Hl|]. intros e. by apply in_network_shape. }
  exists g'. split; [done|]. cbn [map fst]. rewrite last_cons. assert (Hk : conserved (default t (last (map fst l))) g g')
    by (split_and!; [done | by etransitivity | by rewrite Hd']). by destruct (last (map fst l)).
Qed.
End Network.

(** ** Executions of the fabric alone *)

(** C2: Executions of the fabric are safe.  Scope: a square mesh of at least 2x2 routers with any routing algorithm but the custom one,
    unmarked single-flit packets, and when bubbles are enabled, they have been placed, the scheme is bn, the period between
    routers is positive and the side of the mesh is even.  From a network of this kind between wakeups that satisfies the fabric's
    invariant (among others: the tables of all routers have an entry for every destination), any sequence of wakeups of
    routers, links and credit links, in any order and at times that do not decrease and stay below 2^64 - 1, returns: every
    assertion of the input and output units, the switch allocator, the crossbar, the links and
    the bubbles holds and every index is in range.  The invariant holds after it: each VC of each wire still has
    room for what is under way to it, the sender's credits and the receiver's state agree with it, and bubbles
    occupy VCs of their own.  No packet is lost or duplicated. *)
Theorem fabric_execution_safe (MT : MachineTypes) rand fuel rr we rnd m vn vp W T l cur g :
  fabric_inv m vn vp W T cur g -> bubbles_ready m g -> 0 <= cur -> in_time cur l -> Forall (fun e => in_fabric g e.2) l ->
  exists g', run_wakeups rand fuel rr we rnd l g = Ok g' /\ fabric_inv m vn vp W T (default cur (last (map fst l))) g' /\
    bubbles_ready m g' /\ packets g' ≡ₚ packets g.
Proof.
  intros Hg Hb Hcur Ht Hl. destruct (wakeups_ok m vn vp W T rand fuel rr we rnd l cur g Hg Hb Hcur Ht Hl) as (g' & E & Hg' & Hs & Hp).
  exists g'. split_and!; [done | done | by eapply bubbles_ready_steady | done].
Qed.

(** The example mesh with a bubble and two packets for interface 0: the bubble pushes the packet of router 1 into
    router 0; one packet is on the link to the interface at the end, the other waits for it. *)
Definition ex_wires : list Wire := wires_of ex_net.
Definition ex_run : list (Z * ConsumerRef) :=
  [(25, CRouter 0); (25, CRouter 1)] ++ map (fun k => (27, CNetLink k)) (seqZ 0 16) ++ map (fun k => (27, CCreditLink k)) (seqZ 0 16) ++
  map (fun r => (28, CRouter r)) [3; 2; 1; 0].

Lemma ex_fabric : fabric_inv 2 1 2 ex_wires (mkTally (fun _ _ => 0) (fun _ _ => 0)) 25 ex_net.
Proof. apply fabric_b_sound. vm_compute. reflexivity. Qed.

Lemma fabric_execution_safe_witness : exists g', run_wakeups (MT := node_types 4) no_random 0 false false 0 ex_run ex_net = Ok g' /\
  fabric_inv 2 1 2 ex_wires (mkTally (fun _ _ => 0) (fun _ _ => 0)) 28 g' /\ packets g' ≡ₚ packets ex_net /\
  (l ← vec_get (m_networklinks g') 4; Ok (length (in_flight l))) = Ok 1%nat.
Proof.
  destruct (fabric_execution_safe (node_types 4) no_random 0 false false 0 2 1 2 ex_wires (mkTally (fun _ _ => 0) (fun _ _ => 0)) ex_run 25 ex_net)
    as (g' & H1 & H2 & _ & H3).
  - exact ex_fabric.
  - intros _. vm_compute. auto.
  - lia.
  - vm_compute. repeat split; discriminate.
  - apply (bool_decide_unpack _). vm_compute. exact I.
  - exists g'. split_and!; [exact H1 | exact H2 | exact H3|].
    assert (H : (g ← run_wakeups (MT := node_types 4) no_random 0 false false 0 ex_run ex_net; l ← vec_get (m_networklinks g) 4; Ok (length (in_flight l))) = Ok 1%nat)
      by (vm_compute; reflexivity).
    rewrite H1 in H. exact H.
Defined.

(** ** Executions of the network *)

(** C1: Executions of the network are safe and deliver.  Scope: a square mesh of at least 2x2 routers with any routing algorithm but the
    custom one; traffic without marked flits ([sim_type] 1) and without Ruby's random delays; node numbers of 32 bits; and
    when bubbles are enabled, they have been placed, the scheme is bn, the period between routers is positive and
    the side of the mesh is even.  From a network of this kind that satisfies the invariant (among others: the routing tables of all
    routers have an entry for every destination of a message, the wiring is that of a mesh), any sequence of wakeups of
    interfaces, routers, links and credit links, in any order and at times that do not
    decrease and stay below 2^64 - 1, returns: every assertion holds and every index is in range, from the injection of a message
    to its ejection.  The invariant holds after it, and the deliveries, the pairs of a payload and a node it is for,
    that wait in the protocol's buffers, are under way as packets or have been handed over, are together the same: none is
    lost or duplicated.  What an interface hands to its node is addressed to that node and no other. *)
Theorem network_execution_safe {MT : MachineTypes} {MTok : MachineTypesOk MT} rand fuel we rnd m vn vp W l cur g :
  node_ids_fit -> network_inv m vn vp W cur g -> bubbles_ready m g -> 0 <= cur -> in_time cur l -> Forall (fun e => in_network g e.2) l ->
  exists g', run_wakeups rand fuel false we rnd l g = Ok g' /\ network_inv m vn vp W (default cur (last (map fst l))) g' /\
    bubbles_ready m g' /\ net_deliveries g' ≡ₚ net_deliveries g /\
    forall n ni v b msg, vec_get (m_nis g') n = Ok ni -> vec_get (outNode_ptr ni) v = Ok (Some b) -> msg ∈ m_prio_heap b -> addressed n msg.
Proof.
  intros Hfit Hg Hb Hcur Ht Hl. destruct (run_conserved Hfit m vn vp W rand fuel we rnd l cur g Hg Hb Hcur Ht Hl) as (g' & E & Hg' & Hs & Hd).
  exists g'. split_and!; [done | done | by eapply bubbles_ready_shape | done | intros n ni v b msg; exact (network_handed m vn vp W _ g' n ni v b msg Hg')].
Qed.

(** The example mesh with table routing, a bubble and a message for node 3 in the protocol's buffer of node 0. *)
Definition traffic_params : GarnetParams := mkGarnetParams 2 16 2 4 1 0 1 1 4 16 0 0 0 "bn" 1 1 ["request"]%string [false].
Definition traffic_message : Message := mkMessage 0 0 0 0 (node_dest 3) MessageSizeType_Control 77.

Definition to_buffers (msgs : list Message) : result (list (option MessageBuffer)) :=
  b ← setConsumer (CNI 0) (MessageBuffer_new 0 false false);
  b' ← foldr (fun msg r => b ← r; '(b', _) ← enqueue false false 0 msg 1 1 b; Ok b') (Ok b) msgs;
  Ok [Some (MessageBuffer.with_m_consumer None b')].
Definition from_buffers (k : Z) : list (option MessageBuffer) :=
  [Some (MessageBuffer.with_m_consumer (Some (CNI k)) (MessageBuffer_new 0 false false))].
Definition init_nis (g : GarnetNetwork) : result GarnetNetwork :=
  nis ← foldr (fun ni r => l ← r; ni' ← NetworkInterface_init (g_config g) ni; Ok (ni' :: l)) (Ok []) (m_nis g);
  Ok (with_m_nis nis g).

Definition traffic_network : result GarnetNetwork :=
  g0 ← GarnetNetwork_new traffic_params 4
         (map (fun k => Router_new (mkRouterParams k 1 1 2 0)) [0; 1; 2; 3])
         (map (fun k => NetworkInterface_new k 1 2 50000) [0; 1; 2; 3]);
  g1 ← init_nis g0;
  to ← to_buffers [traffic_message];
  none ← to_buffers [];
  t ← mesh_topology;
  g2 ← GarnetNetwork_init (MT := node_types 4) 10 [to; none; none; none] (map from_buffers [0; 1; 2; 3]) t g1;
  init_brownian_bubbles no_random 1 0 (with_m_routers (map Router_init (m_routers g2)) g2).
Definition traffic_net : GarnetNetwork := match traffic_network with Ok g => g | Err _ => ex_default end.

(** Fifteen cycles in which everything wakes up. *)
Definition traffic_cycle (t : Z) : list (Z * ConsumerRef) :=
  map (fun k => (t, CNI k)) [0; 1; 2; 3] ++ map (fun k => (t, CNetLink k)) (seqZ 0 16) ++ map (fun k => (t, CRouter k)) [0; 1; 2; 3] ++
  map (fun k => (t, CCreditLink k)) (seqZ 0 16).
Definition traffic_run : list (Z * ConsumerRef) := concat (map traffic_cycle (seqZ 5 15)).

Fixpoint in_time_b (cur : Z) (l : list (Z * ConsumerRef)) : bool :=
  match l with [] => true | (t, _) :: l' => (cur <=? t) && (t <? 2 ^ 64 - 1) && in_time_b t l' end.
Lemma in_time_b_sound l : forall cur, in_time_b cur l = true -> in_time cur l.
Proof. induction l as [|[t c] l IH]; intros cur; [done|]. intros [[H1%Z.leb_le H2%Z.ltb_lt]%andb_true_iff H3]%andb_true_iff. split; [done | auto]. Qed.

#[local] Instance traffic_types_ok : MachineTypesOk (node_types 4) := node_types_ok 4 ltac:(unfold NUMBER_BITS_PER_SET; lia).
Lemma traffic_fit : node_ids_fit (MT := node_types 4).
Proof. unfold node_ids_fit. cbn. lia. Qed.

Lemma traffic_inv : network_inv (MT := node_types 4) 2 1 2 (wires_of traffic_net) 5 traffic_net.
Proof. apply (network_b_sound traffic_fit 2 1 2 _ (fun _ _ => 0)). vm_compute. reflexivity. Qed.

(** The message is in the buffer of node 3 at the end. *)
Lemma network_execution_safe_witness : exists g', run_wakeups (MT := node_types 4) no_random 0 false false 0 traffic_run traffic_net = Ok g' /\
  network_inv (MT := node_types 4) 2 1 2 (wires_of traffic_net) 19 g' /\ net_deliveries (MT := node_types 4) g' ≡ₚ [(77, 3)] /\
  (ni ← vec_get (m_nis g') 3; Ok (out_deliveries (MT := node_types 4) ni)) = Ok [(77, 3)].
Proof.
  destruct (network_execution_safe (MT := node_types 4) no_random 0 false 0 2 1 2 (wires_of traffic_net) traffic_run 5 traffic_net)
    as (g' & H1 & H2 & _ & H3 & _).
  - exact traffic_fit.
  - exact traffic_inv.
  - intros _. vm_compute. auto.
  - lia.
  - apply in_time_b_sound. vm_compute. reflexivity.
  - apply (bool_decide_unpack _). vm_compute. exact I.
  - exists g'. split_and!; [exact H1 | exact H2 | |].
    + assert (E : net_deliveries (MT := node_types 4) traffic_net = [(77, 3)]) by (vm_compute; reflexivity). rewrite E in H3. exact H3.
    + assert (H : (g ← run_wakeups (MT := node_types 4) no_random 0 false false 0 traffic_run traffic_net; ni ← vec_get (m_nis g) 3;
        Ok (out_deliveries (MT := node_types 4) ni)) = Ok [(77, 3)]) by (vm_compute; reflexivity). rewrite H1 in H. exact H.
Defined.
