(* ===== verification/FaultDatabase.v ===== *)
(** * The databases of the fault model

    The parameters FaultModel.py gives to [FaultModel] by default: fault probabilities in percent
    (here in millionths of a percent) by buffers per VC and number of VCs, and the weight of every
    temperature. *)

From S2P Require Import Prelude Double.
Local Open Scope Z_scope.

(** [VectorParam.Float]: [<buff/vc> <vcs> <10 fault types>], ended by -1.  Each row is given by its two
    integers and by the millionths of its ten fractions; a quotient of exact doubles rounds like the
    literal. *)
Definition fault_vector_rows : list (Z * Z * list Z) := [
  (5, 40, [80892; 109175; 18864; 130408; 59724; 77571; 34830; 83430; 67500; 121500]);
  (5, 39, [62640; 89100; 16821; 109620; 51462; 60210; 29700; 76140; 62100; 116100]);
  (5, 38, [50490; 76950; 15782; 91530; 44550; 46170; 25920; 70200; 57294; 110700]);
  (5, 37, [42120; 67770; 14191; 82890; 40986; 37800; 23760; 65880; 53568; 104490]);
  (5, 36, [35910; 61020; 13211; 75600; 35100; 30240; 21060; 61560; 49815; 100710]);
  (5, 35, [32130; 54810; 11964; 71550; 31860; 26730; 19710; 57510; 47169; 94230]);
  (5, 34, [28890; 51030; 11054; 67500; 30510; 23450; 18630; 54000; 45900; 88290]);
  (5, 33, [26460; 47250; 10160; 62640; 28971; 21600; 17280; 49410; 42903; 82080]);
  (5, 32, [24300; 42930; 9312; 57780; 27000; 19710; 16470; 45360; 41310; 75600]);
  (5, 31, [22410; 37260; 8910; 54540; 24732; 18171; 15660; 43470; 39447; 70740]);
  (5, 30, [21870; 32130; 8162; 50220; 23625; 16762; 13770; 39150; 37557; 65880]);
  (5, 29, [20790; 28080; 7657; 42660; 20061; 16043; 12690; 36720; 35451; 62370]);
  (5, 28, [19440; 25650; 7123; 37800; 18900; 15363; 11880; 33480; 32400; 57780]);
  (5, 27, [18473; 23760; 6737; 34830; 18036; 14153; 11232; 30240; 30645; 55890]);
  (5, 26, [17550; 21330; 6440; 32130; 16497; 13511; 10031; 27621; 28242; 51030]);
  (5, 25, [16462; 20520; 6210; 28890; 15822; 13095; 9442; 21600; 26379; 46170]);
  (5, 24, [15930; 18360; 5940; 26730; 15047; 12377; 8918; 18360; 23193; 37800]);
  (5, 23, [15390; 17931; 5594; 25488; 13365; 12037; 8775; 15120; 18657; 31590]);
  (5, 22, [14804; 17167; 5338; 23976; 12258; 11734; 8087; 13500; 15444; 26190]);
  (5, 21, [14180; 16548; 4995; 22194; 11807; 11073; 7236; 11070; 13500; 21870]);
  (5, 20, [13743; 16176; 4613; 20414; 11070; 10415; 6220; 10415; 10800; 19077]);
  (5, 19, [11877; 15412; 3861; 16659; 8235; 8640; 5400; 9720; 8532; 13770]);
  (5, 18, [11097; 14310; 3483; 14526; 6912; 7560; 3780; 8640; 6885; 10260]);
  (5, 17, [10419; 11939; 2700; 11394; 5400; 6318; 3038; 8100; 5400; 9450]);
  (5, 16, [9887; 9720; 2395; 10152; 4023; 5400; 2743; 7020; 4590; 8370]);
  (5, 15, [9617; 7825; 2079; 8289; 3780; 4806; 2236; 6480; 3996; 8127]);
  (5, 14, [8710; 6820; 1817; 7749; 3240; 4185; 1760; 5400; 2538; 6615]);
  (5, 13, [8116; 6566; 1566; 6426; 2741; 3564; 1299; 4590; 1917; 5994]);
  (5, 12, [7908; 6151; 1350; 5400; 2471; 3132; 794; 4050; 1323; 5940]);
  (5, 11, [7690; 5627; 1094; 5076; 2363; 2052; 567; 3510; 1188; 4860]);
  (5, 10, [7560; 5038; 805; 4536; 1985; 540; 0; 2430; 999; 3240]);
  (5, 9, [7314; 4193; 540; 3834; 1715; 0; 0; 2160; 945; 2700]);
  (5, 8, [6750; 3240; 0; 3240; 1323; 0; 0; 1350; 837; 2646]);
  (5, 7, [6461; 2700; 0; 2700; 1215; 0; 0; 0; 810; 1809]);
  (5, 6, [6240; 1796; 0; 2052; 1013; 0; 0; 0; 756; 1620]);
  (5, 5, [5430; 675; 0; 864; 864; 0; 0; 0; 729; 1593]);
  (5, 4, [3780; 0; 0; 0; 0; 0; 0; 0; 0; 1080]);
  (5, 3, [1350; 0; 0; 0; 0; 0; 0; 0; 0; 540]);
  (5, 2, [540; 0; 0; 0; 0; 0; 0; 0; 0; 270]);
  (5, 1, [0; 0; 0; 0; 0; 0; 0; 0; 0; 0]);
  (4, 40, [79484; 106785; 18198; 122699; 57538; 76974; 34813; 79276; 61426; 112509]);
  (4, 39, [62146; 88671; 16205; 108082; 50454; 59905; 29600; 75465; 57362; 106596]);
  (4, 38, [50047; 76478; 14924; 90994; 43475; 45808; 25794; 69220; 54351; 101993]);
  (4, 37, [41712; 67272; 13551; 82516; 40026; 37390; 23580; 64897; 51395; 97511]);
  (4, 36, [35384; 60487; 12434; 75287; 34229; 29784; 20859; 60167; 48222; 94055]);
  (4, 35, [31455; 54259; 11290; 71141; 31259; 26055; 19560; 55478; 45887; 88965]);
  (4, 34, [28307; 50427; 10342; 67048; 29835; 22525; 18495; 52523; 44253; 83727]);
  (4, 33, [25847; 46687; 9384; 62196; 28000; 20646; 17102; 48735; 41837; 79286]);
  (4, 32, [23688; 42449; 8645; 57303; 26070; 18765; 16315; 45001; 40163; 73143]);
  (4, 31, [21905; 36781; 8235; 54011; 24200; 17496; 15528; 42795; 38273; 68675]);
  (4, 30, [21195; 31563; 7456; 49545; 22757; 16081; 13646; 38817; 36410; 63086]);
  (4, 29, [20115; 27494; 6992; 42302; 19517; 15096; 12562; 35562; 34223; 59954]);
  (4, 28, [18889; 25040; 6472; 37295; 18383; 14540; 11760; 32949; 32022; 55782]);
  (4, 27, [17630; 23150; 6055; 34262; 17183; 13759; 10949; 29876; 30294; 53339]);
  (4, 26, [16875; 20762; 5743; 31664; 16002; 13123; 9740; 26487; 27824; 48681]);
  (4, 25, [15930; 19660; 5516; 28215; 15147; 12420; 9311; 20643; 25988; 43443]);
  (4, 24, [15425; 17790; 5211; 26190; 14530; 11838; 8783; 17314; 22518; 35681]);
  (4, 23, [14947; 17314; 4878; 24813; 12897; 11507; 8451; 14445; 17982; 29673]);
  (4, 22, [14430; 16278; 4610; 23077; 11945; 11148; 7918; 12825; 15107; 23814]);
  (4, 21, [13643; 15699; 4320; 21686; 11598; 10383; 7113; 10395; 13176; 19197]);
  (4, 20, [13023; 15244; 3995; 19155; 10935; 9227; 5914; 9227; 10665; 16234]);
  (4, 19, [11185; 14467; 3186; 15718; 7822; 7965; 5273; 8374; 8262; 12623]);
  (4, 18, [10399; 13419; 2808; 13696; 6681; 6885; 3579; 7579; 6197; 9315]);
  (4, 17, [9773; 11089; 2025; 10882; 5054; 5881; 2928; 7101; 4914; 8100]);
  (4, 16, [9054; 9054; 1743; 9477; 3799; 5081; 2365; 6345; 3942; 7061]);
  (4, 15, [8575; 6882; 1404; 7792; 3449; 4131; 1793; 5327; 2903; 6264]);
  (4, 14, [8069; 5655; 1169; 6920; 2808; 3510; 1277; 4307; 1782; 5184]);
  (4, 13, [7668; 5173; 986; 5751; 2336; 2889; 919; 3609; 1283; 4631]);
  (4, 12, [7403; 4563; 675; 4852; 2066; 2457; 532; 3083; 662; 4374]);
  (4, 11, [7152; 4127; 547; 4401; 1937; 1377; 284; 2473; 594; 3456]);
  (4, 10, [6885; 3530; 402; 3920; 1613; 405; 0; 1755; 500; 2565]);
  (4, 9, [6746; 2920; 270; 3159; 1404; 0; 0; 1485; 473; 2025]);
  (4, 8, [6257; 2290; 0; 2565; 1107; 0; 0; 675; 419; 1971]);
  (4, 7, [5931; 1825; 0; 2025; 999; 0; 0; 0; 405; 1134]);
  (4, 6, [5585; 1199; 0; 1463; 844; 0; 0; 0; 378; 945]);
  (4, 5, [4967; 545; 0; 637; 695; 0; 0; 0; 405; 864]);
  (4, 4, [3105; 0; 0; 0; 0; 0; 0; 0; 0; 540]);
  (4, 3, [888; 0; 0; 0; 0; 0; 0; 0; 0; 270]);
  (4, 2, [270; 0; 0; 0; 0; 0; 0; 0; 0; 135]);
  (4, 1, [0; 0; 0; 0; 0; 0; 0; 0; 0; 0]);
  (3, 40, [78075; 104396; 17531; 114991; 55352; 76378; 34795; 75122; 55352; 103518]);
  (3, 39, [61652; 88241; 15590; 106545; 49445; 59600; 29500; 74790; 52623; 97092]);
  (3, 38, [49604; 76005; 14067; 90458; 42401; 45446; 25669; 68240; 51408; 93285]);
  (3, 37, [41305; 66774; 12911; 82142; 39066; 36979; 23401; 63914; 49221; 90531]);
  (3, 36, [34857; 59954; 11656; 74974; 33359; 29327; 20658; 58774; 46629; 87399]);
  (3, 35, [30780; 53708; 10616; 70732; 30659; 25380; 19410; 53447; 44604; 83700]);
  (3, 34, [27724; 49823; 9631; 66596; 29160; 21600; 18360; 51046; 42606; 79164]);
  (3, 33, [25234; 46124; 8608; 61752; 27030; 19691; 16924; 48060; 40770; 76491]);
  (3, 32, [23077; 41969; 7979; 56827; 25140; 17820; 16160; 44642; 39015; 70686]);
  (3, 31, [21400; 36302; 7560; 53482; 23668; 16821; 15395; 42120; 37098; 66609]);
  (3, 30, [20520; 30996; 6750; 48870; 21889; 15401; 13522; 38483; 35262; 60291]);
  (3, 29, [19440; 26908; 6326; 41945; 18973; 14148; 12434; 34403; 32994; 57537]);
  (3, 28, [18338; 24430; 5821; 36790; 17866; 13716; 11640; 32419; 31644; 53784]);
  (3, 27, [16786; 22540; 5373; 33693; 16330; 13365; 10665; 29511; 29943; 50787]);
  (3, 26, [16200; 20193; 5046; 31199; 15506; 12736; 9450; 25353; 27405; 46332]);
  (3, 25, [15398; 18800; 4822; 27540; 14472; 11745; 9180; 19686; 25596; 40716]);
  (3, 24, [14920; 17221; 4482; 25650; 14013; 11300; 8648; 16268; 21843; 33561]);
  (3, 23, [14504; 16697; 4161; 24138; 12428; 10978; 8127; 13770; 17307; 27756]);
  (3, 22, [14056; 15390; 3883; 22178; 11632; 10562; 7749; 12150; 14769; 21438]);
  (3, 21, [13106; 14850; 3645; 21179; 11389; 9693; 6990; 9720; 12852; 16524]);
  (3, 20, [12304; 14313; 3378; 17896; 10800; 8039; 5608; 8039; 10530; 13392]);
  (3, 19, [10492; 13522; 2511; 14777; 7409; 7290; 5146; 7028; 7992; 11475]);
  (3, 18, [9701; 12528; 2133; 12866; 6450; 6210; 3378; 6518; 5508; 8370]);
  (3, 17, [9126; 10238; 1350; 10371; 4709; 5443; 2819; 6102; 4428; 6750]);
  (3, 16, [8222; 8389; 1091; 8802; 3575; 4763; 1987; 5670; 3294; 5751]);
  (3, 15, [7533; 5940; 729; 7295; 3119; 3456; 1350; 4174; 1809; 4401]);
  (3, 14, [7428; 4490; 521; 6091; 2376; 2835; 794; 3213; 1026; 3753]);
  (3, 13, [7220; 3780; 405; 5076; 1931; 2214; 540; 2627; 648; 3267]);
  (3, 12, [6899; 2975; 0; 4304; 1661; 1782; 270; 2117; 0; 2808]);
  (3, 11, [6615; 2627; 0; 3726; 1512; 702; 0; 1436; 0; 2052]);
  (3, 10, [6210; 2022; 0; 3305; 1242; 270; 0; 1080; 0; 1890]);
  (3, 9, [6178; 1647; 0; 2484; 1094; 0; 0; 810; 0; 1350]);
  (3, 8, [5765; 1339; 0; 1890; 891; 0; 0; 0; 0; 1296]);
  (3, 7, [5400; 950; 0; 1350; 783; 0; 0; 0; 0; 459]);
  (3, 6, [4930; 602; 0; 875; 675; 0; 0; 0; 0; 270]);
  (3, 5, [4504; 416; 0; 410; 527; 0; 0; 0; 81; 135]);
  (3, 4, [2430; 0; 0; 0; 0; 0; 0; 0; 0; 0]);
  (3, 3, [427; 0; 0; 0; 0; 0; 0; 0; 0; 0]);
  (3, 2, [0; 0; 0; 0; 0; 0; 0; 0; 0; 0]);
  (3, 1, [0; 0; 0; 0; 0; 0; 0; 0; 0; 0]);
  (2, 40, [77418; 103451; 16828; 109064; 54341; 75962; 34795; 75122; 51976; 81459]);
  (2, 39, [60720; 87215; 14756; 103532; 48041; 59297; 29376; 74115; 50193; 77382]);
  (2, 38, [48859; 74947; 13362; 89180; 41598; 45021; 25537; 66803; 48722; 74655]);
  (2, 37, [40158; 65781; 12126; 80282; 38175; 36686; 23178; 62884; 47088; 72630]);
  (2, 36, [33881; 58774; 11001; 72895; 32542; 28434; 20461; 57424; 45225; 69728]);
  (2, 35, [30294; 52831; 9800; 69422; 29587; 24311; 19232; 52294; 43254; 67311]);
  (2, 34, [26957; 48824; 8847; 65224; 28054; 20655; 18095; 49876; 41553; 64112]);
  (2, 33, [24349; 45159; 7976; 60371; 26226; 18652; 16776; 47385; 39704; 61695]);
  (2, 32, [22078; 40951; 7202; 55330; 24365; 17145; 16065; 43944; 37719; 57699]);
  (2, 31, [20733; 35223; 6791; 52327; 22850; 15790; 15233; 41124; 35964; 54810]);
  (2, 30, [19626; 29984; 6021; 46551; 21086; 14673; 13133; 37757; 34007; 49923]);
  (2, 29, [18765; 25923; 5677; 39731; 18291; 13707; 11973; 33543; 31847; 47048]);
  (2, 28, [17539; 23491; 5192; 35180; 17033; 13349; 11092; 31296; 29970; 44240]);
  (2, 27, [16270; 21488; 4753; 32258; 15628; 12909; 10419; 28179; 28202; 41756]);
  (2, 26, [15525; 19557; 4390; 29942; 14652; 12207; 9339; 24975; 25745; 37679]);
  (2, 25, [14638; 18036; 4146; 26314; 13797; 11314; 9099; 18864; 23517; 32832]);
  (2, 24, [14075; 16575; 3788; 24444; 13045; 10780; 8541; 15587; 19710; 28013]);
  (2, 23, [13597; 15638; 3430; 22970; 11632; 10471; 8031; 12675; 15296; 23004]);
  (2, 22, [12968; 14715; 3089; 21096; 10990; 9929; 7642; 10846; 12825; 17253]);
  (2, 21, [12088; 14175; 2884; 20046; 10148; 9032; 6813; 8261; 10449; 13500]);
  (2, 20, [10976; 13381; 2693; 16732; 9381; 7742; 5400; 6437; 8100; 10841]);
  (2, 19, [9566; 12631; 1836; 13686; 7125; 6782; 3923; 5431; 5589; 8613]);
  (2, 18, [8982; 11349; 1458; 11744; 5708; 5742; 2724; 4884; 3618; 6764]);
  (2, 17, [8273; 9439; 845; 9291; 4250; 4857; 2327; 4469; 2673; 4847]);
  (2, 16, [7679; 7704; 545; 7737; 3394; 3988; 1534; 4045; 1742; 3834]);
  (2, 15, [7236; 5265; 365; 6442; 2565; 3089; 675; 3023; 959; 2808]);
  (2, 14, [7090; 3787; 261; 4990; 1802; 2400; 397; 2249; 608; 2457]);
  (2, 13, [6877; 3029; 203; 4076; 1404; 1835; 270; 1814; 324; 2012]);
  (2, 12, [6575; 2311; 0; 3502; 1249; 1458; 135; 1436; 0; 1850]);
  (2, 11, [6314; 1836; 0; 3051; 1114; 597; 0; 841; 0; 1350]);
  (2, 10, [5971; 1434; 0; 2570; 945; 230; 0; 540; 0; 1215]);
  (2, 9, [5627; 1172; 0; 1809; 783; 19; 0; 405; 0; 675]);
  (2, 8, [5144; 940; 0; 1276; 668; 38; 0; 0; 0; 648]);
  (2, 7, [4686; 622; 0; 890; 581; 9; 0; 0; 0; 230]);
  (2, 6, [4247; 428; 0; 541; 473; 19; 0; 0; 0; 135]);
  (2, 5, [3857; 269; 0; 320; 419; 0; 0; 0; 41; 68]);
  (2, 4, [1459; 0; 0; 0; 0; 0; 0; 0; 0; 0]);
  (2, 3, [213; 0; 0; 0; 0; 0; 0; 0; 0; 0]);
  (2, 2, [11; 0; 0; 0; 0; 0; 0; 0; 0; 0]);
  (2, 1, [0; 0; 0; 0; 0; 0; 0; 0; 0; 0]);
  (1, 40, [76761; 102506; 16124; 103138; 53330; 75546; 34795; 75122; 48600; 59400]);
  (1, 39, [59789; 86189; 13921; 100518; 46637; 58995; 29252; 73440; 47763; 57672]);
  (1, 38, [48114; 73888; 12658; 87901; 40794; 44596; 25404; 65367; 46035; 56025]);
  (1, 37, [39012; 64789; 11340; 78422; 37284; 36393; 22955; 61854; 44955; 54729]);
  (1, 36, [32905; 57594; 10346; 70816; 31725; 27540; 20264; 56074; 43821; 52056]);
  (1, 35, [29808; 51953; 8983; 68113; 28515; 23242; 19054; 51141; 41904; 50922]);
  (1, 34, [26190; 47825; 8062; 63852; 26949; 19710; 17831; 48705; 40500; 49059]);
  (1, 33, [23463; 44194; 7344; 58990; 25423; 17612; 16629; 46710; 38637; 46899]);
  (1, 32, [21079; 39933; 6426; 53833; 23590; 16470; 15971; 43246; 36423; 44712]);
  (1, 31, [20066; 34144; 6021; 51173; 22032; 14758; 15071; 40127; 34830; 43011]);
  (1, 30, [18733; 28971; 5292; 44231; 20282; 13946; 12744; 37031; 32751; 39555]);
  (1, 29, [18090; 24937; 5027; 37517; 17609; 13265; 11513; 32684; 30699; 36558]);
  (1, 28, [16740; 22553; 4563; 33569; 16200; 12982; 10544; 30173; 28296; 34695]);
  (1, 27, [15755; 20436; 4134; 30823; 14926; 12452; 10174; 26846; 26460; 32724]);
  (1, 26, [14850; 18922; 3734; 28685; 13797; 11678; 9229; 24597; 24084; 29025]);
  (1, 25, [13878; 17272; 3470; 25088; 13122; 10884; 9018; 18041; 21438; 24948]);
  (1, 24, [13230; 15930; 3094; 23239; 12077; 10260; 8435; 14907; 17577; 22464]);
  (1, 23, [12690; 14580; 2700; 21803; 10835; 9963; 7935; 11580; 13284; 18252]);
  (1, 22, [11880; 14040; 2295; 20015; 10349; 9296; 7536; 9542; 10881; 13068]);
  (1, 21, [11070; 13500; 2122; 18914; 8907; 8370; 6637; 6801; 8046; 10476]);
  (1, 20, [9647; 12450; 2009; 15568; 7962; 7444; 5192; 4836; 5670; 8289]);
  (1, 19, [8640; 11740; 1161; 12596; 6842; 6275; 2700; 3834; 3186; 5751]);
  (1, 18, [8262; 10171; 783; 10622; 4965; 5273; 2071; 3251; 1728; 5157]);
  (1, 17, [7420; 8640; 340; 8211; 3791; 4271; 1836; 2835; 918; 2943]);
  (1, 16, [7136; 7020; 0; 6672; 3213; 3213; 1080; 2419; 189; 1917]);
  (1, 15, [6939; 4590; 0; 5589; 2012; 2722; 0; 1871; 108; 1215]);
  (1, 14, [6753; 3083; 0; 3888; 1229; 1966; 0; 1285; 189; 1161]);
  (1, 13, [6534; 2279; 0; 3075; 878; 1455; 0; 1002; 0; 756]);
  (1, 12, [6251; 1647; 0; 2700; 837; 1134; 0; 756; 0; 891]);
  (1, 11, [6013; 1045; 0; 2376; 716; 491; 0; 246; 0; 648]);
  (1, 10, [5732; 845; 0; 1836; 648; 189; 0; 0; 0; 540]);
  (1, 9, [5076; 697; 0; 1134; 473; 38; 0; 0; 0; 0]);
  (1, 8, [4523; 540; 0; 662; 446; 76; 0; 0; 0; 0]);
  (1, 7, [3972; 294; 0; 429; 378; 19; 0; 0; 0; 0]);
  (1, 6, [3564; 254; 0; 208; 270; 38; 0; 0; 0; 0]);
  (1, 5, [3210; 122; 0; 230; 311; 0; 0; 0; 0; 0]);
  (1, 4, [489; 0; 0; 0; 0; 0; 0; 0; 0; 0]);
  (1, 3, [0; 0; 0; 0; 0; 0; 0; 0; 0; 0]);
  (1, 2, [22; 0; 0; 0; 0; 0; 0; 0; 0; 0]);
  (1, 1, [0; 0; 0; 0; 0; 0; 0; 0; 0; 0])].

Definition fault_vector_row (r : Z * Z * list Z) : list double :=
  let '(buff, vcs, millionths) := r in
  double_of_int buff :: double_of_int vcs :: map (fun m => double_div (double_of_int m) (double_of_int 1000000)) millionths.

Definition baseline_fault_vector_database : list double :=
  concat (map fault_vector_row fault_vector_rows) ++ [double_of_int (-1)].

(** [VectorParam.Int]: [<temperature> <weight>], ended by -1. *)
Definition temperature_weights_database : list Z := [
  71; 1;
  72; 2;
  73; 3;
  74; 4;
  75; 5;
  76; 5;
  77; 6;
  78; 7;
  79; 8;
  80; 10;
  81; 11;
  82; 12;
  83; 12;
  84; 13;
  85; 14;
  86; 16;
  87; 17;
  88; 18;
  89; 19;
  90; 20;
  91; 22;
  92; 24;
  93; 26;
  94; 27;
  95; 29;
  96; 30;
  97; 32;
  98; 35;
  99; 37;
  100; 39;
  101; 42;
  102; 45;
  103; 47;
  104; 50;
  105; 53;
  106; 56;
  107; 61;
  108; 65;
  109; 70;
  110; 74;
  111; 78;
  112; 82;
  113; 89;
  114; 95;
  115; 100;
  116; 106;
  117; 115;
  118; 122;
  119; 130;
  120; 139;
  121; 147;
  122; 156;
  123; 169;
  124; 178;
  125; 190;
  -1].
