(* ===== verification/FaultModel.v ===== *)
(** * Fault model

    fault_model/FaultModel.cc, and the calls of it in GarnetNetwork.cc and Router.cc: a router is
    linked to the database record of its size, and the record's fault probabilities are scaled
    by the weight of the temperature.  The two function-local statics of the code are shared by
    all fault models of a simulation, so they are a state of their own. *)

From Stdlib Require Import SpecFloat.
From S2P Require Import Prelude Double Config RouterState GarnetNetwork.
Local Open Scope Z_scope.

(** ** Data *)

Inductive fault_type :=
  | data_corruption__few_bits
  | data_corruption__all_bits
  | flit_conservation__flit_duplication
  | flit_conservation__flit_loss_or_split
  | misrouting
  | credit_conservation__credit_generation
  | credit_conservation__credit_loss
  | erroneous_allocation__VC
  | erroneous_allocation__switch
  | unfair_arbitration.

(** The enumerators in order; [number_of_fault_types] counts them. *)
Definition fault_types : list fault_type :=
  [data_corruption__few_bits; data_corruption__all_bits; flit_conservation__flit_duplication;
   flit_conservation__flit_loss_or_split; misrouting; credit_conservation__credit_generation;
   credit_conservation__credit_loss; erroneous_allocation__VC; erroneous_allocation__switch; unfair_arbitration].
Definition number_of_fault_types : Z := vsize fault_types.

(** Offsets within a record of the two databases. *)
Definition conf_record_buff_per_vc : Z := 0.
Definition conf_record_vcs : Z := 1.
Definition conf_record_first_fault_type : Z := 2.
Definition conf_record_last_fault_type : Z := conf_record_first_fault_type + number_of_fault_types - 1.
Definition fields_per_conf_record : Z := conf_record_last_fault_type + 1.

Definition temperature_record_temp : Z := 0.
Definition temperature_record_weight : Z := 1.
Definition fields_per_temperature_record : Z := 2.

Definition MAX_VCs : Z := 40.
Definition MAX_BUFFERS_per_VC : Z := 5.
Definition BASELINE_TEMPERATURE_CELCIUS : Z := 71.

Record system_conf := mk_system_conf {
  vcs : Z;
  buff_per_vc : Z;
  conf_fault_type : list float
}.

Record FaultModel := mkFaultModel {
  configurations : list system_conf;
  fm_routers : list system_conf;
  temperature_weights : list Z
}.

Definition with_configurations (v : list system_conf) (r : FaultModel) : FaultModel :=
  mkFaultModel v (fm_routers r) (temperature_weights r).
Definition with_fm_routers (v : list system_conf) (r : FaultModel) : FaultModel :=
  mkFaultModel (configurations r) v (temperature_weights r).
Definition with_temperature_weights (v : list Z) (r : FaultModel) : FaultModel :=
  mkFaultModel (configurations r) (fm_routers r) v.

(** The statics of the constructor and of [declare_router]. *)
Record FaultStatics := mkFaultStatics { first_record : bool; router_index : Z }.
Definition FaultStatics_start : FaultStatics := mkFaultStatics true 0.

(** ** Construction *)

Definition read_fault_type (db : list double) (i fault_index : Z) (l : list float) : result (list float) :=
  x ← vec_get db (i + conf_record_first_fault_type + fault_index);
  Ok (l ++ [float_of_double (double_div x (double_of_int 100))]).

Definition read_conf (db : list double) (i : Z) : result system_conf :=
  b ← vec_get db (i + conf_record_buff_per_vc);
  buff ← int_of_double b;
  v ← vec_get db (i + conf_record_vcs);
  n ← int_of_double v;
  faults ← for_range (Z.to_nat number_of_fault_types) 0 (read_fault_type db i) [];
  Ok (mk_system_conf n buff faults).

(** [for (int i = 0; more_records; i += fields_per_conf_record)] *)
Fixpoint read_configurations (fuel : nat) (db : list double) (i : Z) (m : FaultModel) : result FaultModel :=
  match fuel with
  | O => Err EFuel
  | S fuel =>
      c ← read_conf db i;
      let m := with_configurations (configurations m ++ [c]) m in
      next ← vec_get db (i + fields_per_conf_record);
      if double_ltb next (double_of_int 0) then Ok m
      else read_configurations fuel db (i + fields_per_conf_record) m
  end.

(** The temperatures below the first record of the program's first fault model weigh nothing. *)
Definition pad_weights (record_temperature : Z) (s : FaultStatics) (m : FaultModel) : FaultStatics * FaultModel :=
  if first_record s then
    (mkFaultStatics false (router_index s),
     with_temperature_weights (temperature_weights m ++ replicate (Z.to_nat record_temperature) 0) m)
  else (s, m).

Fixpoint read_temperatures (fuel : nat) (db : list Z) (i : Z) (s : FaultStatics) (m : FaultModel)
  : result (FaultStatics * FaultModel) :=
  match fuel with
  | O => Err EFuel
  | S fuel =>
      record_temperature ← vec_get db (i + temperature_record_temp);
      record_weight ← vec_get db (i + temperature_record_weight);
      let '(s, m) := pad_weights record_temperature s m in
      assert_ (record_temperature =? vsize (temperature_weights m)) ;;
      let m := with_temperature_weights (temperature_weights m ++ [record_weight]) m in
      next ← vec_get db (i + fields_per_temperature_record);
      if next <? 0 then Ok (s, m)
      else read_temperatures fuel db (i + fields_per_temperature_record) s m
  end.

(** A round reads at [i], which grows, so a database has no more rounds than entries. *)
Definition FaultModel_new (fault_db : list double) (temperature_db : list Z) (s : FaultStatics)
  : result (FaultStatics * FaultModel) :=
  m ← read_configurations (S (length fault_db)) fault_db 0 (mkFaultModel [] [] []);
  read_temperatures (S (length temperature_db)) temperature_db 0 s m.

(** ** Operations *)

Definition fault_type_to_string (ft : Z) : string :=
  (match vec_get fault_types ft with
   | Ok data_corruption__few_bits => "data_corruption__few_bits"
   | Ok data_corruption__all_bits => "data_corruption__all_bits"
   | Ok flit_conservation__flit_duplication => "flit_conservation__flit_duplication"
   | Ok flit_conservation__flit_loss_or_split => "flit_conservation__flit_loss_or_split"
   | Ok misrouting => "misrouting"
   | Ok credit_conservation__credit_generation => "credit_conservation__credit_generation"
   | Ok credit_conservation__credit_loss => "credit_conservation__credit_loss"
   | Ok erroneous_allocation__VC => "erroneous_allocation__VC"
   | Ok erroneous_allocation__switch => "erroneous_allocation__switch"
   | Ok unfair_arbitration => "unfair_arbitration"
   | Err _ => "none"
   end)%string.

(** The last record of the size, -1 for none: the loop does not stop at a hit. *)
Definition record_hit (buffers vc_count : Z) (l : list system_conf) : result Z :=
  for_range (length l) 0 (fun record hit =>
    c ← vec_get l record;
    Ok (if (buff_per_vc c =? buffers) && (vcs c =? vc_count) then record else hit)) (-1).

(** Signed products wrap around. *)
Definition declare_router (number_of_inputs number_of_outputs number_of_vcs_per_input
    number_of_buff_per_data_vc number_of_buff_per_ctrl_vc : Z) (s : FaultStatics) (m : FaultModel)
  : result (Z * FaultStatics * FaultModel) :=
  if (number_of_inputs <=? 0) || (number_of_outputs <=? 0) || (number_of_vcs_per_input <=? 0)
     || (number_of_buff_per_data_vc <=? 0) || (number_of_buff_per_ctrl_vc <=? 0) then Err EFatal
  else
    let number_of_buffers_per_vc := Z.max number_of_buff_per_data_vc number_of_buff_per_ctrl_vc in
    let total_vcs := i32 (number_of_inputs * number_of_vcs_per_input) in
    if MAX_VCs <? total_vcs then Err EFatal
    else if MAX_BUFFERS_per_VC <? number_of_buffers_per_vc then Err EFatal
    else
      hit ← record_hit number_of_buffers_per_vc total_vcs (configurations m);
      if hit =? -1 then Err EPanic
      else
        c ← vec_get (configurations m) hit;
        Ok (router_index s, mkFaultStatics (first_record s) (router_index s + 1),
            with_fm_routers (fm_routers m ++ [c]) m).

(** The success flag and the temperature that is looked up. *)
Definition clamp_temperature (temperature_input : Z) (m : FaultModel) : bool * Z :=
  if vsize (temperature_weights m) <=? temperature_input then (false, vsize (temperature_weights m) - 1)
  else if temperature_input <? 0 then (false, 0)
  else (true, temperature_input).

(** The record of a router and the weight of a temperature. *)
Definition fault_lookup (routerID temperature_input : Z) (m : FaultModel) : result (bool * system_conf * float) :=
  if (routerID <? 0) || (vsize (fm_routers m) <=? routerID) then Err EFatal
  else
    let '(ok, temperature) := clamp_temperature temperature_input m in
    c ← vec_get (fm_routers m) routerID;
    w ← vec_get (temperature_weights m) temperature;
    Ok (ok, c, float_of_int w).

Definition fault_vector (routerID temperature_input : Z) (m : FaultModel) : result (bool * list float) :=
  '(ok, c, weight) ← fault_lookup routerID temperature_input m;
  l ← for_range (Z.to_nat number_of_fault_types) 0 (fun i l =>
    f ← vec_get (conf_fault_type c) i;
    Ok (l ++ [float_mul f weight])) [];
  Ok (ok, l).

(** The factors are doubles; the accumulated product is stored in a [float]. *)
Definition survive (f weight aggregate : float) : float :=
  float_of_double (double_mul (double_of_float aggregate)
    (double_sub (double_of_int 1) (double_of_float (float_mul f weight)))).

Definition fault_prob (routerID temperature_input : Z) (m : FaultModel) : result (bool * float) :=
  '(ok, c, weight) ← fault_lookup routerID temperature_input m;
  p ← for_range (Z.to_nat number_of_fault_types) 0 (fun i p =>
    f ← vec_get (conf_fault_type c) i;
    Ok (survive f weight p)) (float_of_int 1);
  Ok (ok, float_of_double (double_sub (double_of_int 1) (double_of_float p))).

(** ** The callers *)

(** What [printAggregateFaultProbability] and [printFaultVector] print. *)
Definition fault_report (r : Router) (m : FaultModel) : result (float * list (string * float)) :=
  '(_, p) ← fault_prob (m_id r) BASELINE_TEMPERATURE_CELCIUS m;
  '(_, v) ← fault_vector (m_id r) BASELINE_TEMPERATURE_CELCIUS m;
  Ok (p, imap (fun i x => (fault_type_to_string (Z.of_nat i), x)) v).

(** The loop of [GarnetNetwork::init] over the routers, with the printed reports. *)
Definition declare_network_router (c : Config) (r : Router) (x : FaultStatics * FaultModel * list (float * list (string * float)))
  : result (FaultStatics * FaultModel * list (float * list (string * float))) :=
  let '(s, m, out) := x in
  '(router_id, s, m) ← declare_router (vsize (m_input_unit r)) (vsize (m_output_unit r)) (m_vc_per_vnet r)
     (m_buffers_per_data_vc c) (m_buffers_per_ctrl_vc c) s m;
  assert_ (router_id =? m_id r) ;;
  report ← fault_report r m;
  Ok (s, m, out ++ [report]).

Definition declare_routers (g : GarnetNetwork) (s : FaultStatics) (m : FaultModel)
  : result (FaultStatics * FaultModel * list (float * list (string * float))) :=
  foldM (fun x r => declare_network_router (g_config g) r x) (m_routers g) (s, m, []).
