(* ===== verification/FaultProperties.v ===== *)
(** * Properties of the fault model

    With the databases of FaultModel.py every router of up to 40 VCs finds its record, and every
    probability the model reports lies between 0 and 1.  The static flag of the constructor makes a
    second fault model of the same simulation fail. *)

From Stdlib Require Import SpecFloat.
From S2P Require Import Prelude Double FaultDatabase Config RouterState GarnetNetwork FaultModel BubbleProperties.
Local Open Scope Z_scope.

(** ** Probabilities *)

(** Every configuration has its ten fault types, small enough for every weight. *)
Definition conf_ok (weights : list Z) (c : system_conf) : Prop :=
  vsize (conf_fault_type c) = number_of_fault_types /\
  Forall (fun f => Forall (fun w => product_unit f (float_of_int w)) weights) (conf_fault_type c).

Definition fault_model_ok (m : FaultModel) : Prop :=
  temperature_weights m <> [] /\ Forall (conf_ok (temperature_weights m)) (configurations m) /\
  Forall (conf_ok (temperature_weights m)) (fm_routers m).

(** Temperatures the success flag accepts. *)
Definition temperature_known (m : FaultModel) (t : Z) : bool := (0 <=? t) && (t <? vsize (temperature_weights m)).

Lemma clamp_known t m : temperature_weights m <> [] ->
  (clamp_temperature t m).1 = temperature_known m t /\ 0 <= (clamp_temperature t m).2 < vsize (temperature_weights m).
Proof.
  intros Hne. assert (0 < vsize (temperature_weights m)) by (destruct (temperature_weights m); unfold vsize; cbn; [done | lia]).
  unfold clamp_temperature, temperature_known.
  destruct (Z.leb_spec (vsize (temperature_weights m)) t); [cbn; lia|]. destruct (Z.ltb_spec t 0); cbn; lia.
Qed.

Lemma fault_lookup_spec id t m c : fault_model_ok m -> vec_get (fm_routers m) id = Ok c ->
  exists w, fault_lookup id t m = Ok (temperature_known m t, c, float_of_int w) /\ w ∈ temperature_weights m.
Proof.
  intros (Hne & _ & _) Hc. pose proof (vec_get_range _ _ _ Hc) as Hr. destruct (clamp_known t m Hne) as [<- Ht].
  unfold fault_lookup. replace ((id <? 0) || (vsize (fm_routers m) <=? id)) with false by lia.
  destruct (clamp_temperature t m) as [ok u]. rewrite Hc. cbn [mbind result_bind fst snd] in *.
  destruct (vec_get_in_range (temperature_weights m) u Ht) as [w Hw]. rewrite Hw. exists w. split; [done|].
  apply vec_get_Ok in Hw as [_ Hw]. by apply list_elem_of_lookup_2 in Hw.
Qed.

Lemma survive_unit f w p : product_unit f w -> in_unit p -> in_unit (survive f w p).
Proof.
  intros Hf Hp. apply float_of_double_unit, double_mul_unit; [by apply double_of_float_unit|].
  by apply double_one_minus_unit, double_of_float_unit, float_mul_unit.
Qed.

Lemma conf_entry weights c w i : conf_ok weights c -> w ∈ weights -> 0 <= i < number_of_fault_types ->
  exists f, vec_get (conf_fault_type c) i = Ok f /\ product_unit f (float_of_int w).
Proof.
  intros [Hl Hall] Hw Hi. destruct (vec_get_in_range (conf_fault_type c) i) as [f Hf]; [by rewrite Hl|].
  exists f. split; [done|]. pose proof (Forall_vec_get _ _ _ _ Hall Hf) as Hfw. rewrite Forall_forall in Hfw. by apply Hfw.
Qed.

(** Both queries about a declared router answer with probabilities. *)
Lemma fault_queries id t m c : fault_model_ok m -> vec_get (fm_routers m) id = Ok c ->
  exists p v, fault_prob id t m = Ok (temperature_known m t, p) /\ in_unit p /\
    fault_vector id t m = Ok (temperature_known m t, v) /\ vsize v = number_of_fault_types /\ Forall in_unit v.
Proof.
  intros Hm Hc. destruct (fault_lookup_spec id t m c Hm Hc) as (w & Hl & Hw).
  assert (Hok : conf_ok (temperature_weights m) c) by (destruct Hm as (_ & _ & H); exact (Forall_vec_get _ _ _ _ H Hc)).
  unfold fault_prob, fault_vector. rewrite Hl. cbn [mbind result_bind].
  destruct (for_range_total (fun _ p => in_unit p) (fun i p => f ← vec_get (conf_fault_type c) i; Ok (survive f (float_of_int w) p))
    (Z.to_nat number_of_fault_types) 0 (float_of_int 1)) as (p & -> & Hp).
  { by vm_compute. }
  { intros k p Hk Hp. destruct (conf_entry _ _ w k Hok Hw) as (f & -> & Hf); [lia|]. eexists. split; [done|]. by apply survive_unit. }
  destruct (for_range_total (fun k l => vsize l = k /\ Forall in_unit l)
    (fun i l => f ← vec_get (conf_fault_type c) i; Ok (l ++ [float_mul f (float_of_int w)]))
    (Z.to_nat number_of_fault_types) 0 []) as (v & -> & Hv & Hu).
  { done. }
  { intros k l Hk [Hlen Hl']. destruct (conf_entry _ _ w k Hok Hw) as (f & -> & Hf); [lia|]. eexists. split; [done|].
    split; [unfold vsize in *; rewrite length_app; cbn; lia|]. apply Forall_app. split; [done|].
    repeat constructor. by apply float_mul_unit. }
  eexists _, v. split_and!; try done. by apply float_of_double_unit, double_one_minus_unit, double_of_float_unit.
Qed.

(** ** Declaring routers *)

Definition matches (buffers n : Z) (c : system_conf) : Prop := buff_per_vc c = buffers /\ vcs c = n.

Lemma record_hit_spec buffers n l : (exists c, c ∈ l /\ matches buffers n c) ->
  exists i c, record_hit buffers n l = Ok i /\ i <> -1 /\ vec_get l i = Ok c /\ matches buffers n c.
Proof.
  intros (c0 & (j & Hj)%list_elem_of_lookup & Hm0). unfold record_hit.
  match goal with |- context [for_range _ 0 ?b _] =>
    destruct (for_range_total (fun k hit => (Z.of_nat j < k -> hit <> -1) /\
      (hit <> -1 -> exists c, vec_get l hit = Ok c /\ matches buffers n c)) b (length l) 0 (-1)) as (i & -> & H1 & H2) end.
  - split; [lia | done].
  - intros k hit Hk [H1 H2]. destruct (vec_get_in_range l k) as [c Hc]; [unfold vsize; lia|]. rewrite Hc. cbn [mbind result_bind].
    eexists. split; [done|].
    destruct (Z.eqb_spec (buff_per_vc c) buffers), (Z.eqb_spec (vcs c) n); cbn [andb];
      try (split; [lia | intros _; exists c; by split]).
    all: split; [|done]; intros Hjk; apply H1; destruct (decide (k = Z.of_nat j)) as [->|]; [|lia].
    all: apply vec_get_Ok in Hc as [_ Hc]; rewrite Nat2Z.id, Hj in Hc; apply Some_inj in Hc as <-; by destruct Hm0.
  - apply lookup_lt_Some in Hj. assert (Hi : i <> -1) by (apply H1; lia). destruct (H2 Hi) as (c & Hc & Hm). by exists i, c.
Qed.

(** Sizes the databases cover. *)
Definition size_ok (inputs outputs vc_count data_buffers ctrl_buffers : Z) : Prop :=
  0 < inputs /\ 0 < outputs /\ 0 < vc_count /\ inputs * vc_count <= MAX_VCs /\
  0 < data_buffers <= MAX_BUFFERS_per_VC /\ 0 < ctrl_buffers <= MAX_BUFFERS_per_VC.

Definition covers (m : FaultModel) : Prop := forall buffers n, 0 < buffers <= MAX_BUFFERS_per_VC -> 0 < n <= MAX_VCs ->
  exists c, c ∈ configurations m /\ matches buffers n c.

Lemma declare_router_spec inputs outputs n db cb s m : size_ok inputs outputs n db cb -> covers m ->
  exists c, declare_router inputs outputs n db cb s m =
      Ok (router_index s, mkFaultStatics (first_record s) (router_index s + 1), with_fm_routers (fm_routers m ++ [c]) m) /\
    c ∈ configurations m /\ matches (Z.max db cb) (inputs * n) c.
Proof.
  intros (H1 & H2 & H3 & H4 & H5 & H6) Hcov. unfold declare_router, MAX_VCs, MAX_BUFFERS_per_VC in *.
  replace (_ || _ || _ || _ || _) with false by lia. rewrite i32_small by nia.
  replace (40 <? inputs * n) with false by lia. replace (5 <? Z.max db cb) with false by lia.
  destruct (record_hit_spec (Z.max db cb) (inputs * n) (configurations m)) as (i & c & -> & Hi & Hc & Hm);
    [apply Hcov; unfold MAX_VCs, MAX_BUFFERS_per_VC; nia|].
  cbn [mbind result_bind]. destruct (Z.eqb_spec i (-1)); [done|]. rewrite Hc. exists c. split_and!; try done.
  apply vec_get_Ok in Hc as [_ Hc]. by apply list_elem_of_lookup_2 in Hc.
Qed.

(** What is known of the fault model after [k] routers of a network. *)
Record declared (c : Config) (routers : list Router) (k : nat) (s : FaultStatics) (m : FaultModel) : Prop := {
  decl_ok : fault_model_ok m;
  decl_covers : covers m;
  decl_index : router_index s = Z.of_nat k;
  decl_count : length (fm_routers m) = k;
  decl_conf i r : routers !! i = Some r -> (i < k)%nat -> exists cf, vec_get (fm_routers m) (Z.of_nat i) = Ok cf /\
    matches (Z.max (m_buffers_per_data_vc c) (m_buffers_per_ctrl_vc c)) (vsize (m_input_unit r) * m_vc_per_vnet r) cf }.

Definition router_size_ok (c : Config) (r : Router) : Prop :=
  size_ok (vsize (m_input_unit r)) (vsize (m_output_unit r)) (m_vc_per_vnet r) (m_buffers_per_data_vc c) (m_buffers_per_ctrl_vc c).

Definition report_ok (rep : float * list (string * float)) : Prop :=
  in_unit rep.1 /\ vsize rep.2 = number_of_fault_types /\ Forall (fun x => in_unit x.2) rep.2.

Lemma declared_snoc c routers k s m r cf : declared c routers k s m -> routers !! k = Some r -> cf ∈ configurations m ->
  matches (Z.max (m_buffers_per_data_vc c) (m_buffers_per_ctrl_vc c)) (vsize (m_input_unit r) * m_vc_per_vnet r) cf ->
  declared c routers (S k) (mkFaultStatics (first_record s) (router_index s + 1)) (with_fm_routers (fm_routers m ++ [cf]) m).
Proof.
  intros [(Hw & Hc & Hr) Hcov Hi Hn Hall] Hk Hin Hm. split; cbn.
  - split_and!; [done..|]. apply Forall_app. split; [done|]. rewrite Forall_forall in Hc. repeat constructor; by apply Hc.
  - done.
  - lia.
  - rewrite length_app. cbn. lia.
  - intros i r' Hr' Hik. destruct (decide (i = k)) as [->|Hne].
    + rewrite Hk in Hr'. apply Some_inj in Hr' as <-. exists cf. split; [|done]. apply vec_get_Ok. split; [lia|].
      rewrite Nat2Z.id, lookup_app_r by lia. by rewrite Hn, Nat.sub_diag.
    + destruct (Hall i r' Hr') as (cf' & Hcf & Hm'); [lia|]. exists cf'. split; [|done].
      apply vec_get_Ok in Hcf as [H0 Hcf]. apply vec_get_Ok. split; [done|]. by apply lookup_app_l_Some.
Qed.

Lemma imap_Forall {A B} (P : B -> Prop) (f : nat -> A -> B) l : (forall i x, x ∈ l -> P (f i x)) -> Forall P (imap f l).
Proof.
  intros H. apply Forall_lookup. intros i y. rewrite list_lookup_imap. intros (x & Hx & ->)%fmap_Some_1.
  apply H. by apply list_elem_of_lookup_2 in Hx.
Qed.

Lemma declare_network_router_spec c routers k s m r out : declared c routers k s m -> routers !! k = Some r ->
  m_id r = Z.of_nat k -> router_size_ok c r ->
  exists s' m' rep, declare_network_router c r (s, m, out) = Ok (s', m', out ++ [rep]) /\ report_ok rep /\
    declared c routers (S k) s' m' /\ configurations m' = configurations m /\ temperature_weights m' = temperature_weights m.
Proof.
  intros Hd Hk Hid Hsz. pose proof Hd as [_ Hcov Hidx _ _]. unfold declare_network_router.
  destruct (declare_router_spec _ _ _ _ _ s m Hsz Hcov) as (cf & -> & Hin & Hm). cbn [mbind result_bind].
  pose proof (declared_snoc c routers k s m r cf Hd Hk Hin Hm) as Hd'. set (m' := with_fm_routers _ m) in *.
  rewrite Hidx, Hid, Z.eqb_refl. cbn [assert_ mbind result_bind].
  destruct (decl_conf _ _ _ _ _ Hd' k r Hk) as (cf' & Hcf & _); [lia|]. unfold fault_report. rewrite Hid.
  destruct (fault_queries _ BASELINE_TEMPERATURE_CELCIUS m' cf' (decl_ok _ _ _ _ _ Hd') Hcf) as (p & v & -> & Hp & -> & Hl & Hu).
  cbn [mbind result_bind]. eexists _, m', _. split_and!; [done | | by rewrite <- Hidx | done..].
  split_and!; cbn; [done | unfold vsize in *; by rewrite length_imap |].
  apply imap_Forall. intros i x Hx. cbn. rewrite Forall_forall in Hu. by apply Hu.
Qed.

Lemma declare_routers_from c routers k s m out : declared c routers k s m ->
  (forall i r, routers !! i = Some r -> m_id r = Z.of_nat i /\ router_size_ok c r) ->
  exists s' m' out', foldM (fun x r => declare_network_router c r x) (drop k routers) (s, m, out) = Ok (s', m', out ++ out') /\
    length out' = length (drop k routers) /\ Forall report_ok out' /\
    declared c routers (Nat.max k (length routers)) s' m' /\ temperature_weights m' = temperature_weights m.
Proof.
  intros Hd Hall. remember (drop k routers) as l eqn:Hl. revert k s m out Hd Hl. induction l as [|r l IH]; intros k s m out Hd Hl.
  - exists s, m, []. assert (length routers <= k)%nat by (apply (f_equal length) in Hl; rewrite length_drop in Hl; cbn in Hl; lia).
    rewrite app_nil_r. split_and!; try done. by replace (k `max` length routers)%nat with k by lia.
  - assert (Hk : routers !! k = Some r) by (rewrite <- (Nat.add_0_r k), <- lookup_drop, <- Hl; done).
    destruct (Hall k r Hk) as [Hid Hsz].
    destruct (declare_network_router_spec c routers k s m r out Hd Hk Hid Hsz) as (s1 & m1 & rep & H1 & Hrep & Hd1 & _ & Ht1).
    cbn [foldM]. rewrite H1. cbn [mbind result_bind].
    destruct (IH (S k) s1 m1 (out ++ [rep]) Hd1) as (s2 & m2 & out2 & H2 & Hlen & Hf & Hd2 & Ht2).
    { rewrite (drop_S _ _ _ Hk) in Hl. by apply (f_equal tail) in Hl. }
    exists s2, m2, (rep :: out2). rewrite H2, <- app_assoc. apply lookup_lt_Some in Hk.
    split_and!; [done | cbn; lia | by constructor | | by rewrite Ht2].
    by replace (k `max` length routers)%nat with (S k `max` length routers)%nat by lia.
Qed.

(** ** The databases of the repository *)

(** A float below [1/190], and the integers up to 190 as floats. *)
Definition small_fault (f : float) : bool :=
  match f with
  | S754_zero _ => true
  | S754_finite false m e => (e <=? 0) && (Zpos m * 190 <=? 2 ^ (- e))
  | _ => false
  end.

Definition exact_float (w : Z) : bool :=
  match float_of_int w with
  | S754_zero _ => w =? 0
  | S754_finite false m e => (e <=? 0) && (Zpos m =? w * 2 ^ (- e))
  | _ => false
  end.

Lemma small_fault_product f w : small_fault f = true -> exact_float w = true -> 0 <= w <= 190 -> product_unit f (float_of_int w).
Proof.
  unfold small_fault, exact_float. destruct (float_of_int w) as [| | |[] mw ew]; destruct f as [| | |[] m e]; try done.
  intros [He Hm]%andb_prop [Hew Hmw]%andb_prop Hw. cbn [product_unit].
  apply Z.leb_le in He, Hm, Hew. apply Z.eqb_eq in Hmw. split_and!; [lia | lia |].
  rewrite Z.opp_add_distr, Z.pow_add_r, Hmw by lia. assert (0 < 2 ^ (- ew)) by (apply Z.pow_pos_nonneg; lia). nia.
Qed.

Definition weight_check (w : Z) : bool := (0 <=? w) && (w <=? 190) && exact_float w.
Definition conf_check (c : system_conf) : bool :=
  (vsize (conf_fault_type c) =? number_of_fault_types) && forallb small_fault (conf_fault_type c).
Definition cover_check (m : FaultModel) : bool :=
  forallb (fun b => forallb (fun n => existsb (fun c => (buff_per_vc c =? b) && (vcs c =? n)) (configurations m))
    (seqZ 1 MAX_VCs)) (seqZ 1 MAX_BUFFERS_per_VC).

Definition shipped_check (r : result (FaultStatics * FaultModel)) : bool :=
  match r with
  | Ok (s, m) => (router_index s =? 0) && (vsize (fm_routers m) =? 0) && (vsize (temperature_weights m) =? 126)
      && forallb weight_check (temperature_weights m) && forallb conf_check (configurations m) && cover_check m
  | Err _ => false
  end.

Lemma shipped_checked :
  shipped_check (FaultModel_new baseline_fault_vector_database temperature_weights_database FaultStatics_start) = true.
Proof. vm_compute. reflexivity. Qed.

Lemma cover_check_sound m : cover_check m = true -> covers m.
Proof.
  unfold cover_check, covers. intros H b n Hb Hn. rewrite forallb_forall in H.
  specialize (H b). rewrite forallb_forall in H. specialize (H ltac:(apply list_elem_of_In, elem_of_seqZ; unfold MAX_BUFFERS_per_VC in *; lia)).
  specialize (H n ltac:(apply list_elem_of_In, elem_of_seqZ; unfold MAX_VCs in *; lia)).
  apply existsb_exists in H as (c & Hc & Hm). exists c. split; [by apply list_elem_of_In|]. split; lia.
Qed.

Lemma shipped_model c routers s m :
  FaultModel_new baseline_fault_vector_database temperature_weights_database FaultStatics_start = Ok (s, m) ->
  declared c routers 0 s m /\ vsize (temperature_weights m) = 126.
Proof.
  intros H. pose proof shipped_checked as Hc. rewrite H in Hc. cbn [shipped_check] in Hc.
  apply andb_prop in Hc as [[[[[Hi Hr]%andb_prop Ht]%andb_prop Hw]%andb_prop Hf]%andb_prop Hcov].
  apply Z.eqb_eq in Hi, Hr, Ht. rewrite forallb_forall in Hw, Hf.
  assert (fm_routers m = []) as Hnil by (destruct (fm_routers m); [done | unfold vsize in Hr; cbn in Hr; lia]).
  split; [split|done]; [| by apply cover_check_sound | lia | by rewrite Hnil | lia].
  split_and!; [intros Hn; rewrite Hn in Ht; done | | by rewrite Hnil].
  apply Forall_forall. intros cf Hcf. apply list_elem_of_In, Hf, andb_prop in Hcf as [Hlen Hall].
  split; [lia|]. rewrite forallb_forall in Hall. apply Forall_forall. intros f Hin. apply Forall_forall. intros w Hwin.
  apply list_elem_of_In in Hin, Hwin. apply Hw, andb_prop in Hwin as [Hb Hx]. apply small_fault_product; [by apply Hall | done | lia].
Qed.

(** ** The fault model of a network *)

(** C37: With the databases of FaultModel.py, the fault model declares every router of a network whose routers
    are numbered by their position and have input and output ports, from 1 to 40 VCs (counted over the input ports and one
    virtual network, as they are declared) and from 1 to 5 buffers per VC: no assertion or fatal error is reached, the
    identifiers agree with the routers', and every record has as many VCs as the router's input ports have in one virtual network (not
    in all of them, see the findings) and the buffers per VC of the deeper kind.  The printed reports, and every later query at any
    temperature, are probabilities between 0 and 1; the success flag is true exactly from 0 to 125 degrees. *)
Theorem fault_model_probabilities (g : GarnetNetwork) :
  (forall i r, m_routers g !! i = Some r -> RouterState.m_id r = Z.of_nat i /\ router_size_ok (g_config g) r) ->
  exists s m s' m' reports,
    FaultModel_new baseline_fault_vector_database temperature_weights_database FaultStatics_start = Ok (s, m) /\
    declare_routers g s m = Ok (s', m', reports) /\ length reports = length (m_routers g) /\ Forall report_ok reports /\
    forall i r, m_routers g !! i = Some r ->
      (exists cf, vec_get (fm_routers m') (RouterState.m_id r) = Ok cf /\
        vcs cf = vsize (m_input_unit r) * m_vc_per_vnet r /\
        buff_per_vc cf = Z.max (m_buffers_per_data_vc (g_config g)) (m_buffers_per_ctrl_vc (g_config g))) /\
      forall t, exists p v, let ok := (0 <=? t) && (t <=? 125) in
        fault_prob (RouterState.m_id r) t m' = Ok (ok, p) /\ in_unit p /\
        fault_vector (RouterState.m_id r) t m' = Ok (ok, v) /\ vsize v = number_of_fault_types /\ Forall in_unit v.
Proof.
  intros Hall. pose proof shipped_checked as Hc.
  destruct (FaultModel_new _ _ _) as [[s m]|] eqn:Hnew; [|done]. clear Hc.
  destruct (shipped_model (g_config g) (m_routers g) s m Hnew) as [Hd Ht]. clear Hnew.
  destruct (declare_routers_from _ _ _ _ _ [] Hd Hall) as (s' & m' & out & Hdecl & Hlen & Hrep & Hd' & Ht').
  exists s, m, s', m', out. split; [reflexivity|]. split; [exact Hdecl|]. split; [exact Hlen|]. split; [exact Hrep|].
  intros i r Hr. destruct (Hall i r Hr) as [-> _].
  destruct (decl_conf _ _ _ _ _ Hd' i r Hr) as (cf & Hcf & Hb & Hn); [apply lookup_lt_Some in Hr; lia|].
  split; [by exists cf|]. intros t.
  destruct (fault_queries _ t m' cf (decl_ok _ _ _ _ _ Hd') Hcf) as (p & v & Hp & Hu & Hv & Hq).
  exists p, v. unfold temperature_known in *. rewrite Ht', Ht in *. replace (t <=? 125) with (t <? 126) by lia. done.
Qed.

Definition sized_b (g : GarnetNetwork) : bool :=
  forallb (fun x => (RouterState.m_id x.2 =? Z.of_nat x.1) && (0 <? vsize (m_input_unit x.2)) && (0 <? vsize (m_output_unit x.2))
    && (0 <? m_vc_per_vnet x.2) && (vsize (m_input_unit x.2) * m_vc_per_vnet x.2 <=? 40)) (imap pair (m_routers g))
  && (0 <? m_buffers_per_data_vc (g_config g)) && (m_buffers_per_data_vc (g_config g) <=? 5)
  && (0 <? m_buffers_per_ctrl_vc (g_config g)) && (m_buffers_per_ctrl_vc (g_config g) <=? 5).

Lemma sized_b_sound g : sized_b g = true ->
  forall i r, m_routers g !! i = Some r -> RouterState.m_id r = Z.of_nat i /\ router_size_ok (g_config g) r.
Proof.
  intros H i r Hr. unfold sized_b in H. apply andb_prop in H as [[[[Hf H1]%andb_prop H2]%andb_prop H3]%andb_prop H4].
  rewrite forallb_forall in Hf. specialize (Hf (i, r)). cbn in Hf.
  assert (Hin : In (i, r) (imap pair (m_routers g))).
  { apply list_elem_of_In, list_elem_of_lookup. exists i. by rewrite list_lookup_imap, Hr. }
  specialize (Hf Hin). unfold router_size_ok, size_ok, MAX_VCs, MAX_BUFFERS_per_VC. lia.
Qed.

Lemma fault_model_probabilities_witness : exists s m s' m' reports,
  FaultModel_new baseline_fault_vector_database temperature_weights_database FaultStatics_start = Ok (s, m) /\
  declare_routers ex_net s m = Ok (s', m', reports) /\ length reports = 4%nat /\ Forall report_ok reports.
Proof.
  destruct (fault_model_probabilities ex_net) as (s & m & s' & m' & reports & H1 & H2 & H3 & H4 & _).
  { apply sized_b_sound. vm_compute. reflexivity. }
  exists s, m, s', m', reports. split_and!; [exact H1 | exact H2 | | exact H4]. rewrite H3. vm_compute. reflexivity.
Defined.

(** ** Two fault models *)

Lemma read_configurations_weights fuel db i m m' : read_configurations fuel db i m = Ok m' ->
  temperature_weights m' = temperature_weights m.
Proof.
  revert i m. induction fuel as [|fuel IH]; intros i m; cbn [read_configurations]; [done|]. intros H. inv_ok.
  destruct (double_ltb _ _) in *; inv_ok; [done|]. by erewrite IH by done.
Qed.

Lemma read_temperatures_flag fuel db i s m s' m' : read_temperatures fuel db i s m = Ok (s', m') -> first_record s' = false.
Proof.
  revert i s m. induction fuel as [|fuel IH]; intros i s m; cbn [read_temperatures]; [done|]. intros H. inv_ok.
  destruct (_ <? 0) in *; inv_ok; [|by eapply IH]. unfold pad_weights in *. destruct (first_record s) eqn:Hs; by simplify_eq/=.
Qed.

(** The flag that pads the temperature weights is shared by all fault models, so that building a second one from
    the same databases fails the constructor's assertion, unless the first record is for temperature 0. *)
Theorem second_fault_model_fails fault_db temperature_db s s' m :
  FaultModel_new fault_db temperature_db s = Ok (s', m) -> vec_get temperature_db 0 <> Ok 0 ->
  FaultModel_new fault_db temperature_db s' = Err EAssert.
Proof.
  unfold FaultModel_new. intros (m0 & Hm0 & Ht)%bind_Ok H0. rewrite Hm0. cbn [mbind result_bind].
  pose proof (read_temperatures_flag _ _ _ _ _ _ _ Ht) as Hs. assert (Hnil : temperature_weights m0 = []) by exact (read_configurations_weights _ _ _ _ _ Hm0).
  cbn [read_temperatures] in *. apply bind_Ok in Ht as (t0 & Hg0 & (w0 & Hg1 & _)%bind_Ok).
  rewrite Hg0, Hg1. cbn [mbind result_bind]. unfold pad_weights. rewrite Hs, Hnil.
  destruct (Z.eqb_spec t0 (vsize (A:=Z) [])) as [->|]; [done|]. done.
Qed.

Lemma second_fault_model_fails_witness : exists s m,
  FaultModel_new baseline_fault_vector_database temperature_weights_database FaultStatics_start = Ok (s, m) /\
  FaultModel_new baseline_fault_vector_database temperature_weights_database s = Err EAssert.
Proof.
  pose proof shipped_checked as Hc. destruct (FaultModel_new _ _ FaultStatics_start) as [[s m]|] eqn:Hnew; [|discriminate Hc].
  exists s, m. split; [reflexivity|]. apply (second_fault_model_fails _ _ _ _ _ Hnew). vm_compute. discriminate.
Defined.
