(* ===== verification/AddrRange.v ===== *)
(** * [AddrRange] (base/addr_range.hh) and the bit fields it uses (base/bitfield.hh)

    A range of addresses, possibly one stripe of an interleaved range: a slice of the address,
    optionally xor-ed with a second slice, must match the number of the stripe.  Addresses are
    64-bit numbers; the four small members are [uint8_t].  The stripes that merge into a range
    partition it, and the offset of an address within its stripe determines the address. *)

From S2P Require Import Prelude.
Local Open Scope Z_scope.

(** ** Bit fields *)

Definition mask (nbits : Z) : Z := if nbits =? 64 then Z.ones 64 else u64 (Z.shiftl 1 nbits - 1).

(** Shifting by a negative amount or by the width is undefined. *)
Definition shift_ok (n : Z) : bool := (0 <=? n) && (n <? 64).

Definition bitfield (val first last : Z) : result Z :=
  if shift_ok last then Ok (Z.land (Z.shiftr val last) (mask (first - last + 1))) else Err EIndex.

Definition insertBits (val first last bit_val : Z) : result Z :=
  if shift_ok last then
    let bmask := u64 (Z.shiftl (mask (first - last + 1)) last) in
    Ok (Z.lor (Z.land (u64 (Z.shiftl bit_val last)) bmask) (Z.land val (Z.lxor bmask (Z.ones 64))))
  else Err EIndex.

(** ** The range *)

Record AddrRange := mkAddrRange {
  ar_start : Z;
  ar_end : Z;
  intlvHighBit : Z;
  xorHighBit : Z;
  intlvBits : Z;
  intlvMatch : Z
}.

#[export] Instance AddrRange_eq_dec : EqDecision AddrRange.
Proof. solve_decision. Defined.

Definition fatal_if (b : bool) : result unit := if b then Err EFatal else Ok tt.

(** The constructor for an interleaved range, with its sanity checks. *)
Definition AddrRange_new (start end_ high xhigh nbits match_ : Z) : result AddrRange :=
  fatal_if (negb (nbits =? 0) && (2 ^ nbits <=? match_)) ;;
  fatal_if (negb (nbits =? 0) && negb (xhigh =? 0) &&
    ((xhigh =? high) || ((high <? xhigh) && (xhigh - high <? nbits)) || ((xhigh <? high) && (high - xhigh <? nbits)))) ;;
  Ok (mkAddrRange start end_ high xhigh nbits match_).

Definition RangeEx (start end_ : Z) : AddrRange := mkAddrRange start (u64 (end_ - 1)) 0 0 0 0.
Definition RangeIn (start end_ : Z) : AddrRange := mkAddrRange start end_ 0 0 0 0.
Definition RangeSize (start sz : Z) : AddrRange := mkAddrRange start (u64 (start + sz - 1)) 0 0 0 0.

Definition interleaved (r : AddrRange) : bool := negb (intlvBits r =? 0).
Definition hashed (r : AddrRange) : bool := interleaved r && negb (xorHighBit r =? 0).

Definition size (r : AddrRange) : Z := Z.shiftr (u64 (ar_end r - ar_start r + 1)) (intlvBits r).

Definition u8 (z : Z) : Z := z mod 2 ^ 8.

Definition granularity (r : AddrRange) : Z :=
  if interleaved r then
    let intlv_low_bit := u8 (intlvHighBit r - intlvBits r + 1) in
    if hashed r then 2 ^ Z.min intlv_low_bit (u8 (xorHighBit r - intlvBits r + 1)) else 2 ^ intlv_low_bit
  else size r.

Definition stripes (r : AddrRange) : Z := u32 (2 ^ intlvBits r).
Definition valid (r : AddrRange) : bool := ar_start r <=? ar_end r.

Definition mergesWith (self r : AddrRange) : bool :=
  (ar_start r =? ar_start self) && (ar_end r =? ar_end self) && (intlvHighBit r =? intlvHighBit self) &&
  (xorHighBit r =? xorHighBit self) && (intlvBits r =? intlvBits self).

(** The loop of the merging constructor: every range merges with the first one, and the match
    values count up. *)
Definition check_merge (first : AddrRange) (ranges : list AddrRange) : result Z :=
  foldM (fun match_ r =>
    fatal_if (negb (mergesWith first r)) ;;
    fatal_if (negb (intlvMatch r =? match_)) ;;
    Ok (u8 (match_ + 1))) ranges 0.

Definition AddrRange_merge (ranges : list AddrRange) : result AddrRange :=
  match ranges with
  | [] => Ok (mkAddrRange 1 0 0 0 0 0)
  | first :: _ =>
      fatal_if (negb (vsize ranges =? 2 ^ intlvBits first)) ;;
      check_merge first ranges ;;
      Ok (mkAddrRange (ar_start first) (ar_end first) 0 0 0 0)
  end.

(** The stripe number of an address. *)
Definition select (r : AddrRange) (a : Z) : result Z :=
  s ← bitfield a (intlvHighBit r) (intlvHighBit r - intlvBits r + 1);
  if negb (hashed r) then Ok s
  else x ← bitfield a (xorHighBit r) (xorHighBit r - intlvBits r + 1); Ok (Z.lxor s x).

Definition contains (r : AddrRange) (a : Z) : result bool :=
  let in_range := (ar_start r <=? a) && (a <=? ar_end r) in
  if negb (interleaved r) then Ok in_range
  else if in_range then s ← select r a; Ok (s =? intlvMatch r)
  else Ok false.

Definition intersects (self r : AddrRange) : result bool :=
  if (ar_end r <? ar_start self) || (ar_end self <? ar_start r) then Ok false
  else if negb (interleaved self) && negb (interleaved r) then Ok true
  else if size r =? 1 then contains self (ar_start r)
  else if mergesWith self r then Ok (intlvMatch self =? intlvMatch r)
  else Err EPanic.

Definition isSubset (self r : AddrRange) : result bool :=
  if interleaved self then Err EPanic
  else if interleaved r then
    b1 ← contains r (ar_start self);
    if negb b1 then Ok false else
    b2 ← contains r (ar_end self);
    Ok (b2 && (size self <=? granularity r))
  else Ok ((ar_start r <=? ar_start self) && (ar_end self <=? ar_end r)).

Definition removeIntlvBits (r : AddrRange) (a : Z) : result Z :=
  let intlv_low_bit := intlvHighBit r - intlvBits r + 1 in
  insertBits (Z.shiftr a (intlvBits r)) (intlv_low_bit - 1) 0 a.

Definition MaxAddr : Z := 2 ^ 64 - 1.

Definition getOffset (r : AddrRange) (a : Z) : result Z :=
  let in_range := (ar_start r <=? a) && (a <=? ar_end r) in
  if negb in_range then Ok MaxAddr
  else if interleaved r then
    x ← removeIntlvBits r a; y ← removeIntlvBits r (ar_start r); Ok (u64 (x - y))
  else Ok (u64 (a - ar_start r)).

Definition range_lt (self r : AddrRange) : bool :=
  if negb (ar_start self =? ar_start r) then ar_start self <? ar_start r else intlvMatch self <? intlvMatch r.

Definition range_eq (self r : AddrRange) : bool :=
  (ar_start self =? ar_start r) && (ar_end self =? ar_end r) && (intlvBits self =? intlvBits r) &&
  ((intlvBits self =? 0) || ((intlvHighBit self =? intlvHighBit r) && (intlvMatch self =? intlvMatch r))).

(** ** Properties: bit fields *)

Lemma mask_ones n : 0 <= n <= 64 -> mask n = Z.ones n.
Proof.
  intros Hn. unfold mask. destruct (Z.eqb_spec n 64) as [->|]; [done|].
  rewrite Z.shiftl_1_l. rewrite Z.ones_equiv, <- Z.sub_1_r. apply u64_small.
  assert (0 < 2 ^ n <= 2 ^ 64) by (split; [lia | apply Z.pow_le_mono_r; lia]). lia.
Qed.

Lemma ones_testbit n j : 0 <= n -> 0 <= j -> Z.testbit (Z.ones n) j = (j <? n).
Proof.
  intros Hn Hj. destruct (Z.ltb_spec j n); [apply Z.ones_spec_low; lia | apply Z.ones_spec_high; lia].
Qed.

Lemma u64_testbit x j : 0 <= j -> Z.testbit (u64 x) j = (j <? 64) && Z.testbit x j.
Proof.
  intros Hj. unfold u64. destruct (Z.ltb_spec j 64); [by rewrite Z.mod_pow2_bits_low by lia | by rewrite Z.mod_pow2_bits_high by lia].
Qed.

(** The [k]-bit slice that ends at bit [h]. *)
Lemma bitfield_slice a h k : 0 < k <= 64 -> 0 <= h - k + 1 -> h < 64 ->
  exists s, bitfield a h (h - k + 1) = Ok s /\ 0 <= s < 2 ^ k /\
    forall j, 0 <= j -> Z.testbit s j = (j <? k) && Z.testbit a (h - k + 1 + j).
Proof.
  intros Hk Hl Hh. unfold bitfield, shift_ok. rewrite (proj2 (Z.leb_le 0 _)), (proj2 (Z.ltb_lt _ 64)) by lia. cbn [andb].
  replace (h - (h - k + 1) + 1) with k by lia. rewrite mask_ones, Z.land_ones by lia. eexists. split; [done|].
  split; [apply Z.mod_pos_bound; lia|]. intros j Hj. destruct (Z.ltb_spec j k).
  - rewrite Z.mod_pow2_bits_low, Z.shiftr_spec by lia. cbn. f_equal. lia.
  - by rewrite Z.mod_pow2_bits_high by lia.
Qed.

(** ** Ranges *)

(** What the constructor and the width of an address ask of an interleaved range. *)
Record range_ok (r : AddrRange) : Prop := {
  ro_bounds : 0 <= ar_start r /\ ar_end r < 2 ^ 64;
  ro_bits : 0 <= intlvBits r <= 8;
  ro_slice : interleaved r = true -> 0 <= intlvHighBit r - intlvBits r + 1 /\ intlvHighBit r < 64;
  ro_xor : hashed r = true -> 0 <= xorHighBit r - intlvBits r + 1 /\ xorHighBit r < 64 /\
    intlvBits r <= Z.abs (xorHighBit r - intlvHighBit r)
}.

Lemma interleaved_bits r : range_ok r -> interleaved r = true -> 0 < intlvBits r <= 8.
Proof. intros Hr Hi. pose proof (ro_bits _ Hr). unfold interleaved in Hi. destruct (Z.eqb_spec (intlvBits r) 0); [done | lia]. Qed.

(** The stripe of an address, bit by bit. *)
Lemma select_spec r a : range_ok r -> interleaved r = true ->
  exists s, select r a = Ok s /\ 0 <= s < 2 ^ intlvBits r /\
    forall j, 0 <= j < intlvBits r -> Z.testbit s j =
      xorb (Z.testbit a (intlvHighBit r - intlvBits r + 1 + j))
           (hashed r && Z.testbit a (xorHighBit r - intlvBits r + 1 + j)).
Proof.
  intros Hr Hi. pose proof (interleaved_bits r Hr Hi) as Hk. destruct (ro_slice r Hr Hi) as [Hl Hh].
  destruct (bitfield_slice a (intlvHighBit r) (intlvBits r)) as (s & Hs & Hsr & Hsb); [lia.. |].
  unfold select. rewrite Hs. cbn [mbind result_bind]. destruct (hashed r) eqn:Eh; cbn [negb].
  - destruct (ro_xor r Hr Eh) as (Hxl & Hxh & _).
    destruct (bitfield_slice a (xorHighBit r) (intlvBits r)) as (x & Hx & Hxr & Hxb); [lia.. |]. rewrite Hx. cbn [mbind result_bind].
    assert (Hbit : forall j, 0 <= j -> Z.testbit (Z.lxor s x) j = (j <? intlvBits r) &&
      xorb (Z.testbit a (intlvHighBit r - intlvBits r + 1 + j)) (Z.testbit a (xorHighBit r - intlvBits r + 1 + j))).
    { intros j Hj. rewrite Z.lxor_spec, Hsb, Hxb by done. by destruct (j <? intlvBits r). }
    exists (Z.lxor s x). split; [done|]. split.
    + assert (E : Z.lxor s x = Z.lxor s x mod 2 ^ intlvBits r).
      { apply Z.bits_inj'. intros j Hj. destruct (Z.ltb_spec j (intlvBits r)).
        - by rewrite Z.mod_pow2_bits_low by lia.
        - rewrite Z.mod_pow2_bits_high by lia. rewrite Hbit by done. by rewrite (proj2 (Z.ltb_ge j _)) by lia. }
      rewrite E. apply Z.mod_pos_bound. lia.
    + intros j Hj. rewrite Hbit by lia. by rewrite (proj2 (Z.ltb_lt j _)) by lia.
  - exists s. split; [done|]. split; [done|]. intros j Hj. rewrite Hsb by lia.
    rewrite (proj2 (Z.ltb_lt j _)) by lia. by rewrite xorb_false_r.
Qed.

(** ** Merging *)

Lemma mergesWith_spec self r : mergesWith self r = true <->
  ar_start r = ar_start self /\ ar_end r = ar_end self /\ intlvHighBit r = intlvHighBit self /\
  xorHighBit r = xorHighBit self /\ intlvBits r = intlvBits self.
Proof. unfold mergesWith. rewrite !andb_true_iff, !Z.eqb_eq. tauto. Qed.

Lemma fatal_if_Ok b u : fatal_if b = Ok u <-> b = false.
Proof. destruct b, u; split; done. Qed.

Lemma merge_loop first ranges m x : 0 <= m -> m + vsize ranges <= 256 ->
  foldM (fun match_ r => fatal_if (negb (mergesWith first r)) ;; fatal_if (negb (intlvMatch r =? match_)) ;; Ok (u8 (match_ + 1))) ranges m = Ok x ->
  forall i r, ranges !! i = Some r -> mergesWith first r = true /\ intlvMatch r = m + Z.of_nat i.
Proof.
  revert m. induction ranges as [|r0 l IH]; intros m Hm Hb H i r Hi; [done|]. cbn [foldM] in H.
  apply bind_Ok in H as (m1 & H1 & H). apply bind_Ok in H1 as (u1 & Hu1%fatal_if_Ok%negb_false_iff & H1).
  apply bind_Ok in H1 as (u2 & Hu2%fatal_if_Ok%negb_false_iff%Z.eqb_eq & H1). apply Ok_inj in H1 as <-.
  destruct i as [|i]; cbn in Hi; [injection Hi as <-; split; [done | lia]|].
  assert (Hl : vsize (r0 :: l) = vsize l + 1) by (unfold vsize; cbn; lia).
  assert (Hpos : 0 < vsize l) by (apply lookup_lt_Some in Hi; unfold vsize; lia).
  assert (Hu : u8 (m + 1) = m + 1) by (apply Z.mod_small; lia). rewrite Hu in H.
  destruct (IH (m + 1) ltac:(lia) ltac:(lia) H i r Hi) as [? ->]. split; [done | lia].
Qed.

Lemma merge_spec ranges first rest m : ranges = first :: rest -> intlvBits first <= 8 -> AddrRange_merge ranges = Ok m ->
  m = RangeIn (ar_start first) (ar_end first) /\ vsize ranges = 2 ^ intlvBits first /\
  forall i r, ranges !! i = Some r -> mergesWith first r = true /\ intlvMatch r = Z.of_nat i.
Proof.
  intros -> Hb H. unfold AddrRange_merge in H. apply bind_Ok in H as (u1 & Hu1%fatal_if_Ok%negb_false_iff%Z.eqb_eq & H).
  apply bind_Ok in H as (x & Hc & H). apply Ok_inj in H as <-. split; [done|]. split; [done|].
  assert (2 ^ intlvBits first <= 2 ^ 8) by (apply Z.pow_le_mono_r; lia).
  intros i r Hi. apply (merge_loop first (first :: rest) 0 x); [lia | lia | exact Hc | exact Hi].
Qed.

(** Ranges that merge select in the same way. *)
Lemma contains_merged first r a : mergesWith first r = true ->
  contains r a = contains (mkAddrRange (ar_start first) (ar_end first) (intlvHighBit first) (xorHighBit first) (intlvBits first) (intlvMatch r)) a.
Proof. intros (E1 & E2 & E3 & E4 & E5)%mergesWith_spec. destruct r; cbn in *. by subst. Qed.

(** The stripes of an interleaved range partition it: an address is in the merged range exactly
    when one of the stripes contains it, and that stripe is unique. *)
Lemma stripes_partition ranges first m a :
  AddrRange_merge ranges = Ok m -> head ranges = Some first -> range_ok first ->
  (forall r, r ∈ ranges -> exists b, contains r a = Ok b) /\
  (contains m a = Ok true <-> exists i r, ranges !! i = Some r /\ contains r a = Ok true) /\
  (forall i j ri rj, ranges !! i = Some ri -> ranges !! j = Some rj ->
     contains ri a = Ok true -> contains rj a = Ok true -> i = j).
Proof.
  intros Hm Hh Hr. destruct ranges as [|f rest]; [done|]. injection Hh as ->. pose proof (ro_bits _ Hr) as Hb.
  destruct (merge_spec (first :: rest) first rest m eq_refl ltac:(lia) Hm) as (-> & Hlen & Hall).
  set (inr := (ar_start first <=? a) && (a <=? ar_end first)). change (contains (RangeIn (ar_start first) (ar_end first)) a) with (Ok inr).
  destruct (interleaved first) eqn:Ei.
  - destruct (select_spec first a Hr Ei) as (s & Hs & Hsr & _).
    assert (Hc : forall i r, (first :: rest) !! i = Some r -> contains r a = Ok (inr && (s =? Z.of_nat i))).
    { intros i r Hi. destruct (Hall i r Hi) as [Hmw Hmi]. rewrite (contains_merged first r a Hmw). unfold contains.
      unfold interleaved in *. cbn [ar_start ar_end intlvBits]. fold inr. rewrite Ei. cbn [negb]. destruct inr; [|done].
      change (select _ a) with (select first a). rewrite Hs. cbn [mbind result_bind intlvMatch]. by rewrite Hmi. }
    split_and!.
    + intros r (i & Hi)%list_elem_of_lookup. eexists. by apply (Hc i).
    + split.
      * intros [= Hin]. destruct (lookup_lt_is_Some_2 (first :: rest) (Z.to_nat s)) as [r Hi]; [unfold vsize in Hlen; lia|].
        exists (Z.to_nat s), r. split; [done|]. rewrite (Hc _ _ Hi), Hin, Z2Nat.id, Z.eqb_refl by lia. done.
      * intros (i & r & Hi & Hct). rewrite (Hc i r Hi) in Hct. injection Hct as Hct. f_equal. by destruct inr.
    + intros i j ri rj Hi Hj. rewrite (Hc i ri Hi), (Hc j rj Hj). intros [= H1] [= H2].
      apply andb_true_iff in H1 as [_ H1%Z.eqb_eq]. apply andb_true_iff in H2 as [_ H2%Z.eqb_eq]. lia.
  - assert (Hk : intlvBits first = 0) by (unfold interleaved in Ei; by apply negb_false_iff, Z.eqb_eq in Ei).
    rewrite Hk in Hlen. assert (rest = []) as -> by (destruct rest; [done | unfold vsize in Hlen; cbn in Hlen; lia]).
    assert (Hc : contains first a = Ok inr) by (unfold contains; by rewrite Ei). split_and!.
    + intros r ->%list_elem_of_singleton. eauto.
    + rewrite <- Hc. split; [intros H; by exists 0%nat, first | by intros ([|i] & r & Hi & H); [injection Hi as <-|]].
    + intros [|i] [|j] ri rj Hi Hj; done.
Qed.

Definition ex_stripe (i : Z) : AddrRange := mkAddrRange 0 (2 ^ 20 - 1) 7 20 2 i.

Lemma ex_stripe_ok i : range_ok (ex_stripe i).
Proof. split; cbn; intros; split_and?; lia. Qed.

(** ** Offsets *)

(** [removeIntlvBits] keeps the bits below the slice and moves the ones above it down. *)
Lemma removeIntlvBits_spec r a : range_ok r -> interleaved r = true -> 0 <= a < 2 ^ 64 ->
  exists x, removeIntlvBits r a = Ok x /\ 0 <= x < 2 ^ 64 /\
    forall j, 0 <= j -> Z.testbit x j =
      if j <? intlvHighBit r - intlvBits r + 1 then Z.testbit a j else (j <? 64) && Z.testbit a (j + intlvBits r).
Proof.
  intros Hr Hi Ha. pose proof (interleaved_bits r Hr Hi) as Hk. destruct (ro_slice r Hr Hi) as [Hl Hh].
  unfold removeIntlvBits, insertBits, shift_ok. cbn [Z.leb Z.ltb andb Z.compare]. set (l := intlvHighBit r - intlvBits r + 1) in *.
  replace (l - 1 - 0 + 1) with l by lia. rewrite mask_ones, !Z.shiftl_0_r by lia. rewrite (u64_small a) by done.
  eexists. split; [done|]. set (x := Z.lor _ _).
  assert (Hx : forall j, 0 <= j -> Z.testbit x j = if j <? l then Z.testbit a j else (j <? 64) && Z.testbit a (j + intlvBits r)).
  { intros j Hj. unfold x. rewrite Z.lor_spec, !Z.land_spec, Z.lxor_spec, u64_testbit, !ones_testbit, Z.shiftr_spec by lia.
    destruct (Z.ltb_spec j l), (Z.ltb_spec j 64); try lia; cbn [andb xorb];
      rewrite ?andb_true_r, ?andb_false_r, ?orb_false_r; done. }
  split; [|done]. assert (E : x = x mod 2 ^ 64).
  { apply Z.bits_inj'. intros j Hj. destruct (Z.ltb_spec j 64).
    - by rewrite Z.mod_pow2_bits_low by lia.
    - rewrite Z.mod_pow2_bits_high, Hx by lia. rewrite (proj2 (Z.ltb_ge j l)), (proj2 (Z.ltb_ge j 64)) by lia. done. }
  rewrite E. apply Z.mod_pos_bound. lia.
Qed.

Lemma high_bit_zero a j : 0 <= a < 2 ^ 64 -> 64 <= j -> Z.testbit a j = false.
Proof.
  intros Ha Hj. destruct (decide (a = 0)) as [->|]; [apply Z.bits_0|]. apply Z.bits_above_log2; [lia|].
  apply Z.lt_le_trans with 64; [|done]. apply Z.log2_lt_pow2; lia.
Qed.

Lemma contains_interleaved r a : range_ok r -> interleaved r = true -> contains r a = Ok true ->
  0 <= a < 2 ^ 64 /\ select r a = Ok (intlvMatch r).
Proof.
  intros Hr Hi H. pose proof (ro_bounds _ Hr). unfold contains in H. rewrite Hi in H. cbn [negb] in H.
  destruct (Z.leb_spec (ar_start r) a), (Z.leb_spec a (ar_end r)); cbn [andb] in H; try done.
  split; [lia|]. apply bind_Ok in H as (s & Hs & [= ->%Z.eqb_eq]). done.
Qed.

Lemma u64_sub_inj x y z : u64 (x - z) = u64 (y - z) -> 0 <= x < 2 ^ 64 -> 0 <= y < 2 ^ 64 -> x = y.
Proof.
  intros E Hx Hy. unfold u64 in E. rewrite <- (Z.mod_small x (2 ^ 64)), <- (Z.mod_small y (2 ^ 64)) by done.
  replace x with (x - z + z) by lia. replace y with (y - z + z) by lia.
  by rewrite <- (Zplus_mod_idemp_l (x - z)), E, Zplus_mod_idemp_l.
Qed.

(** Two addresses of one stripe that agree outside the interleaving slice are equal. *)
Lemma same_outside_slice r a b x : range_ok r -> interleaved r = true -> 0 <= a < 2 ^ 64 -> 0 <= b < 2 ^ 64 ->
  let rest c j := if j <? intlvHighBit r - intlvBits r + 1 then Z.testbit c j else (j <? 64) && Z.testbit c (j + intlvBits r) in
  (forall j, 0 <= j -> Z.testbit x j = rest a j) -> (forall j, 0 <= j -> Z.testbit x j = rest b j) ->
  (forall j, 0 <= j < intlvBits r ->
     xorb (Z.testbit a (intlvHighBit r - intlvBits r + 1 + j)) (hashed r && Z.testbit a (xorHighBit r - intlvBits r + 1 + j)) =
     xorb (Z.testbit b (intlvHighBit r - intlvBits r + 1 + j)) (hashed r && Z.testbit b (xorHighBit r - intlvBits r + 1 + j))) ->
  a = b.
Proof.
  intros Hr Hi Ha Hb rest Hxa Hxb Hsel. pose proof (interleaved_bits r Hr Hi) as Hk. destruct (ro_slice r Hr Hi) as [Hl Hh].
  unfold rest in *. clear rest. set (l := intlvHighBit r - intlvBits r + 1) in *. set (k := intlvBits r) in *.
  assert (Hout : forall j, 0 <= j -> j < l \/ l + k <= j -> Z.testbit a j = Z.testbit b j).
  { intros j Hj [Hlt | Hge].
    - specialize (Hxa j Hj). rewrite (Hxb j Hj) in Hxa. by rewrite !(proj2 (Z.ltb_lt j l)) in Hxa by done.
    - destruct (Z.lt_ge_cases j 64) as [H64|]; [|by rewrite !high_bit_zero].
      specialize (Hxa (j - k) ltac:(lia)). rewrite (Hxb (j - k) ltac:(lia)) in Hxa.
      rewrite !(proj2 (Z.ltb_ge (j - k) l)), !(proj2 (Z.ltb_lt (j - k) 64)) in Hxa by lia. cbn [andb] in Hxa.
      by replace (j - k + k) with j in Hxa by lia. }
  apply Z.bits_inj'. intros j Hj. destruct (decide (j < l \/ l + k <= j)) as [Ho|Ho]; [by apply Hout|].
  specialize (Hsel (j - l) ltac:(lia)). replace (l + (j - l)) with j in Hsel by lia.
  destruct (hashed r) eqn:Eh; cbn [andb] in Hsel; [|by rewrite !xorb_false_r in Hsel].
  destruct (ro_xor r Hr Eh) as (Hxl & Hxh & Hd). fold k in Hxl, Hd.
  rewrite (Hout (xorHighBit r - k + 1 + (j - l))) in Hsel by lia.
  by destruct (Z.testbit a j), (Z.testbit b j), (Z.testbit b (xorHighBit r - k + 1 + (j - l))).
Qed.

(** Within a range, the offset of an address determines it: two addresses that a range
    contains and that have the same offset are equal, with or without interleaving and
    xor-hashing, although the offset leaves out the interleaving bits. *)
Theorem getOffset_injective r a b off :
  range_ok r -> contains r a = Ok true -> contains r b = Ok true ->
  getOffset r a = Ok off -> getOffset r b = Ok off -> a = b.
Proof.
  intros Hr Ca Cb Oa Ob. pose proof (ro_bounds _ Hr) as Hbd.
  assert (Hin : forall c, contains r c = Ok true -> ar_start r <= c <= ar_end r).
  { intros c Hc. unfold contains in Hc. destruct (Z.leb_spec (ar_start r) c), (Z.leb_spec c (ar_end r)); cbn [andb] in Hc;
      destruct (interleaved r); cbn [negb] in Hc; (done || lia). }
  pose proof (Hin a Ca) as Ia. pose proof (Hin b Cb) as Ib. unfold getOffset in Oa, Ob.
  rewrite !(proj2 (Z.leb_le _ _)) in Oa by lia. rewrite !(proj2 (Z.leb_le _ _)) in Ob by lia. cbn [andb negb] in Oa, Ob.
  destruct (interleaved r) eqn:Ei.
  - destruct (contains_interleaved r a Hr Ei Ca) as [Ha Sa]. destruct (contains_interleaved r b Hr Ei Cb) as [Hb Sb].
    destruct (removeIntlvBits_spec r a Hr Ei Ha) as (x & Hx & Hxr & Hxb). destruct (removeIntlvBits_spec r b Hr Ei Hb) as (y & Hy & Hyr & Hyb).
    rewrite Hx in Oa. rewrite Hy in Ob. cbn [mbind result_bind] in Oa, Ob. apply bind_Ok in Oa as (z & Hz & Oa). rewrite Hz in Ob. cbn [mbind result_bind] in Ob.
    assert (x = y) as <- by (apply Ok_inj in Oa, Ob; apply (u64_sub_inj x y z); congruence || done).
    destruct (select_spec r a Hr Ei) as (sa & Hsa & _ & Bsa). destruct (select_spec r b Hr Ei) as (sb & Hsb & _ & Bsb).
    rewrite Sa in Hsa. rewrite Sb in Hsb. apply Ok_inj in Hsa as <-. apply Ok_inj in Hsb as <-.
    apply (same_outside_slice r a b x Hr Ei Ha Hb Hxb Hyb). intros j Hj. by rewrite <- Bsa, <- Bsb.
  - apply Ok_inj in Oa, Ob. rewrite u64_small in Oa, Ob by lia. lia.
Qed.

Lemma getOffset_injective_witness : getOffset (ex_stripe 2) 4242 <> getOffset (ex_stripe 2) 8338.
Proof.
  intros E. assert (H : 4242 = 8338); [|discriminate H].
  apply (getOffset_injective (ex_stripe 2) 4242 8338 1042); [apply ex_stripe_ok | reflexivity | reflexivity | reflexivity | rewrite <- E; reflexivity].
Defined.
