(* ===== verification/BaseNetwork.v ===== *)
(** * [Network] (mem/ruby/network/Network.hh, Network.cc)

    What garnet and the simple network share: the static message sizes, the protocol's message
    buffers per node and virtual network, the kinds of the virtual networks and the map from
    addresses to nodes.  A buffer is named by its position among the system's buffers; a null
    pointer is [None]. *)

From S2P Require Import Prelude Flit NetDest AddrRange.
Local Open Scope Z_scope.

(** A controller of the address map: its machine type, number and ranges. *)
Record AddrMapNode := mkAddrMapNode { amn_type : Z; amn_id : Z; amn_ranges : list AddrRange }.

Record Network := mkNetwork {
  net_nodes : Z;
  net_virtual_networks : Z;
  m_control_msg_size : Z;
  m_data_msg_size : Z;
  net_ordered : list bool;
  m_vnet_type_names : list string;
  m_toNetQueues : list (list (option Z));
  m_fromNetQueues : list (list (option Z));
  addrMap : list AddrMapNode
}.

Section Net.
Context {MT : MachineTypes}.

(** The constructor; a controller without ranges is not entered in the address map. *)
Definition Network_new (number_of_virtual_networks control_msg_size : Z) (controllers : list AddrMapNode) : result Network :=
  let m_nodes := u32 (MachineType_base_number MachineType_NUM) in
  assert_ (negb (m_nodes =? 0)) ;;
  assert_ (negb (number_of_virtual_networks =? 0)) ;;
  let v := Z.to_nat number_of_virtual_networks in
  Ok (mkNetwork m_nodes number_of_virtual_networks control_msg_size 0 (replicate v false) (replicate v EmptyString)
        (replicate (Z.to_nat m_nodes) []) (replicate (Z.to_nat m_nodes) [])
        (filter (fun c => amn_ranges c <> []) controllers)).

(** [init]: the data messages carry one cache block. *)
Definition Network_init (block_size_bytes : Z) (n : Network) : Network :=
  mkNetwork (net_nodes n) (net_virtual_networks n) (m_control_msg_size n) (u32 (block_size_bytes + m_control_msg_size n))
    (net_ordered n) (m_vnet_type_names n) (m_toNetQueues n) (m_fromNetQueues n) (addrMap n).

Definition MessageSizeType_to_int (n : Network) (size_type : MessageSizeType) : result Z :=
  match size_type with
  | MessageSizeType_Control | MessageSizeType_Request_Control | MessageSizeType_Reissue_Control
  | MessageSizeType_Response_Control | MessageSizeType_Writeback_Control | MessageSizeType_Broadcast_Control
  | MessageSizeType_Multicast_Control | MessageSizeType_Forwarded_Control | MessageSizeType_Invalidate_Control
  | MessageSizeType_Unblock_Control | MessageSizeType_Persistent_Control | MessageSizeType_Completion_Control =>
      Ok (m_control_msg_size n)
  | MessageSizeType_Data | MessageSizeType_Response_Data | MessageSizeType_ResponseLocal_Data
  | MessageSizeType_ResponseL2hit_Data | MessageSizeType_Writeback_Data => Ok (m_data_msg_size n)
  | MessageSizeType_NUM => Err EPanic
  end.

Definition with_queues (to from : list (list (option Z))) (n : Network) : Network :=
  mkNetwork (net_nodes n) (net_virtual_networks n) (m_control_msg_size n) (m_data_msg_size n) (net_ordered n)
    (m_vnet_type_names n) to from (addrMap n).

Definition checkNetworkAllocation (id : Z) (ordered : bool) (network_num : Z) (vnet_type : string) (n : Network) : result Network :=
  fatal_if (net_nodes n <=? id) ;;
  fatal_if (net_virtual_networks n <=? u32 network_num) ;;
  ord ← (if ordered then vec_set (net_ordered n) network_num true else Ok (net_ordered n));
  names ← vec_set (m_vnet_type_names n) network_num vnet_type;
  Ok (mkNetwork (net_nodes n) (net_virtual_networks n) (m_control_msg_size n) (m_data_msg_size n) ord names
        (m_toNetQueues n) (m_fromNetQueues n) (addrMap n)).

(** The queues of one node, extended with null pointers up to [network_num]. *)
Definition put_queue (network_num b : Z) (queues : list (option Z)) : result (list (option Z)) :=
  vec_set (queues ++ replicate (Z.to_nat (network_num + 1) - length queues) None) network_num (Some b).

Definition setToNetQueue (id : Z) (ordered : bool) (network_num : Z) (vnet_type : string) (b : Z) (n : Network) : result Network :=
  n1 ← checkNetworkAllocation id ordered network_num vnet_type n;
  qs ← vec_update (m_toNetQueues n1) id (put_queue network_num b);
  Ok (with_queues qs (m_fromNetQueues n1) n1).

Definition setFromNetQueue (id : Z) (ordered : bool) (network_num : Z) (vnet_type : string) (b : Z) (n : Network) : result Network :=
  n1 ← checkNetworkAllocation id ordered network_num vnet_type n;
  qs ← vec_update (m_fromNetQueues n1) id (put_queue network_num b);
  Ok (with_queues (m_toNetQueues n1) qs n1).

(** The first range of a list that contains the address. *)
Fixpoint any_contains (ranges : list AddrRange) (addr : Z) : result bool :=
  match ranges with
  | [] => Ok false
  | r :: ranges' => b ← contains r addr; if b : bool then Ok true else any_contains ranges' addr
  end.

Fixpoint find_node (nodes : list AddrMapNode) (addr mtype : Z) : result (option Z) :=
  match nodes with
  | [] => Ok None
  | c :: nodes' =>
      if amn_type c =? mtype then
        b ← any_contains (amn_ranges c) addr;
        if b : bool then Ok (Some (amn_id c)) else find_node nodes' addr mtype
      else find_node nodes' addr mtype
  end.

(** The node responsible for an address, or the number of nodes of the type if there is none. *)
Definition addressToNodeID (addr mtype : Z) (n : Network) : result Z :=
  o ← find_node (addrMap n) addr mtype;
  match o with Some id => Ok id | None => Ok (MachineType_base_count mtype) end.
End Net.

(** ** The address map *)

Lemma any_contains_total ranges addr : (forall r, r ∈ ranges -> exists b, contains r addr = Ok b) ->
  exists b, any_contains ranges addr = Ok b /\ (b = true <-> exists r, r ∈ ranges /\ contains r addr = Ok true).
Proof.
  induction ranges as [|r l IH]; intros H; cbn [any_contains].
  - exists false. split; [done|]. split; [done|]. by intros (r & ?%elem_of_nil & _).
  - destruct (H r) as [b Hb]; [by left|]. rewrite Hb. cbn [mbind result_bind]. destruct b.
    + exists true. split; [done|]. split; [|done]. intros _. exists r. split; [by left | done].
    + destruct IH as (b & -> & Hi); [intros r' ?; apply H; by right|]. exists b. split; [done|]. rewrite Hi. split.
      * intros (r' & ? & ?). exists r'. split; [by right | done].
      * intros (r' & [->|?]%elem_of_cons & ?); [congruence | by exists r'].
Qed.

(** A controller owns an address if one of its ranges contains it. *)
Definition owns (addr mtype : Z) (c : AddrMapNode) : Prop :=
  amn_type c = mtype /\ exists r, r ∈ amn_ranges c /\ contains r addr = Ok true.

Lemma find_node_owner nodes addr mtype id :
  (forall c r, c ∈ nodes -> amn_type c = mtype -> r ∈ amn_ranges c -> exists b, contains r addr = Ok b) ->
  (exists c, c ∈ nodes /\ owns addr mtype c) -> (forall c, c ∈ nodes -> owns addr mtype c -> amn_id c = id) ->
  find_node nodes addr mtype = Ok (Some id).
Proof.
  induction nodes as [|c nodes IH]; intros Htot Hex Huniq; [by destruct Hex as (c & ?%elem_of_nil & _)|]. cbn [find_node].
  assert (Hrest : ~ owns addr mtype c -> find_node nodes addr mtype = Ok (Some id)).
  { intros Hc. apply IH.
    - intros c' r ?. apply Htot. by right.
    - destruct Hex as (c' & [->|?]%elem_of_cons & Ho); [done | eauto].
    - intros c' ?. apply Huniq. by right. }
  destruct (Z.eqb_spec (amn_type c) mtype) as [Et|Et]; [|apply Hrest; by intros [? _]].
  destruct (any_contains_total (amn_ranges c) addr) as (b & -> & Hb); [intros r ?; apply (Htot c r); [by left | done | done]|].
  cbn [mbind result_bind]. destruct b.
  - rewrite (Huniq c); [done | by left|]. split; [done | by apply Hb].
  - apply Hrest. intros [_ Ho]. by apply Hb in Ho.
Qed.

(** Controller [i] of type [mtype] is responsible for stripe [i]. *)
Definition stripe_nodes (mtype : Z) (ranges : list AddrRange) : list AddrMapNode :=
  imap (fun i r => mkAddrMapNode mtype (Z.of_nat i) [r]) ranges.

Lemma stripe_nodes_elem mtype ranges c : c ∈ stripe_nodes mtype ranges <->
  exists i r, ranges !! i = Some r /\ c = mkAddrMapNode mtype (Z.of_nat i) [r].
Proof.
  unfold stripe_nodes. rewrite list_elem_of_lookup. split.
  - intros (i & Hi). rewrite list_lookup_imap in Hi. destruct (ranges !! i) as [r|] eqn:E; [|done]. injection Hi as <-. eauto.
  - intros (i & r & Hi & ->). exists i. by rewrite list_lookup_imap, Hi.
Qed.

(** C23: An address of an interleaved memory is routed to the controller of its stripe.  When the
    controllers of a type hold the stripes of a range, in whatever order the hash map keeps
    them and among whatever controllers of other types, every address of the range is mapped
    to the number of the one controller whose range contains it. *)
Theorem addressToNodeID_interleaved {MT : MachineTypes} net mtype ranges first m others addr :
  AddrRange_merge ranges = Ok m -> head ranges = Some first -> range_ok first ->
  addrMap net ≡ₚ stripe_nodes mtype ranges ++ others -> Forall (fun c => amn_type c <> mtype) others ->
  contains m addr = Ok true ->
  exists i r, ranges !! i = Some r /\ contains r addr = Ok true /\ addressToNodeID addr mtype net = Ok (Z.of_nat i).
Proof.
  intros Hm Hh Hr Hp Hoth Hc. destruct (stripes_partition ranges first m addr Hm Hh Hr) as (Htot & Hiff & Huniq).
  destruct (proj1 Hiff Hc) as (i & r & Hi & Hcr). exists i, r. split; [done|]. split; [done|].
  assert (Hin : forall c, c ∈ addrMap net -> amn_type c = mtype -> exists j rj, ranges !! j = Some rj /\ c = mkAddrMapNode mtype (Z.of_nat j) [rj]).
  { intros c Hcin Et. rewrite Hp in Hcin. apply elem_of_app in Hcin as [Hcin|Hcin]; [by apply stripe_nodes_elem|].
    rewrite Forall_forall in Hoth. by destruct (Hoth c Hcin). }
  unfold addressToNodeID. rewrite (find_node_owner _ addr mtype (Z.of_nat i)); [done | | |].
  - intros c rc Hcin Et Hrc. destruct (Hin c Hcin Et) as (j & rj & Hj & ->). apply Htot. apply list_elem_of_singleton in Hrc as ->.
    apply list_elem_of_lookup. eauto.
  - exists (mkAddrMapNode mtype (Z.of_nat i) [r]). split.
    + rewrite Hp. apply elem_of_app. left. apply stripe_nodes_elem. eauto.
    + split; [done|]. exists r. split; [by left | done].
  - intros c Hcin [Et (rc & Hrc & Hcc)]. destruct (Hin c Hcin Et) as (j & rj & Hj & ->). apply list_elem_of_singleton in Hrc as ->.
    cbn. f_equal. by apply (Huniq j i rj r).
Qed.

Definition ex_net_types : MachineTypes :=
  {| MachineType_NUM := 1; MachineType_base_number := fun m => 4 * m; MachineType_base_count := fun _ => 4;
     MachineType_base_level := fun m => m; MachineType_from_base_level := fun m => m |}.
Definition ex_mapped_net : Network :=
  mkNetwork 4 1 8 72 [false] [EmptyString] [] [] (rev (stripe_nodes 0 (map ex_stripe [0; 1; 2; 3]))).

Lemma addressToNodeID_interleaved_witness : exists i r, map ex_stripe [0; 1; 2; 3] !! i = Some r /\
  contains r 4242 = Ok true /\ @addressToNodeID ex_net_types 4242 0 ex_mapped_net = Ok (Z.of_nat i).
Proof.
  apply (@addressToNodeID_interleaved ex_net_types ex_mapped_net 0 (map ex_stripe [0; 1; 2; 3]) (ex_stripe 0) (RangeIn 0 (2 ^ 20 - 1)) [] 4242);
    [reflexivity | reflexivity | apply ex_stripe_ok | rewrite app_nil_r; symmetry; apply Permutation_rev | constructor | reflexivity].
Defined.
