(* ===== verification/PerfectSwitch.v ===== *)
(** * [PerfectSwitch] (mem/ruby/network/simple/PerfectSwitch.hh, PerfectSwitch.cc)

    The crossbar of a switch of the simple network: every ready message of an input buffer is
    copied to the output buffers of the links that lead to its destinations, all of them or
    none.  Message buffers are shared between switches, throttles and controllers; they live
    in a store and are named by their position in it ([None] is a null pointer).  [rnd] is the
    stream of the random generator's draws. *)

From S2P Require Import Prelude Heap RubySet NetDest Flit Consumer MessageBuffer.
Local Open Scope Z_scope.

(** ** The store of message buffers *)

(** The buffers, the wakeups asked for, the calls of [storeEventInfo] to hand over, and the
    number of draws made. *)
Record World := mkWorld {
  w_bufs : list MessageBuffer;
  w_events : list Event;
  w_infos : list (ConsumerRef * Z);
  w_draws : nat
}.

Definition with_w_bufs (v : list MessageBuffer) (w : World) : World := mkWorld v (w_events w) (w_infos w) (w_draws w).
Definition add_events (e : list Event) (i : list (ConsumerRef * Z)) (w : World) : World :=
  mkWorld (w_bufs w) (w_events w ++ e) (w_infos w ++ i) (w_draws w).
Definition drawn (w : World) : World := mkWorld (w_bufs w) (w_events w) (w_infos w) (S (w_draws w)).

(** Dereferencing a buffer pointer. *)
Definition deref (p : option Z) : result Z := match p with Some b => Ok b | None => Err EIndex end.
Definition get_buffer (b : Z) (w : World) : result MessageBuffer := vec_get (w_bufs w) b.
Definition set_buffer (b : Z) (v : MessageBuffer) (w : World) : result World :=
  l ← vec_set (w_bufs w) b v; Ok (with_w_bufs l w).

(** A pointer in a table of ports and virtual networks. *)
Definition port_buffer (t : list (list (option Z))) (port vnet : Z) : result Z :=
  row ← vec_get t port; p ← vec_get row vnet; deref p.

Section Ops.
Context (ruby_randomization warmup_enabled : bool) (rnd : nat -> Z) (now : Z).

Definition buf_slot_available (b : Z) (w : World) : result (bool * World) :=
  v ← get_buffer b w;
  let '(ok, v') := areNSlotsAvailable 1 now v in
  w' ← set_buffer b v' w; Ok (ok, w').

Definition buf_get_size (b : Z) (w : World) : result (Z * World) :=
  v ← get_buffer b w;
  let '(n, v') := getSize now v in
  w' ← set_buffer b v' w; Ok (n, w').

Definition buf_dequeue (b : Z) (w : World) : result World :=
  v ← get_buffer b w;
  '(_, v', evs) ← dequeue now now true v;
  w' ← set_buffer b v' w; Ok (add_events evs [] w').

(** [enqueue] wakes the consumer and tells it the buffer's virtual network. *)
Definition buf_enqueue (b : Z) (m : Message) (delta : Z) (w : World) : result World :=
  v ← get_buffer b w;
  '(v', evs) ← enqueue ruby_randomization warmup_enabled (rnd (w_draws w)) m now delta v;
  w' ← set_buffer b v' w;
  Ok (drawn (add_events evs (map (fun e => (e.1, m_vnet_id v)) evs) w')).

(** ** The switch *)

Record LinkOrder := mkLinkOrder { lo_link : Z; lo_value : Z }.

Record PerfectSwitch := mkPerfectSwitch {
  ps_switch_id : Z;
  ps_in : list (list (option Z));
  ps_out : list (list (option Z));
  ps_routing_table : list NetDest;
  m_link_order : list LinkOrder;
  ps_virtual_networks : Z;
  m_round_robin_start : Z;
  ps_wakeups_wo_switch : Z;
  m_pending_message_count : list Z
}.

Definition PRIORITY_SWITCH_LIMIT : Z := 128.

Definition with_m_link_order (v : list LinkOrder) (s : PerfectSwitch) : PerfectSwitch :=
  mkPerfectSwitch (ps_switch_id s) (ps_in s) (ps_out s) (ps_routing_table s) v (ps_virtual_networks s)
    (m_round_robin_start s) (ps_wakeups_wo_switch s) (m_pending_message_count s).
Definition with_m_pending_message_count (v : list Z) (s : PerfectSwitch) : PerfectSwitch :=
  mkPerfectSwitch (ps_switch_id s) (ps_in s) (ps_out s) (ps_routing_table s) (m_link_order s) (ps_virtual_networks s)
    (m_round_robin_start s) (ps_wakeups_wo_switch s) v.
Definition with_counters (rr wakeups : Z) (s : PerfectSwitch) : PerfectSwitch :=
  mkPerfectSwitch (ps_switch_id s) (ps_in s) (ps_out s) (ps_routing_table s) (m_link_order s) (ps_virtual_networks s)
    rr wakeups (m_pending_message_count s).
Definition with_ports (i o : list (list (option Z))) (t : list NetDest) (lo : list LinkOrder) (s : PerfectSwitch) : PerfectSwitch :=
  mkPerfectSwitch (ps_switch_id s) i o t lo (ps_virtual_networks s) (m_round_robin_start s) (ps_wakeups_wo_switch s)
    (m_pending_message_count s).

Definition PerfectSwitch_new (sid virt_nets : Z) : PerfectSwitch :=
  mkPerfectSwitch sid [] [] [] [] virt_nets 0 0 [].

Definition PerfectSwitch_init (s : PerfectSwitch) : PerfectSwitch :=
  with_m_pending_message_count (m_pending_message_count s ++ replicate (Z.to_nat (ps_virtual_networks s)) 0) s.

(** The loop of [addInPort] over the buffers of the port. *)
Fixpoint connect_inputs (c : ConsumerRef) (port i : Z) (in_ : list (option Z)) (w : World) : result World :=
  match in_ with
  | [] => Ok w
  | None :: l => connect_inputs c port (i + 1) l w
  | Some b :: l =>
      v ← get_buffer b w;
      v' ← setConsumer c v;
      w' ← set_buffer b (setVnet i (setIncomingLink port v')) w;
      connect_inputs c port (i + 1) l w'
  end.

Definition ps_addInPort (in_ : list (option Z)) (s : PerfectSwitch) (w : World) : result (PerfectSwitch * World) :=
  let port := vsize (ps_in s) in
  w' ← connect_inputs (CPerfectSwitch (ps_switch_id s)) port 0 in_ w;
  Ok (with_ports (ps_in s ++ [in_]) (ps_out s) (ps_routing_table s) (m_link_order s) s, w').

Definition ps_addOutPort (out : list (option Z)) (routing_table_entry : NetDest) (s : PerfectSwitch) : PerfectSwitch :=
  with_ports (ps_in s) (ps_out s ++ [out]) (ps_routing_table s ++ [routing_table_entry])
    (m_link_order s ++ [mkLinkOrder (vsize (ps_out s)) 0]) s.

Definition storeEventInfo (info : Z) (s : PerfectSwitch) : result PerfectSwitch :=
  l ← vec_modify (m_pending_message_count s) info (fun c => c + 1); Ok (with_m_pending_message_count l s).

(** ** Routing *)

(** Ascending by value; [std::sort] is free in the order of equal values. *)
Fixpoint insert_link (l : LinkOrder) (ls : list LinkOrder) : list LinkOrder :=
  match ls with
  | [] => [l]
  | x :: ls' => if lo_value l <? lo_value x then l :: ls else x :: insert_link l ls'
  end.
Definition sort_links (ls : list LinkOrder) : list LinkOrder := foldr insert_link [] ls.

(** The number of messages waiting at an output port, over all virtual networks. *)
Definition out_queue_length (s : PerfectSwitch) (out : Z) (w : World) : result (Z * World) :=
  for_range (Z.to_nat (ps_virtual_networks s)) 0 (fun v '(n, w) =>
    b ← port_buffer (ps_out s) out v;
    '(k, w') ← buf_get_size b w;
    Ok (n + k, w')) (0, w).

(** How clogged each link is, with eight random bits. *)
Definition measure_link (s : PerfectSwitch) (out : Z) (st : list LinkOrder * World) : result (list LinkOrder * World) :=
  let '(lo, w) := st in
  '(n, w1) ← out_queue_length s out w;
  lo' ← vec_set lo out (mkLinkOrder out (Z.lor (Z.shiftl n 8) (rnd (w_draws w1))));
  Ok (lo', drawn w1).

(** [vnet_ordered] is the network's [m_ordered]. *)
Definition order_links (adaptive : bool) (vnet_ordered : list bool) (vnet : Z) (s : PerfectSwitch) (w : World)
  : result (PerfectSwitch * World) :=
  if adaptive then
    ordered ← vec_get vnet_ordered vnet;
    if ordered : bool then
      lo ← for_range (length (ps_out s)) 0 (fun out lo => vec_set lo out (mkLinkOrder out 0)) (m_link_order s);
      Ok (with_m_link_order lo s, w)
    else
      '(lo, w') ← for_range (length (ps_out s)) 0 (measure_link s) (m_link_order s, w);
      Ok (with_m_link_order (sort_links lo) s, w')
  else Ok (s, w).

Context {MT : MachineTypes}.

(** The links a message takes with the destinations each one is responsible for; the remaining
    destinations. *)
Definition route_step (table : list NetDest) (st : list (Z * NetDest) * NetDest) (o : LinkOrder)
  : result (list (Z * NetDest) * NetDest) :=
  let '(outs, msg_dsts) := st in
  dst ← vec_get table (lo_link o);
  hit ← intersectionIsNotEmpty msg_dsts dst;
  if negb hit then Ok (outs, msg_dsts)
  else
    d ← NetDest.AND msg_dsts dst;
    rest ← removeNetDest msg_dsts dst;
    Ok (outs ++ [(lo_link o, d)], rest).

Definition route_message (s : PerfectSwitch) (msg_dsts : NetDest) : result (list (Z * NetDest)) :=
  '(outs, rest) ← foldM (route_step (ps_routing_table s)) (m_link_order s) ([], msg_dsts);
  assert_ (NetDest.count rest =? 0) ;;
  Ok outs.

(** ** Moving messages *)

(** Is there room on every link?  All of them are asked. *)
Definition all_enough (s : PerfectSwitch) (vnet : Z) (outs : list (Z * NetDest)) (w : World) : result (bool * World) :=
  foldM (fun '(enough, w) o =>
    b ← port_buffer (ps_out s) o.1 vnet;
    '(ok, w') ← buf_slot_available b w;
    Ok (enough && ok, w')) outs (true, w).

(** Copies of the message, one per link, each with its own destinations. *)
Definition send_copy (s : PerfectSwitch) (vnet : Z) (m : Message) (w : World) (o : Z * NetDest) : result World :=
  b ← port_buffer (ps_out s) o.1 vnet;
  buf_enqueue b (with_destination o.2 m) 1 w.

(** One iteration of the loop over the ready messages of a buffer: [Brk] leaves it.  [dequeue]
    updates the delay of the message itself, which is sent on the first link; the other links
    get copies of the message as it was before. *)
Definition switch_message (adaptive : bool) (vnet_ordered : list bool) (buffer vnet : Z) (s : PerfectSwitch) (w : World)
  : result (ctl (PerfectSwitch * World) (PerfectSwitch * World)) :=
  v ← get_buffer buffer w;
  if negb (isReady now v) then Ok (Brk (s, w))
  else
    msg ← peekMsgPtr v;
    assert_ (vsize (m_link_order s) =? vsize (ps_routing_table s)) ;;
    assert_ (vsize (m_link_order s) =? vsize (ps_out s)) ;;
    '(s1, w1) ← order_links adaptive vnet_ordered vnet s w;
    outs ← route_message s1 (destination msg);
    '(enough, w2) ← all_enough s1 vnet outs w1;
    if negb enough then Ok (Brk (s1, add_events [(CPerfectSwitch (ps_switch_id s1), cyc_add now 1)] [] w2))
    else
      w3 ← buf_dequeue buffer w2;
      pend ← vec_modify (m_pending_message_count s1) vnet (fun c => c - 1);
      let s2 := with_m_pending_message_count pend s1 in
      first ← updateDelayedTicks now msg;
      w4 ← match outs with
           | [] => Ok w3
           | o :: outs' => w' ← send_copy s2 vnet first w3 o; foldM (send_copy s2 vnet msg) outs' w'
           end;
      Ok (Cont (s2, w4)).

Fixpoint switch_loop (fuel : nat) (adaptive : bool) (vnet_ordered : list bool) (buffer vnet : Z) (s : PerfectSwitch) (w : World)
  : result (PerfectSwitch * World) :=
  match fuel with
  | O => Err EFuel
  | S fuel' =>
      c ← switch_message adaptive vnet_ordered buffer vnet s w;
      match c with
      | Brk r => Ok r
      | Cont (s', w') => switch_loop fuel' adaptive vnet_ordered buffer vnet s' w'
      end
  end.

(** The loop runs at most once per message of the buffer, and once more to find it empty. *)
Definition operateMessageBuffer (adaptive : bool) (vnet_ordered : list bool) (buffer vnet : Z) (s : PerfectSwitch) (w : World)
  : result (PerfectSwitch * World) :=
  v ← get_buffer buffer w;
  switch_loop (S (length (m_prio_heap v))) adaptive vnet_ordered buffer vnet s w.

Definition next_in (n incoming : Z) : Z := if n <=? incoming + 1 then 0 else incoming + 1.

Definition operate_input (adaptive : bool) (vnet_ordered : list bool) (vnet : Z) (st : Z * PerfectSwitch * World) : result (Z * PerfectSwitch * World) :=
  let '(incoming0, s, w) := st in
  let incoming := next_in (vsize (ps_in s)) incoming0 in
  row ← vec_get (ps_in s) incoming;
  if vsize row <=? vnet then Ok (incoming, s, w)
  else
    p ← vec_get row vnet;
    match p with
    | None => Ok (incoming, s, w)
    | Some b => '(s', w') ← operateMessageBuffer adaptive vnet_ordered b vnet s w; Ok (incoming, s', w')
    end.

Definition ps_operateVnet (adaptive : bool) (vnet_ordered : list bool) (vnet : Z) (s : PerfectSwitch) (w : World)
  : result (PerfectSwitch * World) :=
  let incoming := m_round_robin_start s in
  let s1 := with_counters (next_in (vsize (ps_in s)) incoming) (ps_wakeups_wo_switch s) s in
  pending ← vec_get (m_pending_message_count s1) vnet;
  if 0 <? pending then
    '(_, s', w') ← for_range (length (ps_in s1)) 0 (fun _ st => operate_input adaptive vnet_ordered vnet st) (incoming, s1, w);
    Ok (s', w')
  else Ok (s1, w).

(** The virtual networks from the highest to the lowest, or in the other direction after
    [PRIORITY_SWITCH_LIMIT] wakeups. *)
Definition ps_wakeup (adaptive : bool) (vnet_ordered : list bool) (s : PerfectSwitch) (w : World) : result (PerfectSwitch * World) :=
  let wakeups := ps_wakeups_wo_switch s + 1 in
  let n := Z.to_nat (ps_virtual_networks s) in
  if PRIORITY_SWITCH_LIMIT <? wakeups then
    for_range n 0 (fun vnet '(s, w) => ps_operateVnet adaptive vnet_ordered vnet s w) (with_counters (m_round_robin_start s) 0 s, w)
  else
    for_range n 0 (fun k '(s, w) => ps_operateVnet adaptive vnet_ordered (ps_virtual_networks s - 1 - k) s w)
      (with_counters (m_round_robin_start s) wakeups s, w).
End Ops.
