(* ===== verification/Throttle.v ===== *)
(** * [Throttle] (mem/ruby/network/simple/Throttle.hh, Throttle.cc)

    The throttle of an output link of the simple network moves messages from the switch's
    intermediate buffers to the link's buffers, at most as many units per cycle as the link's
    bandwidth; a message that does not fit is moved and the units it still owes are carried to
    the next cycles. *)

From S2P Require Import Prelude Double Heap RubySet NetDest Flit Consumer MessageBuffer AddrRange BaseNetwork PerfectSwitch.
Local Open Scope Z_scope.

Definition MESSAGE_SIZE_MULTIPLIER : Z := 1000.
Definition BROADCAST_SCALING : Z := 1.

Record Throttle := mkThrottle {
  th_switch_id : Z;
  th_node : Z;
  th_in : list (option Z);
  th_out : list (option Z);
  m_vnets : Z;
  m_units_remaining : list Z;
  m_link_bandwidth_multiplier : Z;
  m_link_latency : Z;
  th_wakeups_wo_switch : Z;
  m_endpoint_bandwidth : Z;
  (** the statistic [m_msg_counts], as the list of counted messages *)
  th_msg_counts : list (MessageSizeType * Z);
  m_link_utilization_proxy : double
}.

Definition with_units (units : list Z) (counts : list (MessageSizeType * Z)) (t : Throttle) : Throttle :=
  mkThrottle (th_switch_id t) (th_node t) (th_in t) (th_out t) (m_vnets t) units (m_link_bandwidth_multiplier t)
    (m_link_latency t) (th_wakeups_wo_switch t) (m_endpoint_bandwidth t) counts (m_link_utilization_proxy t).
Definition with_usage (wakeups : Z) (proxy : double) (t : Throttle) : Throttle :=
  mkThrottle (th_switch_id t) (th_node t) (th_in t) (th_out t) (m_vnets t) (m_units_remaining t) (m_link_bandwidth_multiplier t)
    (m_link_latency t) wakeups (m_endpoint_bandwidth t) (th_msg_counts t) proxy.
Definition with_links (i o : list (option Z)) (vnets : Z) (units : list Z) (t : Throttle) : Throttle :=
  mkThrottle (th_switch_id t) (th_node t) i o vnets units (m_link_bandwidth_multiplier t) (m_link_latency t)
    (th_wakeups_wo_switch t) (m_endpoint_bandwidth t) (th_msg_counts t) (m_link_utilization_proxy t).

Definition Throttle_new (sID node link_latency link_bandwidth_multiplier endpoint_bandwidth : Z) : result Throttle :=
  assert_ (0 <? link_bandwidth_multiplier) ;;
  Ok (mkThrottle sID node [] [] 0 [] link_bandwidth_multiplier link_latency 0 endpoint_bandwidth [] (double_of_int 0)).

(** An [int]. *)
Definition getLinkBandwidth (t : Throttle) : Z := i32 (m_endpoint_bandwidth t * m_link_bandwidth_multiplier t).

(** Every incoming buffer wakes the throttle; a null pointer cannot be told to. *)
Fixpoint connect_links (c : ConsumerRef) (in_vec : list (option Z)) (w : World) : result World :=
  match in_vec with
  | [] => Ok w
  | p :: l =>
      b ← deref p;
      v ← get_buffer b w;
      v' ← setConsumer c v;
      w' ← set_buffer b v' w;
      connect_links c l w'
  end.

Definition addLinks (in_vec out_vec : list (option Z)) (t : Throttle) (w : World) : result (Throttle * World) :=
  assert_ (vsize in_vec =? vsize out_vec) ;;
  w' ← connect_links (CThrottle (th_switch_id t) (th_node t)) in_vec w;
  Ok (with_links (th_in t ++ in_vec) (th_out t ++ out_vec) (m_vnets t + vsize in_vec)
        (m_units_remaining t ++ replicate (length in_vec) 0) t, w').

Definition network_message_to_size (net : Network) (m : Message) : result Z :=
  bytes ← MessageSizeType_to_int net (messageSize m);
  let size := bytes * MESSAGE_SIZE_MULTIPLIER in
  if (1 <? BROADCAST_SCALING) && NetDest.isBroadcast (destination m) then Ok (size * BROADCAST_SCALING) else Ok size.

Section Ops.
Context (net : Network) (ruby_randomization warmup_enabled : bool) (rnd : nat -> Z) (now : Z).

(** What the loop over one virtual network changes: the bandwidth left, the units of the
    message in transfer, the counted messages and the buffers. *)
Record Transfer := mkTransfer { bw_remaining : Z; units : Z; counted : list (MessageSizeType * Z); tr_world : World }.

(** The loop's condition; the slot is asked for only if there is something to move. *)
Definition can_transfer (in_ out : Z) (st : Transfer) : result (bool * Transfer) :=
  if negb (0 <? bw_remaining st) then Ok (false, st)
  else
    v ← get_buffer in_ (tr_world st);
    if negb (isReady now v || (0 <? units st)) then Ok (false, st)
    else
      '(ok, w) ← buf_slot_available now out (tr_world st);
      Ok (ok, mkTransfer (bw_remaining st) (units st) (counted st) w).

(** Start a new message if the previous one is done. *)
Definition start_message (vnet link_latency in_ out : Z) (st : Transfer) : result Transfer :=
  v ← get_buffer in_ (tr_world st);
  if (units st =? 0) && isReady now v then
    msg ← peekMsgPtr v;
    size ← network_message_to_size net msg;
    w1 ← buf_dequeue now in_ (tr_world st);
    moved ← updateDelayedTicks now msg;
    w2 ← buf_enqueue ruby_randomization warmup_enabled rnd now out moved link_latency w1;
    Ok (mkTransfer (bw_remaining st) (units st + size) (counted st ++ [(messageSize msg, vnet)]) w2)
  else Ok st.

Definition spend_bandwidth (st : Transfer) : Transfer :=
  let diff := units st - bw_remaining st in
  mkTransfer (Z.max 0 (- diff)) (Z.max 0 diff) (counted st) (tr_world st).

Fixpoint transfer_loop (fuel : nat) (vnet link_latency in_ out : Z) (st : Transfer) : result Transfer :=
  match fuel with
  | O => Err EFuel
  | S fuel' =>
      '(go, st1) ← can_transfer in_ out st;
      if go : bool then
        st2 ← start_message vnet link_latency in_ out st1;
        transfer_loop fuel' vnet link_latency in_ out (spend_bandwidth st2)
      else Ok st1
  end.

(** The rest of the transfer in progress and every waiting message take one iteration each. *)
Definition th_operateVnet (vnet : Z) (in_ out : option Z) (bw : Z) (schedule_wakeup : bool) (t : Throttle) (w : World)
  : result (Z * bool * Throttle * World) :=
  match in_, out with
  | Some i, Some o =>
      u ← vec_get (m_units_remaining t) vnet;
      assert_ (0 <=? u) ;;
      v ← get_buffer i w;
      st ← transfer_loop (length (m_prio_heap v) + 3) vnet (m_link_latency t) i o (mkTransfer bw u (th_msg_counts t) w);
      us ← vec_set (m_units_remaining t) vnet (units st);
      let t' := with_units us (counted st) t in
      v' ← get_buffer i (tr_world st);
      if (0 <? bw_remaining st) && (isReady now v' || (0 <? units st)) then
        '(ok, w') ← buf_slot_available now o (tr_world st);
        Ok (bw_remaining st, schedule_wakeup || negb ok, t', w')
      else Ok (bw_remaining st, schedule_wakeup, t', tr_world st)
  | _, _ => Ok (bw, schedule_wakeup, t, w)
  end.

Definition operate_nth (vnet : Z) (st : Z * bool * Throttle * World) : result (Z * bool * Throttle * World) :=
  let '(bw, sw, t, w) := st in
  i ← vec_get (th_in t) vnet;
  o ← vec_get (th_out t) vnet;
  th_operateVnet vnet i o bw sw t w.

(** [1.0 - bw_remaining / bandwidth] *)
Definition usage_ratio (bw total : Z) : double :=
  double_sub (double_of_int 1) (double_div (double_of_int bw) (double_of_int total)).

Definition th_wakeup (t0 : Throttle) (w0 : World) : result (Throttle * World) :=
  let total := getLinkBandwidth t0 in
  assert_ (0 <? total) ;;
  let wakeups := th_wakeups_wo_switch t0 + 1 in
  let up := PRIORITY_SWITCH_LIMIT <? wakeups in
  let t1 := with_usage (if up then 0 else wakeups) (m_link_utilization_proxy t0) t0 in
  let n := Z.to_nat (m_vnets t1) in
  '(bw, sw, t2, w2) ←
    (if up then for_range n 0 operate_nth (total, false, t1, w0)
     else for_range n 0 (fun k st => operate_nth (m_vnets t1 - 1 - k) st) (total, false, t1, w0));
  let t3 := with_usage (th_wakeups_wo_switch t2) (double_add (m_link_utilization_proxy t2) (usage_ratio bw total)) t2 in
  if (0 <? bw) && negb sw then Ok (t3, w2)
  else Ok (t3, add_events [(CThrottle (th_switch_id t3) (th_node t3), cyc_add now 1)] [] w2).

Definition th_clearStats (t : Throttle) : Throttle := with_usage (th_wakeups_wo_switch t) (double_of_int 0) t.
End Ops.
