(* ===== verification/SimpleNetwork.v ===== *)
(** * [Switch] and [SimpleNetwork] (mem/ruby/network/simple/Switch.cc, SimpleNetwork.cc, SimpleLink.cc)

    A switch has a [PerfectSwitch] and one [Throttle] per output port, joined by intermediate
    buffers.  The network owns the switches; its buffers are those of the controllers, of the
    switches' ports and of the internal links, all in one store.  As an instance of
    [NetworkOps], the network's links are made by the topology. *)

From S2P Require Import Prelude Double Heap RubySet NetDest Flit Consumer MessageBuffer AddrRange BaseNetwork.
From S2P Require Import Topology PerfectSwitch Throttle.
Local Open Scope Z_scope.

(** ** Switches *)

Record Switch := mkSwitch {
  sw_id : Z;
  m_perfect_switch : PerfectSwitch;
  m_throttles : list Throttle;
  m_port_buffers : list Z;
  sw_num_connected_buffers : Z
}.

Definition with_m_perfect_switch (p : PerfectSwitch) (s : Switch) : Switch :=
  mkSwitch (sw_id s) p (m_throttles s) (m_port_buffers s) (sw_num_connected_buffers s).
Definition with_m_throttles (l : list Throttle) (s : Switch) : Switch :=
  mkSwitch (sw_id s) (m_perfect_switch s) l (m_port_buffers s) (sw_num_connected_buffers s).

Definition Switch_new (id virt_nets : Z) (port_buffers : list Z) : Switch :=
  mkSwitch id (PerfectSwitch_new id virt_nets) [] port_buffers 0.

Definition Switch_init (s : Switch) : Switch := with_m_perfect_switch (PerfectSwitch_init (m_perfect_switch s)) s.

Definition sw_addInPort (in_ : list (option Z)) (s : Switch) (w : World) : result (Switch * World) :=
  '(p, w') ← ps_addInPort in_ (m_perfect_switch s) w; Ok (with_m_perfect_switch p s, w').

(** The next [n] unused buffers of a pool, one assertion per buffer. *)
Definition take_buffers (n : nat) (pool : list Z) (used : Z) : result (list (option Z) * Z) :=
  for_range n 0 (fun _ '(bs, u) =>
    assert_ (u <? vsize pool) ;;
    b ← vec_get pool u; Ok (bs ++ [Some b], u + 1)) ([], used).

Definition sw_addOutPort (endpoint_bandwidth : Z) (out : list (option Z)) (routing_table_entry : NetDest)
    (link_latency bw_multiplier : Z) (s : Switch) (w : World) : result (Switch * World) :=
  throttle ← Throttle_new (sw_id s) (vsize (m_throttles s)) link_latency bw_multiplier endpoint_bandwidth;
  '(intermediate, used) ← take_buffers (length out) (m_port_buffers s) (sw_num_connected_buffers s);
  let p := ps_addOutPort intermediate routing_table_entry (m_perfect_switch s) in
  '(throttle', w') ← addLinks intermediate out throttle w;
  Ok (mkSwitch (sw_id s) p (m_throttles s ++ [throttle']) (m_port_buffers s) used, w').

Definition sw_resetStats (s : Switch) : Switch := with_m_throttles (map th_clearStats (m_throttles s)) s.

(** A functional write in the buffers of a list; the number of messages written. *)
Definition buffers_functionalWrite (write : Message -> bool * Message) (bs : list Z) (w : World) : result (Z * World) :=
  foldM (fun '(n, w) b =>
    v ← get_buffer b w;
    let '(k, v') := functionalWrite write v in
    w' ← set_buffer b v' w; Ok (u32 (n + k), w')) bs (0, w).

Definition sw_functionalWrite (write : Message -> bool * Message) (s : Switch) (w : World) : result (Z * World) :=
  buffers_functionalWrite write (m_port_buffers s) w.

(** ** The network *)

Record SimpleNetwork := mkSimpleNetwork {
  sn_base : Network;
  m_switches : list Switch;
  m_int_link_buffers : list Z;
  sn_num_connected_buffers : Z;
  sn_endpoint_bandwidth : Z;
  m_adaptive_routing : bool;
  sn_world : World
}.

Definition with_switches (l : list Switch) (w : World) (n : SimpleNetwork) : SimpleNetwork :=
  mkSimpleNetwork (sn_base n) l (m_int_link_buffers n) (sn_num_connected_buffers n) (sn_endpoint_bandwidth n)
    (m_adaptive_routing n) w.
Definition with_connected (k : Z) (n : SimpleNetwork) : SimpleNetwork :=
  mkSimpleNetwork (sn_base n) (m_switches n) (m_int_link_buffers n) k (sn_endpoint_bandwidth n) (m_adaptive_routing n) (sn_world n).

Definition SimpleNetwork_new (base : Network) (endpoint_bandwidth : Z) (adaptive_routing : bool) (routers : list Switch)
    (int_link_buffers : list Z) (bufs : list MessageBuffer) : SimpleNetwork :=
  mkSimpleNetwork base routers int_link_buffers 0 endpoint_bandwidth adaptive_routing (mkWorld bufs [] [] 0).

(** What a simple link adds to a link: its bandwidth multiplier.  [SimpleExtLink] and
    [SimpleIntLink] are told apart by the casts. *)
Inductive simple_link := SimpleExtLink (m_bw_multiplier : Z) | SimpleIntLink (m_bw_multiplier : Z).

(** A change of switch [s] and the store. *)
Definition on_switch (s : Z) (f : Switch -> World -> result (Switch * World)) (n : SimpleNetwork) : result SimpleNetwork :=
  sw ← vec_get (m_switches n) s;
  '(sw', w) ← f sw (sn_world n);
  l ← vec_set (m_switches n) s sw';
  Ok (with_switches l w n).

(** From a switch to an endpoint node. *)
Definition sn_makeExtOutLink (src dest : Z) (l : BasicLink simple_link) (entry : NetDest) (n : SimpleNetwork) : result SimpleNetwork :=
  assert_ (dest <? net_nodes (sn_base n)) ;;
  assert_ (src <? vsize (m_switches n)) ;;
  match bl_link l with
  | SimpleExtLink bw =>
      queues ← vec_get (m_fromNetQueues (sn_base n)) dest;
      on_switch src (sw_addOutPort (sn_endpoint_bandwidth n) queues entry (bl_latency l) bw) n
  | SimpleIntLink _ => Err EAssert
  end.

(** From an endpoint node to a switch. *)
Definition sn_makeExtInLink (src dest : Z) (l : BasicLink simple_link) (entry : NetDest) (n : SimpleNetwork) : result SimpleNetwork :=
  assert_ (src <? net_nodes (sn_base n)) ;;
  queues ← vec_get (m_toNetQueues (sn_base n)) src;
  on_switch dest (sw_addInPort queues) n.

(** From a switch to a switch. *)
Definition sn_makeInternalLink (src dest : Z) (l : BasicLink simple_link) (entry : NetDest) (src_outport dst_inport : PortDirection)
    (n : SimpleNetwork) : result SimpleNetwork :=
  '(queues, used) ← take_buffers (Z.to_nat (net_virtual_networks (sn_base n))) (m_int_link_buffers n) (sn_num_connected_buffers n);
  match bl_link l with
  | SimpleIntLink bw =>
      n1 ← on_switch dest (sw_addInPort queues) (with_connected used n);
      on_switch src (sw_addOutPort (sn_endpoint_bandwidth n1) queues entry (bl_latency l) bw) n1
  | SimpleExtLink _ => Err EAssert
  end.

#[export] Instance SimpleNetwork_ops : NetworkOps simple_link SimpleNetwork := {|
  net_makeExtInLink := sn_makeExtInLink;
  net_makeExtOutLink := sn_makeExtOutLink;
  net_makeInternalLink := sn_makeInternalLink
|}.

Section Init.
Context {MT : MachineTypes}.

(** [SimpleNetwork::init] with the topology of the base class, after every switch's [init]. *)
Definition SimpleNetwork_init (fuel : nat) (block_size_bytes : Z) (t : Topology simple_link) (n : SimpleNetwork) : result SimpleNetwork :=
  let base := Network_init block_size_bytes (sn_base n) in
  createLinks fuel t
    (mkSimpleNetwork base (m_switches n) (m_int_link_buffers n) (sn_num_connected_buffers n) (sn_endpoint_bandwidth n)
       (m_adaptive_routing n) (sn_world n)).

(** ** Wakeups *)

Context (ruby_randomization warmup_enabled : bool) (rnd : nat -> Z) (now : Z).

(** The calls of [storeEventInfo] a wakeup has caused; only a [PerfectSwitch] listens. *)
Definition deliver_info (sws : list Switch) (i : ConsumerRef * Z) : result (list Switch) :=
  match i.1 with
  | CPerfectSwitch s =>
      vec_update sws s (fun sw => p ← storeEventInfo i.2 (m_perfect_switch sw); Ok (with_m_perfect_switch p sw))
  | _ => Ok sws
  end.

Definition deliver_infos (n : SimpleNetwork) : result SimpleNetwork :=
  sws ← foldM deliver_info (w_infos (sn_world n)) (m_switches n);
  let w := sn_world n in
  Ok (with_switches sws (mkWorld (w_bufs w) (w_events w) [] (w_draws w)) n).

Definition perfect_switch_wakeup (s : Z) (n : SimpleNetwork) : result SimpleNetwork :=
  n' ← on_switch s (fun sw w =>
    '(p, w') ← ps_wakeup ruby_randomization warmup_enabled rnd now (m_adaptive_routing n) (net_ordered (sn_base n))
                 (m_perfect_switch sw) w;
    Ok (with_m_perfect_switch p sw, w')) n;
  deliver_infos n'.

Definition throttle_wakeup (s port : Z) (n : SimpleNetwork) : result SimpleNetwork :=
  n' ← on_switch s (fun sw w =>
    t ← vec_get (m_throttles sw) port;
    '(t', w') ← th_wakeup (sn_base n) ruby_randomization warmup_enabled rnd now t w;
    l ← vec_set (m_throttles sw) port t';
    Ok (with_m_throttles l sw, w')) n;
  deliver_infos n'.

(** The wakeup of a consumer of the network, with the wakeups it asked for. *)
Definition simple_wakeup (c : ConsumerRef) (n : SimpleNetwork) : result (SimpleNetwork * list Event) :=
  n' ← match c with
       | CPerfectSwitch s => perfect_switch_wakeup s n
       | CThrottle s port => throttle_wakeup s port n
       | _ => Err EIndex
       end;
  let w := sn_world n' in
  Ok (with_switches (m_switches n') (mkWorld (w_bufs w) [] (w_infos w) (w_draws w)) n', w_events w).

(** A functional write reaches the buffers of the switches and of the internal links. *)
Definition sn_functionalWrite (write : Message -> bool * Message) (n : SimpleNetwork) : result (Z * SimpleNetwork) :=
  '(k, w) ← foldM (fun '(k, w) sw => '(j, w') ← sw_functionalWrite write sw w; Ok (u32 (k + j), w')) (m_switches n) (0, sn_world n);
  '(j, w') ← buffers_functionalWrite write (m_int_link_buffers n) w;
  Ok (u32 (k + j), with_switches (m_switches n) w' n).
End Init.
