(* ===== verification/SimpleTheory.v ===== *)
(** * Properties of the simple network: routing in a switch *)

From S2P Require Import Prelude Heap RubySet NetDest NetDestTheory Flit Consumer MessageBuffer MessageBufferTheory PerfectSwitch.
From S2P Require Import TopologyProperties.
Local Open Scope Z_scope.

Section Routing.
Context {MT : MachineTypes} {MTok : MachineTypesOk MT}.

(** What the links chosen for a message look like: link [l] gets the destinations [nd]. *)
Record good_copy (table : list NetDest) (p : Z * NetDest) : Prop := {
  gc_shaped : shaped p.2;
  gc_some : exists m j, nd_member p.2 m j;
  gc_entry : exists dst, vec_get table p.1 = Ok dst /\ forall m j, nd_member p.2 m j -> nd_member dst m j
}.

(** The copies [outs] divide the destinations [before] except for [after]. *)
Record divides (before after : NetDest) (outs : list (Z * NetDest)) : Prop := {
  dv_all : forall m j, nd_member before m j <-> nd_member after m j \/ exists p, p ∈ outs /\ nd_member p.2 m j;
  dv_left : forall m j p, p ∈ outs -> nd_member p.2 m j -> ~ nd_member after m j;
  dv_once : forall m j i1 i2 p1 p2, outs !! i1 = Some p1 -> outs !! i2 = Some p2 ->
    nd_member p1.2 m j -> nd_member p2.2 m j -> i1 = i2
}.

Lemma divides_nil nd : divides nd nd [].
Proof.
  split; [|by intros m j p ?%elem_of_nil | done]. intros m j. split; [by left | by intros [?|(p & ?%elem_of_nil & _)]].
Qed.

Lemma divides_cons before mid after p outs :
  (forall m j, nd_member before m j <-> nd_member p.2 m j \/ nd_member mid m j) ->
  (forall m j, nd_member p.2 m j -> ~ nd_member mid m j) -> divides mid after outs -> divides before after (p :: outs).
Proof.
  intros Hsplit Hdis [Hall Hleft Honce].
  assert (Hsub : forall m j q, q ∈ outs -> nd_member q.2 m j -> nd_member mid m j) by (intros m j q ??; apply Hall; eauto).
  split.
  - intros m j. rewrite Hsplit, Hall. split.
    + intros [?|[?|(q & ? & ?)]]; [right; exists p; split; [by left | done] | by left | right; exists q; split; [by right | done]].
    + intros [?|(q & [->|?]%elem_of_cons & ?)]; [right; by left | by left | right; right; eauto].
  - intros m j q [->|Hq]%elem_of_cons Hm Ha; [|by eapply Hleft]. apply (Hdis m j Hm). apply Hall. by left.
  - intros m j [|i1] [|i2] p1 p2 H1 H2 M1 M2; cbn in H1, H2; [done | | |].
    + injection H1 as <-. exfalso. apply (Hdis m j M1). apply (Hsub m j p2); [by eapply list_elem_of_lookup_2 | done].
    + injection H2 as <-. exfalso. apply (Hdis m j M2). apply (Hsub m j p1); [by eapply list_elem_of_lookup_2 | done].
    + f_equal. by apply (Honce m j i1 i2 p1 p2).
Qed.

(** A table entry for every link of the order. *)
Definition entries_for (table : list NetDest) (os : list LinkOrder) : Prop :=
  forall o, o ∈ os -> exists dst, vec_get table (lo_link o) = Ok dst /\ shaped dst.

#[export] Instance nd_member_dec nd m j : Decision (nd_member nd m j).
Proof.
  unfold nd_member, member. destruct (vec_get (m_bits nd) m) as [s|e] eqn:E.
  - destruct (decide (Z.testbit (bits s) j = true)) as [H|H]; [left; eauto | right]. intros (t & [= <-] & Ht). done.
  - right. by intros (t & ? & _).
Defined.

(** One link: it is skipped, or it gets the destinations its entry shares with the message. *)
Lemma route_step_spec table outs rest o dst : vec_get table (lo_link o) = Ok dst -> shaped rest -> shaped dst ->
  (route_step table (outs, rest) o = Ok (outs, rest) /\ forall m j, nd_member rest m j -> ~ nd_member dst m j) \/
  exists d rest1, route_step table (outs, rest) o = Ok (outs ++ [(lo_link o, d)], rest1) /\ shaped d /\ shaped rest1 /\
    (exists m j, nd_member d m j) /\ (forall m j, nd_member d m j <-> nd_member rest m j /\ nd_member dst m j) /\
    (forall m j, nd_member rest1 m j <-> nd_member rest m j /\ ~ nd_member dst m j).
Proof.
  intros Hg Hr Hd. unfold route_step. rewrite Hg. cbn [mbind result_bind].
  destruct (intersectionIsNotEmpty_spec rest dst) as (b & -> & Hb).
  { destruct Hr as [H1 _], Hd as [H2 _]. unfold vsize in *. lia. }
  cbn [mbind result_bind]. destruct b; cbn [negb].
  - right. destruct (and_spec rest dst Hr Hd) as (d & -> & Hds & Hdm). cbn [mbind result_bind].
    destruct (remove_total rest dst Hr Hd) as (rest1 & Hrm & Hr1). rewrite Hrm. cbn [mbind result_bind].
    exists d, rest1. split_and!; [done | done | done | | done | intros; by apply removeNetDest_member].
    destruct (proj1 Hb eq_refl) as (m & j & ? & ?). exists m, j. by apply Hdm.
  - left. split; [done|]. intros m j H1 H2. assert (Hbt : false = true) by (apply Hb; eauto). done.
Qed.

Lemma route_loop table os outs rest : entries_for table os -> shaped rest ->
  exists outs' rest', foldM (route_step table) os (outs, rest) = Ok (outs ++ outs', rest') /\ shaped rest' /\
    sublist outs'.*1 (map lo_link os) /\ Forall (good_copy table) outs' /\ divides rest rest' outs' /\
    forall o dst m j, o ∈ os -> vec_get table (lo_link o) = Ok dst -> nd_member rest' m j -> ~ nd_member dst m j.
Proof.
  revert outs rest. induction os as [|o os IH]; intros outs rest He Hr; cbn [foldM].
  - exists [], rest. rewrite app_nil_r. split_and!; [done | done | constructor | constructor | apply divides_nil|].
    by intros o dst m j ?%elem_of_nil.
  - destruct (He o) as (dst & Hg & Hd); [by left|]. assert (He' : entries_for table os) by (intros o' ?; apply He; by right).
    destruct (route_step_spec table outs rest o dst Hg Hr Hd) as [[-> Hskip] | (d & rest1 & -> & Hds & Hr1 & Hsome & Hdm & Hrm)];
      cbn [mbind result_bind].
    + destruct (IH outs rest He' Hr) as (outs' & rest' & -> & Hs' & Hsub & Hgood & Hdiv & Hno). exists outs', rest'.
      split_and!; [done | done | by constructor | done | done|].
      intros o' dst' m j [->|Ho']%elem_of_cons Hg' Hm; [|by apply (Hno o')]. rewrite Hg in Hg'. apply Ok_inj in Hg' as <-.
      apply Hskip, (dv_all _ _ _ Hdiv). by left.
    + destruct (IH (outs ++ [(lo_link o, d)]) rest1 He' Hr1) as (outs' & rest' & -> & Hs' & Hsub & Hgood & Hdiv & Hno).
      exists ((lo_link o, d) :: outs'), rest'. rewrite <- app_assoc. split_and!; [done | done | cbn; by constructor | | |].
      * constructor; [|done]. split; cbn; [done | done|]. exists dst. split; [done|]. by intros m' j' [_ ?]%Hdm.
      * apply (divides_cons rest rest1); [| |done]; cbn.
        -- intros m j. rewrite Hdm, Hrm. destruct (decide (nd_member dst m j)); tauto.
        -- intros m j [_ H1]%Hdm [_ H2]%Hrm. done.
      * intros o' dst' m j [->|Ho']%elem_of_cons Hg' Hm; [|by apply (Hno o')]. rewrite Hg in Hg'. apply Ok_inj in Hg' as <-.
        assert (Hin : nd_member rest1 m j) by (apply (dv_all _ _ _ Hdiv); by left). by apply Hrm in Hin as [_ ?].
Qed.

(** A switch whose tables fit: one routing-table entry per link, and the order of the links is
    a permutation of them. *)
Record tables_ok (s : PerfectSwitch) : Prop := {
  to_links : map lo_link (m_link_order s) ≡ₚ seqZ 0 (vsize (ps_routing_table s));
  to_entries : Forall shaped (ps_routing_table s)
}.

Lemma tables_entries s : tables_ok s -> entries_for (ps_routing_table s) (m_link_order s).
Proof.
  intros [Hl He] o Ho. assert (Hin : lo_link o ∈ seqZ 0 (vsize (ps_routing_table s))).
  { rewrite <- Hl. apply list_elem_of_fmap. eauto. }
  apply elem_of_seqZ in Hin. destruct (vec_get_in_range (ps_routing_table s) (lo_link o)) as [dst Hg]; [lia|].
  exists dst. split; [done | by apply (Forall_vec_get _ _ _ _ He Hg)].
Qed.

(** C21: Multicast in a switch: if the routing table covers a message's destinations, routing
    succeeds, and the copies it makes divide the destinations: every copy goes to another link,
    has a destination, and only destinations of that link's entry; every destination of the
    message is in exactly one copy.  The order in which adaptive routing looks at the links
    does not matter. *)
Theorem route_message_correct s nd :
  tables_ok s -> shaped nd ->
  (forall m j, nd_member nd m j -> exists dst, dst ∈ ps_routing_table s /\ nd_member dst m j) ->
  exists outs, route_message s nd = Ok outs /\ NoDup outs.*1 /\ Forall (good_copy (ps_routing_table s)) outs /\
    (forall m j, nd_member nd m j <-> exists p, p ∈ outs /\ nd_member p.2 m j) /\
    (forall m j i1 i2 p1 p2, outs !! i1 = Some p1 -> outs !! i2 = Some p2 ->
       nd_member p1.2 m j -> nd_member p2.2 m j -> i1 = i2).
Proof.
  intros Ht Hs Hcov. destruct (route_loop (ps_routing_table s) (m_link_order s) [] nd (tables_entries s Ht) Hs)
    as (outs & rest & Hf & Hr & Hsub & Hgood & Hdiv & Hno).
  unfold route_message. rewrite Hf. cbn [mbind result_bind app].
  assert (Hempty : forall m j, ~ nd_member rest m j).
  { intros m j Hm. destruct (Hcov m j) as (dst & Hin & Hd); [apply (dv_all _ _ _ Hdiv); by left|].
    apply list_elem_of_lookup in Hin as (i & Hi).
    assert (Hl : Z.of_nat i ∈ map lo_link (m_link_order s)).
    { rewrite (to_links s Ht). apply elem_of_seqZ. apply lookup_lt_Some in Hi. unfold vsize. lia. }
    apply list_elem_of_fmap in Hl as (o & Ho & Hin). apply (Hno o dst m j Hin); [|done | done].
    rewrite <- Ho. apply vec_get_Ok. rewrite Nat2Z.id. split; [lia | done]. }
  rewrite (proj2 (Z.eqb_eq _ _) (proj2 (count_zero rest Hr) Hempty)). cbn [assert_ mbind result_bind].
  exists outs. split; [done|]. split; [|split; [done|]].
  - eapply sublist_NoDup; [|exact Hsub]. rewrite (to_links s Ht). apply NoDup_seqZ.
  - split; [|apply (dv_once _ _ _ Hdiv)]. intros m j. rewrite (dv_all _ _ _ Hdiv). split; [intros [?|?]; [by apply Hempty in H | done] | by right].
Qed.
End Routing.

(** Two links lead to nodes 0, 2 and 1, 2, 3; the second one is looked at first. *)
Definition ex_route_switch : PerfectSwitch :=
  mkPerfectSwitch 0 [] [[]; []] [mkNetDest [mkRSet 4 5]; mkNetDest [mkRSet 4 14]] [mkLinkOrder 1 0; mkLinkOrder 0 7] 1 0 0 [0].

Lemma ex_route_shaped b : 0 <= b < 16 -> @shaped (node_types 4) (mkNetDest [mkRSet 4 b]).
Proof.
  intros Hb. split; [done|]. intros m s [H0 Hs]%vec_get_Ok. apply list_lookup_singleton_Some in Hs as [_ <-].
  split; [|done]. split; cbn; unfold NUMBER_BITS_PER_SET; lia.
Qed.

Lemma route_message_correct_witness :
  exists outs, @route_message (node_types 4) ex_route_switch (mkNetDest [mkRSet 4 11]) = Ok outs /\ NoDup outs.*1 /\
    outs = [(1, mkNetDest [mkRSet 4 10]); (0, mkNetDest [mkRSet 4 1])].
Proof.
  destruct (@route_message_correct (node_types 4) (node_types_ok 4 ltac:(unfold NUMBER_BITS_PER_SET; lia)) ex_route_switch (mkNetDest [mkRSet 4 11]))
    as (outs & Hr & Hnd & _).
  - split; cbn; [apply Permutation_swap|]. repeat (apply Forall_cons; split; [apply ex_route_shaped; lia|]). apply Forall_nil_2.
  - apply ex_route_shaped. lia.
  - intros m j (s & [H0 Hs]%vec_get_Ok & Hm). apply list_lookup_singleton_Some in Hs as [Hz <-].
    assert (m = 0) as -> by lia. unfold member in Hm. cbn [bits] in Hm.
    assert (Hj : j = 0 \/ j = 1 \/ j = 3).
    { assert (Hj0 : 0 <= j) by (destruct (Z.ltb_spec j 0); [by rewrite Z.testbit_neg_r in Hm by lia | done]).
      destruct (Z.lt_ge_cases j 4); [|by rewrite Z.bits_above_log2 in Hm by (cbn; lia)].
      assert (E : j = 0 \/ j = 1 \/ j = 2 \/ j = 3) by lia. destruct E as [E|[E|[E|E]]]; subst j; cbn in Hm; (done || tauto). }
    destruct Hj as [Hj|[Hj|Hj]]; subst j; [exists (mkNetDest [mkRSet 4 5]); split; [by left|] | exists (mkNetDest [mkRSet 4 14]); split; [by right; left|] ..];
      eexists; split; reflexivity.
  - exists outs. split; [exact Hr|]. split; [exact Hnd|]. vm_compute in Hr. symmetry. exact (Ok_inj _ _ Hr).
Defined.

(** ** The store of buffers *)

Section Store.
Context (now : Z).

Lemma set_buffer_Ok b v v' w : get_buffer b w = Ok v -> set_buffer b v' w = Ok (with_w_bufs (<[Z.to_nat b := v']> (w_bufs w)) w).
Proof. intros Hg. unfold set_buffer. by rewrite (vec_set_Ok_get _ _ _ v' Hg). Qed.

Lemma get_buffer_set b v v' w c : get_buffer b w = Ok v ->
  get_buffer c (with_w_bufs (<[Z.to_nat b := v']> (w_bufs w)) w) = if decide (c = b) then Ok v' else get_buffer c w.
Proof.
  intros Hg. unfold get_buffer in *. cbn. destruct (decide (c = b)) as [->|Hne]; [by apply (vec_get_insert _ _ v)|].
  pose proof (vec_get_range _ _ _ Hg). by rewrite vec_get_insert_ne by lia.
Qed.

(** Buffers that differ in the bookkeeping of size queries only. *)
Definition queried (v : MessageBuffer) : MessageBuffer :=
  with_m_not_avail_count 0 (with_m_size_last_time_size_checked 0 (with_m_time_last_time_size_checked 0 v)).

(** Worlds with the same buffers up to size queries, and the same pending wakeups. *)
Record same_buffers (w w' : World) : Prop := {
  sb_bufs : map queried (w_bufs w') = map queried (w_bufs w);
  sb_events : w_events w' = w_events w;
  sb_infos : w_infos w' = w_infos w
}.

#[export] Instance same_buffers_equiv : Equivalence same_buffers.
Proof.
  split; [intros ?; by split | intros ?? []; split; congruence|]. intros ??? [] []. split; congruence.
Qed.

Lemma same_buffers_get w w' b v : same_buffers w w' -> get_buffer b w = Ok v ->
  exists v', get_buffer b w' = Ok v' /\ queried v' = queried v.
Proof.
  intros [Hb _ _] [H0 Hv]%vec_get_Ok. assert (Hq : map queried (w_bufs w') !! Z.to_nat b = Some (queried v)).
  { rewrite Hb. by rewrite list_lookup_fmap, Hv. }
  rewrite list_lookup_fmap in Hq. destruct (w_bufs w' !! Z.to_nat b) as [v'|] eqn:E; [|done]. cbn [fmap option_fmap option_map] in Hq. apply Some_inj in Hq.
  exists v'. split; [|done]. by apply vec_get_Ok.
Qed.

Lemma same_buffers_set w b v v' : get_buffer b w = Ok v -> queried v' = queried v ->
  same_buffers w (with_w_bufs (<[Z.to_nat b := v']> (w_bufs w)) w).
Proof.
  intros [H0 Hv]%vec_get_Ok Hq. split; [|done | done]. cbn. rewrite list_fmap_insert, Hq. apply list_insert_id.
  by rewrite list_lookup_fmap, Hv.
Qed.

(** A size query and a query for a free slot leave the buffers the same. *)
Lemma buf_get_size_same b v w : get_buffer b w = Ok v -> exists n w', buf_get_size now b w = Ok (n, w') /\ same_buffers w w'.
Proof.
  intros Hv. unfold buf_get_size, getSize. rewrite Hv. cbn [mbind result_bind]. destruct (_ =? now);
    rewrite (set_buffer_Ok b v _ w Hv); cbn [mbind result_bind]; do 2 eexists; (split; [reflexivity|]); by apply (same_buffers_set w b v).
Qed.

Lemma buf_slot_available_same b v w : get_buffer b w = Ok v ->
  exists w', buf_slot_available now b w = Ok ((areNSlotsAvailable 1 now v).1, w') /\ same_buffers w w'.
Proof.
  intros Hv. unfold buf_slot_available. rewrite Hv. cbn [mbind result_bind]. unfold areNSlotsAvailable.
  destruct (m_max_size v =? 0); [|destruct (_ <=? _)]; rewrite (set_buffer_Ok b v _ w Hv); cbn [mbind result_bind fst];
    eexists; (split; [reflexivity|]); by apply (same_buffers_set w b v).
Qed.

(** ** Buffers that can be used at this cycle *)

Abbreviation accepts := (accepts now).

Lemma accepts_queried delta v v' : queried v' = queried v -> accepts delta v -> accepts delta v'.
Proof.
  destruct v, v'. unfold queried. cbn. intros [=]. subst. intros [H1 H2 H3 H4 H5]. by split.
Qed.

Lemma queried_heap v v' : queried v' = queried v -> m_prio_heap v' = m_prio_heap v.
Proof. intros H. by apply (f_equal m_prio_heap) in H. Qed.

Lemma queried_vnet v v' : queried v' = queried v -> m_vnet_id v' = m_vnet_id v.
Proof. intros H. by apply (f_equal m_vnet_id) in H. Qed.

Lemma queried_slots v v' : queried v' = queried v -> (areNSlotsAvailable 1 now v').1 = (areNSlotsAvailable 1 now v).1.
Proof.
  intros H. assert (E : forall u, (areNSlotsAvailable 1 now u).1 = (areNSlotsAvailable 1 now (queried u)).1).
  { intros u. unfold areNSlotsAvailable. change (m_max_size (queried u)) with (m_max_size u).
    change (visible_size now (queried u)) with (visible_size now u). change (m_stall_map_size (queried u)) with (m_stall_map_size u).
    destruct (_ =? 0); [done|]. by destruct (_ <=? _). }
  by rewrite E, H, <- E.
Qed.

End Store.
