(* ===== verification/SimpleConserve.v ===== *)
(** * Conservation in the simple network

    Every message in a buffer stands for the deliveries of its payload to its destination
    nodes.  Switches and throttles move and split messages, but no wakeup changes the multiset
    of pending deliveries, and every wakeup's loops end within their fuel.  [EFuel] is the
    error of a loop that did not; a computation is free of it if none of its parts runs out,
    which the hints of [nofuel] prove by following the code. *)

From stdpp Require Import sorting.
From S2P Require Import Prelude Double Heap RubySet NetDest NetDestTheory Flit Consumer MessageBuffer MessageBufferTheory.
From S2P Require Import AddrRange BaseNetwork Topology PerfectSwitch Throttle SimpleNetwork SimpleTheory.
Local Open Scope Z_scope.

(** ** Loops that end *)

Definition no_fuel {A} (r : result A) : Prop := r <> Err EFuel.

Create HintDb nofuel.

Lemma no_fuel_Ok {A} (a : A) : no_fuel (Ok a).
Proof. done. Qed.

Lemma no_fuel_Err {A B} e : no_fuel (Err (A := A) e) -> no_fuel (Err (A := B) e).
Proof. unfold no_fuel. congruence. Qed.

Lemma no_fuel_bind {A B} (r : result A) (f : A -> result B) :
  no_fuel r -> (forall a, r = Ok a -> no_fuel (f a)) -> no_fuel (r ≫= f).
Proof. unfold no_fuel. destruct r as [a|e]; cbn; [intros _ H; by apply H | congruence]. Qed.

Lemma no_fuel_assert b : no_fuel (assert_ b).
Proof. by destruct b. Qed.

Lemma no_fuel_vec_get {A} (l : list A) i : no_fuel (vec_get l i).
Proof. unfold vec_get. destruct (i <? 0); [done|]. by destruct (l !! Z.to_nat i). Qed.

Lemma no_fuel_vec_set {A} (l : list A) i a : no_fuel (vec_set l i a).
Proof. unfold vec_set. by destruct (_ && _). Qed.

Lemma no_fuel_for_range {S} (body : Z -> S -> result S) n i s : (forall k s, no_fuel (body k s)) -> no_fuel (for_range n i body s).
Proof.
  intros Hb. revert i s. induction n as [|n IH]; intros i s; cbn [for_range]; [done|]. apply no_fuel_bind; [done | intros; apply IH].
Qed.

(** A loop whose steps end and keep an invariant ends and keeps it. *)
Definition safe {A} (P : A -> Prop) (r : result A) : Prop := no_fuel r /\ forall a, r = Ok a -> P a.

Lemma safe_Ok {A} (P : A -> Prop) a : P a -> safe P (Ok a).
Proof. intros H. split; [done|]. by intros b [= <-]. Qed.

Lemma safe_bind {A B} (P : A -> Prop) (Q : B -> Prop) (r : result A) (f : A -> result B) :
  safe P r -> (forall a, P a -> safe Q (f a)) -> safe Q (r ≫= f).
Proof.
  intros [Hn Hp] Hf. split.
  - apply no_fuel_bind; [done|]. intros a Ha. apply (Hf a (Hp a Ha)).
  - intros b (a & Ha & Hb)%bind_Ok. by apply (Hf a (Hp a Ha)).
Qed.

Lemma safe_any {A} (r : result A) : no_fuel r -> safe (fun a => r = Ok a) r.
Proof. by split. Qed.

Lemma safe_for_range {S} (P : S -> Prop) (body : Z -> S -> result S) n i s :
  P s -> (forall k s, P s -> safe P (body k s)) -> safe P (for_range n i body s).
Proof.
  intros Hs Hb. revert i s Hs. induction n as [|n IH]; intros i s Hs; cbn [for_range]; [by apply safe_Ok|].
  apply (safe_bind P); [by apply Hb | intros s' Hs'; by apply IH].
Qed.

Lemma safe_foldM {A S} (P : S -> Prop) (f : S -> A -> result S) l s :
  P s -> (forall a s, P s -> safe P (f s a)) -> safe P (foldM f l s).
Proof.
  intros Hs Hf. revert s Hs. induction l as [|a l IH]; intros s Hs; cbn [foldM]; [by apply safe_Ok|].
  apply (safe_bind P); [by apply Hf | intros s' Hs'; by apply IH].
Qed.

Lemma no_fuel_foldM {A S} (f : S -> A -> result S) l s : (forall a s, no_fuel (f s a)) -> no_fuel (foldM f l s).
Proof.
  intros Hf. revert s. induction l as [|a l IH]; intros s; cbn [foldM]; [done|]. apply no_fuel_bind; [done | intros; apply IH].
Qed.

#[export] Hint Resolve no_fuel_Ok no_fuel_assert no_fuel_vec_get no_fuel_vec_set : nofuel.

(** Follows binds, matches and loops; what remains are calls with a lemma of their own. *)
Ltac no_fuel :=
  repeat first
  [ progress intros
  | solve [eauto with nofuel]
  | match goal with
    | |- no_fuel (Err ?e) => discriminate
    | |- no_fuel (_ ≫= _) => apply no_fuel_bind
    | |- no_fuel (for_range _ _ _ _) => apply no_fuel_for_range
    | |- no_fuel (foldM _ _ _) => apply no_fuel_foldM
    | |- no_fuel (let '(_, _) := ?p in _) => destruct p
    | |- no_fuel (match ?x with _ => _ end) => destruct x eqn:?
    | |- no_fuel ((match ?x with _ => _ end) _) => destruct x
    | |- no_fuel (if ?b then _ else _) => destruct b eqn:?
    | |- no_fuel ((fun _ => _) _) => cbv beta
    end ].

Lemma no_fuel_vec_modify {A} (l : list A) i f : no_fuel (vec_modify l i f).
Proof. unfold vec_modify. no_fuel. Qed.

Lemma no_fuel_vec_update {A} (l : list A) i (f : A -> result A) : (forall a, no_fuel (f a)) -> no_fuel (vec_update l i f).
Proof. intros Hf. unfold vec_update. no_fuel. Qed.

#[export] Hint Resolve no_fuel_vec_modify no_fuel_vec_update : nofuel.

Section Conserve.
Context {MT : MachineTypes} {MTok : MachineTypesOk MT} (Hfit : node_ids_fit).

(** ** Deliveries *)

Definition world_deliveries (w : World) : list (Z * Z) := concat (map buffer_deliveries (w_bufs w)).

Lemma nodes_split a b c : shaped a -> shaped b -> shaped c ->
  (forall m j, nd_member a m j <-> nd_member b m j \/ nd_member c m j) -> (forall m j, nd_member b m j -> ~ nd_member c m j) ->
  nodes_of a ≡ₚ nodes_of b ++ nodes_of c.
Proof.
  intros Ha Hb Hc Hall Hdis. destruct (nodes_of_spec a Hfit Ha) as [Na Ia], (nodes_of_spec b Hfit Hb) as [Nb Ib], (nodes_of_spec c Hfit Hc) as [Nc Ic].
  apply NoDup_Permutation; [done | |].
  - apply NoDup_app. split_and!; [done | | done]. intros d (m & j & Hm & ->)%Ib Hd%Ic.
    destruct (shaped_member _ _ _ Hb Hm). rewrite node_member in Hd by (done || lia). by apply (Hdis m j).
  - intros d. rewrite elem_of_app, Ia, Ib, Ic. unfold node. split.
    + intros (m & j & [?|?]%Hall & ->); [left | right]; eauto.
    + intros [(m & j & ? & ->)|(m & j & ? & ->)]; exists m, j; (split; [apply Hall; tauto | done]).
Qed.

Lemma nodes_none nd : shaped nd -> NetDest.count nd = 0 -> nodes_of nd = [].
Proof.
  intros Hs Hc. destruct (nodes_of_spec nd Hfit Hs) as [_ Hin]. destruct (nodes_of nd) as [|d l]; [done|]. exfalso.
  destruct (proj1 (Hin d) ltac:(by left)) as (m & j & Hm & _). by apply (proj1 (count_zero nd Hs) Hc m j).
Qed.

(** ** Routing splits a message's deliveries *)

Lemma route_fold_nodes table os outs rest outs' rest' : Forall shaped table -> shaped rest ->
  foldM (route_step table) os (outs, rest) = Ok (outs', rest') ->
  exists new, outs' = outs ++ new /\ shaped rest' /\ Forall (fun p => shaped p.2) new /\
    nodes_of rest ≡ₚ concat (map (fun p => nodes_of p.2) new) ++ nodes_of rest'.
Proof.
  intros Ht. revert outs rest. induction os as [|o os IH]; intros outs rest Hr H; cbn [foldM] in H.
  - apply Ok_inj in H as [= <- <-]. exists []. by rewrite app_nil_r.
  - apply bind_Ok in H as ([outs1 rest1] & H1 & H).
    assert (Hg : exists dst, vec_get table (lo_link o) = Ok dst).
    { unfold route_step in H1. destruct (vec_get table (lo_link o)); [eauto | done]. }
    destruct Hg as [dst Hg]. pose proof (Forall_vec_get _ _ _ _ Ht Hg) as Hd.
    destruct (route_step_spec table outs rest o dst Hg Hr Hd) as [[E _] | (d & r1 & E & Hds & Hr1 & _ & Hdm & Hrm)]; rewrite E in H1.
    + apply Ok_inj in H1 as [= <- <-]. exact (IH outs rest Hr H).
    + apply Ok_inj in H1 as [= <- <-]. destruct (IH _ r1 Hr1 H) as (new & -> & Hr' & Hn & Hp).
      exists ((lo_link o, d) :: new). rewrite <- app_assoc. split_and!; [done | done | by constructor|]. cbn [map concat snd].
      rewrite (nodes_split rest d r1 Hr Hds Hr1); [by rewrite Hp, app_assoc | |].
      * intros m j. rewrite Hdm, Hrm. destruct (decide (nd_member dst m j)); tauto.
      * intros m j [_ ?]%Hdm [_ ?]%Hrm. done.
Qed.

Lemma route_message_nodes s nd outs : Forall shaped (ps_routing_table s) -> shaped nd -> route_message s nd = Ok outs ->
  Forall (fun p => shaped p.2) outs /\ nodes_of nd ≡ₚ concat (map (fun p => nodes_of p.2) outs).
Proof.
  intros Ht Hs H. unfold route_message in H. apply bind_Ok in H as ([o r] & Hf & H). apply bind_Ok in H as (u & Hc%assert_Ok%Z.eqb_eq & H).
  apply Ok_inj in H as <-. destruct (route_fold_nodes _ _ [] nd o r Ht Hs Hf) as (new & -> & Hr & Hn & Hp). cbn [app].
  split; [done|]. by rewrite Hp, (nodes_none r Hr Hc), app_nil_r.
Qed.

Lemma copies_deliveries m (outs : list (Z * NetDest)) :
  concat (map (fun o => deliveries (with_destination o.2 m)) outs) = map (pair (payload m)) (concat (map (fun p => nodes_of p.2) outs)).
Proof. induction outs as [|o outs IH]; [done|]. cbn [map concat]. by rewrite IH, map_app. Qed.

(** ** Single buffer operations *)

Lemma set_buffer_deliveries b v v' w w' : get_buffer b w = Ok v -> set_buffer b v' w = Ok w' ->
  world_deliveries w' ++ buffer_deliveries v ≡ₚ world_deliveries w ++ buffer_deliveries v'.
Proof.
  intros Hg Hs. rewrite (set_buffer_Ok b v v' w Hg) in Hs. apply Ok_inj in Hs as <-. unfold world_deliveries.
  rewrite !(Permutation_app_comm (concat _)). exact (concat_map_vec_insert buffer_deliveries _ _ _ v' Hg).
Qed.

(** Messages with well-formed destinations. *)
Definition msgs_ok (w : World) : Prop := Forall (fun v => Forall (fun m => shaped (destination m)) (m_prio_heap v)) (w_bufs w).

Lemma msgs_ok_get w b v : msgs_ok w -> get_buffer b w = Ok v -> Forall (fun m => shaped (destination m)) (m_prio_heap v).
Proof. intros H Hg. exact (Forall_vec_get _ _ _ _ H Hg). Qed.

Lemma msgs_ok_set w w' b v v' : msgs_ok w -> get_buffer b w = Ok v -> Forall (fun m => shaped (destination m)) (m_prio_heap v') ->
  set_buffer b v' w = Ok w' -> msgs_ok w'.
Proof.
  intros Hm Hg Hv Hs. rewrite (set_buffer_Ok b v v' w Hg) in Hs. apply Ok_inj in Hs as <-. by apply Forall_insert.
Qed.

(** The messages a step leaves in the store: the deliveries [gone] leave it, [new] enter it. *)
Record moves (w w' : World) (gone new : list (Z * Z)) : Prop := {
  mv_ok : msgs_ok w';
  mv_perm : world_deliveries w' ++ gone ≡ₚ world_deliveries w ++ new
}.

Lemma moves_refl w : msgs_ok w -> moves w w [] [].
Proof. by split. Qed.

Lemma moves_trans w1 w2 w3 g1 n1 g2 n2 : moves w1 w2 g1 n1 -> moves w2 w3 g2 n2 -> moves w1 w3 (g1 ++ g2) (n1 ++ n2).
Proof.
  intros [_ H1] [Hok H2]. split; [done|]. rewrite (Permutation_app_comm g1), app_assoc, H2, <- app_assoc, (Permutation_app_comm n2).
  rewrite app_assoc, H1. by rewrite <- app_assoc.
Qed.

Lemma moves_set w w' b v v' gone new : msgs_ok w -> get_buffer b w = Ok v -> set_buffer b v' w = Ok w' ->
  Forall (fun m => shaped (destination m)) (m_prio_heap v') ->
  buffer_deliveries v' ++ gone ≡ₚ buffer_deliveries v ++ new -> moves w w' gone new.
Proof.
  intros Hm Hg Hs Hv Hp. split; [by eapply msgs_ok_set|]. pose proof (set_buffer_deliveries b v v' w w' Hg Hs) as H.
  apply (Permutation_app_inv_r (buffer_deliveries v)). rewrite <- (app_assoc _ gone), (Permutation_app_comm gone), app_assoc, H.
  rewrite <- !app_assoc, Hp. by rewrite (Permutation_app_comm new).
Qed.

Lemma dequeue_heap tick now dec v d v' evs : dequeue tick now dec v = Ok (d, v', evs) ->
  exists m, peekMsgPtr v = Ok m /\ m_LastEnqueueTime m <= now /\ m_prio_heap v ≡ₚ m :: m_prio_heap v'.
Proof.
  intros H. unfold dequeue in H. apply bind_Ok in H as (u & Hr%assert_Ok & H). apply bind_Ok in H as (m & Hm & H).
  apply bind_Ok in H as (m' & _ & H). exists m. unfold peekMsgPtr, isReady in *. destruct (m_prio_heap v) as [|x l] eqn:El; [done|].
  apply Ok_inj in Hm as ->. apply Z.leb_le in Hr. split; [done|]. split; [done|].
  assert (Hp : m :: l ≡ₚ m :: pop_back (pop_heap msg_greater (m :: l))) by (symmetry; apply (pop_back_pop_heap msg_greater m l)).
  destruct (_ <? now), dec; apply Ok_inj in H as [= <- <- <-]; cbn [m_prio_heap with_m_prio_heap with_m_buf_msgs with_m_stall_time
    with_m_time_last_time_pop with_m_size_at_cycle_start]; by rewrite El.
Qed.

Lemma enqueue_heap rr we r msg now delta v v' evs : enqueue rr we r msg now delta v = Ok (v', evs) ->
  exists m, m_prio_heap v' ≡ₚ m :: m_prio_heap v /\ payload m = payload msg /\ destination m = destination msg /\
    now < m_LastEnqueueTime m.
Proof.
  intros H. unfold enqueue in H.
  set (b1 := if m_time_last_time_enqueue v <? now then with_m_time_last_time_enqueue now (with_m_msgs_this_cycle 0 v) else v) in H.
  assert (Hb1 : m_prio_heap b1 = m_prio_heap v) by (unfold b1; by destruct (_ <? now)). clearbody b1.
  apply bind_Ok in H as (u & _ & H). destruct (arrival _ _ _ _ _) as [arr b3] eqn:Ea. apply arrival_spec in Ea as (la & -> & _ & _).
  apply bind_Ok in H as (u1 & Hlt%assert_Ok%Z.ltb_lt & H). apply bind_Ok in H as (u2 & _ & H). apply bind_Ok in H as (u3 & _ & H).
  apply bind_Ok in H as (m1 & Hu & H). apply bind_Ok in H as (c & _ & H). unfold updateDelayedTicks in Hu.
  apply bind_Ok in Hu as (u4 & _ & Hu). apply Ok_inj in Hu as <-. destruct we; apply Ok_inj in H as [= <- <-];
    eexists; (split; [etrans; [apply heap_insert_Permutation|]; cbn [m_prio_heap with_m_last_arrival_time with_m_msgs_this_cycle with_m_msg_counter]; by rewrite Hb1|]);
    split_and!; cbn; done.
Qed.

(** A message whose delay is updated stands for the same deliveries. *)
Lemma updateDelayedTicks_keeps now m m' : updateDelayedTicks now m = Ok m' -> payload m' = payload m /\ destination m' = destination m.
Proof. unfold updateDelayedTicks. intros H. apply bind_Ok in H as (u & _ & H). by apply Ok_inj in H as <-. Qed.

Lemma buffer_deliveries_cons v v' m : m_prio_heap v' ≡ₚ m :: m_prio_heap v -> buffer_deliveries v' ≡ₚ deliveries m ++ buffer_deliveries v.
Proof. intros Hp. unfold buffer_deliveries. by rewrite Hp. Qed.

(** ** Operations of the store *)

Section Ops.
Context (rr we : bool) (rnd : nat -> Z) (now : Z).

Lemma with_bookkeeping w w' gone new : w_bufs w' = w_bufs w -> forall w0, moves w0 w gone new -> moves w0 w' gone new.
Proof. intros E w0 [H1 H2]. split; unfold msgs_ok, world_deliveries in *; by rewrite E. Qed.

Lemma buf_dequeue_moves b w w' : msgs_ok w -> buf_dequeue now b w = Ok w' ->
  exists v m, get_buffer b w = Ok v /\ peekMsgPtr v = Ok m /\ shaped (destination m) /\ moves w w' (deliveries m) [].
Proof.
  intros Hm H. unfold buf_dequeue in H. apply bind_Ok in H as (v & Hg & H). apply bind_Ok in H as ([[d v'] evs] & Hd & H).
  apply bind_Ok in H as (w1 & Hs & H). apply Ok_inj in H as <-. apply dequeue_heap in Hd as (m & Hpk & _ & Hp).
  pose proof (msgs_ok_get w b v Hm Hg) as Hall. rewrite Hp in Hall. apply Forall_cons in Hall as [Hm1 Hall].
  exists v, m. split_and!; [done | done | done|]. apply (with_bookkeeping w1); [done|].
  apply (moves_set w w1 b v v'); [done | done | done | done|]. rewrite (buffer_deliveries_cons v' v m Hp), app_nil_r.
  apply Permutation_app_comm.
Qed.

Lemma buf_enqueue_moves b msg delta w w' : msgs_ok w -> shaped (destination msg) -> buf_enqueue rr we rnd now b msg delta w = Ok w' ->
  moves w w' [] (deliveries msg).
Proof.
  intros Hm Hd H. unfold buf_enqueue in H. apply bind_Ok in H as (v & Hg & H). apply bind_Ok in H as ([v' evs] & He & H).
  apply bind_Ok in H as (w1 & Hs & H). apply Ok_inj in H as <-. apply enqueue_heap in He as (m & Hp & E1 & E2 & _).
  assert (E : deliveries m = deliveries msg) by (unfold deliveries; by rewrite E1, E2).
  apply (with_bookkeeping w1); [done|]. apply (moves_set w w1 b v v'); [done | done | done | |].
  - rewrite Hp. constructor; [by rewrite E2 | exact (msgs_ok_get w b v Hm Hg)].
  - rewrite app_nil_r, (buffer_deliveries_cons v v' m Hp), E. apply Permutation_app_comm.
Qed.

(** Queries change no message. *)
Lemma same_buffers_moves w w' : msgs_ok w -> same_buffers w w' -> moves w w' [] [].
Proof.
  intros Hm [Hb _ _]. assert (Hh : map m_prio_heap (w_bufs w') = map m_prio_heap (w_bufs w)).
  { apply (f_equal (map m_prio_heap)) in Hb. rewrite !map_map in Hb. exact Hb. }
  split.
  - apply (Forall_map m_prio_heap (Forall (fun m => shaped (destination m)))). rewrite Hh. by apply (Forall_map m_prio_heap).
  - rewrite !app_nil_r. unfold world_deliveries, buffer_deliveries. rewrite <- (map_map m_prio_heap (fun h => concat (map deliveries h)) (w_bufs w')).
    rewrite <- (map_map m_prio_heap (fun h => concat (map deliveries h)) (w_bufs w)). by rewrite Hh.
Qed.

Lemma buf_slot_available_moves b w ok w' : msgs_ok w -> buf_slot_available now b w = Ok (ok, w') -> same_buffers w w'.
Proof.
  intros Hm H. destruct (get_buffer b w) as [v|] eqn:Hg; [|unfold buf_slot_available in H; by rewrite Hg in H].
  destruct (buf_slot_available_same now b v w Hg) as (w1 & H1 & Hs). rewrite H in H1. apply Ok_inj in H1 as [= -> ->]. done.
Qed.

Lemma buf_get_size_moves b w n w' : buf_get_size now b w = Ok (n, w') -> same_buffers w w'.
Proof.
  intros H. destruct (get_buffer b w) as [v|] eqn:Hg; [|unfold buf_get_size in H; by rewrite Hg in H].
  destruct (buf_get_size_same now b v w Hg) as (n1 & w1 & H1 & Hs). rewrite H in H1. apply Ok_inj in H1 as [= -> ->]. done.
Qed.

(** ** Ready messages: what bounds the loops *)

Definition ready_at (b : Z) (w : World) : nat :=
  match get_buffer b w with
  | Ok v => length (filter (fun m => m_LastEnqueueTime m <= now) (m_prio_heap v))
  | Err _ => 0
  end.

Lemma same_buffers_ready b w w' : same_buffers w w' -> ready_at b w' = ready_at b w.
Proof.
  intros Hs. unfold ready_at. destruct (get_buffer b w) as [v|] eqn:Hg.
  - destruct (same_buffers_get w w' b v Hs Hg) as (v' & -> & Hq). by rewrite (queried_heap v v' Hq).
  - destruct (get_buffer b w') as [v'|] eqn:Hg'; [|done].
    destruct (same_buffers_get w' w b v') as (v & Hv & _); [by symmetry | done | congruence].
Qed.

Lemma set_buffer_ready b c v v' w w' : get_buffer b w = Ok v -> set_buffer b v' w = Ok w' ->
  ready_at c w' = if decide (c = b) then length (filter (fun m => m_LastEnqueueTime m <= now) (m_prio_heap v')) else ready_at c w.
Proof.
  intros Hg Hs. rewrite (set_buffer_Ok b v v' w Hg) in Hs. apply Ok_inj in Hs as <-. unfold ready_at.
  rewrite (get_buffer_set b v v' w c Hg). by destruct (decide (c = b)).
Qed.

Lemma buf_dequeue_ready b w w' : buf_dequeue now b w = Ok w' -> ready_at b w = S (ready_at b w').
Proof.
  intros H. unfold buf_dequeue in H. apply bind_Ok in H as (v & Hg & H). apply bind_Ok in H as ([[d v'] evs] & Hd & H).
  apply bind_Ok in H as (w1 & Hs & H). apply Ok_inj in H as <-. apply dequeue_heap in Hd as (m & _ & Hle & Hp).
  change (ready_at b (add_events evs [] w1)) with (ready_at b w1). rewrite (set_buffer_ready b b v v' w w1 Hg Hs), decide_True by done.
  unfold ready_at. rewrite Hg, Hp, filter_cons_True by done. done.
Qed.

Lemma buf_enqueue_ready b c msg delta w w' : buf_enqueue rr we rnd now b msg delta w = Ok w' -> ready_at c w' = ready_at c w.
Proof.
  intros H. unfold buf_enqueue in H. apply bind_Ok in H as (v & Hg & H). apply bind_Ok in H as ([v' evs] & He & H).
  apply bind_Ok in H as (w1 & Hs & H). apply Ok_inj in H as <-. apply enqueue_heap in He as (m & Hp & _ & _ & Hlt).
  change (ready_at c (drawn _)) with (ready_at c w1). rewrite (set_buffer_ready b c v v' w w1 Hg Hs).
  destruct (decide (c = b)) as [->|]; [|done]. rewrite Hp, filter_cons_False by lia. unfold ready_at. by rewrite Hg.
Qed.

(** ** The switch *)

(** The parts of a switch that its operation does not change. *)
Definition ports_of (s : PerfectSwitch) := (ps_switch_id s, ps_in s, ps_out s, ps_routing_table s, ps_virtual_networks s).

Lemma out_queue_length_same s out w n w' : out_queue_length now s out w = Ok (n, w') -> same_buffers w w'.
Proof.
  intros H. unfold out_queue_length in H.
  apply (for_range_inv (fun _ st => same_buffers w st.2) _ _ _ _ (n, w')) in H; [done | done|].
  intros k [a x] [a' x'] _ Hx Hb. apply bind_Ok in Hb as (b & _ & Hb). apply bind_Ok in Hb as ([k' x1] & Hs & Hb).
  apply Ok_inj in Hb as [= <- <-]. cbn in *. etrans; [done | by apply (buf_get_size_moves b x k')].
Qed.

Lemma order_links_same adaptive ord vnet s w s1 w1 : order_links rnd now adaptive ord vnet s w = Ok (s1, w1) ->
  same_buffers w w1 /\ ports_of s1 = ports_of s /\ m_pending_message_count s1 = m_pending_message_count s.
Proof.
  intros H. unfold order_links in H. destruct adaptive; [|by apply Ok_inj in H as [= <- <-]].
  apply bind_Ok in H as (o & _ & H). destruct o.
  - apply bind_Ok in H as (lo & _ & H). by apply Ok_inj in H as [= <- <-].
  - apply bind_Ok in H as ([lo w'] & Hl & H). apply Ok_inj in H as [= <- <-]. split; [|done].
    apply (for_range_inv (fun _ st => same_buffers w st.2) _ _ _ _ (lo, w')) in Hl; [done | done|].
    intros k [a x] [a' x'] _ Hx Hb. unfold measure_link in Hb. apply bind_Ok in Hb as ([n x1] & Hq & Hb).
    apply bind_Ok in Hb as (a1 & _ & Hb). apply Ok_inj in Hb as [= <- <-]. cbn in *. etrans; [done|].
    apply out_queue_length_same in Hq. destruct Hq. by split.
Qed.

Lemma all_enough_same s vnet outs b0 w b w' : msgs_ok w ->
  foldM (fun '(enough, w) (o : Z * NetDest) =>
    b ← port_buffer (ps_out s) o.1 vnet; '(ok, w') ← buf_slot_available now b w; Ok (enough && ok, w')) outs (b0, w) = Ok (b, w') ->
  same_buffers w w'.
Proof.
  revert b0 w. induction outs as [|o outs IH]; intros b0 w Hm H; cbn [foldM] in H; [by apply Ok_inj in H as [= <- <-]|].
  apply bind_Ok in H as ([b1 w1] & H1 & H). apply bind_Ok in H1 as (p & _ & H1). apply bind_Ok in H1 as ([ok w2] & H2 & H1).
  apply Ok_inj in H1 as [= <- <-]. pose proof (buf_slot_available_moves p w ok w2 Hm H2) as Hs. etrans; [exact Hs|].
  eapply IH; [|exact H]. apply (same_buffers_moves w w2 Hm Hs).
Qed.

Lemma send_copies_moves s vnet m outs w w' : msgs_ok w -> Forall (fun o => shaped o.2) outs ->
  foldM (send_copy rr we rnd now s vnet m) outs w = Ok w' ->
  moves w w' [] (concat (map (fun o => deliveries (with_destination o.2 m)) outs)) /\ forall c, ready_at c w' = ready_at c w.
Proof.
  revert w. induction outs as [|o outs IH]; intros w Hm Hs H; cbn [foldM] in H; [apply Ok_inj in H as <-; split; [by apply moves_refl | done]|].
  apply Forall_cons in Hs as [Ho Hs]. apply bind_Ok in H as (w1 & H1 & H). unfold send_copy in H1. apply bind_Ok in H1 as (b & _ & H1).
  pose proof (buf_enqueue_moves b (with_destination o.2 m) 1 w w1 Hm Ho H1) as Hmv. destruct (IH w1 (mv_ok _ _ _ _ Hmv) Hs H) as [Hmv' Hr].
  split; [exact (moves_trans _ _ _ _ _ _ _ Hmv Hmv')|]. intros c. rewrite Hr. by eapply buf_enqueue_ready.
Qed.

(** A step that keeps all deliveries. *)
Definition conserves (w w' : World) : Prop := msgs_ok w' /\ world_deliveries w' ≡ₚ world_deliveries w.

Lemma moves_conserves w w' g n : moves w w' g n -> g ≡ₚ n -> conserves w w'.
Proof. intros [Hok Hp] E. split; [done|]. apply (Permutation_app_inv_r n). rewrite <- E at 1. exact Hp. Qed.

Lemma conserves_trans w1 w2 w3 : conserves w1 w2 -> conserves w2 w3 -> conserves w1 w3.
Proof. intros [_ H1] [Hok H2]. split; [done|]. by rewrite H2. Qed.

Lemma conserves_refl w : msgs_ok w -> conserves w w.
Proof. by split. Qed.

(** One message: its copies stand for the same deliveries. *)
Lemma switch_message_step adaptive ord buffer vnet s w c : msgs_ok w -> Forall shaped (ps_routing_table s) ->
  switch_message rr we rnd now adaptive ord buffer vnet s w = Ok c ->
  match c with
  | Brk (s', w') => ports_of s' = ports_of s /\ conserves w w'
  | Cont (s', w') => ports_of s' = ports_of s /\ conserves w w' /\ ready_at buffer w = S (ready_at buffer w')
  end.
Proof.
  intros Hm Ht H. unfold switch_message in H. apply bind_Ok in H as (v & Hv & H).
  destruct (isReady now v); cbn [negb] in H; [|apply Ok_inj in H as <-; split; [done | by apply conserves_refl]].
  apply bind_Ok in H as (msg & Hpk & H). apply bind_Ok in H as (u1 & _ & H). apply bind_Ok in H as (u2 & _ & H).
  apply bind_Ok in H as ([s1 w1] & Ho & H). apply order_links_same in Ho as (Hs1 & Hp1 & _).
  pose proof (same_buffers_moves w w1 Hm Hs1) as Hm1. assert (Ht1 : ps_routing_table s1 = ps_routing_table s) by (unfold ports_of in Hp1; congruence).
  apply bind_Ok in H as (outs & Hro & H). apply bind_Ok in H as ([enough w2] & Hae & H).
  apply all_enough_same in Hae as Hs2; [|apply Hm1]. pose proof (same_buffers_moves w1 w2 (mv_ok _ _ _ _ Hm1) Hs2) as Hm2.
  pose proof (moves_trans _ _ _ _ _ _ _ Hm1 Hm2) as Hm12. destruct enough; cbn [negb] in H.
  - apply bind_Ok in H as (w3 & Hdq & H). apply bind_Ok in H as (pend & _ & H). apply bind_Ok in H as (first & Hf & H).
    destruct (buf_dequeue_moves buffer w2 w3 (mv_ok _ _ _ _ Hm2) Hdq) as (v2 & msg2 & Hv2 & Hpk2 & Hsh & Hm3).
    assert (msg2 = msg) as ->.
    { destruct (same_buffers_get w w2 buffer v) as (v2' & Hv2' & Hq); [by etrans | done|]. rewrite Hv2 in Hv2'. apply Ok_inj in Hv2' as <-.
      unfold peekMsgPtr in *. rewrite (queried_heap v v2 Hq) in Hpk2. congruence. }
    rewrite <- Ht1 in Ht. destruct (route_message_nodes s1 (destination msg) outs Ht Hsh Hro) as [Hso Hpn].
    apply updateDelayedTicks_keeps in Hf as [Ef1 Ef2]. apply bind_Ok in H as (w4 & Hsend & H). apply Ok_inj in H as <-.
    split; [exact Hp1|]. pose proof (buf_dequeue_ready buffer w2 w3 Hdq) as Hr. rewrite (same_buffers_ready buffer w w2) in Hr by (by etrans).
    assert (Hcop : moves w3 w4 [] (concat (map (fun o => deliveries (with_destination o.2 msg)) outs)) /\ forall c, ready_at c w4 = ready_at c w3).
    { destruct outs as [|o outs]; [apply Ok_inj in Hsend as <-; split; [apply moves_refl, Hm3 | done]|].
      apply bind_Ok in Hsend as (w' & Ha & Hb). apply Forall_cons in Hso as [Ho1 Hso].
      destruct (send_copies_moves (with_m_pending_message_count pend s1) vnet first [o] w3 w' (mv_ok _ _ _ _ Hm3)) as [Hma Hra]; [by constructor | cbn [foldM]; by rewrite Ha|].
      destruct (send_copies_moves (with_m_pending_message_count pend s1) vnet msg outs w' w4 (mv_ok _ _ _ _ Hma) Hso Hb) as [Hmb Hrb].
      split; [|intros c; by rewrite Hrb]. pose proof (moves_trans _ _ _ _ _ _ _ Hma Hmb) as Hab. cbn [map concat app] in Hab |- *.
      unfold deliveries in Hab at 1. cbn [with_destination payload destination] in Hab. rewrite Ef1, app_nil_r in Hab. exact Hab. }
    destruct Hcop as [Hm4 Hr4]. rewrite Hr4. split; [|done].
    apply (moves_conserves _ _ _ _ (moves_trans _ _ _ _ _ _ _ Hm12 (moves_trans _ _ _ _ _ _ _ Hm3 Hm4))). cbn [app].
    rewrite app_nil_r, copies_deliveries. unfold deliveries. by rewrite Hpn.
  - apply Ok_inj in H as <-. split; [done|]. apply (moves_conserves _ _ _ _ Hm12 (Permutation_refl _)).
Qed.

(** ** The switch's loops *)

Lemma no_fuel_map2M f l1 l2 : (forall a b, no_fuel (f a b)) -> no_fuel (map2M f l1 l2).
Proof. intros Hf. revert l2. induction l1 as [|a l1 IH]; intros [|b l2]; cbn [map2M]; no_fuel. Qed.

Lemma no_fuel_all2M f l1 l2 : (forall a b, no_fuel (f a b)) -> no_fuel (all2M f l1 l2).
Proof. intros Hf. revert l2. induction l1 as [|a l1 IH]; intros [|b l2]; cbn [all2M]; no_fuel. Qed.

Lemma no_fuel_sets a b : no_fuel (RubySet.AND a b) /\ no_fuel (removeSet a b).
Proof. unfold RubySet.AND, removeSet, Set_new. split; no_fuel. Qed.

Lemma route_message_no_fuel s nd : no_fuel (route_message s nd).
Proof.
  unfold route_message, route_step, intersectionIsNotEmpty, NetDest.AND, removeNetDest, store_prefix, resize, setSize. no_fuel.
  - apply no_fuel_all2M. no_fuel.
  - apply no_fuel_map2M. intros ??. apply no_fuel_sets.
  - apply no_fuel_map2M. intros ??. apply no_fuel_sets.
Qed.

Lemma store_ops_no_fuel b w : no_fuel (buf_dequeue now b w) /\ no_fuel (buf_slot_available now b w) /\ no_fuel (buf_get_size now b w) /\
  forall m delta, no_fuel (buf_enqueue rr we rnd now b m delta w).
Proof.
  unfold buf_dequeue, buf_slot_available, buf_get_size, buf_enqueue, get_buffer, set_buffer, dequeue, enqueue, updateDelayedTicks, peekMsgPtr.
  split_and!; no_fuel.
Qed.

Lemma switch_message_no_fuel adaptive ord buffer vnet s w : no_fuel (switch_message rr we rnd now adaptive ord buffer vnet s w).
Proof.
  unfold switch_message, order_links, measure_link, out_queue_length, all_enough, send_copy, get_buffer, port_buffer, deref,
    updateDelayedTicks, peekMsgPtr. no_fuel; first [apply store_ops_no_fuel | apply route_message_no_fuel].
Qed.

Lemma ready_bound b v w : get_buffer b w = Ok v -> (ready_at b w <= length (m_prio_heap v))%nat.
Proof. intros Hg. unfold ready_at. rewrite Hg. apply length_filter. Qed.

Lemma switch_loop_ok fuel adaptive ord buffer vnet s w : msgs_ok w -> Forall shaped (ps_routing_table s) -> (ready_at buffer w < fuel)%nat ->
  no_fuel (switch_loop rr we rnd now fuel adaptive ord buffer vnet s w) /\
  forall s' w', switch_loop rr we rnd now fuel adaptive ord buffer vnet s w = Ok (s', w') -> ports_of s' = ports_of s /\ conserves w w'.
Proof.
  revert s w. induction fuel as [|fuel IH]; intros s w Hm Ht Hf; [lia|]. cbn [switch_loop].
  pose proof (switch_message_no_fuel adaptive ord buffer vnet s w) as Hnf.
  destruct (switch_message _ _ _ _ _ _ _ _ _ _) as [c|e] eqn:E; cbn [mbind result_bind]; [|split; [exact (no_fuel_Err e Hnf) | done]].
  apply switch_message_step in E; [|done | done]. destruct c as [[s1 w1] | [s1 w1]].
  - destruct E as (Hp & Hc & Hr). assert (Ht1 : ps_routing_table s1 = ps_routing_table s) by (unfold ports_of in Hp; congruence).
    destruct (IH s1 w1) as [H1 H2]; [apply Hc | by rewrite Ht1 | lia|]. split; [done|]. intros s' w' H. destruct (H2 s' w' H) as [Hp' Hc'].
    split; [congruence | by apply (conserves_trans _ w1)].
  - split; [done|]. intros s' w' H. by apply Ok_inj in H as [= <- <-].
Qed.

(** What a switch's operation keeps. *)
Definition switch_keeps (s s' : PerfectSwitch) (w w' : World) : Prop := ports_of s' = ports_of s /\ conserves w w'.

Lemma switch_keeps_trans s1 s2 s3 w1 w2 w3 : switch_keeps s1 s2 w1 w2 -> switch_keeps s2 s3 w2 w3 -> switch_keeps s1 s3 w1 w3.
Proof. intros [? ?] [? ?]. split; [congruence | by apply (conserves_trans _ w2)]. Qed.

(** A computation on a switch and the store that ends and keeps what it should. *)
Definition keeps_ok (s : PerfectSwitch) (w : World) (r : result (PerfectSwitch * World)) : Prop :=
  safe (fun p => switch_keeps s p.1 w p.2) r.

Lemma operateMessageBuffer_ok adaptive ord buffer vnet s w : msgs_ok w -> Forall shaped (ps_routing_table s) ->
  keeps_ok s w (operateMessageBuffer rr we rnd now adaptive ord buffer vnet s w).
Proof.
  intros Hm Ht. unfold operateMessageBuffer. destruct (get_buffer buffer w) as [v|e] eqn:Hg; cbn [mbind result_bind].
  - destruct (switch_loop_ok (S (length (m_prio_heap v))) adaptive ord buffer vnet s w Hm Ht) as [H1 H2];
      [pose proof (ready_bound buffer v w Hg); lia|]. split; [exact H1|]. intros [s' w'] H. exact (H2 s' w' H).
  - split; [|done]. pose proof (no_fuel_vec_get (w_bufs w) buffer) as Hnf. unfold get_buffer in Hg. rewrite Hg in Hnf. exact (no_fuel_Err e Hnf).
Qed.

Lemma keeps_tables s s' w w' : switch_keeps s s' w w' -> Forall shaped (ps_routing_table s) -> msgs_ok w' /\ Forall shaped (ps_routing_table s').
Proof. intros [Hp Hc] Ht. split; [apply Hc|]. assert (E : ps_routing_table s' = ps_routing_table s) by (unfold ports_of in Hp; congruence). by rewrite E. Qed.

Lemma keeps_ok_then s0 w0 s w r : switch_keeps s0 s w0 w -> keeps_ok s w r -> keeps_ok s0 w0 r.
Proof. intros Hk [Hn Hp]. split; [done|]. intros p Hr. exact (switch_keeps_trans _ _ _ _ _ _ Hk (Hp p Hr)). Qed.

Lemma operate_input_safe adaptive ord vnet s0 w0 st : Forall shaped (ps_routing_table s0) -> switch_keeps s0 st.1.2 w0 st.2 ->
  safe (fun st' => switch_keeps s0 st'.1.2 w0 st'.2) (operate_input rr we rnd now adaptive ord vnet st).
Proof.
  destruct st as [[inc s] w]. intros Ht Hk. cbn in Hk. destruct (keeps_tables _ _ _ _ Hk Ht) as [Hm Ht']. unfold operate_input.
  apply (safe_bind _ _ _ _ (safe_any _ (no_fuel_vec_get _ _))). intros row _.
  destruct (vsize row <=? vnet); [by apply safe_Ok|]. apply (safe_bind _ _ _ _ (safe_any _ (no_fuel_vec_get _ _))). intros [b|] _; [|by apply safe_Ok].
  eapply safe_bind; [apply (keeps_ok_then s0 w0 s w); [done | by apply operateMessageBuffer_ok]|]. intros [s' w'] Hk'. by apply safe_Ok.
Qed.

Lemma ps_operateVnet_ok adaptive ord vnet s w : msgs_ok w -> Forall shaped (ps_routing_table s) ->
  keeps_ok s w (ps_operateVnet rr we rnd now adaptive ord vnet s w).
Proof.
  intros Hm Ht. unfold ps_operateVnet, keeps_ok. set (s1 := with_counters _ _ s).
  assert (Hk : switch_keeps s s1 w w) by (split; [done | by apply conserves_refl]).
  apply (safe_bind _ _ _ _ (safe_any _ (no_fuel_vec_get _ _))). intros pending _. destruct (0 <? pending); [|by apply safe_Ok].
  eapply safe_bind; [apply (safe_for_range (fun st => switch_keeps s st.1.2 w st.2)); [done | intros k st Hst; by apply operate_input_safe]|].
  intros [[inc s'] w'] Hk'. by apply safe_Ok.
Qed.

Lemma ps_wakeup_ok adaptive ord s w : msgs_ok w -> Forall shaped (ps_routing_table s) -> keeps_ok s w (ps_wakeup rr we rnd now adaptive ord s w).
Proof.
  intros Hm Ht. unfold ps_wakeup, keeps_ok. assert (Hk : forall a b, switch_keeps s (with_counters a b s) w w) by (intros; split; [done | by apply conserves_refl]).
  assert (Hstep : forall vnet st, switch_keeps s st.1 w st.2 -> safe (fun p => switch_keeps s p.1 w p.2) (ps_operateVnet rr we rnd now adaptive ord vnet st.1 st.2)).
  { intros vnet st Hst. apply (keeps_ok_then s w st.1 st.2 _ Hst). destruct (keeps_tables _ _ _ _ Hst Ht). by apply ps_operateVnet_ok. }
  destruct (_ <? _); apply safe_for_range; try apply Hk; intros k [s1 w1] Hst; apply (Hstep _ (s1, w1) Hst).
Qed.

(** ** The throttle *)

Section Throttling.
Context (net : Network) (Hctrl : 0 <= m_control_msg_size net) (Hdata : 0 <= m_data_msg_size net).

(** The units a message of some type takes, and a list of them. *)
Definition units_of (ty : MessageSizeType) : Z :=
  match MessageSizeType_to_int net ty with Ok n => n * MESSAGE_SIZE_MULTIPLIER | Err _ => 0 end.
Definition total_units (l : list (MessageSizeType * Z)) : Z := foldr (fun p n => units_of p.1 + n) 0 l.

Lemma units_of_nonneg ty : 0 <= units_of ty.
Proof. unfold units_of, MESSAGE_SIZE_MULTIPLIER. destruct ty; cbn [MessageSizeType_to_int]; lia. Qed.

Lemma total_units_app l1 l2 : total_units (l1 ++ l2) = total_units l1 + total_units l2.
Proof. unfold total_units. induction l1 as [|p l1 IH]; cbn; [done|]. rewrite IH. lia. Qed.

Lemma network_message_to_size_units m size : network_message_to_size net m = Ok size -> size = units_of (messageSize m).
Proof.
  unfold network_message_to_size, units_of. destruct (MessageSizeType_to_int net (messageSize m)) as [n|]; cbn [mbind result_bind]; [|done].
  cbn [BROADCAST_SCALING Z.ltb Z.compare Pos.compare Pos.compare_cont andb]. congruence.
Qed.

(** What the steps of a transfer keep, and how the units add up: what was started, plus what
    was owed before, is paid with bandwidth or still owed. *)
Record transferred (st st' : Transfer) : Prop := {
  tx_cons : conserves (tr_world st) (tr_world st');
  tx_units : 0 <= units st';
  tx_bw : 0 <= bw_remaining st' <= bw_remaining st;
  tx_count : exists new, counted st' = counted st ++ new /\
    total_units new + units st + bw_remaining st' = units st' + bw_remaining st
}.

Lemma transferred_refl st : msgs_ok (tr_world st) -> 0 <= units st -> 0 <= bw_remaining st -> transferred st st.
Proof. intros. split; [by apply conserves_refl | done | lia|]. exists []. rewrite app_nil_r. split; [done | cbn; lia]. Qed.

Lemma transferred_trans a b c : transferred a b -> transferred b c -> transferred a c.
Proof.
  intros [C1 U1 B1 (n1 & E1 & T1)] [C2 U2 B2 (n2 & E2 & T2)]. split; [by apply (conserves_trans _ (tr_world b)) | done | lia|].
  exists (n1 ++ n2). rewrite E2, E1, app_assoc. split; [done|]. rewrite total_units_app. lia.
Qed.

Lemma transferred_queried st st' w : transferred st st' -> same_buffers (tr_world st') w ->
  transferred st (mkTransfer (bw_remaining st') (units st') (counted st') w).
Proof.
  intros [C U B T] Hs. split; [|done..]. apply (conserves_trans _ (tr_world st')); [done|].
  apply (moves_conserves _ _ [] []); [|done]. apply same_buffers_moves; [apply C | done].
Qed.

(** The loop's condition changes nothing but the bookkeeping of queries. *)
Lemma can_transfer_step in_ out st : msgs_ok (tr_world st) ->
  safe (fun p => exists w, same_buffers (tr_world st) w /\ p.2 = mkTransfer (bw_remaining st) (units st) (counted st) w /\
     (p.1 = true -> 0 < bw_remaining st /\ (0 < units st \/ exists v, get_buffer in_ w = Ok v /\ isReady now v = true)))
    (can_transfer now in_ out st).
Proof.
  intros Hm. unfold can_transfer. assert (Est : st = mkTransfer (bw_remaining st) (units st) (counted st) (tr_world st)) by (by destruct st).
  destruct (Z.ltb_spec 0 (bw_remaining st)) as [Hb|]; cbn [negb]; [|apply safe_Ok; exists (tr_world st); done].
  apply (safe_bind _ _ _ _ (safe_any _ (no_fuel_vec_get _ _))). intros v Hv.
  destruct (isReady now v || (0 <? units st)) eqn:Er; cbn [negb]; [|apply safe_Ok; exists (tr_world st); done].
  destruct (store_ops_no_fuel out (tr_world st)) as (_ & Hnf & _). apply (safe_bind _ _ _ _ (safe_any _ Hnf)). intros [ok w] Hs.
  apply safe_Ok. exists w. apply (buf_slot_available_moves out (tr_world st) ok w Hm) in Hs as Hsb. split; [done|]. split; [done|]. cbn.
  intros _. split; [done|]. apply orb_true_iff in Er as [Er|Er]; [right | left; by apply Z.ltb_lt in Er].
  destruct (same_buffers_get _ w in_ v Hsb Hv) as (v' & Hv' & Hq). exists v'. split; [done|]. unfold isReady in *. by rewrite (queried_heap v v' Hq).
Qed.

(** Starting a message and spending the bandwidth. *)
Lemma start_message_step vnet lat in_ out st : msgs_ok (tr_world st) -> 0 <= units st -> 0 < bw_remaining st ->
  safe (fun st' => transferred st (spend_bandwidth st') /\
     (units st = 0 -> (exists v, get_buffer in_ (tr_world st) = Ok v /\ isReady now v = true) ->
        ready_at in_ (tr_world st) = S (ready_at in_ (tr_world st'))) /\
     (0 < units st -> st' = st))
    (start_message net rr we rnd now vnet lat in_ out st).
Proof.
  intros Hm Hu Hb. unfold start_message. apply (safe_bind _ _ _ _ (safe_any _ (no_fuel_vec_get _ _))). intros v Hv.
  assert (Hspend : transferred st (spend_bandwidth st)).
  { split; cbn; [by apply conserves_refl | lia | lia|]. exists []. rewrite app_nil_r. split; [done | cbn; lia]. }
  destruct (Z.eqb_spec (units st) 0) as [Hz|Hz]; cbn [andb];
    [|apply safe_Ok; split_and!; [done | lia | done]].
  destruct (isReady now v) eqn:Er.
  2: { apply safe_Ok. split_and!; [done | | done]. intros _ (v' & Hv' & Hr). unfold get_buffer in *. congruence. }
  assert (Hpk : safe (fun m => peekMsgPtr v = Ok m) (peekMsgPtr v)) by (apply safe_any; unfold peekMsgPtr; no_fuel).
  apply (safe_bind _ _ _ _ Hpk). intros msg Hmsg.
  assert (Hsz : safe (fun n => network_message_to_size net msg = Ok n) (network_message_to_size net msg))
    by (apply safe_any; unfold network_message_to_size, MessageSizeType_to_int; no_fuel).
  apply (safe_bind _ _ _ _ Hsz). intros size Hsize. apply network_message_to_size_units in Hsize as ->.
  destruct (store_ops_no_fuel in_ (tr_world st)) as (Hnd & _). apply (safe_bind _ _ _ _ (safe_any _ Hnd)). intros w1 Hd.
  assert (Hud : safe (fun m => updateDelayedTicks now msg = Ok m) (updateDelayedTicks now msg)) by (apply safe_any; unfold updateDelayedTicks; no_fuel).
  apply (safe_bind _ _ _ _ Hud). intros moved Hmv. apply updateDelayedTicks_keeps in Hmv as [Ep Ed].
  destruct (store_ops_no_fuel out w1) as (_ & _ & _ & Hne). apply (safe_bind _ _ _ _ (safe_any _ (Hne moved lat))). intros w2 He.
  destruct (buf_dequeue_moves in_ (tr_world st) w1 Hm Hd) as (v2 & m2 & Hv2 & Hm2 & Hsh & Hmv1). unfold get_buffer in Hv2.
  rewrite Hv in Hv2. apply Ok_inj in Hv2 as <-. rewrite Hmsg in Hm2. apply Ok_inj in Hm2 as <-.
  assert (Hmv2 : moves w1 w2 [] (deliveries moved)) by (apply (buf_enqueue_moves out moved lat); [apply Hmv1 | by rewrite Ed | done]).
  apply safe_Ok. split_and!; [| |lia].
  - pose proof (units_of_nonneg (messageSize msg)) as Hnn. split; cbn.
    + apply (moves_conserves _ _ _ _ (moves_trans _ _ _ _ _ _ _ Hmv1 Hmv2)). unfold deliveries. by rewrite Ep, Ed, app_nil_r.
    + lia.
    + lia.
    + exists [(messageSize msg, vnet)]. split; [done|]. cbn. lia.
  - intros _ _. cbn. rewrite (buf_dequeue_ready in_ (tr_world st) w1 Hd). f_equal. symmetry. by apply (buf_enqueue_ready out in_ moved lat).
Qed.

(** The iterations a transfer still needs: the message in progress, the ready ones, and the
    test that ends the loop. *)
Definition need (in_ : Z) (st : Transfer) : nat :=
  if bw_remaining st <=? 0 then 1 else ready_at in_ (tr_world st) + (if 0 <? units st then 2 else 1).

Lemma transfer_loop_ok fuel vnet lat in_ out st : msgs_ok (tr_world st) -> 0 <= units st -> 0 <= bw_remaining st -> (need in_ st <= fuel)%nat ->
  safe (transferred st) (transfer_loop net rr we rnd now fuel vnet lat in_ out st).
Proof.
  revert st. induction fuel as [|fuel IH]; intros st Hm Hu Hb Hn.
  { exfalso. unfold need in Hn. destruct (bw_remaining st <=? 0), (0 <? units st); lia. }
  cbn [transfer_loop]. apply (safe_bind _ _ _ _ (can_transfer_step in_ out st Hm)). intros [go st1'] (w & Hs & E1 & Hgo). cbn [fst snd] in E1, Hgo. subst st1'.
  set (st1 := mkTransfer (bw_remaining st) (units st) (counted st) w).
  assert (Hst1 : transferred st st1) by (apply (transferred_queried st st w); [by apply transferred_refl | done]).
  assert (Hm1 : msgs_ok w) by apply (tx_cons _ _ Hst1).
  destruct go; [|by apply safe_Ok]. destruct (Hgo eq_refl) as [Hb0 Hr].
  apply (safe_bind _ _ _ _ (start_message_step vnet lat in_ out st1 Hm1 Hu Hb0)). intros st2 (Ht & Hz & Hp).
  pose proof Ht as [Hc2 Hu2 Hb2 _].
  destruct (IH (spend_bandwidth st2)) as [Hnf Hpost]; [apply Hc2 | done | apply Hb2 | |].
  2: { split; [done|]. intros st' Hst'. apply (transferred_trans st st1); [done|]. apply (transferred_trans st1 (spend_bandwidth st2)); [done | by apply Hpost]. }
  assert (Hready : ready_at in_ (tr_world st) = ready_at in_ w) by (symmetry; by apply same_buffers_ready).
  unfold need in Hn |- *. rewrite (proj2 (Z.leb_gt (bw_remaining st) 0)), Hready in Hn by lia.
  change (tr_world (spend_bandwidth st2)) with (tr_world st2).
  assert (Hle : (ready_at in_ (tr_world st2) + (if (0 <? units st)%Z then 1 else 0) < S fuel)%nat /\ (1 <= fuel)%nat).
  { destruct (Z.ltb_spec 0 (units st)) as [Hup|Hup].
    - rewrite (Hp Hup). cbn. lia.
    - destruct Hr as [?|Hr]; [lia|]. specialize (Hz ltac:(cbn; lia) Hr). cbn in Hz. lia. }
  destruct (Z.leb_spec (bw_remaining (spend_bandwidth st2)) 0) as [|Hpos]; [lia|].
  assert (Hz2 : units (spend_bandwidth st2) = 0) by (cbn in Hpos |- *; lia). rewrite Hz2. cbn [Z.ltb Z.compare].
  destruct (Z.ltb_spec 0 (units st)) as [Hup|Hup]; [lia|].
  destruct Hr as [?|Hr]; [lia|]. specialize (Hz ltac:(cbn; lia) Hr). cbn in Hz. lia.
Qed.

(** The parts of a throttle its operation does not change, and its sums. *)
Definition links_of (t : Throttle) :=
  (th_switch_id t, th_node t, th_in t, th_out t, m_vnets t, getLinkBandwidth t).
Definition owed (t : Throttle) : Z := foldr Z.add 0 (m_units_remaining t).

Record throttled (st st' : Z * bool * Throttle * World) : Prop := {
  tt_cons : conserves st.2 st'.2;
  tt_links : links_of st'.1.2 = links_of st.1.2;
  tt_bw : 0 <= st'.1.1.1 <= st.1.1.1;
  tt_owed : Forall (fun u => 0 <= u) (m_units_remaining st'.1.2);
  tt_count : exists new, th_msg_counts st'.1.2 = th_msg_counts st.1.2 ++ new /\
    total_units new + owed st.1.2 + st'.1.1.1 = owed st'.1.2 + st.1.1.1
}.

Lemma throttled_trans a b c : throttled a b -> throttled b c -> throttled a c.
Proof.
  intros [C1 L1 B1 O1 (n1 & E1 & T1)] [C2 L2 B2 O2 (n2 & E2 & T2)]. split; [by apply (conserves_trans _ b.2) | congruence | lia | done|].
  exists (n1 ++ n2). rewrite E2, E1, app_assoc. split; [done|]. rewrite total_units_app. lia.
Qed.

Lemma throttled_refl st : msgs_ok st.2 -> 0 <= st.1.1.1 -> Forall (fun u => 0 <= u) (m_units_remaining st.1.2) -> throttled st st.
Proof. intros. split; [by apply conserves_refl | done | lia | done|]. exists []. rewrite app_nil_r. split; [done | cbn; lia]. Qed.

Lemma sum_insert l i x y : l !! i = Some x -> foldr Z.add 0 (<[i := y]> l) + x = foldr Z.add 0 l + y.
Proof.
  revert i. induction l as [|z l IH]; intros [|i] H; try done.
  - injection H as ->. cbn. lia.
  - change (<[S i := y]> (z :: l)) with (z :: <[i := y]> l). specialize (IH i H). cbn [foldr]. lia.
Qed.

Lemma th_operateVnet_ok vnet in_ out bw sw t w : msgs_ok w -> 0 <= bw -> Forall (fun u => 0 <= u) (m_units_remaining t) ->
  safe (throttled (bw, sw, t, w)) (th_operateVnet net rr we rnd now vnet in_ out bw sw t w).
Proof.
  intros Hm Hb Ho. unfold th_operateVnet.
  destruct in_ as [i|]; [|apply safe_Ok; by apply throttled_refl]. destruct out as [o|]; [|apply safe_Ok; by apply throttled_refl].
  apply (safe_bind _ _ _ _ (safe_any _ (no_fuel_vec_get _ _))). intros u Hu. pose proof (Forall_vec_get _ _ _ _ Ho Hu) as Hu0. cbn beta in Hu0.
  rewrite (proj2 (Z.leb_le 0 u)) by lia. cbn [assert_ mbind result_bind].
  destruct (get_buffer i w) as [v|e] eqn:Hv.
  2: { split; [|done]. pose proof (no_fuel_vec_get (w_bufs w) i) as Hnf. unfold get_buffer in Hv. rewrite Hv in Hnf. exact (no_fuel_Err e Hnf). }
  cbn [mbind result_bind]. eapply safe_bind.
  { apply transfer_loop_ok; [done | done | done|]. unfold need. cbn [bw_remaining units tr_world]. pose proof (ready_bound i v w Hv).
    destruct (bw <=? 0), (0 <? u); lia. }
  intros st [Hc Hun Hbw (new & En & Tn)]. cbn [bw_remaining units counted tr_world] in *.
  rewrite (vec_set_Ok_get _ _ _ (units st) Hu). cbn [mbind result_bind]. set (t' := with_units _ _ t).
  assert (Hdone : forall b' w', same_buffers (tr_world st) w' -> throttled (bw, sw, t, w) (bw_remaining st, b', t', w')).
  { intros b' w' Hs. split; cbn; [|done | done | by apply Forall_insert |].
    - apply (conserves_trans _ (tr_world st)); [done|]. apply (moves_conserves _ _ [] []); [|done]. apply same_buffers_moves; [apply Hc | done].
    - exists new. split; [done|]. apply vec_get_Ok in Hu as [_ Hu]. pose proof (sum_insert _ _ _ (units st) Hu) as Hsum. unfold owed. cbn. lia. }
  apply (safe_bind _ _ _ _ (safe_any _ (no_fuel_vec_get _ _))). intros v' Hv'.
  destruct (_ && _); [|apply safe_Ok; by apply Hdone].
  destruct (store_ops_no_fuel o (tr_world st)) as (_ & Hnf & _). apply (safe_bind _ _ _ _ (safe_any _ Hnf)). intros [ok w'] Hs.
  apply safe_Ok. apply Hdone. apply (buf_slot_available_moves o _ ok); [apply Hc | done].
Qed.

Lemma operate_nth_ok st0 st vnet : throttled st0 st -> safe (throttled st0) (operate_nth net rr we rnd now vnet st).
Proof.
  intros Hst. destruct st as [[[bw sw] t] w]. unfold operate_nth. apply (safe_bind _ _ _ _ (safe_any _ (no_fuel_vec_get _ _))). intros i _.
  apply (safe_bind _ _ _ _ (safe_any _ (no_fuel_vec_get _ _))). intros o _. pose proof Hst as [Hc _ Hb Ho _].
  destruct (th_operateVnet_ok vnet i o bw sw t w) as [Hn Hp]; [apply Hc | apply Hb | done|]. split; [done|]. intros st' Hst'.
  apply (throttled_trans _ _ _ Hst (Hp st' Hst')).
Qed.

(** One wakeup: [used] is the bandwidth it spent. *)
Lemma th_wakeup_ok t w : msgs_ok w -> Forall (fun u => 0 <= u) (m_units_remaining t) ->
  safe (fun p => conserves w p.2 /\ links_of p.1 = links_of t /\ Forall (fun u => 0 <= u) (m_units_remaining p.1) /\
     exists new used, 0 <= used <= getLinkBandwidth t /\ th_msg_counts p.1 = th_msg_counts t ++ new /\
       total_units new + owed t = used + owed p.1)
    (th_wakeup net rr we rnd now t w).
Proof.
  intros Hm Ho. unfold th_wakeup. apply (safe_bind _ _ _ _ (safe_any _ (no_fuel_assert _))). intros u Hpos%assert_Ok%Z.ltb_lt.
  set (t1 := with_usage _ _ t). set (st0 := (getLinkBandwidth t, false, t1, w)).
  assert (H0 : throttled st0 st0) by (apply throttled_refl; [done | cbn; lia | done]).
  eapply (safe_bind (throttled st0)).
  { destruct (_ <? _); (apply safe_for_range; [done|]); intros k st Hst; by apply operate_nth_ok. }
  intros [[[bw sw] t2] w2] [Hc Hl Hb Hf (new & En & Tn)]. cbn in *.
  set (t3 := with_usage _ _ t2).
  assert (Hres : links_of t3 = links_of t /\ Forall (fun u => 0 <= u) (m_units_remaining t3) /\
    exists new used, 0 <= used <= getLinkBandwidth t /\ th_msg_counts t3 = th_msg_counts t ++ new /\ total_units new + owed t = used + owed t3).
  { split; [exact Hl|]. split; [done|]. exists new, (getLinkBandwidth t - bw). split; [lia|]. split; [exact En|].
    change (owed t3) with (owed t2). unfold owed at 1. lia. }
  destruct Hres as (H1 & H2 & H3). destruct (_ && _); apply safe_Ok; cbn [fst snd]; (split; [exact Hc|]); (split; [exact H1|]); split; done.
Qed.
End Throttling.
End Ops.

(** ** The network *)

(** A network whose tables and messages name existing nodes and whose throttles owe nothing
    negative. *)
Record simple_ok (n : SimpleNetwork) : Prop := {
  so_msgs : msgs_ok (sn_world n);
  so_tables : Forall (fun s => Forall shaped (ps_routing_table (m_perfect_switch s))) (m_switches n);
  so_owed : Forall (fun s => Forall (fun t => Forall (fun u => 0 <= u) (m_units_remaining t)) (m_throttles s)) (m_switches n);
  so_sizes : 0 <= m_control_msg_size (sn_base n) /\ 0 <= m_data_msg_size (sn_base n)
}.

(** What a wakeup keeps. *)
Definition network_keeps (n n' : SimpleNetwork) : Prop :=
  simple_ok n' /\ world_deliveries (sn_world n') ≡ₚ world_deliveries (sn_world n).

Lemma on_switch_safe s f n : simple_ok n ->
  (forall sw, vec_get (m_switches n) s = Ok sw -> Forall shaped (ps_routing_table (m_perfect_switch sw)) ->
     Forall (fun t => Forall (fun u => 0 <= u) (m_units_remaining t)) (m_throttles sw) ->
     safe (fun p => conserves (sn_world n) p.2 /\ Forall shaped (ps_routing_table (m_perfect_switch p.1)) /\
       Forall (fun t => Forall (fun u => 0 <= u) (m_units_remaining t)) (m_throttles p.1)) (f sw (sn_world n))) ->
  safe (network_keeps n) (on_switch s f n).
Proof.
  intros [Hm Ht Ho Hs] Hf. unfold on_switch. apply (safe_bind _ _ _ _ (safe_any _ (no_fuel_vec_get _ _))). intros sw Hsw.
  eapply safe_bind; [apply (Hf sw Hsw); [exact (Forall_vec_get _ _ _ _ Ht Hsw) | exact (Forall_vec_get _ _ _ _ Ho Hsw)]|].
  intros [sw' w'] (Hc & Ht' & Ho'). cbn [fst snd] in *. rewrite (vec_set_Ok_get _ _ _ sw' Hsw). cbn [mbind result_bind]. apply safe_Ok.
  split; [|apply Hc]. split; cbn; [apply Hc | by apply Forall_insert | by apply Forall_insert | done].
Qed.

Lemma deliver_infos_safe n n0 : network_keeps n0 n -> safe (network_keeps n0) (deliver_infos n).
Proof.
  intros [[Hm Ht Ho Hs] Hd]. unfold deliver_infos.
  eapply (safe_bind (fun sws => Forall (fun s => Forall shaped (ps_routing_table (m_perfect_switch s))) sws /\
    Forall (fun s => Forall (fun t => Forall (fun u => 0 <= u) (m_units_remaining t)) (m_throttles s)) sws)).
  { apply safe_foldM; [done|]. intros [c info] sws [H1 H2]. unfold deliver_info. cbn [fst snd]. destruct c; try (by apply safe_Ok).
    unfold vec_update. apply (safe_bind _ _ _ _ (safe_any _ (no_fuel_vec_get _ _))). intros sw Hsw. unfold storeEventInfo.
    eapply (safe_bind (fun sw' => ps_routing_table (m_perfect_switch sw') = ps_routing_table (m_perfect_switch sw) /\ m_throttles sw' = m_throttles sw)).
    - eapply (safe_bind (fun p => ps_routing_table p = ps_routing_table (m_perfect_switch sw))); [|intros p Hp; by apply safe_Ok].
      apply (safe_bind _ _ _ _ (safe_any _ (no_fuel_vec_modify _ _ _))). intros l _. by apply safe_Ok.
    - intros sw' [E1 E2]. rewrite (vec_set_Ok_get _ _ _ sw' Hsw). apply safe_Ok. split; apply Forall_insert; try done.
      + rewrite E1. exact (Forall_vec_get _ _ _ _ H1 Hsw).
      + rewrite E2. exact (Forall_vec_get _ _ _ _ H2 Hsw). }
  intros sws [H1 H2]. apply safe_Ok. split; [by split | done].
Qed.

Lemma perfect_switch_wakeup_safe rr we rnd now s n : simple_ok n -> safe (network_keeps n) (perfect_switch_wakeup rr we rnd now s n).
Proof.
  intros Hn. unfold perfect_switch_wakeup. eapply safe_bind; [|intros n' Hn'; by apply deliver_infos_safe].
  apply on_switch_safe; [done|]. intros sw _ Ht Ho. eapply safe_bind; [apply (ps_wakeup_ok rr we rnd now); [apply (so_msgs n Hn) | done]|].
  intros [p w'] Hk. cbn [fst snd] in Hk. apply safe_Ok. cbn [fst snd with_m_perfect_switch m_perfect_switch m_throttles].
  destruct (keeps_tables _ _ _ _ Hk Ht) as [_ Ht']. split; [apply Hk | done].
Qed.

Lemma throttle_wakeup_safe rr we rnd now s port n : simple_ok n -> safe (network_keeps n) (throttle_wakeup rr we rnd now s port n).
Proof.
  intros Hn. unfold throttle_wakeup. eapply safe_bind; [|intros n' Hn'; by apply deliver_infos_safe].
  apply on_switch_safe; [done|]. intros sw _ Ht Ho. apply (safe_bind _ _ _ _ (safe_any _ (no_fuel_vec_get _ _))). intros t Hth.
  destruct (so_sizes n Hn) as [Hc Hd].
  eapply safe_bind; [apply (th_wakeup_ok rr we rnd now (sn_base n) Hc Hd); [apply (so_msgs n Hn) | exact (Forall_vec_get _ _ _ _ Ho Hth)]|].
  intros [t' w'] (Hcw & _ & Hu & _). cbn [fst snd] in *. rewrite (vec_set_Ok_get _ _ _ t' Hth). cbn [mbind result_bind]. apply safe_Ok.
  cbn [fst snd with_m_throttles m_perfect_switch m_throttles]. split; [done|]. split; [done|]. by apply Forall_insert.
Qed.
End Conserve.
