(* ===== verification/SimpleProperties.v ===== *)
(** * Properties of the simple network, with an example *)

From S2P Require Import Prelude Double Heap RubySet NetDest NetDestTheory Flit Consumer MessageBuffer MessageBufferTheory.
From S2P Require Import AddrRange BaseNetwork Topology PerfectSwitch Throttle SimpleNetwork SimpleTheory SimpleConserve.
From S2P Require Import TopologyProperties.
Local Open Scope Z_scope.

(** ** An example: two switches with one node each *)

(** Buffers 0 and 1 lead into the network, 2 and 3 out of it; 4 to 7 are the switches' port
    buffers, 8 and 9 those of the internal links. *)
Definition ex_bufs : list MessageBuffer :=
  let b := MessageBuffer_new 0 false false in
  let out k := with_m_consumer (Some (CNI k)) b in
  [b; b; out 0; out 1; b; b; b; b; b; b].

Definition ex_simple_ext (k : Z) : ExtLinkParams simple_link := mkExtLinkParams 0 k k (mkBasicLink 1 1 (SimpleExtLink 16)).
Definition ex_simple_int (s d : Z) : IntLinkParams simple_link := mkIntLinkParams s d "" "" (mkBasicLink 1 1 (SimpleIntLink 16)).

Definition ex_simple_network : result SimpleNetwork :=
  let types := node_types 2 in
  b0 ← Network_new (MT := types) 1 8 [];
  b1 ← setToNetQueue 0 false 0 "request" 0 b0;
  b2 ← setToNetQueue 1 false 0 "request" 1 b1;
  b3 ← setFromNetQueue 0 false 0 "request" 2 b2;
  b4 ← setFromNetQueue 1 false 0 "request" 3 b3;
  let sw k := Switch_init (Switch_new k 1 [4 + 2 * k; 5 + 2 * k]) in
  t ← Topology_new (MT := types) 2 [ex_simple_ext 0; ex_simple_ext 1] [ex_simple_int 0 1; ex_simple_int 1 0];
  SimpleNetwork_init (MT := types) 10 64 t (SimpleNetwork_new b4 1000 false [sw 0; sw 1] [8; 9] ex_bufs).

(** A message from node 0 to both nodes. *)
Definition ex_broadcast : Message := mkMessage 0 0 0 0 (mkNetDest [mkRSet 2 3]) MessageSizeType_Control 42.

Definition ex_loaded : result SimpleNetwork :=
  n ← ex_simple_network;
  w ← buf_enqueue false false (fun _ => 0) 1 0 ex_broadcast 1 (sn_world n);
  deliver_infos (with_switches (m_switches n) w n).

Definition ex_empty_simple : SimpleNetwork := SimpleNetwork_new (mkNetwork 0 0 0 0 [] [] [] [] []) 0 false [] [] [].
Definition ex_simple : SimpleNetwork := match ex_loaded with Ok n => n | Err _ => ex_empty_simple end.

Lemma ex_types_fit : @node_ids_fit (node_types 2).
Proof. unfold node_ids_fit. cbn. lia. Qed.

#[local] Instance ex_types_ok : MachineTypesOk (node_types 2) := node_types_ok 2 ltac:(unfold NUMBER_BITS_PER_SET; lia).

Lemma Forall_forallb {A} (P : A -> Prop) (f : A -> bool) l : (forall a, f a = true -> P a) -> forallb f l = true -> Forall P l.
Proof. intros H Hl. apply Forall_forall. intros a Ha. apply H. rewrite forallb_forall in Hl. apply Hl. by apply list_elem_of_In. Qed.

Lemma msgs_ok_b_sound {MT : MachineTypes} w :
  forallb (fun v => forallb (fun m => shaped_b (destination m)) (m_prio_heap v)) (w_bufs w) = true -> msgs_ok w.
Proof. apply Forall_forallb. intros v. apply Forall_forallb. intros m. apply shaped_b_sound. Qed.

Lemma ex_simple_ok : @simple_ok (node_types 2) ex_simple.
Proof.
  split.
  - apply msgs_ok_b_sound. vm_compute. reflexivity.
  - apply (Forall_forallb _ (fun s => forallb (@shaped_b (node_types 2)) (ps_routing_table (m_perfect_switch s)))); [|vm_compute; reflexivity].
    intros s. apply Forall_forallb. apply shaped_b_sound.
  - apply (Forall_forallb _ (fun s => forallb (fun t => forallb (fun u => 0 <=? u) (m_units_remaining t)) (m_throttles s))); [|vm_compute; reflexivity].
    intros s. apply Forall_forallb. intros t. apply Forall_forallb. intros u. apply Z.leb_le.
  - vm_compute. split; congruence.
Qed.

(** ** Conservation *)

(** One wakeup of some consumer of the network, at any time and with any draws. *)
Inductive simple_step {MT : MachineTypes} (n n' : SimpleNetwork) : Prop :=
  | simple_step_wakeup c now rr we rnd evs (H : simple_wakeup rr we rnd now c n = Ok (n', evs)).

Lemma simple_wakeup_safe {MT : MachineTypes} {MTok : MachineTypesOk MT} rr we rnd now c n : node_ids_fit -> simple_ok n ->
  safe (fun p => network_keeps n p.1) (simple_wakeup rr we rnd now c n).
Proof.
  intros Hfit Hn. unfold simple_wakeup.
  eapply (safe_bind (network_keeps n)); [|intros n' [[] Hd]; apply safe_Ok; split; [by split | done]].
  destruct c; try (by split); [by apply perfect_switch_wakeup_safe | by apply throttle_wakeup_safe].
Qed.

(** C20: The simple network neither loses nor duplicates a delivery.  In every execution, that is
    every sequence of wakeups of its switches and throttles, the multiset of pending deliveries
    (payload and destination node, over all messages in all buffers) stays the same although
    messages are split at switches, and no wakeup's loops run out of the fuel the model gives
    them. *)
Theorem simple_network_conserves {MT : MachineTypes} {MTok : MachineTypesOk MT} n n' :
  node_ids_fit -> simple_ok n -> rtc simple_step n n' ->
  simple_ok n' /\ world_deliveries (sn_world n') ≡ₚ world_deliveries (sn_world n) /\
  forall rr we rnd now c, simple_wakeup rr we rnd now c n' <> Err EFuel.
Proof.
  intros Hfit Hn Hr. assert (Hk : network_keeps n n').
  { induction Hr as [n | n n1 n2 [c now rr we rnd evs H] _ IH]; [by split|].
    destruct (proj2 (simple_wakeup_safe rr we rnd now c n Hfit Hn) _ H) as [H1 H2]. cbn in H1, H2.
    destruct (IH H1) as [H3 H4]. split; [done|]. by rewrite H4. }
  destruct Hk as [H1 H2]. split_and!; [done | done|]. intros rr we rnd now c. apply (simple_wakeup_safe rr we rnd now c n' Hfit H1).
Qed.

(** After the first switch's wakeup the broadcast is split in two copies. *)
Lemma simple_network_conserves_witness : exists n', rtc (@simple_step (node_types 2)) ex_simple n' /\
  map (fun v => length (m_prio_heap v)) (w_bufs (sn_world ex_simple)) = [1; 0; 0; 0; 0; 0; 0; 0; 0; 0]%nat /\
  map (fun v => length (m_prio_heap v)) (w_bufs (sn_world n')) = [0; 0; 0; 0; 1; 1; 0; 0; 0; 0]%nat /\
  @world_deliveries (node_types 2) (sn_world n') ≡ₚ @world_deliveries (node_types 2) (sn_world ex_simple).
Proof.
  destruct (@simple_wakeup (node_types 2) false false (fun _ => 0) 5 (CPerfectSwitch 0) ex_simple) as [[n' evs]|e] eqn:E;
    [|vm_compute in E; discriminate E].
  assert (Hr : rtc (@simple_step (node_types 2)) ex_simple n') by (apply rtc_once; by econstructor).
  exists n'. split; [exact Hr|]. split; [vm_compute; reflexivity|]. split.
  - assert (H : (p ← @simple_wakeup (node_types 2) false false (fun _ => 0) 5 (CPerfectSwitch 0) ex_simple;
      Ok (map (fun v => length (m_prio_heap v)) (w_bufs (sn_world p.1)))) = Ok [0; 0; 0; 0; 1; 1; 0; 0; 0; 0]%nat) by (vm_compute; reflexivity).
    rewrite E in H. exact (Ok_inj _ _ H).
  - apply (simple_network_conserves ex_simple n' ex_types_fit ex_simple_ok Hr).
Defined.

(** ** Bandwidth *)

(** C22: A throttle never exceeds its bandwidth.  In one wakeup the units of the messages it
    starts, plus what it owed for earlier messages, are paid from at most one cycle's
    bandwidth or are still owed afterwards, and what is owed is never negative; so is the
    loop's end: the wakeup does not run out of fuel. *)
Theorem throttle_bandwidth {MT : MachineTypes} {MTok : MachineTypesOk MT} net rr we rnd now t w :
  0 <= m_control_msg_size net -> 0 <= m_data_msg_size net -> msgs_ok w ->
  Forall (fun u => 0 <= u) (m_units_remaining t) ->
  th_wakeup net rr we rnd now t w <> Err EFuel /\
  forall t' w', th_wakeup net rr we rnd now t w = Ok (t', w') ->
    Forall (fun u => 0 <= u) (m_units_remaining t') /\
    exists started used, th_msg_counts t' = th_msg_counts t ++ started /\ 0 <= used <= getLinkBandwidth t /\
      total_units net started + owed t = used + owed t'.
Proof.
  intros Hc Hd Hm Ho. destruct (th_wakeup_ok rr we rnd now net Hc Hd t w Hm Ho) as [Hn Hp]. split; [exact Hn|].
  intros t' w' H. destruct (Hp (t', w') H) as (_ & _ & Hu & new & used & Hr & Hcnt & He). split; [exact Hu|]. by exists new, used.
Qed.

Definition ex_throttle : Throttle := mkThrottle 0 0 [Some 0] [Some 1] 1 [0] 3 1 0 1000 [] (double_of_int 0).
Definition ex_throttle_world : World :=
  mkWorld [with_m_prio_heap [ex_broadcast] (MessageBuffer_new 0 false false);
           with_m_consumer (Some (CNI 0)) (MessageBuffer_new 0 false false)] [] [] 0.

(** Eight bytes need 8000 units; a cycle pays for 3000 of them. *)
Lemma throttle_bandwidth_witness : exists t' w' started used,
  th_wakeup (mkNetwork 2 1 8 72 [] [] [] [] []) false false (fun _ => 0) 5 ex_throttle ex_throttle_world = Ok (t', w') /\
  m_units_remaining t' = [5000] /\ th_msg_counts t' = started /\ 0 <= used <= 3000 /\
  total_units (mkNetwork 2 1 8 72 [] [] [] [] []) started = used + owed t'.
Proof.
  destruct (throttle_bandwidth (MT := node_types 2) (mkNetwork 2 1 8 72 [] [] [] [] []) false false (fun _ => 0) 5 ex_throttle ex_throttle_world) as [_ H].
  - cbn. lia.
  - cbn. lia.
  - apply msgs_ok_b_sound. vm_compute. reflexivity.
  - repeat constructor. lia.
  - destruct (th_wakeup _ false false (fun _ => 0) 5 ex_throttle ex_throttle_world) as [[t' w']|e] eqn:E; [|vm_compute in E; discriminate E].
    destruct (H t' w' eq_refl) as (_ & started & used & Hs & Hu & Ht). exists t', w', started, used.
    split; [reflexivity|]. split; [|split; [exact Hs | split; [exact Hu | rewrite <- Ht; change (owed ex_throttle) with 0; lia]]].
    assert (Hv : (p ← th_wakeup (mkNetwork 2 1 8 72 [] [] [] [] []) false false (fun _ => 0) 5 ex_throttle ex_throttle_world;
      Ok (m_units_remaining p.1)) = Ok [5000]) by (vm_compute; reflexivity).
    rewrite E in Hv. exact (Ok_inj _ _ Hv).
Defined.
