(* ===== verification/SyntheticTraffic.v ===== *)
(** * [GarnetSyntheticTraffic] (cpu/testers/garnet_synthetic_traffic)

    The tester that drives a network node: every cycle it may generate a packet, whose
    destination follows a traffic pattern and is encoded in the packet's address.  Doubles are
    IEEE binary64 numbers (Double).  What the random generator draws and what the memory
    port answers are arguments of the operations that ask for them; every operation that uses
    the port also returns the packets the port took. *)

From S2P Require Import Prelude Double.
Local Open Scope Z_scope.

(** ** Data *)

Inductive TrafficType :=
  | BIT_COMPLEMENT_ | BIT_REVERSE_ | BIT_ROTATION_ | NEIGHBOR_ | SHUFFLE_ | TORNADO_ | TRANSPOSE_
  | UNIFORM_RANDOM_.

#[export] Instance TrafficType_eq_dec : EqDecision TrafficType.
Proof. solve_decision. Defined.

Inductive Command := ReadReq | WriteReq.

(** The members of a request and its packet that the tester sets. *)
Record Packet := mkPacket {
  pkt_cmd : Command;
  pkt_paddr : Z;
  pkt_size : Z;
  pkt_inst_fetch : bool;
  pkt_context : Z
}.

Record GarnetSyntheticTraffic := mkTester {
  retryPkt : option Packet;
  id : Z;
  blockSizeBits : Z;
  noResponseCycles : Z;
  numDestinations : Z;
  simCycles : Z;
  numPacketsMax : Z;
  numPacketsSent : Z;
  singleSender : Z;
  singleDest : Z;
  sim_type : Z;
  traffic : TrafficType;
  injRate : double;
  injVnet : Z;
  precision : Z;
  responseLimit : Z;
  (** the tick [tickEvent] is scheduled for, and whether [exitSimLoop] was called *)
  tickEvent : option Z;
  sim_exit : bool
}.

Definition with_port (retry : option Packet) (sent : Z) (t : GarnetSyntheticTraffic) : GarnetSyntheticTraffic :=
  mkTester retry (id t) (blockSizeBits t) (noResponseCycles t) (numDestinations t) (simCycles t) (numPacketsMax t) sent
    (singleSender t) (singleDest t) (sim_type t) (traffic t) (injRate t) (injVnet t) (precision t) (responseLimit t)
    (tickEvent t) (sim_exit t).
Definition with_noResponseCycles (c : Z) (t : GarnetSyntheticTraffic) : GarnetSyntheticTraffic :=
  mkTester (retryPkt t) (id t) (blockSizeBits t) c (numDestinations t) (simCycles t) (numPacketsMax t) (numPacketsSent t)
    (singleSender t) (singleDest t) (sim_type t) (traffic t) (injRate t) (injVnet t) (precision t) (responseLimit t)
    (tickEvent t) (sim_exit t).
Definition with_events (ev : option Z) (ex : bool) (t : GarnetSyntheticTraffic) : GarnetSyntheticTraffic :=
  mkTester (retryPkt t) (id t) (blockSizeBits t) (noResponseCycles t) (numDestinations t) (simCycles t) (numPacketsMax t)
    (numPacketsSent t) (singleSender t) (singleDest t) (sim_type t) (traffic t) (injRate t) (injVnet t) (precision t)
    (responseLimit t) ev ex.

(** ** Construction *)

Definition trafficStringToEnum (s : string) : option TrafficType :=
  if String.eqb s "bit_complement" then Some BIT_COMPLEMENT_
  else if String.eqb s "bit_reverse" then Some BIT_REVERSE_
  else if String.eqb s "bit_rotation" then Some BIT_ROTATION_
  else if String.eqb s "neighbor" then Some NEIGHBOR_
  else if String.eqb s "shuffle" then Some SHUFFLE_
  else if String.eqb s "tornado" then Some TORNADO_
  else if String.eqb s "transpose" then Some TRANSPOSE_
  else if String.eqb s "uniform_random" then Some UNIFORM_RANDOM_
  else None.

Record TesterParams := mkTesterParams {
  block_offset : Z; num_dest : Z; sim_cycles : Z; num_packets_max : Z; single_sender : Z; single_dest : Z;
  p_sim_type : Z; traffic_type : string; inj_rate : double; inj_vnet : Z; p_precision : Z; response_limit : Z
}.

(** [tester_network] is the static counter [TESTER_NETWORK]; its next value is returned too. *)
Definition GarnetSyntheticTraffic_new (p : TesterParams) (tester_network : Z) : result (GarnetSyntheticTraffic * Z) :=
  match trafficStringToEnum (traffic_type p) with
  | None => Err EFatal
  | Some tr =>
      Ok (mkTester None tester_network (u32 (block_offset p)) 0 (num_dest p) (u64 (sim_cycles p)) (num_packets_max p) 0
            (single_sender p) (single_dest p) (p_sim_type p) tr (inj_rate p) (inj_vnet p) (p_precision p)
            (response_limit p) (Some 0) false, tester_network + 1)
  end.

Definition init (t : GarnetSyntheticTraffic) : GarnetSyntheticTraffic := with_port (retryPkt t) 0 t.

(** ** Destinations *)

(** [(int) sqrt(n)] and [(int) log2(n)], exact for every [int]. *)
Definition int_sqrt (n : Z) : result Z := if n <? 0 then Err EIndex else Ok (Z.sqrt n).
Definition int_log2 (n : Z) : result Z := if n <=? 0 then Err EIndex else Ok (Z.log2 n).

(** C++ [/] and [%] on [int] *)
Definition int_div (a b : Z) : result Z := if b =? 0 then Err EDiv else Ok (Z.quot a b).
Definition int_mod (a b : Z) : result Z := if b =? 0 then Err EDiv else Ok (Z.rem a b).

(** One iteration of the bit-reversal loop on [unsigned] numbers. *)
Definition reverse_step (s : Z * Z) : Z * Z :=
  let '(straight, reverse) := s in
  let reverse1 := u32 (Z.shiftl reverse 1) in
  let straight1 := Z.shiftr straight 1 in
  (straight1, Z.lor reverse1 (Z.land straight1 1)).

Definition bit_reverse (source num_bits : Z) : Z :=
  (Nat.iter (Z.to_nat (num_bits - 1)) reverse_step (u32 source, u32 (Z.land source 1))).2.

(** The destination of a packet from tester [source]; [drawn] is what
    [random(0, num_destinations - 1)] returns. *)
Definition pattern (tr : TrafficType) (num_destinations radix src_x src_y source drawn : Z) : result Z :=
  match tr with
  | UNIFORM_RANDOM_ => Ok drawn
  | BIT_COMPLEMENT_ => Ok ((radix - src_y - 1) * radix + (radix - src_x - 1))
  | BIT_REVERSE_ => num_bits ← int_log2 num_destinations; Ok (bit_reverse source num_bits)
  | BIT_ROTATION_ =>
      if Z.rem source 2 =? 0 then Ok (Z.quot source 2) else Ok (Z.quot source 2 + Z.quot num_destinations 2)
  | NEIGHBOR_ => dest_x ← int_mod (src_x + 1) radix; Ok (src_y * radix + dest_x)
  | SHUFFLE_ =>
      if source <? Z.quot num_destinations 2 then Ok (source * 2) else Ok (source * 2 - num_destinations + 1)
  | TRANSPOSE_ => Ok (src_x * radix + src_y)
  | TORNADO_ => dest_x ← int_mod (src_x + Z.quot radix 2 - 1) radix; Ok (src_y * radix + dest_x)
  end.

Definition destination_of (t : GarnetSyntheticTraffic) (drawn : Z) : result Z :=
  radix ← int_sqrt (numDestinations t);
  src_x ← int_mod (id t) radix;
  src_y ← int_div (id t) radix;
  if 0 <=? singleDest t then Ok (u32 (singleDest t))
  else d ← pattern (traffic t) (numDestinations t) radix src_x src_y (id t) drawn; Ok (u32 d).

(** ** Packets *)

(** [vnet_drawn] is what [random(0, 2)] returns. *)
Definition make_packet (t : GarnetSyntheticTraffic) (destination vnet_drawn : Z) : Packet :=
  let paddr := u64 (Z.shiftl destination (blockSizeBits t)) in
  let injReqType := if (injVnet t <? 0) || (2 <? injVnet t) then vnet_drawn else injVnet t in
  if injReqType =? 0 then mkPacket ReadReq paddr 1 false (id t)
  else if injReqType =? 1 then mkPacket ReadReq paddr 1 true (id t)
  else mkPacket WriteReq paddr 1 false (id t).

(** [accepted] is what [sendTimingReq] returns. *)
Definition sendPkt (pkt : Packet) (accepted : bool) (t : GarnetSyntheticTraffic) : GarnetSyntheticTraffic * list Packet :=
  let retry := if accepted then retryPkt t else Some pkt in
  (with_port retry (numPacketsSent t + 1) t, if accepted then [pkt] else []).

(** The draws of one tick and the port's answer. *)
Record Draws := mkDraws { trySending : Z; dest_drawn : Z; vnet_drawn : Z; accepted : bool }.

Definition generatePkt (d : Draws) (t : GarnetSyntheticTraffic) : result (GarnetSyntheticTraffic * list Packet) :=
  destination ← destination_of t (dest_drawn d);
  Ok (sendPkt (make_packet t destination (vnet_drawn d)) (accepted d) t).

(** The upper bound of the draw: [(int) injRange]. *)
Definition inj_range (t : GarnetSyntheticTraffic) : result Z := int_of_double (pow10 (precision t)).

Definition sendAllowed (t : GarnetSyntheticTraffic) (try_sending : Z) : result bool :=
  _ ← inj_range t;
  Ok (double_ltb (double_of_int try_sending) (double_mul (injRate t) (pow10 (precision t)))).

Definition senderEnable (t : GarnetSyntheticTraffic) : bool :=
  negb ((0 <=? numPacketsMax t) && (numPacketsMax t <=? numPacketsSent t)) &&
  negb ((0 <=? singleSender t) && negb (id t =? singleSender t)).

(** Schedule the next tick, or leave the simulation. *)
Definition reschedule (curTick : Z) (t : GarnetSyntheticTraffic) : result GarnetSyntheticTraffic :=
  let next := match tickEvent t with Some w => Some w | None => Some (u64 (curTick + 1)) end in
  if sim_type t =? 1 then
    if simCycles t <=? curTick then Ok (with_events (tickEvent t) true t) else Ok (with_events next (sim_exit t) t)
  else if sim_type t =? 2 then Ok (with_events next (sim_exit t) t)
  else Err EFatal.

(** [tick] runs when [tickEvent] fires, which is no longer scheduled then. *)
Definition tick (curTick : Z) (d : Draws) (t0 : GarnetSyntheticTraffic) : result (GarnetSyntheticTraffic * list Packet) :=
  let t1 := with_noResponseCycles (u64 (noResponseCycles t0 + 1)) (with_events None (sim_exit t0) t0) in
  if responseLimit t1 <=? noResponseCycles t1 then Err EFatal
  else
    allowed ← sendAllowed t1 (trySending d);
    '(t2, sent) ← (if allowed && senderEnable t1 then generatePkt d t1 else Ok (t1, []));
    t3 ← reschedule curTick t2;
    Ok (t3, sent).

(** ** The port's calls *)

(** [recvTimingResp]: [isResponse] is a property of the packet. *)
Definition completeRequest (isResponse : bool) (t : GarnetSyntheticTraffic) : result GarnetSyntheticTraffic :=
  assert_ isResponse ;; Ok (with_noResponseCycles 0 t).

(** [recvReqRetry]; sending a null packet is undefined. *)
Definition doRetry (answer : bool) (t : GarnetSyntheticTraffic) : result (GarnetSyntheticTraffic * list Packet) :=
  match retryPkt t with
  | None => Err EIndex
  | Some pkt => if answer then Ok (with_port None (numPacketsSent t) t, [pkt]) else Ok (t, [])
  end.
