(* ===== verification/SyntheticProperties.v ===== *)
(** * Properties of the synthetic traffic generator

    The traffic patterns are permutations of the nodes on the shapes they are meant for, the
    bit-reversal loop reverses bits, and every packet the tester counts is accounted for. *)

From S2P Require Import Prelude Double SyntheticTraffic.
Local Open Scope Z_scope.

(** ** Bit reversal *)

Lemma land_1_bit x j : 0 <= j -> Z.testbit (Z.land x 1) j = (j =? 0) && Z.testbit x 0.
Proof.
  intros Hj. rewrite Z.land_spec. destruct (Z.eqb_spec j 0) as [->|Hne]; [by rewrite andb_true_r|].
  change 1 with (2 ^ 0). rewrite Z.pow2_bits_false by lia. by rewrite andb_false_r.
Qed.

Lemma u32_testbit x j : 0 <= j -> Z.testbit (u32 x) j = (j <? 32) && Z.testbit x j.
Proof.
  intros Hj. unfold u32. destruct (Z.ltb_spec j 32).
  - by rewrite Z.mod_pow2_bits_low by lia.
  - by rewrite Z.mod_pow2_bits_high by lia.
Qed.

(** After [i] iterations the low [i + 1] bits have been turned round. *)
Lemma reverse_loop source i : 0 <= source < 2 ^ 32 -> (i < 32)%nat ->
  exists r, Nat.iter i reverse_step (u32 source, u32 (Z.land source 1)) = (Z.shiftr source (Z.of_nat i), r) /\
    forall j, 0 <= j -> Z.testbit r j = (j <=? Z.of_nat i) && Z.testbit source (Z.of_nat i - j).
Proof.
  intros Hs. induction i as [|i IH]; intros Hi.
  - exists (u32 (Z.land source 1)). cbn [Nat.iter]. rewrite u32_small by done. rewrite Z.shiftr_0_r. split; [done|].
    intros j Hj. rewrite u32_testbit, land_1_bit by done.
    destruct (Z.eqb_spec j 0) as [->|]; [done|]. rewrite (proj2 (Z.leb_gt j _)) by lia. by rewrite andb_false_r.
  - destruct IH as (r & E & Hr); [lia|]. cbn [Nat.iter nat_rect]. change (nat_rect _ ?a (fun _ => ?f) ?n) with (Nat.iter n f a).
    rewrite E. unfold reverse_step. eexists. split; [rewrite Z.shiftr_shiftr by lia; do 2 f_equal; lia|].
    intros j Hj. rewrite Z.lor_spec, u32_testbit, land_1_bit, Z.shiftl_spec, !Z.shiftr_spec by lia.
    destruct (Z.eqb_spec j 0) as [->|Hne].
    + rewrite (Z.testbit_neg_r r) by lia. rewrite andb_false_r, (proj2 (Z.leb_le 0 _)) by lia. cbn [andb orb]. f_equal. lia.
    + rewrite Hr by lia. cbn [andb]. rewrite orb_false_r. destruct (Z.ltb_spec j 32).
      * replace (j - 1 <=? Z.of_nat i) with (j <=? Z.of_nat (S i)) by (destruct (Z.leb_spec j (Z.of_nat (S i))), (Z.leb_spec (j - 1) (Z.of_nat i)); lia || done).
        cbn [andb]. do 2 f_equal. lia.
      * rewrite (proj2 (Z.leb_gt j (Z.of_nat (S i)))) by lia. done.
Qed.

Lemma bit_reverse_bits source k j : 0 <= source < 2 ^ k -> 1 <= k <= 32 -> 0 <= j ->
  Z.testbit (bit_reverse source k) j = (j <? k) && Z.testbit source (k - 1 - j).
Proof.
  intros Hs Hk Hj. assert (2 ^ k <= 2 ^ 32) by (apply Z.pow_le_mono_r; lia).
  destruct (reverse_loop source (Z.to_nat (k - 1))) as (r & E & Hr); [lia | lia|].
  unfold bit_reverse. rewrite E. cbn [snd]. rewrite Hr by done. rewrite Z2Nat.id by lia.
  replace (j <=? k - 1) with (j <? k) by (destruct (Z.leb_spec j (k - 1)), (Z.ltb_spec j k); lia || done). done.
Qed.

Lemma bit_reverse_range source k : 0 <= source < 2 ^ k -> 1 <= k <= 32 -> 0 <= bit_reverse source k < 2 ^ k.
Proof.
  intros Hs Hk. assert (E : bit_reverse source k = bit_reverse source k mod 2 ^ k).
  { apply Z.bits_inj'. intros j Hj. destruct (Z.lt_ge_cases j k).
    - by rewrite Z.mod_pow2_bits_low by lia.
    - rewrite Z.mod_pow2_bits_high by lia. rewrite bit_reverse_bits by done. by rewrite (proj2 (Z.ltb_ge j k)) by lia. }
  rewrite E. apply Z.mod_pos_bound. lia.
Qed.

Lemma bit_reverse_invol source k : 0 <= source < 2 ^ k -> 1 <= k <= 32 -> bit_reverse (bit_reverse source k) k = source.
Proof.
  intros Hs Hk. apply Z.bits_inj'. intros j Hj. rewrite bit_reverse_bits by (done || by apply bit_reverse_range).
  destruct (Z.ltb_spec j k).
  - rewrite bit_reverse_bits by (done || lia). rewrite (proj2 (Z.ltb_lt (k - 1 - j) k)) by lia. cbn. f_equal. lia.
  - symmetry. apply Z.bits_above_log2; [lia|]. destruct (decide (source = 0)) as [->|]; [cbn; lia|].
    apply Z.log2_lt_pow2; [lia|]. eapply Z.lt_le_trans; [apply Hs|]. apply Z.pow_le_mono_r; lia.
Qed.

(** The bit-reversal loop computes the reversal of the [k] low bits: bit [j] of the result is
    bit [k - 1 - j] of the source, all higher bits are zero, and reversing twice gives the
    source back, for every source of [k] bits, [k] at most the width of [unsigned]. *)
Theorem bit_reverse_correct source k : 0 <= source < 2 ^ k -> 1 <= k <= 32 ->
  (forall j, 0 <= j < k -> Z.testbit (bit_reverse source k) j = Z.testbit source (k - 1 - j)) /\
  0 <= bit_reverse source k < 2 ^ k /\ bit_reverse (bit_reverse source k) k = source.
Proof.
  intros Hs Hk. split_and!; [|by apply bit_reverse_range.. | by apply bit_reverse_invol].
  intros j Hj. rewrite bit_reverse_bits by (done || lia). by rewrite (proj2 (Z.ltb_lt j k)) by lia.
Qed.

Lemma bit_reverse_correct_witness : bit_reverse 11 6 = 52 /\ bit_reverse (bit_reverse 11 6) 6 = 11.
Proof. split; [reflexivity|]. apply (bit_reverse_correct 11 6); lia. Defined.

(** ** Traffic patterns *)

(** The numbers of nodes a pattern is meant for. *)
Definition shape (tr : TrafficType) (n : Z) : Prop :=
  match tr with
  | BIT_REVERSE_ => exists k, 1 <= k /\ n = 2 ^ k
  | BIT_ROTATION_ | SHUFFLE_ => n mod 2 = 0
  | BIT_COMPLEMENT_ | NEIGHBOR_ | TORNADO_ | TRANSPOSE_ => exists r, 0 < r /\ n = r * r
  | UNIFORM_RANDOM_ => True
  end.

(** A tester of an [n]-node network with pattern [tr]. *)
Record tester_for (tr : TrafficType) (n : Z) (t : GarnetSyntheticTraffic) : Prop := {
  tf_traffic : traffic t = tr;
  tf_nodes : numDestinations t = n;
  tf_id : 0 <= id t < n;
  tf_any_dest : singleDest t < 0
}.

(** A permutation of the numbers below [n]. *)
Record permutes (n : Z) (f : Z -> Z) : Prop := {
  pm_range : forall i, 0 <= i < n -> 0 <= f i < n;
  pm_inj : forall i j, 0 <= i < n -> 0 <= j < n -> f i = f j -> i = j
}.

Lemma permutes_left_inverse n f g : (forall i, 0 <= i < n -> 0 <= f i < n) -> (forall i, 0 <= i < n -> g (f i) = i) -> permutes n f.
Proof. intros Hr Hg. split; [done|]. intros i j Hi Hj E. by rewrite <- (Hg i Hi), <- (Hg j Hj), E. Qed.

(** A map of grid coordinates with a left inverse permutes the nodes of a square grid. *)
Lemma grid_permutes r (fx fy gx gy : Z -> Z -> Z) : 0 < r ->
  (forall x y, 0 <= x < r -> 0 <= y < r -> 0 <= fx x y < r /\ 0 <= fy x y < r /\
     gx (fx x y) (fy x y) = x /\ gy (fx x y) (fy x y) = y) ->
  permutes (r * r) (fun i => fy (i mod r) (i / r) * r + fx (i mod r) (i / r)).
Proof.
  intros Hr H.
  assert (Hc : forall i, 0 <= i < r * r -> 0 <= i mod r < r /\ 0 <= i / r < r).
  { intros i Hi. split; [by apply Z.mod_pos_bound|]. split; [apply Z.div_pos; lia | apply Z.div_lt_upper_bound; lia]. }
  apply (permutes_left_inverse _ _ (fun i => gy (i mod r) (i / r) * r + gx (i mod r) (i / r))).
  - intros i Hi. destruct (Hc i Hi) as [Hx Hy]. destruct (H _ _ Hx Hy) as (? & ? & _). nia.
  - intros i Hi. destruct (Hc i Hi) as [Hx Hy]. destruct (H _ _ Hx Hy) as (Hx' & Hy' & Egx & Egy). cbn beta.
    rewrite (Z.add_comm (fy _ _ * r)), Z.mod_add, Z.div_add by lia. rewrite (Z.mod_small (fx _ _)), (Z.div_small (fx _ _)) by lia.
    rewrite Z.add_0_l, Egx, Egy. pose proof (Z.div_mod i r ltac:(lia)). lia.
Qed.

Definition rotate (n i : Z) : Z := if i mod 2 =? 0 then i / 2 else i / 2 + n / 2.
Definition shuffle (n i : Z) : Z := if i <? n / 2 then i * 2 else i * 2 - n + 1.

Lemma shuffle_rotate n : n mod 2 = 0 -> permutes n (rotate n) /\ permutes n (shuffle n).
Proof.
  intros He. assert (En : n = 2 * (n / 2)) by (rewrite (Z.div_mod n 2) at 1 by lia; lia).
  set (h := n / 2) in *. unfold rotate, shuffle. fold h.
  assert (Hsplit : forall i, i mod 2 = i - 2 * (i / 2) /\ 0 <= i mod 2 < 2).
  { intros i. split; [rewrite (Z.div_mod i 2) at 2 by lia; lia | by apply Z.mod_pos_bound]. }
  split.
  - apply (permutes_left_inverse _ _ (shuffle n)); intros i Hi; destruct (Hsplit i); destruct (Z.eqb_spec (i mod 2) 0); try lia;
      unfold shuffle; fold h; [destruct (Z.ltb_spec (i / 2) h) | destruct (Z.ltb_spec (i / 2 + h) h)]; lia.
  - apply (permutes_left_inverse _ _ (rotate n)); intros i Hi; destruct (Z.ltb_spec i h); try lia; unfold rotate; fold h.
    + rewrite Z.mod_mul, Z.div_mul by lia. done.
    + replace (i * 2 - n + 1) with (1 + (i - h) * 2) by lia. rewrite Z.mod_add, Z.div_add by lia.
      change (1 mod 2 =? 0) with false. change (1 / 2) with 0. cbn match. lia.
Qed.

(** The permutation of each deterministic pattern. *)
Definition pattern_map (tr : TrafficType) (n i : Z) : Z :=
  let r := Z.sqrt n in
  match tr with
  | BIT_COMPLEMENT_ => (r - i / r - 1) * r + (r - i mod r - 1)
  | BIT_REVERSE_ => bit_reverse i (Z.log2 n)
  | BIT_ROTATION_ => rotate n i
  | NEIGHBOR_ => i / r * r + (i mod r + 1) mod r
  | SHUFFLE_ => shuffle n i
  | TORNADO_ => i / r * r + (i mod r + (r / 2 - 1)) mod r
  | TRANSPOSE_ => i mod r * r + i / r
  | UNIFORM_RANDOM_ => i
  end.

(** Adding a constant to a coordinate, wrapping round. *)
Lemma shift_back r c x : 0 <= x < r -> ((x + c) mod r - c) mod r = x.
Proof.
  intros Hx. rewrite Zminus_mod_idemp_l. replace (x + c - c) with x by lia. by apply Z.mod_small.
Qed.

Lemma row_shift_permutes r c : 0 < r -> permutes (r * r) (fun i => i / r * r + (i mod r + c) mod r).
Proof.
  intros Hr. apply (grid_permutes r (fun x _ => (x + c) mod r) (fun _ y => y) (fun x _ => (x - c) mod r) (fun _ y => y) Hr).
  intros x y Hx Hy. split_and!; try lia; try (by apply Z.mod_pos_bound). by apply shift_back.
Qed.

Lemma pattern_map_permutes tr n : shape tr n -> 0 < n < 2 ^ 31 -> permutes n (pattern_map tr n).
Proof.
  intros Hs Hn. destruct tr; cbn [shape] in Hs; unfold pattern_map.
  1, 4, 6, 7: destruct Hs as (r & Hr & ->); rewrite Z.sqrt_square by lia.
  - apply (grid_permutes r (fun x _ => r - x - 1) (fun _ y => r - y - 1) (fun x _ => r - x - 1) (fun _ y => r - y - 1) Hr).
    intros. lia.
  - by apply row_shift_permutes.
  - by apply row_shift_permutes.
  - apply (grid_permutes r (fun _ y => y) (fun x _ => x) (fun _ y => y) (fun x _ => x) Hr). intros. lia.
  - destruct Hs as (k & Hk & ->). rewrite Z.log2_pow2 by lia.
    assert (k <= 31) by (apply Z.lt_le_incl, (Z.pow_lt_mono_r_iff 2); lia).
    apply (permutes_left_inverse _ _ (fun i => bit_reverse i k)); intros i Hi; [apply bit_reverse_range | apply bit_reverse_invol]; lia.
  - by apply shuffle_rotate.
  - by apply shuffle_rotate.
  - done.
Qed.

Lemma destination_of_pattern tr n t drawn : tester_for tr n t -> tr <> UNIFORM_RANDOM_ -> shape tr n -> 0 < n < 2 ^ 31 ->
  destination_of t drawn = Ok (pattern_map tr n (id t)).
Proof.
  intros [Htr Hn Hid Hd] Hne Hs Hb. pose proof (pm_range _ _ (pattern_map_permutes tr n Hs Hb) (id t) Hid) as Hr.
  assert (Hq : 0 < Z.sqrt n) by (apply Z.sqrt_pos; lia).
  unfold destination_of, int_sqrt, int_mod, int_div. rewrite Htr, Hn, (proj2 (Z.ltb_ge n 0)), (proj2 (Z.leb_gt 0 (singleDest t))) by lia.
  cbn [mbind result_bind]. rewrite (proj2 (Z.eqb_neq (Z.sqrt n) 0)) by lia. cbn [mbind result_bind].
  rewrite Z.rem_mod_nonneg, Z.quot_div_nonneg by lia.
  assert (Hp : pattern tr n (Z.sqrt n) (id t mod Z.sqrt n) (id t / Z.sqrt n) (id t) drawn = Ok (pattern_map tr n (id t))).
  { assert (Hm : 0 <= id t mod Z.sqrt n < Z.sqrt n) by (by apply Z.mod_pos_bound).
    unfold pattern, pattern_map, int_log2, int_mod, rotate, shuffle. rewrite (proj2 (Z.leb_gt n 0)), ?(proj2 (Z.eqb_neq (Z.sqrt n) 0)) by lia.
    rewrite ?(Z.quot_div_nonneg _ 2), ?(Z.rem_mod_nonneg (id t) 2) by lia.
    destruct tr; cbn [mbind result_bind]; try done.
    - by destruct (id t mod 2 =? 0).
    - by rewrite Z.rem_mod_nonneg by lia.
    - by destruct (id t <? n / 2).
    - assert (0 <= Z.sqrt n / 2) by (apply Z.div_pos; lia). destruct Hs as (r & Hr0 & ->). rewrite Z.sqrt_square in * by lia.
      destruct (decide (r = 1)) as [->|]; [cbn; by rewrite Z.rem_1_r, Z.mod_1_r|].
      assert (1 <= r / 2) by (apply Z.div_le_lower_bound; lia). rewrite Z.rem_mod_nonneg by lia. do 3 f_equal. lia. }
  rewrite Hp. cbn [mbind result_bind]. by rewrite u32_small by lia.
Qed.

(** C28: Every deterministic traffic pattern is a permutation of the nodes on the shapes it is
    meant for (square grids for the coordinate patterns, powers of two for bit reversal, even
    numbers for shuffle and rotation): every tester computes a destination without error, the
    destination is a node, and different testers have different destinations. *)
Theorem traffic_patterns_permute tr n : shape tr n -> tr <> UNIFORM_RANDOM_ -> 0 < n < 2 ^ 31 ->
  (forall t drawn, tester_for tr n t -> exists d, destination_of t drawn = Ok d /\ 0 <= d < n) /\
  (forall t1 t2 x1 x2, tester_for tr n t1 -> tester_for tr n t2 ->
     destination_of t1 x1 = destination_of t2 x2 -> id t1 = id t2).
Proof.
  intros Hs Hne Hn. destruct (pattern_map_permutes tr n Hs Hn) as [Hr Hi]. split.
  - intros t x Ht. exists (pattern_map tr n (id t)). split; [by apply destination_of_pattern | apply Hr, (tf_id _ _ _ Ht)].
  - intros t1 t2 x1 x2 H1 H2. rewrite !(destination_of_pattern tr n) by done. intros E%Ok_inj.
    apply Hi; [apply (tf_id _ _ _ H1) | apply (tf_id _ _ _ H2) | exact E].
Qed.

Definition ex_tester (tr : TrafficType) (n i : Z) : GarnetSyntheticTraffic :=
  mkTester None i 6 0 n 100 (-1) 0 (-1) (-1) 1 tr (double_of_int 1) 0 3 50 None false.

Lemma traffic_patterns_permute_witness :
  exists d, destination_of (ex_tester SHUFFLE_ 16 11) 0 = Ok d /\ d <> 6 /\ destination_of (ex_tester SHUFFLE_ 16 3) 0 = Ok 6.
Proof.
  destruct (traffic_patterns_permute SHUFFLE_ 16) as [Hr Hi]; [reflexivity | discriminate | lia|].
  destruct (Hr (ex_tester SHUFFLE_ 16 11) 0) as (d & Hd & _); [split; cbn; (reflexivity || lia)|].
  exists d. split; [exact Hd|]. split; [|reflexivity]. intros ->.
  assert (E : 11 = 3) by (apply (Hi (ex_tester SHUFFLE_ 16 11) (ex_tester SHUFFLE_ 16 3) 0 0);
    [split; cbn; (reflexivity || lia) | split; cbn; (reflexivity || lia) | rewrite Hd; reflexivity]). discriminate E.
Defined.

(** The offset of the tornado pattern on an odd radix [2 * h + 1] is [h - 1], not the
    [ceil(radix / 2) - 1 = h] that the call of [ceil] is for: the division is done on integers. *)
Lemma tornado_odd_radix h x : 0 < h -> 0 <= x < 2 * h + 1 ->
  pattern TORNADO_ ((2 * h + 1) * (2 * h + 1)) (2 * h + 1) x 0 x 0 = Ok ((x + (h - 1)) mod (2 * h + 1)).
Proof.
  intros Hh Hx. unfold pattern, int_mod. rewrite (proj2 (Z.eqb_neq (2 * h + 1) 0)) by lia.
  replace (Z.quot (2 * h + 1) 2) with h by (rewrite Z.quot_div_nonneg by lia; apply (Z.div_unique _ _ _ 1); lia).
  rewrite Z.rem_mod_nonneg by lia. cbn [mbind result_bind]. rewrite Z.mul_0_l, Z.add_0_l. do 2 f_equal. lia.
Qed.

(** ** Runs of a tester *)

(** What the simulator calls: a tick, a retry, or a response to a request. *)
Inductive tester_event := ETick (curTick : Z) (d : Draws) | ERetry (answer : bool) | EResponse.

Definition handle (e : tester_event) (t : GarnetSyntheticTraffic) : result (GarnetSyntheticTraffic * list Packet) :=
  match e with
  | ETick now d => tick now d t
  | ERetry answer => doRetry answer t
  | EResponse => t' ← completeRequest true t; Ok (t', [])
  end.

Definition waiting (t : GarnetSyntheticTraffic) : Z := match retryPkt t with Some _ => 1 | None => 0 end.

(** A packet was refused while another one was still waiting: the waiting one is forgotten. *)
Definition overwritten (t t' : GarnetSyntheticTraffic) (sent : list Packet) : Z :=
  if (numPacketsSent t <? numPacketsSent t') && (vsize sent =? 0) then waiting t else 0.

(** A run, with the packets the port took and the number of packets that were overwritten. *)
Fixpoint run (evs : list tester_event) (t : GarnetSyntheticTraffic) : result (GarnetSyntheticTraffic * list Packet * Z) :=
  match evs with
  | [] => Ok (t, [], 0)
  | e :: evs' =>
      '(t1, sent) ← handle e t;
      '(t2, rest, lost) ← run evs' t1;
      Ok (t2, sent ++ rest, overwritten t t1 sent + lost)
  end.

(** The members that never change. *)
Definition fixed_part (t : GarnetSyntheticTraffic) :=
  (id t, blockSizeBits t, numDestinations t, numPacketsMax t, singleDest t, traffic t, responseLimit t,
   precision t, sim_type t).

(** The destination a packet's address carries. *)
Definition packet_dest (bits : Z) (p : Packet) : Z := Z.shiftr (pkt_paddr p) bits.

(** The draws of the generator stay in the range they were asked for. *)
Definition draws_ok (n : Z) (e : tester_event) : Prop :=
  match e with ETick _ d => 0 <= dest_drawn d < n | _ => True end.

(** A tester that sends to nodes only. *)
Record sends_to_nodes (n : Z) (t : GarnetSyntheticTraffic) : Prop := {
  sn_shape : shape (traffic t) n;
  sn_nodes : numDestinations t = n;
  sn_bounds : 0 < n < 2 ^ 31;
  sn_id : 0 <= id t < n;
  sn_single : singleDest t < n;
  sn_bits : 0 <= blockSizeBits t <= 32
}.

Lemma destination_of_node n t drawn : sends_to_nodes n t -> 0 <= drawn < n -> exists d, destination_of t drawn = Ok d /\ 0 <= d < n.
Proof.
  intros [Hs Hn Hb Hid Hsd Hbits] Hd. assert (Hq : 0 < Z.sqrt n) by (apply Z.sqrt_pos; lia).
  destruct (Z.le_gt_cases 0 (singleDest t)) as [H0|H0].
  - exists (singleDest t). split; [|lia]. unfold destination_of, int_sqrt, int_mod, int_div.
    rewrite Hn, (proj2 (Z.ltb_ge n 0)), (proj2 (Z.leb_le 0 (singleDest t))) by lia. cbn [mbind result_bind].
    rewrite (proj2 (Z.eqb_neq (Z.sqrt n) 0)) by lia. cbn [mbind result_bind]. by rewrite u32_small by lia.
  - destruct (decide (traffic t = UNIFORM_RANDOM_)) as [E|E].
    + exists drawn. split; [|done]. unfold destination_of, int_sqrt, int_mod, int_div.
      rewrite E, Hn, (proj2 (Z.ltb_ge n 0)), (proj2 (Z.leb_gt 0 (singleDest t))) by lia. cbn [mbind result_bind].
      rewrite (proj2 (Z.eqb_neq (Z.sqrt n) 0)) by lia. cbn [mbind result_bind pattern]. by rewrite u32_small by lia.
    + exists (pattern_map (traffic t) n (id t)). split; [by apply destination_of_pattern|].
      by apply (pm_range _ _ (pattern_map_permutes _ n Hs Hb)).
Qed.

Lemma make_packet_dest n t d v : sends_to_nodes n t -> 0 <= d < n -> packet_dest (blockSizeBits t) (make_packet t d v) = d.
Proof.
  intros [] Hd. assert (E : pkt_paddr (make_packet t d v) = u64 (Z.shiftl d (blockSizeBits t))).
  { unfold make_packet. by repeat case_match. }
  assert (2 ^ blockSizeBits t <= 2 ^ 32) by (apply Z.pow_le_mono_r; lia).
  unfold packet_dest. rewrite E, Z.shiftl_mul_pow2, u64_small, Z.shiftr_div_pow2, Z.div_mul by nia. done.
Qed.

(** What holds between two calls. *)
Record tester_inv (n : Z) (t : GarnetSyntheticTraffic) : Prop := {
  ti_nodes : sends_to_nodes n t;
  ti_retry : forall p, retryPkt t = Some p -> 0 <= packet_dest (blockSizeBits t) p < n;
  ti_limit : 0 <= numPacketsMax t -> numPacketsSent t <= numPacketsMax t;
  ti_response : noResponseCycles t < responseLimit t
}.

Lemma sends_to_nodes_fixed n t t' : fixed_part t' = fixed_part t -> sends_to_nodes n t -> sends_to_nodes n t'.
Proof. unfold fixed_part. intros [= E1 E2 E3 E4 E5 E6 E7 E8 E9] []. split; rewrite ?E1, ?E2, ?E3, ?E4, ?E5, ?E6; done. Qed.

(** One call: the packets it makes are the ones the port took, the one waiting and the
    overwritten one. *)
Record call_ok (n : Z) (t t' : GarnetSyntheticTraffic) (sent : list Packet) : Prop := {
  co_inv : tester_inv n t';
  co_fixed : fixed_part t' = fixed_part t;
  co_count : numPacketsSent t' + waiting t = numPacketsSent t + vsize sent + waiting t' + overwritten t t' sent;
  co_dests : Forall (fun p => 0 <= packet_dest (blockSizeBits t) p < n) sent
}.

Lemma sendPkt_ok n t p acc : tester_inv n t -> 0 <= packet_dest (blockSizeBits t) p < n -> senderEnable t = true ->
  call_ok n t (sendPkt p acc t).1 (sendPkt p acc t).2.
Proof.
  intros [Hn Hr Hl Hp] Hd He. assert (Hf : fixed_part (sendPkt p acc t).1 = fixed_part t) by (by destruct acc).
  split; [split| done | |].
  - by apply (sends_to_nodes_fixed n t).
  - destruct acc; cbn; [done|]. by intros ? [= <-].
  - intros H0. change (numPacketsMax (sendPkt p acc t).1) with (numPacketsMax t) in *.
    change (numPacketsSent (sendPkt p acc t).1) with (numPacketsSent t + 1).
    unfold senderEnable in He. rewrite (proj2 (Z.leb_le 0 _)) in He by done. cbn [andb] in He.
    destruct (Z.leb_spec (numPacketsMax t) (numPacketsSent t)); [done | lia].
  - done.
  - unfold overwritten. change (numPacketsSent (sendPkt p acc t).1) with (numPacketsSent t + 1).
    rewrite (proj2 (Z.ltb_lt _ _)) by lia. destruct acc; unfold waiting; cbn [sendPkt fst snd with_port retryPkt];
      [change (vsize [p]) with 1 | change (vsize (@nil Packet)) with 0]; destruct (retryPkt t); cbn [Z.eqb andb]; lia.
  - destruct acc; cbn; [|done]. by apply Forall_singleton.
Qed.

Lemma call_ok_refl n t t' : tester_inv n t -> retryPkt t' = retryPkt t -> numPacketsSent t' = numPacketsSent t ->
  fixed_part t' = fixed_part t -> noResponseCycles t' < responseLimit t' -> call_ok n t t' [].
Proof.
  intros [Hn Hr Hl Hp] Er Es Ef Hp'. split; [split| done | |].
  - by apply (sends_to_nodes_fixed n t).
  - rewrite Er. injection Ef as _ -> _ _ _ _ _ _ _. done.
  - rewrite Es. injection Ef as _ _ _ -> _ _ _ _ _. done.
  - done.
  - unfold overwritten, waiting. rewrite Er, Es, Z.ltb_irrefl. cbn [andb]. change (vsize (@nil Packet)) with 0. lia.
  - done.
Qed.

(** Changes after the send that touch neither packets nor the fixed part. *)
Lemma call_ok_then n t t1 t2 sent : call_ok n t t1 sent -> retryPkt t2 = retryPkt t1 -> numPacketsSent t2 = numPacketsSent t1 ->
  fixed_part t2 = fixed_part t1 -> noResponseCycles t2 = noResponseCycles t1 -> call_ok n t t2 sent.
Proof.
  intros [Hi Hf Hc Hd] Er Es Ef En. destruct (call_ok_refl n t1 t2 Hi Er Es Ef) as [Hi2 _ _ _].
  { rewrite En. injection Ef as _ _ _ _ _ _ -> _ _. apply (ti_response _ _ Hi). }
  split; [done | congruence | | done]. unfold overwritten, waiting in *. by rewrite Er, Es.
Qed.

(** Changes before it. *)
Lemma call_ok_after n t t1 t2 sent : call_ok n t1 t2 sent -> retryPkt t1 = retryPkt t -> numPacketsSent t1 = numPacketsSent t ->
  fixed_part t1 = fixed_part t -> call_ok n t t2 sent.
Proof.
  intros [Hi Hf Hc Hd] Er Es Ef. split; [done | congruence | |].
  - unfold overwritten, waiting in *. by rewrite <- Er, <- Es.
  - injection Ef as _ E _ _ _ _ _ _ _. by rewrite <- E.
Qed.

Lemma reschedule_keeps now t t' : reschedule now t = Ok t' -> retryPkt t' = retryPkt t /\ numPacketsSent t' = numPacketsSent t /\
  fixed_part t' = fixed_part t /\ noResponseCycles t' = noResponseCycles t.
Proof. unfold reschedule. intros H. repeat case_match; inv_ok; done. Qed.

Lemma tick_ok n now d t t' sent : tester_inv n t -> 0 <= dest_drawn d < n -> tick now d t = Ok (t', sent) -> call_ok n t t' sent.
Proof.
  intros Hi Hd H. unfold tick in H.
  set (t1 := with_noResponseCycles (u64 (noResponseCycles t + 1)) (with_events None (sim_exit t) t)) in H.
  destruct (Z.leb_spec (responseLimit t1) (noResponseCycles t1)) as [|Hlim]; [done|].
  assert (H1 : tester_inv n t1) by exact (co_inv _ _ _ _ (call_ok_refl n t t1 Hi eq_refl eq_refl eq_refl Hlim)).
  apply (call_ok_after n t t1); [|reflexivity..]. apply bind_Ok in H as (b & _ & H). apply bind_Ok in H as ([t2 s2] & H2 & H).
  apply bind_Ok in H as (t3 & (Er & Es & Ef & En)%reschedule_keeps & H). apply Ok_inj in H as [= <- <-].
  apply (call_ok_then n t1 t2); [|done..]. destruct b; cbn [andb] in H2; [|apply Ok_inj in H2 as [= <- <-]; by apply call_ok_refl].
  destruct (senderEnable t1) eqn:Ee; [|apply Ok_inj in H2 as [= <- <-]; by apply call_ok_refl].
  unfold generatePkt in H2. destruct (destination_of_node n t1 _ (ti_nodes _ _ H1) Hd) as (dst & Hdst & Hr).
  rewrite Hdst in H2. cbn [mbind result_bind] in H2. apply Ok_inj in H2.
  pose proof (sendPkt_ok n t1 (make_packet t1 dst (vnet_drawn d)) (accepted d) H1) as Hs. rewrite H2 in Hs. apply Hs; [|done].
  by rewrite (make_packet_dest n) by (done || apply H1).
Qed.

Lemma handle_ok n e t t' sent : tester_inv n t -> 0 < responseLimit t -> draws_ok n e -> handle e t = Ok (t', sent) -> call_ok n t t' sent.
Proof.
  intros Hi Hlim Hd H. destruct e as [now d | answer |]; cbn [handle draws_ok] in *.
  - by apply (tick_ok n now d).
  - unfold doRetry in H. destruct (retryPkt t) as [p|] eqn:Er; [|done]. destruct answer; apply Ok_inj in H as [= <- <-].
    + destruct Hi as [Hn Hr Hl Hp]. split; [split|..]; cbn; try done.
      * by apply (sends_to_nodes_fixed n t).
      * unfold overwritten, waiting. cbn [with_port numPacketsSent retryPkt]. rewrite Z.ltb_irrefl, Er. cbn [andb]. change (vsize [p]) with 1. lia.
      * apply Forall_singleton. by apply Hr.
    + apply call_ok_refl; try done. apply (ti_response _ _ Hi).
  - cbn in H. apply Ok_inj in H as [= <- <-]. by apply call_ok_refl.
Qed.

Lemma run_ok n evs t t' taken lost : tester_inv n t -> 0 < responseLimit t -> Forall (draws_ok n) evs -> run evs t = Ok (t', taken, lost) ->
  tester_inv n t' /\ fixed_part t' = fixed_part t /\ 0 <= lost /\
  numPacketsSent t' + waiting t = numPacketsSent t + vsize taken + waiting t' + lost /\
  Forall (fun p => 0 <= packet_dest (blockSizeBits t) p < n) taken.
Proof.
  revert t taken lost. induction evs as [|e evs IH]; intros t taken lost Hi Hlim Hd H; cbn [run] in H.
  - apply Ok_inj in H as [= <- <- <-]. split_and!; try done. change (vsize (@nil Packet)) with 0. lia.
  - apply Forall_cons in Hd as [He Hd]. apply bind_Ok in H as ([t1 s1] & H1 & H). apply bind_Ok in H as ([[t2 rest] l2] & H2 & H).
    apply Ok_inj in H as [= <- <- <-]. destruct (handle_ok n e t t1 s1 Hi Hlim He H1) as [Hi1 Hf1 Hc1 Hd1].
    pose proof Hf1 as Hf. injection Hf as _ Eb _ _ _ _ El _ _.
    destruct (IH t1 rest l2 Hi1 ltac:(lia) Hd H2) as (Hi2 & Hf2 & Hl2 & Hc2 & Hd2). split_and!; [done | congruence | | |].
    + unfold overwritten, waiting. repeat case_match; lia.
    + unfold vsize in *. rewrite length_app. lia.
    + apply Forall_app. split; [done|]. by rewrite <- Eb.
Qed.

Lemma inj_range_ok t : 0 <= precision t <= 9 -> exists r, inj_range t = Ok r.
Proof.
  intros Hp. unfold inj_range. assert (Hin : precision t ∈ [0; 1; 2; 3; 4; 5; 6; 7; 8; 9]).
  { assert (H : precision t = 0 \/ precision t = 1 \/ precision t = 2 \/ precision t = 3 \/ precision t = 4 \/ precision t = 5 \/
      precision t = 6 \/ precision t = 7 \/ precision t = 8 \/ precision t = 9) by lia. set_solver. }
  assert (Hall : Forall (fun p => is_ok (int_of_double (pow10 p)) = true) [0; 1; 2; 3; 4; 5; 6; 7; 8; 9])
    by (repeat constructor; vm_compute; reflexivity).
  rewrite Forall_forall in Hall. specialize (Hall _ Hin). destruct (int_of_double (pow10 (precision t))); [eauto | done].
Qed.

Lemma tick_total n now d t : tester_inv n t -> 0 <= dest_drawn d < n -> 0 <= precision t <= 9 -> sim_type t = 1 \/ sim_type t = 2 ->
  u64 (noResponseCycles t + 1) < responseLimit t -> exists t' sent, tick now d t = Ok (t', sent).
Proof.
  intros Hi Hd Hp Hsim Hlim. unfold tick.
  set (t1 := with_noResponseCycles (u64 (noResponseCycles t + 1)) (with_events None (sim_exit t) t)).
  rewrite (proj2 (Z.leb_gt (responseLimit t1) (noResponseCycles t1))) by done.
  unfold sendAllowed. destruct (inj_range_ok t1 Hp) as [r ->]. cbn [mbind result_bind].
  assert (Hgen : exists t2 s2, (if double_ltb (double_of_int (trySending d)) (double_mul (injRate t1) (pow10 (precision t1))) && senderEnable t1
    then generatePkt d t1 else Ok (t1, [])) = Ok (t2, s2) /\ sim_type t2 = sim_type t).
  { destruct (_ && _); [|by exists t1, []]. unfold generatePkt.
    assert (H1 : sends_to_nodes n t1) by (apply (sends_to_nodes_fixed n t); [done | apply Hi]).
    destruct (destination_of_node n t1 _ H1 Hd) as (dst & -> & _). cbn [mbind result_bind]. do 2 eexists. split; [apply (f_equal Ok), surjective_pairing | by destruct (accepted d)]. }
  destruct Hgen as (t2 & s2 & -> & Es). cbn [mbind result_bind]. unfold reschedule. rewrite Es.
  destruct Hsim as [-> | ->]; cbn [Z.eqb Pos.eqb]; [destruct (simCycles t2 <=? now)|]; cbn [mbind result_bind]; eauto.
Qed.

(** C27: Accounting of a traffic generator.  In every run of ticks, retries and responses of a
    tester that addresses [n] nodes, the packets it has counted are exactly those the memory
    port took, the one still waiting to be retried and those that a later refused packet
    overwrote; every packet taken carries the number of a node; a packet limit is never
    exceeded; and the next tick succeeds unless the response limit is reached, for the simulation types 1 and 2
    and a precision of 0 to 9 digits. *)
Theorem tester_accounting n evs t t' taken lost :
  sends_to_nodes n t -> retryPkt t = None -> numPacketsSent t = 0 -> noResponseCycles t < responseLimit t ->
  0 < responseLimit t -> Forall (draws_ok n) evs -> run evs t = Ok (t', taken, lost) ->
  numPacketsSent t' = vsize taken + waiting t' + lost /\
  Forall (fun p => 0 <= packet_dest (blockSizeBits t) p < n) taken /\
  (0 <= numPacketsMax t -> numPacketsSent t' <= numPacketsMax t) /\
  (forall now d, 0 <= dest_drawn d < n -> 0 <= precision t <= 9 -> sim_type t = 1 \/ sim_type t = 2 ->
     u64 (noResponseCycles t' + 1) < responseLimit t -> exists t'' sent, tick now d t' = Ok (t'', sent)).
Proof.
  intros Hn Hr Hs Hnr Hlim Hd H. assert (Hi : tester_inv n t).
  { split; [done | by rewrite Hr | lia | done]. }
  destruct (run_ok n evs t t' taken lost Hi Hlim Hd H) as (Hi' & Hf & _ & Hc & Hds). unfold waiting at 1 in Hc. rewrite Hr in Hc.
  injection Hf as _ _ _ Em _ _ El Ep Est. split_and!; [lia | done | rewrite <- Em; apply (ti_limit _ _ Hi')|].
  intros now d Hdd Hp Hsim Hu. apply (tick_total n); rewrite ?Ep, ?Est, ?El; done.
Qed.

(** Two refused packets in a row: the first one is lost. *)
Definition ex_evs : list tester_event :=
  [ETick 0 (mkDraws 5 2 0 false); ETick 1 (mkDraws 5 3 0 false); ERetry true; ETick 2 (mkDraws 5 1 0 true)].

Lemma tester_accounting_witness : exists t' taken,
  run ex_evs (ex_tester UNIFORM_RANDOM_ 16 5) = Ok (t', taken, 1) /\ map (packet_dest 6) taken = [3; 1] /\
  numPacketsSent t' = vsize taken + waiting t' + 1.
Proof.
  assert (H : exists t' taken, run ex_evs (ex_tester UNIFORM_RANDOM_ 16 5) = Ok (t', taken, 1) /\ map (packet_dest 6) taken = [3; 1])
    by (vm_compute; eauto).
  destruct H as (t' & taken & H & Hm). exists t', taken. split; [exact H|]. split; [exact Hm|].
  apply (tester_accounting 16 ex_evs (ex_tester UNIFORM_RANDOM_ 16 5) t' taken 1);
    [split; cbn; (exact I || reflexivity || lia) | reflexivity | reflexivity | reflexivity | reflexivity | | exact H].
  repeat constructor; cbn; lia.
Defined.
