(* ===== verification/NIProperties.v ===== *)
(** * Properties of the network interface, with examples *)

From stdpp Require Import sorting.
From S2P Require Import Prelude Heap RubySet NetDest Flit FlitBuffer Consumer Config OutVcState NetworkLink.
From S2P Require Import SwitchTheory MessageBuffer MessageBufferTheory NetStats NetworkInterface NITheory.
From S2P Require Import NetDestTheory TopologyProperties.
Local Open Scope Z_scope.

(** ** An example: one vnet of three VCs, two of them busy *)

Definition ni_config : Config := mkConfig 2 2 16 3 4 1 1 1 1 4 16 0 0 0 "bn" 1 1 [CTRL_VNET_] [true].

Definition ni_dest : NetDest := mkNetDest [mkRSet 4 2].
Definition ni_flit (id : Z) : flit :=
  flit_new 0 0 0 (mkRouteInfo 0 ni_dest 0 0 1 1 0) 1 (mkMessage 0 0 0 0 ni_dest MessageSizeType_Control id) 5 false.

Definition ni_fresh : result NetworkInterface := NetworkInterface_init ni_config (NetworkInterface_new 0 1 3 50000).

(** VCs 0 and 2 hold a flit each; VC 2 was filled first. *)
Definition ni_loaded : result NetworkInterface :=
  ni ← ni_fresh;
  st0 ← vec_modify (m_out_vc_state ni) 0 (setState ACTIVE_ 5);
  st ← vec_modify st0 2 (setState ACTIVE_ 5);
  vcs0 ← vec_modify (m_ni_out_vcs ni) 0 (insert (ni_flit 7));
  vcs ← vec_modify vcs0 2 (insert (ni_flit 8));
  Ok (with_m_ni_out_vcs_enqueue_time [5; INFINITE_; 4] (with_m_ni_out_vcs vcs (with_m_out_vc_state st ni))).

Definition ex_ni : NetworkInterface :=
  match ni_loaded with Ok ni => ni | Err _ => NetworkInterface_new 0 0 0 0 end.

Lemma ex_ni_ok : ni_ok ni_config ex_ni.
Proof. split; try (vm_compute; (split; congruence || reflexivity) || reflexivity); repeat constructor; done. Qed.

(** Allocating an output VC for a packet succeeds exactly when the vnet has an idle VC.  It
    always returns; -1 means that every VC of the vnet is busy; otherwise the result is the
    first idle VC of the vnet in round-robin order, the pointer stands behind it, and the
    vnet's busy counter is reset. *)
Theorem calculateVC_correct c cur ni vnet d :
  ni_ok c ni -> 0 <= vnet < m_virtual_networks ni -> vec_get (m_vc_allocator ni) vnet = Ok d ->
  exists vc ni', calculateVC cur vnet ni = Ok (vc, ni') /\ ni_ok c ni' /\ m_out_vc_state ni' = m_out_vc_state ni /\
    ((vc = -1 /\ forall v, vnet * m_vc_per_vnet ni <= v < (vnet + 1) * m_vc_per_vnet ni -> ~ vc_idle cur ni v) \/
     (exists k, vc = vnet * m_vc_per_vnet ni + (d + k) mod m_vc_per_vnet ni /\ vc_idle cur ni vc /\ 0 <= k < m_vc_per_vnet ni /\
        (forall j, 0 <= j < k -> ~ vc_idle cur ni (vnet * m_vc_per_vnet ni + (d + j) mod m_vc_per_vnet ni)) /\
        vec_get (m_vc_allocator ni') vnet = Ok ((d + k + 1) mod m_vc_per_vnet ni) /\
        vec_get (vc_busy_counter ni') vnet = Ok 0)).
Proof.
  intros Hok Hv Hd. pose proof (no_vpv _ _ Hok) as Hp. unfold calculateVC.
  destruct (calculateVC_loop_spec c cur (Z.to_nat (m_vc_per_vnet ni)) vnet ni d Hok Hv Hd) as (vc & ni' & -> & Hs & Hcase).
  exists vc, ni'. split_and!; [done | by eapply same_but_alloc_ok | by destruct Hs as (a & b & -> & _)|].
  rewrite Z2Nat.id in Hcase by lia. destruct Hcase as [[-> Hno] | (k & Hk & -> & Hi & Hbf & Ha & Hb)].
  - left. split; [done|]. intros v Hvr Hidle.
    apply (Hno ((v - vnet * m_vc_per_vnet ni - d) mod m_vc_per_vnet ni)); [by apply Z.mod_pos_bound|].
    rewrite Zplus_mod_idemp_r. replace (d + (v - vnet * m_vc_per_vnet ni - d)) with (v - vnet * m_vc_per_vnet ni) by lia.
    rewrite Z.mod_small by lia. by replace (vnet * m_vc_per_vnet ni + (v - vnet * m_vc_per_vnet ni)) with v by lia.
  - right. exists k. split_and!; first [assumption | reflexivity | lia].
Qed.

Lemma calculateVC_correct_witness : exists ni', calculateVC 6 0 ex_ni = Ok (1, ni') /\ ni_ok ni_config ni'.
Proof.
  destruct (calculateVC_correct ni_config 6 ex_ni 0 0) as (vc & ni' & H1 & H2 & _);
    [exact ex_ni_ok | vm_compute; split; congruence | vm_compute; reflexivity|].
  assert (E : (p ← calculateVC 6 0 ex_ni; Ok p.1) = Ok 1) by (vm_compute; reflexivity).
  rewrite H1 in E. cbn in E. apply Ok_inj in E as ->. exists ni'. split; [exact H1 | exact H2].
Defined.

(** C16: A message is divided into packets correctly.  [flitisizeMessage] always returns.  It makes
    one single-flit packet for each destination it serves, addressed to exactly that node and
    carrying the message's payload; the packets take different VCs of the vnet that were idle
    and are not any more, and each counts as injected.  If it answers [true], the destinations
    served are exactly those of the message; if it answers [false], the message keeps
    exactly the destinations that were not served, and no VC of the vnet is idle. *)
Theorem flitisize_correct {MT : MachineTypes} {MTok : MachineTypesOk MT} c cur get_router_id msg vnet ni w :
  ni_ok c ni -> world_ok ni w -> 0 <= vnet < m_virtual_networks ni -> msg_time msg <= cur ->
  shaped (destination msg) -> node_ids_fit ->
  (forall d, node (destination msg) d -> exists r, get_router_id d = Ok r) ->
  exists ok msg' ni' w' ps, flitisizeMessage c cur get_router_id msg vnet ni w = Ok (ok, msg', ni', w') /\
    ni_ok c ni' /\ waiting_flits ni' ≡ₚ ps ++ waiting_flits ni /\ injected vnet w' = injected vnet w + vsize ps /\
    StronglySorted Z.lt (map (fun f => dest_ni (m_route f)) ps) /\ NoDup (map Flit.m_vc ps) /\
    Forall (fun f => packet get_router_id ni vnet (dest_ni (m_route f)) msg f /\
      (forall x, node (destination (m_msg_ptr f)) x <-> x = dest_ni (m_route f)) /\
      vc_idle cur ni (Flit.m_vc f) /\ ~ vc_idle cur ni' (Flit.m_vc f) /\ in_vnet ni vnet (Flit.m_vc f)) ps /\
    if ok : bool then forall d, node (destination msg) d <-> exists f, f ∈ ps /\ dest_ni (m_route f) = d
    else (forall d, node (destination msg') d <-> node (destination msg) d /\ ~ exists f, f ∈ ps /\ dest_ni (m_route f) = d) /\
         forall v, in_vnet ni vnet v -> ~ vc_idle cur ni' v.
Proof.
  intros Hok Hw Hv Ht Hs Hfit Hr. unfold flitisizeMessage.
  destruct (getAllDest_spec (destination msg) Hs Hfit) as (ds & -> & Hsort & Hin). cbn [mbind result_bind].
  assert (Hnd : NoDup ds) by (by apply sorted_NoDup).
  destruct (flitisize_loop_spec c cur get_router_id (1 <? vsize ds) vnet ds msg ni w Hok Hw Hv Ht Hnd) as
    (ok & msg' & ni' & w' & ps & ds1 & ds2 & -> & Hds & [Hdests Hpackets Hvcs Honce Hleft Hwait Hfok Hcount Hidle] & Hend).
  { intros d Hd. apply Hr. by apply Hin. }
  { intros _. split; [done|]. intros d. apply Hin. }
  exists ok, msg', ni', w', ps. destruct Hfok as (Hok' & _ & _).
  assert (Hserved : forall d, d ∈ ds1 <-> exists f, f ∈ ps /\ dest_ni (m_route f) = d).
  { intros d. rewrite <- Hdests, list_elem_of_fmap. naive_solver. }
  split_and!; [done | done | done | done | | done | |].
  - rewrite Hdests. rewrite Hds in Hsort. by apply StronglySorted_app_1_l in Hsort.
  - rewrite Forall_forall in *. intros f Hf. destruct (Hpackets f Hf) as [Hp Hc]. split; [done|]. split; [|by apply Hvcs].
    destruct (Z.ltb_spec 1 (vsize ds)) as [|Hle]; [done|]. cbn in Hc. rewrite Hc. intros x.
    assert (Hd : dest_ni (m_route f) ∈ ds1) by (apply Hserved; eauto).
    assert (E : ds = [dest_ni (m_route f)]).
    { rewrite Hds in Hle |- *. unfold vsize in Hle. destruct ds1 as [|y [|z ds1]]; [by apply elem_of_nil in Hd | | cbn in Hle; lia].
      apply list_elem_of_singleton in Hd as ->. destruct ds2; [done | cbn in Hle; lia]. }
    rewrite <- Hin, E. apply list_elem_of_singleton.
  - destruct ok.
    + subst ds2. rewrite app_nil_r in Hds. subst ds1. intros d. by rewrite <- Hserved, Hin.
    + split; [|by apply Hend]. destruct Hleft as (_ & _ & Hl). destruct Hend as [Hne _]. intros d. rewrite <- Hserved.
      destruct (Z.ltb_spec 1 (vsize ds)) as [|Hle]; [by apply Hl|]. cbn in Hl. subst msg'.
      assert (ds1 = []) as ->. { destruct ds1 as [|y ds1]; [done|]. rewrite Hds in Hle. unfold vsize in Hle. cbn in Hle. rewrite length_app in Hle.
        destruct ds2; [done | cbn in Hle; lia]. }
      split; [intros H; split; [done | apply not_elem_of_nil] | by intros []].
Qed.

(** One machine type with four nodes; a message for nodes 1 and 3 meets one idle VC. *)
#[export] Instance ex_types : MachineTypes := node_types 4.
#[export] Instance ex_types_ok : MachineTypesOk ex_types.
Proof. apply node_types_ok. unfold NUMBER_BITS_PER_SET. lia. Qed.

Definition ex_multicast : Message := mkMessage 2 2 0 0 (mkNetDest [mkRSet 4 10]) MessageSizeType_Control 77.

Lemma flitisize_correct_witness : exists msg' ni' w',
  flitisizeMessage ni_config 6 (fun d => Ok d) ex_multicast 0 (with_m_router_id 0 ex_ni) (mkNIWorld (NetStats_new 1 4) [0]) =
    Ok (false, msg', ni', w') /\ destination msg' = mkNetDest [mkRSet 4 8] /\ length (waiting_flits ni') = 3%nat.
Proof.
  destruct (flitisize_correct ni_config 6 (fun d => Ok d) ex_multicast 0 (with_m_router_id 0 ex_ni) (mkNIWorld (NetStats_new 1 4) [0]))
    as (ok & msg' & ni' & w' & ps & H & _).
  - pose proof ex_ni_ok as []. split; assumption.
  - split; [vm_compute; split; congruence|]. split; vm_compute; congruence.
  - vm_compute. split; congruence.
  - vm_compute. discriminate.
  - split; [reflexivity|]. intros m s [H0 Hm]%vec_get_Ok. destruct (Z.to_nat m) as [|x] eqn:E; [|by destruct x].
    cbn in Hm. injection Hm as <-. split; [|reflexivity]. split; vm_compute; split; congruence.
  - vm_compute. discriminate.
  - intros d _. exists d. reflexivity.
  - exists msg', ni', w'. vm_compute in H. injection H as <- <- <- <-. split_and!; reflexivity.
Defined.

(** C14: The out link of an interface is work-conserving and fair.  The search always returns; it
    leaves the interface alone exactly when no VC can send, and otherwise sends the flit of the
    first VC in round-robin order that can: it has a ready flit, a credit, and in an ordered
    vnet it has waited longest.  Exactly that flit moves to the link queue, one credit is
    spent and the link is woken. *)
Theorem scheduleOutputLink_correct c cur ni :
  ni_ok c ni ->
  exists ni', scheduleOutputLink c cur ni = Ok ni' /\ ni_ok c ni' /\
    ((ni' = ni /\ forall vc, 0 <= vc < m_num_vcs ni -> ~ sendable c cur ni vc) \/
     (exists k, 0 < k <= m_num_vcs ni /\ sendable c cur ni ((m_vc_round_robin ni + k) mod m_num_vcs ni) /\
        (forall j, 0 < j < k -> ~ sendable c cur ni ((m_vc_round_robin ni + j) mod m_num_vcs ni)) /\
        sent c cur ni ((m_vc_round_robin ni + k) mod m_num_vcs ni) ni')).
Proof.
  intros Hok. pose proof (no_rr _ _ Hok) as Hrr. unfold scheduleOutputLink.
  destruct (output_link_search_spec c cur (Z.to_nat (m_num_vcs ni)) (m_vc_round_robin ni) ni Hok Hrr) as (ni' & -> & Hcase).
  rewrite Z2Nat.id in Hcase by lia. exists ni'. split; [done|].
  destruct Hcase as [[-> Hno] | (k & Hk & Hs & Hbf & Hsent)].
  - split; [done|]. left. split; [done|]. intros vc Hvc Hse. set (n := m_num_vcs ni) in *.
    pose proof (Z.mod_pos_bound (vc - m_vc_round_robin ni - 1) n ltac:(lia)).
    apply (Hno ((vc - m_vc_round_robin ni - 1) mod n + 1)); [lia|].
    replace (m_vc_round_robin ni + ((vc - m_vc_round_robin ni - 1) mod n + 1))
      with (m_vc_round_robin ni + 1 + (vc - m_vc_round_robin ni - 1) mod n) by lia.
    rewrite Zplus_mod_idemp_r. replace (m_vc_round_robin ni + 1 + (vc - m_vc_round_robin ni - 1)) with vc by lia.
    by rewrite Z.mod_small by lia.
  - split; [apply Hsent|]. right. exists k. split_and!; first [assumption | lia].
Qed.

Lemma scheduleOutputLink_correct_witness : exists ni', scheduleOutputLink ni_config 6 ex_ni = Ok ni' /\
  m_vc_round_robin ni' = 2.
Proof.
  destruct (scheduleOutputLink_correct ni_config 6 ex_ni ex_ni_ok) as (ni' & H1 & _).
  exists ni'. split; [exact H1|].
  assert (E : (p ← scheduleOutputLink ni_config 6 ex_ni; Ok (m_vc_round_robin p)) = Ok 2) by (vm_compute; reflexivity).
  rewrite H1 in E. cbn in E. by apply Ok_inj in E.
Defined.

(** C15: Ejection accounts for every flit.  In one wakeup at most one message is delivered.  The
    flits that were stalled or arrived are exactly those that are stalled now or were
    delivered; every delivery put one message into the protocol buffers and queued one credit
    that frees the flit's VC; the stall counters count the stalled flits of each vnet. *)
Theorem ejection_accounting c cur rr we rnd link ni w r ni1 w1 link' ni2 w2 :
  eject_ok cur ni -> (forall f, f ∈ in_flight link -> is_tail f = true) ->
  checkStallQueue c cur rr we rnd ni w = Ok (r, ni1, w1) ->
  receive_flit c cur rr we rnd r link ni1 w1 = Ok (link', ni2, w2) ->
  eject_ok cur ni2 /\ exists fs arrived, (length fs <= 1)%nat /\ delivered cur fs ni ni2 /\
    in_flight link ≡ₚ arrived ++ in_flight link' /\
    m_stall_queue ni ++ map (Flit.set_dequeue_time cur) arrived ≡ₚ fs ++ m_stall_queue ni2.
Proof.
  intros Hok Ht Hc Hr.
  destruct (stall_search_spec c cur rr we rnd [] (m_stall_queue ni) ni w r ni1 w1 Hc Hok eq_refl) as (Hok1 & fs1 & Hl1 & Hd1 & Hp1).
  destruct (receive_flit_spec c cur rr we rnd r link ni1 w1 link' ni2 w2 Hr Hok1 Ht) as (Hok2 & fs2 & arr & Hl2 & Hd2 & Ha & Hp2).
  split; [done|]. exists (fs2 ++ fs1), arr. split_and!; [| |done |].
  - rewrite length_app. destruct r; lia.
  - by apply (delivered_trans cur fs1 fs2 ni ni1).
  - cbn in Hp1. rewrite Hp1, <- app_assoc, Hp2. rewrite app_assoc. by rewrite (Permutation_app_comm fs1).
Qed.

(** The example interface with a protocol buffer, a stalled flit and an arriving one. *)
Definition ex_eject : NetworkInterface :=
  with_m_stall_count [1] (with_m_stall_queue [Flit.set_dequeue_time 7 (ni_flit 7)]
    (with_outNode_ptr [Some ex_buffer] ex_ni)).
Definition ex_in_link : NetworkLink flit := with_linkBuffer (insert (ni_flit 9) flitBuffer_new) (NetworkLink_new 0 1 3 1).

Lemma ejection_accounting_witness : exists r ni1 w1 link' ni2 w2,
  checkStallQueue ni_config 8 false false 0 ex_eject (mkNIWorld (NetStats_new 1 4) [0]) = Ok (r, ni1, w1) /\
  receive_flit ni_config 8 false false 0 r ex_in_link ni1 w1 = Ok (link', ni2, w2) /\
  r = true /\ eject_ok 8 ni2 /\ length (m_stall_queue ni2) = 1%nat.
Proof.
  destruct (checkStallQueue ni_config 8 false false 0 ex_eject (mkNIWorld (NetStats_new 1 4) [0])) as [[[r ni1] w1]|] eqn:E1;
    [|vm_compute in E1; discriminate E1].
  destruct (receive_flit ni_config 8 false false 0 r ex_in_link ni1 w1) as [[[link' ni2] w2]|] eqn:E2;
    [|vm_compute in E1; injection E1 as <- <- <-; vm_compute in E2; discriminate E2].
  destruct (ejection_accounting ni_config 8 false false 0 ex_in_link ex_eject (mkNIWorld (NetStats_new 1 4) [0]) r ni1 w1 link' ni2 w2)
    as [Hok _].
  - split.
    + apply Forall_cons. split; [vm_compute; discriminate | apply Forall_nil; exact I].
    + intros vnet n [Hrg Hn]%vec_get_Ok. change (m_stall_count ex_eject) with [1] in Hn.
      destruct (Z.to_nat vnet) as [|x] eqn:Ev; [|by destruct x]. cbn in Hn. injection Hn as <-.
      assert (Hz : vnet = 0 \/ vnet < 0) by lia. destruct Hz as [-> | Hlt]; [vm_compute; reflexivity|]. lia.
  - intros f Hf. vm_compute in Hf. apply list_elem_of_singleton in Hf as ->. reflexivity.
  - exact E1.
  - exact E2.
  - exists r, ni1, w1, link', ni2, w2. split_and!; [reflexivity | exact E2 | | exact Hok|].
    + vm_compute in E1. by injection E1.
    + vm_compute in E1. injection E1 as <- <- <-. vm_compute in E2. injection E2 as <- <- <-. reflexivity.
Defined.
