(* ===== verification/Replacement.v ===== *)
(** * Replacement policies

    structures/AbstractReplacementPolicy.cc, LRUPolicy.cc, PseudoLRUPolicy.cc and
    system/WeightedLRUPolicy.cc.  A policy is told of every access to a way of a set and names the
    way to replace.  [ReplacementPolicy] is what a cache calls and [PolicyLaws] what it relies on;
    the three policies are instances.  The tree of the pseudo-LRU policy has one bit per inner
    node, the bit of the root first, which points to the half that was touched last. *)

From S2P Require Import Prelude.
Local Open Scope Z_scope.

(** ** The base class *)

Record PolicyBase := mkPolicyBase {
  m_num_sets : Z;
  m_assoc : Z;
  m_last_ref_ptr : list (list Z)
}.

(** [size] is a [uint64_t], the other two are [int]s; the number of sets is stored as [unsigned]. *)
Definition AbstractReplacementPolicy (size block_size assoc : Z) : result PolicyBase :=
  if (u64 block_size =? 0) || (u64 assoc =? 0) then Err EDiv
  else let sets := u32 ((size `div` u64 block_size) `div` u64 assoc) in
    Ok (mkPolicyBase sets (u32 assoc) (replicate (Z.to_nat sets) (replicate (Z.to_nat (u32 assoc)) 0))).

Definition getLastAccess (set way : Z) (p : PolicyBase) : result Z := mat_get (m_last_ref_ptr p) set way.

(** The two assertions of every [touch], and the write of the time. *)
Definition check_way (set index : Z) (p : PolicyBase) : result unit :=
  assert_ ((0 <=? index) && (index <? m_assoc p)) ;;
  assert_ ((0 <=? set) && (set <? m_num_sets p)).

Definition note_access (set index time : Z) (p : PolicyBase) : result PolicyBase :=
  t ← mat_set (m_last_ref_ptr p) set index time;
  Ok (mkPolicyBase (m_num_sets p) (m_assoc p) t).

(** What a cache calls; [rp_touch_occupancy] is there for a policy with [useOccupancy()]. *)
Class ReplacementPolicy (P : Type) := {
  rp_base : P -> PolicyBase;
  rp_touch : Z -> Z -> Z -> P -> result P;
  rp_touch_occupancy : option (Z -> Z -> Z -> Z -> P -> result P);
  rp_getVictim : Z -> P -> result Z
}.

(** ** LRU *)

Record LRUPolicy := mkLRUPolicy { lru_base : PolicyBase }.

Definition LRUPolicy_new (size block_size assoc : Z) : result LRUPolicy :=
  b ← AbstractReplacementPolicy size block_size assoc; Ok (mkLRUPolicy b).

Definition lru_touch (set index time : Z) (p : LRUPolicy) : result LRUPolicy :=
  check_way set index (lru_base p) ;;
  b ← note_access set index time (lru_base p);
  Ok (mkLRUPolicy b).

(** One iteration of the search: the smallest time so far and its way. *)
Definition lru_step (refs : list (list Z)) (set i : Z) '((smallest_index, smallest_time) : Z * Z) : result (Z * Z) :=
  time ← mat_get refs set i;
  Ok (if time <? smallest_time then (i, time) else (smallest_index, smallest_time)).

Definition lru_getVictim (set : Z) (p : LRUPolicy) : result Z :=
  let refs := m_last_ref_ptr (lru_base p) in
  first ← mat_get refs set 0;
  '(smallest_index, _) ← for_range (Z.to_nat (m_assoc (lru_base p))) 0 (lru_step refs set) (0, first);
  Ok smallest_index.

#[export] Instance LRU_policy : ReplacementPolicy LRUPolicy := {|
  rp_base := lru_base; rp_touch := lru_touch; rp_touch_occupancy := None; rp_getVictim := lru_getVictim
|}.

(** ** Weighted LRU *)

Record WeightedLRUPolicy := mkWeightedLRUPolicy { wlru_base : PolicyBase; m_last_occ_ptr : list (list Z) }.

Definition WeightedLRUPolicy_new (size block_size assoc : Z) : result WeightedLRUPolicy :=
  b ← AbstractReplacementPolicy size block_size assoc;
  Ok (mkWeightedLRUPolicy b (replicate (Z.to_nat (m_num_sets b)) (replicate (Z.to_nat (m_assoc b)) 0))).

Definition wlru_touch (set index time : Z) (p : WeightedLRUPolicy) : result WeightedLRUPolicy :=
  check_way set index (wlru_base p) ;;
  b ← note_access set index time (wlru_base p);
  Ok (mkWeightedLRUPolicy b (m_last_occ_ptr p)).

Definition wlru_touch_occupancy (set index time occupancy : Z) (p : WeightedLRUPolicy) : result WeightedLRUPolicy :=
  check_way set index (wlru_base p) ;;
  b ← note_access set index time (wlru_base p);
  o ← mat_set (m_last_occ_ptr p) set index occupancy;
  Ok (mkWeightedLRUPolicy b o).

(** The least weight first, then the earliest access. *)
Definition wlru_step (refs occs : list (list Z)) (set i : Z)
    '((smallest_index, smallest_time, smallest_weight) : Z * Z * Z) : result (Z * Z * Z) :=
  weight ← mat_get occs set i;
  if weight <? smallest_weight then time ← mat_get refs set i; Ok (i, time, weight)
  else if weight =? smallest_weight then
    time ← mat_get refs set i;
    Ok (if time <? smallest_time then (i, time, smallest_weight) else (smallest_index, smallest_time, smallest_weight))
  else Ok (smallest_index, smallest_time, smallest_weight).

Definition wlru_getVictim (set : Z) (p : WeightedLRUPolicy) : result Z :=
  let refs := m_last_ref_ptr (wlru_base p) in
  time0 ← mat_get refs set 0;
  weight0 ← mat_get (m_last_occ_ptr p) set 0;
  '(smallest_index, _, _) ←
    for_range (Z.to_nat (m_assoc (wlru_base p)) - 1) 1 (wlru_step refs (m_last_occ_ptr p) set) (0, time0, weight0);
  Ok smallest_index.

#[export] Instance WeightedLRU_policy : ReplacementPolicy WeightedLRUPolicy := {|
  rp_base := wlru_base; rp_touch := wlru_touch; rp_touch_occupancy := Some wlru_touch_occupancy;
  rp_getVictim := wlru_getVictim
|}.

(** ** Pseudo-LRU *)

Record PseudoLRUPolicy := mkPseudoLRUPolicy {
  plru_base : PolicyBase;
  m_effective_assoc : Z;
  m_num_levels : Z;
  m_trees : list Z
}.

(** The next power of two, and how often it can be halved before it is 0. *)
Fixpoint ceil_pow2 (fuel : nat) (effective_assoc assoc : Z) : result Z :=
  match fuel with
  | O => Err EFuel
  | S n => if effective_assoc <? assoc then ceil_pow2 n (u32 (Z.shiftl effective_assoc 1)) assoc else Ok effective_assoc
  end.
Fixpoint count_levels (fuel : nat) (tmp_assoc levels : Z) : result Z :=
  match fuel with
  | O => Err EFuel
  | S n => let tmp := tmp_assoc `quot` 2 in if tmp =? 0 then Ok levels else count_levels n tmp (levels + 1)
  end.

Definition PseudoLRUPolicy_new (size block_size assoc : Z) : result PseudoLRUPolicy :=
  b ← AbstractReplacementPolicy size block_size assoc;
  assert_ ((0 <? m_num_sets b) && (1 <? m_assoc b) && (m_assoc b <=? 8 * 4)) ;;
  e ← ceil_pow2 32 1 (m_assoc b);
  levels ← count_levels 32 e 0;
  assert_ (levels <? 4 * 4) ;;
  Ok (mkPseudoLRUPolicy b e levels (replicate (Z.to_nat (m_num_sets b)) 0)).

(** [1 << k] on a 32-bit [int]: a shift past its width is undefined. *)
Definition int_bit (k : Z) : result Z := if (0 <=? k) && (k <? 31) then Ok (Z.shiftl 1 k) else Err EIndex.

Definition node_child (node_val tree_index : Z) : Z := if node_val =? 0 then tree_index * 2 + 1 else tree_index * 2 + 2.

(** The path to the way, from the root: each node's bit becomes the branch taken. *)
Fixpoint touch_path (levels : nat) (index tree_index tree : Z) : result Z :=
  match levels with
  | O => Ok tree
  | S i =>
      let node_val := Z.land (Z.shiftr index (Z.of_nat i)) 1 in
      bit ← int_bit tree_index;
      let tree' := if node_val =? 0 then Z.land tree (Z.lnot bit) else Z.lor tree bit in
      touch_path i index (node_child node_val tree_index) tree'
  end.

Definition plru_touch (set index time : Z) (p : PseudoLRUPolicy) : result PseudoLRUPolicy :=
  check_way set index (plru_base p) ;;
  tree ← vec_get (m_trees p) set;
  tree' ← touch_path (Z.to_nat (m_num_levels p)) index 0 tree;
  trees ← vec_set (m_trees p) set tree';
  b ← note_access set index time (plru_base p);
  Ok (mkPseudoLRUPolicy b (m_effective_assoc p) (m_num_levels p) trees).

(** The path away from the branches taken last. *)
Fixpoint victim_path (levels : nat) (i tree tree_index index effective_assoc : Z) : Z :=
  match levels with
  | O => index
  | S n =>
      let node_val := Z.land (Z.shiftr tree tree_index) 1 in
      let index' := index + (if node_val =? 0 then Z.shiftr effective_assoc (i + 1) else 0) in
      victim_path n (i + 1) tree (node_child (1 - node_val) tree_index) index' effective_assoc
  end.

Definition plru_getVictim (set : Z) (p : PseudoLRUPolicy) : result Z :=
  tree ← vec_get (m_trees p) set;
  let index := victim_path (Z.to_nat (m_num_levels p)) 0 tree 0 0 (m_effective_assoc p) in
  assert_ ((0 <=? index) && (index <? m_effective_assoc p)) ;;
  Ok (if m_assoc (plru_base p) - 1 <? index then m_assoc (plru_base p) - 1 else index).

#[export] Instance PseudoLRU_policy : ReplacementPolicy PseudoLRUPolicy := {|
  rp_base := plru_base; rp_touch := plru_touch; rp_touch_occupancy := None; rp_getVictim := plru_getVictim
|}.

(** ** What a cache relies on *)

Definition base_ok (b : PolicyBase) : Prop :=
  0 < m_assoc b /\ mat_ok (m_num_sets b) (m_assoc b) (m_last_ref_ptr b).

(** [b'] is [b] with the access to one way noted. *)
Definition accessed (set way time : Z) (b b' : PolicyBase) : Prop :=
  m_num_sets b' = m_num_sets b /\ m_assoc b' = m_assoc b /\ getLastAccess set way b' = Ok time /\
  forall s w, ~ (s = set /\ w = way) -> getLastAccess s w b' = getLastAccess s w b.

Class PolicyLaws (P : Type) `{ReplacementPolicy P} := {
  rp_ok : P -> Prop;
  rp_ok_base p : rp_ok p -> base_ok (rp_base p);
  rp_touch_ok set way time p : rp_ok p -> 0 <= set < m_num_sets (rp_base p) -> 0 <= way < m_assoc (rp_base p) ->
    exists p', rp_touch set way time p = Ok p' /\ rp_ok p' /\ accessed set way time (rp_base p) (rp_base p');
  rp_occupancy_ok f set way time occ p : rp_touch_occupancy = Some f -> rp_ok p ->
    0 <= set < m_num_sets (rp_base p) -> 0 <= way < m_assoc (rp_base p) ->
    exists p', f set way time occ p = Ok p' /\ rp_ok p' /\ accessed set way time (rp_base p) (rp_base p');
  rp_victim_ok set p : rp_ok p -> 0 <= set < m_num_sets (rp_base p) ->
    exists way, rp_getVictim set p = Ok way /\ 0 <= way < m_assoc (rp_base p)
}.

Lemma check_way_ok set way b : 0 <= set < m_num_sets b -> 0 <= way < m_assoc b -> check_way set way b = Ok tt.
Proof.
  intros Hs Hw. unfold check_way.
  rewrite (proj2 (Z.leb_le 0 way)), (proj2 (Z.ltb_lt way _)), (proj2 (Z.leb_le 0 set)), (proj2 (Z.ltb_lt set _)) by lia.
  done.
Qed.

Lemma note_access_ok set way time b : base_ok b -> 0 <= set < m_num_sets b -> 0 <= way < m_assoc b ->
  exists b', note_access set way time b = Ok b' /\ base_ok b' /\ accessed set way time b b'.
Proof.
  intros [Ha Hm] Hs Hw. destruct (mat_set_total _ _ _ set way time Hm Hs Hw) as (t & Ht & Hok & Hget & Hne).
  exists (mkPolicyBase (m_num_sets b) (m_assoc b) t). unfold note_access. rewrite Ht. split_and!; done.
Qed.

Lemma zeroes_ok {A} (rows cols : Z) (a : A) : 0 <= rows -> 0 <= cols ->
  mat_ok rows cols (replicate (Z.to_nat rows) (replicate (Z.to_nat cols) a)).
Proof.
  intros Hr Hc. split; [unfold vsize; rewrite length_replicate; lia|].
  apply Forall_replicate. unfold vsize. rewrite length_replicate. lia.
Qed.

Lemma mat_get_replicate {A} (rows cols : nat) (a : A) i j : 0 <= i < Z.of_nat rows -> 0 <= j < Z.of_nat cols ->
  mat_get (replicate rows (replicate cols a)) i j = Ok a.
Proof.
  intros Hi Hj. unfold mat_get, vec_get.
  rewrite (proj2 (Z.ltb_ge i 0)), (proj2 (Z.ltb_ge j 0)), lookup_replicate_2 by lia. cbn.
  by rewrite lookup_replicate_2 by lia.
Qed.

Lemma AbstractReplacementPolicy_spec size block_size assoc b :
  AbstractReplacementPolicy size block_size assoc = Ok b -> 0 < m_assoc b ->
  base_ok b /\ 0 <= m_num_sets b /\
  forall s w, 0 <= s < m_num_sets b -> 0 <= w < m_assoc b -> getLastAccess s w b = Ok 0.
Proof.
  unfold AbstractReplacementPolicy. destruct (_ || _); [done|]. intros [= <-] Ha. cbn in *.
  assert (Hr : 0 <= u32 ((size `div` u64 block_size) `div` u64 assoc)) by (unfold u32; apply Z.mod_pos_bound; lia).
  split; [split; [done|] | split; [done|]].
  - by apply zeroes_ok; [|cbn; lia].
  - intros s w Hs Hw. unfold getLastAccess. cbn. apply mat_get_replicate; lia.
Qed.

(** ** LRU: the victim is a way with the earliest access *)

Definition ref_time (b : PolicyBase) (set way : Z) : Z :=
  match getLastAccess set way b with Ok t => t | Err _ => 0 end.

Lemma ref_time_get b set way : base_ok b -> 0 <= set < m_num_sets b -> 0 <= way < m_assoc b ->
  getLastAccess set way b = Ok (ref_time b set way).
Proof.
  intros [_ Hm] Hs Hw. unfold ref_time, getLastAccess. by destruct (mat_get_total _ _ _ _ _ Hm Hs Hw) as [t ->].
Qed.

Lemma lru_victim_spec set p : base_ok (lru_base p) -> 0 <= set < m_num_sets (lru_base p) ->
  exists v, lru_getVictim set p = Ok v /\ 0 <= v < m_assoc (lru_base p) /\
    forall w, 0 <= w < m_assoc (lru_base p) ->
      ref_time (lru_base p) set v < ref_time (lru_base p) set w \/
      ref_time (lru_base p) set v = ref_time (lru_base p) set w /\ v <= w.
Proof.
  intros Hok Hs. set (b := lru_base p) in *. unfold lru_getVictim. fold b. cbv zeta.
  assert (Hget : forall w, 0 <= w < m_assoc b -> mat_get (m_last_ref_ptr b) set w = Ok (ref_time b set w)).
  { intros w Hw. by apply ref_time_get. }
  pose proof (proj1 Hok) as Ha. rewrite Hget by lia. cbn [mbind result_bind].
  destruct (for_range_total (fun i '(si, st) => st = ref_time b set si /\ (0 <= si < m_assoc b /\ (si = 0 \/ si < i)) /\
      forall w, 0 <= w < i -> ref_time b set si < ref_time b set w \/ ref_time b set si = ref_time b set w /\ si <= w)
      (lru_step (m_last_ref_ptr b) set) (Z.to_nat (m_assoc b)) 0 (0, ref_time b set 0)) as ([v st] & Hf & Hst & Hv & Hmin).
  - split; [done | split; lia].
  - intros k [si st] Hk (-> & Hsi & Hmin). unfold lru_step. rewrite Hget by lia. cbn [mbind result_bind].
    destruct (Z.ltb_spec (ref_time b set k) (ref_time b set si)).
    + exists (k, ref_time b set k). split; [done|]. split; [done|]. split; [lia|]. intros w Hw.
      destruct (decide (w = k)) as [->|]; [lia|]. specialize (Hmin w ltac:(lia)). lia.
    + exists (si, ref_time b set si). split; [done|]. split; [done|]. split; [lia|]. intros w Hw.
      destruct (decide (w = k)) as [->|]; [lia|]. apply Hmin. lia.
  - rewrite Hf. cbn. exists v. split; [done|]. split; [lia|]. intros w Hw. apply Hmin. lia.
Qed.

#[export] Program Instance LRU_laws : PolicyLaws LRUPolicy := {| rp_ok p := base_ok (lru_base p) |}.
Next Obligation. done. Qed.
Next Obligation.
  intros set way time p Hok Hs Hw. destruct (note_access_ok set way time _ Hok Hs Hw) as (b & Hb & Hok' & Hacc).
  exists (mkLRUPolicy b). cbn. unfold lru_touch. by rewrite check_way_ok, Hb by done.
Qed.
Next Obligation. done. Qed.
Next Obligation.
  intros set p Hok Hs. destruct (lru_victim_spec set p Hok Hs) as (v & Hv & Hr & _). by exists v.
Qed.

(** ** Weighted LRU *)

Definition occ_at (p : WeightedLRUPolicy) (set way : Z) : Z :=
  match mat_get (m_last_occ_ptr p) set way with Ok w => w | Err _ => 0 end.

Definition wlru_ok (p : WeightedLRUPolicy) : Prop :=
  base_ok (wlru_base p) /\ mat_ok (m_num_sets (wlru_base p)) (m_assoc (wlru_base p)) (m_last_occ_ptr p).

(** Way [v] is no worse a victim than [w]: it weighs less, or as much and was accessed no later. *)
Definition lighter (p : WeightedLRUPolicy) (set v w : Z) : Prop :=
  occ_at p set v < occ_at p set w \/
  occ_at p set v = occ_at p set w /\ ref_time (wlru_base p) set v <= ref_time (wlru_base p) set w.

Lemma wlru_victim_spec set p : wlru_ok p -> 0 <= set < m_num_sets (wlru_base p) ->
  exists v, wlru_getVictim set p = Ok v /\ 0 <= v < m_assoc (wlru_base p) /\
    forall w, 0 <= w < m_assoc (wlru_base p) -> lighter p set v w.
Proof.
  intros [Hok Ho] Hs. set (b := wlru_base p) in *. unfold wlru_getVictim, lighter. fold b. cbv zeta.
  assert (Hget : forall w, 0 <= w < m_assoc b -> mat_get (m_last_ref_ptr b) set w = Ok (ref_time b set w)).
  { intros w Hw. by apply ref_time_get. }
  assert (Hocc : forall w, 0 <= w < m_assoc b -> mat_get (m_last_occ_ptr p) set w = Ok (occ_at p set w)).
  { intros w Hw. unfold occ_at. by destruct (mat_get_total _ _ _ _ _ Ho Hs Hw) as [o ->]. }
  pose proof (proj1 Hok) as Ha. rewrite Hget, Hocc by lia. cbn [mbind result_bind].
  destruct (for_range_total (fun i '(si, st, sw) => st = ref_time b set si /\ sw = occ_at p set si /\ 0 <= si < m_assoc b /\
      forall w, 0 <= w < i -> occ_at p set si < occ_at p set w \/ occ_at p set si = occ_at p set w /\ ref_time b set si <= ref_time b set w)
      (wlru_step (m_last_ref_ptr b) (m_last_occ_ptr p) set) (Z.to_nat (m_assoc b) - 1) 1 (0, ref_time b set 0, occ_at p set 0))
    as ([[v st] sw] & Hf & _ & _ & Hv & Hmin).
  - do 2 (split; [done|]). split; [lia|]. intros w Hw. replace w with 0 by lia. lia.
  - intros k [[si st] sw] Hk (-> & -> & Hsi & Hmin). unfold wlru_step. rewrite Hocc, Hget by lia. cbn [mbind result_bind].
    assert (Hall : forall x, (forall w, 0 <= w < k -> occ_at p set x < occ_at p set w \/
        occ_at p set x = occ_at p set w /\ ref_time b set x <= ref_time b set w) ->
      (occ_at p set x < occ_at p set k \/ occ_at p set x = occ_at p set k /\ ref_time b set x <= ref_time b set k) ->
      forall w, 0 <= w < k + 1 -> occ_at p set x < occ_at p set w \/
        occ_at p set x = occ_at p set w /\ ref_time b set x <= ref_time b set w).
    { intros x H1 H2 w Hw. destruct (decide (w = k)) as [->|]; [done|]. apply H1. lia. }
    destruct (Z.ltb_spec (occ_at p set k) (occ_at p set si)); [|destruct (Z.eqb_spec (occ_at p set k) (occ_at p set si))].
    + eexists. split; [done|]. do 2 (split; [done|]). split; [lia|]. apply Hall; [|lia].
      intros w Hw. specialize (Hmin w Hw). lia.
    + eexists. split; [done|]. destruct (Z.ltb_spec (ref_time b set k) (ref_time b set si)).
      * do 2 (split; [done|]). split; [lia|]. apply Hall; [|lia]. intros w Hw. specialize (Hmin w Hw). lia.
      * do 2 (split; [done|]). split; [lia|]. apply Hall; [done | lia].
    + eexists. split; [done|]. do 2 (split; [done|]). split; [lia|]. apply Hall; [done | lia].
  - rewrite Hf. cbn. exists v. split; [done|]. split; [lia|]. intros w Hw. apply Hmin. lia.
Qed.

#[export] Program Instance WeightedLRU_laws : PolicyLaws WeightedLRUPolicy := {| rp_ok := wlru_ok |}.
Next Obligation. intros p [H _]. done. Qed.
Next Obligation.
  intros set way time p [Hok Ho] Hs Hw. destruct (note_access_ok set way time _ Hok Hs Hw) as (b & Hb & Hok' & Hacc).
  exists (mkWeightedLRUPolicy b (m_last_occ_ptr p)). cbn in *. unfold wlru_touch. rewrite check_way_ok, Hb by done.
  split; [done|]. split; [|done]. split; [done|]. cbn. by destruct Hacc as (-> & -> & _).
Qed.
Next Obligation.
  intros f set way time occ p [= <-] [Hok Ho] Hs Hw.
  destruct (note_access_ok set way time _ Hok Hs Hw) as (b & Hb & Hok' & Hacc).
  destruct (mat_set_total _ _ _ set way occ Ho Hs Hw) as (o & Hset & Ho' & _).
  exists (mkWeightedLRUPolicy b o). cbn in *. unfold wlru_touch_occupancy. rewrite check_way_ok, Hb by done. cbn.
  rewrite Hset. split; [done|]. split; [|done]. split; [done|]. cbn. by destruct Hacc as (-> & -> & _).
Qed.
Next Obligation.
  intros set p Hok Hs. destruct (wlru_victim_spec set p Hok Hs) as (v & Hv & Hr & _). by exists v.
Qed.

(** ** The tree of pseudo-LRU

    [plru_node L x l] is the node on the path to way [x] with [l] of the [L] levels below it. *)

Definition plru_node (L : nat) (x : Z) (l : nat) : Z :=
  2 ^ (Z.of_nat L - Z.of_nat l) + Z.shiftr x (Z.of_nat l) - 1.

Lemma land_shiftr_bit x i : 0 <= i -> Z.land (Z.shiftr x i) 1 = Z.b2z (Z.testbit x i).
Proof.
  intros Hi. change 1 with (Z.ones 1). rewrite Z.land_ones, Z.testbit_spec', Z.shiftr_div_pow2 by lia. done.
Qed.

Lemma shiftr_step x i : Z.shiftr x (Z.of_nat i) = 2 * Z.shiftr x (Z.of_nat (S i)) + Z.b2z (Z.testbit x (Z.of_nat i)).
Proof.
  replace (Z.of_nat (S i)) with (Z.of_nat i + 1) by lia. rewrite <- Z.shiftr_shiftr by lia.
  rewrite <- land_shiftr_bit by lia. change 1 with (Z.ones 1) at 2. rewrite Z.land_ones by lia.
  rewrite (Z.shiftr_div_pow2 _ 1) by lia. change (2 ^ 1) with 2. apply Z.div_mod. lia.
Qed.

Lemma pow2_step (L i : nat) : (i < L)%nat -> 2 ^ (Z.of_nat L - Z.of_nat i) = 2 * 2 ^ (Z.of_nat L - Z.of_nat (S i)).
Proof. intros Hi. rewrite <- Z.pow_succ_r by lia. f_equal. lia. Qed.

Lemma node_child_bit n (b : bool) : node_child (Z.b2z b) n = 2 * n + 1 + Z.b2z b.
Proof. unfold node_child. destruct b; cbn; lia. Qed.

Lemma plru_child L x i : (i < L)%nat ->
  node_child (Z.b2z (Z.testbit x (Z.of_nat i))) (plru_node L x (S i)) = plru_node L x i.
Proof.
  intros Hi. rewrite node_child_bit. unfold plru_node. rewrite (pow2_step L i Hi), (shiftr_step x i). lia.
Qed.

Lemma shiftr_range L x l : (l <= L)%nat -> 0 <= x < 2 ^ Z.of_nat L -> 0 <= Z.shiftr x (Z.of_nat l) < 2 ^ (Z.of_nat L - Z.of_nat l).
Proof.
  intros Hl [H0 H1]. split; [by apply Z.shiftr_nonneg|]. rewrite Z.shiftr_div_pow2 by lia.
  apply Z.div_lt_upper_bound; [lia|]. rewrite <- Z.pow_add_r by lia. by replace (Z.of_nat l + _) with (Z.of_nat L) by lia.
Qed.

Lemma plru_node_range L x l : (l < L)%nat -> 0 <= x < 2 ^ Z.of_nat L ->
  2 ^ (Z.of_nat L - Z.of_nat (S l)) - 1 <= plru_node L x (S l) < 2 ^ (Z.of_nat L - Z.of_nat l) - 1.
Proof.
  intros Hl Hx. destruct (shiftr_range L x (S l)) as [H0 H1]; [lia | done|].
  unfold plru_node. rewrite (pow2_step L l Hl). lia.
Qed.

Lemma plru_node_bound L x l : (l < L <= 5)%nat -> 0 <= x < 2 ^ Z.of_nat L -> 0 <= plru_node L x (S l) < 31.
Proof.
  intros Hl Hx. destruct (plru_node_range L x l) as [H0 H1]; [lia | done|].
  pose proof (Z.pow_pos_nonneg 2 (Z.of_nat L - Z.of_nat (S l)) ltac:(lia) ltac:(lia)).
  pose proof (Z.pow_le_mono_r 2 (Z.of_nat L - Z.of_nat l) 5 ltac:(lia) ltac:(lia)). lia.
Qed.

Lemma plru_node_level L x y k l : (k < L)%nat -> (l < L)%nat -> 0 <= x < 2 ^ Z.of_nat L -> 0 <= y < 2 ^ Z.of_nat L ->
  plru_node L x (S k) = plru_node L y (S l) -> k = l.
Proof.
  intros Hk Hl Hx Hy E. destruct (plru_node_range L x k Hk Hx), (plru_node_range L y l Hl Hy).
  destruct (lt_eq_lt_dec k l) as [[|]|]; [| done|].
  - pose proof (Z.pow_le_mono_r 2 (Z.of_nat L - Z.of_nat l) (Z.of_nat L - Z.of_nat (S k)) ltac:(lia) ltac:(lia)). lia.
  - pose proof (Z.pow_le_mono_r 2 (Z.of_nat L - Z.of_nat k) (Z.of_nat L - Z.of_nat (S l)) ltac:(lia) ltac:(lia)). lia.
Qed.

Lemma plru_node_prefix L x y l : plru_node L x l = plru_node L y l <-> Z.shiftr x (Z.of_nat l) = Z.shiftr y (Z.of_nat l).
Proof. unfold plru_node. split; [lia|]. by intros ->. Qed.

(** One write of the loop of [touch]. *)
Definition write_node (tree n : Z) (b : bool) : Z :=
  if Z.b2z b =? 0 then Z.land tree (Z.lnot (Z.shiftl 1 n)) else Z.lor tree (Z.shiftl 1 n).

Lemma write_node_bit tree n b m : 0 <= n -> 0 <= m ->
  Z.testbit (write_node tree n b) m = if m =? n then b else Z.testbit tree m.
Proof.
  intros Hn Hm. unfold write_node. rewrite Z.shiftl_1_l. destruct b; cbn [Z.b2z Z.eqb].
  - rewrite Z.lor_spec, Z.pow2_bits_eqb, Z.eqb_sym by lia. destruct (m =? n); [apply orb_true_r | apply orb_false_r].
  - rewrite Z.land_spec, Z.lnot_spec, Z.pow2_bits_eqb, Z.eqb_sym by lia.
    destruct (m =? n); [apply andb_false_r | apply andb_true_r].
Qed.

Lemma touch_path_step i x n tree : 0 <= n < 31 ->
  touch_path (S i) x n tree =
  touch_path i x (node_child (Z.b2z (Z.testbit x (Z.of_nat i))) n) (write_node tree n (Z.testbit x (Z.of_nat i))).
Proof.
  intros Hn. cbn [touch_path]. rewrite land_shiftr_bit by lia. unfold int_bit, write_node.
  by rewrite (proj2 (Z.leb_le 0 n)), (proj2 (Z.ltb_lt n 31)) by lia.
Qed.

(** [touch] leaves the nodes on the way's path pointing to it, and the others as they were. *)
Lemma touch_path_spec L x i tree : (i <= L <= 5)%nat -> 0 <= x < 2 ^ Z.of_nat L ->
  exists tree', touch_path i x (plru_node L x i) tree = Ok tree' /\
    forall y l, (l < L)%nat -> 0 <= y < 2 ^ Z.of_nat L ->
      Z.testbit tree' (plru_node L y (S l)) =
      if decide ((l < i)%nat /\ plru_node L y (S l) = plru_node L x (S l)) then Z.testbit x (Z.of_nat l)
      else Z.testbit tree (plru_node L y (S l)).
Proof.
  intros Hi Hx. revert tree Hi. induction i as [|i IH]; intros tree Hi.
  - exists tree. split; [done|]. intros y l Hl Hy. by rewrite decide_False by lia.
  - pose proof (plru_node_bound L x i ltac:(lia) Hx) as Hn. rewrite touch_path_step, plru_child by lia.
    destruct (IH (write_node tree (plru_node L x (S i)) (Z.testbit x (Z.of_nat i))) ltac:(lia)) as (tree' & Ht & Hbit).
    exists tree'. split; [done|]. intros y l Hl Hy. rewrite Hbit by done.
    pose proof (plru_node_bound L y l ltac:(lia) Hy) as Hm. rewrite write_node_bit by lia.
    destruct (Z.eqb_spec (plru_node L y (S l)) (plru_node L x (S i))) as [E|Hne].
    + assert (l = i) as -> by (eapply plru_node_level; [.. | exact E]; done || lia).
      rewrite decide_False by lia. by rewrite decide_True by (split; [lia | done]).
    + destruct (decide (l < i /\ _)%nat) as [[H1 H2]|H1]; [by rewrite decide_True by (split; [lia | done])|].
      rewrite decide_False; [done|]. intros [H2 H3]. destruct (decide (l = i)) as [->|]; [done|].
      apply H1. split; [lia | done].
Qed.

(** The number of nodes on the path to [x] from which the victim's path would go on towards [x]. *)
Fixpoint pointing (L i : nat) (x tree : Z) : nat :=
  match i with
  | O => O
  | S i' => (if Bool.eqb (Z.testbit tree (plru_node L x (S i'))) (negb (Z.testbit x (Z.of_nat i'))) then 1 else 0)
            + pointing L i' x tree
  end.

Section Touch.
Context (L : nat) (x y tree tree' : Z) (HL : (L <= 5)%nat) (Hx : 0 <= x < 2 ^ Z.of_nat L) (Hy : 0 <= y < 2 ^ Z.of_nat L).
Context (Ht : touch_path L x (plru_node L x L) tree = Ok tree').

Lemma touched_bit l : (l < L)%nat ->
  Z.testbit tree' (plru_node L y (S l)) =
  if decide (Z.shiftr y (Z.of_nat (S l)) = Z.shiftr x (Z.of_nat (S l))) then Z.testbit x (Z.of_nat l)
  else Z.testbit tree (plru_node L y (S l)).
Proof.
  intros Hl. destruct (touch_path_spec L x L tree ltac:(lia) Hx) as (t & Ht' & Hbit).
  rewrite Ht in Ht'. apply Ok_inj in Ht' as <-. rewrite Hbit by done. apply decide_ext. rewrite plru_node_prefix. tauto.
Qed.

(** Below the point where the paths part, nothing changes. *)
Lemma pointing_apart i : (i <= L)%nat -> Z.shiftr y (Z.of_nat i) <> Z.shiftr x (Z.of_nat i) ->
  pointing L i y tree' = pointing L i y tree.
Proof.
  induction i as [|i IH]; intros Hi Hne; [done|]. cbn [pointing]. rewrite touched_bit, decide_False by (done || lia).
  f_equal. apply IH; [lia|]. intros E. apply Hne. rewrite !(shiftr_step _ i) in E.
  destruct (Z.testbit y (Z.of_nat i)), (Z.testbit x (Z.of_nat i)); cbn in E; lia.
Qed.

Lemma pointing_touch i : (i <= L)%nat -> (pointing L i y tree' <= pointing L i y tree + 1)%nat.
Proof.
  induction i as [|i IH]; intros Hi; [cbn; lia|].
  destruct (decide (Z.shiftr y (Z.of_nat (S i)) = Z.shiftr x (Z.of_nat (S i)))) as [E|Hne].
  - cbn [pointing]. rewrite touched_bit, decide_True by (done || lia).
    destruct (decide (Z.testbit x (Z.of_nat i) = Z.testbit y (Z.of_nat i))) as [Eb|Hb].
    + rewrite Eb. specialize (IH ltac:(lia)). destruct (Z.testbit y (Z.of_nat i)); cbn [Bool.eqb negb]; lia.
    + rewrite pointing_apart; [|lia|].
      * destruct (Bool.eqb _ _), (Bool.eqb _ _); lia.
      * rewrite !(shiftr_step _ i). destruct (Z.testbit y (Z.of_nat i)), (Z.testbit x (Z.of_nat i)); cbn [Z.b2z]; lia || done.
  - rewrite pointing_apart by done. lia.
Qed.

Lemma pointing_self i : (i <= L)%nat -> y = x -> pointing L i y tree' = 0%nat.
Proof.
  intros Hi E. induction i as [|i IH]; [done|]. cbn [pointing]. rewrite touched_bit, decide_True by (by subst || lia).
  rewrite IH by lia. rewrite E. by destruct (Z.testbit x (Z.of_nat i)).
Qed.
End Touch.

(** The way that the victim's path leads to from the node with prefix [q]; all its nodes point to it. *)
Lemma victim_path_spec L n tree q : (n <= L)%nat -> 0 <= q < 2 ^ (Z.of_nat L - Z.of_nat n) ->
  let v := victim_path n (Z.of_nat L - Z.of_nat n) tree (2 ^ (Z.of_nat L - Z.of_nat n) + q - 1) (q * 2 ^ Z.of_nat n) (2 ^ Z.of_nat L) in
  0 <= v < 2 ^ Z.of_nat L /\ Z.shiftr v (Z.of_nat n) = q /\ pointing L n v tree = n.
Proof.
  revert q. induction n as [|n IH]; intros q Hn Hq.
  { cbn [victim_path pointing]. cbv zeta. rewrite Z.sub_0_r, Z.pow_0_r, Z.mul_1_r in *. done. }
  cbn [victim_path]. cbv zeta. set (node := 2 ^ (Z.of_nat L - Z.of_nat (S n)) + q - 1) in *.
  assert (H0 : 0 < 2 ^ (Z.of_nat L - Z.of_nat (S n))) by (apply Z.pow_pos_nonneg; lia).
  rewrite land_shiftr_bit by lia. set (b := Z.testbit tree node).
  replace (Z.shiftr (2 ^ Z.of_nat L) _) with (2 ^ Z.of_nat n)
    by (rewrite Z.shiftr_div_pow2, <- Z.pow_sub_r by lia; f_equal; lia).
  assert (Hpow := pow2_step L n Hn).
  replace (q * 2 ^ Z.of_nat (S n) + _) with ((2 * q + Z.b2z (negb b)) * 2 ^ Z.of_nat n)
    by (rewrite Nat2Z.inj_succ, Z.pow_succ_r by lia; destruct b; cbn [Z.b2z Z.eqb negb]; ring).
  replace (node_child _ _) with (2 ^ (Z.of_nat L - Z.of_nat n) + (2 * q + Z.b2z (negb b)) - 1)
    by (replace (1 - Z.b2z b) with (Z.b2z (negb b)) by (by destruct b); rewrite node_child_bit, Hpow; subst node; lia).
  replace (Z.of_nat L - Z.of_nat (S n) + 1) with (Z.of_nat L - Z.of_nat n) by lia.
  destruct (IH (2 * q + Z.b2z (negb b))) as (Hv & Hpre & Hall); [lia | destruct b; cbn [Z.b2z negb]; lia|].
  set (v := victim_path _ _ _ _ _ _) in *. pose proof (shiftr_step v n) as Hstep. rewrite Hpre in Hstep.
  assert (Hvs : Z.shiftr v (Z.of_nat (S n)) = q /\ Z.testbit v (Z.of_nat n) = negb b)
    by (destruct (Z.testbit v (Z.of_nat n)), b; cbn [Z.b2z negb] in Hstep; lia || (split; [lia | done])).
  destruct Hvs as [Hvs Hvb]. split; [done|]. split; [done|]. cbn [pointing]. rewrite Hall, Hvb, negb_involutive.
  unfold plru_node. rewrite Hvs. fold node b. by rewrite Bool.eqb_reflx.
Qed.

(** ** Pseudo-LRU keeps its shape *)

Record plru_shape (L : nat) (p : PseudoLRUPolicy) : Prop := {
  pl_base : base_ok (plru_base p);
  pl_levels : m_num_levels p = Z.of_nat L;
  pl_depth : (1 <= L <= 5)%nat;
  pl_effective : m_effective_assoc p = 2 ^ Z.of_nat L;
  pl_assoc : 2 ^ (Z.of_nat L - 1) < m_assoc (plru_base p) <= 2 ^ Z.of_nat L;
  pl_trees : vsize (m_trees p) = m_num_sets (plru_base p)
}.

Definition plru_ok (p : PseudoLRUPolicy) : Prop := exists L, plru_shape L p.

Lemma plru_constants : forallb (fun a => match ceil_pow2 32 1 a with
  | Ok e => match count_levels 32 e 0 with
            | Ok l => (e =? 2 ^ l) && (2 ^ (l - 1) <? a) && (a <=? 2 ^ l) && (1 <=? l) && (l <=? 5)
            | Err _ => false end
  | Err _ => false end) (seqZ 2 31) = true.
Proof. by vm_compute. Qed.

Lemma PseudoLRUPolicy_new_ok size block_size assoc p : PseudoLRUPolicy_new size block_size assoc = Ok p -> plru_ok p.
Proof.
  unfold PseudoLRUPolicy_new. intros H. inv_ok. rename select (AbstractReplacementPolicy _ _ _ = _) into Hb.
  rename select (_ && _ = true) into Hc. rewrite !andb_true_iff, !Z.ltb_lt, Z.leb_le in Hc.
  pose proof plru_constants as Hall. rewrite forallb_forall in Hall.
  match type of Hb with _ = Ok ?b0 => specialize (Hall (m_assoc b0)); set (b := b0) in * end.
  rewrite <- list_elem_of_In, elem_of_seqZ in Hall. specialize (Hall ltac:(lia)).
  repeat match goal with H : ceil_pow2 _ _ _ = _ |- _ => rewrite H in Hall | H : count_levels _ _ _ = _ |- _ => rewrite H in Hall end.
  rewrite !andb_true_iff, Z.eqb_eq, Z.ltb_lt, !Z.leb_le in Hall. destruct Hall as [[[[-> ?] ?] ?] ?].
  match goal with H : count_levels _ _ _ = Ok ?l |- _ => exists (Z.to_nat l) end.
  destruct (AbstractReplacementPolicy_spec _ _ _ _ Hb) as (Hok & Hn & _); [lia|].
  split; cbn; rewrite ?Z2Nat.id by lia; try (done || lia). unfold vsize. rewrite length_replicate. lia.
Qed.

Lemma plru_root L x : 0 <= x < 2 ^ Z.of_nat L -> plru_node L x L = 0.
Proof.
  intros Hx. unfold plru_node. rewrite Z.sub_diag. pose proof (shiftr_range L x L ltac:(lia) Hx) as H.
  rewrite Z.sub_diag in H. cbn in *. lia.
Qed.

Lemma plru_way_range L p way : plru_shape L p -> 0 <= way < m_assoc (plru_base p) -> 0 <= way < 2 ^ Z.of_nat L.
Proof. intros Hp Hw. pose proof (pl_assoc _ _ Hp). lia. Qed.

Lemma plru_touch_spec L set way time p : plru_shape L p ->
  0 <= set < m_num_sets (plru_base p) -> 0 <= way < m_assoc (plru_base p) ->
  exists p' tree tree', plru_touch set way time p = Ok p' /\ plru_shape L p' /\ accessed set way time (plru_base p) (plru_base p') /\
    vec_get (m_trees p) set = Ok tree /\ touch_path L way (plru_node L way L) tree = Ok tree' /\
    m_trees p' = <[Z.to_nat set := tree']> (m_trees p).
Proof.
  intros Hp Hs Hw. pose proof (plru_way_range _ _ _ Hp Hw) as Hr.
  destruct (vec_get_in_range (m_trees p) set) as [tree Htree]; [by rewrite (pl_trees _ _ Hp)|].
  pose proof (pl_depth _ _ Hp). destruct (touch_path_spec L way L tree) as (tree' & Ht & _); [lia | done|].
  destruct (note_access_ok set way time _ (pl_base _ _ Hp) Hs Hw) as (b & Hb & Hok & Hacc).
  exists (mkPseudoLRUPolicy b (m_effective_assoc p) (m_num_levels p) (<[Z.to_nat set := tree']> (m_trees p))), tree, tree'.
  unfold plru_touch. rewrite check_way_ok, Htree by done. cbn [mbind result_bind].
  rewrite (pl_levels _ _ Hp), Nat2Z.id. rewrite (plru_root L way Hr) in *. rewrite Ht. cbn [mbind result_bind].
  rewrite (vec_set_Ok_get _ _ _ _ Htree). cbn [mbind result_bind]. rewrite Hb. split; [done|]. split; [|done].
  destruct Hp, Hacc as (En & Ea & _). split; cbn; rewrite ?vsize_insert, ?En, ?Ea; done.
Qed.

Lemma plru_victim_spec L set p : plru_shape L p -> 0 <= set < m_num_sets (plru_base p) ->
  exists tree index, vec_get (m_trees p) set = Ok tree /\ 0 <= index < 2 ^ Z.of_nat L /\ pointing L L index tree = L /\
    plru_getVictim set p = Ok (Z.min index (m_assoc (plru_base p) - 1)).
Proof.
  intros Hp Hs. destruct (vec_get_in_range (m_trees p) set) as [tree Htree]; [by rewrite (pl_trees _ _ Hp)|].
  destruct (victim_path_spec L L tree 0) as (Hr & _ & Hall); [lia | rewrite Z.sub_diag; cbn; lia|].
  unfold plru_getVictim. rewrite Htree. cbn [mbind result_bind]. rewrite (pl_levels _ _ Hp), (pl_effective _ _ Hp), Nat2Z.id.
  rewrite Z.sub_diag, Z.mul_0_l in *. change (2 ^ 0 + 0 - 1) with 0 in *. cbv zeta. set (v := victim_path L 0 tree 0 0 (2 ^ Z.of_nat L)) in *.
  exists tree, v. split; [done|]. split; [done|]. split; [done|].
  rewrite (proj2 (Z.leb_le 0 v)), (proj2 (Z.ltb_lt v _)) by lia. cbn. f_equal.
  destruct (Z.ltb_spec (m_assoc (plru_base p) - 1) v); lia.
Qed.

#[export] Program Instance PseudoLRU_laws : PolicyLaws PseudoLRUPolicy := {| rp_ok := plru_ok |}.
Next Obligation. intros p [L Hp]. apply Hp. Qed.
Next Obligation.
  intros set way time p [L Hp] Hs Hw. destruct (plru_touch_spec L set way time p Hp Hs Hw) as (p' & _ & _ & Ht & Hp' & Hacc & _).
  exists p'. split; [done|]. split; [by exists L | done].
Qed.
Next Obligation. done. Qed.
Next Obligation.
  intros set p [L Hp] Hs. destruct (plru_victim_spec L set p Hp Hs) as (_ & i & _ & Hi & _ & Hv).
  eexists. split; [exact Hv|]. change (rp_base p) with (plru_base p). pose proof (proj1 (pl_base _ _ Hp)). lia.
Qed.

(** ** Traces of accesses *)

Record Access := mkAccess { ac_set : Z; ac_way : Z; ac_time : Z }.

Section Traces.
Context {P : Type} {RP : ReplacementPolicy P} {PL : PolicyLaws P}.

Definition touches (l : list Access) (p : P) : result P := foldM (fun p a => rp_touch (ac_set a) (ac_way a) (ac_time a) p) l p.

Definition access_ok (b : PolicyBase) (a : Access) : Prop := 0 <= ac_set a < m_num_sets b /\ 0 <= ac_way a < m_assoc b.

(** The time of the last access to a way, [t] when there is none. *)
Fixpoint last_time (set way t : Z) (l : list Access) : Z :=
  match l with
  | [] => t
  | a :: l' => last_time set way (if decide (ac_set a = set /\ ac_way a = way) then ac_time a else t) l'
  end.

Lemma touches_ok l p : rp_ok p -> Forall (access_ok (rp_base p)) l ->
  exists p', touches l p = Ok p' /\ rp_ok p' /\
    m_num_sets (rp_base p') = m_num_sets (rp_base p) /\ m_assoc (rp_base p') = m_assoc (rp_base p) /\
    forall s w, ref_time (rp_base p') s w = last_time s w (ref_time (rp_base p) s w) l.
Proof.
  revert p. induction l as [|a l IH]; intros p Hp Hall; [by exists p|].
  apply Forall_cons in Hall as [[Hs Hw] Hall]. cbn [touches foldM].
  destruct (rp_touch_ok (ac_set a) (ac_way a) (ac_time a) p Hp Hs Hw) as (p1 & Ht & Hp1 & En & Ea & Hget & Hne).
  destruct (IH p1 Hp1) as (p2 & Hr & Hp2 & En2 & Ea2 & Hrt).
  { eapply Forall_impl; [exact Hall|]. intros b. unfold access_ok. by rewrite En, Ea. }
  exists p2. rewrite Ht. cbn [mbind result_bind]. split; [done|]. split; [done|]. split; [congruence|]. split; [congruence|].
  intros s w. rewrite Hrt. cbn [last_time]. f_equal. unfold ref_time. destruct (decide _) as [[<- <-]|Hd]; [by rewrite Hget|].
  rewrite Hne; [done|]. intros [-> ->]. tauto.
Qed.
End Traces.

(** The ways of a set in the order of their accesses, the latest first. *)
Definition recent (set : Z) (l : list Access) : list Z := reverse (map ac_way (filter (fun a => ac_set a = set) l)).

(** Each way touched since has turned at most one node of the path to [x] back towards [x]. *)
Definition spared (L : nat) (set : Z) (p : PseudoLRUPolicy) (ways : list Z) : Prop :=
  forall tree j x, vec_get (m_trees p) set = Ok tree -> ways !! j = Some x ->
    0 <= x < 2 ^ Z.of_nat L /\ (pointing L L x tree <= j)%nat.

Lemma recent_cons set a l : recent set (a :: l) = recent set l ++ (if decide (ac_set a = set) then [ac_way a] else []).
Proof.
  unfold recent. rewrite filter_cons. destruct (decide _); cbn [map]; [by rewrite reverse_cons | by rewrite app_nil_r].
Qed.

Lemma spared_touch L set time way s p p' ways : plru_shape L p ->
  0 <= s < m_num_sets (plru_base p) -> 0 <= way < m_assoc (plru_base p) -> plru_touch s way time p = Ok p' ->
  spared L set p ways -> spared L set p' (if decide (s = set) then way :: ways else ways).
Proof.
  intros Hp Hs Hw Ht Hsp. destruct (plru_touch_spec L s way time p Hp Hs Hw) as (q & tree & tree' & Hq & _ & _ & Htree & Hpath & Htrees).
  rewrite Ht in Hq. apply Ok_inj in Hq as <-. pose proof (pl_depth _ _ Hp). pose proof (plru_way_range _ _ _ Hp Hw) as Hr.
  intros tr j x Hget Hx. rewrite Htrees in Hget. destruct (decide (s = set)) as [->|Hne].
  - rewrite (vec_get_insert _ _ _ _ Htree) in Hget. apply Ok_inj in Hget as <-.
    destruct j as [|j]; cbn in Hx; [simplify_eq|].
    + split; [done|]. erewrite pointing_self; [lia | .. | done]; try exact Hpath; done || lia.
    + destruct (Hsp tree j x Htree Hx) as [Hxr Hpt]. split; [done|].
      pose proof (pointing_touch L way x tree tree' ltac:(lia) Hr Hxr Hpath L ltac:(lia)). lia.
  - rewrite vec_get_insert_ne in Hget by lia. by apply (Hsp tr).
Qed.

Lemma plru_touches L set l p ways : plru_shape L p -> spared L set p ways -> Forall (access_ok (plru_base p)) l ->
  exists p', touches l p = Ok p' /\ plru_shape L p' /\ m_num_sets (plru_base p') = m_num_sets (plru_base p) /\
    m_assoc (plru_base p') = m_assoc (plru_base p) /\ spared L set p' (recent set l ++ ways).
Proof.
  revert p ways. induction l as [|a l IH]; intros p ways Hp Hsp Hall; [by exists p|].
  apply Forall_cons in Hall as [[Hs Hw] Hall]. cbn [touches foldM rp_touch PseudoLRU_policy].
  destruct (plru_touch_spec L (ac_set a) (ac_way a) (ac_time a) p Hp Hs Hw) as (p1 & _ & _ & Ht & Hp1 & (En & Ea & _) & _).
  destruct (IH p1 _ Hp1 (spared_touch _ _ _ _ _ _ _ _ Hp Hs Hw Ht Hsp)) as (p2 & Hr & Hp2 & En2 & Ea2 & Hsp2).
  { eapply Forall_impl; [exact Hall|]. intros b. unfold access_ok. by rewrite En, Ea. }
  exists p2. rewrite Ht. cbn [mbind result_bind]. split; [done|]. split; [done|]. split; [congruence|]. split; [congruence|].
  rewrite recent_cons, <- app_assoc. by destruct (decide _).
Qed.

(** Two ways in the same half of the tree: the root points to both or to neither. *)
Lemma pointing_half l x v tree : 0 <= x < 2 ^ Z.of_nat (S l) -> 0 <= v < 2 ^ Z.of_nat (S l) ->
  2 ^ Z.of_nat l <= x -> 2 ^ Z.of_nat l <= v -> pointing (S l) (S l) v tree = S l -> (1 <= pointing (S l) (S l) x tree)%nat.
Proof.
  intros Hx Hv Hlx Hlv Hp. assert (Hup : forall i, 0 <= i < 2 ^ Z.of_nat (S l) -> 2 ^ Z.of_nat l <= i -> Z.testbit i (Z.of_nat l) = true).
  { intros i Hi Hl. apply Z.testbit_true; [lia|]. rewrite Nat2Z.inj_succ, Z.pow_succ_r in Hi by lia.
    replace (i `div` 2 ^ Z.of_nat l) with 1; [done|]. apply Z.div_unique with (i - 2 ^ Z.of_nat l); lia. }
  assert (Hle : forall i, (pointing (S l) i v tree <= i)%nat).
  { induction i as [|i IH]; cbn [pointing]; [lia|]. destruct (Bool.eqb _ _); lia. }
  specialize (Hle l). cbn [pointing] in *. rewrite plru_root, Hup in * by done.
  destruct (Bool.eqb _ _); lia.
Qed.

(** C33: Pseudo-LRU spares what was used recently.  After any accesses to a new policy, none of which fails, the victim
    of a set is a way of the set and is not the way of the latest access to it; where the associativity is a power
    of two, [2^L], it is none of the ways of the latest [L] accesses. *)
Theorem plru_spares_recent size block_size assoc p0 l set :
  PseudoLRUPolicy_new size block_size assoc = Ok p0 ->
  Forall (access_ok (plru_base p0)) l -> 0 <= set < m_num_sets (plru_base p0) ->
  exists p v, touches l p0 = Ok p /\ plru_getVictim set p = Ok v /\ 0 <= v < m_assoc (plru_base p0) /\
    head (recent set l) <> Some v /\
    (m_assoc (plru_base p0) = 2 ^ m_num_levels p0 -> v ∉ take (Z.to_nat (m_num_levels p0)) (recent set l)).
Proof.
  intros [L Hp]%PseudoLRUPolicy_new_ok Hall Hs.
  destruct (plru_touches L set l p0 [] Hp) as (p & Hr & Hp' & En & Ea & Hsp); [by intros ? ? ? ? ? | done|].
  rewrite app_nil_r in Hsp. destruct (plru_victim_spec L set p Hp') as (tree & i & Htree & Hi & Hpt & Hv); [lia|].
  pose proof (pl_depth _ _ Hp). pose proof (pl_assoc _ _ Hp) as Hassoc.
  assert (0 < 2 ^ (Z.of_nat L - 1)) by (apply Z.pow_pos_nonneg; lia).
  assert (Hin : forall j, recent set l !! j = Some i -> (L <= j)%nat).
  { intros j Hj. destruct (Hsp _ _ _ Htree Hj). lia. }
  eexists p, _. split; [done|]. split; [done|]. split; [lia|]. rewrite Ea. split.
  - intros Hh. rewrite head_lookup in Hh. destruct (decide (i <= m_assoc (plru_base p0) - 1)) as [Hle|Hgt].
    + rewrite Z.min_l in Hh by lia. apply Hin in Hh. lia.
    + rewrite Z.min_r in Hh by lia. destruct (Hsp _ _ _ Htree Hh) as [Hx Hle]. destruct L as [|k]; [lia|].
      replace (Z.of_nat (S k) - 1) with (Z.of_nat k) in Hassoc by lia.
      pose proof (pointing_half k _ i tree Hx Hi ltac:(lia) ltac:(lia) Hpt). lia.
  - rewrite (pl_levels _ _ Hp), Nat2Z.id. intros E (j & Hj)%list_elem_of_lookup.
    apply lookup_take_Some in Hj as [Hj Hlt]. rewrite Z.min_l in Hj by lia. apply Hin in Hj. lia.
Qed.

(** Four accesses to set 1 of an 8-way cache, and one to set 0: the victim of set 1 is none of the last three ways. *)
Definition ex_accesses : list Access := [mkAccess 1 4 10; mkAccess 1 0 20; mkAccess 0 6 30; mkAccess 1 5 40; mkAccess 1 2 50].

Lemma plru_spares_recent_witness :
  exists p0 p v, PseudoLRUPolicy_new 1024 64 8 = Ok p0 /\ touches ex_accesses p0 = Ok p /\ plru_getVictim 1 p = Ok v /\
    (v ∉ [2; 5; 0]) /\ v = 7.
Proof.
  destruct (PseudoLRUPolicy_new 1024 64 8) as [p0|] eqn:E; [|by vm_compute in E]. exists p0.
  pose proof E as E0. vm_compute in E0. apply Ok_inj in E0.
  destruct (plru_spares_recent 1024 64 8 p0 ex_accesses 1 E) as (p & v & Hr & Hv & _ & _ & Hrec).
  - subst p0. unfold ex_accesses, access_ok. cbn. repeat constructor; cbn; lia.
  - subst p0. cbn. lia.
  - exists p, v. subst p0. split; [done|]. split; [done|]. split; [done|]. split; [apply Hrec; reflexivity|].
    vm_compute in Hr. apply Ok_inj in Hr. subst p. vm_compute in Hv. by apply Ok_inj in Hv.
Defined.

(** After any accesses to a new LRU policy the victim is a way whose last access is the earliest, the first one of those. *)
Lemma lru_evicts_oldest size block_size assoc p0 l set : LRUPolicy_new size block_size assoc = Ok p0 -> 0 < m_assoc (lru_base p0) ->
  Forall (access_ok (lru_base p0)) l -> 0 <= set < m_num_sets (lru_base p0) ->
  exists p v, touches l p0 = Ok p /\ lru_getVictim set p = Ok v /\ 0 <= v < m_assoc (lru_base p0) /\
    forall w, 0 <= w < m_assoc (lru_base p0) ->
      last_time set v 0 l < last_time set w 0 l \/ last_time set v 0 l = last_time set w 0 l /\ v <= w.
Proof.
  unfold LRUPolicy_new. intros H Ha Hall Hs. inv_ok. cbn [lru_base] in *. rename select (_ = Ok _) into Hb.
  destruct (AbstractReplacementPolicy_spec _ _ _ _ Hb Ha) as (Hok & _ & Hz).
  match type of Hok with base_ok ?b => destruct (touches_ok (PL := LRU_laws) l (mkLRUPolicy b) Hok Hall) as (p & Hr & Hp & En & Ea & Hrt) end.
  cbn in *. destruct (lru_victim_spec set p Hp) as (v & Hv & Hvr & Hmin); [lia|].
  exists p, v. split; [done|]. split; [done|]. split; [lia|]. intros w Hw. specialize (Hmin w ltac:(lia)).
  rewrite !Hrt in Hmin. unfold ref_time in Hmin. by rewrite !Hz in Hmin by lia.
Qed.
