(* ===== verification/CacheMemory.v ===== *)
(** * The cache memory of a Ruby controller

    structures/CacheMemory.cc, structures/BankedArray.cc, slicc_interface/AbstractCacheEntry.cc,
    slicc_interface/AbstractEntry.cc, and what they use of common/Address.cc and base/intmath.hh.
    The entries of a cache are objects of the protocol that the cache holds by pointer: [h] is the
    store of these objects, a pointer is its key in the store, and a pointer that is not in the
    store dangles.  [bits] is RubySystem's [getBlockSizeBits()]; the block size in bytes is its
    power of two (RubySystem's constructor asserts this). *)

From S2P Require Import Prelude MessageBuffer Replacement.
Local Open Scope Z_scope.

(** ** base/intmath.hh *)

(** [if (x & mask) { y += shift; x >>= shift; }] *)
Definition log_step (mask shift : Z) '((x, y) : Z * Z) : Z * Z :=
  if Z.land x mask =? 0 then (x, y) else (Z.shiftr x shift, y + shift).

Definition floorLog2 (x : Z) : result Z :=
  assert_ (0 <? x) ;;
  let s := log_step 0xffff0000 16 (x, 0) in
  let s := log_step 0x0000ff00 8 s in
  let s := log_step 0x000000f0 4 s in
  let s := log_step 0x0000000c 2 s in
  Ok (if Z.land s.1 0x00000002 =? 0 then s.2 else s.2 + 1).

(** ** common/Address.cc *)

Definition maskLowOrderBits (addr number : Z) : Z :=
  Z.land addr (if 63 <=? number then Z.ones 64 else u64 (Z.shiftl (Z.ones 64) number)).

Definition makeLineAddress (bits addr : Z) : Z := maskLowOrderBits addr bits.

Definition makeNextStrideAddress (bits addr stride : Z) : Z := u64 (maskLowOrderBits addr bits + u32 (2 ^ bits * stride)).

(** ** Enumerations of the protocol interface *)

Inductive AccessPermission :=
  | AccessPermission_Read_Only | AccessPermission_Read_Write | AccessPermission_Maybe_Stale | AccessPermission_Backing_Store
  | AccessPermission_Invalid | AccessPermission_NotPresent | AccessPermission_Busy.

#[export] Instance AccessPermission_eq_dec : EqDecision AccessPermission.
Proof. solve_decision. Defined.

Inductive RubyRequestType :=
  | RubyRequestType_LD | RubyRequestType_ST | RubyRequestType_ATOMIC | RubyRequestType_ATOMIC_RETURN
  | RubyRequestType_ATOMIC_NO_RETURN | RubyRequestType_IFETCH | RubyRequestType_IO | RubyRequestType_REPLACEMENT
  | RubyRequestType_Load_Linked | RubyRequestType_Store_Conditional | RubyRequestType_RMW_Read | RubyRequestType_RMW_Write
  | RubyRequestType_Locked_RMW_Read | RubyRequestType_Locked_RMW_Write | RubyRequestType_COMMIT | RubyRequestType_NULL
  | RubyRequestType_FLUSH | RubyRequestType_Release | RubyRequestType_Acquire | RubyRequestType_AcquireRelease.

#[export] Instance RubyRequestType_eq_dec : EqDecision RubyRequestType.
Proof. solve_decision. Defined.

Inductive CacheRequestType :=
  | CacheRequestType_DataArrayRead | CacheRequestType_DataArrayWrite
  | CacheRequestType_TagArrayRead | CacheRequestType_TagArrayWrite.

Inductive CacheResourceType := CacheResourceType_DataArray | CacheResourceType_TagArray.

(** ** Entries *)

Record AbstractCacheEntry := mkAbstractCacheEntry {
  m_Permission : AccessPermission;
  m_Address : Z;
  m_locked : Z;
  m_set_index : Z;
  m_way_index : Z;
  validBlocks : Z
}.

Definition with_m_Permission (v : AccessPermission) (r : AbstractCacheEntry) : AbstractCacheEntry :=
  mkAbstractCacheEntry v (m_Address r) (m_locked r) (m_set_index r) (m_way_index r) (validBlocks r).
Definition with_m_Address (v : Z) (r : AbstractCacheEntry) : AbstractCacheEntry :=
  mkAbstractCacheEntry (m_Permission r) v (m_locked r) (m_set_index r) (m_way_index r) (validBlocks r).
Definition with_m_locked (v : Z) (r : AbstractCacheEntry) : AbstractCacheEntry :=
  mkAbstractCacheEntry (m_Permission r) (m_Address r) v (m_set_index r) (m_way_index r) (validBlocks r).
Definition with_m_set_index (v : Z) (r : AbstractCacheEntry) : AbstractCacheEntry :=
  mkAbstractCacheEntry (m_Permission r) (m_Address r) (m_locked r) v (m_way_index r) (validBlocks r).
Definition with_m_way_index (v : Z) (r : AbstractCacheEntry) : AbstractCacheEntry :=
  mkAbstractCacheEntry (m_Permission r) (m_Address r) (m_locked r) (m_set_index r) v (validBlocks r).
Definition with_validBlocks (v : Z) (r : AbstractCacheEntry) : AbstractCacheEntry :=
  mkAbstractCacheEntry (m_Permission r) (m_Address r) (m_locked r) (m_set_index r) (m_way_index r) v.


(** The members without an initialiser, the indices and the number of valid blocks, are what the protocol leaves there. *)
Definition AbstractCacheEntry_new (set_index way_index valid_blocks : Z) : AbstractCacheEntry :=
  mkAbstractCacheEntry AccessPermission_NotPresent 0 (-1) set_index way_index valid_blocks.

Definition changePermission (new_perm : AccessPermission) (e : AbstractCacheEntry) : AbstractCacheEntry :=
  let e := with_m_Permission new_perm e in
  if decide (new_perm = AccessPermission_Invalid \/ new_perm = AccessPermission_NotPresent) then with_m_locked (-1) e else e.

Definition entry_setLocked (context : Z) (e : AbstractCacheEntry) : AbstractCacheEntry := with_m_locked context e.
Definition entry_clearLocked (e : AbstractCacheEntry) : AbstractCacheEntry := with_m_locked (-1) e.
Definition entry_isLocked (context : Z) (e : AbstractCacheEntry) : bool := m_locked e =? context.

Abbreviation EntryStore := (gmap Z AbstractCacheEntry).

(** Reading and writing through a pointer. *)
Definition deref_entry (h : EntryStore) (p : option Z) : result AbstractCacheEntry :=
  match p with
  | Some a => match h !! a with Some e => Ok e | None => Err EIndex end
  | None => Err EIndex
  end.

Definition write_entry (h : EntryStore) (p : Z) (f : AbstractCacheEntry -> AbstractCacheEntry) : result EntryStore :=
  e ← deref_entry h (Some p); Ok (<[p := f e]> h).

(** ** Banked arrays *)

Record AccessRecord := mkAccessRecord { ar_idx : Z; startAccess : Z; endAccess : Z }.

Record BankedArray := mkBankedArray {
  banks : Z;
  accessLatency : Z;
  bankBits : option Z;
  startIndexBit : Z;
  busyBanks : list AccessRecord
}.

Definition with_busyBanks (v : list AccessRecord) (r : BankedArray) : BankedArray :=
  mkBankedArray (banks r) (accessLatency r) (bankBits r) (startIndexBit r) v.


(** [bankBits] is left without a value when there are no banks. *)
Definition BankedArray_new (banks accessLatency startIndexBit : Z) : result BankedArray :=
  bits ← (if banks =? 0 then Ok None else b ← floorLog2 banks; Ok (Some b));
  Ok (mkBankedArray banks accessLatency bits startIndexBit (replicate (Z.to_nat banks) (mkAccessRecord 0 0 0))).

Definition mapIndexToBank (idx : Z) (a : BankedArray) : result Z :=
  if banks a =? 1 then Ok 0 else if banks a =? 0 then Err EDiv else Ok (u32 (Z.rem idx (banks a))).

Definition tryAccess (curTick idx : Z) (a : BankedArray) : result bool :=
  if accessLatency a =? 0 then Ok true
  else
    bank ← mapIndexToBank idx a;
    assert_ (bank <? banks a) ;;
    r ← vec_get (busyBanks a) bank;
    Ok (negb (curTick <=? endAccess r)).

Definition reserve (clockPeriod curTick idx : Z) (a : BankedArray) : result BankedArray :=
  if accessLatency a =? 0 then Ok a
  else
    bank ← mapIndexToBank idx a;
    assert_ (bank <? banks a) ;;
    r ← vec_get (busyBanks a) bank;
    if curTick <=? endAccess r then
      if (startAccess r =? curTick) && (ar_idx r =? idx) then Ok a else Err EPanic
    else
      bs ← vec_set (busyBanks a) bank (mkAccessRecord idx curTick (u64 (curTick + (accessLatency a - 1) * clockPeriod)));
      Ok (with_busyBanks bs a).

(** ** The cache *)

Record CacheStats := mkCacheStats {
  numDataArrayReads : Z;
  numDataArrayWrites : Z;
  numTagArrayReads : Z;
  numTagArrayWrites : Z;
  numTagArrayStalls : Z;
  numDataArrayStalls : Z
}.

Definition with_numDataArrayReads (v : Z) (r : CacheStats) : CacheStats :=
  mkCacheStats v (numDataArrayWrites r) (numTagArrayReads r) (numTagArrayWrites r) (numTagArrayStalls r) (numDataArrayStalls r).
Definition with_numDataArrayWrites (v : Z) (r : CacheStats) : CacheStats :=
  mkCacheStats (numDataArrayReads r) v (numTagArrayReads r) (numTagArrayWrites r) (numTagArrayStalls r) (numDataArrayStalls r).
Definition with_numTagArrayReads (v : Z) (r : CacheStats) : CacheStats :=
  mkCacheStats (numDataArrayReads r) (numDataArrayWrites r) v (numTagArrayWrites r) (numTagArrayStalls r) (numDataArrayStalls r).
Definition with_numTagArrayWrites (v : Z) (r : CacheStats) : CacheStats :=
  mkCacheStats (numDataArrayReads r) (numDataArrayWrites r) (numTagArrayReads r) v (numTagArrayStalls r) (numDataArrayStalls r).
Definition with_numTagArrayStalls (v : Z) (r : CacheStats) : CacheStats :=
  mkCacheStats (numDataArrayReads r) (numDataArrayWrites r) (numTagArrayReads r) (numTagArrayWrites r) v (numDataArrayStalls r).
Definition with_numDataArrayStalls (v : Z) (r : CacheStats) : CacheStats :=
  mkCacheStats (numDataArrayReads r) (numDataArrayWrites r) (numTagArrayReads r) (numTagArrayWrites r) (numTagArrayStalls r) v.


Record CacheMemory (P : Type) := mkCacheMemory {
  m_is_instruction_only_cache : bool;
  m_tag_index : gmap Z Z;
  m_cache : list (list (option Z));
  m_replacementPolicy_ptr : P;
  dataArray : BankedArray;
  tagArray : BankedArray;
  m_cache_size : Z;
  m_cache_num_sets : Z;
  m_cache_num_set_bits : Z;
  m_cache_assoc : Z;
  m_start_index_bit : Z;
  m_resource_stalls : bool;
  m_block_size : Z;
  cm_stats : CacheStats
}.
Arguments mkCacheMemory {P}.
Arguments m_is_instruction_only_cache {P} _.
Arguments m_tag_index {P} _.
Arguments m_cache {P} _.
Arguments m_replacementPolicy_ptr {P} _.
Arguments dataArray {P} _.
Arguments tagArray {P} _.
Arguments m_cache_size {P} _.
Arguments m_cache_num_sets {P} _.
Arguments m_cache_num_set_bits {P} _.
Arguments m_cache_assoc {P} _.
Arguments m_start_index_bit {P} _.
Arguments m_resource_stalls {P} _.
Arguments m_block_size {P} _.
Arguments cm_stats {P} _.

Definition with_m_tag_index {P : Type} (v : gmap Z Z) (r : CacheMemory P) : CacheMemory P :=
  mkCacheMemory (m_is_instruction_only_cache r) v (m_cache r) (m_replacementPolicy_ptr r) (dataArray r) (tagArray r) (m_cache_size r) (m_cache_num_sets r) (m_cache_num_set_bits r) (m_cache_assoc r) (m_start_index_bit r) (m_resource_stalls r) (m_block_size r) (cm_stats r).
Definition with_m_cache {P : Type} (v : list (list (option Z))) (r : CacheMemory P) : CacheMemory P :=
  mkCacheMemory (m_is_instruction_only_cache r) (m_tag_index r) v (m_replacementPolicy_ptr r) (dataArray r) (tagArray r) (m_cache_size r) (m_cache_num_sets r) (m_cache_num_set_bits r) (m_cache_assoc r) (m_start_index_bit r) (m_resource_stalls r) (m_block_size r) (cm_stats r).
Definition with_m_replacementPolicy_ptr {P : Type} (v : P) (r : CacheMemory P) : CacheMemory P :=
  mkCacheMemory (m_is_instruction_only_cache r) (m_tag_index r) (m_cache r) v (dataArray r) (tagArray r) (m_cache_size r) (m_cache_num_sets r) (m_cache_num_set_bits r) (m_cache_assoc r) (m_start_index_bit r) (m_resource_stalls r) (m_block_size r) (cm_stats r).
Definition with_dataArray {P : Type} (v : BankedArray) (r : CacheMemory P) : CacheMemory P :=
  mkCacheMemory (m_is_instruction_only_cache r) (m_tag_index r) (m_cache r) (m_replacementPolicy_ptr r) v (tagArray r) (m_cache_size r) (m_cache_num_sets r) (m_cache_num_set_bits r) (m_cache_assoc r) (m_start_index_bit r) (m_resource_stalls r) (m_block_size r) (cm_stats r).
Definition with_tagArray {P : Type} (v : BankedArray) (r : CacheMemory P) : CacheMemory P :=
  mkCacheMemory (m_is_instruction_only_cache r) (m_tag_index r) (m_cache r) (m_replacementPolicy_ptr r) (dataArray r) v (m_cache_size r) (m_cache_num_sets r) (m_cache_num_set_bits r) (m_cache_assoc r) (m_start_index_bit r) (m_resource_stalls r) (m_block_size r) (cm_stats r).
Definition with_m_cache_num_sets {P : Type} (v : Z) (r : CacheMemory P) : CacheMemory P :=
  mkCacheMemory (m_is_instruction_only_cache r) (m_tag_index r) (m_cache r) (m_replacementPolicy_ptr r) (dataArray r) (tagArray r) (m_cache_size r) v (m_cache_num_set_bits r) (m_cache_assoc r) (m_start_index_bit r) (m_resource_stalls r) (m_block_size r) (cm_stats r).
Definition with_m_cache_num_set_bits {P : Type} (v : Z) (r : CacheMemory P) : CacheMemory P :=
  mkCacheMemory (m_is_instruction_only_cache r) (m_tag_index r) (m_cache r) (m_replacementPolicy_ptr r) (dataArray r) (tagArray r) (m_cache_size r) (m_cache_num_sets r) v (m_cache_assoc r) (m_start_index_bit r) (m_resource_stalls r) (m_block_size r) (cm_stats r).
Definition with_m_block_size {P : Type} (v : Z) (r : CacheMemory P) : CacheMemory P :=
  mkCacheMemory (m_is_instruction_only_cache r) (m_tag_index r) (m_cache r) (m_replacementPolicy_ptr r) (dataArray r) (tagArray r) (m_cache_size r) (m_cache_num_sets r) (m_cache_num_set_bits r) (m_cache_assoc r) (m_start_index_bit r) (m_resource_stalls r) v (cm_stats r).
Definition with_cm_stats {P : Type} (v : CacheStats) (r : CacheMemory P) : CacheMemory P :=
  mkCacheMemory (m_is_instruction_only_cache r) (m_tag_index r) (m_cache r) (m_replacementPolicy_ptr r) (dataArray r) (tagArray r) (m_cache_size r) (m_cache_num_sets r) (m_cache_num_set_bits r) (m_cache_assoc r) (m_start_index_bit r) (m_resource_stalls r) (m_block_size r) v.


Record RubyCacheParams := mkRubyCacheParams {
  cp_dataArrayBanks : Z; cp_dataAccessLatency : Z; cp_tagArrayBanks : Z; cp_tagAccessLatency : Z;
  cp_start_index_bit : Z; cp_size : Z; cp_assoc : Z; cp_is_icache : bool; cp_resourceStalls : bool; cp_block_size : Z
}.

Definition CacheMemory_new {P} (p : RubyCacheParams) (policy : P) : result (CacheMemory P) :=
  data ← BankedArray_new (u32 (cp_dataArrayBanks p)) (cp_dataAccessLatency p) (u32 (cp_start_index_bit p));
  tag ← BankedArray_new (u32 (cp_tagArrayBanks p)) (cp_tagAccessLatency p) (u32 (cp_start_index_bit p));
  Ok (mkCacheMemory (cp_is_icache p) ∅ [] policy data tag (i32 (cp_size p)) 0 0 (cp_assoc p) (cp_start_index_bit p)
        (cp_resourceStalls p) (i32 (cp_block_size p)) (mkCacheStats 0 0 0 0 0 0)).

Section Cache.
Context {P : Type} {RP : ReplacementPolicy P} (bits : Z).

Abbreviation Cache := (CacheMemory P).

Definition init (c : Cache) : result Cache :=
  let block := if m_block_size c =? 0 then 2 ^ bits else m_block_size c in
  if m_cache_assoc c =? 0 then Err EDiv
  else if block =? 0 then Err EDiv
  else
    let sets := (m_cache_size c `quot` m_cache_assoc c) `quot` block in
    assert_ (1 <? sets) ;;
    set_bits ← floorLog2 sets;
    assert_ (0 <? set_bits) ;;
    Ok (with_m_block_size block (with_m_cache_num_sets sets (with_m_cache_num_set_bits set_bits
          (with_m_cache (replicate (Z.to_nat sets) (replicate (Z.to_nat (m_cache_assoc c)) None)) c)))).

Definition is_line (address : Z) : bool := address =? makeLineAddress bits address.

Definition addressToCacheSet (address : Z) (c : Cache) : result Z :=
  assert_ (is_line address) ;;
  bitSelect address (u32 (m_start_index_bit c)) (u32 (m_start_index_bit c + m_cache_num_set_bits c - 1)).

(** The entry a slot holds. *)
Definition slot_entry (h : EntryStore) (set way : Z) (c : Cache) : result AbstractCacheEntry :=
  p ← mat_get (m_cache c) set way; deref_entry h p.

Definition findTagInSet (h : EntryStore) (cacheSet tag : Z) (c : Cache) : result Z :=
  assert_ (is_line tag) ;;
  match m_tag_index c !! tag with
  | Some i =>
      e ← slot_entry h cacheSet i c;
      Ok (if decide (m_Permission e = AccessPermission_NotPresent) then -1 else i)
  | None => Ok (-1)
  end.

Definition findTagInSetIgnorePermissions (cacheSet tag : Z) (c : Cache) : result Z :=
  assert_ (is_line tag) ;;
  Ok (default (-1) (m_tag_index c !! tag)).

Definition getAddressAtIdx (h : EntryStore) (idx : Z) (c : Cache) : result Z :=
  if m_cache_assoc c =? 0 then Err EDiv
  else
    let set := idx `quot` m_cache_assoc c in
    assert_ (set <? m_cache_num_sets c) ;;
    let way := idx - set * m_cache_assoc c in
    assert_ (way <? m_cache_assoc c) ;;
    p ← mat_get (m_cache c) set way;
    match p with
    | None => Ok 0
    | Some _ =>
        e ← deref_entry h p;
        Ok (if decide (m_Permission e = AccessPermission_Invalid \/ m_Permission e = AccessPermission_NotPresent) then 0
            else m_Address e)
    end.

Definition touch_way (curTick set way : Z) (c : Cache) : result Cache :=
  p ← rp_touch set way curTick (m_replacementPolicy_ptr c); Ok (with_m_replacementPolicy_ptr p c).

(** The hit, and the entry whose data block [data_ptr] then points to. *)
Definition tryCacheAccess (curTick address : Z) (type : RubyRequestType) (h : EntryStore) (c : Cache)
  : result (bool * option Z * Cache) :=
  assert_ (is_line address) ;;
  cacheSet ← addressToCacheSet address c;
  loc ← findTagInSet h cacheSet address c;
  if loc =? -1 then Ok (false, None, c)
  else
    p ← mat_get (m_cache c) cacheSet loc;
    c' ← touch_way curTick cacheSet loc c;
    e ← deref_entry h p;
    if decide (m_Permission e = AccessPermission_Read_Write) then Ok (true, p, c')
    else if decide (m_Permission e = AccessPermission_Read_Only /\ (type = RubyRequestType_LD \/ type = RubyRequestType_IFETCH))
    then Ok (true, p, c')
    else Ok (false, None, c').

Definition testCacheAccess (curTick address : Z) (h : EntryStore) (c : Cache) : result (bool * option Z * Cache) :=
  assert_ (is_line address) ;;
  cacheSet ← addressToCacheSet address c;
  loc ← findTagInSet h cacheSet address c;
  if loc =? -1 then Ok (false, None, c)
  else
    p ← mat_get (m_cache c) cacheSet loc;
    c' ← touch_way curTick cacheSet loc c;
    e ← deref_entry h p;
    Ok (negb (bool_decide (m_Permission e = AccessPermission_NotPresent)), p, c').

Definition isTagPresent (address : Z) (h : EntryStore) (c : Cache) : result bool :=
  assert_ (is_line address) ;;
  cacheSet ← addressToCacheSet address c;
  loc ← findTagInSet h cacheSet address c;
  Ok (negb (loc =? -1)).

Definition cacheAvail (address : Z) (h : EntryStore) (c : Cache) : result bool :=
  assert_ (is_line address) ;;
  cacheSet ← addressToCacheSet address c;
  r ← for_ctl (Z.to_nat (m_cache_assoc c)) 0 (fun i _ =>
        p ← mat_get (m_cache c) cacheSet i;
        match p with
        | Some _ =>
            e ← deref_entry h p;
            Ok (if decide (m_Address e = address \/ m_Permission e = AccessPermission_NotPresent) then Brk true else Cont tt)
        | None => Ok (Brk true)
        end) tt;
  Ok (match r with Brk b => b | Cont _ => false end).

(** The way of the first open slot of a set. *)
Definition open_slot (cacheSet : Z) (h : EntryStore) (c : Cache) : result (ctl unit Z) :=
  for_ctl (Z.to_nat (m_cache_assoc c)) 0 (fun i _ =>
    p ← mat_get (m_cache c) cacheSet i;
    match p with
    | None => Ok (Brk i)
    | Some _ => e ← deref_entry h p; Ok (if decide (m_Permission e = AccessPermission_NotPresent) then Brk i else Cont tt)
    end) tt.

Definition allocate (curTick address entry : Z) (touch : bool) (h : EntryStore) (c : Cache) : result (EntryStore * Cache) :=
  assert_ (is_line address) ;;
  present ← isTagPresent address h c;
  assert_ (negb present) ;;
  avail ← cacheAvail address h c;
  assert_ avail ;;
  cacheSet ← addressToCacheSet address c;
  r ← open_slot cacheSet h c;
  match r with
  | Cont _ => Err EPanic
  | Brk i =>
      cells ← mat_set (m_cache c) cacheSet i (Some entry);
      h ← write_entry h entry (fun e => with_m_way_index (u32 i) (with_m_set_index (u32 cacheSet)
            (with_m_locked (-1) (with_m_Permission AccessPermission_Invalid (with_m_Address address e)))));
      let c := with_m_tag_index (<[address := i]> (m_tag_index c)) (with_m_cache cells c) in
      c ← (if touch then touch_way curTick cacheSet i c else Ok c);
      Ok (h, c)
  end.

Definition deallocate (address : Z) (h : EntryStore) (c : Cache) : result (EntryStore * Cache) :=
  assert_ (is_line address) ;;
  present ← isTagPresent address h c;
  assert_ present ;;
  cacheSet ← addressToCacheSet address c;
  loc ← findTagInSet h cacheSet address c;
  if loc =? -1 then Ok (h, c)
  else
    p ← mat_get (m_cache c) cacheSet loc;
    cells ← mat_set (m_cache c) cacheSet loc None;
    Ok (match p with Some a => delete a h | None => h end,
        with_m_tag_index (delete address (m_tag_index c)) (with_m_cache cells c)).

Definition cacheProbe (address : Z) (h : EntryStore) (c : Cache) : result Z :=
  assert_ (is_line address) ;;
  avail ← cacheAvail address h c;
  assert_ (negb avail) ;;
  cacheSet ← addressToCacheSet address c;
  victim ← rp_getVictim cacheSet (m_replacementPolicy_ptr c);
  e ← slot_entry h cacheSet victim c;
  Ok (m_Address e).

Definition lookup (address : Z) (h : EntryStore) (c : Cache) : result (option Z) :=
  assert_ (is_line address) ;;
  cacheSet ← addressToCacheSet address c;
  loc ← findTagInSet h cacheSet address c;
  if loc =? -1 then Ok None else mat_get (m_cache c) cacheSet loc.

(** The three forms of [setMRU]: by address, by entry, by address with an occupancy. *)
Definition setMRU (curTick address : Z) (h : EntryStore) (c : Cache) : result Cache :=
  cacheSet ← addressToCacheSet address c;
  loc ← findTagInSet h cacheSet address c;
  if loc =? -1 then Ok c else touch_way curTick cacheSet loc c.

Definition setMRU_entry (curTick entry : Z) (h : EntryStore) (c : Cache) : result Cache :=
  e ← deref_entry h (Some entry);
  touch_way curTick (m_set_index e) (m_way_index e) c.

Definition setMRU_occupancy (curTick address occupancy : Z) (h : EntryStore) (c : Cache) : result Cache :=
  cacheSet ← addressToCacheSet address c;
  loc ← findTagInSet h cacheSet address c;
  if loc =? -1 then Ok c
  else match rp_touch_occupancy with
       | Some f => p ← f cacheSet loc curTick occupancy (m_replacementPolicy_ptr c); Ok (with_m_replacementPolicy_ptr p c)
       | None => touch_way curTick cacheSet loc c
       end.

Definition getReplacementWeight (set loc : Z) (h : EntryStore) (c : Cache) : result Z :=
  assert_ (set <? m_cache_num_sets c) ;;
  assert_ (loc <? m_cache_assoc c) ;;
  p ← mat_get (m_cache c) set loc;
  match p with
  | Some _ => e ← deref_entry h p; assert_ (0 <=? validBlocks e) ;; Ok (validBlocks e)
  | None => Ok 0
  end.

(** The calls of [CacheRecorder::addRecord]: controller, address, program counter, request, time and the entry whose
    data block is recorded. *)
Abbreviation CacheRecord := (Z * Z * Z * RubyRequestType * Z * option Z)%type.

Definition request_of (icache : bool) (perm : AccessPermission) : RubyRequestType :=
  if decide (perm = AccessPermission_Read_Only) then if icache then RubyRequestType_IFETCH else RubyRequestType_LD
  else if decide (perm = AccessPermission_Read_Write) then RubyRequestType_ST else RubyRequestType_NULL.

Definition record_way (cntrl i j : Z) (h : EntryStore) (c : Cache) (tr : list CacheRecord) : result (list CacheRecord) :=
  p ← mat_get (m_cache c) i j;
  match p with
  | None => Ok tr
  | Some _ =>
      e ← deref_entry h p;
      let request_type := request_of (m_is_instruction_only_cache c) (m_Permission e) in
      if decide (request_type = RubyRequestType_NULL) then Ok tr
      else t ← getLastAccess i j (rp_base (m_replacementPolicy_ptr c));
           Ok (tr ++ [(cntrl, m_Address e, 0, request_type, t, p)])
  end.

Definition recordCacheContents (cntrl : Z) (h : EntryStore) (c : Cache) (tr : list CacheRecord) : result (list CacheRecord) :=
  for_range (Z.to_nat (m_cache_num_sets c)) 0 (fun i =>
    for_range (Z.to_nat (m_cache_assoc c)) 0 (fun j => record_way cntrl i j h c)) tr.

(** The entry of an address that must be in the cache, for the three locking functions. *)
Definition located (address : Z) (h : EntryStore) (c : Cache) : result Z :=
  assert_ (is_line address) ;;
  cacheSet ← addressToCacheSet address c;
  loc ← findTagInSet h cacheSet address c;
  assert_ (negb (loc =? -1)) ;;
  p ← mat_get (m_cache c) cacheSet loc;
  match p with Some a => Ok a | None => Err EIndex end.

Definition setLocked (address context : Z) (h : EntryStore) (c : Cache) : result EntryStore :=
  p ← located address h c; write_entry h p (entry_setLocked context).
Definition clearLocked (address : Z) (h : EntryStore) (c : Cache) : result EntryStore :=
  p ← located address h c; write_entry h p entry_clearLocked.
Definition isLocked (address context : Z) (h : EntryStore) (c : Cache) : result bool :=
  p ← located address h c; e ← deref_entry h (Some p); Ok (entry_isLocked context e).

(** ** Resources *)

Definition reserve_array (clockPeriod curTick addr : Z) (a : BankedArray) (c : Cache) : result BankedArray :=
  if m_resource_stalls c then set ← addressToCacheSet addr c; reserve clockPeriod curTick set a else Ok a.

Definition recordRequestType (clockPeriod curTick : Z) (requestType : CacheRequestType) (addr : Z) (c : Cache) : result Cache :=
  let s := cm_stats c in
  match requestType with
  | CacheRequestType_DataArrayRead =>
      a ← reserve_array clockPeriod curTick addr (dataArray c) c;
      Ok (with_cm_stats (with_numDataArrayReads (numDataArrayReads s + 1) s) (with_dataArray a c))
  | CacheRequestType_DataArrayWrite =>
      a ← reserve_array clockPeriod curTick addr (dataArray c) c;
      Ok (with_cm_stats (with_numDataArrayWrites (numDataArrayWrites s + 1) s) (with_dataArray a c))
  | CacheRequestType_TagArrayRead =>
      a ← reserve_array clockPeriod curTick addr (tagArray c) c;
      Ok (with_cm_stats (with_numTagArrayReads (numTagArrayReads s + 1) s) (with_tagArray a c))
  | CacheRequestType_TagArrayWrite =>
      a ← reserve_array clockPeriod curTick addr (tagArray c) c;
      Ok (with_cm_stats (with_numTagArrayWrites (numTagArrayWrites s + 1) s) (with_tagArray a c))
  end.

Definition checkResourceAvailable (curTick : Z) (res : CacheResourceType) (addr : Z) (c : Cache) : result (bool * Cache) :=
  if negb (m_resource_stalls c) then Ok (true, c)
  else
    set ← addressToCacheSet addr c;
    match res with
    | CacheResourceType_TagArray =>
        ok ← tryAccess curTick set (tagArray c);
        Ok (ok, if ok : bool then c else let s := cm_stats c in with_cm_stats (with_numTagArrayStalls (numTagArrayStalls s + 1) s) c)
    | CacheResourceType_DataArray =>
        ok ← tryAccess curTick set (dataArray c);
        Ok (ok, if ok : bool then c else let s := cm_stats c in with_cm_stats (with_numDataArrayStalls (numDataArrayStalls s + 1) s) c)
    end.

Definition isBlockInvalid (cache_set loc : Z) (h : EntryStore) (c : Cache) : result bool :=
  e ← slot_entry h cache_set loc c; Ok (bool_decide (m_Permission e = AccessPermission_Invalid)).
Definition isBlockNotBusy (cache_set loc : Z) (h : EntryStore) (c : Cache) : result bool :=
  e ← slot_entry h cache_set loc c; Ok (negb (bool_decide (m_Permission e = AccessPermission_Busy))).
End Cache.
