(* ===== verification/CacheTheory.v ===== *)
(** * The theory of the cache memory

    [Line] and [spec_step] are the abstract cache: a finite map from line addresses to entries, with at most [assoc]
    lines in a set.  [abs] reads that map off the tag index, the slots and the store of entries.  [cache_ok] says that
    tag index and slots agree; every operation keeps it, returns what the abstract cache returns, and fails an
    assertion exactly where the abstract cache refuses. *)

From S2P Require Import Prelude MessageBuffer Replacement CacheMemory.
Local Open Scope Z_scope.

(** ** base/intmath.hh: the halving steps compute the binary logarithm *)

Lemma log_step_spec (k : Z) x y : 0 < k -> 0 < x < 2 ^ (2 * k) ->
  let '(x', y') := log_step (Z.shiftl (Z.ones k) k) k (x, y) in
  0 < x' < 2 ^ k /\ y' + Z.log2 x' = y + Z.log2 x.
Proof.
  intros Hk Hx. unfold log_step.
  assert (E : Z.land x (Z.shiftl (Z.ones k) k) = Z.shiftl (Z.shiftr x k) k).
  { apply Z.bits_inj'. intros j Hj. rewrite Z.land_spec, !Z.shiftl_spec by lia. destruct (decide (j < k)).
    - rewrite !(Z.testbit_neg_r _ (j - k)) by lia. apply andb_false_r.
    - rewrite Z.shiftr_spec by lia. replace (j - k + k) with j by lia. destruct (decide (j < 2 * k)).
      + rewrite Z.ones_spec_low by lia. apply andb_true_r.
      + rewrite (Z.bits_above_log2 x j); [done | lia|]. apply Z.log2_lt_pow2; [lia|].
        eapply Z.lt_le_trans; [apply Hx|]. apply Z.pow_le_mono_r; lia. }
  rewrite E. assert (Hsh : (Z.shiftl (Z.shiftr x k) k =? 0) = (x <? 2 ^ k)).
  { rewrite Z.shiftl_mul_pow2, Z.shiftr_div_pow2 by lia. pose proof (Z.pow_pos_nonneg 2 k ltac:(lia) ltac:(lia)).
    destruct (Z.ltb_spec x (2 ^ k)); [rewrite Z.div_small by lia; done|]. apply Z.eqb_neq.
    pose proof (Z.div_le_lower_bound x (2 ^ k) 1 ltac:(lia) ltac:(lia)). nia. }
  rewrite Hsh. destruct (Z.ltb_spec x (2 ^ k)); [lia|].
  rewrite Z.shiftr_div_pow2 by lia. pose proof (Z.pow_pos_nonneg 2 k ltac:(lia) ltac:(lia)) as Hp. split.
  - replace (2 * k) with (k + k) in Hx by lia. rewrite Z.pow_add_r in Hx by lia.
    pose proof (Z.div_le_lower_bound x (2 ^ k) 1 ltac:(lia) ltac:(lia)).
    pose proof (Z.div_lt_upper_bound x (2 ^ k) (2 ^ k) ltac:(lia) ltac:(lia)). lia.
  - rewrite <- Z.shiftr_div_pow2, Z.log2_shiftr by lia.
    assert (k <= Z.log2 x) by (apply Z.log2_le_pow2; lia). lia.
Qed.

Lemma floorLog2_log2 x : 0 < x < 2 ^ 32 -> floorLog2 x = Ok (Z.log2 x).
Proof.
  intros Hx. unfold floorLog2. rewrite (proj2 (Z.ltb_lt 0 x)) by lia. cbn [assert_ mbind result_bind]. cbv zeta.
  pose proof (log_step_spec 16 x 0 ltac:(lia) ltac:(lia)) as H16.
  change (Z.shiftl (Z.ones 16) 16) with 0xffff0000 in H16. destruct (log_step 0xffff0000 16 (x, 0)) as [x1 y1].
  pose proof (log_step_spec 8 x1 y1 ltac:(lia) ltac:(lia)) as H8.
  change (Z.shiftl (Z.ones 8) 8) with 0x0000ff00 in H8. destruct (log_step 0x0000ff00 8 (x1, y1)) as [x2 y2].
  pose proof (log_step_spec 4 x2 y2 ltac:(lia) ltac:(lia)) as H4.
  change (Z.shiftl (Z.ones 4) 4) with 0x000000f0 in H4. destruct (log_step 0x000000f0 4 (x2, y2)) as [x3 y3].
  pose proof (log_step_spec 2 x3 y3 ltac:(lia) ltac:(lia)) as H2.
  change (Z.shiftl (Z.ones 2) 2) with 0x0000000c in H2. destruct (log_step 0x0000000c 2 (x3, y3)) as [x4 y4].
  cbn [fst snd]. f_equal. change (2 ^ 2) with 4 in H2. assert (x4 = 1 \/ x4 = 2 \/ x4 = 3) as [-> | [-> | ->]] by lia.
  - change (Z.log2 1) with 0 in H2. change (Z.land 1 2 =? 0) with true. cbv iota. lia.
  - change (Z.log2 2) with 1 in H2. change (Z.land 2 2 =? 0) with false. cbv iota. lia.
  - change (Z.log2 3) with 1 in H2. change (Z.land 3 2 =? 0) with false. cbv iota. lia.
Qed.

(** ** The set of an address *)

Definition set_of (start nbits a : Z) : Z := (a `div` 2 ^ start) mod 2 ^ nbits.

Lemma bitSelect_set start nbits a : 0 <= start -> 0 < nbits -> start + nbits <= 64 -> 0 <= a < 2 ^ 64 ->
  bitSelect a (u32 start) (u32 (start + nbits - 1)) = Ok (set_of start nbits a).
Proof.
  intros Hs Hn Hle Ha. rewrite !u32_small by lia. unfold bitSelect, set_of.
  rewrite (proj2 (Z.leb_le start _)) by lia. cbn [assert_ mbind result_bind].
  destruct (Z.leb_spec 63 (start + nbits - 1)); f_equal.
  - rewrite Z.shiftr_div_pow2 by lia. symmetry. apply Z.mod_small. split; [apply Z.div_pos; lia|].
    apply Z.div_lt_upper_bound; [lia|]. rewrite <- Z.pow_add_r by lia. replace (start + nbits) with 64 by lia. lia.
  - rewrite Z.land_ones, Z.shiftr_div_pow2 by lia. replace (start + nbits - 1 + 1) with (start + nbits) by lia.
    rewrite Z.pow_add_r by lia. rewrite Z.rem_mul_r by lia.
    rewrite (Z.mul_comm (2 ^ start) (_ mod _)), Z.div_add by lia.
    rewrite (Z.div_small (a mod 2 ^ start)) by (apply Z.mod_pos_bound; lia). done.
Qed.

Lemma set_of_range start nbits a : 0 <= nbits -> 0 <= set_of start nbits a < 2 ^ nbits.
Proof. intros Hn. apply Z.mod_pos_bound. lia. Qed.

(** ** The abstract cache *)

Record Line := mkLine { ln_entry : Z; ln_perm : AccessPermission; ln_locked : Z }.

Inductive cache_op :=
  | OAllocate (a p : Z) (e : AbstractCacheEntry) (touch : bool)
  | ODeallocate (a : Z)
  | OLookup (a : Z)
  | OIsTagPresent (a : Z)
  | OCacheAvail (a : Z)
  | OTryAccess (a : Z) (type : RubyRequestType)
  | OTestAccess (a : Z)
  | OSetMRU (a : Z)
  | OSetLocked (a context : Z)
  | OClearLocked (a : Z)
  | OIsLocked (a context : Z)
  | OChangePermission (a : Z) (perm : AccessPermission).

Inductive cache_out := OutUnit | OutBool (b : bool) | OutEntry (p : option Z) | OutHit (b : bool) (p : option Z).

Definition op_addr (op : cache_op) : Z :=
  match op with
  | OAllocate a _ _ _ | ODeallocate a | OLookup a | OIsTagPresent a | OCacheAvail a | OTryAccess a _ | OTestAccess a
  | OSetMRU a | OSetLocked a _ | OClearLocked a | OIsLocked a _ | OChangePermission a _ => a
  end.

Section Spec.
Context (bits start nbits assoc : Z).

Abbreviation Lines := (gmap Z Line).

(** The lines of an address's set, and whether one more fits. *)
Definition same_set (a : Z) (m : Lines) : Lines := filter (fun bl => set_of start nbits bl.1 = set_of start nbits a) m.
Definition set_has_room (a : Z) (m : Lines) : bool := Z.of_nat (base.size (same_set a m)) <? assoc.

Definition hits (type : RubyRequestType) (l : Line) : bool :=
  bool_decide (ln_perm l = AccessPermission_Read_Write \/
    ln_perm l = AccessPermission_Read_Only /\ (type = RubyRequestType_LD \/ type = RubyRequestType_IFETCH)).

Definition relock (context : Z) (l : Line) : Line := mkLine (ln_entry l) (ln_perm l) context.
Definition repermit (perm : AccessPermission) (l : Line) : Line :=
  mkLine (ln_entry l) perm
    (if decide (perm = AccessPermission_Invalid \/ perm = AccessPermission_NotPresent) then -1 else ln_locked l).

(** [None]: the operation is refused. *)
Definition spec_line (op : cache_op) (m : Lines) : option (cache_out * Lines) :=
  match op with
  | OAllocate a p _ _ =>
      match m !! a with
      | Some _ => None
      | None => if set_has_room a m then Some (OutUnit, <[a := mkLine p AccessPermission_Invalid (-1)]> m) else None
      end
  | ODeallocate a => match m !! a with Some _ => Some (OutUnit, delete a m) | None => None end
  | OLookup a => Some (OutEntry (ln_entry <$> m !! a), m)
  | OIsTagPresent a => Some (OutBool (bool_decide (is_Some (m !! a))), m)
  | OCacheAvail a => Some (OutBool (bool_decide (is_Some (m !! a)) || set_has_room a m), m)
  | OTryAccess a type =>
      Some (match m !! a with Some l => if hits type l then OutHit true (Some (ln_entry l)) else OutHit false None | None => OutHit false None end, m)
  | OTestAccess a => Some (match m !! a with Some l => OutHit true (Some (ln_entry l)) | None => OutHit false None end, m)
  | OSetMRU a => Some (OutUnit, m)
  | OSetLocked a context => match m !! a with Some l => Some (OutUnit, <[a := relock context l]> m) | None => None end
  | OClearLocked a => match m !! a with Some l => Some (OutUnit, <[a := relock (-1) l]> m) | None => None end
  | OIsLocked a context => match m !! a with Some l => Some (OutBool (ln_locked l =? context), m) | None => None end
  | OChangePermission a perm => match m !! a with Some l => Some (OutUnit, <[a := repermit perm l]> m) | None => None end
  end.

Definition spec_step (op : cache_op) (m : Lines) : option (cache_out * Lines) :=
  if is_line bits (op_addr op) then spec_line op m else None.
End Spec.

(** ** The code's operations *)

Section Code.
Context {P : Type} {RP : ReplacementPolicy P} (bits : Z).

Definition unit_out (r : result (EntryStore * CacheMemory P)) : result (cache_out * EntryStore * CacheMemory P) :=
  '(h, c) ← r; Ok (OutUnit, h, c).

(** The protocol allocates a new entry object [e], at [p]; it changes the permission of an entry it has looked up. *)
Definition run_op (curTick : Z) (op : cache_op) (h : EntryStore) (c : CacheMemory P) : result (cache_out * EntryStore * CacheMemory P) :=
  match op with
  | OAllocate a p e touch => unit_out (allocate bits curTick a p touch (<[p := e]> h) c)
  | ODeallocate a => unit_out (deallocate bits a h c)
  | OLookup a => p ← lookup bits a h c; Ok (OutEntry p, h, c)
  | OIsTagPresent a => b ← isTagPresent bits a h c; Ok (OutBool b, h, c)
  | OCacheAvail a => b ← cacheAvail bits a h c; Ok (OutBool b, h, c)
  | OTryAccess a type => '(b, p, c) ← tryCacheAccess bits curTick a type h c; Ok (OutHit b p, h, c)
  | OTestAccess a => '(b, p, c) ← testCacheAccess bits curTick a h c; Ok (OutHit b p, h, c)
  | OSetMRU a => c ← setMRU bits curTick a h c; Ok (OutUnit, h, c)
  | OSetLocked a context => h ← setLocked bits a context h c; Ok (OutUnit, h, c)
  | OClearLocked a => h ← clearLocked bits a h c; Ok (OutUnit, h, c)
  | OIsLocked a context => b ← isLocked bits a context h c; Ok (OutBool b, h, c)
  | OChangePermission a perm =>
      p ← lookup bits a h c;
      p ← (match p with Some p => Ok p | None => Err EIndex end);
      h ← write_entry h p (changePermission perm); Ok (OutUnit, h, c)
  end.
End Code.

(** ** Partial maps over lists *)

Section Omap.
Context {A B : Type} (f : A -> option B).

Lemma NoDup_omap_inj (l : list A) :
  (forall i j x y b, l !! i = Some x -> l !! j = Some y -> f x = Some b -> f y = Some b -> i = j) -> NoDup (omap f l).
Proof.
  induction l as [|x l IH]; intros Hinj; [constructor|]. cbn [omap list_omap].
  assert (Htl : NoDup (omap f l)).
  { apply IH. intros i j x' y' b Hi Hj Hx Hy. specialize (Hinj (S i) (S j) x' y' b Hi Hj Hx Hy). lia. }
  destruct (f x) as [b|] eqn:Ex; [|exact Htl]. constructor; [|exact Htl].
  intros (y & Hy & Hb)%list_elem_of_omap. apply list_elem_of_lookup in Hy as [j Hj]. by specialize (Hinj O (S j) x y b eq_refl Hj Ex Hb).
Qed.

Lemma length_omap_bound (l : list A) : (length (omap f l) <= length l)%nat.
Proof. induction l as [|y k IHk]; cbn [omap list_omap length]; [lia|]. destruct (f y); cbn [length]; lia. Qed.
Lemma length_omap_full (l : list A) : (forall x, x ∈ l -> is_Some (f x)) <-> length (omap f l) = length l.
Proof.
  induction l as [|x l IH]; [split; [done|]; intros _ x Hx; by apply elem_of_nil in Hx|].
  pose proof (length_omap_bound l). cbn [omap list_omap length]. split.
  - intros Hall. destruct (Hall x) as [b Hb]; [by left|]. rewrite Hb. cbn [length]. f_equal. apply IH. intros y Hy. apply Hall. by right.
  - intros Hlen y Hy. destruct (f x) eqn:Ex; cbn [length] in Hlen; [|lia].
    apply elem_of_cons in Hy as [->|Hy]; [by eexists|]. revert y Hy. apply IH. lia.
Qed.

End Omap.

(** ** Tag index and slots agree *)

Section Invariant.
Context {P : Type} {RP : ReplacementPolicy P} {PL : PolicyLaws P} (bits : Z).

Abbreviation cset c a := (set_of (m_start_index_bit c) (m_cache_num_set_bits c) a).
Abbreviation slot c s i := (mat_get (m_cache c) s i).

(** The fixed part: what [init] establishes, with a policy of the same dimensions. *)
Record cache_shape (c : CacheMemory P) : Prop := {
  cs_policy : rp_ok (m_replacementPolicy_ptr c);
  cs_sets : m_num_sets (rp_base (m_replacementPolicy_ptr c)) = m_cache_num_sets c;
  cs_assoc : m_assoc (rp_base (m_replacementPolicy_ptr c)) = m_cache_assoc c;
  cs_cells : mat_ok (m_cache_num_sets c) (m_cache_assoc c) (m_cache c);
  cs_start : 0 <= m_start_index_bit c;
  cs_bits : 0 < m_cache_num_set_bits c /\ m_start_index_bit c + m_cache_num_set_bits c <= 64;
  cs_pow : 2 ^ m_cache_num_set_bits c <= m_cache_num_sets c < 2 ^ 31;
  cs_width : m_cache_assoc c < 2 ^ 31
}.

Definition addr_ok (a : Z) : Prop := 0 <= a < 2 ^ 64 /\ is_line bits a = true.

(** The entry in the slot of a line's set, at way [i]. *)
Definition entry_in (h : EntryStore) (c : CacheMemory P) (s i p : Z) (e : AbstractCacheEntry) : Prop :=
  slot c s i = Ok (Some p) /\ h !! p = Some e.

Record cache_ok (h : EntryStore) (c : CacheMemory P) : Prop := {
  co_shape : cache_shape c;
  co_tags : forall a i, m_tag_index c !! a = Some i -> addr_ok a /\ exists p e, entry_in h c (cset c a) i p e /\ m_Address e = a;
  co_slots : forall s i p, slot c s i = Ok (Some p) -> exists e, h !! p = Some e /\ m_tag_index c !! m_Address e = Some i /\
    cset c (m_Address e) = s /\ m_Permission e <> AccessPermission_NotPresent /\ m_set_index e = s /\ m_way_index e = i
}.

Definition line_of (h : EntryStore) (c : CacheMemory P) (a i : Z) : option Line :=
  match slot c (cset c a) i with
  | Ok (Some p) => e ← h !! p; Some (mkLine p (m_Permission e) (m_locked e))
  | _ => None
  end.

(** The lines the cache holds. *)
Definition abs (h : EntryStore) (c : CacheMemory P) : gmap Z Line := map_imap (line_of h c) (m_tag_index c).

Lemma shape_range c a : cache_shape c -> 0 <= cset c a < m_cache_num_sets c.
Proof.
  intros Hsh. pose proof (set_of_range (m_start_index_bit c) (m_cache_num_set_bits c) a). destruct Hsh as [_ _ _ _ _ ? ? _]. lia.
Qed.

Lemma shape_set c a : cache_shape c -> addr_ok a -> addressToCacheSet bits a c = Ok (cset c a).
Proof.
  intros Hsh [Ha Hl]. unfold addressToCacheSet. rewrite Hl. cbn [assert_ mbind result_bind]. destruct Hsh as [_ _ _ _ ? ? _ _].
  apply bitSelect_set; lia.
Qed.

Section Lookup.
Context (h : EntryStore) (c : CacheMemory P) (Hok : cache_ok h c).

Let Hsh : cache_shape c := co_shape h c Hok.

Lemma cset_range a : 0 <= cset c a < m_cache_num_sets c.
Proof. by apply shape_range. Qed.

Lemma addressToCacheSet_ok a : addr_ok a -> addressToCacheSet bits a c = Ok (cset c a).
Proof. by apply shape_set. Qed.

Lemma tag_present a i : m_tag_index c !! a = Some i ->
  exists p e, entry_in h c (cset c a) i p e /\ m_Address e = a /\ m_Permission e <> AccessPermission_NotPresent /\
    m_set_index e = cset c a /\ m_way_index e = i /\ 0 <= i < m_cache_assoc c /\
    findTagInSet bits h (cset c a) a c = Ok i /\ abs h c !! a = Some (mkLine p (m_Permission e) (m_locked e)).
Proof.
  intros Ha. destruct (co_tags h c Hok a i Ha) as ([Hr Hl] & p & e & [Hslot He] & Haddr).
  destruct (co_slots h c Hok _ _ _ Hslot) as (e' & He' & _ & _ & Hperm & Hsi & Hwi). assert (e' = e) as -> by congruence.
  exists p, e. destruct (mat_get_range _ _ _ _ _ _ (cs_cells c Hsh) Hslot) as [_ Hi]. split_and!; try done; try lia.
  - unfold findTagInSet. rewrite Hl, Ha. cbn [assert_ mbind result_bind]. unfold slot_entry. rewrite Hslot. cbn [mbind result_bind deref_entry].
    rewrite He. cbn [mbind result_bind]. by rewrite decide_False.
  - unfold abs. rewrite map_lookup_imap, Ha. cbn. unfold line_of. rewrite Hslot. by rewrite He.
Qed.

Lemma tag_absent a : is_line bits a = true -> m_tag_index c !! a = None ->
  findTagInSet bits h (cset c a) a c = Ok (-1) /\ abs h c !! a = None.
Proof.
  intros Hl Ha. split; [unfold findTagInSet; by rewrite Hl, Ha|]. unfold abs. by rewrite map_lookup_imap, Ha.
Qed.

Lemma abs_tag a : is_Some (abs h c !! a) <-> is_Some (m_tag_index c !! a).
Proof.
  split.
  - unfold abs. rewrite map_lookup_imap. destruct (m_tag_index c !! a); [by eexists|]. by intros [? ?].
  - intros [i Hi]. destruct (tag_present a i Hi) as (p & e & _ & _ & _ & _ & _ & _ & _ & ->). by eexists.
Qed.

(** A line's slot determines the line. *)
Lemma slot_inj s i s' i' p : slot c s i = Ok (Some p) -> slot c s' i' = Ok (Some p) -> s = s' /\ i = i'.
Proof.
  intros H1 H2. destruct (co_slots h c Hok _ _ _ H1) as (e & He & _ & _ & _ & <- & <-).
  destruct (co_slots h c Hok _ _ _ H2) as (e' & He' & _ & _ & _ & <- & <-). by simplify_eq.
Qed.

(** *** The slots of a set *)

Definition slot_addr (o : option Z) : option Z := p ← o; e ← h !! p; Some (m_Address e).

Lemma row_lookup s row i o : vec_get (m_cache c) s = Ok row -> row !! i = Some o -> slot c s (Z.of_nat i) = Ok o.
Proof. intros Hr Ho. unfold mat_get. rewrite Hr. cbn. apply vec_get_Ok. split; [lia|]. by rewrite Nat2Z.id. Qed.

Lemma row_lines a row b : vec_get (m_cache c) (cset c a) = Ok row ->
  b ∈ omap slot_addr row <-> is_Some (abs h c !! b) /\ cset c b = cset c a.
Proof.
  intros Hr. rewrite list_elem_of_omap. split.
  - intros (o & (i & Hi)%list_elem_of_lookup & Hb). pose proof (row_lookup _ _ _ _ Hr Hi) as Hs.
    destruct o as [p|]; [|done]. destruct (co_slots h c Hok _ _ _ Hs) as (e & He & Htag & Hset & _).
    unfold slot_addr in Hb. cbn in Hb. rewrite He in Hb. cbn in Hb. simplify_eq. split; [|done]. rewrite abs_tag. by eexists.
  - intros [[i Hi]%abs_tag Hset]. destruct (tag_present b i Hi) as (p & e & [Hs He] & <- & _ & _ & _ & _).
    exists (Some p). split.
    + unfold mat_get in Hs. rewrite Hset, Hr in Hs. cbn in Hs. apply vec_get_Ok in Hs as [_ Hs]. by eapply list_elem_of_lookup_2.
    + unfold slot_addr. cbn. by rewrite He.
Qed.

Lemma row_NoDup a row : vec_get (m_cache c) (cset c a) = Ok row -> NoDup (omap slot_addr row).
Proof.
  intros Hr. apply NoDup_omap_inj. intros i j [p|] [q|] b Hi Hj Hp Hq; try done.
  destruct (co_slots h c Hok _ _ _ (row_lookup _ _ _ _ Hr Hi)) as (e & He & Hte & _).
  destruct (co_slots h c Hok _ _ _ (row_lookup _ _ _ _ Hr Hj)) as (e' & He' & Hte' & _).
  unfold slot_addr in Hp, Hq. cbn in Hp, Hq. rewrite He in Hp. rewrite He' in Hq. cbn in Hp, Hq.
  injection Hp as Hp. injection Hq as Hq. rewrite Hp in Hte. rewrite Hq, Hte in Hte'. injection Hte'. lia.
Qed.

Lemma same_set_size a row : vec_get (m_cache c) (cset c a) = Ok row ->
  base.size (same_set (m_start_index_bit c) (m_cache_num_set_bits c) a (abs h c)) = length (omap slot_addr row).
Proof.
  intros Hr. rewrite <- size_dom, <- (size_list_to_set (C := gset Z) (omap slot_addr row)) by by eapply row_NoDup.
  f_equal. apply set_eq. intros b. rewrite elem_of_dom, elem_of_list_to_set, (row_lines a row b Hr). unfold same_set.
  split.
  - intros [l [Hl Hs]%map_lookup_filter_Some]. split; [by eexists | done].
  - intros [[l Hl] Hs]. exists l. by apply map_lookup_filter_Some.
Qed.

(** There is room in the set exactly when a slot is empty. *)
Lemma room_slot a : set_has_room (m_start_index_bit c) (m_cache_num_set_bits c) (m_cache_assoc c) a (abs h c) = true <->
  exists i, 0 <= i < m_cache_assoc c /\ slot c (cset c a) i = Ok None.
Proof.
  destruct (mat_row _ _ _ _ (cs_cells c Hsh) (cset_range a)) as (row & Hr & Hlen). unfold set_has_room.
  rewrite (same_set_size a row Hr), Z.ltb_lt. unfold vsize in Hlen. split.
  - intros Hlt. assert (~ forall o, o ∈ row -> is_Some (slot_addr o)) as Hn by (rewrite length_omap_full; lia).
    destruct (decide (Exists (fun o => o = None) row)) as [Hex|Hno].
    + apply Exists_exists in Hex as (o & (i & Hi)%list_elem_of_lookup & ->). exists (Z.of_nat i).
      pose proof (lookup_lt_Some _ _ _ Hi). split; [lia|]. by eapply row_lookup.
    + exfalso. apply Hn. intros [p|] (i & Hi)%list_elem_of_lookup.
      * destruct (co_slots h c Hok _ _ _ (row_lookup _ _ _ _ Hr Hi)) as (e & He & _). unfold slot_addr. cbn. rewrite He. by eexists.
      * exfalso. apply Hno. apply Exists_exists. exists None. split; [by eapply list_elem_of_lookup_2 | done].
  - intros (i & Hi & Hs). pose proof (length_omap_bound slot_addr row).
    assert (length (omap slot_addr row) <> length row); [|lia]. intros Hfull. rewrite <- length_omap_full in Hfull.
    unfold mat_get in Hs. rewrite Hr in Hs. cbn in Hs. apply vec_get_Ok in Hs as [_ Hs].
    destruct (Hfull None) as [? ?]; [by eapply list_elem_of_lookup_2 | done].
Qed.

Lemma isTagPresent_ok a : addr_ok a -> isTagPresent bits a h c = Ok (bool_decide (is_Some (abs h c !! a))).
Proof.
  intros Ha. pose proof Ha as [_ Hl]. unfold isTagPresent. rewrite Hl, (addressToCacheSet_ok a Ha). cbn [assert_ mbind result_bind].
  destruct (m_tag_index c !! a) as [i|] eqn:Hi.
  - destruct (tag_present a i Hi) as (p & e & _ & _ & _ & _ & _ & Hr & -> & ->). cbn [mbind result_bind].
    by destruct (Z.eqb_spec i (-1)); [lia|].
  - by destruct (tag_absent a Hl Hi) as [-> ->].
Qed.

(** What a slot of the address's set looks like. *)
Lemma slot_cases a k : 0 <= k < m_cache_assoc c ->
  slot c (cset c a) k = Ok None \/
  exists p e, slot c (cset c a) k = Ok (Some p) /\ h !! p = Some e /\ m_Permission e <> AccessPermission_NotPresent /\
    m_tag_index c !! m_Address e = Some k.
Proof.
  intros Hk. destruct (mat_get_total _ _ _ (cset c a) k (cs_cells c Hsh) (cset_range a) Hk) as [[p|] Hs]; [right | by left].
  destruct (co_slots h c Hok _ _ _ Hs) as (e & He & Htag & _ & Hp & _). by exists p, e.
Qed.

Definition is_free (a k : Z) : bool := match slot c (cset c a) k with Ok None => true | _ => false end.
Definition holds (a k : Z) : bool := bool_decide (m_tag_index c !! a = Some k).

Lemma holds_addr a k p e : slot c (cset c a) k = Ok (Some p) -> h !! p = Some e -> m_tag_index c !! m_Address e = Some k ->
  holds a k = bool_decide (m_Address e = a).
Proof.
  intros Hs He Ht. unfold holds. apply bool_decide_ext. split; [|by intros <-].
  intros Ha. destruct (tag_present a k Ha) as (q & e' & [Hs' He'] & <- & _). congruence.
Qed.

Lemma cacheAvail_ok a : addr_ok a -> cacheAvail bits a h c =
  Ok (bool_decide (is_Some (abs h c !! a)) || set_has_room (m_start_index_bit c) (m_cache_num_set_bits c) (m_cache_assoc c) a (abs h c)).
Proof.
  intros Ha. pose proof Ha as [_ Hl]. unfold cacheAvail. rewrite Hl, (addressToCacheSet_ok a Ha). cbn [assert_ mbind result_bind].
  set (body := fun (i : Z) (_ : unit) => _). set (n := Z.to_nat (m_cache_assoc c)).
  destruct (for_ctl_search body (fun k => is_free a k || holds a k) (fun _ => true) n 0) as [(k & Hk & Hb & _ & Hf)|[Hno Hf]].
  { intros k Hk. subst body. cbn beta. unfold is_free. destruct (slot_cases a k) as [Hs|(p & e & Hs & He & Hp & Ht)]; [lia | by rewrite Hs|].
    rewrite (holds_addr a k p e Hs He Ht), Hs. cbn [mbind result_bind deref_entry orb]. rewrite He. cbn [mbind result_bind].
    destruct (decide (m_Address e = a)) as [E|E].
    - by rewrite decide_True, bool_decide_eq_true_2 by tauto.
    - by rewrite decide_False, bool_decide_eq_false_2 by tauto. }
  - rewrite Hf. cbn [mbind result_bind]. f_equal. symmetry. apply orb_true_iff. apply orb_true_iff in Hb as [Hb|Hb].
    + right. apply room_slot. exists k. split; [lia|]. unfold is_free in Hb. by destruct (mat_get _ _ k) as [[?|]|].
    + left. apply bool_decide_eq_true in Hb. apply bool_decide_eq_true. rewrite abs_tag. by eexists.
  - rewrite Hf. cbn [mbind result_bind]. f_equal. symmetry. apply orb_false_iff. split.
    + apply bool_decide_eq_false. rewrite abs_tag. intros [i Hi].
      destruct (tag_present a i Hi) as (_ & _ & _ & _ & _ & _ & _ & Hr & _). specialize (Hno i ltac:(lia)).
      apply orb_false_iff in Hno as [_ Hno]. by apply bool_decide_eq_false in Hno.
    + apply not_true_iff_false. rewrite room_slot. intros (i & Hi & Hs). specialize (Hno i ltac:(lia)).
      apply orb_false_iff in Hno as [Hno _]. unfold is_free in Hno. by rewrite Hs in Hno.
Qed.

Lemma open_slot_ok a : set_has_room (m_start_index_bit c) (m_cache_num_set_bits c) (m_cache_assoc c) a (abs h c) = true ->
  exists i, open_slot (cset c a) h c = Ok (Brk i) /\ 0 <= i < m_cache_assoc c /\ slot c (cset c a) i = Ok None.
Proof.
  intros (i & Hi & Hs)%room_slot. unfold open_slot. set (body := fun (i : Z) (_ : unit) => _). set (n := Z.to_nat (m_cache_assoc c)).
  destruct (for_ctl_search body (is_free a) (fun k => k) n 0) as [(k & Hk & Hb & _ & Hf)|[Hno Hf]].
  { intros k Hk. subst body. cbn beta. unfold is_free. destruct (slot_cases a k) as [Hs'|(p & e & Hs' & He & Hp & Ht)]; [lia | by rewrite Hs'|].
    rewrite Hs'. cbn [mbind result_bind deref_entry]. rewrite He. cbn [mbind result_bind]. by rewrite decide_False. }
  - exists k. split; [done|]. split; [lia|]. unfold is_free in Hb. by destruct (mat_get _ _ k) as [[?|]|].
  - specialize (Hno i ltac:(lia)). unfold is_free in Hno. by rewrite Hs in Hno.
Qed.

Lemma abs_lookup a : abs h c !! a = m_tag_index c !! a ≫= line_of h c a.
Proof. unfold abs. by rewrite map_lookup_imap. Qed.

(** Different lines have different slots and entries. *)
Lemma other_line a b i j p q e e' : a <> b -> m_tag_index c !! a = Some i -> m_tag_index c !! b = Some j ->
  entry_in h c (cset c a) i p e -> entry_in h c (cset c b) j q e' -> p <> q /\ ~ (cset c b = cset c a /\ j = i).
Proof.
  intros Hab Hi Hj [Hs He] [Hs' He'].
  destruct (tag_present a i Hi) as (p1 & e1 & [Hs1 He1] & Ha1 & _). destruct (tag_present b j Hj) as (q1 & e2 & [Hs2 He2] & Hb1 & _).
  assert (p1 = p) as -> by congruence. assert (q1 = q) as -> by congruence. split.
  - intros ->. congruence.
  - intros [E ->]. rewrite E in Hs'. congruence.
Qed.

(** *** Changes of state *)

(** The policy is told of an access. *)
Lemma touch_way_ok curTick s i : 0 <= s < m_cache_num_sets c -> 0 <= i < m_cache_assoc c ->
  exists c', touch_way curTick s i c = Ok c' /\ cache_ok h c' /\ abs h c' = abs h c /\
    (exists p, c' = with_m_replacementPolicy_ptr p c).
Proof.
  intros Hs Hi. destruct Hsh as [Hp Hn Ha H4 H5 H6 H7 H8]. rewrite <- Hn in Hs. rewrite <- Ha in Hi.
  destruct (rp_touch_ok s i curTick _ Hp Hs Hi) as (p' & Ht & Hp' & En & Ea & _).
  exists (with_m_replacementPolicy_ptr p' c). unfold touch_way. rewrite Ht. split; [done|]. split; [|split; [done | by eexists]].
  split; [|exact (co_tags h c Hok) | exact (co_slots h c Hok)]. split; cbn; try done; congruence.
Qed.

(** The protocol or a lock changes an entry in place. *)
Lemma write_ok a i p e e' : m_tag_index c !! a = Some i -> entry_in h c (cset c a) i p e ->
  m_Address e' = m_Address e -> m_set_index e' = m_set_index e -> m_way_index e' = m_way_index e ->
  m_Permission e' <> AccessPermission_NotPresent ->
  cache_ok (<[p := e']> h) c /\ abs (<[p := e']> h) c = <[a := mkLine p (m_Permission e') (m_locked e')]> (abs h c).
Proof.
  intros Hi [Hs He] Ea Es Ew Hp. split.
  - split; [done | |].
    + intros b j Hj. destruct (co_tags h c Hok b j Hj) as (Hb & q & e1 & [Hs1 He1] & <-). split; [done|].
      destruct (decide (q = p)) as [->|Hne].
      * exists p, e'. split; [split; [done | by rewrite lookup_insert_eq]|]. congruence.
      * exists q, e1. split; [split; [done | by rewrite lookup_insert_ne]|]. done.
    + intros s j q Hs'. destruct (co_slots h c Hok _ _ _ Hs') as (e1 & He1 & H1 & H2 & H3 & H4 & H5).
      destruct (decide (q = p)) as [->|Hne].
      * exists e'. assert (e1 = e) as -> by congruence. rewrite lookup_insert_eq, Ea, Es, Ew. done.
      * exists e1. by rewrite lookup_insert_ne.
  - apply map_eq. intros b. rewrite lookup_insert. destruct (decide (a = b)) as [<-|Hab].
    + unfold abs. rewrite map_lookup_imap, Hi. cbn. unfold line_of. rewrite Hs. by rewrite lookup_insert_eq.
    + unfold abs. rewrite !map_lookup_imap. destruct (m_tag_index c !! b) as [j|] eqn:Hj; [|done]. cbn.
      destruct (tag_present b j Hj) as (q & e1 & [Hs1 He1] & _).
      destruct (other_line a b i j p q e e1 Hab Hi Hj) as [Hne _]; [done | done|].
      unfold line_of. rewrite Hs1. by rewrite lookup_insert_ne.
Qed.

(** The slots and the tag index after a line has left. *)
Lemma remove_ok a i p e : m_tag_index c !! a = Some i -> entry_in h c (cset c a) i p e ->
  exists cells, mat_set (m_cache c) (cset c a) i None = Ok cells /\
    let c' := with_m_tag_index (delete a (m_tag_index c)) (with_m_cache cells c) in
    cache_ok (delete p h) c' /\ abs (delete p h) c' = delete a (abs h c).
Proof.
  intros Hi [Hs He]. destruct (mat_get_range _ _ _ _ _ _ (cs_cells c Hsh) Hs) as [Hr1 Hr2].
  destruct (mat_set_total _ _ _ _ i None (cs_cells c Hsh) Hr1 Hr2) as (cells & Hset & Hm & Hget & Hne).
  exists cells. split; [done|]. cbv zeta. split; [split|].
  - destruct Hsh. by split.
  - cbn. intros b j [Hab Hj]%lookup_delete_Some. destruct (co_tags h c Hok b j Hj) as (Hb & q & e1 & Hin & <-). split; [done|].
    destruct (other_line a _ i j p q e e1 Hab Hi Hj (conj Hs He) Hin) as [Hpq Hd]. destruct Hin as [Hs1 He1].
    exists q, e1. split; [|done]. split; [cbn; by rewrite Hne | by rewrite lookup_delete_ne].
  - cbn. intros s j q Hq. destruct (decide (s = cset c a /\ j = i)) as [[-> ->]|Hd]; [congruence|]. rewrite Hne in Hq by done.
    destruct (co_slots h c Hok _ _ _ Hq) as (e1 & He1 & H1 & H2 & H3 & H4 & H5). exists e1.
    assert (Hpq : q <> p) by (intros ->; apply Hd; by eapply slot_inj).
    rewrite lookup_delete_ne by done. split; [done|]. split; [|done]. rewrite lookup_delete_ne; [done|].
    intros E. apply Hd. split; [congruence|]. rewrite <- E in H1. congruence.
  - apply map_eq. intros b. rewrite lookup_delete. unfold abs. rewrite !map_lookup_imap. cbn. rewrite lookup_delete.
    destruct (decide (a = b)) as [<-|Hab]; [done|]. destruct (m_tag_index c !! b) as [j|] eqn:Hj; [|done]. cbn.
    destruct (tag_present b j Hj) as (q & e1 & [Hs1 He1] & _).
    destruct (other_line a b i j p q e e1 Hab Hi Hj) as [Hpq Hd]; [done | done|].
    unfold line_of. cbn. rewrite Hne, Hs1 by done. by rewrite lookup_delete_ne.
Qed.

(** The slots and the tag index after a line has come into an empty slot. *)
Lemma insert_ok a i p e : addr_ok a -> m_tag_index c !! a = None -> slot c (cset c a) i = Ok None ->
  (forall s j, slot c s j <> Ok (Some p)) ->
  m_Address e = a -> m_set_index e = cset c a -> m_way_index e = i -> m_Permission e <> AccessPermission_NotPresent ->
  exists cells, mat_set (m_cache c) (cset c a) i (Some p) = Ok cells /\
    let c' := with_m_tag_index (<[a := i]> (m_tag_index c)) (with_m_cache cells c) in
    cache_ok (<[p := e]> h) c' /\ abs (<[p := e]> h) c' = <[a := mkLine p (m_Permission e) (m_locked e)]> (abs h c).
Proof.
  intros Haddr Hi Hs Hfresh Ea Es Ew Hp. destruct (mat_get_range _ _ _ _ _ _ (cs_cells c Hsh) Hs) as [Hr1 Hr2].
  destruct (mat_set_total _ _ _ _ i (Some p) (cs_cells c Hsh) Hr1 Hr2) as (cells & Hset & Hm & Hget & Hne).
  assert (Hold : forall b j, m_tag_index c !! b = Some j -> exists q e1, a <> b /\ q <> p /\ mat_get cells (cset c b) j = Ok (Some q) /\
    entry_in h c (cset c b) j q e1 /\ m_Address e1 = b).
  { intros b j Hj. destruct (tag_present b j Hj) as (q & e1 & [Hs1 He1] & Hb & _). exists q, e1.
    split; [congruence|]. split; [intros ->; by apply Hfresh in Hs1|].
    split; [|done]. rewrite Hne; [done|]. intros [E ->]. rewrite E in Hs1. congruence. }
  exists cells. split; [done|]. cbv zeta. split; [split|].
  - destruct Hsh. by split.
  - cbn. intros b j. rewrite lookup_insert_Some. intros [[<- <-]|[Hab Hj]].
    + split; [done|]. exists p, e. split; [split; [done | by rewrite lookup_insert_eq] | done].
    + split; [apply (co_tags h c Hok b j Hj)|]. destruct (Hold b j Hj) as (q & e1 & _ & Hpq & Hc & [_ He1] & Hb).
      exists q, e1. split; [split; [done | by rewrite lookup_insert_ne] | done].
  - cbn. intros s j q Hq. destruct (decide (s = cset c a /\ j = i)) as [[-> ->]|Hd].
    + assert (q = p) as -> by congruence. exists e. rewrite lookup_insert_eq, Ea, Es, Ew, lookup_insert_eq. done.
    + rewrite Hne in Hq by done. destruct (co_slots h c Hok _ _ _ Hq) as (e1 & He1 & H1 & H2). exists e1.
      rewrite lookup_insert_ne by (intros ->; by apply Hfresh in Hq). split; [done|].
      rewrite lookup_insert_ne by (intros E; rewrite E in Hi; congruence). done.
  - apply map_eq. intros b. unfold abs. rewrite lookup_insert, !map_lookup_imap. cbn. rewrite lookup_insert.
    destruct (decide (a = b)) as [<-|Hab].
    + cbn. unfold line_of. cbn. rewrite Hget. by rewrite lookup_insert_eq.
    + destruct (m_tag_index c !! b) as [j|] eqn:Hj; [|done]. cbn.
      destruct (Hold b j Hj) as (q & e1 & _ & Hpq & Hc & [Hs1 He1] & _). unfold line_of. cbn. rewrite Hc, Hs1. by rewrite lookup_insert_ne.
Qed.
End Lookup.
End Invariant.

(** ** Every operation does what the abstract cache does *)

Section Refinement.
Context {P : Type} {RP : ReplacementPolicy P} {PL : PolicyLaws P} (bits : Z).

(** What the protocol owes: 64-bit addresses; a new entry object is not at the address of another; only lines of the
    cache get a new permission, and not [NotPresent]. *)
Definition op_pre (op : cache_op) (h : EntryStore) (c : CacheMemory P) : Prop :=
  0 <= op_addr op < 2 ^ 64 /\
  match op with
  | OAllocate _ p _ _ => h !! p = None
  | OChangePermission a perm => is_Some (abs h c !! a) /\ perm <> AccessPermission_NotPresent
  | _ => True
  end.

Definition spec_of (c : CacheMemory P) : cache_op -> gmap Z Line -> option (cache_out * gmap Z Line) :=
  spec_step bits (m_start_index_bit c) (m_cache_num_set_bits c) (m_cache_assoc c).

(** The fields that the abstract cache depends on. *)
Definition same_dims (c c' : CacheMemory P) : Prop :=
  m_start_index_bit c' = m_start_index_bit c /\ m_cache_num_set_bits c' = m_cache_num_set_bits c /\ m_cache_assoc c' = m_cache_assoc c.

Definition refines_step (curTick : Z) (op : cache_op) (h : EntryStore) (c : CacheMemory P) : Prop :=
  match spec_of c op (abs h c) with
  | Some (out, m') => exists h' c', run_op bits curTick op h c = Ok (out, h', c') /\ cache_ok bits h' c' /\ abs h' c' = m' /\ same_dims c c'
  | None => run_op bits curTick op h c = Err EAssert
  end.

Lemma not_line_refused curTick op h c : is_line bits (op_addr op) = false -> refines_step curTick op h c.
Proof.
  intros Hl. unfold refines_step, spec_of, spec_step. rewrite Hl.
  destruct op; cbn [op_addr] in Hl; cbn [run_op];
    unfold unit_out, allocate, deallocate, lookup, isTagPresent, cacheAvail, tryCacheAccess, testCacheAccess, setMRU,
      addressToCacheSet, setLocked, clearLocked, isLocked, located; by rewrite ?Hl.
Qed.

Section Step.
Context (curTick : Z) (h : EntryStore) (c : CacheMemory P) (Hok : cache_ok bits h c) (a : Z) (Ha : addr_ok bits a).

Let Hsh : cache_shape c := co_shape bits h c Hok.
Let Hl : is_line bits a = true := proj2 Ha.
Abbreviation cset := (set_of (m_start_index_bit c) (m_cache_num_set_bits c) a).

(** The line of the address, as every operation finds it. *)
Lemma find_cases :
  (exists i p e, m_tag_index c !! a = Some i /\ entry_in h c cset i p e /\ m_Permission e <> AccessPermission_NotPresent /\
     0 <= i < m_cache_assoc c /\ findTagInSet bits h cset a c = Ok i /\ abs h c !! a = Some (mkLine p (m_Permission e) (m_locked e))) \/
  (m_tag_index c !! a = None /\ findTagInSet bits h cset a c = Ok (-1) /\ abs h c !! a = None).
Proof.
  destruct (m_tag_index c !! a) as [i|] eqn:Hi; [left | right].
  - destruct (tag_present bits h c Hok a i Hi) as (p & e & Hin & _ & Hp & _ & _ & Hr & Hf & Habs). by exists i, p, e.
  - by destruct (tag_absent bits h c a Hl Hi).
Qed.

Lemma located_ok : match abs h c !! a with
  | Some l => located bits a h c = Ok (ln_entry l)
  | None => located bits a h c = Err EAssert end.
Proof.
  unfold located. rewrite Hl, (addressToCacheSet_ok bits h c Hok a Ha). cbn [assert_ mbind result_bind].
  destruct find_cases as [(i & p & e & Hi & [Hs He] & Hp & Hr & -> & ->)|(_ & -> & ->)]; [|done].
  cbn [mbind result_bind]. destruct (Z.eqb_spec i (-1)); [lia|]. cbn [negb assert_ mbind result_bind]. by rewrite Hs.
Qed.

(** An entry of the cache is written in place. *)
Lemma locked_ok (f : AbstractCacheEntry -> AbstractCacheEntry) l :
  abs h c !! a = Some l ->
  (forall e, m_Address (f e) = m_Address e /\ m_set_index (f e) = m_set_index e /\ m_way_index (f e) = m_way_index e) ->
  (forall e, m_Permission e <> AccessPermission_NotPresent -> m_Permission (f e) <> AccessPermission_NotPresent) ->
  exists e, h !! ln_entry l = Some e /\ ln_perm l = m_Permission e /\ ln_locked l = m_locked e /\
    write_entry h (ln_entry l) f = Ok (<[ln_entry l := f e]> h) /\ cache_ok bits (<[ln_entry l := f e]> h) c /\
    abs (<[ln_entry l := f e]> h) c = <[a := mkLine (ln_entry l) (m_Permission (f e)) (m_locked (f e))]> (abs h c).
Proof.
  intros Hline Hf Hp. destruct find_cases as [(i & p & e & Hi & [Hs He] & Hnp & _ & _ & E)|(_ & _ & E)]; rewrite E in Hline; [|done].
  injection Hline as <-. cbn. exists e. split; [done|]. split; [done|]. split; [done|].
  unfold write_entry. cbn. rewrite He. split; [done|]. destruct (Hf e) as (E1 & E2 & E3).
  apply (write_ok bits h c Hok a i p e (f e) Hi (conj Hs He) E1 E2 E3). by apply Hp.
Qed.

(** An access that changes only what the policy knows. *)
Lemma accessed_ok i : 0 <= i < m_cache_assoc c ->
  exists c', touch_way curTick cset i c = Ok c' /\ cache_ok bits h c' /\ abs h c' = abs h c /\ same_dims c c'.
Proof.
  intros Hi. destruct (touch_way_ok bits h c Hok curTick cset i (cset_range bits h c Hok a) Hi) as (c' & Ht & Hok' & Ea & p & ->).
  by exists (with_m_replacementPolicy_ptr p c).
Qed.

Lemma entry_slot p : (exists s i, mat_get (m_cache c) s i = Ok (Some p)) -> exists b l, abs h c !! b = Some l /\ ln_entry l = p.
Proof.
  intros (s & i & Hs). destruct (co_slots bits h c Hok _ _ _ Hs) as (e & He & Htag & Hset & _).
  destruct (tag_present bits h c Hok _ _ Htag) as (q & e' & [Hs' He'] & _ & _ & _ & _ & _ & _ & Habs).
  rewrite Hset in Hs'. assert (q = p) as -> by congruence. by eexists _, _.
Qed.

Lemma allocate_ok p touch : is_Some (h !! p) -> (forall b l, abs h c !! b = Some l -> ln_entry l <> p) ->
  match spec_of c (OAllocate a p (AbstractCacheEntry_new 0 0 0) touch) (abs h c) with
  | Some (out, m') => exists h' c', allocate bits curTick a p touch h c = Ok (h', c') /\ cache_ok bits h' c' /\ abs h' c' = m' /\ same_dims c c'
  | None => allocate bits curTick a p touch h c = Err EAssert
  end.
Proof.
  intros [e0 He0] Hfresh. unfold spec_of, spec_step. cbn [op_addr spec_line]. rewrite Hl.
  unfold allocate. rewrite Hl. cbn [assert_ mbind result_bind].
  rewrite (isTagPresent_ok bits h c Hok a Ha), (cacheAvail_ok bits h c Hok a Ha), (addressToCacheSet_ok bits h c Hok a Ha).
  destruct find_cases as [(i & q & e & _ & _ & _ & _ & _ & ->)|(Hi & _ & E)]; [done|]. rewrite E.
  cbn [mbind result_bind]. rewrite bool_decide_eq_false_2 by (intros [? ?]; done). cbn [negb assert_ mbind result_bind orb].
  destruct (set_has_room _ _ _ a (abs h c)) eqn:Hroom; [|done]. cbn [assert_ mbind result_bind].
  destruct (open_slot_ok bits h c Hok a Hroom) as (i & -> & Hr & Hs). cbn [mbind result_bind].
  set (f := fun e => with_m_way_index (u32 i) _). pose proof (cset_range bits h c Hok a) as Hset.
  destruct (insert_ok bits h c Hok a i p (f e0) Ha Hi Hs) as (cells & -> & Hok' & Habs); try done.
  { intros s j Hsj. destruct (entry_slot p) as (b & l & Hb & Hp); [by eexists _, _|]. by apply (Hfresh b l). }
  { subst f. cbn. rewrite u32_small; [done|]. destruct Hsh. lia. }
  { subst f. cbn. rewrite u32_small; [done|]. destruct Hsh. lia. }
  cbn [mbind result_bind]. unfold write_entry. cbn [deref_entry]. rewrite He0. cbn [mbind result_bind]. fold (f e0).
  set (c1 := with_m_tag_index _ _) in *. destruct touch; cbn [mbind result_bind].
  - destruct (touch_way_ok bits _ c1 Hok' curTick cset i Hset Hr) as (c' & -> & Hok2 & Ea & q & ->). cbn [mbind result_bind].
    eexists _, _. split; [done|]. split; [done|]. by rewrite Ea, Habs.
  - eexists _, _. split; [done|]. split; [done|]. by rewrite Habs.
Qed.

(** A new object changes nothing for the cache. *)
Lemma new_object_ok p e : h !! p = None -> cache_ok bits (<[p := e]> h) c /\ abs (<[p := e]> h) c = abs h c.
Proof.
  intros Hp. assert (Hsame : forall q e1, h !! q = Some e1 -> <[p := e]> h !! q = Some e1).
  { intros q e1 Hq. rewrite lookup_insert_ne; [done|]. congruence. }
  split; [split; [done | |]|].
  - intros b i Hb. destruct (co_tags bits h c Hok b i Hb) as (Hb' & q & e1 & [Hs He] & Hadr). split; [done|].
    exists q, e1. split; [split; [done | by apply Hsame] | done].
  - intros s i q Hs. destruct (co_slots bits h c Hok s i q Hs) as (e1 & He & H1). exists e1. split; [by apply Hsame | done].
  - apply map_eq. intros b. unfold abs. rewrite !map_lookup_imap. destruct (m_tag_index c !! b) as [i|] eqn:Hb; [|done]. cbn.
    destruct (co_tags bits h c Hok b i Hb) as (_ & q & e1 & [Hs He] & _). unfold line_of. rewrite Hs, He. by rewrite (Hsame q e1 He).
Qed.

Lemma deallocate_ok : refines_step curTick (ODeallocate a) h c.
Proof.
  unfold refines_step, spec_of, spec_step. cbn [op_addr spec_line]. rewrite Hl.
  cbn [run_op]. unfold unit_out, deallocate. rewrite Hl. cbn [assert_ mbind result_bind].
  rewrite (isTagPresent_ok bits h c Hok a Ha), (addressToCacheSet_ok bits h c Hok a Ha). cbn [mbind result_bind].
  destruct find_cases as [(i & q & e & Hi & [Hs He] & _ & Hr & Hf & ->)|(Hi & _ & ->)].
  - rewrite bool_decide_eq_true_2 by (by eexists). cbn [assert_ mbind result_bind]. rewrite Hf. cbn [mbind result_bind].
    destruct (Z.eqb_spec i (-1)); [lia|]. rewrite Hs. cbn [mbind result_bind].
    destruct (remove_ok bits h c Hok a i q e Hi (conj Hs He)) as (cells & -> & Hok' & Habs). cbn [mbind result_bind].
    by eexists _, _.
  - by rewrite bool_decide_eq_false_2 by (intros [? ?]; done).
Qed.

(** The accesses that look for a line and tell the policy. *)
Lemma line_access_ok op : (exists type, op = OTryAccess a type) \/ op = OTestAccess a \/ op = OSetMRU a -> refines_step curTick op h c.
Proof.
  intros Hop. unfold refines_step, spec_of, spec_step.
  destruct find_cases as [(i & q & e & Hi & [Hs He] & Hp & Hr & Hf & Habs)|(Hi & Hf & Habs)].
  - destruct (accessed_ok i Hr) as (c' & Ht & Hok' & Ea & Hd).
    destruct Hop as [[type ->]|[->| ->]]; cbn [op_addr spec_line run_op]; rewrite Hl;
      unfold tryCacheAccess, testCacheAccess, setMRU; rewrite ?Hl, (addressToCacheSet_ok bits h c Hok a Ha);
      cbn [assert_ mbind result_bind]; rewrite Hf, ?Habs; cbn [mbind result_bind]; (destruct (Z.eqb_spec i (-1)); [lia|]);
      rewrite ?Hs; cbn [mbind result_bind]; rewrite Ht; cbn [mbind result_bind deref_entry]; rewrite ?He; cbn [mbind result_bind].
    + unfold hits. cbn [ln_perm ln_entry].
      destruct (decide (m_Permission e = AccessPermission_Read_Write)) as [Ew|Ew].
      * rewrite bool_decide_eq_true_2 by tauto. by exists h, c'.
      * destruct (decide (m_Permission e = AccessPermission_Read_Only /\ _)) as [Er|Er].
        -- rewrite bool_decide_eq_true_2 by tauto. by exists h, c'.
        -- rewrite bool_decide_eq_false_2 by tauto. by exists h, c'.
    + rewrite bool_decide_eq_false_2 by done. by exists h, c'.
    + by exists h, c'.
  - destruct Hop as [[type ->]|[->| ->]]; cbn [op_addr spec_line run_op]; rewrite Hl;
      unfold tryCacheAccess, testCacheAccess, setMRU; rewrite ?Hl, (addressToCacheSet_ok bits h c Hok a Ha);
      cbn [assert_ mbind result_bind]; rewrite Hf, ?Habs; by exists h, c.
Qed.

(** The queries that change nothing. *)
Lemma query_ok op : op = OLookup a \/ op = OIsTagPresent a \/ op = OCacheAvail a \/ (exists context, op = OIsLocked a context) ->
  refines_step curTick op h c.
Proof.
  intros Hop. unfold refines_step, spec_of, spec_step. pose proof located_ok as Hloc.
  destruct Hop as [->|[->|[->|[context ->]]]]; cbn [op_addr spec_line run_op]; rewrite Hl.
  - unfold lookup. rewrite Hl, (addressToCacheSet_ok bits h c Hok a Ha). cbn [assert_ mbind result_bind].
    destruct find_cases as [(i & q & e & Hi & [Hs He] & Hp & Hr & -> & ->)|(Hi & -> & ->)]; cbn [mbind result_bind]; [|by exists h, c].
    destruct (Z.eqb_spec i (-1)); [lia|]. rewrite Hs. by exists h, c.
  - rewrite (isTagPresent_ok bits h c Hok a Ha). by exists h, c.
  - rewrite (cacheAvail_ok bits h c Hok a Ha). by exists h, c.
  - unfold isLocked. destruct (abs h c !! a) as [l|] eqn:El; rewrite Hloc; [|done]. cbn [mbind result_bind].
    destruct (locked_ok (fun e => e) l El) as (e & He & _ & Elock & _); [done | done|]. cbn [deref_entry]. rewrite He, Elock.
    by exists h, c.
Qed.

(** The writes to the entry of a line. *)
Lemma locking_ok op : (exists context, op = OSetLocked a context) \/ op = OClearLocked a -> refines_step curTick op h c.
Proof.
  intros Hop. assert (Hf : exists context f, (forall e, f e = with_m_locked context e) /\
    run_op bits curTick op h c = (p ← located bits a h c; h ← write_entry h p f; Ok (OutUnit, h, c)) /\
    spec_of c op (abs h c) = match abs h c !! a with Some l => Some (OutUnit, <[a := relock context l]> (abs h c)) | None => None end).
  { destruct Hop as [[context ->]| ->]; unfold spec_of, spec_step; cbn [op_addr spec_line run_op]; rewrite Hl.
    - exists context, (entry_setLocked context). split; [done|]. split; [|done]. unfold setLocked. by destruct (located bits a h c).
    - exists (-1), entry_clearLocked. split; [done|]. split; [|done]. unfold clearLocked. by destruct (located bits a h c). }
  destruct Hf as (context & f & Ef & Hrun & Hspec). unfold refines_step. rewrite Hspec, Hrun. pose proof located_ok as Hloc.
  destruct (abs h c !! a) as [l|] eqn:El; rewrite Hloc; [|done]. cbn [mbind result_bind].
  destruct (locked_ok f l El) as (e & He & Ep & _ & -> & Hok' & Habs); [intros e; by rewrite Ef | intros e; by rewrite Ef|].
  eexists _, c. split; [done|]. split; [done|]. split; [|done]. rewrite Habs, Ef. unfold relock. cbn. by rewrite Ep.
Qed.

Lemma permission_ok perm : is_Some (abs h c !! a) -> perm <> AccessPermission_NotPresent -> refines_step curTick (OChangePermission a perm) h c.
Proof.
  intros [l El] Hperm. pose proof (query_ok (OLookup a) (or_introl eq_refl)) as Hlook.
  unfold refines_step, spec_of, spec_step in *. cbn [op_addr spec_line run_op] in *. rewrite Hl, El in *. cbn [fmap option_fmap option_map] in Hlook.
  destruct Hlook as (h1 & c1 & Hr & _). destruct (lookup bits a h c) as [p|] eqn:Ep; [|done]. cbn [mbind result_bind] in *.
  injection Hr as -> <- <-. cbn [mbind result_bind].
  destruct (locked_ok (changePermission perm) l El) as (e & He & _ & Elock & -> & Hok' & Habs).
  - intros e. unfold changePermission. by destruct (decide _).
  - intros e _. unfold changePermission. by destruct (decide _).
  - eexists _, c. split; [done|]. split; [done|]. split; [|done]. rewrite Habs. unfold changePermission, repermit.
    destruct (decide _); cbn; by rewrite ?Elock.
Qed.
End Step.

Lemma step_ok curTick op h c : cache_ok bits h c -> op_pre op h c -> refines_step curTick op h c.
Proof.
  intros Hok [Hr Hpre]. destruct (is_line bits (op_addr op)) eqn:Hl; [|by apply not_line_refused].
  pose proof (conj Hr Hl : addr_ok bits (op_addr op)) as Ha. destruct op; cbn [op_addr] in *.
  - destruct (new_object_ok h c Hok p e Hpre) as [Hok1 Habs1]. pose proof (allocate_ok curTick _ c Hok1 a Ha p touch) as Hall.
    rewrite Habs1 in Hall. unfold refines_step, spec_of, spec_step in *. cbn [op_addr spec_line run_op] in *.
    rewrite Hl in *. unfold unit_out.
    assert (Hfresh : forall b l, abs h c !! b = Some l -> ln_entry l <> p).
    { intros b l Hb E. rewrite abs_lookup in Hb. destruct (m_tag_index c !! b) as [i|] eqn:Hi; [|done].
      destruct (tag_present bits h c Hok b i Hi) as (q & e1 & [Hs He] & _). cbn in Hb. unfold line_of in Hb. rewrite Hs, He in Hb.
      cbn in Hb. injection Hb as <-. cbn in E. congruence. }
    specialize (Hall ltac:(rewrite lookup_insert_eq; by eexists) Hfresh).
    destruct (abs h c !! a); [by rewrite Hall|]. destruct (set_has_room _ _ _ _ _); [|by rewrite Hall].
    destruct Hall as (h' & c' & -> & Hrest). by exists h', c'.
  - by apply deallocate_ok.
  - apply (query_ok _ _ _ Hok a Ha). tauto.
  - apply (query_ok _ _ _ Hok a Ha). tauto.
  - apply (query_ok _ _ _ Hok a Ha). tauto.
  - apply (line_access_ok _ _ _ Hok a Ha). left. by eexists.
  - apply (line_access_ok _ _ _ Hok a Ha). tauto.
  - apply (line_access_ok _ _ _ Hok a Ha). tauto.
  - apply (locking_ok _ _ _ Hok a Ha). left. by eexists.
  - apply (locking_ok _ _ _ Hok a Ha). tauto.
  - apply (query_ok _ _ _ Hok a Ha). right. right. right. by eexists.
  - destruct Hpre. by apply permission_ok.
Qed.
End Refinement.
