(* ===== verification/CacheProperties.v ===== *)
(** * Properties of the cache memory

    Runs of operations against the abstract cache; replacement; the entry that is overwritten without its tag; the
    banks of the data and tag arrays. *)

From S2P Require Import Prelude MessageBuffer Replacement CacheMemory CacheTheory.
Local Open Scope Z_scope.

(** ** A new cache *)

Section New.
Context {P : Type} {RP : ReplacementPolicy P} {PL : PolicyLaws P} (bits : Z).

Lemma slots_empty (rows cols : nat) i j (x : option Z) :
  mat_get (replicate rows (replicate cols None)) i j = Ok x -> x = None.
Proof.
  unfold mat_get. intros H. inv_ok. rename select (vec_get (replicate rows _) i = _) into Hr.
  apply vec_get_Ok in Hr as [_ [-> _]%lookup_replicate_1]. rename select (vec_get _ j = _) into Hc.
  by apply vec_get_Ok in Hc as [_ [-> _]%lookup_replicate_1].
Qed.

Lemma div_shrinks a b : 0 <= a -> 0 < b -> 0 <= a `div` b <= a.
Proof.
  intros Ha Hb. split; [apply Z.div_pos; lia|]. apply Z.div_le_upper_bound; [lia|].
  rewrite <- (Z.mul_1_l a) at 1. apply Z.mul_le_mono_nonneg_r; lia.
Qed.

(** The number of sets as the policy computes it. *)
Lemma same_sets size block assoc : 0 <= size < 2 ^ 31 -> 0 < block < 2 ^ 31 -> 0 < assoc < 2 ^ 31 ->
  u32 ((size `div` u64 block) `div` u64 assoc) = (size `quot` assoc) `quot` block.
Proof.
  intros Hs Hb Ha. rewrite !u64_small by lia. rewrite !Z.quot_div_nonneg by (lia || (apply Z.quot_pos; lia)).
  rewrite !Z.div_div, (Z.mul_comm assoc) by lia. apply u32_small.
  pose proof (div_shrinks size (block * assoc) ltac:(lia) ltac:(lia)). lia.
Qed.

Lemma new_cache_ok params policy h c0 c :
  CacheMemory_new params policy = Ok c0 -> init bits c0 = Ok c ->
  let block := if cp_block_size params =? 0 then 2 ^ bits else cp_block_size params in
  rp_ok policy -> AbstractReplacementPolicy (cp_size params) block (cp_assoc params) = Ok (rp_base policy) ->
  0 <= cp_size params < 2 ^ 31 -> 0 <= cp_block_size params < 2 ^ 31 -> 0 < block < 2 ^ 31 -> 0 < cp_assoc params < 2 ^ 31 ->
  0 <= cp_start_index_bit params <= 32 ->
  cache_ok bits h c /\ abs h c = ∅.
Proof.
  intros Hnew Hinit block Hp Hbase Hsize Hcb Hblock Hassoc Hstart. unfold CacheMemory_new, init in *. inv_ok.
  cbn [m_block_size m_cache_assoc m_cache_size] in Hinit.
  assert (Ei : forall z, 0 <= z < 2 ^ 31 -> i32 z = z) by (intros z Hz; unfold i32; rewrite Z.mod_small; lia).
  rewrite !Ei in Hinit by lia. fold block in Hinit.
  destruct (Z.eqb_spec (cp_assoc params) 0); [lia|]. destruct (Z.eqb_spec block 0); [lia|]. inv_ok.
  rename select ((1 <? _) = true) into Hmany. apply Z.ltb_lt in Hmany. rename select ((0 <? _) = true) into Hpos. apply Z.ltb_lt in Hpos.
  set (sets := (cp_size params `quot` cp_assoc params) `quot` block) in *.
  assert (Hsets : sets < 2 ^ 31).
  { subst sets. rewrite !Z.quot_div_nonneg by (lia || (apply Z.quot_pos; lia)). rewrite Z.div_div by lia.
    pose proof (div_shrinks (cp_size params) (cp_assoc params * block) ltac:(lia) ltac:(lia)). lia. }
  rename select (floorLog2 _ = _) into Hlog. rewrite floorLog2_log2 in Hlog by lia. apply Ok_inj in Hlog as <-.
  assert (Hb : m_num_sets (rp_base policy) = sets /\ m_assoc (rp_base policy) = cp_assoc params).
  { unfold AbstractReplacementPolicy in Hbase. destruct (_ || _); [done|]. apply Ok_inj in Hbase. rewrite <- Hbase. cbn.
    split; [by apply same_sets | apply u32_small; lia]. }
  destruct Hb as [Hb1 Hb2]. pose proof (Z.log2_spec sets ltac:(lia)) as Hspec. split; [|by apply map_eq; intros a; unfold abs; rewrite map_lookup_imap].
  split; [split; cbn| cbn; intros a i Ht; by rewrite lookup_empty in Ht|].
  - done.
  - done.
  - done.
  - apply zeroes_ok; lia.
  - lia.
  - assert (Z.log2 sets < 31) by (apply Z.log2_lt_pow2; lia). lia.
  - lia.
  - lia.
  - cbn. intros s i p Hs%slots_empty. done.
Qed.
End New.

(** ** Runs of operations *)

Section Runs.
Context {P : Type} {RP : ReplacementPolicy P} {PL : PolicyLaws P} (bits : Z).

(** Operations with the ticks at which they are called. *)
Fixpoint run_ops (ops : list (Z * cache_op)) (h : EntryStore) (c : CacheMemory P)
  : result (list cache_out * EntryStore * CacheMemory P) :=
  match ops with
  | [] => Ok ([], h, c)
  | (t, op) :: ops =>
      '(out, h, c) ← run_op bits t op h c;
      '(outs, h, c) ← run_ops ops h c;
      Ok (out :: outs, h, c)
  end.

Fixpoint spec_ops (step : cache_op -> gmap Z Line -> option (cache_out * gmap Z Line)) (ops : list (Z * cache_op)) (m : gmap Z Line)
  : option (list cache_out * gmap Z Line) :=
  match ops with
  | [] => Some ([], m)
  | (_, op) :: ops => '(out, m) ← step op m; '(outs, m) ← spec_ops step ops m; Some (out :: outs, m)
  end.

(** The protocol keeps its side at every operation of the run. *)
Fixpoint ops_pre (ops : list (Z * cache_op)) (h : EntryStore) (c : CacheMemory P) : Prop :=
  match ops with
  | [] => True
  | (t, op) :: ops => op_pre op h c /\ forall out h' c', run_op bits t op h c = Ok (out, h', c') -> ops_pre ops h' c'
  end.

Lemma run_ops_keep ops h c outs h' c' : cache_ok bits h c -> ops_pre ops h c -> run_ops ops h c = Ok (outs, h', c') -> cache_ok bits h' c'.
Proof.
  revert h c outs. induction ops as [|[t op] ops IH]; intros h c outs Hok Hpre Hr; cbn [run_ops] in Hr; [by injection Hr as <- <- <-|].
  destruct Hpre as [Hop Hpre]. apply bind_Ok in Hr as ([[out h1] c1] & Hstep & ([[outs1 h2] c2] & Hrest & [= <- <- <-])%bind_Ok).
  pose proof (step_ok bits t op h c Hok Hop) as Hs. unfold refines_step in Hs. destruct (spec_of bits c op (abs h c)) as [[o m]|]; [|congruence].
  destruct Hs as (h1' & c1' & Hs & Hok1 & _). rewrite Hs in Hstep. injection Hstep as -> -> ->. by eapply IH; [| eapply Hpre|].
Qed.

(** C31: The cache implements the abstract one, if the protocol keeps its contract: addresses are 64-bit, a new entry object is not at
    the address of another, and only lines of the cache get a new permission, which is never NotPresent (a line that is
    set NotPresent leaves a stale tag behind, see [allocate_leaves_stale_tag]).  From a cache in which tag index and slots agree,
    any run of operations that keeps the contract at every step
    returns the outputs of a finite map from line addresses to entries with permission and lock, at most [assoc] lines
    in a set, and ends in a cache that holds that map; where the map refuses an operation, an assertion fails. *)
Theorem cache_refines ops h c : cache_ok bits h c -> ops_pre ops h c ->
  match spec_ops (spec_of bits c) ops (abs h c) with
  | Some (outs, m) => exists h' c', run_ops ops h c = Ok (outs, h', c') /\ cache_ok bits h' c' /\ abs h' c' = m
  | None => run_ops ops h c = Err EAssert
  end.
Proof.
  revert h c. induction ops as [|[t op] ops IH]; intros h c Hok Hpre; [by exists h, c|].
  destruct Hpre as [Hop Hpre]. pose proof (step_ok bits t op h c Hok Hop) as Hstep. unfold refines_step in Hstep.
  cbn [spec_ops run_ops]. destruct (spec_of bits c op (abs h c)) as [[out m']|]; cbn [mbind option_bind]; [|by rewrite Hstep].
  destruct Hstep as (h1 & c1 & Hr & Hok1 & <- & Hd). rewrite Hr. cbn [mbind result_bind].
  specialize (IH h1 c1 Hok1 (Hpre _ _ _ Hr)). replace (spec_of bits c1) with (spec_of bits c) in IH
    by (unfold spec_of; destruct Hd as (-> & -> & ->); done).
  destruct (spec_ops (spec_of bits c) ops (abs h1 c1)) as [[outs m]|]; cbn [mbind option_bind]; [|by rewrite IH].
  destruct IH as (h2 & c2 & -> & Hok2 & Habs). by exists h2, c2.
Qed.
End Runs.

(** ** Replacement *)

Section Replace.
Context {P : Type} {RP : ReplacementPolicy P} {PL : PolicyLaws P} (bits : Z).

Abbreviation room c a m := (set_has_room (m_start_index_bit c) (m_cache_num_set_bits c) (m_cache_assoc c) a m).
Abbreviation cset c a := (set_of (m_start_index_bit c) (m_cache_num_set_bits c) a).

(** A full set: the victim's slot holds a line of the set. *)
Lemma cacheProbe_ok h c a : cache_ok bits h c -> addr_ok bits a -> abs h c !! a = None -> room c a (abs h c) = false ->
  exists v w l, cacheProbe bits a h c = Ok v /\ rp_getVictim (cset c a) (m_replacementPolicy_ptr c) = Ok w /\
    m_tag_index c !! v = Some w /\ addr_ok bits v /\ cset c v = cset c a /\ abs h c !! v = Some l.
Proof.
  intros Hok Ha Hnone Hroom. pose proof (co_shape bits h c Hok) as Hsh. pose proof Ha as [_ Hl].
  destruct (rp_victim_ok (cset c a) _ (cs_policy c Hsh)) as (w & Hw & Hr).
  { rewrite (cs_sets c Hsh). by apply (cset_range bits h). }
  rewrite (cs_assoc c Hsh) in Hr. destruct (slot_cases bits h c Hok a w Hr) as [Hs|(p & e & Hs & He & Hp & Ht)].
  { exfalso. apply not_true_iff_false in Hroom. apply Hroom. apply (room_slot bits h c Hok). by exists w. }
  destruct (co_slots bits h c Hok _ _ _ Hs) as (e' & He' & _ & Hset & _). assert (e' = e) as -> by congruence.
  destruct (tag_present bits h c Hok _ _ Ht) as (q & e1 & _ & _ & _ & _ & _ & _ & _ & Habs).
  exists (m_Address e), w. eexists. unfold cacheProbe. rewrite Hl, (cacheAvail_ok bits h c Hok a Ha), Hnone, Hroom.
  cbn [assert_ mbind result_bind]. rewrite bool_decide_eq_false_2 by (intros [? ?]; done). cbn [orb negb assert_ mbind result_bind].
  rewrite (addressToCacheSet_ok bits h c Hok a Ha). cbn [mbind result_bind]. rewrite Hw. cbn [mbind result_bind].
  unfold slot_entry. rewrite Hs. cbn [mbind result_bind deref_entry]. rewrite He. split_and!; try done; apply (co_tags bits h c Hok _ _ Ht).
Qed.

Lemma set_bound h c a : cache_ok bits h c ->
  Z.of_nat (base.size (same_set (m_start_index_bit c) (m_cache_num_set_bits c) a (abs h c))) <= m_cache_assoc c.
Proof.
  intros Hok. destruct (mat_row _ _ _ _ (cs_cells c (co_shape bits h c Hok)) (cset_range bits h c Hok a)) as (row & Hr & Hlen).
  rewrite (same_set_size bits h c Hok a row Hr). pose proof (length_omap_bound (slot_addr h) row). unfold vsize in Hlen. lia.
Qed.

Lemma room_after start nbits assoc v a l (m : gmap Z Line) : m !! v = Some l -> set_of start nbits v = set_of start nbits a ->
  Z.of_nat (base.size (same_set start nbits a m)) <= assoc -> set_has_room start nbits assoc a (delete v m) = true.
Proof.
  intros Hv Hset Hle. unfold set_has_room. apply Z.ltb_lt. unfold same_set in *. rewrite map_filter_delete.
  assert (Hin : filter (fun bl : Z * Line => set_of start nbits bl.1 = set_of start nbits a) m !! v = Some l)
    by by apply map_lookup_filter_Some.
  rewrite map_size_delete_Some by by eexists.
  assert (base.size (filter (fun bl : Z * Line => set_of start nbits bl.1 = set_of start nbits a) m) <> 0%nat); [|lia].
  intros E%map_size_empty_inv. by rewrite E in Hin.
Qed.

(** C32: Replacement makes room and loses only the victim.  When a line is not in the cache and its set is full,
    [cacheProbe] returns the address of a line of that set, the one in the way the policy names; after this line is
    deallocated, the new line can be allocated, and the cache then holds what it held, without the victim and with the
    new line. *)
Theorem cache_replacement t h c a p e touch :
  cache_ok bits h c -> addr_ok bits a -> abs h c !! a = None -> room c a (abs h c) = false -> h !! p = None ->
  exists v w h1 c1 h2 c2, cacheProbe bits a h c = Ok v /\
    rp_getVictim (cset c a) (m_replacementPolicy_ptr c) = Ok w /\ m_tag_index c !! v = Some w /\ cset c v = cset c a /\
    deallocate bits v h c = Ok (h1, c1) /\ allocate bits t a p touch (<[p := e]> h1) c1 = Ok (h2, c2) /\
    cache_ok bits h2 c2 /\ abs h2 c2 = <[a := mkLine p AccessPermission_Invalid (-1)]> (delete v (abs h c)).
Proof.
  intros Hok Ha Hnone Hroom Hp. destruct (cacheProbe_ok h c a Hok Ha Hnone Hroom) as (v & w & l & Hv & Hw & Htag & Hva & Hset & Hvl).
  exists v, w. assert (Hne : v <> a) by (intros ->; congruence). destruct Hva as [Hvr Hvline]. destruct Ha as [Har Hal].
  pose proof (step_ok bits t (ODeallocate v) h c Hok (conj Hvr I)) as Hd. unfold refines_step, spec_of, spec_step in Hd.
  cbn [op_addr spec_line run_op] in Hd. rewrite Hvline, Hvl in Hd. destruct Hd as (h1 & c1 & Hd & Hok1 & Habs1 & Hdim).
  destruct (deallocate bits v h c) as [[h1' c1']|] eqn:Hdealloc; [|done]. cbn in Hd. injection Hd as -> ->.
  assert (Hp1 : h1 !! p = None).
  { unfold deallocate in Hdealloc. inv_ok. destruct (_ =? _); inv_ok; [done|].
    match goal with |- match ?o with _ => _ end !! _ = _ => destruct o; [|done] end.
    rewrite lookup_delete, Hp. by destruct (decide _). }
  pose proof (step_ok bits t (OAllocate a p e touch) h1 c1 Hok1 (conj Har Hp1)) as Hs. unfold refines_step, spec_of, spec_step in Hs.
  cbn [op_addr spec_line run_op] in Hs. destruct Hdim as (E1 & E2 & E3).
  rewrite Hal, Habs1, lookup_delete_ne, Hnone, E1, E2, E3 in Hs by done.
  rewrite (room_after _ _ _ v a l _ Hvl Hset (set_bound h c a Hok)) in Hs. destruct Hs as (h2 & c2 & Hs & Hok2 & Habs2 & _).
  destruct (allocate bits t a p touch (<[p := e]> h1) c1) as [[h2' c2']|] eqn:Halloc; [|done]. cbn in Hs. injection Hs as -> ->.
  by exists h1, c1, h2, c2.
Qed.
End Replace.

(** ** An entry overwritten *)

Section Stale.
Context {P : Type} {RP : ReplacementPolicy P} {PL : PolicyLaws P} (bits : Z).

Abbreviation cset c a := (set_of (m_start_index_bit c) (m_cache_num_set_bits c) a).

(** Finding a tag whose slot is known. *)
Lemma find_tag h (c : CacheMemory P) a i p e : cache_shape c -> addr_ok bits a -> m_tag_index c !! a = Some i -> 0 <= i ->
  mat_get (m_cache c) (cset c a) i = Ok (Some p) -> h !! p = Some e -> m_Permission e <> AccessPermission_NotPresent ->
  findTagInSet bits h (cset c a) a c = Ok i /\ isTagPresent bits a h c = Ok true /\ lookup bits a h c = Ok (Some p).
Proof.
  intros Hsh Ha Hi Hpos Hs He Hp. pose proof Ha as [_ Hl].
  assert (Hf : findTagInSet bits h (cset c a) a c = Ok i).
  { unfold findTagInSet. rewrite Hl, Hi. cbn [assert_ mbind result_bind]. unfold slot_entry. rewrite Hs.
    cbn [mbind result_bind deref_entry]. rewrite He. cbn [mbind result_bind]. by rewrite decide_False. }
  split; [done|]. unfold isTagPresent, lookup. rewrite Hl, (shape_set bits c a Hsh Ha). cbn [assert_ mbind result_bind]. rewrite Hf.
  cbn [mbind result_bind]. by destruct (Z.eqb_spec i (-1)); [lia|].
Qed.

(** What [allocate] writes, whatever the slot held. *)
Lemma allocate_effect t h (c : CacheMemory P) a i p e0 touch : cache_shape c -> addr_ok bits a -> m_tag_index c !! a = None ->
  0 <= i < m_cache_assoc c -> cacheAvail bits a h c = Ok true -> open_slot (cset c a) h c = Ok (Brk i) -> h !! p = Some e0 ->
  exists e c', allocate bits t a p touch h c = Ok (<[p := e]> h, c') /\ m_Address e = a /\ m_Permission e = AccessPermission_Invalid /\
    cache_shape c' /\ m_tag_index c' = <[a := i]> (m_tag_index c) /\ mat_get (m_cache c') (cset c a) i = Ok (Some p) /\
    m_start_index_bit c' = m_start_index_bit c /\ m_cache_num_set_bits c' = m_cache_num_set_bits c.
Proof.
  intros Hsh Ha Hta Hi Havail Hopen He0. pose proof Ha as [_ Hal].
  destruct (mat_set_total _ _ _ (cset c a) i (Some p) (cs_cells c Hsh) (shape_range c a Hsh) Hi) as (cells & Hcells & Hm & Hget & _).
  set (c1 := with_m_tag_index (<[a := i]> (m_tag_index c)) (with_m_cache cells c)).
  assert (Hsh1 : cache_shape c1) by (destruct Hsh; by split). eexists.
  unfold allocate, isTagPresent. rewrite Hal, (shape_set bits c a Hsh Ha). cbn [assert_ mbind result_bind]. unfold findTagInSet.
  rewrite Hal, Hta. cbn [assert_ mbind result_bind Z.eqb negb]. rewrite Havail. cbn [assert_ mbind result_bind]. rewrite Hopen.
  cbn [mbind result_bind]. rewrite Hcells. cbn [mbind result_bind]. unfold write_entry. cbn [deref_entry]. rewrite He0. cbn [mbind result_bind].
  fold c1. destruct touch; [|by exists c1]. destruct Hsh1 as [Hp Hn Has ? ? ? ? ?].
  destruct (rp_touch_ok (cset c a) i t _ Hp) as (p' & Ht & Hp' & En & Ea & _).
  { rewrite Hn. apply (shape_range c a Hsh). }
  { by rewrite Has. }
  unfold touch_way. rewrite Ht. eexists. do 3 (split; [done|]). split; [|done].
  split; [done | etrans; [exact En | exact Hn] | etrans; [exact Ea | exact Has] | done..].
Qed.

(** An entry that the protocol left [NotPresent] is overwritten by [allocate], but its tag stays.  If the first open
    slot for [a] is the one that line [b] of the same set is recorded in, then after allocating [a] a lookup of [b] finds
    the entry of [a]; and deallocating [b] deletes the entry of [a], after which a lookup of [a] follows a null pointer. *)
Theorem allocate_leaves_stale_tag t h (c : CacheMemory P) a b i p touch :
  cache_shape c -> addr_ok bits a -> addr_ok bits b -> a <> b -> cset c b = cset c a ->
  m_tag_index c !! a = None -> m_tag_index c !! b = Some i -> 0 <= i < m_cache_assoc c ->
  cacheAvail bits a h c = Ok true -> open_slot (cset c a) h c = Ok (Brk i) -> is_Some (h !! p) ->
  exists h1 c1 e h2 c2, allocate bits t a p touch h c = Ok (h1, c1) /\ h1 !! p = Some e /\ m_Address e = a /\
    lookup bits b h1 c1 = Ok (Some p) /\
    deallocate bits b h1 c1 = Ok (h2, c2) /\ h2 !! p = None /\ lookup bits a h2 c2 = Err EIndex.
Proof.
  intros Hsh Ha Hb Hab Hset Hta Htb Hi Havail Hopen [e0 He0]. pose proof Ha as [_ Hal]. pose proof Hb as [_ Hbl].
  destruct (allocate_effect t h c a i p e0 touch Hsh Ha Hta Hi Havail Hopen He0) as (e & c2 & Halloc & Ea & Ep & Hsh2 & Htags & Hcells2 & Hstart & Hnb).
  assert (Hset2 : forall x, cset c2 x = cset c x) by (intros x; by rewrite Hstart, Hnb).
  assert (Hslot : mat_get (m_cache c2) (cset c2 b) i = Ok (Some p)) by by rewrite Hset2, Hset.
  assert (Htb2 : m_tag_index c2 !! b = Some i) by (rewrite Htags; by rewrite lookup_insert_ne).
  destruct (find_tag (<[p := e]> h) c2 b i p e Hsh2 Hb Htb2 ltac:(lia) Hslot) as (Hf & Hpres & Hlook);
    [by rewrite lookup_insert_eq | by rewrite Ep|].
  destruct (mat_set_total _ _ _ (cset c2 b) i None (cs_cells c2 Hsh2) (shape_range c2 b Hsh2)) as (cells3 & Hcells3 & _ & Hget3 & _).
  { destruct (mat_get_range _ _ _ _ _ _ (cs_cells c2 Hsh2) Hslot). lia. }
  exists (<[p := e]> h), c2, e, (delete p (<[p := e]> h)). eexists. split; [done|].
  split; [by rewrite lookup_insert_eq|]. split; [done|]. split; [done|]. split; [|split; [by rewrite lookup_delete_eq|]].
  - unfold deallocate. rewrite Hbl. cbn [assert_ mbind result_bind]. rewrite Hpres, (shape_set bits c2 b Hsh2 Hb). cbn [assert_ mbind result_bind].
    rewrite Hf. cbn [mbind result_bind]. destruct (Z.eqb_spec i (-1)); [lia|]. rewrite Hslot. cbn [mbind result_bind]. by rewrite Hcells3.
  - set (c3 := with_m_tag_index _ _). assert (Hs3 : addressToCacheSet bits a c3 = Ok (cset c2 a)) by exact (shape_set bits c2 a Hsh2 Ha).
    unfold lookup. rewrite Hal, Hs3. cbn [assert_ mbind result_bind]. unfold findTagInSet. rewrite Hal. subst c3. cbn.
    rewrite Htags, lookup_delete_ne, lookup_insert_eq by done. unfold slot_entry. cbn [m_cache with_m_tag_index with_m_cache].
    by rewrite !Hset2, <- Hset, <- (Hset2 b), Hget3.
Qed.
End Stale.

(** ** Examples: four sets of two ways, 64-byte lines *)

Definition ex_params : RubyCacheParams := mkRubyCacheParams 1 1 1 1 6 512 2 false false 0.
Definition ex_policy : LRUPolicy := mkLRUPolicy (mkPolicyBase 4 2 (replicate 4 [0; 0])).
Definition ex_cache : result (CacheMemory LRUPolicy) := c ← CacheMemory_new ex_params ex_policy; init 6 c.

Lemma ex_cache_ok c h : ex_cache = Ok c -> cache_ok 6 h c /\ abs h c = ∅.
Proof.
  unfold ex_cache. intros (c0 & Hn & Hi)%bind_Ok. apply (new_cache_ok 6 ex_params ex_policy h c0 c Hn Hi); cbn; try lia; [|done].
  split; [cbn; lia|]. split; [done|]. by repeat constructor.
Qed.

Definition ex_entry : AbstractCacheEntry := AbstractCacheEntry_new 0 0 0.

(** Two lines of set 0 come in, the first is made writable and is hit; the set is then full. *)
Definition ex_ops : list (Z * cache_op) :=
  [(10, OAllocate 0 1 ex_entry true); (20, OAllocate 256 2 ex_entry true); (30, OChangePermission 0 AccessPermission_Read_Write);
   (40, OTryAccess 0 RubyRequestType_ST); (50, OTryAccess 256 RubyRequestType_LD); (60, OCacheAvail 512); (70, ODeallocate 256);
   (80, OLookup 256); (90, OSetLocked 0 3); (95, OIsLocked 0 3)].

Definition ex_outs : list cache_out :=
  [OutUnit; OutUnit; OutUnit; OutHit true (Some 1); OutHit false None; OutBool false; OutUnit; OutEntry None; OutUnit; OutBool true].

(** The obligations of the protocol along a concrete run. *)
Ltac solve_pre :=
  cbn [ops_pre];
  repeat match goal with
  | |- True => exact I
  | |- op_pre _ _ _ /\ _ =>
      split; [split; [cbn [op_addr]; lia | vm_compute; repeat split; try ((by eexists) || done)] |
        let H := fresh in intros ? ? ? H; vm_compute in H; injection H as <- <- <-]
  end.

Lemma cache_refines_witness : exists c h' c', ex_cache = Ok c /\ run_ops 6 ex_ops ∅ c = Ok (ex_outs, h', c') /\
  abs h' c' = {[0 := mkLine 1 AccessPermission_Read_Write 3]}.
Proof.
  destruct ex_cache as [c|] eqn:E; [|by vm_compute in E]. exists c. destruct (ex_cache_ok c ∅ E) as [Hok Habs].
  assert (Hpre : ops_pre 6 ex_ops ∅ c).
  { vm_compute in E. apply Ok_inj in E. subst c. unfold ex_ops. solve_pre. }
  pose proof (cache_refines 6 ex_ops ∅ c Hok Hpre) as H. rewrite Habs in H.
  assert (Hspec : spec_ops (spec_of 6 c) ex_ops ∅ = Some (ex_outs, {[0 := mkLine 1 AccessPermission_Read_Write 3]})).
  { vm_compute in E. apply Ok_inj in E. subst c. by vm_compute. }
  rewrite Hspec in H. destruct H as (h' & c' & Hr & _ & Ha). by exists h', c'.
Defined.

(** The state in which set 0 holds the lines 0 and 256. *)
Definition ex_full : result (EntryStore * CacheMemory LRUPolicy) :=
  c ← ex_cache;
  '(_, h, c) ← run_ops 6 [(10, OAllocate 0 1 ex_entry true); (20, OAllocate 256 2 ex_entry true)] ∅ c;
  Ok (h, c).

Lemma ex_full_ok h c : ex_full = Ok (h, c) -> cache_ok 6 h c.
Proof.
  intros (c0 & E & ([[outs h1] c1] & Hr & [= <- <-])%bind_Ok)%bind_Ok. destruct (ex_cache_ok c0 ∅ E) as [Hok _].
  eapply run_ops_keep; [exact Hok | | exact Hr]. clear Hr. vm_compute in E. apply Ok_inj in E. subst c0. solve_pre.
Qed.

Lemma cache_replacement_witness : exists h c h1 c1 h2 c2, ex_full = Ok (h, c) /\ cacheProbe 6 512 h c = Ok 0 /\
  deallocate 6 0 h c = Ok (h1, c1) /\ allocate 6 30 512 3 true (<[3 := ex_entry]> h1) c1 = Ok (h2, c2) /\
  abs h2 c2 = {[256 := mkLine 2 AccessPermission_Invalid (-1); 512 := mkLine 3 AccessPermission_Invalid (-1)]}.
Proof.
  destruct ex_full as [[h c]|] eqn:E; [|by vm_compute in E]. exists h, c. pose proof (ex_full_ok h c E) as Hok.
  destruct (cache_replacement 6 30 h c 512 3 ex_entry true Hok) as (v & w & h1 & c1 & h2 & c2 & Hv & _ & _ & _ & Hd & Ha & _ & Habs).
  1: by split; [lia | vm_compute].
  1-3: vm_compute in E; injection E as <- <-; by vm_compute.
  assert (v = 0) as -> by (vm_compute in E; injection E as <- <-; vm_compute in Hv; by injection Hv).
  exists h1, c1, h2, c2. split_and!; [done..|]. rewrite Habs. clear - E. vm_compute in E. injection E as <- <-. by vm_compute.
Defined.

(** The protocol makes entry 1 of line 0 [NotPresent] and brings in line 512, of the same set. *)
Lemma allocate_leaves_stale_tag_witness : exists h (c : CacheMemory LRUPolicy) h1 c1 e h2 c2,
  allocate 6 30 512 3 true h c = Ok (h1, c1) /\ h1 !! 3 = Some e /\ m_Address e = 512 /\ lookup 6 0 h1 c1 = Ok (Some 3) /\
  deallocate 6 0 h1 c1 = Ok (h2, c2) /\ h2 !! 3 = None /\ lookup 6 512 h2 c2 = Err EIndex.
Proof.
  destruct ex_full as [[h c]|] eqn:E; [|by vm_compute in E]. pose proof (co_shape _ _ _ (ex_full_ok h c E)) as Hsh.
  set (h0 := alter (changePermission AccessPermission_NotPresent) 1 (<[3 := ex_entry]> h)).
  destruct (allocate_leaves_stale_tag 6 30 h0 c 512 0 0 3 true Hsh) as (h1 & c1 & e & h2 & c2 & Hrest).
  1-2: by split; [lia | vm_compute].
  1: lia.
  4: vm_compute in E; injection E as <- <-; cbn; lia.
  1-5: vm_compute in E; injection E as <- <-; subst h0; by vm_compute.
  1: vm_compute in E; injection E as <- <-; subst h0; vm_compute; by eexists.
  by exists h0, c, h1, c1, e, h2, c2.
Defined.

(** ** Banks *)

Section Banks.
Context (a : BankedArray) (Hb : 0 < banks a < 2 ^ 32) (Hn : vsize (busyBanks a) = banks a) (Hl : 0 < accessLatency a).

Lemma mapIndexToBank_ok idx : 0 <= idx -> mapIndexToBank idx a = Ok (idx mod banks a) /\ 0 <= idx mod banks a < banks a.
Proof.
  intros Hi. pose proof (Z.mod_pos_bound idx (banks a) ltac:(lia)). split; [|done]. unfold mapIndexToBank.
  destruct (Z.eqb_spec (banks a) 1) as [E|]; [by rewrite E, Z.mod_1_r|]. destruct (Z.eqb_spec (banks a) 0); [lia|].
  rewrite Z.rem_mod_nonneg by lia. by rewrite u32_small by lia.
Qed.

Lemma tryAccess_ok t idx : 0 <= idx ->
  exists r, vec_get (busyBanks a) (idx mod banks a) = Ok r /\ tryAccess t idx a = Ok (endAccess r <? t).
Proof.
  intros Hi. destruct (mapIndexToBank_ok idx Hi) as [Hm Hr]. destruct (vec_get_in_range (busyBanks a) (idx mod banks a)) as [r Hget]; [lia|].
  exists r. split; [done|]. unfold tryAccess. destruct (Z.eqb_spec (accessLatency a) 0); [lia|].
  rewrite Hm. cbn [mbind result_bind]. rewrite (proj2 (Z.ltb_lt _ _)) by lia. cbn [assert_ mbind result_bind]. rewrite Hget.
  cbn [mbind result_bind]. f_equal. destruct (Z.leb_spec t (endAccess r)), (Z.ltb_spec (endAccess r) t); done || lia.
Qed.

(** A reserved bank refuses every access until its latency has passed, and the other banks are not affected. *)
Lemma reserve_blocks_bank period t idx : 0 <= idx -> 0 <= period -> 0 <= t -> t + (accessLatency a - 1) * period < 2 ^ 64 ->
  tryAccess t idx a = Ok true ->
  exists a', reserve period t idx a = Ok a' /\ forall t' idx', 0 <= idx' ->
    tryAccess t' idx' a' = if decide (idx' mod banks a = idx mod banks a) then Ok (t + (accessLatency a - 1) * period <? t')
                           else tryAccess t' idx' a.
Proof.
  intros Hi Hp Ht Hbound Htry. destruct (mapIndexToBank_ok idx Hi) as [Hm Hr].
  destruct (tryAccess_ok t idx Hi) as (r & Hget & Htry'). rewrite Htry in Htry'. injection Htry' as Hfree. symmetry in Hfree.
  apply Z.ltb_lt in Hfree. unfold reserve. destruct (Z.eqb_spec (accessLatency a) 0) as [|Hne]; [lia|]. rewrite Hm. cbn [mbind result_bind].
  rewrite (proj2 (Z.ltb_lt (_ mod _) _)) by lia. cbn [assert_ mbind result_bind]. rewrite Hget. cbn [mbind result_bind].
  rewrite (proj2 (Z.leb_gt t _)) by lia. rewrite (vec_set_Ok_get _ _ _ _ Hget). cbn [mbind result_bind].
  eexists. split; [done|]. intros t' idx' Hi'. destruct (mapIndexToBank_ok idx' Hi') as [Hm' Hr'].
  unfold tryAccess. cbn [accessLatency with_busyBanks busyBanks]. destruct (Z.eqb_spec (accessLatency a) 0); [lia|].
  change (mapIndexToBank idx' (with_busyBanks _ a)) with (mapIndexToBank idx' a). rewrite Hm'. cbn [mbind result_bind banks with_busyBanks].
  rewrite (proj2 (Z.ltb_lt (idx' mod _) _)) by lia. cbn [assert_ mbind result_bind]. destruct (decide _) as [->|Hd].
  - rewrite (vec_get_insert _ _ _ _ Hget). cbn [mbind result_bind endAccess]. f_equal. rewrite u64_small by nia.
    match goal with |- negb (?x <=? ?y) = _ => destruct (Z.leb_spec x y), (Z.ltb_spec y x) end; done || lia.
  - rewrite vec_get_insert_ne by lia. done.
Qed.
End Banks.
