(* ===== verification/RubyTables.v ===== *)
(** * Tables and wires of a Ruby controller

    structures/TBETable.hh, TimerTable.cc, PersistentTable.cc, PerfectCacheMemory.hh, DirectoryMemory.cc, WireBuffer.cc, with
    their theory.  An [unordered_map] is a finite map; the [std::map] of the timer table is a list
    in key order, since the code iterates over it. *)

From stdpp Require Import sorting.
From S2P Require Import Prelude Heap RubySet NetDest NetDestTheory Flit Consumer AddrRange MessageBuffer CacheMemory.
Local Open Scope Z_scope.

(** ** Transaction buffer entries (TBETable.hh) *)

Record TBETable (E : Type) := mkTBETable { tbe_map : gmap Z E; m_number_of_TBEs : Z }.
Arguments mkTBETable {E} _ _.
Arguments tbe_map {E} _.
Arguments m_number_of_TBEs {E} _.

Section TBE.
Context {E : Type} (bits : Z) (ENTRY : E).

(** [m_map.size()], a [size_t] that the code compares with an [int]. *)
Definition tbe_size (t : TBETable E) : Z := Z.of_nat (base.size (tbe_map t)).

Definition tbe_isPresent (address : Z) (t : TBETable E) : result bool :=
  assert_ (is_line bits address) ;;
  assert_ (tbe_size t <=? u64 (m_number_of_TBEs t)) ;;
  Ok (bool_decide (is_Some (tbe_map t !! address))).

Definition tbe_allocate (address : Z) (t : TBETable E) : result (TBETable E) :=
  present ← tbe_isPresent address t;
  assert_ (negb present) ;;
  assert_ (tbe_size t <? u64 (m_number_of_TBEs t)) ;;
  Ok (mkTBETable (<[address := ENTRY]> (tbe_map t)) (m_number_of_TBEs t)).

Definition tbe_deallocate (address : Z) (t : TBETable E) : result (TBETable E) :=
  present ← tbe_isPresent address t;
  assert_ present ;;
  assert_ (0 <? tbe_size t) ;;
  Ok (mkTBETable (delete address (tbe_map t)) (m_number_of_TBEs t)).

Definition tbe_areNSlotsAvailable (n : Z) (t : TBETable E) : bool := u64 n <=? u64 (u64 (m_number_of_TBEs t) - tbe_size t).

Definition tbe_lookup (address : Z) (t : TBETable E) : option E := tbe_map t !! address.

Definition tbe_ok (t : TBETable E) : Prop := tbe_size t <= m_number_of_TBEs t < 2 ^ 31.

Lemma tbe_slots n t : tbe_ok t -> 0 <= n < 2 ^ 31 -> tbe_areNSlotsAvailable n t = true <-> tbe_size t + n <= m_number_of_TBEs t.
Proof.
  intros Ht Hn. unfold tbe_areNSlotsAvailable, tbe_ok, tbe_size in *. rewrite !u64_small by (rewrite ?u64_small; lia). rewrite Z.leb_le. lia.
Qed.

(** A table that reports [n] free slots accepts [n] new lines. *)
Lemma tbe_accepts n l t : tbe_ok t -> 0 <= n < 2 ^ 31 -> tbe_areNSlotsAvailable n t = true ->
  vsize l <= n -> NoDup l -> Forall (fun a => is_line bits a = true /\ tbe_map t !! a = None) l ->
  exists t', foldM (fun t a => tbe_allocate a t) l t = Ok t' /\ tbe_ok t' /\ tbe_size t' = tbe_size t + vsize l /\
    forall a, tbe_lookup a t' = if decide (a ∈ l) then Some ENTRY else tbe_lookup a t.
Proof.
  revert n t. induction l as [|a l IH]; intros n t Ht Hn Hav Hlen Hnd Hall.
  { exists t. split; [done|]. split; [done|]. split; [unfold vsize; cbn [length]; lia|]. intros a. by rewrite decide_False by (apply not_elem_of_nil). }
  apply Forall_cons in Hall as [[Hl Ha] Hall]. apply NoDup_cons in Hnd as [Hnin Hnd]. rewrite tbe_slots in Hav by done.
  assert (Hcons : vsize (a :: l) = 1 + vsize l) by (unfold vsize; cbn [length]; lia). rewrite Hcons in *. pose proof (vsize_nonneg l).
  set (t1 := mkTBETable (<[a := ENTRY]> (tbe_map t)) (m_number_of_TBEs t)).
  assert (Hsz : tbe_size t1 = tbe_size t + 1) by (unfold tbe_size; cbn; rewrite map_size_insert_None by done; lia).
  assert (Hb : 0 <= tbe_size t) by (unfold tbe_size; lia). unfold tbe_ok in *.
  assert (Hone : tbe_allocate a t = Ok t1).
  { unfold tbe_allocate, tbe_isPresent. rewrite Hl. cbn [assert_ mbind result_bind]. rewrite u64_small by lia.
    rewrite (proj2 (Z.leb_le (tbe_size t) _)) by lia. cbn [assert_ mbind result_bind].
    rewrite bool_decide_eq_false_2 by (rewrite Ha; intros [? ?]; done). cbn [negb assert_ mbind result_bind].
    by rewrite (proj2 (Z.ltb_lt (tbe_size t) _)) by lia. }
  destruct (IH (n - 1) t1) as (t' & Hr & Ht' & Hs' & Hlook).
  - unfold tbe_ok. cbn [m_number_of_TBEs t1]. lia.
  - lia.
  - apply tbe_slots; [unfold tbe_ok; cbn [m_number_of_TBEs t1]; lia | lia|]. cbn [m_number_of_TBEs t1]. lia.
  - lia.
  - done.
  - apply Forall_forall. intros b Hin. rewrite Forall_forall in Hall. destruct (Hall b Hin) as [? ?]. split; [done|]. cbn.
    rewrite lookup_insert_ne; [done|]. by intros ->.
  - exists t'. cbn [foldM]. rewrite Hone. cbn [mbind result_bind]. split; [done|]. split; [done|]. split; [lia|].
    intros b. rewrite Hlook. unfold tbe_lookup. cbn. destruct (decide (b ∈ l)) as [Hin|Hin].
    + by rewrite decide_True by by right.
    + rewrite lookup_insert. destruct (decide (a = b)) as [->|Hne]; [by rewrite decide_True by left|].
      rewrite decide_False; [done|]. intros [->|]%elem_of_cons; done.
Qed.
End TBE.

(** ** Timers (TimerTable.cc)

    The table remembers the entry that is ready next, and recomputes it when it is asked for one and has none. *)

Record TimerTable := mkTimerTable {
  tt_map : list (Z * Z);
  m_next_valid : bool;
  m_next_time : Z;
  m_next_address : Z;
  tt_consumer : option ConsumerRef
}.

Definition TimerTable_new : TimerTable := mkTimerTable [] false 0 0 None.

Definition tt_setConsumer (consumer : ConsumerRef) (t : TimerTable) : result TimerTable :=
  match tt_consumer t with
  | Some _ => Err EAssert
  | None => Ok (mkTimerTable (tt_map t) (m_next_valid t) (m_next_time t) (m_next_address t) (Some consumer))
  end.

(** A [std::map] in key order. *)
Fixpoint om_find (a : Z) (l : list (Z * Z)) : option Z :=
  match l with [] => None | (b, v) :: l' => if b =? a then Some v else om_find a l' end.
Fixpoint om_insert (a v : Z) (l : list (Z * Z)) : list (Z * Z) :=
  match l with
  | [] => [(a, v)]
  | (b, w) :: l' => if a <? b then (a, v) :: l else if b =? a then (a, v) :: l' else (b, w) :: om_insert a v l'
  end.
Definition om_erase (a : Z) (l : list (Z * Z)) : list (Z * Z) := filter (fun bv => bv.1 <> a) l.

(** The loop of [updateNext]. *)
Definition scan_next (s : Z * Z) (l : list (Z * Z)) : Z * Z :=
  fold_left (fun '(next_address, next_time) '(a, v) => if v <? next_time then (a, v) else (next_address, next_time)) l s.

Definition updateNext (t : TimerTable) : result TimerTable :=
  match tt_map t with
  | [] => assert_ (negb (m_next_valid t)) ;; Ok t
  | first :: rest =>
      let '(next_address, next_time) := scan_next first rest in
      Ok (mkTimerTable (tt_map t) true next_time next_address (tt_consumer t))
  end.

Definition tt_refresh (t : TimerTable) : result TimerTable := if m_next_valid t then Ok t else updateNext t.

Definition tt_isReady (curTime : Z) (t : TimerTable) : result (bool * TimerTable) :=
  match tt_map t with
  | [] => Ok (false, t)
  | _ => t ← tt_refresh t; assert_ (m_next_valid t) ;; Ok (m_next_time t <=? curTime, t)
  end.

Definition tt_nextAddress (t : TimerTable) : result (Z * TimerTable) :=
  t ← tt_refresh t; assert_ (m_next_valid t) ;; Ok (m_next_address t, t).

Definition tt_isSet (address : Z) (t : TimerTable) : bool := bool_decide (is_Some (om_find address (tt_map t))).

Definition tt_set (bits address ready_time : Z) (t : TimerTable) : result (TimerTable * list Event) :=
  assert_ (is_line bits address) ;;
  assert_ (negb (tt_isSet address t)) ;;
  match tt_consumer t with
  | None => Err EAssert
  | Some c => Ok (mkTimerTable (om_insert address ready_time (tt_map t)) false (m_next_time t) (m_next_address t) (tt_consumer t),
                  [(c, ready_time)])
  end.

Definition tt_unset (bits address : Z) (t : TimerTable) : result TimerTable :=
  assert_ (is_line bits address) ;;
  assert_ (tt_isSet address t) ;;
  Ok (mkTimerTable (om_erase address (tt_map t)) (if address =? m_next_address t then false else m_next_valid t)
        (m_next_time t) (m_next_address t) (tt_consumer t)).

(** *** The reference: a map without a remembered entry *)

Abbreviation Timers := (gmap Z Z).

(** The entry with the least time, the least address among those. *)
Definition earlier (x y : Z * Z) : bool := (x.2 <? y.2) || ((x.2 =? y.2) && (x.1 <=? y.1)).
Definition earliest (m : Timers) : option (Z * Z) :=
  foldr (fun x o => match o with Some y => if earlier x y then Some x else Some y | None => Some x end) None (map_to_list m).

Inductive timer_op := TSet (a t : Z) | TUnset (a : Z) | TIsReady (now : Z) | TNext | TIsSet (a : Z).
Inductive timer_out := TNone | TBool (b : bool) | TAddr (a : Z).

Definition timer_spec (bits : Z) (op : timer_op) (m : Timers) : option (timer_out * Timers) :=
  match op with
  | TSet a t => if is_line bits a then match m !! a with None => Some (TNone, <[a := t]> m) | Some _ => None end else None
  | TUnset a => if is_line bits a then match m !! a with Some _ => Some (TNone, delete a m) | None => None end else None
  | TIsReady now => Some (TBool (match earliest m with Some (_, t) => t <=? now | None => false end), m)
  | TNext => match earliest m with Some (a, _) => Some (TAddr a, m) | None => None end
  | TIsSet a => Some (TBool (bool_decide (is_Some (m !! a))), m)
  end.

Definition timer_code (bits : Z) (op : timer_op) (t : TimerTable) : result (timer_out * TimerTable) :=
  match op with
  | TSet a r => '(t, _) ← tt_set bits a r t; Ok (TNone, t)
  | TUnset a => t ← tt_unset bits a t; Ok (TNone, t)
  | TIsReady now => '(b, t) ← tt_isReady now t; Ok (TBool b, t)
  | TNext => '(a, t) ← tt_nextAddress t; Ok (TAddr a, t)
  | TIsSet a => Ok (TBool (tt_isSet a t), t)
  end.

Fixpoint timer_specs (bits : Z) (ops : list timer_op) (m : Timers) : option (list timer_out) :=
  match ops with
  | [] => Some []
  | op :: ops => '(o, m) ← timer_spec bits op m; os ← timer_specs bits ops m; Some (o :: os)
  end.
Fixpoint timer_codes (bits : Z) (ops : list timer_op) (t : TimerTable) : result (list timer_out) :=
  match ops with
  | [] => Ok []
  | op :: ops => '(o, t) ← timer_code bits op t; os ← timer_codes bits ops t; Ok (o :: os)
  end.

(** *** The order of entries *)

Definition least (x : Z * Z) (m : Timers) : Prop := m !! x.1 = Some x.2 /\ forall a v, m !! a = Some v -> earlier x (a, v) = true.

Lemma earlier_spec x y : earlier x y = true <-> x.2 < y.2 \/ x.2 = y.2 /\ x.1 <= y.1.
Proof. unfold earlier. rewrite orb_true_iff, andb_true_iff, Z.ltb_lt, Z.eqb_eq, Z.leb_le. tauto. Qed.

Lemma least_unique x y m : least x m -> least y m -> x = y.
Proof.
  intros [Hx Hxm] [Hy Hym]. pose proof (Hxm _ _ Hy) as H1. pose proof (Hym _ _ Hx) as H2. apply earlier_spec in H1, H2.
  destruct x, y; cbn in *. f_equal; lia.
Qed.

Lemma earliest_least m : match earliest m with Some x => least x m | None => m = ∅ end.
Proof.
  unfold earliest. assert (H : forall l : list (Z * Z),
    match foldr (fun x o => match o with Some y => if earlier x y then Some x else Some y | None => Some x end) None l with
    | Some x => x ∈ l /\ forall y, y ∈ l -> earlier x y = true | None => l = [] end).
  { induction l as [|x l IH]; [done|]. cbn [foldr]. destruct (foldr _ _ l) as [y|].
    - destruct IH as [Hy Hmin]. destruct (earlier x y) eqn:Exy.
      + split; [by left|]. intros z [->|Hz]%elem_of_cons; [apply earlier_spec; lia|].
        specialize (Hmin z Hz). rewrite earlier_spec in *. lia.
      + split; [by right|]. intros z [->|Hz]%elem_of_cons; [|by apply Hmin]. apply earlier_spec.
        apply not_true_iff_false in Exy. rewrite earlier_spec in Exy. lia.
    - subst l. split; [by left|]. intros z [->|Hz]%elem_of_cons; [apply earlier_spec; lia | by apply elem_of_nil in Hz]. }
  specialize (H (map_to_list m)). destruct (foldr _ _ (map_to_list m)) as [[a v]|].
  - destruct H as [Hin Hmin]. apply elem_of_map_to_list in Hin. split; [done|]. intros b w Hb. apply Hmin. by apply elem_of_map_to_list.
  - by apply map_to_list_empty_iff.
Qed.

(** *** The ordered list as a map *)

Definition by_key (x y : Z * Z) : Prop := x.1 < y.1.
Abbreviation key_sorted := (StronglySorted by_key).

Lemma om_find_map a l : om_find a l = (list_to_map l : Timers) !! a.
Proof.
  induction l as [|[b v] l IH]; [done|]. cbn [om_find list_to_map foldr]. rewrite lookup_insert, IH. cbn.
  destruct (Z.eqb_spec b a), (decide (b = a)); done.
Qed.

Lemma om_insert_map a v l : list_to_map (om_insert a v l) = <[a := v]> (list_to_map l : Timers).
Proof.
  induction l as [|[b w] l IH]; [done|]. cbn [om_insert]. destruct (Z.ltb_spec a b); [done|].
  destruct (Z.eqb_spec b a) as [->|]; cbn; [by rewrite insert_insert_eq|]. rewrite IH. by rewrite insert_insert_ne.
Qed.

Lemma om_erase_map a l : list_to_map (om_erase a l) = delete a (list_to_map l : Timers).
Proof.
  unfold om_erase. induction l as [|[b w] l IH]; [cbn; symmetry; apply delete_empty|]. rewrite filter_cons. cbn [fst].
  destruct (decide (b <> a)) as [Hne|Heq]; rewrite ?list_to_map_cons, IH; [by rewrite delete_insert_ne|].
  apply dec_stable in Heq as ->. by rewrite delete_insert_eq.
Qed.

Lemma om_insert_sorted a v l : key_sorted l -> key_sorted (om_insert a v l).
Proof.
  induction 1 as [|[b w] l Hl IH Hall]; cbn [om_insert]; [by repeat constructor|]. destruct (Z.ltb_spec a b).
  - constructor; [by constructor|]. constructor; [done|]. eapply Forall_impl; [exact Hall|]. unfold by_key. cbn. intros x ?. lia.
  - destruct (Z.eqb_spec b a) as [->|]; [by constructor|]. constructor; [done|]. clear IH Hl.
    induction l as [|[d u] l IH]; cbn [om_insert]; [constructor; [unfold by_key; cbn; lia | done]|].
    apply Forall_cons in Hall as [Hd Hall]. destruct (Z.ltb_spec a d).
    + constructor; [unfold by_key; cbn; lia | by constructor].
    + destruct (Z.eqb_spec d a); constructor; [unfold by_key; cbn; lia | done | done | by apply IH].
Qed.

Lemma om_erase_sorted a l : key_sorted l -> key_sorted (om_erase a l).
Proof.
  unfold om_erase. induction 1 as [|x l Hl IH Hall]; [constructor|]. rewrite filter_cons. destruct (decide _); [|done].
  constructor; [done|]. apply Forall_forall. intros y [_ Hy]%list_elem_of_filter. rewrite Forall_forall in Hall. by apply Hall.
Qed.

Lemma scan_next_least s l : key_sorted (s :: l) -> scan_next s l ∈ s :: l /\ forall y, y ∈ s :: l -> earlier (scan_next s l) y = true.
Proof.
  assert (H : forall l s seen, key_sorted l -> Forall (by_key s) l -> (forall y, y ∈ seen -> earlier s y = true) -> s ∈ seen ->
    let r := scan_next s l in r ∈ seen ++ l /\ forall y, y ∈ seen ++ l -> earlier r y = true).
  { clear. induction l as [|[a v] l IH]; intros [sa sv] seen Hs Hall Hmin Hin; cbn [scan_next fold_left]; [by rewrite app_nil_r|].
    apply StronglySorted_inv in Hs as [Hs Hav]. apply Forall_cons in Hall as [Hsa Hall]. unfold by_key in Hsa. cbn in Hsa.
    specialize (IH (if v <? sv then (a, v) else (sa, sv)) (seen ++ [(a, v)])). rewrite <- app_assoc in IH. apply IH; [done| | |].
    - destruct (v <? sv); done.
    - intros y [Hy| ->%list_elem_of_singleton]%elem_of_app.
      + specialize (Hmin y Hy). destruct (Z.ltb_spec v sv); [|done]. rewrite earlier_spec in *. cbn in *. lia.
      + apply earlier_spec. destruct (Z.ltb_spec v sv); cbn; lia.
    - destruct (v <? sv); [apply elem_of_app; right; by left | apply elem_of_app; by left]. }
  intros [Hs Hall]%StronglySorted_inv. apply (H l s [s]); [done | done | | by left].
  intros y ->%list_elem_of_singleton. apply earlier_spec. lia.
Qed.

(** *** The remembered entry is the earliest *)

Record timers_ok (m : Timers) (t : TimerTable) : Prop := {
  to_sorted : key_sorted (tt_map t);
  to_map : m = list_to_map (tt_map t);
  to_next : m_next_valid t = true -> least (m_next_address t, m_next_time t) m;
  to_consumer : is_Some (tt_consumer t)
}.

Lemma sorted_NoDup_keys l : key_sorted l -> NoDup l.*1.
Proof.
  induction 1 as [|x l Hl IH Hall]; cbn; constructor; [|done]. intros (y & E & Hy)%list_elem_of_fmap.
  rewrite Forall_forall in Hall. specialize (Hall y Hy). unfold by_key in Hall. lia.
Qed.

Lemma tt_refresh_ok m t : timers_ok m t -> m <> ∅ ->
  exists t', tt_refresh t = Ok t' /\ timers_ok m t' /\ m_next_valid t' = true /\ tt_map t' = tt_map t.
Proof.
  intros Ht Hne. pose proof Ht as [Hs Hm Hn Hc]. unfold tt_refresh. destruct (m_next_valid t) eqn:Hv; [by exists t|].
  unfold updateNext. destruct (tt_map t) as [|f l] eqn:El; [by destruct Hne|].
  destruct (scan_next_least f l Hs) as [Hin Hmin]. destruct (scan_next f l) as [a v].
  eexists. split; [done|]. split; [|done]. split; cbn; [done | done | | done]. intros _.
  assert (Hmem : forall b w, m !! b = Some w <-> (b, w) ∈ f :: l).
  { intros b w. rewrite Hm. symmetry. apply elem_of_list_to_map. by apply sorted_NoDup_keys. }
  split; [by apply Hmem|]. intros b w Hb. apply Hmin. by apply Hmem.
Qed.

Lemma next_earliest m t : timers_ok m t -> m_next_valid t = true -> earliest m = Some (m_next_address t, m_next_time t).
Proof.
  intros Ht Hv. pose proof (earliest_least m) as He. pose proof (to_next _ _ Ht Hv) as Hl. destruct (earliest m) as [x|].
  - f_equal. by eapply least_unique.
  - subst m. by destruct Hl as [Hl _].
Qed.

Lemma list_empty_map l : (list_to_map l : Timers) = ∅ <-> l = [].
Proof. split; [|by intros ->]. destruct l as [|[a v] l]; [done|]. rewrite list_to_map_cons. intros E. by apply insert_non_empty in E. Qed.

Lemma timer_step bits op m t : timers_ok m t ->
  match timer_spec bits op m with
  | Some (o, m') => exists t', timer_code bits op t = Ok (o, t') /\ timers_ok m' t'
  | None => timer_code bits op t = Err EAssert
  end.
Proof.
  intros Ht. pose proof Ht as [Hs Hm Hn [c Hc]].
  assert (Hset : forall a, tt_isSet a t = bool_decide (is_Some (m !! a))).
  { intros a. unfold tt_isSet. by rewrite om_find_map, <- Hm. }
  destruct op as [a r|a|now| |a]; cbn [timer_spec timer_code].
  - unfold tt_set. destruct (is_line bits a); [|done]. cbn [assert_ mbind result_bind]. rewrite Hset. destruct (m !! a) eqn:Ha.
    + by rewrite bool_decide_eq_true_2 by by eexists.
    + rewrite bool_decide_eq_false_2 by (by intros [? ?]). cbn [negb assert_ mbind result_bind]. rewrite Hc. eexists. split; [done|].
      split; cbn; [by apply om_insert_sorted | by rewrite om_insert_map, <- Hm | done | by eexists].
  - unfold tt_unset. destruct (is_line bits a); [|done]. cbn [assert_ mbind result_bind]. rewrite Hset. destruct (m !! a) eqn:Ha.
    + rewrite bool_decide_eq_true_2 by by eexists. cbn [assert_ mbind result_bind]. eexists. split; [done|].
      split; cbn; [by apply om_erase_sorted | by rewrite om_erase_map, <- Hm | | by eexists].
      destruct (Z.eqb_spec a (m_next_address t)) as [|Hne]; [done|]. intros Hv. destruct (Hn Hv) as [Hl Hmin]. split; cbn in *.
      * by rewrite lookup_delete_ne.
      * intros b w [_ Hb]%lookup_delete_Some. by apply Hmin.
    + by rewrite bool_decide_eq_false_2 by (by intros [? ?]).
  - unfold tt_isReady. destruct (tt_map t) as [|f l] eqn:El.
    + rewrite Hm. exists t. split; [done|]. by rewrite <- Hm.
    + assert (Hne : m <> ∅) by (rewrite Hm, list_empty_map; done).
      destruct (tt_refresh_ok m t Ht Hne) as (t' & -> & Ht' & Hv & _). cbn [mbind result_bind]. rewrite Hv. cbn [assert_ mbind result_bind].
      rewrite (next_earliest m t' Ht' Hv). by exists t'.
  - pose proof (earliest_least m) as He. destruct (earliest m) as [[a v]|] eqn:Ee.
    + assert (Hne : m <> ∅) by (intros ->; by destruct He).
      destruct (tt_refresh_ok m t Ht Hne) as (t' & E & Ht' & Hv & _). unfold tt_nextAddress. rewrite E. cbn [mbind result_bind]. rewrite Hv.
      pose proof (next_earliest m t' Ht' Hv) as E'. rewrite Ee in E'. injection E' as -> _. by exists t'.
    + assert (El : tt_map t = []) by (apply list_empty_map; by rewrite <- Hm). unfold tt_nextAddress, tt_refresh.
      destruct (m_next_valid t) eqn:Hv; [destruct (Hn eq_refl) as [Hl _]; by rewrite He in Hl|].
      unfold updateNext. rewrite El, Hv. cbn [negb assert_ mbind result_bind]. by rewrite Hv.
  - exists t. by rewrite Hset.
Qed.

(** C36: Remembering the next entry does not change what the timer table answers.  Any sequence of operations on a new
    table with a consumer gives the answers of a map that searches all entries for the earliest each time (the least
    address among those with the least time), and fails an assertion exactly where the map has no answer. *)
Theorem timer_table_equivalent bits ops consumer t : tt_setConsumer consumer TimerTable_new = Ok t ->
  timer_codes bits ops t = match timer_specs bits ops ∅ with Some outs => Ok outs | None => Err EAssert end.
Proof.
  intros [= <-]. assert (H : forall m t, timers_ok m t ->
    timer_codes bits ops t = match timer_specs bits ops m with Some outs => Ok outs | None => Err EAssert end).
  { induction ops as [|op ops IH]; intros m t Ht; [done|]. cbn [timer_codes timer_specs].
    pose proof (timer_step bits op m t Ht) as Hstep. destruct (timer_spec bits op m) as [[o m']|]; cbn [mbind option_bind]; [|by rewrite Hstep].
    destruct Hstep as (t' & -> & Ht'). cbn [mbind result_bind]. rewrite (IH m' t' Ht'). by destruct (timer_specs bits ops m'). }
  apply H. split; cbn; [constructor | done | done | by eexists].
Qed.

Definition ex_timer_ops : list timer_op :=
  [TSet 128 30; TSet 64 20; TSet 0 30; TNext; TIsReady 19; TUnset 64; TNext; TIsReady 30; TUnset 0; TNext; TUnset 128; TIsReady 99].

Lemma timer_table_equivalent_witness : exists t, tt_setConsumer (CRouter 0) TimerTable_new = Ok t /\
  timer_codes 6 ex_timer_ops t =
    Ok [TNone; TNone; TNone; TAddr 64; TBool false; TNone; TAddr 0; TBool true; TNone; TAddr 128; TNone; TBool false].
Proof. eexists. split; [reflexivity|]. rewrite (timer_table_equivalent 6 ex_timer_ops (CRouter 0) _ eq_refl). by vm_compute. Defined.

(** ** Persistent requests (PersistentTable.cc) *)

Inductive AccessType := AccessType_Read | AccessType_Write.

Record PersistentTableEntry := mkPersistentTableEntry { m_starving : NetDest; m_marked : NetDest; m_request_to_write : NetDest }.

Abbreviation PersistentTable := (gmap Z PersistentTableEntry).

Section Persistent.
Context {MT : MachineTypes} (bits : Z).

Definition PersistentTableEntry_new : result PersistentTableEntry :=
  s ← NetDest.resize; m ← NetDest.resize; w ← NetDest.resize; Ok (mkPersistentTableEntry s m w).

Definition persistentRequestLock (address : Z) (locker : MachineID) (type : AccessType) (t : PersistentTable) : result PersistentTable :=
  assert_ (is_line bits address) ;;
  dflt ← PersistentTableEntry_new;
  let present := bool_decide (is_Some (t !! address)) in
  let entry := default dflt (t !! address) in
  (if present then b ← NetDest.isElement (m_starving entry) locker; assert_ (negb b) else Ok tt) ;;
  starving ← NetDest.add locker (m_starving entry);
  writers ← match type with AccessType_Write => NetDest.add locker (m_request_to_write entry) | AccessType_Read => Ok (m_request_to_write entry) end;
  (if present then b ← NetDest.isSubset (m_marked entry) starving; assert_ b else Ok tt) ;;
  Ok (<[address := mkPersistentTableEntry starving (m_marked entry) writers]> t).

Definition persistentRequestUnlock (address : Z) (unlocker : MachineID) (t : PersistentTable) : result PersistentTable :=
  assert_ (is_line bits address) ;;
  match t !! address with
  | None => Err EAssert
  | Some entry =>
      b ← NetDest.isElement (m_starving entry) unlocker;
      assert_ b ;;
      b ← NetDest.isSubset (m_marked entry) (m_starving entry);
      assert_ b ;;
      starving ← NetDest.remove unlocker (m_starving entry);
      marked ← NetDest.remove unlocker (m_marked entry);
      writers ← NetDest.remove unlocker (m_request_to_write entry);
      b ← NetDest.isSubset marked starving;
      assert_ b ;;
      if NetDest.isEmpty starving then assert_ (NetDest.isEmpty marked) ;; Ok (delete address t)
      else Ok (<[address := mkPersistentTableEntry starving marked writers]> t)
  end.

Definition okToIssueStarving (address : Z) (machId : MachineID) (t : PersistentTable) : result bool :=
  assert_ (is_line bits address) ;;
  match t !! address with
  | None => Ok true
  | Some entry => b ← NetDest.isElement (m_starving entry) machId; Ok (if b : bool then false else NetDest.isEmpty (m_marked entry))
  end.

Definition pt_find (address : Z) (t : PersistentTable) : result PersistentTableEntry :=
  assert_ (is_line bits address) ;; match t !! address with Some e => Ok e | None => Err EAssert end.

Definition findSmallest (address : Z) (t : PersistentTable) : result MachineID :=
  entry ← pt_find address t; NetDest.smallestElement (m_starving entry).

Definition typeOfSmallest (address : Z) (t : PersistentTable) : result AccessType :=
  entry ← pt_find address t;
  s ← NetDest.smallestElement (m_starving entry);
  b ← NetDest.isElement (m_request_to_write entry) s;
  Ok (if b : bool then AccessType_Write else AccessType_Read).

Definition markEntries (address : Z) (t : PersistentTable) : result PersistentTable :=
  assert_ (is_line bits address) ;;
  match t !! address with
  | None => Ok t
  | Some entry =>
      assert_ (NetDest.isEmpty (m_marked entry)) ;;
      Ok (<[address := mkPersistentTableEntry (m_starving entry) (m_starving entry) (m_request_to_write entry)]> t)
  end.

Definition pt_isLocked (address : Z) (t : PersistentTable) : result bool :=
  assert_ (is_line bits address) ;; Ok (bool_decide (is_Some (t !! address))).

Definition countStarvingForAddress (address : Z) (t : PersistentTable) : result Z :=
  assert_ (is_line bits address) ;; Ok (match t !! address with Some e => NetDest.count (m_starving e) | None => 0 end).

Definition countReadStarvingForAddress (address : Z) (t : PersistentTable) : result Z :=
  assert_ (is_line bits address) ;;
  Ok (match t !! address with Some e => NetDest.count (m_starving e) - NetDest.count (m_request_to_write e) | None => 0 end).
End Persistent.

(** *** A line is locked exactly while someone starves for it *)

Section PersistentTheory.
Context {MT : MachineTypes} {MTok : MachineTypesOk MT} (bits : Z).

Record pt_entry_ok (e : PersistentTableEntry) : Prop := {
  pe_starving : shaped (m_starving e);
  pe_marked : shaped (m_marked e);
  pe_writers : shaped (m_request_to_write e);
  pe_marked_in : forall m j, nd_member (m_marked e) m j -> nd_member (m_starving e) m j;
  pe_writers_in : forall m j, nd_member (m_request_to_write e) m j -> nd_member (m_starving e) m j;
  pe_some : exists m j, nd_member (m_starving e) m j
}.

Definition pt_ok (t : PersistentTable) : Prop := forall a e, t !! a = Some e -> pt_entry_ok e.

Definition starves (t : PersistentTable) (a m j : Z) : Prop := exists e, t !! a = Some e /\ nd_member (m_starving e) m j.
Definition marks (t : PersistentTable) (a m j : Z) : Prop := exists e, t !! a = Some e /\ nd_member (m_marked e) m j.
Definition writes (t : PersistentTable) (a m j : Z) : Prop := exists e, t !! a = Some e /\ nd_member (m_request_to_write e) m j.

Lemma pt_ok_insert (t : PersistentTable) a e : pt_ok t -> pt_entry_ok e -> pt_ok (<[a := e]> t).
Proof. intros Ht He b e' [[_ <-]|[_ Hb]]%lookup_insert_Some; [done | by apply (Ht b)]. Qed.

(** What an insertion at [a] does to a member predicate of the table. *)
Lemma insert_pred (f : PersistentTableEntry -> NetDest) (t : PersistentTable) a e b m j :
  (exists e', <[a := e]> t !! b = Some e' /\ nd_member (f e') m j) <->
  (a = b /\ nd_member (f e) m j) \/ (a <> b /\ exists e', t !! b = Some e' /\ nd_member (f e') m j).
Proof.
  rewrite lookup_insert. destruct (decide (a = b)) as [->|Hne]; split.
  - intros (e' & [= <-] & Hm). by left.
  - intros [[_ Hm]|[[] _]]; [by exists e | done].
  - intros H. by right.
  - intros [[]|[_ H]]; done.
Qed.

(** The entry an operation works on: the one of the line, or the default one. *)
Lemma entry_view t a z : pt_ok t -> shaped z -> (forall m j, ~ nd_member z m j) ->
  let e := default (mkPersistentTableEntry z z z) (t !! a) in
  shaped (m_starving e) /\ shaped (m_marked e) /\ shaped (m_request_to_write e) /\
  (forall m j, nd_member (m_starving e) m j <-> starves t a m j) /\ (forall m j, nd_member (m_marked e) m j <-> marks t a m j) /\
  (forall m j, nd_member (m_request_to_write e) m j <-> writes t a m j).
Proof.
  intros Ht Hzs Hzn. cbv zeta. unfold starves, marks, writes. destruct (t !! a) as [e|] eqn:Ea; cbn.
  - destruct (Ht a e Ea). split_and!; try done; intros m j; (split; [by exists e | by intros (e' & [= <-] & ?)]).
  - split_and!; try done; intros m j; (split; [by intros ?%Hzn | by intros (e' & ? & _)]).
Qed.

Lemma lock_ok t a x type : pt_ok t -> is_line bits a = true -> machine_ok x -> ~ starves t a (mach_type x) (mach_num x) ->
  exists t' e, persistentRequestLock bits a x type t = Ok t' /\ t' = <[a := e]> t /\ pt_entry_ok e /\
    (forall m j, nd_member (m_starving e) m j <-> (m = mach_type x /\ j = mach_num x) \/ starves t a m j) /\
    (forall m j, nd_member (m_marked e) m j <-> marks t a m j) /\
    (forall m j, nd_member (m_request_to_write e) m j <-> (type = AccessType_Write /\ m = mach_type x /\ j = mach_num x) \/ writes t a m j).
Proof.
  intros Ht Hl Hx Hno. destruct resize_spec as (z & Hz & Hzs & Hzn). unfold persistentRequestLock, PersistentTableEntry_new. rewrite Hl, Hz.
  cbn [assert_ mbind result_bind]. set (dflt := mkPersistentTableEntry z z z). set (e0 := default dflt (t !! a)).
  destruct (entry_view t a z Ht Hzs Hzn) as (Hs & Hm & Hw & HS & HM & HW). fold dflt in Hs, Hm, Hw, HS, HM, HW. fold e0 in Hs, Hm, Hw, HS, HM, HW.
  destruct x as [xm xj]. cbn [mach_type mach_num] in *. destruct Hx as [Hxm Hxj]. cbn in Hxm, Hxj.
  assert (Hguard : (if bool_decide (is_Some (t !! a)) then b ← NetDest.isElement (m_starving e0) (mkMachineID xm xj); assert_ (negb b) else Ok tt) = Ok tt).
  { destruct (bool_decide _); [|done]. destruct (isElement_spec (m_starving e0) (mkMachineID xm xj) Hs (conj Hxm Hxj)) as (b & -> & Hb).
    cbn [mbind result_bind]. destruct b; [|done]. exfalso. apply Hno, HS. by apply Hb. }
  rewrite Hguard. cbn [mbind result_bind]. destruct (add_spec (m_starving e0) xm xj Hs Hxm Hxj) as (s' & Hadd & Hs' & Hsm). rewrite Hadd. cbn [mbind result_bind].
  assert (Hwr : exists w', match type with AccessType_Write => NetDest.add (mkMachineID xm xj) (m_request_to_write e0) | AccessType_Read => Ok (m_request_to_write e0) end = Ok w' /\
    shaped w' /\ forall m j, nd_member w' m j <-> (type = AccessType_Write /\ m = xm /\ j = xj) \/ writes t a m j).
  { destruct type.
    - exists (m_request_to_write e0). split; [done|]. split; [done|]. intros m j. rewrite HW. split; [by right | by intros [[] | ?]].
    - destruct (add_spec (m_request_to_write e0) xm xj Hw Hxm Hxj) as (w' & -> & Hw' & Hwm). exists w'. split; [done|]. split; [done|].
      intros m j. rewrite Hwm, HW. tauto. }
  destruct Hwr as (w' & -> & Hw' & Hwm). cbn [mbind result_bind].
  assert (Hin : forall m j, nd_member (m_marked e0) m j -> nd_member s' m j).
  { intros m j (e & He & Hmj)%HM. apply Hsm. right. apply HS. exists e. split; [done|]. by apply (pe_marked_in e (Ht a e He)). }
  assert (Hguard2 : (if bool_decide (is_Some (t !! a)) then b ← NetDest.isSubset (m_marked e0) s'; assert_ b else Ok tt) = Ok tt).
  { destruct (bool_decide _); [|done]. destruct (isSubset_spec (m_marked e0) s' Hm Hs') as (b & -> & Hb). by rewrite (proj2 Hb Hin). }
  rewrite Hguard2. cbn [mbind result_bind]. eexists _, (mkPersistentTableEntry s' (m_marked e0) w'). split; [done|]. split; [done|]. cbn.
  split; [split; cbn; try done|].
  - intros m j [(_ & -> & ->)|(e & He & Hmj)]%Hwm; apply Hsm; [by left|]. right. apply HS. exists e. split; [done|]. by apply (pe_writers_in e (Ht a e He)).
  - exists xm, xj. apply Hsm. by left.
  - split; [intros m j; by rewrite Hsm, HS|]. split; [done|]. done.
Qed.

Lemma lock_refused t a x type : pt_ok t -> is_line bits a = true -> machine_ok x -> starves t a (mach_type x) (mach_num x) ->
  persistentRequestLock bits a x type t = Err EAssert.
Proof.
  intros Ht Hl Hx (e & He & Hm). destruct resize_spec as (z & Hz & _). unfold persistentRequestLock, PersistentTableEntry_new. rewrite Hl, Hz, He.
  cbn [assert_ mbind result_bind default]. rewrite bool_decide_eq_true_2 by by eexists. destruct (isElement_spec (m_starving e) x) as (b & Hb & Hiff).
  { apply (pe_starving e (Ht a e He)). }
  { done. }
  cbn. rewrite Hb. cbn. by rewrite (proj2 Hiff Hm).
Qed.

Lemma unlock_ok t a x : pt_ok t -> is_line bits a = true -> machine_ok x -> starves t a (mach_type x) (mach_num x) ->
  exists t', persistentRequestUnlock bits a x t = Ok t' /\ pt_ok t' /\ (forall b, b <> a -> t' !! b = t !! b) /\
    (forall m j, starves t' a m j <-> starves t a m j /\ ~ (m = mach_type x /\ j = mach_num x)) /\
    ((forall m j, starves t a m j -> m = mach_type x /\ j = mach_num x) -> t' = delete a t).
Proof.
  intros Ht Hl Hx (e & He & Hmem). destruct (Ht a e He) as [Hs Hm Hw Hmi Hwi Hsome].
  unfold persistentRequestUnlock. rewrite Hl, He. cbn [assert_ mbind result_bind].
  destruct (isElement_spec (m_starving e) x Hs Hx) as (b1 & -> & Hb1). rewrite (proj2 Hb1 Hmem). cbn [assert_ mbind result_bind].
  destruct (isSubset_spec (m_marked e) (m_starving e) Hm Hs) as (b2 & -> & Hb2). rewrite (proj2 Hb2 Hmi). cbn [assert_ mbind result_bind].
  destruct (nd_remove_spec (m_starving e) x Hs Hx) as (s' & -> & Hs' & HS). destruct (nd_remove_spec (m_marked e) x Hm Hx) as (m' & -> & Hm' & HM).
  destruct (nd_remove_spec (m_request_to_write e) x Hw Hx) as (w' & -> & Hw' & HW). cbn [mbind result_bind].
  assert (Hin : forall m j, nd_member m' m j -> nd_member s' m j) by (intros m j [H1 H2]%HM; apply HS; split; [by apply Hmi | done]).
  destruct (isSubset_spec m' s' Hm' Hs') as (b3 & -> & Hb3). rewrite (proj2 Hb3 Hin). cbn [assert_ mbind result_bind].
  assert (HSt : forall m j, starves t a m j <-> nd_member (m_starving e) m j).
  { intros m j. unfold starves. rewrite He. split; [by intros (e' & [= <-] & ?) | by exists e]. }
  destruct (NetDest.isEmpty s') eqn:Hemp.
  - pose proof (proj1 (isEmpty_spec s' Hs') Hemp) as Hnone.
    assert (Hme : NetDest.isEmpty m' = true) by (apply (isEmpty_spec m' Hm'); intros m j ?%Hin; by eapply Hnone).
    rewrite Hme. cbn [assert_ mbind result_bind]. eexists. split; [done|]. split; [|split; [|split; [|done]]].
    + intros b e' [_ Hb]%lookup_delete_Some. by apply (Ht b).
    + intros b Hne. by rewrite lookup_delete_ne.
    + intros m j. unfold starves at 1. rewrite lookup_delete_eq. split; [by intros (? & ? & _)|].
      rewrite HSt. intros H%HS. by apply Hnone in H.
  - eexists. split; [done|]. split; [|split; [|split]].
    + apply pt_ok_insert; [done|]. split; cbn; try done.
      * intros m j [H1 H2]%HW. apply HS. split; [by apply Hwi | done].
      * by apply isEmpty_false.
    + intros b Hne. by rewrite lookup_insert_ne.
    + intros m j. unfold starves at 1. rewrite lookup_insert_eq. rewrite HSt. split; [intros (e' & [= <-] & H); by apply HS | intros H%HS; by eexists].
    + intros Honly. exfalso. apply not_true_iff_false in Hemp. apply Hemp, (isEmpty_spec s' Hs'). intros m j [H1 H2]%HS. apply H2, Honly. by apply HSt.
Qed.

Lemma pt_isLocked_starving t a : pt_ok t -> is_line bits a = true ->
  exists b, pt_isLocked bits a t = Ok b /\ (b = true <-> exists m j, starves t a m j).
Proof.
  intros Ht Hl. unfold pt_isLocked. rewrite Hl. eexists. split; [done|]. rewrite bool_decide_eq_true. split.
  - intros [e He]. destruct (pe_some e (Ht a e He)) as (m & j & Hm). by exists m, j, e.
  - intros (m & j & e & He & _). by eexists.
Qed.

(** A persistent request is locked once and unlocked without trace.  In a table in which every line has someone
    starving for it and the marked and the writing requesters starve, a second lock by the same machine fails an
    assertion; a first one returns, adds this machine to those who starve for the line, and the unlock that follows
    returns and leaves the starving machines of every line as they were; a table that had no entry for the line is
    the same as before. *)
Theorem persistent_roundtrip t a x type : pt_ok t -> is_line bits a = true -> machine_ok x ->
  (starves t a (mach_type x) (mach_num x) -> persistentRequestLock bits a x type t = Err EAssert) /\
  (~ starves t a (mach_type x) (mach_num x) ->
   exists t1 t2, persistentRequestLock bits a x type t = Ok t1 /\ pt_ok t1 /\ pt_isLocked bits a t1 = Ok true /\
     (forall m j, starves t1 a m j <-> (m = mach_type x /\ j = mach_num x) \/ starves t a m j) /\
     persistentRequestUnlock bits a x t1 = Ok t2 /\ pt_ok t2 /\
     (forall b m j, starves t2 b m j <-> starves t b m j) /\ (t !! a = None -> t2 = t)).
Proof.
  intros Ht Hl Hx. split; [by apply lock_refused|]. intros Hno.
  destruct (lock_ok t a x type Ht Hl Hx Hno) as (t1 & e & Hlock & -> & He & HS & _ & _).
  assert (Ht1 : pt_ok (<[a := e]> t)) by by apply pt_ok_insert.
  assert (HS1 : forall m j, starves (<[a := e]> t) a m j <-> (m = mach_type x /\ j = mach_num x) \/ starves t a m j).
  { intros m j. rewrite <- HS. unfold starves. rewrite lookup_insert_eq. split; [by intros (e' & [= <-] & ?) | by exists e]. }
  assert (Hin : starves (<[a := e]> t) a (mach_type x) (mach_num x)) by (apply HS1; by left).
  destruct (pt_isLocked_starving (<[a := e]> t) a Ht1 Hl) as (b & Hb & Hbt).
  destruct (unlock_ok (<[a := e]> t) a x Ht1 Hl Hx Hin) as (t2 & Hun & Ht2 & Hother & HS2 & Hlast).
  exists (<[a := e]> t), t2. split; [done|]. split; [done|]. split; [rewrite Hb; f_equal; apply Hbt; by eexists _, _|]. split; [done|].
  split; [done|]. split; [done|]. split.
  - intros b' m j. destruct (decide (b' = a)) as [->|Hne].
    + rewrite HS2, HS1. split; [intros [[?|?] ?]; [done | done]|]. intros H. split; [by right|]. intros [-> ->]. done.
    + unfold starves. rewrite Hother by done. by rewrite lookup_insert_ne.
  - intros Hnone. rewrite Hlast.
    + rewrite delete_insert_eq. by apply delete_id.
    + intros m j [H|(e' & He' & _)]%HS1; [done|]. congruence.
Qed.
End PersistentTheory.

(** Node 1 has a write lock on line 64; node 3 locks it too, and unlocks. *)
Lemma persistent_roundtrip_witness : exists t t1 t2,
  persistentRequestLock (MT := node_types 4) 6 64 (mkMachineID 0 1) AccessType_Write ∅ = Ok t /\
  persistentRequestLock (MT := node_types 4) 6 64 (mkMachineID 0 3) AccessType_Read t = Ok t1 /\
  persistentRequestUnlock (MT := node_types 4) 6 64 (mkMachineID 0 3) t1 = Ok t2 /\
  forall m j, starves t2 64 m j <-> starves t 64 m j.
Proof.
  pose proof (node_types_ok 4 ltac:(unfold NUMBER_BITS_PER_SET; lia)) as MTok.
  destruct (lock_ok (MT := node_types 4) 6 ∅ 64 (mkMachineID 0 1) AccessType_Write) as (t & e & Hl & -> & He & HS & _).
  { intros a e He. by rewrite lookup_empty in He. }
  { reflexivity. }
  { split; cbn; lia. }
  { intros (e & He & _). by rewrite lookup_empty in He. }
  destruct (persistent_roundtrip (MT := node_types 4) 6 (<[64 := e]> ∅) 64 (mkMachineID 0 3) AccessType_Read) as [_ H].
  { apply pt_ok_insert; [intros a e' He'; by rewrite lookup_empty in He' | done]. }
  { reflexivity. }
  { split; cbn; lia. }
  destruct H as (t1 & t2 & H1 & _ & _ & _ & H2 & _ & HS2 & _).
  { intros (e' & He' & Hm). rewrite lookup_insert_eq in He'. injection He' as <-. apply HS in Hm as [[_ Hm]|(e' & He' & _)]; [done|].
    by rewrite lookup_empty in He'. }
  exists (<[64 := e]> ∅), t1, t2. split; [exact Hl|]. split; [done|]. split; [done|]. intros m j. apply HS2.
Defined.

(** ** Wires (WireBuffer.cc)

    Messages between closely coupled controllers; the queue is popped as a heap but filled without [push_heap]. *)

Record WireBuffer := mkWireBuffer { wb_msg_counter : Z; wb_consumer : option ConsumerRef; m_message_queue : list Message }.

Definition wb_enqueue (message : Message) (current_time delta : Z) (b : WireBuffer) : result (WireBuffer * list Event) :=
  let arrival_time := u64 (current_time + delta) in
  assert_ (current_time <? arrival_time) ;;
  match wb_consumer b with
  | Some c => Ok (mkWireBuffer (u64 (wb_msg_counter b + 1)) (wb_consumer b)
                    (m_message_queue b ++ [with_m_LastEnqueueTime arrival_time message]), [(c, arrival_time)])
  | None => Err EPanic
  end.

Definition wb_isReady (current_time : Z) (b : WireBuffer) : bool :=
  match m_message_queue b with m :: _ => m_LastEnqueueTime m <=? current_time | [] => false end.

Definition wb_peek (b : WireBuffer) : result Message := match m_message_queue b with m :: _ => Ok m | [] => Err EIndex end.

Definition wb_dequeue (current_time : Z) (b : WireBuffer) : result WireBuffer :=
  assert_ (wb_isReady current_time b) ;;
  Ok (mkWireBuffer (wb_msg_counter b) (wb_consumer b) (pop_back (pop_heap msg_greater (m_message_queue b)))).

Definition wb_recycle (current_time recycle_latency : Z) (b : WireBuffer) : result (WireBuffer * list Event) :=
  assert_ (wb_isReady current_time b) ;;
  node ← wb_peek b;
  let future_time := u64 (current_time + recycle_latency) in
  let l := push_heap msg_greater (set_back (with_m_LastEnqueueTime future_time node) (pop_heap msg_greater (m_message_queue b))) in
  match wb_consumer b with
  | Some c => Ok (mkWireBuffer (wb_msg_counter b) (wb_consumer b) l, [(c, future_time)])
  | None => Err EIndex
  end.

(** Without [push_heap] the queue stays a heap only if no message in it is later than the new one. *)
Lemma wb_enqueue_heap m t delta b b' evs : wb_enqueue m t delta b = Ok (b', evs) -> is_heap msg_greater (m_message_queue b) ->
  (forall q, q ∈ m_message_queue b -> msg_greater q (with_m_LastEnqueueTime (u64 (t + delta)) m) = false) ->
  is_heap msg_greater (m_message_queue b').
Proof.
  unfold wb_enqueue. intros H Hh Hlate. inv_ok. destruct (wb_consumer b); [|done]. inv_ok. cbn. intros i p v Hi Hp Hv.
  apply lookup_app_Some in Hv as [Hv|[Hlen Hv]].
  - apply (Hh i p v Hi); [|done]. apply lookup_app_Some in Hp as [Hp|[Hlen _]]; [done|]. apply lookup_lt_Some in Hv.
    pose proof (parent_lt i Hi). lia.
  - apply list_lookup_singleton_Some in Hv as [Hv <-]. pose proof (parent_lt i Hi).
    apply lookup_app_Some in Hp as [Hp|[Hl _]]; [|lia]. apply Hlate. by eapply list_elem_of_lookup_2.
Qed.

(** The header promises that messages cannot be reordered on a wire.  Three messages that arrive at the same tick leave
    in another order than they were sent: the heap orders them by the counters they got from earlier buffers. *)
Definition wire_msg (counter p : Z) : Message := mkMessage 0 0 0 counter (mkNetDest []) MessageSizeType_Control p.

Lemma wire_reorders : exists b1 b2 b3 b4 b5 e1 e2 e3,
  wb_enqueue (wire_msg 1 10) 0 5 (mkWireBuffer 0 (Some (CRouter 0)) []) = Ok (b1, e1) /\
  wb_enqueue (wire_msg 9 11) 0 5 b1 = Ok (b2, e2) /\ wb_enqueue (wire_msg 5 12) 0 5 b2 = Ok (b3, e3) /\
  payload <$> wb_peek b3 = Ok 10 /\ wb_dequeue 5 b3 = Ok b4 /\ payload <$> wb_peek b4 = Ok 12 /\
  wb_dequeue 5 b4 = Ok b5 /\ payload <$> wb_peek b5 = Ok 11.
Proof. do 8 eexists. repeat (split; [vm_compute; reflexivity|]). by vm_compute. Qed.

(** ** The cache without limits (PerfectCacheMemory.hh)

    A new line has the permission [AccessPermission_NUM], [None] here. *)

Section Perfect.
Context {E : Type} (bits : Z) (ENTRY : E).

Abbreviation PerfectCacheMemory := (gmap Z (option AccessPermission * E)).

Definition pc_isTagPresent (address : Z) (m : PerfectCacheMemory) : bool := bool_decide (is_Some (m !! makeLineAddress bits address)).
Definition pc_cacheAvail (address : Z) (m : PerfectCacheMemory) : bool := true.
Definition pc_allocate (address : Z) (m : PerfectCacheMemory) : PerfectCacheMemory :=
  <[makeLineAddress bits address := (Some AccessPermission_Invalid, ENTRY)]> m.
Definition pc_deallocate (address : Z) (m : PerfectCacheMemory) : PerfectCacheMemory := delete (makeLineAddress bits address) m.
Definition pc_cacheProbe (newAddress : Z) : result Z := Err EPanic.

(** [m_map[a]] makes a default line where there is none. *)
Definition pc_at (a : Z) (m : PerfectCacheMemory) : (option AccessPermission * E) * PerfectCacheMemory :=
  match m !! a with Some l => (l, m) | None => ((None, ENTRY), <[a := (None, ENTRY)]> m) end.

Definition pc_lookup (address : Z) (m : PerfectCacheMemory) : E * PerfectCacheMemory :=
  let '(l, m) := pc_at (makeLineAddress bits address) m in (l.2, m).
Definition pc_changePermission (address : Z) (new_perm : AccessPermission) (m : PerfectCacheMemory) : PerfectCacheMemory :=
  let line_address := makeLineAddress bits address in
  let '(l, m) := pc_at line_address m in <[line_address := (Some new_perm, l.2)]> m.

(** Looking a line up brings it into the cache. *)
Lemma pc_lookup_inserts address m : pc_isTagPresent address (pc_lookup address m).2 = true.
Proof.
  unfold pc_lookup, pc_at, pc_isTagPresent. apply bool_decide_eq_true. destruct (m !! makeLineAddress bits address) eqn:El; cbn; [by eexists|].
  rewrite lookup_insert_eq. by eexists.
Qed.
End Perfect.

(** ** The directory (DirectoryMemory.cc) *)

Record DirectoryMemory := mkDirectoryMemory {
  m_entries : list (option Z);
  m_size_bytes : Z;
  m_size_bits : Z;
  m_num_entries : Z;
  addrRanges : list AddrRange
}.

(** [floorLog2] on 64 bits. *)
Definition floorLog2_64 (x : Z) : result Z :=
  assert_ (0 <? x) ;;
  let '(x, y) := log_step 0xffffffff00000000 32 (x, 0) in
  z ← floorLog2 x; Ok (y + z).

Section Directory.
Context (bits : Z).

Definition DirectoryMemory_new (ranges : list AddrRange) : result DirectoryMemory :=
  let size_bytes := foldl (fun n r => u64 (n + AddrRange.size r)) 0 ranges in
  size_bits ← floorLog2_64 size_bytes;
  Ok (mkDirectoryMemory [] size_bytes size_bits 0 ranges).

Definition dir_init (d : DirectoryMemory) : DirectoryMemory :=
  let n := m_size_bytes d `div` 2 ^ bits in
  mkDirectoryMemory (replicate (Z.to_nat n) None) (m_size_bytes d) (m_size_bits d) n (addrRanges d).

Fixpoint dir_contains (rs : list AddrRange) (address : Z) : result bool :=
  match rs with
  | [] => Ok false
  | r :: rs => b ← contains r address; if b : bool then Ok true else dir_contains rs address
  end.
Definition dir_isPresent (address : Z) (d : DirectoryMemory) : result bool := dir_contains (addrRanges d) address.

Fixpoint local_offset (rs : list AddrRange) (address ret : Z) : result Z :=
  match rs with
  | [] => Ok ret
  | r :: rs =>
      b ← contains r address;
      if b : bool then o ← AddrRange.getOffset r address; Ok (u64 (ret + o)) else local_offset rs address (u64 (ret + AddrRange.size r))
  end.
Definition mapAddressToLocalIdx (address : Z) (d : DirectoryMemory) : result Z :=
  ret ← local_offset (addrRanges d) address 0; Ok (Z.shiftr ret bits).

(** The index of an address, with the two assertions of [lookup] and [allocate]. *)
Definition dir_index (address : Z) (d : DirectoryMemory) : result Z :=
  present ← dir_isPresent address d;
  assert_ present ;;
  idx ← mapAddressToLocalIdx address d;
  assert_ (idx <? m_num_entries d) ;; Ok idx.

Definition dir_lookup (address : Z) (d : DirectoryMemory) : result (option Z) := idx ← dir_index address d; vec_get (m_entries d) idx.

(** [perms] is the permission of every entry object. *)
Definition dir_allocate (address entry : Z) (perms : gmap Z AccessPermission) (d : DirectoryMemory)
  : result (gmap Z AccessPermission * DirectoryMemory) :=
  idx ← dir_index address d;
  _ ← match perms !! entry with Some p => Ok p | None => Err EIndex end;
  es ← vec_set (m_entries d) idx (Some entry);
  Ok (<[entry := AccessPermission_Read_Only]> perms, mkDirectoryMemory es (m_size_bytes d) (m_size_bits d) (m_num_entries d) (addrRanges d)).

(** What was allocated is found again, at every address of the same block and at no other. *)
Lemma dir_allocate_lookup a p perms d perms' d' : dir_allocate a p perms d = Ok (perms', d') ->
  exists i, dir_index a d = Ok i /\
    forall b, dir_lookup b d' = idx ← dir_index b d; if idx =? i then Ok (Some p) else vec_get (m_entries d) idx.
Proof.
  unfold dir_allocate. intros H. inv_ok. destruct (perms !! p); inv_ok. rename select (dir_index a d = _) into Ha. eexists. split; [exact Ha|].
  intros b. rename select (vec_set _ _ _ = _) into Hset. apply vec_set_Ok in Hset as [Hr ->]. unfold dir_lookup.
  match goal with |- context [dir_index b ?d'] => change (dir_index b d') with (dir_index b d) end.
  destruct (dir_index b d) as [i|] eqn:Hb; [|done]. cbn [mbind result_bind m_entries]. destruct (Z.eqb_spec i x) as [->|Hne].
  - by rewrite vec_get_insert_eq.
  - rewrite vec_get_insert_ne; [done | lia | congruence].
Qed.
End Directory.
