(* ===== verification/Prefetcher.v ===== *)
(** * The stream prefetcher (structures/Prefetcher.cc)

    Misses train three filters, for ascending, descending and other strides; a filter entry that
    is hit often enough makes a stream, which asks the controller for the lines ahead.  A pointer
    to a stream is its position in [m_array].  What the controller is asked for through
    [enqueuePrefetch] is appended to [pf_requests]; [cur] is its current cycle.  The constructor
    of [PrefetchEntry] leaves address and type unset; the code reads them of valid streams only.
    [bits] is RubySystem's [getBlockSizeBits()].  Products of [int]s that overflow wrap. *)

From S2P Require Import Prelude AddrRange Replacement CacheMemory.
Local Open Scope Z_scope.

Definition MAX_PF_INFLIGHT : nat := 8.

Record PrefetchEntry := mkPrefetchEntry {
  m_address : Z;
  m_stride : Z;
  m_use_time : Z;
  m_is_valid : bool;
  m_type : RubyRequestType;
  requestIssued : list bool;
  requestCompleted : list bool
}.

Definition with_m_address (v : Z) (r : PrefetchEntry) : PrefetchEntry :=
  mkPrefetchEntry v (m_stride r) (m_use_time r) (m_is_valid r) (m_type r) (requestIssued r) (requestCompleted r).
Definition with_m_use_time (v : Z) (r : PrefetchEntry) : PrefetchEntry :=
  mkPrefetchEntry (m_address r) (m_stride r) v (m_is_valid r) (m_type r) (requestIssued r) (requestCompleted r).
Definition with_m_is_valid (v : bool) (r : PrefetchEntry) : PrefetchEntry :=
  mkPrefetchEntry (m_address r) (m_stride r) (m_use_time r) v (m_type r) (requestIssued r) (requestCompleted r).

(** A filter for one direction: table, hit counters and the entry to be replaced next. *)
Record UnitFilter := mkUnitFilter { uf_table : list Z; uf_hit : list Z; uf_index : Z }.

Record NonunitFilter := mkNonunitFilter {
  m_nonunit_filter : list Z;
  m_nonunit_stride : list Z;
  m_nonunit_hit : list Z;
  m_nonunit_index : Z
}.

Record PrefetchStats := mkPrefetchStats {
  numMissObserved : Z;
  numAllocatedStreams : Z;
  numPrefetchRequested : Z;
  numHits : Z;
  numPartialHits : Z;
  numPagesCrossed : Z;
  numMissedPrefetchedBlocks : Z
}.

Definition with_numMissObserved (v : Z) (r : PrefetchStats) : PrefetchStats :=
  mkPrefetchStats v (numAllocatedStreams r) (numPrefetchRequested r) (numHits r) (numPartialHits r) (numPagesCrossed r) (numMissedPrefetchedBlocks r).
Definition with_numAllocatedStreams (v : Z) (r : PrefetchStats) : PrefetchStats :=
  mkPrefetchStats (numMissObserved r) v (numPrefetchRequested r) (numHits r) (numPartialHits r) (numPagesCrossed r) (numMissedPrefetchedBlocks r).
Definition with_numPrefetchRequested (v : Z) (r : PrefetchStats) : PrefetchStats :=
  mkPrefetchStats (numMissObserved r) (numAllocatedStreams r) v (numHits r) (numPartialHits r) (numPagesCrossed r) (numMissedPrefetchedBlocks r).
Definition with_numHits (v : Z) (r : PrefetchStats) : PrefetchStats :=
  mkPrefetchStats (numMissObserved r) (numAllocatedStreams r) (numPrefetchRequested r) v (numPartialHits r) (numPagesCrossed r) (numMissedPrefetchedBlocks r).
Definition with_numPartialHits (v : Z) (r : PrefetchStats) : PrefetchStats :=
  mkPrefetchStats (numMissObserved r) (numAllocatedStreams r) (numPrefetchRequested r) (numHits r) v (numPagesCrossed r) (numMissedPrefetchedBlocks r).
Definition with_numPagesCrossed (v : Z) (r : PrefetchStats) : PrefetchStats :=
  mkPrefetchStats (numMissObserved r) (numAllocatedStreams r) (numPrefetchRequested r) (numHits r) (numPartialHits r) v (numMissedPrefetchedBlocks r).
Definition with_numMissedPrefetchedBlocks (v : Z) (r : PrefetchStats) : PrefetchStats :=
  mkPrefetchStats (numMissObserved r) (numAllocatedStreams r) (numPrefetchRequested r) (numHits r) (numPartialHits r) (numPagesCrossed r) v.

Record PrefetcherParams := mkPrefetcherParams {
  m_num_streams : Z;
  m_train_misses : Z;
  m_num_startup_pfs : Z;
  m_num_unit_filters : Z;
  m_num_nonunit_filters : Z;
  m_prefetch_cross_pages : bool;
  m_page_shift : Z
}.

Record Prefetcher := mkPrefetcher {
  pf_params : PrefetcherParams;
  m_array : list PrefetchEntry;
  m_unit_filter : UnitFilter;
  m_negative_filter : UnitFilter;
  m_nonunit : NonunitFilter;
  pf_stats : PrefetchStats;
  pf_requests : list (Z * RubyRequestType)
}.

Definition with_m_array (v : list PrefetchEntry) (r : Prefetcher) : Prefetcher :=
  mkPrefetcher (pf_params r) v (m_unit_filter r) (m_negative_filter r) (m_nonunit r) (pf_stats r) (pf_requests r).
Definition with_m_unit_filter (v : UnitFilter) (r : Prefetcher) : Prefetcher :=
  mkPrefetcher (pf_params r) (m_array r) v (m_negative_filter r) (m_nonunit r) (pf_stats r) (pf_requests r).
Definition with_m_negative_filter (v : UnitFilter) (r : Prefetcher) : Prefetcher :=
  mkPrefetcher (pf_params r) (m_array r) (m_unit_filter r) v (m_nonunit r) (pf_stats r) (pf_requests r).
Definition with_m_nonunit (v : NonunitFilter) (r : Prefetcher) : Prefetcher :=
  mkPrefetcher (pf_params r) (m_array r) (m_unit_filter r) (m_negative_filter r) v (pf_stats r) (pf_requests r).
Definition with_pf_stats (v : PrefetchStats) (r : Prefetcher) : Prefetcher :=
  mkPrefetcher (pf_params r) (m_array r) (m_unit_filter r) (m_negative_filter r) (m_nonunit r) v (pf_requests r).
Definition with_pf_requests (v : list (Z * RubyRequestType)) (r : Prefetcher) : Prefetcher :=
  mkPrefetcher (pf_params r) (m_array r) (m_unit_filter r) (m_negative_filter r) (m_nonunit r) (pf_stats r) v.

Section Prefetcher.
Context (bits : Z).

Definition PrefetchEntry_new : PrefetchEntry :=
  mkPrefetchEntry 0 (2 ^ bits) 0 false RubyRequestType_LD (replicate MAX_PF_INFLIGHT false) (replicate MAX_PF_INFLIGHT false).

Definition UnitFilter_new (n : Z) : UnitFilter := mkUnitFilter (replicate (Z.to_nat n) 0) (replicate (Z.to_nat n) 0) 0.

Definition Prefetcher_new (p : PrefetcherParams) : result Prefetcher :=
  assert_ (0 <? m_num_streams p) ;;
  assert_ (m_num_startup_pfs p <=? Z.of_nat MAX_PF_INFLIGHT) ;;
  let zeroes := replicate (Z.to_nat (m_num_nonunit_filters p)) 0 in
  Ok (mkPrefetcher p (replicate (Z.to_nat (m_num_streams p)) PrefetchEntry_new)
        (UnitFilter_new (m_num_unit_filters p)) (UnitFilter_new (m_num_unit_filters p))
        (mkNonunitFilter zeroes zeroes zeroes 0) (mkPrefetchStats 0 0 0 0 0 0 0) []).

Definition pageAddress (addr : Z) (p : PrefetcherParams) : Z := maskLowOrderBits addr (m_page_shift p).

Definition on_pf_stats (f : PrefetchStats -> PrefetchStats) (p : Prefetcher) : Prefetcher := with_pf_stats (f (pf_stats p)) p.

Definition cross_page (p : Prefetcher) : Prefetcher := on_pf_stats (fun s => with_numPagesCrossed (numPagesCrossed s + 1) s) p.

Definition enqueuePrefetch (line_addr : Z) (type : RubyRequestType) (p : Prefetcher) : Prefetcher :=
  with_pf_requests (pf_requests p ++ [(line_addr, type)]) p.

(** ** Streams *)

(** An unused stream, or the least recently used one. *)
Definition getLRUindex (p : Prefetcher) : result Z :=
  first ← vec_get (m_array p) 0;
  c ← for_ctl (Z.to_nat (m_num_streams (pf_params p))) 0 (fun i '((lru_index, lru_access) : Z * Z) =>
        e ← vec_get (m_array p) i;
        Ok (if m_is_valid e then
              if m_use_time e <? lru_access then Cont (i, m_use_time e) else Cont (lru_index, lru_access)
            else Brk i)) (0, m_use_time first);
  Ok (match c with Brk i => i | Cont (lru_index, _) => lru_index end).

(** The prefetches of a stream that may be outstanding are compared with the address.  The output argument [index]
    of the code is never written and stays 0. *)
Definition stream_match (address startup : Z) (e : PrefetchEntry) : result bool :=
  c ← for_ctl (Z.to_nat startup) 0 (fun j (_ : unit) =>
        Ok (if makeNextStrideAddress bits (m_address e) (i32 (- i32 (m_stride e * j))) =? address then Brk tt else Cont tt)) tt;
  Ok (match c with Brk _ => true | Cont _ => false end).

Definition getPrefetchEntry (address : Z) (p : Prefetcher) : result (option Z) :=
  c ← for_ctl (Z.to_nat (m_num_streams (pf_params p))) 0 (fun i (_ : unit) =>
        e ← vec_get (m_array p) i;
        if m_is_valid e then
          found ← stream_match address (m_num_startup_pfs (pf_params p)) e;
          Ok (if found : bool then Brk i else Cont tt)
        else Ok (Cont tt)) tt;
  Ok (match c with Brk i => Some i | Cont _ => None end).

(** One prefetch at the start of a stream; [Brk] is the return at a page boundary. *)
Definition startup_prefetch (index stride page_addr : Z) (type : RubyRequestType) (s : Z * Prefetcher)
  : result (ctl (Z * Prefetcher) Prefetcher) :=
  let '(line_addr, p) := s in
  let line_addr' := makeNextStrideAddress bits line_addr stride in
  let crossed := negb (page_addr =? pageAddress line_addr' (pf_params p)) in
  let p1 := if crossed then cross_page p else p in
  if crossed && negb (m_prefetch_cross_pages (pf_params p)) then
    array ← vec_modify (m_array p1) index (with_m_is_valid false);
    Ok (Brk (with_m_array array p1))
  else
    let p2 := on_pf_stats (fun s => with_numPrefetchRequested (numPrefetchRequested s + 1) s) p1 in
    Ok (Cont (line_addr', enqueuePrefetch line_addr' type p2)).

Definition initializeStream (cur address stride index : Z) (type : RubyRequestType) (p : Prefetcher) : result Prefetcher :=
  let p0 := on_pf_stats (fun s => with_numAllocatedStreams (numAllocatedStreams s + 1) s) p in
  let line_addr := makeLineAddress bits address in
  array ← vec_modify (m_array p0) index (fun e =>
            mkPrefetchEntry line_addr stride cur true type (requestIssued e) (requestCompleted e));
  let page_addr := pageAddress line_addr (pf_params p) in
  c ← for_ctl (Z.to_nat (m_num_startup_pfs (pf_params p))) 0 (fun _ => startup_prefetch index stride page_addr type)
        (makeLineAddress bits line_addr, with_m_array array p0);
  match c with
  | Brk p' => Ok p'
  | Cont (line_addr', p') => array' ← vec_modify (m_array p') index (with_m_address line_addr'); Ok (with_m_array array' p')
  end.

Definition issueNextPrefetch (cur address : Z) (stream : option Z) (p : Prefetcher) : result Prefetcher :=
  found ← (match stream with Some i => Ok (Some i) | None => getPrefetchEntry address p end);
  match found with
  | None => Ok p
  | Some i =>
      e ← vec_get (m_array p) i;
      let page_addr := pageAddress (m_address e) (pf_params p) in
      let line_addr := makeNextStrideAddress bits (m_address e) (m_stride e) in
      let crossed := negb (page_addr =? pageAddress line_addr (pf_params p)) in
      let p1 := if crossed then cross_page p else p in
      if crossed && negb (m_prefetch_cross_pages (pf_params p)) then
        array ← vec_set (m_array p1) i (with_m_is_valid false e);
        Ok (with_m_array array p1)
      else
        array ← vec_set (m_array p1) i (with_m_use_time cur (with_m_address line_addr e));
        Ok (enqueuePrefetch line_addr (m_type e) (with_m_array array p1))
  end.

Definition observePfMiss (cur address : Z) (p : Prefetcher) : result Prefetcher :=
  issueNextPrefetch cur address None (on_pf_stats (fun s => with_numPartialHits (numPartialHits s + 1) s) p).

Definition observePfHit (cur address : Z) (p : Prefetcher) : result Prefetcher :=
  issueNextPrefetch cur address None (on_pf_stats (fun s => with_numHits (numHits s + 1) s) p).

(** ** Filters *)

(** Returns whether the address was found and whether a stream is to be allocated. *)
Definition accessUnitFilter (address stride : Z) (p : PrefetcherParams) (f : UnitFilter) : result (bool * bool * UnitFilter) :=
  let line_addr := makeLineAddress bits address in
  c ← for_ctl (Z.to_nat (m_num_unit_filters p)) 0 (fun i (_ : unit) =>
        x ← vec_get (uf_table f) i; Ok (if x =? line_addr then Brk i else Cont tt)) tt;
  match c with
  | Brk i =>
      table ← vec_modify (uf_table f) i (fun x => makeNextStrideAddress bits x stride);
      hits ← vec_modify (uf_hit f) i (fun n => u32 (n + 1));
      n ← vec_get hits i;
      Ok (true, m_train_misses p <=? n, mkUnitFilter table hits (uf_index f))
  | Cont _ =>
      let local_index := i32 (uf_index f) in
      table ← vec_set (uf_table f) local_index (makeNextStrideAddress bits line_addr stride);
      hits ← vec_set (uf_hit f) local_index 0;
      let local_index := local_index + 1 in
      Ok (false, false, mkUnitFilter table hits (if m_num_unit_filters p <=? local_index then 0 else local_index))
  end.

Definition clearNonunitEntry (index : Z) (f : NonunitFilter) : result NonunitFilter :=
  filter ← vec_set (m_nonunit_filter f) index 0;
  stride ← vec_set (m_nonunit_stride f) index 0;
  hit ← vec_set (m_nonunit_hit f) index 0;
  Ok (mkNonunitFilter filter stride hit (m_nonunit_index f)).

(** The entry [i] is of the page of the address: the distance [delta] is not 0 and is compared with the last one.
    The stride of a new stream is a quotient of unsigned numbers. *)
Definition nonunit_hit (line_addr delta i : Z) (p : PrefetcherParams) (f : NonunitFilter) : result (option Z * NonunitFilter) :=
  last ← vec_get (m_nonunit_stride f) i;
  '(stride, f1) ←
    (if delta =? last then
       hits ← vec_modify (m_nonunit_hit f) i (fun n => u32 (n + 1));
       n ← vec_get hits i;
       let f' := mkNonunitFilter (m_nonunit_filter f) (m_nonunit_stride f) hits (m_nonunit_index f) in
       if m_train_misses p <? n then
         f'' ← clearNonunitEntry i f'; Ok (Some (i32 (u32 last `div` 2 ^ bits)), f'')
       else Ok (None, f')
     else
       hits ← vec_set (m_nonunit_hit f) i 0;
       Ok (None, mkNonunitFilter (m_nonunit_filter f) (m_nonunit_stride f) hits (m_nonunit_index f)));
  strides ← vec_set (m_nonunit_stride f1) i delta;
  filter ← vec_set (m_nonunit_filter f1) i line_addr;
  Ok (stride, mkNonunitFilter filter strides (m_nonunit_hit f1) (m_nonunit_index f1)).

Definition nonunit_enter (line_addr : Z) (p : PrefetcherParams) (f : NonunitFilter) : result NonunitFilter :=
  let i := m_nonunit_index f in
  filter ← vec_set (m_nonunit_filter f) i line_addr;
  stride ← vec_set (m_nonunit_stride f) i 0;
  hit ← vec_set (m_nonunit_hit f) i 0;
  let i' := u32 (i + 1) in
  Ok (mkNonunitFilter filter stride hit (if m_num_nonunit_filters p <=? i' then 0 else i')).

(** Returns whether the address was found, and the stride of the stream to be allocated, if any. *)
Definition accessNonunitFilter (address : Z) (p : PrefetcherParams) (f : NonunitFilter) : result (bool * option Z * NonunitFilter) :=
  let page_addr := pageAddress address p in
  let line_addr := makeLineAddress bits address in
  c ← for_ctl (Z.to_nat (m_num_nonunit_filters p)) 0 (fun i (_ : unit) =>
        x ← vec_get (m_nonunit_filter f) i; Ok (if pageAddress x p =? page_addr then Brk (i, x) else Cont tt)) tt;
  match c with
  | Brk (i, x) =>
      let delta := i32 (u64 (line_addr - x)) in
      if delta =? 0 then Ok (false, None, f)
      else '(stride, f') ← nonunit_hit line_addr delta i p f; Ok (true, stride, f')
  | Cont _ => f' ← nonunit_enter line_addr p f; Ok (false, None, f')
  end.

(** ** Misses *)

Definition allocateStream (cur line_addr stride : Z) (type : RubyRequestType) (p : Prefetcher) : result Prefetcher :=
  index ← getLRUindex p; initializeStream cur line_addr stride index type p.

(** The address is one that a stream has prefetched. *)
Definition miss_on_stream (cur line_addr i : Z) (p : Prefetcher) : result Prefetcher :=
  e ← vec_get (m_array p) i;
  issued ← vec_get (requestIssued e) 0;
  if issued : bool then
    completed ← vec_get (requestCompleted e) 0;
    if completed : bool then
      Ok (on_pf_stats (fun s => with_numMissedPrefetchedBlocks (numMissedPrefetchedBlocks s + 1) s) p)
    else observePfHit cur line_addr (on_pf_stats (fun s => with_numPartialHits (numPartialHits s + 1) s) p)
  else Ok p.

Definition miss_nonunit (cur address : Z) (type : RubyRequestType) (p : Prefetcher) : result Prefetcher :=
  '(_, stride, f) ← accessNonunitFilter address (pf_params p) (m_nonunit p);
  let p1 := with_m_nonunit f p in
  match stride with
  | Some stride => assert_ (negb (stride =? 0)) ;; allocateStream cur (makeLineAddress bits address) stride type p1
  | None => Ok p1
  end.

Definition miss_negative (cur address : Z) (type : RubyRequestType) (p : Prefetcher) : result Prefetcher :=
  let line_addr := makeLineAddress bits address in
  '(hit, alloc, f) ← accessUnitFilter line_addr (-1) (pf_params p) (m_negative_filter p);
  let p1 := with_m_negative_filter f p in
  p2 ← (if alloc : bool then allocateStream cur line_addr (-1) type p1 else Ok p1);
  if hit : bool then Ok p2 else miss_nonunit cur address type p2.

Definition miss_unit (cur address : Z) (type : RubyRequestType) (p : Prefetcher) : result Prefetcher :=
  let line_addr := makeLineAddress bits address in
  '(hit, alloc, f) ← accessUnitFilter line_addr 1 (pf_params p) (m_unit_filter p);
  let p1 := with_m_unit_filter f p in
  p2 ← (if alloc : bool then allocateStream cur line_addr 1 type p1 else Ok p1);
  if hit : bool then Ok p2 else miss_negative cur address type p2.

Definition observeMiss (cur address : Z) (type : RubyRequestType) (p : Prefetcher) : result Prefetcher :=
  let line_addr := makeLineAddress bits address in
  let p0 := on_pf_stats (fun s => with_numMissObserved (numMissObserved s + 1) s) p in
  entry ← getPrefetchEntry line_addr p0;
  match entry with
  | Some i => miss_on_stream cur line_addr i p0
  | None => miss_unit cur address type p0
  end.

End Prefetcher.

(** ** Line and page addresses *)

Lemma mask_low a n : 0 <= a < 2 ^ 64 -> 0 <= n < 63 -> maskLowOrderBits a n = 2 ^ n * (a `div` 2 ^ n).
Proof.
  intros Ha Hn. unfold maskLowOrderBits. destruct (Z.leb_spec 63 n); [lia|].
  rewrite Z.mul_comm, <- Z.shiftl_mul_pow2, <- Z.shiftr_div_pow2 by lia. apply Z.bits_inj'. intros j Hj.
  rewrite Z.land_spec, u64_testbit, !Z.shiftl_spec by lia. destruct (Z.ltb_spec j n).
  { rewrite !(Z.testbit_neg_r _ (j - n)) by lia. by rewrite !andb_false_r. }
  rewrite Z.shiftr_spec by lia. replace (j - n + n) with j by lia. rewrite ones_testbit by lia.
  destruct (Z.ltb_spec j 64); [|by rewrite (high_bit_zero a j) by lia].
  destruct (Z.ltb_spec (j - n) 64); [|lia]. by rewrite !andb_true_r.
Qed.

Lemma mask_low_range a n : 0 <= a < 2 ^ 64 -> 0 <= n < 63 -> 0 <= maskLowOrderBits a n <= a.
Proof.
  intros Ha Hn. rewrite mask_low by done. assert (0 < 2 ^ n) by (apply Z.pow_pos_nonneg; lia).
  pose proof (Z.div_mod a (2 ^ n)). pose proof (Z.mod_pos_bound a (2 ^ n)). assert (0 <= a `div` 2 ^ n) by (apply Z.div_pos; lia). nia.
Qed.

Section PrefetcherTheory.
Context (bits : Z) (prm : PrefetcherParams).
Context (Hbits : 0 <= bits <= 32) (Hshift : bits <= m_page_shift prm < 63).

Definition aligned (a : Z) : Prop := 0 <= a < 2 ^ 64 /\ (2 ^ bits | a).

Lemma line_aligned a : 0 <= a < 2 ^ 64 -> aligned (makeLineAddress bits a).
Proof.
  intros Ha. pose proof (mask_low_range a bits Ha) as Hr. split; [unfold makeLineAddress; lia|].
  unfold makeLineAddress. rewrite mask_low by lia. apply Z.divide_factor_l.
Qed.

Lemma aligned_line a : aligned a -> makeLineAddress bits a = a.
Proof.
  intros [Ha Hd]. unfold makeLineAddress. rewrite mask_low by lia. symmetry. assert (0 < 2 ^ bits) by (apply Z.pow_pos_nonneg; lia).
  apply Z.div_exact; [lia|]. by apply Z.mod_divide; [lia|].
Qed.

Lemma u64_divide x : (2 ^ bits | x) -> (2 ^ bits | u64 x).
Proof.
  intros Hx. unfold u64. rewrite Z.mod_eq by lia. apply Z.divide_sub_r; [done|]. apply Z.divide_mul_l.
  exists (2 ^ (64 - bits)). rewrite <- Z.pow_add_r by lia. f_equal. lia.
Qed.

Lemma u32_divide x : (2 ^ bits | x) -> (2 ^ bits | u32 x).
Proof.
  intros Hx. unfold u32. rewrite Z.mod_eq by lia. apply Z.divide_sub_r; [done|]. apply Z.divide_mul_l.
  exists (2 ^ (32 - bits)). rewrite <- Z.pow_add_r by lia. f_equal. lia.
Qed.

Lemma next_aligned a stride : 0 <= a < 2 ^ 64 -> aligned (makeNextStrideAddress bits a stride).
Proof.
  intros Ha. split; [apply u64_range|]. apply u64_divide, Z.divide_add_r; [apply (line_aligned a Ha)|].
  apply u32_divide, Z.divide_factor_l.
Qed.

Lemma page_of_line a : 0 <= a < 2 ^ 64 -> pageAddress (makeLineAddress bits a) prm = pageAddress a prm.
Proof.
  intros Ha. pose proof (line_aligned a Ha) as [Hr _]. unfold pageAddress. rewrite !mask_low by (done || lia).
  unfold makeLineAddress. rewrite mask_low by lia. f_equal. replace (m_page_shift prm) with (bits + (m_page_shift prm - bits)) by lia.
  rewrite Z.pow_add_r by lia. assert (0 < 2 ^ bits) by (apply Z.pow_pos_nonneg; lia).
  assert (0 < 2 ^ (m_page_shift prm - bits)) by (apply Z.pow_pos_nonneg; lia).
  rewrite <- !Z.div_div by lia. by rewrite (Z.mul_comm (2 ^ bits)), Z.div_mul by lia.
Qed.

(** ** The invariant

    [M page type] says that a miss of this type on this page was observed. *)
Context (M : Z -> RubyRequestType -> Prop).
Context (Hsmall : 0 < m_num_streams prm /\ 0 < m_num_unit_filters prm < 2 ^ 31 /\ 0 < m_num_nonunit_filters prm < 2 ^ 31).

(** An address that may be asked for. *)
Definition covered (a : Z) (type : RubyRequestType) : Prop :=
  aligned a /\ (m_prefetch_cross_pages prm = false -> M (pageAddress a prm) type).

Definition entry_ok (e : PrefetchEntry) : Prop :=
  requestIssued e = replicate MAX_PF_INFLIGHT false /\ aligned (m_address e) /\
  (m_is_valid e = true -> covered (m_address e) (m_type e)).

Definition unit_ok (f : UnitFilter) : Prop :=
  vsize (uf_table f) = m_num_unit_filters prm /\ vsize (uf_hit f) = m_num_unit_filters prm /\
  0 <= uf_index f < m_num_unit_filters prm.

Definition nonunit_ok (f : NonunitFilter) : Prop :=
  vsize (m_nonunit_filter f) = m_num_nonunit_filters prm /\ vsize (m_nonunit_stride f) = m_num_nonunit_filters prm /\
  vsize (m_nonunit_hit f) = m_num_nonunit_filters prm /\ 0 <= m_nonunit_index f < m_num_nonunit_filters prm /\
  Forall aligned (m_nonunit_filter f).

Record pf_ok (p : Prefetcher) : Prop := {
  ok_params : pf_params p = prm;
  ok_streams : vsize (m_array p) = m_num_streams prm;
  ok_entries : Forall entry_ok (m_array p);
  ok_unit : unit_ok (m_unit_filter p);
  ok_negative : unit_ok (m_negative_filter p);
  ok_nonunit : nonunit_ok (m_nonunit p);
  ok_requests : Forall (fun r => covered r.1 r.2) (pf_requests p);
  ok_missed : numMissedPrefetchedBlocks (pf_stats p) = 0
}.

Definition returns_ok (r : result Prefetcher) : Prop := exists p', r = Ok p' /\ pf_ok p'.

Lemma returns_Ok p : pf_ok p -> returns_ok (Ok p).
Proof. by exists p. Qed.

Lemma returns_bind r f : returns_ok r -> (forall p, pf_ok p -> returns_ok (f p)) -> returns_ok (r ≫= f).
Proof. intros (p & -> & Hp) Hf. by apply Hf. Qed.

(** Replacing a part of a prefetcher. *)
Lemma ok_stats f p : pf_ok p -> numMissedPrefetchedBlocks (f (pf_stats p)) = numMissedPrefetchedBlocks (pf_stats p) ->
  pf_ok (on_pf_stats f p).
Proof. intros [] Hf. split; cbn; [done..|]. by rewrite Hf. Qed.

Lemma ok_cross p : pf_ok p -> pf_ok (cross_page p).
Proof. intros H. by apply ok_stats. Qed.

Lemma ok_enqueue a type p : pf_ok p -> covered a type -> pf_ok (enqueuePrefetch a type p).
Proof. intros [] H. split; cbn; try done. apply Forall_app. split; [done|]. by apply Forall_singleton. Qed.

Lemma ok_write p i e : pf_ok p -> 0 <= i < m_num_streams prm -> entry_ok e ->
  exists array, vec_set (m_array p) i e = Ok array /\ vec_get array i = Ok e /\ pf_ok (with_m_array array p).
Proof.
  intros [] Hi He. destruct (vec_set_total (m_array p) i e) as (l & Hl & Hsize & Hget & Hall); [lia|].
  exists l. split; [done|]. split; [done|]. split; cbn; [done | lia | by apply Hall | done..].
Qed.

Lemma stream_entry p i : pf_ok p -> 0 <= i < m_num_streams prm -> exists e, vec_get (m_array p) i = Ok e /\ entry_ok e.
Proof.
  intros Hok Hi. destruct (vec_get_in_range (m_array p) i) as [e He]; [rewrite (ok_streams _ Hok); lia|].
  exists e. split; [done|]. by eapply Forall_vec_get; [apply (ok_entries _ Hok)|].
Qed.

Lemma ok_modify p i f e : pf_ok p -> vec_get (m_array p) i = Ok e -> entry_ok (f e) ->
  exists array, vec_modify (m_array p) i f = Ok array /\ vec_get array i = Ok (f e) /\ pf_ok (with_m_array array p).
Proof.
  intros Hok He Hf. pose proof (vec_get_range _ _ _ He) as Hi. rewrite (ok_streams _ Hok) in Hi.
  unfold vec_modify. rewrite He. cbn [mbind result_bind]. by apply ok_write.
Qed.

(** ** Streams *)

Lemma getLRUindex_ok p : pf_ok p -> exists i, getLRUindex p = Ok i /\ 0 <= i < m_num_streams prm.
Proof.
  intros Hok. unfold getLRUindex. rewrite (ok_params _ Hok). destruct (stream_entry p 0 Hok) as (e0 & -> & _); [lia|].
  cbn [mbind result_bind].
  destruct (for_ctl_total (fun _ (s : Z * Z) => 0 <= s.1 < m_num_streams prm) (fun i => 0 <= i < m_num_streams prm)
    (fun i '((lru_index, lru_access) : Z * Z) => e ← vec_get (m_array p) i;
        Ok (if m_is_valid e then
              if m_use_time e <? lru_access then Cont (i, m_use_time e) else Cont (lru_index, lru_access)
            else Brk i)) (Z.to_nat (m_num_streams prm)) 0 (0, m_use_time e0)) as (c & -> & Hc).
  - cbn. lia.
  - intros k [i t] Hk Hi. destruct (stream_entry p k Hok) as (e & -> & _); [lia|]. eexists. split; [done|].
    destruct (m_is_valid e); [|lia]. destruct (m_use_time e <? t); cbn in *; lia.
  - destruct c as [[i t]|i]; cbn in *; eauto.
Qed.

Lemma getPrefetchEntry_ok address p : pf_ok p -> exists o, getPrefetchEntry bits address p = Ok o /\
  forall i, o = Some i -> 0 <= i < m_num_streams prm /\ exists e, vec_get (m_array p) i = Ok e /\ entry_ok e /\ m_is_valid e = true.
Proof.
  intros Hok. unfold getPrefetchEntry. rewrite (ok_params _ Hok).
  edestruct (for_ctl_total (fun _ (_ : unit) => True)
    (fun i => 0 <= i < m_num_streams prm /\ exists e, vec_get (m_array p) i = Ok e /\ entry_ok e /\ m_is_valid e = true))
    as (c & -> & Hc); [done | | cbn [mbind result_bind]; destruct c; eexists; (split; [done|]); intros i [= <-]; exact Hc].
  intros k [] Hk _. destruct (stream_entry p k Hok) as (e & He & Hee); [lia|]. rewrite He. cbn [mbind result_bind].
  destruct (m_is_valid e) eqn:Hv; [|by exists (Cont tt)]. unfold stream_match.
  edestruct (for_ctl_total (fun _ (_ : unit) => True) (fun _ : unit => True)) as (c & -> & _).
  - done.
  - intros j [] Hj _. eexists. split; [done|]. by destruct (_ =? _).
  - cbn [mbind result_bind]. destruct c; eexists; (split; [done|]); cbn; [done|]. split; [lia|]. by exists e.
Qed.

(** The guard at a page boundary. *)
Lemma page_guard a a' type : covered a type -> aligned a' ->
  negb (pageAddress a prm =? pageAddress a' prm) && negb (m_prefetch_cross_pages prm) = false -> covered a' type.
Proof.
  intros [_ Ha] Ha' Hg. split; [done|]. intros Hc. rewrite Hc, andb_true_r in Hg.
  apply negb_false_iff, Z.eqb_eq in Hg. rewrite <- Hg. auto.
Qed.

Lemma entry_invalid e : entry_ok e -> entry_ok (with_m_is_valid false e).
Proof. intros (? & ? & _). by split_and!. Qed.

Lemma entry_move a e : entry_ok e -> covered a (m_type e) -> entry_ok (with_m_address a e).
Proof. intros (? & ? & _) Hc. split_and!; [done | apply Hc | done]. Qed.

Lemma issueNextPrefetch_ok cur address p : pf_ok p -> returns_ok (issueNextPrefetch bits cur address None p).
Proof.
  intros Hok. unfold issueNextPrefetch. destruct (getPrefetchEntry_ok address p Hok) as (o & -> & Ho). cbn [mbind result_bind].
  destruct o as [i|]; [|by apply returns_Ok]. destruct (Ho i eq_refl) as (Hi & e & -> & He & Hv). cbn [mbind result_bind].
  rewrite (ok_params _ Hok). set (crossed := negb (_ =? _)). set (p1 := if crossed then cross_page p else p).
  assert (Hok1 : pf_ok p1) by (subst p1; destruct crossed; [by apply ok_cross | done]).
  pose proof He as (_ & Ha & Hc). specialize (Hc Hv). destruct (crossed && _) eqn:Hg.
  - destruct (ok_write p1 i _ Hok1 Hi (entry_invalid e He)) as (l & -> & _ & Hl). by apply returns_Ok.
  - assert (Hn : covered (makeNextStrideAddress bits (m_address e) (m_stride e)) (m_type e)) by (eapply page_guard; [exact Hc | apply next_aligned, Ha | exact Hg]).
    edestruct (ok_write p1 i (with_m_use_time cur (with_m_address (makeNextStrideAddress bits (m_address e) (m_stride e)) e)) Hok1 Hi) as (l & -> & _ & Hl).
    { destruct (entry_move _ e He Hn) as (? & ? & ?). by split_and!. }
    apply returns_Ok, ok_enqueue; [done | exact Hn].
Qed.

(** One step of the startup loop, seen from the first line [k] of the stream. *)
Lemma startup_prefetch_ok k index stride type a p e : vec_get (m_array p) index = Ok e -> pf_ok p -> covered a type ->
  pageAddress k prm = pageAddress a prm \/ m_prefetch_cross_pages prm = true ->
  exists c, startup_prefetch bits index stride (pageAddress k prm) type (a, p) = Ok c /\
    match c with
    | Cont (a', p') => pf_ok p' /\ m_array p' = m_array p /\ covered a' type /\
        (pageAddress k prm = pageAddress a' prm \/ m_prefetch_cross_pages prm = true)
    | Brk p' => pf_ok p'
    end.
Proof.
  intros He Hok Ha Hpage. unfold startup_prefetch. rewrite (ok_params _ Hok). set (a' := makeNextStrideAddress bits a stride).
  set (crossed := negb (_ =? _)). set (p1 := if crossed then cross_page p else p).
  assert (Hok1 : pf_ok p1 /\ m_array p1 = m_array p) by (subst p1; destruct crossed; split; [by apply ok_cross | done..]).
  destruct Hok1 as [Hok1 Harr]. assert (Ha' : aligned a') by apply next_aligned, Ha. destruct (crossed && _) eqn:Hg.
  - destruct (ok_modify p1 index (with_m_is_valid false) e Hok1) as (l & -> & _ & Hl);
      [by rewrite Harr | apply entry_invalid; by eapply Forall_vec_get; [apply (ok_entries _ Hok)|]|]. by eexists.
  - assert (Hc : covered a' type).
    { destruct Hpage as [Hpage|Hpage]; [eapply page_guard; [exact Ha | done | by rewrite <- Hpage]|].
      split; [done|]. by rewrite Hpage. }
    eexists. split; [done|]. split_and!; [by apply ok_enqueue, Hc; apply ok_stats | done | done|].
    apply andb_false_iff in Hg as [Hg|Hg]; [left; by apply negb_false_iff, Z.eqb_eq in Hg | right; by apply negb_false_iff in Hg].
Qed.

Lemma initializeStream_ok cur address stride index type p : pf_ok p -> 0 <= index < m_num_streams prm -> 0 <= address < 2 ^ 64 ->
  M (pageAddress address prm) type -> returns_ok (initializeStream bits cur address stride index type p).
Proof.
  intros Hok Hi Ha HM. unfold initializeStream. rewrite (ok_params _ Hok). set (line := makeLineAddress bits address).
  assert (Hline : aligned line) by by apply line_aligned.
  assert (Hpage : pageAddress line prm = pageAddress address prm) by by apply page_of_line.
  assert (Hc : covered line type) by (split; [done|]; by rewrite Hpage).
  destruct (stream_entry p index Hok Hi) as (e & He & Hissued & _). set (p0 := on_pf_stats _ p).
  destruct (ok_modify p0 index (fun e => mkPrefetchEntry line stride cur true type (requestIssued e) (requestCompleted e)) e)
    as (l & -> & Hget & Hl); [by apply ok_stats | done | by split_and!; [| |intros _]|]. cbn [mbind result_bind].
  destruct Hline as [Hr Hdiv]. pose proof (page_of_line line Hr) as Hpl.
  edestruct (for_ctl_total (fun _ (s : Z * Prefetcher) => pf_ok s.2 /\ m_array s.2 = l /\ covered s.1 type /\
    (pageAddress line prm = pageAddress s.1 prm \/ m_prefetch_cross_pages prm = true)) pf_ok) as (c & -> & Hcc).
  - cbn [fst snd]. split_and!; [exact Hl | done | | by left; rewrite Hpl]. split; [by apply line_aligned|]. by rewrite Hpl, Hpage.
  - intros k [a q] Hk (Hq & Hql & Haq & Hpq). cbn [fst snd] in *.
    destruct (startup_prefetch_ok line index stride type a q _ ltac:(by rewrite Hql) Hq Haq Hpq) as (c & Hs & Hcs).
    exists c. split; [exact Hs|]. destruct c as [[a' q']|]; [|done]. by rewrite Hql in Hcs.
  - destruct c as [[a q]|q]; cbn [mbind result_bind fst snd] in *; [|by apply returns_Ok]. destruct Hcc as (Hq & Hql & Haq & _).
    edestruct (ok_modify q index (with_m_address a)) as (l' & -> & _ & Hl'); [done | by rewrite Hql | | by apply returns_Ok].
    split_and!; [done | apply Haq | done].
Qed.

Lemma allocateStream_ok cur address stride type p : pf_ok p -> 0 <= address < 2 ^ 64 -> M (pageAddress address prm) type ->
  returns_ok (allocateStream bits cur (makeLineAddress bits address) stride type p).
Proof.
  intros Hok Ha HM. unfold allocateStream. destruct (getLRUindex_ok p Hok) as (i & -> & Hi). cbn [mbind result_bind].
  apply initializeStream_ok; [done | done | apply (line_aligned address Ha)|]. by rewrite page_of_line.
Qed.

(** ** Filters *)

Lemma accessUnitFilter_ok address stride f : unit_ok f ->
  exists hit alloc f', accessUnitFilter bits address stride prm f = Ok (hit, alloc, f') /\ unit_ok f'.
Proof.
  intros (Ht & Hh & Hi). unfold accessUnitFilter.
  edestruct (for_ctl_total (fun _ (_ : unit) => True) (fun i => 0 <= i < m_num_unit_filters prm)) as (c & -> & Hc); [done| |].
  { intros k [] Hk _. destruct (vec_get_in_range (uf_table f) k) as [x ->]; [lia|]. eexists. split; [done|].
    destruct (_ =? _); [lia | done]. }
  cbn [mbind result_bind]. destruct c as [[]|i].
  - rewrite i32_small by lia.
    edestruct (vec_set_total (uf_table f) (uf_index f)) as (t' & -> & Ht' & _); [lia|]. cbn [mbind result_bind].
    edestruct (vec_set_total (uf_hit f) (uf_index f)) as (h' & -> & Hh' & _); [lia|]. cbn [mbind result_bind].
    do 3 eexists. split; [done|]. split_and!; cbn [uf_table uf_hit uf_index]; [lia | lia|..]; destruct (Z.leb_spec (m_num_unit_filters prm) (uf_index f + 1)); lia.
  - edestruct (vec_modify_total (uf_table f) i) as (? & t' & _ & -> & Ht' & _); [lia|]. cbn [mbind result_bind].
    edestruct (vec_modify_total (uf_hit f) i) as (? & h' & _ & -> & Hh' & Hg & _); [lia|]. cbn [mbind result_bind]. rewrite Hg.
    do 3 eexists. split; [done|]. split_and!; cbn [uf_table uf_hit uf_index]; lia.
Qed.

(** A stride that made a stream is not 0. *)
Lemma stride_nonzero d : d <> 0 -> - 2 ^ 31 <= d < 2 ^ 31 -> (2 ^ bits | d) -> i32 (u32 d `div` 2 ^ bits) <> 0.
Proof.
  intros Hd Hr Hdiv. pose proof (u32_divide d Hdiv) as [k Hk]. assert (0 < 2 ^ bits) by (apply Z.pow_pos_nonneg; lia).
  rewrite Hk, Z.div_mul by lia. assert (0 < u32 d < 2 ^ 32).
  { unfold u32. pose proof (Z.mod_pos_bound d (2 ^ 32)). enough (d mod 2 ^ 32 <> 0) by lia.
    intros [q Hq]%Z.mod_divide; lia. }
  assert (0 < k < 2 ^ 32) by nia. unfold i32. intros E. assert (E2 : (k + 2 ^ 31) mod 2 ^ 32 = 2 ^ 31) by lia.
  pose proof (Z.div_mod (k + 2 ^ 31) (2 ^ 32)). lia.
Qed.

Lemma delta_divide a x : aligned a -> aligned x -> (2 ^ bits | i32 (u64 (a - x))).
Proof.
  intros [_ Ha] [_ Hx]. unfold i32. rewrite Z.mod_eq by lia.
  replace (u64 (a - x) + 2 ^ 31 - 2 ^ 32 * ((u64 (a - x) + 2 ^ 31) `div` 2 ^ 32) - 2 ^ 31)
    with (u64 (a - x) - 2 ^ 32 * ((u64 (a - x) + 2 ^ 31) `div` 2 ^ 32)) by lia.
  apply Z.divide_sub_r; [by apply u64_divide, Z.divide_sub_r|]. apply Z.divide_mul_l.
  exists (2 ^ (32 - bits)). rewrite <- Z.pow_add_r by lia. f_equal. lia.
Qed.

Lemma nonunit_hit_ok line delta i f : nonunit_ok f -> 0 <= i < m_num_nonunit_filters prm -> aligned line ->
  delta <> 0 -> - 2 ^ 31 <= delta < 2 ^ 31 -> (2 ^ bits | delta) ->
  exists stride f', nonunit_hit bits line delta i prm f = Ok (stride, f') /\ nonunit_ok f' /\ stride <> Some 0.
Proof.
  intros (Hf & Hs & Hh & Hx & Hall) Hi Hline Hd Hr Hdiv. unfold nonunit_hit.
  destruct (vec_get_in_range (m_nonunit_stride f) i) as [last ->]; [lia|]. cbn [mbind result_bind].
  match goal with |- context [mbind _ ?r] => assert (exists stride f1, r = Ok (stride, f1) /\ nonunit_ok f1 /\ stride <> Some 0)
    as (stride & f1 & -> & (Hf1 & Hs1 & Hh1 & Hx1 & Hall1) & Hn) end.
  { destruct (Z.eqb_spec delta last) as [<-|].
    - edestruct (vec_modify_total (m_nonunit_hit f) i) as (n & h & _ & -> & Hh' & Hg & _); [lia|]. cbn [mbind result_bind].
      rewrite Hg. cbn [mbind result_bind]. destruct (_ <? _); [|do 2 eexists; split; [done|]; split; [|done]; split_and!; cbn; (lia || done)].
      unfold clearNonunitEntry. cbn [m_nonunit_filter m_nonunit_stride m_nonunit_hit m_nonunit_index].
      edestruct (vec_set_total (m_nonunit_filter f) i 0) as (f' & -> & Hf' & _ & HP); [lia|]. cbn [mbind result_bind].
      edestruct (vec_set_total (m_nonunit_stride f) i 0) as (s' & -> & Hs' & _); [lia|]. cbn [mbind result_bind].
      edestruct (vec_set_total h i 0) as (h' & -> & Hh'' & _); [lia|]. cbn [mbind result_bind].
      do 2 eexists. split; [done|]. split; [|intros [= E]; by apply (stride_nonzero delta)].
      split_and!; cbn; try lia. apply HP; [done|]. split; [lia | apply Z.divide_0_r].
    - edestruct (vec_set_total (m_nonunit_hit f) i 0) as (h' & -> & Hh' & _); [lia|]. cbn [mbind result_bind].
      do 2 eexists. split; [done|]. split; [|done]. split_and!; cbn; (lia || done). }
  cbn [mbind result_bind].
  edestruct (vec_set_total (m_nonunit_stride f1) i delta) as (s' & -> & Hs' & _); [lia|]. cbn [mbind result_bind].
  edestruct (vec_set_total (m_nonunit_filter f1) i line) as (f' & -> & Hf' & _ & HP); [lia|]. cbn [mbind result_bind].
  do 2 eexists. split; [done|]. split; [|done]. split_and!; cbn; try lia. by apply HP.
Qed.

Lemma nonunit_enter_ok line f : nonunit_ok f -> aligned line -> exists f', nonunit_enter line prm f = Ok f' /\ nonunit_ok f'.
Proof.
  intros (Hf & Hs & Hh & Hx & Hall) Hline. unfold nonunit_enter.
  edestruct (vec_set_total (m_nonunit_filter f) (m_nonunit_index f) line) as (f' & -> & Hf' & _ & HP); [lia|]. cbn [mbind result_bind].
  edestruct (vec_set_total (m_nonunit_stride f) (m_nonunit_index f) 0) as (s' & -> & Hs' & _); [lia|]. cbn [mbind result_bind].
  edestruct (vec_set_total (m_nonunit_hit f) (m_nonunit_index f) 0) as (h' & -> & Hh' & _); [lia|]. cbn [mbind result_bind].
  eexists. split; [done|]. rewrite u32_small by lia. split_and!; cbn; try lia; [| |by apply HP];
    destruct (Z.leb_spec (m_num_nonunit_filters prm) (m_nonunit_index f + 1)); lia.
Qed.

Lemma accessNonunitFilter_ok address f : nonunit_ok f -> 0 <= address < 2 ^ 64 ->
  exists hit stride f', accessNonunitFilter bits address prm f = Ok (hit, stride, f') /\ nonunit_ok f' /\ stride <> Some 0.
Proof.
  intros Hok Ha. pose proof Hok as (Hf & Hs & Hh & Hx & Hall). pose proof (line_aligned address Ha) as Hline. unfold accessNonunitFilter.
  edestruct (for_ctl_total (fun _ (_ : unit) => True)
    (fun ix : Z * Z => 0 <= ix.1 < m_num_nonunit_filters prm /\ aligned ix.2)) as (c & -> & Hc); [done| |].
  { intros k [] Hk _. destruct (vec_get_in_range (m_nonunit_filter f) k) as [x Hx']; [lia|]. rewrite Hx'. eexists. split; [done|].
    destruct (_ =? _); [|done]. split; cbn; [lia|]. by eapply Forall_vec_get. }
  cbn [mbind result_bind]. destruct c as [[]|[i x]].
  - destruct (nonunit_enter_ok _ f Hok Hline) as (f' & -> & Hf'). by do 3 eexists.
  - destruct Hc as [Hi Hxa]. cbn [fst snd] in *. set (delta := i32 _). destruct (Z.eqb_spec delta 0); [by do 3 eexists|].
    edestruct (nonunit_hit_ok (makeLineAddress bits address) delta i f) as (stride & f' & -> & Hf' & Hn); try done.
    + subst delta. unfold i32. match goal with |- context [?a mod ?b] => pose proof (Z.mod_pos_bound a b) end. lia.
    + by apply delta_divide.
    + by do 3 eexists.
Qed.

(** ** Operations *)

Lemma miss_on_stream_ok cur line i p : pf_ok p -> 0 <= i < m_num_streams prm -> miss_on_stream bits cur line i p = Ok p.
Proof. intros Hok Hi. unfold miss_on_stream. destruct (stream_entry p i Hok Hi) as (e & -> & He & _). cbn [mbind result_bind]. by rewrite He. Qed.

Section Miss.
Context (cur address : Z) (type : RubyRequestType) (Ha : 0 <= address < 2 ^ 64) (HM : M (pageAddress address prm) type).

Lemma miss_nonunit_ok p : pf_ok p -> returns_ok (miss_nonunit bits cur address type p).
Proof.
  intros Hok. unfold miss_nonunit. rewrite (ok_params _ Hok).
  destruct (accessNonunitFilter_ok address (m_nonunit p) (ok_nonunit _ Hok) Ha) as (hit & stride & f' & -> & Hf' & Hn).
  cbn [mbind result_bind]. assert (Hok' : pf_ok (with_m_nonunit f' p)) by (destruct Hok; by split).
  destruct stride as [s|]; [|by apply returns_Ok]. destruct (Z.eqb_spec s 0) as [->|]; [done|]. by apply allocateStream_ok.
Qed.

Lemma miss_negative_ok p : pf_ok p -> returns_ok (miss_negative bits cur address type p).
Proof.
  intros Hok. unfold miss_negative. rewrite (ok_params _ Hok).
  destruct (accessUnitFilter_ok (makeLineAddress bits address) (-1) (m_negative_filter p) (ok_negative _ Hok)) as (hit & alloc & f' & -> & Hf').
  cbn [mbind result_bind]. assert (Hok' : pf_ok (with_m_negative_filter f' p)) by (destruct Hok; by split).
  apply returns_bind; [destruct alloc; [by apply allocateStream_ok | by apply returns_Ok]|].
  intros p2 Hp2. destruct hit; [by apply returns_Ok | by apply miss_nonunit_ok].
Qed.

Lemma miss_unit_ok p : pf_ok p -> returns_ok (miss_unit bits cur address type p).
Proof.
  intros Hok. unfold miss_unit. rewrite (ok_params _ Hok).
  destruct (accessUnitFilter_ok (makeLineAddress bits address) 1 (m_unit_filter p) (ok_unit _ Hok)) as (hit & alloc & f' & -> & Hf').
  cbn [mbind result_bind]. assert (Hok' : pf_ok (with_m_unit_filter f' p)) by (destruct Hok; by split).
  apply returns_bind; [destruct alloc; [by apply allocateStream_ok | by apply returns_Ok]|].
  intros p2 Hp2. destruct hit; [by apply returns_Ok | by apply miss_negative_ok].
Qed.

Lemma observeMiss_ok p : pf_ok p -> returns_ok (observeMiss bits cur address type p).
Proof.
  intros Hok. unfold observeMiss. set (p0 := on_pf_stats _ p). assert (Hok0 : pf_ok p0) by by apply ok_stats.
  destruct (getPrefetchEntry_ok (makeLineAddress bits address) p0 Hok0) as (o & -> & Ho). cbn [mbind result_bind].
  destruct o as [i|]; [|by apply miss_unit_ok]. destruct (Ho i eq_refl) as [Hi _]. rewrite miss_on_stream_ok by done. by apply returns_Ok.
Qed.
End Miss.

Lemma pf_new_ok p : Prefetcher_new bits prm = Ok p -> pf_ok p.
Proof.
  unfold Prefetcher_new. intros ([] & _ & ([] & _ & [= <-])%bind_Ok)%bind_Ok.
  assert (Hz : aligned 0) by (split; [lia | apply Z.divide_0_r]).
  assert (Hu : unit_ok (UnitFilter_new (m_num_unit_filters prm)))
    by (split_and!; cbn; unfold vsize; rewrite ?length_replicate; lia).
  split; cbn; try done; [unfold vsize; rewrite length_replicate; lia | by apply Forall_replicate; split_and!|].
  unfold nonunit_ok, vsize. cbn. rewrite length_replicate. split_and!; try lia. by apply Forall_replicate.
Qed.
End PrefetcherTheory.

(** ** Runs *)

Inductive pf_op := OMiss (address : Z) (type : RubyRequestType) | OPfHit (address : Z) | OPfMiss (address : Z).

(** The calls of a controller, each with its cycle. *)
Definition pf_step (bits : Z) (p : Prefetcher) (op : Z * pf_op) : result Prefetcher :=
  match op.2 with
  | OMiss address type => observeMiss bits op.1 address type p
  | OPfHit address => observePfHit bits op.1 address p
  | OPfMiss address => observePfMiss bits op.1 address p
  end.

Definition op_in_range (op : Z * pf_op) : Prop := match op.2 with OMiss a _ => 0 <= a < 2 ^ 64 | _ => True end.

(** Some call of the run observed a miss of this type on this page. *)
Definition observed (prm : PrefetcherParams) (ops : list (Z * pf_op)) (page : Z) (type : RubyRequestType) : Prop :=
  exists cur a, (cur, OMiss a type) ∈ ops /\ pageAddress a prm = page.

Definition pf_params_ok (bits : Z) (prm : PrefetcherParams) : Prop :=
  0 <= bits <= 32 /\ bits <= m_page_shift prm < 63 /\
  0 < m_num_streams prm /\ 0 < m_num_unit_filters prm < 2 ^ 31 /\ 0 < m_num_nonunit_filters prm < 2 ^ 31.

Lemma pf_run_ok bits prm M ops p : pf_params_ok bits prm -> Forall op_in_range ops ->
  (forall cur a type, (cur, OMiss a type) ∈ ops -> M (pageAddress a prm) type) ->
  pf_ok bits prm M p -> returns_ok bits prm M (foldM (pf_step bits) ops p).
Proof.
  intros (Hb & Hs & Hp) Hr. revert p. induction ops as [|[cur op] ops IH]; intros p HM Hok; [by apply returns_Ok|].
  apply Forall_cons in Hr as [Hop Hr]. cbn [foldM]. apply returns_bind.
  - destruct op as [a type|a|a]; cbn [pf_step snd fst].
    + apply observeMiss_ok; try done. apply (HM cur). by left.
    + apply issueNextPrefetch_ok; [done..|]. by apply ok_stats.
    + apply issueNextPrefetch_ok; [done..|]. by apply ok_stats.
  - intros p' Hp'. apply IH; [done | | done]. intros c a type Hin. apply (HM c). by right.
Qed.

(** C34: A prefetcher is well formed and asks for sensible lines only, if it has at least one stream and from 1 to 2^31 - 1 entries in each of its
    filters, block offsets of at most 32 bits, and pages that hold a block and are smaller than 2^63 bytes.  From its
    construction with such parameters, any calls that report misses at 64-bit addresses
    and hits return: no index leaves its array and the stride of a new stream is not 0.  The arrays keep their
    sizes, every request is a line address, and without [cross_page] it lies on a page on which a miss of
    the same type was observed.  (With an empty filter the first miss writes outside of it.) *)
Theorem prefetcher_well_formed bits prm p ops : pf_params_ok bits prm -> Prefetcher_new bits prm = Ok p ->
  Forall op_in_range ops ->
  exists p', foldM (pf_step bits) ops p = Ok p' /\ pf_ok bits prm (observed prm ops) p' /\
    forall a type, (a, type) ∈ pf_requests p' -> makeLineAddress bits a = a /\
      (m_prefetch_cross_pages prm = false -> observed prm ops (pageAddress a prm) type).
Proof.
  intros Hp Hnew Hr. pose proof Hp as (Hb & Hs & Hsmall).
  destruct (pf_run_ok bits prm (observed prm ops) ops p Hp Hr) as (p' & Hrun & Hok).
  - intros cur a type Hin. by exists cur, a.
  - by apply pf_new_ok.
  - exists p'. split; [done|]. split; [done|]. intros a type Hin.
    pose proof (proj1 (Forall_forall _ _) (ok_requests _ _ _ _ Hok) _ Hin) as [Ha Hc]. split; [by eapply aligned_line | done].
Qed.

(** A prefetcher with the default parameters and pages of 4096 bytes. *)
Definition ex_pf_params (cross : bool) : PrefetcherParams := mkPrefetcherParams 4 4 1 8 8 cross 12.
Definition ex_misses (l : list Z) : list (Z * pf_op) := imap (fun i a => (Z.of_nat i, OMiss a RubyRequestType_LD)) l.
Definition ex_ascending : list (Z * pf_op) :=
  ex_misses [0x1000; 0x1040; 0x1080; 0x10c0; 0x1100; 0x1140] ++ [(7, OPfHit 0x1140)].

Lemma prefetcher_well_formed_witness : exists p p', Prefetcher_new 6 (ex_pf_params false) = Ok p /\
  foldM (pf_step 6) ex_ascending p = Ok p' /\ pf_ok 6 (ex_pf_params false) (observed (ex_pf_params false) ex_ascending) p' /\
  pf_requests p' = [(0x1140, RubyRequestType_LD); (0x1180, RubyRequestType_LD)].
Proof.
  destruct (Prefetcher_new 6 (ex_pf_params false)) as [p|] eqn:Hnew; [|discriminate Hnew]. exists p.
  destruct (prefetcher_well_formed 6 (ex_pf_params false) p ex_ascending) as (p' & Hrun & Hok & _).
  - vm_compute. intuition discriminate.
  - exact Hnew.
  - repeat constructor; vm_compute; intros [=].
  - exists p'. split; [reflexivity|]. split; [exact Hrun|]. split; [exact Hok|]. injection Hnew as <-. vm_compute in Hrun. by injection Hrun as <-.
Defined.

(** ** Descending streams

    [makeNextStrideAddress] multiplies the unsigned block size with the signed stride in 32 bits, so a negative stride leads
    2^32 bytes too far. *)
Lemma negative_stride_jumps bits a k : 0 <= bits <= 32 -> 0 <= a -> a + 2 ^ 32 < 2 ^ 64 -> 0 < k -> k * 2 ^ bits <= 2 ^ 32 ->
  makeNextStrideAddress bits a (- k) = makeLineAddress bits a + 2 ^ 32 - k * 2 ^ bits.
Proof.
  intros Hb Ha Hmax Hk Hle. pose proof (mask_low_range a bits ltac:(lia) ltac:(lia)). assert (0 < 2 ^ bits) by (apply Z.pow_pos_nonneg; lia).
  unfold makeNextStrideAddress, makeLineAddress.
  assert (Hu : u32 (2 ^ bits * - k) = 2 ^ 32 - k * 2 ^ bits).
  { unfold u32. replace (2 ^ bits * - k) with (2 ^ 32 - k * 2 ^ bits + (-1) * 2 ^ 32) by lia. rewrite Z.mod_add by lia.
    apply Z.mod_small. nia. }
  rewrite Hu, u64_small; lia.
Qed.

(** The first miss of a descending sequence leaves an entry in the negative filter that the next line does not hit. *)
Lemma descending_not_trained bits prm a f : pf_params_ok bits prm -> 0 <= a -> a + 2 ^ 32 < 2 ^ 64 -> 2 ^ bits < 2 ^ 32 ->
  unit_ok prm f -> Forall (fun x => x <> makeLineAddress bits a) (uf_table f) ->
  exists f', accessUnitFilter bits a (-1) prm f = Ok (false, false, f') /\
    vec_get (uf_table f') (uf_index f) = Ok (makeLineAddress bits a + 2 ^ 32 - 2 ^ bits).
Proof.
  intros (Hb & Hs & Hsm) Ha Hmax Hlt (Ht & Hh & Hi) Hne. unfold accessUnitFilter.
  destruct (for_ctl_search (fun i (_ : unit) => x ← vec_get (uf_table f) i; Ok (if x =? makeLineAddress bits a then Brk i else Cont tt))
    (fun _ => false) (fun i : Z => i) (Z.to_nat (m_num_unit_filters prm)) 0) as [(k & _ & ? & _)|[_ ->]]; [|done|].
  { intros k Hk. destruct (vec_get_in_range (uf_table f) k) as [x Hx]; [lia|]. rewrite Hx. cbn [mbind result_bind].
    pose proof (Forall_vec_get _ _ _ _ Hne Hx) as Hxa. cbn in Hxa. by destruct (Z.eqb_spec x (makeLineAddress bits a)). }
  cbn [mbind result_bind]. rewrite i32_small by lia.
  edestruct (vec_set_total (uf_table f) (uf_index f)) as (t' & -> & _ & Hget & _); [lia|]. cbn [mbind result_bind].
  edestruct (vec_set_total (uf_hit f) (uf_index f) 0) as (h' & -> & _); [lia|]. cbn [mbind result_bind].
  eexists. split; [done|]. cbn [uf_table]. rewrite Hget. f_equal.
  pose proof (mask_low_range a bits ltac:(lia) ltac:(lia)).
  change (-1) with (Z.opp 1). rewrite (negative_stride_jumps bits (makeLineAddress bits a) 1) by (unfold makeLineAddress in *; lia).
  rewrite (aligned_line bits Hb); [lia|]. apply (line_aligned bits Hb). lia.
Qed.

(** Nine misses on descending lines, and the line that is prefetched with [cross_page]: 4 GB away. *)
Lemma descending_prefetch : exists p p', Prefetcher_new 6 (ex_pf_params true) = Ok p /\
  foldM (pf_step 6) (ex_misses [0x2000; 0x1fc0; 0x1f80; 0x1f40; 0x1f00; 0x1ec0; 0x1e80; 0x1e40; 0x1e00]) p = Ok p' /\
  pf_requests p' = [(0x100001e00, RubyRequestType_LD)].
Proof. do 2 eexists. split; [reflexivity|]. split; vm_compute; reflexivity. Qed.

(** ** Training

    The misses of an ascending sequence of lines, from a new prefetcher. *)
Section Training.
Context (bits a : Z) (prm : PrefetcherParams) (type : RubyRequestType).
Context (Hp : pf_params_ok bits prm) (Hb32 : bits < 32) (Ha : aligned bits a) (Ha0 : 0 < a).

Definition line (i : Z) : Z := a + 2 ^ bits * i.

(** No stream is in use and nothing was asked for. *)
Definition idle (p : Prefetcher) : Prop :=
  pf_params p = prm /\ vsize (m_array p) = m_num_streams prm /\ Forall (fun e => m_is_valid e = false) (m_array p) /\
  pf_requests p = [].

(** The first filter entry waits for line [i] and was hit [i - 1] times. *)
Definition trained (i : Z) (p : Prefetcher) : Prop :=
  idle p /\ vsize (uf_table (m_unit_filter p)) = m_num_unit_filters prm /\ vsize (uf_hit (m_unit_filter p)) = m_num_unit_filters prm /\
  vec_get (uf_table (m_unit_filter p)) 0 = Ok (line i) /\ vec_get (uf_hit (m_unit_filter p)) 0 = Ok (i - 1).

Lemma line_line i : 0 <= i -> line i < 2 ^ 64 -> makeLineAddress bits (line i) = line i.
Proof.
  intros Hi Hmax. destruct Hp as (Hb & _). assert (0 < 2 ^ bits) by (apply Z.pow_pos_nonneg; lia). apply aligned_line; [done|].
  unfold line in *. split; [nia|]. apply Z.divide_add_r; [apply Ha | apply Z.divide_factor_l].
Qed.

Lemma line_next i : 0 <= i -> line (i + 1) < 2 ^ 64 -> makeNextStrideAddress bits (line i) 1 = line (i + 1).
Proof.
  intros Hi Hmax. destruct Hp as (Hb & _). assert (0 < 2 ^ bits < 2 ^ 32) by (split; [apply Z.pow_pos_nonneg | apply Z.pow_lt_mono_r]; lia).
  unfold makeNextStrideAddress. pose proof (line_line i Hi) as Hl. unfold makeLineAddress in Hl. rewrite Hl by (unfold line in *; lia).
  rewrite u32_small, u64_small by (unfold line in *; nia). unfold line. lia.
Qed.

Lemma idle_entry p x : idle p -> getPrefetchEntry bits x p = Ok None.
Proof.
  intros (Hprm & Hsize & Hinv & _). unfold getPrefetchEntry. rewrite Hprm.
  match goal with |- context [for_ctl ?n ?i ?body] => destruct (for_ctl_search body (fun _ => false) Datatypes.id n i) as [(? & _ & ? & _)|[_ ->]] end;
    [|done|done].
  intros k Hk. destruct (vec_get_in_range (m_array p) k) as [e He]; [lia|]. rewrite He. cbn [mbind result_bind].
  pose proof (Forall_vec_get _ _ _ _ Hinv He) as Hv. cbn in Hv. by rewrite Hv.
Qed.

Lemma idle_lru p : idle p -> getLRUindex p = Ok 0.
Proof.
  intros (Hprm & Hsize & Hinv & _). destruct Hp as (_ & _ & Hn & _). unfold getLRUindex. rewrite Hprm.
  destruct (vec_get_in_range (m_array p) 0) as [e He]; [lia|]. rewrite He. cbn [mbind result_bind].
  destruct (Z.to_nat (m_num_streams prm)) eqn:E; [lia|]. cbn [for_ctl]. rewrite He. cbn [mbind result_bind].
  pose proof (Forall_vec_get _ _ _ _ Hinv He) as Hv. cbn in Hv. by rewrite Hv.
Qed.

(** A line that the first entry waits for. *)
Lemma filter_hit i p : trained i p -> 1 <= i < 2 ^ 32 -> line (i + 1) < 2 ^ 64 ->
  exists f', accessUnitFilter bits (line i) 1 prm (m_unit_filter p) = Ok (true, m_train_misses prm <=? i, f') /\
    trained (i + 1) (with_m_unit_filter f' p).
Proof.
  intros (Hidle & Ht & Hh & Htable & Hhit) Hi Hmax. destruct Hp as (Hb & _ & _ & Hn & _). unfold accessUnitFilter.
  assert (0 < 2 ^ bits) by (apply Z.pow_pos_nonneg; lia). rewrite line_line by (unfold line in *; lia).
  destruct (Z.to_nat (m_num_unit_filters prm)) eqn:E; [lia|]. cbn [for_ctl]. rewrite Htable. cbn [mbind result_bind].
  rewrite Z.eqb_refl. cbn [mbind result_bind]. rewrite (vec_modify_Ok _ _ _ _ Htable), (vec_modify_Ok _ _ _ _ Hhit). cbn [mbind result_bind].
  rewrite (vec_get_insert _ _ _ _ Hhit). cbn [mbind result_bind]. rewrite line_next by lia.
  replace (i - 1 + 1) with i by lia. rewrite u32_small by lia. eexists. split; [done|].
  split_and!; [done..| | | |]; cbn [m_unit_filter with_m_unit_filter uf_table uf_hit]; [by rewrite vsize_insert | by rewrite vsize_insert | |].
  - by eapply vec_get_insert.
  - rewrite (vec_get_insert _ _ _ _ Hhit). f_equal. lia.
Qed.

(** A miss before the last one. *)
Lemma train_step cur i p : trained i p -> 1 <= i < 2 ^ 32 -> i < m_train_misses prm -> line (i + 1) < 2 ^ 64 ->
  exists p', observeMiss bits cur (line i) type p = Ok p' /\ trained (i + 1) p'.
Proof.
  intros Htr Hi Hlt Hmax. pose proof Hp as (Hb & _). assert (0 < 2 ^ bits) by (apply Z.pow_pos_nonneg; lia).
  unfold observeMiss. set (p0 := on_pf_stats _ p). assert (Htr0 : trained i p0) by done.
  rewrite idle_entry by apply Htr0. cbn [mbind result_bind]. unfold miss_unit. rewrite (proj1 (proj1 Htr0)).
  rewrite line_line by (unfold line in *; lia). destruct (filter_hit i p0) as (f' & -> & Hf'); [done..|]. cbn [mbind result_bind].
  destruct (Z.leb_spec (m_train_misses prm) i); [lia|]. by eexists.
Qed.

(** ** The start of a stream *)

Lemma startup_one index b p : pf_params p = prm -> 0 <= b -> line (b + 1) < 2 ^ 64 -> pageAddress (line (b + 1)) prm = pageAddress a prm ->
  startup_prefetch bits index 1 (pageAddress a prm) type (line b, p) =
  Ok (Cont (line (b + 1), enqueuePrefetch (line (b + 1)) type
        (on_pf_stats (fun s => with_numPrefetchRequested (numPrefetchRequested s + 1) s) p))).
Proof. intros Hprm Hb0 Hmax Hpage. unfold startup_prefetch. by rewrite Hprm, line_next, Hpage, Z.eqb_refl. Qed.

Lemma startup_loop index b p n : pf_params p = prm -> 0 <= b -> line (b + Z.of_nat n) < 2 ^ 64 ->
  (forall k, b < k <= b + Z.of_nat n -> pageAddress (line k) prm = pageAddress a prm) ->
  forall i, exists p', for_ctl n i (fun _ => startup_prefetch bits index 1 (pageAddress a prm) type) (line b, p) =
    Ok (Cont (line (b + Z.of_nat n), p')) /\ m_array p' = m_array p /\
    pf_requests p' = pf_requests p ++ map (fun k => (line (b + 1 + Z.of_nat k), type)) (seq 0 n).
Proof.
  revert b p. induction n as [|n IH]; intros b p Hprm Hb0 Hmax Hpage i; cbn [for_ctl].
  { exists p. rewrite Z.add_0_r. cbn. by rewrite app_nil_r. }
  pose proof Hp as (Hb & _). assert (0 < 2 ^ bits) by (apply Z.pow_pos_nonneg; lia).
  rewrite startup_one; [|done | lia | unfold line in *; nia | apply Hpage; lia]. cbn [mbind result_bind]. set (p1 := enqueuePrefetch _ _ _).
  destruct (IH (b + 1) p1 Hprm) with (i := i + 1) as (p' & Hl & Harr & Hreq); [lia | | |].
  - by replace (b + 1 + Z.of_nat n) with (b + Z.of_nat (S n)) by lia.
  - intros k Hk. apply Hpage. lia.
  - exists p'. rewrite Hl. split; [by replace (b + Z.of_nat (S n)) with (b + 1 + Z.of_nat n) by lia|]. split; [done|]. rewrite Hreq. cbn [seq map].
    unfold p1, enqueuePrefetch. cbn [pf_requests with_pf_requests on_pf_stats]. rewrite <- app_assoc. cbn [app]. do 2 f_equal.
    { do 2 f_equal. lia. }
    rewrite <- seq_shift, map_map. apply map_ext. intros k. do 2 f_equal. lia.
Qed.

(** The last miss starts the stream. *)
Lemma train_last cur i p : trained i p -> 1 <= i < 2 ^ 32 -> m_train_misses prm <= i -> 0 <= m_num_startup_pfs prm ->
  line (i + 1 + m_num_startup_pfs prm) < 2 ^ 64 ->
  (forall k, i <= k <= i + m_num_startup_pfs prm -> pageAddress (line k) prm = pageAddress a prm) ->
  exists p', observeMiss bits cur (line i) type p = Ok p' /\
    pf_requests p' = map (fun k => (line (i + 1 + Z.of_nat k), type)) (seq 0 (Z.to_nat (m_num_startup_pfs prm))).
Proof.
  intros Htr Hi Hle Hst Hmax Hpage. pose proof Hp as (Hb & _ & Hn & _). assert (0 < 2 ^ bits) by (apply Z.pow_pos_nonneg; lia).
  unfold observeMiss. set (p0 := on_pf_stats _ p). assert (Htr0 : trained i p0) by done.
  rewrite idle_entry by apply Htr0. cbn [mbind result_bind]. unfold miss_unit. rewrite (proj1 (proj1 Htr0)).
  rewrite line_line by (unfold line in *; nia). destruct (filter_hit i p0) as (f' & -> & Hf'); [done.. | unfold line in *; nia|].
  cbn [mbind result_bind]. destruct (Z.leb_spec (m_train_misses prm) i); [|lia]. destruct Hf' as [Hidle _].
  set (p1 := with_m_unit_filter f' p0) in *. unfold allocateStream. rewrite idle_lru by done. cbn [mbind result_bind].
  destruct Hidle as (Hprm & Hsize & Hinv & Hreq). unfold initializeStream. rewrite Hprm, !line_line by (unfold line in *; nia).
  rewrite (Hpage i) by lia.
  edestruct (vec_modify_total (m_array (on_pf_stats (fun s => with_numAllocatedStreams (numAllocatedStreams s + 1) s) p1)) 0)
    as (e & l & _ & -> & Hl & _); [change (m_array (on_pf_stats ?f ?q)) with (m_array q); lia|]. cbn [mbind result_bind].
  match goal with |- context [for_ctl ?n 0 _ (_, ?q)] => destruct (startup_loop 0 i q n) with (i := 0) as (p' & -> & Harr & Hreq') end;
    [done | lia | unfold line in *; nia | intros k Hk; apply Hpage; lia|].
  cbn [mbind result_bind]. edestruct (vec_modify_total (m_array p') 0) as (? & l' & _ & -> & _).
  { rewrite Harr. change (0 <= 0 < vsize l). rewrite Hl. change (0 <= 0 < vsize (m_array p1)). lia. }
  eexists. split; [done|]. cbn [mbind result_bind pf_requests with_m_array]. rewrite Hreq'.
  change (pf_requests (with_m_array ?l (on_pf_stats ?f ?q))) with (pf_requests q). by rewrite Hreq.
Qed.

Lemma find_none f x n : vsize f = n -> Forall (fun y => y <> x) f ->
  for_ctl (Z.to_nat n) 0 (fun i (_ : unit) => y ← vec_get f i; Ok (if y =? x then Brk i else Cont tt)) tt = Ok (Cont tt).
Proof.
  intros Hn Hall.
  match goal with |- for_ctl ?n ?i ?body tt = _ => destruct (for_ctl_search body (fun _ => false) Datatypes.id n i) as [(? & _ & ? & _)|[_ ->]] end;
    [|done|done].
  intros k Hk. destruct (vec_get_in_range f k) as [y Hy]; [lia|]. rewrite Hy. cbn [mbind result_bind].
  pose proof (Forall_vec_get _ _ _ _ Hall Hy) as Hne. cbn in Hne. by destruct (Z.eqb_spec y x).
Qed.

(** An address that is not in the empty filter takes its first entry. *)
Lemma filter_first x stride : 0 <= x < 2 ^ 64 -> makeLineAddress bits x = x -> x <> 0 ->
  accessUnitFilter bits x stride prm (UnitFilter_new (m_num_unit_filters prm)) =
  Ok (false, false, mkUnitFilter (<[0%nat := makeNextStrideAddress bits x stride]> (replicate (Z.to_nat (m_num_unit_filters prm)) 0))
    (<[0%nat := 0]> (replicate (Z.to_nat (m_num_unit_filters prm)) 0)) (if m_num_unit_filters prm <=? 1 then 0 else 1)).
Proof.
  intros Hx Hl Hx0. destruct Hp as (_ & _ & _ & Hn & _). unfold accessUnitFilter. rewrite Hl.
  cbn [UnitFilter_new uf_table uf_hit uf_index]. assert (Hsize : vsize (replicate (Z.to_nat (m_num_unit_filters prm)) 0) = m_num_unit_filters prm)
    by (unfold vsize; rewrite length_replicate; lia).
  rewrite find_none; [|done | apply Forall_replicate; lia]. cbn [mbind result_bind]. change (i32 0) with 0.
  rewrite !vec_set_in_range by lia. done.
Qed.

(** No stride is known yet, so the third filter does not make a stream. *)
Lemma nonunit_first x f : nonunit_ok bits prm f -> Forall (fun s => s = 0) (m_nonunit_stride f) -> 0 <= x < 2 ^ 64 ->
  exists hit f', accessNonunitFilter bits x prm f = Ok (hit, None, f').
Proof.
  intros Hok Hz Hx. pose proof Hok as (Hf & Hs & Hh & _). unfold accessNonunitFilter.
  edestruct (for_ctl_total (fun _ (_ : unit) => True) (fun ix : Z * Z => 0 <= ix.1 < m_num_nonunit_filters prm)) as (c & -> & Hc); [done| |].
  { intros k [] Hk _. destruct (vec_get_in_range (m_nonunit_filter f) k) as [y ->]; [lia|]. eexists. split; [done|].
    destruct (_ =? _); cbn; [lia | done]. }
  cbn [mbind result_bind]. destruct c as [[]|[i y]].
  { destruct (nonunit_enter_ok bits prm (proj2 (proj2 Hp)) (makeLineAddress bits x) f Hok) as (f' & -> & _);
      [by apply line_aligned, Hx; apply Hp | by do 2 eexists]. }
  cbn [fst] in Hc. set (delta := i32 _). destruct (Z.eqb_spec delta 0); [by do 2 eexists|].
  unfold nonunit_hit. destruct (vec_get_in_range (m_nonunit_stride f) i) as [last Hlast]; [lia|]. rewrite Hlast. cbn [mbind result_bind].
  pose proof (Forall_vec_get _ _ _ _ Hz Hlast) as ->. destruct (Z.eqb_spec delta 0); [done|].
  rewrite (vec_set_in_range (m_nonunit_hit f)) by lia. cbn [mbind result_bind m_nonunit_stride m_nonunit_filter].
  rewrite !vec_set_in_range by lia. by do 2 eexists.
Qed.

Lemma first_miss cur p : Prefetcher_new bits prm = Ok p -> line 1 < 2 ^ 64 ->
  exists p', observeMiss bits cur (line 0) type p = Ok p' /\ trained 1 p'.
Proof.
  intros Hnew Hmax. pose proof Hp as (Hb & Hs & Hn). pose proof (pf_new_ok bits prm (fun _ _ => True) Hn p Hnew) as Hok.
  assert (0 < 2 ^ bits) by (apply Z.pow_pos_nonneg; lia). assert (Hl0 : 0 < line 0 < 2 ^ 64) by (destruct Ha; unfold line in *; lia).
  unfold Prefetcher_new in Hnew. apply bind_Ok in Hnew as ([] & _ & ([] & _ & [= <-])%bind_Ok).
  unfold observeMiss. set (p0 := on_pf_stats _ _).
  assert (Hidle : idle p0).
  { split_and!; [done | | by apply Forall_replicate | done]. change (vsize (replicate (Z.to_nat (m_num_streams prm)) (PrefetchEntry_new bits)) = m_num_streams prm).
    unfold vsize. rewrite length_replicate. lia. }
  rewrite idle_entry by done. cbn [mbind result_bind]. unfold miss_unit. rewrite line_line by lia.
  change (m_unit_filter p0) with (UnitFilter_new (m_num_unit_filters prm)). change (pf_params p0) with prm.
  rewrite filter_first by (lia || by apply line_line; lia). cbn [mbind result_bind]. unfold miss_negative. rewrite line_line by lia.
  change (m_negative_filter (with_m_unit_filter ?f p0)) with (UnitFilter_new (m_num_unit_filters prm)).
  change (pf_params (with_m_unit_filter ?f p0)) with prm.
  rewrite filter_first by (lia || by apply line_line; lia). cbn [mbind result_bind]. unfold miss_nonunit.
  change (pf_params (with_m_negative_filter ?f (with_m_unit_filter ?g p0))) with prm.
  edestruct (nonunit_first (line 0) (m_nonunit p0)) as (hit & f' & Hnf);
    [exact (ok_nonunit _ _ _ _ Hok) | by apply Forall_replicate | lia|].
  change (m_nonunit (with_m_negative_filter ?f (with_m_unit_filter ?g p0))) with (m_nonunit p0). rewrite Hnf. cbn [mbind result_bind].
  eexists. split; [done|]. split; [exact Hidle|].
  cbn [m_unit_filter with_m_nonunit with_m_negative_filter with_m_unit_filter uf_table uf_hit].
  assert (Hsize : vsize (replicate (Z.to_nat (m_num_unit_filters prm)) 0) = m_num_unit_filters prm) by (unfold vsize; rewrite length_replicate; lia).
  rewrite !vsize_insert. split_and!; [done | done | |]; (rewrite (vec_get_insert_eq _ 0) by lia); [|done].
  change 1 with (0 + 1) at 2. f_equal. apply line_next; [lia | exact Hmax].
Qed.

(** [n] misses from line [i] on, one per cycle. *)
Fixpoint ascending (i : Z) (n : nat) : list (Z * pf_op) :=
  match n with O => [] | S n' => (i, OMiss (line i) type) :: ascending (i + 1) n' end.

Lemma train_run n i p : trained i p -> 1 <= i -> i + Z.of_nat n = m_train_misses prm -> m_train_misses prm < 2 ^ 32 ->
  0 <= m_num_startup_pfs prm -> line (m_train_misses prm + 1 + m_num_startup_pfs prm) < 2 ^ 64 ->
  (forall k, 0 <= k <= m_train_misses prm + m_num_startup_pfs prm -> pageAddress (line k) prm = pageAddress a prm) ->
  exists p', foldM (pf_step bits) (ascending i (S n)) p = Ok p' /\
    pf_requests p' = map (fun k => (line (m_train_misses prm + 1 + Z.of_nat k), type)) (seq 0 (Z.to_nat (m_num_startup_pfs prm))).
Proof.
  intros Htr Hi Hn Ht Hst Hmax Hpage. revert i p Htr Hi Hn. induction n as [|n IH]; intros i p Htr Hi Hn.
  - destruct (train_last i i p) as (p' & Hm & Hreq); [done | lia | lia | done | | |].
    + by replace i with (m_train_misses prm) by lia.
    + intros k Hk. apply Hpage. lia.
    + exists p'. cbn [ascending foldM]. change (pf_step ?b ?q (?c, OMiss ?x ?t)) with (observeMiss b c x t q). rewrite Hm. split; [done|].
      by replace i with (m_train_misses prm) in Hreq by lia.
  - pose proof Hp as (Hb & _). assert (0 < 2 ^ bits) by (apply Z.pow_pos_nonneg; lia).
    destruct (train_step i i p) as (p1 & Hm & Htr1); [done | lia | lia | unfold line in *; nia|].
    destruct (IH (i + 1) p1) as (p' & Hrun & Hreq); [done | lia | lia|].
    exists p'. split; [|done]. cbn [ascending foldM] in *. change (pf_step ?b ?q (?c, OMiss ?x ?t)) with (observeMiss b c x t q). rewrite Hm. exact Hrun.
Qed.
End Training.

(** C35: An ascending sequence of misses starts a stream.  From a new prefetcher with streams, filter entries and pages as in
    [pf_params_ok] (at least one stream, from 1 to 2^31 - 1 entries in each filter, pages that hold a block), block offsets
    of less than 32 bits and from 1 to 2^32 - 1 training misses, [train_misses] + 1 misses on consecutive
    lines, which like the lines to be prefetched lie on one page below 2^64, make it ask for exactly the next
    [num_startup_pfs] lines, in order and with the type of the misses.  The first line is not line 0: the
    filters start with zeroes, so a miss on line 0 counts as a hit of an entry that was never made. *)
Theorem ascending_stream_prefetched bits prm type a p : pf_params_ok bits prm -> bits < 32 -> aligned bits a -> 0 < a ->
  1 <= m_train_misses prm < 2 ^ 32 -> 0 <= m_num_startup_pfs prm ->
  line bits a (m_train_misses prm + 1 + m_num_startup_pfs prm) < 2 ^ 64 ->
  (forall k, 0 <= k <= m_train_misses prm + m_num_startup_pfs prm -> pageAddress (line bits a k) prm = pageAddress a prm) ->
  Prefetcher_new bits prm = Ok p ->
  exists p', foldM (pf_step bits) (ascending bits a type 0 (S (Z.to_nat (m_train_misses prm)))) p = Ok p' /\
    pf_requests p' = map (fun k => (line bits a (m_train_misses prm + 1 + Z.of_nat k), type)) (seq 0 (Z.to_nat (m_num_startup_pfs prm))).
Proof.
  intros Hp Hb Ha Ha0 Ht Hst Hmax Hpage Hnew. assert (0 < 2 ^ bits) by (destruct Hp as [? _]; apply Z.pow_pos_nonneg; lia).
  destruct (first_miss bits a prm type Hp Hb Ha Ha0 0 p Hnew) as (p1 & Hm & Htr); [unfold line in *; nia|].
  destruct (Z.to_nat (m_train_misses prm)) as [|n] eqn:E; [lia|].
  destruct (train_run bits a prm type Hp Hb Ha Ha0 n 1 p1) as (p' & Hrun & Hreq); try done; [lia | lia|].
  exists p'. split; [|done]. cbn [ascending foldM] in *. change (pf_step ?b ?q (?c, OMiss ?x ?t)) with (observeMiss b c x t q). rewrite Hm. exact Hrun.
Qed.

Lemma ascending_stream_prefetched_witness : exists p p', Prefetcher_new 6 (ex_pf_params false) = Ok p /\
  foldM (pf_step 6) (ascending 6 0x1000 RubyRequestType_ST 0 5) p = Ok p' /\ pf_requests p' = [(0x1140, RubyRequestType_ST)].
Proof.
  destruct (Prefetcher_new 6 (ex_pf_params false)) as [p|] eqn:Hnew; [|discriminate Hnew]. exists p.
  destruct (ascending_stream_prefetched 6 (ex_pf_params false) RubyRequestType_ST 0x1000 p) as (p' & Hrun & Hreq).
  - vm_compute. intuition discriminate.
  - lia.
  - split; [lia|]. by exists 64.
  - lia.
  - cbn. lia.
  - cbn. lia.
  - vm_compute. reflexivity.
  - intros k Hk. cbn in Hk. assert (Hcases : k = 0 \/ k = 1 \/ k = 2 \/ k = 3 \/ k = 4 \/ k = 5) by lia.
    destruct Hcases as [->|[->|[->|[->|[->| ->]]]]]; vm_compute; reflexivity.
  - exact Hnew.
  - exists p'. split; [reflexivity|]. split; [exact Hrun | exact Hreq].
Defined.
